(* ===== verification/_CoqProject ===== *)
-Q . S2P
Prelude.v
Refinement.v
Fallible.v
Octets.v
Buffer.v
X25519.v
Random.v
Ring.v
ByteQueue.v
MsgQueue.v
Salsa20.v
Aead.v
ClientAuth.v
ServerAuth.v
ClientHelloTemplates.v
ClientHello.v
Frame.v
HeapOrder.v
Heap.v
Stream.v
StreamSpec.v
StreamDelivery.v
StrmTab.v
Valve.v
FirstPacket.v
ClientHelloParse.v
ClientHelloSteps.v
ClientHelloLayout.v
ClientHelloBuild.v
Base64.v
WsFrame.v
WsHandshake.v
WsHandshakeSpec.v
WsUpgrade.v
SipHash.v
ReplayCache.v
Http.v
HttpSpec.v
ReactorApi.v
TimerHeap.v
TimerSpec.v
Reactor.v
ReactorTurn.v
ReactorInst.v
ClientTransport.v
ClientReply.v
ClientHandshake.v
ClientInit.v
Handshake.v
Conn.v
Envelope.v
ConnInv.v
ConnRecv.v
ConnSend.v
ConnRun.v
Switchboard.v
SwitchboardRng.v
SwitchboardInv.v
SwitchboardRun.v
SwitchboardSpec.v
Session.v
SessionInv.v
SessionStreams.v
SessionSteps.v
SessionRun.v
SessionSend.v
SessionLife.v
SessionReach.v
SessionSpec.v
SessionDemo.v
Hlist.v
Registry.v
RegistryInv.v
RegistrySteps.v
RegistryRun.v
RegistryApi.v
RegistryClose.v
RegistrySpec.v
RegistrySessions.v
RegistryDemo.v
