(* ===== verification/Prelude.v ===== *)
(** * A verification development for Cloak-c

    Cloak-c is a C port of Cloak: it carries proxied connections inside what
    looks to an observer like a browser's TLS or WebSocket traffic.  A client
    ([src/libcloak-client]) proves its identity inside a ClientHello, the
    server ([src/libcloak-server]) recognises it, both agree on a session key,
    and from then on the multiplexer ([src/libcloak-mux]) carries many streams
    over a few connections; [src/libcloak-common] holds what all of them use.
    Every definition below is translated from those sources, function by
    function and with the names of the sources; the theorems are about the
    translated functions.

    ** How C is rendered

    - A fixed-width unsigned integer is a [Z] with its wrap-around written out
      ([u8] to [u64]); signed arithmetic that would overflow is undefined
      behaviour ([i64]).
    - A block of memory is a list; an access outside it is undefined behaviour
      and yields [None] ([mem_get], [mem_read], [mem_write], written
      [l.[i]], [l.[i +: n]], [l.[i <- src]]).  "The operation returns [Some]"
      is therefore memory safety.
    - A function that can also return an error code has type [parse A]
      ([Fallible]): [None] undefined behaviour, [Some None] the error, [Some
      (Some x)] success.  A pointer that is checked against NULL is an [option].
    - A loop is a structural recursion where the data allows it; otherwise it
      has fuel, and a theorem says how much is enough.
    - OpenSSL is a parameter: the classes [Evp] (AEAD), [EvpX25519],
      [EvpP256] and [Sha1] hold the call sequences, the classes [EvpLaws], [X25519Laws],
      [P256Laws] and [KeygenAvailable] what OpenSSL documents of them; each has
      a concrete instance that the witnesses use.  The generator of random
      bytes is a tape; [tape_ok] says that its rejection loops end.  The
      kernel's answers ([recv], [send], failing allocations) are arguments, so
      the theorems hold whatever it answers.

    ** The files

    Shared: [Prelude] (words, memory blocks, byte orders, tactics),
    [Refinement] (simulations of a component by its contract), [Fallible],
    [Octets] (the octets of HTTP as the RFC lists them),
    [Buffer] (filling a buffer by a sequence of stores, segments), [Ring].

    The multiplexer:
    - [Frame] (frame.c): frames are sealed and opened; round trip for every
      method and size ([frame_roundtrip]); arbitrary bytes are refused or
      opened inside their buffer.
    - [Heap], [Stream], [StreamSpec], [StreamDelivery] (stream.c): a write is
      cut into frames, the receiving side reassembles them in order
      ([stream_end_to_end], for a write of no more frames than the reorder
      buffer may hold, and [stream_reassembles_any_order]) and refines the
      contract of a reorder buffer or a mailbox of datagrams.
    - [StrmTab] (strmtab.c), [ByteQueue] (bytequeue.c), [MsgQueue]
      (msgqueue.c): containers, each refining a finite map, a bounded FIFO of
      bytes, a bounded list of messages.
    - [Valve] (valve.c): token buckets; no overflow, exact metering, a bound on
      what passes in any span of time, and delays that suffice.
    - [WsFrame] (ws_frame.c): WebSocket frame headers and masking.
    - [Conn] (conn.c): one connection.  [Envelope] is the abstract machine of
      the bytes on the wire, [ConnInv] the invariant with the interface
      [Bystanders] that says what else the event loop may hold, [ConnRecv] and
      [ConnRun] the contracts of its functions and of whole runs:
      [conn_delivers_stream], [conn_output_exact], [conn_never_stalls] (with
      the mask that the event loop holds, not only the one the connection
      remembers), [conn_pair_roundtrip].  [ConnSend] says what a send leaves
      alone and when it calls its owner.
    - [Switchboard] (switchboard.c): the pool of connections.  A callback of a
      connection runs on a focus of the pool, so the contracts of [ConnRun]
      apply inside it ([SwitchboardInv], [SwitchboardRun], [SwitchboardSpec],
      [SwitchboardRng]); the pool's owner is the interface [Companions].
      [pool_send_exact] is the contract of one send, up to and including the
      callback of the owner that is its last step.
    - [Session] (session.c): the owner of a pool.  [SessionInv] holds its
      invariant and discharges [Companions]; [SessionStreams] and
      [SessionSteps] the steps on streams and on the closing of the session;
      [SessionRun], [SessionSend] and [SessionLife] the contracts of the
      callbacks, of sending and of the functions of the header; [SessionReach]
      the histories of events and calls, and two sessions that talk;
      [SessionSpec] the theorems and [SessionDemo] a session of concrete data.

    The server's table of sessions:
    - [Hlist] (the chains of registry.c): intrusive doubly linked lists with
      a pointer back to the pointer, and the two operations on them.
    - [Registry] (registry.c): every function of the registry, over the
      interface [Sessions], what it needs of a session.  [RegistryInv] holds
      the laws of that interface and the invariant, [RegistrySteps],
      [RegistryRun], [RegistryApi] and [RegistryClose] the contracts of its
      functions, including calls that come from inside its callbacks; the last
      also has the histories of calls, expiries and breaking sessions.
      [RegistrySpec] shows that the table is a finite map
      ([registry_refines_table]), that nothing is leaked, freed twice or left
      unswept ([registry_always_sound]), in what order a breaking session is
      announced and freed ([registry_broken_order]) and that throwing a user
      out ends ([registry_close_all_complete]).  [RegistrySessions] discharges
      the interface with the sessions of [Session], many of them in one event
      loop; [RegistryDemo] puts both together ([registry_holds_sessions]).

    The event loop:
    - [ReactorApi] (reactor.h) is the interface between the event loop and the
      objects it drives, with its laws: which timers are armed, which
      descriptors are watched and for which events.  A change of the mask may
      fail, and the sources ignore that; [mod_reliable] says that it does not.
    - [HeapOrder], [TimerHeap], [TimerSpec] (reactor.c, timers): the heap with
      back pointers implements a finite map of deadlines
      ([reactor_timers_contract]).
    - [Reactor] (reactor.c, watches and dispatch) with the interest list of
      epoll, [ReactorTurn]: which callbacks a turn owes and calls, and that it
      never touches a freed watch ([reactor_memory_safe]).  [ReactorInst]: the
      loop is an instance of [ReactorApi]; handles are never issued twice.

    The handshake:
    - [Random], [X25519], [Aead], [Salsa20], [Base64], [SipHash]: the
      primitives, against their published definitions where there are any.
    - [ClientAuth] (client_auth.c), [ServerAuth] (server_auth.c): the proof of
      identity and the replies ([auth_roundtrip]).
    - [ClientHelloTemplates], [ClientHello] (clienthello.c): composing a
      browser's ClientHello around the proof; [ClientHelloSteps],
      [ClientHelloLayout], [ClientHelloBuild] prove that the result is the
      browser's message and that the server reads it back
      ([clienthello_roundtrip]).
    - [FirstPacket] (firstpacket.c), [ClientHelloParse] (clienthello_parse.c),
      [Http] and [HttpSpec] (http.c), [ReplayCache] (replay_cache.c): what the
      server does with the first packet, each against a grammar or a history.
    - [WsHandshake] (ws_handshake.c): the upgrade request that hides the proof
      of identity, and the answer.  [WsHandshakeSpec] is the grammar of such
      requests with a verdict over their fields, [WsUpgrade] proves that the
      parser is that grammar ([ws_upgrade_exact], with the classes of octets,
      the GUID and the alphabet of the RFCs), when an answer is written
      ([ws_answer_exact]) and that the server reads the client back however a
      proxy in between rewrote the request ([ws_client_recognised]).
      The file ends with an instance of SHA-1 and concrete requests.
    - [ClientTransport] (client_transport.c) is the client's handshake object, [ClientReply] its verdict on the reply,
      [ClientHandshake] its runs ([client_handshake_exact],
      [client_handshake_cleanup], [client_handshake_completes]), [ClientInit]
      its preparation.
    - [Handshake] puts client and server together ([handshake_end_to_end]).

    ** Layers and callbacks

    A connection, a pool and a session call each other through callbacks, and a
    callback may come back into the object that is running.  Each layer is
    therefore a function on the whole world it can reach: the world of a
    connection is the connection, the event loop, its valve, the script of the
    kernel's answers, a log and the state of its owner; the world of a pool has
    the pool and the state of the pool's owner; a session is that owner.  The
    owner's callbacks are parameters, and a theorem about a layer assumes of
    them only that they return and keep the layer's own data (for a session
    [app_ok]: they leave the session in order; [on_writable], which runs under
    a write, frees no stream; only [on_broken] may destroy the session).  What
    an object relies on for the rest of the event loop (that nobody fires or
    removes its timers and watches) is the interface of [ReactorApi] and
    [Bystanders].  A stream is allocated at an address that was never used, and
    freeing removes the address from the heap, so that a use after free is
    [None]; [session_always_sound] says that it does not happen, and
    [registry_always_sound] says it of the entries of the registry, whose
    owner's callbacks [owner_keeps] and [closing_keeps] describe.  What the
    sessions in a registry do on their own is a step that keeps the interface
    [Sessions], not a run of [Session].

    ** Fuel and bounds

    [cloak_random_below], the coefficient sampler of the ClientHello and the
    probe loops have fuel; the hypotheses [fair] and [fair_coefficients] on the
    tape say that some draw within the fuel is accepted, which fails for
    uniform bytes with a probability that falls exponentially with the fuel.
    The ClientHello parser needs one unit for each extension and key share and
    2059 for a composed hello (its length).  The loop of [feed] needs one unit
    per byte.  [next_pow2_loop] has no sufficient fuel for hints above [2^63]:
    that the sources never return then is the theorem [strmtab_init_diverges].

    The loops of a connection use the length of the receive queue or the
    backlog of the send queue as fuel; [roomy] bounds the counters of the
    valve, which may not overflow during a step.  [pick_fuel] is 64 draws plus
    [unlucky], a bound on the draws the tape rejects in a row.  The loops of
    the registry use the number of entries; the walks of a chain visit an
    entry once, and every round of a loop that empties a chain frees one.

    ** Not modelled

    The relays, dispatcher, piper and proxy (relay.c, stream_relay.c,
    dispatcher.c, client_stack.c and their kin) are reactor callbacks around
    sockets that compose the parts above.  Configuration (config_ssv.c builds
    cJSON objects from the option string of a plugin) and the user database
    are cJSON and SQLite calls, code outside the sources; dial.c,
    listener.c, signals.c and log.c are system calls; the command-line
    programs are argument parsing and wiring. *)
From Stdlib Require Export ZArith Lia.
From stdpp Require Export base tactics numbers option list.

Open Scope Z_scope.

Declare Scope cloak_scope.
Delimit Scope cloak_scope with cloak.
Open Scope cloak_scope.

(** ** Bytes and machine words *)

(** A byte buffer; every element is meant to satisfy [is_byte]. *)
Abbreviation bytes := (list Z).

Definition is_byte (b : Z) : Prop := 0 <= b < 256.

Definition all_bytes (l : bytes) : Prop := Forall is_byte l.

(** Conversions to the unsigned types of C, which wrap. *)
Definition u8 (x : Z) : Z := x mod 256.
Definition u16 (x : Z) : Z := x mod 65536.
Definition u32 (x : Z) : Z := x mod 4294967296.
Definition u64 (x : Z) : Z := x mod 18446744073709551616.

(** Conversion to [int64_t] (two's complement, as every supported compiler
    implements the conversion). *)
Definition s64 (x : Z) : Z := u64 (x + 9223372036854775808) - 9223372036854775808.

Definition SIZE_MAX : Z := 18446744073709551615.
Definition INT64_MAX : Z := 9223372036854775807.
Definition INT64_MIN : Z := -9223372036854775808.

(** Checked signed arithmetic: [None], undefined behaviour, on overflow. *)
Definition i64 (x : Z) : option Z :=
  if (INT64_MIN <=? x) && (x <=? INT64_MAX) then Some x else None.

(** A C truth value computed by a comparison. *)
Definition b2z (b : bool) : Z := if b then 1 else 0.

(** ** Memory blocks

    A memory block is a list; an access outside it is undefined behaviour in
    C and [None] here, so that a theorem "the operation returns [Some]" says
    that the operation is memory safe. *)
Definition zlen {A} (l : list A) : Z := Z.of_nat (length l).

Definition mem_get {A} (l : list A) (i : Z) : option A :=
  if 0 <=? i then l !! Z.to_nat i else None.

Definition mem_set {A} (l : list A) (i : Z) (x : A) : option (list A) :=
  if (0 <=? i) && (i <? zlen l) then Some (<[Z.to_nat i := x]> l) else None.

Definition mem_read {A} (l : list A) (off n : Z) : option (list A) :=
  if (0 <=? off) && (0 <=? n) && (off + n <=? zlen l)
  then Some (take (Z.to_nat n) (drop (Z.to_nat off) l)) else None.

(** [memcpy (l + off, src, length src)]. *)
Definition mem_write {A} (l : list A) (off : Z) (src : list A) : option (list A) :=
  if (0 <=? off) && (off + zlen src <=? zlen l)
  then Some (take (Z.to_nat off) l ++ src ++ drop (Z.to_nat off + length src) l)
  else None.

Notation "l .[ i ]" := (mem_get l i)
  (at level 1, left associativity, format "l .[ i ]") : cloak_scope.
Notation "l .[ i +: n ]" := (mem_read l i n)
  (at level 1, left associativity, format "l .[ i  +:  n ]") : cloak_scope.
Notation "l .[ i <- src ]" := (mem_write l i src)
  (at level 1, left associativity, format "l .[ i  <-  src ]") : cloak_scope.

(** ** Byte orders *)

(** Big-endian value of a byte string, and its inverse on [n] bytes. *)
Definition be_val (l : bytes) : Z := fold_left (fun v b => v * 256 + b) l 0.

Fixpoint be_bytes (n : nat) (v : Z) : bytes :=
  match n with
  | O => []
  | S n' => be_bytes n' (v / 256) ++ [v mod 256]
  end.

(** Little-endian value of a byte string. *)
Fixpoint le_val (l : bytes) : Z :=
  match l with
  | [] => 0
  | b :: l' => b + 256 * le_val l'
  end.

(** ** Tactics *)

Create HintDb cloak_word.
Create Rewrite HintDb cloak_len.

(** Destruct every boolean comparison hidden in a hypothesis or the goal. *)
Ltac bool_hyps :=
  repeat match goal with
  | H : (_ && _) = true |- _ => apply andb_true_iff in H; destruct H
  | H : (_ || _) = false |- _ => apply orb_false_iff in H; destruct H
  | H : negb _ = true |- _ => apply negb_true_iff in H
  | H : negb _ = false |- _ => apply negb_false_iff in H
  | H : (_ <=? _) = true |- _ => apply Z.leb_le in H
  | H : (_ <=? _) = false |- _ => apply Z.leb_gt in H
  | H : (_ <? _) = true |- _ => apply Z.ltb_lt in H
  | H : (_ <? _) = false |- _ => apply Z.ltb_ge in H
  | H : (_ =? _) = true |- _ => apply Z.eqb_eq in H
  | H : (_ =? _) = false |- _ => apply Z.eqb_neq in H
  end.

(** Case analysis on the boolean condition of an [if]. *)
Ltac case_if :=
  match goal with
  | |- context [if ?b then _ else _] => let E := fresh "E" in destruct b eqn:E; bool_hyps
  end.
Ltac case_if_in H :=
  match type of H with
  | context [if ?b then _ else _] => let E := fresh "E" in destruct b eqn:E; bool_hyps
  end.

(** Arithmetic with division and remainder by constants. *)
Ltac dlia := Z.to_euclidean_division_equations; lia.

(** Evaluate [Z.to_nat] on literals. *)
Ltac znat :=
  repeat match goal with
  | |- context [Z.to_nat Z0] => change (Z.to_nat Z0) with 0%nat
  | |- context [Z.to_nat (Zpos ?p)] =>
      let n := eval vm_compute in (Z.to_nat (Zpos p)) in change (Z.to_nat (Zpos p)) with n
  end.

(** Evaluate lookups at literal offsets and the binds around them. *)
Ltac mem_eval :=
  cbv [mem_get Z.leb Z.compare Z.to_nat Pos.to_nat Pos.iter_op lookup list_lookup
       Nat.add mbind option_bind].

(** Decide the boolean comparisons of the goal that [lia] can decide. *)
Ltac decide_cmp :=
  repeat match goal with
  | |- context [?a <=? ?b] =>
      first [rewrite (proj2 (Z.leb_le a b)) by lia | rewrite (proj2 (Z.leb_gt a b)) by lia]
  | |- context [?a <? ?b] =>
      first [rewrite (proj2 (Z.ltb_lt a b)) by lia | rewrite (proj2 (Z.ltb_ge a b)) by lia]
  | |- context [?a =? ?b] =>
      first [rewrite (proj2 (Z.eqb_eq a b)) by lia | rewrite (proj2 (Z.eqb_neq a b)) by lia]
  end.

(** ** Words *)

Lemma u8_small x : 0 <= x < 256 -> u8 x = x.
Proof. apply Z.mod_small. Qed.

Lemma u16_small x : 0 <= x < 65536 -> u16 x = x.
Proof. apply Z.mod_small. Qed.

Lemma u32_small x : 0 <= x < 4294967296 -> u32 x = x.
Proof. apply Z.mod_small. Qed.

Lemma u64_small x : 0 <= x < 18446744073709551616 -> u64 x = x.
Proof. apply Z.mod_small. Qed.

Lemma u8_range x : 0 <= u8 x < 256.
Proof. by apply Z.mod_pos_bound. Qed.

Lemma u16_range x : 0 <= u16 x < 65536.
Proof. by apply Z.mod_pos_bound. Qed.

Lemma u32_range x : 0 <= u32 x < 4294967296.
Proof. by apply Z.mod_pos_bound. Qed.

Lemma u64_range x : 0 <= u64 x < 18446744073709551616.
Proof. by apply Z.mod_pos_bound. Qed.

Lemma s64_small x : INT64_MIN <= x <= INT64_MAX -> s64 x = x.
Proof. unfold INT64_MIN, INT64_MAX, s64; intros. rewrite u64_small; lia. Qed.

Lemma i64_Some x : INT64_MIN <= x <= INT64_MAX -> i64 x = Some x.
Proof. intros. unfold i64. by decide_cmp. Qed.

Lemma u8_is_byte x : is_byte (u8 x).
Proof. apply u8_range. Qed.

#[export] Hint Resolve u8_range u16_range u32_range u64_range u8_is_byte : cloak_word.

(** Remove the wrap-arounds that [lia] shows to be the identity. *)
Ltac usimpl :=
  repeat match goal with
  | |- context [u64 ?x] => rewrite (u64_small x) by lia
  | |- context [u32 ?x] => rewrite (u32_small x) by lia
  | |- context [u16 ?x] => rewrite (u16_small x) by lia
  | |- context [u8 ?x] => rewrite (u8_small x) by lia
  end.

Lemma lxor_range n a b : 0 <= a < 2 ^ n -> 0 <= b < 2 ^ n -> 0 <= Z.lxor a b < 2 ^ n.
Proof.
  intros Ha Hb. split; [apply Z.lxor_nonneg; lia|].
  destruct (Z.lt_ge_cases n 0); [rewrite Z.pow_neg_r in * by lia; lia|].
  assert (Hhigh : forall x, 0 <= x < 2 ^ n -> x mod 2 ^ n = x) by (intros; by apply Z.mod_small).
  replace (Z.lxor a b) with (Z.lxor a b mod 2 ^ n); [apply Z.mod_pos_bound; lia|].
  apply Z.bits_inj'. intros i Hi. destruct (Z.lt_ge_cases i n).
  - by rewrite Z.mod_pow2_bits_low by lia.
  - rewrite Z.mod_pow2_bits_high, Z.lxor_spec by lia. rewrite <- (Hhigh a), <- (Hhigh b) by done.
    by rewrite !Z.mod_pow2_bits_high by lia.
Qed.

Lemma lxor_byte a b : is_byte a -> is_byte b -> is_byte (Z.lxor a b).
Proof. apply (lxor_range 8). Qed.

(** A disjoint [lor] is a sum. *)
Lemma lor_shiftl_add a b n :
  0 <= n -> 0 <= b < 2 ^ n -> Z.lor (Z.shiftl a n) b = a * 2 ^ n + b.
Proof.
  intros Hn Hb. rewrite <- Z.add_lor_land.
  rewrite Z.shiftl_mul_pow2 by done.
  enough (Z.land (a * 2 ^ n) b = 0) by lia.
  rewrite <- Z.shiftl_mul_pow2 by done.
  apply Z.bits_inj'. intros i Hi. rewrite Z.land_spec, Z.bits_0.
  destruct (Z.lt_ge_cases i n).
  - by rewrite Z.shiftl_spec_low.
  - rewrite <- (Z.mod_small b (2 ^ n)) by done.
    rewrite Z.mod_pow2_bits_high by lia. apply andb_false_r.
Qed.

(** ** Memory blocks *)

Section memory.
Context {A : Type}.
Implicit Types l src : list A.

Lemma zlen_nonneg l : 0 <= zlen l.
Proof. unfold zlen; lia. Qed.

Lemma zlen_nil : zlen (@nil A) = 0.
Proof. done. Qed.

Lemma zlen_cons x l : zlen (x :: l) = 1 + zlen l.
Proof. unfold zlen; cbn [length]; lia. Qed.

Lemma zlen_app l l' : zlen (l ++ l') = zlen l + zlen l'.
Proof. unfold zlen. rewrite length_app; lia. Qed.

Lemma zlen_length l : Z.to_nat (zlen l) = length l.
Proof. unfold zlen; lia. Qed.

Lemma zlen_take l n : 0 <= n <= zlen l -> zlen (take (Z.to_nat n) l) = n.
Proof. unfold zlen; intros. rewrite length_take; lia. Qed.

Lemma zlen_drop l n : 0 <= n <= zlen l -> zlen (drop (Z.to_nat n) l) = zlen l - n.
Proof. unfold zlen; intros. rewrite length_drop; lia. Qed.

Lemma zlen_replicate n (x : A) : zlen (replicate n x) = Z.of_nat n.
Proof. unfold zlen. by rewrite length_replicate. Qed.

Lemma zlen_zero l : zlen l = 0 -> l = [].
Proof. destruct l; [done|]. rewrite zlen_cons. pose proof (zlen_nonneg l); lia. Qed.

Lemma mem_get_lookup l i : 0 <= i -> l.[i] = l !! Z.to_nat i.
Proof. intros. unfold mem_get. by decide_cmp. Qed.

Lemma mem_get_Some l i : 0 <= i < zlen l -> exists x, l.[i] = Some x.
Proof.
  intros. rewrite mem_get_lookup by lia. apply lookup_lt_is_Some_2. unfold zlen in *; lia.
Qed.

Lemma mem_get_inv l i x : l.[i] = Some x -> 0 <= i < zlen l /\ l !! Z.to_nat i = Some x.
Proof.
  unfold mem_get. case_if; [|done]. intros Hl. split; [|done].
  apply lookup_lt_Some in Hl. unfold zlen; lia.
Qed.

Lemma mem_get_app_l l l' i : i < zlen l -> (l ++ l').[i] = l.[i].
Proof.
  intros. unfold mem_get. case_if; [|done]. apply lookup_app_l. unfold zlen in *; lia.
Qed.

Lemma mem_get_app_r l l' i : zlen l <= i -> (l ++ l').[i] = l'.[i - zlen l].
Proof.
  intros. pose proof (zlen_nonneg l). unfold mem_get. decide_cmp.
  rewrite lookup_app_r by (unfold zlen in *; lia). f_equal. unfold zlen; lia.
Qed.

Lemma mem_set_Some l i x : 0 <= i < zlen l -> mem_set l i x = Some (<[Z.to_nat i := x]> l).
Proof. intros. unfold mem_set. by decide_cmp. Qed.

Lemma mem_read_Some l off n :
  0 <= off -> 0 <= n -> off + n <= zlen l ->
  l.[off +: n] = Some (take (Z.to_nat n) (drop (Z.to_nat off) l)).
Proof. intros. unfold mem_read. by decide_cmp. Qed.

Lemma mem_read_inv l off n r :
  l.[off +: n] = Some r ->
  0 <= off /\ 0 <= n /\ off + n <= zlen l /\
  r = take (Z.to_nat n) (drop (Z.to_nat off) l) /\ zlen r = n.
Proof.
  unfold mem_read. case_if; [|done]. intros [= <-]. repeat split; try lia.
  rewrite zlen_take; [done|]. rewrite zlen_drop; lia.
Qed.

Lemma mem_read_app l src l' off n :
  off = zlen l -> n = zlen src -> (l ++ src ++ l').[off +: n] = Some src.
Proof.
  intros -> ->. pose proof (zlen_nonneg l). pose proof (zlen_nonneg src).
  pose proof (zlen_nonneg l').
  rewrite mem_read_Some by (rewrite ?zlen_app; lia).
  rewrite !zlen_length, drop_app_length, take_app_length. done.
Qed.

Lemma mem_read_all l n : n = zlen l -> l.[0 +: n] = Some l.
Proof.
  intros ->. pose proof (mem_read_app [] l [] 0 (zlen l) eq_refl eq_refl) as H.
  by rewrite app_nil_r in H.
Qed.

(** A byte of a slice is a byte of the block. *)
Lemma mem_read_head l l' n : n = zlen l -> (l ++ l').[0 +: n] = Some l.
Proof. intros ->. by apply (mem_read_app [] l l'). Qed.

Lemma mem_read_get l off n r i :
  l.[off +: n] = Some r -> 0 <= i < n -> l.[off + i] = r.[i].
Proof.
  intros (?&?&?&->&_)%mem_read_inv ?. rewrite !mem_get_lookup by lia.
  rewrite lookup_take_lt, lookup_drop by lia. f_equal. lia.
Qed.

Lemma mem_write_Some l off src :
  0 <= off -> off + zlen src <= zlen l ->
  l.[off <- src] =
    Some (take (Z.to_nat off) l ++ src ++ drop (Z.to_nat off + length src) l).
Proof. intros. unfold mem_write. by decide_cmp. Qed.

Lemma mem_write_inv l off src l' :
  l.[off <- src] = Some l' ->
  0 <= off /\ off + zlen src <= zlen l /\ zlen l' = zlen l /\
  l' = take (Z.to_nat off) l ++ src ++ drop (Z.to_nat off + length src) l.
Proof.
  unfold mem_write. case_if; [|done]. intros [= <-]. repeat split; try lia.
  unfold zlen in *. rewrite !length_app, length_take, length_drop. lia.
Qed.

(** Writing over the middle of a block that is split at the right places. *)
Lemma mem_write_app l1 old l2 off src :
  off = zlen l1 -> zlen src = zlen old ->
  (l1 ++ old ++ l2).[off <- src] = Some (l1 ++ src ++ l2).
Proof.
  intros -> Hlen. pose proof (zlen_nonneg l1). pose proof (zlen_nonneg l2).
  rewrite mem_write_Some by (rewrite ?zlen_app; lia).
  rewrite zlen_length, take_app_length. f_equal. f_equal. f_equal.
  replace (length l1 + length src)%nat with (length (l1 ++ old)).
  - by rewrite app_assoc, drop_app_length.
  - rewrite length_app. unfold zlen in Hlen. lia.
Qed.

Lemma mem_set_app l x y l' i :
  i = zlen l -> mem_set (l ++ x :: l') i y = Some (l ++ y :: l').
Proof.
  intros ->. pose proof (zlen_nonneg l). pose proof (zlen_nonneg l').
  rewrite mem_set_Some by (rewrite zlen_app, zlen_cons; lia).
  by rewrite zlen_length, insert_app_r_alt, Nat.sub_diag by lia.
Qed.

Lemma mem_set_get l i x l' j :
  mem_set l i x = Some l' -> zlen l' = zlen l /\ l'.[j] = if j =? i then Some x else l.[j].
Proof.
  unfold mem_set. case_if; [|done]. intros [= <-].
  split; [unfold zlen; by rewrite length_insert|].
  unfold mem_get. destruct (Z.leb_spec 0 j).
  - destruct (Z.eqb_spec j i) as [->|]; [apply list_lookup_insert_eq; unfold zlen in *; lia|].
    apply list_lookup_insert_ne. lia.
  - destruct (Z.eqb_spec j i); [lia|done].
Qed.

Lemma insert_perm l (i : nat) x :
  (i < length l)%nat -> <[i := x]> l ≡ₚ x :: delete i l.
Proof.
  intros Hi. rewrite (delete_Permutation (<[i:=x]> l) i x) by (by apply list_lookup_insert_eq).
  apply perm_skip. revert i Hi. induction l as [|a l IH]; intros [|i] Hi; cbn in *; try lia; [done|].
  apply perm_skip, IH. lia.
Qed.

(** Split a block at an offset. *)
Lemma zlen_split l n :
  0 <= n <= zlen l -> exists l1 l2, l = l1 ++ l2 /\ zlen l1 = n /\ zlen l2 = zlen l - n.
Proof.
  intros. exists (take (Z.to_nat n) l), (drop (Z.to_nat n) l).
  rewrite take_drop, zlen_take, zlen_drop by done. done.
Qed.

Lemma mem_write_take l off src l' k :
  l.[off <- src] = Some l' -> (k <= Z.to_nat off)%nat -> take k l' = take k l.
Proof.
  intros (?&?&?&->)%mem_write_inv ?. rewrite take_app_le.
  - rewrite take_take. f_equal. lia.
  - rewrite length_take. unfold zlen in *. lia.
Qed.

End memory.

(** Reduce the lengths of composed lists. *)
#[export] Hint Rewrite @zlen_app @zlen_nil @zlen_cons @zlen_replicate : cloak_len.

Ltac zlen_pos :=
  repeat match goal with
  | |- context [zlen ?l] =>
      lazymatch goal with
      | H : 0 <= zlen l |- _ => fail
      | _ => pose proof (zlen_nonneg l)
      end
  | H : context [zlen ?l] |- _ =>
      lazymatch goal with
      | H' : 0 <= zlen l |- _ => fail
      | _ => pose proof (zlen_nonneg l)
      end
  end.
Ltac zlia := autorewrite with cloak_len in *; zlen_pos; lia.

(** ** Byte orders *)

Lemma length_be_bytes n v : length (be_bytes n v) = n.
Proof. revert v; induction n; intros; cbn; [done|]. rewrite length_app, IHn. cbn; lia. Qed.

Lemma be_bytes_all_bytes n v : all_bytes (be_bytes n v).
Proof.
  revert v; induction n; intros; cbn; [constructor|].
  apply Forall_app; split; [apply IHn|]. constructor; [|constructor].
  by apply Z.mod_pos_bound.
Qed.

Lemma be_val_snoc l b : be_val (l ++ [b]) = be_val l * 256 + b.
Proof. unfold be_val. by rewrite fold_left_app. Qed.

Lemma be_val_be_bytes n v : be_val (be_bytes n v) = v mod 256 ^ Z.of_nat n.
Proof.
  revert v; induction n; intros; cbn [be_bytes].
  { by rewrite Z.mod_1_r. }
  rewrite be_val_snoc, IHn, Nat2Z.inj_succ, Z.pow_succ_r by lia.
  rewrite Z.rem_mul_r by (try apply Z.pow_pos_nonneg; lia). lia.
Qed.

Lemma all_bytes_app l l' : all_bytes (l ++ l') <-> all_bytes l /\ all_bytes l'.
Proof. apply Forall_app. Qed.

Lemma all_bytes_nil : all_bytes [].
Proof. by apply Forall_nil. Qed.

Lemma all_bytes_cons b l : all_bytes (b :: l) <-> is_byte b /\ all_bytes l.
Proof. apply Forall_cons. Qed.

Lemma all_bytes_snoc l b : all_bytes (l ++ [b]) <-> all_bytes l /\ is_byte b.
Proof. rewrite all_bytes_app, all_bytes_cons. unfold all_bytes. rewrite Forall_nil. tauto. Qed.

(** [all_bytes], decided. *)
Lemma all_bytesb_sound l : forallb (fun b => (0 <=? b) && (b <? 256)) l = true -> all_bytes l.
Proof.
  intros H. apply Forall_forall. intros b Hb%list_elem_of_In.
  rewrite forallb_forall in H. specialize (H b Hb). bool_hyps. by split.
Qed.

Lemma be_val_range l : all_bytes l -> 0 <= be_val l < 256 ^ zlen l.
Proof.
  induction l as [|b l IH] using rev_ind; [by split|].
  intros [Hl Hb]%all_bytes_snoc.
  specialize (IH Hl). rewrite be_val_snoc, zlen_app. unfold is_byte in Hb.
  change (zlen [b]) with 1. pose proof (zlen_nonneg l).
  rewrite Z.pow_add_r by lia. change (256 ^ 1) with 256. generalize dependent (256 ^ zlen l). intros P HP. lia.
Qed.

Lemma be_bytes_be_val l : all_bytes l -> be_bytes (length l) (be_val l) = l.
Proof.
  induction l as [|b l IH] using rev_ind; [done|].
  intros [Hl Hb]%all_bytes_snoc. unfold is_byte in Hb.
  rewrite length_app, Nat.add_comm, be_val_snoc. cbn [be_bytes length Nat.add].
  rewrite Z.div_add_l, (Z.div_small b) by lia.
  rewrite Z.add_0_r, IH by done. f_equal. f_equal.
  rewrite Z.add_comm, Z.mod_add by lia. by apply Z.mod_small.
Qed.

Lemma be_val_inj l l' :
  all_bytes l -> all_bytes l' -> length l = length l' -> be_val l = be_val l' -> l = l'.
Proof.
  intros Hl Hl' Hlen Heq. rewrite <- (be_bytes_be_val l), <- (be_bytes_be_val l') by done.
  by rewrite Hlen, Heq.
Qed.

(** The shift-and-or step that every byte-order loop of the sources makes. *)
Lemma shift_or_step v b : is_byte b -> Z.lor (Z.shiftl v 8) b = v * 256 + b.
Proof. intros. by rewrite lor_shiftl_add. Qed.

(** Four bytes in network order as the sources load them:
    [((uint32_t)p[0] << 24) | ((uint32_t)p[1] << 16) | ((uint32_t)p[2] << 8) | p[3]]. *)
Definition be32 (b0 b1 b2 b3 : Z) : Z :=
  Z.lor (Z.lor (Z.lor (u32 (Z.shiftl b0 24)) (u32 (Z.shiftl b1 16))) (u32 (Z.shiftl b2 8))) b3.

Lemma be32_val b0 b1 b2 b3 :
  all_bytes [b0; b1; b2; b3] -> be32 b0 b1 b2 b3 = be_val [b0; b1; b2; b3].
Proof.
  rewrite !all_bytes_cons. unfold is_byte, be32. intros (?&?&?&?&_).
  rewrite (Z.shiftl_mul_pow2 b1), (Z.shiftl_mul_pow2 b2) by lia.
  rewrite (u32_small (Z.shiftl b0 24)) by (rewrite Z.shiftl_mul_pow2; lia). usimpl.
  rewrite lor_shiftl_add by lia.
  replace (b0 * 2 ^ 24 + b1 * 2 ^ 16) with (Z.shiftl (b0 * 2 ^ 8 + b1) 16)
    by (rewrite Z.shiftl_mul_pow2; lia).
  rewrite lor_shiftl_add by lia.
  replace ((b0 * 2 ^ 8 + b1) * 2 ^ 16 + b2 * 2 ^ 8)
    with (Z.shiftl ((b0 * 2 ^ 8 + b1) * 2 ^ 8 + b2) 8)
    by (rewrite Z.shiftl_mul_pow2; lia).
  rewrite lor_shiftl_add by lia. unfold be_val; cbn; lia.
Qed.

Lemma be_bytes_4 v :
  be_bytes 4 v = [u8 (Z.shiftr v 24); u8 (Z.shiftr v 16); u8 (Z.shiftr v 8); u8 v].
Proof.
  unfold u8. cbn [be_bytes app].
  rewrite !Z.shiftr_div_pow2 by lia. rewrite !Z.div_div by lia. done.
Qed.

(** [load_be32 (p + off)] of every file that has one. *)
Definition load_be32_at (p : bytes) (off : Z) : option Z :=
  b0 ← p.[off]; b1 ← p.[off + 1]; b2 ← p.[off + 2]; b3 ← p.[off + 3]; Some (be32 b0 b1 b2 b3).

Lemma load_be32_slice p off l :
  p.[off +: 4] = Some l -> all_bytes l -> load_be32_at p off = Some (be_val l).
Proof.
  intros Hp Hl. pose proof (mem_read_inv _ _ _ _ Hp) as (?&_&_&_&Hlen).
  destruct l as [|b0 [|b1 [|b2 [|b3 [|]]]]]; try (unfold zlen in Hlen; cbn in Hlen; lia).
  unfold load_be32_at.
  rewrite <- (Z.add_0_r off) at 1.
  rewrite (mem_read_get _ _ _ _ 0 Hp), (mem_read_get _ _ _ _ 1 Hp),
    (mem_read_get _ _ _ _ 2 Hp), (mem_read_get _ _ _ _ 3 Hp) by lia.
  mem_eval. by rewrite be32_val.
Qed.

(** Big-endian load of a slice with a shift-and-or loop, 64-bit accumulator. *)
Definition load_be64_at (p : bytes) (off : Z) : option Z :=
  l ← p.[off +: 8]; Some (fold_left (fun v b => Z.lor (u64 (Z.shiftl v 8)) b) l 0).

Lemma be_fold_val l v :
  all_bytes l -> 0 <= v -> v * 256 ^ zlen l + be_val l < 18446744073709551616 ->
  fold_left (fun v b => Z.lor (u64 (Z.shiftl v 8)) b) l v = v * 256 ^ zlen l + be_val l.
Proof.
  revert v. induction l as [|b l IH]; intros v Hl Hv Hb.
  { cbn. change (256 ^ zlen []) with 1. unfold be_val. cbn. lia. }
  apply all_bytes_cons in Hl as [Hb0 Hl]. unfold is_byte in Hb0.
  assert (Hcons : v * 256 ^ zlen (b :: l) + be_val (b :: l)
                  = (v * 256 + b) * 256 ^ zlen l + be_val l).
  { change (b :: l) with ([b] ++ l).
    assert (Happ : forall l1 l2, be_val (l1 ++ l2) = be_val l1 * 256 ^ zlen l2 + be_val l2).
    { clear. intros l1 l2. induction l2 as [|c l2 IH] using rev_ind.
      - rewrite app_nil_r. change (256 ^ zlen []) with 1. unfold be_val at 3. cbn. lia.
      - rewrite app_assoc, !be_val_snoc, IH, zlen_app. pose proof (zlen_nonneg l2).
        rewrite Z.pow_add_r by zlia. change (256 ^ zlen [c]) with 256. ring. }
    rewrite Happ, zlen_app, Z.pow_add_r by zlia. change (zlen [b]) with 1.
    change (be_val [b]) with b. change (256 ^ 1) with 256. ring. }
  rewrite Hcons in *. cbn [fold_left].
  pose proof (be_val_range l Hl). pose proof (zlen_nonneg l).
  assert (0 < 256 ^ zlen l) by (apply Z.pow_pos_nonneg; lia).
  assert (Hsh : u64 (Z.shiftl v 8) = Z.shiftl v 8).
  { apply u64_small. rewrite Z.shiftl_mul_pow2 by lia. change (2 ^ 8) with 256. nia. }
  rewrite Hsh, shift_or_step by done. apply IH; [done|lia|done].
Qed.

Lemma load_be64_slice p off l :
  p.[off +: 8] = Some l -> all_bytes l -> load_be64_at p off = Some (be_val l).
Proof.
  intros Hp Hl. unfold load_be64_at. rewrite Hp. cbn [mbind option_bind].
  pose proof (mem_read_inv _ _ _ _ Hp) as (_&_&_&_&Hlen).
  pose proof (be_val_range l Hl) as Hr. rewrite Hlen in Hr.
  rewrite be_fold_val; [f_equal; lia|done|lia|]. rewrite Hlen. lia.
Qed.

Lemma all_bytes_slice p off n l : all_bytes p -> p.[off +: n] = Some l -> all_bytes l.
Proof. intros Hp (_&_&_&->&_)%mem_read_inv. by apply Forall_take, Forall_drop. Qed.

Lemma load_be32_total p off :
  all_bytes p -> 0 <= off -> off + 4 <= zlen p ->
  exists v, load_be32_at p off = Some v /\ 0 <= v < 4294967296.
Proof.
  intros Hp ??. pose proof (mem_read_Some p off 4 ltac:(done) ltac:(done) ltac:(done)) as Hr.
  pose proof (all_bytes_slice _ _ _ _ Hp Hr) as Hb.
  pose proof (mem_read_inv _ _ _ _ Hr) as (_&_&_&_&Hl).
  rewrite (load_be32_slice _ _ _ Hr Hb). eexists; split; [done|].
  pose proof (be_val_range _ Hb) as Hv. by rewrite Hl in Hv.
Qed.

Lemma load_be64_total p off :
  all_bytes p -> 0 <= off -> off + 8 <= zlen p ->
  exists v, load_be64_at p off = Some v /\ 0 <= v < 18446744073709551616.
Proof.
  intros Hp ??. pose proof (mem_read_Some p off 8 ltac:(done) ltac:(done) ltac:(done)) as Hr.
  pose proof (all_bytes_slice _ _ _ _ Hp Hr) as Hb.
  pose proof (mem_read_inv _ _ _ _ Hr) as (_&_&_&_&Hl).
  rewrite (load_be64_slice _ _ _ Hr Hb). eexists; split; [done|].
  pose proof (be_val_range _ Hb) as Hv. by rewrite Hl in Hv.
Qed.

Lemma mem_get_byte p i : all_bytes p -> 0 <= i < zlen p -> exists b, p.[i] = Some b /\ is_byte b.
Proof.
  intros Hp [b Hb]%mem_get_Some. exists b. split; [done|].
  apply mem_get_inv in Hb as [_ Hb]. by eapply Forall_lookup_1 in Hp.
Qed.

(** The store loop of the 64-bit fields: low byte last, then shift. *)
Fixpoint store_be_loop (n : nat) (v : Z) : bytes :=
  match n with O => [] | S n' => store_be_loop n' (Z.shiftr v 8) ++ [u8 v] end.

Lemma store_be_loop_be n v : store_be_loop n v = be_bytes n v.
Proof.
  revert v. induction n as [|n IH]; intros v; [done|]. cbn. rewrite IH.
  by rewrite Z.shiftr_div_pow2 by lia.
Qed.
