(* ===== verification/Refinement.v ===== *)
(** * Runs of operations and their refinement

    A component is a partial transition function ([None]: undefined behaviour);
    its contract is a total one.  [run_refines] lifts a per-operation
    simulation to every sequence of operations, outputs included. *)
From S2P Require Import Prelude.

Section runs.
Context {Op Out St Sp : Type}.

Fixpoint run (exec : Op -> St -> option (Out * St)) (ops : list Op) (s : St)
    : option (list Out * St) :=
  match ops with
  | [] => Some ([], s)
  | o :: ops' => '(x, s') ← exec o s; '(xs, s'') ← run exec ops' s'; Some (x :: xs, s'')
  end.

Fixpoint spec_run (exec : Op -> Sp -> Out * Sp) (ops : list Op) (s : Sp) : list Out * Sp :=
  match ops with
  | [] => ([], s)
  | o :: ops' =>
      let '(x, s') := exec o s in let '(xs, s'') := spec_run exec ops' s' in (x :: xs, s'')
  end.

(** The concrete operations never get stuck, and stay related to the
    contract's with equal outputs. *)
Class Refines (exec : Op -> St -> option (Out * St)) (spec : Op -> Sp -> Out * Sp)
    (ok : Op -> Prop) (R : St -> Sp -> Prop) : Prop :=
  refines_step o s a :
    R s a -> ok o ->
    exists x s' a', exec o s = Some (x, s') /\ R s' a' /\ spec o a = (x, a').

Lemma run_refines exec spec ok R `{!Refines exec spec ok R} ops s a :
  R s a -> Forall ok ops ->
  exists xs s' a', run exec ops s = Some (xs, s') /\ R s' a' /\ spec_run spec ops a = (xs, a').
Proof.
  intros HR Hops. revert s a HR. induction Hops as [|o ops Ho _ IH]; intros s a HR.
  { by exists [], s, a. }
  destruct (refines_step o s a HR Ho) as (x & s1 & a1 & E1 & R1 & F1).
  destruct (IH s1 a1 R1) as (xs & s2 & a2 & E2 & R2 & F2).
  exists (x :: xs), s2, a2. cbn. rewrite E1, F1. cbn. by rewrite E2, F2.
Qed.

End runs.

Lemma run_app {Op Out St} (exec : Op -> St -> option (Out * St)) ops1 ops2 s :
  run exec (ops1 ++ ops2) s =
    '(xs, s') ← run exec ops1 s; '(ys, s'') ← run exec ops2 s'; Some (xs ++ ys, s'').
Proof.
  revert s. induction ops1 as [|o ops1 IH]; intros s; cbn.
  - destruct (run exec ops2 s) as [[]|]; done.
  - destruct (exec o s) as [[x s1]|]; cbn; [|done]. rewrite IH.
    destruct (run exec ops1 s1) as [[xs s2]|]; cbn; [|done].
    by destruct (run exec ops2 s2) as [[]|].
Qed.
