(* ===== verification/Fallible.v ===== *)
(** * Operations that can fail

    A C function that returns an error code has two ways to go wrong: an access
    outside its memory, which is undefined behaviour, and the error it reports.
    [parse A] tells them apart: [None] is the first, [malformed] the second and
    [ok x] a success.  The file also holds the memory of C strings. *)
From S2P Require Export Prelude.
From Stdlib Require Import Ascii.
From Stdlib Require String.
Export String.StringSyntax.

(** ** The monad *)

Definition parse (A : Type) : Type := option (option A).
Definition malformed {A} : parse A := Some None.
Definition ok {A} (x : A) : parse A := Some (Some x).
Definition pbind {A B} (m : parse A) (k : A -> option (option B)) : option (option B) :=
  match m with None => None | Some None => Some None | Some (Some x) => k x end.
Notation "'let!' p ':=' m 'in' k" := (pbind m (fun p => k))
  (at level 10, p pattern, m at level 200, k at level 200,
   format "'[v' 'let!'  p  ':='  m  'in' '/' k ']'") : cloak_scope.

(** A byte the parser reads itself. *)
Definition byte_at (data : bytes) (i : Z) : parse Z :=
  match data.[i] with None => None | Some b => ok b end.

(** ** Outcomes of the parsing monad *)

(** No undefined behaviour, and a success satisfies [P]. *)
Definition safely {A} (m : parse A) (P : A -> Prop) : Prop :=
  match m with None => False | Some None => True | Some (Some x) => P x end.

(** Success, with a result that satisfies [P]. *)
Definition succeeds {A} (m : parse A) (P : A -> Prop) : Prop :=
  exists x, m = ok x /\ P x.

Lemma safely_bind {A B} (m : parse A) (k : A -> parse B) P Q :
  safely m P -> (forall x, P x -> safely (k x) Q) -> safely (pbind m k) Q.
Proof. destruct m as [[x|]|]; cbn; auto. Qed.

Lemma succeeds_bind {A B} (m : parse A) (k : A -> parse B) P Q :
  succeeds m P -> (forall x, P x -> succeeds (k x) Q) -> succeeds (pbind m k) Q.
Proof. intros (x&->&Hx) Hk. by apply Hk. Qed.

Lemma safely_ok {A} (x : A) (P : A -> Prop) : P x -> safely (ok x) P.
Proof. done. Qed.

Lemma safely_malformed {A} (P : A -> Prop) : safely malformed P.
Proof. done. Qed.

Lemma succeeds_ok {A} (x : A) (P : A -> Prop) : P x -> succeeds (ok x) P.
Proof. by exists x. Qed.

Lemma safely_weaken {A} (m : parse A) (P Q : A -> Prop) :
  safely m P -> (forall x, P x -> Q x) -> safely m Q.
Proof. destruct m as [[x|]|]; cbn; auto. Qed.

Lemma succeeds_weaken {A} (m : parse A) (P Q : A -> Prop) :
  succeeds m P -> (forall x, P x -> Q x) -> succeeds m Q.
Proof. intros (x&->&Hx) H. exists x. auto. Qed.

(** ** C strings *)

(** The characters of a literal, as codes. *)
Definition c_string (s : String.string) : bytes :=
  (fun c => Z.of_nat (nat_of_ascii c)) <$> String.list_ascii_of_string s.

#[global] Arguments c_string _%_string_scope.

(** A block that holds the string [s] and its terminator. *)
Definition c_block (s junk : bytes) : bytes := s ++ 0 :: junk.

(** [strlen]; reading past the block is undefined behaviour. *)
Fixpoint strlen (p : bytes) : option Z :=
  match p with
  | [] => None
  | c :: p' => if c =? 0 then Some 0 else n ← strlen p'; Some (1 + n)
  end.

Definition no_nul (s : bytes) : Prop := Forall (fun c => c <> 0) s.

Lemma strlen_c_block s junk : no_nul s -> strlen (c_block s junk) = Some (zlen s).
Proof.
  induction s as [|c s IH]; [done|]. intros [Hc Hs]%Forall_cons.
  cbn [c_block app strlen]. rewrite (proj2 (Z.eqb_neq _ _) Hc).
  change (s ++ 0 :: junk) with (c_block s junk). rewrite IH by done. cbn [mbind option_bind].
  by rewrite zlen_cons.
Qed.

Lemma strlen_inv p n :
  strlen p = Some n -> exists s junk, p = c_block s junk /\ no_nul s /\ zlen s = n.
Proof.
  revert n. induction p as [|c p IH]; intros n; [done|]. cbn [strlen].
  destruct (Z.eqb_spec c 0) as [->|Hc].
  - intros [= <-]. exists [], p. split_and!; [done|constructor|done].
  - destruct (strlen p) as [m|]; [|done]. intros [= <-].
    destruct (IH m eq_refl) as (s&junk&->&Hs&<-). exists (c :: s), junk.
    split_and!; [done|by constructor|by rewrite zlen_cons].
Qed.
