(* ===== verification/Octets.v ===== *)
(** * The octets of RFC 9110

    The classes of octets that HTTP messages are made of, written down as the
    RFC lists them and not as the parsers of the sources test for them, with
    what the specifications of both parsers ([HttpSpec] and [WsHandshakeSpec])
    build on them. *)
From S2P Require Import Prelude Fallible.

(** ** Classes *)

(** The characters of a token, the white space, and the octets of a field value
    (tab, space, the visible characters, and everything from 128 on). *)
Definition letters_upper : bytes := c_string "ABCDEFGHIJKLMNOPQRSTUVWXYZ".
Definition letters_lower : bytes := c_string "abcdefghijklmnopqrstuvwxyz".
Definition tchars : bytes := c_string "!#$%&'*+-.^_`|~0123456789" ++ letters_lower ++ letters_upper.
Definition tchar (c : Z) : bool := existsb (Z.eqb c) tchars.
Definition ows (c : Z) : bool := existsb (Z.eqb c) [32; 9].
Definition value_char (c : Z) : bool := ows c || ((33 <=? c) && (c <=? 126)) || (128 <=? c).

(** The letter without its case. *)
Fixpoint replaced (from to : bytes) (c : Z) : Z :=
  match from, to with x :: from, y :: to => if c =? x then y else replaced from to c | _, _ => c end.
Definition to_lower : Z -> Z := replaced letters_upper letters_lower.

(** ** Strings *)

Fixpoint prefix_while (p : Z -> bool) (l : bytes) : bytes :=
  match l with [] => [] | c :: l' => if p c then c :: prefix_while p l' else [] end.
Fixpoint suffix_while (p : Z -> bool) (l : bytes) : bytes :=
  match l with [] => [] | c :: l' => if p c then suffix_while p l' else l end.

(** Equality of names and tokens, which have no case. *)
Definition ci_equal (a b : bytes) : bool := bool_decide (map to_lower a = map to_lower b).

(** Without the white space around it. *)
Definition trim (l : bytes) : bytes := rev (suffix_while ows (rev (suffix_while ows l))).

(** ** Comparing a class with a test on numbers *)

Lemma ascii_cases (P : Z -> Prop) :
  (forall c, ~ (0 <= c < 128) -> P c) -> (forall n, (n < 128)%nat -> P (Z.of_nat n)) -> forall c, P c.
Proof.
  intros Hout Hin c. destruct (decide (0 <= c < 128)) as [H|H]; [|by apply Hout].
  rewrite <- (Z2Nat.id c) by lia. apply Hin. lia.
Qed.

Lemma below_128 {A} {_ : EqDecision A} (f g : Z -> A) :
  forallb (fun n => bool_decide (f (Z.of_nat n) = g (Z.of_nat n))) (seq 0 128) = true ->
  forall n, (n < 128)%nat -> f (Z.of_nat n) = g (Z.of_nat n).
Proof.
  intros H n Hn. rewrite forallb_forall in H. eapply bool_decide_eq_true, H. apply in_seq. lia.
Qed.

Lemma outside_list c l : forallb (fun x => (0 <=? x) && (x <? 128)) l = true -> ~ (0 <= c < 128) -> existsb (Z.eqb c) l = false.
Proof.
  intros Hl Hc. induction l as [|x l IH]; [done|]. cbn in *. apply andb_true_iff in Hl as [Hx Hl].
  rewrite (IH Hl), (proj2 (Z.eqb_neq c x)) by lia. done.
Qed.

Lemma replaced_outside c from to : forallb (fun x => (0 <=? x) && (x <? 128)) from = true -> ~ (0 <= c < 128) -> replaced from to c = c.
Proof.
  revert to. induction from as [|x from IH]; intros [|y to] Hl Hc; try done. cbn in *. apply andb_true_iff in Hl as [Hx Hl].
  rewrite (proj2 (Z.eqb_neq c x)) by lia. by apply IH.
Qed.

Section ext.
Context (p q : Z -> bool) (E : forall c, p c = q c).
Lemma prefix_while_ext l : prefix_while p l = prefix_while q l.
Proof. induction l as [|c l IH]; [done|]. cbn. by rewrite E, IH. Qed.
Lemma suffix_while_ext l : suffix_while p l = suffix_while q l.
Proof. induction l as [|c l IH]; [done|]. cbn. by rewrite E, IH. Qed.
Lemma forallb_same l : forallb p l = forallb q l.
Proof. induction l as [|c l IH]; [done|]. cbn. by rewrite E, IH. Qed.
End ext.
