(* ===== verification/Buffer.v ===== *)
(** * Filling buffers

    Messages are composed by a sequence of stores into a caller's buffer.
    [stores] runs such a sequence; a buffer whose parts are known is the
    concatenation of its segments, and a store that covers a segment replaces
    it. *)
From S2P Require Import Prelude.

(** Stores of [src] at [off], in order. *)
Fixpoint stores (ws : list (Z * bytes)) (buf : bytes) : option bytes :=
  match ws with
  | [] => Some buf
  | (off, src) :: ws => buf ← buf.[off <- src]; stores ws buf
  end.

(** Stores that lie one behind the other, from [off] on. *)
Fixpoint tiles (off : Z) (ws : list (Z * bytes)) : Prop :=
  match ws with
  | [] => True
  | (o, src) :: ws => o = off /\ tiles (off + zlen src) ws
  end.

Lemma stores_tile ws pre old rest :
  tiles (zlen pre) ws -> zlen old = zlen (mjoin (snd <$> ws)) ->
  stores ws (pre ++ old ++ rest) = Some (pre ++ mjoin (snd <$> ws) ++ rest).
Proof.
  revert pre old. induction ws as [|[o src] ws IH]; intros pre old.
  - intros _ Hl. by rewrite (zlen_zero old) by done.
  - intros [-> Ht] Hl. cbn [fmap list_fmap snd] in *.
    change (mjoin (src :: (snd <$> ws))) with (src ++ mjoin (snd <$> ws)) in *.
    rewrite zlen_app in Hl. zlen_pos.
    destruct (zlen_split old (zlen src)) as (o1&o2&->&Ho1&Ho2); [lia|].
    cbn [stores]. rewrite <- app_assoc, mem_write_app by done. cbn [mbind option_bind].
    rewrite (app_assoc pre). rewrite IH.
    + by rewrite <- !app_assoc.
    + by rewrite zlen_app.
    + rewrite zlen_app in Hl. lia.
Qed.

(** ** Segments *)

Lemma mjoin_middle (segs : list bytes) k s :
  segs !! k = Some s -> mjoin segs = mjoin (take k segs) ++ s ++ mjoin (drop (S k) segs).
Proof.
  revert k. induction segs as [|x segs IH]; intros [|k] Hk; [done..| |].
  - injection Hk as ->. done.
  - cbn [take drop]. change (mjoin (x :: segs)) with (x ++ mjoin segs).
    change (mjoin (x :: take k segs)) with (x ++ mjoin (take k segs)).
    rewrite <- app_assoc. f_equal. by apply IH.
Qed.

Lemma mjoin_app {A} (l1 l2 : list (list A)) : mjoin (l1 ++ l2) = mjoin l1 ++ mjoin l2.
Proof.
  induction l1 as [|x l1 IH]; [done|]. cbn [app].
  change (mjoin (x :: l1 ++ l2)) with (x ++ mjoin (l1 ++ l2)). rewrite IH.
  change (mjoin (x :: l1)) with (x ++ mjoin l1). by rewrite app_assoc.
Qed.

Lemma seg_read (segs : list bytes) k s off n :
  segs !! k = Some s -> off = zlen (mjoin (take k segs)) -> n = zlen s ->
  (mjoin segs).[off +: n] = Some s.
Proof. intros Hk -> ->. rewrite (mjoin_middle _ _ _ Hk). by apply mem_read_app. Qed.

Lemma seg_write (segs : list bytes) k old new off :
  segs !! k = Some old -> off = zlen (mjoin (take k segs)) -> zlen new = zlen old ->
  (mjoin segs).[off <- new] = Some (mjoin (<[k := new]> segs)).
Proof.
  intros Hk -> Hl. rewrite (mjoin_middle _ _ _ Hk), mem_write_app by done.
  assert (Hk' : (k < length segs)%nat) by (by apply lookup_lt_Some in Hk).
  rewrite (mjoin_middle (<[k := new]> segs) k new) by (by apply list_lookup_insert_eq).
  by rewrite take_insert_ge, drop_insert_lt by lia.
Qed.

Lemma seg_get (segs : list bytes) k x off :
  segs !! k = Some [x] -> off = zlen (mjoin (take k segs)) -> (mjoin segs).[off] = Some x.
Proof.
  intros Hk ->. rewrite (mjoin_middle _ _ _ Hk). rewrite mem_get_app_r by lia.
  by rewrite Z.sub_diag.
Qed.

Lemma seg_set (segs : list bytes) k x y off :
  segs !! k = Some [x] -> off = zlen (mjoin (take k segs)) ->
  mem_set (mjoin segs) off y = Some (mjoin (<[k := [y]]> segs)).
Proof.
  intros Hk Hoff. rewrite <- (seg_write _ _ [x] [y] off) by done.
  rewrite (mjoin_middle _ _ _ Hk). rewrite (mem_write_app _ [x] _ off [y]) by done.
  cbn [app]. by rewrite mem_set_app.
Qed.

(** The length of a concatenation. *)
Fixpoint total (ls : list Z) : Z := match ls with [] => 0 | n :: ls => n + total ls end.

Lemma zlen_mjoin (segs : list bytes) : zlen (mjoin segs) = total (zlen <$> segs).
Proof.
  induction segs as [|s segs IH]; [done|].
  change (mjoin (s :: segs)) with (s ++ mjoin segs). rewrite zlen_app, IH. done.
Qed.

Lemma zlen_be_bytes n v : zlen (be_bytes n v) = Z.of_nat n.
Proof. unfold zlen. by rewrite length_be_bytes. Qed.

(** Solve a length goal about concrete lists of segments. *)
Ltac seg_len :=
  rewrite ?zlen_mjoin; cbn [take fmap list_fmap total];
  rewrite ?zlen_app, ?zlen_cons, ?zlen_replicate, ?zlen_be_bytes; change (@zlen Z []) with 0;
  try first [lia | unfold zlen in *; lia].

(** The first access of the goal, by [lem], concerns segment [k]. *)
Ltac seg_access m lem k :=
  let E := fresh "E" in
  eassert (E : m = Some _);
    [eapply (lem _ k); [reflexivity|seg_len..]
    |rewrite E; clear E; cbn [mbind option_bind insert list_insert]].
Ltac seg_step lem k :=
  lazymatch goal with
  | |- mbind _ ?m = _ => seg_access m lem k
  | |- ?m = _ => seg_access m lem k
  end.
