(* ===== verification/X25519.v ===== *)
(** * Key agreement ([libcloak-common/src/x25519.c])

    Like the ciphers, X25519 is OpenSSL's: a class holds the two EVP call
    sequences of the file ([None]: some call failed), and a second class what
    is documented of them, for key pairs that EVP generated. *)
From S2P Require Import Prelude.

Definition CLOAK_X25519_KEY_LEN : Z := 32.

Class EvpX25519 := {
  (** [EVP_PKEY_keygen] and the raw keys; what it draws from is an argument *)
  evp_x25519_keygen : bytes -> option (bytes * bytes);
  (** [EVP_PKEY_derive] of a raw private and a raw public key *)
  evp_x25519_derive : bytes -> bytes -> option bytes
}.

Section x25519.
Context `{EvpX25519}.

(** [cloak_x25519_generate_keypair]: [priv] and [pub], or [None] for -1. *)
Definition cloak_x25519_generate_keypair (seed : bytes) : option (bytes * bytes) :=
  evp_x25519_keygen seed.

(** [cloak_x25519_shared_secret]: [out_secret], or [None] for -1. *)
Definition cloak_x25519_shared_secret (priv peer_pub : bytes) : option bytes :=
  evp_x25519_derive priv peer_pub.

(** A key pair that the generator can return. *)
Definition keypair (priv pub : bytes) : Prop :=
  exists seed, cloak_x25519_generate_keypair seed = Some (priv, pub).

End x25519.

(** Keys are 32 bytes, and two generated key pairs agree on a secret. *)
Class X25519Laws `{EvpX25519} : Prop := {
  x25519_key_ok priv pub :
    keypair priv pub ->
    zlen priv = CLOAK_X25519_KEY_LEN /\ all_bytes priv /\
    zlen pub = CLOAK_X25519_KEY_LEN /\ all_bytes pub;
  x25519_secret_ok priv pub secret :
    cloak_x25519_shared_secret priv pub = Some secret ->
    zlen secret = CLOAK_X25519_KEY_LEN /\ all_bytes secret;
  x25519_agree priv1 pub1 priv2 pub2 :
    keypair priv1 pub1 -> keypair priv2 pub2 ->
    exists secret, cloak_x25519_shared_secret priv1 pub2 = Some secret /\
                   cloak_x25519_shared_secret priv2 pub1 = Some secret
}.

(** ** A concrete instance, for the witnesses: the public key is the private
    key and the secret the sum of both, octet by octet. *)
Definition add_octets (a b : bytes) : bytes := zip_with (fun x y => u8 (x + y)) a b.

Definition x25519_sum : EvpX25519 := {|
  evp_x25519_keygen seed :=
    let k := take 32 (map u8 seed ++ replicate 32 0) in Some (k, k);
  evp_x25519_derive priv pub :=
    if (zlen priv =? 32) && (zlen pub =? 32) then Some (add_octets priv pub) else None
|}.

Lemma add_octets_comm a b : add_octets a b = add_octets b a.
Proof.
  revert b. induction a as [|x a IH]; intros [|y b]; try done.
  cbn. f_equal; [f_equal; lia|apply IH].
Qed.

Lemma add_octets_bytes a b : all_bytes (add_octets a b).
Proof.
  revert b. induction a as [|x a IH]; intros [|y b]; try constructor; [|apply IH].
  apply u8_is_byte.
Qed.

Lemma x25519_sum_key seed k p :
  @cloak_x25519_generate_keypair x25519_sum seed = Some (k, p) ->
  k = p /\ zlen k = 32 /\ all_bytes k.
Proof.
  unfold cloak_x25519_generate_keypair. cbn [evp_x25519_keygen x25519_sum].
  intros [= <- <-]. split; [done|]. split.
  - unfold zlen. rewrite length_take, length_app. cbn [length]. lia.
  - apply Forall_take, Forall_app. split.
    + apply Forall_forall. intros b (x&->&_)%list_elem_of_fmap. apply u8_is_byte.
    + apply all_bytesb_sound. done.
Qed.

Lemma x25519_sum_laws : @X25519Laws x25519_sum.
Proof.
  split.
  - intros priv pub [seed (<-&Hl&Hb)%x25519_sum_key]. done.
  - intros priv pub secret. unfold cloak_x25519_shared_secret. cbn.
    destruct (Z.eqb_spec (zlen priv) 32) as [Hp|]; [|done].
    destruct (Z.eqb_spec (zlen pub) 32) as [Hq|]; [|done]. intros [= <-].
    split; [|apply add_octets_bytes]. unfold zlen, add_octets in *.
    rewrite length_zip_with. unfold CLOAK_X25519_KEY_LEN. lia.
  - intros k1 p1 k2 p2 [s1 (<-&Hl1&_)%x25519_sum_key] [s2 (<-&Hl2&_)%x25519_sum_key].
    unfold cloak_x25519_shared_secret. cbn. rewrite Hl1, Hl2, Z.eqb_refl.
    eexists. split; [done|]. cbn. by rewrite add_octets_comm.
Qed.
