(* ===== verification/Random.v ===== *)
(** * The CSPRNG front end ([libcloak-common/src/random.c])

    [RAND_bytes] is OpenSSL's: the model is given the bytes it will produce as
    a tape, and every function that draws returns the rest of the tape.  A
    failing [RAND_bytes] calls [abort], after which there is no behaviour to
    describe, so the tape has no failure case. *)
From S2P Require Import Prelude.

(** The bytes the generator will hand out, from the next one on. *)
Definition rand : Type := nat -> Z.

Definition rand_ok (r : rand) : Prop := forall i, is_byte (r i).

(** [cloak_random_bytes]: the filled buffer and the rest of the tape. *)
Definition cloak_random_bytes (len : Z) (r : rand) : bytes * rand :=
  if len =? 0 then ([], r)
  else (map r (seq 0 (Z.to_nat len)), fun i => r (Z.to_nat len + i)%nat).

(** The rejection loop of [cloak_random_below]; [None] when [fuel] draws were
    all rejected. *)
Fixpoint random_below_loop (fuel : nat) (n limit : Z) (r : rand) : option (Z * rand) :=
  match fuel with
  | O => None
  | S fuel' =>
      let '(b, r') := cloak_random_bytes 4 r in
      b0 ← b.[0]; b1 ← b.[1]; b2 ← b.[2]; b3 ← b.[3];
      let v := be32 b0 b1 b2 b3 in
      if v <? limit then Some (v mod n, r') else random_below_loop fuel' n limit r'
  end.

Definition cloak_random_below (fuel : nat) (n : Z) (r : rand) : option (Z * rand) :=
  if n <=? 1 then Some (0, r)
  else random_below_loop fuel n (4294967296 - 4294967296 mod n) r.

(** A tape on which the loop ends: among any [fuel] consecutive four-byte
    draws one is below [2^31], which every limit accepts.  For independent
    uniform bytes this fails with probability [2^-fuel]. *)
Definition fair (fuel : nat) (r : rand) : Prop :=
  forall pos : nat, exists j, (j < fuel)%nat /\ r (pos + 4 * j)%nat < 128.

(** ** Lemmas *)

Lemma random_bytes_length len r b r' :
  0 <= len -> cloak_random_bytes len r = (b, r') -> zlen b = len.
Proof.
  unfold cloak_random_bytes. intros. case_if_in H0; simplify_eq.
  - by rewrite zlen_nil.
  - unfold zlen. rewrite length_map, length_seq. lia.
Qed.

Lemma random_bytes_rest len r b r' :
  0 <= len -> cloak_random_bytes len r = (b, r') ->
  r' = r \/ r' = fun i => r (Z.to_nat len + i)%nat.
Proof. unfold cloak_random_bytes. intros. case_if_in H0; simplify_eq; auto. Qed.

Lemma random_bytes_ok len r b r' :
  rand_ok r -> 0 <= len -> cloak_random_bytes len r = (b, r') -> all_bytes b /\ rand_ok r'.
Proof.
  intros Hr ?. unfold cloak_random_bytes. intros Hb. case_if_in Hb; simplify_eq.
  - split; [constructor|done].
  - split; [|intros i; apply Hr].
    apply Forall_forall. intros x (i&->&_)%list_elem_of_fmap. apply Hr.
Qed.

Lemma fair_shift fuel r k : fair fuel r -> fair fuel (fun i => r (k + i)%nat).
Proof.
  intros Hf pos. destruct (Hf (k + pos)%nat) as (j&?&?). exists j.
  by rewrite Nat.add_assoc.
Qed.

Lemma random_bytes_fair fuel len r b r' :
  0 <= len -> fair fuel r -> cloak_random_bytes len r = (b, r') -> fair fuel r'.
Proof.
  intros ? Hf [-> | ->]%random_bytes_rest; [done|by apply fair_shift|done].
Qed.

(** One iteration of the loop on a well-formed tape. *)
Lemma random_below_loop_S fuel n limit r :
  rand_ok r ->
  random_below_loop (S fuel) n limit r =
    let v := be_val [r 0%nat; r 1%nat; r 2%nat; r 3%nat] in
    let r' := fun i => r (4 + i)%nat in
    if v <? limit then Some (v mod n, r') else random_below_loop fuel n limit r'.
Proof.
  intros Hr. cbn -[be32 be_val]. znat. cbn -[be32 be_val]. rewrite be32_val; [done|].
  rewrite !all_bytes_cons. repeat split; apply Hr || constructor.
Qed.

Lemma below_limit n :
  1 < n -> let limit := 4294967296 - 4294967296 mod n in
  limit = n * (4294967296 / n) /\ limit <= 4294967296 /\ 4294967296 - n < limit.
Proof.
  intros. pose proof (Z.div_mod 4294967296 n ltac:(lia)).
  pose proof (Z.mod_pos_bound 4294967296 n ltac:(lia)). lia.
Qed.

Lemma random_below_loop_total fuel k n limit r :
  rand_ok r -> 2147483648 <= limit -> 0 < n ->
  (exists j, (j < k)%nat /\ r (4 * j)%nat < 128) -> fair fuel r ->
  exists v r', random_below_loop k n limit r = Some (v, r') /\ 0 <= v < n /\
               rand_ok r' /\ fair fuel r'.
Proof.
  revert r. induction k; intros r Hr Hl Hn (j&?&Hj) Hf; [lia|].
  rewrite random_below_loop_S by done. cbv zeta.
  assert (rand_ok (fun i => r (4 + i)%nat)) by (intros i; apply Hr).
  case_if.
  - do 2 eexists; split; [done|]. split; [by apply Z.mod_pos_bound|].
    split; [done|by apply fair_shift].
  - apply IHk; [done..| |by apply fair_shift].
    destruct j as [|j].
    + exfalso. pose proof (Hr 0%nat). pose proof (Hr 1%nat). pose proof (Hr 2%nat).
      pose proof (Hr 3%nat). unfold is_byte in *. unfold be_val in E.
      cbn [fold_left] in E. change (r (4 * 0)%nat) with (r 0%nat) in Hj. lia.
    + exists j. split; [lia|]. by replace (4 + 4 * j)%nat with (4 * S j)%nat by lia.
Qed.

(** On a fair tape the rejection sampler ends, with a value in range. *)
Lemma cloak_random_below_total fuel n r :
  rand_ok r -> fair fuel r -> 1 <= n <= 2147483648 ->
  exists v r', cloak_random_below fuel n r = Some (v, r') /\ 0 <= v < n /\
               rand_ok r' /\ fair fuel r'.
Proof.
  intros Hr Hf Hn. unfold cloak_random_below. case_if.
  - exists 0, r. split_and!; done || lia.
  - destruct (below_limit n) as (?&?&?); [lia|].
    apply random_below_loop_total; [done|lia|lia| |done].
    destruct (Hf 0%nat) as (j&?&?). exists j. done.
Qed.

Lemma random_below_range fuel n r v r' :
  cloak_random_below fuel n r = Some (v, r') -> 0 < n -> 0 <= v < n.
Proof.
  unfold cloak_random_below. case_if; [intros [= <- <-]; lia|].
  generalize (4294967296 - 4294967296 mod n) as limit. intros limit.
  revert r. induction fuel as [|fuel IH]; intros r H Hn; [done|].
  cbn [random_below_loop] in H. destruct (cloak_random_bytes 4 r) as [b r1].
  repeat (apply bind_Some in H as (?&_&H)). case_if_in H; [|by eapply IH].
  simplify_eq. by apply Z.mod_pos_bound.
Qed.

(** ** The tape after some draws *)

Definition later (r r' : rand) : Prop := exists k, forall i, r' i = r (k + i)%nat.

Lemma later_refl r : later r r.
Proof. by exists 0%nat. Qed.

Lemma later_trans r1 r2 r3 : later r1 r2 -> later r2 r3 -> later r1 r3.
Proof. intros [k Hk] [m Hm]. exists (k + m)%nat. intros i. by rewrite Hm, Hk, Nat.add_assoc. Qed.

Lemma later_draw len r b r' : cloak_random_bytes len r = (b, r') -> later r r'.
Proof.
  unfold cloak_random_bytes. case_if; intros [= <- <-]; [apply later_refl|].
  by exists (Z.to_nat len).
Qed.

Lemma later_below fuel n r v r' : cloak_random_below fuel n r = Some (v, r') -> later r r'.
Proof.
  unfold cloak_random_below. case_if; [intros [= <- <-]; apply later_refl|].
  generalize (4294967296 - 4294967296 mod n) as limit. intros limit.
  revert r. induction fuel as [|fuel IH]; intros r H; [done|].
  cbn [random_below_loop] in H. destruct (cloak_random_bytes 4 r) as [b r1] eqn:Hb.
  apply later_draw in Hb. repeat (apply bind_Some in H as (?&_&H)).
  case_if_in H; [by simplify_eq|]. eapply later_trans; [done|]. by apply IH.
Qed.

Lemma rand_ok_later r r' : later r r' -> rand_ok r -> rand_ok r'.
Proof. intros [k Hk] Hr i. rewrite Hk. apply Hr. Qed.

Lemma fair_later fuel r r' : later r r' -> fair fuel r -> fair fuel r'.
Proof.
  intros [k Hk] Hf pos. destruct (Hf (k + pos)%nat) as (j&?&Hj). exists j. split; [done|].
  by rewrite Hk, Nat.add_assoc.
Qed.

(** ** Properties *)

(** the rejection sampler is unbiased.  For a bound [n], the four-byte
    draws that [cloak_random_below] accepts and maps to an outcome [k] are
    exactly [q * n + k] for [0 <= q < 2^32 / n]: the same number of draws for
    every outcome. *)
Theorem cloak_random_below_uniform n k v rest :
  1 < n < 4294967296 -> 0 <= k < n -> 0 <= v < 4294967296 -> rand_ok rest ->
  let r i := default (rest i) (be_bytes 4 v !! i) in
  (exists r', cloak_random_below 1 n r = Some (k, r')) <->
  (exists q, 0 <= q < 4294967296 / n /\ v = q * n + k).
Proof.
  intros Hn Hk Hv Hrest r.
  assert (Hr : rand_ok r).
  { intros i. unfold r. destruct (be_bytes 4 v !! i) eqn:E; [|apply Hrest].
    by eapply (Forall_lookup_1 _ _ _ _ (be_bytes_all_bytes 4 v)). }
  destruct (below_limit n) as (Hlim&_&_); [lia|]. cbv zeta in Hlim.
  unfold cloak_random_below. decide_cmp. rewrite random_below_loop_S by done. cbv zeta.
  replace (be_val [r 0%nat; r 1%nat; r 2%nat; r 3%nat]) with v.
  2: { change (v = be_val (be_bytes 4 v)). rewrite be_val_be_bytes.
       symmetry. apply Z.mod_small. lia. }
  rewrite Hlim. set (m := 4294967296 / n). split.
  - intros (r'&H). case_if_in H; [|done]. simplify_eq. exists (v / n). split.
    + split; [apply Z.div_pos; lia|]. apply Z.div_lt_upper_bound; lia.
    + rewrite (Z.div_mod v n) at 1 by lia. lia.
  - intros (q&Hq&->). rewrite (proj2 (Z.ltb_lt _ _)) by nia. eexists.
    rewrite Z.add_comm, Z.mod_add, Z.mod_small by lia. done.
Qed.

Lemma cloak_random_below_uniform_witness :
  let r i := default 0 (be_bytes 4 (7 * 240 + 11) !! i) in
  (exists r', cloak_random_below 1 240 r = Some (11, r')) <->
  (exists q, 0 <= q < 4294967296 / 240 /\ 7 * 240 + 11 = q * 240 + 11).
Proof.
  apply (cloak_random_below_uniform 240 11 (7 * 240 + 11) (fun _ => 0)); [lia..|].
  intros i. unfold is_byte. lia.
Defined.
