(* ===== verification/Ring.v ===== *)
(** * Ring buffers

    The wrap-around copies that [libcloak-common/src/bytequeue.c] writes inline
    and [libcloak-mux/src/msgqueue.c] factors out as [ring_peek] and
    [ring_put], with the abstraction both queues share: [ring_view data head
    len], the [len] bytes that start at [head] and wrap at the end of the
    block. *)
From S2P Require Import Prelude.

(** [ring_peek]: copies [n] bytes out of the ring of capacity [cap] starting
    at the absolute offset [off], wrapping once. *)
Definition ring_peek (data : bytes) (cap off n : Z) : option bytes :=
  let first := u64 (cap - off) in
  if n <=? first then data.[off +: n]
  else a ← data.[off +: first]; b ← data.[0 +: u64 (n - first)]; Some (a ++ b).

(** [ring_put]: copies [src] into the ring at the absolute offset [off]. *)
Definition ring_put (data : bytes) (cap off : Z) (src : bytes) : option bytes :=
  let n := zlen src in
  let first := u64 (cap - off) in
  if n <=? first then data.[off <- src]
  else
    a ← src.[0 +: first]; b ← src.[first +: u64 (n - first)];
    data' ← data.[off <- a]; data'.[0 <- b].

(** The queued bytes of a ring. *)
Definition ring_view (data : bytes) (head len : Z) : bytes :=
  take (Z.to_nat len) (drop (Z.to_nat head) (data ++ data)).

(** ** The view in terms of lookups *)

Lemma lookup_blit {A} (l s : list A) o j :
  (o + length s <= length l)%nat ->
  (take o l ++ s ++ drop (o + length s) l) !! j =
    if decide (o <= j < o + length s)%nat then s !! (j - o)%nat else l !! j.
Proof.
  intros. destruct (decide (j < o)%nat).
  { rewrite lookup_app_l by (rewrite length_take; lia). rewrite lookup_take_lt by lia.
    by rewrite decide_False by lia. }
  rewrite lookup_app_r by (rewrite length_take; lia). rewrite length_take, Nat.min_l by lia.
  case_decide.
  - by rewrite lookup_app_l by lia.
  - rewrite lookup_app_r by lia. rewrite lookup_drop. f_equal. lia.
Qed.

Lemma length_ring_view data head len :
  0 <= head <= zlen data -> 0 <= len <= zlen data -> zlen (ring_view data head len) = len.
Proof.
  intros. unfold ring_view, zlen in *.
  rewrite length_take, length_drop, length_app. lia.
Qed.

Lemma ring_view_lookup data head len i :
  0 <= head < zlen data -> len <= zlen data -> (i < Z.to_nat len)%nat ->
  ring_view data head len !! i =
    data !! (if decide (Z.to_nat head + i < length data)%nat
             then Z.to_nat head + i else Z.to_nat head + i - length data)%nat.
Proof.
  intros. unfold ring_view, zlen in *.
  rewrite lookup_take_lt, lookup_drop by lia. case_decide.
  - by rewrite lookup_app_l by lia.
  - by rewrite lookup_app_r by lia.
Qed.

(** Two byte strings of the same length with the same lookups below it. *)
Lemma list_eq_lt {A} (l l' : list A) n :
  length l = n -> length l' = n ->
  (forall i, (i < n)%nat -> l !! i = l' !! i) -> l = l'.
Proof.
  intros Hl Hl' Heq. apply list_eq. intros i. destruct (decide (i < n)%nat); [auto|].
  rewrite !lookup_ge_None_2 by lia. done.
Qed.

Lemma ring_wrap x cap : 0 < cap -> 0 <= x < 2 * cap ->
  x mod cap = if decide (x < cap) then x else x - cap.
Proof.
  intros. case_decide; [by apply Z.mod_small; lia|].
  replace x with (x - cap + 1 * cap) at 1 by lia.
  rewrite Z.mod_add by lia. apply Z.mod_small; lia.
Qed.

(** ** Taking and dropping *)

Lemma ring_view_take data head len k :
  0 <= k <= len -> take (Z.to_nat k) (ring_view data head len) = ring_view data head k.
Proof. intros. unfold ring_view. rewrite take_take. f_equal. lia. Qed.

Lemma ring_view_drop data head len k :
  0 <= head < zlen data -> 0 <= k <= len -> len <= zlen data ->
  ring_view data ((head + k) mod zlen data) (len - k)
    = drop (Z.to_nat k) (ring_view data head len).
Proof.
  intros. rewrite ring_wrap by lia.
  assert (Hd : length data = Z.to_nat (zlen data)) by (unfold zlen; lia).
  apply (list_eq_lt _ _ (Z.to_nat (len - k))).
  - pose proof (length_ring_view data (if decide (head + k < zlen data) then head + k
      else head + k - zlen data) (len - k)) as Hl.
    unfold zlen in *. case_decide; lia.
  - rewrite length_drop. pose proof (length_ring_view data head len). unfold zlen in *. lia.
  - intros i Hi. rewrite lookup_drop. case_decide.
    all: rewrite !ring_view_lookup by lia; f_equal; repeat case_decide; lia.
Qed.

(** ** The two copies *)

Lemma ring_peek_view data cap off n :
  cap = zlen data -> cap <= INT64_MAX -> 0 <= off < cap -> 0 <= n <= cap ->
  ring_peek data cap off n = Some (ring_view data off n).
Proof.
  intros -> Hc ??. unfold INT64_MAX in Hc. unfold ring_peek, ring_view. usimpl. case_if.
  - rewrite mem_read_Some by lia. f_equal.
    rewrite drop_app_le, take_app_le; [done|rewrite length_drop|]; unfold zlen in *; lia.
  - usimpl. rewrite !mem_read_Some by lia. cbn [mbind option_bind]. f_equal.
    rewrite drop_app_le by (unfold zlen in *; lia).
    rewrite take_app_ge by (rewrite length_drop; unfold zlen in *; lia).
    rewrite drop_0, length_drop. f_equal.
    + apply take_ge. rewrite length_drop. unfold zlen in *; lia.
    + f_equal. unfold zlen in *; lia.
Qed.

Lemma ring_put_lookup data cap off src :
  cap = zlen data -> cap <= INT64_MAX -> 0 <= off < cap -> zlen src <= cap ->
  exists data', ring_put data cap off src = Some data' /\ zlen data' = cap /\
    forall j, (j < length data)%nat ->
      data' !! j =
        let k := if decide (Z.to_nat off <= j)%nat then (j - Z.to_nat off)%nat
                 else (j + length data - Z.to_nat off)%nat in
        if decide (k < length src)%nat then src !! k else data !! j.
Proof.
  intros -> Hc Hoff Hsrc. unfold INT64_MAX in Hc. unfold ring_put. usimpl.
  assert (Hd : length data = Z.to_nat (zlen data)) by (unfold zlen; lia).
  assert (Hs : length src = Z.to_nat (zlen src)) by (unfold zlen; lia).
  pose proof (zlen_nonneg src). case_if.
  - rewrite mem_write_Some by lia. eexists; split; [done|]. split.
    { unfold zlen. rewrite !length_app, length_take, length_drop. lia. }
    intros j Hj. rewrite lookup_blit by lia. cbv zeta.
    repeat case_decide; try lia; done.
  - usimpl. rewrite !mem_read_Some by lia. cbn [mbind option_bind]. rewrite drop_0.
    set (a := take _ src). set (b := take _ (drop _ src)).
    assert (Ha : length a = Z.to_nat (zlen data - off)) by (unfold a; rewrite length_take; lia).
    assert (Hb : length b = Z.to_nat (zlen src - (zlen data - off)))
      by (unfold b; rewrite length_take, length_drop; lia).
    rewrite mem_write_Some by (unfold zlen in *; lia). cbn [mbind option_bind].
    set (data1 := _ ++ a ++ _).
    assert (Hd1 : length data1 = length data)
      by (unfold data1; rewrite !length_app, length_take, length_drop; lia).
    rewrite mem_write_Some by (unfold zlen in *; lia).
    eexists; split; [done|]. split.
    { unfold zlen in *. rewrite !length_app, length_take, length_drop. lia. }
    intros j Hj. change (Z.to_nat 0) with 0%nat. rewrite lookup_blit by lia.
    unfold data1. rewrite lookup_blit by lia. cbv zeta.
    repeat case_decide; try lia; try done; unfold a, b.
    + rewrite lookup_take_lt, lookup_drop by lia. f_equal. lia.
    + rewrite lookup_take_lt by lia. done.
Qed.

(** Appending to a ring that has room for it. *)
Lemma ring_put_view data cap head len src :
  cap = zlen data -> cap <= INT64_MAX -> 0 <= head < cap -> 0 <= len ->
  len + zlen src <= cap ->
  exists data', ring_put data cap ((head + len) mod cap) src = Some data' /\
    zlen data' = cap /\
    ring_view data' head (len + zlen src) = ring_view data head len ++ src.
Proof.
  intros -> Hc Hh Hl Hroom. pose proof (zlen_nonneg src).
  assert (Hd : length data = Z.to_nat (zlen data)) by (unfold zlen; lia).
  assert (Hs : length src = Z.to_nat (zlen src)) by (unfold zlen; lia).
  destruct (ring_put_lookup data (zlen data) ((head + len) mod zlen data) src)
    as (data' & Hput & Hlen & Hlook); [done|done|apply Z.mod_pos_bound; lia|lia|].
  exists data'. split_and!; [done..|].
  assert (Hd' : length data' = length data) by (unfold zlen in *; lia).
  apply (list_eq_lt _ _ (Z.to_nat (len + zlen src))).
  - pose proof (length_ring_view data' head (len + zlen src)). unfold zlen in *; lia.
  - rewrite length_app. pose proof (length_ring_view data head len). unfold zlen in *; lia.
  - intros i Hi. rewrite ring_view_lookup by lia. rewrite Hd'.
    assert (Hv : length (ring_view data head len) = Z.to_nat len)
      by (pose proof (length_ring_view data head len); unfold zlen in *; lia).
    set (t := (head + len) mod zlen data) in *.
    assert (Ht : t = head + len /\ head + len < zlen data \/
                 t = head + len - zlen data /\ zlen data <= head + len)
      by (unfold t; rewrite ring_wrap by lia; case_decide; lia).
    clearbody t.
    destruct (decide (i < Z.to_nat len)%nat).
    + rewrite lookup_app_l by lia. rewrite ring_view_lookup by lia.
      rewrite Hlook by (case_decide; lia). cbv zeta. repeat case_decide; try lia; done.
    + rewrite lookup_app_r by lia. rewrite Hv.
      rewrite Hlook by (case_decide; lia). cbv zeta.
      repeat case_decide; try lia; f_equal; lia.
Qed.

Lemma ring_view_all_bytes data head len :
  all_bytes data -> all_bytes (ring_view data head len).
Proof. intros. unfold ring_view, all_bytes. by apply Forall_take, Forall_drop, Forall_app. Qed.
