(* ===== verification/ByteQueue.v ===== *)
(** * The byte queue ([libcloak-common/src/bytequeue.c])

    A bounded FIFO of bytes in a ring buffer: the socket buffers of a
    connection and the reassembly buffer of an ordered stream.  A NULL [data]
    pointer is the empty block.  A function that fills a caller's buffer
    returns the bytes it puts at the front of that buffer. *)
From S2P Require Import Prelude Refinement Ring.

Record cloak_bytequeue_t := Bytequeue {
  bq_data : bytes;
  bq_cap : Z;
  bq_head : Z;
  bq_len : Z;
  bq_closed : bool
}.

(** [cloak_bytequeue_init]; [mem] is what [malloc (cap)] returns. *)
Definition cloak_bytequeue_init (q : cloak_bytequeue_t) (cap : Z) (mem : option bytes)
    : Z * cloak_bytequeue_t :=
  if cap =? 0 then (-1, q)
  else match mem with
  | None => (-1, Bytequeue [] (bq_cap q) (bq_head q) (bq_len q) (bq_closed q))
  | Some data => (0, Bytequeue data cap 0 0 false)
  end.

Definition cloak_bytequeue_destroy (q : cloak_bytequeue_t) : cloak_bytequeue_t :=
  Bytequeue [] 0 0 0 false.

Definition cloak_bytequeue_write (q : cloak_bytequeue_t) (data : bytes)
    : option (Z * cloak_bytequeue_t) :=
  let len := zlen data in
  if len =? 0 then Some (0, q)
  else if bq_closed q || (u64 (bq_cap q - bq_len q) <? len) then Some (0, q)
  else
    let tail := u64 (bq_head q + bq_len q) mod bq_cap q in
    data' ← ring_put (bq_data q) (bq_cap q) tail data;
    Some (len, Bytequeue data' (bq_cap q) (bq_head q) (u64 (bq_len q + len)) (bq_closed q)).

Definition cloak_bytequeue_read (q : cloak_bytequeue_t) (len : Z)
    : option (bytes * cloak_bytequeue_t) :=
  let n := if len <? bq_len q then len else bq_len q in
  if n =? 0 then Some ([], q)
  else
    out ← ring_peek (bq_data q) (bq_cap q) (bq_head q) n;
    Some (out, Bytequeue (bq_data q) (bq_cap q) (u64 (bq_head q + n) mod bq_cap q)
                         (u64 (bq_len q - n)) (bq_closed q)).

Definition cloak_bytequeue_peek (q : cloak_bytequeue_t) (len : Z) : option bytes :=
  let n := if len <? bq_len q then len else bq_len q in
  if n =? 0 then Some [] else ring_peek (bq_data q) (bq_cap q) (bq_head q) n.

Definition cloak_bytequeue_close (q : cloak_bytequeue_t) : cloak_bytequeue_t :=
  Bytequeue (bq_data q) (bq_cap q) (bq_head q) (bq_len q) true.

Definition cloak_bytequeue_len (q : cloak_bytequeue_t) : Z := bq_len q.

Definition cloak_bytequeue_free_space (q : cloak_bytequeue_t) : Z := u64 (bq_cap q - bq_len q).

Definition cloak_bytequeue_is_eof (q : cloak_bytequeue_t) : bool :=
  bq_closed q && (bq_len q =? 0).

(** ** The contract: a bounded FIFO

    What the header promises, without heads, wraps and blocks. *)
Record fifo := Fifo { f_cap : Z; f_bytes : bytes; f_closed : bool }.

Definition fifo_write (f : fifo) (data : bytes) : Z * fifo :=
  if f_closed f || (f_cap f <? zlen (f_bytes f) + zlen data) then (0, f)
  else (zlen data, Fifo (f_cap f) (f_bytes f ++ data) (f_closed f)).

Definition fifo_read (f : fifo) (len : Z) : bytes * fifo :=
  (take (Z.to_nat len) (f_bytes f),
   Fifo (f_cap f) (drop (Z.to_nat len) (f_bytes f)) (f_closed f)).

(** Representation invariant; a block larger than [PTRDIFF_MAX] cannot be
    allocated, which is the upper bound on [cap]. *)
Record bq_wf (q : cloak_bytequeue_t) : Prop := {
  bqw_block : zlen (bq_data q) = bq_cap q;
  bqw_cap : 0 < bq_cap q <= INT64_MAX;
  bqw_head : 0 <= bq_head q < bq_cap q;
  bqw_len : 0 <= bq_len q <= bq_cap q
}.

Definition bq_contents (q : cloak_bytequeue_t) : bytes :=
  ring_view (bq_data q) (bq_head q) (bq_len q).

Definition bq_abs (q : cloak_bytequeue_t) : fifo :=
  Fifo (bq_cap q) (bq_contents q) (bq_closed q).

(** ** Each operation implements the contract *)

Ltac bq_destruct H :=
  destruct H as [?Hb ?Hc ?Hh ?Hl]; unfold INT64_MAX in *; cbn in *.

Lemma bq_contents_len q : bq_wf q -> zlen (bq_contents q) = bq_len q.
Proof. intros H. unfold bq_contents. apply length_ring_view; bq_destruct H; lia. Qed.

Lemma bytequeue_init_spec q cap data :
  0 < cap <= INT64_MAX -> zlen data = cap ->
  let '(rc, q') := cloak_bytequeue_init q cap (Some data) in
  rc = 0 /\ bq_wf q' /\ bq_abs q' = Fifo cap [] false.
Proof.
  intros Hc Hd. unfold cloak_bytequeue_init. decide_cmp. split_and!; [done| |done].
  constructor; cbn; lia.
Qed.

Lemma bytequeue_write_spec q data :
  bq_wf q -> zlen data <= SIZE_MAX ->
  exists n q', cloak_bytequeue_write q data = Some (n, q') /\ bq_wf q' /\
    fifo_write (bq_abs q) data = (n, bq_abs q').
Proof.
  intros H Hd. unfold SIZE_MAX in Hd. pose proof (bq_contents_len q H) as Hcl.
  unfold cloak_bytequeue_write, fifo_write. cbn [bq_abs f_closed f_cap f_bytes].
  rewrite Hcl. pose proof (zlen_nonneg data).
  destruct (Z.eqb_spec (zlen data) 0) as [E|E].
  { exists 0, q. split_and!; [done..|]. rewrite (zlen_zero data E), app_nil_r.
    destruct (_ || _); done. }
  pose proof H as H'. bq_destruct H'. usimpl.
  replace (bq_cap q - bq_len q <? zlen data) with (bq_cap q <? bq_len q + zlen data)
    by (destruct (Z.ltb_spec (bq_cap q) (bq_len q + zlen data));
        destruct (Z.ltb_spec (bq_cap q - bq_len q) (zlen data)); lia).
  destruct (_ || _) eqn:E'; [by exists 0, q|]. bool_hyps. usimpl.
  destruct (ring_put_view (bq_data q) (bq_cap q) (bq_head q) (bq_len q) data)
    as (data' & -> & Hlen & Hview); [done|unfold INT64_MAX; lia|lia..|].
  cbn [mbind option_bind]. do 2 eexists; split; [done|]. split.
  - constructor; unfold INT64_MAX; cbn; lia.
  - unfold bq_abs, bq_contents; cbn. by rewrite Hview.
Qed.

Lemma bytequeue_peek_spec q len :
  bq_wf q -> 0 <= len ->
  cloak_bytequeue_peek q len = Some (take (Z.to_nat len) (bq_contents q)).
Proof.
  intros H Hlen. pose proof (bq_contents_len q H) as Hcl. bq_destruct H.
  unfold cloak_bytequeue_peek, bq_contents. destruct (Z.ltb_spec len (bq_len q)).
  - destruct (Z.eqb_spec len 0) as [->|]; [done|].
    rewrite ring_peek_view by (unfold INT64_MAX; lia). by rewrite ring_view_take by lia.
  - rewrite take_ge by (unfold bq_contents, zlen in *; lia).
    destruct (Z.eqb_spec (bq_len q) 0) as [E|].
    + symmetry. f_equal. apply zlen_zero. unfold bq_contents in Hcl. lia.
    + by rewrite ring_peek_view by (unfold INT64_MAX; lia).
Qed.

Lemma bytequeue_read_spec q len :
  bq_wf q -> 0 <= len ->
  exists out q', cloak_bytequeue_read q len = Some (out, q') /\ bq_wf q' /\
    fifo_read (bq_abs q) len = (out, bq_abs q').
Proof.
  intros H Hlen. pose proof (bq_contents_len q H) as Hcl.
  pose proof (bytequeue_peek_spec q len H Hlen) as Hp.
  unfold cloak_bytequeue_read. unfold cloak_bytequeue_peek in Hp.
  set (n := if len <? bq_len q then len else bq_len q) in *.
  assert (Hn : 0 <= n <= bq_len q /\ drop (Z.to_nat n) (bq_contents q)
                                     = drop (Z.to_nat len) (bq_contents q)).
  { bq_destruct H. unfold n. destruct (Z.ltb_spec len (bq_len q)); split; [lia|done|lia|].
    rewrite !drop_ge by (unfold zlen in *; lia). done. }
  destruct Hn as [Hn Hd]. destruct (Z.eqb_spec n 0) as [E|E].
  - injection Hp as Hp. do 2 eexists; split_and!; [done..|]. unfold fifo_read; cbn.
    rewrite <- Hp, <- Hd, E. done.
  - rewrite Hp. cbn [mbind option_bind]. pose proof H as H'. bq_destruct H'. usimpl.
    do 2 eexists; split; [done|]. split.
    + constructor; unfold INT64_MAX; cbn; [lia|lia|apply Z.mod_pos_bound; lia|lia].
    + unfold fifo_read; cbn. f_equal. unfold bq_abs; cbn. f_equal. rewrite <- Hd.
      unfold bq_contents; cbn. rewrite <- Hb. by rewrite ring_view_drop by lia.
Qed.

Lemma bytequeue_observe_spec q :
  bq_wf q ->
  cloak_bytequeue_len q = zlen (f_bytes (bq_abs q)) /\
  cloak_bytequeue_free_space q = f_cap (bq_abs q) - zlen (f_bytes (bq_abs q)) /\
  cloak_bytequeue_is_eof q = f_closed (bq_abs q) && bool_decide (f_bytes (bq_abs q) = []).
Proof.
  intros H. pose proof (bq_contents_len q H) as Hcl.
  unfold cloak_bytequeue_len, cloak_bytequeue_free_space, cloak_bytequeue_is_eof.
  cbn [bq_abs f_bytes f_cap f_closed]. rewrite Hcl. bq_destruct H. usimpl.
  split_and!; [done..|]. f_equal. case_bool_decide as E.
  - rewrite E in Hcl. rewrite zlen_nil in Hcl. by apply Z.eqb_eq.
  - apply Z.eqb_neq. intros ?. apply E, zlen_zero. lia.
Qed.

Lemma bytequeue_close_spec q :
  bq_wf q ->
  bq_wf (cloak_bytequeue_close q) /\
  bq_abs (cloak_bytequeue_close q) = Fifo (f_cap (bq_abs q)) (f_bytes (bq_abs q)) true.
Proof. intros H. split; [|done]. bq_destruct H. constructor; unfold INT64_MAX; cbn; lia. Qed.

(** The three uses a socket buffer makes of its queue, in terms of contents. *)
Lemma bytequeue_append q data :
  bq_wf q -> bq_closed q = false -> zlen data <= cloak_bytequeue_free_space q ->
  exists q', cloak_bytequeue_write q data = Some (zlen data, q') /\ bq_wf q' /\
    bq_contents q' = bq_contents q ++ data /\ bq_cap q' = bq_cap q /\ bq_closed q' = false.
Proof.
  intros H Hc Hd. pose proof (bq_contents_len q H) as Hcl.
  assert (Hf : cloak_bytequeue_free_space q = bq_cap q - bq_len q).
  { unfold cloak_bytequeue_free_space. bq_destruct H. by usimpl. }
  assert (Hcap : bq_cap q <= INT64_MAX /\ 0 <= bq_len q) by (destruct H; lia).
  unfold INT64_MAX in Hcap.
  destruct (bytequeue_write_spec q data H) as (n&q'&Hw&H'&Hq); [unfold SIZE_MAX; lia|].
  unfold fifo_write in Hq. cbn [bq_abs f_closed f_cap f_bytes] in Hq.
  rewrite Hc, Hcl, (proj2 (Z.ltb_ge _ _)) in Hq by lia. injection Hq as <- Hcap' Hb Hcl'.
  exists q'. split_and!; congruence || done.
Qed.

Lemma bytequeue_take q n :
  bq_wf q -> 0 <= n ->
  exists q', cloak_bytequeue_read q n = Some (take (Z.to_nat n) (bq_contents q), q') /\ bq_wf q' /\
    bq_contents q' = drop (Z.to_nat n) (bq_contents q) /\ bq_cap q' = bq_cap q /\
    bq_closed q' = bq_closed q.
Proof.
  intros H Hn. destruct (bytequeue_read_spec q n H Hn) as (out&q'&Hr&H'&Hq).
  unfold fifo_read in Hq. cbn [bq_abs f_closed f_cap f_bytes] in Hq. injection Hq as <- Hcap Hb Hcl.
  exists q'. split_and!; congruence || done.
Qed.

Lemma bytequeue_sizes q :
  bq_wf q ->
  cloak_bytequeue_len q = zlen (bq_contents q) /\
  cloak_bytequeue_free_space q = bq_cap q - zlen (bq_contents q) /\
  0 <= zlen (bq_contents q) <= bq_cap q /\ 0 < bq_cap q <= INT64_MAX.
Proof.
  intros H. destruct (bytequeue_observe_spec q H) as (H1&H2&_). cbn [bq_abs f_cap f_bytes] in *.
  pose proof (bq_contents_len q H). split_and!; try done; destruct H; lia.
Qed.

(** ** Runs of operations *)

Inductive bq_op :=
  | BqWrite (data : bytes)
  | BqRead (len : Z)
  | BqPeek (len : Z)
  | BqClose.

Definition bq_op_ok (o : bq_op) : Prop :=
  match o with
  | BqWrite data => zlen data <= SIZE_MAX
  | BqRead len | BqPeek len => 0 <= len
  | BqClose => True
  end.

(** What a caller sees after an operation: its results and the accessors. *)
Record bq_seen := BqSeen {
  seen_n : Z; seen_bytes : bytes; seen_len : Z; seen_free : Z; seen_eof : bool }.

Definition bq_observe (n : Z) (out : bytes) (q : cloak_bytequeue_t) : bq_seen :=
  BqSeen n out (cloak_bytequeue_len q) (cloak_bytequeue_free_space q)
         (cloak_bytequeue_is_eof q).

Definition bq_exec (o : bq_op) (q : cloak_bytequeue_t)
    : option (bq_seen * cloak_bytequeue_t) :=
  match o with
  | BqWrite data => '(n, q') ← cloak_bytequeue_write q data; Some (bq_observe n [] q', q')
  | BqRead len =>
      '(out, q') ← cloak_bytequeue_read q len; Some (bq_observe (zlen out) out q', q')
  | BqPeek len => out ← cloak_bytequeue_peek q len; Some (bq_observe (zlen out) out q, q)
  | BqClose => let q' := cloak_bytequeue_close q in Some (bq_observe 0 [] q', q')
  end.

Definition fifo_observe (n : Z) (out : bytes) (f : fifo) : bq_seen :=
  BqSeen n out (zlen (f_bytes f)) (f_cap f - zlen (f_bytes f))
         (f_closed f && bool_decide (f_bytes f = [])).

Definition fifo_exec (o : bq_op) (f : fifo) : bq_seen * fifo :=
  match o with
  | BqWrite data => let '(n, f') := fifo_write f data in (fifo_observe n [] f', f')
  | BqRead len =>
      let '(out, f') := fifo_read f len in (fifo_observe (zlen out) out f', f')
  | BqPeek len =>
      let out := take (Z.to_nat len) (f_bytes f) in (fifo_observe (zlen out) out f, f)
  | BqClose => let f' := Fifo (f_cap f) (f_bytes f) true in (fifo_observe 0 [] f', f')
  end.

(** A queue that holds what the FIFO holds. *)
Definition bq_represents (q : cloak_bytequeue_t) (f : fifo) : Prop :=
  bq_wf q /\ bq_abs q = f.

Lemma bq_observe_spec n out q :
  bq_wf q -> bq_observe n out q = fifo_observe n out (bq_abs q).
Proof.
  intros H. destruct (bytequeue_observe_spec q H) as (E1 & E2 & E3).
  unfold bq_observe, fifo_observe. by rewrite E1, E2, E3.
Qed.

#[export] Instance bq_refines : Refines bq_exec fifo_exec bq_op_ok bq_represents.
Proof.
  intros o q f [H <-] Ho. destruct o as [data|len|len|]; cbn [bq_op_ok bq_exec fifo_exec] in *.
  - destruct (bytequeue_write_spec q data H Ho) as (n & q' & -> & H' & ->); cbn.
    do 3 eexists; split_and!; [done..|]. by rewrite bq_observe_spec.
  - destruct (bytequeue_read_spec q len H Ho) as (out & q' & -> & H' & ->); cbn.
    do 3 eexists; split_and!; [done..|]. by rewrite bq_observe_spec.
  - rewrite (bytequeue_peek_spec q len H Ho); cbn.
    do 3 eexists; split_and!; [done..|]. by rewrite bq_observe_spec.
  - destruct (bytequeue_close_spec q H) as [H' E].
    do 3 eexists; split_and!; [done..|]. by rewrite bq_observe_spec.
Qed.

(** Refinement.  On a well-formed queue every sequence of writes, reads,
    peeks and closes stays inside the block (no [None]) and shows its caller
    the same counts, the same bytes and the same accessor values as the
    bounded FIFO of the contract, wrap-arounds included. *)
Theorem bytequeue_refines_fifo ops q :
  bq_wf q -> Forall bq_op_ok ops ->
  exists ss q', run bq_exec ops q = Some (ss, q') /\ bq_wf q' /\
    spec_run fifo_exec ops (bq_abs q) = (ss, bq_abs q').
Proof.
  intros H Hops.
  destruct (run_refines bq_exec fifo_exec bq_op_ok bq_represents ops q (bq_abs q))
    as (ss & q' & a' & E & [H' <-] & F); [done..|].
  by exists ss, q'.
Qed.

Lemma bytequeue_refines_fifo_witness :
  let q := Bytequeue [0; 0; 0; 0] 4 3 0 false in
  let ops := [BqWrite [1; 2; 3]; BqRead 2; BqWrite [4; 5; 6]; BqClose; BqRead 9] in
  exists ss q', run bq_exec ops q = Some (ss, q') /\ bq_wf q' /\
    spec_run fifo_exec ops (bq_abs q) = (ss, bq_abs q').
Proof.
  apply bytequeue_refines_fifo.
  - constructor; cbn; unfold INT64_MAX; try lia. done.
  - repeat (apply Forall_cons; split; [by cbv|]). done.
Defined.

(** The same run, evaluated. *)
Example bytequeue_run_example :
  run bq_exec [BqWrite [1; 2; 3]; BqRead 2; BqWrite [4; 5; 6]; BqClose; BqRead 9]
    (Bytequeue [0; 0; 0; 0] 4 3 0 false)
  = Some ([BqSeen 3 [] 3 1 false; BqSeen 2 [1; 2] 1 3 false; BqSeen 3 [] 4 0 false;
           BqSeen 0 [] 4 0 false; BqSeen 4 [3; 4; 5; 6] 0 4 true],
          Bytequeue [6; 3; 4; 5] 4 1 0 true).
Proof. by vm_compute. Qed.
