(* ===== verification/MsgQueue.v ===== *)
(** * The datagram queue ([libcloak-mux/src/msgqueue.c])

    The receive queue of an unordered stream: whole messages in one ring
    buffer, each behind a four-byte big-endian length. *)
From S2P Require Import Prelude Refinement Ring.

Definition CLOAK_MSGQUEUE_LEN_PREFIX : Z := 4.
Definition CLOAK_MSGQUEUE_EMPTY : Z := -1.
Definition CLOAK_MSGQUEUE_SHORT_BUFFER : Z := -2.
Definition CLOAK_MSGQUEUE_ERR_FULL : Z := -1.
Definition CLOAK_MSGQUEUE_ERR_TOO_LARGE : Z := -2.
Definition CLOAK_MSGQUEUE_ERR_CLOSED : Z := -3.

Record cloak_msgqueue_t := Msgqueue {
  mq_data : bytes;
  mq_cap : Z;
  mq_head : Z;
  mq_len : Z;
  mq_count : Z;
  mq_payload_bytes : Z;
  mq_closed : bool
}.

Definition msgqueue_zero : cloak_msgqueue_t := Msgqueue [] 0 0 0 0 0 false.

(** [cloak_msgqueue_init]; [mem] is what [malloc (cap)] returns. *)
Definition cloak_msgqueue_init (q : cloak_msgqueue_t) (cap : Z) (mem : option bytes)
    : Z * cloak_msgqueue_t :=
  if cap <=? CLOAK_MSGQUEUE_LEN_PREFIX then (-1, q)
  else match mem with
  | None => (-1, msgqueue_zero)
  | Some data => (0, Msgqueue data cap 0 0 0 0 false)
  end.

Definition cloak_msgqueue_destroy (q : cloak_msgqueue_t) : cloak_msgqueue_t := msgqueue_zero.

Definition msgqueue_prefix (len : Z) : bytes :=
  [u8 (Z.shiftr len 24); u8 (Z.shiftr len 16); u8 (Z.shiftr len 8); u8 len].

Definition cloak_msgqueue_write (q : cloak_msgqueue_t) (msg : bytes)
    : option (Z * cloak_msgqueue_t) :=
  let len := zlen msg in
  let PREFIX := CLOAK_MSGQUEUE_LEN_PREFIX in
  if mq_closed q then Some (CLOAK_MSGQUEUE_ERR_CLOSED, q)
  else if (u64 (mq_cap q - PREFIX) <? len) || (4294967295 <? len)
  then Some (CLOAK_MSGQUEUE_ERR_TOO_LARGE, q)
  else if u64 (mq_cap q - mq_len q) <? u64 (len + PREFIX)
  then Some (CLOAK_MSGQUEUE_ERR_FULL, q)
  else
    let tail := u64 (mq_head q + mq_len q) mod mq_cap q in
    data1 ← ring_put (mq_data q) (mq_cap q) tail (msgqueue_prefix len);
    data2 ← (if 0 <? len
             then ring_put data1 (mq_cap q) (u64 (tail + PREFIX) mod mq_cap q) msg
             else Some data1);
    Some (0, Msgqueue data2 (mq_cap q) (mq_head q) (u64 (mq_len q + u64 (PREFIX + len)))
                      (u64 (mq_count q + 1)) (u64 (mq_payload_bytes q + len)) (mq_closed q)).

(** [cloak_msgqueue_peek_len]: [None] inside is the return value 0. *)
Definition cloak_msgqueue_peek_len (q : cloak_msgqueue_t) : option (option Z) :=
  if mq_count q =? 0 then Some None
  else
    prefix ← ring_peek (mq_data q) (mq_cap q) (mq_head q) CLOAK_MSGQUEUE_LEN_PREFIX;
    b0 ← prefix.[0]; b1 ← prefix.[1]; b2 ← prefix.[2]; b3 ← prefix.[3];
    Some (Some (Z.lor (Z.lor (Z.lor (Z.shiftl b0 24) (Z.shiftl b1 16)) (Z.shiftl b2 8)) b3)).

(** [cloak_msgqueue_read]: the return value, the bytes put at the front of
    [out], and the queue. *)
Definition cloak_msgqueue_read (q : cloak_msgqueue_t) (out_cap : Z)
    : option (Z * bytes * cloak_msgqueue_t) :=
  let PREFIX := CLOAK_MSGQUEUE_LEN_PREFIX in
  peeked ← cloak_msgqueue_peek_len q;
  match peeked with
  | None => Some (CLOAK_MSGQUEUE_EMPTY, [], q)
  | Some data_len =>
      if out_cap <? data_len then Some (CLOAK_MSGQUEUE_SHORT_BUFFER, [], q)
      else
        out ← (if 0 <? data_len
               then ring_peek (mq_data q) (mq_cap q)
                      (u64 (mq_head q + PREFIX) mod mq_cap q) data_len
               else Some []);
        Some (data_len, out,
              Msgqueue (mq_data q) (mq_cap q)
                (u64 (u64 (mq_head q + PREFIX) + data_len) mod mq_cap q)
                (u64 (mq_len q - u64 (PREFIX + data_len))) (u64 (mq_count q - 1))
                (u64 (mq_payload_bytes q - data_len)) (mq_closed q))
  end.

Definition cloak_msgqueue_count (q : cloak_msgqueue_t) : Z := mq_count q.

Definition cloak_msgqueue_payload_bytes (q : cloak_msgqueue_t) : Z := mq_payload_bytes q.

Definition cloak_msgqueue_close (q : cloak_msgqueue_t) : cloak_msgqueue_t :=
  Msgqueue (mq_data q) (mq_cap q) (mq_head q) (mq_len q) (mq_count q)
           (mq_payload_bytes q) true.

Definition cloak_msgqueue_is_eof (q : cloak_msgqueue_t) : bool :=
  mq_closed q && (mq_count q =? 0).

(** ** The contract: a bounded queue of messages *)

Record mailbox := Mailbox { mb_cap : Z; mb_msgs : list bytes; mb_closed : bool }.

Definition encode_msg (m : bytes) : bytes := be_bytes 4 (zlen m) ++ m.

Definition wire (ms : list bytes) : bytes := concat (map encode_msg ms).

(** Application bytes held. *)
Fixpoint payload_total (ms : list bytes) : Z :=
  match ms with [] => 0 | m :: ms' => zlen m + payload_total ms' end.

Definition mb_used (b : mailbox) : Z := payload_total (mb_msgs b) + 4 * zlen (mb_msgs b).

Definition mailbox_write (b : mailbox) (msg : bytes) : Z * mailbox :=
  if mb_closed b then (CLOAK_MSGQUEUE_ERR_CLOSED, b)
  else if (mb_cap b <? zlen msg + 4) || (4294967295 <? zlen msg)
  then (CLOAK_MSGQUEUE_ERR_TOO_LARGE, b)
  else if mb_cap b <? mb_used b + zlen msg + 4 then (CLOAK_MSGQUEUE_ERR_FULL, b)
  else (0, Mailbox (mb_cap b) (mb_msgs b ++ [msg]) (mb_closed b)).

Definition mailbox_read (b : mailbox) (out_cap : Z) : Z * bytes * mailbox :=
  match mb_msgs b with
  | [] => (CLOAK_MSGQUEUE_EMPTY, [], b)
  | m :: ms =>
      if out_cap <? zlen m then (CLOAK_MSGQUEUE_SHORT_BUFFER, [], b)
      else (zlen m, m, Mailbox (mb_cap b) ms (mb_closed b))
  end.

(** [q] holds exactly the messages [ms]. *)
Record mq_rep (q : cloak_msgqueue_t) (ms : list bytes) : Prop := {
  mqr_block : zlen (mq_data q) = mq_cap q;
  mqr_cap : 4 < mq_cap q <= INT64_MAX;
  mqr_head : 0 <= mq_head q < mq_cap q;
  mqr_len : mq_len q = zlen (wire ms);
  mqr_fits : zlen (wire ms) <= mq_cap q;
  mqr_view : ring_view (mq_data q) (mq_head q) (mq_len q) = wire ms;
  mqr_count : mq_count q = zlen ms;
  mqr_payload : mq_payload_bytes q = payload_total ms;
  mqr_small : Forall (fun m : bytes => zlen m <= 4294967295) ms
}.

Definition mq_abs (q : cloak_msgqueue_t) (ms : list bytes) : mailbox :=
  Mailbox (mq_cap q) ms (mq_closed q).

(** ** Lemmas on the encoding *)

Lemma msgqueue_prefix_be len :
  0 <= len <= 4294967295 -> msgqueue_prefix len = be_bytes 4 len.
Proof.
  intros. by rewrite be_bytes_4.
Qed.

Lemma prefix_decode b0 b1 b2 b3 :
  all_bytes [b0; b1; b2; b3] ->
  Z.lor (Z.lor (Z.lor (Z.shiftl b0 24) (Z.shiftl b1 16)) (Z.shiftl b2 8)) b3
    = be_val [b0; b1; b2; b3].
Proof.
  intros H. rewrite <- be32_val by done. rewrite !all_bytes_cons in H.
  unfold is_byte in H. unfold be32.
  rewrite !u32_small by (rewrite Z.shiftl_mul_pow2; lia). done.
Qed.

Lemma zlen_encode m : zlen (encode_msg m) = 4 + zlen m.
Proof. unfold encode_msg. rewrite zlen_app. done. Qed.

Lemma wire_cons m ms : wire (m :: ms) = encode_msg m ++ wire ms.
Proof. done. Qed.

Lemma wire_snoc ms m : wire (ms ++ [m]) = wire ms ++ encode_msg m.
Proof. unfold wire. rewrite map_app, concat_app. cbn. by rewrite app_nil_r. Qed.

Lemma zlen_wire ms : zlen (wire ms) = payload_total ms + 4 * zlen ms.
Proof.
  induction ms as [|m ms IH]; [done|].
  rewrite wire_cons, zlen_app, zlen_encode, IH, zlen_cons. cbn. lia.
Qed.

Lemma payload_total_snoc ms m : payload_total (ms ++ [m]) = payload_total ms + zlen m.
Proof. induction ms; cbn; lia. Qed.

Lemma payload_total_nonneg ms : 0 <= payload_total ms.
Proof. induction ms; cbn; zlia. Qed.

(** The four bytes at the front of a non-empty queue. *)
Lemma wire_cons_prefix m ms :
  take 4 (wire (m :: ms)) = be_bytes 4 (zlen m) /\
  take (length m) (drop 4 (wire (m :: ms))) = m /\
  drop (4 + length m) (wire (m :: ms)) = wire ms.
Proof.
  rewrite wire_cons. unfold encode_msg. rewrite <- app_assoc.
  pose proof (length_be_bytes 4 (zlen m)) as Hl.
  rewrite (take_app_length' _ _ 4), (drop_app_length' _ _ 4) by done.
  rewrite <- drop_drop, (drop_app_length' _ _ 4) by done.
  by rewrite take_app_length, drop_app_length.
Qed.

(** ** Each operation implements the contract *)

Lemma mq_bounds q ms :
  mq_rep q ms -> 0 <= payload_total ms /\ 0 <= zlen ms /\
  payload_total ms + 4 * zlen ms = mq_len q /\ mq_len q <= mq_cap q /\
  mq_cap q <= 9223372036854775807.
Proof.
  intros H. pose proof (payload_total_nonneg ms). pose proof (zlen_nonneg ms).
  destruct H. rewrite zlen_wire in *. unfold INT64_MAX in *. lia.
Qed.

(** Appending one encoded message with the two copies of the write. *)
Lemma mq_put_message q ms msg :
  mq_rep q ms -> zlen msg <= 4294967295 -> mq_len q + zlen msg + 4 <= mq_cap q ->
  let tail := (mq_head q + mq_len q) mod mq_cap q in
  exists data1 data2,
    ring_put (mq_data q) (mq_cap q) tail (msgqueue_prefix (zlen msg)) = Some data1 /\
    (if 0 <? zlen msg then ring_put data1 (mq_cap q) ((tail + 4) mod mq_cap q) msg
     else Some data1) = Some data2 /\
    zlen data2 = mq_cap q /\
    ring_view data2 (mq_head q) (mq_len q + (4 + zlen msg)) = wire (ms ++ [msg]).
Proof.
  intros H Hs Hroom tail. pose proof (mq_bounds q ms H). pose proof (zlen_nonneg msg).
  destruct H. rewrite msgqueue_prefix_be by lia.
  assert (Hp : zlen (be_bytes 4 (zlen msg)) = 4) by done.
  destruct (ring_put_view (mq_data q) (mq_cap q) (mq_head q) (mq_len q)
              (be_bytes 4 (zlen msg))) as (data1 & E1 & Hl1 & Hv1);
    [done|lia|lia|lia|rewrite Hp; lia|].
  rewrite mqr_view0, Hp in Hv1. exists data1.
  destruct (Z.ltb_spec 0 (zlen msg)) as [Hpos|Hz].
  - destruct (ring_put_view data1 (mq_cap q) (mq_head q) (mq_len q + 4) msg)
      as (data2 & E2 & Hl2 & Hv2); [done|lia|lia|lia|lia|].
    exists data2. split_and!; [done| |done|].
    + unfold tail. rewrite Z.add_mod_idemp_l by lia. by rewrite <- Z.add_assoc.
    + rewrite wire_snoc. unfold encode_msg. rewrite app_assoc, <- Hv1, <- Hv2.
      f_equal. lia.
  - exists data1. split_and!; [done..|]. rewrite wire_snoc.
    assert (Hm : msg = []) by (apply zlen_zero; lia). subst msg.
    unfold encode_msg. rewrite app_nil_r. exact Hv1.
Qed.

Lemma msgqueue_write_spec q ms msg :
  mq_rep q ms -> zlen msg <= SIZE_MAX - 4 ->
  exists rc q' ms', cloak_msgqueue_write q msg = Some (rc, q') /\ mq_rep q' ms' /\
    mailbox_write (mq_abs q ms) msg = (rc, mq_abs q' ms').
Proof.
  intros H Hsz. pose proof (mq_bounds q ms H). pose proof (zlen_nonneg msg).
  unfold SIZE_MAX in Hsz. unfold cloak_msgqueue_write, mailbox_write, mb_used.
  unfold CLOAK_MSGQUEUE_LEN_PREFIX. pose proof H as [? Hcap ??????? ]. cbn [mq_abs mb_closed mb_cap mb_msgs].
  destruct (mq_closed q) eqn:Ecl.
  { exists CLOAK_MSGQUEUE_ERR_CLOSED, q, ms. unfold mq_abs. by rewrite Ecl. }
  usimpl.
  assert (mq_head q < mq_cap q) by lia.
  replace (mq_cap q - 4 <? zlen msg) with (mq_cap q <? zlen msg + 4)
    by (destruct (Z.ltb_spec (mq_cap q) (zlen msg + 4));
        destruct (Z.ltb_spec (mq_cap q - 4) (zlen msg)); lia).
  destruct (_ || _) eqn:E1.
  { exists CLOAK_MSGQUEUE_ERR_TOO_LARGE, q, ms. unfold mq_abs. by rewrite Ecl. }
  bool_hyps.
  replace (mq_cap q <? payload_total ms + 4 * zlen ms + zlen msg + 4)
    with (mq_cap q - mq_len q <? zlen msg + 4)
    by (destruct (Z.ltb_spec (mq_cap q - mq_len q) (zlen msg + 4));
        destruct (Z.ltb_spec (mq_cap q) (payload_total ms + 4 * zlen ms + zlen msg + 4)); lia).
  destruct (Z.ltb_spec (mq_cap q - mq_len q) (zlen msg + 4)) as [|Hroom].
  { exists CLOAK_MSGQUEUE_ERR_FULL, q, ms. unfold mq_abs. by rewrite Ecl. }
  pose proof (Z.mod_pos_bound (mq_head q + mq_len q) (mq_cap q) ltac:(lia)).
  usimpl.
  destruct (mq_put_message q ms msg H) as (d1 & d2 & -> & Hput & Hl2 & Hv2); [lia|lia|].
  cbn [mbind option_bind]. rewrite Hput. cbn [mbind option_bind].
  do 2 eexists. exists (ms ++ [msg]). split; [done|]. split; [|done].
  assert (Hw : zlen (wire (ms ++ [msg])) = mq_len q + (4 + zlen msg)).
  { rewrite zlen_wire, payload_total_snoc, zlen_app. change (zlen [msg]) with 1. lia. }
  constructor; cbn; rewrite ?Hw; try done; try lia.
  - rewrite zlen_app. change (zlen [msg]) with 1. lia.
  - rewrite payload_total_snoc. lia.
  - apply Forall_app. split; [done|]. apply Forall_singleton. lia.
Qed.

Lemma mq_count_zero q ms : mq_rep q ms -> (mq_count q =? 0) = bool_decide (ms = []).
Proof.
  intros [????????]. rewrite mqr_count0. case_bool_decide as E.
  - by rewrite E.
  - apply Z.eqb_neq. intros ?%zlen_zero. done.
Qed.

Lemma msgqueue_peek_spec q ms :
  mq_rep q ms -> cloak_msgqueue_peek_len q = Some (zlen <$> head ms).
Proof.
  intros H. pose proof (mq_bounds q ms H). unfold cloak_msgqueue_peek_len.
  rewrite (mq_count_zero q ms H). destruct ms as [|m ms]; [done|].
  rewrite bool_decide_false by done. destruct H.
  rewrite zlen_wire in mqr_fits0. cbn in mqr_fits0. rewrite zlen_cons in *.
  pose proof (zlen_nonneg m). pose proof (payload_total_nonneg ms). pose proof (zlen_nonneg ms).
  unfold CLOAK_MSGQUEUE_LEN_PREFIX.
  rewrite ring_peek_view by (done || lia).
  rewrite <- (ring_view_take _ _ (mq_len q)), mqr_view0
    by (rewrite mqr_len0, zlen_wire; cbn; rewrite zlen_cons; lia).
  change (Z.to_nat 4) with 4%nat. rewrite (proj1 (wire_cons_prefix m ms)).
  apply Forall_cons in mqr_small0 as [Hm _].
  pose proof (be_bytes_all_bytes 4 (zlen m)) as Hb. pose proof (be_val_be_bytes 4 (zlen m)) as Hv.
  rewrite Z.mod_small in Hv by (change (256 ^ Z.of_nat 4) with 4294967296; lia).
  pose proof (length_be_bytes 4 (zlen m)) as Hl.
  destruct (be_bytes 4 (zlen m)) as [|b0 [|b1 [|b2 [|b3 [|]]]]]; try done.
  mem_eval. by rewrite prefix_decode, Hv.
Qed.

Lemma msgqueue_read_spec q ms out_cap :
  mq_rep q ms ->
  exists rc out q' ms', cloak_msgqueue_read q out_cap = Some (rc, out, q') /\ mq_rep q' ms' /\
    mailbox_read (mq_abs q ms) out_cap = (rc, out, mq_abs q' ms').
Proof.
  intros H. unfold cloak_msgqueue_read, mailbox_read. rewrite (msgqueue_peek_spec q ms H).
  cbn [mbind option_bind mq_abs mb_msgs]. destruct ms as [|m ms]; cbn [head fmap option_fmap option_map].
  { by exists CLOAK_MSGQUEUE_EMPTY, [], q, []. }
  destruct (Z.ltb_spec out_cap (zlen m)).
  { by exists CLOAK_MSGQUEUE_SHORT_BUFFER, [], q, (m :: ms). }
  pose proof (mq_bounds q (m :: ms) H) as Hb. destruct H.
  cbn [payload_total] in Hb. rewrite zlen_cons in Hb.
  pose proof (zlen_nonneg m). pose proof (payload_total_nonneg ms). pose proof (zlen_nonneg ms).
  pose proof (Forall_cons_1 _ _ _ mqr_small0) as [Hm Hms].
  unfold CLOAK_MSGQUEUE_LEN_PREFIX. usimpl.
  assert (Hw : zlen (wire ms) = mq_len q - (4 + zlen m)) by (rewrite zlen_wire; lia).
  assert (Hout : (if 0 <? zlen m
      then ring_peek (mq_data q) (mq_cap q) ((mq_head q + 4) mod mq_cap q) (zlen m)
      else Some []) = Some m).
  { destruct (Z.ltb_spec 0 (zlen m)); [|by rewrite (zlen_zero m) by lia].
    rewrite ring_peek_view by (done || (try apply Z.mod_pos_bound); lia).
    rewrite <- (ring_view_take _ _ (mq_len q - 4)) by lia.
    rewrite <- mqr_block0. rewrite ring_view_drop by lia. rewrite mqr_view0.
    rewrite zlen_length. change (Z.to_nat 4) with 4%nat.
    by rewrite (proj1 (proj2 (wire_cons_prefix m ms))). }
  rewrite Hout. cbn [mbind option_bind].
  do 3 eexists. exists ms. split; [done|]. split; [|done].
  pose proof (Z.mod_pos_bound (mq_head q + 4 + zlen m) (mq_cap q) ltac:(lia)).
  constructor; cbn; try done; try lia.
  - rewrite <- Z.add_assoc, <- mqr_block0. rewrite ring_view_drop by lia. rewrite mqr_view0.
    replace (Z.to_nat (4 + zlen m)) with (4 + length m)%nat by (unfold zlen; lia).
    by rewrite (proj2 (proj2 (wire_cons_prefix m ms))).
  - rewrite zlen_cons in mqr_count0. usimpl. lia.
  - cbn in mqr_payload0. usimpl. lia.
Qed.

Lemma msgqueue_init_spec q cap data :
  4 < cap <= INT64_MAX -> zlen data = cap ->
  let '(rc, q') := cloak_msgqueue_init q cap (Some data) in
  rc = 0 /\ mq_rep q' [] /\ mq_abs q' [] = Mailbox cap [] false.
Proof.
  intros Hc Hd. unfold cloak_msgqueue_init, CLOAK_MSGQUEUE_LEN_PREFIX. decide_cmp.
  split_and!; [done| |done]. constructor; cbn; try done; unfold zlen in *; cbn; lia.
Qed.

(** ** Runs of operations *)

Inductive mq_op :=
  | MqWrite (msg : bytes)
  | MqRead (out_cap : Z)
  | MqPeekLen
  | MqClose.

Definition mq_op_ok (o : mq_op) : Prop :=
  match o with MqWrite msg => zlen msg <= SIZE_MAX - 4 | _ => True end.

Record mq_seen := MqSeen {
  ms_rc : Z; ms_out : bytes; ms_peek : option Z;
  ms_count : Z; ms_payload : Z; ms_eof : bool }.

Definition mq_observe (rc : Z) (out : bytes) (peek : option Z) (q : cloak_msgqueue_t) : mq_seen :=
  MqSeen rc out peek (cloak_msgqueue_count q) (cloak_msgqueue_payload_bytes q)
         (cloak_msgqueue_is_eof q).

Definition mq_exec (o : mq_op) (q : cloak_msgqueue_t) : option (mq_seen * cloak_msgqueue_t) :=
  match o with
  | MqWrite msg => '(rc, q') ← cloak_msgqueue_write q msg; Some (mq_observe rc [] None q', q')
  | MqRead cap =>
      '(rc, out, q') ← cloak_msgqueue_read q cap; Some (mq_observe rc out None q', q')
  | MqPeekLen => p ← cloak_msgqueue_peek_len q; Some (mq_observe 0 [] p q, q)
  | MqClose => let q' := cloak_msgqueue_close q in Some (mq_observe 0 [] None q', q')
  end.

Definition mailbox_observe (rc : Z) (out : bytes) (peek : option Z) (b : mailbox) : mq_seen :=
  MqSeen rc out peek (zlen (mb_msgs b)) (payload_total (mb_msgs b))
         (mb_closed b && bool_decide (mb_msgs b = [])).

Definition mailbox_exec (o : mq_op) (b : mailbox) : mq_seen * mailbox :=
  match o with
  | MqWrite msg => let '(rc, b') := mailbox_write b msg in (mailbox_observe rc [] None b', b')
  | MqRead cap =>
      let '(rc, out, b') := mailbox_read b cap in (mailbox_observe rc out None b', b')
  | MqPeekLen => (mailbox_observe 0 [] (zlen <$> head (mb_msgs b)) b, b)
  | MqClose =>
      let b' := Mailbox (mb_cap b) (mb_msgs b) true in (mailbox_observe 0 [] None b', b')
  end.

Definition mq_represents (q : cloak_msgqueue_t) (b : mailbox) : Prop :=
  exists ms, mq_rep q ms /\ b = mq_abs q ms.

Lemma mq_observe_spec rc out peek q ms :
  mq_rep q ms -> mq_observe rc out peek q = mailbox_observe rc out peek (mq_abs q ms).
Proof.
  intros H. unfold mq_observe, mailbox_observe. cbn [mq_abs mb_msgs mb_closed].
  unfold cloak_msgqueue_count, cloak_msgqueue_payload_bytes, cloak_msgqueue_is_eof.
  rewrite (mq_count_zero q ms H). destruct H. by rewrite mqr_count0, mqr_payload0.
Qed.

Lemma mq_rep_close q ms : mq_rep q ms -> mq_rep (cloak_msgqueue_close q) ms.
Proof. intros []. by constructor. Qed.

#[export] Instance mq_refines : Refines mq_exec mailbox_exec mq_op_ok mq_represents.
Proof.
  intros o q b (ms & H & ->) Ho.
  destruct o as [msg|cap| |]; cbn [mq_op_ok mq_exec mailbox_exec] in *.
  - destruct (msgqueue_write_spec q ms msg H Ho) as (rc & q' & ms' & -> & H' & ->); cbn.
    do 3 eexists; split_and!; [done|by exists ms'|by rewrite (mq_observe_spec _ _ _ _ _ H')].
  - destruct (msgqueue_read_spec q ms cap H) as (rc & out & q' & ms' & -> & H' & ->); cbn.
    do 3 eexists; split_and!; [done|by exists ms'|by rewrite (mq_observe_spec _ _ _ _ _ H')].
  - rewrite (msgqueue_peek_spec q ms H); cbn [mbind option_bind].
    do 3 eexists; split_and!; [done|by exists ms|by rewrite (mq_observe_spec _ _ _ _ _ H)].
  - pose proof (mq_rep_close q ms H) as H'.
    do 3 eexists; split_and!; [done|by exists ms|by rewrite (mq_observe_spec _ _ _ _ _ H')].
Qed.

(** Every sequence of writes, reads, peeks and closes on a
    queue that holds the messages [ms] stays inside the block and behaves as
    a bounded list of whole messages: the same return codes (closed, too
    large, full, empty, short buffer), the same datagrams in the same order,
    the same counters; a short read removes nothing. *)
Theorem msgqueue_refines_mailbox ops q ms :
  mq_rep q ms -> Forall mq_op_ok ops ->
  exists ss q' ms', run mq_exec ops q = Some (ss, q') /\ mq_rep q' ms' /\
    spec_run mailbox_exec ops (mq_abs q ms) = (ss, mq_abs q' ms').
Proof.
  intros H Hops.
  destruct (run_refines mq_exec mailbox_exec mq_op_ok mq_represents ops q (mq_abs q ms))
    as (ss & q' & a' & E & (ms' & H' & ->) & F); [by exists ms|done|].
  by exists ss, q', ms'.
Qed.

Lemma msgqueue_refines_mailbox_witness :
  let q := Msgqueue (replicate 12 0) 12 10 0 0 0 false in
  let ops := [MqWrite [1; 2; 3]; MqWrite []; MqWrite [4]; MqRead 2; MqRead 8; MqClose; MqRead 0] in
  exists ss q' ms', run mq_exec ops q = Some (ss, q') /\ mq_rep q' ms' /\
    spec_run mailbox_exec ops (mq_abs q []) = (ss, mq_abs q' ms').
Proof.
  apply msgqueue_refines_mailbox.
  - constructor; try done; unfold INT64_MAX; cbn; lia.
  - repeat (apply Forall_cons; split; [by cbv|]). done.
Defined.
