(* ===== verification/Salsa20.v ===== *)
(** * Salsa20 ([libcloak-common/src/salsa20.c])

    The stream cipher that hides a frame's header: the core on sixteen 32-bit
    words, the block function and the XOR loop, with the published definition
    they implement. *)
From S2P Require Import Prelude Fallible.

Definition CLOAK_SALSA20_KEY_LEN : Z := 32.
Definition CLOAK_SALSA20_NONCE_LEN : Z := 8.

Definition rotl32 (x n : Z) : Z := Z.lor (u32 (Z.shiftl x n)) (Z.shiftr x (32 - n)).

(** [load_le32 (p + off)]. *)
Definition load_le32 (p : bytes) (off : Z) : option Z :=
  b0 ← p.[off]; b1 ← p.[off + 1]; b2 ← p.[off + 2]; b3 ← p.[off + 3];
  Some (Z.lor (Z.lor (Z.lor b0 (u32 (Z.shiftl b1 8))) (u32 (Z.shiftl b2 16)))
              (u32 (Z.shiftl b3 24))).

(** The four bytes [store_le32] writes. *)
Definition store_le32 (v : Z) : bytes :=
  [u8 v; u8 (Z.shiftr v 8); u8 (Z.shiftr v 16); u8 (Z.shiftr v 24)].

(** The macro [QR (a, b, c, d)] on the working array [w]. *)
Definition QR (a b c d : nat) (w : list Z) : list Z :=
  let w := <[b := Z.lxor (w !!! b) (rotl32 (u32 (w !!! a + w !!! d)) 7)]> w in
  let w := <[c := Z.lxor (w !!! c) (rotl32 (u32 (w !!! b + w !!! a)) 9)]> w in
  let w := <[d := Z.lxor (w !!! d) (rotl32 (u32 (w !!! c + w !!! b)) 13)]> w in
  <[a := Z.lxor (w !!! a) (rotl32 (u32 (w !!! d + w !!! c)) 18)]> w.

(** One iteration of the round loop: a column round and a row round. *)
Definition salsa20_double_round (w : list Z) : list Z :=
  let w := QR 0 4 8 12 w in
  let w := QR 5 9 13 1 w in
  let w := QR 10 14 2 6 w in
  let w := QR 15 3 7 11 w in
  let w := QR 0 1 2 3 w in
  let w := QR 5 6 7 4 w in
  let w := QR 10 11 8 9 w in
  QR 15 12 13 14 w.

Definition sigma : list Z := [1634760805; 857760878; 2036477234; 1797285236].

(** The initial state of [salsa20_block]. *)
Definition salsa20_state (key nonce : bytes) (counter : Z) : option (list Z) :=
  x1 ← load_le32 key 0; x2 ← load_le32 key 4; x3 ← load_le32 key 8; x4 ← load_le32 key 12;
  x6 ← load_le32 nonce 0; x7 ← load_le32 nonce 4;
  x11 ← load_le32 key 16; x12 ← load_le32 key 20; x13 ← load_le32 key 24;
  x14 ← load_le32 key 28;
  Some [sigma !!! 0%nat; x1; x2; x3; x4; sigma !!! 1%nat; x6; x7;
        Z.land counter 4294967295; u32 (Z.shiftr counter 32); sigma !!! 2%nat;
        x11; x12; x13; x14; sigma !!! 3%nat].

Definition salsa20_block (key nonce : bytes) (counter : Z) : option bytes :=
  x ← salsa20_state key nonce counter;
  let w := Nat.iter 10 salsa20_double_round x in
  Some (concat (zip_with (fun wi xi => store_le32 (u32 (wi + xi))) w x)).

(** The loop of [cloak_salsa20_xor]; [None] also when [fuel] is too small. *)
Fixpoint salsa20_xor_loop (fuel : nat) (key nonce src : bytes)
    (len offset counter : Z) (dst : bytes) : option bytes :=
  if offset <? len then
    match fuel with
    | O => None
    | S fuel' =>
        block ← salsa20_block key nonce counter;
        let chunk := if 64 <? u64 (len - offset) then 64 else u64 (len - offset) in
        s ← src.[offset +: chunk]; k ← block.[0 +: chunk];
        dst' ← dst.[offset <- zip_with (fun a b => u8 (Z.lxor a b)) s k];
        salsa20_xor_loop fuel' key nonce src len (u64 (offset + chunk)) (u64 (counter + 1)) dst'
    end
  else Some dst.

(** [cloak_salsa20_xor (dst, src, len, nonce, key)]; [dst] and [src] may be the
    same buffer, since every byte is read before it is overwritten. *)
Definition cloak_salsa20_xor (dst src : bytes) (len : Z) (nonce key : bytes) : option bytes :=
  salsa20_xor_loop (S (Z.to_nat len)) key nonce src len 0 0 dst.

(** ** The published definition

    D. J. Bernstein's quarterround, rowround, columnround and doubleround on
    sixteen words, with addition modulo [2^32] and left rotation as
    multiplication. *)
Module Spec.

Definition word_rotl (x n : Z) : Z := (x * 2 ^ n) mod 2 ^ 32 + x / 2 ^ (32 - n).

Definition quarterround (y : Z * Z * Z * Z) : Z * Z * Z * Z :=
  let '(y0, y1, y2, y3) := y in
  let z1 := Z.lxor y1 (word_rotl ((y0 + y3) mod 2 ^ 32) 7) in
  let z2 := Z.lxor y2 (word_rotl ((z1 + y0) mod 2 ^ 32) 9) in
  let z3 := Z.lxor y3 (word_rotl ((z2 + z1) mod 2 ^ 32) 13) in
  let z0 := Z.lxor y0 (word_rotl ((z3 + z2) mod 2 ^ 32) 18) in
  (z0, z1, z2, z3).

Definition rowround (y : list Z) : list Z :=
  match y with
  | [y0; y1; y2; y3; y4; y5; y6; y7; y8; y9; y10; y11; y12; y13; y14; y15] =>
      let '(z0, z1, z2, z3) := quarterround (y0, y1, y2, y3) in
      let '(z5, z6, z7, z4) := quarterround (y5, y6, y7, y4) in
      let '(z10, z11, z8, z9) := quarterround (y10, y11, y8, y9) in
      let '(z15, z12, z13, z14) := quarterround (y15, y12, y13, y14) in
      [z0; z1; z2; z3; z4; z5; z6; z7; z8; z9; z10; z11; z12; z13; z14; z15]
  | _ => y
  end.

(** The 4x4 transpose: a column round is a row round of the transpose. *)
Definition transpose (y : list Z) : list Z :=
  match y with
  | [y0; y1; y2; y3; y4; y5; y6; y7; y8; y9; y10; y11; y12; y13; y14; y15] =>
      [y0; y4; y8; y12; y1; y5; y9; y13; y2; y6; y10; y14; y3; y7; y11; y15]
  | _ => y
  end.

Definition columnround (y : list Z) : list Z := transpose (rowround (transpose y)).

Definition doubleround (y : list Z) : list Z := rowround (columnround y).

(** The hash function: [x + doubleround^10 (x)], words little endian. *)
Definition hash (x : list Z) : bytes :=
  concat (zip_with (fun z x => store_le32 ((z + x) mod 2 ^ 32)) (Nat.iter 10 doubleround x) x).

(** Sixteen words of 64 bytes, little endian. *)
Fixpoint words (l : bytes) : list Z :=
  match l with b0 :: b1 :: b2 :: b3 :: l' => le_val [b0; b1; b2; b3] :: words l' | _ => [] end.

(** The expansion of a key of 32 bytes and the input of 16: the nonce and the
    number of the block, little endian. *)
Definition expansion (key nonce : bytes) (block : Z) : bytes :=
  c_string "expa" ++ take 16 key ++ c_string "nd 3" ++ nonce ++ reverse (be_bytes 8 block) ++
  c_string "2-by" ++ drop 16 key ++ c_string "te k".

(** The bytes of the keystream in one block. *)
Definition block (key nonce : bytes) (n : Z) : bytes := hash (words (expansion key nonce n)).

End Spec.

(** The keystream bytes [64 * first .. 64 * (first + n)). *)
Definition block_or_nil (key nonce : bytes) (i : nat) : bytes :=
  default [] (salsa20_block key nonce (Z.of_nat i)).

Definition keystream (key nonce : bytes) (first n : nat) : bytes :=
  concat (map (block_or_nil key nonce) (seq first n)).

(** ** Lemmas on the core *)

Definition is_word (x : Z) : Prop := 0 <= x < 4294967296.

Lemma lxor_word a b : is_word a -> is_word b -> is_word (Z.lxor a b).
Proof. apply (lxor_range 32). Qed.

Lemma rotl32_spec x n : is_word x -> 0 < n < 32 -> rotl32 x n = Spec.word_rotl x n.
Proof.
  unfold is_word, rotl32, Spec.word_rotl, u32. intros Hx Hn.
  change 4294967296 with (2 ^ 32) in *.
  rewrite Z.shiftl_mul_pow2, Z.shiftr_div_pow2 by lia.
  assert (Hs : (x * 2 ^ n) mod 2 ^ 32 = Z.shiftl (x mod 2 ^ (32 - n)) n).
  { rewrite Z.shiftl_mul_pow2 by lia. replace 32 with (32 - n + n) at 1 by lia.
    rewrite Z.pow_add_r by lia. apply Z.mul_mod_distr_r; apply Z.pow_nonzero; lia. }
  rewrite Hs, lor_shiftl_add; [|lia|].
  - by rewrite Z.shiftl_mul_pow2 by lia.
  - split; [apply Z.div_pos; lia|]. apply Z.div_lt_upper_bound; [lia|].
    rewrite <- Z.pow_add_r by lia. replace (32 - n + n) with 32 by lia. lia.
Qed.

Lemma u32_word x : is_word (u32 x).
Proof. apply u32_range. Qed.

Lemma rotl32_u32 x n : 0 < n < 32 -> rotl32 (u32 x) n = Spec.word_rotl (x mod 2 ^ 32) n.
Proof. intros. by rewrite rotl32_spec by (done || apply u32_word). Qed.

(** [QR] is the published quarterround on the four words it names. *)
Lemma QR_quarterround a b c d w :
  NoDup [a; b; c; d] -> (a < length w)%nat -> (b < length w)%nat ->
  (c < length w)%nat -> (d < length w)%nat ->
  QR a b c d w =
    let '(z0, z1, z2, z3) := Spec.quarterround (w !!! a, w !!! b, w !!! c, w !!! d) in
    <[a := z0]> (<[d := z3]> (<[c := z2]> (<[b := z1]> w))).
Proof.
  intros Hnd Ha Hb Hc Hd. rewrite !NoDup_cons, !not_elem_of_cons in Hnd.
  destruct Hnd as ((Hab & Hac & Had & _) & (Hbc & Hbd & _) & (Hcd & _) & _).
  unfold QR, Spec.quarterround.
  rewrite !rotl32_u32 by lia.
  set (z1 := Z.lxor (w !!! b) _).
  repeat first [rewrite list_lookup_total_insert_eq by (rewrite ?length_insert; lia)
               |rewrite list_lookup_total_insert_ne by done].
  set (z2 := Z.lxor (w !!! c) _).
  repeat first [rewrite list_lookup_total_insert_eq by (rewrite ?length_insert; lia)
               |rewrite list_lookup_total_insert_ne by done].
  done.
Qed.

Lemma double_round_spec w :
  length w = 16%nat -> salsa20_double_round w = Spec.doubleround w.
Proof.
  intros Hw. do 16 (destruct w as [|? w]; [done|]). destruct w; [|done]. clear Hw.
  unfold salsa20_double_round, Spec.doubleround, Spec.columnround.
  cbn [Spec.transpose Spec.rowround].
  do 8 (match goal with |- context [QR ?a ?b ?c ?d (?x :: ?l)] =>
      rewrite (QR_quarterround a b c d (x :: l)) end; [|by apply (bool_decide_eq_true_1 (NoDup _)); vm_compute|cbn; lia..];
    match goal with |- context [Spec.quarterround (?l !!! ?a, ?l !!! ?b, ?l !!! ?c, ?l !!! ?d)] =>
      let r := eval cbv [lookup_total list_lookup_total] in (l !!! a, l !!! b, l !!! c, l !!! d) in
      change (Spec.quarterround (l !!! a, l !!! b, l !!! c, l !!! d)) with (Spec.quarterround r);
      destruct (Spec.quarterround r) as [[[? ?] ?] ?]
    end; cbn [list_insert insert Spec.transpose Spec.rowround]).
  done.
Qed.

(** ** The block function *)

Lemma length_QR a b c d w : length (QR a b c d w) = length w.
Proof. unfold QR. by rewrite !length_insert. Qed.

Lemma iter_double_round n w :
  length w = 16%nat ->
  Nat.iter n salsa20_double_round w = Nat.iter n Spec.doubleround w /\
  length (Nat.iter n salsa20_double_round w) = 16%nat.
Proof.
  intros Hw. induction n as [|n [IH Hl]]; [by split|]. rewrite !Nat.iter_succ, <- IH. split.
  - apply double_round_spec, Hl.
  - unfold salsa20_double_round at 1. rewrite !length_QR. exact Hl.
Qed.

Lemma load_le32_Some p off :
  0 <= off -> off + 4 <= zlen p -> exists v, load_le32 p off = Some v.
Proof.
  intros. unfold load_le32.
  destruct (mem_get_Some p off) as [? ->]; [lia|].
  destruct (mem_get_Some p (off + 1)) as [? ->]; [lia|].
  destruct (mem_get_Some p (off + 2)) as [? ->]; [lia|].
  destruct (mem_get_Some p (off + 3)) as [? ->]; [lia|]. by eexists.
Qed.

Lemma salsa20_state_Some key nonce counter :
  zlen key = 32 -> zlen nonce = 8 ->
  exists x, salsa20_state key nonce counter = Some x /\ length x = 16%nat.
Proof.
  intros Hk Hn. unfold salsa20_state.
  do 4 (match goal with |- context [load_le32 key ?o] =>
    destruct (load_le32_Some key o) as [? ->]; [lia..|]; cbn [mbind option_bind] end).
  do 2 (match goal with |- context [load_le32 nonce ?o] =>
    destruct (load_le32_Some nonce o) as [? ->]; [lia..|]; cbn [mbind option_bind] end).
  do 4 (match goal with |- context [load_le32 key ?o] =>
    destruct (load_le32_Some key o) as [? ->]; [lia..|]; cbn [mbind option_bind] end).
  by eexists.
Qed.

Lemma length_concat_words (l l' : list Z) :
  length (concat (zip_with (fun a b => store_le32 (u32 (a + b))) l l'))
    = (4 * (length l `min` length l'))%nat.
Proof.
  revert l'. induction l as [|a l IH]; intros [|b l']; cbn [zip_with concat length]; try done.
  rewrite length_app, IH. cbn [store_le32 length]. lia.
Qed.

(** The block function returns the published hash of the initial state. *)
Lemma salsa20_block_spec key nonce counter :
  zlen key = 32 -> zlen nonce = 8 ->
  exists x, salsa20_state key nonce counter = Some x /\
    salsa20_block key nonce counter = Some (Spec.hash x) /\ length (Spec.hash x) = 64%nat.
Proof.
  intros Hk Hn. destruct (salsa20_state_Some key nonce counter Hk Hn) as (x & Hx & Hl).
  exists x. split; [done|]. destruct (iter_double_round 10 x Hl) as [Hi Hi16].
  assert (Hh : Spec.hash x = concat (zip_with (fun wi xi => store_le32 (u32 (wi + xi)))
                              (Nat.iter 10 salsa20_double_round x) x)).
  { unfold Spec.hash. rewrite <- Hi. done. }
  rewrite Hh. split.
  - unfold salsa20_block. by rewrite Hx.
  - rewrite length_concat_words, Hi16, Hl. done.
Qed.

#[local] Opaque Spec.hash salsa20_block.

Lemma block_or_nil_spec key nonce i :
  zlen key = 32 -> zlen nonce = 8 ->
  salsa20_block key nonce (Z.of_nat i) = Some (block_or_nil key nonce i) /\
  length (block_or_nil key nonce i) = 64%nat.
Proof.
  intros Hk Hn. unfold block_or_nil.
  destruct (salsa20_block_spec key nonce (Z.of_nat i) Hk Hn) as (x & _ & -> & Hl).
  split; [reflexivity|exact Hl].
Qed.

(** ** The initial state *)

Lemma load_le32_val p off b0 b1 b2 b3 :
  p.[off] = Some b0 -> p.[off + 1] = Some b1 -> p.[off + 2] = Some b2 -> p.[off + 3] = Some b3 ->
  all_bytes [b0; b1; b2; b3] -> load_le32 p off = Some (le_val [b0; b1; b2; b3]).
Proof.
  intros H0 H1 H2 H3 Hb. unfold load_le32. rewrite H0, H1, H2, H3. cbn [mbind option_bind].
  repeat (apply Forall_cons in Hb as [? Hb]). unfold is_byte in *. f_equal.
  rewrite !(Z.shiftl_mul_pow2) by lia. rewrite !u32_small by lia.
  rewrite (Z.lor_comm b0), <- (Z.shiftl_mul_pow2 b1), lor_shiftl_add by lia.
  rewrite (Z.lor_comm (_ + _)), <- (Z.shiftl_mul_pow2 b2), lor_shiftl_add by lia.
  rewrite (Z.lor_comm (_ + _)), <- (Z.shiftl_mul_pow2 b3), lor_shiftl_add by lia.
  cbn [le_val]. lia.
Qed.

(** The number of the block, little endian, is its two words. *)
Lemma block_number n : 0 <= n < 18446744073709551616 ->
  exists b0 b1 b2 b3 b4 b5 b6 b7, reverse (be_bytes 8 n) = [b0; b1; b2; b3; b4; b5; b6; b7] /\
    le_val [b0; b1; b2; b3] = Z.land n 4294967295 /\ le_val [b4; b5; b6; b7] = u32 (Z.shiftr n 32).
Proof.
  intros Hn. change 4294967295 with (Z.ones 32). rewrite Z.land_ones, Z.shiftr_div_pow2 by lia. unfold u32.
  do 8 eexists. split; [reflexivity|]. cbn [le_val]. rewrite !Z.div_div by lia. cbn [Z.mul Z.pow Z.pow_pos Pos.iter Pos.mul Pos.add]. split; dlia.
Qed.

(** The state is the published expansion. *)
Lemma state_is_expansion key nonce n :
  zlen key = 32 -> zlen nonce = 8 -> all_bytes key -> all_bytes nonce -> 0 <= n < 18446744073709551616 ->
  salsa20_state key nonce n = Some (Spec.words (Spec.expansion key nonce n)).
Proof.
  unfold zlen. intros Hk Hn Hbk Hbn Hr. unfold Spec.expansion, salsa20_state.
  destruct (block_number n Hr) as (b0&b1&b2&b3&b4&b5&b6&b7&->&<-&<-).
  do 32 (destruct key as [|? key]; [done|]). destruct key; [|cbn in Hk; lia].
  do 8 (destruct nonce as [|? nonce]; [done|]). destruct nonce; [|cbn in Hn; lia]. clear Hk Hn.
  repeat (apply Forall_cons in Hbk as [? Hbk]). repeat (apply Forall_cons in Hbn as [? Hbn]).
  repeat (erewrite load_le32_val; [cbn [mbind option_bind]|reflexivity|reflexivity|reflexivity|reflexivity|by repeat (apply Forall_cons; split; [assumption|])]).
  reflexivity.
Qed.

(** ** The XOR loop *)

Definition xor_bytes : bytes -> bytes -> bytes := zip_with (fun a b => u8 (Z.lxor a b)).

Lemma length_xor_bytes s k : length (xor_bytes s k) = (length s `min` length k)%nat.
Proof. apply length_zip_with. Qed.

Lemma xor_bytes_app s1 s2 k1 k2 :
  length s1 = length k1 -> xor_bytes (s1 ++ s2) (k1 ++ k2) = xor_bytes s1 k1 ++ xor_bytes s2 k2.
Proof. apply zip_with_app. Qed.

Lemma xor_bytes_take s k : xor_bytes s (take (length s) k) = xor_bytes s k.
Proof. unfold xor_bytes. by rewrite zip_with_take_r. Qed.

Lemma salsa20_xor_loop_spec fuel key nonce src len dst i :
  zlen key = 32 -> zlen nonce = 8 -> 64 * Z.of_nat i <= len ->
  len <= zlen src -> len <= zlen dst -> len <= INT64_MAX ->
  len - 64 * Z.of_nat i <= 64 * Z.of_nat fuel ->
  salsa20_xor_loop fuel key nonce src len (64 * Z.of_nat i) (Z.of_nat i) dst =
    Some (take (64 * i) dst ++
          xor_bytes (drop (64 * i) (take (Z.to_nat len) src)) (keystream key nonce i fuel) ++
          drop (Z.to_nat len) dst).
Proof.
  unfold INT64_MAX. intros Hk Hn. revert i dst.
  induction fuel as [|fuel IH]; intros i dst Hi Hs Hd Hm Hf; cbn [salsa20_xor_loop].
  { decide_cmp. rewrite drop_ge by (rewrite length_take; lia). cbn.
    replace (Z.to_nat len) with (64 * i)%nat by lia. by rewrite take_drop. }
  destruct (Z.ltb_spec (64 * Z.of_nat i) len) as [Hlt|Hge].
  2: { rewrite drop_ge by (rewrite length_take; lia). cbn.
       replace (Z.to_nat len) with (64 * i)%nat by lia. by rewrite take_drop. }
  destruct (block_or_nil_spec key nonce i Hk Hn) as [-> Hbl]. cbn [mbind option_bind].
  usimpl. set (rem := len - 64 * Z.of_nat i).
  set (chunk := if 64 <? rem then 64 else rem).
  assert (Hc : 0 < chunk <= 64 /\ chunk <= rem /\ (chunk = 64 \/ chunk = rem))
    by (unfold chunk; destruct (Z.ltb_spec 64 rem); unfold rem in *; lia).
  clearbody chunk. unfold rem in Hc. clear rem.
  rewrite (mem_read_Some src) by lia. cbn [mbind option_bind].
  rewrite mem_read_Some by (unfold zlen; lia). cbn [mbind option_bind]. rewrite drop_0.
  replace (Z.to_nat (64 * Z.of_nat i)) with (64 * i)%nat by lia.
  fold (xor_bytes (take (Z.to_nat chunk) (drop (64 * i) src))
                  (take (Z.to_nat chunk) (block_or_nil key nonce i))).
  set (piece := xor_bytes _ _).
  assert (Hp : length piece = Z.to_nat chunk).
  { unfold piece. rewrite length_xor_bytes, !length_take, length_drop.
    unfold zlen in *. lia. }
  rewrite mem_write_Some by (unfold zlen in *; lia). cbn [mbind option_bind].
  replace (Z.to_nat (64 * Z.of_nat i)) with (64 * i)%nat in * by lia.
  usimpl. rewrite Hp. unfold keystream. cbn [seq map concat].
  fold (keystream key nonce (S i) fuel).
  set (ks := keystream key nonce (S i) fuel) in *.
  assert (Hld : length dst = Z.to_nat (zlen dst)) by (unfold zlen; lia).
  assert (Hls : length src = Z.to_nat (zlen src)) by (unfold zlen; lia).
  destruct (Hc) as (Hc1 & Hc2 & [-> | ->]).
  - (* a whole block *)
    replace (64 * Z.of_nat i + 64) with (64 * Z.of_nat (S i)) by lia.
    replace (Z.of_nat i + 1) with (Z.of_nat (S i)) by lia.
    rewrite IH; [|lia|done| |done|lia].
    2: { unfold zlen. rewrite !length_app, length_take, length_drop, Hp. lia. }
    f_equal. fold ks. change (Z.to_nat 64) with 64%nat in *.
    replace (drop (64 * i) (take (Z.to_nat len) src))
      with (take 64 (drop (64 * i) src) ++ drop (64 * S i) (take (Z.to_nat len) src)).
    2: { rewrite <- (take_drop 64 (drop (64 * i) (take (Z.to_nat len) src))).
         rewrite drop_drop. f_equal; [|f_equal; lia].
         rewrite !skipn_firstn_comm, take_take. f_equal. lia. }
    rewrite xor_bytes_app by (rewrite length_take, length_drop; lia).
    replace (xor_bytes (take 64 (drop (64 * i) src)) (block_or_nil key nonce i)) with piece.
    2: { unfold piece. rewrite (take_ge (block_or_nil key nonce i)) by (rewrite Hbl; done). done. }
    rewrite (drop_app_ge (take (64 * i) dst)) by (rewrite length_take; lia).
    rewrite drop_app_ge by (rewrite length_take; lia).
    rewrite drop_drop. rewrite length_take, Hp.
    replace (64 * i + 64 + (Z.to_nat len - 64 * i `min` length dst - 64))%nat
      with (Z.to_nat len) by lia.
    replace (take (64 * S i) (take (64 * i) dst ++ piece ++ drop (64 * i + 64) dst))
      with (take (64 * i) dst ++ piece); [rewrite <- !app_assoc; do 4 f_equal; lia|].
    rewrite app_assoc, take_app_length'; [done|].
    rewrite length_app, length_take, Hp. lia.
  - (* the last, possibly partial, block *)
    replace (64 * Z.of_nat i + (len - 64 * Z.of_nat i)) with len by lia.
    assert (Hend : forall f c d, salsa20_xor_loop f key nonce src len len c d = Some d).
    { intros f c d. destruct f; cbn [salsa20_xor_loop]; decide_cmp; done. }
    rewrite Hend. f_equal. f_equal.
    replace (64 * i + Z.to_nat (len - 64 * Z.of_nat i))%nat with (Z.to_nat len) by lia.
    f_equal. unfold piece. rewrite skipn_firstn_comm.
    replace (Z.to_nat (len - 64 * Z.of_nat i)) with (Z.to_nat len - 64 * i)%nat by lia.
    set (s := take _ (drop _ src)).
    assert (Hsl : length s = (Z.to_nat len - 64 * i)%nat)
      by (unfold s; rewrite length_take, length_drop; lia).
    rewrite <- Hsl. rewrite <- (xor_bytes_take s (block_or_nil key nonce i ++ ks)).
    by rewrite take_app_le by lia.
Qed.

(** The whole call: the first [len] bytes of [dst] become source XOR
    keystream, the rest of [dst] is untouched. *)
Definition stream_of (key nonce : bytes) (len : Z) : bytes :=
  keystream key nonce 0 (S (Z.to_nat len)).

Lemma salsa20_xor_spec dst src len nonce key :
  zlen key = 32 -> zlen nonce = 8 -> 0 <= len <= INT64_MAX ->
  len <= zlen src -> len <= zlen dst ->
  cloak_salsa20_xor dst src len nonce key =
    Some (xor_bytes (take (Z.to_nat len) src) (stream_of key nonce len) ++
          drop (Z.to_nat len) dst).
Proof.
  intros Hk Hn Hl Hs Hd. unfold cloak_salsa20_xor.
  rewrite (salsa20_xor_loop_spec _ key nonce src len dst 0) by (done || lia). done.
Qed.

Lemma length_keystream key nonce first n :
  zlen key = 32 -> zlen nonce = 8 -> length (keystream key nonce first n) = (64 * n)%nat.
Proof.
  intros Hk Hn. unfold keystream. revert first.
  induction n as [|n IH]; intros first; [done|]. cbn [seq map concat].
  rewrite length_app, IH, (proj2 (block_or_nil_spec key nonce first Hk Hn)). lia.
Qed.

Lemma keystream_lookup key nonce first n i :
  zlen key = 32 -> zlen nonce = 8 -> (i < 64 * n)%nat ->
  keystream key nonce first n !! i =
    block_or_nil key nonce (first + i / 64) !! (i mod 64)%nat.
Proof.
  intros Hk Hn. revert first i. unfold keystream.
  induction n as [|n IH]; intros first i Hi; [lia|]. cbn [seq map concat].
  destruct (block_or_nil_spec key nonce first Hk Hn) as [_ Hb].
  destruct (decide (i < 64)%nat).
  - rewrite lookup_app_l by lia. rewrite Nat.div_small, Nat.mod_small by lia.
    by rewrite Nat.add_0_r.
  - rewrite lookup_app_r, Hb by lia. rewrite IH by lia.
    replace i with (i - 64 + 1 * 64)%nat at 3 4 by lia.
    rewrite Nat.div_add, Nat.Div0.mod_add by lia. f_equal. f_equal. lia.
Qed.

Lemma xor_bytes_involutive s k :
  all_bytes s -> (length s <= length k)%nat -> xor_bytes (xor_bytes s k) k = s.
Proof.
  revert k. induction s as [|a s IH]; intros [|b k] Hb Hl; cbn in *; try done; try lia.
  apply Forall_cons in Hb as [Ha Hs]. f_equal; [|apply IH; [done|lia]].
  rewrite <- (u8_small a Ha) at 2. unfold u8. change 256 with (2 ^ 8).
  rewrite <- !Z.land_ones by lia. apply Z.bits_inj'. intros i _.
  rewrite !Z.land_spec, !Z.lxor_spec, Z.land_spec, Z.lxor_spec.
  by destruct (Z.testbit a i), (Z.testbit b i), (Z.testbit (Z.ones 8) i).
Qed.

Lemma xor_bytes_all_bytes s k : all_bytes (xor_bytes s k).
Proof.
  revert k. induction s as [|a s IH]; intros [|b k]; cbn; try constructor.
  - apply u8_is_byte.
  - apply IH.
Qed.

(** Applying the cipher in place twice with the same key and nonce. *)
Lemma salsa20_xor_twice buf len nonce key :
  all_bytes (take (Z.to_nat len) buf) ->
  zlen key = 32 -> zlen nonce = 8 -> 0 <= len <= INT64_MAX -> len <= zlen buf ->
  exists buf', cloak_salsa20_xor buf buf len nonce key = Some buf' /\
    zlen buf' = zlen buf /\ drop (Z.to_nat len) buf' = drop (Z.to_nat len) buf /\
    all_bytes (take (Z.to_nat len) buf') /\
    cloak_salsa20_xor buf' buf' len nonce key = Some buf.
Proof.
  intros Hb Hk Hn Hl Hlen. rewrite salsa20_xor_spec by done.
  set (x := xor_bytes _ _).
  assert (Hks : (Z.to_nat len <= length (stream_of key nonce len))%nat)
    by (unfold stream_of; rewrite length_keystream by done; lia).
  assert (Hx : length x = Z.to_nat len)
    by (unfold x; rewrite length_xor_bytes, length_take; unfold zlen in *; lia).
  eexists; split; [done|].
  assert (Hz : zlen (x ++ drop (Z.to_nat len) buf) = zlen buf)
    by (unfold zlen in *; rewrite length_app, length_drop; lia).
  rewrite drop_app_length', take_app_length' by done. split_and!; [done..| |].
  { apply xor_bytes_all_bytes. }
  rewrite salsa20_xor_spec by (done || lia). f_equal.
  rewrite drop_app_length', take_app_length' by done. unfold x.
  rewrite xor_bytes_involutive; [by rewrite take_drop|done|].
  rewrite length_take. lia.
Qed.

(** ** Properties *)

(** Equivalence with the published cipher.  With a 32-byte key and an
    8-byte nonce, [cloak_salsa20_xor] succeeds, XORs byte [i] of the source
    with byte [i mod 64] of block [i / 64] of the published keystream (the hash
    of the expansion of the key, the nonce and the block number), and leaves the
    rest of the destination alone. *)
Theorem salsa20_xor_is_salsa20 dst src len nonce key :
  zlen key = 32 -> zlen nonce = 8 -> all_bytes key -> all_bytes nonce -> 0 <= len <= INT64_MAX ->
  len <= zlen src -> len <= zlen dst ->
  exists dst', cloak_salsa20_xor dst src len nonce key = Some dst' /\
    zlen dst' = zlen dst /\
    (forall i, (i < Z.to_nat len)%nat ->
       exists a k, src !! i = Some a /\ Spec.block key nonce (Z.of_nat (i / 64)) !! (i mod 64)%nat = Some k /\
         dst' !! i = Some (u8 (Z.lxor a k))) /\
    (forall i, (Z.to_nat len <= i)%nat -> dst' !! i = dst !! i).
Proof.
  intros Hk Hn Hbk Hbn Hl Hs Hd. rewrite salsa20_xor_spec by done. set (x := xor_bytes _ _).
  assert (Hks : length (stream_of key nonce len) = (64 * S (Z.to_nat len))%nat)
    by (unfold stream_of; by rewrite length_keystream).
  assert (Hx : length x = Z.to_nat len)
    by (unfold x; rewrite length_xor_bytes, length_take; unfold zlen in *; lia).
  eexists; split; [done|]. split_and!.
  - unfold zlen in *. rewrite length_app, length_drop. lia.
  - intros i Hi. rewrite lookup_app_l by lia.
    destruct (salsa20_block_spec key nonce (Z.of_nat (i / 64)) Hk Hn) as (st & Hst & Hblk & Hh).
    destruct (lookup_lt_is_Some_2 src i) as [a Ha]; [unfold zlen in *; lia|].
    destruct (lookup_lt_is_Some_2 (Spec.hash st) (i mod 64)) as [k Hkk];
      [rewrite Hh; apply Nat.mod_upper_bound; lia|].
    exists a, k. split; [done|]. split.
    { unfold Spec.block. rewrite state_is_expansion in Hst by (done || (unfold INT64_MAX in *; pose proof (Nat.Div0.div_le_upper_bound i 64 i); lia)).
      replace (Spec.words _) with st by congruence. done. }
    apply lookup_zip_with_Some. exists a, k. split_and!; [done| |].
    + by rewrite lookup_take_lt.
    + unfold stream_of. rewrite keystream_lookup by (done || lia).
      unfold block_or_nil. by rewrite Nat.add_0_l, Hblk.
  - intros i Hi. rewrite lookup_app_r by lia. rewrite lookup_drop. f_equal. lia.
Qed.

Lemma salsa20_xor_is_salsa20_witness :
  exists dst', cloak_salsa20_xor (replicate 70 9) (replicate 70 0) 66 (replicate 8 0)
                 (128 :: replicate 31 0) = Some dst' /\
    zlen dst' = zlen (replicate 70 9) /\
    (forall i, (i < Z.to_nat 66)%nat ->
       exists a k,
         (replicate 70 0) !! i = Some a /\
         Spec.block (128 :: replicate 31 0) (replicate 8 0) (Z.of_nat (i / 64)) !! (i mod 64)%nat = Some k /\
         dst' !! i = Some (u8 (Z.lxor a k))) /\
    (forall i, (Z.to_nat 66 <= i)%nat -> dst' !! i = (replicate 70 9) !! i).
Proof.
  apply salsa20_xor_is_salsa20; try by apply all_bytesb_sound. all: unfold INT64_MAX, zlen; cbn; lia.
Defined.

(** The first eight keystream bytes of the eSTREAM test vector "Set 1,
    vector# 0" for 256-bit keys. *)
Example salsa20_test_vector :
  cloak_salsa20_xor (replicate 8 0) (replicate 8 0) 8 (replicate 8 0) (128 :: replicate 31 0)
  = Some [227; 190; 143; 221; 139; 236; 162; 227].
Proof. by vm_compute. Qed.
