(* ===== verification/Aead.v ===== *)
(** * Authenticated encryption ([libcloak-common/src/aead.c])

    The sources drive OpenSSL's EVP interface.  OpenSSL is a parameter: one
    class holds the two call sequences (initialise, set the nonce length, key
    and nonce, associated data, data, tag) with [None] for "some EVP call
    failed", and a second class states what EVP documents about them. *)
From S2P Require Import Prelude.

Definition CLOAK_AEAD_NONE : Z := 0.
Definition CLOAK_AEAD_AES_256_GCM : Z := 1.
Definition CLOAK_AEAD_CHACHA20_POLY1305 : Z := 2.
Definition CLOAK_AEAD_AES_128_GCM : Z := 3.

Definition CLOAK_AEAD_KEY_LEN : Z := 32.
Definition CLOAK_AEAD_NONCE_LEN : Z := 12.
Definition CLOAK_AEAD_TAG_LEN : Z := 16.

Inductive evp_cipher := EVP_aes_256_gcm | EVP_aes_128_gcm | EVP_chacha20_poly1305.

Class Evp := {
  (** ciphertext and 16-byte tag of a plaintext *)
  evp_encrypt : evp_cipher -> bytes -> bytes -> bytes -> bytes -> option (bytes * bytes);
  (** plaintext of a ciphertext and its tag, [None] on a tag mismatch *)
  evp_decrypt : evp_cipher -> bytes -> bytes -> bytes -> bytes -> bytes -> option bytes
}.

Definition pick_cipher (method : Z) : option evp_cipher :=
  if method =? CLOAK_AEAD_AES_256_GCM then Some EVP_aes_256_gcm
  else if method =? CLOAK_AEAD_AES_128_GCM then Some EVP_aes_128_gcm
  else if method =? CLOAK_AEAD_CHACHA20_POLY1305 then Some EVP_chacha20_poly1305
  else None.

Definition cloak_aead_overhead (method : Z) : Z :=
  if method =? CLOAK_AEAD_NONE then 0 else CLOAK_AEAD_TAG_LEN.

Definition cloak_aead_key_len (method : Z) : Z :=
  if method =? CLOAK_AEAD_AES_128_GCM then 16
  else if method =? CLOAK_AEAD_NONE then 0 else CLOAK_AEAD_KEY_LEN.

Definition cloak_aead_method_is_valid (method : Z) : bool :=
  (method =? CLOAK_AEAD_NONE) || (method =? CLOAK_AEAD_AES_256_GCM) ||
  (method =? CLOAK_AEAD_CHACHA20_POLY1305) || (method =? CLOAK_AEAD_AES_128_GCM).

Section aead.
Context `{Evp}.

(** [cloak_aead_seal]: the bytes written to [out], or [None] for [-1]. *)
Definition cloak_aead_seal (method : Z) (key nonce aad plaintext : bytes) : option bytes :=
  if method =? CLOAK_AEAD_NONE then Some plaintext
  else
    match pick_cipher method with
    | None => None
    | Some cipher =>
        '(ciphertext, tag) ← evp_encrypt cipher key nonce aad plaintext;
        Some (ciphertext ++ tag)
    end.

(** [cloak_aead_open]: the bytes written to [out], or [None] for [-1]. *)
Definition cloak_aead_open (method : Z) (key nonce aad input : bytes) : option bytes :=
  if method =? CLOAK_AEAD_NONE then Some input
  else if zlen input <? CLOAK_AEAD_TAG_LEN then None
  else
    match pick_cipher method with
    | None => None
    | Some cipher =>
        let ciphertext_len := zlen input - CLOAK_AEAD_TAG_LEN in
        evp_decrypt cipher key nonce aad
          (take (Z.to_nat ciphertext_len) input) (drop (Z.to_nat ciphertext_len) input)
    end.

End aead.

(** What EVP documents of the three ciphers, for the key and nonce lengths the
    sources use: sealing succeeds and keeps the length, opening inverts it,
    keeps the length and yields bytes.  (A 16-byte cipher reads the first half of the key.) *)
Class EvpLaws `{Evp} : Prop := {
  evp_encrypt_ok c key nonce aad pt :
    zlen key = CLOAK_AEAD_KEY_LEN -> zlen nonce = CLOAK_AEAD_NONCE_LEN -> all_bytes pt ->
    exists ct tag, evp_encrypt c key nonce aad pt = Some (ct, tag) /\
      zlen ct = zlen pt /\ zlen tag = CLOAK_AEAD_TAG_LEN /\ all_bytes ct /\ all_bytes tag /\
      evp_decrypt c key nonce aad ct tag = Some pt;
  evp_decrypt_length c key nonce aad ct tag pt :
    evp_decrypt c key nonce aad ct tag = Some pt -> zlen pt = zlen ct;
  evp_decrypt_bytes c key nonce aad ct tag pt :
    all_bytes ct -> evp_decrypt c key nonce aad ct tag = Some pt -> all_bytes pt
}.

(** ** Lemmas *)

Lemma aead_valid_cipher method :
  cloak_aead_method_is_valid method = true -> method <> CLOAK_AEAD_NONE ->
  exists c, pick_cipher method = Some c.
Proof.
  unfold cloak_aead_method_is_valid, pick_cipher. intros Hv Hn.
  repeat case_match; eauto. apply Z.eqb_neq in Hn. rewrite Hn in Hv. cbn in Hv. congruence.
Qed.

Section aead_facts.
Context `{EvpLaws}.

Lemma aead_seal_ok method key nonce aad pt :
  cloak_aead_method_is_valid method = true ->
  zlen key = CLOAK_AEAD_KEY_LEN -> zlen nonce = CLOAK_AEAD_NONCE_LEN -> all_bytes pt ->
  exists out, cloak_aead_seal method key nonce aad pt = Some out /\
    zlen out = zlen pt + cloak_aead_overhead method /\ all_bytes out /\
    cloak_aead_open method key nonce aad out = Some pt.
Proof.
  intros Hv Hk Hn Hp. unfold cloak_aead_seal, cloak_aead_open, cloak_aead_overhead.
  destruct (Z.eqb_spec method CLOAK_AEAD_NONE) as [->|Hm].
  { exists pt. split_and!; [done|lia|done..]. }
  destruct (aead_valid_cipher method Hv Hm) as [c ->].
  destruct (evp_encrypt_ok c key nonce aad pt Hk Hn Hp)
    as (ct & tag & -> & Hct & Htag & Hbc & Hbt & Hdec).
  pose proof (zlen_nonneg ct).
  exists (ct ++ tag). split_and!; [done| |by apply all_bytes_app|].
  - rewrite zlen_app. lia.
  - rewrite zlen_app, Htag. unfold CLOAK_AEAD_TAG_LEN in *. decide_cmp.
    replace (zlen ct + 16 - 16) with (zlen ct) by lia. rewrite zlen_length.
    by rewrite take_app_length, drop_app_length.
Qed.

Lemma aead_open_length method key nonce aad input out :
  cloak_aead_open method key nonce aad input = Some out ->
  zlen out = zlen input - cloak_aead_overhead method.
Proof.
  unfold cloak_aead_open, cloak_aead_overhead.
  destruct (Z.eqb_spec method CLOAK_AEAD_NONE) as [->|Hm]; [intros [= <-]; lia|].
  unfold CLOAK_AEAD_TAG_LEN. destruct (Z.ltb_spec (zlen input) 16); [done|].
  destruct (pick_cipher method); [|done]. intros ->%evp_decrypt_length.
  rewrite zlen_take; lia.
Qed.

Lemma aead_open_bytes method key nonce aad input out :
  all_bytes input -> cloak_aead_open method key nonce aad input = Some out -> all_bytes out.
Proof.
  intros Hb. unfold cloak_aead_open. destruct (method =? CLOAK_AEAD_NONE); [by intros [= <-]|].
  destruct (zlen input <? CLOAK_AEAD_TAG_LEN); [done|].
  destruct (pick_cipher method); [|done]. apply evp_decrypt_bytes. by apply Forall_take.
Qed.

End aead_facts.

(** ** A concrete instance, for the witnesses: the identity cipher with a tag
    of sixteen zero bytes. *)
Definition evp_plain : Evp := {|
  evp_encrypt _ _ _ _ pt := Some (pt, replicate 16 0);
  evp_decrypt _ _ _ _ ct tag := if bool_decide (tag = replicate 16 0) then Some ct else None
|}.

Lemma evp_plain_laws : @EvpLaws evp_plain.
Proof.
  split.
  - intros c key nonce aad pt _ _ Hp. exists pt, (replicate 16 0). split_and!; try done.
    apply Forall_replicate. unfold is_byte; lia.
  - intros c key nonce aad ct tag pt. cbn. case_bool_decide; [|done]. by intros [= ->].
  - intros c key nonce aad ct tag pt. cbn. case_bool_decide; [|done]. by intros ? [= ->].
Qed.
