(* ===== verification/ClientAuth.v ===== *)
(** * The client's proof of identity ([libcloak-client/src/client_auth.c])

    The client seals 48 bytes (uid, proxy method, encryption method, time,
    session id, flags) under a secret it shares with the server; ephemeral
    public key and ciphertext travel in the three opaque fields of a
    ClientHello. *)
From S2P Require Import Prelude Fallible Buffer Aead X25519.

Definition CLOAK_PROXY_METHOD_LEN : Z := 12.
Definition CLOAK_UID_LEN : Z := 16.
Definition CLOAK_CLIENT_AUTH_UNORDERED_FLAG : Z := 1.
Definition CLOAK_CLIENT_AUTH_PLAINTEXT_LEN : Z := 48.

Record cloak_client_auth_payload_t := AuthPayload { ap_random : bytes; ap_ciphertext : bytes }.

Definition store_be64 (v : Z) : bytes := store_be_loop 8 v.
Definition store_be32 (v : Z) : bytes :=
  [u8 (Z.shiftr v 24); u8 (Z.shiftr v 16); u8 (Z.shiftr v 8); u8 v].

(** The [plaintext] array, field by field. *)
Definition auth_plaintext (uid proxy_method : bytes)
    (proxy_method_len encryption_method session_id unordered now_unix : Z) : option bytes :=
  let plaintext := replicate (Z.to_nat CLOAK_CLIENT_AUTH_PLAINTEXT_LEN) 0 in
  uid ← uid.[0 +: CLOAK_UID_LEN];
  plaintext ← plaintext.[0 <- uid];
  method ← proxy_method.[0 +: proxy_method_len];
  plaintext ← plaintext.[16 <- method];
  plaintext ← mem_set plaintext 28 encryption_method;
  plaintext ← plaintext.[29 <- store_be64 (u64 now_unix)];
  plaintext ← plaintext.[37 <- store_be32 session_id];
  if negb (unordered =? 0) then
    flags ← plaintext.[41];
    mem_set plaintext 41 (u8 (Z.lor flags CLOAK_CLIENT_AUTH_UNORDERED_FLAG))
  else Some plaintext.

(** What [out] and [out_shared_secret] hold after a failure. *)
Definition auth_payload_zero : cloak_client_auth_payload_t :=
  AuthPayload (replicate 32 0) (replicate 64 0).

Section client_auth.
Context `{Evp} `{EvpX25519}.

(** [cloak_client_auth_build]: return value, [out] and [out_shared_secret].
    [proxy_method] is [None] for NULL, and the memory of a string otherwise. *)
Definition cloak_client_auth_build (uid : bytes) (proxy_method : option bytes)
    (encryption_method session_id unordered now_unix : Z) (server_pub seed : bytes)
    : option (Z * cloak_client_auth_payload_t * bytes) :=
  let fail := Some (-1, auth_payload_zero, replicate (Z.to_nat CLOAK_AEAD_KEY_LEN) 0) in
  match proxy_method with
  | None => fail
  | Some proxy_method =>
      proxy_method_len ← strlen proxy_method;
      if CLOAK_PROXY_METHOD_LEN <? proxy_method_len then fail
      else
        match cloak_x25519_generate_keypair seed with
        | None => fail
        | Some (eph_priv, eph_pub) =>
            match cloak_x25519_shared_secret eph_priv server_pub with
            | None => fail
            | Some shared_secret =>
                plaintext ← auth_plaintext uid proxy_method proxy_method_len encryption_method
                              session_id unordered now_unix;
                nonce ← eph_pub.[0 +: CLOAK_AEAD_NONCE_LEN];
                match cloak_aead_seal CLOAK_AEAD_AES_256_GCM shared_secret nonce [] plaintext with
                | None => fail
                | Some ciphertext =>
                    if negb (zlen ciphertext =? 64) then fail
                    else Some (0, AuthPayload eph_pub ciphertext, shared_secret)
                end
            end
        end
  end.

End client_auth.

(** ** The plaintext as a record *)

Record auth_fields := AuthFields {
  af_uid : bytes;
  af_proxy_method : bytes;
  af_encryption_method : Z;
  af_time : Z;
  af_session_id : Z;
  af_unordered : bool
}.

Record auth_fields_ok (a : auth_fields) : Prop := {
  ao_uid : zlen (af_uid a) = 16 /\ all_bytes (af_uid a);
  ao_method : zlen (af_proxy_method a) <= 12 /\ no_nul (af_proxy_method a) /\
              all_bytes (af_proxy_method a);
  ao_encryption : is_byte (af_encryption_method a);
  ao_time : INT64_MIN <= af_time a <= INT64_MAX;
  ao_session : 0 <= af_session_id a < 4294967296
}.

Definition auth_text (a : auth_fields) : bytes :=
  af_uid a ++ (af_proxy_method a ++ replicate (12 - length (af_proxy_method a)) 0) ++
  [af_encryption_method a] ++ be_bytes 8 (u64 (af_time a)) ++ be_bytes 4 (af_session_id a) ++
  [b2z (af_unordered a)] ++ replicate 6 0.

Lemma auth_text_length a : auth_fields_ok a -> zlen (auth_text a) = 48.
Proof.
  intros [[Hu _] (Hm&_) _ _ _]. unfold auth_text. unfold zlen in *.
  rewrite !length_app, !length_be_bytes, !length_replicate. cbn [length]. lia.
Qed.

Lemma auth_text_bytes a : auth_fields_ok a -> all_bytes (auth_text a).
Proof.
  intros [[_ Hu] (_&_&Hm) He _ _]. unfold auth_text.
  assert (Hz : forall n, all_bytes (replicate n 0)).
  { intros n. apply Forall_replicate. unfold is_byte. lia. }
  assert (Hone : forall b, is_byte b -> all_bytes [b]) by (intros; by apply Forall_singleton).
  rewrite !all_bytes_app. split_and!; try done; try apply be_bytes_all_bytes; try apply Hz.
  - by apply Hone.
  - apply Hone. by destruct (af_unordered a).
Qed.

Lemma auth_plaintext_spec a unordered junk :
  auth_fields_ok a -> af_unordered a = negb (unordered =? 0) ->
  auth_plaintext (af_uid a) (c_block (af_proxy_method a) junk) (zlen (af_proxy_method a))
    (af_encryption_method a) (af_session_id a) unordered (af_time a) = Some (auth_text a).
Proof.
  intros [[Hu Hub] (Hm&Hnul&Hmb) He Ht Hs] Hun. unfold auth_plaintext.
  pose proof (zlen_nonneg (af_proxy_method a)) as Hm0.
  rewrite (mem_read_all (af_uid a)) by (by rewrite Hu). cbn [mbind option_bind].
  set (m := af_proxy_method a) in *.
  assert (Hzero : replicate (Z.to_nat CLOAK_CLIENT_AUTH_PLAINTEXT_LEN) 0 =
    mjoin [replicate 16 0; replicate (length m) 0; replicate (12 - length m) 0; [0];
           replicate 8 0; replicate 4 0; [0]; replicate 6 0]).
  { change [0] with (replicate 1 0). unfold zlen in Hm.
    change (mjoin ?l) with (concat l). cbn [concat]. rewrite app_nil_r, <- !replicate_add.
    f_equal. change (Z.to_nat CLOAK_CLIENT_AUTH_PLAINTEXT_LEN) with 48%nat. lia. }
  rewrite Hzero. clear Hzero. unfold c_block.
  seg_step seg_write 0%nat.
  rewrite mem_read_head by done. cbn [mbind option_bind].
  seg_step seg_write 1%nat.
  seg_step seg_set 3%nat.
  assert (H64 : store_be64 (u64 (af_time a)) = be_bytes 8 (u64 (af_time a)))
    by apply store_be_loop_be.
  assert (H32 : store_be32 (af_session_id a) = be_bytes 4 (af_session_id a))
    by (symmetry; apply be_bytes_4).
  rewrite H64, H32. pose proof (length_be_bytes 8 (u64 (af_time a))).
  pose proof (length_be_bytes 4 (af_session_id a)).
  seg_step seg_write 4%nat. seg_step seg_write 5%nat.
  assert (Hend : forall f, f = b2z (af_unordered a) ->
    Some (mjoin [af_uid a; m; replicate (12 - length m) 0; [af_encryption_method a];
      be_bytes 8 (u64 (af_time a)); be_bytes 4 (af_session_id a); [f]; replicate 6 0]) =
    Some (auth_text a)).
  { intros f ->. change (mjoin ?l) with (concat l). cbn [concat]. unfold auth_text.
    by rewrite <- !app_assoc, app_nil_r. }
  destruct (unordered =? 0); cbn [negb] in *; [by apply Hend; rewrite Hun|].
  seg_step seg_get 6%nat. seg_step seg_set 6%nat. apply Hend. by rewrite Hun.
Qed.

(** The build succeeds, and the payload opens to the plaintext. *)
Section build.
Context `{EvpLaws} `{X25519Laws}.

Lemma client_auth_build_ok a unordered junk server_priv server_pub priv pub seed :
  auth_fields_ok a -> af_unordered a = negb (unordered =? 0) ->
  keypair server_priv server_pub -> cloak_x25519_generate_keypair seed = Some (priv, pub) ->
  exists ciphertext secret,
    cloak_client_auth_build (af_uid a) (Some (c_block (af_proxy_method a) junk))
      (af_encryption_method a) (af_session_id a) unordered (af_time a) server_pub seed =
      Some (0, AuthPayload pub ciphertext, secret) /\
    zlen pub = 32 /\ all_bytes pub /\ zlen ciphertext = 64 /\ all_bytes ciphertext /\
    zlen secret = 32 /\ all_bytes secret /\
    cloak_x25519_shared_secret server_priv pub = Some secret /\
    cloak_aead_open CLOAK_AEAD_AES_256_GCM secret (take 12 pub) [] ciphertext = Some (auth_text a).
Proof.
  intros Ha Hun Hserver Hseed. unfold cloak_client_auth_build.
  destruct (ao_method _ Ha) as (Hm&Hnul&_).
  rewrite strlen_c_block by done. cbn [mbind option_bind].
  unfold CLOAK_PROXY_METHOD_LEN. decide_cmp. rewrite Hseed.
  assert (Hpair : keypair priv pub) by (by exists seed).
  destruct (x25519_key_ok _ _ Hpair) as (_&_&Hpl&Hpb).
  destruct (x25519_agree _ _ _ _ Hpair Hserver) as (secret&->&Hs').
  destruct (x25519_secret_ok _ _ _ Hs') as [Hsl Hsb].
  rewrite (auth_plaintext_spec a unordered junk) by done. cbn [mbind option_bind].
  change CLOAK_X25519_KEY_LEN with 32 in *.
  rewrite mem_read_Some by (change CLOAK_AEAD_NONCE_LEN with 12; lia). cbn [mbind option_bind].
  change (take (Z.to_nat CLOAK_AEAD_NONCE_LEN) (drop (Z.to_nat 0) pub)) with (take 12 pub).
  destruct (aead_seal_ok CLOAK_AEAD_AES_256_GCM secret (take 12 pub) [] (auth_text a))
    as (ct&->&Hctl&Hctb&Hopen); try done.
  { unfold zlen in *. rewrite length_take. change CLOAK_AEAD_NONCE_LEN with 12. lia. }
  { by apply auth_text_bytes. }
  rewrite auth_text_length in Hctl by done. change (cloak_aead_overhead _) with 16 in Hctl.
  rewrite Hctl. cbn [negb Z.eqb Z.add Pos.add Pos.eqb]. by exists ct, secret.
Qed.

End build.
