(* ===== verification/ServerAuth.v ===== *)
(** * The server's side of the handshake ([libcloak-server/src/server_auth.c])

    Opening the client's payload, and composing the two kinds of reply that
    carry the session key back.  Pointers the sources check against NULL are
    [option]s. *)
From S2P Require Import Prelude Fallible Buffer Random Aead X25519 ClientAuth.

Definition CLOAK_SERVER_AUTH_UID_LEN : Z := 16.
Definition CLOAK_SERVER_AUTH_PROXY_METHOD_LEN : Z := 12.
Definition CLOAK_SERVER_AUTH_UNORDERED_FLAG : Z := 1.
Definition CLOAK_SERVER_AUTH_TIMESTAMP_TOLERANCE_SECONDS : Z := 180.
Definition CLOAK_SERVER_AUTH_WS_REPLY_LEN : Z := 60.

Definition cloak_server_auth_cert_lens : list Z := [42; 27; 68; 59; 36; 44; 46].

(** [ci_proxy_method] is the [char] array, [ci_unordered] and [ci_is_admin]
    are C truth values. *)
Record cloak_server_clientinfo_t := ClientInfo {
  ci_uid : bytes;
  ci_proxy_method : bytes;
  ci_encryption_method : Z;
  ci_session_id : Z;
  ci_unordered : Z;
  ci_is_admin : Z
}.

Definition load_be64 (p : bytes) (off : Z) : option Z := v ← load_be64_at p off; Some (s64 v).
Definition load_be32 (p : bytes) (off : Z) : option Z := load_be32_at p off.
Definition store_be16 (v : Z) : bytes := [u8 (Z.shiftr v 8); u8 v].

(** The two loops of [trim_nul_copy]: [in[start..end)]. *)
Fixpoint skip_nul (l : bytes) : bytes :=
  match l with
  | c :: l' => if c =? 0 then skip_nul l' else l
  | [] => []
  end.
Definition trim_nul (l : bytes) : bytes := reverse (skip_nul (reverse (skip_nul l))).

(** [trim_nul_copy (in, in_len, out, sizeof (out))]. *)
Definition trim_nul_copy (inp out : bytes) : option bytes :=
  let s := trim_nul inp in
  let n := if zlen out <=? zlen s then zlen out - 1 else zlen s in
  out ← out.[0 <- take (Z.to_nat n) s];
  mem_set out n 0.

Section server_auth.
Context `{Evp} `{EvpX25519}.

(** The bounds a timestamp must lie between, both excluded. *)
Definition time_window (now_unix : Z) : option (Z * Z) :=
  let tolerance := CLOAK_SERVER_AUTH_TIMESTAMP_TOLERANCE_SECONDS in
  lower ← (if INT64_MIN + tolerance <? now_unix then i64 (now_unix - tolerance)
           else Some INT64_MIN);
  upper ← (if now_unix <? INT64_MAX - tolerance then i64 (now_unix + tolerance)
           else Some INT64_MAX);
  Some (lower, upper).

(** What is copied out of an accepted plaintext; [method0] is what
    [out->proxy_method] held. *)
Definition read_client_info (plaintext method0 : bytes) : option cloak_server_clientinfo_t :=
  uid ← plaintext.[0 +: CLOAK_SERVER_AUTH_UID_LEN];
  field ← plaintext.[16 +: CLOAK_SERVER_AUTH_PROXY_METHOD_LEN];
  method ← trim_nul_copy field method0;
  encryption ← plaintext.[28];
  session_id ← load_be32 plaintext 37;
  flags ← plaintext.[41];
  Some (ClientInfo uid method encryption session_id
          (b2z (negb (Z.land flags CLOAK_SERVER_AUTH_UNORDERED_FLAG =? 0))) 0).

(** [cloak_server_auth_decrypt]: [*out] and [out_shared_secret], or [Some None]
    for -1. *)
Definition cloak_server_auth_decrypt (random : bytes) (session_id_field : option bytes)
    (session_id_field_len : Z) (key_share_field : option bytes) (server_priv : bytes)
    (now_unix : Z) (method0 : bytes) : parse (cloak_server_clientinfo_t * bytes) :=
  match session_id_field, key_share_field with
  | Some session_id_field, Some key_share_field =>
      if negb (session_id_field_len =? 32) then Some None
      else
        peer ← random.[0 +: CLOAK_X25519_KEY_LEN];
        match cloak_x25519_shared_secret server_priv peer with
        | None => Some None
        | Some shared_secret =>
            c1 ← session_id_field.[0 +: 32];
            c2 ← key_share_field.[0 +: 32];
            nonce ← random.[0 +: CLOAK_AEAD_NONCE_LEN];
            match cloak_aead_open CLOAK_AEAD_AES_256_GCM shared_secret nonce [] (c1 ++ c2) with
            | None => Some None
            | Some plaintext =>
                if negb (zlen plaintext =? 48) then Some None
                else
                  timestamp ← load_be64 plaintext 29;
                  '(lower, upper) ← time_window now_unix;
                  if (timestamp <=? lower) || (upper <=? timestamp) then Some None
                  else
                    info ← read_client_info plaintext method0;
                    Some (Some (info, shared_secret))
            end
        end
  | _, _ => Some None
  end.

Definition cert_len_is_valid (len : Z) : bool :=
  existsb (fun l => l =? len) cloak_server_auth_cert_lens.

(** The stores that compose the ServerHello message at [sh]. *)
Definition server_hello_stores (sh : Z) (nonce enc1 sid enc2 pad4 : bytes) : list (Z * bytes) :=
  [(sh, [2]); (sh + 1, [0]); (sh + 2, [0]); (sh + 3, [118]); (sh + 4, [3]); (sh + 5, [3]);
   (sh + 6, nonce); (sh + 6 + 12, enc1);
   (sh + 38, [32]); (sh + 39, sid);
   (sh + 71, [19]); (sh + 72, [2]); (sh + 73, [0]);
   (sh + 74, store_be16 46); (sh + 76, store_be16 51); (sh + 78, store_be16 36);
   (sh + 80, store_be16 29); (sh + 82, store_be16 32);
   (sh + 84, enc2); (sh + 84 + 28, pad4);
   (sh + 116, store_be16 43); (sh + 118, store_be16 2); (sh + 120, [3]); (sh + 121, [4])].

(** The stores of the whole reply: three records one behind the other. *)
Definition reply_stores (nonce enc1 sid enc2 pad cert : bytes) : list (Z * bytes) :=
  let sh_len := 122 in
  let rec := [(0, [22]); (1, [3]); (2, [3]); (3, store_be16 (u16 sh_len))] in
  let p := 5 + sh_len in
  let ccs := [(p, [20]); (p + 1, [3]); (p + 2, [3]); (p + 3, store_be16 1); (p + 5, [1])] in
  let p := p + 6 in
  let app := [(p, [23]); (p + 1, [3]); (p + 2, [3]); (p + 3, store_be16 (u16 (zlen cert)));
              (p + 5, cert)] in
  rec ++ server_hello_stores 5 nonce enc1 sid enc2 pad ++ ccs ++ app.

(** [cloak_server_auth_compose_reply]: the return value and [out], of
    capacity [zlen out]. *)
Definition cloak_server_auth_compose_reply
    (shared_secret session_key reply_nonce client_session_id pad4 fake_cert : bytes)
    (fake_cert_len : Z) (out : bytes) : option (Z * bytes) :=
  if negb (cert_len_is_valid fake_cert_len) then Some (-1, out)
  else
    let sh_len := 122 in
    let total_len := (5 + sh_len) + (5 + 1) + (5 + fake_cert_len) in
    if zlen out <? total_len then Some (-1, out)
    else
      nonce ← reply_nonce.[0 +: CLOAK_AEAD_NONCE_LEN];
      key ← session_key.[0 +: CLOAK_AEAD_KEY_LEN];
      match cloak_aead_seal CLOAK_AEAD_AES_256_GCM shared_secret nonce [] key with
      | None => Some (-1, out)
      | Some encrypted =>
          if negb (zlen encrypted =? 48) then Some (-1, out)
          else
            enc1 ← encrypted.[0 +: 20];
            enc2 ← encrypted.[20 +: 28];
            sid ← client_session_id.[0 +: 32];
            pad ← pad4.[0 +: 4];
            cert ← fake_cert.[0 +: fake_cert_len];
            out ← stores (reply_stores nonce enc1 sid enc2 pad cert) out;
            Some (5 + sh_len + 6 + 5 + fake_cert_len, out)
      end.

(** [cloak_server_auth_compose_ws_reply]: return value, [out] and the tape. *)
Definition cloak_server_auth_compose_ws_reply (out session_key shared_secret : option bytes)
    (r : rand) : option (Z * option bytes * rand) :=
  match out, session_key, shared_secret with
  | Some out0, Some session_key, Some shared_secret =>
      let '(nonce, r) := cloak_random_bytes CLOAK_AEAD_NONCE_LEN r in
      key ← session_key.[0 +: CLOAK_AEAD_KEY_LEN];
      match cloak_aead_seal CLOAK_AEAD_AES_256_GCM shared_secret nonce [] key with
      | None => Some (-1, out, r)
      | Some sealed =>
          if negb (zlen sealed =? CLOAK_SERVER_AUTH_WS_REPLY_LEN - CLOAK_AEAD_NONCE_LEN)
          then Some (-1, out, r)
          else
            buf ← out0.[0 <- nonce];
            buf ← buf.[CLOAK_AEAD_NONCE_LEN <- sealed];
            Some (0, Some buf, r)
      end
  | _, _, _ => Some (-1, out, r)
  end.

End server_auth.


(** ** Opening a payload *)

Lemma skip_nul_zeros k l : skip_nul (replicate k 0 ++ l) = skip_nul l.
Proof. by induction k. Qed.

Lemma skip_nul_head l : (forall c, head l = Some c -> c <> 0) -> skip_nul l = l.
Proof.
  destruct l as [|c l]; [done|]. intros Hc. cbn.
  by rewrite (proj2 (Z.eqb_neq _ _) (Hc c eq_refl)).
Qed.

Lemma head_in (l : bytes) c : head l = Some c -> c ∈ l.
Proof. destruct l as [|x l]; [done|]. intros [= ->]. by constructor. Qed.

Lemma trim_nul_padded m k : no_nul m -> trim_nul (m ++ replicate k 0) = m.
Proof.
  intros Hm. unfold no_nul in Hm. rewrite Forall_forall in Hm. unfold trim_nul.
  destruct m as [|c m].
  { cbn [app]. rewrite <- (app_nil_r (replicate k 0)), skip_nul_zeros. done. }
  rewrite (skip_nul_head ((c :: m) ++ _)) by (intros x [= <-]; apply Hm; by constructor).
  rewrite reverse_app, reverse_replicate, skip_nul_zeros, skip_nul_head.
  - apply reverse_involutive.
  - intros x Hx%head_in. by apply Hm, elem_of_reverse.
Qed.

Lemma length_skip_nul l : (length (skip_nul l) <= length l)%nat.
Proof. induction l as [|c l IH]; [done|]. cbn. destruct (c =? 0); cbn; lia. Qed.

Lemma length_trim_nul l : (length (trim_nul l) <= length l)%nat.
Proof.
  unfold trim_nul. rewrite length_reverse. pose proof (length_skip_nul (reverse (skip_nul l))).
  rewrite length_reverse in H. pose proof (length_skip_nul l). lia.
Qed.

(** The string that [trim_nul_copy] leaves in an array that is long enough. *)
Definition put_string (s a : bytes) : bytes := s ++ 0 :: drop (S (length s)) a.

Lemma trim_nul_copy_spec inp a :
  zlen (trim_nul inp) < zlen a -> trim_nul_copy inp a = Some (put_string (trim_nul inp) a).
Proof.
  intros Hl. unfold trim_nul_copy. set (s := trim_nul inp) in *. decide_cmp.
  rewrite zlen_length, take_ge by done. pose proof (zlen_nonneg s).
  destruct (zlen_split a (zlen s)) as (o&r&->&Ho&Hr); [lia|].
  rewrite (mem_write_app [] o r) by done. cbn [mbind option_bind app].
  destruct r as [|x r]; [change (zlen []) with 0 in Hr; lia|].
  rewrite mem_set_app by done. unfold put_string. do 2 f_equal. f_equal.
  replace (S (length s)) with (length (o ++ [x])) by (rewrite length_app; unfold zlen in Ho; cbn; lia).
  change (o ++ x :: r) with (o ++ [x] ++ r). by rewrite app_assoc, drop_app_length.
Qed.

(** The fields of a 48-byte plaintext. *)
Definition plaintext_of (uid field : bytes) (encryption : Z) (time sid : bytes) (flags : Z)
    (reserved : bytes) : bytes :=
  uid ++ field ++ [encryption] ++ time ++ sid ++ [flags] ++ reserved.

Definition plaintext_sizes (uid field time sid reserved : bytes) : Prop :=
  zlen uid = 16 /\ zlen field = 12 /\ zlen time = 8 /\ zlen sid = 4 /\ zlen reserved = 6.

Definition info_of (uid field : bytes) (encryption : Z) (sid : bytes) (flags : Z)
    (method0 : bytes) : cloak_server_clientinfo_t :=
  ClientInfo uid (put_string (trim_nul field) method0) encryption (be_val sid)
    (b2z (Z.odd flags)) 0.

Lemma plaintext_fields pt :
  zlen pt = 48 -> exists uid field encryption time sid flags reserved,
    pt = plaintext_of uid field encryption time sid flags reserved /\
    plaintext_sizes uid field time sid reserved.
Proof.
  intros Hl. unfold plaintext_of, plaintext_sizes.
  destruct (zlen_split pt 16) as (uid&r1&->&Hu&Hr1); [lia|].
  destruct (zlen_split r1 12) as (field&r2&->&Hf&Hr2); [lia|].
  destruct r2 as [|e r3]; [change (zlen []) with 0 in *; lia|]. rewrite zlen_cons in Hr2.
  destruct (zlen_split r3 8) as (time&r4&->&Ht&Hr4); [lia|].
  destruct (zlen_split r4 4) as (sid&r5&->&Hs&Hr5); [lia|].
  destruct r5 as [|fl r6]; [change (zlen []) with 0 in *; lia|]. rewrite zlen_cons in Hr5.
  exists uid, field, e, time, sid, fl, r6. split_and!; done || lia.
Qed.

Lemma odd_land f : negb (Z.land f CLOAK_SERVER_AUTH_UNORDERED_FLAG =? 0) = Z.odd f.
Proof.
  change CLOAK_SERVER_AUTH_UNORDERED_FLAG with (Z.ones 1). rewrite Z.land_ones by done.
  change (2 ^ 1) with 2. rewrite Zmod_odd. by destruct (Z.odd f).
Qed.

Section plaintext.
Context uid field encryption time sid flags reserved
  (Hsizes : plaintext_sizes uid field time sid reserved)
  (Hbytes : all_bytes (plaintext_of uid field encryption time sid flags reserved)).

Lemma plaintext_segments :
  plaintext_of uid field encryption time sid flags reserved =
  mjoin [uid; field; [encryption]; time; sid; [flags]; reserved].
Proof. unfold plaintext_of. change (mjoin ?l) with (concat l). cbn [concat]. by rewrite app_nil_r. Qed.

Lemma read_client_info_spec method0 :
  zlen method0 = 13 ->
  read_client_info (plaintext_of uid field encryption time sid flags reserved) method0 =
  Some (info_of uid field encryption sid flags method0).
Proof.
  intros Hm. destruct Hsizes as (Hu&Hf&Ht&Hs&Hr). unfold read_client_info.
  pose proof Hbytes as Hb. unfold plaintext_of in Hb. rewrite !all_bytes_app in Hb.
  rewrite plaintext_segments.
  change CLOAK_SERVER_AUTH_UID_LEN with 16. change CLOAK_SERVER_AUTH_PROXY_METHOD_LEN with 12.
  seg_step seg_read 0%nat. seg_step seg_read 1%nat.
  pose proof (length_trim_nul field) as Hlt.
  rewrite trim_nul_copy_spec by (unfold zlen in *; lia). cbn [mbind option_bind].
  seg_step seg_get 2%nat. unfold load_be32. erewrite load_be32_slice; [|
    eapply (seg_read _ 4%nat); [reflexivity|seg_len..] | apply Hb].
  cbn [mbind option_bind]. seg_step seg_get 5%nat. by rewrite odd_land.
Qed.

Lemma read_time_spec :
  load_be64 (plaintext_of uid field encryption time sid flags reserved) 29 = Some (s64 (be_val time)).
Proof.
  destruct Hsizes as (Hu&Hf&Ht&Hs&Hr). unfold load_be64.
  pose proof Hbytes as Hb. unfold plaintext_of in Hb. rewrite !all_bytes_app in Hb.
  rewrite plaintext_segments. erewrite load_be64_slice; [|
    eapply (seg_read _ 3%nat); [reflexivity|seg_len..] | apply Hb]. done.
Qed.

End plaintext.

(** ** The time window *)

(** Less than three minutes apart, and not an end of [int64_t]. *)
Definition in_window (now t : Z) : Prop := Z.abs (now - t) < 180 /\ INT64_MIN < t < INT64_MAX.

Lemma time_window_total now :
  INT64_MIN <= now <= INT64_MAX -> exists lower upper, time_window now = Some (lower, upper).
Proof.
  unfold time_window, CLOAK_SERVER_AUTH_TIMESTAMP_TOLERANCE_SECONDS, INT64_MIN, INT64_MAX. intros Hn.
  destruct (Z.ltb_spec (-9223372036854775808 + 180) now);
    destruct (Z.ltb_spec now (9223372036854775807 - 180));
    rewrite ?i64_Some by (unfold INT64_MIN, INT64_MAX; lia); by do 2 eexists.
Qed.

Lemma plaintext_of_inj u f e t s fl r u' f' e' t' s' fl' r' :
  plaintext_of u f e t s fl r = plaintext_of u' f' e' t' s' fl' r' ->
  plaintext_sizes u f t s r -> plaintext_sizes u' f' t' s' r' ->
  u = u' /\ f = f' /\ e = e' /\ t = t' /\ s = s' /\ fl = fl'.
Proof.
  intros Heq (?&?&?&?&?) (?&?&?&?&?). unfold plaintext_of in Heq. unfold zlen in *.
  apply app_inj_1 in Heq as [-> Heq]; [|lia]. apply app_inj_1 in Heq as [-> Heq]; [|lia].
  injection Heq as -> Heq. apply app_inj_1 in Heq as [-> Heq]; [|lia].
  apply app_inj_1 in Heq as [-> Heq]; [|lia]. by injection Heq as -> _.
Qed.

Section decrypt.
Context `{EvpLaws} `{X25519Laws}.

(** The fields that a first packet can hand to the server. *)
Record packet_fields (random sid_field : bytes) (sid_len : Z) (key_share method0 : bytes) : Prop := {
  pf_random : zlen random = 32 /\ all_bytes random;
  pf_sid : zlen sid_field = sid_len /\ all_bytes sid_field;
  pf_share : zlen key_share = 32 /\ all_bytes key_share;
  pf_method : zlen method0 = 13
}.

(** The secret and the plaintext of a payload, if it opens. *)
Definition opened (priv random sid_field : bytes) (sid_len : Z) (key_share : bytes)
    : option (bytes * bytes) :=
  if sid_len =? 32 then
    secret ← cloak_x25519_shared_secret priv random;
    plaintext ← cloak_aead_open CLOAK_AEAD_AES_256_GCM secret (take 12 random) []
                  (sid_field ++ key_share);
    Some (secret, plaintext)
  else None.

Definition accepted (lower upper t : Z) : bool := negb ((t <=? lower) || (upper <=? t)).

Lemma decrypt_run random sid_field sid_len key_share priv now method0 lower upper :
  packet_fields random sid_field sid_len key_share method0 -> time_window now = Some (lower, upper) ->
  match opened priv random sid_field sid_len key_share with
  | None =>
      cloak_server_auth_decrypt random (Some sid_field) sid_len (Some key_share) priv now method0 =
      Some None
  | Some (secret, plaintext) =>
      exists uid field enc time sid fl rsv,
        plaintext = plaintext_of uid field enc time sid fl rsv /\
        plaintext_sizes uid field time sid rsv /\
        cloak_server_auth_decrypt random (Some sid_field) sid_len (Some key_share) priv now method0 =
        Some (if accepted lower upper (s64 (be_val time))
              then Some (info_of uid field enc sid fl method0, secret) else None)
  end.
Proof.
  intros [[Hr Hrb] [Hsl Hsb] [Hk Hkb] Hm] Hw. unfold cloak_server_auth_decrypt, opened.
  destruct (Z.eqb_spec sid_len 32) as [H32|H32]; cbn [negb]; [|done].
  rewrite (mem_read_all random CLOAK_X25519_KEY_LEN) by (by rewrite Hr).
  cbn [mbind option_bind].
  destruct (cloak_x25519_shared_secret priv random) as [secret|]; cbn [mbind option_bind]; [|done].
  rewrite (mem_read_all sid_field), (mem_read_all key_share) by lia. cbn [mbind option_bind].
  rewrite mem_read_Some by (change CLOAK_AEAD_NONCE_LEN with 12; lia). cbn [mbind option_bind].
  change (take (Z.to_nat CLOAK_AEAD_NONCE_LEN) (drop (Z.to_nat 0) random)) with (take 12 random).
  destruct (cloak_aead_open _ _ _ _ _) as [pt|] eqn:Hopen; cbn [mbind option_bind]; [|done].
  pose proof (aead_open_length _ _ _ _ _ _ Hopen) as Hlen.
  change (cloak_aead_overhead _) with 16 in Hlen. rewrite zlen_app, Hk, Hsl, H32 in Hlen.
  assert (Hptb : all_bytes pt)
    by (eapply aead_open_bytes; [|exact Hopen]; by apply all_bytes_app).
  rewrite Hlen. change (negb (32 + 32 - 16 =? 48)) with false. cbn iota.
  destruct (plaintext_fields pt Hlen) as (uid&field&enc&time&sid&fl&rsv&->&Hsz).
  exists uid, field, enc, time, sid, fl, rsv. split; [done|]. split; [done|].
  rewrite (read_time_spec _ _ _ _ _ _ _ Hsz Hptb). cbn [mbind option_bind].
  rewrite Hw. cbn [mbind option_bind].
  rewrite (read_client_info_spec _ _ _ _ _ _ _ Hsz Hptb) by done. cbn [mbind option_bind].
  unfold accepted. by destruct (_ || _).
Qed.

Lemma accepted_in_window now lower upper t :
  INT64_MIN <= now <= INT64_MAX -> INT64_MIN <= t <= INT64_MAX ->
  time_window now = Some (lower, upper) -> accepted lower upper t = true <-> in_window now t.
Proof.
  unfold accepted, in_window, time_window, CLOAK_SERVER_AUTH_TIMESTAMP_TOLERANCE_SECONDS.
  unfold INT64_MIN, INT64_MAX. intros Hn Ht.
  destruct (Z.ltb_spec (-9223372036854775808 + 180) now);
    destruct (Z.ltb_spec now (9223372036854775807 - 180));
    rewrite ?i64_Some by (unfold INT64_MIN, INT64_MAX; lia); cbn [mbind option_bind]; intros [= <- <-]; lia.
Qed.

Lemma s64_range x : INT64_MIN <= s64 x <= INT64_MAX.
Proof. unfold s64, u64, INT64_MIN, INT64_MAX. dlia. Qed.

(** What the server believes.  For any fields of a first packet the
    decryption is defined: it reads 32 bytes of each field and writes inside
    its arrays.  It accepts exactly when the payload opens under the shared
    secret and the time inside is less than 180 seconds away from the clock,
    whatever the clock says; and it then reports exactly the fields of the plaintext,
    never an administrator. *)
Theorem server_auth_decrypt_exact random sid_field sid_len key_share priv now method0 :
  packet_fields random sid_field sid_len key_share method0 -> INT64_MIN <= now <= INT64_MAX ->
  exists result,
    cloak_server_auth_decrypt random (Some sid_field) sid_len (Some key_share) priv now method0 =
      Some result /\
    forall info secret, result = Some (info, secret) <->
      exists uid field encryption time sid flags reserved,
        opened priv random sid_field sid_len key_share =
          Some (secret, plaintext_of uid field encryption time sid flags reserved) /\
        plaintext_sizes uid field time sid reserved /\ in_window now (s64 (be_val time)) /\
        info = info_of uid field encryption sid flags method0.
Proof.
  intros Hpf Hnow. destruct (time_window_total now Hnow) as (lower&upper&Hw).
  pose proof (decrypt_run _ _ _ _ priv now method0 _ _ Hpf Hw) as Hrun.
  destruct (opened priv random sid_field sid_len key_share) as [[secret pt]|].
  - destruct Hrun as (uid&field&enc&time&sid&fl&rsv&->&Hsz&->). eexists. split; [done|].
    intros info secret'. split.
    + destruct (accepted _ _ _) eqn:Ha; [|done]. intros [= <- <-].
      exists uid, field, enc, time, sid, fl, rsv. split; [done|]. split; [done|].
      split; [|done]. by apply (accepted_in_window now lower upper); [done|apply s64_range|done|].
    + intros (uid'&field'&enc'&time'&sid'&fl'&rsv'&[= <- Ho]&Hsz'&Hin&->).
      destruct (plaintext_of_inj _ _ _ _ _ _ _ _ _ _ _ _ _ _ Ho Hsz Hsz') as (<-&<-&<-&<-&<-&<-).
      by rewrite (proj2 (accepted_in_window _ _ _ _ Hnow (s64_range _) Hw) Hin).
  - eexists. split; [done|]. intros info secret'. split; [done|].
    by intros (?&?&?&?&?&?&?&?&_).
Qed.

End decrypt.

(** ** Client and server agree *)

Section agreement.
Context `{EvpLaws} `{X25519Laws}.

(** What the server should learn of a client. *)
Definition client_info (a : auth_fields) (method0 : bytes) : cloak_server_clientinfo_t :=
  ClientInfo (af_uid a) (put_string (af_proxy_method a) method0) (af_encryption_method a)
    (af_session_id a) (b2z (af_unordered a)) 0.

Lemma auth_text_fields a :
  auth_fields_ok a ->
  exists field, trim_nul field = af_proxy_method a /\
    auth_text a = plaintext_of (af_uid a) field (af_encryption_method a)
      (be_bytes 8 (u64 (af_time a))) (be_bytes 4 (af_session_id a)) (b2z (af_unordered a))
      (replicate 6 0) /\
    plaintext_sizes (af_uid a) field (be_bytes 8 (u64 (af_time a))) (be_bytes 4 (af_session_id a))
      (replicate 6 0).
Proof.
  intros [[Hu _] (Hm&Hnul&_) _ _ _].
  exists (af_proxy_method a ++ replicate (12 - length (af_proxy_method a)) 0).
  split; [by apply trim_nul_padded|]. split; [done|]. unfold plaintext_sizes. unfold zlen in *.
  rewrite !length_be_bytes, length_app, !length_replicate. split_and!; lia.
Qed.

Lemma client_info_of a field method0 :
  auth_fields_ok a -> trim_nul field = af_proxy_method a ->
  info_of (af_uid a) field (af_encryption_method a) (be_bytes 4 (af_session_id a))
    (b2z (af_unordered a)) method0 = client_info a method0.
Proof.
  intros Ha Hf. unfold info_of, client_info. rewrite Hf, be_val_be_bytes.
  rewrite Z.mod_small by apply (ao_session _ Ha). by destruct (af_unordered a).
Qed.

Lemma sent_time t : INT64_MIN <= t <= INT64_MAX -> s64 (be_val (be_bytes 8 (u64 t))) = t.
Proof.
  unfold INT64_MIN, INT64_MAX, s64, u64. intros Ht. rewrite be_val_be_bytes.
  change (256 ^ Z.of_nat 8) with 18446744073709551616. rewrite Z.mod_mod by done.
  rewrite Z.add_mod_idemp_l by done. rewrite Z.mod_small; lia.
Qed.

(** The payload of a client, opened by the server it is meant for. *)
Lemma payload_decrypts a server_priv pub secret ciphertext now method0 :
  auth_fields_ok a -> zlen pub = 32 -> all_bytes pub -> zlen ciphertext = 64 ->
  all_bytes ciphertext -> cloak_x25519_shared_secret server_priv pub = Some secret ->
  cloak_aead_open CLOAK_AEAD_AES_256_GCM secret (take 12 pub) [] ciphertext = Some (auth_text a) ->
  INT64_MIN + 180 < now < INT64_MAX - 180 -> zlen method0 = 13 ->
  cloak_server_auth_decrypt pub (Some (take 32 ciphertext)) 32 (Some (drop 32 ciphertext))
    server_priv now method0 =
  Some (if Z.abs (now - af_time a) <? 180 then Some (client_info a method0, secret) else None).
Proof.
  intros Ha Hpl Hpb Hcl Hcb Hsec Hopen Hnow Hm.
  assert (Hpf : packet_fields pub (take 32 ciphertext) 32 (drop 32 ciphertext) method0).
  { unfold zlen in *. split; split_and?; try done; unfold zlen;
      rewrite ?length_take, ?length_drop; try lia; by (apply Forall_take || apply Forall_drop). }
  destruct (time_window_total now) as (lower&upper&Hw).
  { unfold INT64_MIN, INT64_MAX in *. lia. }
  pose proof (decrypt_run _ _ _ _ server_priv now method0 _ _ Hpf Hw) as Hrun.
  unfold opened in Hrun. change (32 =? 32) with true in Hrun. cbn iota in Hrun.
  rewrite Hsec in Hrun. cbn [mbind option_bind] in Hrun. rewrite take_drop, Hopen in Hrun.
  cbn [mbind option_bind] in Hrun.
  destruct Hrun as (uid&field&enc&time&sid&fl&rsv&Heq&Hsz&->).
  destruct (auth_text_fields a Ha) as (field'&Htrim&Htext&Hsz'). rewrite Htext in Heq.
  destruct (plaintext_of_inj _ _ _ _ _ _ _ _ _ _ _ _ _ _ Heq Hsz' Hsz)
    as (<-&<-&<-&<-&<-&<-).
  rewrite client_info_of, sent_time by (done || apply (ao_time _ Ha)).
  pose proof (ao_time _ Ha) as Htm.
  assert (Hacc : accepted lower upper (af_time a) = true <-> in_window now (af_time a))
    by (apply accepted_in_window; [|unfold INT64_MIN, INT64_MAX in *|done]; lia).
  unfold in_window in Hacc. destruct (Z.ltb_spec (Z.abs (now - af_time a)) 180) as [Hin|Hout].
  - rewrite (proj2 Hacc); [done|]. split; [done|]. lia.
  - destruct (accepted _ _ _); [|done]. pose proof (proj1 Hacc eq_refl). lia.
Qed.

(** C28: client and server agree.  Whatever the client's identity, proxy
    method, cipher, session and flags are, the payload it builds for a server's
    public key makes that server learn exactly those, and the same secret, when
    its clock is less than 180 seconds away from the client's; otherwise the
    server refuses. *)
Theorem auth_roundtrip a unordered junk server_priv server_pub priv pub seed :
  auth_fields_ok a -> af_unordered a = negb (unordered =? 0) ->
  keypair server_priv server_pub -> cloak_x25519_generate_keypair seed = Some (priv, pub) ->
  exists payload secret,
    cloak_client_auth_build (af_uid a) (Some (c_block (af_proxy_method a) junk))
      (af_encryption_method a) (af_session_id a) unordered (af_time a) server_pub seed =
      Some (0, payload, secret) /\
    forall now method0,
      INT64_MIN + 180 < now < INT64_MAX - 180 -> zlen method0 = 13 ->
      cloak_server_auth_decrypt (ap_random payload) (Some (take 32 (ap_ciphertext payload))) 32
        (Some (drop 32 (ap_ciphertext payload))) server_priv now method0 =
      Some (if Z.abs (now - af_time a) <? 180 then Some (client_info a method0, secret) else None).
Proof.
  intros Ha Hun Hserver Hseed.
  destruct (client_auth_build_ok a unordered junk _ _ _ _ _ Ha Hun Hserver Hseed)
    as (ct&secret&Hb&Hpl&Hpb&Hcl&Hcb&_&_&Hsec&Hopen).
  exists (AuthPayload pub ct), secret. split; [done|]. intros now method0 Hnow Hm.
  by apply payload_decrypts.
Qed.

(** ** The replies *)

Definition tls_record (type : Z) (body : bytes) : bytes :=
  [type; 3; 3] ++ be_bytes 2 (zlen body) ++ body.

Definition server_hello (nonce encrypted sid pad : bytes) : bytes :=
  [2; 0; 0; 118; 3; 3] ++ nonce ++ take 20 encrypted ++ [32] ++ sid ++
  [19; 2; 0; 0; 46; 0; 51; 0; 36; 0; 29; 0; 32] ++ drop 20 encrypted ++ pad ++
  [0; 43; 0; 2; 3; 4].

Definition reply_text (nonce encrypted sid pad cert : bytes) : bytes :=
  tls_record 22 (server_hello nonce encrypted sid pad) ++ tls_record 20 [1] ++
  tls_record 23 cert.

Lemma server_hello_length nonce encrypted sid pad :
  zlen nonce = 12 -> zlen encrypted = 48 -> zlen sid = 32 -> zlen pad = 4 ->
  zlen (server_hello nonce encrypted sid pad) = 122.
Proof.
  intros. unfold server_hello. unfold zlen in *. rewrite !length_app, length_take, length_drop.
  cbn [length]. lia.
Qed.

Lemma cert_len_small n : cert_len_is_valid n = true -> 0 <= n < 256.
Proof.
  unfold cert_len_is_valid. intros (l&Hl&He)%existsb_exists. apply Z.eqb_eq in He as <-.
  cbn in Hl. repeat destruct Hl as [<-|Hl]; try done; lia.
Qed.

Lemma store_be16_be v : 0 <= v < 65536 -> store_be16 (u16 v) = be_bytes 2 v.
Proof.
  intros Hv. rewrite u16_small by done. unfold store_be16, u8. cbn [be_bytes app].
  by rewrite Z.shiftr_div_pow2.
Qed.

(** The stores of [compose_reply] spell the reply. *)
Lemma reply_stores_text nonce enc sid pad cert :
  zlen (server_hello nonce enc sid pad) = 122 -> 0 <= zlen cert < 65536 ->
  mjoin (snd <$> reply_stores nonce (take (Z.to_nat 20) enc) sid (drop (Z.to_nat 20) enc) pad cert) =
  reply_text nonce enc sid pad cert.
Proof.
  intros Hsh Hc. unfold reply_text, tls_record, reply_stores. rewrite Hsh, (store_be16_be (zlen cert)) by lia.
  unfold server_hello, server_hello_stores. change (mjoin ?l) with (concat l).
  change (Z.to_nat 20) with 20%nat.
  change (be_bytes 2 122) with [0; 122]. change (be_bytes 2 (zlen [1])) with [0; 1].
  change (store_be16 (u16 122)) with [0; 122]. change (store_be16 46) with [0; 46].
  change (store_be16 51) with [0; 51]. change (store_be16 36) with [0; 36].
  change (store_be16 29) with [0; 29]. change (store_be16 32) with [0; 32].
  change (store_be16 43) with [0; 43]. change (store_be16 2) with [0; 2].
  change (store_be16 1) with [0; 1].
  cbn [app fmap list_fmap snd concat].
  repeat (rewrite <- ?app_assoc; cbn [app]). by rewrite ?app_nil_r.
Qed.

Lemma compose_reply_ok secret key nonce sid pad cert out :
  zlen secret = 32 -> zlen key = 32 -> all_bytes key -> zlen nonce = 12 -> zlen sid = 32 ->
  zlen pad = 4 -> cert_len_is_valid (zlen cert) = true -> 138 + zlen cert <= zlen out ->
  exists encrypted,
    cloak_server_auth_compose_reply secret key nonce sid pad cert (zlen cert) out =
      Some (138 + zlen cert, reply_text nonce encrypted sid pad cert ++
                             drop (Z.to_nat (138 + zlen cert)) out) /\
    zlen encrypted = 48 /\ zlen (reply_text nonce encrypted sid pad cert) = 138 + zlen cert /\
    cloak_aead_open CLOAK_AEAD_AES_256_GCM secret nonce [] encrypted = Some key.
Proof.
  intros Hsl Hkl Hkb Hn Hsid Hpad Hcert Hout. unfold cloak_server_auth_compose_reply.
  rewrite Hcert. cbn [negb]. pose proof (cert_len_small _ Hcert) as Hc. decide_cmp.
  rewrite (mem_read_all nonce), (mem_read_all key) by (by rewrite ?Hn, ?Hkl).
  cbn [mbind option_bind].
  destruct (aead_seal_ok CLOAK_AEAD_AES_256_GCM secret nonce [] key) as (enc&->&Hel&_&Hopen);
    try done.
  rewrite Hkl in Hel. change (cloak_aead_overhead _) with 16 in Hel. rewrite Hel.
  change (negb (32 + 16 =? 48)) with false. cbn iota.
  rewrite !mem_read_Some by lia. cbn [mbind option_bind].
  change (Z.to_nat 0) with 0%nat. rewrite !drop_0.
  rewrite (take_ge sid), (take_ge pad), (take_ge cert), (take_ge (drop (Z.to_nat 20) enc))
    by (unfold zlen in *; rewrite ?length_drop; lia). exists enc.
  assert (He1 : zlen (take (Z.to_nat 20) enc) = 20) by (apply zlen_take; lia).
  assert (He2 : zlen (drop (Z.to_nat 20) enc) = 28) by (rewrite zlen_drop; lia).
  assert (Hrl : zlen (reply_text nonce enc sid pad cert) = 138 + zlen cert).
  { unfold reply_text, tls_record.
    assert (Hbe : forall v, zlen (be_bytes 2 v) = 2)
      by (intros v; unfold zlen; by rewrite length_be_bytes).
    rewrite !zlen_app, !Hbe, server_hello_length, !zlen_cons by done.
    change (@zlen Z []) with 0. lia. }
  split; [|done]. destruct (zlen_split out (138 + zlen cert)) as (old&rest&->&Hol&_); [lia|].
  assert (Hdrop : drop (Z.to_nat (138 + zlen cert)) (old ++ rest) = rest).
  { rewrite <- Hol, zlen_length. apply drop_app_length. }
  rewrite Hdrop.
  rewrite (stores_tile _ [] old rest); cbn [app mbind option_bind].
  - by rewrite reply_stores_text by (by apply server_hello_length || lia).
  - assert (Hone : forall x : Z, zlen [x] = 1) by done.
    assert (H16 : forall v, zlen (store_be16 v) = 2) by done.
    unfold reply_stores, server_hello_stores. cbn [app tiles]. rewrite !Hone, !H16, He1, He2, Hn, Hsid, Hpad.
    change (@zlen Z []) with 0. repeat split.
  - rewrite reply_stores_text, Hrl by (by apply server_hello_length || lia). lia.
Qed.

(** The session key comes back.  For every session key, nonce, session id,
    padding and certificate of an allowed length, in any buffer with room for
    it, the composed reply is three TLS records, a ServerHello, a
    ChangeCipherSpec and application data, with correct lengths; the bytes
    behind it are untouched, and the ciphertext spread over the ServerHello
    opens under the shared secret to the session key. *)
Theorem server_reply_composed secret key nonce sid pad cert out :
  zlen secret = 32 -> zlen key = 32 -> all_bytes key -> zlen nonce = 12 -> zlen sid = 32 ->
  zlen pad = 4 -> cert_len_is_valid (zlen cert) = true -> 138 + zlen cert <= zlen out ->
  exists encrypted out',
    cloak_server_auth_compose_reply secret key nonce sid pad cert (zlen cert) out =
      Some (zlen (reply_text nonce encrypted sid pad cert), out') /\
    out' = reply_text nonce encrypted sid pad cert ++
           drop (length (reply_text nonce encrypted sid pad cert)) out /\
    cloak_aead_open CLOAK_AEAD_AES_256_GCM secret nonce [] encrypted = Some key.
Proof.
  intros Hsl Hkl Hkb Hn Hsid Hpad Hcert Hout.
  destruct (compose_reply_ok _ _ _ _ _ _ _ Hsl Hkl Hkb Hn Hsid Hpad Hcert Hout)
    as (enc&Hc&_&Hrl&Hopen).
  exists enc. eexists. rewrite Hc, Hrl. split; [done|]. split; [|done].
  by rewrite <- (zlen_length (reply_text _ _ _ _ _)), Hrl.
Qed.

(** The WebSocket reply.  With a 60-octet buffer the composition succeeds
    for every session key, whatever the generator hands out as nonce, and what
    follows the nonce opens under the shared secret to the session key. *)
Theorem server_ws_reply_composed secret key out r :
  zlen secret = 32 -> zlen key = 32 -> all_bytes key ->
  zlen out = CLOAK_SERVER_AUTH_WS_REPLY_LEN ->
  exists nonce sealed r',
    cloak_random_bytes CLOAK_AEAD_NONCE_LEN r = (nonce, r') /\
    cloak_server_auth_compose_ws_reply (Some out) (Some key) (Some secret) r =
      Some (0, Some (nonce ++ sealed), r') /\
    cloak_aead_open CLOAK_AEAD_AES_256_GCM secret nonce [] sealed = Some key.
Proof.
  intros Hsl Hkl Hkb Hout. unfold cloak_server_auth_compose_ws_reply.
  destruct (cloak_random_bytes _ r) as [nonce r'] eqn:Hr.
  pose proof (random_bytes_length CLOAK_AEAD_NONCE_LEN r nonce r' ltac:(done) Hr) as Hn.
  rewrite (mem_read_all key) by (by rewrite ?Hkl). cbn [mbind option_bind].
  destruct (aead_seal_ok CLOAK_AEAD_AES_256_GCM secret nonce [] key) as (enc&->&Hel&_&Hopen);
    try done.
  rewrite Hkl in Hel. change (cloak_aead_overhead _) with 16 in Hel. rewrite Hel.
  change (negb _) with false. cbn iota.
  change CLOAK_SERVER_AUTH_WS_REPLY_LEN with 60 in Hout. change CLOAK_AEAD_NONCE_LEN with 12 in *.
  destruct (zlen_split out 12) as (o1&o2&->&Ho1&Ho2); [lia|]. rewrite zlen_app in Hout.
  rewrite (mem_write_app [] o1 o2) by (done || lia). cbn [mbind option_bind app].
  rewrite <- (app_nil_r o2), (mem_write_app nonce o2 []) by lia. cbn [mbind option_bind].
  rewrite app_nil_r. by exists nonce, enc, r'.
Qed.

End agreement.

(** ** Witnesses *)

Section witnesses.
#[local] Existing Instances evp_plain evp_plain_laws x25519_sum x25519_sum_laws.

Definition demo_auth : auth_fields :=
  AuthFields (replicate 16 7) (c_string "shadowsocks") 1 1700000000 305419896 true.

Lemma demo_auth_ok : auth_fields_ok demo_auth.
Proof.
  split; cbn.
  - split; [done|by apply all_bytesb_sound].
  - split_and!; [done| |by apply all_bytesb_sound].
    unfold no_nul. cbn. repeat constructor; done.
  - done.
  - done.
  - done.
Qed.

Lemma demo_server_keys : keypair (replicate 32 9) (replicate 32 9).
Proof. exists (replicate 32 9). vm_compute. reflexivity. Qed.

Lemma demo_fields : packet_fields (replicate 32 1) (replicate 32 2) 32 (replicate 32 3) (replicate 13 0).
Proof. split; split_and?; try done; by apply all_bytesb_sound. Qed.

Lemma server_auth_decrypt_exact_witness :
  exists result,
    cloak_server_auth_decrypt (replicate 32 1) (Some (replicate 32 2)) 32 (Some (replicate 32 3))
      (replicate 32 5) 1700000000 (replicate 13 0) = Some result /\ result = None.
Proof.
  destruct (server_auth_decrypt_exact (replicate 32 1) (replicate 32 2) 32 (replicate 32 3)
    (replicate 32 5) 1700000000 (replicate 13 0) demo_fields ltac:(done)) as (result&Hr&Hex).
  exists result. split; [exact Hr|]. destruct result as [[info secret]|]; [|reflexivity].
  destruct (proj1 (Hex info secret) eq_refl) as (?&?&?&?&?&?&?&Ho&_). exfalso.
  assert (Hn : opened (replicate 32 5) (replicate 32 1) (replicate 32 2) 32 (replicate 32 3) = None)
    by (vm_compute; reflexivity).
  rewrite Hn in Ho. discriminate Ho.
Defined.

Lemma auth_roundtrip_witness :
  exists payload secret,
    cloak_client_auth_build (af_uid demo_auth) (Some (c_block (c_string "shadowsocks") []))
      1 305419896 1 1700000000 (replicate 32 9) [4; 4] = Some (0, payload, secret) /\
    cloak_server_auth_decrypt (ap_random payload) (Some (take 32 (ap_ciphertext payload))) 32
      (Some (drop 32 (ap_ciphertext payload))) (replicate 32 9) 1700000179 (replicate 13 0) =
      Some (Some (client_info demo_auth (replicate 13 0), secret)).
Proof.
  destruct (auth_roundtrip demo_auth 1 [] (replicate 32 9) (replicate 32 9)
    (take 32 ([4; 4] ++ replicate 32 0)) (take 32 ([4; 4] ++ replicate 32 0)) [4; 4]
    demo_auth_ok eq_refl demo_server_keys eq_refl)
    as (payload&secret&Hb&Hd).
  exists payload, secret. split; [exact Hb|].
  apply (Hd 1700000179 (replicate 13 0)); [split; reflexivity|reflexivity].
Defined.

Lemma server_reply_composed_witness :
  exists encrypted out',
    cloak_server_auth_compose_reply (replicate 32 1) (replicate 32 2) (replicate 12 3)
      (replicate 32 4) (replicate 4 5) (replicate 27 6) 27 (replicate 200 0) =
      Some (zlen (reply_text (replicate 12 3) encrypted (replicate 32 4) (replicate 4 5)
                    (replicate 27 6)), out').
Proof.
  destruct (server_reply_composed (replicate 32 1) (replicate 32 2) (replicate 12 3)
    (replicate 32 4) (replicate 4 5) (replicate 27 6) (replicate 200 0)
    eq_refl eq_refl ltac:(by apply all_bytesb_sound) eq_refl eq_refl eq_refl eq_refl ltac:(done))
    as (enc&out'&Hc&_).
  exists enc, out'. exact Hc.
Defined.

Lemma server_ws_reply_composed_witness :
  exists nonce sealed r',
    cloak_server_auth_compose_ws_reply (Some (replicate 60 0)) (Some (replicate 32 2))
      (Some (replicate 32 1)) (fun i => Z.of_nat i mod 256) = Some (0, Some (nonce ++ sealed), r').
Proof.
  destruct (server_ws_reply_composed (replicate 32 1) (replicate 32 2) (replicate 60 0)
    (fun i => Z.of_nat i mod 256) eq_refl eq_refl ltac:(by apply all_bytesb_sound) eq_refl)
    as (nonce&sealed&r'&_&Hc&_).
  exists nonce, sealed, r'. exact Hc.
Defined.

End witnesses.
