(* ===== verification/ClientHelloTemplates.v ===== *)
(** * The captured ClientHellos ([libcloak-common/src/clienthello.c])

    The description of a template, with its offsets, and the three templates
    the client can imitate. *)
From S2P Require Import Prelude.

Definition CLOAK_CLIENTHELLO_MAX_BYTES : Z := 2176.
Definition CLOAK_CLIENTHELLO_GREASE_ROLES : Z := 5.

(** [cloak_clienthello_grease_role_t] *)
Definition CLOAK_CH_GREASE_CIPHER : Z := 0.
Definition CLOAK_CH_GREASE_GROUP : Z := 1.
Definition CLOAK_CH_GREASE_EXT1 : Z := 2.
Definition CLOAK_CH_GREASE_EXT2 : Z := 3.
Definition CLOAK_CH_GREASE_VERSION : Z := 4.

Record cloak_clienthello_grease_pos_t := GreasePos { gp_off : Z; gp_role : Z }.

(** [cloak_clienthello_region_kind_t] *)
Definition CLOAK_CH_REGION_RANDOM : Z := 0.
Definition CLOAK_CH_REGION_X25519 : Z := 1.

Record cloak_clienthello_region_t := Region { rg_off : Z; rg_len : Z; rg_kind : Z }.

Record cloak_clienthello_template_t := Template {
  tm_bytes : bytes;
  tm_len : Z;
  tm_random_off : Z;
  tm_session_id_off : Z;
  tm_keyshare_off : Z;
  tm_extensions_length_off : Z;
  tm_sni_ext_length_off : Z;
  tm_sni_list_length_off : Z;
  tm_sni_host_length_off : Z;
  tm_sni_host_off : Z;
  tm_sni_host_len : Z;
  tm_random_regions : list cloak_clienthello_region_t;
  tm_random_region_count : Z;
  tm_secp256r1_keyshare_off : Z;
  tm_mlkem_ek_off : Z;
  tm_aead_id_off : Z;
  tm_aead_id_choices : list Z;
  tm_ech_ext_len_off : Z;
  tm_ech_payload_len_off : Z;
  tm_ech_payload_off : Z;
  tm_ech_payload_candidate_lens : list Z;
  tm_ech_payload_candidate_count : Z;
  tm_padding_ext_off : Z;
  tm_padding_data_len : Z;
  tm_grease_positions : list cloak_clienthello_grease_pos_t;
  tm_grease_position_count : Z
}.

Definition chrome_template : bytes := [
  1; 0; 6; 180; 3; 3; 0; 1; 2; 3; 4; 5;
  6; 7; 8; 9; 10; 11; 12; 13; 14; 15; 16; 17;
  18; 19; 20; 21; 22; 23; 24; 25; 26; 27; 28; 29;
  30; 31; 32; 64; 65; 66; 67; 68; 69; 70; 71; 72;
  73; 74; 75; 76; 77; 78; 79; 80; 81; 82; 83; 84;
  85; 86; 87; 88; 89; 90; 91; 92; 93; 94; 95; 0;
  32; 250; 250; 19; 1; 19; 2; 19; 3; 192; 43; 192;
  47; 192; 44; 192; 48; 204; 169; 204; 168; 192; 19; 192;
  20; 0; 156; 0; 157; 0; 47; 0; 53; 1; 0; 6;
  75; 250; 250; 0; 0; 0; 0; 0; 20; 0; 18; 0;
  0; 15; 119; 119; 119; 46; 101; 120; 97; 109; 112; 108;
  101; 46; 99; 111; 109; 0; 5; 0; 5; 1; 0; 0;
  0; 0; 255; 1; 0; 1; 0; 0; 27; 0; 3; 2;
  0; 2; 0; 16; 0; 14; 0; 12; 2; 104; 50; 8;
  104; 116; 116; 112; 47; 49; 46; 49; 68; 205; 0; 5;
  0; 3; 2; 104; 50; 0; 23; 0; 0; 0; 51; 4;
  239; 4; 237; 170; 170; 0; 1; 0; 17; 236; 4; 192;
  104; 59; 116; 33; 81; 14; 75; 247; 164; 118; 16; 158;
  205; 147; 149; 93; 49; 116; 76; 80; 190; 118; 132; 23;
  82; 248; 66; 249; 114; 39; 175; 97; 46; 128; 102; 163;
  215; 249; 29; 137; 244; 78; 227; 201; 36; 46; 133; 101;
  35; 51; 202; 152; 124; 40; 204; 132; 72; 114; 249; 23;
  156; 70; 48; 45; 42; 173; 14; 186; 83; 10; 242; 2;
  12; 187; 13; 240; 51; 57; 161; 211; 76; 80; 154; 202;
  106; 73; 189; 216; 138; 20; 170; 220; 72; 219; 208; 96;
  91; 218; 103; 182; 252; 124; 71; 87; 11; 207; 186; 132;
  198; 134; 128; 67; 242; 117; 68; 99; 71; 172; 117; 76;
  47; 199; 5; 221; 1; 170; 114; 124; 83; 227; 182; 66;
  97; 154; 92; 147; 136; 161; 225; 115; 52; 225; 149; 194;
  182; 162; 142; 137; 33; 55; 251; 232; 41; 254; 69; 193;
  153; 181; 161; 180; 36; 98; 97; 2; 88; 232; 166; 144;
  153; 100; 164; 4; 213; 64; 229; 81; 188; 83; 88; 165;
  223; 35; 184; 185; 129; 193; 105; 89; 131; 2; 139; 145;
  218; 89; 64; 91; 40; 24; 68; 105; 101; 225; 101; 11;
  55; 243; 25; 10; 226; 26; 78; 1; 166; 20; 122; 81;
  178; 252; 192; 131; 244; 194; 39; 231; 150; 33; 86; 173;
  7; 170; 33; 254; 41; 145; 183; 199; 25; 72; 89; 81;
  67; 16; 36; 165; 188; 23; 209; 211; 142; 118; 177; 191;
  27; 201; 166; 80; 138; 34; 136; 54; 192; 43; 209; 124;
  173; 7; 172; 177; 48; 7; 158; 115; 98; 70; 193; 61;
  206; 177; 85; 105; 115; 151; 236; 52; 70; 124; 17; 11;
  151; 208; 162; 7; 74; 24; 138; 76; 192; 217; 86; 108;
  231; 188; 140; 123; 56; 38; 137; 84; 130; 26; 104; 78;
  162; 200; 14; 7; 53; 16; 129; 213; 206; 100; 41; 88;
  151; 171; 63; 45; 35; 205; 137; 172; 196; 55; 212; 151;
  148; 81; 121; 127; 187; 31; 180; 72; 70; 39; 160; 204;
  222; 96; 134; 142; 22; 143; 182; 246; 156; 89; 92; 194;
  87; 209; 84; 218; 234; 168; 164; 114; 97; 196; 119; 19;
  111; 60; 105; 204; 118; 180; 8; 96; 158; 20; 16; 44;
  181; 74; 160; 76; 169; 43; 186; 107; 47; 91; 114; 148;
  191; 2; 122; 96; 203; 173; 135; 124; 125; 67; 165; 148;
  167; 21; 39; 117; 80; 123; 87; 244; 56; 191; 194; 206;
  28; 211; 181; 21; 113; 97; 254; 70; 46; 17; 243; 183;
  86; 90; 129; 74; 115; 112; 50; 37; 43; 121; 156; 120;
  104; 215; 10; 188; 226; 94; 248; 156; 87; 123; 72; 53;
  132; 26; 54; 239; 116; 117; 191; 236; 44; 3; 108; 194;
  89; 37; 79; 231; 35; 84; 228; 22; 23; 149; 55; 56;
  152; 44; 129; 171; 2; 34; 164; 72; 80; 84; 156; 28;
  130; 104; 194; 204; 136; 41; 245; 133; 36; 158; 177; 40;
  54; 100; 29; 171; 169; 192; 213; 154; 177; 34; 229; 114;
  190; 160; 156; 121; 52; 141; 47; 39; 188; 60; 65; 10;
  4; 21; 70; 106; 150; 75; 170; 195; 15; 18; 228; 74;
  162; 153; 29; 64; 11; 31; 93; 204; 24; 195; 59; 97;
  122; 22; 64; 18; 70; 149; 164; 54; 132; 107; 252; 87;
  240; 201; 189; 254; 115; 21; 121; 86; 147; 15; 24; 86;
  54; 105; 22; 146; 103; 183; 135; 51; 106; 202; 214; 23;
  94; 17; 160; 233; 106; 57; 97; 218; 6; 207; 4; 98;
  183; 139; 149; 218; 122; 60; 212; 229; 95; 187; 0; 116;
  32; 5; 183; 42; 40; 152; 193; 164; 129; 119; 89; 55;
  92; 81; 33; 9; 133; 24; 233; 50; 4; 25; 183; 205;
  216; 39; 63; 226; 138; 47; 112; 21; 73; 14; 100; 28;
  208; 231; 8; 174; 138; 7; 200; 132; 162; 175; 58; 109;
  241; 117; 110; 121; 42; 115; 0; 218; 34; 43; 91; 45;
  4; 211; 35; 204; 34; 67; 160; 50; 191; 134; 113; 137;
  39; 241; 64; 67; 38; 60; 151; 37; 102; 43; 106; 160;
  66; 132; 204; 101; 231; 63; 114; 204; 103; 147; 178; 175;
  49; 232; 86; 82; 71; 41; 75; 104; 11; 26; 76; 5;
  141; 165; 152; 201; 226; 85; 137; 25; 35; 213; 180; 135;
  129; 28; 15; 51; 121; 37; 159; 196; 119; 78; 57; 165;
  209; 177; 194; 92; 53; 99; 205; 84; 78; 75; 218; 71;
  1; 153; 84; 40; 80; 129; 227; 48; 110; 108; 201; 17;
  67; 87; 166; 228; 48; 128; 86; 84; 158; 45; 231; 206;
  155; 203; 181; 226; 226; 119; 113; 139; 138; 133; 185; 110;
  7; 121; 62; 10; 176; 19; 148; 201; 36; 239; 84; 125;
  51; 38; 81; 251; 1; 154; 5; 70; 53; 77; 240; 203;
  216; 150; 137; 102; 197; 88; 30; 91; 203; 6; 59; 144;
  43; 163; 182; 33; 49; 30; 45; 122; 112; 20; 171; 121;
  164; 136; 47; 103; 182; 159; 30; 179; 141; 169; 10; 56;
  211; 242; 33; 154; 162; 74; 49; 196; 66; 147; 26; 46;
  182; 233; 88; 6; 171; 86; 234; 88; 72; 46; 200; 113;
  84; 70; 159; 64; 8; 48; 237; 171; 103; 70; 177; 110;
  146; 2; 63; 210; 146; 184; 70; 12; 123; 80; 97; 165;
  174; 18; 136; 102; 225; 70; 64; 25; 92; 78; 64; 126;
  169; 144; 80; 31; 209; 181; 212; 60; 2; 255; 131; 98;
  97; 215; 77; 251; 18; 95; 31; 147; 83; 88; 213; 113;
  156; 181; 124; 129; 51; 180; 222; 16; 107; 184; 242; 48;
  184; 106; 52; 138; 146; 102; 132; 232; 10; 119; 26; 0;
  102; 27; 72; 98; 117; 134; 58; 251; 124; 108; 60; 16;
  70; 177; 66; 38; 105; 142; 253; 232; 19; 189; 28; 129;
  106; 50; 207; 27; 88; 37; 88; 69; 10; 24; 96; 119;
  130; 178; 95; 44; 182; 164; 255; 155; 166; 96; 169; 141;
  190; 169; 179; 118; 50; 178; 204; 0; 203; 103; 219; 32;
  11; 163; 154; 182; 177; 153; 115; 55; 192; 199; 148; 28;
  24; 152; 80; 209; 108; 9; 160; 64; 159; 184; 215; 102;
  247; 240; 20; 30; 4; 148; 163; 144; 124; 197; 215; 146;
  52; 162; 171; 208; 244; 53; 64; 104; 84; 241; 130; 70;
  58; 75; 45; 211; 247; 28; 226; 122; 79; 62; 101; 195;
  24; 114; 63; 1; 233; 113; 176; 69; 99; 135; 54; 160;
  177; 153; 129; 128; 210; 10; 216; 130; 149; 57; 20; 201;
  74; 101; 85; 249; 4; 81; 8; 119; 122; 99; 136; 164;
  33; 138; 140; 143; 75; 110; 178; 213; 72; 137; 103; 60;
  153; 162; 179; 164; 44; 145; 74; 82; 146; 186; 12; 104;
  21; 123; 69; 139; 220; 126; 13; 116; 42; 146; 160; 45;
  204; 176; 119; 26; 120; 188; 79; 244; 29; 16; 12; 87;
  187; 188; 10; 93; 253; 29; 35; 157; 122; 66; 157; 171;
  73; 173; 186; 118; 70; 69; 192; 139; 134; 143; 95; 92;
  246; 247; 64; 243; 115; 232; 199; 170; 229; 46; 108; 116;
  142; 233; 154; 63; 59; 17; 139; 131; 31; 216; 176; 38;
  75; 23; 79; 31; 0; 29; 0; 32; 128; 129; 130; 131;
  132; 133; 134; 135; 136; 137; 138; 139; 140; 141; 142; 143;
  144; 145; 146; 147; 148; 149; 150; 151; 152; 153; 154; 155;
  156; 157; 158; 159; 0; 11; 0; 2; 1; 0; 0; 35;
  0; 0; 0; 45; 0; 2; 1; 1; 0; 10; 0; 12;
  0; 10; 170; 170; 17; 236; 0; 29; 0; 23; 0; 24;
  0; 43; 0; 7; 6; 250; 250; 3; 4; 3; 3; 0;
  13; 0; 18; 0; 16; 4; 3; 8; 4; 4; 1; 5;
  3; 8; 5; 5; 1; 8; 6; 6; 1; 254; 13; 0;
  186; 0; 0; 1; 0; 3; 99; 0; 32; 150; 128; 222;
  205; 24; 23; 201; 237; 14; 162; 230; 0; 189; 149; 180;
  141; 37; 250; 143; 100; 181; 70; 169; 211; 161; 149; 123;
  173; 5; 176; 146; 127; 0; 144; 163; 67; 171; 19; 20;
  225; 149; 27; 181; 154; 67; 229; 32; 223; 136; 83; 105;
  75; 92; 152; 168; 120; 79; 134; 67; 107; 0; 10; 242;
  177; 23; 34; 88; 132; 31; 214; 140; 105; 252; 174; 96;
  65; 207; 107; 224; 114; 177; 214; 152; 200; 157; 82; 166;
  249; 1; 225; 125; 240; 148; 82; 236; 120; 61; 7; 242;
  227; 62; 44; 85; 12; 173; 206; 124; 124; 79; 116; 54;
  26; 246; 94; 198; 247; 190; 251; 67; 143; 62; 119; 176;
  60; 156; 210; 153; 43; 101; 141; 109; 232; 130; 175; 4;
  48; 35; 75; 199; 188; 150; 93; 117; 27; 87; 26; 159;
  85; 210; 227; 157; 94; 36; 176; 60; 95; 83; 190; 143;
  131; 106; 70; 22; 3; 184; 118; 54; 234; 217; 70; 55;
  58; 62; 32; 231; 246; 230; 232; 0; 18; 0; 0; 42;
  42; 0; 1; 0].

Definition cloak_clienthello_chrome : cloak_clienthello_template_t := {|
  tm_bytes := chrome_template;
  tm_len := 1720;
  tm_random_off := 6;
  tm_session_id_off := 39;
  tm_keyshare_off := 1424;
  tm_extensions_length_off := 107;
  tm_sni_ext_length_off := 115;
  tm_sni_list_length_off := 117;
  tm_sni_host_length_off := 120;
  tm_sni_host_off := 122;
  tm_sni_host_len := 15;
  tm_random_regions :=
    [Region 1388 32 CLOAK_CH_REGION_X25519;
     Region 1533 32 CLOAK_CH_REGION_X25519;
     Region 1530 1 CLOAK_CH_REGION_RANDOM];
  tm_random_region_count := 3;
  tm_secp256r1_keyshare_off := 0;
  tm_mlkem_ek_off := 204;
  tm_aead_id_off := 1528;
  tm_aead_id_choices := [0x0001; 0x0003];
  tm_ech_ext_len_off := 1523;
  tm_ech_payload_len_off := 1565;
  tm_ech_payload_off := 1567;
  tm_ech_payload_candidate_lens := [144; 176; 208; 240];
  tm_ech_payload_candidate_count := 4;
  tm_padding_ext_off := 0;
  tm_padding_data_len := 0;
  tm_grease_positions :=
    [GreasePos 73 CLOAK_CH_GREASE_CIPHER;
     GreasePos 109 CLOAK_CH_GREASE_EXT1;
     GreasePos 195 CLOAK_CH_GREASE_GROUP;
     GreasePos 1478 CLOAK_CH_GREASE_GROUP;
     GreasePos 1493 CLOAK_CH_GREASE_VERSION;
     GreasePos 1715 CLOAK_CH_GREASE_EXT2];
  tm_grease_position_count := 6
|}.

Definition firefox_template : bytes := [
  1; 0; 2; 142; 3; 3; 0; 1; 2; 3; 4; 5;
  6; 7; 8; 9; 10; 11; 12; 13; 14; 15; 16; 17;
  18; 19; 20; 21; 22; 23; 24; 25; 26; 27; 28; 29;
  30; 31; 32; 64; 65; 66; 67; 68; 69; 70; 71; 72;
  73; 74; 75; 76; 77; 78; 79; 80; 81; 82; 83; 84;
  85; 86; 87; 88; 89; 90; 91; 92; 93; 94; 95; 0;
  34; 19; 1; 19; 3; 19; 2; 192; 43; 192; 47; 204;
  169; 204; 168; 192; 44; 192; 48; 192; 10; 192; 9; 192;
  19; 192; 20; 0; 156; 0; 157; 0; 47; 0; 53; 1;
  0; 2; 35; 0; 0; 0; 20; 0; 18; 0; 0; 15;
  119; 119; 119; 46; 101; 120; 97; 109; 112; 108; 101; 46;
  99; 111; 109; 0; 23; 0; 0; 255; 1; 0; 1; 0;
  0; 10; 0; 14; 0; 12; 0; 29; 0; 23; 0; 24;
  0; 25; 1; 0; 1; 1; 0; 11; 0; 2; 1; 0;
  0; 35; 0; 0; 0; 16; 0; 14; 0; 12; 2; 104;
  50; 8; 104; 116; 116; 112; 47; 49; 46; 49; 0; 5;
  0; 5; 1; 0; 0; 0; 0; 0; 34; 0; 10; 0;
  8; 4; 3; 5; 3; 6; 3; 2; 3; 0; 51; 0;
  107; 0; 105; 0; 29; 0; 32; 128; 129; 130; 131; 132;
  133; 134; 135; 136; 137; 138; 139; 140; 141; 142; 143; 144;
  145; 146; 147; 148; 149; 150; 151; 152; 153; 154; 155; 156;
  157; 158; 159; 0; 23; 0; 65; 4; 231; 156; 91; 173;
  209; 18; 206; 63; 237; 37; 18; 106; 65; 194; 14; 38;
  202; 8; 207; 189; 56; 117; 37; 20; 112; 91; 51; 166;
  2; 16; 51; 137; 249; 154; 161; 144; 167; 206; 222; 171;
  71; 84; 21; 165; 99; 14; 126; 108; 189; 170; 249; 215;
  63; 99; 216; 7; 80; 138; 191; 119; 253; 105; 70; 197;
  0; 43; 0; 5; 4; 3; 4; 3; 3; 0; 13; 0;
  24; 0; 22; 4; 3; 5; 3; 6; 3; 8; 4; 8;
  5; 8; 6; 4; 1; 5; 1; 6; 1; 2; 3; 2;
  1; 0; 45; 0; 2; 1; 1; 0; 28; 0; 2; 64;
  1; 254; 13; 1; 25; 0; 0; 1; 0; 1; 55; 0;
  32; 25; 73; 232; 21; 56; 102; 184; 108; 3; 178; 2;
  184; 57; 163; 229; 85; 217; 125; 58; 181; 90; 73; 167;
  20; 57; 178; 212; 232; 67; 152; 185; 112; 0; 239; 98;
  18; 92; 27; 166; 252; 13; 39; 248; 120; 165; 70; 74;
  112; 24; 59; 183; 145; 69; 25; 49; 88; 194; 60; 107;
  175; 72; 2; 15; 55; 45; 163; 19; 237; 117; 218; 215;
  245; 3; 61; 247; 3; 244; 147; 170; 90; 130; 47; 16;
  184; 99; 191; 189; 10; 76; 67; 110; 224; 124; 185; 162;
  246; 216; 59; 19; 35; 3; 60; 138; 43; 168; 155; 200;
  154; 170; 202; 60; 170; 126; 30; 226; 211; 96; 178; 198;
  38; 50; 35; 29; 120; 186; 53; 52; 46; 135; 122; 241;
  157; 38; 216; 41; 134; 222; 216; 190; 58; 36; 100; 102;
  35; 253; 168; 18; 113; 1; 67; 248; 195; 75; 36; 244;
  0; 26; 104; 209; 124; 144; 146; 153; 214; 48; 33; 224;
  81; 127; 8; 127; 30; 63; 183; 79; 186; 67; 243; 239;
  81; 221; 105; 141; 139; 73; 95; 117; 99; 59; 129; 250;
  84; 217; 213; 134; 11; 229; 199; 102; 56; 65; 199; 96;
  239; 126; 176; 198; 58; 194; 201; 171; 64; 34; 41; 162;
  13; 152; 33; 32; 215; 71; 169; 148; 226; 116; 185; 103;
  246; 254; 53; 206; 175; 131; 92; 254; 27; 207; 128; 6;
  246; 186; 227; 137; 27; 233; 138; 123; 32; 109; 148; 138;
  176; 216; 191; 112; 239; 141; 59; 152; 113; 193; 16; 19;
  132; 220; 181; 88; 129; 111; 24; 130; 154; 242].

Definition cloak_clienthello_firefox : cloak_clienthello_template_t := {|
  tm_bytes := firefox_template;
  tm_len := 658;
  tm_random_off := 6;
  tm_session_id_off := 39;
  tm_keyshare_off := 223;
  tm_extensions_length_off := 109;
  tm_sni_ext_length_off := 113;
  tm_sni_list_length_off := 115;
  tm_sni_host_length_off := 118;
  tm_sni_host_off := 120;
  tm_sni_host_len := 15;
  tm_random_regions :=
    [Region 385 32 CLOAK_CH_REGION_X25519;
     Region 419 239 CLOAK_CH_REGION_RANDOM;
     Region 382 1 CLOAK_CH_REGION_RANDOM];
  tm_random_region_count := 3;
  tm_secp256r1_keyshare_off := 259;
  tm_mlkem_ek_off := 0;
  tm_aead_id_off := 380;
  tm_aead_id_choices := [0x0001; 0x0003];
  tm_ech_ext_len_off := 0;
  tm_ech_payload_len_off := 0;
  tm_ech_payload_off := 0;
  tm_ech_payload_candidate_lens := [0; 0; 0; 0];
  tm_ech_payload_candidate_count := 0;
  tm_padding_ext_off := 0;
  tm_padding_data_len := 0;
  tm_grease_positions :=
    [GreasePos 0 CLOAK_CH_GREASE_CIPHER];
  tm_grease_position_count := 0
|}.

Definition safari_template : bytes := [
  1; 0; 1; 252; 3; 3; 0; 1; 2; 3; 4; 5;
  6; 7; 8; 9; 10; 11; 12; 13; 14; 15; 16; 17;
  18; 19; 20; 21; 22; 23; 24; 25; 26; 27; 28; 29;
  30; 31; 32; 64; 65; 66; 67; 68; 69; 70; 71; 72;
  73; 74; 75; 76; 77; 78; 79; 80; 81; 82; 83; 84;
  85; 86; 87; 88; 89; 90; 91; 92; 93; 94; 95; 0;
  42; 42; 42; 19; 1; 19; 2; 19; 3; 192; 44; 192;
  43; 204; 169; 192; 48; 192; 47; 204; 168; 192; 10; 192;
  9; 192; 20; 192; 19; 0; 157; 0; 156; 0; 53; 0;
  47; 192; 8; 192; 18; 0; 10; 1; 0; 1; 137; 42;
  42; 0; 0; 0; 0; 0; 20; 0; 18; 0; 0; 15;
  119; 119; 119; 46; 101; 120; 97; 109; 112; 108; 101; 46;
  99; 111; 109; 0; 23; 0; 0; 255; 1; 0; 1; 0;
  0; 10; 0; 12; 0; 10; 122; 122; 0; 29; 0; 23;
  0; 24; 0; 25; 0; 11; 0; 2; 1; 0; 0; 16;
  0; 14; 0; 12; 2; 104; 50; 8; 104; 116; 116; 112;
  47; 49; 46; 49; 0; 5; 0; 5; 1; 0; 0; 0;
  0; 0; 13; 0; 24; 0; 22; 4; 3; 8; 4; 4;
  1; 5; 3; 2; 3; 8; 5; 8; 5; 5; 1; 8;
  6; 6; 1; 2; 1; 0; 18; 0; 0; 0; 51; 0;
  43; 0; 41; 122; 122; 0; 1; 0; 0; 29; 0; 32;
  128; 129; 130; 131; 132; 133; 134; 135; 136; 137; 138; 139;
  140; 141; 142; 143; 144; 145; 146; 147; 148; 149; 150; 151;
  152; 153; 154; 155; 156; 157; 158; 159; 0; 45; 0; 2;
  1; 1; 0; 43; 0; 11; 10; 58; 58; 3; 4; 3;
  3; 3; 2; 3; 1; 0; 27; 0; 3; 2; 0; 1;
  26; 26; 0; 1; 0; 0; 21; 0; 191; 0; 0; 0;
  0; 0; 0; 0; 0; 0; 0; 0; 0; 0; 0; 0;
  0; 0; 0; 0; 0; 0; 0; 0; 0; 0; 0; 0;
  0; 0; 0; 0; 0; 0; 0; 0; 0; 0; 0; 0;
  0; 0; 0; 0; 0; 0; 0; 0; 0; 0; 0; 0;
  0; 0; 0; 0; 0; 0; 0; 0; 0; 0; 0; 0;
  0; 0; 0; 0; 0; 0; 0; 0; 0; 0; 0; 0;
  0; 0; 0; 0; 0; 0; 0; 0; 0; 0; 0; 0;
  0; 0; 0; 0; 0; 0; 0; 0; 0; 0; 0; 0;
  0; 0; 0; 0; 0; 0; 0; 0; 0; 0; 0; 0;
  0; 0; 0; 0; 0; 0; 0; 0; 0; 0; 0; 0;
  0; 0; 0; 0; 0; 0; 0; 0; 0; 0; 0; 0;
  0; 0; 0; 0; 0; 0; 0; 0; 0; 0; 0; 0;
  0; 0; 0; 0; 0; 0; 0; 0; 0; 0; 0; 0;
  0; 0; 0; 0; 0; 0; 0; 0; 0; 0; 0; 0;
  0; 0; 0; 0; 0; 0; 0; 0; 0; 0; 0; 0;
  0; 0; 0; 0; 0; 0; 0; 0].

Definition cloak_clienthello_safari : cloak_clienthello_template_t := {|
  tm_bytes := safari_template;
  tm_len := 512;
  tm_random_off := 6;
  tm_session_id_off := 39;
  tm_keyshare_off := 252;
  tm_extensions_length_off := 117;
  tm_sni_ext_length_off := 125;
  tm_sni_list_length_off := 127;
  tm_sni_host_length_off := 130;
  tm_sni_host_off := 132;
  tm_sni_host_len := 15;
  tm_random_regions :=
    [Region 0 0 CLOAK_CH_REGION_RANDOM;
     Region 0 0 CLOAK_CH_REGION_RANDOM;
     Region 0 0 CLOAK_CH_REGION_RANDOM];
  tm_random_region_count := 0;
  tm_secp256r1_keyshare_off := 0;
  tm_mlkem_ek_off := 0;
  tm_aead_id_off := 0;
  tm_aead_id_choices := [0; 0];
  tm_ech_ext_len_off := 0;
  tm_ech_payload_len_off := 0;
  tm_ech_payload_off := 0;
  tm_ech_payload_candidate_lens := [0; 0; 0; 0];
  tm_ech_payload_candidate_count := 0;
  tm_padding_ext_off := 317;
  tm_padding_data_len := 191;
  tm_grease_positions :=
    [GreasePos 73 CLOAK_CH_GREASE_CIPHER;
     GreasePos 119 CLOAK_CH_GREASE_EXT1;
     GreasePos 162 CLOAK_CH_GREASE_GROUP;
     GreasePos 243 CLOAK_CH_GREASE_GROUP;
     GreasePos 295 CLOAK_CH_GREASE_VERSION;
     GreasePos 312 CLOAK_CH_GREASE_EXT2];
  tm_grease_position_count := 6
|}.
