(* ===== verification/ClientHello.v ===== *)
(** * Composing a ClientHello ([libcloak-common/src/clienthello.c])

    A template is spliced with the server's name and the three fields that
    carry the client's proof of identity; everything a browser draws afresh is
    drawn afresh.  [out] is the caller's buffer, of capacity [zlen out].
    OpenSSL's key generation reads the same tape as the other draws; that of
    secp256r1 is a parameter. *)
From S2P Require Import Prelude Fallible Buffer Random X25519 ClientHelloTemplates.

(** [EVP_PKEY_keygen] on prime256v1 and the encoded public key. *)
Class EvpP256 := { evp_p256_keygen : bytes -> option bytes }.

(** The encoding is an uncompressed point. *)
Class P256Laws `{EvpP256} : Prop := {
  evp_p256_point seed pub : evp_p256_keygen seed = Some pub -> zlen pub = 65 /\ all_bytes pub
}.

(** Key generation fails only when memory or entropy run out. *)
Class KeygenAvailable `{EvpX25519} `{EvpP256} : Prop := {
  x25519_available seed : is_Some (cloak_x25519_generate_keypair seed);
  p256_available seed : is_Some (evp_p256_keygen seed)
}.

Definition CLOAK_MLKEM768_Q : Z := 3329.
Definition CLOAK_MLKEM768_EK_PACKED_LEN : Z := 1152.
Definition CLOAK_MLKEM768_EK_SEED_LEN : Z := 32.

(** ** Fields *)

Definition patch_be16_delta (out : bytes) (p delta : Z) : option bytes :=
  p0 ← out.[p]; p1 ← out.[p + 1];
  let v := Z.lor (Z.shiftl p0 8) p1 + delta in
  out ← mem_set out p (u8 (Z.shiftr v 8));
  mem_set out (p + 1) (u8 v).

Definition store_be16 (out : bytes) (p v : Z) : option bytes :=
  out.[p <- [u8 (Z.shiftr v 8); u8 v]].

Definition patch_be24_delta (out : bytes) (p delta : Z) : option bytes :=
  p0 ← out.[p]; p1 ← out.[p + 1]; p2 ← out.[p + 2];
  let v := Z.lor (Z.lor (Z.shiftl p0 16) (Z.shiftl p1 8)) p2 + delta in
  out ← mem_set out p (u8 (Z.shiftr v 16));
  out ← mem_set out (p + 1) (u8 (Z.shiftr v 8));
  mem_set out (p + 2) (u8 v).

Definition shift_off (off sni_host_off sni_delta : Z) : Z :=
  if sni_host_off <? off then u64 (off + sni_delta) else off.

(** [cloak_clienthello_grease_value] *)
Definition grease_of (seed : bytes) (role : Z) : option Z :=
  s ← seed.[role];
  let v := u16 (Z.lor (Z.land s 240) 10) in
  Some (u16 (Z.lor v (u16 (Z.shiftl v 8)))).

Definition cloak_clienthello_grease_value (seed : bytes) (role : Z) : option Z :=
  v ← grease_of seed role;
  if role =? CLOAK_CH_GREASE_EXT2 then
    e1 ← grease_of seed CLOAK_CH_GREASE_EXT1;
    Some (if v =? e1 then Z.lxor v 4112 else v)
  else Some v.

(** ** Typed regions *)

(** One rejection loop of [fill_mlkem768_ek]. *)
Fixpoint draw_coefficient (fuel : nat) (r : rand) : option (Z * rand) :=
  match fuel with
  | O => None
  | S fuel =>
      let '(buf, r) := cloak_random_bytes 2 r in
      b0 ← buf.[0]; b1 ← buf.[1];
      let c := Z.land (u16 (Z.lor b0 (Z.shiftl b1 8))) 4095 in
      if CLOAK_MLKEM768_Q <=? c then draw_coefficient fuel r else Some (c, r)
  end.

Fixpoint mlkem_loop (iters fuel : nat) (out : bytes) (p i : Z) (r : rand) : option (bytes * rand) :=
  if i + 3 <=? CLOAK_MLKEM768_EK_PACKED_LEN then
    match iters with
    | O => None
    | S iters =>
        '(c0, r) ← draw_coefficient fuel r;
        '(c1, r) ← draw_coefficient fuel r;
        out ← mem_set out (p + i) (u8 (Z.land c0 255));
        out ← mem_set out (p + i + 1)
                (u8 (Z.lor (Z.land (Z.shiftr c0 8) 15) (Z.shiftl (Z.land c1 15) 4)));
        out ← mem_set out (p + i + 2) (u8 (Z.land (Z.shiftr c1 4) 255));
        mlkem_loop iters fuel out p (i + 3) r
    end
  else Some (out, r).

(** 384 is the number of iterations. *)
Definition fill_mlkem768_ek (fuel : nat) (out : bytes) (p : Z) (r : rand) : option (bytes * rand) :=
  '(out, r) ← mlkem_loop 384 fuel out p 0 r;
  let '(seed, r) := cloak_random_bytes CLOAK_MLKEM768_EK_SEED_LEN r in
  out ← out.[p + CLOAK_MLKEM768_EK_PACKED_LEN <- seed];
  Some (out, r).

Definition fill_aead_id_choice (out : bytes) (p : Z) (choices : list Z) (r : rand)
    : option (bytes * rand) :=
  let '(b, r) := cloak_random_bytes 1 r in
  b ← b.[0];
  choice ← choices.[Z.land b 1];
  out ← store_be16 out p choice;
  Some (out, r).

Section build.
Context `{EvpX25519} `{EvpP256}.

Definition fill_x25519_canonical (out : bytes) (p : Z) (r : rand) : parse (bytes * rand) :=
  let '(seed, r) := cloak_random_bytes 32 r in
  match cloak_x25519_generate_keypair seed with
  | None => Some None
  | Some (_, pub) => out ← out.[p <- pub]; Some (Some (out, r))
  end.

Definition generate_secp256r1_point (r : rand) : option bytes * rand :=
  let '(seed, r) := cloak_random_bytes 32 r in
  match evp_p256_keygen seed with
  | None => (None, r)
  | Some pub => (if negb (zlen pub =? 65) then None else Some pub, r)
  end.

(** ** The phases of [cloak_clienthello_build_with_grease_seed] *)

(** [pad_delta] and [new_pad_len]. *)
Definition padding_plan (tmpl : cloak_clienthello_template_t) (len_after_sni_shift : Z) : Z * Z :=
  if negb (tm_padding_ext_off tmpl =? 0) then
    let old_ext_total := 4 + tm_padding_data_len tmpl in
    let unpadded_len := len_after_sni_shift - old_ext_total in
    let new_pad_len :=
      if unpadded_len <? 512 then
        let needed := 512 - unpadded_len - 4 in
        if 1 <? needed then needed else 1
      else 0 in
    let new_ext_total := if new_pad_len =? 0 then 0 else 4 + new_pad_len in
    (new_ext_total - old_ext_total, new_pad_len)
  else (0, 0).

(** [ech_payload_delta] and [chosen_ech_payload_len]. *)
Definition ech_plan (fuel : nat) (tmpl : cloak_clienthello_template_t) (r : rand)
    : option (Z * Z * rand) :=
  if 0 <? tm_ech_payload_candidate_count tmpl then
    '(idx, r) ← cloak_random_below fuel (u32 (tm_ech_payload_candidate_count tmpl)) r;
    chosen ← (tm_ech_payload_candidate_lens tmpl).[idx];
    base ← (tm_ech_payload_candidate_lens tmpl).[0];
    Some (chosen - base, chosen, r)
  else Some (0, 0, r).

(** Phase 1: the copies, *)
Definition splice_copy (tmpl : cloak_clienthello_template_t) (server_name : bytes)
    (host_len : Z) (out : bytes) : option bytes :=
  prefix ← (tm_bytes tmpl).[0 +: tm_sni_host_off tmpl];
  out ← out.[0 <- prefix];
  name ← server_name.[0 +: host_len];
  out ← out.[tm_sni_host_off tmpl <- name];
  let old_suffix_off := tm_sni_host_off tmpl + tm_sni_host_len tmpl in
  let suffix_len := u64 (tm_len tmpl - old_suffix_off) in
  suffix ← (tm_bytes tmpl).[old_suffix_off +: suffix_len];
  out.[tm_sni_host_off tmpl + host_len <- suffix].

(** the length fields that the host name changes, *)
Definition splice_lengths (tmpl : cloak_clienthello_template_t) (host_len sni_delta : Z)
    (out : bytes) : option bytes :=
  out ← patch_be24_delta out 1 sni_delta;
  out ← patch_be16_delta out (tm_extensions_length_off tmpl) sni_delta;
  out ← patch_be16_delta out (tm_sni_ext_length_off tmpl) sni_delta;
  out ← patch_be16_delta out (tm_sni_list_length_off tmpl) sni_delta;
  store_be16 out (tm_sni_host_length_off tmpl) (u16 host_len).

(** and the proof of identity. *)
Definition splice_auth (tmpl : cloak_clienthello_template_t)
    (random session_id x25519_key_share : bytes) (sni_delta : Z) (out : bytes) : option bytes :=
  random ← random.[0 +: 32];
  out ← out.[tm_random_off tmpl <- random];
  session_id ← session_id.[0 +: 32];
  out ← out.[tm_session_id_off tmpl <- session_id];
  share ← x25519_key_share.[0 +: 32];
  out.[u64 (tm_keyshare_off tmpl + sni_delta) <- share].

Fixpoint refill_regions (regions : list cloak_clienthello_region_t) (sni_host_off sni_delta : Z)
    (out : bytes) (r : rand) : parse (bytes * rand) :=
  match regions with
  | [] => Some (Some (out, r))
  | rg :: regions =>
      let region_off := shift_off (rg_off rg) sni_host_off sni_delta in
      let! (out, r) :=
        (if rg_kind rg =? CLOAK_CH_REGION_X25519 then fill_x25519_canonical out region_off r
         else
           let '(fill, r) := cloak_random_bytes (rg_len rg) r in
           out ← out.[region_off <- fill];
           Some (Some (out, r))) in
      refill_regions regions sni_host_off sni_delta out r
  end.

Definition fill_typed (fuel : nat) (tmpl : cloak_clienthello_template_t) (sni_delta : Z)
    (out : bytes) (r : rand) : parse (bytes * rand) :=
  let at_ off := shift_off off (tm_sni_host_off tmpl) sni_delta in
  let! (out, r) :=
    (if negb (tm_secp256r1_keyshare_off tmpl =? 0) then
       match generate_secp256r1_point r with
       | (None, _) => Some None
       | (Some point, r) =>
           out ← out.[at_ (tm_secp256r1_keyshare_off tmpl) <- point];
           Some (Some (out, r))
       end
     else Some (Some (out, r))) in
  '(out, r) ← (if negb (tm_mlkem_ek_off tmpl =? 0) then
                 fill_mlkem768_ek fuel out (at_ (tm_mlkem_ek_off tmpl)) r
               else Some (out, r));
  '(out, r) ← (if negb (tm_aead_id_off tmpl =? 0) then
                 fill_aead_id_choice out (at_ (tm_aead_id_off tmpl)) (tm_aead_id_choices tmpl) r
               else Some (out, r));
  Some (Some (out, r)).

Fixpoint write_grease (positions : list cloak_clienthello_grease_pos_t)
    (sni_host_off sni_delta : Z) (seed : bytes) (out : bytes) : option bytes :=
  match positions with
  | [] => Some out
  | gp :: positions =>
      v ← cloak_clienthello_grease_value seed (gp_role gp);
      out ← store_be16 out (shift_off (gp_off gp) sni_host_off sni_delta) v;
      write_grease positions sni_host_off sni_delta seed out
  end.

Definition write_padding (tmpl : cloak_clienthello_template_t)
    (sni_delta pad_delta new_pad_len : Z) (out : bytes) : option bytes :=
  if negb (tm_padding_ext_off tmpl =? 0) then
    let padding_off := shift_off (tm_padding_ext_off tmpl) (tm_sni_host_off tmpl) sni_delta in
    out ← patch_be24_delta out 1 pad_delta;
    out ← patch_be16_delta out (tm_extensions_length_off tmpl) pad_delta;
    if 0 <? new_pad_len then
      out ← store_be16 out padding_off 21;
      out ← store_be16 out (padding_off + 2) (u16 new_pad_len);
      out.[padding_off + 4 <- replicate (Z.to_nat new_pad_len) 0]
    else Some out
  else Some out.

Definition resize_ech (tmpl : cloak_clienthello_template_t)
    (sni_delta len_after_sni_shift ech_payload_delta chosen_ech_payload_len : Z)
    (out : bytes) (r : rand) : option (option (bytes * rand)) :=
  if 0 <? tm_ech_payload_candidate_count tmpl then
    let at_ off := shift_off off (tm_sni_host_off tmpl) sni_delta in
    let payload_off := at_ (tm_ech_payload_off tmpl) in
    let payload_len_off := at_ (tm_ech_payload_len_off tmpl) in
    let ech_ext_len_off := at_ (tm_ech_ext_len_off tmpl) in
    base_payload_len ← (tm_ech_payload_candidate_lens tmpl).[0];
    let tail_start := payload_off + base_payload_len in
    if len_after_sni_shift <? tail_start then Some None
    else
      let tail_len := len_after_sni_shift - tail_start in
      tail ← out.[tail_start +: tail_len];
      out ← out.[u64 (tail_start + ech_payload_delta) <- tail];
      let '(payload, r) := cloak_random_bytes chosen_ech_payload_len r in
      out ← out.[payload_off <- payload];
      out ← patch_be24_delta out 1 ech_payload_delta;
      out ← patch_be16_delta out (tm_extensions_length_off tmpl) ech_payload_delta;
      out ← patch_be16_delta out ech_ext_len_off ech_payload_delta;
      out ← store_be16 out payload_len_off (u16 chosen_ech_payload_len);
      Some (Some (out, r))
  else Some (Some (out, r)).

(** Phases 3d to 5. *)
Definition write_tail (tmpl : cloak_clienthello_template_t)
    (sni_delta len_after_sni_shift pad_delta new_pad_len ech_payload_delta
     chosen_ech_payload_len : Z) (grease_seed out : bytes) (r : rand)
    : option (option (bytes * rand)) :=
  out ← write_grease (take (Z.to_nat (tm_grease_position_count tmpl)) (tm_grease_positions tmpl))
          (tm_sni_host_off tmpl) sni_delta grease_seed out;
  out ← write_padding tmpl sni_delta pad_delta new_pad_len out;
  resize_ech tmpl sni_delta len_after_sni_shift ech_payload_delta chosen_ech_payload_len out r.

(** The message length, [out] and the tape, or [Some None] for -1. *)
Definition cloak_clienthello_build_with_grease_seed (fuel : nat)
    (tmpl : cloak_clienthello_template_t) (random session_id x25519_key_share server_name
     grease_seed out : bytes) (r : rand) : parse (Z * bytes * rand) :=
  host_len ← strlen server_name;
  if (host_len =? 0) || (253 <? host_len) then Some None
  else
    let sni_delta := host_len - tm_sni_host_len tmpl in
    let len_after_sni_shift := tm_len tmpl + sni_delta in
    if len_after_sni_shift <? 0 then Some None
    else
      let '(pad_delta, new_pad_len) := padding_plan tmpl len_after_sni_shift in
      '(ech_payload_delta, chosen_ech_payload_len, r) ← ech_plan fuel tmpl r;
      let new_len := len_after_sni_shift + pad_delta + ech_payload_delta in
      let max_write_len :=
        if new_len <? len_after_sni_shift then len_after_sni_shift else new_len in
      if (new_len <? 0) || (zlen out <? max_write_len) then Some None
      else
        out ← splice_copy tmpl server_name host_len out;
        out ← splice_lengths tmpl host_len sni_delta out;
        out ← splice_auth tmpl random session_id x25519_key_share sni_delta out;
        let! (out, r) :=
          refill_regions (take (Z.to_nat (tm_random_region_count tmpl)) (tm_random_regions tmpl))
            (tm_sni_host_off tmpl) sni_delta out r in
        let! (out, r) := fill_typed fuel tmpl sni_delta out r in
        let! (out, r) :=
          write_tail tmpl sni_delta len_after_sni_shift pad_delta new_pad_len ech_payload_delta
            chosen_ech_payload_len grease_seed out r in
        Some (Some (new_len, out, r)).

Definition cloak_clienthello_build (fuel : nat) (tmpl : cloak_clienthello_template_t)
    (random session_id x25519_key_share server_name out : bytes) (r : rand)
    : parse (Z * bytes * rand) :=
  let '(grease_seed, r) := cloak_random_bytes CLOAK_CLIENTHELLO_GREASE_ROLES r in
  cloak_clienthello_build_with_grease_seed fuel tmpl random session_id x25519_key_share
    server_name grease_seed out r.

End build.
