(* ===== verification/Frame.v ===== *)
(** * The frame codec ([libcloak-mux/src/frame.c])

    A frame is a 14-byte header (stream id, sequence number, closing flag,
    length of what follows the payload) hidden under Salsa20, then payload,
    random padding and AEAD tag.  Both functions work inside the caller's
    buffer, so the buffer is part of the state. *)
From S2P Require Import Prelude Random Salsa20 Aead.

Definition CLOAK_FRAME_HEADER_LEN : Z := 14.
Definition CLOAK_FRAME_MAX_EXTRA_LEN : Z := 255.
Definition CLOAK_FRAME_PAD_FIRST_N_FRAMES : Z := 5.
Definition CLOAK_FRAME_CLOSING_NOTHING : Z := 0.
Definition CLOAK_FRAME_CLOSING_STREAM : Z := 1.
Definition CLOAK_FRAME_CLOSING_SESSION : Z := 2.

Record cloak_frame_t := Frame {
  fr_stream_id : Z;
  fr_seq : Z;
  fr_closing : Z;
  fr_payload : bytes;
  fr_payload_len : Z
}.

Record cloak_obfuscator_t := Obfuscator { o_method : Z; o_session_key : bytes }.

Definition load_be32 (p : bytes) (off : Z) : option Z := load_be32_at p off.

Definition store_be32 (v : Z) : bytes :=
  [u8 (Z.shiftr v 24); u8 (Z.shiftr v 16); u8 (Z.shiftr v 8); u8 v].

Definition load_be64 (p : bytes) (off : Z) : option Z := load_be64_at p off.

Definition store_be64 (v : Z) : bytes := store_be_loop 8 v.

Definition tag_len_for_method (method : Z) : Z :=
  if method =? CLOAK_AEAD_NONE then CLOAK_SALSA20_NONCE_LEN else cloak_aead_overhead method.

Definition random_pad_len (fuel : nat) (max_inclusive : Z) (r : rand) : option (Z * rand) :=
  '(v, r') ← cloak_random_below fuel (u32 (max_inclusive + 1)) r; Some (u8 v, r').

Section frame.
Context `{Evp}.

(** The sealing step of [cloak_frame_obfuscate], in place; [Some None] is a
    failing [cloak_aead_seal]. *)
Definition frame_seal (o : cloak_obfuscator_t) (buf : bytes) (n : Z) : option (option bytes) :=
  if o_method o =? CLOAK_AEAD_NONE then Some (Some buf)
  else
    nonce ← buf.[0 +: CLOAK_AEAD_NONCE_LEN];
    region ← buf.[CLOAK_FRAME_HEADER_LEN +: n];
    match cloak_aead_seal (o_method o) (o_session_key o) nonce [] region with
    | None => Some None
    | Some out => buf' ← buf.[CLOAK_FRAME_HEADER_LEN <- out]; Some (Some buf')
    end.

(** [cloak_frame_obfuscate]: [Some (None, _)] is the return value -1, after
    which the buffer's contents mean nothing; [Some (Some (n, buf'), _)] the
    return value [n]. *)
Definition cloak_frame_obfuscate (fuel : nat) (o : cloak_obfuscator_t) (frame : cloak_frame_t)
    (buf : bytes) (payload_offset_in_buf : Z) (r : rand)
    : option (option (Z * bytes) * rand) :=
  let buf_cap := zlen buf in
  let payload_len := fr_payload_len frame in
  if payload_len =? 0 then Some (None, r)
  else if buf_cap <? payload_len then Some (None, r)
  else
    let tag_len := tag_len_for_method (o_method o) in
    '(pad_len, r) ← (if fr_seq frame <? CLOAK_FRAME_PAD_FIRST_N_FRAMES
                     then random_pad_len fuel (u64 (CLOAK_FRAME_MAX_EXTRA_LEN - tag_len)) r
                     else Some (0, r));
    let useful_len := u64 (CLOAK_FRAME_HEADER_LEN + payload_len + pad_len + tag_len) in
    if buf_cap <? useful_len then Some (None, r)
    else
      buf ← (if payload_offset_in_buf =? CLOAK_FRAME_HEADER_LEN then Some buf
             else p ← (fr_payload frame).[0 +: payload_len];
                  buf.[CLOAK_FRAME_HEADER_LEN <- p]);
      buf ← buf.[0 <- store_be32 (fr_stream_id frame)];
      buf ← buf.[4 <- store_be64 (fr_seq frame)];
      buf ← mem_set buf 12 (fr_closing frame);
      buf ← mem_set buf 13 (u8 (pad_len + tag_len));
      let '(filler, r) := cloak_random_bytes (pad_len + tag_len) r in
      buf ← buf.[CLOAK_FRAME_HEADER_LEN + payload_len <- filler];
      sealed ← frame_seal o buf (payload_len + pad_len);
      match sealed with
      | None => Some (None, r)
      | Some buf =>
          header_nonce ← buf.[useful_len - CLOAK_SALSA20_NONCE_LEN +: CLOAK_SALSA20_NONCE_LEN];
          buf ← cloak_salsa20_xor buf buf CLOAK_FRAME_HEADER_LEN header_nonce (o_session_key o);
          Some (Some (useful_len, buf), r)
      end.

(** The opening step of [cloak_frame_deobfuscate], in place; [Some None] is a
    failing [cloak_aead_open] or a result shorter than the claimed payload. *)
Definition frame_open (o : cloak_obfuscator_t) (buf : bytes)
    (pld_with_overhead_len useful_payload_len : Z) : option (option bytes) :=
  if o_method o =? CLOAK_AEAD_NONE then Some (Some buf)
  else
    nonce ← buf.[0 +: CLOAK_AEAD_NONCE_LEN];
    region ← buf.[CLOAK_FRAME_HEADER_LEN +: pld_with_overhead_len];
    match cloak_aead_open (o_method o) (o_session_key o) nonce [] region with
    | None => Some None
    | Some out =>
        buf' ← buf.[CLOAK_FRAME_HEADER_LEN <- out];
        Some (if zlen out <? useful_payload_len then None else Some buf')
    end.

(** [cloak_frame_deobfuscate]: the frame ([None] for the return value -1) and
    the buffer, which was decrypted in place (meaningless after -1).  The
    payload of the frame is the slice of the buffer it points at. *)
Definition cloak_frame_deobfuscate (o : cloak_obfuscator_t) (buf : bytes)
    : option (option cloak_frame_t * bytes) :=
  let buf_len := zlen buf in
  if buf_len <? CLOAK_FRAME_HEADER_LEN + CLOAK_SALSA20_NONCE_LEN then Some (None, buf)
  else
    header_nonce ← buf.[buf_len - CLOAK_SALSA20_NONCE_LEN +: CLOAK_SALSA20_NONCE_LEN];
    buf ← cloak_salsa20_xor buf buf CLOAK_FRAME_HEADER_LEN header_nonce (o_session_key o);
    stream_id ← load_be32 buf 0;
    seq ← load_be64 buf 4;
    closing ← buf.[12];
    extra_len ← buf.[13];
    let pld_with_overhead_len := u64 (buf_len - CLOAK_FRAME_HEADER_LEN) in
    let min_extra_len := tag_len_for_method (o_method o) in
    if extra_len <? min_extra_len then Some (None, buf)
    else if pld_with_overhead_len <? extra_len then Some (None, buf)
    else
      let useful_payload_len := u64 (pld_with_overhead_len - extra_len) in
      opened ← frame_open o buf pld_with_overhead_len useful_payload_len;
      match opened with
      | None => Some (None, buf)
      | Some buf =>
          payload ← buf.[CLOAK_FRAME_HEADER_LEN +: useful_payload_len];
          Some (Some (Frame stream_id seq closing payload useful_payload_len), buf)
      end.

End frame.

(** ** Well-formedness *)

Record obfuscator_ok (o : cloak_obfuscator_t) : Prop := {
  oo_method : cloak_aead_method_is_valid (o_method o) = true;
  oo_key : zlen (o_session_key o) = CLOAK_AEAD_KEY_LEN
}.

Record frame_ok (f : cloak_frame_t) : Prop := {
  fo_id : 0 <= fr_stream_id f < 4294967296;
  fo_seq : 0 <= fr_seq f < 18446744073709551616;
  fo_closing : is_byte (fr_closing f);
  fo_payload : all_bytes (fr_payload f);
  fo_len : fr_payload_len f = zlen (fr_payload f)
}.

(** The plaintext header. *)
Definition frame_header (f : cloak_frame_t) (extra : Z) : bytes :=
  store_be32 (fr_stream_id f) ++ store_be64 (fr_seq f) ++ [fr_closing f; extra].

(** ** Lemmas *)

Lemma store_be32_be v : store_be32 v = be_bytes 4 v.
Proof. by rewrite be_bytes_4. Qed.

Lemma store_be64_be v : store_be64 v = be_bytes 8 v.
Proof. apply store_be_loop_be. Qed.

Lemma length_frame_header f extra : zlen (frame_header f extra) = 14.
Proof.
  unfold frame_header. rewrite store_be32_be, store_be64_be. unfold zlen.
  rewrite !length_app, !length_be_bytes. done.
Qed.

Lemma frame_header_bytes f extra :
  is_byte (fr_closing f) -> is_byte extra -> all_bytes (frame_header f extra).
Proof.
  intros. unfold frame_header. rewrite store_be32_be, store_be64_be, !all_bytes_app.
  rewrite !all_bytes_cons.
  split_and!; try apply be_bytes_all_bytes; [done..|apply all_bytes_nil].
Qed.

Lemma tag_len_cases m :
  tag_len_for_method m = if m =? CLOAK_AEAD_NONE then 8 else 16.
Proof.
  unfold tag_len_for_method, cloak_aead_overhead.
  by destruct (m =? CLOAK_AEAD_NONE).
Qed.

Lemma tag_len_bounds m : tag_len_for_method m = 8 \/ tag_len_for_method m = 16.
Proof. rewrite tag_len_cases. destruct (_ =? _); auto. Qed.

(** The fields of a buffer that starts with a plaintext header. *)
Lemma header_fields f extra rest :
  frame_ok f -> is_byte extra ->
  let buf := frame_header f extra ++ rest in
  load_be32 buf 0 = Some (fr_stream_id f) /\ load_be64 buf 4 = Some (fr_seq f) /\
  buf.[12] = Some (fr_closing f) /\ buf.[13] = Some extra /\
  buf.[0 +: 12] = Some (store_be32 (fr_stream_id f) ++ store_be64 (fr_seq f)).
Proof.
  intros [Hid Hseq Hcl _ _] He buf. unfold buf, frame_header. clear buf.
  rewrite store_be32_be, store_be64_be.
  pose proof (length_be_bytes 4 (fr_stream_id f)) as L4.
  pose proof (length_be_bytes 8 (fr_seq f)) as L8.
  pose proof (be_bytes_all_bytes 4 (fr_stream_id f)) as B4.
  pose proof (be_bytes_all_bytes 8 (fr_seq f)) as B8.
  assert (V4 : be_val (be_bytes 4 (fr_stream_id f)) = fr_stream_id f)
    by (rewrite be_val_be_bytes; apply Z.mod_small; exact Hid).
  assert (V8 : be_val (be_bytes 8 (fr_seq f)) = fr_seq f)
    by (rewrite be_val_be_bytes; apply Z.mod_small; exact Hseq).
  set (b4 := be_bytes 4 _) in *. set (b8 := be_bytes 8 _) in *. clearbody b4 b8.
  assert (Z4 : zlen b4 = 4) by (unfold zlen; lia).
  assert (Z8 : zlen b8 = 8) by (unfold zlen; lia).
  rewrite <- !app_assoc. split_and!.
  - rewrite <- V4. apply load_be32_slice; [|done]. by apply (mem_read_app []).
  - rewrite <- V8. apply load_be64_slice; [|done]. by apply mem_read_app.
  - rewrite app_assoc, mem_get_app_r by (rewrite zlen_app; lia).
    rewrite zlen_app, Z4, Z8. done.
  - rewrite app_assoc, mem_get_app_r by (rewrite zlen_app; lia).
    rewrite zlen_app, Z4, Z8. done.
  - rewrite app_assoc. apply (mem_read_app []); [done|]. rewrite zlen_app. lia.
Qed.

Section frame_facts.
Context `{EvpLaws}.

(** Sealing the body in place and opening what was sent. *)
Lemma frame_seal_open o hdr body tag rest :
  obfuscator_ok o -> zlen hdr = 14 -> all_bytes body -> all_bytes tag ->
  zlen tag = tag_len_for_method (o_method o) ->
  exists sealed,
    frame_seal o (hdr ++ body ++ tag ++ rest) (zlen body) = Some (Some (hdr ++ sealed ++ rest)) /\
    zlen sealed = zlen body + zlen tag /\ all_bytes sealed /\
    forall useful, useful <= zlen body ->
      exists tail, frame_open o (hdr ++ sealed) (zlen sealed) useful
                   = Some (Some (hdr ++ body ++ tail)).
Proof.
  intros [Hm Hk] Hh Hb Ht Htl. unfold frame_seal, frame_open.
  destruct (Z.eqb_spec (o_method o) CLOAK_AEAD_NONE) as [E|E].
  - exists (body ++ tag). rewrite <- app_assoc. split_and!; [done|by rewrite zlen_app| |].
    { by apply all_bytes_app. }
    intros. by exists tag.
  - assert (exists nonce, forall t, (hdr ++ t).[0 +: CLOAK_AEAD_NONCE_LEN] = Some nonce /\
              zlen nonce = CLOAK_AEAD_NONCE_LEN) as (nonce & Hnonce).
    { unfold CLOAK_AEAD_NONCE_LEN. exists (take 12 hdr). intros t. zlen_pos.
      split; [|unfold zlen in *; rewrite length_take; lia].
      rewrite mem_read_Some by zlia. znat. rewrite drop_0. f_equal.
      apply take_app_le. unfold zlen in *. lia. }
    rewrite (proj1 (Hnonce _)). cbn [mbind option_bind].
    rewrite (mem_read_app hdr body) by done. cbn [mbind option_bind].
    destruct (aead_seal_ok (o_method o) (o_session_key o) nonce [] body)
      as (out & -> & Hlo & Hbo & Hopen); [done..|apply (Hnonce [])|done|].
    assert (Hov : cloak_aead_overhead (o_method o) = zlen tag).
    { rewrite Htl. unfold tag_len_for_method. by decide_cmp. }
    rewrite app_assoc with (l := body), (mem_write_app hdr (body ++ tag))
      by (rewrite ?zlen_app; (done || lia)).
    cbn [mbind option_bind]. exists out. split_and!; [done|lia|done|].
    intros useful Hu. rewrite (proj1 (Hnonce _)). cbn [mbind option_bind].
    pose proof (mem_read_app hdr out [] CLOAK_FRAME_HEADER_LEN (zlen out) (eq_sym Hh) eq_refl) as Hr.
    rewrite app_nil_r in Hr. rewrite Hr. cbn [mbind option_bind]. rewrite Hopen.
    exists (drop (length body) out). zlen_pos.
    rewrite <- (take_drop (length body) out) at 1.
    rewrite (mem_write_app hdr (take (length body) out)); [| done |].
    + cbn [mbind option_bind]. by decide_cmp.
    + unfold zlen in *. rewrite length_take. lia.
Qed.

(** The header mask: a 14-byte header XORed in place, and back. *)
Lemma header_mask o hdr tl nonce :
  zlen (o_session_key o) = CLOAK_AEAD_KEY_LEN -> zlen hdr = 14 -> all_bytes hdr ->
  zlen nonce = CLOAK_SALSA20_NONCE_LEN ->
  exists hdr', zlen hdr' = 14 /\ all_bytes hdr' /\
    (forall tl, cloak_salsa20_xor (hdr ++ tl) (hdr ++ tl) CLOAK_FRAME_HEADER_LEN nonce
                  (o_session_key o) = Some (hdr' ++ tl)) /\
    cloak_salsa20_xor (hdr' ++ tl) (hdr' ++ tl) CLOAK_FRAME_HEADER_LEN nonce
      (o_session_key o) = Some (hdr ++ tl).
Proof.
  intros Hk Hh Hb Hn. unfold CLOAK_AEAD_KEY_LEN in Hk. unfold CLOAK_SALSA20_NONCE_LEN in Hn.
  unfold CLOAK_FRAME_HEADER_LEN.
  set (ks := stream_of (o_session_key o) nonce 14).
  assert (Hks : (14 <= length ks)%nat).
  { unfold ks, stream_of. rewrite length_keystream by done. lia. }
  assert (Hlh : length hdr = 14%nat) by (unfold zlen in Hh; lia).
  assert (Hx : length (xor_bytes hdr ks) = 14%nat) by (rewrite length_xor_bytes; lia).
  assert (Hspec : forall h t, length h = 14%nat ->
            cloak_salsa20_xor (h ++ t) (h ++ t) 14 nonce (o_session_key o)
            = Some (xor_bytes h ks ++ t)).
  { intros h t Hh'. zlen_pos. rewrite salsa20_xor_spec;
      [|done|done|unfold INT64_MAX; lia|unfold zlen; rewrite length_app; lia..].
    znat. by rewrite take_app_length', drop_app_length' by done. }
  exists (xor_bytes hdr ks). split_and!; [unfold zlen; lia|apply xor_bytes_all_bytes| |].
  - intros t. by apply Hspec.
  - rewrite Hspec by done. by rewrite xor_bytes_involutive by (done || lia).
Qed.

(** The padding length drawn by the first frames of a stream. *)
Lemma random_pad_len_total fuel m r :
  rand_ok r -> fair fuel r -> 0 <= m <= 255 ->
  exists v r', random_pad_len fuel m r = Some (v, r') /\ 0 <= v <= m /\
    rand_ok r' /\ fair fuel r'.
Proof.
  intros Hr Hf Hm. unfold random_pad_len. rewrite u32_small by lia.
  destruct (cloak_random_below_total fuel (m + 1) r) as (v & r' & -> & Hv & ? & ?);
    [done..|lia|].
  cbn [mbind option_bind]. rewrite u8_small by lia. exists v, r'. split_and!; done || lia.
Qed.

(** The four stores that build the header. *)
Lemma write_frame_header {B} f extra h t (k : bytes -> option B) :
  zlen h = 14 ->
  (b ← (h ++ t).[0 <- store_be32 (fr_stream_id f)];
   b ← b.[4 <- store_be64 (fr_seq f)];
   b ← mem_set b 12 (fr_closing f);
   b ← mem_set b 13 extra; k b) = k (frame_header f extra ++ t).
Proof.
  intros Hh. unfold frame_header. rewrite store_be32_be, store_be64_be.
  pose proof (length_be_bytes 4 (fr_stream_id f)) as L4.
  pose proof (length_be_bytes 8 (fr_seq f)) as L8.
  destruct (zlen_split h 4) as (h4 & h' & -> & H4 & Hh'); [lia|].
  destruct (zlen_split h' 8) as (h8 & h2 & -> & H8 & H2); [lia|].
  destruct h2 as [|c [|d [|]]]; try zlia.
  rewrite <- !app_assoc. cbn [app].
  pose proof (mem_write_app [] h4 (h8 ++ c :: d :: t) 0 (be_bytes 4 (fr_stream_id f)) eq_refl)
    as Hw. cbn [app] in Hw. rewrite Hw by (unfold zlen in *; lia). clear Hw.
  cbn [mbind option_bind]. rewrite mem_write_app by (unfold zlen in *; lia). cbn [mbind option_bind].
  rewrite app_assoc, mem_set_app by (unfold zlen in *; rewrite length_app; lia).
  cbn [mbind option_bind]. rewrite <- !app_assoc.
  replace (be_bytes 4 (fr_stream_id f) ++ be_bytes 8 (fr_seq f) ++ fr_closing f :: d :: t)
    with ((be_bytes 4 (fr_stream_id f) ++ be_bytes 8 (fr_seq f) ++ [fr_closing f]) ++ d :: t)
    by (rewrite <- !app_assoc; done).
  rewrite mem_set_app by (unfold zlen in *; rewrite !length_app; cbn; lia).
  cbn [mbind option_bind]. by rewrite <- !app_assoc.
Qed.

Lemma frame_pad_ok fuel tagl seq r :
  rand_ok r -> fair fuel r -> 0 <= tagl <= 16 ->
  exists pad r1,
    (if seq <? CLOAK_FRAME_PAD_FIRST_N_FRAMES
     then random_pad_len fuel (u64 (255 - tagl)) r else Some (0, r)) = Some (pad, r1) /\
    0 <= pad <= 255 - tagl /\ (CLOAK_FRAME_PAD_FIRST_N_FRAMES <= seq -> pad = 0) /\
    rand_ok r1 /\ fair fuel r1.
Proof.
  intros Hr Hf Ht. usimpl. destruct (Z.ltb_spec seq CLOAK_FRAME_PAD_FIRST_N_FRAMES).
  - destruct (random_pad_len_total fuel (255 - tagl) r) as (v & r' & -> & ? & ? & ?);
      [done..|lia|]. exists v, r'. split_and!; try done; lia.
  - exists 0, r. split_and!; try done; lia.
Qed.

(** The buffer once the payload is behind the header, moved there or found
    there. *)
Lemma frame_payload_placed (buf payload : bytes) off len extra :
  (off = 14 -> buf.[14 +: len] = Some payload) ->
  len = zlen payload -> 0 <= len -> 0 <= extra -> 14 + len + extra <= zlen buf ->
  exists h0 t0, zlen h0 = 14 /\ zlen t0 = extra /\
    (if off =? 14 then Some buf else p ← payload.[0 +: len]; buf.[14 <- p])
    = Some (h0 ++ payload ++ t0 ++ drop (Z.to_nat (14 + len + extra)) buf).
Proof.
  intros Hin Hlen Hl He Hcap.
  destruct (zlen_split buf 14) as (h0 & b1 & -> & Hh0 & Hb1); [lia|].
  destruct (zlen_split b1 len) as (old & b2 & -> & Hold & Hb2); [zlia|].
  destruct (zlen_split b2 extra) as (t0 & rest & -> & Ht0 & _); [zlia|].
  exists h0, t0. split_and!; [done..|].
  assert (Hd : drop (Z.to_nat (14 + len + extra)) (h0 ++ old ++ t0 ++ rest) = rest).
  { rewrite (app_assoc old), app_assoc. apply drop_app_length'.
    unfold zlen in *. rewrite !length_app. lia. }
  rewrite Hd. destruct (Z.eqb_spec off 14) as [->|_].
  - specialize (Hin eq_refl). rewrite mem_read_app in Hin by done. by injection Hin as <-.
  - rewrite mem_read_all by done. cbn [mbind option_bind]. by rewrite mem_write_app by lia.
Qed.

(** What [cloak_frame_obfuscate] leaves in the buffer. *)
Lemma frame_obfuscate_ok fuel o f buf off r :
  obfuscator_ok o -> frame_ok f -> 0 < fr_payload_len f ->
  CLOAK_FRAME_HEADER_LEN + fr_payload_len f + CLOAK_FRAME_MAX_EXTRA_LEN <= zlen buf <= INT64_MAX ->
  (off = CLOAK_FRAME_HEADER_LEN ->
   buf.[CLOAK_FRAME_HEADER_LEN +: fr_payload_len f] = Some (fr_payload f)) ->
  rand_ok r -> fair fuel r ->
  exists extra masked sealed nonce r',
    let n := CLOAK_FRAME_HEADER_LEN + fr_payload_len f + extra in
    cloak_frame_obfuscate fuel o f buf off r
      = Some (Some (n, masked ++ sealed ++ drop (Z.to_nat n) buf), r') /\
    tag_len_for_method (o_method o) <= extra <= CLOAK_FRAME_MAX_EXTRA_LEN /\
    (CLOAK_FRAME_PAD_FIRST_N_FRAMES <= fr_seq f -> extra = tag_len_for_method (o_method o)) /\
    zlen masked = 14 /\ zlen sealed = fr_payload_len f + extra /\
    (masked ++ sealed).[n - 8 +: 8] = Some nonce /\
    cloak_salsa20_xor (masked ++ sealed) (masked ++ sealed) CLOAK_FRAME_HEADER_LEN nonce
      (o_session_key o) = Some (frame_header f extra ++ sealed) /\
    (exists tail, frame_open o (frame_header f extra ++ sealed) (zlen sealed) (fr_payload_len f)
                  = Some (Some (frame_header f extra ++ fr_payload f ++ tail))) /\
    rand_ok r' /\ fair fuel r' /\ all_bytes (masked ++ sealed).
Proof.
  intros Ho Hfr Hpos Hcap Hin Hr Hfair. pose proof (fo_len _ Hfr) as Hlen.
  unfold cloak_frame_obfuscate. unfold CLOAK_FRAME_HEADER_LEN, CLOAK_FRAME_MAX_EXTRA_LEN, INT64_MAX in *.
  decide_cmp. pose proof (tag_len_bounds (o_method o)) as Htag.
  set (tagl := tag_len_for_method (o_method o)) in *.
  destruct (frame_pad_ok fuel tagl (fr_seq f) r) as (pad & r1 & -> & Hpad & Hpad0 & Hr1 & Hf1);
    [done..|lia|].
  cbn [mbind option_bind]. usimpl. decide_cmp.
  set (len := fr_payload_len f) in *. set (extra := pad + tagl).
  destruct (frame_payload_placed buf (fr_payload f) off len extra)
    as (h0 & t0 & Hh0 & Ht0 & ->); [done..|lia|lia|lia|].
  cbn [mbind option_bind]. set (rest := drop _ buf).
  fold extra.
  rewrite write_frame_header by done.
  (* padding *)
  destruct (cloak_random_bytes extra r1) as [filler r2] eqn:Hfil.
  pose proof (random_bytes_length extra _ _ _ ltac:(lia) Hfil) as Hfl.
  destruct (random_bytes_ok extra _ _ _ Hr1 ltac:(lia) Hfil) as [Hfb Hr2].
  pose proof (random_bytes_fair fuel extra _ _ _ ltac:(lia) Hf1 Hfil) as Hf2.
  pose proof (length_frame_header f extra) as Hhl.
  rewrite (app_assoc (frame_header f extra) (fr_payload f)), mem_write_app
    by (rewrite ?zlen_app; lia).
  cbn [mbind option_bind]. rewrite <- app_assoc.
  (* sealing *)
  destruct (zlen_split filler pad) as (padding & tag & -> & Hpl & Htl); [lia|].
  apply all_bytes_app in Hfb as [Hpb Htb].
  destruct (frame_seal_open o (frame_header f extra) (fr_payload f ++ padding) tag rest)
    as (sealed & Hseal & Hsl & Hsb & Hopen);
    [done..|by apply all_bytes_app; split; [apply Hfr|]|done|lia|].
  rewrite zlen_app in Hseal, Hsl. rewrite <- !app_assoc in Hseal.
  replace (zlen (fr_payload f) + zlen padding) with (len + pad) in Hseal by lia.
  rewrite <- (app_assoc padding), Hseal. cbn [mbind option_bind].
  (* the header mask *)
  unfold CLOAK_SALSA20_NONCE_LEN.
  destruct (zlen_split sealed (len + extra - 8)) as (s1 & nonce & -> & Hs1 & Hn8); [lia|].
  assert (Hnonce : forall m t, zlen m = 14 ->
    (m ++ (s1 ++ nonce) ++ t).[14 + len + extra - 8 +: 8] = Some nonce).
  { intros m t Hm. rewrite <- app_assoc, app_assoc. apply mem_read_app; [rewrite zlen_app|]; lia. }
  replace (14 + len + pad + tagl) with (14 + len + extra) by lia.
  rewrite Hnonce by done. cbn [mbind option_bind].
  destruct (header_mask o (frame_header f extra) (s1 ++ nonce) nonce)
    as (masked & Hml & Hmb & Hmask & Hun);
    [apply Ho|done|apply frame_header_bytes; [apply Hfr|unfold is_byte; lia]|unfold CLOAK_SALSA20_NONCE_LEN; lia|].
  unfold CLOAK_FRAME_HEADER_LEN in Hmask, Hun. rewrite Hmask. cbn [mbind option_bind].
  exists extra, masked, (s1 ++ nonce), nonce, r2. cbv zeta.
  split_and!; try exact Hml; try exact Hun; try reflexivity; try lia; try assumption.
  - specialize (Hnonce masked [] Hml). by rewrite app_nil_r in Hnonce.
  - destruct (Hopen len) as [tail Ht]; [rewrite zlen_app; lia|].
    exists (padding ++ tail). rewrite Ht, <- !app_assoc. done.
  - by apply all_bytes_app.
Qed.

(** The generator only moves on. *)
Lemma later_obfuscate fuel o f buf off r x r' :
  cloak_frame_obfuscate fuel o f buf off r = Some (x, r') -> later r r'.
Proof.
  unfold cloak_frame_obfuscate. case_if; [intros [= _ <-]; apply later_refl|].
  case_if; [intros [= _ <-]; apply later_refl|]. intros Hrun.
  apply bind_Some in Hrun as ([pad r1]&Hpad&Hrun).
  assert (H1 : later r r1).
  { case_if_in Hpad; [|injection Hpad as _ <-; apply later_refl]. unfold random_pad_len in Hpad.
    apply bind_Some in Hpad as ([v r2]&Hv&[= _ <-]). by eapply later_below. }
  case_if_in Hrun; [by injection Hrun as _ <-|]. do 5 (apply bind_Some in Hrun as (?&_&Hrun)).
  destruct (cloak_random_bytes _ r1) as [filler r2] eqn:Hfil. apply later_draw in Hfil.
  apply bind_Some in Hrun as (?&_&Hrun). apply bind_Some in Hrun as ([sealed|]&_&Hrun).
  - do 2 (apply bind_Some in Hrun as (?&_&Hrun)). injection Hrun as _ <-. by eapply later_trans.
  - injection Hrun as _ <-. by eapply later_trans.
Qed.

(** Opening what was sent: the receiver's side of [frame_obfuscate_ok]. *)
Lemma frame_deobfuscate_ok o f extra (masked sealed nonce tail : bytes) :
  frame_ok f -> is_byte extra -> tag_len_for_method (o_method o) <= extra ->
  0 < fr_payload_len f ->
  CLOAK_FRAME_HEADER_LEN + fr_payload_len f + extra <= INT64_MAX ->
  zlen masked = 14 -> zlen sealed = fr_payload_len f + extra ->
  (masked ++ sealed).[zlen (masked ++ sealed) - 8 +: 8] = Some nonce ->
  cloak_salsa20_xor (masked ++ sealed) (masked ++ sealed) CLOAK_FRAME_HEADER_LEN nonce
    (o_session_key o) = Some (frame_header f extra ++ sealed) ->
  frame_open o (frame_header f extra ++ sealed) (zlen sealed) (fr_payload_len f)
    = Some (Some (frame_header f extra ++ fr_payload f ++ tail)) ->
  cloak_frame_deobfuscate o (masked ++ sealed)
    = Some (Some f, frame_header f extra ++ fr_payload f ++ tail).
Proof.
  intros Hfr Hex Htag Hpos Hmax Hml Hsl Hnonce Hun Hopen.
  pose proof (tag_len_bounds (o_method o)).
  unfold cloak_frame_deobfuscate, CLOAK_SALSA20_NONCE_LEN.
  rewrite Hnonce. cbn [mbind option_bind]. rewrite Hun. cbn [mbind option_bind].
  unfold CLOAK_FRAME_HEADER_LEN, INT64_MAX in *.
  destruct (header_fields f extra sealed Hfr Hex) as (-> & -> & -> & -> & _).
  rewrite zlen_app, Hml, Hsl in *. decide_cmp. cbn [mbind option_bind]. usimpl.
  decide_cmp. replace (14 + (fr_payload_len f + extra) - 14) with (fr_payload_len f + extra) by lia.
  replace (fr_payload_len f + extra - extra) with (fr_payload_len f) by lia.
  rewrite Hopen. cbn [mbind option_bind]. rewrite mem_read_app.
  - cbn [mbind option_bind]. by destruct f.
  - by rewrite length_frame_header.
  - apply Hfr.
Qed.

(** The opening step never leaves the buffer. *)
Lemma frame_open_safe o buf n useful :
  zlen buf = 14 + n -> 0 <= n ->
  exists r, frame_open o buf n useful = Some r /\
    match r with None => True | Some buf' => zlen buf' = zlen buf end.
Proof.
  intros Hl Hn. unfold frame_open, CLOAK_FRAME_HEADER_LEN, CLOAK_AEAD_NONCE_LEN.
  case_if; [by eexists|].
  rewrite (mem_read_Some buf 0) by lia. cbn [mbind option_bind].
  destruct (mem_read buf 14 n) as [region|] eqn:Hr; [|by rewrite mem_read_Some in Hr by lia].
  cbn [mbind option_bind]. pose proof (mem_read_inv _ _ _ _ Hr) as (_&_&_&_&Hrl).
  destruct (cloak_aead_open _ _ _ _ region) as [out|] eqn:Hop; [|by eexists].
  apply aead_open_length in Hop.
  assert (zlen out <= zlen region).
  { unfold cloak_aead_overhead, CLOAK_AEAD_TAG_LEN in Hop. case_if_in Hop; lia. }
  destruct (mem_write buf 14 out) as [buf'|] eqn:Hw.
  2: { rewrite mem_write_Some in Hw; [done|lia..]. }
  cbn [mbind option_bind]. apply mem_write_inv in Hw as (_&_&Hw&_).
  eexists; split; [done|]. by case_if.
Qed.

(** C29: round trip.  With a buffer that has room for the largest padding, a
    non-empty payload and a tape on which the rejection sampler ends,
    [cloak_frame_obfuscate] returns a length [n], touches nothing behind the
    first [n] bytes, uses exactly the tag as overhead from the fifth frame of a
    stream on, and [cloak_frame_deobfuscate] of the [n] bytes gives back
    exactly the frame: stream id, sequence number, closing flag and payload. *)
Theorem frame_roundtrip fuel o f buf off r :
  obfuscator_ok o -> frame_ok f -> 0 < fr_payload_len f ->
  CLOAK_FRAME_HEADER_LEN + fr_payload_len f + CLOAK_FRAME_MAX_EXTRA_LEN <= zlen buf <= INT64_MAX ->
  (off = CLOAK_FRAME_HEADER_LEN ->
   buf.[CLOAK_FRAME_HEADER_LEN +: fr_payload_len f] = Some (fr_payload f)) ->
  rand_ok r -> fair fuel r ->
  exists n buf' r' buf'',
    cloak_frame_obfuscate fuel o f buf off r = Some (Some (n, buf'), r') /\
    tag_len_for_method (o_method o) <= n - CLOAK_FRAME_HEADER_LEN - fr_payload_len f
      <= CLOAK_FRAME_MAX_EXTRA_LEN /\
    (CLOAK_FRAME_PAD_FIRST_N_FRAMES <= fr_seq f ->
     n = CLOAK_FRAME_HEADER_LEN + fr_payload_len f + tag_len_for_method (o_method o)) /\
    drop (Z.to_nat n) buf' = drop (Z.to_nat n) buf /\
    cloak_frame_deobfuscate o (take (Z.to_nat n) buf') = Some (Some f, buf'').
Proof.
  intros Ho Hfr Hpos Hcap Hin Hr Hf.
  destruct (frame_obfuscate_ok fuel o f buf off r)
    as (extra & masked & sealed & nonce & r' & Hobf & Hex & Hex0 & Hml & Hsl & Hn & Hun &
        [tail Hopen] & _); [done..|].
  unfold CLOAK_FRAME_HEADER_LEN, CLOAK_FRAME_MAX_EXTRA_LEN in *.
  pose proof (tag_len_bounds (o_method o)).
  set (n := 14 + fr_payload_len f + extra) in *.
  assert (Hms : length (masked ++ sealed) = Z.to_nat n)
    by (unfold zlen in *; rewrite length_app; lia).
  exists n, (masked ++ sealed ++ drop (Z.to_nat n) buf), r', (frame_header f extra ++ fr_payload f ++ tail).
  split_and!; [done|lia|lia|lia|..].
  - by rewrite app_assoc, drop_app_length'.
  - rewrite app_assoc, take_app_length' by done.
    apply (frame_deobfuscate_ok o f extra masked sealed nonce); try assumption;
      try (unfold is_byte, CLOAK_FRAME_HEADER_LEN; lia).
    replace (zlen (masked ++ sealed)) with n by (rewrite zlen_app; lia). exact Hn.
Qed.

(** On any bytes, inside the buffer, and what is accepted fits. *)
Lemma deobfuscate_in_bounds o buf :
  obfuscator_ok o -> all_bytes buf -> zlen buf <= INT64_MAX ->
  exists out buf', cloak_frame_deobfuscate o buf = Some (out, buf') /\ zlen buf' = zlen buf /\
    match out with
    | None => True
    | Some f =>
        0 <= fr_payload_len f
          <= zlen buf - CLOAK_FRAME_HEADER_LEN - tag_len_for_method (o_method o) /\
        buf'.[CLOAK_FRAME_HEADER_LEN +: fr_payload_len f] = Some (fr_payload f) /\
        0 <= fr_stream_id f < 4294967296 /\ 0 <= fr_seq f < 18446744073709551616 /\
        is_byte (fr_closing f)
    end.
Proof.
  intros [Hm Hk] Hb Hmax. pose proof (tag_len_bounds (o_method o)) as Htag.
  unfold cloak_frame_deobfuscate, CLOAK_FRAME_HEADER_LEN, CLOAK_SALSA20_NONCE_LEN.
  unfold INT64_MAX in *. case_if; [by do 2 eexists|].
  destruct (mem_read buf (zlen buf - 8) 8) as [nonce|] eqn:Hn;
    [|by rewrite mem_read_Some in Hn by lia].
  cbn [mbind option_bind]. pose proof (mem_read_inv _ _ _ _ Hn) as (_&_&_&_&Hnl).
  rewrite salsa20_xor_spec by (done || unfold INT64_MAX; lia). cbn [mbind option_bind].
  set (buf1 := xor_bytes _ _ ++ _).
  assert (Hl1 : zlen buf1 = zlen buf).
  { unfold buf1, zlen in *. rewrite length_app, length_xor_bytes, length_drop, length_take.
    unfold stream_of. rewrite length_keystream by done. lia. }
  assert (Hb1 : all_bytes buf1).
  { apply all_bytes_app. split; [apply xor_bytes_all_bytes|by apply Forall_drop]. }
  clearbody buf1. unfold load_be32, load_be64.
  destruct (load_be32_total buf1 0) as (id & -> & Hid); [done|lia..|].
  destruct (load_be64_total buf1 4) as (sq & -> & Hsq); [done|lia..|].
  destruct (mem_get_byte buf1 12) as (cl & -> & Hcl); [done|lia|].
  destruct (mem_get_byte buf1 13) as (extra & -> & Hex); [done|lia|].
  cbn [mbind option_bind]. unfold is_byte in Hex. usimpl.
  case_if; [by do 2 eexists|]. case_if; [by do 2 eexists|]. usimpl.
  destruct (frame_open_safe o buf1 (zlen buf - 14) (zlen buf - 14 - extra))
    as (r & -> & Hr); [lia..|].
  cbn [mbind option_bind]. destruct r as [buf2|]; [|by do 2 eexists].
  destruct (mem_read buf2 14 (zlen buf - 14 - extra)) as [pl|] eqn:Hpl;
    [|by rewrite mem_read_Some in Hpl by lia].
  cbn [mbind option_bind]. do 2 eexists. split; [done|]. split; [lia|]. cbn.
  split_and!; done || lia.
Qed.

(** memory safety and validation on hostile input.  On any buffer of bytes
    [cloak_frame_deobfuscate] stays inside the buffer and keeps its length; if
    it accepts, then the payload is the slice behind the header, at least the
    method's tag shorter than what followed the header, and the stream id,
    sequence number and closing flag fit their fields. *)
Theorem frame_deobfuscate_safe o buf :
  obfuscator_ok o -> all_bytes buf -> zlen buf <= INT64_MAX ->
  exists out buf', cloak_frame_deobfuscate o buf = Some (out, buf') /\ zlen buf' = zlen buf /\
    match out with
    | None => True
    | Some f =>
        0 <= fr_payload_len f
          <= zlen buf - CLOAK_FRAME_HEADER_LEN - tag_len_for_method (o_method o) /\
        buf'.[CLOAK_FRAME_HEADER_LEN +: fr_payload_len f] = Some (fr_payload f) /\
        0 <= fr_stream_id f < 4294967296 /\ 0 <= fr_seq f < 18446744073709551616 /\
        is_byte (fr_closing f)
    end.
Proof. apply deobfuscate_in_bounds. Qed.

End frame_facts.

Definition demo_obfuscator : cloak_obfuscator_t :=
  Obfuscator CLOAK_AEAD_AES_256_GCM (replicate 32 7).
Definition demo_frame : cloak_frame_t := Frame 5 2 0 [1; 2; 3] 3.

Lemma demo_obfuscator_ok : obfuscator_ok demo_obfuscator.
Proof. by split. Qed.

Lemma demo_frame_ok : frame_ok demo_frame.
Proof. by split; cbn; unfold is_byte; try (repeat constructor; lia). Qed.

Lemma frame_roundtrip_witness :
  let _ := evp_plain in
  exists n buf' r' buf'',
    cloak_frame_obfuscate 1 demo_obfuscator demo_frame (replicate 300 0) 0 (fun _ => 0)
      = Some (Some (n, buf'), r') /\
    tag_len_for_method (o_method demo_obfuscator)
      <= n - CLOAK_FRAME_HEADER_LEN - fr_payload_len demo_frame <= CLOAK_FRAME_MAX_EXTRA_LEN /\
    (CLOAK_FRAME_PAD_FIRST_N_FRAMES <= fr_seq demo_frame ->
     n = CLOAK_FRAME_HEADER_LEN + fr_payload_len demo_frame
         + tag_len_for_method (o_method demo_obfuscator)) /\
    drop (Z.to_nat n) buf' = drop (Z.to_nat n) (replicate 300 0) /\
    cloak_frame_deobfuscate demo_obfuscator (take (Z.to_nat n) buf')
      = Some (Some demo_frame, buf'').
Proof.
  intros E. apply (@frame_roundtrip E evp_plain_laws 1 demo_obfuscator demo_frame).
  - apply demo_obfuscator_ok.
  - apply demo_frame_ok.
  - cbn. lia.
  - rewrite zlen_replicate. unfold INT64_MAX, CLOAK_FRAME_HEADER_LEN, CLOAK_FRAME_MAX_EXTRA_LEN.
    cbn. lia.
  - done.
  - intros i. unfold is_byte. lia.
  - intros pos. exists 0%nat. split; lia.
Defined.

Lemma frame_deobfuscate_safe_witness :
  let _ := evp_plain in
  exists out buf',
    cloak_frame_deobfuscate demo_obfuscator (replicate 40 9) = Some (out, buf') /\
    zlen buf' = zlen (replicate 40 9) /\
    match out with
    | None => True
    | Some f =>
        0 <= fr_payload_len f
          <= zlen (replicate 40 9) - CLOAK_FRAME_HEADER_LEN
             - tag_len_for_method (o_method demo_obfuscator) /\
        buf'.[CLOAK_FRAME_HEADER_LEN +: fr_payload_len f] = Some (fr_payload f) /\
        0 <= fr_stream_id f < 4294967296 /\ 0 <= fr_seq f < 18446744073709551616 /\
        is_byte (fr_closing f)
    end.
Proof.
  intros E. apply (@frame_deobfuscate_safe E evp_plain_laws demo_obfuscator (replicate 40 9)).
  - apply demo_obfuscator_ok.
  - apply Forall_replicate. unfold is_byte. lia.
  - rewrite zlen_replicate. unfold INT64_MAX. lia.
Defined.
