(* ===== verification/HeapOrder.v ===== *)
(** * The order of a binary min-heap kept in an array

    Both heaps of the sources (the reorder heap of a stream, stream.c, and the
    timers of the event loop, reactor.c) sift an element along a path of the
    array.  The state of such a loop is described by the keys at the indices
    [0 .. n): everything here is about a function from indices to keys. *)
From S2P Require Import Prelude.

Definition heap_parent (j : Z) : Z := (j - 1) / 2.

Ltac hlia := unfold heap_parent in *; dlia.

(** Two elements of a list change places. *)
Lemma insert_swap_perm {A} (l : list A) (i j : nat) a b :
  l !! i = Some a -> l !! j = Some b -> i <> j -> <[j := a]> (<[i := b]> l) ≡ₚ l.
Proof.
  intros Ha Hb Hij. pose proof (lookup_lt_Some _ _ _ Ha). pose proof (lookup_lt_Some _ _ _ Hb).
  rewrite insert_perm by (rewrite length_insert; lia).
  assert (Hb1 : <[i := b]> l !! j = Some b) by (by rewrite list_lookup_insert_ne by lia).
  pose proof (delete_Permutation _ _ _ Hb1) as P1. rewrite insert_perm in P1 at 1 by lia.
  apply Permutation_cons_inv in P1. rewrite <- P1. symmetry. by apply delete_Permutation.
Qed.

(** An element takes the place of another. *)
Lemma insert_replace_perm {A} (l : list A) (i : nat) x y :
  l !! i = Some y -> y :: <[i := x]> l ≡ₚ x :: l.
Proof.
  intros Hy. rewrite insert_perm by (by eapply lookup_lt_Some).
  rewrite Permutation_swap. by rewrite <- (delete_Permutation l i y Hy).
Qed.

Section order.
Implicit Types (n i j : Z) (k : Z -> Z).

Definition ordered n k : Prop := forall j, 0 < j < n -> k (heap_parent j) <= k j.

(** The grandparent of every child of [i] is in order with it. *)
Definition bridged n k i : Prop :=
  forall j, 0 < j < n -> heap_parent j = i -> 0 < i -> k (heap_parent i) <= k j.

(** In order, but for the node [i] against its parent. *)
Definition up_ordered n k i : Prop :=
  (forall j, 0 < j < n -> j <> i -> k (heap_parent j) <= k j) /\ bridged n k i.

(** In order, but for the node [i] against its children. *)
Definition down_ordered n k i : Prop :=
  (forall j, 0 < j < n -> heap_parent j <> i -> k (heap_parent j) <= k j) /\ bridged n k i.

(** The keys after the elements at [i] and [j] have changed places. *)
Definition swapped k i j : Z -> Z := fun x => if x =? i then k j else if x =? j then k i else k x.

(** [m] is a child of [i] that is to change places with it. *)
Definition smallest_child n k i m : Prop :=
  i < m < n /\ heap_parent m = i /\ forall j, 0 < j < n -> heap_parent j = i -> k m <= k j.

Lemma swapped_sym k i j x : i <> j -> swapped k i j x = swapped k j i x.
Proof. intros. unfold swapped. destruct (Z.eqb_spec x i), (Z.eqb_spec x j); congruence. Qed.

Lemma ordered_ext n k k' : (forall j, 0 <= j < n -> k' j = k j) -> ordered n k -> ordered n k'.
Proof. intros He Ho j Hj. rewrite !He by hlia. by apply Ho. Qed.

Lemma up_ordered_ext n k k' i :
  0 <= i < n -> (forall j, 0 <= j < n -> k' j = k j) -> up_ordered n k i -> up_ordered n k' i.
Proof.
  intros Hi He [Ho Hb]. split.
  - intros j Hj. rewrite !He by hlia. by apply Ho.
  - intros j Hj Hp Hi0. rewrite !He by hlia. by apply Hb.
Qed.

Lemma down_ordered_ext n k k' i :
  0 <= i < n -> (forall j, 0 <= j < n -> k' j = k j) -> down_ordered n k i -> down_ordered n k' i.
Proof.
  intros Hi He [Ho Hb]. split.
  - intros j Hj. rewrite !He by hlia. by apply Ho.
  - intros j Hj Hp Hi0. rewrite !He by hlia. by apply Hb.
Qed.

Lemma up_done n k i :
  up_ordered n k i -> (i <= 0 \/ k (heap_parent i) <= k i) -> ordered n k.
Proof.
  intros [Ho _] Hi j Hj. destruct (Z.eq_dec j i) as [->|]; [|auto]. destruct Hi; [lia|done].
Qed.

Lemma up_move n k i :
  up_ordered n k i -> 0 < i < n -> k i <= k (heap_parent i) ->
  up_ordered n (swapped k i (heap_parent i)) (heap_parent i).
Proof.
  intros [Ho Hg] Hi Hlt. set (p := heap_parent i) in *.
  assert (Hp : 0 <= p < i) by (unfold p, heap_parent; dlia). unfold swapped. split.
  - intros j Hj Hjp. destruct (Z.eqb_spec j i) as [->|].
    + fold p. destruct (Z.eqb_spec p i); [lia|]. rewrite Z.eqb_refl. lia.
    + destruct (Z.eqb_spec j p); [lia|].
      destruct (Z.eqb_spec (heap_parent j) i) as [E1|]; [apply (Hg j); done || lia|].
      destruct (Z.eqb_spec (heap_parent j) p) as [E1|]; [|by apply Ho].
      specialize (Ho j Hj ltac:(done)). rewrite E1 in Ho. lia.
  - intros j Hj Hjp Hp0. assert (Hgp : heap_parent p < p) by hlia.
    assert (k (heap_parent p) <= k p) by (apply Ho; lia).
    destruct (Z.eqb_spec (heap_parent p) i); [lia|].
    destruct (Z.eqb_spec (heap_parent p) p); [lia|].
    destruct (Z.eqb_spec j i) as [->|]; [lia|].
    destruct (Z.eqb_spec j p) as [->|]; [lia|].
    specialize (Ho j Hj ltac:(done)). rewrite Hjp in Ho. lia.
Qed.

Lemma down_done n k i :
  down_ordered n k i -> (forall j, 0 < j < n -> heap_parent j = i -> k i <= k j) -> ordered n k.
Proof.
  intros [Ho _] Hc j Hj. destruct (Z.eq_dec (heap_parent j) i) as [E|]; [|auto].
  rewrite E. by apply Hc.
Qed.

Lemma down_move n k i m :
  down_ordered n k i -> 0 <= i -> smallest_child n k i m -> k m <= k i ->
  down_ordered n (swapped k i m) m.
Proof.
  intros [Ho Hg] Hi0 (Him & Hpm & Hmin) Hlt. unfold swapped. split.
  - intros j Hj Hjm. destruct (Z.eqb_spec (heap_parent j) i) as [E1|].
    + destruct (Z.eqb_spec j i); [hlia|].
      destruct (Z.eqb_spec j m); [lia|]. by apply Hmin.
    + destruct (Z.eqb_spec (heap_parent j) m); [done|].
      destruct (Z.eqb_spec j i) as [->|]; [|destruct (Z.eqb_spec j m) as [->|]; [done|by apply Ho]].
      apply (Hg m); [lia|done|lia].
  - intros j Hj Hjm Hm0. rewrite Hpm, Z.eqb_refl.
    destruct (Z.eqb_spec j i); [hlia|].
    destruct (Z.eqb_spec j m); [hlia|].
    rewrite <- Hjm. apply Ho; lia.
Qed.

(** The root holds a least key. *)
Lemma ordered_min n k j : ordered n k -> 0 <= j < n -> k 0 <= k j.
Proof.
  intros Ho. remember (Z.to_nat j) as x eqn:E. revert j E.
  induction x as [x IH] using lt_wf_ind. intros j -> Hj.
  destruct (decide (j = 0)) as [->|]; [lia|].
  etransitivity; [apply (IH (Z.to_nat (heap_parent j))); [hlia|done|hlia]|].
  apply Ho. lia.
Qed.

End order.
