(* ===== verification/Heap.v ===== *)
(** * The reorder heap of a stream ([libcloak-mux/src/stream.c])

    Frames that arrived ahead of their turn wait in a binary min-heap on their
    sequence numbers.  The array is modelled by its initialised prefix
    [0 .. heap_len), so that reading a slot that was never written is [None]. *)
From S2P Require Import Prelude HeapOrder.

Record cloak_pending_frame_t := Pending {
  pf_seq : Z;
  pf_closing : Z;
  pf_payload : bytes;
  pf_payload_len : Z
}.

(** The swap of two elements that both loops make. *)
Definition heap_swap (h : list cloak_pending_frame_t) (i j : Z)
    : option (list cloak_pending_frame_t) :=
  a ← h.[i]; b ← h.[j]; h' ← mem_set h i b; mem_set h' j a.

(** The sift-up loop of [heap_push]. *)
Fixpoint heap_sift_up (fuel : nat) (h : list cloak_pending_frame_t) (i : Z)
    : option (list cloak_pending_frame_t) :=
  if 0 <? i then
    match fuel with
    | O => None
    | S fuel' =>
        let parent := (i - 1) / 2 in
        p ← h.[parent]; c ← h.[i];
        if pf_seq p <=? pf_seq c then Some h
        else h' ← heap_swap h parent i; heap_sift_up fuel' h' parent
    end
  else Some h.

(** The smallest of a node and the children it has. *)
Definition heap_smallest (h : list cloak_pending_frame_t) (i : Z) : option Z :=
  let heap_len := zlen h in
  let left := u64 (2 * i + 1) in
  let right := u64 (2 * i + 2) in
  s ← h.[i];
  smallest ← (if left <? heap_len then l ← h.[left];
                Some (if pf_seq l <? pf_seq s then left else i)
              else Some i);
  s ← h.[smallest];
  if right <? heap_len then r ← h.[right];
    Some (if pf_seq r <? pf_seq s then right else smallest)
  else Some smallest.

(** The sift-down loop of [heap_pop]. *)
Fixpoint heap_sift_down (fuel : nat) (h : list cloak_pending_frame_t) (i : Z)
    : option (list cloak_pending_frame_t) :=
  match fuel with
  | O => None
  | S fuel' =>
      smallest ← heap_smallest h i;
      if smallest =? i then Some h
      else h' ← heap_swap h i smallest; heap_sift_down fuel' h' smallest
  end.

(** The tail of [heap_push]: the new element behind the last, then sift up. *)
Definition heap_insert (h : list cloak_pending_frame_t) (pf : cloak_pending_frame_t)
    : option (list cloak_pending_frame_t) :=
  heap_sift_up (S (length h)) (h ++ [pf]) (zlen h).

(** [heap_pop], on the array. *)
Definition heap_extract (h : list cloak_pending_frame_t)
    : option (cloak_pending_frame_t * list cloak_pending_frame_t) :=
  top ← h.[0];
  let heap_len := zlen h - 1 in
  if 0 <? heap_len then
    last ← h.[heap_len];
    h' ← mem_set (take (Z.to_nat heap_len) h) 0 last;
    h'' ← heap_sift_down (S (length h)) h' 0;
    Some (top, h'')
  else Some (top, []).

(** The scan of [heap_contains_seq]. *)
Fixpoint heap_contains (h : list cloak_pending_frame_t) (seq : Z) : bool :=
  match h with
  | [] => false
  | f :: h' => if pf_seq f =? seq then true else heap_contains h' seq
  end.

(** ** The heap order *)

(** Sequence number at an index of the heap. *)
Definition sq (h : list cloak_pending_frame_t) (j : Z) : Z :=
  match h.[j] with Some f => pf_seq f | None => -1 end.

Definition heap_ok (h : list cloak_pending_frame_t) : Prop := ordered (zlen h) (sq h).

Lemma heap_swap_spec h i j :
  0 <= i < zlen h -> 0 <= j < zlen h -> i <> j ->
  exists h', heap_swap h i j = Some h' /\ zlen h' = zlen h /\ h' ≡ₚ h /\
    forall k, sq h' k = swapped (sq h) i j k.
Proof.
  intros Hi Hj Hij. unfold heap_swap.
  destruct (mem_get_Some h i Hi) as [a Ha]. destruct (mem_get_Some h j Hj) as [b Hb].
  rewrite Ha, Hb. cbn [mbind option_bind].
  rewrite (mem_set_Some h i b) by done. cbn [mbind option_bind].
  set (h1 := <[Z.to_nat i := b]> h).
  assert (Hl1 : zlen h1 = zlen h) by (unfold h1, zlen; by rewrite length_insert).
  assert (E1 : mem_set h i b = Some h1) by (by apply mem_set_Some).
  rewrite (mem_set_Some h1 j a) by lia.
  assert (E2 : mem_set h1 j a = Some (<[Z.to_nat j := a]> h1)) by (apply mem_set_Some; lia).
  eexists; split; [done|]. split; [unfold zlen; rewrite length_insert; fold (zlen h1); exact Hl1|].
  split.
  - apply mem_get_inv in Ha as [_ Ha], Hb as [_ Hb]. apply insert_swap_perm; [done..|lia].
  - intros k. unfold swapped, sq. destruct (mem_set_get _ _ _ _ k E2) as [_ ->].
    destruct (Z.eqb_spec k j) as [->|].
    + destruct (Z.eqb_spec j i); [lia|]. by rewrite Ha.
    + destruct (mem_set_get _ _ _ _ k E1) as [_ ->].
      destruct (Z.eqb_spec k i) as [->|]; [by rewrite Hb|done].
Qed.

Lemma heap_sift_up_spec fuel h i :
  up_ordered (zlen h) (sq h) i -> 0 <= i < zlen h -> i < Z.of_nat fuel ->
  exists h', heap_sift_up fuel h i = Some h' /\ h' ≡ₚ h /\ heap_ok h'.
Proof.
  revert h i. induction fuel as [|fuel IH]; intros h i Hup Hi Hf; cbn [heap_sift_up].
  { lia. }
  case_if.
  2: { exists h. split_and!; [done..|]. eapply up_done; [done|by left]. }
  change ((i - 1) / 2) with (heap_parent i). set (p := heap_parent i).
  assert (Hp : 0 <= p < i) by (unfold p; hlia).
  destruct (mem_get_Some h p) as [fp Hfp]; [lia|].
  destruct (mem_get_Some h i) as [fi Hfi]; [lia|].
  rewrite Hfp, Hfi. cbn [mbind option_bind].
  assert (Hsp : sq h p = pf_seq fp) by (unfold sq; by rewrite Hfp).
  assert (Hsi : sq h i = pf_seq fi) by (unfold sq; by rewrite Hfi).
  case_if.
  { exists h. split_and!; [done..|]. eapply up_done; [done|]. right. fold p. lia. }
  destruct (heap_swap_spec h p i) as (h1 & -> & Hl & HP & Hsq); [lia..|].
  cbn [mbind option_bind]. destruct (IH h1 p) as (h' & E' & P' & O'); [|lia|lia|].
  - rewrite Hl. eapply up_ordered_ext; [lia| |apply (up_move _ _ _ Hup); fold p; lia].
    intros j _. rewrite Hsq. fold p. apply swapped_sym. lia.
  - exists h'. split_and!; [done|by rewrite P'|done].
Qed.

Lemma heap_smallest_spec h i :
  0 <= i < zlen h -> zlen h <= INT64_MAX / 32 ->
  exists m, heap_smallest h i = Some m /\ 0 <= m < zlen h /\
    (m = i \/ (i = heap_parent m /\ i < m /\ sq h m < sq h i)) /\
    (forall j, 0 < j < zlen h -> heap_parent j = i -> sq h m <= sq h j).
Proof.
  intros Hi Hl. change (INT64_MAX / 32) with 288230376151711743 in Hl.
  unfold heap_smallest. usimpl.
  destruct (mem_get_Some h i Hi) as [fi Hfi]. rewrite Hfi. cbn [mbind option_bind].
  assert (Hsi : sq h i = pf_seq fi) by (unfold sq; by rewrite Hfi).
  set (l := 2 * i + 1). set (r := 2 * i + 2).
  (* left child *)
  assert (exists m1, (if l <? zlen h then l0 ← h.[l]; Some (if pf_seq l0 <? pf_seq fi then l else i)
                      else Some i) = Some m1 /\ 0 <= m1 < zlen h /\
    (m1 = i \/ (m1 = l /\ sq h m1 < sq h i)) /\ (l < zlen h -> sq h m1 <= sq h l))
    as (m1 & -> & Hm1 & Hor & Hle).
  { destruct (Z.ltb_spec l (zlen h)).
    - destruct (mem_get_Some h l) as [fl Hfl]; [unfold l in *; lia|]. rewrite Hfl.
      assert (Hsl : sq h l = pf_seq fl) by (unfold sq; by rewrite Hfl).
      cbn [mbind option_bind]. destruct (Z.ltb_spec (pf_seq fl) (pf_seq fi));
        eexists; split_and!; first [reflexivity|unfold l in *; lia|auto with lia].
    - exists i. split_and!; (done || lia || auto). }
  cbn [mbind option_bind]. destruct (mem_get_Some h m1 Hm1) as [fm Hfm]. rewrite Hfm.
  assert (Hsm : sq h m1 = pf_seq fm) by (unfold sq; by rewrite Hfm). cbn [mbind option_bind].
  assert (Hchild : forall j, 0 < j -> heap_parent j = i -> j = l \/ j = r)
    by (intros; unfold l, r; hlia).
  assert (Hmi : sq h m1 <= sq h i) by (destruct Hor as [-> | [-> ?]]; lia).
  assert (Hpl : heap_parent l = i) by (unfold l; hlia).
  assert (Hpr : heap_parent r = i) by (unfold r; hlia).
  assert (i < l /\ i < r) as [? ?] by (unfold l, r; lia).
  destruct (Z.ltb_spec r (zlen h)).
  - destruct (mem_get_Some h r) as [fr Hfr]; [unfold r in *; lia|]. rewrite Hfr.
    assert (Hsr : sq h r = pf_seq fr) by (unfold sq; by rewrite Hfr).
    cbn [mbind option_bind]. destruct (Z.ltb_spec (pf_seq fr) (pf_seq fm)).
    + exists r. split; [done|]. split; [unfold r in *; lia|].
      split; [right; lia|]. intros j Hj [-> | ->]%Hchild; lia.
    + exists m1. split; [done|]. split; [lia|].
      split; [destruct Hor as [?|[-> ?]]; [by left|right; lia]|].
      intros j Hj [-> | ->]%Hchild; lia.
  - exists m1. split; [done|]. split; [lia|].
    split; [destruct Hor as [?|[-> ?]]; [by left|right; lia]|].
    intros j Hj [-> | ->]%Hchild; lia.
Qed.

Lemma heap_sift_down_spec fuel h i :
  down_ordered (zlen h) (sq h) i -> 0 <= i < zlen h -> zlen h <= INT64_MAX / 32 ->
  zlen h - i <= Z.of_nat fuel ->
  exists h', heap_sift_down fuel h i = Some h' /\ h' ≡ₚ h /\ heap_ok h'.
Proof.
  revert h i. induction fuel as [|fuel IH]; intros h i Hdown Hi Hmax Hf; cbn [heap_sift_down].
  { lia. }
  destruct (heap_smallest_spec h i Hi Hmax) as (m & -> & Hm & Hor & Hmin).
  cbn [mbind option_bind]. destruct (Z.eqb_spec m i) as [->|Hne].
  { exists h. split_and!; [done..|]. by eapply down_done. }
  destruct Hor as [?|(Him & Hlt & Hsm)]; [done|].
  destruct (heap_swap_spec h i m) as (h1 & -> & Hl & HP & Hsq); [lia..|].
  cbn [mbind option_bind]. destruct (IH h1 m) as (h' & E' & P' & O'); [|lia|lia|lia|].
  - rewrite Hl. eapply down_ordered_ext; [lia|intros j _; apply Hsq|].
    apply (down_move _ _ _ _ Hdown); [lia| |lia]. split_and!; [lia..|done].
  - exists h'. split_and!; [done|by rewrite P'|done].
Qed.

Lemma sq_app_l h t j : j < zlen h -> sq (h ++ t) j = sq h j.
Proof. intros. unfold sq. by rewrite mem_get_app_l. Qed.

(** Insertion keeps the order and adds one element. *)
Lemma heap_insert_spec h pf :
  heap_ok h -> exists h', heap_insert h pf = Some h' /\ h' ≡ₚ pf :: h /\ heap_ok h'.
Proof.
  intros Ho. unfold heap_insert. pose proof (zlen_nonneg h).
  assert (Hl : zlen (h ++ [pf]) = zlen h + 1) by zlia.
  destruct (heap_sift_up_spec (S (length h)) (h ++ [pf]) (zlen h)) as (h' & -> & P & O).
  - split; intros j Hj; [|hlia]. intros Hne. rewrite !sq_app_l by hlia. apply Ho. lia.
  - lia.
  - unfold zlen. lia.
  - exists h'. split_and!; [done| |done]. rewrite P. symmetry. apply Permutation_cons_append.
Qed.

Lemma sq_take h n j : j < n -> n <= zlen h -> sq (take (Z.to_nat n) h) j = sq h j.
Proof.
  intros Hj Hn. rewrite <- (take_drop (Z.to_nat n) h) at 2. unfold sq.
  destruct (Z.leb_spec 0 j); [|unfold mem_get; by decide_cmp].
  rewrite mem_get_app_l; [done|]. rewrite zlen_take; lia.
Qed.

(** Extraction returns a least element, and keeps the order of the others. *)
Lemma heap_extract_spec h f0 h0 :
  heap_ok h -> h = f0 :: h0 -> zlen h <= INT64_MAX / 32 ->
  exists h', heap_extract h = Some (f0, h') /\ f0 :: h' ≡ₚ h /\ heap_ok h' /\
    forall f, f ∈ h -> pf_seq f0 <= pf_seq f.
Proof.
  intros Ho Hh Hmax. unfold heap_extract.
  assert (H0 : h.[0] = Some f0) by (by subst h).
  assert (Hmin : forall f, f ∈ h -> pf_seq f0 <= pf_seq f).
  { intros f (j & Hj)%list_elem_of_lookup. pose proof (lookup_lt_Some _ _ _ Hj) as Hjl.
    pose proof (ordered_min _ _ (Z.of_nat j) Ho ltac:(unfold zlen; lia)) as Hm. unfold sq in Hm.
    rewrite H0, mem_get_lookup, Nat2Z.id, Hj in Hm by lia. done. }
  rewrite H0. cbn [mbind option_bind]. set (n := zlen h - 1).
  assert (Hn : n = zlen h0) by (unfold n; rewrite Hh, zlen_cons; lia).
  pose proof (zlen_nonneg h0). destruct (Z.ltb_spec 0 n) as [Hpos|].
  2: { rewrite (zlen_zero h0) in Hh by lia. subst h. exists []. split_and!; [done..| |done].
       intros j Hj. unfold zlen in Hj. cbn in Hj. lia. }
  destruct (mem_get_Some h n) as [last Hlast]; [lia|]. rewrite Hlast. cbn [mbind option_bind].
  set (body := take (Z.to_nat n) h).
  assert (Hbl : zlen body = n) by (unfold body; rewrite zlen_take; lia).
  assert (Hset : exists h', mem_set body 0 last = Some h') by (rewrite mem_set_Some by lia; eauto).
  destruct Hset as [h1 Hset]. rewrite Hset. cbn [mbind option_bind].
  assert (Hsq : forall k, sq h1 k = if k =? 0 then pf_seq last else sq body k).
  { intros k. unfold sq. destruct (mem_set_get _ _ _ _ k Hset) as [_ ->]. by destruct (k =? 0). }
  destruct (mem_set_get _ _ _ _ 0 Hset) as [Hl1 _].
  (* the elements *)
  assert (HP : f0 :: h1 ≡ₚ h).
  { unfold mem_set in Hset. rewrite Hbl in Hset. case_if_in Hset; [|done]. injection Hset as <-.
    znat. assert (Hb0 : body !! 0%nat = Some f0).
    { unfold body. rewrite lookup_take_lt by lia. by subst h. }
    rewrite (insert_replace_perm body 0 last f0 Hb0).
    assert (Hbody : h = body ++ [last]).
    { rewrite <- (take_drop (Z.to_nat n) h) at 1. unfold body. f_equal.
      apply mem_get_inv in Hlast as [_ Hlast]. rewrite (drop_S _ last) by done.
      rewrite drop_ge by (unfold zlen in *; lia). done. }
    rewrite Hbody at 1.
    apply Permutation_cons_append. }
  destruct (heap_sift_down_spec (S (length h)) h1 0) as (h' & -> & P' & O').
  - split; intros j Hj; [|lia]. intros Hne. rewrite !Hsq.
    rewrite (proj2 (Z.eqb_neq _ _)) by done. rewrite (proj2 (Z.eqb_neq j 0)) by lia.
    unfold body. rewrite !sq_take by hlia. apply Ho. lia.
  - lia.
  - lia.
  - unfold zlen in *. lia.
  - cbn [mbind option_bind]. exists h'. split_and!; [done| |done|done]. by rewrite P'.
Qed.

(** The scan decides membership of a sequence number. *)
Lemma heap_contains_spec h seq :
  heap_contains h seq = true <-> seq ∈ map pf_seq h.
Proof.
  induction h as [|f h IH]; cbn; [by rewrite elem_of_nil|].
  rewrite elem_of_cons. destruct (Z.eqb_spec (pf_seq f) seq) as [->|Hne].
  - split; auto.
  - rewrite IH. split; [by right|]. intros [?|?]; [congruence|done].
Qed.
