(* ===== verification/Stream.v ===== *)
(** * One multiplexed stream ([libcloak-mux/src/stream.c])

    The send side cuts a byte stream into frames, obfuscates each in the
    stream's scratch buffer and hands it to the sink.  The receive side is one
    of two machines: an ordered stream sorts frames into a byte queue through
    a heap, an unordered one puts each payload into the datagram queue.

    The heap array and its length are one list, the initialised prefix; the
    booleans among the arguments say whether [malloc] and [realloc] succeed. *)
From S2P Require Import Prelude Random Frame Aead ByteQueue MsgQueue Heap.

Definition CLOAK_SESSION_ORDERING_INVALID : Z := 0.
Definition CLOAK_SESSION_ORDERING_ORDERED : Z := 1.
Definition CLOAK_SESSION_ORDERING_UNORDERED : Z := 2.
Definition CLOAK_SESSION_ERR_INVALID_ORDERING : Z := -2.
Definition CLOAK_STREAM_ERR_SHORT_BUFFER : Z := -2.

Record cloak_stream_t := Stream {
  st_id : Z;
  st_ordering : Z;
  st_obfuscator : cloak_obfuscator_t;
  st_max_payload_per_frame : Z;
  st_write_buf : bytes;
  st_write_buf_cap : Z;
  st_next_write_seq : Z;
  st_write_closed : bool;
  st_recv_bytes : cloak_bytequeue_t;
  st_next_recv_seq : Z;
  st_heap : list cloak_pending_frame_t;
  st_heap_cap : Z;
  st_max_pending_frames : Z;
  st_recv_msgs : cloak_msgqueue_t;
  st_recv_dropped_datagrams : Z;
  st_recv_closing_seen : bool
}.

(** Assignments to the groups of fields that change together. *)
Definition st_set_send (s : cloak_stream_t) (buf : bytes) (seq : Z) (closed : bool) :=
  Stream (st_id s) (st_ordering s) (st_obfuscator s) (st_max_payload_per_frame s)
    buf (st_write_buf_cap s) seq closed (st_recv_bytes s) (st_next_recv_seq s)
    (st_heap s) (st_heap_cap s) (st_max_pending_frames s) (st_recv_msgs s)
    (st_recv_dropped_datagrams s) (st_recv_closing_seen s).

Definition st_set_ordered (s : cloak_stream_t) (q : cloak_bytequeue_t) (next : Z)
    (heap : list cloak_pending_frame_t) (heap_cap : Z) (seen : bool) :=
  Stream (st_id s) (st_ordering s) (st_obfuscator s) (st_max_payload_per_frame s)
    (st_write_buf s) (st_write_buf_cap s) (st_next_write_seq s) (st_write_closed s)
    q next heap heap_cap (st_max_pending_frames s) (st_recv_msgs s)
    (st_recv_dropped_datagrams s) seen.

Definition st_set_msgs (s : cloak_stream_t) (q : cloak_msgqueue_t) (dropped : Z) (seen : bool) :=
  Stream (st_id s) (st_ordering s) (st_obfuscator s) (st_max_payload_per_frame s)
    (st_write_buf s) (st_write_buf_cap s) (st_next_write_seq s) (st_write_closed s)
    (st_recv_bytes s) (st_next_recv_seq s) (st_heap s) (st_heap_cap s)
    (st_max_pending_frames s) q dropped seen.

Definition stream_zero : cloak_stream_t :=
  Stream 0 0 (Obfuscator 0 []) 0 [] 0 0 false (Bytequeue [] 0 0 0 false) 0 [] 0 0
    msgqueue_zero 0 false.

(** [cloak_stream_init]; [write_buf] and [queue_mem] are what the two [malloc]
    calls return, [sink_null] is [sink == NULL].  The sink itself is an
    argument of the functions that call it. *)
Definition cloak_stream_init (id : Z) (obfuscator : cloak_obfuscator_t)
    (max_on_wire_size recv_capacity max_pending_frames ordering : Z) (sink_null : bool)
    (write_buf queue_mem : option bytes) : Z * cloak_stream_t :=
  let s := stream_zero in
  if negb (ordering =? CLOAK_SESSION_ORDERING_ORDERED) &&
     negb (ordering =? CLOAK_SESSION_ORDERING_UNORDERED)
  then (CLOAK_SESSION_ERR_INVALID_ORDERING, s)
  else if (max_on_wire_size <=? CLOAK_FRAME_HEADER_LEN + CLOAK_FRAME_MAX_EXTRA_LEN) ||
          (recv_capacity =? 0) ||
          (recv_capacity <? u64 (max_on_wire_size - CLOAK_FRAME_HEADER_LEN)) || sink_null
  then (-1, s)
  else
    let max_payload :=
      u64 (max_on_wire_size - CLOAK_FRAME_HEADER_LEN - CLOAK_FRAME_MAX_EXTRA_LEN) in
    let mk buf cap q m pend :=
      Stream id ordering obfuscator max_payload buf cap 0 false q 0 [] 0 pend m 0 false in
    match write_buf with
    | None => (-1, mk [] 0 (st_recv_bytes s) (st_recv_msgs s) 0)
    | Some buf =>
        let '(rc, q, m) :=
          if ordering =? CLOAK_SESSION_ORDERING_UNORDERED
          then let '(rc, m) := cloak_msgqueue_init (st_recv_msgs s) recv_capacity queue_mem in
               (rc, st_recv_bytes s, m)
          else let '(rc, q) := cloak_bytequeue_init (st_recv_bytes s) recv_capacity queue_mem in
               (rc, q, st_recv_msgs s) in
        if negb (rc =? 0) then (-1, mk [] max_on_wire_size q m 0)
        else (0, mk buf max_on_wire_size q m
                   (if 0 <? max_pending_frames then max_pending_frames else 1))
    end.

Definition cloak_stream_destroy (s : cloak_stream_t) : cloak_stream_t := stream_zero.

(** ** The reorder heap *)

Definition heap_grow (s : cloak_stream_t) (realloc_ok : bool) : Z * cloak_stream_t :=
  let new_cap := if st_heap_cap s =? 0 then 8 else u64 (st_heap_cap s * 2) in
  let new_cap := if st_max_pending_frames s <? new_cap then st_max_pending_frames s
                 else new_cap in
  if negb realloc_ok then (-1, s)
  else (0, st_set_ordered s (st_recv_bytes s) (st_next_recv_seq s) (st_heap s) new_cap
             (st_recv_closing_seen s)).

(** A push writes slot [heap_len], which must exist. *)
Definition heap_push (s : cloak_stream_t) (pf : cloak_pending_frame_t) (realloc_ok : bool)
    : option (Z * cloak_stream_t) :=
  if st_max_pending_frames s <=? zlen (st_heap s) then Some (-1, s)
  else
    let '(rc, s) := if zlen (st_heap s) =? st_heap_cap s then heap_grow s realloc_ok
                    else (0, s) in
    if negb (rc =? 0) then Some (-1, s)
    else if st_heap_cap s <=? zlen (st_heap s) then None
    else
      h ← heap_insert (st_heap s) pf;
      Some (0, st_set_ordered s (st_recv_bytes s) (st_next_recv_seq s) h (st_heap_cap s)
                 (st_recv_closing_seen s)).

Definition heap_pop (s : cloak_stream_t) : option (cloak_pending_frame_t * cloak_stream_t) :=
  '(top, h) ← heap_extract (st_heap s);
  Some (top, st_set_ordered s (st_recv_bytes s) (st_next_recv_seq s) h (st_heap_cap s)
               (st_recv_closing_seen s)).

Definition heap_contains_seq (s : cloak_stream_t) (seq : Z) : bool :=
  heap_contains (st_heap s) seq.

(** The loop of [try_drain]. *)
Fixpoint try_drain_loop (fuel : nat) (s : cloak_stream_t) : option (Z * cloak_stream_t) :=
  match st_heap s with
  | [] => Some (0, s)
  | top :: _ =>
      if negb (pf_seq top =? st_next_recv_seq s) then Some (0, s)
      else match fuel with
      | O => None
      | S fuel' =>
          if negb (pf_closing top =? CLOAK_FRAME_CLOSING_NOTHING) then
            '(_, s) ← heap_pop s;
            Some (1, st_set_ordered s (cloak_bytequeue_close (st_recv_bytes s))
                       (st_next_recv_seq s) (st_heap s) (st_heap_cap s) true)
          else if cloak_bytequeue_free_space (st_recv_bytes s) <? pf_payload_len top
          then Some (0, s)
          else
            '(pf, s) ← heap_pop s;
            q ← (if 0 <? pf_payload_len pf
                 then p ← (pf_payload pf).[0 +: pf_payload_len pf];
                      '(_, q) ← cloak_bytequeue_write (st_recv_bytes s) p; Some q
                 else Some (st_recv_bytes s));
            try_drain_loop fuel'
              (st_set_ordered s q (u64 (st_next_recv_seq s + 1)) (st_heap s) (st_heap_cap s)
                 (st_recv_closing_seen s))
      end
  end.

Definition try_drain (s : cloak_stream_t) : option (Z * cloak_stream_t) :=
  try_drain_loop (S (length (st_heap s))) s.

(** ** The send side *)

Section send.
Context `{Evp} {W : Type}.

(** The sink, in its environment: what it returns and what it does. *)
Variable sink : bytes -> W -> Z * W.

(** Obfuscate one frame into the scratch buffer: [None] inside is -1. *)
Definition stream_seal (rfuel : nat) (s : cloak_stream_t) (frame : cloak_frame_t) (r : rand)
    : option (option (bytes * bytes) * rand) :=
  '(res, r) ← cloak_frame_obfuscate rfuel (st_obfuscator s) frame (st_write_buf s) 0 r;
  match res with
  | None => Some (None, r)
  | Some (written, buf) => msg ← buf.[0 +: written]; Some (Some (msg, buf), r)
  end.

(** The loop of [cloak_stream_write] from offset [n]. *)
Fixpoint stream_write_loop (fuel rfuel : nat) (s : cloak_stream_t) (input : bytes) (n : Z)
    (r : rand) (w : W) : option (Z * cloak_stream_t * rand * W) :=
  let in_len := zlen input in
  if negb (n <? in_len) then Some (in_len, s, r, w)
  else match fuel with
  | O => None
  | S fuel' =>
      let remaining := u64 (in_len - n) in
      let chunk := if remaining <=? st_max_payload_per_frame s then remaining
                   else st_max_payload_per_frame s in
      payload ← input.[n +: chunk];
      let frame := Frame (st_id s) (st_next_write_seq s) CLOAK_FRAME_CLOSING_NOTHING
                     payload chunk in
      '(res, r) ← stream_seal rfuel s frame r;
      match res with
      | None => Some (-1, st_set_send s (st_write_buf s) (st_next_write_seq s) true, r, w)
      | Some (msg, buf) =>
          let s := st_set_send s buf (u64 (st_next_write_seq s + 1)) (st_write_closed s) in
          let '(rc, w) := sink msg w in
          if negb (rc =? 0)
          then Some (-1, st_set_send s (st_write_buf s) (st_next_write_seq s) true, r, w)
          else stream_write_loop fuel' rfuel s input (u64 (n + chunk)) r w
      end
  end.

Definition cloak_stream_write (rfuel : nat) (s : cloak_stream_t) (input : bytes)
    (r : rand) (w : W) : option (Z * cloak_stream_t * rand * W) :=
  if st_write_closed s then Some (-1, s, r, w)
  else if (st_ordering s =? CLOAK_SESSION_ORDERING_UNORDERED) &&
          (st_max_payload_per_frame s <? zlen input)
  then Some (CLOAK_STREAM_ERR_SHORT_BUFFER, s, r, w)
  else stream_write_loop (length input) rfuel s input 0 r w.

Definition cloak_stream_send_closing (rfuel : nat) (s : cloak_stream_t) (closing_type : Z)
    (r : rand) (w : W) : option (Z * cloak_stream_t * rand * W) :=
  if st_write_closed s then Some (-1, s, r, w)
  else
    let '(len_bytes, r) := cloak_random_bytes 1 r in
    len_byte ← len_bytes.[0];
    let max_pad := if st_max_payload_per_frame s <? 256 then st_max_payload_per_frame s
                   else 256 in
    let pad_len := len_byte + 1 in
    let pad_len := if max_pad <? pad_len then max_pad else pad_len in
    let '(pad, r) := cloak_random_bytes pad_len r in
    let frame := Frame (st_id s) (st_next_write_seq s) closing_type pad pad_len in
    '(res, r) ← stream_seal rfuel s frame r;
    match res with
    | None => Some (-1, st_set_send s (st_write_buf s) (st_next_write_seq s) true, r, w)
    | Some (msg, buf) =>
        let s := st_set_send s buf (u64 (st_next_write_seq s + 1)) true in
        let '(rc, w) := sink msg w in
        Some (if negb (rc =? 0) then -1 else 0, s, r, w)
    end.

End send.

(** ** The receive side *)

Definition feed_frame_unordered (s : cloak_stream_t) (frame : cloak_frame_t)
    : option (Z * cloak_stream_t) :=
  if st_recv_closing_seen s then Some (1, s)
  else if negb (fr_closing frame =? CLOAK_FRAME_CLOSING_NOTHING)
  then Some (1, st_set_msgs s (cloak_msgqueue_close (st_recv_msgs s))
                  (st_recv_dropped_datagrams s) true)
  else
    payload ← (fr_payload frame).[0 +: fr_payload_len frame];
    '(rc, q) ← cloak_msgqueue_write (st_recv_msgs s) payload;
    let s := st_set_msgs s q (st_recv_dropped_datagrams s) (st_recv_closing_seen s) in
    if rc =? CLOAK_MSGQUEUE_ERR_TOO_LARGE then Some (-1, s)
    else if negb (rc =? 0)
    then Some (0, st_set_msgs s q (u64 (st_recv_dropped_datagrams s + 1))
                    (st_recv_closing_seen s))
    else Some (0, s).

Definition cloak_stream_feed_frame (s : cloak_stream_t) (frame : cloak_frame_t)
    (malloc_ok realloc_ok : bool) : option (Z * cloak_stream_t) :=
  if st_ordering s =? CLOAK_SESSION_ORDERING_UNORDERED then feed_frame_unordered s frame
  else if st_recv_closing_seen s then Some (-1, s)
  else if (fr_seq frame <? st_next_recv_seq s) || heap_contains_seq s (fr_seq frame)
  then Some (-1, s)
  else
    let recv_total_capacity :=
      u64 (cloak_bytequeue_len (st_recv_bytes s) +
           cloak_bytequeue_free_space (st_recv_bytes s)) in
    if recv_total_capacity <? fr_payload_len frame then Some (-1, s)
    else
      copy ← (if 0 <? fr_payload_len frame
              then if malloc_ok
                   then p ← (fr_payload frame).[0 +: fr_payload_len frame]; Some (Some p)
                   else Some None
              else Some (Some []));
      match copy with
      | None => Some (-1, s)
      | Some payload_copy =>
          let pf := Pending (fr_seq frame) (fr_closing frame) payload_copy
                      (fr_payload_len frame) in
          '(rc, s) ← heap_push s pf realloc_ok;
          if negb (rc =? 0) then Some (-1, s) else try_drain s
      end.

(** [cloak_stream_read]: the return value and the bytes put in [out]. *)
Definition cloak_stream_read (s : cloak_stream_t) (out_cap : Z)
    : option (Z * bytes * cloak_stream_t) :=
  if st_ordering s =? CLOAK_SESSION_ORDERING_UNORDERED then
    '(n, out, q) ← cloak_msgqueue_read (st_recv_msgs s) out_cap;
    let s := st_set_msgs s q (st_recv_dropped_datagrams s) (st_recv_closing_seen s) in
    if n =? CLOAK_MSGQUEUE_SHORT_BUFFER then Some (CLOAK_STREAM_ERR_SHORT_BUFFER, out, s)
    else if n =? CLOAK_MSGQUEUE_EMPTY
    then Some (if cloak_msgqueue_is_eof q then -1 else 0, out, s)
    else Some (n, out, s)
  else
    '(out, q) ← cloak_bytequeue_read (st_recv_bytes s) out_cap;
    let s := st_set_ordered s q (st_next_recv_seq s) (st_heap s) (st_heap_cap s)
               (st_recv_closing_seen s) in
    if 0 <? zlen out then '(_, s) ← try_drain s; Some (zlen out, out, s)
    else if cloak_bytequeue_is_eof q then Some (-1, out, s)
    else Some (0, out, s).

Definition cloak_stream_recv_available (s : cloak_stream_t) : Z :=
  if st_ordering s =? CLOAK_SESSION_ORDERING_UNORDERED
  then cloak_msgqueue_payload_bytes (st_recv_msgs s)
  else cloak_bytequeue_len (st_recv_bytes s).
