(* ===== verification/StreamSpec.v ===== *)
(** * What the receive side of a stream promises, and that it keeps it

    An ordered stream is a bounded FIFO fed from a finite map of pending
    frames; an unordered one is a mailbox with a drop counter.  [rx_refines]
    is the simulation between [Stream] and this contract. *)
From stdpp Require Import gmap.
From S2P Require Import Prelude Refinement Frame ByteQueue MsgQueue Heap Stream.

(** ** The contract *)

Record reorder := Reorder {
  ro_next : Z;
  ro_pending : gmap Z (Z * bytes);   (* closing flag and payload by sequence number *)
  ro_fifo : fifo;
  ro_max : Z;
  ro_seen : bool
}.

(** Move what is in turn and fits from the map to the FIFO; 1 when a closing
    frame was reached. *)
Fixpoint ro_drain (fuel : nat) (r : reorder) : Z * reorder :=
  match fuel, ro_pending r !! ro_next r with
  | S fuel', Some (closing, p) =>
      let rest := delete (ro_next r) (ro_pending r) in
      let f := ro_fifo r in
      if negb (closing =? CLOAK_FRAME_CLOSING_NOTHING)
      then (1, Reorder (ro_next r) rest (Fifo (f_cap f) (f_bytes f) true) (ro_max r) true)
      else if f_cap f - zlen (f_bytes f) <? zlen p then (0, r)
      else ro_drain fuel' (Reorder (u64 (ro_next r + 1)) rest (snd (fifo_write f p))
                             (ro_max r) (ro_seen r))
  | _, _ => (0, r)
  end.

Definition ro_drain_all (r : reorder) : Z * reorder := ro_drain (S (size (ro_pending r))) r.

Definition ro_feed (r : reorder) (f : cloak_frame_t) : Z * reorder :=
  if ro_seen r then (-1, r)
  else if (fr_seq f <? ro_next r) || bool_decide (is_Some (ro_pending r !! fr_seq f))
  then (-1, r)
  else if f_cap (ro_fifo r) <? zlen (fr_payload f) then (-1, r)
  else if ro_max r <=? Z.of_nat (size (ro_pending r)) then (-1, r)
  else ro_drain_all
         (Reorder (ro_next r) (<[fr_seq f := (fr_closing f, fr_payload f)]> (ro_pending r))
            (ro_fifo r) (ro_max r) (ro_seen r)).

Definition ro_read (r : reorder) (n : Z) : Z * bytes * reorder :=
  let '(out, f) := fifo_read (ro_fifo r) n in
  let r' := Reorder (ro_next r) (ro_pending r) f (ro_max r) (ro_seen r) in
  if 0 <? zlen out then (zlen out, out, snd (ro_drain_all r'))
  else if f_closed f && bool_decide (f_bytes f = []) then (-1, out, r')
  else (0, out, r').

Record datagrams := Datagrams { dg_box : mailbox; dg_dropped : Z; dg_seen : bool }.

Definition dg_feed (d : datagrams) (f : cloak_frame_t) : Z * datagrams :=
  let b := dg_box d in
  if dg_seen d then (1, d)
  else if negb (fr_closing f =? CLOAK_FRAME_CLOSING_NOTHING)
  then (1, Datagrams (Mailbox (mb_cap b) (mb_msgs b) true) (dg_dropped d) true)
  else
    let '(rc, b') := mailbox_write b (fr_payload f) in
    if rc =? 0 then (0, Datagrams b' (dg_dropped d) (dg_seen d))
    else if rc =? CLOAK_MSGQUEUE_ERR_TOO_LARGE then (-1, d)
    else (0, Datagrams b (u64 (dg_dropped d + 1)) (dg_seen d)).

Definition dg_read (d : datagrams) (n : Z) : Z * bytes * datagrams :=
  let '(rc, out, b) := mailbox_read (dg_box d) n in
  match mb_msgs (dg_box d) with
  | [] => (if mb_closed b then -1 else 0, [], d)
  | _ => (rc, out, Datagrams b (dg_dropped d) (dg_seen d))
  end.

Inductive rx := RxOrdered (r : reorder) | RxDatagrams (d : datagrams).

Inductive rx_op := RxFeed (f : cloak_frame_t) | RxRead (out_cap : Z).

Record rx_seen := RxSeen { rs_rc : Z; rs_out : bytes; rs_available : Z }.

Definition rx_available (x : rx) : Z :=
  match x with
  | RxOrdered r => zlen (f_bytes (ro_fifo r))
  | RxDatagrams d => payload_total (mb_msgs (dg_box d))
  end.

Definition rx_spec (o : rx_op) (x : rx) : rx_seen * rx :=
  let '(rc, out, x') :=
    match o, x with
    | RxFeed f, RxOrdered r => let '(rc, r') := ro_feed r f in (rc, [], RxOrdered r')
    | RxFeed f, RxDatagrams d => let '(rc, d') := dg_feed d f in (rc, [], RxDatagrams d')
    | RxRead n, RxOrdered r => let '(rc, out, r') := ro_read r n in (rc, out, RxOrdered r')
    | RxRead n, RxDatagrams d => let '(rc, out, d') := dg_read d n in (rc, out, RxDatagrams d')
    end in
  (RxSeen rc out (rx_available x'), x').

(** The program's operations, when the allocator delivers. *)
Definition rx_exec (o : rx_op) (s : cloak_stream_t) : option (rx_seen * cloak_stream_t) :=
  '(rc, out, s') ← match o with
    | RxFeed f => '(rc, s') ← cloak_stream_feed_frame s f true true; Some (rc, [], s')
    | RxRead n => cloak_stream_read s n
    end;
  Some (RxSeen rc out (cloak_stream_recv_available s'), s').

Definition rx_op_ok (o : rx_op) : Prop :=
  match o with
  | RxFeed f => fr_payload_len f = zlen (fr_payload f) /\ zlen (fr_payload f) <= INT64_MAX /\
                0 <= fr_seq f < 18446744073709551616
  | RxRead n => 0 <= n
  end.

(** ** The representation *)

Definition pf_entry (f : cloak_pending_frame_t) : Z * (Z * bytes) :=
  (pf_seq f, (pf_closing f, pf_payload f)).

Definition heap_map (h : list cloak_pending_frame_t) : gmap Z (Z * bytes) :=
  list_to_map (map pf_entry h).

#[global] Arguments heap_map : simpl never.

(** The heap of a stream that expects [next]. *)
Record heap_rep (h : list cloak_pending_frame_t) (next : Z) (m : gmap Z (Z * bytes)) : Prop := {
  hr_order : heap_ok h;
  hr_nodup : NoDup (map pf_seq h);
  hr_next : Forall (fun f => next <= pf_seq f < 18446744073709551616) h;
  hr_len : Forall (fun f => pf_payload_len f = zlen (pf_payload f) /\
                            zlen (pf_payload f) <= INT64_MAX) h;
  hr_map : m = heap_map h
}.

Record ro_rep (s : cloak_stream_t) (r : reorder) : Prop := {
  rr_ordering : st_ordering s = CLOAK_SESSION_ORDERING_ORDERED;
  rr_queue : bq_wf (st_recv_bytes s);
  rr_fifo : bq_abs (st_recv_bytes s) = ro_fifo r;
  rr_next : st_next_recv_seq s = ro_next r;
  rr_next_range : 0 <= ro_next r < 18446744073709551616;
  rr_heap : heap_rep (st_heap s) (ro_next r) (ro_pending r);
  rr_cap : zlen (st_heap s) <= st_heap_cap s <= st_max_pending_frames s;
  rr_max : st_max_pending_frames s = ro_max r;
  rr_max_range : 0 < ro_max r <= INT64_MAX / 32;
  rr_seen : st_recv_closing_seen s = ro_seen r
}.

Record dg_rep (s : cloak_stream_t) (d : datagrams) : Prop := {
  dr_ordering : st_ordering s = CLOAK_SESSION_ORDERING_UNORDERED;
  dr_queue : mq_represents (st_recv_msgs s) (dg_box d);
  dr_closed : mb_closed (dg_box d) = dg_seen d;
  dr_dropped : st_recv_dropped_datagrams s = dg_dropped d;
  dr_seen : st_recv_closing_seen s = dg_seen d
}.

Definition rx_rep (s : cloak_stream_t) (x : rx) : Prop :=
  match x with RxOrdered r => ro_rep s r | RxDatagrams d => dg_rep s d end.

(** ** The heap as a map *)

Lemma heap_map_fst h : (map pf_entry h).*1 = map pf_seq h.
Proof. induction h as [|f h IH]; cbn; [done|]. by rewrite IH. Qed.

Lemma heap_map_perm h h' : NoDup (map pf_seq h) -> h ≡ₚ h' -> heap_map h = heap_map h'.
Proof.
  intros Hn HP. apply list_to_map_proper; [by rewrite heap_map_fst|].
  by apply Permutation_map.
Qed.

Lemma heap_map_cons f h :
  heap_map (f :: h) = <[pf_seq f := (pf_closing f, pf_payload f)]> (heap_map h).
Proof. done. Qed.

Lemma heap_map_None h k : k ∉ map pf_seq h -> heap_map h !! k = None.
Proof. intros Hk. apply not_elem_of_list_to_map_1. by rewrite heap_map_fst. Qed.

Lemma heap_map_is_Some h k : is_Some (heap_map h !! k) <-> k ∈ map pf_seq h.
Proof.
  split.
  - intros [x Hx]. destruct (decide (k ∈ map pf_seq h)) as [|Hn]; [done|].
    by rewrite (heap_map_None h k Hn) in Hx.
  - intros Hk. destruct (heap_map h !! k) eqn:E; [by eexists|].
    apply not_elem_of_list_to_map_2 in E. by rewrite heap_map_fst in E.
Qed.

Lemma heap_map_size h : NoDup (map pf_seq h) -> size (heap_map h) = length h.
Proof.
  induction h as [|f h IH]; cbn; [intros; apply map_size_empty|].
  intros [Hn Hd]%NoDup_cons. rewrite heap_map_cons, map_size_insert_None.
  - by rewrite IH.
  - by apply heap_map_None.
Qed.

Lemma heap_rep_nil next : heap_rep [] next ∅.
Proof. split; try constructor. intros j Hj. unfold zlen in Hj; cbn in Hj. lia. Qed.

(** A frame that is in turn is the root. *)
Lemma heap_rep_next h next m :
  heap_rep h next m -> zlen h <= INT64_MAX / 32 ->
  match h with
  | [] => m !! next = None
  | top :: _ =>
      if pf_seq top =? next
      then m !! next = Some (pf_closing top, pf_payload top) else m !! next = None
  end.
Proof.
  intros [Ho Hn Hx _ ->] Hmax. destruct h as [|top h]; [done|].
  destruct (Z.eqb_spec (pf_seq top) next) as [<-|Hne].
  - rewrite heap_map_cons. apply lookup_insert_eq.
  - apply heap_map_None. intros (f & E & Hf)%list_elem_of_fmap.
    destruct (heap_extract_spec _ top h Ho eq_refl Hmax) as (_ & _ & _ & _ & Hmin).
    specialize (Hmin f Hf). apply Forall_cons in Hx as [Hx _]. lia.
Qed.

(** Removing the root. *)
Lemma heap_rep_pop top h next m :
  heap_rep (top :: h) next m -> pf_seq top = next -> zlen (top :: h) <= INT64_MAX / 32 ->
  exists h', heap_extract (top :: h) = Some (top, h') /\ zlen h' = zlen (top :: h) - 1 /\
    heap_rep h' (next + 1) (delete next m) /\
    pf_payload_len top = zlen (pf_payload top) /\ zlen (pf_payload top) <= INT64_MAX.
Proof.
  intros [Ho Hn Hx Hl ->] Htop Hmax.
  destruct (heap_extract_spec _ top h Ho eq_refl Hmax) as (h' & -> & HP & Ho' & Hmin).
  exists h'. split; [done|]. apply Permutation_cons_inv in HP.
  split; [unfold zlen; rewrite HP; cbn; lia|].
  apply NoDup_cons in Hn as [Hn1 Hn2]. apply Forall_cons in Hx as [Hx1 Hx2].
  apply Forall_cons in Hl as [Hl1 Hl2].
  assert (HPs : map pf_seq h' ≡ₚ map pf_seq h) by (by apply Permutation_map).
  split; [|done]. split.
  - done.
  - by rewrite HPs.
  - rewrite HP. apply Forall_forall. intros f Hf. pose proof (proj1 (Forall_forall _ _) Hx2 f Hf).
    assert (pf_seq f <> pf_seq top); [|cbn in *; lia].
    intros E. apply Hn1. rewrite <- E. by apply list_elem_of_fmap_2.
  - by rewrite HP.
  - rewrite heap_map_cons, Htop. rewrite delete_insert_eq.
    rewrite (heap_map_perm h' h); [|by rewrite HPs|done].
    apply delete_id. apply heap_map_None. by rewrite <- Htop.
Qed.

Lemma heap_rep_weaken h next next' m :
  heap_rep h next m -> next' <= next -> heap_rep h next' m.
Proof.
  intros [? ? Hx ? ?] ?. split; try done. eapply Forall_impl; [exact Hx|]. cbn. lia.
Qed.

(** Inserting a new frame. *)
Lemma heap_rep_push h next m f :
  heap_rep h next m -> next <= pf_seq f < 18446744073709551616 -> pf_seq f ∉ map pf_seq h ->
  pf_payload_len f = zlen (pf_payload f) /\ zlen (pf_payload f) <= INT64_MAX ->
  exists h', heap_insert h f = Some h' /\ zlen h' = zlen h + 1 /\
    heap_rep h' next (<[pf_seq f := (pf_closing f, pf_payload f)]> m).
Proof.
  intros [Ho Hn Hx Hl ->] Hs Hnew Hf.
  destruct (heap_insert_spec h f Ho) as (h' & -> & HP & Ho'). exists h'. split; [done|].
  split; [unfold zlen; rewrite HP; cbn; lia|].
  assert (HPs : map pf_seq h' ≡ₚ map pf_seq (f :: h)) by (by apply Permutation_map).
  split.
  - done.
  - rewrite HPs. cbn. by apply NoDup_cons.
  - rewrite HP. by apply Forall_cons.
  - rewrite HP. by apply Forall_cons.
  - rewrite <- heap_map_cons. symmetry. apply heap_map_perm; [by rewrite HPs; apply NoDup_cons|done].
Qed.

(** ** Draining *)

Lemma u64_le x : 0 <= x -> u64 x <= x.
Proof. intros. by apply Z.mod_le. Qed.

Lemma heap_rep_size h next m : heap_rep h next m -> size m = length h.
Proof. intros [_ Hn _ _ ->]. by apply heap_map_size. Qed.

Lemma fifo_free_space q f :
  bq_wf q -> bq_abs q = f ->
  cloak_bytequeue_free_space q = f_cap f - zlen (f_bytes f) /\ f_cap f = bq_cap q.
Proof.
  intros H <-. destruct (bytequeue_observe_spec q H) as (_ & -> & _). done.
Qed.

(** One element that is not a closing frame and fits. *)
Lemma write_pending_spec q pf :
  bq_wf q -> pf_payload_len pf = zlen (pf_payload pf) -> zlen (pf_payload pf) <= INT64_MAX ->
  exists q',
    (if 0 <? pf_payload_len pf
     then p ← (pf_payload pf).[0 +: pf_payload_len pf];
          '(_, q) ← cloak_bytequeue_write q p; Some q
     else Some q) = Some q' /\ bq_wf q' /\
    bq_abs q' = snd (fifo_write (bq_abs q) (pf_payload pf)).
Proof.
  intros Hq Hl Hm. rewrite Hl. unfold INT64_MAX in Hm.
  destruct (Z.ltb_spec 0 (zlen (pf_payload pf))).
  - rewrite mem_read_all by done. cbn [mbind option_bind].
    destruct (bytequeue_write_spec q (pf_payload pf) Hq) as (n & q' & -> & Hq' & ->);
      [unfold SIZE_MAX; lia|].
    cbn [mbind option_bind]. by exists q'.
  - exists q. split_and!; [done..|]. rewrite (zlen_zero (pf_payload pf)) by zlia.
    unfold fifo_write. destruct (_ || _); [done|]. cbn. by rewrite app_nil_r.
Qed.

Lemma try_drain_loop_rep fuel s r :
  ro_rep s r -> (length (st_heap s) < fuel)%nat ->
  exists rc s' r', try_drain_loop fuel s = Some (rc, s') /\ ro_drain fuel r = (rc, r') /\
    ro_rep s' r'.
Proof.
  revert s r. induction fuel as [|fuel IH]; intros s r H Hf; [lia|].
  pose proof H as [Hord Hq Hfi Hnx Hnr Hh Hcap Hmx Hmr Hse].
  assert (Hlen : zlen (st_heap s) <= INT64_MAX / 32) by lia.
  pose proof (heap_rep_next _ _ _ Hh Hlen) as Hhead.
  cbn [try_drain_loop ro_drain]. destruct (st_heap s) as [|top h] eqn:Eh.
  { rewrite Hhead. by exists 0, s, r. }
  rewrite Hnx. destruct (Z.eqb_spec (pf_seq top) (ro_next r)) as [Etop|]; cbn [negb].
  2: { rewrite Hhead. by exists 0, s, r. }
  rewrite Hhead. destruct (heap_rep_pop _ _ _ _ Hh Etop Hlen)
    as (h' & Hex & Hl' & Hh' & Hpl & Hpm).
  assert (Hw : u64 (ro_next r + 1) <= ro_next r + 1) by (apply u64_le; lia).
  unfold heap_pop. rewrite Eh, Hex. cbn [mbind option_bind].
  destruct (negb (pf_closing top =? CLOAK_FRAME_CLOSING_NOTHING)).
  - do 3 eexists; split_and!; [done..|]. destruct (bytequeue_close_spec _ Hq) as [Hq' Ha'].
    split; cbn; try done.
    + by rewrite Ha', Hfi.
    + eapply heap_rep_weaken; [done|lia].
    + lia.
  - destruct (fifo_free_space _ _ Hq Hfi) as [-> _]. rewrite Hpl.
    case_if; [by exists 0, s, r|]. rewrite <- Hpl. cbn [st_recv_bytes st_set_ordered].
    destruct (write_pending_spec _ _ Hq Hpl Hpm) as (q' & -> & Hq' & Ha'). cbn [mbind option_bind].
    apply IH.
    + split; cbn; try done.
      * by rewrite Ha', Hfi.
      * by rewrite Hnx.
      * apply u64_range.
      * eapply heap_rep_weaken; [done|lia].
      * lia.
    + cbn. unfold zlen in Hl'. cbn in Hl', Hf. lia.
Qed.

Lemma try_drain_rep s r :
  ro_rep s r ->
  exists rc s' r', try_drain s = Some (rc, s') /\ ro_drain_all r = (rc, r') /\ ro_rep s' r'.
Proof.
  intros H. unfold try_drain, ro_drain_all. rewrite (heap_rep_size _ _ _ (rr_heap _ _ H)).
  apply try_drain_loop_rep; [done|lia].
Qed.

(** ** Feeding and reading *)

Lemma heap_push_rep s r f :
  ro_rep s r -> ro_next r <= pf_seq f < 18446744073709551616 ->
  pf_seq f ∉ map pf_seq (st_heap s) ->
  pf_payload_len f = zlen (pf_payload f) /\ zlen (pf_payload f) <= INT64_MAX ->
  if ro_max r <=? Z.of_nat (size (ro_pending r)) then heap_push s f true = Some (-1, s)
  else exists s', heap_push s f true = Some (0, s') /\
    ro_rep s' (Reorder (ro_next r) (<[pf_seq f := (pf_closing f, pf_payload f)]> (ro_pending r))
                 (ro_fifo r) (ro_max r) (ro_seen r)).
Proof.
  intros [Hord Hq Hfi Hnx Hnr Hh Hcap Hmx Hmr Hse] Hs Hnew Hl.
  change (INT64_MAX / 32) with 288230376151711743 in Hmr.
  unfold heap_push. rewrite (heap_rep_size _ _ _ Hh), Hmx. fold (zlen (st_heap s)).
  case_if; [done|].
  destruct (heap_rep_push _ _ _ _ Hh Hs Hnew Hl) as (h' & Hins & Hl' & Hh').
  destruct (Z.eqb_spec (zlen (st_heap s)) (st_heap_cap s)) as [Ecap|].
  - unfold heap_grow. cbn [negb]. rewrite Hmx. pose proof (zlen_nonneg (st_heap s)).
    set (c1 := if st_heap_cap s =? 0 then 8 else u64 (st_heap_cap s * 2)).
    set (c2 := if ro_max r <? c1 then ro_max r else c1).
    assert (Hc2 : zlen (st_heap s) < c2 <= ro_max r).
    { unfold c2. assert (zlen (st_heap s) < c1).
      { unfold c1. destruct (Z.eqb_spec (st_heap_cap s) 0); [lia|]. usimpl. lia. }
      destruct (Z.ltb_spec (ro_max r) c1); lia. }
    cbn [Z.eqb negb st_heap_cap st_heap st_set_ordered]. decide_cmp.
    rewrite Hins. cbn [mbind option_bind]. eexists; split; [done|]. split; cbn; try done. lia.
  - cbn [Z.eqb negb]. decide_cmp. rewrite Hins. cbn [mbind option_bind].
    eexists; split; [done|]. split; cbn; try done. lia.
Qed.

Lemma feed_ordered_rep s r f :
  ro_rep s r -> rx_op_ok (RxFeed f) ->
  exists rc s' r', cloak_stream_feed_frame s f true true = Some (rc, s') /\
    ro_feed r f = (rc, r') /\ ro_rep s' r'.
Proof.
  intros H (Hl & Hm & Hs). pose proof H as [Hord Hq Hfi Hnx Hnr Hh Hcap Hmx Hmr Hse].
  unfold cloak_stream_feed_frame, ro_feed. rewrite Hord. cbn [Z.eqb].
  replace (CLOAK_SESSION_ORDERING_ORDERED =? CLOAK_SESSION_ORDERING_UNORDERED) with false by done.
  rewrite Hse. destruct (ro_seen r) eqn:Eseen; [by exists (-1), s, r|].
  rewrite Hnx. unfold heap_contains_seq.
  replace (heap_contains (st_heap s) (fr_seq f))
    with (bool_decide (is_Some (ro_pending r !! fr_seq f))).
  2: { rewrite (hr_map _ _ _ Hh). apply eq_true_iff_eq.
       rewrite bool_decide_eq_true, heap_map_is_Some, heap_contains_spec. done. }
  destruct (_ || _) eqn:Edup; [by exists (-1), s, r|].
  apply orb_false_iff in Edup as [Elt Enew]. apply Z.ltb_ge in Elt.
  apply bool_decide_eq_false in Enew. rewrite (hr_map _ _ _ Hh), heap_map_is_Some in Enew.
  destruct (fifo_free_space _ _ Hq Hfi) as [Efree Ecap].
  destruct (bytequeue_observe_spec _ Hq) as (-> & _ & _). rewrite Efree, Hfi.
  replace (zlen (f_bytes (ro_fifo r)) + (f_cap (ro_fifo r) - zlen (f_bytes (ro_fifo r))))
    with (f_cap (ro_fifo r)) by lia.
  pose proof (bqw_cap _ Hq) as Hqc. unfold INT64_MAX in Hqc. rewrite <- Ecap in Hqc. usimpl.
  rewrite Hl. case_if; [by exists (-1), s, r|].
  replace (if 0 <? zlen (fr_payload f)
           then p ← (fr_payload f).[0 +: zlen (fr_payload f)]; Some (Some p)
           else Some (Some [])) with (Some (Some (fr_payload f))).
  2: { destruct (Z.ltb_spec 0 (zlen (fr_payload f))).
       - by rewrite mem_read_all.
       - by rewrite (zlen_zero (fr_payload f)) by zlia. }
  cbn [mbind option_bind].
  pose proof (heap_push_rep s r
    (Pending (fr_seq f) (fr_closing f) (fr_payload f) (zlen (fr_payload f))) H) as Hp.
  cbn [pf_seq pf_closing pf_payload pf_payload_len] in Hp.
  specialize (Hp ltac:(lia) Enew (conj eq_refl Hm)).
  destruct (_ <=? _).
  - rewrite Hp. by exists (-1), s, r.
  - destruct Hp as (s1 & -> & H1). cbn [mbind option_bind Z.eqb negb].
    rewrite <- Eseen. by apply try_drain_rep.
Qed.

Lemma read_ordered_rep s r n :
  ro_rep s r -> 0 <= n ->
  exists rc out s' r', cloak_stream_read s n = Some (rc, out, s') /\
    ro_read r n = (rc, out, r') /\ ro_rep s' r'.
Proof.
  intros H Hn. pose proof H as [Hord Hq Hfi Hnx Hnr Hh Hcap Hmx Hmr Hse].
  unfold cloak_stream_read, ro_read. rewrite Hord.
  replace (CLOAK_SESSION_ORDERING_ORDERED =? CLOAK_SESSION_ORDERING_UNORDERED) with false by done.
  destruct (bytequeue_read_spec _ n Hq Hn) as (out & q' & -> & Hq' & Hr).
  rewrite Hfi in Hr. rewrite Hr. cbn [mbind option_bind].
  assert (H1 : ro_rep (st_set_ordered s q' (st_next_recv_seq s) (st_heap s) (st_heap_cap s)
                         (st_recv_closing_seen s))
                 (Reorder (ro_next r) (ro_pending r) (bq_abs q') (ro_max r) (ro_seen r)))
    by (by split).
  destruct (0 <? zlen out).
  - destruct (try_drain_rep _ _ H1) as (rc & s2 & r2 & -> & -> & H2). cbn [mbind option_bind snd].
    by exists (zlen out), out, s2, r2.
  - destruct (bytequeue_observe_spec _ Hq') as (_ & _ & ->).
    destruct (f_closed _ && _); by do 4 eexists.
Qed.

Lemma mailbox_write_closed b m : mb_closed (snd (mailbox_write b m)) = mb_closed b.
Proof. unfold mailbox_write. by repeat case_match. Qed.

Lemma feed_unordered_rep s d f :
  dg_rep s d -> rx_op_ok (RxFeed f) ->
  exists rc s' d', cloak_stream_feed_frame s f true true = Some (rc, s') /\
    dg_feed d f = (rc, d') /\ dg_rep s' d'.
Proof.
  intros H (Hl & Hm & _). pose proof H as [Hord (ms & Hq & Hb) Hcl Hdr Hse].
  unfold INT64_MAX in Hm.
  unfold cloak_stream_feed_frame, feed_frame_unordered, dg_feed. rewrite Hord, Hse.
  cbn [Z.eqb]. replace (CLOAK_SESSION_ORDERING_UNORDERED =? _) with true by done.
  destruct (dg_seen d) eqn:Eseen; [by exists 1, s, d|].
  destruct (negb (fr_closing f =? _)).
  - do 3 eexists; split_and!; [done..|]. split; cbn; try done.
    exists ms. split; [by apply mq_rep_close|]. rewrite Hb. done.
  - rewrite Hl, mem_read_all by done. cbn [mbind option_bind].
    destruct (msgqueue_write_spec _ _ (fr_payload f) Hq)
      as (rc & q' & ms' & -> & Hq' & Hw); [unfold SIZE_MAX; lia|].
    rewrite Hb, Hw. cbn [mbind option_bind].
    assert (Hno : rc <> 0 -> mq_abs q' ms' = mq_abs (st_recv_msgs s) ms).
    { unfold mailbox_write in Hw. repeat case_match; congruence. }
    assert (Hclosed : mq_closed q' = mq_closed (st_recv_msgs s)).
    { pose proof (mailbox_write_closed (mq_abs (st_recv_msgs s) ms) (fr_payload f)) as E.
      by rewrite Hw in E. }
    pose proof Hcl as Hcl'. rewrite Hb in Hcl'. cbn in Hcl'.
    destruct (Z.eqb_spec rc 0) as [->|Hrc]; cbn [Z.eqb negb].
    + do 3 eexists; split_and!; [done..|]. split; cbn; try done; [by exists ms'|congruence].
    + rewrite <- (Hno Hrc). destruct (rc =? _).
      * do 3 eexists; split_and!; [done..|]. split; cbn; try done; try congruence.
        exists ms'. split; [done|]. rewrite (Hno Hrc). congruence.
      * do 3 eexists; split_and!; [done..|]. split; cbn; try done; try congruence.
        by exists ms'.
Qed.

Lemma read_unordered_rep s d n :
  dg_rep s d ->
  exists rc out s' d', cloak_stream_read s n = Some (rc, out, s') /\
    dg_read d n = (rc, out, d') /\ dg_rep s' d'.
Proof.
  intros H. pose proof H as [Hord (ms & Hq & Hb) Hcl Hdr Hse].
  unfold cloak_stream_read, dg_read. rewrite Hord.
  replace (CLOAK_SESSION_ORDERING_UNORDERED =? CLOAK_SESSION_ORDERING_UNORDERED) with true by done.
  destruct (msgqueue_read_spec _ _ n Hq) as (rc & out & q' & ms' & -> & Hq' & Hr).
  pose proof (mq_count_zero _ _ Hq') as Hempty.
  rewrite Hb, Hr. cbn [mbind option_bind]. unfold cloak_msgqueue_is_eof. rewrite Hempty.
  pose proof Hcl as Hcl'. rewrite Hb in Hcl'. cbn in Hcl'.
  unfold mailbox_read in Hr. cbn [mq_abs mb_msgs mb_closed] in *. destruct ms as [|m ms].
  - injection Hr as <- <- Hcap Hms Hcl1. subst ms'. rewrite Z.eqb_refl.
    replace (CLOAK_MSGQUEUE_EMPTY =? CLOAK_MSGQUEUE_SHORT_BUFFER) with false by done.
    rewrite bool_decide_true, andb_true_r by done.
    do 4 eexists; split_and!; [done|done|]. split; cbn; try done; try congruence.
    exists []. split; [done|]. rewrite Hb. unfold mq_abs. congruence.
  - destruct (Z.ltb_spec n (zlen m)).
    + injection Hr as <- <- Hcap Hms Hcl1. rewrite Z.eqb_refl.
      do 4 eexists; split_and!; [done|done|]. split; cbn; try done; try congruence.
      exists ms'. split; [done|]. unfold mq_abs. congruence.
    + injection Hr as <- <- Hcap Hms Hcl1. pose proof (zlen_nonneg m).
      unfold CLOAK_MSGQUEUE_SHORT_BUFFER, CLOAK_MSGQUEUE_EMPTY. decide_cmp.
      do 4 eexists; split_and!; [done|done|]. split; cbn; try done; try congruence.
      exists ms'. split; [done|]. unfold mq_abs. congruence.
Qed.

(** ** The refinement *)

Lemma rx_available_rep s x : rx_rep s x -> cloak_stream_recv_available s = rx_available x.
Proof.
  destruct x as [r|d]; cbn [rx_rep rx_available]; unfold cloak_stream_recv_available.
  - intros []. rewrite rr_ordering0.
    replace (CLOAK_SESSION_ORDERING_ORDERED =? _) with false by done.
    destruct (bytequeue_observe_spec _ rr_queue0) as (-> & _ & _). by rewrite rr_fifo0.
  - intros [Hord (ms & Hq & Hb) _ _ _]. rewrite Hord, Hb.
    replace (CLOAK_SESSION_ORDERING_UNORDERED =? _) with true by done. apply (mqr_payload _ _ Hq).
Qed.

#[export] Instance rx_refines : Refines rx_exec rx_spec rx_op_ok rx_rep.
Proof.
  intros o s x Hx Ho. unfold rx_exec, rx_spec.
  assert (Hsim : exists rc out s' x',
    match o with
    | RxFeed f => '(rc, s') ← cloak_stream_feed_frame s f true true; Some (rc, [], s')
    | RxRead n => cloak_stream_read s n
    end = Some (rc, out, s') /\ rx_rep s' x' /\
    match o, x with
    | RxFeed f, RxOrdered r => let '(rc, r') := ro_feed r f in (rc, [], RxOrdered r')
    | RxFeed f, RxDatagrams d => let '(rc, d') := dg_feed d f in (rc, [], RxDatagrams d')
    | RxRead n, RxOrdered r => let '(rc, out, r') := ro_read r n in (rc, out, RxOrdered r')
    | RxRead n, RxDatagrams d => let '(rc, out, d') := dg_read d n in (rc, out, RxDatagrams d')
    end = (rc, out, x')).
  { destruct o as [f|n], x as [r|d]; cbn [rx_rep] in Hx.
    - destruct (feed_ordered_rep s r f Hx Ho) as (rc & s' & r' & -> & -> & H').
      by exists rc, [], s', (RxOrdered r').
    - destruct (feed_unordered_rep s d f Hx Ho) as (rc & s' & d' & -> & -> & H').
      by exists rc, [], s', (RxDatagrams d').
    - destruct (read_ordered_rep s r n Hx Ho) as (rc & out & s' & r' & -> & -> & H').
      by exists rc, out, s', (RxOrdered r').
    - destruct (read_unordered_rep s d n Hx) as (rc & out & s' & d' & -> & -> & H').
      by exists rc, out, s', (RxDatagrams d'). }
  destruct Hsim as (rc & out & s' & x' & -> & H' & ->). cbn [mbind option_bind].
  do 3 eexists; split_and!; [done|exact H'|]. by rewrite (rx_available_rep s' x' H').
Qed.

(** What a fresh stream promises. *)
Definition rx_fresh (ordering recv_capacity max_pending : Z) : rx :=
  if ordering =? CLOAK_SESSION_ORDERING_UNORDERED
  then RxDatagrams (Datagrams (Mailbox recv_capacity [] false) 0 false)
  else RxOrdered (Reorder 0 ∅ (Fifo recv_capacity [] false)
                    (if 0 <? max_pending then max_pending else 1) false).

(** [cloak_stream_init] with parameters it accepts establishes the contract. *)
Lemma stream_init_rep id o max_on_wire cap pend ordering buf mem :
  ordering = CLOAK_SESSION_ORDERING_ORDERED \/ ordering = CLOAK_SESSION_ORDERING_UNORDERED ->
  CLOAK_FRAME_HEADER_LEN + CLOAK_FRAME_MAX_EXTRA_LEN < max_on_wire <= INT64_MAX ->
  max_on_wire - CLOAK_FRAME_HEADER_LEN <= cap <= INT64_MAX ->
  0 <= pend <= INT64_MAX / 32 -> zlen buf = max_on_wire -> zlen mem = cap ->
  exists s, cloak_stream_init id o max_on_wire cap pend ordering false (Some buf) (Some mem)
            = (0, s) /\ rx_rep s (rx_fresh ordering cap pend) /\
    st_id s = id /\ st_obfuscator s = o /\ st_write_buf s = buf /\ st_next_write_seq s = 0 /\
    st_write_closed s = false /\ st_ordering s = ordering /\
    st_max_payload_per_frame s = max_on_wire - CLOAK_FRAME_HEADER_LEN - CLOAK_FRAME_MAX_EXTRA_LEN.
Proof.
  unfold CLOAK_FRAME_HEADER_LEN, CLOAK_FRAME_MAX_EXTRA_LEN, INT64_MAX.
  change (9223372036854775807 / 32) with 288230376151711743.
  intros Hor Hw Hc Hp Hb Hm. unfold cloak_stream_init, rx_fresh.
  unfold CLOAK_FRAME_HEADER_LEN, CLOAK_FRAME_MAX_EXTRA_LEN. usimpl. decide_cmp.
  destruct Hor as [-> | ->]; cbn [andb orb negb].
  - pose proof (bytequeue_init_spec (st_recv_bytes stream_zero) cap mem) as Hi.
    unfold INT64_MAX in Hi. specialize (Hi ltac:(lia) Hm).
    replace (CLOAK_SESSION_ORDERING_ORDERED =? CLOAK_SESSION_ORDERING_UNORDERED) with false by done.
    replace (CLOAK_SESSION_ORDERING_ORDERED =? CLOAK_SESSION_ORDERING_ORDERED) with true by done.
    destruct (cloak_bytequeue_init _ cap (Some mem)) as [rc q]. destruct Hi as (-> & Hq & Ha).
    cbn [negb andb Z.eqb]. eexists; split; [done|]. split; [|cbn; split_and!; done || lia].
    split; cbn; try done; try (change (INT64_MAX / 32) with 288230376151711743).
    + apply heap_rep_nil.
    + unfold zlen; cbn. destruct (0 <? pend) eqn:E; bool_hyps; lia.
    + destruct (0 <? pend) eqn:E; bool_hyps; lia.
  - pose proof (msgqueue_init_spec (st_recv_msgs stream_zero) cap mem) as Hi.
    unfold INT64_MAX in Hi. specialize (Hi ltac:(lia) Hm).
    replace (CLOAK_SESSION_ORDERING_UNORDERED =? CLOAK_SESSION_ORDERING_UNORDERED) with true by done.
    replace (CLOAK_SESSION_ORDERING_UNORDERED =? CLOAK_SESSION_ORDERING_ORDERED) with false by done.
    destruct (cloak_msgqueue_init _ cap (Some mem)) as [rc q]. destruct Hi as (-> & Hq & Ha).
    cbn [negb andb Z.eqb]. eexists; split; [done|]. split; [|cbn; split_and!; done || lia].
    split; cbn; try done. by exists [].
Qed.

(** ** Properties *)

(** Refinement of the receive side.  A freshly initialised stream, given
    any sequence of frames (in any order, with duplicates, closing frames and
    oversize payloads among them) and reads, never makes an invalid access and
    shows its caller exactly what the contract shows: for an ordered stream
    the frames sorted by sequence number into a bounded FIFO with every
    protocol violation refused, for an unordered one a mailbox that keeps
    datagram boundaries and drops, and counts, what does not fit. *)
Theorem stream_receive_refines id o max_on_wire cap pend ordering buf mem ops :
  ordering = CLOAK_SESSION_ORDERING_ORDERED \/ ordering = CLOAK_SESSION_ORDERING_UNORDERED ->
  CLOAK_FRAME_HEADER_LEN + CLOAK_FRAME_MAX_EXTRA_LEN < max_on_wire <= INT64_MAX ->
  max_on_wire - CLOAK_FRAME_HEADER_LEN <= cap <= INT64_MAX ->
  0 <= pend <= INT64_MAX / 32 -> zlen buf = max_on_wire -> zlen mem = cap ->
  Forall rx_op_ok ops ->
  exists s0 seen s x,
    cloak_stream_init id o max_on_wire cap pend ordering false (Some buf) (Some mem) = (0, s0) /\
    run rx_exec ops s0 = Some (seen, s) /\ rx_rep s x /\
    spec_run rx_spec ops (rx_fresh ordering cap pend) = (seen, x).
Proof.
  intros Hor Hw Hc Hp Hb Hm Hops.
  destruct (stream_init_rep id o max_on_wire cap pend ordering buf mem)
    as (s0 & E0 & H0 & _); [done..|].
  destruct (run_refines rx_exec rx_spec rx_op_ok rx_rep ops s0 _ H0 Hops)
    as (seen & s & x & E & H & F).
  by exists s0, seen, s, x.
Qed.

Definition demo_data (seq : Z) (payload : bytes) : cloak_frame_t :=
  Frame 1 seq CLOAK_FRAME_CLOSING_NOTHING payload (zlen payload).

Definition demo_rx_ops : list rx_op :=
  [RxFeed (demo_data 2 [5; 6]); RxFeed (demo_data 0 [1; 2]); RxFeed (demo_data 2 [9]);
   RxRead 10; RxFeed (Frame 1 3 1 [0] 1); RxFeed (demo_data 1 [3; 4]); RxRead 3; RxRead 9;
   RxRead 9].

Lemma demo_rx_ops_ok : Forall rx_op_ok demo_rx_ops.
Proof. repeat (apply Forall_cons; split; [by cbv; repeat split|]). done. Qed.

Lemma stream_receive_refines_witness :
  exists s0 seen s x,
    cloak_stream_init 1 (Obfuscator 0 []) 270 300 4 CLOAK_SESSION_ORDERING_ORDERED false
      (Some (replicate 270 0)) (Some (replicate 300 0)) = (0, s0) /\
    run rx_exec demo_rx_ops s0 = Some (seen, s) /\ rx_rep s x /\
    spec_run rx_spec demo_rx_ops (rx_fresh CLOAK_SESSION_ORDERING_ORDERED 300 4) = (seen, x).
Proof.
  apply stream_receive_refines; unfold INT64_MAX, CLOAK_FRAME_HEADER_LEN,
    CLOAK_FRAME_MAX_EXTRA_LEN; try rewrite zlen_replicate; try lia; [by vm_compute|].
  apply demo_rx_ops_ok.
Defined.

(** The same run, evaluated: the duplicate is refused, the bytes come out in
    order, the closing frame in turn ends the stream. *)
Example stream_receive_run :
  fst <$> run rx_exec demo_rx_ops
    (snd (cloak_stream_init 1 (Obfuscator 0 []) 270 300 4 CLOAK_SESSION_ORDERING_ORDERED false
            (Some (replicate 270 0)) (Some (replicate 300 0))))
  = Some [RxSeen 0 [] 0; RxSeen 0 [] 2; RxSeen (-1) [] 2; RxSeen 2 [1; 2] 0; RxSeen 0 [] 0;
          RxSeen 1 [] 4; RxSeen 3 [3; 4; 5] 1; RxSeen 1 [6] 0; RxSeen (-1) [] 0].
Proof. by vm_compute. Qed.
