(* ===== verification/StreamDelivery.v ===== *)
(** * Delivery: frames in any order come out as the sender's bytes

    The invariant of an ordered receiver that is fed, in any order and
    interleaved with reads, frames of one sender; and the theorems that follow
    for the program through the refinement of [StreamSpec]. *)
From stdpp Require Import gmap fin_maps.
From S2P Require Import Prelude Refinement Random Salsa20 Aead Frame.
From S2P Require Import ByteQueue MsgQueue Heap Stream StreamSpec.

(** ** The sender's frames *)

(** Data payloads in sequence, then possibly one closing frame. *)
Definition sent_frames (ps : list bytes) (cl : option (Z * bytes)) : list (Z * bytes) :=
  map (pair CLOAK_FRAME_CLOSING_NOTHING) ps ++ option_list cl.

Definition closing_ok (cl : option (Z * bytes)) : Prop :=
  match cl with Some (c, _) => c <> CLOAK_FRAME_CLOSING_NOTHING | None => True end.

(** Frame number [k] of the sender. *)
Definition is_sent (ps : list bytes) (cl : option (Z * bytes)) (f : cloak_frame_t) : Prop :=
  (sent_frames ps cl).[fr_seq f] = Some (fr_closing f, fr_payload f).

Section delivery.
Context (ps : list bytes) (cl : option (Z * bytes)) (cap : Z).
Hypothesis Hcl : closing_ok cl.
Hypothesis Hnum : zlen ps < 18446744073709551615.

(** What holds while some frames are accepted and the reader has [out]. *)
Record delivering (fed : gset Z) (out : bytes) (r : reorder) : Prop := {
  dv_next : 0 <= ro_next r <= zlen ps;
  dv_bytes : out ++ f_bytes (ro_fifo r) = concat (take (Z.to_nat (ro_next r)) ps);
  dv_pending : forall k c p, ro_pending r !! k = Some (c, p) ->
    ro_next r <= k /\ (sent_frames ps cl).[k] = Some (c, p) /\ zlen p <= cap;
  dv_fed : forall k, k ∈ fed <->
    0 <= k < ro_next r \/ is_Some (ro_pending r !! k) \/ (ro_seen r = true /\ k = zlen ps);
  dv_seen : ro_seen r = true -> ro_next r = zlen ps;
  dv_closed : f_closed (ro_fifo r) = ro_seen r;
  dv_cap : f_cap (ro_fifo r) = cap;
  dv_room : zlen (f_bytes (ro_fifo r)) <= cap
}.

(** Nothing that is in turn and fits is left waiting. *)
Definition drained (r : reorder) : Prop :=
  forall c p, ro_pending r !! ro_next r = Some (c, p) ->
    c = CLOAK_FRAME_CLOSING_NOTHING /\ cap < zlen (f_bytes (ro_fifo r)) + zlen p.

Lemma sent_data k : 0 <= k < zlen ps -> exists p, ps !! Z.to_nat k = Some p /\
  (sent_frames ps cl).[k] = Some (CLOAK_FRAME_CLOSING_NOTHING, p).
Proof.
  intros Hk. destruct (lookup_lt_is_Some_2 ps (Z.to_nat k)) as [p Hp]; [unfold zlen in *; lia|].
  exists p. split; [done|]. unfold sent_frames.
  rewrite mem_get_lookup, lookup_app_l by (rewrite ?length_map; unfold zlen in *; lia).
  rewrite list_lookup_fmap, Hp. done.
Qed.

Lemma sent_closing k c p :
  (sent_frames ps cl).[k] = Some (c, p) -> 0 <= k <= zlen ps /\
  (c <> CLOAK_FRAME_CLOSING_NOTHING -> k = zlen ps) /\
  (k = zlen ps -> c <> CLOAK_FRAME_CLOSING_NOTHING).
Proof.
  intros Hk. destruct (mem_get_inv _ _ _ Hk) as [Hr Hl]. unfold sent_frames in *.
  assert (zlen (map (pair CLOAK_FRAME_CLOSING_NOTHING) ps) = zlen ps)
    by (unfold zlen; by rewrite length_map).
  assert (zlen (option_list cl) <= 1) by (destruct cl; cbn; unfold zlen; cbn; lia).
  split; [rewrite zlen_app in Hr; lia|].
  destruct (Z.lt_ge_cases k (zlen ps)).
  - rewrite lookup_app_l in Hl by (rewrite length_map; unfold zlen in *; lia).
    apply list_lookup_fmap_Some in Hl as (x & ? & _). simplify_eq. split; [done|lia].
  - split; [rewrite zlen_app in Hr; lia|]. intros ->.
    rewrite lookup_app_r in Hl by (rewrite length_map; unfold zlen in *; lia).
    replace (Z.to_nat (zlen ps) - _)%nat with 0%nat in Hl
      by (rewrite length_map; unfold zlen; lia).
    destruct cl as [[c' p']|]; cbn in Hl; [|done]. by injection Hl as -> ->.
Qed.

(** One step of the drain keeps the invariant. *)
Lemma ro_drain_delivering fuel fed out r :
  delivering fed out r -> (size (ro_pending r) < fuel)%nat ->
  exists rc r', ro_drain fuel r = (rc, r') /\ rc <> -1 /\ delivering fed out r' /\ drained r' /\
    ro_max r' = ro_max r.
Proof.
  revert r. induction fuel as [|fuel IH]; intros r H Hf; [lia|]. cbn [ro_drain].
  destruct (ro_pending r !! ro_next r) as [[c p]|] eqn:Ep.
  2: { exists 0, r. split_and!; [done|done|done| |done]. intros c p. congruence. }
  pose proof H as [Hnx Hb Hp Hfed Hs Hc Hcap Hroom].
  destruct (Hp _ _ _ Ep) as (_ & Hsent & Hpl). rewrite Hcap.
  destruct (sent_closing _ _ _ Hsent) as (Hkr & Hk1 & Hk2).
  assert (Hdel : forall k, k <> ro_next r ->
            delete (ro_next r) (ro_pending r) !! k = ro_pending r !! k)
    by (intros; by apply lookup_delete_ne).
  assert (Hdel0 : delete (ro_next r) (ro_pending r) !! ro_next r = None)
    by (apply lookup_delete_eq).
  destruct (Z.eqb_spec c CLOAK_FRAME_CLOSING_NOTHING) as [->|Hcc]; cbn [negb].
  - case_if.
    { exists 0, r. split_and!; [done|done|done| |done]. intros c' p' ?. simplify_eq.
      split; [done|lia]. }
    assert (Hlt : ro_next r < zlen ps) by (destruct (decide (ro_next r = zlen ps)); [tauto|lia]).
    rewrite u64_small by lia.
    destruct (IH (Reorder (ro_next r + 1) (delete (ro_next r) (ro_pending r))
                    (snd (fifo_write (ro_fifo r) p)) (ro_max r) (ro_seen r)))
      as (rc & r' & Edr & Hrc & H' & Hd & Hmax).
    + unfold fifo_write. rewrite Hc, Hcap.
      destruct (ro_seen r) eqn:Es; [specialize (Hs eq_refl); lia|].
      cbn [orb]. decide_cmp. split; cbn.
      * lia.
      * destruct (sent_data (ro_next r)) as (p' & Hp' & Hsent'); [lia|].
        rewrite Hsent' in Hsent. injection Hsent as ->.
        replace (Z.to_nat (ro_next r + 1)) with (S (Z.to_nat (ro_next r))) by lia.
        rewrite (take_S_r _ _ p) by done. rewrite concat_app, <- Hb. cbn.
        by rewrite app_nil_r, app_assoc.
      * intros k c' p' Hk. destruct (decide (k = ro_next r)) as [->|Hne]; [congruence|].
        rewrite Hdel in Hk by done. destruct (Hp _ _ _ Hk) as (? & ? & ?). split_and!; [lia|done..].
      * intros k. rewrite Hfed. destruct (decide (k = ro_next r)) as [->|Hne].
        -- split; [lia|]. intros _. right. left. by eexists.
        -- rewrite Hdel by done. split; intros [?|[?|[? ?]]]; auto; try done; left; lia.
      * done.
      * done.
      * done.
      * rewrite zlen_app. lia.
    + cbn [ro_pending]. rewrite map_size_delete_Some by (by eexists).
      assert (size (ro_pending r) <> 0%nat); [|lia].
      intros E0%map_size_empty_iff. rewrite E0, lookup_empty in Ep. done.
    + exists rc, r'. split_and!; done.
  - exists 1. eexists. split_and!; [done|done| | |done].
    + specialize (Hk1 Hcc). split; cbn; try done.
      * intros k c' p' Hk. destruct (decide (k = ro_next r)) as [->|Hne]; [congruence|].
        rewrite Hdel in Hk by done. by apply Hp.
      * intros k. rewrite Hfed. destruct (decide (k = ro_next r)) as [->|Hne].
        -- split; [by auto|]. intros _. right. left. by eexists.
        -- rewrite Hdel by done. split; intros [?|[?|[? ?]]]; auto.
           exfalso. congruence.
    + intros c' p'. cbn. rewrite Hdel0. done.
Qed.

(** Feeding one of the sender's frames. *)
Lemma ro_feed_delivering fed out r f :
  delivering fed out r -> drained r -> is_sent ps cl f -> zlen (fr_payload f) <= cap ->
  exists rc r', ro_feed r f = (rc, r') /\ drained r' /\ ro_max r' = ro_max r /\
    (rc = -1 /\ r' = r \/ rc <> -1 /\ delivering ({[fr_seq f]} ∪ fed) out r') /\
    (fr_seq f ∉ fed -> zlen (sent_frames ps cl) <= ro_max r -> rc <> -1).
Proof.
  intros H Hd Hsent Hpl. pose proof H as [Hnx Hb Hp Hfed Hs Hc Hcap Hroom].
  unfold is_sent in Hsent. destruct (sent_closing _ _ _ Hsent) as (Hkr & Hk1 & Hk2).
  destruct (mem_get_inv _ _ _ Hsent) as [Hks _].
  unfold ro_feed. destruct (ro_seen r) eqn:Es.
  { exists (-1), r. split_and!; [done..|by left|]. intros Hn. exfalso. apply Hn, Hfed.
    specialize (Hs eq_refl). destruct (decide (fr_seq f = zlen ps)); [tauto|left; lia]. }
  destruct (_ || _) eqn:Edup.
  { exists (-1), r. split_and!; [done..|by left|]. intros Hn. exfalso. apply Hn, Hfed.
    apply orb_true_iff in Edup as [E|E].
    - apply Z.ltb_lt in E. left. lia.
    - apply bool_decide_eq_true in E. auto. }
  apply orb_false_iff in Edup as [E1 E2]. apply Z.ltb_ge in E1.
  apply bool_decide_eq_false in E2.
  assert (Hnone : ro_pending r !! fr_seq f = None) by (by apply eq_None_not_Some).
  rewrite Hcap. decide_cmp. case_if.
  { exists (-1), r. split_and!; [done..|by left|]. intros Hn Hmax. exfalso.
    assert (Hsub : dom (ro_pending r) ⊆
              list_to_set (seqZ 0 (zlen (sent_frames ps cl))) ∖ {[fr_seq f]}).
    { intros k [[c p] Hk]%elem_of_dom. destruct (Hp _ _ _ Hk) as (_ & Hk' & _).
      destruct (mem_get_inv _ _ _ Hk') as [? _].
      apply elem_of_difference. rewrite elem_of_list_to_set, elem_of_seqZ, elem_of_singleton.
      split; [lia|]. intros ->. congruence. }
    apply subseteq_size in Hsub. rewrite size_dom in Hsub.
    rewrite size_difference, size_singleton, size_list_to_set, length_seqZ in Hsub.
    - lia.
    - apply NoDup_seqZ.
    - apply singleton_subseteq_l, elem_of_list_to_set, elem_of_seqZ. lia. }
  unfold ro_drain_all.
  destruct (ro_drain_delivering
    (S (size (<[fr_seq f:=(fr_closing f, fr_payload f)]> (ro_pending r))))
    ({[fr_seq f]} ∪ fed) out
    (Reorder (ro_next r) (<[fr_seq f:=(fr_closing f, fr_payload f)]> (ro_pending r))
       (ro_fifo r) (ro_max r) false)) as (rc & r' & E' & Hrc & H' & Hd' & Hm').
  - split; cbn; try done.
    + intros k c p Hk. destruct (decide (k = fr_seq f)) as [->|Hne].
      * rewrite lookup_insert_eq in Hk. by simplify_eq.
      * rewrite lookup_insert_ne in Hk by done. by apply Hp.
    + intros k. rewrite elem_of_union, elem_of_singleton, Hfed.
      destruct (decide (k = fr_seq f)) as [->|Hne].
      * rewrite lookup_insert_eq. split; [|by auto]. intros _. right; left. by eexists.
      * rewrite lookup_insert_ne by done. split; [intros [?|?]; done|by right].
  - cbn. lia.
  - cbn [ro_pending]. exists rc, r'. split_and!; [done|done|done|by right|done].
Qed.

(** Reading. *)
Lemma ro_read_delivering fed out r n :
  delivering fed out r -> drained r -> 0 <= n ->
  exists rc x r', ro_read r n = (rc, x, r') /\ delivering fed (out ++ x) r' /\ drained r' /\
    ro_max r' = ro_max r /\
    (rc = -1 -> out = concat ps /\ x = []) /\
    (0 < n -> x = [] -> (forall k, 0 <= k < zlen ps -> k ∈ fed) -> out = concat ps).
Proof.
  intros H Hd Hn. pose proof H as [Hnx Hb Hp Hfed Hs Hc Hcap Hroom].
  unfold ro_read, fifo_read. set (x := take (Z.to_nat n) (f_bytes (ro_fifo r))).
  set (f' := Fifo _ _ _).
  assert (H1 : delivering fed (out ++ x)
                 (Reorder (ro_next r) (ro_pending r) f' (ro_max r) (ro_seen r))).
  { split; cbn; try done.
    - rewrite <- app_assoc. unfold x, f'. cbn [f_bytes]. by rewrite take_drop.
    - unfold zlen in *. rewrite length_drop. lia. }
  assert (Hall : f_bytes (ro_fifo r) = [] -> ro_next r = zlen ps -> out = concat ps).
  { intros E1 E2. rewrite E1, app_nil_r in Hb. rewrite Hb, E2. unfold zlen.
    rewrite Nat2Z.id. by rewrite take_ge. }
  destruct (Z.ltb_spec 0 (zlen x)) as [Hx|Hx].
  - unfold ro_drain_all. cbn [ro_pending].
    destruct (ro_drain_delivering (S (size (ro_pending r))) _ _ _ H1)
      as (rc & r' & -> & Hrc & H' & Hd' & Hm'); [cbn; lia|].
    exists (zlen x), x, r'. split_and!; [done|done|done|done|lia|].
    intros _ ->. unfold zlen in Hx. cbn in Hx. lia.
  - assert (Hx0 : x = []) by (apply zlen_zero; pose proof (zlen_nonneg x); lia).
    assert (Hf' : 0 < n -> f_bytes (ro_fifo r) = []).
    { intros Hpos. unfold x in Hx0. destruct (f_bytes (ro_fifo r)); [done|].
      destruct (Z.to_nat n) eqn:En; [lia|done]. }
    assert (Hdone : forall rc', (rc' = -1 -> f_closed f' && bool_decide (f_bytes f' = []) = true) ->
      exists rc x0 r', (rc', x, Reorder (ro_next r) (ro_pending r) f' (ro_max r) (ro_seen r))
                       = (rc, x0, r') /\ delivering fed (out ++ x0) r' /\ drained r' /\
        ro_max r' = ro_max r /\ (rc = -1 -> out = concat ps /\ x0 = []) /\
        (0 < n -> x0 = [] -> (forall k, 0 <= k < zlen ps -> k ∈ fed) -> out = concat ps)).
    { intros rc' Hrc'. do 3 eexists. split_and!; [done|done| |done| |].
      - intros c p Hk. cbn in Hk |- *. destruct (Hd _ _ Hk) as [? ?]. split; [done|].
        destruct (decide (0 < n)) as [Hpos|].
        + rewrite (Hf' Hpos) in *. destruct (Z.to_nat n); cbn in *; lia.
        + replace n with 0 by lia. done.
      - intros E. specialize (Hrc' E). apply andb_true_iff in Hrc' as [Hcl' He].
        apply bool_decide_eq_true in He. cbn in Hcl', He. rewrite Hc in Hcl'.
        split; [|done]. apply Hall; [|by apply Hs].
        rewrite <- (take_drop (Z.to_nat n) (f_bytes (ro_fifo r))), He. fold x. by rewrite Hx0.
      - intros Hpos _ Hfd. apply Hall; [by apply Hf'|].
        destruct (decide (ro_next r = zlen ps)) as [|Hne]; [done|exfalso].
        destruct (proj1 (Hfed (ro_next r)) (Hfd (ro_next r) ltac:(lia))) as [?|[[[c p] Hk]|[Hs1 _]]].
        + lia.
        + destruct (Hd _ _ Hk) as [_ Hbig]. destruct (Hp _ _ _ Hk) as (_ & _ & Hsmall).
          rewrite (Hf' Hpos) in Hbig. unfold zlen at 1 in Hbig. cbn in Hbig. lia.
        + apply Hne. by apply Hs. }
    destruct (f_closed f' && bool_decide (f_bytes f' = [])) eqn:Ee; apply Hdone; [done|lia].
Qed.

End delivery.

(** ** Runs *)

Definition feeds (ops : list rx_op) : list cloak_frame_t :=
  omap (fun o => match o with RxFeed f => Some f | RxRead _ => None end) ops.

Definition outputs (seen : list rx_seen) : bytes := concat (map rs_out seen).

Lemma outputs_cons x seen : outputs (x :: seen) = rs_out x ++ outputs seen.
Proof. done. Qed.

Lemma outputs_app seen1 seen2 : outputs (seen1 ++ seen2) = outputs seen1 ++ outputs seen2.
Proof. unfold outputs. by rewrite map_app, concat_app. Qed.

Section runs.
Context (ps : list bytes) (cl : option (Z * bytes)) (cap : Z).
Hypothesis Hcl : closing_ok cl.
Hypothesis Hnum : zlen ps < 18446744073709551615.

(** An operation that is a read, or feeds a frame of the sender. *)
Definition from_sender (o : rx_op) : Prop :=
  match o with
  | RxFeed f => is_sent ps cl f /\ zlen (fr_payload f) <= cap
  | RxRead n => 0 <= n
  end.

(** The states between operations. *)
Definition state_ok (fed : gset Z) (out : bytes) (r : reorder) : Prop :=
  delivering ps cl cap fed out r /\ drained cap r /\ zlen (sent_frames ps cl) <= ro_max r.

Lemma delivering_prefix fed out r : delivering ps cl cap fed out r -> out `prefix_of` concat ps.
Proof.
  intros H. exists (f_bytes (ro_fifo r) ++ concat (drop (Z.to_nat (ro_next r)) ps)).
  by rewrite app_assoc, (dv_bytes _ _ _ _ _ _ H), <- concat_app, take_drop.
Qed.

(** Nothing can follow the whole text. *)
Lemma delivering_end fed t r : delivering ps cl cap fed (concat ps ++ t) r -> t = [].
Proof.
  intros [u Hu]%delivering_prefix. rewrite <- app_assoc in Hu.
  rewrite <- (app_nil_r (concat ps)) in Hu at 1. apply app_inv_head in Hu. by destruct t.
Qed.

Lemma spec_run_delivering ops fed out r :
  state_ok fed out r -> Forall from_sender ops ->
  NoDup (map fr_seq (feeds ops)) -> (forall f, f ∈ feeds ops -> fr_seq f ∉ fed) ->
  exists seen r', spec_run rx_spec ops (RxOrdered r) = (seen, RxOrdered r') /\
    state_ok (list_to_set (map fr_seq (feeds ops)) ∪ fed) (out ++ outputs seen) r' /\
    Forall2 (fun o x => match o with
                        | RxFeed _ => rs_rc x <> -1
                        | RxRead _ => rs_rc x = -1 -> out ++ outputs seen = concat ps
                        end) ops seen.
Proof.
  revert fed out r. induction ops as [|o ops IH]; intros fed out r (H & Hd & Hm) Hok Hnd Hnew.
  { exists [], r. split; [done|]. cbn. rewrite app_nil_r, union_empty_l_L.
    split; [done|constructor]. }
  apply Forall_cons in Hok as [Ho Hok]. destruct o as [f|n]; cbn [spec_run].
  - destruct Ho as [Hs Hpl]. cbn [feeds omap list_omap map] in *. fold (feeds ops) in *.
    unfold rx_spec at 1. destruct (ro_feed_delivering ps cl cap Hcl Hnum fed out r f H Hd Hs Hpl)
      as (rc & r1 & -> & Hd1 & Hm1 & Hor & Hacc).
    assert (Hrc : rc <> -1) by (apply Hacc; [apply Hnew; left|done]).
    destruct Hor as [[? _]|[_ H1]]; [done|]. apply NoDup_cons in Hnd as [Hn1 Hnd].
    destruct (IH ({[fr_seq f]} ∪ fed) out r1) as (seen & r2 & -> & H2 & Hall).
    + split_and!; [done..|by rewrite Hm1].
    + done.
    + done.
    + intros g Hg. rewrite elem_of_union, elem_of_singleton. intros [E|E].
      * apply Hn1. rewrite <- E. by apply list_elem_of_fmap_2.
      * by apply (Hnew g); [right|].
    + eexists _, r2. split; [done|]. cbn [list_to_set].
      rewrite outputs_cons. cbn [rs_out app].
      replace ({[fr_seq f]} ∪ list_to_set (map fr_seq (feeds ops)) ∪ fed)
        with (list_to_set (map fr_seq (feeds ops)) ∪ ({[fr_seq f]} ∪ fed))
        by (by rewrite union_assoc_L, (union_comm_L (list_to_set _))).
      split; [done|]. by constructor.
  - cbn [feeds omap list_omap] in *. fold (feeds ops) in *.
    unfold rx_spec at 1. destruct (ro_read_delivering ps cl cap Hcl Hnum fed out r n H Hd Ho)
      as (rc & x & r1 & -> & H1 & Hd1 & Hm1 & Heof & _).
    destruct (IH fed (out ++ x) r1) as (seen & r2 & -> & H2 & Hall); [|done..|].
    { split_and!; [done..|by rewrite Hm1]. }
    eexists _, r2. split; [done|]. rewrite outputs_cons. cbn [rs_out]. rewrite app_assoc.
    split; [done|]. constructor; [|done]. cbn. intros E. destruct (Heof E) as [Hout ->].
    rewrite app_nil_r in *. subst out. rewrite (delivering_end _ _ _ (proj1 H2)).
    by rewrite app_nil_r.
Qed.

(** Reading often enough after every frame was fed. *)
Lemma spec_reads_complete m n fed out r :
  state_ok fed out r -> 0 < n -> (forall k, 0 <= k < zlen ps -> k ∈ fed) ->
  exists seen r', spec_run rx_spec (replicate m (RxRead n)) (RxOrdered r) = (seen, RxOrdered r') /\
    state_ok fed (out ++ outputs seen) r' /\
    (out ++ outputs seen = concat ps \/ zlen out + Z.of_nat m <= zlen (out ++ outputs seen)).
Proof.
  revert out r. induction m as [|m IH]; intros out r (H & Hd & Hm) Hn Hall; cbn [replicate spec_run].
  { exists [], r. split; [done|]. cbn. rewrite app_nil_r. split; [done|right; lia]. }
  destruct (ro_read_delivering ps cl cap Hcl Hnum fed out r n H Hd ltac:(lia))
    as (rc & x & r1 & E & H1 & Hd1 & Hm1 & _ & Hempty).
  unfold rx_spec at 1. rewrite E.
  destruct (IH (out ++ x) r1) as (seen & r2 & -> & H2 & Hor); [|done..|].
  { split_and!; [done..|by rewrite Hm1]. }
  eexists _, r2. split; [done|]. rewrite outputs_cons. cbn [rs_out]. rewrite app_assoc.
  split; [done|]. destruct Hor as [?|Hle]; [by left|]. destruct x as [|b x].
  - left. rewrite app_nil_r in *. specialize (Hempty Hn eq_refl Hall). subst out.
    rewrite (delivering_end _ _ _ (proj1 H2)). by rewrite app_nil_r.
  - right. rewrite zlen_app, zlen_cons in Hle. pose proof (zlen_nonneg x). lia.
Qed.

End runs.

(** ** The sender *)

(** The frames a sender cuts [data] into, from sequence number [seq]. *)
Fixpoint cut (fuel : nat) (mx : Z) (data : bytes) : list bytes :=
  match fuel, data with
  | S fuel', _ :: _ =>
      take (Z.to_nat mx) data :: cut fuel' mx (drop (Z.to_nat mx) data)
  | _, _ => []
  end.

Fixpoint data_frames (id seq : Z) (ps : list bytes) : list cloak_frame_t :=
  match ps with
  | [] => []
  | p :: ps' => Frame id seq CLOAK_FRAME_CLOSING_NOTHING p (zlen p) :: data_frames id (seq + 1) ps'
  end.

Lemma cut_concat fuel mx data :
  0 < mx -> (length data <= fuel)%nat -> concat (cut fuel mx data) = data.
Proof.
  intros Hmx. revert data. induction fuel as [|fuel IH]; intros [|b data] Hf; cbn in *; try lia; try done.
  rewrite IH; [by rewrite take_drop|]. rewrite length_drop. cbn. lia.
Qed.

Lemma cut_sizes fuel mx data :
  0 < mx -> Forall (fun p : bytes => 0 < zlen p <= mx) (cut fuel mx data).
Proof.
  intros Hmx. revert data. induction fuel as [|fuel IH]; intros [|b data]; cbn; try constructor.
  - unfold zlen. rewrite length_take. cbn. lia.
  - apply IH.
Qed.

Lemma zlen_cut fuel mx data : 0 < mx -> zlen (cut fuel mx data) <= zlen data.
Proof.
  intros Hmx. revert data. induction fuel as [|fuel IH]; intros [|b data]; cbn; try zlia.
  specialize (IH (drop (Z.to_nat mx) (b :: data))). rewrite !zlen_cons in *.
  unfold zlen in *. rewrite length_drop in *. cbn in *. lia.
Qed.

(** As many frames as fill [k] times the largest payload. *)
Lemma cut_count fuel mx data k : 0 < mx -> 0 <= k -> zlen data <= k * mx -> zlen (cut fuel mx data) <= k.
Proof.
  intros Hmx. revert data k. induction fuel as [|fuel IH]; intros [|b data] k Hk Hl; cbn [cut]; try (rewrite zlen_nil; lia).
  rewrite zlen_cons. pose proof (zlen_nonneg data) as Hd. rewrite zlen_cons in Hl. assert (1 <= k) by nia.
  enough (zlen (cut fuel mx (drop (Z.to_nat mx) (b :: data))) <= k - 1) by lia.
  apply IH; [lia|]. assert (0 <= (k - 1) * mx) by nia. unfold zlen in *. rewrite length_drop. cbn [length]. lia.
Qed.

(** A stream that can send. *)
Record can_send (s : cloak_stream_t) : Prop := {
  cs_open : st_write_closed s = false;
  cs_obfuscator : obfuscator_ok (st_obfuscator s);
  cs_id : 0 <= st_id s < 4294967296;
  cs_mx : 0 < st_max_payload_per_frame s;
  cs_buf : zlen (st_write_buf s)
           = st_max_payload_per_frame s + CLOAK_FRAME_HEADER_LEN + CLOAK_FRAME_MAX_EXTRA_LEN;
  cs_small : zlen (st_write_buf s) <= INT64_MAX;
  cs_seq : 0 <= st_next_write_seq s
}.

Section sending.
Context `{EvpLaws}.

(** A connection that takes everything. *)
Definition collect (msg : bytes) (w : list bytes) : Z * list bytes := (0, w ++ [msg]).

(** What a receiver with the same key reads in a message. *)
Definition decodes_to (o : cloak_obfuscator_t) (msg : bytes) (f : cloak_frame_t) : Prop :=
  exists rest, cloak_frame_deobfuscate o msg = Some (Some f, rest).

(** A sealed frame is read back by whoever has the key. *)
Lemma seal_ok rfuel o f buf r :
  obfuscator_ok o -> frame_ok f -> 0 < fr_payload_len f ->
  CLOAK_FRAME_HEADER_LEN + fr_payload_len f + CLOAK_FRAME_MAX_EXTRA_LEN <= zlen buf <= INT64_MAX ->
  rand_ok r -> fair rfuel r ->
  exists n msg buf' r', cloak_frame_obfuscate rfuel o f buf 0 r = Some (Some (n, buf'), r') /\
    buf'.[0 +: n] = Some msg /\ decodes_to o msg f /\ zlen buf' = zlen buf /\
    zlen msg <= CLOAK_FRAME_HEADER_LEN + fr_payload_len f + CLOAK_FRAME_MAX_EXTRA_LEN /\
    rand_ok r' /\ fair rfuel r' /\ all_bytes msg.
Proof.
  intros Ho Hf Hl Hb Hr Hfa.
  destruct (frame_obfuscate_ok rfuel o f buf 0 r)
    as (extra & masked & sealed & nonce & r' & Hobf & Hex & _ & Hml & Hsl & Hn & Hun &
        [tail Hopen] & Hr' & Hf' & Hbytes); [done..|].
  unfold CLOAK_FRAME_HEADER_LEN, CLOAK_FRAME_MAX_EXTRA_LEN in *.
  pose proof (tag_len_bounds (o_method o)). set (n := 14 + fr_payload_len f + extra) in *.
  assert (Hms : zlen (masked ++ sealed) = n) by (rewrite zlen_app; lia).
  pose proof (mem_read_app [] (masked ++ sealed) (drop (Z.to_nat n) buf) 0 n eq_refl (eq_sym Hms)) as Hread.
  cbn [app] in Hread. rewrite app_assoc in Hobf.
  exists n, (masked ++ sealed), ((masked ++ sealed) ++ drop (Z.to_nat n) buf), r'.
  split_and!; [exact Hobf|exact Hread| |rewrite zlen_app, Hms, zlen_drop; lia|lia|done|done|done].
  eexists. apply (frame_deobfuscate_ok o f extra masked sealed nonce tail);
    try done; try (unfold is_byte, CLOAK_FRAME_HEADER_LEN; lia).
  by rewrite Hms.
Qed.

Lemma stream_seal_ok rfuel s f r :
  can_send s -> frame_ok f -> 0 < fr_payload_len f <= st_max_payload_per_frame s ->
  rand_ok r -> fair rfuel r ->
  exists msg buf r', stream_seal rfuel s f r = Some (Some (msg, buf), r') /\
    decodes_to (st_obfuscator s) msg f /\ zlen buf = zlen (st_write_buf s) /\
    rand_ok r' /\ fair rfuel r' /\ all_bytes msg.
Proof.
  intros [_ Ho _ _ Hb Hsm _] Hf Hl Hr Hfa. unfold stream_seal.
  destruct (seal_ok rfuel (st_obfuscator s) f (st_write_buf s) r) as (n&msg&buf&r'&->&Hread&Hd&Hz&_&Hr');
    [done|done|lia|lia|done|done|].
  cbn [mbind option_bind]. rewrite Hread. cbn [mbind option_bind]. by exists msg, buf, r'.
Qed.

Lemma stream_write_loop_ok fuel rfuel s input n r w :
  can_send s -> all_bytes input -> 0 <= n <= zlen input -> zlen input <= INT64_MAX ->
  zlen input - n <= Z.of_nat fuel -> rand_ok r -> fair rfuel r ->
  st_next_write_seq s + (zlen input - n) < 18446744073709551616 ->
  let ps := cut fuel (st_max_payload_per_frame s) (drop (Z.to_nat n) input) in
  exists msgs s' r',
    stream_write_loop collect fuel rfuel s input n r w
      = Some (zlen input, s', r', w ++ msgs) /\
    Forall2 (decodes_to (st_obfuscator s)) msgs (data_frames (st_id s) (st_next_write_seq s) ps) /\
    can_send s' /\ st_next_write_seq s' = st_next_write_seq s + zlen ps.
Proof.
  unfold INT64_MAX. revert s n r w.
  induction fuel as [|fuel IH]; intros s n r w Hs Hb Hn Hmax Hf Hr Hfa Hseq; cbn [stream_write_loop].
  { decide_cmp. cbn [negb]. exists [], s, r. rewrite app_nil_r. cbn. split_and!; try done.
    rewrite zlen_nil. lia. }
  pose proof Hs as [Hop Ho Hid Hmx Hbuf Hsm Hsq].
  assert (Hdl : zlen (drop (Z.to_nat n) input) = zlen input - n) by (apply zlen_drop; lia).
  destruct (Z.ltb_spec n (zlen input)) as [Hlt|Hge]; cbn [negb].
  2: { rewrite (zlen_zero (drop (Z.to_nat n) input)) by lia. exists [], s, r.
       rewrite app_nil_r. cbn. split_and!; try done. rewrite zlen_nil. lia. }
  destruct (drop (Z.to_nat n) input) as [|b rest] eqn:Ed; [rewrite zlen_nil in Hdl; lia|].
  usimpl. set (mx := st_max_payload_per_frame s) in *.
  set (chunk := if zlen input - n <=? mx then zlen input - n else mx).
  assert (Hch : 0 < chunk <= mx /\ chunk <= zlen input - n)
    by (unfold chunk; destruct (Z.leb_spec (zlen input - n) mx); lia).
  rewrite mem_read_Some by lia. cbn [mbind option_bind cut]. rewrite Ed.
  set (payload := take (Z.to_nat chunk) (b :: rest)).
  assert (Hp : payload = take (Z.to_nat mx) (b :: rest)).
  { unfold payload, chunk. destruct (Z.leb_spec (zlen input - n) mx); [|done].
    rewrite !take_ge by (unfold zlen in *; lia). done. }
  assert (Hpl : zlen payload = chunk) by (unfold payload; rewrite zlen_take; lia).
  destruct (stream_seal_ok rfuel s (Frame (st_id s) (st_next_write_seq s)
              CLOAK_FRAME_CLOSING_NOTHING payload chunk) r)
    as (msg & buf & r1 & -> & Hdec & Hbl & Hr1 & Hfa1 & _); [done| |cbn; lia|done|done|].
  { split; cbn; [done|lia|unfold CLOAK_FRAME_CLOSING_NOTHING, is_byte; lia| |lia].
    apply Forall_take. rewrite <- Ed. by apply Forall_drop. }
  cbn [mbind option_bind collect Z.eqb negb].
  set (s1 := st_set_send s buf _ _).
  destruct (IH s1 (n + chunk) r1 (w ++ [msg])) as (msgs & s' & r' & Erun & Hdecs & Hs' & Hnext).
  - split; cbn; try done. + lia. + lia. + usimpl. lia.
  - done.
  - lia.
  - lia.
  - lia.
  - done.
  - done.
  - cbn. usimpl. lia.
  - assert (Hdrop : drop (Z.to_nat (n + chunk)) input = drop (Z.to_nat mx) (b :: rest)).
    { rewrite <- Ed. rewrite drop_drop. unfold chunk. destruct (Z.leb_spec (zlen input - n) mx).
      - rewrite !drop_ge by (unfold zlen in *; lia). done.
      - f_equal. lia. }
    rewrite Hdrop in *. change (st_max_payload_per_frame s1) with mx in *.
    change (st_id s1) with (st_id s) in *. change (st_obfuscator s1) with (st_obfuscator s) in *.
    change (st_next_write_seq s1) with (st_next_write_seq s + 1) in *.
    exists (msg :: msgs), s', r'. usimpl. rewrite Erun, <- app_assoc. split; [done|].
    split; [|split; [done|rewrite zlen_cons; lia]].
    cbn [data_frames]. rewrite <- Hp, Hpl. by constructor.
Qed.

End sending.

Lemma decodes_to_inj `{Evp} o msgs fs fs' :
  Forall2 (decodes_to o) msgs fs -> Forall2 (decodes_to o) msgs fs' -> fs = fs'.
Proof.
  intros Hd. revert fs'. induction Hd as [|msg f msgs fs [? Hf] _ IH]; intros fs' Hd'.
  - by apply Forall2_nil_inv_l in Hd'.
  - apply Forall2_cons_inv_l in Hd' as (f' & fs0 & [? Hf'] & Hd' & ->).
    f_equal; [congruence|by apply IH].
Qed.

Lemma data_frames_seq id q ps : map fr_seq (data_frames id q ps) = seqZ q (zlen ps).
Proof.
  revert q. induction ps as [|p ps IH]; intros q; cbn; [done|].
  rewrite IH, zlen_cons, (seqZ_cons q) by (pose proof (zlen_nonneg ps); lia).
  replace (Z.pred (1 + zlen ps)) with (zlen ps) by lia. done.
Qed.

Lemma data_frames_elem id q ps f :
  f ∈ data_frames id q ps ->
  exists i, ps !! i = Some (fr_payload f) /\ fr_seq f = q + Z.of_nat i /\
    fr_closing f = CLOAK_FRAME_CLOSING_NOTHING /\ fr_payload_len f = zlen (fr_payload f).
Proof.
  revert q. induction ps as [|p ps IH]; intros q; cbn; [by intros ?%elem_of_nil|].
  intros [->|Hf]%elem_of_cons.
  - exists 0%nat. cbn. split_and!; done || lia.
  - destruct (IH _ Hf) as (i & ? & ? & ? & ?). exists (S i). split_and!; done || lia.
Qed.

Lemma data_frames_sent id ps cl f : f ∈ data_frames id 0 ps -> is_sent ps cl f.
Proof.
  intros (i & Hi & Hs & Hc & _)%data_frames_elem. unfold is_sent, sent_frames.
  rewrite mem_get_lookup by lia. replace (Z.to_nat (fr_seq f)) with i by lia.
  rewrite lookup_app_l by (rewrite length_map; by eapply lookup_lt_Some).
  rewrite list_lookup_fmap, Hi, Hc. done.
Qed.

Lemma feeds_elem ops f : f ∈ feeds ops <-> RxFeed f ∈ ops.
Proof.
  unfold feeds. rewrite list_elem_of_omap. split.
  - intros (o & Ho & E). destruct o; [|done]. by injection E as ->.
  - intros Ho. by exists (RxFeed f).
Qed.

Definition reads_ok (ops : list rx_op) : Prop :=
  Forall (fun o => match o with RxRead n => 0 <= n | RxFeed _ => True end) ops.

(** A fresh ordered receiver. *)
Lemma state_ok_fresh ps cl cap pend :
  zlen (sent_frames ps cl) <= pend -> 0 <= cap ->
  state_ok ps cl cap ∅ [] (Reorder 0 ∅ (Fifo cap [] false) (if 0 <? pend then pend else 1) false).
Proof.
  intros Hp Hc. split_and!; cbn.
  - split; cbn; try done.
    + pose proof (zlen_nonneg ps). lia.
    + intros k. rewrite lookup_empty. split; [by intros ?%elem_of_empty|].
      intros [?|[[? ?]|[? _]]]; [lia|done|done].
  - intros c p. cbn. by rewrite lookup_empty.
  - destruct (Z.ltb_spec 0 pend); lia.
Qed.

(** The receiver of one sender's frames, at the level of the program. *)
Lemma receive_any_order s0 ps cl cap pend ops m n :
  rx_rep s0 (rx_fresh CLOAK_SESSION_ORDERING_ORDERED cap pend) ->
  closing_ok cl -> zlen ps < 18446744073709551615 -> 0 <= cap <= INT64_MAX ->
  zlen (sent_frames ps cl) <= pend ->
  (forall f, f ∈ feeds ops -> is_sent ps cl f /\ fr_payload_len f = zlen (fr_payload f) /\
                              zlen (fr_payload f) <= cap) ->
  NoDup (map fr_seq (feeds ops)) -> reads_ok ops ->
  (forall k, 0 <= k < zlen ps -> k ∈ map fr_seq (feeds ops)) ->
  0 < n -> zlen (concat ps) <= Z.of_nat m ->
  exists seen s1 reads s2,
    run rx_exec ops s0 = Some (seen, s1) /\
    run rx_exec (replicate m (RxRead n)) s1 = Some (reads, s2) /\
    outputs seen ++ outputs reads = concat ps /\
    Forall2 (fun o x => match o with
                        | RxFeed _ => rs_rc x <> -1
                        | RxRead _ => rs_rc x = -1 -> outputs seen = concat ps
                        end) ops seen.
Proof.
  intros Hrep Hcl Hnum Hcap Hpend Hfr Hnd Hreads Hall Hn Hm. unfold INT64_MAX in Hcap.
  assert (Hfrom : Forall (from_sender ps cl cap) ops).
  { apply Forall_forall. intros [f|k] Ho.
    - apply feeds_elem, Hfr in Ho as (? & _ & ?). done.
    - apply (proj1 (Forall_forall _ _) Hreads _ Ho). }
  assert (Hops : Forall rx_op_ok ops).
  { apply Forall_forall. intros [f|k] Ho.
    - apply feeds_elem, Hfr in Ho as (Hs & ? & ?). cbn. unfold INT64_MAX. split_and!; [done|lia|..].
      all: destruct (sent_closing ps cl Hcl _ _ _ Hs); lia.
    - apply (proj1 (Forall_forall _ _) Hreads _ Ho). }
  destruct (spec_run_delivering ps cl cap Hcl Hnum ops ∅ [] _
              (state_ok_fresh ps cl cap pend Hpend (proj1 Hcap)) Hfrom Hnd)
    as (seen & r1 & Hspec & H1 & Hacc); [set_solver|].
  destruct (run_refines rx_exec rx_spec rx_op_ok rx_rep ops s0 _ Hrep Hops)
    as (seen' & s1 & x1 & Hrun & Hrep1 & Hspec').
  unfold rx_fresh in Hspec'. replace (_ =? _) with false in Hspec' by done.
  rewrite Hspec in Hspec'. injection Hspec' as <- <-. cbn [app] in *.
  destruct (spec_reads_complete ps cl cap Hcl Hnum m n _ _ r1 H1 Hn)
    as (reads & r2 & Hspec2 & H2 & Hor).
  { intros k Hk. apply elem_of_union_l, elem_of_list_to_set. by apply Hall. }
  destruct (run_refines rx_exec rx_spec rx_op_ok rx_rep (replicate m (RxRead n)) s1 _ Hrep1)
    as (reads' & s2 & x2 & Hrun2 & _ & Hspec2').
  { apply Forall_replicate. cbn. lia. }
  rewrite Hspec2 in Hspec2'. injection Hspec2' as <- <-.
  exists seen, s1, reads, s2. split_and!; [done|done| |done].
  destruct Hor as [?|Hlen]; [done|].
  destruct (delivering_prefix ps cl cap _ _ _ (proj1 H2)) as [t Ht].
  assert (t = []) as ->; [|by rewrite app_nil_r in Ht].
  apply zlen_zero. assert (zlen (concat ps) = zlen ((outputs seen ++ outputs reads) ++ t))
    by (by rewrite <- Ht). rewrite !zlen_app in *. zlen_pos. lia.
Qed.

(** ** Properties *)

(** Functional behaviour of the send side.  An open stream with a valid
    key, on a connection that takes everything: an unordered stream refuses a
    write above its frame budget and changes nothing; any other write returns
    its length and emits messages that decode, in order, to frames with
    consecutive sequence numbers from the stream's next one and no closing
    flag, whose non-empty payloads keep within the budget and concatenate to
    the input; an unordered write is at most one message. *)
Theorem stream_write_frames `{EvpLaws} rfuel s input r w :
  can_send s -> all_bytes input -> zlen input <= INT64_MAX -> rand_ok r -> fair rfuel r ->
  st_next_write_seq s + zlen input < 18446744073709551616 ->
  let mx := st_max_payload_per_frame s in
  if (st_ordering s =? CLOAK_SESSION_ORDERING_UNORDERED) && (mx <? zlen input)
  then cloak_stream_write collect rfuel s input r w
       = Some (CLOAK_STREAM_ERR_SHORT_BUFFER, s, r, w)
  else exists ps msgs s' r',
    cloak_stream_write collect rfuel s input r w = Some (zlen input, s', r', w ++ msgs) /\
    concat ps = input /\ Forall (fun p : bytes => 0 < zlen p <= mx) ps /\
    Forall2 (decodes_to (st_obfuscator s)) msgs (data_frames (st_id s) (st_next_write_seq s) ps) /\
    (st_ordering s = CLOAK_SESSION_ORDERING_UNORDERED -> zlen ps <= 1) /\
    can_send s' /\ st_next_write_seq s' = st_next_write_seq s + zlen ps.
Proof.
  intros Hs Hb Hmax Hr Hf Hseq mx. unfold cloak_stream_write. rewrite (cs_open _ Hs).
  fold mx. destruct (_ && _) eqn:Eshort; [done|].
  pose proof (cs_mx _ Hs) as Hmx. fold mx in Hmx.
  destruct (stream_write_loop_ok (length input) rfuel s input 0 r w)
    as (msgs & s' & r' & E & Hdec & Hs' & Hn); [done..|pose proof (zlen_nonneg input); lia|done|
      unfold zlen; lia|done|done|lia|].
  exists (cut (length input) mx input), msgs, s', r'. split_and!; try done.
  - by apply cut_concat.
  - by apply cut_sizes.
  - intros Hu. rewrite Hu in Eshort. cbn in Eshort. apply Z.ltb_ge in Eshort.
    destruct input as [|b input]; [done|]. cbn [length cut].
    rewrite drop_ge by (unfold zlen in Eshort; lia).
    destruct (length input); cbn; unfold zlen; cbn; lia.
Qed.

(** C13: reassembly.  A fresh ordered receiver whose reorder window and queue
    are large enough is fed the sender's data frames and closing frame, each
    exactly once, in any order and interleaved with reads in any way.  No
    frame is refused; the reads see the sender's bytes in order; end of stream
    is reported only when every byte has been read; and reading on returns all
    of them. *)
Theorem stream_reassembles_any_order s0 ps cl cap pend ops m n :
  rx_rep s0 (rx_fresh CLOAK_SESSION_ORDERING_ORDERED cap pend) ->
  closing_ok cl -> zlen ps < 18446744073709551615 -> 0 <= cap <= INT64_MAX ->
  zlen (sent_frames ps cl) <= pend ->
  (forall f, f ∈ feeds ops -> is_sent ps cl f /\ fr_payload_len f = zlen (fr_payload f) /\
                              zlen (fr_payload f) <= cap) ->
  NoDup (map fr_seq (feeds ops)) -> reads_ok ops ->
  (forall k, 0 <= k < zlen ps -> k ∈ map fr_seq (feeds ops)) ->
  0 < n -> zlen (concat ps) <= Z.of_nat m ->
  exists seen s1 reads s2,
    run rx_exec ops s0 = Some (seen, s1) /\
    run rx_exec (replicate m (RxRead n)) s1 = Some (reads, s2) /\
    outputs seen ++ outputs reads = concat ps /\
    Forall2 (fun o x => match o with
                        | RxFeed _ => rs_rc x <> -1
                        | RxRead _ => rs_rc x = -1 -> outputs seen = concat ps
                        end) ops seen.
Proof. exact (receive_any_order s0 ps cl cap pend ops m n). Qed.

(** C11: end to end.  What one stream writes, another reads: the messages of a
    write on a sending stream that has sent nothing yet, decoded and delivered
    to a new receiver in any order and interleaved with reads, come out as
    exactly the bytes written.  Both are ordered streams; the write may be cut
    into as many full frames as the receiver keeps pending, so that even their
    reverse order is taken ([pend] payloads of [st_max_payload_per_frame] bytes,
    64 of them in both default configurations), and the receiver's buffer holds
    one payload at least. *)
Theorem stream_end_to_end `{EvpLaws} rfuel s input r s0 cap pend ops m n :
  can_send s -> st_ordering s = CLOAK_SESSION_ORDERING_ORDERED -> st_next_write_seq s = 0 ->
  all_bytes input -> zlen input <= INT64_MAX -> rand_ok r -> fair rfuel r ->
  rx_rep s0 (rx_fresh CLOAK_SESSION_ORDERING_ORDERED cap pend) ->
  st_max_payload_per_frame s <= cap <= INT64_MAX -> 0 <= pend -> zlen input <= pend * st_max_payload_per_frame s ->
  reads_ok ops -> 0 < n -> zlen input <= Z.of_nat m ->
  exists msgs s' r',
    cloak_stream_write collect rfuel s input r [] = Some (zlen input, s', r', msgs) /\
    forall frames, Forall2 (decodes_to (st_obfuscator s)) msgs frames ->
      feeds ops ≡ₚ frames ->
      exists seen s1 reads s2,
        run rx_exec ops s0 = Some (seen, s1) /\
        run rx_exec (replicate m (RxRead n)) s1 = Some (reads, s2) /\
        outputs seen ++ outputs reads = input.
Proof.
  intros Hs Hord Hseq Hb Hmax Hr Hf Hrep Hcap Hpos Hpend Hreads Hn Hm. unfold INT64_MAX in *.
  pose proof (cs_mx _ Hs) as Hmx.
  unfold cloak_stream_write. rewrite (cs_open _ Hs), Hord. cbn [andb Z.eqb].
  replace (CLOAK_SESSION_ORDERING_ORDERED =? CLOAK_SESSION_ORDERING_UNORDERED) with false by done.
  cbn [andb]. set (ps := cut (length input) (st_max_payload_per_frame s) input).
  destruct (stream_write_loop_ok (length input) rfuel s input 0 r [])
    as (msgs & s' & r' & E & Hdec & _ & _); [done..|pose proof (zlen_nonneg input); lia|done|
      unfold zlen; lia|done|done|lia|].
  exists msgs, s', r'. split; [done|]. intros frames Hframes HP.
  change (drop (Z.to_nat 0) input) with input in Hdec. fold ps in Hdec. rewrite Hseq in Hdec.
  assert (frames = data_frames (st_id s) 0 ps) as ->.
  { by eapply decodes_to_inj. }
  assert (Hnps : zlen ps <= zlen input) by (by apply zlen_cut).
  assert (Hcount : zlen ps <= pend) by (by apply cut_count).
  assert (Hc : concat ps = input) by (by apply cut_concat).
  assert (Hsizes : Forall (fun p : bytes => 0 < zlen p <= st_max_payload_per_frame s) ps)
    by (by apply cut_sizes).
  assert (HPs : map fr_seq (feeds ops) ≡ₚ seqZ 0 (zlen ps))
    by (rewrite <- (data_frames_seq (st_id s)); by apply Permutation_map).
  destruct (receive_any_order s0 ps None cap pend ops m n)
    as (seen & s1 & reads & s2 & E1 & E2 & Hout & _); try done.
  - lia.
  - unfold INT64_MAX. lia.
  - unfold sent_frames. cbn. rewrite app_nil_r. unfold zlen in *. rewrite length_map. lia.
  - intros f. rewrite HP. intros Hf'. split; [by eapply data_frames_sent|].
    destruct (data_frames_elem _ _ _ _ Hf') as (i & Hi & _ & _ & ?). split; [done|].
    pose proof (Forall_lookup_1 _ _ _ _ Hsizes Hi). cbn in *. lia.
  - rewrite HPs. apply NoDup_seqZ.
  - intros k Hk. rewrite HPs. apply elem_of_seqZ. lia.
  - by rewrite Hc.
  - rewrite Hc in Hout. by exists seen, s1, reads, s2.
Qed.

(** ** Concrete instances *)

Definition demo_sender (ordering : Z) : cloak_stream_t :=
  Stream 7 ordering demo_obfuscator 2 (replicate 271 0) 271 0 false
    (Bytequeue [] 0 0 0 false) 0 [] 0 1 msgqueue_zero 0 false.

Lemma demo_can_send ordering : can_send (demo_sender ordering).
Proof.
  split; cbn [demo_sender st_write_closed st_obfuscator st_id st_max_payload_per_frame
              st_write_buf st_next_write_seq]; try lia; try done.
Qed.

Definition demo_receiver : cloak_stream_t :=
  snd (cloak_stream_init 7 demo_obfuscator 271 300 8 CLOAK_SESSION_ORDERING_ORDERED false
         (Some (replicate 271 0)) (Some (replicate 300 0))).

Lemma demo_receiver_rep :
  rx_rep demo_receiver (rx_fresh CLOAK_SESSION_ORDERING_ORDERED 300 8).
Proof.
  destruct (stream_init_rep 7 demo_obfuscator 271 300 8 CLOAK_SESSION_ORDERING_ORDERED
              (replicate 271 0) (replicate 300 0)) as (s & E & H & _).
  - by left.
  - unfold INT64_MAX, CLOAK_FRAME_HEADER_LEN, CLOAK_FRAME_MAX_EXTRA_LEN. lia.
  - unfold INT64_MAX, CLOAK_FRAME_HEADER_LEN. lia.
  - by vm_compute.
  - by rewrite zlen_replicate.
  - by rewrite zlen_replicate.
  - unfold demo_receiver. by rewrite E.
Qed.

Lemma zero_rand_ok : rand_ok (fun _ => 0).
Proof. intros i. unfold is_byte. lia. Qed.

Lemma zero_fair : fair 1 (fun _ => 0).
Proof. intros pos. exists 0%nat. split; lia. Qed.

Lemma stream_write_frames_witness :
  let _ := evp_plain in let s := demo_sender CLOAK_SESSION_ORDERING_ORDERED in
  exists ps msgs s' r',
    cloak_stream_write collect 1 s [1; 2; 3] (fun _ => 0) [] = Some (3, s', r', [] ++ msgs) /\
    concat ps = [1; 2; 3] /\ Forall (fun p : bytes => 0 < zlen p <= 2) ps /\
    Forall2 (decodes_to (st_obfuscator s)) msgs (data_frames (st_id s) (st_next_write_seq s) ps) /\
    (st_ordering s = CLOAK_SESSION_ORDERING_UNORDERED -> zlen ps <= 1) /\
    can_send s' /\ st_next_write_seq s' = st_next_write_seq s + zlen ps.
Proof.
  intros E s.
  apply (@stream_write_frames E evp_plain_laws 1 s [1; 2; 3] (fun _ => 0) []).
  - apply demo_can_send.
  - repeat (apply Forall_cons; split; [unfold is_byte; lia|]). done.
  - by vm_compute.
  - apply zero_rand_ok.
  - apply zero_fair.
  - by vm_compute.
Defined.

Definition demo_ops : list rx_op :=
  [RxFeed (Frame 7 1 0 [3] 1); RxRead 5; RxFeed (Frame 7 2 1 [9; 9] 2);
   RxFeed (Frame 7 0 0 [1; 2] 2); RxRead 1].

Lemma stream_reassembles_any_order_witness :
  exists seen s1 reads s2,
    run rx_exec demo_ops demo_receiver = Some (seen, s1) /\
    run rx_exec (replicate 3 (RxRead 2)) s1 = Some (reads, s2) /\
    outputs seen ++ outputs reads = concat [[1; 2]; [3]] /\
    Forall2 (fun o x => match o with
                        | RxFeed _ => rs_rc x <> -1
                        | RxRead _ => rs_rc x = -1 -> outputs seen = concat [[1; 2]; [3]]
                        end) demo_ops seen.
Proof.
  apply (stream_reassembles_any_order demo_receiver [[1; 2]; [3]] (Some (1, [9; 9])) 300 8);
    try lia; try (by vm_compute).
  - apply demo_receiver_rep.
  - intros f Hf. cbn in Hf.
    repeat (apply elem_of_cons in Hf as [->|Hf]; [by vm_compute|]). by apply elem_of_nil in Hf.
  - apply (bool_decide_unpack _). by vm_compute.
  - repeat (apply Forall_cons; split; [by vm_compute|]). done.
  - intros k Hk. unfold zlen in Hk. cbn in Hk |- *.
    assert (k = 0 \/ k = 1) as [-> | ->] by lia; rewrite !elem_of_cons; auto.
Defined.

Lemma stream_end_to_end_witness :
  let _ := evp_plain in let s := demo_sender CLOAK_SESSION_ORDERING_ORDERED in
  let ops := [RxFeed (Frame 7 1 0 [3] 1); RxRead 5; RxFeed (Frame 7 0 0 [1; 2] 2)] in
  exists msgs s' r',
    cloak_stream_write collect 1 s [1; 2; 3] (fun _ => 0) [] = Some (3, s', r', msgs) /\
    forall frames, Forall2 (decodes_to (st_obfuscator s)) msgs frames ->
      feeds ops ≡ₚ frames ->
      exists seen s1 reads s2,
        run rx_exec ops demo_receiver = Some (seen, s1) /\
        run rx_exec (replicate 3 (RxRead 2)) s1 = Some (reads, s2) /\
        outputs seen ++ outputs reads = [1; 2; 3].
Proof.
  intros E s ops.
  apply (@stream_end_to_end E evp_plain_laws 1 s [1; 2; 3] (fun _ => 0) demo_receiver 300 8 ops);
    try lia; try (by vm_compute).
  - repeat (apply Forall_cons; split; [unfold is_byte; lia|]). done.
  - apply zero_fair.
  - apply demo_receiver_rep.
  - repeat (apply Forall_cons; split; [by vm_compute|]). done.
Defined.
