(* ===== verification/StrmTab.v ===== *)
(** * The stream table ([libcloak-mux/src/strmtab.c])

    An open-addressing hash table from stream ids to streams with linear
    probing.  A stream that ended leaves a tombstone, so that a late frame for
    its id is recognised and not taken for a new stream.  Values are
    addresses; NULL is 0. *)
From stdpp Require Import gmap.
From S2P Require Import Prelude Refinement.

Definition CLOAK_STRMTAB_ABSENT : Z := 0.
Definition CLOAK_STRMTAB_ACTIVE : Z := 1.
Definition CLOAK_STRMTAB_TOMBSTONE : Z := 2.

Record cloak_strmtab_slot_t := Slot { sl_key : Z; sl_state : Z; sl_value : Z }.

Record cloak_strmtab_t := Strmtab {
  tb_slots : list cloak_strmtab_slot_t;
  tb_cap : Z;
  tb_count : Z
}.

Definition hash_u32 (x : Z) : Z :=
  let x := Z.lxor x (Z.shiftr x 16) in
  let x := u32 (x * 2246822507) in
  let x := Z.lxor x (Z.shiftr x 13) in
  let x := u32 (x * 3266489909) in
  Z.lxor x (Z.shiftr x 16).

(** The loop of [next_pow2]; [None] when it is still running. *)
Fixpoint next_pow2_loop (fuel : nat) (p n : Z) : option Z :=
  match fuel with
  | O => None
  | S fuel' => if p <? n then next_pow2_loop fuel' (u64 (p * 2)) n else Some p
  end.

Definition next_pow2 (fuel : nat) (n : Z) : option Z := next_pow2_loop fuel 8 n.

Definition slot_zero : cloak_strmtab_slot_t := Slot 0 0 0.

(** [calloc (n, sizeof (cloak_strmtab_slot_t))]; [ok] says whether it succeeds. *)
Definition calloc_slots (ok : bool) (n : Z) : option (list cloak_strmtab_slot_t) :=
  if ok then Some (replicate (Z.to_nat n) slot_zero) else None.

Definition cloak_strmtab_init (fuel : nat) (initial_cap_hint : Z) (calloc_ok : bool)
    : option (Z * cloak_strmtab_t) :=
  let t := Strmtab [] 0 0 in
  if initial_cap_hint =? 0 then Some (-1, t)
  else
    cap ← next_pow2 fuel initial_cap_hint;
    match calloc_slots calloc_ok cap with
    | None => Some (-1, t)
    | Some slots => Some (0, Strmtab slots cap 0)
    end.

Definition cloak_strmtab_destroy (t : cloak_strmtab_t) : cloak_strmtab_t := Strmtab [] 0 0.

(** The probing loop all operations share: the first slot, from [i] on, that
    makes the loop's body return; [Some None] when [fuel] slots did not. *)
Fixpoint strmtab_probe (fuel : nat) (slots : list cloak_strmtab_slot_t) (mask i : Z)
    (stop : cloak_strmtab_slot_t -> bool) : option (option (Z * cloak_strmtab_slot_t)) :=
  match fuel with
  | O => Some None
  | S fuel' =>
      s ← slots.[i];
      if stop s then Some (Some (i, s))
      else strmtab_probe fuel' slots mask (Z.land (i + 1) mask) stop
  end.

Definition slot_absent (s : cloak_strmtab_slot_t) : bool := sl_state s =? CLOAK_STRMTAB_ABSENT.

(** [cloak_strmtab_lookup]: state and value when the key is there. *)
Definition cloak_strmtab_lookup (t : cloak_strmtab_t) (key : Z) : option (option (Z * Z)) :=
  let mask := u64 (tb_cap t - 1) in
  let i := Z.land (hash_u32 key) mask in
  found ← strmtab_probe (Z.to_nat (tb_cap t)) (tb_slots t) mask i
            (fun s => slot_absent s || (sl_key s =? key));
  match found with
  | None => Some None
  | Some (_, s) => Some (if slot_absent s then None else Some (sl_state s, sl_value s))
  end.

(** Move the slots of the old array from index [i] on; a slot is put where the
    [while] loop of the source finds room ([None] if it never would). *)
Fixpoint strmtab_rehash (old new : list cloak_strmtab_slot_t) (mask count : Z)
    : option (list cloak_strmtab_slot_t * Z) :=
  match old with
  | [] => Some (new, count)
  | s :: old' =>
      if slot_absent s then strmtab_rehash old' new mask count
      else
        found ← strmtab_probe (length new) new mask (Z.land (hash_u32 (sl_key s)) mask)
                  slot_absent;
        match found with
        | None => None
        | Some (j, _) =>
            new' ← mem_set new j s; strmtab_rehash old' new' mask (u64 (count + 1))
        end
  end.

Definition strmtab_grow (t : cloak_strmtab_t) (calloc_ok : bool)
    : option (Z * cloak_strmtab_t) :=
  let new_cap := u64 (tb_cap t * 2) in
  match calloc_slots calloc_ok new_cap with
  | None => Some (-1, t)
  | Some new_slots =>
      '(slots, count) ← strmtab_rehash (tb_slots t) new_slots (u64 (new_cap - 1)) 0;
      Some (0, Strmtab slots new_cap count)
  end.

Definition cloak_strmtab_insert_active (t : cloak_strmtab_t) (key value : Z) (calloc_ok : bool)
    : option (Z * cloak_strmtab_t) :=
  '(rc, t) ← (if u64 (tb_cap t * 7) <=? u64 (tb_count t * 10) then strmtab_grow t calloc_ok
              else Some (0, t));
  if negb (rc =? 0) then Some (-1, t)
  else
    let mask := u64 (tb_cap t - 1) in
    let i := Z.land (hash_u32 key) mask in
    found ← strmtab_probe (Z.to_nat (tb_cap t)) (tb_slots t) mask i
              (fun s => slot_absent s || (sl_key s =? key));
    match found with
    | None => Some (-1, t)
    | Some (j, s) =>
        if slot_absent s then
          slots ← mem_set (tb_slots t) j (Slot key CLOAK_STRMTAB_ACTIVE value);
          Some (0, Strmtab slots (tb_cap t) (u64 (tb_count t + 1)))
        else if sl_state s =? CLOAK_STRMTAB_ACTIVE then Some (-1, t)
        else
          slots ← mem_set (tb_slots t) j (Slot (sl_key s) CLOAK_STRMTAB_ACTIVE value);
          Some (0, Strmtab slots (tb_cap t) (tb_count t))
    end.

Definition cloak_strmtab_tombstone (t : cloak_strmtab_t) (key : Z)
    : option (Z * cloak_strmtab_t) :=
  let mask := u64 (tb_cap t - 1) in
  let i := Z.land (hash_u32 key) mask in
  found ← strmtab_probe (Z.to_nat (tb_cap t)) (tb_slots t) mask i
            (fun s => slot_absent s ||
                      ((sl_state s =? CLOAK_STRMTAB_ACTIVE) && (sl_key s =? key)));
  match found with
  | None => Some (-1, t)
  | Some (j, s) =>
      if slot_absent s then Some (-1, t)
      else
        slots ← mem_set (tb_slots t) j (Slot (sl_key s) CLOAK_STRMTAB_TOMBSTONE 0);
        Some (0, Strmtab slots (tb_cap t) (tb_count t))
  end.

(** The calls [cloak_strmtab_for_each_active] makes, in order. *)
Definition cloak_strmtab_for_each_active (t : cloak_strmtab_t) : list (Z * Z) :=
  omap (fun s => if sl_state s =? CLOAK_STRMTAB_ACTIVE then Some (sl_key s, sl_value s) else None)
    (tb_slots t).

(** ** The contract: a finite map that remembers what was removed *)

(** State (active or tombstone) and value of every id ever inserted. *)
Abbreviation strmap := (gmap Z (Z * Z)).

Definition map_insert_active (m : strmap) (key value : Z) : Z * strmap :=
  match m !! key with
  | Some (st, _) =>
      if st =? CLOAK_STRMTAB_ACTIVE then (-1, m)
      else (0, <[key := (CLOAK_STRMTAB_ACTIVE, value)]> m)
  | None => (0, <[key := (CLOAK_STRMTAB_ACTIVE, value)]> m)
  end.

Definition map_tombstone (m : strmap) (key : Z) : Z * strmap :=
  match m !! key with
  | Some (st, _) =>
      if st =? CLOAK_STRMTAB_ACTIVE then (0, <[key := (CLOAK_STRMTAB_TOMBSTONE, 0)]> m)
      else (-1, m)
  | None => (-1, m)
  end.

(** ** The representation *)

Definition entry (s : cloak_strmtab_slot_t) : option (Z * (Z * Z)) :=
  if slot_absent s then None else Some (sl_key s, (sl_state s, sl_value s)).

Definition entries (slots : list cloak_strmtab_slot_t) : list (Z * (Z * Z)) := omap entry slots.

#[global] Arguments entries : simpl never.

(** Position [p] of a key's probe sequence in an array of [cap] slots. *)
Definition probe_at (cap key p : Z) : Z := (hash_u32 key + p) mod cap.

(** Every stored key is found by probing. *)
Definition reachable_slots (cap : Z) (slots : list cloak_strmtab_slot_t) : Prop :=
  forall i s, slots.[i] = Some s -> slot_absent s = false ->
  exists p, 0 <= p < cap /\ i = probe_at cap (sl_key s) p /\
    forall q, 0 <= q < p ->
      exists s', slots.[probe_at cap (sl_key s) q] = Some s' /\ slot_absent s' = false.

Record slots_rep (cap : Z) (slots : list cloak_strmtab_slot_t) (m : strmap) : Prop := {
  sr_len : zlen slots = cap;
  sr_pow : exists k, 3 <= k <= 60 /\ cap = 2 ^ k;
  sr_nodup : NoDup (map fst (entries slots));
  sr_map : m = list_to_map (entries slots);
  sr_path : reachable_slots cap slots
}.

Record tab_rep (t : cloak_strmtab_t) (m : strmap) : Prop := {
  tr_slots : slots_rep (tb_cap t) (tb_slots t) m;
  tr_count : tb_count t = Z.of_nat (size m);
  tr_load : tb_count t * 10 < tb_cap t * 7 + 10;
  tr_keys : forall k x, m !! k = Some x -> 0 <= k < 4294967296
}.

(** ** Probing *)

Lemma hash_range x : 0 <= x < 4294967296 -> 0 <= hash_u32 x.
Proof.
  intros Hx. unfold hash_u32. cbv zeta. pose proof (u32_range (u32 1)).
  apply Z.lxor_nonneg. rewrite Z.shiftr_nonneg. tauto.
Qed.

Lemma land_mask k x : 0 <= k -> Z.land x (2 ^ k - 1) = x mod 2 ^ k.
Proof.
  intros. replace (2 ^ k - 1) with (Z.ones k) by (rewrite Z.ones_equiv; lia).
  by apply Z.land_ones.
Qed.

Lemma probe_at_range cap key p : 0 < cap -> 0 <= probe_at cap key p < cap.
Proof. intros. by apply Z.mod_pos_bound. Qed.

(** The loop, from position [p0] of a key's sequence. *)
Lemma strmtab_probe_spec fuel slots k key p0 stop :
  zlen slots = 2 ^ k -> 0 <= k ->
  match strmtab_probe fuel slots (2 ^ k - 1) (probe_at (2 ^ k) key p0) stop with
  | None => False
  | Some None => forall p, p0 <= p < p0 + Z.of_nat fuel ->
      exists s, slots.[probe_at (2 ^ k) key p] = Some s /\ stop s = false
  | Some (Some (j, s)) => exists p, p0 <= p < p0 + Z.of_nat fuel /\
      j = probe_at (2 ^ k) key p /\ slots.[j] = Some s /\ stop s = true /\
      forall q, p0 <= q < p -> exists s', slots.[probe_at (2 ^ k) key q] = Some s' /\ stop s' = false
  end.
Proof.
  intros Hlen Hk. assert (Hc : 0 < 2 ^ k) by (by apply Z.pow_pos_nonneg).
  revert p0. induction fuel as [|fuel IH]; intros p0; cbn [strmtab_probe]; [intros; lia|].
  pose proof (probe_at_range (2 ^ k) key p0 Hc) as Hr.
  destruct (mem_get_Some slots (probe_at (2 ^ k) key p0)) as [s Hs]; [lia|].
  rewrite Hs. cbn [mbind option_bind]. destruct (stop s) eqn:Es.
  { exists p0. split_and!; try done; try lia. }
  assert (Hnext : Z.land (probe_at (2 ^ k) key p0 + 1) (2 ^ k - 1) = probe_at (2 ^ k) key (p0 + 1)).
  { rewrite land_mask by done. unfold probe_at. rewrite Zplus_mod_idemp_l. f_equal. lia. }
  rewrite Hnext. specialize (IH (p0 + 1)).
  destruct (strmtab_probe _ _ _ _ _) as [[[j s']|]|]; [|intros p Hp|done].
  - destruct IH as (p & Hp & -> & Hj & Hst & Hbefore). exists p. split_and!; try done; try lia.
    intros q Hq. destruct (decide (q = p0)) as [->|]; [by exists s|]. apply Hbefore. lia.
  - destruct (decide (p = p0)) as [->|]; [by exists s|]. apply IH. lia.
Qed.

(** ** Slots and entries *)

Lemma entries_cons s slots :
  entries (s :: slots) = if slot_absent s then entries slots
                         else (sl_key s, (sl_state s, sl_value s)) :: entries slots.
Proof. unfold entries. cbn. unfold entry at 1. by destruct (slot_absent s). Qed.

Lemma entries_nodup_inj slots i j s s' :
  NoDup (map fst (entries slots)) -> slots !! i = Some s -> slots !! j = Some s' ->
  slot_absent s = false -> slot_absent s' = false -> sl_key s = sl_key s' -> i = j.
Proof.
  revert i j. induction slots as [|s0 slots IH]; intros i j Hn Hi Hj Ha Ha' Hk; [done|].
  assert (Hin : forall l t x, l !! t = Some x -> slot_absent x = false ->
            sl_key x ∈ map fst (entries l)).
  { intros l t x Hx Hxa. apply list_elem_of_fmap. exists (sl_key x, (sl_state x, sl_value x)).
    split; [done|]. apply list_elem_of_omap. exists x. split; [by eapply list_elem_of_lookup_2|].
    unfold entry. by rewrite Hxa. }
  rewrite entries_cons in Hn. destruct i as [|i], j as [|j]; cbn in Hi, Hj; [done| | |].
  - injection Hi as ->. rewrite Ha in Hn. cbn in Hn. apply NoDup_cons in Hn as [Hn _].
    exfalso. apply Hn. rewrite Hk. by eapply Hin.
  - injection Hj as ->. rewrite Ha' in Hn. cbn in Hn. apply NoDup_cons in Hn as [Hn _].
    exfalso. apply Hn. rewrite <- Hk. by eapply Hin.
  - f_equal. apply IH; try done. destruct (slot_absent s0); [done|].
    cbn in Hn. by apply NoDup_cons in Hn as [_ Hn].
Qed.

Lemma entries_lookup cap slots m i s :
  slots_rep cap slots m -> slots.[i] = Some s -> slot_absent s = false ->
  m !! sl_key s = Some (sl_state s, sl_value s).
Proof.
  intros H Hi Ha. rewrite (sr_map _ _ _ H). apply elem_of_list_to_map_1.
  - apply H.
  - apply mem_get_inv in Hi as [_ Hi]. apply list_elem_of_omap.
    exists s. split; [by eapply list_elem_of_lookup_2|]. unfold entry. by rewrite Ha.
Qed.

Lemma lookup_entries cap slots m k x :
  slots_rep cap slots m -> m !! k = Some x ->
  exists i s, slots.[i] = Some s /\ slot_absent s = false /\ sl_key s = k /\
    x = (sl_state s, sl_value s).
Proof.
  intros H Hk. rewrite (sr_map _ _ _ H) in Hk. apply elem_of_list_to_map_2 in Hk.
  apply list_elem_of_omap in Hk as (s & Hs & He). unfold entry in He.
  destruct (slot_absent s) eqn:Ea; [done|]. injection He as <- <-.
  apply list_elem_of_lookup in Hs as [i Hi]. exists (Z.of_nat i), s.
  split_and!; try done. rewrite mem_get_lookup by lia. by rewrite Nat2Z.id.
Qed.

Lemma entries_perm slots j s :
  slots !! j = Some s -> entries slots ≡ₚ option_list (entry s) ++ entries (delete j slots).
Proof.
  intros Hj. unfold entries. rewrite (delete_Permutation slots j s Hj) at 1. cbn.
  by destruct (entry s).
Qed.

Lemma entries_perm_insert slots j s :
  (j < length slots)%nat ->
  entries (<[j := s]> slots) ≡ₚ option_list (entry s) ++ entries (delete j slots).
Proof.
  intros Hj. unfold entries. rewrite (insert_perm slots j s Hj). cbn. by destruct (entry s).
Qed.

(** Writing a slot that is in use afterwards, at a position of its key's
    probe sequence that is behind used slots only. *)
Lemma slots_rep_set cap slots m j s s' p :
  slots_rep cap slots m -> slots.[j] = Some s -> slot_absent s' = false ->
  (slot_absent s = true /\ m !! sl_key s' = None \/
   slot_absent s = false /\ sl_key s = sl_key s') ->
  0 <= p < cap -> j = probe_at cap (sl_key s') p ->
  (forall q, 0 <= q < p -> exists s0, slots.[probe_at cap (sl_key s') q] = Some s0 /\
                                      slot_absent s0 = false) ->
  exists slots', mem_set slots j s' = Some slots' /\
    slots_rep cap slots' (<[sl_key s' := (sl_state s', sl_value s')]> m).
Proof.
  intros H Hj Ha' Hcase Hp Hjp Hbefore. pose proof H as [Hlen Hpow Hn Hm Hpath].
  destruct (mem_get_inv _ _ _ Hj) as [Hjr Hjl].
  assert (Hset : mem_set slots j s' = Some (<[Z.to_nat j := s']> slots))
    by (apply mem_set_Some; lia).
  set (slots' := <[Z.to_nat j := s']> slots) in *. exists slots'. split; [done|].
  assert (Hget : forall i, slots'.[i] = if i =? j then Some s' else slots.[i])
    by (intros i; by destruct (mem_set_get _ _ _ _ i Hset)).
  pose proof (entries_perm _ _ _ Hjl) as P.
  pose proof (entries_perm_insert slots (Z.to_nat j) s' ltac:(unfold zlen in *; lia)) as P'.
  fold slots' in P'. set (E := entries (delete (Z.to_nat j) slots)) in *.
  assert (He' : entry s' = Some (sl_key s', (sl_state s', sl_value s')))
    by (unfold entry; by rewrite Ha').
  rewrite He' in P'. cbn [option_list app] in P'.
  (* the other entries do not have this key *)
  assert (Hnew : (sl_key s' ∉ map fst E) /\
                 <[sl_key s' := (sl_state s', sl_value s')]> m
                 = list_to_map ((sl_key s', (sl_state s', sl_value s')) :: E) /\ NoDup (map fst E)).
  { destruct Hcase as [[Ha Hnone]|[Ha Hk]]; unfold entry in P; rewrite Ha in P; cbn in P.
    - split_and!.
      + rewrite Hm in Hnone. apply not_elem_of_list_to_map in Hnone.
        intros Hin. apply Hnone. by rewrite P.
      + cbn. f_equal. rewrite Hm. by apply list_to_map_proper.
      + by rewrite <- P.
    - assert (Hn' : NoDup (map fst ((sl_key s, (sl_state s, sl_value s)) :: E)))
        by (by rewrite <- P).
      cbn in Hn'. apply NoDup_cons in Hn' as [Hn1 Hn2]. rewrite <- Hk. split_and!; [done| |done].
      rewrite Hm, (list_to_map_proper (M := gmap Z) _ _ Hn P). cbn. apply insert_insert_eq. }
  destruct Hnew as (Hk' & Hmap & HnE).
  assert (HnE' : NoDup (map fst ((sl_key s', (sl_state s', sl_value s')) :: E)))
    by (cbn; by apply NoDup_cons).
  split.
  - unfold slots', zlen. rewrite length_insert. exact Hlen.
  - done.
  - by rewrite P'.
  - rewrite Hmap. symmetry. apply list_to_map_proper; [by rewrite P'|done].
  - intros i si Hi Hia. rewrite Hget in Hi.
    assert (Hmono : forall q key,
      (exists s0, slots.[probe_at cap key q] = Some s0 /\ slot_absent s0 = false) ->
      exists s0, slots'.[probe_at cap key q] = Some s0 /\ slot_absent s0 = false).
    { intros q key (s0 & Hs0 & Ha0). rewrite Hget.
      destruct (probe_at cap key q =? j); [by exists s'|by exists s0]. }
    destruct (Z.eqb_spec i j) as [->|Hij].
    + injection Hi as <-. exists p. split_and!; try done; try lia. intros q Hq. by apply Hmono, Hbefore.
    + destruct (Hpath i si Hi Hia) as (pi & Hpi & Hip & Hbi). exists pi. split_and!; try done; try lia.
      intros q Hq. by apply Hmono, Hbi.
Qed.

Lemma slots_rep_mask cap slots m : slots_rep cap slots m -> u64 (cap - 1) = cap - 1 /\ 8 <= cap.
Proof.
  intros [_ (k & Hk & ->) _ _ _].
  assert (2 ^ 3 <= 2 ^ k) by (apply Z.pow_le_mono_r; lia).
  assert (2 ^ k <= 2 ^ 60) by (apply Z.pow_le_mono_r; lia).
  split; [apply u64_small|]; lia.
Qed.

Lemma slots_rep_size cap slots m : slots_rep cap slots m -> size m = length (entries slots).
Proof.
  intros [_ _ Hn -> _]. induction (entries slots) as [|[k x] l IH]; cbn; [apply map_size_empty|].
  cbn in Hn. apply NoDup_cons in Hn as [Hk Hn]. rewrite map_size_insert_None.
  - by rewrite IH.
  - by apply not_elem_of_list_to_map_1.
Qed.

(** A table that is not full has a free slot, and probing meets it. *)
Lemma free_slot cap slots m key :
  slots_rep cap slots m -> Z.of_nat (size m) < cap ->
  exists p s, 0 <= p < cap /\ slots.[probe_at cap key p] = Some s /\ slot_absent s = true.
Proof.
  intros H Hs. pose proof (slots_rep_size _ _ _ H) as Hsz. pose proof (sr_len _ _ _ H) as Hlen.
  destruct (slots_rep_mask _ _ _ H) as [_ Hc].
  assert (exists i s, slots !! i = Some s /\ slot_absent s = true) as (i & s & Hi & Ha).
  { rewrite Hsz in Hs. unfold zlen in Hlen. clear -Hs Hlen. revert cap Hs Hlen.
    induction slots as [|s slots IH]; cbn; intros cap Hs Hlen; [lia|].
    rewrite entries_cons in Hs. destruct (slot_absent s) eqn:Ea; [by exists 0%nat, s|].
    cbn in Hs. destruct (IH (cap - 1)) as (i & s' & ? & ?); [lia|lia|].
    by exists (S i), s'. }
  pose proof (lookup_lt_Some _ _ _ Hi) as Hil.
  exists ((Z.of_nat i - hash_u32 key) mod cap), s.
  assert (Hp : probe_at cap key ((Z.of_nat i - hash_u32 key) mod cap) = Z.of_nat i).
  { unfold probe_at. rewrite Zplus_mod_idemp_r.
    replace (hash_u32 key + (Z.of_nat i - hash_u32 key)) with (Z.of_nat i) by lia.
    apply Z.mod_small. unfold zlen in Hlen. lia. }
  rewrite Hp. split; [apply Z.mod_pos_bound; lia|]. split; [|done].
  rewrite mem_get_lookup by lia. by rewrite Nat2Z.id.
Qed.

(** Probing for a key: its slot, or the free slot an insertion may take. *)
Lemma probe_key cap slots m key :
  slots_rep cap slots m ->
  let found := strmtab_probe (Z.to_nat cap) slots (cap - 1) (Z.land (hash_u32 key) (cap - 1))
                 (fun s => slot_absent s || (sl_key s =? key)) in
  match found with
  | None => False
  | Some None => m !! key = None /\ cap <= Z.of_nat (size m)
  | Some (Some (j, s)) =>
      slots.[j] = Some s /\
      (exists p, 0 <= p < cap /\ j = probe_at cap key p /\
         forall q, 0 <= q < p -> exists s0, slots.[probe_at cap key q] = Some s0 /\
                                            slot_absent s0 = false) /\
      if slot_absent s then m !! key = None
      else sl_key s = key /\ m !! key = Some (sl_state s, sl_value s)
  end.
Proof.
  intros H found. pose proof H as [Hlen (k & Hk & ->) Hn _ Hpath].
  assert (Hc : 0 < 2 ^ k) by (apply Z.pow_pos_nonneg; lia).
  unfold found. clear found. replace (Z.land (hash_u32 key) (2 ^ k - 1)) with (probe_at (2 ^ k) key 0)
    by (rewrite land_mask by lia; unfold probe_at; by rewrite Z.add_0_r).
  pose proof (strmtab_probe_spec (Z.to_nat (2 ^ k)) slots k key 0
                (fun s => slot_absent s || (sl_key s =? key)) Hlen ltac:(lia)) as Hp.
  rewrite Z2Nat.id in Hp by lia.
  destruct (strmtab_probe _ _ _ _ _) as [[[j s]|]|]; [| |done].
  - destruct Hp as (p & Hp & -> & Hj & Hst & Hbefore).
    assert (Hb : forall q, 0 <= q < p -> exists s0, slots.[probe_at (2 ^ k) key q] = Some s0 /\
                   slot_absent s0 = false /\ sl_key s0 <> key).
    { intros q Hq. destruct (Hbefore q Hq) as (s0 & ? & [? ?]%orb_false_iff). exists s0.
      split_and!; [done..|]. by apply Z.eqb_neq. }
    split; [done|]. split.
    { exists p. split_and!; try done; try lia. intros q Hq.
      destruct (Hb q Hq) as (s0 & ? & ? & _). eauto. }
    destruct (slot_absent s) eqn:Ea.
    + destruct (m !! key) eqn:Em; [exfalso|done].
      destruct (lookup_entries _ _ _ _ _ H Em) as (i & s1 & Hi & Ha1 & Hk1 & _).
      destruct (Hpath i s1 Hi Ha1) as (p1 & Hp1 & Hip1 & Hb1). rewrite Hk1 in *.
      destruct (Z.lt_trichotomy p1 p) as [?|[->|?]].
      * destruct (Hb p1) as (s2 & Hs2 & _ & Hne); [lia|]. congruence.
      * congruence.
      * destruct (Hb1 p) as (s2 & Hs2 & Ha2); [lia|]. congruence.
    + cbn in Hst. apply Z.eqb_eq in Hst. split; [done|]. rewrite <- Hst.
      by eapply entries_lookup.
  - split.
    + destruct (m !! key) eqn:Em; [exfalso|done].
      destruct (lookup_entries _ _ _ _ _ H Em) as (i & s1 & Hi & Ha1 & Hk1 & _).
      destruct (Hpath i s1 Hi Ha1) as (p1 & Hp1 & Hip1 & _). rewrite Hk1 in *.
      destruct (Hp p1) as (s2 & Hs2 & [_ Hne]%orb_false_iff); [lia|].
      apply Z.eqb_neq in Hne. congruence.
    + destruct (Z.le_gt_cases (2 ^ k) (Z.of_nat (size m))); [done|exfalso].
      destruct (free_slot _ _ _ key H) as (p & s & Hpr & Hs & Ha); [lia|].
      destruct (Hp p) as (s' & Hs' & [? _]%orb_false_iff); [lia|]. congruence.
Qed.

(** ** Growing *)

Lemma slots_rep_empty k :
  3 <= k <= 60 -> slots_rep (2 ^ k) (replicate (Z.to_nat (2 ^ k)) slot_zero) ∅.
Proof.
  intros Hk. assert (Hc : 0 < 2 ^ k) by (apply Z.pow_pos_nonneg; lia).
  assert (He : forall n, entries (replicate n slot_zero) = []) by (induction n; done).
  split.
  - rewrite zlen_replicate. lia.
  - by exists k.
  - rewrite He. constructor.
  - by rewrite He.
  - intros i s (_ & Hi)%mem_get_inv. apply lookup_replicate_1 in Hi as [-> _]. done.
Qed.

(** Probing for a free slot. *)
Lemma probe_free cap slots m key :
  slots_rep cap slots m -> Z.of_nat (size m) < cap ->
  exists j s p, strmtab_probe (length slots) slots (cap - 1) (Z.land (hash_u32 key) (cap - 1))
                  slot_absent = Some (Some (j, s)) /\
    slots.[j] = Some s /\ slot_absent s = true /\ 0 <= p < cap /\ j = probe_at cap key p /\
    forall q, 0 <= q < p -> exists s0, slots.[probe_at cap key q] = Some s0 /\
                                       slot_absent s0 = false.
Proof.
  intros H Hs. destruct (free_slot _ _ _ key H Hs) as (p0 & s0 & Hp0 & Hs0 & Ha0).
  pose proof H as [Hlen (k & Hk & ->) _ _ _].
  assert (Hc : 0 < 2 ^ k) by (apply Z.pow_pos_nonneg; lia).
  replace (Z.land (hash_u32 key) (2 ^ k - 1)) with (probe_at (2 ^ k) key 0)
    by (rewrite land_mask by lia; unfold probe_at; by rewrite Z.add_0_r).
  pose proof (strmtab_probe_spec (length slots) slots k key 0 slot_absent Hlen ltac:(lia)) as Hp.
  fold (zlen slots) in Hp. rewrite Hlen in Hp.
  destruct (strmtab_probe _ _ _ _ _) as [[[j s]|]|]; [| |done].
  - destruct Hp as (p & Hp & -> & Hj & Hst & Hb). exists (probe_at (2 ^ k) key p), s, p.
    split_and!; try done; lia.
  - destruct (Hp p0) as (s1 & Hs1 & Ha1); [lia|]. congruence.
Qed.

(** Rehashing moves every entry, once. *)
Lemma strmtab_rehash_spec cap old new m :
  slots_rep cap new m -> NoDup (map fst (entries old)) ->
  (forall k, k ∈ map fst (entries old) -> m !! k = None) ->
  Z.of_nat (size m) + Z.of_nat (length old) < cap ->
  exists new' count, strmtab_rehash old new (cap - 1) (Z.of_nat (size m)) = Some (new', count) /\
    slots_rep cap new' (list_to_map (entries old) ∪ m) /\
    count = Z.of_nat (size (list_to_map (entries old) ∪ m : strmap)).
Proof.
  revert new m. induction old as [|s old IH]; intros new m H Hn Hdis Hsz; cbn [strmtab_rehash].
  { exists new, (Z.of_nat (size m)). unfold entries. cbn.
    by rewrite map_empty_union. }
  rewrite entries_cons in *. cbn [length] in Hsz.
  destruct (slot_absent s) eqn:Ea; [apply IH; done || lia|].
  cbn [map] in Hn, Hdis. apply NoDup_cons in Hn as [Hn1 Hn2].
  destruct (probe_free _ _ _ (sl_key s) H) as (j & s0 & p & -> & Hj & Ha0 & Hp & Hjp & Hb); [lia|].
  cbn [mbind option_bind].
  assert (Hnone : m !! sl_key s = None) by (apply Hdis; left).
  destruct (slots_rep_set cap new m j s0 s p H Hj Ea) as (new1 & -> & H1); try done; [by left|].
  cbn [mbind option_bind].
  assert (Hsz1 : size (<[sl_key s := (sl_state s, sl_value s)]> m) = S (size m))
    by (by apply map_size_insert_None).
  destruct (slots_rep_mask _ _ _ H) as [_ _].
  assert (Hcap : cap <= 2 ^ 60).
  { destruct H as [_ (k & Hk & ->) _ _ _]. apply Z.pow_le_mono_r; lia. }
  change (2 ^ 60) with 1152921504606846976 in Hcap. usimpl.
  replace (Z.of_nat (size m) + 1) with (Z.of_nat (size (<[sl_key s := (sl_state s, sl_value s)]> m)))
    by lia.
  destruct (IH new1 _ H1) as (new2 & count & -> & H2 & Hc2).
  - done.
  - intros k Hk. rewrite lookup_insert_ne; [apply Hdis; by right|]. intros E. by rewrite <- E in Hk.
  - lia.
  - exists new2, count. split; [done|]. rewrite list_to_map_cons.
    rewrite <- insert_union_l, insert_union_r; [done|]. by apply not_elem_of_list_to_map_1.
Qed.

(** The rehash of a table into twice the room leaves the map alone. *)
Lemma strmtab_grow_spec t m :
  tab_rep t m -> tb_cap t <= 2 ^ 59 ->
  exists t', strmtab_grow t true = Some (0, t') /\ tab_rep t' m /\ tb_cap t' = 2 * tb_cap t.
Proof.
  intros [H Hc Hl Hk] Hcap. pose proof (slots_rep_mask _ _ _ H) as [_ H8].
  change (2 ^ 59) with 576460752303423488 in Hcap. unfold strmtab_grow, calloc_slots. cbv zeta. usimpl.
  pose proof H as [Hlen (k & Hkr & Hpow) Hn Hm _].
  assert (Hk59 : k <= 59).
  { destruct (Z.le_gt_cases k 59); [done|]. assert (2 ^ 60 <= 2 ^ k) by (apply Z.pow_le_mono_r; lia).
    lia. }
  assert (H2 : tb_cap t * 2 = 2 ^ (k + 1)) by (rewrite Z.pow_add_r, <- Hpow by lia; lia).
  rewrite H2.
  destruct (strmtab_rehash_spec (2 ^ (k + 1)) (tb_slots t) _ ∅ (slots_rep_empty (k + 1) ltac:(lia)))
    as (slots & count & E & Hs & Hcount).
  - done.
  - intros. apply lookup_empty.
  - rewrite map_size_empty. unfold zlen in Hlen. lia.
  - rewrite map_size_empty in E. change (Z.of_nat 0) with 0 in E. rewrite E. cbn [mbind option_bind].
    rewrite map_union_empty, <- Hm in *. eexists; split; [done|]. split; [|cbn; lia].
    split; cbn; [done|done| |done]. rewrite Hcount, <- Hc, <- H2. lia.
Qed.

Lemma insert_mem_None {A} (l : list A) i x : 0 <= i < zlen l -> exists l', mem_set l i x = Some l'.
Proof. intros. rewrite mem_set_Some by done. eauto. Qed.

(** ** Each operation implements the contract *)

Lemma strmtab_lookup_spec t m key :
  tab_rep t m -> cloak_strmtab_lookup t key = Some (m !! key).
Proof.
  intros [H _ _ _]. unfold cloak_strmtab_lookup.
  destruct (slots_rep_mask _ _ _ H) as [-> _].
  pose proof (probe_key _ _ _ key H) as Hp. cbv zeta in Hp.
  destruct (strmtab_probe _ _ _ _ _) as [[[j s]|]|]; [| |done]; cbn [mbind option_bind].
  - destruct Hp as (_ & _ & Hp). destruct (slot_absent s); [by rewrite Hp|].
    by destruct Hp as [_ ->].
  - by destruct Hp as [-> _].
Qed.

Lemma strmtab_insert_no_grow t m key value :
  tab_rep t m -> 0 <= key < 4294967296 -> tb_count t * 10 < tb_cap t * 7 ->
  tb_cap t <= 2 ^ 60 ->
  exists rc t',
    (let mask := u64 (tb_cap t - 1) in
     let i := Z.land (hash_u32 key) mask in
     found ← strmtab_probe (Z.to_nat (tb_cap t)) (tb_slots t) mask i
               (fun s => slot_absent s || (sl_key s =? key));
     match found with
     | None => Some (-1, t)
     | Some (j, s) =>
         if slot_absent s then
           slots ← mem_set (tb_slots t) j (Slot key CLOAK_STRMTAB_ACTIVE value);
           Some (0, Strmtab slots (tb_cap t) (u64 (tb_count t + 1)))
         else if sl_state s =? CLOAK_STRMTAB_ACTIVE then Some (-1, t)
         else
           slots ← mem_set (tb_slots t) j (Slot (sl_key s) CLOAK_STRMTAB_ACTIVE value);
           Some (0, Strmtab slots (tb_cap t) (tb_count t))
     end) = Some (rc, t') /\
    exists m', map_insert_active m key value = (rc, m') /\ tab_rep t' m'.
Proof.
  intros [H Hc Hl Hk] Hkey Hroom Hcap. change (2 ^ 60) with 1152921504606846976 in Hcap.
  destruct (slots_rep_mask _ _ _ H) as [-> H8]. cbv zeta.
  pose proof (probe_key _ _ _ key H) as Hp. cbv zeta in Hp.
  assert (Hkeys : forall x k y, <[key := x]> m !! k = Some y -> 0 <= k < 4294967296).
  { intros x k y. destruct (decide (k = key)) as [->|Hne]; [done|].
    rewrite lookup_insert_ne by done. apply Hk. }
  destruct (strmtab_probe _ _ _ _ _) as [[[j s]|]|]; [|lia|done]; cbn [mbind option_bind].
  destruct Hp as (Hj & (p & Hpr & Hjp & Hb) & Hs). unfold map_insert_active.
  destruct (slot_absent s) eqn:Ea.
  - rewrite Hs.
    destruct (slots_rep_set _ _ _ j s (Slot key CLOAK_STRMTAB_ACTIVE value) p H Hj)
      as (slots' & -> & H'); [done|by left|done..|]. cbn [mbind option_bind].
    usimpl. do 2 eexists; split; [done|]. eexists; split; [done|]. split; cbn.
    + exact H'.
    + rewrite map_size_insert_None by done. lia.
    + lia.
    + apply Hkeys.
  - destruct Hs as [Hsk Hm]. rewrite Hm. destruct (sl_state s =? CLOAK_STRMTAB_ACTIVE).
    { do 2 eexists; split; [done|]. eexists; split; [done|]. by split. }
    rewrite Hsk.
    destruct (slots_rep_set _ _ _ j s (Slot key CLOAK_STRMTAB_ACTIVE value) p H Hj)
      as (slots' & -> & H'); [done|by right|done..|]. cbn [mbind option_bind].
    do 2 eexists; split; [done|]. eexists; split; [done|]. split; cbn.
    + exact H'.
    + rewrite map_size_insert_Some by (by eexists). lia.
    + lia.
    + apply Hkeys.
Qed.

Lemma map_size_bound (m : strmap) :
  (forall k x, m !! k = Some x -> 0 <= k < 4294967296) -> Z.of_nat (size m) <= 4294967296.
Proof.
  intros Hk. rewrite <- size_dom.
  assert (Hsub : dom m ⊆ list_to_set (seqZ 0 4294967296)).
  { intros k [x Hx]%elem_of_dom. apply elem_of_list_to_set, elem_of_seqZ. specialize (Hk k x Hx). lia. }
  apply subseteq_size in Hsub. rewrite size_list_to_set in Hsub by apply NoDup_seqZ.
  rewrite length_seqZ in Hsub. lia.
Qed.

Lemma strmtab_insert_spec t m key value :
  tab_rep t m -> 0 <= key < 4294967296 ->
  exists rc t' m', cloak_strmtab_insert_active t key value true = Some (rc, t') /\
    map_insert_active m key value = (rc, m') /\ tab_rep t' m'.
Proof.
  intros H Hkey. pose proof H as [Hs Hc Hl Hk].
  pose proof (slots_rep_mask _ _ _ Hs) as [_ H8]. pose proof (map_size_bound m Hk) as Hsz.
  assert (Hcap : tb_cap t <= 2 ^ 60).
  { destruct Hs as [_ (k & Hkr & ->) _ _ _]. apply Z.pow_le_mono_r; lia. }
  unfold cloak_strmtab_insert_active.
  assert (exists t1, (if u64 (tb_cap t * 7) <=? u64 (tb_count t * 10)
                      then strmtab_grow t true else Some (0, t)) = Some (0, t1) /\
            tab_rep t1 m /\ tb_count t1 * 10 < tb_cap t1 * 7 /\ tb_cap t1 <= 2 ^ 60)
    as (t1 & -> & H1 & Hroom & Hcap1).
  { pose proof Hcap as Hcap'. change (2 ^ 60) with 1152921504606846976 in Hcap'. usimpl. case_if.
    - destruct (strmtab_grow_spec t m H) as (t1 & -> & H1 & Ec).
      { change (2 ^ 59) with 576460752303423488. lia. }
      exists t1. split; [done|]. split; [done|]. pose proof (tr_count _ _ H1). split; [lia|].
      change (2 ^ 60) with 1152921504606846976. lia.
    - exists t. split_and!; done || lia. }
  cbn [mbind option_bind Z.eqb negb].
  destruct (strmtab_insert_no_grow t1 m key value H1 Hkey Hroom Hcap1)
    as (rc & t' & E & m' & Em & H').
  exists rc, t', m'. split_and!; done.
Qed.

Lemma strmtab_tombstone_spec t m key :
  tab_rep t m -> 0 <= key < 4294967296 ->
  exists rc t' m', cloak_strmtab_tombstone t key = Some (rc, t') /\
    map_tombstone m key = (rc, m') /\ tab_rep t' m'.
Proof.
  intros H Hkey. pose proof H as [Hs Hc Hl Hk]. unfold cloak_strmtab_tombstone, map_tombstone.
  destruct (slots_rep_mask _ _ _ Hs) as [-> H8].
  pose proof Hs as [Hlen (k & Hkr & Hpow) Hn _ Hpath]. rewrite Hpow in *.
  replace (Z.land (hash_u32 key) (2 ^ k - 1)) with (probe_at (2 ^ k) key 0)
    by (rewrite land_mask by lia; unfold probe_at; by rewrite Z.add_0_r).
  pose proof (strmtab_probe_spec (Z.to_nat (2 ^ k)) (tb_slots t) k key 0
    (fun s => slot_absent s || ((sl_state s =? CLOAK_STRMTAB_ACTIVE) && (sl_key s =? key)))
    Hlen ltac:(lia)) as Hp.
  rewrite Z2Nat.id in Hp by lia.
  (* an active slot of the key is met before the loop ends *)
  assert (Hact : forall v, m !! key = Some (CLOAK_STRMTAB_ACTIVE, v) ->
    exists p s, 0 <= p < 2 ^ k /\ (tb_slots t).[probe_at (2 ^ k) key p] = Some s /\
      slot_absent s = false /\ sl_key s = key /\ sl_state s = CLOAK_STRMTAB_ACTIVE /\
      forall q, 0 <= q < p -> exists s0, (tb_slots t).[probe_at (2 ^ k) key q] = Some s0 /\
                                         slot_absent s0 = false).
  { intros v Hv. destruct (lookup_entries _ _ _ _ _ Hs Hv) as (i & s & Hi & Ha & Hsk & Hst).
    destruct (Hpath i s Hi Ha) as (p & Hpr & -> & Hb). rewrite Hsk in *.
    exists p, s. split_and!; try done; try lia. congruence. }
  destruct (strmtab_probe _ _ _ _ _) as [[[j s]|]|]; [| |done]; cbn [mbind option_bind].
  - destruct Hp as (p & Hpr & -> & Hj & Hst & Hb). destruct (slot_absent s) eqn:Ea.
    + exists (-1), t, m. split; [done|]. split; [|done].
      destruct (m !! key) as [[st v]|] eqn:Em; [|done].
      destruct (Z.eqb_spec st CLOAK_STRMTAB_ACTIVE) as [->|]; [exfalso|done].
      destruct (Hact v eq_refl) as (p1 & s1 & Hp1 & Hs1 & Ha1 & Hk1 & Hst1 & Hb1).
      destruct (Z.lt_trichotomy p1 p) as [?|[->|?]].
      * destruct (Hb p1) as (s2 & Hs2 & Hno); [lia|]. assert (s2 = s1) as -> by congruence.
        rewrite Ha1, Hst1, Hk1, !Z.eqb_refl in Hno. done.
      * congruence.
      * destruct (Hb1 p) as (s2 & Hs2 & Ha2); [lia|]. congruence.
    + cbn in Hst. bool_hyps. pose proof (entries_lookup _ _ _ _ _ Hs Hj Ea) as Hm.
      rewrite H1, H0 in Hm. rewrite Hm, Z.eqb_refl.
      destruct (slots_rep_set _ _ _ _ s (Slot (sl_key s) CLOAK_STRMTAB_TOMBSTONE 0) p Hs Hj)
        as (slots' & -> & H'); try done; try lia.
      * by right.
      * cbn. by rewrite H1.
      * cbn. intros q Hq. rewrite H1.
        destruct (Hb q Hq) as (s0 & ? & [? _]%orb_false_iff). eauto.
      * cbn [mbind option_bind sl_key sl_state sl_value] in *. rewrite H1 in H'.
        do 3 eexists; split; [done|]. split; [done|]. split; cbn; rewrite <- ?Hpow.
        -- rewrite Hpow. exact H'.
        -- rewrite map_size_insert_Some by (by eexists). done.
        -- rewrite Hpow. lia.
        -- intros k' y. destruct (decide (k' = key)) as [->|Hne]; [done|].
           rewrite lookup_insert_ne by done. apply Hk.
  - exists (-1), t, m. split; [done|]. split; [|done].
    destruct (m !! key) as [[st v]|] eqn:Em; [|done].
    destruct (Z.eqb_spec st CLOAK_STRMTAB_ACTIVE) as [->|]; [exfalso|done].
    destruct (Hact v eq_refl) as (p1 & s1 & Hp1 & Hs1 & Ha1 & Hk1 & Hst1 & Hb1).
    destruct (Hp p1) as (s2 & Hs2 & Hno); [lia|]. assert (s2 = s1) as -> by congruence.
    rewrite Ha1, Hst1, Hk1, !Z.eqb_refl in Hno. done.
Qed.

(** The iteration visits exactly the active entries, each once. *)
Lemma strmtab_for_each_spec t m :
  tab_rep t m ->
  NoDup (map fst (cloak_strmtab_for_each_active t)) /\
  forall key value, (key, value) ∈ cloak_strmtab_for_each_active t <->
                    m !! key = Some (CLOAK_STRMTAB_ACTIVE, value).
Proof.
  intros [Hs _ _ _]. unfold cloak_strmtab_for_each_active. split.
  - pose proof (sr_nodup _ _ _ Hs) as Hn. clear Hs. revert Hn.
    induction (tb_slots t) as [|s slots IH]; [done|]. rewrite entries_cons. intros Hn. cbn.
    assert (Hsub : forall k, k ∈ map fst (omap (fun s => if sl_state s =? CLOAK_STRMTAB_ACTIVE
              then Some (sl_key s, sl_value s) else None) slots) -> k ∈ map fst (entries slots)).
    { intros k ([k' v] & -> & Hin)%list_elem_of_fmap.
      apply list_elem_of_omap in Hin as (s' & Hs' & E).
      destruct (Z.eqb_spec (sl_state s') CLOAK_STRMTAB_ACTIVE) as [Est|]; [|done].
      injection E as <- <-. apply list_elem_of_fmap. exists (sl_key s', (sl_state s', sl_value s')).
      split; [done|]. apply list_elem_of_omap. exists s'. split; [done|]. unfold entry, slot_absent.
      by rewrite Est. }
    unfold slot_absent in Hn.
    destruct (Z.eqb_spec (sl_state s) CLOAK_STRMTAB_ACTIVE) as [Est|].
    + rewrite Est in Hn. cbn in Hn |- *. apply NoDup_cons in Hn as [Hn1 Hn2].
      apply NoDup_cons. split; [|by apply IH]. intros Hin. by apply Hn1, Hsub.
    + destruct (sl_state s =? CLOAK_STRMTAB_ABSENT); [by apply IH|].
      cbn in Hn. apply NoDup_cons in Hn as [_ Hn2]. by apply IH.
  - intros key value. rewrite list_elem_of_omap. split.
    + intros (s & Hin & E). destruct (Z.eqb_spec (sl_state s) CLOAK_STRMTAB_ACTIVE) as [Est|]; [|done].
      injection E as <- <-. apply list_elem_of_lookup in Hin as [i Hi].
      rewrite <- Est. apply (entries_lookup _ _ _ (Z.of_nat i) _ Hs).
      * rewrite mem_get_lookup, Nat2Z.id by lia. done.
      * unfold slot_absent. by rewrite Est.
    + intros Hm. destruct (lookup_entries _ _ _ _ _ Hs Hm) as (i & s & Hi & _ & Hk & Ex).
      apply mem_get_inv in Hi as [_ Hi]. exists s. split; [by eapply list_elem_of_lookup_2|].
      injection Ex as Est Ev. rewrite <- Est, Z.eqb_refl, Hk, Ev. done.
Qed.

(** ** Runs of operations *)

Inductive tab_op :=
  | TabLookup (key : Z)
  | TabInsert (key value : Z)
  | TabTombstone (key : Z).

Definition tab_op_ok (o : tab_op) : Prop :=
  match o with
  | TabLookup key | TabInsert key _ | TabTombstone key => 0 <= key < 4294967296
  end.

Definition tab_exec (o : tab_op) (t : cloak_strmtab_t)
    : option ((Z + option (Z * Z)) * cloak_strmtab_t) :=
  match o with
  | TabLookup key => r ← cloak_strmtab_lookup t key; Some (inr r, t)
  | TabInsert key value =>
      '(rc, t') ← cloak_strmtab_insert_active t key value true; Some (inl rc, t')
  | TabTombstone key => '(rc, t') ← cloak_strmtab_tombstone t key; Some (inl rc, t')
  end.

Definition map_exec (o : tab_op) (m : strmap) : (Z + option (Z * Z)) * strmap :=
  match o with
  | TabLookup key => (inr (m !! key), m)
  | TabInsert key value => let '(rc, m') := map_insert_active m key value in (inl rc, m')
  | TabTombstone key => let '(rc, m') := map_tombstone m key in (inl rc, m')
  end.

#[export] Instance tab_refines : Refines tab_exec map_exec tab_op_ok tab_rep.
Proof.
  intros o t m H Ho. destruct o as [key|key value|key]; cbn [tab_exec map_exec tab_op_ok] in *.
  - rewrite (strmtab_lookup_spec t m key H). by do 3 eexists.
  - destruct (strmtab_insert_spec t m key value H Ho) as (rc & t' & m' & -> & -> & H').
    by do 3 eexists.
  - destruct (strmtab_tombstone_spec t m key H Ho) as (rc & t' & m' & -> & -> & H').
    by do 3 eexists.
Qed.

(** ** Initialisation *)

Lemma next_pow2_loop_spec fuel k n :
  3 <= k <= 63 -> n <= 2 ^ 63 -> (Z.to_nat (63 - k) < fuel)%nat ->
  exists k', next_pow2_loop fuel (2 ^ k) n = Some (2 ^ k') /\ k <= k' <= 63 /\ n <= 2 ^ k' /\
    (k < k' -> 2 ^ (k' - 1) < n).
Proof.
  revert k. induction fuel as [|fuel IH]; intros k Hk Hn Hf; [lia|]. cbn [next_pow2_loop].
  destruct (Z.ltb_spec (2 ^ k) n).
  - assert (k <> 63) by (intros ->; lia).
    assert (Hp : 2 ^ k * 2 = 2 ^ (k + 1)) by (rewrite Z.pow_add_r by lia; lia).
    assert (2 ^ (k + 1) <= 2 ^ 63) by (apply Z.pow_le_mono_r; lia).
    assert (0 < 2 ^ (k + 1)) by (apply Z.pow_pos_nonneg; lia).
    rewrite Hp, u64_small by lia.
    destruct (IH (k + 1)) as (k' & -> & Hk' & Hn' & Hmin); [lia|done|lia|].
    exists k'. split_and!; try done; try lia. intros _.
    destruct (decide (k' = k + 1)) as [->|]; [by replace (k + 1 - 1) with k by lia|].
    apply Hmin. lia.
  - exists k. split_and!; try done; lia.
Qed.

Lemma strmtab_init_spec fuel hint :
  0 < hint <= 2 ^ 60 -> (61 <= fuel)%nat ->
  exists t, cloak_strmtab_init fuel hint true = Some (0, t) /\ tab_rep t ∅ /\ hint <= tb_cap t.
Proof.
  intros Hh Hf. unfold cloak_strmtab_init, next_pow2. decide_cmp.
  assert (2 ^ 60 <= 2 ^ 63) by (apply Z.pow_le_mono_r; lia).
  change 8 with (2 ^ 3).
  destruct (next_pow2_loop_spec fuel 3 hint) as (k & -> & Hk & Hn & Hmin); [lia|lia|lia|].
  assert (Hk60 : k <= 60).
  { destruct (Z.le_gt_cases k 60); [done|]. assert (2 ^ 60 <= 2 ^ (k - 1)) by (apply Z.pow_le_mono_r; lia).
    specialize (Hmin ltac:(lia)). lia. }
  cbn [mbind option_bind calloc_slots]. eexists; split; [done|]. split; [|done].
  assert (0 < 2 ^ k) by (apply Z.pow_pos_nonneg; lia).
  split; cbn.
  - apply slots_rep_empty. lia.
  - by rewrite map_size_empty.
  - lia.
  - intros k' x. by rewrite lookup_empty.
Qed.

(** A hint above [2^63] makes [next_pow2] spin: the doubling wraps to zero. *)
Lemma next_pow2_diverges fuel n : 2 ^ 63 < n -> next_pow2 fuel n = None.
Proof.
  intros Hn. unfold next_pow2.
  assert (Hz : forall f, next_pow2_loop f 0 n = None).
  { induction f as [|f IH]; [done|]. cbn [next_pow2_loop]. decide_cmp. exact IH. }
  assert (Hg : forall f k, 3 <= k <= 63 -> next_pow2_loop f (2 ^ k) n = None).
  { induction f as [|f IH]; intros k Hk; [done|]. cbn [next_pow2_loop].
    assert (2 ^ k <= 2 ^ 63) by (apply Z.pow_le_mono_r; lia).
    assert (Hp : 2 ^ k * 2 = 2 ^ (k + 1)) by (rewrite Z.pow_add_r by lia; lia).
    decide_cmp. rewrite Hp. destruct (decide (k = 63)) as [->|].
    - change (u64 (2 ^ (63 + 1))) with 0. apply Hz.
    - assert (2 ^ (k + 1) <= 2 ^ 63) by (apply Z.pow_le_mono_r; lia).
      assert (0 < 2 ^ (k + 1)) by (apply Z.pow_pos_nonneg; lia).
      rewrite u64_small by lia. apply IH. lia. }
  change 8 with (2 ^ 3). apply Hg. lia.
Qed.

(** ** Properties *)

(** C35: refinement.  From initialisation on (with any capacity hint up to
    [2^60]), every sequence of insertions, lookups and tombstones on 32-bit
    ids behaves as a finite map that never forgets: growing loses nothing and
    ends, a tombstoned id is still found as a tombstone, an id that is active
    cannot be inserted again, and no probe leaves the slot array. *)
Theorem strmtab_refines_map fuel hint ops :
  0 < hint <= 2 ^ 60 -> (61 <= fuel)%nat -> Forall tab_op_ok ops ->
  exists t0 outs t m,
    cloak_strmtab_init fuel hint true = Some (0, t0) /\
    run tab_exec ops t0 = Some (outs, t) /\
    spec_run map_exec ops ∅ = (outs, m) /\ tab_rep t m /\
    (forall key value, (key, value) ∈ cloak_strmtab_for_each_active t <->
                       m !! key = Some (CLOAK_STRMTAB_ACTIVE, value)) /\
    NoDup (map fst (cloak_strmtab_for_each_active t)).
Proof.
  intros Hh Hf Hops. destruct (strmtab_init_spec fuel hint Hh Hf) as (t0 & E0 & H0 & _).
  destruct (run_refines tab_exec map_exec tab_op_ok tab_rep ops t0 ∅ H0 Hops)
    as (outs & t & m & E & H & F).
  destruct (strmtab_for_each_spec t m H) as [Hnd Heach].
  exists t0, outs, t, m. split_and!; try done; apply Heach.
Qed.

Definition demo_tab_ops : list tab_op :=
  map (fun k => TabInsert k (100 + k)) (seqZ 0 12) ++
  [TabTombstone 3; TabLookup 3; TabInsert 5 1; TabInsert 3 7; TabLookup 3; TabLookup 99].

Lemma strmtab_refines_map_witness :
  exists t0 outs t m,
    cloak_strmtab_init 61 1 true = Some (0, t0) /\
    run tab_exec demo_tab_ops t0 = Some (outs, t) /\
    spec_run map_exec demo_tab_ops ∅ = (outs, m) /\ tab_rep t m /\
    (forall key value, (key, value) ∈ cloak_strmtab_for_each_active t <->
                       m !! key = Some (CLOAK_STRMTAB_ACTIVE, value)) /\
    NoDup (map fst (cloak_strmtab_for_each_active t)).
Proof.
  apply (strmtab_refines_map 61 1 demo_tab_ops); [lia|lia|].
  apply Forall_app. split.
  - apply Forall_map, Forall_seqZ. cbn. lia.
  - repeat (apply Forall_cons; split; [by vm_compute|]). done.
Defined.

(** The same run, evaluated: the table has grown to sixteen, then to
    thirty-two slots. *)
Example strmtab_run :
  (t0 ← cloak_strmtab_init 61 1 true;
   '(outs, t) ← run tab_exec demo_tab_ops (snd t0);
   Some (drop 12 outs, tb_cap t, tb_count t))
  = Some ([inl 0; inr (Some (2, 0)); inl (-1); inl 0; inr (Some (1, 7)); inr None], 32, 12).
Proof. by vm_compute. Qed.

(** C40: a capacity hint above [2^63] is not refused: whatever the allocator
    would say, [cloak_strmtab_init] never returns, because the doubling of
    [next_pow2] wraps to zero before it reaches the hint. *)
Theorem strmtab_init_diverges fuel hint calloc_ok :
  2 ^ 63 < hint <= SIZE_MAX -> cloak_strmtab_init fuel hint calloc_ok = None.
Proof.
  intros [Hlo _]. assert (0 < 2 ^ 63) by done. unfold cloak_strmtab_init. decide_cmp.
  by rewrite next_pow2_diverges.
Qed.

Lemma strmtab_init_diverges_witness : cloak_strmtab_init 1000 SIZE_MAX true = None.
Proof. apply (strmtab_init_diverges 1000 SIZE_MAX true). split; [by vm_compute|done]. Defined.
