(* ===== verification/Valve.v ===== *)
(** * The bandwidth valve ([libcloak-mux/src/valve.c])

    A meter and a token bucket per direction.  Signed arithmetic is checked:
    [i64 x] is [None], undefined behaviour, when [x] does not fit [int64_t].
    A [cloak_valve_t *] is an [option], [None] for NULL.  The clock functions
    are the caller's; [env] gives the present reading of each of them, and of
    [CLOCK_MONOTONIC] at [None]. *)
From S2P Require Import Prelude Refinement.

Definition CLOAK_VALVE_MAX_RATE : Z := Z.shiftl 1 40.
Definition VALVE_MILLI : Z := 1000.
Definition VALVE_FULL_AFTER_MS : Z := 2000.

Record cloak_valve_bucket_t := Bucket {
  vb_rate : Z;
  vb_capacity : Z;
  vb_tokens : Z;
  vb_last_refill : Z
}.

Record cloak_valve_t := Valve {
  v_rx : Z;
  v_tx : Z;
  v_rx_bucket : cloak_valve_bucket_t;
  v_tx_bucket : cloak_valve_bucket_t;
  v_clock : option Z          (* clock_fn and clock_userdata *)
}.

(** [valve_now_ms]. *)
Definition valve_now_ms (env : option Z -> Z) (v : cloak_valve_t) : Z := env (v_clock v).

(** ** The bucket *)

Definition bucket_refill (b : cloak_valve_bucket_t) (now : Z) : option cloak_valve_bucket_t :=
  let set tokens := Bucket (vb_rate b) (vb_capacity b) tokens now in
  if now <=? vb_last_refill b then Some (set (vb_tokens b))
  else
    let elapsed := u64 (now - vb_last_refill b) in
    if VALVE_FULL_AFTER_MS <=? elapsed then Some (set (vb_capacity b))
    else
      product ← i64 (vb_rate b * elapsed);
      tokens ← i64 (vb_tokens b + product);
      Some (set (if vb_capacity b <? tokens then vb_capacity b else tokens)).

Definition bucket_available (b : cloak_valve_bucket_t) (now : Z)
    : option (Z * cloak_valve_bucket_t) :=
  b ← bucket_refill b now;
  let avail := Z.quot (vb_tokens b) VALVE_MILLI in
  Some (if avail <? 0 then 0 else avail, b).

Definition bucket_take (b : cloak_valve_bucket_t) (now want : Z)
    : option (Z * cloak_valve_bucket_t) :=
  '(avail, b) ← bucket_available b now;
  Some (if avail <? want then avail else want, b).

Definition bucket_spend (b : cloak_valve_bucket_t) (n : Z) : option cloak_valve_bucket_t :=
  if n <=? 0 then Some b
  else
    let n := if Z.quot INT64_MAX VALVE_MILLI <? n then Z.quot INT64_MAX VALVE_MILLI else n in
    let set tokens := Bucket (vb_rate b) (vb_capacity b) tokens (vb_last_refill b) in
    cost ← i64 (n * VALVE_MILLI);
    floor ← i64 (- vb_capacity b);
    limit ← i64 (floor + cost);
    if vb_tokens b <? limit then Some (set floor)
    else tokens ← i64 (vb_tokens b - cost); Some (set tokens).

Definition bucket_delay_ms (b : cloak_valve_bucket_t) (now : Z)
    : option (Z * cloak_valve_bucket_t) :=
  b ← bucket_refill b now;
  need ← i64 (VALVE_MILLI - vb_tokens b);
  if need <=? 0 then Some (1, b)
  else
    sum ← i64 (need + vb_rate b);
    num ← i64 (sum - 1);
    let ms := Z.quot num (vb_rate b) in
    Some (if ms <? 1 then 1 else ms, b).

Definition bucket_set_rate (rate now : Z) : option cloak_valve_bucket_t :=
  let rate := if rate <? 0 then 0 else rate in
  let rate := if CLOAK_VALVE_MAX_RATE <? rate then CLOAK_VALVE_MAX_RATE else rate in
  capacity ← i64 (rate * VALVE_MILLI);
  Some (Bucket rate capacity capacity now).

(** ** The valve *)

Definition cloak_valve_add_rx (v : option cloak_valve_t) (n : Z)
    : option (option cloak_valve_t) :=
  match v with
  | None => Some None
  | Some v =>
      rx ← i64 (v_rx v + n);
      b ← (if negb (vb_rate (v_rx_bucket v) =? 0) then bucket_spend (v_rx_bucket v) n
           else Some (v_rx_bucket v));
      Some (Some (Valve rx (v_tx v) b (v_tx_bucket v) (v_clock v)))
  end.

Definition cloak_valve_add_tx (v : option cloak_valve_t) (n : Z)
    : option (option cloak_valve_t) :=
  match v with
  | None => Some None
  | Some v =>
      tx ← i64 (v_tx v + n);
      b ← (if negb (vb_rate (v_tx_bucket v) =? 0) then bucket_spend (v_tx_bucket v) n
           else Some (v_tx_bucket v));
      Some (Some (Valve (v_rx v) tx (v_rx_bucket v) b (v_clock v)))
  end.

Definition cloak_valve_rx (v : option cloak_valve_t) : Z :=
  match v with None => 0 | Some v => v_rx v end.

Definition cloak_valve_tx (v : option cloak_valve_t) : Z :=
  match v with None => 0 | Some v => v_tx v end.

(** The two outputs and the valve. *)
Definition cloak_valve_nullify (v : option cloak_valve_t) : Z * Z * option cloak_valve_t :=
  match v with
  | None => (0, 0, None)
  | Some v => (v_rx v, v_tx v, Some (Valve 0 0 (v_rx_bucket v) (v_tx_bucket v) (v_clock v)))
  end.

Definition cloak_valve_set_clock (env : option Z -> Z) (v : option cloak_valve_t)
    (clock : option Z) : option cloak_valve_t :=
  match v with
  | None => None
  | Some v =>
      let now := env clock in
      let stamp b := Bucket (vb_rate b) (vb_capacity b) (vb_tokens b) now in
      Some (Valve (v_rx v) (v_tx v) (stamp (v_rx_bucket v)) (stamp (v_tx_bucket v)) clock)
  end.

Definition cloak_valve_set_rates (env : option Z -> Z) (v : option cloak_valve_t)
    (rx_rate tx_rate : Z) : option (option cloak_valve_t) :=
  match v with
  | None => Some None
  | Some v =>
      let now := valve_now_ms env v in
      rx ← bucket_set_rate rx_rate now;
      tx ← bucket_set_rate tx_rate now;
      Some (Some (Valve (v_rx v) (v_tx v) rx tx (v_clock v)))
  end.

Definition cloak_valve_take_rx (env : option Z -> Z) (v : option cloak_valve_t) (want : Z)
    : option (Z * option cloak_valve_t) :=
  match v with
  | None => Some (want, None)
  | Some v =>
      if (vb_rate (v_rx_bucket v) =? 0) || (want <=? 0) then Some (want, Some v)
      else
        '(n, b) ← bucket_take (v_rx_bucket v) (valve_now_ms env v) want;
        Some (n, Some (Valve (v_rx v) (v_tx v) b (v_tx_bucket v) (v_clock v)))
  end.

Definition cloak_valve_take_tx (env : option Z -> Z) (v : option cloak_valve_t) (want : Z)
    : option (Z * option cloak_valve_t) :=
  match v with
  | None => Some (want, None)
  | Some v =>
      if (vb_rate (v_tx_bucket v) =? 0) || (want <=? 0) then Some (want, Some v)
      else
        '(n, b) ← bucket_take (v_tx_bucket v) (valve_now_ms env v) want;
        Some (n, Some (Valve (v_rx v) (v_tx v) (v_rx_bucket v) b (v_clock v)))
  end.

Definition cloak_valve_rx_resume_delay_ms (env : option Z -> Z) (v : option cloak_valve_t)
    : option (Z * option cloak_valve_t) :=
  match v with
  | None => Some (0, None)
  | Some v =>
      if vb_rate (v_rx_bucket v) =? 0 then Some (0, Some v)
      else
        '(ms, b) ← bucket_delay_ms (v_rx_bucket v) (valve_now_ms env v);
        Some (ms, Some (Valve (v_rx v) (v_tx v) b (v_tx_bucket v) (v_clock v)))
  end.

Definition cloak_valve_tx_resume_delay_ms (env : option Z -> Z) (v : option cloak_valve_t)
    : option (Z * option cloak_valve_t) :=
  match v with
  | None => Some (0, None)
  | Some v =>
      if vb_rate (v_tx_bucket v) =? 0 then Some (0, Some v)
      else
        '(ms, b) ← bucket_delay_ms (v_tx_bucket v) (valve_now_ms env v);
        Some (ms, Some (Valve (v_rx v) (v_tx v) (v_rx_bucket v) b (v_clock v)))
  end.

(** ** The invariant *)

Record bucket_ok (b : cloak_valve_bucket_t) : Prop := {
  bo_rate : 0 <= vb_rate b <= 1099511627776;
  bo_capacity : vb_capacity b = vb_rate b * 1000;
  bo_tokens : - vb_capacity b <= vb_tokens b <= vb_capacity b;
  bo_stamp : 0 <= vb_last_refill b < 18446744073709551616
}.

Definition valve_ok (v : option cloak_valve_t) : Prop :=
  match v with None => True | Some v => bucket_ok (v_rx_bucket v) /\ bucket_ok (v_tx_bucket v) end.

Definition env_ok (env : option Z -> Z) : Prop :=
  forall c, 0 <= env c < 18446744073709551616.

Ltac i64_simpl := rewrite i64_Some by (unfold INT64_MIN, INT64_MAX; first [lia|nia]); cbn [mbind option_bind].

(** What a refill does, in closed form. *)
Lemma bucket_refill_spec b now :
  bucket_ok b -> 0 <= now < 18446744073709551616 ->
  let t := vb_last_refill b in
  bucket_refill b now
  = Some (Bucket (vb_rate b) (vb_capacity b)
            (Z.min (vb_capacity b) (vb_tokens b + vb_rate b * Z.max 0 (now - t))) now).
Proof.
  intros [Hr Hc Ht Hs] Hn t. unfold bucket_refill, VALVE_FULL_AFTER_MS. fold t in Hs |- *.
  destruct (Z.leb_spec now t).
  { do 2 f_equal. rewrite Z.max_l, Z.mul_0_r, Z.add_0_r, Z.min_r by lia. done. }
  usimpl. destruct (Z.leb_spec 2000 (now - t)).
  { do 2 f_equal. rewrite Z.max_r, Z.min_l; nia. }
  assert (0 <= vb_rate b * (now - t) <= vb_rate b * 2000) by nia.
  do 2 i64_simpl. do 2 f_equal. rewrite Z.max_r by lia. case_if; lia.
Qed.

Lemma bucket_refill_ok b now b' :
  bucket_ok b -> 0 <= now < 18446744073709551616 -> bucket_refill b now = Some b' -> bucket_ok b'.
Proof.
  intros H Hn. rewrite (bucket_refill_spec b now H Hn). intros [= <-]. destruct H.
  split; cbn; try done. nia.
Qed.

(** What a charge does, in closed form. *)
Lemma bucket_spend_spec b n :
  bucket_ok b -> 0 <= n ->
  bucket_spend b n
  = Some (Bucket (vb_rate b) (vb_capacity b)
            (Z.max (- vb_capacity b) (vb_tokens b - n * 1000)) (vb_last_refill b)).
Proof.
  intros [Hr Hc Ht Hs] Hn. unfold bucket_spend, VALVE_MILLI.
  change (Z.quot INT64_MAX 1000) with 9223372036854775.
  destruct (Z.leb_spec n 0).
  { replace n with 0 by lia. replace (vb_tokens b - 0 * 1000) with (vb_tokens b) by lia.
    rewrite Z.max_r by lia. by destruct b. }
  set (n' := if 9223372036854775 <? n then 9223372036854775 else n).
  assert (Hn' : 0 < n' <= 9223372036854775 /\ (n' = n \/ 9223372036854775 = n' /\ n' < n))
    by (unfold n'; destruct (Z.ltb_spec 9223372036854775 n); lia).
  clearbody n'. do 2 i64_simpl.
  rewrite (i64_Some (- vb_capacity b + n' * 1000)) by (unfold INT64_MIN, INT64_MAX; lia).
  cbn [mbind option_bind]. case_if.
  - do 2 f_equal. lia.
  - i64_simpl. do 2 f_equal. lia.
Qed.

Lemma bucket_spend_ok b n b' :
  bucket_ok b -> 0 <= n -> bucket_spend b n = Some b' -> bucket_ok b'.
Proof.
  intros H Hn. rewrite (bucket_spend_spec b n H Hn). intros [= <-]. destruct H.
  split; cbn; try done. nia.
Qed.

Lemma bucket_take_spec b now want :
  bucket_ok b -> 0 <= now < 18446744073709551616 -> 0 < want ->
  exists b', bucket_refill b now = Some b' /\ bucket_ok b' /\
    bucket_take b now want = Some (Z.min want (Z.max 0 (vb_tokens b' / 1000)), b').
Proof.
  intros H Hn Hw. pose proof (bucket_refill_spec b now H Hn) as E. cbv zeta in E.
  set (b' := Bucket _ _ _ _) in E. exists b'. split; [done|].
  pose proof (bucket_refill_ok _ _ _ H Hn E) as H'. split; [done|].
  unfold bucket_take, bucket_available. rewrite E. cbn [mbind option_bind]. do 2 f_equal.
  unfold VALVE_MILLI. destruct (Z.le_gt_cases 0 (vb_tokens b')).
  - rewrite Z.quot_div_nonneg by lia. assert (0 <= vb_tokens b' / 1000) by (apply Z.div_pos; lia).
    rewrite (Z.max_r 0) by lia. decide_cmp. case_if; lia.
  - rewrite (Z.max_l 0) by (assert (vb_tokens b' / 1000 < 0) by (apply Z.div_lt_upper_bound; lia); lia).
    assert (Hq : Z.quot (vb_tokens b') 1000 <= 0) by (apply Z.quot_le_upper_bound; lia).
    destruct (Z.ltb_spec (Z.quot (vb_tokens b') 1000) 0); case_if; lia.
Qed.

Lemma bucket_delay_spec b now :
  bucket_ok b -> 0 < vb_rate b -> 0 <= now < 18446744073709551616 ->
  exists b' ms, bucket_refill b now = Some b' /\ bucket_ok b' /\
    bucket_delay_ms b now = Some (ms, b') /\ 1 <= ms /\
    (if 1000 <=? vb_tokens b' then ms = 1
     else vb_rate b * (ms - 1) < 1000 - vb_tokens b' <= vb_rate b * ms).
Proof.
  intros H Hr0 Hn. pose proof (bucket_refill_spec b now H Hn) as E. cbv zeta in E.
  set (b' := Bucket _ _ _ _) in E. exists b'.
  pose proof (bucket_refill_ok _ _ _ H Hn E) as H'. unfold bucket_delay_ms. rewrite E.
  cbn [mbind option_bind]. pose proof H' as [Hr Hc Ht _].
  change (vb_rate b') with (vb_rate b) in *. unfold VALVE_MILLI. i64_simpl.
  destruct (Z.leb_spec 1000 (vb_tokens b')); destruct (Z.leb_spec (1000 - vb_tokens b') 0); try lia.
  { exists 1. split_and!; done || lia. }
  do 2 i64_simpl. set (need := 1000 - vb_tokens b') in *.
  assert (Hq : Z.quot (need + vb_rate b - 1) (vb_rate b) = (need + vb_rate b - 1) / vb_rate b)
    by (apply Z.quot_div_nonneg; lia).
  rewrite Hq. set (ms := (need + vb_rate b - 1) / vb_rate b).
  pose proof (Z.div_mod (need + vb_rate b - 1) (vb_rate b) ltac:(lia)) as Hdm. fold ms in Hdm.
  pose proof (Z.mod_pos_bound (need + vb_rate b - 1) (vb_rate b) ltac:(lia)).
  assert (1 <= ms) by nia. decide_cmp. exists ms. split_and!; try done; nia.
Qed.

(** ** Every sequence of calls *)

Inductive valve_op :=
  | VAddRx (n : Z) | VAddTx (n : Z)
  | VNullify
  | VSetClock (clock : option Z)
  | VSetRates (rx tx : Z)
  | VTakeRx (want : Z) | VTakeTx (want : Z)
  | VDelayRx | VDelayTx.

Inductive valve_out :=
  | VDone | VDrained (rx tx : Z) | VGranted (n : Z) | VWait (ms : Z).

(** A call, made when the clocks read [env]. *)
Definition valve_exec (o : (option Z -> Z) * valve_op) (v : option cloak_valve_t)
    : option (valve_out * option cloak_valve_t) :=
  let env := fst o in
  match snd o with
  | VAddRx n => v' ← cloak_valve_add_rx v n; Some (VDone, v')
  | VAddTx n => v' ← cloak_valve_add_tx v n; Some (VDone, v')
  | VNullify => let '(rx, tx, v') := cloak_valve_nullify v in Some (VDrained rx tx, v')
  | VSetClock c => Some (VDone, cloak_valve_set_clock env v c)
  | VSetRates rx tx => v' ← cloak_valve_set_rates env v rx tx; Some (VDone, v')
  | VTakeRx w => '(n, v') ← cloak_valve_take_rx env v w; Some (VGranted n, v')
  | VTakeTx w => '(n, v') ← cloak_valve_take_tx env v w; Some (VGranted n, v')
  | VDelayRx => '(ms, v') ← cloak_valve_rx_resume_delay_ms env v; Some (VWait ms, v')
  | VDelayTx => '(ms, v') ← cloak_valve_tx_resume_delay_ms env v; Some (VWait ms, v')
  end.

Definition valve_op_ok (o : (option Z -> Z) * valve_op) : Prop :=
  env_ok (fst o) /\ match snd o with VAddRx n | VAddTx n => 0 <= n | _ => True end.

(** Bytes charged by the calls, and bytes their drains reported. *)
Definition op_rx (o : (option Z -> Z) * valve_op) : Z :=
  match snd o with VAddRx n => n | _ => 0 end.
Definition op_tx (o : (option Z -> Z) * valve_op) : Z :=
  match snd o with VAddTx n => n | _ => 0 end.
Definition out_rx (x : valve_out) : Z := match x with VDrained rx _ => rx | _ => 0 end.
Definition out_tx (x : valve_out) : Z := match x with VDrained _ tx => tx | _ => 0 end.
Definition total {A} (f : A -> Z) (l : list A) : Z := foldr (fun x a => f x + a) 0 l.

Definition granted_ok (o : (option Z -> Z) * valve_op) (x : valve_out) : Prop :=
  match snd o, x with
  | (VTakeRx w | VTakeTx w), VGranted n => n <= w /\ (0 <= w -> 0 <= n)
  | (VDelayRx | VDelayTx), VWait ms => 0 <= ms <= 2000
  | (VTakeRx _ | VTakeTx _ | VDelayRx | VDelayTx), _ => False
  | _, _ => True
  end.

Lemma bucket_set_rate_ok rate now :
  0 <= now < 18446744073709551616 ->
  exists b, bucket_set_rate rate now = Some b /\ bucket_ok b.
Proof.
  intros Hn. unfold bucket_set_rate, VALVE_MILLI.
  change CLOAK_VALVE_MAX_RATE with 1099511627776. cbv zeta.
  set (r := if rate <? 0 then 0 else rate).
  set (r' := if 1099511627776 <? r then 1099511627776 else r).
  assert (0 <= r' <= 1099511627776).
  { unfold r', r. destruct (Z.ltb_spec rate 0); case_if; lia. }
  clearbody r'. i64_simpl. eexists; split; [done|]. split; cbn; lia.
Qed.

Lemma delay_bound b now ms b' :
  bucket_ok b -> 0 < vb_rate b -> 0 <= now < 18446744073709551616 ->
  bucket_delay_ms b now = Some (ms, b') ->
  bucket_ok b' /\ vb_rate b' = vb_rate b /\ 1 <= ms /\
  vb_rate b * (ms - 1001) < 1000 /\ ms <= 2000.
Proof.
  intros H Hr Hn E. destruct (bucket_delay_spec b now H Hr Hn) as (b1 & ms1 & Er & H1 & E1 & Hms & Hd).
  rewrite E in E1. injection E1 as <- <-. rewrite (bucket_refill_spec b now H Hn) in Er.
  injection Er as Er. assert (Hrate : vb_rate b' = vb_rate b) by (by rewrite <- Er).
  assert (Hcap : vb_capacity b' = vb_rate b * 1000) by (rewrite <- Er; apply H).
  pose proof (bo_tokens _ H1) as Ht. split_and!; try done.
  - case_if_in Hd; nia.
  - case_if_in Hd; nia.
Qed.

Ltac vfin :=
  do 2 eexists; (split; [done|]); cbn; split_and!; try done; try (intros _; cbn; split); cbn; try done; try lia.

(** One call: defined, keeps the invariant, accounts for every byte. *)
Lemma valve_exec_ok o v :
  valve_op_ok o -> valve_ok v ->
  0 <= cloak_valve_rx v -> cloak_valve_rx v + op_rx o <= INT64_MAX ->
  0 <= cloak_valve_tx v -> cloak_valve_tx v + op_tx o <= INT64_MAX ->
  exists x v', valve_exec o v = Some (x, v') /\ valve_ok v' /\ granted_ok o x /\
    (v = None <-> v' = None) /\
    (v <> None -> out_rx x + cloak_valve_rx v' = cloak_valve_rx v + op_rx o /\
                  out_tx x + cloak_valve_tx v' = cloak_valve_tx v + op_tx o) /\
    0 <= cloak_valve_rx v' <= cloak_valve_rx v + op_rx o /\
    0 <= cloak_valve_tx v' <= cloak_valve_tx v + op_tx o.
Proof.
  destruct o as [env o]. unfold valve_op_ok, op_rx, op_tx, valve_exec, granted_ok. cbn [fst snd].
  intros [Henv Ho] Hv Hrx Hrx' Htx Htx'. destruct v as [v|].
  2: { destruct o; cbn; do 2 eexists; split_and!; try done; lia. }
  destruct Hv as [Hb1 Hb2]. cbn in Hrx, Hrx', Htx, Htx'. unfold INT64_MAX in Hrx', Htx'.
  pose proof (Henv (v_clock v)) as Hnow.
  destruct o as [n|n| |c|r1 r2|w|w| |]; cbn [cloak_valve_add_rx cloak_valve_add_tx
    cloak_valve_nullify cloak_valve_set_clock cloak_valve_set_rates cloak_valve_take_rx
    cloak_valve_take_tx cloak_valve_rx_resume_delay_ms cloak_valve_tx_resume_delay_ms].
  - i64_simpl. pose proof (bucket_spend_spec _ n Hb1 Ho) as E.
    pose proof (bucket_spend_ok _ n _ Hb1 Ho E).
    destruct (negb _); rewrite ?E; cbn; vfin.
  - i64_simpl. pose proof (bucket_spend_spec _ n Hb2 Ho) as E.
    pose proof (bucket_spend_ok _ n _ Hb2 Ho E).
    destruct (negb _); rewrite ?E; cbn; vfin.
  - vfin.
  - vfin.
    + destruct Hb1; split; cbn; done || apply Henv.
    + destruct Hb2; split; cbn; done || apply Henv.
  - destruct (bucket_set_rate_ok r1 _ Hnow) as (b1 & E1 & H1).
    destruct (bucket_set_rate_ok r2 _ Hnow) as (b2 & E2 & H2).
    unfold valve_now_ms. rewrite E1. cbn [mbind option_bind]. rewrite E2. cbn.
    vfin.
  - destruct (_ || _) eqn:E; [vfin|]. bool_hyps.
    destruct (bucket_take_spec _ _ w Hb1 Hnow) as (b' & _ & H' & Et); [lia|].
    unfold valve_now_ms. rewrite Et. cbn. vfin.
  - destruct (_ || _) eqn:E; [vfin|]. bool_hyps.
    destruct (bucket_take_spec _ _ w Hb2 Hnow) as (b' & _ & H' & Et); [lia|].
    unfold valve_now_ms. rewrite Et. cbn. vfin.
  - case_if; [vfin|].
    assert (Hr : 0 < vb_rate (v_rx_bucket v)) by (destruct Hb1; lia).
    destruct (bucket_delay_spec _ _ Hb1 Hr Hnow) as (b' & ms & _ & H' & E' & Hms & _).
    destruct (delay_bound _ _ _ _ Hb1 Hr Hnow E') as (_ & _ & _ & _ & ?).
    unfold valve_now_ms. rewrite E'. cbn. vfin.
  - case_if; [vfin|].
    assert (Hr : 0 < vb_rate (v_tx_bucket v)) by (destruct Hb2; lia).
    destruct (bucket_delay_spec _ _ Hb2 Hr Hnow) as (b' & ms & _ & H' & E' & Hms & _).
    destruct (delay_bound _ _ _ _ Hb2 Hr Hnow E') as (_ & _ & _ & _ & ?).
    unfold valve_now_ms. rewrite E'. cbn. vfin.
Qed.

(** ** Properties *)

Lemma total_nonneg {A} (f : A -> Z) l : Forall (fun x => 0 <= f x) l -> 0 <= total f l.
Proof. induction 1; cbn; [lia|]. unfold total in *. lia. Qed.

(** C37: safety and exact metering.  Starting from a valid valve (or NULL),
    every sequence of calls, with any rates and any clock readings, forwards
    or backwards, makes no signed overflow as long as the meters themselves
    fit; the buckets stay within [-capacity, capacity]; a grant never exceeds
    the request; a delay is at most two seconds; and what the drains reported
    plus what the meters still hold is exactly what was charged. *)
Theorem valve_safe_and_exact ops v :
  valve_ok v -> Forall valve_op_ok ops ->
  0 <= cloak_valve_rx v -> cloak_valve_rx v + total op_rx ops <= INT64_MAX ->
  0 <= cloak_valve_tx v -> cloak_valve_tx v + total op_tx ops <= INT64_MAX ->
  exists outs v', run valve_exec ops v = Some (outs, v') /\ valve_ok v' /\
    Forall2 granted_ok ops outs /\
    (v <> None ->
     total out_rx outs + cloak_valve_rx v' = cloak_valve_rx v + total op_rx ops /\
     total out_tx outs + cloak_valve_tx v' = cloak_valve_tx v + total op_tx ops).
Proof.
  intros Hv Hops. revert v Hv. induction Hops as [|o ops Ho Hops IH]; intros v Hv Hr Hr' Ht Ht'.
  { exists [], v. split_and!; try done; cbn; lia. }
  assert (Hpos : 0 <= total op_rx ops /\ 0 <= total op_tx ops).
  { split; apply total_nonneg; eapply Forall_impl; try exact Hops; intros [env []] [_ Hn];
      unfold op_rx, op_tx; cbn in *; lia. }
  unfold total in Hr', Ht'. cbn [foldr] in Hr', Ht'. fold (total op_rx ops) in Hr'.
  fold (total op_tx ops) in Ht'.
  destruct (valve_exec_ok o v Ho Hv) as (x & v1 & E & H1 & Hg & Hnone & Hacc & Hr1 & Ht1);
    [done|lia|done|lia|].
  cbn [run]. rewrite E. cbn [mbind option_bind].
  destruct (IH v1 H1) as (outs & v2 & E2 & H2 & Hg2 & Hacc2); [lia..|].
  rewrite E2. cbn [mbind option_bind]. exists (x :: outs), v2. split_and!; try done.
  - by constructor.
  - intros Hne. destruct (Hacc Hne) as [A1 A2].
    destruct Hacc2 as [B1 B2]; [by rewrite <- Hnone|].
    unfold total in *. cbn [foldr]. lia.
Qed.

(** A relay's step in the receive direction at time [now]: ask, then move and
    charge what was granted. *)
Definition pump (env : option Z -> Z) (v : option cloak_valve_t) (want : Z)
    : option (Z * option cloak_valve_t) :=
  '(n, v) ← cloak_valve_take_rx env v want;
  v ← cloak_valve_add_rx v n;
  Some (n, v).

Fixpoint pump_all (steps : list ((option Z -> Z) * Z)) (v : option cloak_valve_t)
    : option (Z * option cloak_valve_t) :=
  match steps with
  | [] => Some (0, v)
  | (env, want) :: steps' =>
      '(n, v) ← pump env v want; '(m, v) ← pump_all steps' v; Some (n + m, v)
  end.

(** The readings of clock [c] never fall below [t] or one another. *)
Fixpoint clock_ordered (c : option Z) (t : Z) (steps : list ((option Z -> Z) * Z)) : Prop :=
  match steps with
  | [] => True
  | (env, want) :: steps' =>
      t <= env c < 18446744073709551616 /\ 0 < want <= INT64_MAX / 1000 /\
      clock_ordered c (env c) steps'
  end.

Definition last_reading (c : option Z) (t : Z) (steps : list ((option Z -> Z) * Z)) : Z :=
  fold_left (fun t s => fst s c) steps t.

(** One step, on a limited direction. *)
Lemma pump_step env v want :
  bucket_ok (v_rx_bucket v) -> 0 < vb_rate (v_rx_bucket v) ->
  let b := v_rx_bucket v in let now := env (v_clock v) in
  vb_last_refill b <= now < 18446744073709551616 -> 0 < want ->
  0 <= v_rx v -> v_rx v + want <= INT64_MAX ->
  exists n v', pump env (Some v) want = Some (n, Some v') /\ 0 <= n <= want /\
    bucket_ok (v_rx_bucket v') /\ vb_rate (v_rx_bucket v') = vb_rate b /\
    v_clock v' = v_clock v /\ v_rx v' = v_rx v + n /\ vb_last_refill (v_rx_bucket v') = now /\
    vb_tokens (v_rx_bucket v') + 1000 * n
      <= vb_tokens b + vb_rate b * (now - vb_last_refill b) /\
    Z.min 0 (vb_tokens b) <= vb_tokens (v_rx_bucket v').
Proof.
  intros Hb Hr b now Hnow Hw Hrx Hmax. unfold INT64_MAX in Hmax. fold b in Hb, Hr.
  assert (Hn : 0 <= now < 18446744073709551616) by (destruct Hb; unfold b in *; lia).
  destruct (bucket_take_spec b now want Hb Hn Hw) as (b1 & Er & Hb1 & Et).
  rewrite (bucket_refill_spec b now Hb Hn) in Er. injection Er as Er.
  unfold pump, cloak_valve_take_rx, valve_now_ms. fold b now. decide_cmp. cbn [orb].
  rewrite Et. cbn [mbind option_bind]. set (n := Z.min want (Z.max 0 (vb_tokens b1 / 1000))).
  assert (Hn0 : 0 <= n <= want) by lia.
  assert (Hcost : 1000 * n <= Z.max 0 (vb_tokens b1)).
  { pose proof (Z.div_mod (vb_tokens b1) 1000 ltac:(lia)).
    pose proof (Z.mod_pos_bound (vb_tokens b1) 1000 ltac:(lia)). lia. }
  assert (Hrate1 : vb_rate b1 = vb_rate b) by (by rewrite <- Er).
  assert (Htok1 : vb_tokens b1 <= vb_tokens b + vb_rate b * (now - vb_last_refill b) /\
                  Z.min 0 (vb_tokens b) <= vb_tokens b1).
  { rewrite <- Er. cbn [vb_tokens]. rewrite Z.max_r by lia. pose proof (bo_tokens _ Hb).
    assert (0 <= vb_rate b * (now - vb_last_refill b)) by (unfold b in *; nia).
    unfold b in *. lia. }
  unfold cloak_valve_add_rx. cbn [v_rx v_tx v_rx_bucket v_tx_bucket v_clock].
  rewrite i64_Some by (unfold INT64_MIN, INT64_MAX; lia). cbn [mbind option_bind].
  rewrite Hrate1. decide_cmp. cbn [negb].
  pose proof (bucket_spend_spec b1 n Hb1 (proj1 Hn0)) as Es.
  pose proof (bucket_spend_ok _ _ _ Hb1 (proj1 Hn0) Es) as Hb2. rewrite Es. cbn [mbind option_bind].
  do 2 eexists; split; [done|]. cbn [v_rx_bucket v_clock v_rx vb_rate vb_tokens vb_last_refill].
  pose proof (bo_tokens _ Hb1) as Hrange.
  split; [done|]. split; [done|]. split; [done|]. split; [done|]. split; [done|].
  split; [by rewrite <- Er|]. split; lia.
Qed.

(** C38: the rate limit.  A caller that moves what it was granted moves, over
    any span of time and however it interleaves its requests, at most the
    tokens at hand plus [rate] bytes per second: [1000 * moved] milli-bytes
    never exceed [max 0 tokens + rate * elapsed_ms], so a burst is at most one
    second's worth. *)
Theorem valve_rate_limit steps v :
  bucket_ok (v_rx_bucket v) -> 0 < vb_rate (v_rx_bucket v) ->
  clock_ordered (v_clock v) (vb_last_refill (v_rx_bucket v)) steps ->
  0 <= v_rx v -> v_rx v + total snd steps <= INT64_MAX ->
  exists moved v', pump_all steps (Some v) = Some (moved, Some v') /\
    v_rx v' = v_rx v + moved /\
    let b := v_rx_bucket v in
    1000 * moved <= Z.max 0 (vb_tokens b) +
      vb_rate b * (last_reading (v_clock v) (vb_last_refill b) steps - vb_last_refill b) /\
    1000 * moved <= 1000 * vb_rate b +
      vb_rate b * (last_reading (v_clock v) (vb_last_refill b) steps - vb_last_refill b).
Proof.
  intros Hb Hr Hc Hrx Hmax.
  assert (Hmain : exists moved v', pump_all steps (Some v) = Some (moved, Some v') /\
    v_rx v' = v_rx v + moved /\
    let b := v_rx_bucket v in
    vb_tokens (v_rx_bucket v') + 1000 * moved
      <= vb_tokens b + vb_rate b * (last_reading (v_clock v) (vb_last_refill b) steps
                                    - vb_last_refill b) /\
    Z.min 0 (vb_tokens b) <= vb_tokens (v_rx_bucket v')).
  { revert v Hb Hr Hc Hrx Hmax. induction steps as [|[env want] steps IH]; intros v Hb Hr Hc Hrx Hmax.
    { exists 0, v. cbn. split_and!; try done; lia. }
    cbn [clock_ordered] in Hc. destruct Hc as (Hnow & Hw & Hc).
    unfold total in Hmax. cbn [foldr snd] in Hmax. fold (total (@snd (option Z -> Z) Z) steps) in Hmax.
    assert (Hpos : 0 <= total snd steps).
    { apply total_nonneg. clear -Hc. revert Hc. generalize (env (v_clock v)).
      induction steps as [|[e w] steps IH]; intros t Hc; constructor; cbn in *; [lia|].
      by eapply IH, Hc. }
    destruct (pump_step env v want Hb Hr Hnow ltac:(lia) Hrx ltac:(lia))
      as (n & v1 & E & Hn & Hb1 & Hr1 & Hcl1 & Hrx1 & Hl1 & Htok & Hmin).
    cbn [pump_all]. rewrite E. cbn [mbind option_bind].
    destruct (IH v1) as (m & v2 & E2 & Hrx2 & Htok2 & Hmin2);
      [done|by rewrite Hr1|by rewrite Hcl1, Hl1|lia|lia|].
    rewrite E2. cbn [mbind option_bind]. exists (n + m), v2. split; [done|].
    split; [lia|]. cbv zeta in Htok2. rewrite Hcl1, Hl1, Hr1 in Htok2.
    unfold last_reading in *. cbn [fold_left fst]. split; [nia|lia]. }
  destruct Hmain as (moved & v' & E & Hm & Htok & Hmin). exists moved, v'.
  split; [done|]. split; [done|]. pose proof (bo_tokens _ Hb). pose proof (bo_capacity _ Hb).
  cbv zeta. split; lia.
Qed.

(** a pause ends.  On a limited direction the resume delay is between 1
    and [1000 + ceil (1000 / rate)] milliseconds; once the clock has advanced
    by it, a request is granted at least one byte; and when the delay is more
    than the 1 ms floor, one millisecond less would not have been enough. *)
Theorem valve_delay_suffices env env' v want :
  bucket_ok (v_rx_bucket v) -> 0 < vb_rate (v_rx_bucket v) ->
  0 <= env (v_clock v) -> env (v_clock v) + 2000 < 18446744073709551616 -> 0 < want ->
  exists ms v', cloak_valve_rx_resume_delay_ms env (Some v) = Some (ms, Some v') /\
    1 <= ms /\ vb_rate (v_rx_bucket v) * (ms - 1001) < 1000 /\ ms <= 2000 /\
    (env' (v_clock v) = env (v_clock v) + ms ->
     exists n v'', cloak_valve_take_rx env' (Some v') want = Some (n, v'') /\ 1 <= n <= want) /\
    (1 < ms -> env' (v_clock v) = env (v_clock v) + ms - 1 ->
     exists v'', cloak_valve_take_rx env' (Some v') want = Some (0, v'')).
Proof.
  intros Hb Hr Hn0 Hn Hw. set (now := env (v_clock v)) in *.
  assert (Hnow : 0 <= now < 18446744073709551616) by lia.
  destruct (bucket_delay_spec _ now Hb Hr Hnow) as (b1 & ms & Er & Hb1 & E & Hms & Hd).
  destruct (delay_bound _ _ _ _ Hb Hr Hnow E) as (_ & Hr1 & _ & Hup & H2000).
  unfold cloak_valve_rx_resume_delay_ms, valve_now_ms. fold now. decide_cmp.
  rewrite E. cbn [mbind option_bind]. do 2 eexists; split; [done|]. split; [done|].
  split; [done|]. split; [done|].
  rewrite (bucket_refill_spec _ now Hb Hnow) in Er. injection Er as Er.
  assert (Hl1 : vb_last_refill b1 = now) by (by rewrite <- Er).
  pose proof (bo_capacity _ Hb1) as Hcap. rewrite Hr1 in Hcap.
  unfold cloak_valve_take_rx, valve_now_ms. cbn [v_rx_bucket v_clock]. rewrite Hr1. decide_cmp.
  cbn [orb]. split.
  - intros ->. destruct (bucket_take_spec b1 (now + ms) want Hb1 ltac:(lia) Hw)
      as (b2 & Er2 & Hb2 & ->). cbn [mbind option_bind]. do 2 eexists; split; [done|].
    rewrite (bucket_refill_spec b1 (now + ms) Hb1 ltac:(lia)) in Er2. injection Er2 as <-.
    cbn [vb_tokens]. rewrite Hl1, Hr1, Hcap.
    replace (now + ms - now) with ms by lia. rewrite (Z.max_r 0 ms) by lia.
    assert (1000 <= Z.min (vb_rate (v_rx_bucket v) * 1000)
                      (vb_tokens b1 + vb_rate (v_rx_bucket v) * ms)).
    { case_if_in Hd; [nia|]. lia. }
    assert (1 <= Z.min (vb_rate (v_rx_bucket v) * 1000)
                   (vb_tokens b1 + vb_rate (v_rx_bucket v) * ms) / 1000)
      by (apply Z.div_le_lower_bound; lia).
    lia.
  - intros H1 ->. destruct (bucket_take_spec b1 (now + ms - 1) want Hb1 ltac:(lia) Hw)
      as (b2 & Er2 & Hb2 & ->). cbn [mbind option_bind]. eexists.
    rewrite (bucket_refill_spec b1 (now + ms - 1) Hb1 ltac:(lia)) in Er2. injection Er2 as <-.
    cbn [vb_tokens]. rewrite Hl1, Hr1, Hcap.
    replace (now + ms - 1 - now) with (ms - 1) by lia. rewrite (Z.max_r 0 (ms - 1)) by lia.
    case_if_in Hd; [lia|]. do 2 f_equal.
    assert (Z.min (vb_rate (v_rx_bucket v) * 1000)
              (vb_tokens b1 + vb_rate (v_rx_bucket v) * (ms - 1)) / 1000 <= 0); [|lia].
    apply Z.lt_succ_r, Z.div_lt_upper_bound; lia.
Qed.

(** ** Concrete instances *)

Definition at_ms (t : Z) : option Z -> Z := fun _ => t.

(** 200 bytes per second, empty, last refilled at time 1000. *)
Definition demo_valve : cloak_valve_t :=
  Valve 0 0 (Bucket 200 200000 0 1000) (Bucket 0 0 0 1000) None.

Lemma demo_bucket_ok : bucket_ok (v_rx_bucket demo_valve).
Proof. split; cbn; lia. Qed.

Definition demo_valve_ops : list ((option Z -> Z) * valve_op) :=
  [(at_ms 1000, VTakeRx 10); (at_ms 1000, VDelayRx); (at_ms 1005, VTakeRx 10);
   (at_ms 1005, VAddRx 4000); (at_ms 900, VDelayRx); (at_ms 900, VSetRates (-5) INT64_MAX);
   (at_ms 950, VAddTx 7); (at_ms 950, VNullify); (at_ms 950, VAddRx 3)].

Lemma valve_safe_and_exact_witness :
  exists outs v', run valve_exec demo_valve_ops (Some demo_valve) = Some (outs, v') /\ valve_ok v' /\
    Forall2 granted_ok demo_valve_ops outs /\
    (Some demo_valve <> None ->
     total out_rx outs + cloak_valve_rx v'
       = cloak_valve_rx (Some demo_valve) + total op_rx demo_valve_ops /\
     total out_tx outs + cloak_valve_tx v'
       = cloak_valve_tx (Some demo_valve) + total op_tx demo_valve_ops).
Proof.
  apply valve_safe_and_exact.
  - split; [apply demo_bucket_ok|]. split; cbn; lia.
  - repeat (apply Forall_cons; split; [split; [intros c; unfold at_ms; cbn; lia|cbn; done || lia]|]).
    done.
  - done.
  - by vm_compute.
  - done.
  - by vm_compute.
Defined.

Example valve_run_example :
  fst <$> run valve_exec demo_valve_ops (Some demo_valve)
  = Some [VGranted 0; VWait 5; VGranted 1; VDone; VWait 1005; VDone; VDone; VDrained 4000 7; VDone].
Proof. by vm_compute. Qed.

Lemma valve_rate_limit_witness :
  let steps := [(at_ms 1004, 100); (at_ms 1505, 300); (at_ms 1505, 300)] in
  exists moved v', pump_all steps (Some demo_valve) = Some (moved, Some v') /\
    v_rx v' = v_rx demo_valve + moved /\
    let b := v_rx_bucket demo_valve in
    1000 * moved <= Z.max 0 (vb_tokens b) +
      vb_rate b * (last_reading (v_clock demo_valve) (vb_last_refill b) steps
                   - vb_last_refill b) /\
    1000 * moved <= 1000 * vb_rate b +
      vb_rate b * (last_reading (v_clock demo_valve) (vb_last_refill b) steps
                   - vb_last_refill b).
Proof.
  intros steps. apply (valve_rate_limit steps demo_valve).
  - apply demo_bucket_ok.
  - cbn. lia.
  - by vm_compute.
  - cbn. lia.
  - by vm_compute.
Defined.

Lemma valve_delay_suffices_witness :
  exists ms v', cloak_valve_rx_resume_delay_ms (at_ms 1000) (Some demo_valve) = Some (ms, Some v') /\
    1 <= ms /\ vb_rate (v_rx_bucket demo_valve) * (ms - 1001) < 1000 /\ ms <= 2000 /\
    (at_ms 1005 (v_clock demo_valve) = at_ms 1000 (v_clock demo_valve) + ms ->
     exists n v'', cloak_valve_take_rx (at_ms 1005) (Some v') 50 = Some (n, v'') /\ 1 <= n <= 50) /\
    (1 < ms -> at_ms 1005 (v_clock demo_valve) = at_ms 1000 (v_clock demo_valve) + ms - 1 ->
     exists v'', cloak_valve_take_rx (at_ms 1005) (Some v') 50 = Some (0, v'')).
Proof.
  apply (valve_delay_suffices (at_ms 1000) (at_ms 1005) demo_valve 50).
  - apply demo_bucket_ok.
  - cbn. lia.
  - by vm_compute.
  - by vm_compute.
  - lia.
Defined.
