(* ===== verification/FirstPacket.v ===== *)
(** * Reading the first packet of a connection ([libcloak-server/src/firstpacket.c])

    Before a connection is authenticated the server reads either one TLS
    record or one HTTP request head, and not one byte more: what follows may
    belong to somebody else's protocol.  The accumulator is a state machine
    over bytes. *)
From S2P Require Import Prelude.

Definition CLOAK_FIRSTPACKET_MAX : Z := 3000.
Definition TLS_RECORD_HEADER_LEN : Z := 5.

Definition CLOAK_FIRSTPACKET_NEED_MORE : Z := 0.
Definition CLOAK_FIRSTPACKET_DONE : Z := 1.
Definition CLOAK_FIRSTPACKET_ERROR : Z := -1.

Definition CLOAK_FIRSTPACKET_TRANSPORT_UNKNOWN : Z := 0.
Definition CLOAK_FIRSTPACKET_TRANSPORT_TLS : Z := 1.
Definition CLOAK_FIRSTPACKET_TRANSPORT_WEBSOCKET : Z := 2.

Record cloak_firstpacket_t := Firstpacket {
  fp_buf : bytes;
  fp_len : Z;
  fp_transport : Z;
  fp_status : Z;
  fp_record_total : Z;
  fp_crlf_state : Z;
  fp_redirect_on_error : Z
}.

Definition cloak_firstpacket_init : cloak_firstpacket_t :=
  Firstpacket (replicate (Z.to_nat CLOAK_FIRSTPACKET_MAX) 0) 0
    CLOAK_FIRSTPACKET_TRANSPORT_UNKNOWN CLOAK_FIRSTPACKET_NEED_MORE 0 0 0.

Definition cloak_firstpacket_want (fp : cloak_firstpacket_t) : Z :=
  if negb (fp_status fp =? CLOAK_FIRSTPACKET_NEED_MORE) then 0
  else if fp_transport fp =? CLOAK_FIRSTPACKET_TRANSPORT_UNKNOWN then 1
  else if fp_transport fp =? CLOAK_FIRSTPACKET_TRANSPORT_TLS then
    if fp_len fp <? TLS_RECORD_HEADER_LEN then u64 (TLS_RECORD_HEADER_LEN - fp_len fp)
    else u64 (fp_record_total fp - fp_len fp)
  else if fp_transport fp =? CLOAK_FIRSTPACKET_TRANSPORT_WEBSOCKET then 1
  else 0.

Definition fail (fp : cloak_firstpacket_t) (redirect : Z) : cloak_firstpacket_t :=
  Firstpacket (fp_buf fp) (fp_len fp) (fp_transport fp) CLOAK_FIRSTPACKET_ERROR
    (fp_record_total fp) (fp_crlf_state fp) redirect.

(** [None] inside is the return value -1. *)
Definition push_byte (fp : cloak_firstpacket_t) (b : Z) : option (option cloak_firstpacket_t) :=
  if CLOAK_FIRSTPACKET_MAX <=? fp_len fp then Some None
  else
    buf ← mem_set (fp_buf fp) (fp_len fp) b;
    Some (Some (Firstpacket buf (fp_len fp + 1) (fp_transport fp) (fp_status fp)
                  (fp_record_total fp) (fp_crlf_state fp) (fp_redirect_on_error fp))).

Definition set_transport (fp : cloak_firstpacket_t) (t : Z) : cloak_firstpacket_t :=
  Firstpacket (fp_buf fp) (fp_len fp) t (fp_status fp) (fp_record_total fp)
    (fp_crlf_state fp) (fp_redirect_on_error fp).

Definition set_progress (fp : cloak_firstpacket_t) (status total crlf : Z)
    : cloak_firstpacket_t :=
  Firstpacket (fp_buf fp) (fp_len fp) (fp_transport fp) status total crlf
    (fp_redirect_on_error fp).

(** The TLS part of the loop body. *)
Definition firstpacket_tls (fp : cloak_firstpacket_t) : option cloak_firstpacket_t :=
  r ← (if fp_len fp =? TLS_RECORD_HEADER_LEN then
         hi ← (fp_buf fp).[3]; lo ← (fp_buf fp).[4];
         let body := Z.lor (Z.shiftl hi 8) lo in
         if body =? 0 then Some (inl (fail fp 1))
         else
           let total := TLS_RECORD_HEADER_LEN + body in
           if CLOAK_FIRSTPACKET_MAX <? total then Some (inl (fail fp 1))
           else Some (inr (set_progress fp (fp_status fp) total (fp_crlf_state fp)))
       else Some (inr fp));
  match r with
  | inl fp => Some fp
  | inr fp =>
      if negb (fp_record_total fp =? 0) && (fp_len fp =? fp_record_total fp)
      then Some (set_progress fp CLOAK_FIRSTPACKET_DONE (fp_record_total fp) (fp_crlf_state fp))
      else Some fp
  end.

(** The HTTP part of the loop body. *)
Definition firstpacket_crlf (fp : cloak_firstpacket_t) (b : Z) : cloak_firstpacket_t :=
  let set status crlf := set_progress fp status (fp_record_total fp) crlf in
  if b =? 13 then set (fp_status fp) (if fp_crlf_state fp =? 2 then 3 else 1)
  else if b =? 10 then
    if fp_crlf_state fp =? 1 then set (fp_status fp) 2
    else if fp_crlf_state fp =? 3 then set CLOAK_FIRSTPACKET_DONE (fp_crlf_state fp)
    else set (fp_status fp) 0
  else set (fp_status fp) 0.

(** The loop body: one byte. *)
Definition firstpacket_step (fp : cloak_firstpacket_t) (b : Z) : option cloak_firstpacket_t :=
  pushed ← push_byte fp b;
  match pushed with
  | None => Some (fail fp 1)
  | Some fp =>
      if fp_transport fp =? CLOAK_FIRSTPACKET_TRANSPORT_UNKNOWN then
        Some (if b =? 22 then set_transport fp CLOAK_FIRSTPACKET_TRANSPORT_TLS
              else if b =? 71 then set_transport fp CLOAK_FIRSTPACKET_TRANSPORT_WEBSOCKET
              else fail fp 1)
      else if fp_transport fp =? CLOAK_FIRSTPACKET_TRANSPORT_TLS then firstpacket_tls fp
      else Some (firstpacket_crlf fp b)
  end.

(** The loop: it returns as soon as the status is decided. *)
Fixpoint firstpacket_loop (fp : cloak_firstpacket_t) (data : bytes)
    : option cloak_firstpacket_t :=
  match data with
  | [] => Some fp
  | b :: data' =>
      fp ← firstpacket_step fp b;
      if fp_status fp =? CLOAK_FIRSTPACKET_NEED_MORE then firstpacket_loop fp data' else Some fp
  end.

(** [cloak_firstpacket_feed]; the return value is the status of the result. *)
Definition cloak_firstpacket_feed (fp : cloak_firstpacket_t) (data : bytes)
    : option cloak_firstpacket_t :=
  if negb (fp_status fp =? CLOAK_FIRSTPACKET_NEED_MORE) then Some fp
  else if zlen data =? 0 then Some fp
  else
    let want := cloak_firstpacket_want fp in
    let len := if want <? zlen data then want else zlen data in
    data ← data.[0 +: len];
    firstpacket_loop fp data.

Definition cloak_firstpacket_data (fp : cloak_firstpacket_t) : bytes := fp_buf fp.
Definition cloak_firstpacket_len (fp : cloak_firstpacket_t) : Z := fp_len fp.
Definition cloak_firstpacket_redirect_on_error (fp : cloak_firstpacket_t) : Z :=
  fp_redirect_on_error fp.

(** ** The contract

    What a prefix [p] of a connection's bytes says. *)
Inductive verdict := Incomplete | Complete | Bad.

(** [p] ends with an empty line. *)
Definition ends_head (p : bytes) : bool := bool_decide ([13; 10; 13; 10] `suffix_of` p).

(** The length of the record announced by a five-byte header. *)
Definition record_len (p : bytes) : Z := 5 + (nth 3 p 0 * 256 + nth 4 p 0).

Definition classify (p : bytes) : verdict :=
  match p with
  | [] => Incomplete
  | b :: _ =>
      if b =? 22 then
        if zlen p <? 5 then Incomplete
        else if (record_len p =? 5) || (3000 <? record_len p) then Bad
        else if zlen p <? record_len p then Incomplete else Complete
      else if b =? 71 then
        if 3000 <? zlen p then Bad else if ends_head p then Complete else Incomplete
      else Bad
  end.

Definition verdict_status (v : verdict) : Z :=
  match v with
  | Incomplete => CLOAK_FIRSTPACKET_NEED_MORE
  | Complete => CLOAK_FIRSTPACKET_DONE
  | Bad => CLOAK_FIRSTPACKET_ERROR
  end.

(** ** The invariant of the machine after the bytes [p], all still undecided *)

(** The state of the end-of-head automaton. *)
Definition crlf_next (c b : Z) : Z :=
  if b =? 13 then if c =? 2 then 3 else 1
  else if b =? 10 then if (c =? 1) || (c =? 3) then 2 else 0
  else 0.

Definition crlf_of (p : bytes) : Z := fold_left crlf_next p 0.

Record fp_inv (p : bytes) (fp : cloak_firstpacket_t) : Prop := {
  fi_block : zlen (fp_buf fp) = 3000;
  fi_len : fp_len fp = zlen p;
  fi_max : zlen p <= 3000;
  fi_data : take (length p) (fp_buf fp) = p;
  fi_bytes : all_bytes p;
  fi_status : fp_status fp = CLOAK_FIRSTPACKET_NEED_MORE;
  fi_redirect : fp_redirect_on_error fp = 0;
  fi_verdict : classify p = Incomplete;
  fi_transport :
    match p with
    | [] => fp_transport fp = 0 /\ fp_record_total fp = 0 /\ fp_crlf_state fp = 0
    | b :: _ =>
        (b = 22 /\ fp_transport fp = 1 /\ fp_crlf_state fp = 0 /\
         (zlen p < 5 /\ fp_record_total fp = 0 \/
          5 <= zlen p < record_len p /\ 5 < record_len p <= 3000 /\
          fp_record_total fp = record_len p)) \/
        (b = 71 /\ fp_transport fp = 2 /\ fp_record_total fp = 0 /\
         fp_crlf_state fp = crlf_of p)
    end
}.

Lemma suffix_snoc_iff (l p : bytes) (x b : Z) :
  l ++ [x] `suffix_of` p ++ [b] <-> x = b /\ l `suffix_of` p.
Proof.
  split.
  - intros [k Hk]. rewrite app_assoc in Hk. apply app_inj_tail in Hk as [Hk ->].
    split; [done|]. by exists k.
  - intros [-> [k ->]]. exists k. by rewrite app_assoc.
Qed.

Lemma crlf_of_snoc p b : crlf_of (p ++ [b]) = crlf_next (crlf_of p) b.
Proof. unfold crlf_of. by rewrite fold_left_app. Qed.

(** The automaton recognises the suffixes. *)
Lemma crlf_of_spec p :
  0 <= crlf_of p <= 3 /\ (crlf_of p = 3 <-> [13; 10; 13] `suffix_of` p) /\
  (crlf_of p = 2 <-> [13; 10] `suffix_of` p) /\
  (crlf_of p = 1 \/ crlf_of p = 3 <-> [13] `suffix_of` p).
Proof.
  induction p as [|b p (Hr & H3 & H2 & H1)] using rev_ind.
  { split; [by vm_compute|]. change (crlf_of []) with 0.
    assert (Hno : forall (x : Z) l, ~ (x :: l) `suffix_of` []) by (intros x l [[|] ?]; done).
    split_and!; split; try lia; intros H; by apply Hno in H. }
  rewrite crlf_of_snoc.
  assert (E1 : [13] `suffix_of` p ++ [b] <-> b = 13).
  { change [13] with ([] ++ [13]). rewrite suffix_snoc_iff.
    split; [by intros [-> _]|]. intros ->. split; [done|]. by exists p; rewrite app_nil_r. }
  assert (E2 : [13; 10] `suffix_of` p ++ [b] <-> b = 10 /\ [13] `suffix_of` p).
  { change [13; 10] with ([13] ++ [10]). rewrite suffix_snoc_iff. split; intros [? ?]; auto. }
  assert (E3 : [13; 10; 13] `suffix_of` p ++ [b] <-> b = 13 /\ [13; 10] `suffix_of` p).
  { change [13; 10; 13] with ([13; 10] ++ [13]). rewrite suffix_snoc_iff. split; intros [? ?]; auto. }
  rewrite E1, E2, E3, <- H2, <- H1. clear E1 E2 E3 H1 H2 H3.
  unfold crlf_next. destruct (Z.eqb_spec b 13) as [->|]; [|destruct (Z.eqb_spec b 10) as [->|]].
  - destruct (Z.eqb_spec (crlf_of p) 2); lia || (split_and!; try lia; split; intros; auto; lia).
  - destruct (Z.eqb_spec (crlf_of p) 1), (Z.eqb_spec (crlf_of p) 3); cbn [orb];
      split_and!; try lia; split; intros; try lia; tauto || lia.
  - split_and!; try lia; split; intros; lia.
Qed.

Lemma ends_head_snoc p b : ends_head (p ++ [b]) = (b =? 10) && (crlf_of p =? 3).
Proof.
  unfold ends_head. change [13; 10; 13; 10] with ([13; 10; 13] ++ [10]).
  destruct (crlf_of_spec p) as (_ & H3 & _).
  apply eq_true_iff_eq. rewrite bool_decide_eq_true, suffix_snoc_iff, <- H3, andb_true_iff, !Z.eqb_eq.
  split; intros [? ?]; auto.
Qed.

(** ** One byte *)

Lemma nth_app_l (p q : bytes) i : (i < length p)%nat -> nth i (p ++ q) 0 = nth i p 0.
Proof. intros. by apply app_nth1. Qed.

Lemma record_len_app p q : 5 <= zlen p -> record_len (p ++ q) = record_len p.
Proof. intros. unfold record_len. rewrite !nth_app_l by (unfold zlen in *; lia). done. Qed.

Lemma record_len_ge p : all_bytes p -> 5 <= record_len p.
Proof.
  intros Hp. unfold record_len.
  assert (Hn : forall i, 0 <= nth i p 0).
  { intros i. destruct (nth_in_or_default i p 0) as [Hin| ->]; [|lia].
    apply list_elem_of_In in Hin. pose proof (proj1 (Forall_forall _ _) Hp _ Hin). unfold is_byte in *. lia. }
  pose proof (Hn 3%nat). pose proof (Hn 4%nat). lia.
Qed.

(** The buffer after a push. *)
Lemma push_byte_spec p fp b :
  fp_inv p fp -> zlen p < 3000 ->
  exists buf, push_byte fp b
    = Some (Some (Firstpacket buf (zlen p + 1) (fp_transport fp) (fp_status fp)
                    (fp_record_total fp) (fp_crlf_state fp) (fp_redirect_on_error fp))) /\
    zlen buf = 3000 /\ take (length (p ++ [b])) buf = p ++ [b].
Proof.
  intros H Hlt. unfold push_byte. rewrite (fi_len _ _ H). unfold CLOAK_FIRSTPACKET_MAX.
  decide_cmp. pose proof (zlen_nonneg p).
  destruct (zlen_split (fp_buf fp) (zlen p)) as (l1 & l2 & E & H1 & H2);
    [rewrite (fi_block _ _ H); lia|].
  rewrite (fi_block _ _ H) in H2. destruct l2 as [|x l2]; [rewrite zlen_nil in H2; lia|].
  assert (l1 = p) as ->.
  { rewrite <- (fi_data _ _ H), E. symmetry. apply take_app_length'. unfold zlen in *. lia. }
  rewrite E, mem_set_app by done. cbn [mbind option_bind]. exists (p ++ b :: l2).
  split; [done|]. split; [rewrite zlen_app, zlen_cons in *; lia|].
  rewrite length_app, Nat.add_comm. cbn [length].
  replace (p ++ b :: l2) with ((p ++ [b]) ++ l2) by (by rewrite <- app_assoc).
  apply take_app_length'. rewrite length_app. cbn. lia.
Qed.

Lemma zlen_snoc (p : bytes) b : zlen (p ++ [b]) = zlen p + 1.
Proof. zlia. Qed.

(** What one byte does: the status is the verdict on the longer prefix. *)
(** The buffer holds [p], as far as it goes: one byte may be one too many. *)
Definition keeps_bytes (p : bytes) (len : Z) (data : bytes) : Prop :=
  zlen p <= CLOAK_FIRSTPACKET_MAX + 1 /\ len = Z.min (zlen p) CLOAK_FIRSTPACKET_MAX /\
  take (Z.to_nat len) data = take (Z.to_nat CLOAK_FIRSTPACKET_MAX) p.

Lemma keeps_whole p buf : zlen p <= 3000 -> take (length p) buf = p -> keeps_bytes p (zlen p) buf.
Proof.
  intros Hl Hb. unfold keeps_bytes, CLOAK_FIRSTPACKET_MAX. split; [lia|]. split; [lia|].
  rewrite (take_ge p) by (unfold zlen in Hl; lia). unfold zlen. by rewrite Nat2Z.id.
Qed.

Lemma keeps_full p b buf : zlen p = 3000 -> take (length p) buf = p -> keeps_bytes (p ++ [b]) 3000 buf.
Proof.
  intros Hl Hb. unfold keeps_bytes, CLOAK_FIRSTPACKET_MAX. rewrite zlen_snoc. split; [lia|]. split; [lia|].
  assert (Hn : length p = Z.to_nat 3000) by (unfold zlen in Hl; lia). rewrite <- Hn, take_app_length. exact Hb.
Qed.

Record step_result (p : bytes) (fp : cloak_firstpacket_t) : Prop := {
  sres_status : fp_status fp = verdict_status (classify p);
  sres_more : classify p = Incomplete -> fp_inv p fp;
  sres_done : classify p = Complete ->
    fp_len fp = zlen p /\ take (length p) (fp_buf fp) = p /\ fp_redirect_on_error fp = 0 /\
    zlen p <= 3000;
  sres_bad : classify p = Bad -> fp_redirect_on_error fp = 1 /\ keeps_bytes p (fp_len fp) (fp_buf fp)
}.

Ltac step_done Hc :=
  (eexists; split; [done|]); split; rewrite ?Hc;
  cbn [verdict_status fail set_transport set_progress fp_buf fp_len fp_transport fp_status
       fp_record_total fp_crlf_state fp_redirect_on_error]; try done.

Lemma firstpacket_tls_step p b fp (buf : bytes) total :
  all_bytes (p ++ [b]) -> head (p ++ [b]) = Some 22 -> zlen (p ++ [b]) <= 3000 -> p <> [] ->
  zlen buf = 3000 -> take (length (p ++ [b])) buf = p ++ [b] ->
  (zlen p < 5 /\ total = 0 \/ 5 <= zlen p < record_len p /\ 5 < record_len p <= 3000 /\
                              total = record_len p) ->
  fp = Firstpacket buf (zlen p + 1) 1 CLOAK_FIRSTPACKET_NEED_MORE total 0 0 ->
  exists fp', firstpacket_tls fp = Some fp' /\ step_result (p ++ [b]) fp'.
Proof.
  intros Hby Hhd Hmax Hne Hbuf Hdata Htot ->. unfold firstpacket_tls.
  cbn [fp_len fp_buf fp_status fp_crlf_state]. unfold TLS_RECORD_HEADER_LEN.
  pose proof (zlen_snoc p b) as Hz. pose proof (record_len_ge _ Hby) as Hge.
  assert (Hcl : classify (p ++ [b])
    = if zlen (p ++ [b]) <? 5 then Incomplete
      else if (record_len (p ++ [b]) =? 5) || (3000 <? record_len (p ++ [b])) then Bad
      else if zlen (p ++ [b]) <? record_len (p ++ [b]) then Incomplete else Complete).
  { destruct (p ++ [b]) as [|c q]; [done|]. injection Hhd as ->. done. }
  set (q := p ++ [b]) in *. rewrite <- Hz.
  assert (Hshape : exists q', q = 22 :: q') by (destruct q; [done|injection Hhd as ->; by eexists]).
  assert (Hinv : forall fp', classify q = Incomplete -> fp_buf fp' = buf -> fp_len fp' = zlen q -> fp_status fp' = 0 ->
    fp_redirect_on_error fp' = 0 -> fp_transport fp' = 1 -> fp_crlf_state fp' = 0 ->
    (zlen q < 5 /\ fp_record_total fp' = 0 \/
     5 <= zlen q < record_len q /\ 5 < record_len q <= 3000 /\ fp_record_total fp' = record_len q) ->
    fp_inv q fp').
  { intros fp' E0 E1 E2 E3 E4 E5 E6 E7. split; try done; try congruence.
    destruct Hshape as [q' ->]. left. done. }
  destruct (Z.eqb_spec (zlen q) 5) as [E5|E5].
  - assert (Hget : forall i, (i < 5)%nat -> buf.[Z.of_nat i] = Some (nth i q 0)).
    { intros i Hi. rewrite mem_get_lookup, Nat2Z.id by lia.
      rewrite <- (lookup_take_lt buf (length q)) by (unfold zlen in E5; lia). rewrite Hdata.
      destruct (lookup_lt_is_Some_2 q i) as [x Hx]; [unfold zlen in E5; lia|].
      by rewrite (nth_lookup_Some q i 0 x Hx). }
    pose proof (Hget 3%nat ltac:(lia)) as G3. pose proof (Hget 4%nat ltac:(lia)) as G4.
    change (Z.of_nat 3) with 3 in G3. change (Z.of_nat 4) with 4 in G4.
    rewrite G3. cbn [mbind option_bind]. rewrite G4. cbn [mbind option_bind].
    assert (Hnb : forall i, is_byte (nth i q 0)).
    { intros i. destruct (nth_in_or_default i q 0) as [Hin| ->]; [|unfold is_byte; lia].
      apply list_elem_of_In in Hin. apply (proj1 (Forall_forall _ _) Hby _ Hin). }
    rewrite shift_or_step by apply Hnb.
    replace (nth 3 q 0 * 256 + nth 4 q 0) with (record_len q - 5) by (unfold record_len; lia).
    replace (record_len q - 5 =? 0) with (record_len q =? 5)
      by (destruct (Z.eqb_spec (record_len q) 5); destruct (Z.eqb_spec (record_len q - 5) 0); lia).
    replace (5 + (record_len q - 5)) with (record_len q) by lia.
    unfold CLOAK_FIRSTPACKET_MAX. rewrite (proj2 (Z.ltb_ge (zlen q) 5)) in Hcl by lia.
    destruct (record_len q =? 5) eqn:R5; cbn [orb] in Hcl.
    { cbn [mbind option_bind]. step_done Hcl. intros _. split; [done|by apply keeps_whole]. }
    destruct (3000 <? record_len q) eqn:R3; cbn [mbind option_bind].
    { step_done Hcl. intros _. split; [done|by apply keeps_whole]. }
    bool_hyps. rewrite (proj2 (Z.ltb_lt (zlen q) _)) in Hcl by lia.
    cbn [fp_record_total fp_len set_progress]. decide_cmp. cbn [negb andb].
    step_done Hcl. intros _. apply Hinv; try done. right. cbn. lia.
  - cbn [mbind option_bind fp_record_total fp_len].
    destruct Htot as [[Hp ->]|(Hp & Hr & ->)].
    + rewrite (proj2 (Z.ltb_lt (zlen q) 5)) in Hcl by lia. cbn [Z.eqb negb andb].
      step_done Hcl. intros _. apply Hinv; try done. left. cbn. lia.
    + assert (Hrq : record_len q = record_len p) by (apply record_len_app; lia).
      rewrite Hrq in Hcl. rewrite (proj2 (Z.ltb_ge (zlen q) 5)) in Hcl by lia.
      rewrite (proj2 (Z.eqb_neq (record_len p) 5)), (proj2 (Z.ltb_ge 3000 _)) in Hcl by lia.
      cbn [orb] in Hcl. rewrite (proj2 (Z.eqb_neq (record_len p) 0)) by lia. cbn [negb andb].
      destruct (Z.eqb_spec (zlen q) (record_len p)) as [Ed|Ed].
      * rewrite Ed, Z.ltb_irrefl in Hcl. cbn [set_progress fp_buf fp_len fp_transport].
        step_done Hcl.
      * rewrite (proj2 (Z.ltb_lt (zlen q) _)) in Hcl by lia.
        step_done Hcl. intros _. apply Hinv; try done. right. cbn. lia.
Qed.

Lemma firstpacket_step_spec p fp b :
  fp_inv p fp -> is_byte b ->
  exists fp', firstpacket_step fp b = Some fp' /\ step_result (p ++ [b]) fp'.
Proof.
  intros H Hb. pose proof H as [Hbl Hln Hmx Hdt Hby Hst Hrd _ Htr].
  assert (Hby' : all_bytes (p ++ [b])) by (by apply all_bytes_snoc).
  pose proof (zlen_snoc p b) as Hz. unfold firstpacket_step.
  destruct (Z.le_gt_cases 3000 (zlen p)) as [Hfull|Hroom].
  { (* no room: only an HTTP head gets here *)
    unfold push_byte. rewrite Hln. unfold CLOAK_FIRSTPACKET_MAX. decide_cmp. cbn [mbind option_bind].
    destruct p as [|c p]; [rewrite zlen_nil in Hfull; lia|].
    destruct Htr as [(-> & _ & _ & Ht)|(-> & _)]; [lia|].
    assert (Hcl : classify ((71 :: p) ++ [b]) = Bad).
    { cbn [app classify]. change (71 =? 22) with false. change (71 =? 71) with true. cbn iota.
      change (71 :: p ++ [b]) with ((71 :: p) ++ [b]). by decide_cmp. }
    step_done Hcl. intros _. split; [done|]. rewrite Hln. replace (zlen (71 :: p)) with 3000 by lia. apply keeps_full; [lia|exact Hdt]. }
  destruct (push_byte_spec p fp b H ltac:(lia)) as (buf & -> & Hbuf & Hdata).
  cbn [mbind option_bind fp_transport]. rewrite Hst, Hrd.
  destruct p as [|c p].
  - destruct Htr as (-> & -> & ->). cbn [Z.eqb].
    replace (0 =? CLOAK_FIRSTPACKET_TRANSPORT_UNKNOWN) with true by done.
    cbn [app] in *.
    destruct (Z.eqb_spec b 22) as [->|H22]; [|destruct (Z.eqb_spec b 71) as [->|H71]].
    + assert (Hcl : classify [22] = Incomplete) by done. step_done Hcl.
      intros _. split; try done; cbn. left. split_and!; try done. by left.
    + assert (Hcl : classify [71] = Incomplete) by (by vm_compute). step_done Hcl.
      intros _. split; try done; cbn. right. by split_and!.
    + assert (Hcl : classify [b] = Bad)
        by (cbn; by rewrite (proj2 (Z.eqb_neq b 22)), (proj2 (Z.eqb_neq b 71))).
      step_done Hcl.
  - destruct Htr as [(-> & -> & -> & Htot)|(-> & -> & -> & ->)].
    + replace (1 =? CLOAK_FIRSTPACKET_TRANSPORT_UNKNOWN) with false by done.
      replace (1 =? CLOAK_FIRSTPACKET_TRANSPORT_TLS) with true by done.
      eapply (firstpacket_tls_step (22 :: p) b _ buf (fp_record_total fp)); try done; lia.
    + replace (2 =? CLOAK_FIRSTPACKET_TRANSPORT_UNKNOWN) with false by done.
      replace (2 =? CLOAK_FIRSTPACKET_TRANSPORT_TLS) with false by done.
      assert (Hcl : classify ((71 :: p) ++ [b])
                    = if (b =? 10) && (crlf_of (71 :: p) =? 3) then Complete else Incomplete).
      { rewrite <- ends_head_snoc. cbn [app classify].
        change (71 =? 22) with false. change (71 =? 71) with true. cbn iota.
        change (71 :: p ++ [b]) with ((71 :: p) ++ [b]). by decide_cmp. }
      unfold firstpacket_crlf.
      cbn [fp_crlf_state fp_status fp_record_total set_progress fp_buf fp_len fp_transport
           fp_redirect_on_error].
      assert (Hinv : forall c', crlf_of ((71 :: p) ++ [b]) = c' ->
        classify ((71 :: p) ++ [b]) = Incomplete ->
        fp_inv ((71 :: p) ++ [b])
          (Firstpacket buf (zlen (71 :: p) + 1) 2 CLOAK_FIRSTPACKET_NEED_MORE 0 c' 0)).
      { intros c' Hc' Hv. split; cbn [fp_buf fp_len fp_status fp_redirect_on_error fp_transport
          fp_record_total fp_crlf_state]; try done; try lia.
        cbn [app]. right. by split_and!. }
      rewrite crlf_of_snoc in Hinv. unfold crlf_next in Hinv.
      destruct (Z.eqb_spec b 13) as [->|]; cbn [Z.eqb andb] in *.
      { step_done Hcl. intros _. by apply Hinv. }
      destruct (Z.eqb_spec b 10) as [->|]; cbn [andb] in *.
      2: { step_done Hcl. intros _. by apply Hinv. }
      destruct (Z.eqb_spec (crlf_of (71 :: p)) 1) as [E1|E1].
      { rewrite E1 in *. cbn [orb Z.eqb] in *. step_done Hcl. intros _. by apply Hinv. }
      destruct (Z.eqb_spec (crlf_of (71 :: p)) 3) as [E3|E3]; cbn [orb] in *.
      { step_done Hcl. intros _. split_and!; done || lia. }
      step_done Hcl. intros _. by apply Hinv.
Qed.

(** ** Chunks *)

(** Nothing is decided before the last byte of what the machine asks for. *)
Lemma want_undecided p fp chunk k :
  fp_inv p fp -> zlen chunk <= cloak_firstpacket_want fp -> (0 < k < length chunk)%nat ->
  classify (p ++ take k chunk) = Incomplete.
Proof.
  intros H Hw Hk. pose proof H as [_ Hln Hmx _ _ Hst _ _ Htr].
  unfold cloak_firstpacket_want in Hw. rewrite Hst in Hw.
  replace (CLOAK_FIRSTPACKET_NEED_MORE =? CLOAK_FIRSTPACKET_NEED_MORE) with true in Hw by done. cbn [negb] in Hw.
  assert (Hl : zlen (take k chunk) = Z.of_nat k) by (unfold zlen; rewrite length_take; lia).
  destruct p as [|c p].
  { destruct Htr as (Et & _). rewrite Et in Hw. cbn in Hw. unfold zlen in Hw. lia. }
  destruct Htr as [(-> & Et & _ & Htot)|(-> & Et & _)]; rewrite Et in Hw.
  2: { cbn in Hw. unfold zlen in Hw. lia. }
  replace (1 =? CLOAK_FIRSTPACKET_TRANSPORT_UNKNOWN) with false in Hw by done.
  replace (1 =? CLOAK_FIRSTPACKET_TRANSPORT_TLS) with true in Hw by done.
  rewrite Hln in Hw. unfold TLS_RECORD_HEADER_LEN in Hw. pose proof (zlen_nonneg (22 :: p)).
  cbn [app classify]. change (22 =? 22) with true. cbn iota.
  change (22 :: p ++ take k chunk) with ((22 :: p) ++ take k chunk).
  rewrite zlen_app, Hl. unfold zlen in Hw at 1. destruct Htot as [[Hlt _]|(Hge & Hr & Et')].
  - rewrite (proj2 (Z.ltb_lt (zlen (22 :: p)) 5)) in Hw by lia.
    rewrite u64_small in Hw by lia. by decide_cmp.
  - rewrite (proj2 (Z.ltb_ge (zlen (22 :: p)) 5)) in Hw by lia.
    rewrite Et', u64_small in Hw by lia. rewrite record_len_app by lia. by decide_cmp.
Qed.

Lemma firstpacket_loop_spec data p fp :
  fp_inv p fp -> all_bytes data -> data <> [] ->
  (forall k, (0 < k < length data)%nat -> classify (p ++ take k data) = Incomplete) ->
  exists fp', firstpacket_loop fp data = Some fp' /\ step_result (p ++ data) fp'.
Proof.
  revert p fp. induction data as [|b data IH]; intros p fp H Hb Hne Hund; [done|].
  apply all_bytes_cons in Hb as [Hb Hd]. cbn [firstpacket_loop].
  destruct (firstpacket_step_spec p fp b H Hb) as (fp1 & -> & R1). cbn [mbind option_bind].
  destruct data as [|b' data].
  { exists fp1. cbn [firstpacket_loop]. split; [by destruct (_ =? _)|done]. }
  assert (Hi : classify (p ++ [b]) = Incomplete) by (apply (Hund 1%nat); cbn; lia).
  rewrite (sres_status _ _ R1), Hi. cbn [verdict_status]. rewrite Z.eqb_refl.
  destruct (IH (p ++ [b]) fp1) as (fp2 & -> & R2).
  - by apply R1.
  - done.
  - done.
  - intros k Hk. rewrite <- app_assoc. apply (Hund (S k)). cbn in *. lia.
  - exists fp2. split; [done|]. by rewrite <- app_assoc in R2.
Qed.

(** The caller: it reads at most what the machine asks for (and at least one
    byte), for as long as nothing is decided. *)
Fixpoint read_first_packet (fp : cloak_firstpacket_t) (sizes : list Z) (stream : bytes)
    : option (cloak_firstpacket_t * bytes) :=
  match sizes with
  | [] => Some (fp, stream)
  | n :: sizes' =>
      if negb (fp_status fp =? CLOAK_FIRSTPACKET_NEED_MORE) || (zlen stream =? 0)
      then Some (fp, stream)
      else
        let n := Z.max 1 (Z.min n (cloak_firstpacket_want fp)) in
        let chunk := take (Z.to_nat n) stream in
        fp ← cloak_firstpacket_feed fp chunk;
        read_first_packet fp sizes' (drop (Z.to_nat n) stream)
  end.

Lemma want_positive p fp : fp_inv p fp -> 1 <= cloak_firstpacket_want fp.
Proof.
  intros [_ Hln Hmx _ _ Hst _ _ Htr]. unfold cloak_firstpacket_want. rewrite Hst.
  replace (CLOAK_FIRSTPACKET_NEED_MORE =? CLOAK_FIRSTPACKET_NEED_MORE) with true by done. cbn [negb].
  destruct p as [|c p]; [destruct Htr as (-> & _); done|].
  destruct Htr as [(_ & -> & _ & Htot)|(_ & -> & _)]; [|done].
  replace (1 =? CLOAK_FIRSTPACKET_TRANSPORT_UNKNOWN) with false by done.
  replace (1 =? CLOAK_FIRSTPACKET_TRANSPORT_TLS) with true by done.
  rewrite Hln. unfold TLS_RECORD_HEADER_LEN. pose proof (zlen_nonneg (c :: p)).
  destruct Htot as [[? _]|(? & ? & ->)]; decide_cmp; usimpl; lia.
Qed.

Lemma fp_inv_init : fp_inv [] cloak_firstpacket_init.
Proof. split; cbn; try done. by vm_compute. Qed.

Lemma feed_spec p fp chunk :
  fp_inv p fp -> all_bytes chunk -> 0 < zlen chunk <= cloak_firstpacket_want fp ->
  exists fp', cloak_firstpacket_feed fp chunk = Some fp' /\ step_result (p ++ chunk) fp' /\
    forall k, (0 < k < length chunk)%nat -> classify (p ++ take k chunk) = Incomplete.
Proof.
  intros H Hb Hl. unfold cloak_firstpacket_feed. rewrite (fi_status _ _ H).
  replace (CLOAK_FIRSTPACKET_NEED_MORE =? CLOAK_FIRSTPACKET_NEED_MORE) with true by done.
  cbn [negb]. decide_cmp. rewrite mem_read_all by done. cbn [mbind option_bind].
  assert (Hund : forall k, (0 < k < length chunk)%nat -> classify (p ++ take k chunk) = Incomplete)
    by (intros k Hk; apply (want_undecided p fp); [done|lia|done]).
  destruct (firstpacket_loop_spec chunk p fp H Hb) as (fp' & -> & R);
    [intros ->; unfold zlen in Hl; cbn in Hl; lia|done|].
  by exists fp'.
Qed.

#[export] Instance verdict_eq_dec : EqDecision verdict.
Proof. solve_decision. Defined.

(** An undecided machine is the result of an undecided prefix. *)
Lemma fp_inv_result p fp : fp_inv p fp -> step_result p fp.
Proof.
  intros H. pose proof (fi_verdict p fp H) as E. split; rewrite ?E; try done. by apply H.
Qed.

(** ** Properties *)

(** C36: exactness.  However the bytes of a connection are split into reads,
    the machine consumes a prefix [p] of them of which no shorter non-empty
    prefix is decided, and its status is the verdict on [p]: DONE exactly when
    [p] is one whole TLS record with a non-empty body of at most 2995 bytes or
    one HTTP head ending in an empty line, ERROR (always with the redirect
    flag) exactly when [p] can become neither within 3000 bytes.  Every access
    is inside the buffer, and what follows [p] is not read.  The buffer holds
    [p], for the session or for the decoy that an error is redirected to; except
    that of a head that is too long, whose 3001st byte was read to find that
    out, it holds the first 3000. *)
Theorem firstpacket_exact sizes stream :
  all_bytes stream ->
  exists p rest fp,
    read_first_packet cloak_firstpacket_init sizes stream = Some (fp, rest) /\
    stream = p ++ rest /\
    fp_status fp = verdict_status (classify p) /\
    (forall k, (0 < k < length p)%nat -> classify (take k p) = Incomplete) /\
    (classify p <> Bad ->
     cloak_firstpacket_len fp = zlen p /\
     take (length p) (cloak_firstpacket_data fp) = p /\ zlen p <= CLOAK_FIRSTPACKET_MAX) /\
    (classify p = Bad -> keeps_bytes p (cloak_firstpacket_len fp) (cloak_firstpacket_data fp)) /\
    cloak_firstpacket_redirect_on_error fp = (if decide (classify p = Bad) then 1 else 0).
Proof.
  intros Hs.
  assert (Hgen : forall p fp stream, fp_inv p fp -> all_bytes stream ->
    (forall k, (0 < k < length p)%nat -> classify (take k p) = Incomplete) ->
    exists q rest fp', read_first_packet fp sizes stream = Some (fp', rest) /\
      stream = q ++ rest /\ step_result (p ++ q) fp' /\
      forall k, (0 < k < length (p ++ q))%nat -> classify (take k (p ++ q)) = Incomplete).
  { clear stream Hs. induction sizes as [|n sizes IH]; intros p fp stream H Hs Hp; cbn [read_first_packet].
    - exists [], stream, fp. rewrite app_nil_r. split_and!; try done. by apply fp_inv_result.
    - rewrite (fi_status _ _ H).
      replace (CLOAK_FIRSTPACKET_NEED_MORE =? CLOAK_FIRSTPACKET_NEED_MORE) with true by done.
      cbn [negb orb]. destruct (Z.eqb_spec (zlen stream) 0) as [E0|E0].
      { exists [], stream, fp. rewrite app_nil_r. split_and!; try done. by apply fp_inv_result. }
      set (m := Z.max 1 (Z.min n (cloak_firstpacket_want fp))).
      pose proof (want_positive p fp H) as Hw. pose proof (zlen_nonneg stream).
      assert (Hm : 1 <= m <= cloak_firstpacket_want fp) by lia.
      set (chunk := take (Z.to_nat m) stream).
      assert (Hcl : 0 < zlen chunk <= m)
        by (unfold chunk, zlen in *; rewrite length_take; lia).
      destruct (feed_spec p fp chunk H) as (fp1 & -> & R1 & Hund);
        [by apply Forall_take|lia|]. cbn [mbind option_bind].
      assert (Hp1 : forall k, (0 < k < length (p ++ chunk))%nat ->
                classify (take k (p ++ chunk)) = Incomplete).
      { intros k Hk. destruct (decide (k < length p)%nat).
        - rewrite take_app_le by lia. apply Hp. lia.
        - rewrite take_app_ge by lia. rewrite length_app in Hk.
          destruct (decide (k = length p)) as [->|].
          + rewrite Nat.sub_diag, take_0, app_nil_r. apply (fi_verdict _ _ H).
          + apply Hund. lia. }
      destruct (decide (classify (p ++ chunk) = Incomplete)) as [Ei|Ei].
      + destruct (IH (p ++ chunk) fp1 (drop (Z.to_nat m) stream)) as (q & rest & fp2 & -> & Eq & R2 & Hq).
        * by apply R1.
        * by apply Forall_drop.
        * done.
        * exists (chunk ++ q), rest, fp2. rewrite app_assoc. split_and!; try done.
          rewrite <- app_assoc, <- Eq. unfold chunk. by rewrite take_drop.
      + exists chunk, (drop (Z.to_nat m) stream), fp1. split_and!; try done.
        * destruct sizes; [done|]. cbn [read_first_packet]. rewrite (sres_status _ _ R1).
          by destruct (classify (p ++ chunk)).
        * unfold chunk. by rewrite take_drop. }
  destruct (Hgen [] cloak_firstpacket_init stream fp_inv_init Hs) as (p & rest & fp & E & Es & R & Hp).
  { cbn. lia. }
  cbn [app] in *. exists p, rest, fp. destruct R as [R1 R2 R3 R4]. split_and!; try done.
  - intros Hnb. unfold cloak_firstpacket_len, cloak_firstpacket_data, CLOAK_FIRSTPACKET_MAX.
    destruct (classify p) eqn:Ec; [| |done].
    + specialize (R2 eq_refl). split_and!; apply R2.
    + destruct (R3 eq_refl) as (? & ? & _ & ?). done.
  - intros Hbad. by apply R4.
  - unfold cloak_firstpacket_redirect_on_error. case_decide as Ec; [by apply R4|].
    destruct (classify p) eqn:Ec'; [apply R2|apply R3|]; done.
Qed.

Lemma firstpacket_exact_witness :
  exists p rest fp,
    read_first_packet cloak_firstpacket_init [3; 9; 9; 9] [22; 3; 1; 0; 2; 7; 8; 99; 99] = Some (fp, rest) /\
    [22; 3; 1; 0; 2; 7; 8; 99; 99] = p ++ rest /\
    fp_status fp = verdict_status (classify p) /\
    (forall k, (0 < k < length p)%nat -> classify (take k p) = Incomplete) /\
    (classify p <> Bad ->
     cloak_firstpacket_len fp = zlen p /\
     take (length p) (cloak_firstpacket_data fp) = p /\ zlen p <= CLOAK_FIRSTPACKET_MAX) /\
    (classify p = Bad -> keeps_bytes p (cloak_firstpacket_len fp) (cloak_firstpacket_data fp)) /\
    cloak_firstpacket_redirect_on_error fp = (if decide (classify p = Bad) then 1 else 0).
Proof.
  apply firstpacket_exact.
  repeat (apply Forall_cons; split; [unfold is_byte; lia|]). done.
Defined.

(** The same connection, evaluated: the two bytes behind the record stay. *)
Example firstpacket_run :
  (r ← read_first_packet cloak_firstpacket_init [3; 9; 9; 9] [22; 3; 1; 0; 2; 7; 8; 99; 99];
   Some (fp_status (fst r), fp_len (fst r), snd r)) = Some (1, 7, [99; 99]).
Proof. by vm_compute. Qed.

(** A request of 3001 bytes without an end: the last one was read, is not in the
    buffer, and so does not reach the decoy. *)
Example firstpacket_loses_byte :
  (r ← read_first_packet cloak_firstpacket_init (replicate 3001 1) (71 :: replicate 3000 97 ++ [98; 99]);
   Some (fp_status (fst r), cloak_firstpacket_redirect_on_error (fst r), cloak_firstpacket_len (fst r), snd r))
  = Some (CLOAK_FIRSTPACKET_ERROR, 1, 3000, [98; 99]).
Proof. vm_compute. reflexivity. Qed.
