(* ===== verification/ClientHelloParse.v ===== *)
(** * The server's ClientHello parser ([libcloak-server/src/clienthello_parse.c])

    The first bytes an unauthenticated peer sends are parsed here, so the
    parser must survive anything.  A [cursor_t] is an offset into the packet
    and a number of remaining bytes; a pointer result is an offset, [None] for
    NULL.  The operations return in the monad of [Fallible]: [malformed] is the
    C return value 0 (-1 for the whole message). *)
From S2P Require Import Prelude Fallible.

Definition TLS_EXT_SERVER_NAME : Z := 0.
Definition TLS_EXT_KEY_SHARE : Z := 51.
Definition TLS_GROUP_X25519 : Z := 29.
Definition SNI_NAME_TYPE_HOST_NAME : Z := 0.
Definition CLOAK_CLIENTHELLO_PARSE_RANDOM_LEN : Z := 32.
Definition CLOAK_CLIENTHELLO_PARSE_X25519_LEN : Z := 32.

Record cloak_clienthello_parsed_t := Parsed {
  ch_random : option Z;
  ch_session_id : option Z;
  ch_session_id_len : Z;
  ch_x25519_key_share : option Z;
  ch_sni : option Z;
  ch_sni_len : Z
}.

Record cursor_t := Cursor { c_p : Z; c_remaining : Z }.

(** ** The cursor *)

Definition cursor_take (c : cursor_t) (n : Z) : parse (Z * cursor_t) :=
  if c_remaining c <? n then malformed
  else ok (c_p c, Cursor (c_p c + n) (u64 (c_remaining c - n))).

Definition cursor_take_u8 (data : bytes) (c : cursor_t) : parse (Z * cursor_t) :=
  let! (p, c) := cursor_take c 1 in
  let! b0 := byte_at data p in
  ok (b0, c).

Definition cursor_take_u16 (data : bytes) (c : cursor_t) : parse (Z * cursor_t) :=
  let! (p, c) := cursor_take c 2 in
  let! b0 := byte_at data p in
  let! b1 := byte_at data (p + 1) in
  ok (u16 (Z.lor (Z.shiftl b0 8) b1), c).

Definition cursor_take_u24 (data : bytes) (c : cursor_t) : parse (Z * cursor_t) :=
  let! (p, c) := cursor_take c 3 in
  let! b0 := byte_at data p in
  let! b1 := byte_at data (p + 1) in
  let! b2 := byte_at data (p + 2) in
  ok (Z.lor (Z.lor (Z.shiftl b0 16) (Z.shiftl b1 8)) b2, c).

Definition cursor_take_scoped (c : cursor_t) (n : Z) : parse (cursor_t * cursor_t) :=
  let! (p, c) := cursor_take c n in
  ok (Cursor p n, c).

Definition cursor_skip (c : cursor_t) (n : Z) : parse cursor_t :=
  let! (_, c) := cursor_take c n in
  ok c.

(** ** The extensions *)

(** The loop of [parse_key_share_ext]; [None] when it is still running. *)
Fixpoint key_share_loop (fuel : nat) (data : bytes) (list : cursor_t) (out_key_share : option Z)
    : parse (option Z) :=
  if 0 <? c_remaining list then
    match fuel with
    | O => None
    | S fuel' =>
        let! (group, list) := cursor_take_u16 data list in
        let! (klen, list) := cursor_take_u16 data list in
        let! (kdata, list) := cursor_take list klen in
        let out_key_share :=
          if (group =? TLS_GROUP_X25519) && (klen =? CLOAK_CLIENTHELLO_PARSE_X25519_LEN) &&
             bool_decide (out_key_share = None)
          then Some kdata else out_key_share in
        key_share_loop fuel' data list out_key_share
    end
  else ok out_key_share.

Definition parse_key_share_ext (fuel : nat) (data : bytes) (ext_cursor : cursor_t)
    (out_key_share : option Z) : parse (option Z) :=
  let! (list_len, ext_cursor) := cursor_take_u16 data ext_cursor in
  let! (list, _) := cursor_take_scoped ext_cursor list_len in
  key_share_loop fuel data list out_key_share.

(** The loop of [parse_server_name_ext]. *)
Fixpoint server_name_loop (fuel : nat) (data : bytes) (list : cursor_t)
    (out_sni : option Z * Z) : parse (option Z * Z) :=
  if 0 <? c_remaining list then
    match fuel with
    | O => None
    | S fuel' =>
        let! (name_type, list) := cursor_take_u8 data list in
        let! (name_len, list) := cursor_take_u16 data list in
        let! (name, list) := cursor_take list name_len in
        let out_sni :=
          if (name_type =? SNI_NAME_TYPE_HOST_NAME) && bool_decide (fst out_sni = None)
          then (Some name, name_len) else out_sni in
        server_name_loop fuel' data list out_sni
    end
  else ok out_sni.

Definition parse_server_name_ext (fuel : nat) (data : bytes) (ext_cursor : cursor_t)
    (out_sni : option Z * Z) : parse (option Z * Z) :=
  let! (list_len, ext_cursor) := cursor_take_u16 data ext_cursor in
  let! (list, _) := cursor_take_scoped ext_cursor list_len in
  server_name_loop fuel data list out_sni.

Fixpoint parse_extensions (fuel : nat) (data : bytes) (exts : cursor_t)
    (out_sni : option Z * Z) (out_key_share : option Z)
    : parse ((option Z * Z) * option Z) :=
  if 0 <? c_remaining exts then
    match fuel with
    | O => None
    | S fuel' =>
        let! (ext_type, exts) := cursor_take_u16 data exts in
        let! (ext_len, exts) := cursor_take_u16 data exts in
        let! (ext_data, exts) := cursor_take_scoped exts ext_len in
        if ext_type =? TLS_EXT_SERVER_NAME then
          let! out_sni := parse_server_name_ext fuel' data ext_data out_sni in
          parse_extensions fuel' data exts out_sni out_key_share
        else if ext_type =? TLS_EXT_KEY_SHARE then
          let! out_key_share := parse_key_share_ext fuel' data ext_data out_key_share in
          parse_extensions fuel' data exts out_sni out_key_share
        else parse_extensions fuel' data exts out_sni out_key_share
    end
  else ok (out_sni, out_key_share).

(** ** The message *)

(** The fixed part, up to the extension block. *)
Definition parse_header (data : bytes) (c : cursor_t) : parse cursor_t :=
  let! (hdr, c) := cursor_take c 5 in
  let! h0 := byte_at data hdr in
  if negb (h0 =? 22) then malformed else
  let! h1 := byte_at data (hdr + 1) in
  if negb (h1 =? 3) then malformed else
  let! h2 := byte_at data (hdr + 2) in
  if negb (h2 =? 1) then malformed else
  let! (handshake_type, c) := cursor_take_u8 data c in
  if negb (handshake_type =? 1) then malformed else
  let! (handshake_len, c) := cursor_take_u24 data c in
  if negb (handshake_len =? c_remaining c) then malformed else ok c.

(** [cloak_clienthello_parse]: [Some None] is the return value -1. *)
Definition cloak_clienthello_parse (fuel : nat) (data : bytes)
    : parse cloak_clienthello_parsed_t :=
  let! c := parse_header data (Cursor 0 (zlen data)) in
  let! (_, c) := cursor_take c 2 in
  let! (random, c) := cursor_take c CLOAK_CLIENTHELLO_PARSE_RANDOM_LEN in
  let! (session_id_len, c) := cursor_take_u8 data c in
  let! (session_id, c) :=
    (if 0 <? session_id_len then
       let! (p, c) := cursor_take c session_id_len in ok (Some p, c)
     else ok (None, c)) in
  let! (cipher_suites_len, c) := cursor_take_u16 data c in
  let! c := cursor_skip c cipher_suites_len in
  let! (compression_methods_len, c) := cursor_take_u8 data c in
  let! c := cursor_skip c compression_methods_len in
  let! (extensions_len, c) := cursor_take_u16 data c in
  let! (extensions, c) := cursor_take_scoped c extensions_len in
  let! (sni, key_share) := parse_extensions fuel data extensions (None, 0) None in
  ok (Parsed (Some random) session_id session_id_len key_share (fst sni) (snd sni)).

(** ** The grammar of the message *)

(** Extensions the parser looks into, with the bytes that may follow the list
    inside an extension, and all the others. *)
Inductive extension :=
  | ServerName (names : list (Z * bytes)) (junk : bytes)
  | KeyShare (shares : list (Z * bytes)) (junk : bytes)
  | OtherExtension (type : Z) (body : bytes).

Record hello := Hello {
  h_record_length : bytes;
  h_version : bytes;
  h_random : bytes;
  h_session_id : bytes;
  h_cipher_suites : bytes;
  h_compression : bytes;
  h_extensions : list extension;
  h_trailing : bytes
}.

Definition vec8 (l : bytes) : bytes := be_bytes 1 (zlen l) ++ l.
Definition vec16 (l : bytes) : bytes := be_bytes 2 (zlen l) ++ l.
Definition vec24 (l : bytes) : bytes := be_bytes 3 (zlen l) ++ l.

Definition enc_name (n : Z * bytes) : bytes := be_bytes 1 n.1 ++ vec16 n.2.
Definition enc_share (s : Z * bytes) : bytes := be_bytes 2 s.1 ++ vec16 s.2.

Definition ext_type (e : extension) : Z :=
  match e with
  | ServerName _ _ => TLS_EXT_SERVER_NAME
  | KeyShare _ _ => TLS_EXT_KEY_SHARE
  | OtherExtension t _ => t
  end.
Definition ext_body (e : extension) : bytes :=
  match e with
  | ServerName names junk => vec16 (mjoin (enc_name <$> names)) ++ junk
  | KeyShare shares junk => vec16 (mjoin (enc_share <$> shares)) ++ junk
  | OtherExtension _ body => body
  end.
Definition enc_ext (e : extension) : bytes := be_bytes 2 (ext_type e) ++ vec16 (ext_body e).
Definition enc_exts (es : list extension) : bytes := mjoin (enc_ext <$> es).

Definition enc_hello_body (h : hello) : bytes :=
  h_version h ++ h_random h ++ vec8 (h_session_id h) ++ vec16 (h_cipher_suites h) ++
  vec8 (h_compression h) ++ vec16 (enc_exts (h_extensions h)) ++ h_trailing h.
Definition enc_hello (h : hello) : bytes :=
  [22; 3; 1] ++ h_record_length h ++ [1] ++ vec24 (enc_hello_body h).

Definition fits16 (l : bytes) : Prop := zlen l < 65536.
Definition name_ok (n : Z * bytes) : Prop := 0 <= n.1 < 256 /\ fits16 n.2.
Definition share_ok (s : Z * bytes) : Prop := 0 <= s.1 < 65536 /\ fits16 s.2.
Definition ext_ok (e : extension) : Prop :=
  fits16 (ext_body e) /\
  match e with
  | ServerName names _ => Forall name_ok names /\ fits16 (mjoin (enc_name <$> names))
  | KeyShare shares _ => Forall share_ok shares /\ fits16 (mjoin (enc_share <$> shares))
  | OtherExtension t _ =>
      0 <= t < 65536 /\ t <> TLS_EXT_SERVER_NAME /\ t <> TLS_EXT_KEY_SHARE
  end.
Definition hello_ok (h : hello) : Prop :=
  zlen (h_record_length h) = 2 /\ zlen (h_version h) = 2 /\ zlen (h_random h) = 32 /\
  zlen (h_session_id h) < 256 /\ fits16 (h_cipher_suites h) /\
  zlen (h_compression h) < 256 /\ Forall ext_ok (h_extensions h) /\
  fits16 (enc_exts (h_extensions h)) /\ zlen (enc_hello_body h) < 16777216.

(** The values the server wants: the first host name and the first 32-byte
    X25519 share of all the extensions. *)
Definition host_name (n : Z * bytes) : option bytes :=
  if n.1 =? SNI_NAME_TYPE_HOST_NAME then Some n.2 else None.
Definition x25519 (s : Z * bytes) : option bytes :=
  if (s.1 =? TLS_GROUP_X25519) && (zlen s.2 =? CLOAK_CLIENTHELLO_PARSE_X25519_LEN)
  then Some s.2 else None.
Definition ext_names (e : extension) : list (Z * bytes) :=
  match e with ServerName names _ => names | _ => [] end.
Definition ext_shares (e : extension) : list (Z * bytes) :=
  match e with KeyShare shares _ => shares | _ => [] end.
Definition hello_sni (h : hello) : option bytes :=
  head (omap host_name (mjoin (ext_names <$> h_extensions h))).
Definition hello_key_share (h : hello) : option bytes :=
  head (omap x25519 (mjoin (ext_shares <$> h_extensions h))).

(** A pointer result and its length denote a slice of the packet. *)
Definition denotes (data : bytes) (p : option Z) (n : Z) (v : option bytes) : Prop :=
  match p, v with
  | None, None => True
  | Some q, Some l => data.[q +: n] = Some l
  | _, _ => False
  end.

Definition describes (data : bytes) (r : cloak_clienthello_parsed_t) (h : hello) : Prop :=
  denotes data (ch_random r) 32 (Some (h_random h)) /\
  denotes data (ch_session_id r) (ch_session_id_len r)
    (if zlen (h_session_id h) =? 0 then None else Some (h_session_id h)) /\
  ch_session_id_len r = zlen (h_session_id h) /\
  denotes data (ch_x25519_key_share r) 32 (hello_key_share h) /\
  denotes data (ch_sni r) (ch_sni_len r) (hello_sni h) /\
  (ch_sni r = None -> ch_sni_len r = 0).

(** ** Cursors and the bytes they see *)

Section parser.
Context (data : bytes) (Hdata : all_bytes data) (Hsize : zlen data < 18446744073709551616).

(** [c] sees exactly [l]. *)
Definition views (c : cursor_t) (l : bytes) : Prop :=
  data.[c_p c +: c_remaining c] = Some l.

Lemma views_remaining c l : views c l -> c_remaining c = zlen l.
Proof. by intros (_&_&_&_&->)%mem_read_inv. Qed.

Lemma views_bytes c l : views c l -> all_bytes l.
Proof. by apply all_bytes_slice. Qed.

Lemma take_succeeds c n l1 l2 :
  views c (l1 ++ l2) -> zlen l1 = n ->
  succeeds (cursor_take c n) (fun '(p, c') => data.[p +: n] = Some l1 /\ views c' l2).
Proof.
  intros Hv Hn. pose proof (views_remaining _ _ Hv) as Hr. rewrite zlen_app in Hr. zlen_pos.
  pose proof (mem_read_inv _ _ _ _ Hv) as (?&?&?&Hl&_).
  unfold cursor_take. decide_cmp. eexists; split; [done|]. cbn [fst snd].
  assert (Hsplit : take (Z.to_nat (c_remaining c)) (drop (Z.to_nat (c_p c)) data) = l1 ++ l2)
    by done.
  split.
  - rewrite mem_read_Some by lia. f_equal.
    replace (Z.to_nat n) with (Z.to_nat n `min` Z.to_nat (c_remaining c))%nat by lia.
    rewrite <- take_take, Hsplit. apply take_app_length'. unfold zlen in *; lia.
  - unfold views. cbn [c_p c_remaining]. usimpl. rewrite mem_read_Some by lia. f_equal.
    rewrite Z2Nat.inj_add, <- drop_drop by lia.
    replace (Z.to_nat (c_remaining c - n)) with (Z.to_nat (c_remaining c) - Z.to_nat n)%nat by lia.
    rewrite <- skipn_firstn_comm, Hsplit. apply drop_app_length'. unfold zlen in *; lia.
Qed.

Lemma take_safe c n l :
  views c l -> 0 <= n ->
  safely (cursor_take c n) (fun '(p, c') =>
    exists l1 l2, l = l1 ++ l2 /\ zlen l1 = n /\ data.[p +: n] = Some l1 /\ views c' l2).
Proof.
  intros Hv Hn. pose proof (views_remaining _ _ Hv) as Hr.
  destruct (Z.lt_ge_cases (zlen l) n).
  { unfold cursor_take. by decide_cmp. }
  destruct (zlen_split l n ltac:(lia)) as (l1&l2&->&Hn1&_).
  destruct (take_succeeds c n l1 l2 Hv Hn1) as ([p c']&->&?&?). cbn. by eauto 6.
Qed.

(** Bytes of a slice that was just taken. *)
Lemma byte_at_slice p n l i b :
  data.[p +: n] = Some l -> l !! Z.to_nat i = Some b -> 0 <= i < n ->
  byte_at data (p + i) = ok b.
Proof.
  intros Hp Hl Hi. unfold byte_at. rewrite (mem_read_get _ _ _ _ _ Hp Hi).
  by rewrite mem_get_lookup, Hl by lia.
Qed.

Lemma be_val_small1 b0 : be_val [b0] = b0.
Proof. unfold be_val; cbn; lia. Qed.

Lemma u8_succeeds c v l :
  views c (be_bytes 1 v ++ l) -> 0 <= v < 256 ->
  succeeds (cursor_take_u8 data c) (fun '(x, c') => x = v /\ views c' l).
Proof.
  intros Hv Hr. eapply succeeds_bind; [by eapply (take_succeeds c 1)|].
  intros [p c'] [Hp Hc]. rewrite <- (Z.add_0_r p).
  rewrite (byte_at_slice _ _ _ 0 (v mod 256) Hp) by (done || lia). eexists; split; [done|]. split; [by apply Z.mod_small|done].
Qed.

Lemma u16_succeeds c v l :
  views c (be_bytes 2 v ++ l) -> 0 <= v < 65536 ->
  succeeds (cursor_take_u16 data c) (fun '(x, c') => x = v /\ views c' l).
Proof.
  intros Hv Hr. eapply succeeds_bind; [by eapply (take_succeeds c 2)|].
  intros [p c'] [Hp Hc]. rewrite <- (Z.add_0_r p) at 1.
  rewrite (byte_at_slice _ _ _ 0 (v / 256 mod 256) Hp), (byte_at_slice _ _ _ 1 (v mod 256) Hp)
    by (done || lia).
  eexists; split; [done|]. split; [|done].
  rewrite lor_shiftl_add by dlia. rewrite u16_small; dlia.
Qed.

Lemma u24_succeeds c v l :
  views c (be_bytes 3 v ++ l) -> 0 <= v < 16777216 ->
  succeeds (cursor_take_u24 data c) (fun '(x, c') => x = v /\ views c' l).
Proof.
  intros Hv Hr. eapply succeeds_bind; [by eapply (take_succeeds c 3)|].
  intros [p c'] [Hp Hc]. rewrite <- (Z.add_0_r p) at 1.
  rewrite (byte_at_slice _ _ _ 0 (v / 256 / 256 mod 256) Hp),
    (byte_at_slice _ _ _ 1 (v / 256 mod 256) Hp), (byte_at_slice _ _ _ 2 (v mod 256) Hp)
    by (done || lia).
  eexists; split; [done|]. split; [|done].
  rewrite Z.shiftl_mul_pow2, (Z.shiftl_mul_pow2 _ 8) by lia.
  set (a := v / 256 / 256 mod 256). set (b := v / 256 mod 256). 
  assert (Hab : a * 2 ^ 16 + b * 2 ^ 8 + v mod 256 = v) by (subst a b; dlia).
  rewrite <- Z.shiftl_mul_pow2 by lia. rewrite lor_shiftl_add by (subst b; dlia).
  replace (a * 2 ^ 16 + b * 2 ^ 8) with (Z.shiftl (a * 256 + b) 8)
    by (rewrite Z.shiftl_mul_pow2; lia).
  rewrite lor_shiftl_add by dlia. dlia.
Qed.

Lemma scoped_succeeds c n l1 l2 :
  views c (l1 ++ l2) -> zlen l1 = n ->
  succeeds (cursor_take_scoped c n) (fun '(s, c') => views s l1 /\ views c' l2).
Proof.
  intros Hv Hn. eapply succeeds_bind; [by eapply take_succeeds|].
  intros [p c'] [Hp Hc]. by eexists.
Qed.

(** A fixed-width integer is the encoding of its value. *)
Lemma be_bytes_of n l1 : all_bytes l1 -> zlen l1 = Z.of_nat n ->
  l1 = be_bytes n (be_val l1) /\ 0 <= be_val l1 < 256 ^ Z.of_nat n.
Proof.
  intros Hb Hn. split.
  - rewrite <- (be_bytes_be_val l1) at 1 by done. f_equal. unfold zlen in Hn; lia.
  - rewrite <- Hn. by apply be_val_range.
Qed.

Lemma succeeds_safely {A} (m : parse A) P : succeeds m P -> safely m P.
Proof. by intros (x&->&Hx). Qed.

Lemma uint_safe {take_u : cursor_t -> parse (Z * cursor_t)} (n : nat) :
  (forall c l, views c l -> zlen l < Z.of_nat n -> take_u c = malformed) ->
  (forall c v l, views c (be_bytes n v ++ l) -> 0 <= v < 256 ^ Z.of_nat n ->
     succeeds (take_u c) (fun '(x, c') => x = v /\ views c' l)) ->
  forall c l, views c l ->
  safely (take_u c) (fun '(v, c') =>
    exists l', l = be_bytes n v ++ l' /\ 0 <= v < 256 ^ Z.of_nat n /\ views c' l').
Proof.
  intros Hbad Hgood c l Hv. destruct (Z.lt_ge_cases (zlen l) (Z.of_nat n)).
  { by rewrite (Hbad c l). }
  destruct (zlen_split l (Z.of_nat n) ltac:(lia)) as (l1&l2&->&Hn1&_).
  pose proof (views_bytes _ _ Hv) as [Hb _]%all_bytes_app.
  destruct (be_bytes_of n l1 Hb Hn1) as [He Hr].
  rewrite He in Hv. 
  eapply safely_weaken; [by eapply succeeds_safely, Hgood|]. intros [x c'] [-> ?].
  exists l2. by rewrite <- He.
Qed.

Lemma take_short c n l : views c l -> zlen l < n -> cursor_take c n = malformed.
Proof. intros Hv ?. unfold cursor_take. rewrite (views_remaining _ _ Hv). by decide_cmp. Qed.

Lemma u8_safe c l :
  views c l ->
  safely (cursor_take_u8 data c) (fun '(v, c') =>
    exists l', l = be_bytes 1 v ++ l' /\ 0 <= v < 256 /\ views c' l').
Proof.
  apply (uint_safe (take_u := cursor_take_u8 data) 1); [|apply u8_succeeds].
  intros c0 l0 Hv Hs. unfold cursor_take_u8. by rewrite (take_short c0 1 l0 Hv Hs).
Qed.

Lemma u16_safe c l :
  views c l ->
  safely (cursor_take_u16 data c) (fun '(v, c') =>
    exists l', l = be_bytes 2 v ++ l' /\ 0 <= v < 65536 /\ views c' l').
Proof.
  apply (uint_safe (take_u := cursor_take_u16 data) 2); [|apply u16_succeeds].
  intros c0 l0 Hv Hs. unfold cursor_take_u16. by rewrite (take_short c0 2 l0 Hv Hs).
Qed.

Lemma u24_safe c l :
  views c l ->
  safely (cursor_take_u24 data c) (fun '(v, c') =>
    exists l', l = be_bytes 3 v ++ l' /\ 0 <= v < 16777216 /\ views c' l').
Proof.
  apply (uint_safe (take_u := cursor_take_u24 data) 3); [|apply u24_succeeds].
  intros c0 l0 Hv Hs. unfold cursor_take_u24. by rewrite (take_short c0 3 l0 Hv Hs).
Qed.

Lemma scoped_safe c n l :
  views c l -> 0 <= n ->
  safely (cursor_take_scoped c n) (fun '(s, c') =>
    exists l1 l2, l = l1 ++ l2 /\ zlen l1 = n /\ views s l1 /\ views c' l2).
Proof.
  intros Hv Hn. eapply safely_bind; [by eapply take_safe|].
  intros [p c'] (l1&l2&->&Hl1&Hp&Hc). cbn. exists l1, l2. done.
Qed.

(** ** The lists inside the extensions *)

(** The first result of [f], unless one was found earlier. *)
Definition pick {A} (f : A -> option bytes) (acc : option bytes) (l : list A) : option bytes :=
  match acc with Some _ => acc | None => head (omap f l) end.

Lemma pick_cons {A} (f : A -> option bytes) acc x l :
  pick f acc (x :: l) = pick f (match acc with Some _ => acc | None => f x end) l.
Proof. destruct acc; [done|]. cbn. by destruct (f x). Qed.

Lemma pick_app {A} (f : A -> option bytes) acc l l' :
  pick f acc (l ++ l') = pick f (pick f acc l) l'.
Proof. revert acc. induction l as [|x l IH]; intros; [by destruct acc|]. cbn [app]. by rewrite !pick_cons. Qed.

Lemma denotes_none p n v : denotes data p n v -> bool_decide (p = None) = bool_decide (v = None).
Proof. by destruct p, v. Qed.

Lemma enc_share_length s : zlen (enc_share s) = 4 + zlen s.2.
Proof. unfold enc_share, vec16, zlen. rewrite !length_app, !length_be_bytes. lia. Qed.

Lemma enc_name_length n : zlen (enc_name n) = 3 + zlen n.2.
Proof. unfold enc_name, vec16, zlen. rewrite !length_app, !length_be_bytes. lia. Qed.

Lemma enc_share_app s l :
  enc_share s ++ l = be_bytes 2 s.1 ++ be_bytes 2 (zlen s.2) ++ s.2 ++ l.
Proof. unfold enc_share, vec16. by rewrite <- !app_assoc. Qed.

Lemma enc_name_app s l :
  enc_name s ++ l = be_bytes 1 s.1 ++ be_bytes 2 (zlen s.2) ++ s.2 ++ l.
Proof. unfold enc_name, vec16. by rewrite <- !app_assoc. Qed.

Lemma key_share_step p v acc s :
  denotes data acc 32 v -> data.[p +: zlen s.2] = Some s.2 ->
  denotes data
    (if (s.1 =? TLS_GROUP_X25519) && (zlen s.2 =? CLOAK_CLIENTHELLO_PARSE_X25519_LEN) &&
        bool_decide (acc = None) then Some p else acc) 32
    (match v with Some _ => v | None => x25519 s end).
Proof.
  intros Ha Hp. rewrite (denotes_none _ _ _ Ha). unfold x25519.
  destruct v as [v|]; cbn [bool_decide decide].
  - by rewrite andb_false_r.
  - rewrite andb_true_r. case_if; [|done]. cbn. unfold CLOAK_CLIENTHELLO_PARSE_X25519_LEN in *. congruence.
Qed.

Lemma key_share_loop_succeeds fuel c shares acc v :
  Forall share_ok shares -> views c (mjoin (enc_share <$> shares)) ->
  (length (mjoin (enc_share <$> shares)) <= fuel)%nat -> denotes data acc 32 v ->
  succeeds (key_share_loop fuel data c acc)
    (fun acc' => denotes data acc' 32 (pick x25519 v shares)).
Proof.
  revert fuel c acc v. induction shares as [|s shares IH]; intros fuel c acc v Hok Hv Hf Ha.
  - pose proof (views_remaining _ _ Hv) as Hr. cbn in Hr.
    destruct fuel; cbn; rewrite Hr; (eexists; split; [done|]); by destruct v.
  - apply Forall_cons in Hok as [[Hg Hk] Hok]. 
    change (mjoin (enc_share <$> s :: shares)) with (enc_share s ++ mjoin (enc_share <$> shares)) in *.
    pose proof (views_remaining _ _ Hv) as Hr. rewrite zlen_app, enc_share_length in Hr. zlen_pos.
    pose proof (enc_share_length s) as Hl. rewrite length_app in Hf.
    destruct fuel as [|fuel]; [unfold zlen in *; lia|]. cbn [key_share_loop]. decide_cmp.
    rewrite enc_share_app in Hv.
    eapply succeeds_bind; [by eapply u16_succeeds|]. intros [g c1] [-> V1].
    eapply succeeds_bind; [eapply u16_succeeds; [done|unfold fits16 in Hk; lia]|]. intros [k c2] [-> V2].
    eapply succeeds_bind; [by eapply take_succeeds|]. intros [p c3] [Hp V3].
    rewrite pick_cons. apply IH; [done|done|unfold zlen in *; lia|by apply key_share_step].
Qed.

Lemma key_share_loop_safe fuel c l acc v :
  views c l -> (length l <= fuel)%nat -> denotes data acc 32 v ->
  safely (key_share_loop fuel data c acc) (fun acc' =>
    exists shares, Forall share_ok shares /\ l = mjoin (enc_share <$> shares) /\
      denotes data acc' 32 (pick x25519 v shares)).
Proof.
  revert c l acc v. induction fuel as [|fuel IH]; intros c l acc v Hv Hf Ha;
    cbn [key_share_loop]; rewrite (views_remaining _ _ Hv).
  - destruct l; [|cbn in Hf; lia]. exists []. split_and!; [done..|by destruct v].
  - case_if; [|exists []; zlen_pos; rewrite (zlen_zero l) by lia; split_and!; [done..|by destruct v]].
    eapply safely_bind; [by eapply u16_safe|]. intros [g c1] (l1&->&Hg&V1).
    eapply safely_bind; [by eapply u16_safe|]. intros [k c2] (l2&->&Hk&V2).
    eapply safely_bind; [eapply take_safe; [done|lia]|]. intros [p c3] (b&l3&->&Hb&Hp&V3).
    subst k. eapply safely_weaken; [eapply (IH c3 l3)|].
    + done.
    + rewrite !length_app, !length_be_bytes in Hf. lia.
    + by apply (key_share_step p v acc (g, b)).
    + intros acc' (shares&Hs&->&Hacc). exists ((g, b) :: shares). rewrite pick_cons.
      split_and!; [constructor; [split; [done|apply Hk]|done]| |done].
      change (mjoin (enc_share <$> (g, b) :: shares)) with (enc_share (g, b) ++ mjoin (enc_share <$> shares)).
      by rewrite enc_share_app.
Qed.

Lemma server_name_step p v acc (n : Z * bytes) :
  denotes data acc.1 acc.2 v -> data.[p +: zlen n.2] = Some n.2 ->
  let acc' := if (n.1 =? SNI_NAME_TYPE_HOST_NAME) && bool_decide (fst acc = None)
              then (Some p, zlen n.2) else acc in
  denotes data acc'.1 acc'.2 (match v with Some _ => v | None => host_name n end).
Proof.
  intros Ha Hp. cbn zeta. rewrite (denotes_none _ _ _ Ha). unfold host_name.
  destruct v as [v|]; cbn [bool_decide decide].
  - by rewrite andb_false_r.
  - rewrite andb_true_r. by case_if.
Qed.

(** A NULL host name comes with length zero. *)
Definition null_len (acc : option Z * Z) : Prop := acc.1 = None -> acc.2 = 0.

Lemma null_len_step acc p (b : bool) (l : Z) :
  null_len acc -> null_len (if b then (Some p, l) else acc).
Proof. by destruct b. Qed.

Lemma server_name_loop_succeeds fuel c names acc v :
  Forall name_ok names -> views c (mjoin (enc_name <$> names)) ->
  (length (mjoin (enc_name <$> names)) <= fuel)%nat -> denotes data acc.1 acc.2 v ->
  null_len acc ->
  succeeds (server_name_loop fuel data c acc)
    (fun acc' => denotes data acc'.1 acc'.2 (pick host_name v names) /\ null_len acc').
Proof.
  revert fuel c acc v. induction names as [|n names IH]; intros fuel c acc v Hok Hv Hf Ha Hn.
  - pose proof (views_remaining _ _ Hv) as Hr. cbn in Hr.
    destruct fuel; cbn; rewrite Hr; (eexists; split; [done|]); by destruct v.
  - apply Forall_cons in Hok as [[Hg Hk] Hok].
    change (mjoin (enc_name <$> n :: names)) with (enc_name n ++ mjoin (enc_name <$> names)) in *.
    pose proof (views_remaining _ _ Hv) as Hr. rewrite zlen_app, enc_name_length in Hr. zlen_pos.
    pose proof (enc_name_length n) as Hl. rewrite length_app in Hf.
    destruct fuel as [|fuel]; [unfold zlen in *; lia|]. cbn [server_name_loop]. decide_cmp.
    rewrite enc_name_app in Hv.
    eapply succeeds_bind; [by eapply u8_succeeds|]. intros [g c1] [-> V1].
    eapply succeeds_bind; [eapply u16_succeeds; [done|unfold fits16 in Hk; lia]|]. intros [k c2] [-> V2].
    eapply succeeds_bind; [by eapply take_succeeds|]. intros [p c3] [Hp V3].
    rewrite pick_cons. apply IH; [done|done|unfold zlen in *; lia|by apply server_name_step|].
    by apply null_len_step.
Qed.

Lemma server_name_loop_safe fuel c l acc v :
  views c l -> (length l <= fuel)%nat -> denotes data acc.1 acc.2 v -> null_len acc ->
  safely (server_name_loop fuel data c acc) (fun acc' =>
    exists names, Forall name_ok names /\ l = mjoin (enc_name <$> names) /\
      denotes data acc'.1 acc'.2 (pick host_name v names) /\ null_len acc').
Proof.
  revert c l acc v. induction fuel as [|fuel IH]; intros c l acc v Hv Hf Ha Hn;
    cbn [server_name_loop]; rewrite (views_remaining _ _ Hv).
  - destruct l; [|cbn in Hf; lia]. exists []. split_and!; [done..|by destruct v|done].
  - case_if; [|exists []; zlen_pos; rewrite (zlen_zero l) by lia; split_and!; [done..|by destruct v|done]].
    eapply safely_bind; [by eapply u8_safe|]. intros [g c1] (l1&->&Hg&V1).
    eapply safely_bind; [by eapply u16_safe|]. intros [k c2] (l2&->&Hk&V2).
    eapply safely_bind; [eapply take_safe; [done|lia]|]. intros [p c3] (b&l3&->&Hb&Hp&V3).
    subst k. eapply safely_weaken; [eapply (IH c3 l3)|].
    + done.
    + rewrite !length_app, !length_be_bytes in Hf. lia.
    + by apply (server_name_step p v acc (g, b)).
    + by apply null_len_step.
    + intros acc' (names&Hs&->&Hacc). exists ((g, b) :: names). rewrite pick_cons.
      split_and!; [constructor; [split; [done|apply Hk]|done]| |apply Hacc..].
      change (mjoin (enc_name <$> (g, b) :: names)) with (enc_name (g, b) ++ mjoin (enc_name <$> names)).
      by rewrite enc_name_app.
Qed.

(** ** Extensions *)

(** The results so far denote the values found so far. *)
Definition found (sni : option Z * Z) (ks : option Z) (vs vk : option bytes) : Prop :=
  denotes data sni.1 sni.2 vs /\ null_len sni /\ denotes data ks 32 vk.

Definition found_all (es : list extension) (vs vk : option bytes)
    (r : (option Z * Z) * option Z) : Prop :=
  found r.1 r.2 (pick host_name vs (mjoin (ext_names <$> es)))
    (pick x25519 vk (mjoin (ext_shares <$> es))).

Lemma key_share_ext_succeeds fuel c shares junk acc v :
  Forall share_ok shares -> fits16 (mjoin (enc_share <$> shares)) ->
  views c (vec16 (mjoin (enc_share <$> shares)) ++ junk) ->
  (length (mjoin (enc_share <$> shares)) <= fuel)%nat -> denotes data acc 32 v ->
  succeeds (parse_key_share_ext fuel data c acc)
    (fun acc' => denotes data acc' 32 (pick x25519 v shares)).
Proof.
  intros Hok Hfit Hv Hf Ha. unfold vec16 in Hv. rewrite <- app_assoc in Hv.
  unfold fits16 in Hfit. zlen_pos.
  eapply succeeds_bind; [by eapply u16_succeeds|]. intros [g c1] [-> V1].
  eapply succeeds_bind; [by eapply scoped_succeeds|]. intros [s c2] [V2 _].
  by apply key_share_loop_succeeds.
Qed.

Lemma key_share_ext_safe fuel c l acc v :
  views c l -> (length l <= fuel)%nat -> denotes data acc 32 v ->
  safely (parse_key_share_ext fuel data c acc) (fun acc' =>
    exists shares junk, Forall share_ok shares /\ fits16 (mjoin (enc_share <$> shares)) /\
      l = vec16 (mjoin (enc_share <$> shares)) ++ junk /\
      denotes data acc' 32 (pick x25519 v shares)).
Proof.
  intros Hv Hf Ha.
  eapply safely_bind; [by eapply u16_safe|]. intros [k c1] (l1&->&Hk&V1).
  eapply safely_bind; [eapply scoped_safe; [done|lia]|]. intros [s c2] (b&l3&->&Hb&V2&_).
  rewrite !length_app, !length_be_bytes in Hf.
  eapply safely_weaken; [eapply (key_share_loop_safe fuel s b acc v); [done|lia|done]|].
  intros acc' (shares&Hs&->&Hacc). exists shares, l3. unfold vec16, fits16. subst k.
  split_and!; [done|lia|by rewrite app_assoc|done].
Qed.

Lemma server_name_ext_succeeds fuel c names junk acc v :
  Forall name_ok names -> fits16 (mjoin (enc_name <$> names)) ->
  views c (vec16 (mjoin (enc_name <$> names)) ++ junk) ->
  (length (mjoin (enc_name <$> names)) <= fuel)%nat -> denotes data acc.1 acc.2 v ->
  null_len acc ->
  succeeds (parse_server_name_ext fuel data c acc)
    (fun acc' => denotes data acc'.1 acc'.2 (pick host_name v names) /\ null_len acc').
Proof.
  intros Hok Hfit Hv Hf Ha Hn. unfold vec16 in Hv. rewrite <- app_assoc in Hv.
  unfold fits16 in Hfit. zlen_pos.
  eapply succeeds_bind; [by eapply u16_succeeds|]. intros [g c1] [-> V1].
  eapply succeeds_bind; [by eapply scoped_succeeds|]. intros [s c2] [V2 _].
  by apply server_name_loop_succeeds.
Qed.

Lemma server_name_ext_safe fuel c l acc v :
  views c l -> (length l <= fuel)%nat -> denotes data acc.1 acc.2 v -> null_len acc ->
  safely (parse_server_name_ext fuel data c acc) (fun acc' =>
    exists names junk, Forall name_ok names /\ fits16 (mjoin (enc_name <$> names)) /\
      l = vec16 (mjoin (enc_name <$> names)) ++ junk /\
      denotes data acc'.1 acc'.2 (pick host_name v names) /\ null_len acc').
Proof.
  intros Hv Hf Ha Hn.
  eapply safely_bind; [by eapply u16_safe|]. intros [k c1] (l1&->&Hk&V1).
  eapply safely_bind; [eapply scoped_safe; [done|lia]|]. intros [s c2] (b&l3&->&Hb&V2&_).
  rewrite !length_app, !length_be_bytes in Hf.
  eapply safely_weaken; [eapply (server_name_loop_safe fuel s b acc v); [done|lia|done..]|].
  intros acc' (names&Hs&->&Hacc). exists names, l3. unfold vec16, fits16. subst k.
  split_and!; [done|lia|by rewrite app_assoc|apply Hacc..].
Qed.

Lemma enc_ext_app e l :
  enc_ext e ++ l = be_bytes 2 (ext_type e) ++ be_bytes 2 (zlen (ext_body e)) ++ ext_body e ++ l.
Proof. unfold enc_ext, vec16. by rewrite <- !app_assoc. Qed.

Lemma enc_exts_cons e es : enc_exts (e :: es) = enc_ext e ++ enc_exts es.
Proof. done. Qed.

Lemma enc_ext_length e : length (enc_ext e) = (4 + length (ext_body e))%nat.
Proof. unfold enc_ext, vec16. rewrite !length_app, !length_be_bytes. lia. Qed.

Lemma found_all_cons e es vs vk r :
  found_all es (pick host_name vs (ext_names e)) (pick x25519 vk (ext_shares e)) r ->
  found_all (e :: es) vs vk r.
Proof.
  unfold found_all. change (mjoin (ext_names <$> e :: es)) with (ext_names e ++ mjoin (ext_names <$> es)).
  change (mjoin (ext_shares <$> e :: es)) with (ext_shares e ++ mjoin (ext_shares <$> es)).
  by rewrite !pick_app.
Qed.

Lemma pick_nil {A} (f : A -> option bytes) v : pick f v [] = v.
Proof. by destruct v. Qed.

Lemma ext_type_range e : ext_ok e -> 0 <= ext_type e < 65536.
Proof. intros [_ H]. destruct e; cbn; try done. apply H. Qed.

Lemma parse_extensions_succeeds fuel c es sni ks vs vk :
  Forall ext_ok es -> views c (enc_exts es) -> (length (enc_exts es) <= fuel)%nat ->
  found sni ks vs vk ->
  succeeds (parse_extensions fuel data c sni ks) (found_all es vs vk).
Proof.
  revert fuel c sni ks vs vk. induction es as [|e es IH]; intros fuel c sni ks vs vk Hok Hv Hf Ha.
  - pose proof (views_remaining _ _ Hv) as Hr. cbn in Hr.
    destruct fuel; cbn; rewrite Hr; (eexists; split; [done|]); unfold found_all; cbn;
      by rewrite !pick_nil.
  - apply Forall_cons in Hok as [He Hok]. rewrite enc_exts_cons in Hv, Hf.
    pose proof (views_remaining _ _ Hv) as Hr. rewrite length_app, enc_ext_length in Hf.
    unfold zlen in Hr. rewrite length_app, enc_ext_length in Hr.
    destruct fuel as [|fuel]; [lia|]. cbn [parse_extensions]. decide_cmp.
    pose proof (ext_type_range e He). pose proof (zlen_nonneg (ext_body e)).
    rewrite enc_ext_app in Hv.
    eapply succeeds_bind; [by eapply u16_succeeds|]. intros [t c1] [-> V1].
    eapply succeeds_bind; [eapply u16_succeeds; [done|by split; [|apply He]]|]. intros [k c2] [-> V2].
    eapply succeeds_bind; [by eapply scoped_succeeds|]. intros [s c3] [Vs V3].
    destruct Ha as (A1&A2&A3). destruct He as [Hfit He].
    destruct e as [names junk|shares junk|t body]; cbn [ext_type ext_body] in *.
    + destruct He as [Hn Hl]. unfold vec16 in Hf. rewrite !length_app, length_be_bytes in Hf.
      eapply succeeds_bind; [eapply (server_name_ext_succeeds _ _ names junk); try done; lia|].
      intros sni' [S1 S2]. eapply succeeds_weaken; [|apply found_all_cons].
      apply IH; [done|done|lia|]. cbn [ext_names ext_shares]. by rewrite pick_nil.
    + destruct He as [Hn Hl]. unfold vec16 in Hf. rewrite !length_app, length_be_bytes in Hf.
      eapply succeeds_bind; [eapply (key_share_ext_succeeds _ _ shares junk); try done; lia|].
      intros ks' S1. eapply succeeds_weaken; [|apply found_all_cons].
      apply IH; [done|done|lia|]. cbn [ext_names ext_shares]. by rewrite pick_nil.
    + destruct He as (_&Ht1&Ht2).
      rewrite (proj2 (Z.eqb_neq _ _) Ht1), (proj2 (Z.eqb_neq _ _) Ht2).
      eapply succeeds_weaken; [|apply found_all_cons].
      apply IH; [done|done|lia|]. cbn [ext_names ext_shares]. by rewrite !pick_nil.
Qed.

(** What a successful run of [parse_extensions] on [l] shows. *)
Definition exts_parsed (l : bytes) (vs vk : option bytes) (r : (option Z * Z) * option Z) : Prop :=
  exists es, Forall ext_ok es /\ l = enc_exts es /\ found_all es vs vk r.

Lemma exts_parsed_cons e l vs vk r :
  ext_ok e -> exts_parsed l (pick host_name vs (ext_names e)) (pick x25519 vk (ext_shares e)) r ->
  exts_parsed (enc_ext e ++ l) vs vk r.
Proof.
  intros He (es&Hok&->&Hr). exists (e :: es). split_and!; [by constructor|done|by apply found_all_cons].
Qed.

Lemma parse_extensions_safe fuel c l sni ks vs vk :
  views c l -> (length l <= fuel)%nat -> found sni ks vs vk ->
  safely (parse_extensions fuel data c sni ks) (exts_parsed l vs vk).
Proof.
  revert c l sni ks vs vk. induction fuel as [|fuel IH]; intros c l sni ks vs vk Hv Hf Ha;
    cbn [parse_extensions]; rewrite (views_remaining _ _ Hv).
  { destruct l; [|cbn in Hf; lia]. exists []. unfold found_all; cbn. by rewrite !pick_nil. }
  case_if; [|exists []; zlen_pos; rewrite (zlen_zero l) by lia; unfold found_all; cbn;
    by rewrite !pick_nil].
  eapply safely_bind; [by eapply u16_safe|]. intros [t c1] (l1&->&Ht&V1).
  eapply safely_bind; [by eapply u16_safe|]. intros [k c2] (l2&->&Hk&V2).
  eapply safely_bind; [eapply scoped_safe; [done|lia]|]. intros [s c3] (b&l3&->&Hb&Vs&V3).
  rewrite !length_app, !length_be_bytes in Hf. subst k. destruct Ha as (A1&A2&A3).
  case_if; [|case_if].
  - subst t. eapply safely_bind; [eapply server_name_ext_safe; [done|lia|done..]|].
    intros sni' (names&junk&Hn&Hfit&->&S1&S2).
    eapply safely_weaken; [eapply (IH c3 l3 _ _ (pick host_name vs names) vk); [done|lia|split; [done|by split]]|].
    intros r Hr. pose proof (exts_parsed_cons (ServerName names junk) l3 vs vk r ltac:(split; [apply Hk|by split_and!])) as Hc.
    rewrite enc_ext_app in Hc. apply Hc.
    cbn [ext_names ext_shares]. by rewrite pick_nil.
  - subst t. eapply safely_bind; [eapply key_share_ext_safe; [done|lia|done..]|].
    intros ks' (shares&junk&Hn&Hfit&->&S1).
    eapply safely_weaken; [eapply (IH c3 l3 _ _ vs (pick x25519 vk shares)); [done|lia|split; [done|by split]]|].
    intros r Hr. pose proof (exts_parsed_cons (KeyShare shares junk) l3 vs vk r ltac:(split; [apply Hk|by split_and!])) as Hc.
    rewrite enc_ext_app in Hc. apply Hc.
    cbn [ext_names ext_shares]. by rewrite pick_nil.
  - eapply safely_weaken; [eapply (IH c3 l3 _ _ vs vk); [done|lia|split; [done|by split]]|].
    intros r Hr. pose proof (exts_parsed_cons (OtherExtension t b) l3 vs vk r
      ltac:(split; [apply Hk|split; [exact Ht|by split]])) as Hc.
    rewrite enc_ext_app in Hc. apply Hc.
    cbn [ext_names ext_shares]. by rewrite !pick_nil.
Qed.

(** ** The header and the whole message *)

Lemma parse_header_succeeds c rec body :
  views c ([22; 3; 1] ++ rec ++ [1] ++ vec24 body) -> zlen rec = 2 -> zlen body < 16777216 ->
  succeeds (parse_header data c) (fun c' => views c' body).
Proof.
  intros Hv Hrec Hb. zlen_pos. unfold vec24 in Hv. rewrite (app_assoc [22; 3; 1]) in Hv.
  eapply succeeds_bind; [eapply (take_succeeds c 5 _ _ Hv); by zlia|]. intros [p c1] [Hp V1].
  rewrite <- (Z.add_0_r p) at 1.
  rewrite (byte_at_slice _ _ _ 0 22 Hp), (byte_at_slice _ _ _ 1 3 Hp),
    (byte_at_slice _ _ _ 2 1 Hp) by (done || lia). cbn [pbind ok Z.eqb negb Pos.eqb].
  eapply succeeds_bind; [by eapply (u8_succeeds c1 1)|]. intros [t c2] [-> V2].
  cbn [Z.eqb negb Pos.eqb].
  eapply succeeds_bind; [by eapply u24_succeeds|]. intros [k c3] [-> V3].
  rewrite (views_remaining _ _ V3), Z.eqb_refl. by eexists.
Qed.

Lemma byte_at_safe p n l i :
  data.[p +: n] = Some l -> 0 <= i < n ->
  exists b, byte_at data (p + i) = ok b /\ l !! Z.to_nat i = Some b.
Proof.
  intros Hp Hi. pose proof (mem_read_inv _ _ _ _ Hp) as (_&_&_&_&Hl).
  destruct (lookup_lt_is_Some_2 l (Z.to_nat i)) as [b Hb]; [unfold zlen in Hl; lia|].
  exists b. split; [by eapply byte_at_slice|done].
Qed.

Lemma parse_header_safe c l :
  views c l ->
  safely (parse_header data c) (fun c' => exists rec body,
    l = [22; 3; 1] ++ rec ++ [1] ++ vec24 body /\ zlen rec = 2 /\ zlen body < 16777216 /\
    views c' body).
Proof.
  intros Hv. eapply safely_bind; [by eapply (take_safe c 5)|].
  intros [p c1] (hdr&l1&->&Hl&Hp&V1).
  destruct (byte_at_safe p 5 hdr 0 Hp ltac:(lia)) as (b0&E0&L0).
  destruct (byte_at_safe p 5 hdr 1 Hp ltac:(lia)) as (b1&E1&L1).
  destruct (byte_at_safe p 5 hdr 2 Hp ltac:(lia)) as (b2&E2&L2).
  rewrite Z.add_0_r in E0. rewrite E0, E1, E2. cbn [pbind ok].
  destruct hdr as [|? [|? [|? rec]]]; try done.
  change (Some z = Some b0) in L0. change (Some z0 = Some b1) in L1. change (Some z1 = Some b2) in L2.
  injection L0 as ->. injection L1 as ->. injection L2 as ->.
  destruct (Z.eqb_spec b0 22) as [->|]; [|done]. cbn [negb].
  destruct (Z.eqb_spec b1 3) as [->|]; [|done]. cbn [negb].
  destruct (Z.eqb_spec b2 1) as [->|]; [|done]. cbn [negb].
  eapply safely_bind; [by eapply u8_safe|]. intros [t c2] (l2&->&_&V2).
  destruct (Z.eqb_spec t 1) as [->|]; [|done]. cbn [negb].
  eapply safely_bind; [by eapply u24_safe|]. intros [k c3] (body&->&Hk&V3).
  rewrite (views_remaining _ _ V3).
  destruct (Z.eqb_spec k (zlen body)) as [->|]; [|done]. cbn [negb].
  exists rec, body. unfold vec24. split_and!; [reflexivity|zlia|lia|done].
Qed.

Lemma skip_succeeds c n l1 l2 :
  views c (l1 ++ l2) -> zlen l1 = n -> succeeds (cursor_skip c n) (fun c' => views c' l2).
Proof.
  intros Hv Hn. eapply succeeds_bind; [by eapply take_succeeds|].
  intros [p c'] [Hp Hc]. by eexists.
Qed.

Lemma skip_safe c n l :
  views c l -> 0 <= n ->
  safely (cursor_skip c n) (fun c' => exists l1 l2, l = l1 ++ l2 /\ zlen l1 = n /\ views c' l2).
Proof.
  intros Hv Hn. eapply safely_bind; [by eapply take_safe|].
  intros [p c'] (l1&l2&->&Hl1&Hp&Hc). by exists l1, l2.
Qed.

Lemma session_id_succeeds c sid l :
  views c (sid ++ l) ->
  succeeds (if 0 <? zlen sid then let! (p, c') := cursor_take c (zlen sid) in ok (Some p, c')
            else ok (None, c))
    (fun '(q, c') => denotes data q (zlen sid) (if zlen sid =? 0 then None else Some sid) /\
       views c' l).
Proof.
  intros Hv. zlen_pos. case_if.
  - decide_cmp. eapply succeeds_bind; [by eapply take_succeeds|]. intros [p c1] [Hp V1].
    eexists; split; [done|by split].
  - assert (sid = []) as -> by (apply zlen_zero; lia).
    eexists; split; [done|]. split; [exact I|exact Hv].
Qed.

Lemma session_id_safe c n l :
  views c l -> 0 <= n ->
  safely (if 0 <? n then let! (p, c') := cursor_take c n in ok (Some p, c') else ok (None, c))
    (fun '(q, c') => exists sid l', l = sid ++ l' /\ zlen sid = n /\
       denotes data q n (if zlen sid =? 0 then None else Some sid) /\ views c' l').
Proof.
  intros Hv Hn. case_if.
  - eapply safely_bind; [by eapply take_safe|]. intros [p c1] (sid&l'&->&Hs&Hp&V1).
    exists sid, l'. decide_cmp. done.
  - exists [], l. split_and!; [done|change (0 = n); lia|done|done].
Qed.

Lemma vec_app8 l l' : vec8 l ++ l' = be_bytes 1 (zlen l) ++ l ++ l'.
Proof. unfold vec8. by rewrite <- app_assoc. Qed.

Lemma vec_app16 l l' : vec16 l ++ l' = be_bytes 2 (zlen l) ++ l ++ l'.
Proof. unfold vec16. by rewrite <- app_assoc. Qed.

Lemma views_all : views (Cursor 0 (zlen data)) data.
Proof. by apply mem_read_all. Qed.

Lemma found_nothing : found (None, 0) None None None.
Proof. done. Qed.

(** Parsing the encoding of a message succeeds and describes the message. *)
Lemma parse_complete fuel h :
  data = enc_hello h -> hello_ok h -> (length data <= fuel)%nat ->
  succeeds (cloak_clienthello_parse fuel data) (fun r => describes data r h).
Proof.
  intros Hd (Hrec&Hver&Hrnd&Hsid&Hcs&Hcm&Hes&Hel&Hbody) Hf.
  pose proof views_all as Hv. rewrite Hd in Hv at 2. unfold enc_hello in Hv.
  assert (Hfe : (length (enc_exts (h_extensions h)) <= fuel)%nat).
  { rewrite Hd in Hf. unfold enc_hello, vec24, enc_hello_body, vec8, vec16 in Hf.
    rewrite !length_app in Hf. lia. }
  unfold fits16 in *. zlen_pos. unfold cloak_clienthello_parse.
  eapply succeeds_bind; [by eapply parse_header_succeeds|]. intros c1 V1. clear Hv.
  unfold enc_hello_body in V1.
  eapply succeeds_bind; [by eapply take_succeeds|]. intros [p2 c2] [_ V2].
  eapply succeeds_bind; [by eapply take_succeeds|]. intros [random c3] [Hrandom V3].
  rewrite vec_app8 in V3.
  eapply succeeds_bind; [by eapply u8_succeeds|]. intros [n4 c4] [-> V4].
  eapply succeeds_bind; [by eapply session_id_succeeds|]. intros [sid c5] [Hsess V5].
  rewrite vec_app16 in V5.
  eapply succeeds_bind; [by eapply u16_succeeds|]. intros [n6 c6] [-> V6].
  eapply succeeds_bind; [by eapply skip_succeeds|]. intros c7 V7. rewrite vec_app8 in V7.
  eapply succeeds_bind; [by eapply u8_succeeds|]. intros [n8 c8] [-> V8].
  eapply succeeds_bind; [by eapply skip_succeeds|]. intros c9 V9. rewrite vec_app16 in V9.
  eapply succeeds_bind; [by eapply u16_succeeds|]. intros [n10 c10] [-> V10].
  eapply succeeds_bind; [by eapply scoped_succeeds|]. intros [s c11] [Vs V11].
  eapply succeeds_bind; [by eapply (parse_extensions_succeeds _ _ _ _ _ None None)|].
  intros [sni ks] (F1&F2&F3). eexists; split; [done|].
  repeat (split; [first [exact Hrandom|exact Hsess|exact F1|exact F3|reflexivity]|]); exact F2.
Qed.

(** Whatever the packet holds, no byte outside it is read, and a success
    exhibits the message that was parsed. *)
Lemma parse_sound fuel :
  (length data <= fuel)%nat ->
  safely (cloak_clienthello_parse fuel data)
    (fun r => exists h, hello_ok h /\ data = enc_hello h /\ describes data r h).
Proof.
  intros Hf. unfold cloak_clienthello_parse.
  eapply safely_bind; [by eapply parse_header_safe, views_all|].
  intros c1 (rec&body&Hd&Hrec&Hbody&V1).
  eapply safely_bind; [by eapply take_safe|]. intros [p2 c2] (ver&l2&->&Hver&_&V2).
  eapply safely_bind; [by eapply take_safe|]. intros [random c3] (rnd&l3&->&Hrnd&Hrandom&V3).
  eapply safely_bind; [by eapply u8_safe|]. intros [n4 c4] (l4&->&Hn4&V4).
  eapply safely_bind; [eapply session_id_safe; [done|lia]|].
  intros [sid c5] (sess&l5&->&<-&Hsess&V5).
  eapply safely_bind; [by eapply u16_safe|]. intros [n6 c6] (l6&->&Hn6&V6).
  eapply safely_bind; [eapply skip_safe; [done|lia]|]. intros c7 (cs&l7&->&<-&V7).
  eapply safely_bind; [by eapply u8_safe|]. intros [n8 c8] (l8&->&Hn8&V8).
  eapply safely_bind; [eapply skip_safe; [done|lia]|]. intros c9 (cm&l9&->&<-&V9).
  eapply safely_bind; [by eapply u16_safe|]. intros [n10 c10] (l10&->&Hn10&V10).
  eapply safely_bind; [eapply scoped_safe; [done|lia]|]. intros [s c11] (el&l11&->&<-&Vs&V11).
  eapply safely_bind.
  { eapply parse_extensions_safe; [done| |apply found_nothing]. rewrite Hd in Hf.
    unfold vec24 in Hf. rewrite !length_app in Hf. lia. }
  intros [sni ks] (es&Hes&->&F1&F2&F3). cbn [safely ok].
  exists (Hello rec ver rnd sess cs cm es l11).
  assert (Hbe : enc_hello_body (Hello rec ver rnd sess cs cm es l11) =
    ver ++ rnd ++ be_bytes 1 (zlen sess) ++ sess ++ be_bytes 2 (zlen cs) ++ cs ++
      be_bytes 1 (zlen cm) ++ cm ++ be_bytes 2 (zlen (enc_exts es)) ++ enc_exts es ++ l11).
  { unfold enc_hello_body; cbn [h_version h_random h_session_id h_cipher_suites h_compression
      h_extensions h_trailing]. by rewrite !vec_app8, !vec_app16. }
  split; [|split]; [|by unfold enc_hello; rewrite Hbe|repeat (split; [first [exact Hrandom|exact Hsess|exact F1|exact F3|reflexivity]|]); exact F2].
  unfold hello_ok, fits16. rewrite Hbe.
  cbn [h_record_length h_version h_random h_session_id h_cipher_suites h_compression h_extensions].
  split_and!; try done; lia.
Qed.

End parser.

(** C32: the ClientHello parser is exact on every packet an unauthenticated
    peer may send: it terminates within as many steps as there are bytes,
    never reads outside the packet and returns -1 exactly when the packet is
    not the encoding of a ClientHello whose lengths are consistent; otherwise
    the random, session id, server name and key share it returns are the
    slices of the packet that hold those fields, the first host name and the
    first 32-byte X25519 share being the ones returned. *)
Theorem clienthello_parse_exact data fuel :
  all_bytes data -> zlen data < 18446744073709551616 -> (length data <= fuel)%nat ->
  exists result, cloak_clienthello_parse fuel data = Some result /\
    (result = None <-> ~ exists h, hello_ok h /\ data = enc_hello h) /\
    (forall h, hello_ok h -> data = enc_hello h ->
       exists r, result = Some r /\ describes data r h).
Proof.
  intros Hb Hs Hf. pose proof (parse_sound data Hb Hs fuel Hf) as Hsafe.
  destruct (cloak_clienthello_parse fuel data) as [result|] eqn:E; [|done].
  exists result. split; [done|].
  assert (Hc : forall h, hello_ok h -> data = enc_hello h ->
    exists r, result = Some r /\ describes data r h).
  { intros h Hok Hd. destruct (parse_complete data Hs fuel h Hd Hok Hf) as (r&Hr&Hdesc).
    rewrite E in Hr. injection Hr as ->. by exists r. }
  split; [|done]. split.
  - intros -> (h&Hok&Hd). by destruct (Hc h Hok Hd) as (r&?&_).
  - intros Hno. destruct result as [r|]; [|done]. destruct Hsafe as (h&?&?&_).
    exfalso. eauto.
Qed.

(** A ClientHello with a host name, a foreign key share and an X25519 one. *)
Definition demo_hello : hello :=
  Hello [0; 110] [3; 3] (replicate 32 7) (replicate 4 9) [19; 1; 19; 2] [0]
    [ServerName [(0, [97; 46; 98])] [];
     OtherExtension 43 [2; 3; 4];
     KeyShare [(23, [1; 2]); (TLS_GROUP_X25519, replicate 32 5)] []] [].

Lemma demo_hello_ok : hello_ok demo_hello.
Proof.
  assert (Hlt : forall a b, (a <? b) = true -> a < b) by (intros; by apply Z.ltb_lt).
  assert (Hname : Forall name_ok [(0, [97; 46; 98])]).
  { constructor; [|constructor]. split; [cbn [fst]; lia|by apply Hlt; vm_compute]. }
  assert (Hshare : Forall share_ok [(23, [1; 2]); (TLS_GROUP_X25519, replicate 32 5)]).
  { constructor; [|constructor; [|constructor]];
      (split; [cbv [TLS_GROUP_X25519 fst]; lia|by apply Hlt; vm_compute]). }
  assert (Hexts : Forall ext_ok (h_extensions demo_hello)).
  { repeat constructor; try exact Hname; try exact Hshare; try (by apply Hlt; vm_compute);
      try discriminate; lia. }
  unfold hello_ok. split_and!; try exact Hexts; try (apply Hlt); vm_compute; reflexivity.
Qed.

Lemma clienthello_parse_exact_witness :
  exists r, cloak_clienthello_parse 400 (enc_hello demo_hello) = ok r /\
    ch_sni r = Some 67 /\ ch_sni_len r = 3 /\ ch_x25519_key_share r = Some 93.
Proof.
  destruct (clienthello_parse_exact (enc_hello demo_hello) 400) as (result&Hp&_&Hc).
  - apply all_bytesb_sound. vm_compute. reflexivity.
  - apply Z.ltb_lt. vm_compute. reflexivity.
  - apply Nat.leb_le. vm_compute. reflexivity.
  - destruct (Hc demo_hello demo_hello_ok eq_refl) as (r&->&_).
    exists r. split; [exact Hp|].
    assert (Hr : cloak_clienthello_parse 400 (enc_hello demo_hello) =
      ok (Parsed (Some 11) (Some 44) 4 (Some 93) (Some 67) 3)) by (vm_compute; reflexivity).
    rewrite Hr in Hp. injection Hp as <-. by split_and!.
Defined.
