(* ===== verification/ClientHelloSteps.v ===== *)
(** * The steps of a ClientHello's composition

    What each step of [ClientHello] does to a buffer that is a concatenation
    of segments, what the drawn values are, and that the rejection loops end. *)
From S2P Require Import Prelude Fallible Buffer Random X25519 ClientHelloTemplates ClientHello.

(** ** Length fields *)

Lemma be_bytes_2_store v : [u8 (Z.shiftr v 8); u8 v] = be_bytes 2 v.
Proof. unfold u8. cbn [be_bytes app]. by rewrite Z.shiftr_div_pow2. Qed.

Lemma be_bytes_3_store v : [u8 (Z.shiftr v 16); u8 (Z.shiftr v 8); u8 v] = be_bytes 3 v.
Proof.
  unfold u8. cbn [be_bytes app]. rewrite !Z.shiftr_div_pow2 by done.
  change (2 ^ 16) with (256 * 256). change (2 ^ 8) with 256. by rewrite Z.div_div by done.
Qed.

(** An operation that replaces [old] by [new] wherever [old] lies at [off]. *)
Definition replaces (f : bytes -> option bytes) (off : Z) (old new : bytes) : Prop :=
  forall pre post, off = zlen pre -> f (pre ++ old ++ post) = Some (pre ++ new ++ post).

Lemma seg_replaces f off old new segs k :
  replaces f off old new -> segs !! k = Some old -> off = zlen (mjoin (take k segs)) ->
  f (mjoin segs) = Some (mjoin (<[k := new]> segs)).
Proof.
  intros Hf Hk Hoff.
  assert (Hk' : (k < length segs)%nat) by (by apply lookup_lt_Some in Hk).
  rewrite (mjoin_middle _ _ _ Hk), Hf by done.
  rewrite (mjoin_middle (<[k := new]> segs) k new) by (by apply list_lookup_insert_eq).
  by rewrite take_insert_ge, drop_insert_lt by lia.
Qed.

Lemma replaces_write off old new : zlen new = zlen old -> replaces (fun m => m.[off <- new]) off old new.
Proof. intros Hl pre post Ho. by apply mem_write_app. Qed.

Lemma replaces_bind f g off old mid new :
  replaces f off old mid -> replaces g off mid new ->
  replaces (fun m => m ← f m; g m) off old new.
Proof. intros Hf Hg pre post Ho. rewrite Hf by done. by apply Hg. Qed.

Lemma get_0 (a : Z) l : (a :: l).[0] = Some a. Proof. done. Qed.
Lemma get_1 (a b : Z) l : (a :: b :: l).[1] = Some b. Proof. done. Qed.
Lemma get_2 (a b c : Z) l : (a :: b :: c :: l).[2] = Some c. Proof. done. Qed.

Lemma replaces_patch16 off v delta :
  0 <= v < 65536 ->
  replaces (fun m => patch_be16_delta m off delta) off (be_bytes 2 v) (be_bytes 2 (v + delta)).
Proof.
  intros Hv pre post ->. unfold patch_be16_delta. rewrite <- !be_bytes_2_store.
  cbn [app]. rewrite !mem_get_app_r by lia.
  rewrite Z.sub_diag. replace (zlen pre + 1 - zlen pre) with 1 by lia.
  rewrite ?get_0, ?get_1, ?get_2. cbn [mbind option_bind].
  rewrite mem_set_app by done. cbn [mbind option_bind].
  change (pre ++ ?a :: ?b :: post) with (pre ++ [a] ++ b :: post).
  rewrite app_assoc, mem_set_app by (by rewrite zlen_app). rewrite <- app_assoc. cbn [app].
  rewrite lor_shiftl_add by (done || apply u8_range).
  replace (u8 (Z.shiftr v 8) * 2 ^ 8 + u8 v) with v; [done|].
  rewrite Z.shiftr_div_pow2 by done. unfold u8. change (2 ^ 8) with 256. dlia.
Qed.

Lemma replaces_patch24 off v delta :
  0 <= v < 16777216 ->
  replaces (fun m => patch_be24_delta m off delta) off (be_bytes 3 v) (be_bytes 3 (v + delta)).
Proof.
  intros Hv pre post ->. unfold patch_be24_delta. rewrite <- !be_bytes_3_store.
  cbn [app]. rewrite !mem_get_app_r by lia.
  rewrite Z.sub_diag. replace (zlen pre + 1 - zlen pre) with 1 by lia.
  replace (zlen pre + 2 - zlen pre) with 2 by lia.
  rewrite ?get_0, ?get_1, ?get_2. cbn [mbind option_bind].
  rewrite mem_set_app by done. cbn [mbind option_bind].
  change (pre ++ ?a :: ?b :: ?c :: post) with (pre ++ [a] ++ b :: c :: post).
  rewrite app_assoc, mem_set_app by (by rewrite zlen_app). rewrite <- app_assoc. cbn [app].
  cbn [mbind option_bind]. change (pre ++ ?a :: ?b :: ?c :: post) with (pre ++ [a; b] ++ c :: post).
  rewrite app_assoc, mem_set_app by (by rewrite zlen_app). rewrite <- app_assoc. cbn [app].
  rewrite <- Z.lor_assoc, !lor_shiftl_add by
    (done || apply u8_range || (rewrite lor_shiftl_add by (done || apply u8_range);
       pose proof (u8_range (Z.shiftr v 8)); pose proof (u8_range v); lia)).
  replace (u8 (Z.shiftr v 16) * 2 ^ 16 + (u8 (Z.shiftr v 8) * 2 ^ 8 + u8 v)) with v; [done|].
  rewrite !Z.shiftr_div_pow2 by done. unfold u8. change (2 ^ 8) with 256. change (2 ^ 16) with 65536.
  dlia.
Qed.

Lemma replaces_store16 off old v :
  zlen old = 2 -> replaces (fun m => store_be16 m off v) off old (be_bytes 2 v).
Proof.
  intros Hl pre post Ho. unfold store_be16. rewrite be_bytes_2_store.
  apply mem_write_app; [done|]. by rewrite zlen_be_bytes, Hl.
Qed.

(** ** Offsets behind the host name *)

Lemma shift_off_after off host delta :
  host < off -> 0 <= off + delta < 18446744073709551616 -> shift_off off host delta = off + delta.
Proof. intros. unfold shift_off. decide_cmp. by apply u64_small. Qed.

Lemma shift_off_before off host delta : off <= host -> shift_off off host delta = off.
Proof. intros. unfold shift_off. by decide_cmp. Qed.

(** ** GREASE *)

Definition grease_code (n : Z) : Z := 2570 + 4112 * n.
Definition is_grease (v : Z) : Prop := exists n, 0 <= n < 16 /\ v = grease_code n.

Lemma byte_cases (P : Z -> bool) :
  forallb (fun n => P (Z.of_nat n)) (seq 0 256) = true -> forall b, is_byte b -> P b = true.
Proof.
  intros Hall b Hb. rewrite forallb_forall in Hall. unfold is_byte in Hb.
  rewrite <- (Z2Nat.id b) by lia. apply Hall, in_seq. lia.
Qed.

Lemma grease_of_code seed role s :
  seed.[role] = Some s -> is_byte s -> grease_of seed role = Some (grease_code (s / 16)).
Proof.
  intros Hs Hb. unfold grease_of. rewrite Hs. cbn [mbind option_bind]. f_equal.
  apply Z.eqb_eq. clear Hs. revert s Hb. apply byte_cases. vm_compute. reflexivity.
Qed.

Lemma grease_value_code seed role :
  zlen seed = 5 -> all_bytes seed -> 0 <= role < 5 ->
  exists v, cloak_clienthello_grease_value seed role = Some v /\ is_grease v /\
    (role = CLOAK_CH_GREASE_EXT2 ->
     cloak_clienthello_grease_value seed CLOAK_CH_GREASE_EXT1 <> Some v).
Proof.
  intros Hl Hb Hr. assert (Hbyte : forall i, 0 <= i < 5 -> exists s, seed.[i] = Some s /\ is_byte s).
  { intros i Hi. destruct (mem_get_Some seed i) as [s Hs]; [lia|]. exists s. split; [done|].
    apply mem_get_inv in Hs as [_ Hs]. by eapply Forall_lookup_1. }
  assert (Hhi : forall s, is_byte s -> 0 <= s / 16 < 16) by (unfold is_byte; intros; dlia).
  destruct (Hbyte role Hr) as (s&Hs&Hsb). unfold cloak_clienthello_grease_value.
  rewrite (grease_of_code _ _ _ Hs Hsb). cbn [mbind option_bind].
  destruct (Z.eqb_spec role CLOAK_CH_GREASE_EXT2) as [->|Hne].
  2: { eexists. split; [done|]. split; [|done]. eexists. split; [by apply (Hhi s)|done]. }
  destruct (Hbyte 2 ltac:(lia)) as (s1&Hs1&Hb1).
  rewrite (grease_of_code _ CLOAK_CH_GREASE_EXT1 _ Hs1 Hb1). cbn [mbind option_bind].
  change (CLOAK_CH_GREASE_EXT1 =? CLOAK_CH_GREASE_EXT2) with false. cbn iota.
  destruct (Z.eqb_spec (grease_code (s / 16)) (grease_code (s1 / 16))) as [He|Hne].
  - assert (Hx : Z.lxor (grease_code (s / 16)) 4112 = grease_code (Z.lxor (s / 16) 1) /\
                 0 <= Z.lxor (s / 16) 1 < 16 /\ Z.lxor (s / 16) 1 <> s / 16).
    { assert (Hc := byte_cases (fun b => (Z.lxor (grease_code (b / 16)) 4112 =?
        grease_code (Z.lxor (b / 16) 1)) && (0 <=? Z.lxor (b / 16) 1) &&
        (Z.lxor (b / 16) 1 <? 16) && negb (Z.lxor (b / 16) 1 =? b / 16)) ltac:(vm_compute; reflexivity) s Hsb).
      cbn beta in Hc. bool_hyps. lia. }
    destruct Hx as (->&Hr1&Hn). eexists. split; [done|]. split; [by eexists|].
    intros _ [= Heq]. unfold grease_code in *. lia.
  - eexists. split; [done|]. split; [eexists; split; [by apply (Hhi s)|done]|].
    intros _ [= Heq]. by apply Hne.
Qed.

(** ** Draws *)

(** Among any [fuel] consecutive two-byte draws one is below the modulus of
    ML-KEM whatever its low byte is; each is with probability 13/16. *)
Definition fair_coefficients (fuel : nat) (r : rand) : Prop :=
  forall pos : nat, exists j, (j < fuel)%nat /\ Z.land (r (pos + (2 * j + 1))%nat) 15 < 13.

Definition tape_ok (fuel : nat) (r : rand) : Prop :=
  rand_ok r /\ fair fuel r /\ fair_coefficients fuel r.

Lemma fair_coefficients_later fuel r r' :
  later r r' -> fair_coefficients fuel r -> fair_coefficients fuel r'.
Proof.
  intros [k Hk] Hf pos. destruct (Hf (k + pos)%nat) as (j&?&Hj). exists j. split; [done|].
  by rewrite Hk, Nat.add_assoc.
Qed.

Lemma tape_ok_later fuel r r' : later r r' -> tape_ok fuel r -> tape_ok fuel r'.
Proof.
  intros Hl (?&?&?). split_and!; by eauto using rand_ok_later, fair_later, fair_coefficients_later.
Qed.

Lemma tape_draw fuel len r :
  tape_ok fuel r -> 0 <= len ->
  exists b r', cloak_random_bytes len r = (b, r') /\ zlen b = len /\ all_bytes b /\ tape_ok fuel r'.
Proof.
  intros Hr Hl. destruct (cloak_random_bytes len r) as [b r'] eqn:Hb. exists b, r'.
  split; [done|]. split; [by eapply random_bytes_length|].
  split; [|by eapply tape_ok_later; [by eapply later_draw|]].
  destruct Hr as [Hr _]. by eapply (random_bytes_ok len r).
Qed.

(** ** The encapsulation key *)

Lemma coefficient_value b0 b1 :
  is_byte b0 -> is_byte b1 ->
  Z.land (u16 (Z.lor b0 (Z.shiftl b1 8))) 4095 = b0 + 256 * Z.land b1 15.
Proof.
  unfold is_byte. intros H0 H1. rewrite Z.lor_comm, lor_shiftl_add by done.
  change 4095 with (Z.ones 12). change 15 with (Z.ones 4). rewrite !Z.land_ones by done.
  rewrite u16_small by lia. change (2 ^ 8) with 256. change (2 ^ 12) with 4096.
  change (2 ^ 4) with 16. dlia.
Qed.

Lemma draw_coefficient_total fuel k r :
  tape_ok fuel r -> (exists j, (j < k)%nat /\ Z.land (r (2 * j + 1)%nat) 15 < 13) ->
  exists c r', draw_coefficient k r = Some (c, r') /\ 0 <= c < CLOAK_MLKEM768_Q /\ tape_ok fuel r'.
Proof.
  revert r. induction k as [|k IH]; intros r Hr (j&Hjk&Hj); [lia|]. cbn [draw_coefficient].
  destruct (tape_draw fuel 2 r Hr ltac:(done)) as (b&r'&Hb&_&_&Hr'). rewrite Hb.
  cbn in Hb. injection Hb as <- <-. rewrite get_0, get_1. cbn [mbind option_bind].
  assert (Hb0 : is_byte (r 0%nat)) by apply Hr. assert (Hb1 : is_byte (r 1%nat)) by apply Hr.
  rewrite coefficient_value by done. unfold CLOAK_MLKEM768_Q.
  assert (Hlo : 0 <= Z.land (r 1%nat) 15) by (apply Z.land_nonneg; lia).
  unfold is_byte in Hb0.
  destruct (Z.leb_spec 3329 (r 0%nat + 256 * Z.land (r 1%nat) 15)).
  - apply IH; [done|]. destruct j as [|j]; [exfalso; cbn in Hj; lia|].
    exists j. split; [lia|]. by replace (S (S (2 * j + 1))) with (2 * S j + 1)%nat by lia.
  - do 2 eexists. split; [done|]. split; [lia|done].
Qed.

Lemma draw_coefficient_ok fuel r :
  tape_ok fuel r ->
  exists c r', draw_coefficient fuel r = Some (c, r') /\ 0 <= c < CLOAK_MLKEM768_Q /\ tape_ok fuel r'.
Proof.
  intros Hr. apply draw_coefficient_total; [done|].
  destruct Hr as (_&_&Hc). destruct (Hc 0%nat) as (j&?&?). by exists j.
Qed.

(** [ByteDecode_12] of FIPS 203. *)
Fixpoint coefficients (l : bytes) : list Z :=
  match l with
  | b0 :: b1 :: b2 :: l => b0 + 256 * (b1 mod 16) :: b1 / 16 + 16 * b2 :: coefficients l
  | _ => []
  end.

Definition pack (c0 c1 : Z) : bytes :=
  [u8 (Z.land c0 255); u8 (Z.lor (Z.land (Z.shiftr c0 8) 15) (Z.shiftl (Z.land c1 15) 4));
   u8 (Z.land (Z.shiftr c1 4) 255)].

Lemma coefficients_pack c0 c1 l :
  0 <= c0 < 4096 -> 0 <= c1 < 4096 -> coefficients (pack c0 c1 ++ l) = c0 :: c1 :: coefficients l.
Proof.
  intros H0 H1. unfold pack. cbn [app coefficients].
  change 255 with (Z.ones 8). change 15 with (Z.ones 4). rewrite !Z.land_ones by done.
  rewrite Z.lor_comm, lor_shiftl_add by (done || apply Z.mod_pos_bound; done).
  rewrite !Z.shiftr_div_pow2 by done. change (2 ^ 8) with 256. change (2 ^ 4) with 16.
  unfold u8. f_equal; [dlia|]. f_equal. dlia.
Qed.

Definition ek_ok (ek : bytes) : Prop :=
  zlen ek = 1184 /\ all_bytes ek /\
  length (coefficients (take 1152 ek)) = 768%nat /\
  Forall (fun c => 0 <= c < CLOAK_MLKEM768_Q) (coefficients (take 1152 ek)).

(** The loop from iteration [384 - n] on. *)
Lemma mlkem_loop_ok fuel n pre dn td post r :
  tape_ok fuel r -> (length dn + 3 * n = 1152)%nat -> length td = (3 * n)%nat ->
  exists packed r',
    mlkem_loop n fuel (pre ++ dn ++ td ++ post) (zlen pre) (zlen dn) r =
      Some (pre ++ dn ++ packed ++ post, r') /\
    tape_ok fuel r' /\ length packed = (3 * n)%nat /\ all_bytes packed /\
    length (coefficients packed) = (2 * n)%nat /\
    Forall (fun c => 0 <= c < CLOAK_MLKEM768_Q) (coefficients packed).
Proof.
  revert dn td r. induction n as [|n IH]; intros dn td r Hr Hd Ht.
  { destruct td; [|done]. exists [], r. cbn [mlkem_loop].
    unfold CLOAK_MLKEM768_EK_PACKED_LEN, zlen. decide_cmp. split_and!; done || constructor. }
  cbn [mlkem_loop]. unfold CLOAK_MLKEM768_EK_PACKED_LEN.
  assert (Hi : zlen dn + 3 <= 1152) by (unfold zlen; lia). decide_cmp.
  destruct (draw_coefficient_ok fuel r Hr) as (c0&r1&->&Hc0&Hr1). cbn [mbind option_bind].
  destruct (draw_coefficient_ok fuel r1 Hr1) as (c1&r2&->&Hc1&Hr2). cbn [mbind option_bind].
  unfold CLOAK_MLKEM768_Q in Hc0, Hc1.
  destruct td as [|x [|y [|z td]]]; cbn [length] in Ht; try lia.
  cbn [app]. rewrite (app_assoc pre dn), mem_set_app by (by rewrite zlen_app). cbn [mbind option_bind].
  change (?l ++ ?a :: ?b :: ?c :: ?q) with (l ++ [a] ++ b :: c :: q).
  rewrite (app_assoc (pre ++ dn)), mem_set_app by (rewrite !zlen_app; done). cbn [mbind option_bind].
  rewrite <- (app_assoc (pre ++ dn)). change ([?a] ++ ?b :: ?c :: ?q) with ([a; b] ++ c :: q).
  rewrite (app_assoc (pre ++ dn)), mem_set_app by (rewrite !zlen_app; change (zlen [_; _]) with 2; lia).
  cbn [mbind option_bind]. rewrite <- (app_assoc (pre ++ dn)).
  change ([?a; ?b] ++ ?c :: ?q) with ([a; b; c] ++ q).
  change ([_; _; _]) with (pack c0 c1).
  replace (zlen dn + 3) with (zlen (dn ++ pack c0 c1)) by (rewrite zlen_app; done).
  destruct (IH (dn ++ pack c0 c1) td r2 Hr2) as (packed&r'&Hrun&Hr'&Hlp&Hbp&Hlc&Hcs).
  { rewrite length_app. cbn. lia. } { lia. }
  exists (pack c0 c1 ++ packed), r'. rewrite <- !app_assoc in *. split; [exact Hrun|].
  split; [done|]. rewrite coefficients_pack by lia. rewrite length_app. cbn [length pack].
  split_and!; try lia.
  - apply all_bytes_app. split; [|done]. unfold pack.
    repeat constructor; apply u8_is_byte.
  - constructor; [unfold CLOAK_MLKEM768_Q; lia|]. constructor; [unfold CLOAK_MLKEM768_Q; lia|done].
Qed.

Lemma fill_mlkem_ok fuel pre old post r :
  tape_ok fuel r -> zlen old = 1184 ->
  exists ek r', fill_mlkem768_ek fuel (pre ++ old ++ post) (zlen pre) r =
      Some (pre ++ ek ++ post, r') /\ ek_ok ek /\ tape_ok fuel r'.
Proof.
  intros Hr Hl. unfold fill_mlkem768_ek.
  destruct (zlen_split old 1152) as (o1&o2&->&H1&H2); [lia|]. rewrite <- app_assoc.
  destruct (mlkem_loop_ok fuel 384 pre [] o1 (o2 ++ post) r Hr) as (pk&r1&Hrun&Hr1&Hlp&Hbp&Hlc&Hcs);
    [done|unfold zlen in H1; lia|].
  cbn [app] in Hrun. change (zlen []) with 0 in Hrun. rewrite Hrun. cbn [mbind option_bind].
  destruct (tape_draw fuel CLOAK_MLKEM768_EK_SEED_LEN r1 Hr1 ltac:(done)) as (s&r2&->&Hls&Hbs&Hr2).
  unfold CLOAK_MLKEM768_EK_PACKED_LEN, CLOAK_MLKEM768_EK_SEED_LEN in *.
  assert (Hpk : zlen pk = 1152) by (unfold zlen; lia).
  rewrite (app_assoc pre pk), (mem_write_app (pre ++ pk) o2 post)
    by (rewrite ?zlen_app in *; lia).
  cbn [mbind option_bind]. exists (pk ++ s), r2. rewrite <- !app_assoc. split; [done|].
  split; [|done]. unfold ek_ok. rewrite zlen_app, Hpk, Hls.
  rewrite take_app_length' by lia. split_and!; try done. by apply all_bytes_app.
Qed.

(** ** The phases, segment by segment *)

Section phases.
Context `{X25519Laws} `{P256Laws} `{!KeygenAvailable} (fuel : nat).
Implicit Types (segs : list bytes) (r : rand).

Lemma keygen_draw r :
  tape_ok fuel r ->
  exists priv pub r',
    (forall out p, fill_x25519_canonical out p r = (out ← out.[p <- pub]; Some (Some (out, r')))) /\
    keypair priv pub /\ zlen pub = 32 /\ all_bytes pub /\ tape_ok fuel r'.
Proof.
  intros Hr. unfold fill_x25519_canonical.
  destruct (tape_draw fuel 32 r Hr ltac:(done)) as (seed&r'&->&_&_&Hr').
  destruct (x25519_available seed) as [[priv pub] Hk]. rewrite Hk.
  assert (Hp : keypair priv pub) by (by exists seed).
  destruct (x25519_key_ok _ _ Hp) as (_&_&Hl&Hb). by exists priv, pub, r'.
Qed.

Lemma refill_key segs k old off len rgs host delta r :
  tape_ok fuel r -> segs !! k = Some old -> zlen old = 32 ->
  shift_off off host delta = zlen (mjoin (take k segs)) ->
  exists pub r', refill_regions (Region off len CLOAK_CH_REGION_X25519 :: rgs) host delta (mjoin segs) r =
      refill_regions rgs host delta (mjoin (<[k := pub]> segs)) r' /\
    zlen pub = 32 /\ all_bytes pub /\ tape_ok fuel r'.
Proof.
  intros Hr Hk Hl Hoff. destruct (keygen_draw r Hr) as (priv&pub&r'&Hfill&_&Hpl&Hpb&Hr').
  exists pub, r'. split; [|done]. cbn [refill_regions rg_kind rg_off].
  rewrite Z.eqb_refl, Hfill, Hoff. rewrite (seg_write segs k old pub) by (done || lia). done.
Qed.

Lemma refill_random segs k old off len rgs host delta r :
  tape_ok fuel r -> segs !! k = Some old -> zlen old = len ->
  shift_off off host delta = zlen (mjoin (take k segs)) ->
  exists fill r', refill_regions (Region off len CLOAK_CH_REGION_RANDOM :: rgs) host delta (mjoin segs) r =
      refill_regions rgs host delta (mjoin (<[k := fill]> segs)) r' /\
    zlen fill = len /\ all_bytes fill /\ tape_ok fuel r'.
Proof.
  intros Hr Hk Hl Hoff. pose proof (zlen_nonneg old).
  destruct (tape_draw fuel len r Hr ltac:(lia)) as (fill&r'&Hd&Hfl&Hfb&Hr').
  exists fill, r'. split; [|done]. cbn [refill_regions rg_kind rg_off rg_len].
  change (CLOAK_CH_REGION_RANDOM =? CLOAK_CH_REGION_X25519) with false. cbn iota.
  rewrite Hd, Hoff. rewrite (seg_write segs k old fill) by (done || lia). done.
Qed.

Lemma point_draw r :
  tape_ok fuel r ->
  exists point r', generate_secp256r1_point r = (Some point, r') /\
    zlen point = 65 /\ all_bytes point /\ tape_ok fuel r'.
Proof.
  intros Hr. unfold generate_secp256r1_point.
  destruct (tape_draw fuel 32 r Hr ltac:(done)) as (seed&r'&->&_&_&Hr').
  destruct (p256_available seed) as [point Hp]. rewrite Hp.
  destruct (evp_p256_point _ _ Hp) as [Hl Hb]. exists point, r'. by rewrite Hl.
Qed.

Lemma fill_mlkem_seg segs k old off r :
  tape_ok fuel r -> segs !! k = Some old -> zlen old = 1184 ->
  off = zlen (mjoin (take k segs)) ->
  exists ek r', fill_mlkem768_ek fuel (mjoin segs) off r = Some (mjoin (<[k := ek]> segs), r') /\
    ek_ok ek /\ tape_ok fuel r'.
Proof.
  intros Hr Hk Hl ->. assert (Hk' : (k < length segs)%nat) by (by apply lookup_lt_Some in Hk).
  rewrite (mjoin_middle _ _ _ Hk).
  destruct (fill_mlkem_ok fuel (mjoin (take k segs)) old (mjoin (drop (S k) segs)) r Hr Hl)
    as (ek&r'&->&Hek&Hr').
  exists ek, r'. split; [|done].
  rewrite (mjoin_middle (<[k := ek]> segs) k ek) by (by apply list_lookup_insert_eq).
  by rewrite take_insert_ge, drop_insert_lt by lia.
Qed.

Lemma fill_aead_seg segs k old off a b r :
  tape_ok fuel r -> segs !! k = Some old -> zlen old = 2 -> off = zlen (mjoin (take k segs)) ->
  exists v r', fill_aead_id_choice (mjoin segs) off [a; b] r =
      Some (mjoin (<[k := be_bytes 2 v]> segs), r') /\ (v = a \/ v = b) /\ tape_ok fuel r'.
Proof.
  intros Hr Hk Hl Hoff. unfold fill_aead_id_choice.
  destruct (tape_draw fuel 1 r Hr ltac:(done)) as (d&r'&->&Hd&_&Hr').
  destruct d as [|d [|]]; [done| |unfold zlen in Hd; cbn in Hd; lia].
  rewrite get_0. cbn [mbind option_bind].
  change 1 with (Z.ones 1) at 1. rewrite Z.land_ones by done. change (2 ^ 1) with 2.
  assert (Hm : d mod 2 = 0 \/ d mod 2 = 1) by dlia.
  assert (Hst : forall v, store_be16 (mjoin segs) off v = Some (mjoin (<[k := be_bytes 2 v]> segs))).
  { intros v. by apply (seg_replaces (fun m => store_be16 m off v) off old _ _ _
      (replaces_store16 off old v Hl)). }
  destruct Hm as [-> | ->]; rewrite ?get_0, ?get_1; cbn [mbind option_bind]; rewrite Hst;
    by (eexists _, r'; split; [done|auto]).
Qed.

Lemma write_grease_step segs k old off role v ps host delta seed :
  segs !! k = Some old -> zlen old = 2 -> shift_off off host delta = zlen (mjoin (take k segs)) ->
  cloak_clienthello_grease_value seed role = Some v ->
  write_grease (GreasePos off role :: ps) host delta seed (mjoin segs) =
  write_grease ps host delta seed (mjoin (<[k := be_bytes 2 v]> segs)).
Proof.
  intros Hk Hl Hoff Hv. cbn [write_grease gp_role gp_off]. rewrite Hv. cbn [mbind option_bind].
  rewrite Hoff. by rewrite (seg_replaces (fun m => store_be16 m _ v) _ old _ _ _
    (replaces_store16 _ old v Hl) Hk eq_refl).
Qed.

End phases.

(** ** Growing a middle segment *)

(** Overwriting the head of a block. *)
Lemma write_over (pre old src : bytes) off :
  off = zlen pre -> zlen src <= zlen old ->
  exists rest, (pre ++ old).[off <- src] = Some (pre ++ src ++ rest) /\
    zlen rest = zlen old - zlen src.
Proof.
  intros -> Hl. pose proof (zlen_nonneg src).
  destruct (zlen_split old (zlen src)) as (o&rest&->&Ho&Hrest); [lia|].
  exists rest. by rewrite mem_write_app.
Qed.

(** Moving the tail away, then writing the larger payload. *)
Lemma grow_middle (pre old tail rest new : bytes) :
  zlen old <= zlen new <= zlen old + zlen rest ->
  exists out rest',
    (pre ++ old ++ tail ++ rest).[zlen pre + zlen new <- tail] = Some out /\
    out.[zlen pre <- new] = Some (pre ++ new ++ tail ++ rest').
Proof.
  intros Hn. pose proof (zlen_nonneg old). pose proof (zlen_nonneg tail).
  destruct (zlen_split (old ++ tail ++ rest) (zlen new)) as (m&q&Heq&Hm&Hq).
  { rewrite !zlen_app. lia. }
  rewrite !zlen_app in Hq.
  destruct (zlen_split q (zlen tail)) as (t&rest'&->&Ht&Hr'); [lia|].
  exists (pre ++ m ++ tail ++ rest'), rest'. rewrite Heq. split.
  - rewrite (app_assoc pre m), (mem_write_app (pre ++ m) t rest') by (rewrite ?zlen_app; lia).
    by rewrite <- app_assoc.
  - by rewrite mem_write_app.
Qed.
