(* ===== verification/ClientHelloLayout.v ===== *)
(** * What the composed ClientHellos look like

    The three messages as structured hellos of [ClientHelloParse], their wire
    form as a list of segments, and what the server reads in them. *)
From S2P Require Import Prelude Fallible Buffer Random ClientHelloTemplates ClientHello ClientHelloSteps ClientHelloParse.

(** Everything a browser draws afresh for one hello. *)
Record drawn := Drawn {
  d_grease : Z -> Z;
  d_ek : bytes;
  d_mlkem_share : bytes;
  d_point : bytes;
  d_aead : Z;
  d_config : bytes;
  d_ech_key : bytes;
  d_ech_payload : bytes
}.

Record drawn_ok (payload_lens : list Z) (d : drawn) : Prop := {
  do_grease role : 0 <= role < 5 -> is_grease (d_grease d role);
  do_distinct : d_grease d CLOAK_CH_GREASE_EXT2 <> d_grease d CLOAK_CH_GREASE_EXT1;
  do_ek : ek_ok (d_ek d);
  do_mlkem_share : zlen (d_mlkem_share d) = 32 /\ all_bytes (d_mlkem_share d);
  do_point : zlen (d_point d) = 65 /\ all_bytes (d_point d);
  do_aead : d_aead d = 1 \/ d_aead d = 3;
  do_config : zlen (d_config d) = 1 /\ all_bytes (d_config d);
  do_ech_key : zlen (d_ech_key d) = 32 /\ all_bytes (d_ech_key d);
  do_ech_payload : zlen (d_ech_payload d) ∈ payload_lens /\ all_bytes (d_ech_payload d)
}.

(** The handshake message, without the record header. *)
Definition message (h : hello) : bytes := [1] ++ vec24 (enc_hello_body h).

Section hellos.
Context (record_length host random session_id share : bytes) (d : drawn).

Definition grease16 (role : Z) : bytes := be_bytes 2 (d_grease d role).
Definition host_ext : extension := ServerName [(SNI_NAME_TYPE_HOST_NAME, host)] [].
Definition ech_ext : extension :=
  OtherExtension 65037 ([0; 0; 1] ++ be_bytes 2 (d_aead d) ++ d_config d ++ vec16 (d_ech_key d) ++
                        vec16 (d_ech_payload d)).

Definition chrome_exts : list extension :=
  [OtherExtension (d_grease d CLOAK_CH_GREASE_EXT1) [];
   host_ext;
   OtherExtension 5 [1; 0; 0; 0; 0];
   OtherExtension 65281 [0];
   OtherExtension 27 [2; 0; 2];
   OtherExtension 16 [0; 12; 2; 104; 50; 8; 104; 116; 116; 112; 47; 49; 46; 49];
   OtherExtension 17613 [0; 3; 2; 104; 50];
   OtherExtension 23 [];
   KeyShare [(d_grease d CLOAK_CH_GREASE_GROUP, [0]); (4588, d_ek d ++ d_mlkem_share d);
             (TLS_GROUP_X25519, share)] [];
   OtherExtension 11 [1; 0];
   OtherExtension 35 [];
   OtherExtension 45 [1; 1];
   OtherExtension 10 ([0; 10] ++ grease16 CLOAK_CH_GREASE_GROUP ++
                      [17; 236; 0; 29; 0; 23; 0; 24]);
   OtherExtension 43 ([6] ++ grease16 CLOAK_CH_GREASE_VERSION ++ [3; 4; 3; 3]);
   OtherExtension 13 [0; 16; 4; 3; 8; 4; 4; 1; 5; 3; 8; 5; 5; 1; 8; 6; 6; 1];
   ech_ext;
   OtherExtension 18 [];
   OtherExtension (d_grease d CLOAK_CH_GREASE_EXT2) [0]].

Definition chrome_hello : hello :=
  Hello record_length [3; 3] random session_id
    (grease16 CLOAK_CH_GREASE_CIPHER ++
     [19; 1; 19; 2; 19; 3; 192; 43; 192; 47; 192; 44; 192; 48; 204; 169; 204; 168; 192; 19;
      192; 20; 0; 156; 0; 157; 0; 47; 0; 53])
    [0] chrome_exts [].

Definition firefox_exts : list extension :=
  [host_ext;
   OtherExtension 23 [];
   OtherExtension 65281 [0];
   OtherExtension 10 [0; 12; 0; 29; 0; 23; 0; 24; 0; 25; 1; 0; 1; 1];
   OtherExtension 11 [1; 0];
   OtherExtension 35 [];
   OtherExtension 16 [0; 12; 2; 104; 50; 8; 104; 116; 116; 112; 47; 49; 46; 49];
   OtherExtension 5 [1; 0; 0; 0; 0];
   OtherExtension 34 [0; 8; 4; 3; 5; 3; 6; 3; 2; 3];
   KeyShare [(TLS_GROUP_X25519, share); (23, d_point d)] [];
   OtherExtension 43 [4; 3; 4; 3; 3];
   OtherExtension 13 [0; 22; 4; 3; 5; 3; 6; 3; 8; 4; 8; 5; 8; 6; 4; 1; 5; 1; 6; 1; 2; 3; 2; 1];
   OtherExtension 45 [1; 1];
   OtherExtension 28 [64; 1];
   ech_ext].

Definition firefox_hello : hello :=
  Hello record_length [3; 3] random session_id
    [19; 1; 19; 3; 19; 2; 192; 43; 192; 47; 204; 169; 204; 168; 192; 44; 192; 48; 192; 10;
     192; 9; 192; 19; 192; 20; 0; 156; 0; 157; 0; 47; 0; 53]
    [0] firefox_exts [].

(** The padding extension fills a hello of fewer than 512 bytes. *)
Definition safari_padding : list extension :=
  let unpadded := 302 + zlen host in
  if unpadded <? 512
  then [OtherExtension 21 (replicate (Z.to_nat (Z.max 1 (512 - unpadded - 4))) 0)]
  else [].

Definition safari_exts : list extension :=
  [OtherExtension (d_grease d CLOAK_CH_GREASE_EXT1) [];
   host_ext;
   OtherExtension 23 [];
   OtherExtension 65281 [0];
   OtherExtension 10 ([0; 10] ++ grease16 CLOAK_CH_GREASE_GROUP ++ [0; 29; 0; 23; 0; 24; 0; 25]);
   OtherExtension 11 [1; 0];
   OtherExtension 16 [0; 12; 2; 104; 50; 8; 104; 116; 116; 112; 47; 49; 46; 49];
   OtherExtension 5 [1; 0; 0; 0; 0];
   OtherExtension 13 [0; 22; 4; 3; 8; 4; 4; 1; 5; 3; 2; 3; 8; 5; 8; 5; 5; 1; 8; 6; 6; 1; 2; 1];
   OtherExtension 18 [];
   KeyShare [(d_grease d CLOAK_CH_GREASE_GROUP, [0]); (TLS_GROUP_X25519, share)] [];
   OtherExtension 45 [1; 1];
   OtherExtension 43 ([10] ++ grease16 CLOAK_CH_GREASE_VERSION ++ [3; 4; 3; 3; 3; 2; 3; 1]);
   OtherExtension 27 [2; 0; 1];
   OtherExtension (d_grease d CLOAK_CH_GREASE_EXT2) [0]] ++ safari_padding.

Definition safari_hello : hello :=
  Hello record_length [3; 3] random session_id
    (grease16 CLOAK_CH_GREASE_CIPHER ++
     [19; 1; 19; 2; 19; 3; 192; 44; 192; 43; 204; 169; 192; 48; 192; 47; 204; 168; 192; 10;
      192; 9; 192; 20; 192; 19; 0; 157; 0; 156; 0; 53; 0; 47; 192; 8; 192; 18; 0; 10])
    [0] safari_exts [].

End hellos.

(** The whole hello, from its parts. *)
Lemma enc_hello_message h : enc_hello h = [22; 3; 1] ++ h_record_length h ++ message h.
Proof. done. Qed.

(** ** Wire form *)

(** Lengths of structured pieces. *)
Ltac len_norm :=
  rewrite ?zlen_mjoin; cbn [fmap list_fmap total];
  unfold enc_ext, vec16, vec8, grease16; cbn [ext_body ext_type];
  repeat (rewrite ?zlen_app; progress (rewrite ?zlen_mjoin; cbn [fmap list_fmap total];
          unfold enc_name, enc_share, vec16; cbn [fst snd]));
  rewrite ?zlen_app, ?zlen_be_bytes, ?zlen_replicate; rewrite ?zlen_cons;
  change (@zlen Z []) with 0; lia.

(** Concatenations to nested [app]s. *)
Ltac flatten :=
  repeat match goal with |- context [mjoin ?l] => change (mjoin l) with (concat l) end;
  cbn [concat]; rewrite ?app_nil_r, <- ?app_assoc.

Section wire.
Context (record_length host random session_id share : bytes) (d : drawn) (lens : list Z).
Context (Hhost : 1 <= zlen host <= 253) (Hrandom : zlen random = 32)
  (Hsid : zlen session_id = 32) (Hshare : zlen share = 32).

(** The head of every hello up to the cipher suites. *)
Definition head_segs (total : Z) : list bytes :=
  [[1]; be_bytes 3 total; [3; 3]; random; [32]; session_id].

Definition sni_segs : list bytes :=
  [be_bytes 2 (zlen host + 5); be_bytes 2 (zlen host + 3); [0]; be_bytes 2 (zlen host); host].

Definition chrome_segs (growth : Z) : list bytes :=
  head_segs (1716 + growth) ++
  [[0; 32]; grease16 d CLOAK_CH_GREASE_CIPHER;
   [19; 1; 19; 2; 19; 3; 192; 43; 192; 47; 192; 44; 192; 48; 204; 169; 204; 168; 192; 19;
    192; 20; 0; 156; 0; 157; 0; 47; 0; 53; 1; 0];
   be_bytes 2 (1611 + growth); grease16 d CLOAK_CH_GREASE_EXT1; [0; 0; 0; 0]] ++
  sni_segs ++
  [[0; 5; 0; 5; 1; 0; 0; 0; 0; 255; 1; 0; 1; 0; 0; 27; 0; 3; 2; 0; 2;
    0; 16; 0; 14; 0; 12; 2; 104; 50; 8; 104; 116; 116; 112; 47; 49; 46; 49;
    68; 205; 0; 5; 0; 3; 2; 104; 50; 0; 23; 0; 0; 0; 51; 4; 239; 4; 237];
   grease16 d CLOAK_CH_GREASE_GROUP; [0; 1; 0; 17; 236; 4; 192]; d_ek d; d_mlkem_share d;
   [0; 29; 0; 32]; share;
   [0; 11; 0; 2; 1; 0; 0; 35; 0; 0; 0; 45; 0; 2; 1; 1; 0; 10; 0; 12; 0; 10];
   grease16 d CLOAK_CH_GREASE_GROUP; [17; 236; 0; 29; 0; 23; 0; 24; 0; 43; 0; 7; 6];
   grease16 d CLOAK_CH_GREASE_VERSION;
   [3; 4; 3; 3; 0; 13; 0; 18; 0; 16; 4; 3; 8; 4; 4; 1; 5; 3; 8; 5; 5; 1; 8; 6; 6; 1; 254; 13];
   be_bytes 2 (42 + zlen (d_ech_payload d)); [0; 0; 1]; be_bytes 2 (d_aead d); d_config d; [0; 32]; d_ech_key d;
   be_bytes 2 (zlen (d_ech_payload d)); d_ech_payload d;
   [0; 18; 0; 0]; grease16 d CLOAK_CH_GREASE_EXT2; [0; 1; 0]].

Definition firefox_segs (growth : Z) : list bytes :=
  head_segs (654 + growth) ++
  [[0; 34; 19; 1; 19; 3; 19; 2; 192; 43; 192; 47; 204; 169; 204; 168; 192; 44; 192; 48; 192; 10;
    192; 9; 192; 19; 192; 20; 0; 156; 0; 157; 0; 47; 0; 53; 1; 0];
   be_bytes 2 (547 + growth); [0; 0]] ++
  sni_segs ++
  [[0; 23; 0; 0; 255; 1; 0; 1; 0; 0; 10; 0; 14; 0; 12; 0; 29; 0; 23; 0; 24; 0; 25; 1; 0; 1; 1;
    0; 11; 0; 2; 1; 0; 0; 35; 0; 0; 0; 16; 0; 14; 0; 12; 2; 104; 50; 8; 104; 116; 116; 112; 47;
    49; 46; 49; 0; 5; 0; 5; 1; 0; 0; 0; 0; 0; 34; 0; 10; 0; 8; 4; 3; 5; 3; 6; 3; 2; 3;
    0; 51; 0; 107; 0; 105; 0; 29; 0; 32];
   share; [0; 23; 0; 65]; d_point d;
   [0; 43; 0; 5; 4; 3; 4; 3; 3; 0; 13; 0; 24; 0; 22; 4; 3; 5; 3; 6; 3; 8; 4; 8; 5; 8; 6; 4; 1;
    5; 1; 6; 1; 2; 3; 2; 1; 0; 45; 0; 2; 1; 1; 0; 28; 0; 2; 64; 1; 254; 13; 1; 25; 0; 0; 1];
   be_bytes 2 (d_aead d); d_config d; [0; 32]; d_ech_key d; [0; 239]; d_ech_payload d].

Definition safari_segs (growth pad : Z) : list bytes :=
  head_segs (313 + growth + pad) ++
  [[0; 42]; grease16 d CLOAK_CH_GREASE_CIPHER;
   [19; 1; 19; 2; 19; 3; 192; 44; 192; 43; 204; 169; 192; 48; 192; 47; 204; 168; 192; 10;
    192; 9; 192; 20; 192; 19; 0; 157; 0; 156; 0; 53; 0; 47; 192; 8; 192; 18; 0; 10; 1; 0];
   be_bytes 2 (198 + growth + pad); grease16 d CLOAK_CH_GREASE_EXT1; [0; 0; 0; 0]] ++
  sni_segs ++
  [[0; 23; 0; 0; 255; 1; 0; 1; 0; 0; 10; 0; 12; 0; 10]; grease16 d CLOAK_CH_GREASE_GROUP;
   [0; 29; 0; 23; 0; 24; 0; 25; 0; 11; 0; 2; 1; 0; 0; 16; 0; 14; 0; 12; 2; 104; 50; 8; 104; 116;
    116; 112; 47; 49; 46; 49; 0; 5; 0; 5; 1; 0; 0; 0; 0; 0; 13; 0; 24; 0; 22; 4; 3; 8; 4; 4; 1;
    5; 3; 2; 3; 8; 5; 8; 5; 5; 1; 8; 6; 6; 1; 2; 1; 0; 18; 0; 0; 0; 51; 0; 43; 0; 41];
   grease16 d CLOAK_CH_GREASE_GROUP; [0; 1; 0; 0; 29; 0; 32]; share;
   [0; 45; 0; 2; 1; 1; 0; 43; 0; 11; 10]; grease16 d CLOAK_CH_GREASE_VERSION;
   [3; 4; 3; 3; 3; 2; 3; 1; 0; 27; 0; 3; 2; 0; 1]; grease16 d CLOAK_CH_GREASE_EXT2; [0; 1; 0]].

Lemma vec16_len l n : zlen l = n -> vec16 l = be_bytes 2 n ++ l.
Proof. by intros <-. Qed.

Lemma vec8_len l n : zlen l = n -> vec8 l = be_bytes 1 n ++ l.
Proof. by intros <-. Qed.

Lemma vec24_len l n : zlen l = n -> vec24 l = be_bytes 3 n ++ l.
Proof. by intros <-. Qed.

Lemma host_ext_wire : enc_ext (host_ext host) = [0; 0] ++ mjoin sni_segs.
Proof.
  unfold enc_ext, host_ext. cbn [ext_body ext_type].
  rewrite (vec16_len _ (zlen host + 5)) by len_norm.
  rewrite (vec16_len (mjoin _) (zlen host + 3)) by len_norm.
  unfold sni_segs. change (mjoin ?l) with (concat l). cbn [fmap list_fmap concat].
  unfold enc_name, vec16. cbn [fst snd]. rewrite ?app_nil_r, <- ?app_assoc. reflexivity.
Qed.

Lemma ech_ext_wire :
  drawn_ok lens d ->
  enc_ext (ech_ext d) = [254; 13] ++ be_bytes 2 (42 + zlen (d_ech_payload d)) ++ [0; 0; 1] ++
    be_bytes 2 (d_aead d) ++ d_config d ++ [0; 32] ++ d_ech_key d ++
    be_bytes 2 (zlen (d_ech_payload d)) ++ d_ech_payload d.
Proof.
  intros [_ _ _ _ _ _ [Hc _] [Hk _] _]. unfold enc_ext, ech_ext. cbn [ext_body ext_type].
  rewrite (vec16_len _ (42 + zlen (d_ech_payload d))) by len_norm.
  rewrite (vec16_len (d_ech_key d) 32) by done. unfold vec16. rewrite <- ?app_assoc. reflexivity.
Qed.

Lemma message_wire h total n :
  h_version h = [3; 3] -> h_random h = random -> h_session_id h = session_id ->
  h_compression h = [0] -> h_trailing h = [] -> zlen (enc_exts (h_extensions h)) = n ->
  total = 73 + zlen (h_cipher_suites h) + n ->
  message h = mjoin (head_segs total) ++ be_bytes 2 (zlen (h_cipher_suites h)) ++
    h_cipher_suites h ++ [1; 0] ++ be_bytes 2 n ++ enc_exts (h_extensions h).
Proof.
  intros Hv Hr Hs Hcm Ht Hn ->. unfold message.
  assert (Hb : zlen (enc_hello_body h) = 73 + zlen (h_cipher_suites h) + n).
  { unfold enc_hello_body. rewrite Hv, Hr, Hs, Hcm, Ht. len_norm. }
  rewrite (vec24_len _ _ Hb). unfold enc_hello_body. rewrite Hv, Hr, Hs, Hcm, Ht.
  rewrite (vec8_len session_id 32), (vec16_len (enc_exts _) n) by done.
  unfold vec16, head_segs. change (mjoin ?l) with (concat l). cbn [concat].
  rewrite ?app_nil_r, <- ?app_assoc. reflexivity.
Qed.

Lemma chrome_wire :
  drawn_ok lens d ->
  message (chrome_hello record_length host random session_id share d) =
  mjoin (chrome_segs (zlen host - 15 + (zlen (d_ech_payload d) - 144))).
Proof.
  intros Hd. pose proof Hd as [_ _ [He _] [Hm _] _ _ [Hc _] [Hk _] _].
  assert (Hexts : zlen (enc_exts (chrome_exts host share d)) =
    1611 + (zlen host - 15 + (zlen (d_ech_payload d) - 144))).
  { unfold enc_exts, chrome_exts. rewrite zlen_mjoin. cbn [fmap list_fmap total].
    rewrite host_ext_wire, ech_ext_wire by done. unfold sni_segs. len_norm. }
  rewrite (message_wire (chrome_hello record_length host random session_id share d) (1716 + (zlen host - 15 + (zlen (d_ech_payload d) - 144))) _
    eq_refl eq_refl eq_refl eq_refl eq_refl Hexts) by (cbn [h_cipher_suites chrome_hello]; len_norm).
  unfold chrome_segs. rewrite !mjoin_app. f_equal.
  unfold enc_exts. cbn [h_extensions chrome_hello]. unfold chrome_exts.
  cbn [fmap list_fmap]. rewrite host_ext_wire, ech_ext_wire by done.
  unfold enc_ext. cbn [ext_type ext_body h_cipher_suites chrome_hello].
  rewrite (vec16_len (vec16 (mjoin _) ++ []) 1263) by len_norm.
  rewrite (vec16_len (mjoin _) 1261) by len_norm.
  cbn [fmap list_fmap]. unfold enc_share. cbn [fst snd].
  rewrite (vec16_len (d_ek d ++ d_mlkem_share d) 1216) by len_norm.
  rewrite (vec16_len share 32) by done.
  unfold vec16, sni_segs. flatten. reflexivity.
Qed.

Lemma firefox_wire :
  drawn_ok lens d -> zlen (d_ech_payload d) = 239 ->
  message (firefox_hello record_length host random session_id share d) =
  mjoin (firefox_segs (zlen host - 15)).
Proof.
  intros Hd Hp. pose proof Hd as [_ _ _ _ [Hpt _] _ [Hc _] [Hk _] _].
  assert (Hexts : zlen (enc_exts (firefox_exts host share d)) = 547 + (zlen host - 15)).
  { unfold enc_exts, firefox_exts. rewrite zlen_mjoin. cbn [fmap list_fmap total].
    rewrite host_ext_wire, ech_ext_wire by done. unfold sni_segs. len_norm. }
  rewrite (message_wire (firefox_hello record_length host random session_id share d)
    (654 + (zlen host - 15)) _ eq_refl eq_refl eq_refl eq_refl eq_refl Hexts)
    by (cbn [h_cipher_suites firefox_hello]; len_norm).
  unfold firefox_segs. rewrite !mjoin_app. f_equal.
  unfold enc_exts. cbn [h_extensions firefox_hello]. unfold firefox_exts.
  cbn [fmap list_fmap]. rewrite host_ext_wire, ech_ext_wire, Hp by done.
  unfold enc_ext. cbn [ext_type ext_body h_cipher_suites firefox_hello].
  rewrite (vec16_len (vec16 (mjoin _) ++ []) 107) by len_norm.
  rewrite (vec16_len (mjoin _) 105) by len_norm.
  cbn [fmap list_fmap]. unfold enc_share. cbn [fst snd].
  rewrite (vec16_len (d_point d) 65), (vec16_len share 32) by done.
  unfold vec16, sni_segs. flatten. reflexivity.
Qed.

Lemma safari_wire :
  drawn_ok lens d ->
  message (safari_hello record_length host random session_id share d) =
  mjoin (safari_segs (zlen host - 15) (zlen (enc_exts (safari_padding host)))) ++
  enc_exts (safari_padding host).
Proof.
  intros Hd. set (pad := enc_exts (safari_padding host)).
  assert (Happ : forall es, enc_exts (es ++ safari_padding host) = enc_exts es ++ pad)
    by (intros es; unfold enc_exts; by rewrite fmap_app, mjoin_app).
  assert (Hexts : zlen (enc_exts (safari_exts host share d)) = 198 + (zlen host - 15) + zlen pad).
  { unfold safari_exts. rewrite Happ, zlen_app. unfold enc_exts. rewrite zlen_mjoin.
    cbn [fmap list_fmap total]. rewrite host_ext_wire. unfold sni_segs. len_norm. }
  rewrite (message_wire (safari_hello record_length host random session_id share d)
    (313 + (zlen host - 15) + zlen pad) _ eq_refl eq_refl eq_refl eq_refl eq_refl Hexts)
    by (cbn [h_cipher_suites safari_hello]; len_norm).
  unfold safari_segs. rewrite !mjoin_app, <- !app_assoc. f_equal.
  cbn [h_extensions safari_hello]. unfold safari_exts. rewrite Happ. unfold enc_exts.
  cbn [fmap list_fmap]. rewrite host_ext_wire.
  unfold enc_ext. cbn [ext_type ext_body h_cipher_suites safari_hello].
  rewrite (vec16_len (vec16 (mjoin _) ++ []) 43) by len_norm.
  rewrite (vec16_len (mjoin _) 41) by len_norm.
  cbn [fmap list_fmap]. unfold enc_share. cbn [fst snd]. rewrite (vec16_len share 32) by done.
  unfold vec16, sni_segs. flatten. reflexivity.
Qed.

End wire.
(** ** What the server reads *)

(** The hello is well-formed and carries what was spliced in. *)
Record carries (h : hello) (host random session_id share : bytes) : Prop := {
  ca_ok : hello_ok h;
  ca_bytes : all_bytes (message h);
  ca_random : h_random h = random;
  ca_session_id : h_session_id h = session_id;
  ca_share : hello_key_share h = Some share;
  ca_sni : hello_sni h = Some host
}.

Section carries.
Context (record_length host random session_id share : bytes) (d : drawn) (lens : list Z).
Context (Hrl : zlen record_length = 2)
  (Hhost : 1 <= zlen host <= 253 /\ all_bytes host)
  (Hrandom : zlen random = 32 /\ all_bytes random)
  (Hsid : zlen session_id = 32 /\ all_bytes session_id)
  (Hshare : zlen share = 32 /\ all_bytes share)
  (Hd : drawn_ok lens d).

Lemma grease_not_used role :
  0 <= role < 5 -> 0 <= d_grease d role < 65536 /\ d_grease d role <> TLS_EXT_SERVER_NAME /\
                   d_grease d role <> TLS_EXT_KEY_SHARE.
Proof.
  intros Hr. destruct (do_grease _ _ Hd role Hr) as (n&Hn&->).
  unfold grease_code, TLS_EXT_SERVER_NAME, TLS_EXT_KEY_SHARE. lia.
Qed.

Lemma segs_bytes (segs : list bytes) : Forall all_bytes segs -> all_bytes (mjoin segs).
Proof.
  induction 1 as [|x l Hx _ IH]; [constructor|]. change (mjoin (x :: l)) with (x ++ mjoin l).
  by apply all_bytes_app.
Qed.

(** Well-formedness of a concrete list of extensions. *)
Ltac exts_ok :=
  repeat (apply Forall_cons; split); try exact (Forall_nil_2 _);
  unfold ext_ok, host_ext, ech_ext, fits16, TLS_EXT_SERVER_NAME, TLS_EXT_KEY_SHARE,
    TLS_GROUP_X25519, SNI_NAME_TYPE_HOST_NAME in *;
  split_and?; repeat (apply Forall_cons; split); try exact (Forall_nil_2 _);
  unfold name_ok, share_ok, fits16; cbn [fst snd]; split_and?; first [lia | len_norm | done].

Ltac segs_ok :=
  rewrite ?mjoin_app, ?all_bytes_app; split_and?; try apply segs_bytes;
  unfold head_segs, sni_segs, grease16; cbn [app];
  repeat (match goal with |- Forall all_bytes (_ :: _) => apply Forall_cons; split end);
  try exact (Forall_nil_2 _);
  first [assumption | apply be_bytes_all_bytes | apply all_bytesb_sound; reflexivity].

Lemma chrome_carries :
  zlen (d_ech_payload d) <= 240 ->
  carries (chrome_hello record_length host random session_id share d) host random session_id share.
Proof.
  intros Hp. destruct Hhost as [Hh Hhb], Hrandom as [Hr Hrb], Hsid as [Hs Hsb], Hshare as [Hk Hkb].
  pose proof Hd as [_ _ (He&Heb&_) [Hm Hmb] [Hpt Hptb] _ [Hc Hcb] [Hek Hekb] [_ Hpb]].
  assert (Hexts : zlen (enc_exts (chrome_exts host share d)) < 32768).
  { unfold enc_exts, chrome_exts, host_ext, ech_ext. rewrite zlen_mjoin.
    cbn [fmap list_fmap total]. len_norm. }
  split; try done.
  - pose proof (grease_not_used CLOAK_CH_GREASE_EXT1 ltac:(done)).
    pose proof (grease_not_used CLOAK_CH_GREASE_EXT2 ltac:(done)).
    pose proof (grease_not_used CLOAK_CH_GREASE_GROUP ltac:(done)).
    unfold hello_ok, fits16, enc_hello_body.
    cbn [h_record_length h_version h_random h_session_id h_cipher_suites h_compression h_extensions
         h_trailing chrome_hello].
    split_and!; try done; try lia; try len_norm. unfold chrome_exts. exts_ok.
  - erewrite chrome_wire by done. unfold chrome_segs. segs_ok.
  - unfold hello_key_share. cbn. unfold x25519. cbn [fst snd].
    rewrite Hk. by destruct (_ =? TLS_GROUP_X25519).
Qed.

Lemma firefox_carries :
  zlen (d_ech_payload d) = 239 ->
  carries (firefox_hello record_length host random session_id share d) host random session_id share.
Proof.
  intros Hp. destruct Hhost as [Hh Hhb], Hrandom as [Hr Hrb], Hsid as [Hs Hsb], Hshare as [Hk Hkb].
  pose proof Hd as [_ _ _ _ [Hpt Hptb] _ [Hc Hcb] [Hek Hekb] [_ Hpb]].
  assert (Hexts : zlen (enc_exts (firefox_exts host share d)) < 32768).
  { unfold enc_exts, firefox_exts, host_ext, ech_ext. rewrite zlen_mjoin.
    cbn [fmap list_fmap total]. len_norm. }
  split; try done.
  - unfold hello_ok, fits16, enc_hello_body.
    cbn [h_record_length h_version h_random h_session_id h_cipher_suites h_compression h_extensions
         h_trailing firefox_hello].
    split_and!; try done; try lia; try len_norm. unfold firefox_exts. exts_ok.
  - erewrite firefox_wire by done. unfold firefox_segs. segs_ok.
  - unfold hello_key_share. cbn. unfold x25519. cbn [fst snd]. by rewrite Hk.
Qed.

Lemma safari_padding_ok :
  Forall ext_ok (safari_padding host) /\ all_bytes (enc_exts (safari_padding host)) /\
  zlen (enc_exts (safari_padding host)) < 1024 /\
  mjoin (ext_names <$> safari_padding host) = [] /\ mjoin (ext_shares <$> safari_padding host) = [].
Proof.
  unfold safari_padding. destruct (Z.ltb_spec (302 + zlen host) 512).
  2: { split_and!; try done; constructor. }
  assert (Hb : all_bytes (enc_exts [OtherExtension 21
    (replicate (Z.to_nat (Z.max 1 (512 - (302 + zlen host) - 4))) 0)])).
  { unfold enc_exts, enc_ext, vec16. cbn [fmap list_fmap ext_type ext_body]. flatten.
    rewrite !all_bytes_app. split_and!; try apply be_bytes_all_bytes.
    apply Forall_replicate. unfold is_byte. lia. }
  split_and!; try done; [exts_ok|]. unfold enc_exts. len_norm.
Qed.

Lemma safari_carries :
  carries (safari_hello record_length host random session_id share d) host random session_id share.
Proof.
  destruct Hhost as [Hh Hhb], Hrandom as [Hr Hrb], Hsid as [Hs Hsb], Hshare as [Hk Hkb].
  destruct safari_padding_ok as (Hpo&Hpb&Hpl&Hpn&Hps).
  assert (Hexts : zlen (enc_exts (safari_exts host share d)) < 32768).
  { unfold enc_exts, safari_exts, host_ext. rewrite fmap_app, mjoin_app, zlen_app.
    change (mjoin (enc_ext <$> safari_padding host)) with (enc_exts (safari_padding host)).
    rewrite zlen_mjoin. cbn [fmap list_fmap total]. len_norm. }
  split; try done.
  - pose proof (grease_not_used CLOAK_CH_GREASE_EXT1 ltac:(done)).
    pose proof (grease_not_used CLOAK_CH_GREASE_EXT2 ltac:(done)).
    pose proof (grease_not_used CLOAK_CH_GREASE_GROUP ltac:(done)).
    unfold hello_ok, fits16, enc_hello_body.
    cbn [h_record_length h_version h_random h_session_id h_cipher_suites h_compression h_extensions
         h_trailing safari_hello].
    split_and!; try done; try lia; try len_norm. unfold safari_exts.
    apply Forall_app. split; [exts_ok|done].
  - erewrite safari_wire by done. apply all_bytes_app. split; [|done]. unfold safari_segs. segs_ok.
  - unfold hello_key_share. cbn [h_extensions safari_hello]. unfold safari_exts.
    rewrite fmap_app, mjoin_app, Hps, app_nil_r. cbn. unfold x25519. cbn [fst snd].
    rewrite Hk. by destruct (_ =? TLS_GROUP_X25519).
Qed.

End carries.
