(* ===== verification/ClientHelloBuild.v ===== *)
(** * The composed ClientHello is the browser's

    Running [cloak_clienthello_build] on each template writes the structured
    hello of [ClientHelloLayout], which the server's parser reads back. *)
From S2P Require Import Prelude Fallible Buffer Random X25519 ClientHelloTemplates ClientHello ClientHelloSteps ClientHelloParse ClientHelloLayout.

(** ** Copying a template around a host name *)

Lemma splice_copy_text tmpl prefix old suffix name junk out :
  tm_bytes tmpl = prefix ++ old ++ suffix -> zlen prefix = tm_sni_host_off tmpl ->
  zlen old = tm_sni_host_len tmpl -> tm_len tmpl = zlen (tm_bytes tmpl) ->
  tm_len tmpl < 65536 -> zlen prefix + zlen name + zlen suffix <= zlen out ->
  exists rest,
    splice_copy tmpl (c_block name junk) (zlen name) out =
      Some (prefix ++ name ++ suffix ++ rest) /\
    zlen rest = zlen out - (zlen prefix + zlen name + zlen suffix).
Proof.
  intros Hb Hp Ho Hl Hs Hout. rewrite Hb, !zlen_app in Hl. zlen_pos.
  destruct (zlen_split out (zlen prefix)) as (o1&q&->&Ho1&Hq); [lia|].
  destruct (zlen_split q (zlen name)) as (o2&q2&->&Ho2&Hq2); [rewrite ?zlen_app in *; lia|].
  destruct (zlen_split q2 (zlen suffix)) as (o3&rest&->&Ho3&Hr); [rewrite ?zlen_app in *; lia|].
  exists rest. rewrite !zlen_app in *. split; [|lia]. unfold splice_copy. rewrite Hb, <- Hp, <- Ho.
  rewrite mem_read_head by done. cbn [mbind option_bind].
  rewrite (mem_write_app [] o1 (o2 ++ o3 ++ rest)) by done. cbn [app mbind option_bind].
  unfold c_block. rewrite mem_read_head by done. cbn [mbind option_bind].
  rewrite (mem_write_app prefix o2) by done. cbn [mbind option_bind].
  rewrite u64_small by lia.
  rewrite (app_assoc prefix old), <- (app_nil_r suffix) at 1.
  rewrite mem_read_app by (rewrite ?zlen_app; lia). cbn [mbind option_bind].
  rewrite (app_assoc prefix name), (mem_write_app (prefix ++ name) o3) by (rewrite ?zlen_app; lia).
  by rewrite <- app_assoc.
Qed.

(** ** One store at a time *)

(** Offsets behind the host name. *)
Ltac offs :=
  repeat match goal with
  | |- context [shift_off ?a ?b ?c] =>
      first [rewrite (shift_off_after a b c) by lia | rewrite (shift_off_before a b c) by lia]
  | |- context [u64 ?x] => rewrite (u64_small x) by lia
  end.

Lemma seg_modify f off old new segs k :
  segs !! k = Some old -> off = zlen (mjoin (take k segs)) -> replaces f off old new ->
  f (mjoin segs) = Some (mjoin (<[k := new]> segs)).
Proof. intros. by apply (seg_replaces f off old). Qed.

Ltac at_segment := offs; seg_len.

Ltac seg_done E := rewrite E; clear E; cbn [mbind option_bind insert list_insert].

Ltac seg_field f lem k :=
  let E := fresh "E" in
  match goal with
  | |- context [f (mjoin ?segs) ?off ?x] =>
      eassert (E : f (mjoin segs) off x = Some (mjoin (<[k := _]> segs)));
        [eapply (seg_modify (fun m => f m off x) off);
           [reflexivity | solve [at_segment] | apply lem; first [lia | done | seg_len]]
        |seg_done E]
  end.
Ltac patch16 k := seg_field patch_be16_delta replaces_patch16 k.
Ltac patch24 k := seg_field patch_be24_delta replaces_patch24 k.
Ltac store16 k := seg_field store_be16 replaces_store16 k.

Ltac seg_put k :=
  let E := fresh "E" in
  match goal with
  | |- context [(mjoin ?segs).[?off <- ?src]] =>
      eassert (E : (mjoin segs).[off <- src] = Some (mjoin (<[k := src]> segs)));
        [eapply (seg_write segs k); [reflexivity | solve [at_segment] | seg_len] | seg_done E]
  end.

(** The copy in terms of the template's segments. *)
Lemma splice_copy_segs tmpl segs k old name junk out :
  tm_bytes tmpl = mjoin segs -> segs !! k = Some old ->
  zlen (mjoin (take k segs)) = tm_sni_host_off tmpl -> zlen old = tm_sni_host_len tmpl ->
  tm_len tmpl = zlen (tm_bytes tmpl) -> tm_len tmpl < 65536 ->
  tm_len tmpl - zlen old + zlen name <= zlen out ->
  exists rest,
    splice_copy tmpl (c_block name junk) (zlen name) out = Some (mjoin (<[k := name]> segs ++ [rest])) /\
    zlen rest = zlen out - (tm_len tmpl - zlen old + zlen name).
Proof.
  intros Hb Hk Hoff Hold Hlen Hsmall Hout. rewrite (mjoin_middle _ _ _ Hk) in Hb.
  pose proof Hlen as Hl. rewrite Hb, !zlen_app in Hl.
  destruct (splice_copy_text tmpl _ _ _ name junk out Hb Hoff Hold Hlen Hsmall) as (rest&->&Hr);
    [lia|].
  exists rest. split; [|lia]. f_equal.
  assert (Hk' : (k < length segs)%nat) by (by apply lookup_lt_Some in Hk).
  rewrite mjoin_app, (mjoin_middle (<[k := name]> segs) k name) by (by apply list_lookup_insert_eq).
  rewrite take_insert_ge, drop_insert_lt by lia. change (mjoin [rest]) with (rest ++ []).
  by rewrite app_nil_r, <- !app_assoc.
Qed.

(** ** The templates are hellos themselves *)

Definition slice (l : bytes) (off n : nat) : bytes := take n (drop off l).

Definition template_grease (g : list Z) (role : Z) : Z := default 0 (g !! Z.to_nat role).

Definition chrome_captured : drawn :=
  let at_ := slice chrome_template in
  Drawn (template_grease [64250; 43690; 64250; 10794; 64250]) (at_ 204%nat 1184%nat) (at_ 1388%nat 32%nat) [] 3
    (at_ 1530%nat 1%nat) (at_ 1533%nat 32%nat) (at_ 1567%nat 144%nat).

Lemma chrome_template_segs :
  exists host random sid share d, zlen host = 15 /\ zlen random = 32 /\ zlen sid = 32 /\
    zlen share = 32 /\ zlen (d_ek d) = 1184 /\ zlen (d_mlkem_share d) = 32 /\
    zlen (d_config d) = 1 /\ zlen (d_ech_key d) = 32 /\ zlen (d_ech_payload d) = 144 /\
    chrome_template = mjoin (chrome_segs host random sid share d 0).
Proof.
  exists (slice chrome_template 122 15), (slice chrome_template 6 32), (slice chrome_template 39 32),
    (slice chrome_template 1424 32), chrome_captured.
  split_and!; vm_compute; reflexivity.
Qed.

(** ** Building *)

Section built.
Context `{X25519Laws} `{P256Laws} `{!KeygenAvailable} (fuel : nat).
Context (host junk random session_id share seed out : bytes) (r : rand).

(** What the client hands to the composition. *)
Record splice_args : Prop := {
  sp_host : 1 <= zlen host <= 253 /\ no_nul host;
  sp_random : zlen random = 32;
  sp_session_id : zlen session_id = 32;
  sp_share : zlen share = 32;
  sp_seed : zlen seed = 5 /\ all_bytes seed;
  sp_out : CLOAK_CLIENTHELLO_MAX_BYTES <= zlen out;
  sp_tape : tape_ok fuel r
}.
Hypothesis Hargs : splice_args.

(** Grease values by role. *)
Definition greased (role : Z) : Z := default 0 (cloak_clienthello_grease_value seed role).

Lemma greased_ok role :
  0 <= role < 5 -> cloak_clienthello_grease_value seed role = Some (greased role) /\ is_grease (greased role).
Proof.
  intros Hr. destruct (sp_seed Hargs) as [Hl Hb].
  destruct (grease_value_code seed role Hl Hb Hr) as (v&Hv&Hg&_). unfold greased. by rewrite Hv.
Qed.

Lemma greased_distinct : greased CLOAK_CH_GREASE_EXT2 <> greased CLOAK_CH_GREASE_EXT1.
Proof.
  destruct (sp_seed Hargs) as [Hl Hb].
  destruct (grease_value_code seed CLOAK_CH_GREASE_EXT2 Hl Hb ltac:(done)) as (v&Hv&_&Hd).
  destruct (greased_ok CLOAK_CH_GREASE_EXT1 ltac:(done)) as [H1' _].
  unfold greased at 1. rewrite Hv. intros He. by apply Hd; [|rewrite H1', <- He].
Qed.

Ltac fields := cbv [cloak_clienthello_chrome cloak_clienthello_firefox cloak_clienthello_safari
  tm_bytes tm_len tm_random_off tm_session_id_off tm_keyshare_off tm_extensions_length_off
  tm_sni_ext_length_off tm_sni_list_length_off tm_sni_host_length_off tm_sni_host_off
  tm_sni_host_len tm_random_regions tm_random_region_count tm_secp256r1_keyshare_off
  tm_mlkem_ek_off tm_aead_id_off tm_aead_id_choices tm_ech_ext_len_off tm_ech_payload_len_off
  tm_ech_payload_off tm_ech_payload_candidate_lens tm_ech_payload_candidate_count
  tm_padding_ext_off tm_padding_data_len tm_grease_positions tm_grease_position_count].

Lemma ech_plan_chrome :
  exists chosen r', ech_plan fuel cloak_clienthello_chrome r = Some (chosen - 144, chosen, r') /\
    chosen ∈ [144; 176; 208; 240] /\ tape_ok fuel r'.
Proof.
  destruct (sp_tape Hargs) as (Hr&Hf&Hc). unfold ech_plan. fields. rewrite u32_small by done.
  change (0 <? 4) with true. cbn iota.
  destruct (cloak_random_below_total fuel 4 r Hr Hf ltac:(done)) as (i&r'&Hb&Hi&Hr'&Hf').
  rewrite Hb. cbn [mbind option_bind].
  assert (Hc' : fair_coefficients fuel r') by (eapply fair_coefficients_later; [by eapply later_below|done]).
  assert (Hcase : i = 0 \/ i = 1 \/ i = 2 \/ i = 3) by lia.
  destruct Hcase as [-> | [-> | [-> | ->]]]; cbn [mem_get Z.leb Z.compare Z.to_nat Pos.to_nat
    Pos.iter_op Nat.add lookup list_lookup mbind option_bind];
    (eexists _, r'; split; [reflexivity|split; [rewrite !elem_of_cons; lia|done]]).
Qed.

(** The tail after the payload is moved, then the payload is written. *)
Lemma resize_segs (segs : list bytes) (old : bytes) (tl : list bytes) (rest new : bytes) :
  zlen old <= zlen new <= zlen old + zlen rest ->
  exists out1 rest',
    (mjoin (segs ++ old :: tl ++ [rest])).[zlen (mjoin segs) + zlen old +: zlen (mjoin tl)] = Some (mjoin tl) /\
    (mjoin (segs ++ old :: tl ++ [rest])).[zlen (mjoin segs) + zlen new <- mjoin tl] = Some out1 /\
    out1.[zlen (mjoin segs) <- new] = Some (mjoin (segs ++ new :: tl ++ [rest'])).
Proof.
  intros Hn.
  assert (Hm : forall x y, mjoin (segs ++ x :: tl ++ [y]) = mjoin segs ++ x ++ mjoin tl ++ y).
  { intros x y. rewrite mjoin_app. change (mjoin (x :: tl ++ [y])) with (x ++ mjoin (tl ++ [y])).
    rewrite mjoin_app. change (mjoin [y]) with (y ++ []). by rewrite app_nil_r. }
  destruct (grow_middle (mjoin segs) old (mjoin tl) rest new Hn) as (out1&rest'&Hw&Hp).
  exists out1, rest'. rewrite !Hm. split; [|done].
  rewrite (app_assoc (mjoin segs)). apply mem_read_app; [by rewrite zlen_app|done].
Qed.

Ltac refill lem k b r' Hi Ho :=
  match goal with
  | |- context [refill_regions (Region ?o ?l ?kd :: ?rs) ?h ?dl (mjoin ?segs) ?r0] =>
      let E := fresh "E" in
      edestruct (lem fuel segs k) with (off := o) (len := l) (rgs := rs) (host := h) (delta := dl) (r := r0) as (b & r' & E & ? & ? & Ho);
        [exact Hi | reflexivity | solve [at_segment] | solve [at_segment] |
         rewrite E; clear E; cbn [insert list_insert]]
  end.

Ltac fill_ek k ek r' Hek Hi Ho :=
  match goal with
  | |- context [fill_mlkem768_ek fuel (mjoin ?segs) ?o ?r0] =>
      let E := fresh "E" in
      edestruct (fill_mlkem_seg fuel segs k) with (off := o) (r := r0) as (ek & r' & E & Hek & Ho);
        [exact Hi | reflexivity | done | solve [at_segment] |
         rewrite E; clear E; pose proof (proj1 Hek); cbn [insert list_insert mbind option_bind]]
  end.

Ltac fill_aead k v r' Hv Hi Ho :=
  match goal with
  | |- context [fill_aead_id_choice (mjoin ?segs) ?o [?c1; ?c2] ?r0] =>
      let E := fresh "E" in
      edestruct (fill_aead_seg fuel segs k) with (off := o) (a := c1) (b := c2) (r := r0)
        as (v & r' & E & Hv & Ho);
        [exact Hi | reflexivity | solve [at_segment] | solve [at_segment] |
         rewrite E; clear E; cbn [insert list_insert mbind option_bind]]
  end.

Ltac grease k :=
  match goal with
  | |- context [write_grease (GreasePos ?o ?rl :: ?ps) ?h ?dl ?sd (mjoin ?segs)] =>
      erewrite (write_grease_step segs k _ o rl (greased rl) ps h dl sd);
        [cbn [insert list_insert] | reflexivity | solve [at_segment] | solve [at_segment] |
         apply greased_ok; done]
  end.

(** Equal up to the arithmetic of the length fields. *)
Ltac built_as rest :=
  match goal with
  | |- Some (Some (?n, mjoin ?L, _)) = Some (Some (zlen (mjoin ?S), _, _)) =>
      let E := fresh in let N := fresh in
      assert (E : mjoin L = mjoin S ++ rest);
        [transitivity (mjoin (S ++ [rest]));
           [f_equal; cbn [app];
            repeat (apply (f_equal2 cons); [first [reflexivity | f_equal; lia]|]); reflexivity
           |rewrite mjoin_app; change (mjoin [rest]) with (rest ++ []); by rewrite app_nil_r]
        |assert (N : n = zlen (mjoin S)) by seg_len; by rewrite E, N]
  end.

Ltac resize k pay rest' :=
  match goal with
  | |- context [(mjoin ?L).[?o1 +: ?n]] =>
      let A := eval cbv [take] in (take k L) in
      lazymatch eval cbv [drop] in (drop k L) with
      | ?old :: ?t =>
          let m := eval cbv in (pred (length t)) in
          let T := eval cbv [take] in (take m t) in
          lazymatch eval cbv [drop] in (drop m t) with
          | [?rest] =>
              let out1 := fresh "out1" in let Hrd := fresh in let Hwr := fresh in let Hpl := fresh in
              destruct (resize_segs A old T rest pay) as (out1 & rest' & Hrd & Hwr & Hpl); [lia|];
              change (A ++ old :: T ++ [rest]) with L in Hrd, Hwr;
              replace n with (zlen (mjoin T)) by seg_len;
              replace o1 with (zlen (mjoin A) + zlen old) by seg_len; rewrite Hrd; cbn [mbind option_bind];
              match goal with |- context [(mjoin L).[?o2 <- _]] =>
                replace o2 with (zlen (mjoin A) + zlen pay) by at_segment end;
              rewrite Hwr; cbn [mbind option_bind];
              match goal with |- context [out1.[?o3 <- pay]] =>
                replace o3 with (zlen (mjoin A)) by seg_len end;
              rewrite Hpl; cbn [mbind option_bind app]; clear Hrd Hwr Hpl
          end
      end
  end.

(** The checks that precede the first store. *)
Ltac open_build Hh Hrd Hsid Hsh Hr :=
  pose proof Hargs as [[Hh ?] Hrd Hsid Hsh _ ? Hr]; unfold CLOAK_CLIENTHELLO_MAX_BYTES in *;
  unfold cloak_clienthello_build_with_grease_seed; rewrite strlen_c_block by done;
  cbn [mbind option_bind]; decide_cmp; cbn [orb]; unfold padding_plan;
  match goal with
  | |- context [tm_padding_ext_off ?t] =>
      let p := eval cbv in (tm_padding_ext_off t) in change (tm_padding_ext_off t) with p;
      let n := eval cbv in (tm_len t) in change (tm_len t) with n;
      let l := eval cbv in (tm_sni_host_len t) in change (tm_sni_host_len t) with l;
      let d := eval cbv in (tm_padding_data_len t) in change (tm_padding_data_len t) with d
  end; cbn [Z.eqb negb]; decide_cmp.

(** Phase 1: the copy from segment list [H], whose host is segment [k], then
    the length fields at [l1], [l2] and before segments [k - 4], [k - 3], [k - 1]. *)
Ltac splice H k old rest Hrest ext sni1 sni2 sni3 ks :=
  match goal with
  | |- context [splice_copy ?t _ _ _] =>
      unfold head_segs, sni_segs, grease16 in H; cbn [app] in H;
      destruct (splice_copy_segs t _ k old host junk out H eq_refl) as (rest & -> & Hrest);
        [fields; solve [seg_len] | done | reflexivity | done | fields; lia | clear H]
  end;
  revert Hrest; fields; intros Hrest; cbn [app insert list_insert mbind option_bind];
  unfold splice_lengths; fields; patch24 1%nat; patch16 ext; patch16 sni1; patch16 sni2;
  rewrite u16_small by lia; store16 sni3; unfold splice_auth; fields;
  rewrite (mem_read_all random), (mem_read_all session_id), (mem_read_all share) by done;
  cbn [mbind option_bind]; seg_put 3%nat; seg_put 5%nat; seg_put ks; znat; cbn [take].

Lemma chrome_built record_length :
  exists d rest r',
    let msg := message (chrome_hello record_length host random session_id share d) in
    cloak_clienthello_build_with_grease_seed fuel cloak_clienthello_chrome random session_id share
      (c_block host junk) seed out r = Some (Some (zlen msg, msg ++ rest, r')) /\
    drawn_ok [144; 176; 208; 240] d.
Proof.
  open_build Hh Hrd Hsid Hsh Hr0'.
  destruct ech_plan_chrome as (chosen&r1&->&Hchosen&Hr1). cbn [mbind option_bind].
  assert (Hcr : 144 <= chosen <= 240) by (rewrite !elem_of_cons, elem_of_nil in Hchosen; lia).
  decide_cmp. cbn [orb].
  destruct chrome_template_segs as (h0&r0&s0&k0&d0&Hh0&Hr0&Hs0&Hk0&He0&Hm0&Hc0&Hek0&Hp0&Ht).
  unfold chrome_segs in Ht. splice Ht 16%nat h0 rest Hrest 9%nat 12%nat 13%nat 15%nat 23%nat.
  refill refill_key 21%nat ms r2 Hr1 Hr2. refill refill_key 34%nat key r3 Hr2 Hr3.
  refill refill_random 32%nat config r4 Hr3 Hr4. cbn [refill_regions pbind].
  unfold fill_typed. fields. cbn [Z.eqb negb pbind]. cbn iota.
  fill_ek 20%nat ek r5 Hek Hr4 Hr5. fill_aead 31%nat aead r6 Haead Hr5 Hr6.
  cbn [mbind option_bind insert list_insert pbind]. unfold write_tail. fields. znat. cbn [take].
  grease 7%nat. grease 10%nat. grease 18%nat. grease 25%nat. grease 27%nat. grease 38%nat.
  cbn [write_grease mbind option_bind]. unfold write_padding. fields. cbn [Z.eqb negb mbind option_bind].
  cbn iota. unfold resize_ech. fields. change (0 <? 4) with true. cbn iota. rewrite get_0.
  cbn [mbind option_bind]. rewrite (u16_small chosen) by lia. offs. decide_cmp.
  destruct (tape_draw fuel chosen r6 Hr6 ltac:(lia)) as (pay&r7&->&Hpl&Hpb&Hr7).
  resize 36%nat pay rest'. patch24 1%nat. patch16 9%nat. patch16 29%nat. store16 35%nat.
  cbn [pbind]. exists (Drawn greased ek ms (replicate 65 0) aead config key pay), rest', r7.
  cbn zeta.
  assert (Hd : drawn_ok [144; 176; 208; 240] (Drawn greased ek ms (replicate 65 0) aead config key pay)).
  { split; cbn; try done.
    - intros role Hrole. by apply greased_ok.
    - apply greased_distinct.
    - split; [done|by apply all_bytesb_sound].
    - by rewrite Hpl. }
  split; [|exact Hd]. rewrite (chrome_wire _ _ _ _ _ _ _ Hrd Hsid Hsh Hd).
  unfold chrome_segs, head_segs, sni_segs, grease16.
  cbn [app d_grease d_ek d_mlkem_share d_point d_aead d_config d_ech_key d_ech_payload].
  built_as rest'.
Qed.

Lemma ek_ok_zero : ek_ok (replicate 1184 0).
Proof.
  assert (Hc : coefficients (take 1152 (replicate 1184 0)) = replicate 768 0)
    by (vm_compute; reflexivity).
  unfold ek_ok. rewrite Hc. split_and!; try done; apply Forall_replicate; unfold is_byte; done.
Qed.

(** *** Firefox *)

Lemma firefox_template_segs :
  exists h0 r0 s0 k0 d, zlen h0 = 15 /\ zlen r0 = 32 /\ zlen s0 = 32 /\ zlen k0 = 32 /\
    zlen (d_point d) = 65 /\ zlen (d_config d) = 1 /\ zlen (d_ech_key d) = 32 /\
    zlen (d_ech_payload d) = 239 /\ firefox_template = mjoin (firefox_segs h0 r0 s0 k0 d 0).
Proof.
  exists (slice firefox_template 120 15), (slice firefox_template 6 32),
    (slice firefox_template 39 32), (slice firefox_template 223 32).
  exists (Drawn (fun _ => 0) [] [] (slice firefox_template 259 65) 1 (slice firefox_template 382 1)
    (slice firefox_template 385 32) (slice firefox_template 419 239)).
  split_and!; vm_compute; reflexivity.
Qed.

Lemma firefox_built record_length :
  exists d rest r',
    let msg := message (firefox_hello record_length host random session_id share d) in
    cloak_clienthello_build_with_grease_seed fuel cloak_clienthello_firefox random session_id share
      (c_block host junk) seed out r = Some (Some (zlen msg, msg ++ rest, r')) /\
    drawn_ok [239] d /\ zlen (d_ech_payload d) = 239.
Proof.
  open_build Hh Hrd Hsid Hsh Hr1. unfold ech_plan.
  change (tm_ech_payload_candidate_count cloak_clienthello_firefox) with 0. decide_cmp.
  cbn [mbind option_bind]. decide_cmp. cbn [orb].
  destruct firefox_template_segs as (h0&r0&s0&k0&d0&Hh0&Hr0&Hs0&Hk0&Hpt0&Hc0&Hek0&Hp0&Ht).
  unfold firefox_segs in Ht. splice Ht 13%nat h0 rest Hrest 7%nat 9%nat 10%nat 12%nat 15%nat.
  refill refill_key 22%nat key r2 Hr1 Hr2. refill refill_random 24%nat pay r3 Hr2 Hr3.
  refill refill_random 20%nat config r4 Hr3 Hr4. cbn [refill_regions pbind].
  unfold fill_typed. fields. cbn [Z.eqb negb pbind]. cbn iota.
  destruct (point_draw fuel r4 Hr4) as (point&r5&->&Hptl&Hptb&Hr5).
  seg_put 17%nat. cbn [pbind mbind option_bind].
  fill_aead 19%nat aead r6 Haead Hr5 Hr6.
  cbn [mbind option_bind insert list_insert pbind]. unfold write_tail. fields. znat. cbn [take].
  cbn [write_grease mbind option_bind]. unfold write_padding. fields. cbn [Z.eqb negb mbind option_bind].
  cbn iota. unfold resize_ech. fields. decide_cmp. cbn [pbind].
  exists (Drawn greased (replicate 1184 0) (replicate 32 0) point aead config key pay), rest, r6.
  cbn zeta.
  assert (Hd : drawn_ok [239] (Drawn greased (replicate 1184 0) (replicate 32 0) point aead config key pay)).
  { split; cbn; try done.
    - intros role Hrole. by apply greased_ok.
    - apply greased_distinct.
    - apply ek_ok_zero.
    - split; [done|by apply all_bytesb_sound].
    - split; [by rewrite elem_of_cons; left|done]. }
  split; [|done]. rewrite (firefox_wire _ _ _ _ _ _ _ Hrd Hsid Hsh Hd) by done.
  unfold firefox_segs, head_segs, sni_segs.
  cbn [app d_grease d_ek d_mlkem_share d_point d_aead d_config d_ech_key d_ech_payload].
  built_as rest.
Qed.

(** *** Safari *)

Lemma safari_template_segs :
  exists h0 r0 s0 k0 d pad, zlen h0 = 15 /\ zlen r0 = 32 /\ zlen s0 = 32 /\ zlen k0 = 32 /\
    zlen pad = 195 /\ safari_template = mjoin (safari_segs h0 r0 s0 k0 d 0 195 ++ [pad]).
Proof.
  exists (slice safari_template 132 15), (slice safari_template 6 32),
    (slice safari_template 39 32), (slice safari_template 252 32).
  exists (Drawn (template_grease [10794; 31354; 10794; 6682; 14906]) [] [] [] 1 [] [] []),
    (slice safari_template 317 195).
  split_and!; vm_compute; reflexivity.
Qed.

Lemma safari_padding_bytes new_pad :
  0 < new_pad < 65536 ->
  enc_exts [OtherExtension 21 (replicate (Z.to_nat new_pad) 0)] =
  mjoin [be_bytes 2 21; be_bytes 2 new_pad; replicate (Z.to_nat new_pad) 0].
Proof.
  intros Hp. unfold enc_exts, enc_ext. cbn [fmap list_fmap ext_type ext_body].
  rewrite (vec16_len (replicate _ _) new_pad) by (rewrite zlen_replicate; lia).
  flatten. reflexivity.
Qed.

(** The padding area, cut for a padding of [new_pad] bytes. *)
Lemma pad_area_cut (segs : list bytes) (pad rest : bytes) new_pad :
  0 <= new_pad -> 4 + new_pad <= zlen pad + zlen rest ->
  exists t n z rest', zlen t = 2 /\ zlen n = 2 /\ zlen z = new_pad /\
    mjoin (segs ++ [pad; rest]) = mjoin (segs ++ [t; n; z; rest']).
Proof.
  intros Hn Hl. destruct (zlen_split (pad ++ rest) 2) as (t&q&Heq&Ht&Hq); [rewrite zlen_app; lia|].
  rewrite zlen_app in Hq. destruct (zlen_split q 2) as (n&q2&->&Hnn&Hq2); [lia|].
  destruct (zlen_split q2 new_pad) as (z&rest'&->&Hz&_); [lia|].
  exists t, n, z, rest'. split_and!; try done. rewrite !mjoin_app. f_equal. flatten. done.
Qed.

Ltac cut_padding np rest' t n z Ht Hn Hz Hcut :=
  match goal with
  | |- context [store_be16 (mjoin ?L) _ 21] =>
      let A := eval cbv [take] in (take 28%nat L) in
      lazymatch eval cbv [drop] in (drop 28%nat L) with
      | [?pad; ?rest] =>
          destruct (pad_area_cut A pad rest np) as (t & n & z & rest' & Ht & Hn & Hz & Hcut);
            [lia | lia |];
          change (A ++ [pad; rest]) with L in Hcut; rewrite Hcut; cbn [app]
      end
  end.

Lemma safari_built record_length :
  exists d rest r',
    let msg := message (safari_hello record_length host random session_id share d) in
    cloak_clienthello_build_with_grease_seed fuel cloak_clienthello_safari random session_id share
      (c_block host junk) seed out r = Some (Some (zlen msg, msg ++ rest, r')) /\
    drawn_ok [0] d.
Proof.
  open_build Hh Hrd Hsid Hsh Hr1. unfold ech_plan.
  change (tm_ech_payload_candidate_count cloak_clienthello_safari) with 0. decide_cmp.
  set (new_pad := if 512 + (zlen host - 15) - (4 + 191) <? 512 then _ else _).
  set (total := if new_pad =? 0 then _ else _).
  assert (Hnew : 0 <= new_pad <= 300 /\ total = (if new_pad =? 0 then 0 else 4 + new_pad) /\
    safari_padding host = (if 0 <? new_pad then [OtherExtension 21 (replicate (Z.to_nat new_pad) 0)]
                           else [])).
  { unfold total, new_pad, safari_padding.
    destruct (Z.ltb_spec (512 + (zlen host - 15) - (4 + 191)) 512); decide_cmp; [|done].
    split; [case_if; lia|]. split; [done|].
    rewrite (proj2 (Z.ltb_lt 0 _)) by (case_if; lia). do 4 f_equal. case_if; lia. }
  clearbody total new_pad. destruct Hnew as (Hnr&Htotal&Hpadding).
  assert (Htr : 0 <= total <= 304) by (subst total; case_if; lia).
  assert (Hwire : zlen (enc_exts (safari_padding host)) = total).
  { rewrite Hpadding, Htotal. destruct (Z.ltb_spec 0 new_pad); decide_cmp; [|done].
    rewrite safari_padding_bytes by lia. seg_len. }
  cbn [mbind option_bind].
  rewrite (proj2 (Z.ltb_ge (zlen out) _)) by (case_if; lia). decide_cmp. cbn [orb].
  destruct safari_template_segs as (h0&r0&s0&k0&d0&pad0&Hh0&Hr0&Hs0&Hk0&Hp0&Ht).
  unfold safari_segs in Ht. splice Ht 16%nat h0 rest Hrest 9%nat 12%nat 13%nat 15%nat 22%nat.
  cbn [refill_regions pbind]. unfold fill_typed. fields. cbn [Z.eqb negb pbind mbind option_bind].
  cbn iota. unfold write_tail. fields. znat. cbn [take mbind option_bind].
  grease 7%nat. grease 10%nat. grease 18%nat. grease 20%nat. grease 24%nat. grease 26%nat.
  cbn [write_grease mbind option_bind]. unfold write_padding. fields. cbn [Z.eqb negb mbind option_bind].
  cbn iota. patch24 1%nat. patch16 9%nat. unfold resize_ech. fields.
  assert (Hd : drawn_ok [0] (Drawn greased (replicate 1184 0) (replicate 32 0) (replicate 65 0) 1 [0]
    (replicate 32 0) [])).
  { split; cbn; try done; try (split; [done|by apply all_bytesb_sound]).
    - intros role Hrole. by apply greased_ok.
    - apply greased_distinct.
    - apply ek_ok_zero.
    - by left.
    - split; [apply elem_of_cons; left; reflexivity|constructor]. }
  destruct (Z.ltb_spec 0 new_pad) as [Hpos|Hzero].
  - cut_padding new_pad rest' t n z Ht Hn Hz Hcut. rewrite (u16_small new_pad) by lia.
    store16 28%nat. store16 29%nat. seg_put 30%nat. decide_cmp. cbn [pbind].
    eexists _, rest', r. cbn zeta. split; [|exact Hd].
    rewrite (safari_wire _ _ _ _ _ _ _ Hrd Hsid Hsh Hd), Hwire, Hpadding. decide_cmp.
    rewrite safari_padding_bytes, <- mjoin_app by lia. rewrite Htotal. decide_cmp.
    unfold safari_segs, head_segs, sni_segs, grease16. cbn [app d_grease]. built_as rest'.
  - assert (Hz : new_pad = 0) by lia. subst new_pad. cbn in Htotal. subst total.
    cbn [mbind option_bind]. decide_cmp. cbn [pbind].
    eexists _, (pad0 ++ rest), r. cbn zeta. split; [|exact Hd].
    rewrite (safari_wire _ _ _ _ _ _ _ Hrd Hsid Hsh Hd), Hwire, Hpadding. decide_cmp.
    change (enc_exts []) with (@nil Z). rewrite app_nil_r.
    unfold safari_segs, head_segs, sni_segs, grease16. cbn [app d_grease].
    match goal with |- context [mjoin ?L] =>
      let A := eval cbv [take] in (take 28%nat L) in
      replace (mjoin L) with (mjoin (A ++ [pad0 ++ rest])) by (rewrite mjoin_app; flatten; reflexivity)
    end. cbn [app]. built_as (pad0 ++ rest).
Qed.

End built.

(** ** The three browsers *)

Inductive browser := Chrome | Firefox | Safari.

Definition template_of (b : browser) : cloak_clienthello_template_t :=
  match b with
  | Chrome => cloak_clienthello_chrome
  | Firefox => cloak_clienthello_firefox
  | Safari => cloak_clienthello_safari
  end.

Definition hello_of (b : browser) : bytes -> bytes -> bytes -> bytes -> bytes -> drawn -> hello :=
  match b with Chrome => chrome_hello | Firefox => firefox_hello | Safari => safari_hello end.

(** The lengths its ECH payload can have. *)
Definition payload_lens (b : browser) : list Z :=
  match b with Chrome => [144; 176; 208; 240] | Firefox => [239] | Safari => [0] end.

Section browsers.
Context `{X25519Laws} `{P256Laws} `{!KeygenAvailable}.

Lemma browser_carries b rl host random sid share d :
  zlen rl = 2 -> 1 <= zlen host <= 253 /\ all_bytes host -> zlen random = 32 /\ all_bytes random ->
  zlen sid = 32 /\ all_bytes sid -> zlen share = 32 /\ all_bytes share ->
  drawn_ok (payload_lens b) d ->
  carries (hello_of b rl host random sid share d) host random sid share /\
  0 < zlen (message (hello_of b rl host random sid share d)) <= 2054.
Proof.
  intros Hrl Hh Hr Hs Hk Hd. pose proof (do_ech_payload _ _ Hd) as [Hp _].
  pose proof Hd as [_ _ (He&_) [Hm _] [Hpt _] _ [Hc _] [Hek _] _].
  destruct b; cbn [hello_of payload_lens] in *;
    rewrite ?elem_of_cons, elem_of_nil in Hp; (split; [|
      destruct Hh, Hr as [Hr _], Hs as [Hs _], Hk as [Hk _]]).
  - eapply chrome_carries; try done. lia.
  - rewrite (chrome_wire _ _ _ _ _ _ _ Hr Hs Hk Hd). unfold chrome_segs, head_segs, sni_segs, grease16. cbn [app]. seg_len.
  - eapply firefox_carries; try done. lia.
  - rewrite (firefox_wire _ _ _ _ _ _ _ Hr Hs Hk Hd) by lia. unfold firefox_segs, head_segs, sni_segs, grease16. cbn [app]. seg_len.
  - by eapply safari_carries.
  - rewrite (safari_wire _ _ _ _ _ _ _ Hr Hs Hk Hd), zlen_app.
    assert (Hpad : 0 <= zlen (enc_exts (safari_padding host)) <= 300).
    { unfold safari_padding. destruct (Z.ltb_spec (302 + zlen host) 512); [|done].
      rewrite safari_padding_bytes by lia. seg_len. }
    unfold safari_segs, head_segs, sni_segs, grease16. cbn [app]. seg_len.
Qed.

Lemma browser_built b fuel host junk random sid share seed out r rl :
  splice_args fuel host random sid share seed out r ->
  exists d rest r',
    let msg := message (hello_of b rl host random sid share d) in
    cloak_clienthello_build_with_grease_seed fuel (template_of b) random sid share
      (c_block host junk) seed out r = Some (Some (zlen msg, msg ++ rest, r')) /\
    drawn_ok (payload_lens b) d.
Proof.
  intros Hargs. destruct b; cbn [template_of hello_of payload_lens].
  - by apply chrome_built.
  - destruct (firefox_built fuel host junk random sid share seed out r Hargs rl)
      as (d&rest&r'&?&?&_). by exists d, rest, r'.
  - by apply safari_built.
Qed.

(** Inputs of the production entry point. *)
Record build_inputs (fuel : nat) (host random sid share out : bytes) (r : rand) : Prop := {
  bi_host : 1 <= zlen host <= 253 /\ no_nul host /\ all_bytes host;
  bi_random : zlen random = 32 /\ all_bytes random;
  bi_sid : zlen sid = 32 /\ all_bytes sid;
  bi_share : zlen share = 32 /\ all_bytes share;
  bi_out : CLOAK_CLIENTHELLO_MAX_BYTES <= zlen out;
  bi_tape : tape_ok fuel r
}.

Lemma build_ok b fuel host junk random sid share out r rl :
  build_inputs fuel host random sid share out r -> zlen rl = 2 ->
  exists d rest r',
    let h := hello_of b rl host random sid share d in
    cloak_clienthello_build fuel (template_of b) random sid share (c_block host junk) out r =
      Some (Some (zlen (message h), message h ++ rest, r')) /\
    drawn_ok (payload_lens b) d /\ carries h host random sid share /\
    0 < zlen (message h) <= 2054.
Proof.
  intros [(Hh&Hnul&Hhb) Hr Hs Hk Hout Htape] Hrl. unfold cloak_clienthello_build.
  destruct (tape_draw fuel CLOAK_CLIENTHELLO_GREASE_ROLES r Htape ltac:(done))
    as (seed&r1&->&Hsl&Hsb&Hr1).
  assert (Hargs : splice_args fuel host random sid share seed out r1).
  { split; [done|apply Hr|apply Hs|apply Hk|done..]. }
  destruct (browser_built b fuel host junk random sid share seed out r1 rl Hargs)
    as (d&rest&r'&Hb&Hd).
  exists d, rest, r'. cbn zeta in *. split; [exact Hb|]. split; [done|].
  by apply browser_carries.
Qed.

(** The composed hello behind its record header, as the parser sees it. *)
Definition records (n : Z) (msg : bytes) : bytes := [22; 3; 1] ++ be_bytes 2 n ++ msg.

(** A parse result that denotes the four fields. *)
Definition found_fields (data : bytes) (p : cloak_clienthello_parsed_t)
    (host random sid share : bytes) : Prop :=
  denotes data (ch_random p) 32 (Some random) /\
  denotes data (ch_session_id p) (ch_session_id_len p) (Some sid) /\
  ch_session_id_len p = 32 /\
  denotes data (ch_x25519_key_share p) 32 (Some share) /\
  denotes data (ch_sni p) (ch_sni_len p) (Some host).

Lemma browser_parsed b pfuel host random sid share d :
  1 <= zlen host <= 253 /\ all_bytes host -> zlen random = 32 /\ all_bytes random ->
  zlen sid = 32 /\ all_bytes sid -> zlen share = 32 /\ all_bytes share ->
  drawn_ok (payload_lens b) d -> (2059 <= pfuel)%nat ->
  let msg := message (hello_of b [0; 0] host random sid share d) in
  let data := records (zlen msg) msg in
  all_bytes data /\ zlen data = 5 + zlen msg /\
  exists p, cloak_clienthello_parse pfuel data = ok p /\ found_fields data p host random sid share.
Proof.
  intros Hh Hr Hs Hk Hd Hf. cbn zeta. set (n := zlen _).
  assert (Hlen : zlen (records n (message (hello_of b [0; 0] host random sid share d))) = 5 + n).
  { unfold records. rewrite !zlen_app, zlen_be_bytes. change (zlen [22; 3; 1]) with 3. unfold n. lia. }
  destruct (browser_carries b (be_bytes 2 n) host random sid share d eq_refl Hh Hr Hs Hk Hd)
    as [[Hok Hbytes Hrnd Hsid Hshare Hsni] Hn].
  set (h := hello_of b (be_bytes 2 n) host random sid share d) in *.
  assert (Hmsg : message (hello_of b [0; 0] host random sid share d) = message h) by (by destruct b).
  assert (Henc : records n (message h) = enc_hello h) by (rewrite enc_hello_message; by destruct b).
  assert (Hnm : n = zlen (message h)) by (unfold n; by rewrite Hmsg).
  rewrite Hmsg, Henc in *.
  destruct (parse_complete (enc_hello h)) with (fuel := pfuel) (h := h)
    as (p&Hp&D1&D2&D3&D4&D5&_); [lia|done|done|unfold zlen in *; lia|].
  split; [|split; [done|]].
  - rewrite <- Henc. unfold records. rewrite !all_bytes_app.
    split_and!; [by apply all_bytesb_sound|apply be_bytes_all_bytes|done].
  - exists p. split; [exact Hp|]. unfold found_fields. rewrite Hrnd in D1.
    rewrite Hsid in D2, D3. rewrite Hshare in D4. rewrite Hsni in D5.
    destruct Hs as [Hsl _]. rewrite Hsl in D2, D3. done.
Qed.

(** C27: the server reads back what the client put in.  Behind the record
    header the client adds, the composed hello is accepted by the server's
    parser, which finds exactly the random, the session id, the X25519 key
    share and the host name that were given. *)
Theorem clienthello_roundtrip b fuel host junk random sid share out r pfuel :
  build_inputs fuel host random sid share out r -> (2059 <= pfuel)%nat ->
  exists n out' r' parsed,
    cloak_clienthello_build fuel (template_of b) random sid share (c_block host junk) out r =
      Some (Some (n, out', r')) /\
    let data := records n (take (Z.to_nat n) out') in
    cloak_clienthello_parse pfuel data = ok parsed /\
    found_fields data parsed host random sid share.
Proof.
  intros Hin Hf.
  destruct (build_ok b fuel host junk random sid share out r [0; 0] Hin eq_refl)
    as (d&rest&r'&Hb&Hd&_&_).
  destruct Hin as [(Hh&_&Hhb) Hr Hs Hk _ _].
  destruct (browser_parsed b pfuel host random sid share d (conj Hh Hhb) Hr Hs Hk Hd Hf)
    as (_&_&p&Hp&Hden).
  do 4 eexists. split; [exact Hb|]. cbn zeta. rewrite zlen_length, take_app_length.
  split; [exact Hp|exact Hden].
Qed.

End browsers.

(** ** Witnesses *)

Section witnesses.

Definition p256_constant : EvpP256 := {| evp_p256_keygen _ := Some (4 :: replicate 64 6) |}.

#[local] Existing Instances x25519_sum x25519_sum_laws p256_constant.

#[local] Instance p256_constant_laws : P256Laws.
Proof. split. intros seed pub [= <-]. split; [done|by apply all_bytesb_sound]. Qed.

#[local] Instance keygen_available : KeygenAvailable.
Proof. split; intros seed; eexists; reflexivity. Qed.

Definition demo_tape : rand := fun i => Z.of_nat (i mod 5).

Lemma demo_tape_ok : tape_ok 1 demo_tape.
Proof.
  assert (Hlt : forall i, (i mod 5 < 5)%nat) by (intros i; by apply Nat.mod_upper_bound).
  unfold demo_tape. split_and!.
  - intros i. unfold is_byte. specialize (Hlt i). lia.
  - intros pos. exists 0%nat. specialize (Hlt (pos + 4 * 0)%nat). lia.
  - intros pos. exists 0%nat. split; [lia|]. change 15 with (Z.ones 4). rewrite Z.land_ones by done.
    specialize (Hlt (pos + (2 * 0 + 1))%nat). rewrite Z.mod_small; lia.
Qed.

Lemma demo_inputs :
  build_inputs 1 (c_string "example.org") (replicate 32 1) (replicate 32 2) (replicate 32 3)
    (replicate 2200 0) demo_tape.
Proof.
  split.
  - split; [done|]. split; [|by apply all_bytesb_sound]. unfold no_nul. repeat constructor; done.
  - split; [done|by apply all_bytesb_sound].
  - split; [done|by apply all_bytesb_sound].
  - split; [done|by apply all_bytesb_sound].
  - done.
  - apply demo_tape_ok.
Qed.

Lemma clienthello_roundtrip_witness :
  exists n out' r' parsed,
    cloak_clienthello_build 1 cloak_clienthello_safari (replicate 32 1) (replicate 32 2)
      (replicate 32 3) (c_block (c_string "example.org") []) (replicate 2200 0) demo_tape =
      Some (Some (n, out', r')) /\
    cloak_clienthello_parse 2059 (records n (take (Z.to_nat n) out')) = ok parsed.
Proof.
  destruct (clienthello_roundtrip Safari 1 (c_string "example.org") [] (replicate 32 1)
    (replicate 32 2) (replicate 32 3) (replicate 2200 0) demo_tape 2059 demo_inputs (Nat.le_refl _))
    as (n&out'&r'&p&Hb&Hp&_).
  exists n, out', r', p. split; [exact Hb|exact Hp].
Defined.

End witnesses.
