(* ===== verification/Base64.v ===== *)
(** * Base64, standard and URL-safe ([libcloak-common/src/base64.c])

    The two encoders differ in their alphabet only and the two decoders in
    their alphabet and in the unpadded tail the URL-safe one accepts; the model
    keeps the shared code once, as a function of the alphabet.  Characters are
    their codes; a [char] above 127 is negative in C and is rejected either way.
    A pointer is [None] for NULL.  The decoders return the output buffer even
    when they fail, since they may have written to it by then. *)
From S2P Require Import Prelude Fallible.

Definition B64_COMMON62 : bytes :=
  c_string "ABCDEFGHIJKLMNOPQRSTUVWXYZabcdefghijklmnopqrstuvwxyz0123456789".
Definition b64_alphabet : bytes := B64_COMMON62 ++ c_string "+/".
Definition b64url_alphabet : bytes := B64_COMMON62 ++ c_string "-_".

(** ** The values of characters *)

Definition b64_common62_value (c : Z) : Z :=
  if (65 <=? c) && (c <=? 90) then c - 65
  else if (97 <=? c) && (c <=? 122) then c - 97 + 26
  else if (48 <=? c) && (c <=? 57) then c - 48 + 52
  else -1.

Definition b64_value (c : Z) : Z :=
  let v := b64_common62_value c in
  if 0 <=? v then v else if c =? 43 then 62 else if c =? 47 then 63 else -1.

Definition b64url_value (c : Z) : Z :=
  let v := b64_common62_value c in
  if 0 <=? v then v else if c =? 45 then 62 else if c =? 95 then 63 else -1.

(** ** Encoding *)

Definition cloak_base64_encoded_size (in_len : Z) : Z :=
  u64 (u64 (u64 (in_len + 2) / 3 * 4) + 1).

(** [out[o] = alphabet[(v >> s) & 0x3f]]. *)
Definition put_digit (alphabet out : bytes) (o v s : Z) : option bytes :=
  c ← alphabet.[Z.land (Z.shiftr v s) 63]; mem_set out o c.

(** The loop over the complete groups of three bytes; the buffer, [o] and [i]
    when it stops. *)
Fixpoint encode_loop (fuel : nat) (alphabet inp : bytes) (in_len : Z) (out : bytes) (o i : Z)
    : option (bytes * Z * Z) :=
  match fuel with
  | O => None
  | S fuel' =>
      if 3 <=? u64 (in_len - i) then
        b0 ← inp.[i]; b1 ← inp.[i + 1]; b2 ← inp.[i + 2];
        let v := Z.lor (Z.lor (u32 (Z.shiftl b0 16)) (u32 (Z.shiftl b1 8))) b2 in
        out ← put_digit alphabet out o v 18;
        out ← put_digit alphabet out (o + 1) v 12;
        out ← put_digit alphabet out (o + 2) v 6;
        out ← put_digit alphabet out (o + 3) v 0;
        encode_loop fuel' alphabet inp in_len out (o + 4) (i + 3)
      else Some (out, o, i)
  end.

(** The incomplete group at the end. *)
Definition encode_tail (alphabet inp : bytes) (in_len : Z) (out : bytes) (o i : Z)
    : option (bytes * Z) :=
  let rem := u64 (in_len - i) in
  if rem =? 1 then
    b0 ← inp.[i];
    let v := u32 (Z.shiftl b0 16) in
    out ← put_digit alphabet out o v 18;
    out ← put_digit alphabet out (o + 1) v 12;
    out ← mem_set out (o + 2) 61;
    out ← mem_set out (o + 3) 61;
    Some (out, o + 4)
  else if rem =? 2 then
    b0 ← inp.[i]; b1 ← inp.[i + 1];
    let v := Z.lor (u32 (Z.shiftl b0 16)) (u32 (Z.shiftl b1 8)) in
    out ← put_digit alphabet out o v 18;
    out ← put_digit alphabet out (o + 1) v 12;
    out ← put_digit alphabet out (o + 2) v 6;
    out ← mem_set out (o + 3) 61;
    Some (out, o + 4)
  else Some (out, o).

(** The body of both encoders: the return value and the output buffer. *)
Definition encode (alphabet : bytes) (inp : option bytes) (in_len : Z) (out : option bytes)
    (out_cap : Z) : option (Z * option bytes) :=
  match out with
  | None => Some (-1, None)
  | Some buf =>
      if bool_decide (inp = None) && (0 <? in_len) then Some (-1, Some buf)
      else if out_cap <? cloak_base64_encoded_size in_len then Some (-1, Some buf)
      else
        let p := default [] inp in
        '(buf, o, i) ← encode_loop (S (length p)) alphabet p in_len buf 0 0;
        '(buf, o) ← encode_tail alphabet p in_len buf o i;
        buf ← mem_set buf o 0;
        Some (0, Some buf)
  end.

Definition cloak_base64_encode := encode b64_alphabet.
Definition cloak_base64url_encode := encode b64url_alphabet.

(** ** Decoding *)

(** The inner loop over the four characters of a group: their values and the
    number of [=]; [unpadded] is the URL-safe decoder's [rem != 0]. *)
Fixpoint quad_loop (n : nat) (value : Z -> Z) (unpadded : bool) (inp : bytes) (i len j pad : Z)
    (vals : list Z) : parse (list Z * Z) :=
  match n with
  | O => ok (vals, pad)
  | S n' =>
      let! c := byte_at inp (i + j) in
      if c =? 61 then
        if unpadded then malformed
        else if negb (i + 4 =? len) then malformed
        else if j <? 2 then malformed
        else
          let! c3 := (if j =? 2 then byte_at inp (i + 3) else ok 61) in
          if negb (c3 =? 61) then malformed
          else quad_loop n' value unpadded inp i len (j + 1) (pad + 1) (vals ++ [0])
      else if 0 <? pad then malformed
      else
        let v := value c in
        if v <? 0 then malformed
        else quad_loop n' value unpadded inp i len (j + 1) pad (vals ++ [v])
  end.

(** The 24 bits of four values. *)
Definition group_bits (vals : list Z) : option Z :=
  v0 ← vals.[0]; v1 ← vals.[1]; v2 ← vals.[2]; v3 ← vals.[3];
  Some (Z.lor (Z.lor (Z.lor (u32 (Z.shiftl v0 18)) (u32 (Z.shiftl v1 12)))
    (u32 (Z.shiftl v2 6))) v3).

(** The first [n] bytes of a group, stored at [produced]. *)
Definition put_group (out : bytes) (produced n v : Z) : option bytes :=
  out ← (if 0 <? n then mem_set out produced (u8 (Z.land (Z.shiftr v 16) 255)) else Some out);
  out ← (if 1 <? n then mem_set out (produced + 1) (u8 (Z.land (Z.shiftr v 8) 255)) else Some out);
  if 2 <? n then mem_set out (produced + 2) (u8 (Z.land v 255)) else Some out.

(** The loop over the groups: the output buffer, and [produced] unless an
    error was returned. *)
Fixpoint decode_loop (fuel : nat) (value : Z -> Z) (unpadded : bool) (inp : bytes) (i len : Z)
    (out : bytes) (out_cap produced : Z) : option (bytes * option Z) :=
  match fuel with
  | O => None
  | S fuel' =>
      if i <? len then
        match quad_loop 4 value unpadded inp i len 0 0 [] with
        | None => None
        | Some None => Some (out, None)
        | Some (Some (vals, pad)) =>
            v ← group_bits vals;
            let n := u64 (3 - pad) in
            if u64 (out_cap - produced) <? n then Some (out, None)
            else
              out ← put_group out produced n v;
              decode_loop fuel' value unpadded inp (i + 4) len out out_cap (produced + n)
        end
      else Some (out, Some produced)
  end.

(** Return value, output buffer and [*out_len] when it was set. *)
Definition decode_result (r : bytes * option Z) : Z * bytes * option Z :=
  match r.2 with None => (-1, r.1, None) | Some n => (0, r.1, Some n) end.

Definition cloak_base64_decode (inp : option bytes) (out : option bytes) (out_cap : Z)
    : option (Z * bytes * option Z) :=
  match inp with
  | None => Some (-1, default [] out, None)
  | Some p =>
      if bool_decide (out = None) && (0 <? out_cap) then Some (-1, [], None)
      else
        len ← strlen p;
        if negb (len mod 4 =? 0) then Some (-1, default [] out, None)
        else
          r ← decode_loop (S (length p)) b64_value false p 0 len (default [] out) out_cap 0;
          Some (decode_result r)
  end.

(** The values of the [rem] characters after the last complete group. *)
Fixpoint tail_loop (n : nat) (inp : bytes) (pos : Z) (vals : list Z) : parse (list Z) :=
  match n with
  | O => ok vals
  | S n' =>
      let! c := byte_at inp pos in
      let v := b64url_value c in
      if v <? 0 then malformed else tail_loop n' inp (pos + 1) (vals ++ [v])
  end.

(** The unpadded tail of the URL-safe form. *)
Definition decode_tail (inp : bytes) (full_len rem : Z) (out : bytes) (out_cap produced : Z)
    : option (bytes * option Z) :=
  if rem =? 0 then Some (out, Some produced)
  else
    match tail_loop (Z.to_nat rem) inp full_len [] with
    | None => None
    | Some None => Some (out, None)
    | Some (Some vals) =>
        v ← group_bits (vals ++ replicate (4 - Z.to_nat rem) 0);
        let n := u64 (rem - 1) in
        if u64 (out_cap - produced) <? n then Some (out, None)
        else out ← put_group out produced n v; Some (out, Some (produced + n))
    end.

Definition cloak_base64url_decode (inp : option bytes) (out : option bytes) (out_cap : Z)
    : option (Z * bytes * option Z) :=
  match inp with
  | None => Some (-1, default [] out, None)
  | Some p =>
      if bool_decide (out = None) && (0 <? out_cap) then Some (-1, [], None)
      else
        len ← strlen p;
        let rem := len mod 4 in
        if rem =? 1 then Some (-1, default [] out, None)
        else
          let full_len := len - rem in
          r ← decode_loop (S (length p)) b64url_value (negb (rem =? 0)) p 0 full_len
                (default [] out) out_cap 0;
          match r with
          | (out, None) => Some (-1, out, None)
          | (out, Some produced) =>
              r ← decode_tail p full_len rem out out_cap produced; Some (decode_result r)
          end
  end.

(** ** Reference encoder and decoder *)

(** A digit of the alphabet. *)
Definition digit (alphabet : bytes) (v : Z) : Z := default 0 alphabet.[v mod 64].

Definition digits4 (alphabet : bytes) (v : Z) : bytes :=
  [digit alphabet (v / 262144); digit alphabet (v / 4096); digit alphabet (v / 64);
   digit alphabet v].

(** RFC 4648: groups of 24 bits, four digits each, padded with [=]. *)
Fixpoint base64 (alphabet l : bytes) : bytes :=
  match l with
  | a :: b :: c :: l' => digits4 alphabet (be_val [a; b; c]) ++ base64 alphabet l'
  | [a; b] => take 3 (digits4 alphabet (be_val [a; b; 0])) ++ [61]
  | [a] => take 2 (digits4 alphabet (be_val [a; 0; 0])) ++ [61; 61]
  | [] => []
  end.

(** The bytes of a group of four values. *)
Definition group_bytes (v0 v1 v2 v3 : Z) : bytes :=
  be_bytes 3 (v0 * 262144 + v1 * 4096 + v2 * 64 + v3).

Definition good (value : Z -> Z) (c : Z) : bool := negb (c =? 61) && (0 <=? value c).

(** One group; only the last one may be padded. *)
Definition unbase64_group (value : Z -> Z) (padded : bool) (a b c d : Z) : option bytes :=
  if good value a && good value b then
    if c =? 61 then
      if padded && (d =? 61) then Some (take 1 (group_bytes (value a) (value b) 0 0)) else None
    else if good value c then
      if d =? 61 then
        if padded then Some (take 2 (group_bytes (value a) (value b) (value c) 0)) else None
      else if good value d then Some (group_bytes (value a) (value b) (value c) (value d))
      else None
    else None
  else None.

Fixpoint unbase64 (value : Z -> Z) (padded : bool) (s : bytes) : option bytes :=
  match s with
  | [] => Some []
  | a :: b :: c :: d :: s' =>
      g ← unbase64_group value (padded && bool_decide (s' = [])) a b c d;
      gs ← unbase64 value padded s';
      Some (g ++ gs)
  | _ => None
  end.

(** The unpadded tail: two or three digits. *)
Definition unbase64_tail (value : Z -> Z) (s : bytes) : option bytes :=
  match s with
  | [] => Some []
  | [a; b] =>
      if good value a && good value b then Some (take 1 (group_bytes (value a) (value b) 0 0))
      else None
  | [a; b; c] =>
      if good value a && good value b && good value c
      then Some (take 2 (group_bytes (value a) (value b) (value c) 0)) else None
  | _ => None
  end.

(** The URL-safe form: complete groups, then an unpadded tail. *)
Definition unbase64url (s : bytes) : option bytes :=
  let n := (4 * (length s / 4))%nat in
  g ← unbase64 b64url_value (bool_decide (drop n s = [])) (take n s);
  t ← unbase64_tail b64url_value (drop n s);
  Some (g ++ t).

Example encode_hi :
  cloak_base64_encode (Some [104; 105; 33; 10]) 4 (Some (replicate 10 7)) 10 =
    Some (0, Some [97; 71; 107; 104; 67; 103; 61; 61; 0; 7]).
Proof. reflexivity. Qed.

Example decode_hi :
  cloak_base64url_decode (Some [97; 71; 107; 104; 67; 103; 0; 7]) (Some (replicate 5 0)) 5 =
    Some (0, [104; 105; 33; 10; 0], Some 4).
Proof. reflexivity. Qed.

(** ** Digits and groups *)

Section alphabet.
Context (alphabet : bytes) (Halpha : zlen alphabet = 64).

Lemma digit_lookup n : 0 <= n -> alphabet.[Z.land n 63] = Some (digit alphabet n).
Proof.
  intros Hn. unfold digit. change 63 with (Z.ones 6). rewrite Z.land_ones by lia.
  change (2 ^ 6) with 64. pose proof (Z.mod_pos_bound n 64 ltac:(lia)).
  by destruct (mem_get_Some alphabet (n mod 64)) as [x ->]; [lia|].
Qed.

Lemma put_digit_app d x r o v s :
  o = zlen d -> 0 <= v -> 0 <= s ->
  put_digit alphabet (d ++ x :: r) o v s = Some (d ++ digit alphabet (v / 2 ^ s) :: r).
Proof.
  intros Ho Hv Hs. unfold put_digit. rewrite Z.shiftr_div_pow2 by done.
  rewrite digit_lookup by (apply Z.div_pos; [done|apply Z.pow_pos_nonneg; lia]).
  cbn [mbind option_bind]. by apply mem_set_app.
Qed.

Lemma snoc_cons (d : bytes) x r : d ++ x :: r = (d ++ [x]) ++ r.
Proof. by rewrite <- app_assoc. Qed.

(** Store the next character and move on. *)
Ltac put_one :=
  first [rewrite put_digit_app by (try done; try lia; zlia)
        | rewrite mem_set_app by (try done; try lia; zlia)];
  cbn [mbind option_bind]; try (rewrite snoc_cons).

Lemma encode_group d x0 x1 x2 x3 r o v (k : bytes -> option (bytes * Z * Z)) :
  o = zlen d -> 0 <= v ->
  (out ← put_digit alphabet (d ++ x0 :: x1 :: x2 :: x3 :: r) o v 18;
   out ← put_digit alphabet out (o + 1) v 12;
   out ← put_digit alphabet out (o + 2) v 6;
   out ← put_digit alphabet out (o + 3) v 0; k out) = k ((d ++ digits4 alphabet v) ++ r).
Proof.
  intros Ho Hv. do 4 put_one. f_equal. rewrite <- !app_assoc. cbn [app]. unfold digits4.
  by rewrite Z.div_1_r.
Qed.

Lemma bits3 b0 b1 b2 :
  all_bytes [b0; b1; b2] ->
  Z.lor (Z.lor (u32 (Z.shiftl b0 16)) (u32 (Z.shiftl b1 8))) b2 = be_val [b0; b1; b2].
Proof.
  rewrite !all_bytes_cons. unfold is_byte. intros (?&?&?&_).
  rewrite !Z.shiftl_mul_pow2 by lia. usimpl.
  rewrite <- (Z.shiftl_mul_pow2 b0) by lia. rewrite lor_shiftl_add by lia.
  replace (b0 * 2 ^ 16 + b1 * 2 ^ 8) with (Z.shiftl (b0 * 256 + b1) 8)
    by (rewrite Z.shiftl_mul_pow2; lia).
  rewrite lor_shiftl_add by lia. unfold be_val; cbn; lia.
Qed.

Lemma drop_S_of n (r : bytes) x r' : drop n r = x :: r' -> drop (S n) r = r'.
Proof. revert r. induction n as [|n IH]; intros [|y r] H; try done;
  [by injection H as -> ->; cbn; rewrite drop_0|by apply (IH r)]. Qed.

Lemma mem_get_at (pre : bytes) x l i : i = zlen pre -> (pre ++ x :: l).[i] = Some x.
Proof. intros ->. rewrite mem_get_app_r by lia. by rewrite Z.sub_diag. Qed.

Lemma base64_step a b c l : base64 alphabet (a :: b :: c :: l) =
  digits4 alphabet (be_val [a; b; c]) ++ base64 alphabet l.
Proof. done. Qed.

Lemma length_base64_le l : zlen (base64 alphabet l) = (zlen l + 2) / 3 * 4.
Proof.
  remember (length l) as n eqn:Hn. assert (Hle : (length l <= n)%nat) by lia. clear Hn.
  revert l Hle. induction n as [|n IH]; intros l Hle.
  { by destruct l; [|cbn in Hle; lia]. }
  destruct l as [|a [|b [|c l]]]; try done. rewrite base64_step, zlen_app, IH by (cbn in Hle; lia).
  change (zlen (digits4 _ _)) with 4. rewrite !zlen_cons.
  replace (1 + (1 + (1 + zlen l)) + 2) with ((zlen l + 2) + 1 * 3) by lia.
  rewrite Z.div_add by lia. lia.
Qed.

Lemma length_base64_nat l : length (base64 alphabet l) = Z.to_nat ((zlen l + 2) / 3 * 4).
Proof. rewrite <- length_base64_le. unfold zlen. lia. Qed.

(** The incomplete group at the end of the input. *)
Lemma encode_tail_run pre l d r :
  (length l < 3)%nat -> all_bytes l -> zlen (pre ++ l) < 9223372036854775808 ->
  zlen (base64 alphabet l) <= zlen r ->
  encode_tail alphabet (pre ++ l) (zlen (pre ++ l)) (d ++ r) (zlen d) (zlen pre) =
  Some ((d ++ base64 alphabet l) ++ drop (length (base64 alphabet l)) r,
        zlen d + zlen (base64 alphabet l)).
Proof.
  intros Hf Hb Hlen Hr. rewrite zlen_app in *. zlen_pos. unfold encode_tail.
  replace (u64 (zlen pre + zlen l - zlen pre)) with (zlen l) by (rewrite u64_small; lia).
  destruct l as [|a [|b [|c l]]]; [..|cbn in Hf; lia].
  - change (base64 alphabet []) with (@nil Z). change (zlen []) with 0. cbn [Z.eqb length].
    by rewrite app_nil_r, Z.add_0_r, drop_0.
  - change (zlen [a]) with 1. cbn [Z.eqb Pos.eqb]. rewrite mem_get_at by done.
    destruct r as [|x0 [|x1 [|x2 [|x3 r]]]]; try (by cbn in Hr).
    rewrite length_base64_nat, length_base64_le. cbn [mbind option_bind].
    apply all_bytes_cons in Hb as [Ha _]. unfold is_byte in Ha.
    rewrite u32_small by (rewrite Z.shiftl_mul_pow2; lia). rewrite Z.shiftl_mul_pow2 by lia.
    do 4 put_one. change (drop (Z.to_nat ((zlen [a] + 2) / 3 * 4)) (x0 :: x1 :: x2 :: x3 :: r)) with r.
    f_equal. f_equal. rewrite <- !app_assoc. cbn [app]. f_equal. unfold digits4, be_val. cbn.
    repeat f_equal; lia.
  - change (zlen [a; b]) with 2. cbn [Z.eqb Pos.eqb].
    rewrite (mem_get_at pre a [b] (zlen pre)) by done.
    replace (pre ++ [a; b]) with ((pre ++ [a]) ++ [b]) by (by rewrite <- app_assoc).
    rewrite (mem_get_at (pre ++ [a]) b [] (zlen pre + 1)) by zlia.
    destruct r as [|x0 [|x1 [|x2 [|x3 r]]]]; try (by cbn in Hr).
    rewrite length_base64_nat, length_base64_le. cbn [mbind option_bind].
    assert (Hb3 : all_bytes [a; b; 0]).
    { change [a; b; 0] with ([a; b] ++ [0]). apply all_bytes_snoc. by split. }
    pose proof (bits3 a b 0 Hb3) as Hbits. rewrite Z.lor_0_r in Hbits. rewrite Hbits.
    pose proof (be_val_range [a; b; 0] Hb3) as Hv.
    do 4 put_one. change (drop (Z.to_nat ((zlen [a; b] + 2) / 3 * 4)) (x0 :: x1 :: x2 :: x3 :: r)) with r.
    f_equal. f_equal. rewrite <- !app_assoc. done.
Qed.

(** The loop and the tail of the encoder on [l], in the middle of the input
    and of the output. *)
Lemma encode_run fuel pre l d r :
  (length l < fuel)%nat -> all_bytes l -> zlen (pre ++ l) < 9223372036854775808 ->
  zlen (base64 alphabet l) < zlen r ->
  ('(buf, o, i) ← encode_loop fuel alphabet (pre ++ l) (zlen (pre ++ l)) (d ++ r) (zlen d) (zlen pre);
   '(buf, o) ← encode_tail alphabet (pre ++ l) (zlen (pre ++ l)) buf o i;
   mem_set buf o 0) =
  Some (d ++ base64 alphabet l ++ 0 :: drop (S (length (base64 alphabet l))) r).
Proof.
  revert pre l d r. induction fuel as [|fuel IH]; intros pre l d r Hf Hb Hlen Hr; [lia|].
  assert (Hrem : u64 (zlen (pre ++ l) - zlen pre) = zlen l).
  { rewrite zlen_app in *. zlen_pos. rewrite u64_small; lia. }
  cbn [encode_loop]. rewrite Hrem.
  destruct (decide (length l < 3)%nat) as [Hs|Hs].
  - rewrite (proj2 (Z.leb_gt 3 (zlen l))) by (unfold zlen; lia). cbn [mbind option_bind].
    rewrite encode_tail_run by (done || lia). cbn [mbind option_bind].
    destruct (drop (length (base64 alphabet l)) r) as [|x r'] eqn:Hd.
    { apply (f_equal length) in Hd. rewrite length_drop in Hd. unfold zlen in Hr. cbn in Hd. lia. }
    rewrite mem_set_app by zlia. rewrite <- app_assoc. f_equal. f_equal. f_equal. f_equal.
    rewrite (drop_S_of _ _ _ _ Hd). done.
  - destruct l as [|a [|b [|c l]]]; try (cbn in Hs; lia).
    rewrite (proj2 (Z.leb_le 3 (zlen (a :: b :: c :: l)))) by (unfold zlen; cbn; lia).
    assert (all_bytes [a; b; c] /\ all_bytes l) as [Hb3 Hbl].
    { rewrite !all_bytes_cons in *. pose proof all_bytes_nil. tauto. }
    pose proof (be_val_range _ Hb3) as Hv.
    rewrite (mem_get_at pre a (b :: c :: l) (zlen pre)) by done. rewrite (snoc_cons pre a (b :: c :: l)).
    rewrite (mem_get_at (pre ++ [a]) b (c :: l) (zlen pre + 1)) by zlia. rewrite (snoc_cons (pre ++ [a]) b (c :: l)).
    rewrite (mem_get_at ((pre ++ [a]) ++ [b]) c l (zlen pre + 2)) by zlia. rewrite (snoc_cons ((pre ++ [a]) ++ [b]) c l).
    cbn [mbind option_bind]. rewrite bits3 by done.
    rewrite base64_step, zlen_app in Hr. change (zlen (digits4 _ _)) with 4 in Hr. zlen_pos.
    destruct r as [|x0 [|x1 [|x2 [|x3 r]]]]; try (rewrite ?zlen_cons, ?zlen_nil in Hr; lia).
    rewrite !zlen_cons in Hr. rewrite encode_group by (done || lia).
    replace (zlen d + 4) with (zlen (d ++ digits4 alphabet (be_val [a; b; c])))
      by (rewrite zlen_app; done).
    replace (zlen pre + 3) with (zlen (((pre ++ [a]) ++ [b]) ++ [c])) by zlia.
    rewrite IH; [|cbn in Hf; lia|done|by rewrite <- !app_assoc|lia].
    rewrite base64_step, <- !app_assoc. done.
Qed.

(** The encoder stores the reference encoding and its terminator, and
    nothing else; a buffer that is too small is left as it was. *)
Lemma encode_exact l buf :
  all_bytes l -> zlen l < 9223372036854775808 -> zlen buf < 9223372036854775808 ->
  encode alphabet (Some l) (zlen l) (Some buf) (zlen buf) =
  if zlen buf <=? zlen (base64 alphabet l) then Some (-1, Some buf)
  else Some (0, Some (base64 alphabet l ++ 0 :: drop (S (length (base64 alphabet l))) buf)).
Proof.
  intros Hb Hl Hbuf. zlen_pos. unfold encode, cloak_base64_encoded_size. cbn [default].
  assert (0 <= (zlen l + 2) / 3 * 4 < 18446744073709551000) by dlia.
  rewrite (u64_small (zlen l + 2)) by lia. rewrite (u64_small ((zlen l + 2) / 3 * 4)) by lia.
  rewrite u64_small by lia.
  rewrite length_base64_le. rewrite (bool_decide_eq_false_2 (Some l = None)) by done. cbn [andb].
  destruct (Z.leb_spec (zlen buf) ((zlen l + 2) / 3 * 4)).
  { by decide_cmp. }
  decide_cmp. pose proof (encode_run (S (length l)) [] l [] buf ltac:(lia) Hb Hl) as Hrun.
  rewrite length_base64_le in Hrun. specialize (Hrun ltac:(lia)). cbn [app] in Hrun.
  change (zlen []) with 0 in Hrun.
  destruct (encode_loop _ _ _ _ _ _ _) as [[[buf1 o1] i1]|]; [|done].
  cbn [mbind option_bind] in *.
  destruct (encode_tail _ _ _ _ _ _) as [[buf2 o2]|]; [|done]. cbn [mbind option_bind] in *.
  by rewrite Hrun.
Qed.

End alphabet.

(** ** Decoding *)

Section decoder.
Context (value : Z -> Z) (Hvalue : forall c, value c < 64).

Lemma good_eq c : good value c = true <-> c <> 61 /\ 0 <= value c.
Proof. unfold good. rewrite andb_true_iff, negb_true_iff, Z.eqb_neq, Z.leb_le. done. Qed.

(** The values and the padding of a group, against the reference decoder. *)
Definition quad_spec (padded : bool) (a b c d : Z) (r : option (list Z * Z)) : Prop :=
  match r with
  | None => unbase64_group value padded a b c d = None
  | Some (vals, pad) => exists v0 v1 v2 v3,
      vals = [v0; v1; v2; v3] /\ 0 <= v0 < 64 /\ 0 <= v1 < 64 /\ 0 <= v2 < 64 /\ 0 <= v3 < 64 /\
      0 <= pad <= 2 /\
      unbase64_group value padded a b c d =
        Some (take (Z.to_nat (3 - pad)) (group_bytes v0 v1 v2 v3))
  end.

Lemma byte_at_get inp i c : inp.[i] = Some c -> byte_at inp i = ok c.
Proof. unfold byte_at. by intros ->. Qed.

Lemma quad_loop_spec unpadded inp i len a b c d :
  inp.[i] = Some a -> inp.[i + 1] = Some b -> inp.[i + 2] = Some c -> inp.[i + 3] = Some d ->
  exists r, quad_loop 4 value unpadded inp i len 0 0 [] = Some r /\
    quad_spec (negb unpadded && (i + 4 =? len)) a b c d r.
Proof.
  intros Ha Hb Hc Hd. unfold quad_spec, unbase64_group.
  cbn [quad_loop]. rewrite !Z.add_0_r. change (0 + 1) with 1. change (1 + 1) with 2.
  change (2 + 1) with 3.
  rewrite (byte_at_get _ _ _ Ha), (byte_at_get _ _ _ Hb), (byte_at_get _ _ _ Hc),
    (byte_at_get _ _ _ Hd).
  cbn [pbind ok Z.ltb Z.compare Pos.compare Pos.compare_cont Z.eqb Pos.eqb app].
  pose proof (Hvalue a). pose proof (Hvalue b). pose proof (Hvalue c). pose proof (Hvalue d).
  assert (Hgood : forall x, good value x = negb (x =? 61) && negb (value x <? 0)).
  { intros x. unfold good. f_equal. rewrite Z.leb_antisym. done. }
  rewrite !Hgood.
  destruct (Z.eqb_spec a 61) as [->|]; cbn [negb andb].
  { destruct unpadded; cbn [negb]; [(eexists; split; [reflexivity|done])|]. destruct (i + 4 =? len); (eexists; split; [reflexivity|done]). }
  destruct (Z.ltb_spec (value a) 0); cbn [negb andb]; [(eexists; split; [reflexivity|done])|].
  destruct (Z.eqb_spec b 61) as [->|]; cbn [negb andb].
  { destruct unpadded; cbn [negb]; [(eexists; split; [reflexivity|done])|]. destruct (i + 4 =? len); (eexists; split; [reflexivity|done]). }
  destruct (Z.ltb_spec (value b) 0); cbn [negb andb]; [(eexists; split; [reflexivity|done])|].
  destruct (Z.eqb_spec c 61) as [->|]; cbn [negb andb].
  { destruct unpadded; cbn [negb]; [(eexists; split; [reflexivity|done])|]. destruct (i + 4 =? len); [|(eexists; split; [reflexivity|done])]. cbn [negb andb].
    destruct (Z.eqb_spec d 61) as [->|]; cbn [negb andb]; [|(eexists; split; [reflexivity|done])].
    eexists; split; [reflexivity|]. cbn. eexists _, _, _, _. split_and!; try done; lia. }
  destruct (Z.ltb_spec (value c) 0); cbn [negb andb]; [(eexists; split; [reflexivity|done])|].
  destruct (Z.eqb_spec d 61) as [->|]; cbn [negb andb].
  { destruct unpadded; cbn [negb andb]; [(eexists; split; [reflexivity|done])|]. destruct (i + 4 =? len); [|(eexists; split; [reflexivity|done])].
    eexists; split; [reflexivity|]. cbn. eexists _, _, _, _. split_and!; try done; lia. }
  destruct (Z.ltb_spec (value d) 0); cbn [negb andb]; [(eexists; split; [reflexivity|done])|].
  eexists; split; [reflexivity|]. cbn. eexists _, _, _, _. split_and!; try done; lia.
Qed.

Lemma group_bits_val v0 v1 v2 v3 :
  0 <= v0 < 64 -> 0 <= v1 < 64 -> 0 <= v2 < 64 -> 0 <= v3 < 64 ->
  group_bits [v0; v1; v2; v3] = Some (v0 * 262144 + v1 * 4096 + v2 * 64 + v3).
Proof.
  intros. unfold group_bits. mem_eval. f_equal.
  rewrite !Z.shiftl_mul_pow2 by lia. usimpl.
  rewrite <- (Z.shiftl_mul_pow2 v0) by lia. rewrite lor_shiftl_add by lia.
  replace (v0 * 2 ^ 18 + v1 * 2 ^ 12) with (Z.shiftl (v0 * 64 + v1) 12)
    by (rewrite Z.shiftl_mul_pow2; lia).
  rewrite lor_shiftl_add by lia.
  replace ((v0 * 64 + v1) * 2 ^ 12 + v2 * 2 ^ 6) with (Z.shiftl ((v0 * 64 + v1) * 64 + v2) 6)
    by (rewrite Z.shiftl_mul_pow2; lia).
  rewrite lor_shiftl_add by lia. lia.
Qed.

Lemma low_byte v : u8 (Z.land v 255) = v mod 256.
Proof.
  change 255 with (Z.ones 8). rewrite Z.land_ones by lia. change (2 ^ 8) with 256.
  apply u8_small. apply Z.mod_pos_bound. lia.
Qed.

Lemma put_group_run d r n v :
  0 <= n <= 3 -> n <= zlen r ->
  put_group (d ++ r) (zlen d) n v =
  Some (d ++ take (Z.to_nat n) (be_bytes 3 v) ++ drop (Z.to_nat n) r).
Proof.
  intros Hn Hr. unfold put_group. rewrite !low_byte, !Z.shiftr_div_pow2 by lia.
  change (2 ^ 16) with (256 * 256). rewrite <- Z.div_div by lia. change (2 ^ 8) with 256.
  cbn [be_bytes app].
  assert (n = 0 \/ n = 1 \/ n = 2 \/ n = 3) as [->|[->|[->| ->]]] by lia; cbn [Z.ltb Z.compare Pos.compare Pos.compare_cont mbind option_bind];
    znat; cbn [take].
  - by rewrite drop_0.
  - destruct r as [|x0 r]; [by cbn in Hr|]. rewrite mem_set_app by done. done.
  - destruct r as [|x0 [|x1 r]]; try (by cbn in Hr). rewrite mem_set_app by done.
    cbn [mbind option_bind]. rewrite (snoc_cons d _ (x1 :: r)), mem_set_app by zlia.
    cbn [mbind option_bind]. by rewrite <- app_assoc.
  - destruct r as [|x0 [|x1 [|x2 r]]]; try (by cbn in Hr). rewrite mem_set_app by done.
    cbn [mbind option_bind]. rewrite (snoc_cons d _ (x1 :: x2 :: r)), mem_set_app by zlia.
    cbn [mbind option_bind]. rewrite (snoc_cons (d ++ _) _ (x2 :: r)), mem_set_app by zlia.
    by rewrite <- !app_assoc.
Qed.

(** What decoding [s] into the free part [r] of the buffer must give. *)
Definition decoded (s : option bytes) (d r : bytes) (res : bytes * option Z) : Prop :=
  zlen res.1 = zlen (d ++ r) /\
  match s with
  | Some g =>
      if zlen g <=? zlen r then res = (d ++ g ++ drop (length g) r, Some (zlen d + zlen g))
      else res.2 = None
  | None => res.2 = None
  end.

Lemma group_length padded a b c d g :
  unbase64_group value padded a b c d = Some g -> 1 <= zlen g <= 3.
Proof. unfold unbase64_group. repeat case_match; try done; intros [= <-]; by cbn. Qed.

Lemma decode_loop_run fuel unpadded pre s tl d r :
  (length s < fuel)%nat -> (4 | zlen s) -> zlen (pre ++ s ++ tl) < 9223372036854775808 ->
  zlen (d ++ r) < 9223372036854775808 ->
  exists res,
    decode_loop fuel value unpadded (pre ++ s ++ tl) (zlen pre) (zlen (pre ++ s)) (d ++ r)
      (zlen (d ++ r)) (zlen d) = Some res /\
    decoded (unbase64 value (negb unpadded) s) d r res.
Proof.
  revert pre s d r. induction fuel as [|fuel IH]; intros pre s d r Hf Hdiv Hlen Hbuf; [lia|].
  cbn [decode_loop]. rewrite !zlen_app in *. zlen_pos.
  destruct s as [|a s].
  { change (zlen []) with 0. decide_cmp. eexists; split; [done|]. split; [done|].
    cbn [unbase64]. change (zlen []) with 0. decide_cmp. cbn [length app].
    by rewrite drop_0, Z.add_0_r. }
  destruct Hdiv as [k Hk].
  destruct s as [|b [|c [|e s]]]; try (unfold zlen in Hk; cbn in Hk; lia).
  rewrite !zlen_cons in *. zlen_pos. decide_cmp.
  assert (Hinp : pre ++ (a :: b :: c :: e :: s) ++ tl = (((pre ++ [a]) ++ [b]) ++ [c]) ++ e :: s ++ tl)
    by (by rewrite <- !app_assoc).
  destruct (quad_loop_spec unpadded (pre ++ (a :: b :: c :: e :: s) ++ tl) (zlen pre)
    (zlen pre + (1 + (1 + (1 + (1 + zlen s))))) a b c e) as (q&->&Hq).
  { apply mem_get_at. done. }
  { cbn [app]. rewrite (snoc_cons pre a), mem_get_at; [done|zlia]. }
  { cbn [app]. rewrite (snoc_cons pre a), (snoc_cons (pre ++ [a]) b), mem_get_at; [done|zlia]. }
  { rewrite Hinp. apply mem_get_at. zlia. }
  assert (Hlast : (zlen pre + 4 =? zlen pre + (1 + (1 + (1 + (1 + zlen s))))) = bool_decide (s = [])).
  { destruct s; [|rewrite bool_decide_eq_false_2 by done; apply Z.eqb_neq; zlia].
    apply Z.eqb_eq. zlia. }
  rewrite Hlast in Hq. cbn [unbase64].
  destruct q as [[vals pad]|]; cbn [quad_spec] in Hq.
  2:{ rewrite Hq. cbn [mbind option_bind]. eexists; split; [done|].
      split; done. }
  destruct Hq as (v0&v1&v2&v3&->&?&?&?&?&?&Hq).
  pose proof (group_length _ _ _ _ _ _ Hq) as Hg. rewrite Hq. cbn [mbind option_bind].
  set (g := take (Z.to_nat (3 - pad)) (group_bytes v0 v1 v2 v3)) in *.
  assert (Hgl : zlen g = 3 - pad).
  { subst g. unfold group_bytes. apply zlen_take. unfold zlen. rewrite length_be_bytes. lia. }
  rewrite group_bits_val by done. cbn [mbind option_bind].
  rewrite (u64_small (3 - pad)) by lia. rewrite (u64_small (_ - zlen d)) by lia.
  replace (zlen d + zlen r - zlen d) with (zlen r) by lia.
  destruct (Z.ltb_spec (zlen r) (3 - pad)) as [Hfull|Hfits].
  { eexists; split; [done|]. split; [done|].
    destruct (unbase64 value (negb unpadded) s) as [gs|]; cbn [mbind option_bind]; [|done].
    rewrite zlen_app. zlen_pos. by decide_cmp. }
  rewrite put_group_run by lia. cbn [mbind option_bind].
  change (take (Z.to_nat (3 - pad)) (be_bytes 3 _)) with g.
  assert (Hr' : zlen (drop (Z.to_nat (3 - pad)) r) = zlen r - (3 - pad)) by (apply zlen_drop; lia).
  destruct (IH ((((pre ++ [a]) ++ [b]) ++ [c]) ++ [e]) s (d ++ g) (drop (Z.to_nat (3 - pad)) r))
    as (res&Hres&Hdec).
  { cbn in Hf. lia. }
  { exists (k - 1). lia. }
  { rewrite !zlen_app, ?zlen_cons, ?zlen_nil in *. lia. }
  { rewrite !zlen_app in *. lia. }
  rewrite !zlen_app, Hr', Hgl in Hres. rewrite ?zlen_cons, ?zlen_nil in Hres.
  rewrite <- !app_assoc in Hres. cbn [app] in Hres.
  replace (zlen pre + (1 + 0) + (1 + 0) + (1 + 0) + (1 + 0)) with (zlen pre + 4) in Hres by lia.
  replace (zlen d + (3 - pad) + (zlen r - (3 - pad))) with (zlen d + zlen r) in Hres by lia.
  replace (zlen pre + 4 + zlen s) with (zlen pre + (1 + (1 + (1 + (1 + zlen s))))) in Hres by lia.
  exists res. split; [exact Hres|].
  destruct Hdec as [Hl Hdec]. split; [rewrite Hl, !zlen_app, Hr'; lia|].
  destruct (unbase64 value (negb unpadded) s) as [gs|]; cbn [mbind option_bind]; [|done].
  rewrite Hr' in Hdec. rewrite zlen_app, Hgl.
  destruct (Z.leb_spec (zlen gs) (zlen r - (3 - pad))); decide_cmp; [|done].
  rewrite Hdec, <- !app_assoc, zlen_app, drop_drop, length_app. unfold zlen in *. f_equal; [|f_equal; lia].
  do 4 f_equal. lia.
Qed.

End decoder.

(** ** The two decoders *)

Lemma common62_lt c : b64_common62_value c < 62.
Proof. unfold b64_common62_value. repeat case_match; bool_hyps; lia. Qed.

Lemma b64_value_lt c : b64_value c < 64.
Proof. unfold b64_value. pose proof (common62_lt c). repeat case_match; lia. Qed.

Lemma b64url_value_lt c : b64url_value c < 64.
Proof. unfold b64url_value. pose proof (common62_lt c). repeat case_match; lia. Qed.

Lemma unbase64_div4 value padded s g : unbase64 value padded s = Some g -> (4 | zlen s).
Proof.
  remember (length s) as n eqn:Hn. assert (Hle : (length s <= n)%nat) by lia. clear Hn.
  revert s g Hle. induction n as [|n IH]; intros s g Hle.
  { destruct s; [|cbn in Hle; lia]. exists 0. done. }
  destruct s as [|a [|b [|c [|d s]]]]; try done; [by exists 0|]. cbn [unbase64].
  destruct (unbase64_group _ _ _ _ _ _); [|done]. cbn [mbind option_bind].
  destruct (unbase64 value padded s) eqn:E; [|done]. intros _.
  destruct (IH s _ ltac:(cbn in Hle; lia) E) as [k Hk]. exists (k + 1).
  rewrite !zlen_cons. lia.
Qed.

(** The contract of a decoder, given what its argument stands for: it is
    memory safe, writes the decoded bytes at the start of the buffer and
    nothing after them, and fails when the string is not an encoding or the
    buffer is too small. *)
Definition decodes (dec : option bytes -> option bytes -> Z -> option (Z * bytes * option Z))
    (meaning : bytes -> option bytes) : Prop :=
  forall s junk buf,
    no_nul s -> zlen (c_block s junk) < 9223372036854775808 -> zlen buf < 9223372036854775808 ->
    exists ret buf' out_len,
      dec (Some (c_block s junk)) (Some buf) (zlen buf) = Some (ret, buf', out_len) /\
      zlen buf' = zlen buf /\
      match meaning s with
      | Some g =>
          if zlen g <=? zlen buf
          then ret = 0 /\ buf' = g ++ drop (length g) buf /\ out_len = Some (zlen g)
          else ret = -1 /\ out_len = None
      | None => ret = -1 /\ out_len = None
      end.

Lemma std_decodes : decodes cloak_base64_decode (unbase64 b64_value true).
Proof.
  intros s junk buf Hs Hsize Hbuf. unfold cloak_base64_decode. cbn [from_option id].
  rewrite (bool_decide_eq_false_2 (Some buf = None)) by done. cbn [andb].
  rewrite strlen_c_block by done. cbn [mbind option_bind]. unfold c_block in *.
  rewrite zlen_app in Hsize. zlen_pos.
  destruct (Z.eqb_spec (zlen s mod 4) 0) as [Hm|Hm]; cbn [negb].
  - apply Z.mod_divide in Hm; [|lia].
    destruct (decode_loop_run b64_value b64_value_lt (S (length (s ++ 0 :: junk))) false [] s
      (0 :: junk) [] buf) as (res&Hrun&Hl&Hdec);
      [rewrite length_app; lia|done|cbn [app]; rewrite zlen_app; lia|done|].
    cbn [app negb] in *. change (zlen []) with 0 in *. rewrite Hrun. cbn [mbind option_bind].
    destruct res as [buf' [n|]]; cbn [decode_result fst snd] in *;
      eexists _, _, _; (split; [done|split; [done|]]);
      destruct (unbase64 b64_value true s) as [g|]; try done;
      destruct (zlen g <=? zlen buf); try done.
    by injection Hdec as -> ->.
  - eexists _, _, _; split; [done|split; [done|]].
    destruct (unbase64 b64_value true s) as [g|] eqn:E; [|done].
    apply unbase64_div4 in E. apply Z.mod_divide in E; lia.
Qed.

(** The tail of the URL-safe form. *)
Lemma good_url c : good b64url_value c = negb (b64url_value c <? 0).
Proof.
  unfold good. rewrite Z.leb_antisym. destruct (Z.eqb_spec c 61) as [->|]; [done|].
  cbn [negb andb]. done.
Qed.

Lemma tail_loop_spec t pre tl pos vals :
  pos = zlen pre ->
  tail_loop (length t) (pre ++ t ++ tl) pos vals =
  if forallb (good b64url_value) t then ok (vals ++ (b64url_value <$> t)) else malformed.
Proof.
  revert pre pos vals. induction t as [|c t IH]; intros pre pos vals ->.
  { cbn. by rewrite app_nil_r. }
  cbn [length tail_loop app forallb]. rewrite (byte_at_get _ _ c) by (by apply mem_get_at).
  cbn [pbind ok]. rewrite good_url. destruct (Z.ltb_spec (b64url_value c) 0); [done|].
  cbn [negb andb]. rewrite snoc_cons, IH by zlia. by rewrite <- app_assoc.
Qed.

(** The end of [decode_tail], when the digits are good. *)
Lemma tail_group_run v0 v1 v2 n d r :
  0 <= v0 < 64 -> 0 <= v1 < 64 -> 0 <= v2 < 64 -> 0 <= n <= 2 ->
  zlen (d ++ r) < 9223372036854775808 ->
  exists res,
    (v ← group_bits [v0; v1; v2; 0];
     if u64 (zlen (d ++ r) - zlen d) <? n then Some (d ++ r, None)
     else out ← put_group (d ++ r) (zlen d) n v; Some (out, Some (zlen d + n))) = Some res /\
    decoded (Some (take (Z.to_nat n) (group_bytes v0 v1 v2 0))) d r res.
Proof.
  intros H0 H1 H2 Hn Hbuf. rewrite group_bits_val by (done || lia). cbn [mbind option_bind].
  rewrite zlen_app in *. zlen_pos. rewrite u64_small by lia.
  replace (zlen d + zlen r - zlen d) with (zlen r) by lia.
  assert (Hg : zlen (take (Z.to_nat n) (group_bytes v0 v1 v2 0)) = n).
  { apply zlen_take. unfold group_bytes, zlen. rewrite length_be_bytes. lia. }
  unfold decoded. rewrite Hg.
  destruct (Z.ltb_spec (zlen r) n).
  - eexists; split; [done|]. by decide_cmp.
  - rewrite put_group_run by lia. cbn [mbind option_bind]. eexists; split; [done|].
    decide_cmp. split; [|cbn [group_bytes]; f_equal; f_equal; f_equal; f_equal; unfold zlen in Hg; lia].
    cbn [fst]. rewrite !zlen_app, zlen_drop by lia. change (zlen (take (Z.to_nat n) (be_bytes 3 _)))
      with (zlen (take (Z.to_nat n) (group_bytes v0 v1 v2 0))). lia.
Qed.

Lemma decode_tail_run pre t tl d r :
  zlen t < 4 -> zlen t <> 1 -> zlen (d ++ r) < 9223372036854775808 ->
  exists res,
    decode_tail (pre ++ t ++ tl) (zlen pre) (zlen t) (d ++ r) (zlen (d ++ r)) (zlen d) = Some res /\
    decoded (unbase64_tail b64url_value t) d r res.
Proof.
  intros Ht Ht1 Hbuf. unfold decode_tail. rewrite zlen_length, tail_loop_spec by done.
  destruct t as [|a [|b [|c [|e t]]]]; [..|rewrite !zlen_cons in Ht; zlia]; [|done|..].
  - change (zlen []) with 0. cbn [Z.eqb]. eexists; split; [done|]. split; [done|].
    cbn [unbase64_tail]. zlen_pos. change (zlen []) with 0. decide_cmp.
    cbn [length app]. by rewrite drop_0, Z.add_0_r.
  - change (zlen [a; b]) with 2. cbn [Z.eqb forallb unbase64_tail]. rewrite andb_true_r.
    destruct (good b64url_value a && good b64url_value b) eqn:E; [|eexists; split; done].
    apply andb_true_iff in E as [[_ Ha]%good_eq [_ Hb]%good_eq].
    pose proof (b64url_value_lt a). pose proof (b64url_value_lt b).
    apply (tail_group_run _ _ 0 1); [lia..|done].
  - change (zlen [a; b; c]) with 3. cbn [Z.eqb forallb unbase64_tail].
    rewrite andb_true_r, andb_assoc.
    destruct (good b64url_value a && good b64url_value b && good b64url_value c) eqn:E;
      [|eexists; split; done].
    apply andb_true_iff in E as [E [_ Hc]%good_eq].
    apply andb_true_iff in E as [[_ Ha]%good_eq [_ Hb]%good_eq].
    pose proof (b64url_value_lt a). pose proof (b64url_value_lt b). pose proof (b64url_value_lt c).
    apply (tail_group_run _ _ _ 2); [lia..|done].
Qed.

Lemma url_decodes : decodes cloak_base64url_decode unbase64url.
Proof.
  intros s junk buf Hs Hsize Hbuf. unfold cloak_base64url_decode. cbn [from_option id].
  rewrite (bool_decide_eq_false_2 (Some buf = None)) by done. cbn [andb].
  rewrite strlen_c_block by done. cbn [mbind option_bind]. unfold c_block in *.
  assert (Hsplit : exists s1 s2, s = s1 ++ s2 /\ (4 | zlen s1) /\ zlen s2 = zlen s mod 4 /\
    unbase64url s = (g ← unbase64 b64url_value (bool_decide (s2 = [])) s1;
                     t ← unbase64_tail b64url_value s2; Some (g ++ t))).
  { pose proof (Nat.div_mod_eq (length s) 4) as Hdm. pose proof (Nat.mod_upper_bound (length s) 4).
    exists (take (4 * (length s / 4)) s), (drop (4 * (length s / 4)) s). split_and!.
    - by rewrite take_drop.
    - exists (Z.of_nat (length s / 4)). unfold zlen. rewrite length_take. lia.
    - unfold zlen. rewrite length_drop. change 4 with (Z.of_nat 4). rewrite <- Nat2Z.inj_mod. lia.
    - done. }
  destruct Hsplit as (s1&s2&->&Hdiv&Hm&->). rewrite <- Hm. pose proof (Z.mod_pos_bound (zlen (s1 ++ s2)) 4).
  rewrite <- app_assoc in *. rewrite !zlen_app in *. zlen_pos.
  replace (zlen s1 + zlen s2 - zlen s2) with (zlen s1) by lia.
  destruct (Z.eqb_spec (zlen s2) 1) as [Hone|Hone].
  { destruct s2 as [|x [|y s2]]; [done| |rewrite !zlen_cons in Hone; zlia].
    eexists _, _, _; split; [done|split; [done|]].
    by destruct (unbase64 b64url_value _ s1). }
  assert (Hpad : negb (negb (zlen s2 =? 0)) = bool_decide (s2 = [])).
  { rewrite negb_involutive. destruct s2; [done|].
    rewrite bool_decide_eq_false_2 by done. apply Z.eqb_neq. zlia. }
  destruct (decode_loop_run b64url_value b64url_value_lt (S (length (s1 ++ s2 ++ 0 :: junk)))
    (negb (zlen s2 =? 0)) [] s1 (s2 ++ 0 :: junk) [] buf) as (res&Hrun&Hl&Hdec);
    [rewrite length_app; lia|done|cbn [app]; rewrite !zlen_app; lia|done|].
  cbn [app] in *. rewrite Hpad in Hdec. change (zlen []) with 0 in *. rewrite Hrun.
  cbn [mbind option_bind].
  destruct (unbase64 b64url_value (bool_decide (s2 = [])) s1) as [g|] eqn:Eg.
  2:{ destruct res as [buf' o]. cbn in Hdec, Hl. subst o. by eexists _, _, _. }
  destruct (Z.leb_spec (zlen g) (zlen buf)) as [Hfit|Hfull].
  2:{ destruct res as [buf' o]. cbn in Hdec, Hl. subst o. eexists _, _, _; split; [done|split; [done|]].
      cbn [mbind option_bind]. destruct (unbase64_tail _ _) as [t|]; [|done].
      cbn [mbind option_bind]. rewrite zlen_app. zlen_pos. by decide_cmp. }
  subst res. cbn [mbind option_bind].
  destruct (decode_tail_run s1 s2 (0 :: junk) g (drop (length g) buf)) as (res&Htail&Hl'&Hdec').
  { lia. } { lia. }
  { cbn in Hl. by rewrite Hl. }
  cbn [fst] in Hl. rewrite Hl in Htail, Hl'. rewrite Z.add_0_l, Htail. cbn [mbind option_bind].
  assert (Hrest : zlen (drop (length g) buf) = zlen buf - zlen g).
  { rewrite <- zlen_length. apply zlen_drop. pose proof (zlen_nonneg g). lia. }
  rewrite Hrest in Hdec'.
  destruct (unbase64_tail b64url_value s2) as [t|]; cbn [mbind option_bind].
  2:{ destruct res as [buf' o]. cbn in Hdec', Hl'. subst o. by eexists _, _, _. }
  rewrite zlen_app.
  destruct (Z.leb_spec (zlen t) (zlen buf - zlen g)); decide_cmp.
  - subst res. eexists _, _, _; split; [done|]. split; [done|]. split_and!; [done| |done].
    by rewrite <- app_assoc, drop_drop, length_app.
  - destruct res as [buf' o]. cbn in Hdec', Hl'. subst o. by eexists _, _, _.
Qed.

(** ** Round trips *)

(** A codec whose digits [value] decodes. *)
Definition inverse_digits (alphabet : bytes) (value : Z -> Z) : bool :=
  forallb (fun n => let c := digit alphabet n in (value c =? n) && negb (c =? 61)) (seqZ 0 64).

Section roundtrip.
Context (alphabet : bytes) (value : Z -> Z).
Context (Hinv : inverse_digits alphabet value = true).

Lemma value_digit v : value (digit alphabet v) = v mod 64 /\ good value (digit alphabet v) = true.
Proof.
  unfold inverse_digits in Hinv. rewrite forallb_forall in Hinv.
  pose proof (Z.mod_pos_bound v 64 ltac:(lia)). specialize (Hinv (v mod 64)). rewrite <- list_elem_of_In, elem_of_seqZ in Hinv.
  specialize (Hinv ltac:(lia)). cbn zeta in Hinv.
  unfold digit in Hinv. rewrite Z.mod_mod in Hinv by lia. fold (digit alphabet v) in Hinv.
  apply andb_true_iff in Hinv as [H1%Z.eqb_eq H2%negb_true_iff%Z.eqb_neq].
  split; [done|]. apply good_eq. split; [done|]. rewrite H1. lia.
Qed.

Lemma group_bytes_digits v :
  group_bytes (v / 262144 mod 64) (v / 4096 mod 64) (v / 64 mod 64) (v mod 64) = be_bytes 3 v.
Proof.
  unfold group_bytes.
  replace (v / 262144 mod 64 * 262144 + v / 4096 mod 64 * 4096 + v / 64 mod 64 * 64 + v mod 64)
    with (v mod 16777216) by dlia.
  cbn [be_bytes app]. f_equal; [dlia|]. f_equal; [dlia|]. f_equal. dlia.
Qed.

Lemma good_neq c : good value c = true -> (c =? 61) = false.
Proof. intros [? _]%good_eq. by apply Z.eqb_neq. Qed.

Lemma unbase64_full padded v s :
  unbase64 value padded (digits4 alphabet v ++ s) =
  gs ← unbase64 value padded s; Some (be_bytes 3 v ++ gs).
Proof.
  unfold digits4. cbn [app unbase64]. unfold unbase64_group.
  destruct (value_digit (v / 262144)) as [-> ->]. destruct (value_digit (v / 4096)) as [-> ->].
  destruct (value_digit (v / 64)) as [-> Hc]. destruct (value_digit v) as [-> Hd].
  rewrite (good_neq _ Hc), (good_neq _ Hd), Hc, Hd. cbn [andb mbind option_bind].
  by rewrite group_bytes_digits.
Qed.

Lemma be_bytes_3 a b c : all_bytes [a; b; c] -> be_bytes 3 (be_val [a; b; c]) = [a; b; c].
Proof. intros H. by apply (be_bytes_be_val [a; b; c]). Qed.

(** A number with zero low bits has zero low digits. *)
Lemma unbase64_pad2 a : is_byte a ->
  unbase64 value true (take 2 (digits4 alphabet (be_val [a; 0; 0])) ++ [61; 61]) = Some [a].
Proof.
  intros Ha. unfold is_byte in Ha. unfold digits4. cbn [take app unbase64]. unfold unbase64_group.
  set (v := be_val [a; 0; 0]). assert (Hv : v = a * 65536) by (subst v; unfold be_val; cbn; lia).
  destruct (value_digit (v / 262144)) as [-> ->]. destruct (value_digit (v / 4096)) as [-> ->].
  cbn [andb Z.eqb Pos.eqb bool_decide]. rewrite bool_decide_eq_true_2 by done. cbn [andb mbind option_bind app].
  f_equal. unfold group_bytes.
  replace (v / 262144 mod 64 * 262144 + v / 4096 mod 64 * 4096 + 0 * 64 + 0) with v.
  2:{ clearbody v. subst v. dlia. }
  cbn [be_bytes app take]. clearbody v. subst v. f_equal. dlia.
Qed.

Lemma unbase64_pad1 a b : is_byte a -> is_byte b ->
  unbase64 value true (take 3 (digits4 alphabet (be_val [a; b; 0])) ++ [61]) = Some [a; b].
Proof.
  intros Ha Hb. unfold is_byte in Ha, Hb. unfold digits4. cbn [take app unbase64]. unfold unbase64_group.
  set (v := be_val [a; b; 0]).
  assert (Hv : v = a * 65536 + b * 256) by (subst v; unfold be_val; cbn; lia).
  destruct (value_digit (v / 262144)) as [-> ->]. destruct (value_digit (v / 4096)) as [-> ->].
  destruct (value_digit (v / 64)) as [-> Hc]. rewrite (good_neq _ Hc), Hc.
  cbn [andb Z.eqb Pos.eqb]. rewrite bool_decide_eq_true_2 by done. cbn [andb mbind option_bind app].
  f_equal. unfold group_bytes.
  replace (v / 262144 mod 64 * 262144 + v / 4096 mod 64 * 4096 + v / 64 mod 64 * 64 + 0) with v.
  2:{ clearbody v. subst v. dlia. }
  cbn [be_bytes app take]. clearbody v. subst v. f_equal; [dlia|]. f_equal. dlia.
Qed.

Lemma unbase64_base64 l : all_bytes l -> unbase64 value true (base64 alphabet l) = Some l.
Proof.
  remember (length l) as n eqn:Hn. assert (Hle : (length l <= n)%nat) by lia. clear Hn.
  revert l Hle. induction n as [|n IH]; intros l Hle Hb.
  { by destruct l; [|cbn in Hle; lia]. }
  destruct l as [|a [|b [|c l]]]; rewrite ?all_bytes_cons in Hb.
  - done.
  - apply unbase64_pad2, Hb.
  - apply unbase64_pad1; apply Hb.
  - rewrite base64_step, unbase64_full, IH by (cbn in Hle; lia || apply Hb).
    cbn [mbind option_bind]. rewrite be_bytes_3; [done|].
    rewrite !all_bytes_cons. pose proof all_bytes_nil. tauto.
Qed.

Lemma digit_not_nul v : Forall (fun c => c <> 0) alphabet -> zlen alphabet = 64 -> digit alphabet v <> 0.
Proof.
  intros Ha Hl. unfold digit. pose proof (Z.mod_pos_bound v 64 ltac:(lia)).
  destruct (mem_get_Some alphabet (v mod 64)) as [c Hc]; [lia|]. rewrite Hc. cbn [from_option id].
  apply mem_get_inv in Hc as [_ Hc]. by eapply Forall_lookup_1 in Ha.
Qed.

Lemma base64_no_nul l : Forall (fun c => c <> 0) alphabet -> zlen alphabet = 64 -> no_nul (base64 alphabet l).
Proof.
  intros Ha Hal. remember (length l) as n eqn:Hn. assert (Hle : (length l <= n)%nat) by lia. clear Hn.
  revert l Hle. induction n as [|n IH]; intros l Hle.
  { destruct l; [constructor|cbn in Hle; lia]. }
  destruct l as [|a [|b [|c l]]].
  - constructor.
  - unfold digits4; cbn. repeat constructor; try done; by apply digit_not_nul.
  - unfold digits4; cbn. repeat constructor; try done; by apply digit_not_nul.
  - rewrite base64_step. apply Forall_app; split.
    + unfold digits4. repeat constructor; by apply digit_not_nul.
    + apply IH. cbn in Hle. lia.
Qed.
End roundtrip.

(** ** The codecs *)

Lemma b64_inverse : inverse_digits b64_alphabet b64_value = true.
Proof. vm_compute. reflexivity. Qed.

Lemma b64url_inverse : inverse_digits b64url_alphabet b64url_value = true.
Proof. vm_compute. reflexivity. Qed.

Lemma unbase64url_padded s :
  (4 | zlen s) -> unbase64url s = unbase64 b64url_value true s.
Proof.
  intros [k Hk]. unfold unbase64url.
  assert (Hn : (4 * (length s / 4))%nat = length s).
  { pose proof (Nat.div_mod_eq (length s) 4). unfold zlen in Hk.
    assert (length s mod 4 = 0)%nat; [|lia].
    apply Nat2Z.inj. rewrite Nat2Z.inj_mod. rewrite Hk. by apply Z.mod_mul. }
  rewrite Hn, firstn_all, drop_all, bool_decide_eq_true_2 by done.
  destruct (unbase64 _ _ s) as [g|]; cbn [mbind option_bind unbase64_tail]; [|done].
  by rewrite app_nil_r.
Qed.

(** The two codecs: standard ([false]) and URL-safe ([true]). *)
Definition encoder (url : bool) :=
  if url then cloak_base64url_encode else cloak_base64_encode.
Definition decoder (url : bool) :=
  if url then cloak_base64url_decode else cloak_base64_decode.

(** What a codec's decoder makes of a string. *)
Definition meaning (url : bool) : bytes -> option bytes :=
  if url then unbase64url else unbase64 b64_value true.

Lemma decoder_decodes url : decodes (decoder url) (meaning url).
Proof. destruct url; [apply url_decodes|apply std_decodes]. Qed.

Definition alphabet_of (url : bool) : bytes := if url then b64url_alphabet else b64_alphabet.

Lemma alphabet_ok url : zlen (alphabet_of url) = 64 /\ no_nul (alphabet_of url).
Proof.
  split; [by destruct url|]. apply Forall_forall. intros c Hc%list_elem_of_In.
  assert (H : forallb (fun c => negb (c =? 0)) (alphabet_of url) = true) by (by destruct url).
  rewrite forallb_forall in H. by apply H, negb_true_iff, Z.eqb_neq in Hc.
Qed.

Lemma meaning_base64 url l : all_bytes l -> meaning url (base64 (alphabet_of url) l) = Some l.
Proof.
  intros Hb. destruct url; cbn [meaning alphabet_of].
  - rewrite unbase64url_padded; [by apply unbase64_base64, Hb; apply b64url_inverse|].
    rewrite length_base64_le by done. by apply Z.divide_factor_r.
  - by apply unbase64_base64, Hb; apply b64_inverse.
Qed.

(** Both decoders are exact: on any C string, in any buffer, they access
    nothing out of bounds, accept exactly the strings that RFC 4648 gives a
    meaning (complete groups of digits, padding only where the last group needs
    it, and for the URL-safe form also an unpadded tail), return the decoded
    bytes and their number, leave the rest of the buffer alone, and fail
    without an output length when the string has no meaning or the buffer is
    too small. *)
Theorem base64_decode_exact url s junk buf :
  no_nul s -> zlen (c_block s junk) < 9223372036854775808 -> zlen buf < 9223372036854775808 ->
  exists ret buf' out_len,
    decoder url (Some (c_block s junk)) (Some buf) (zlen buf) = Some (ret, buf', out_len) /\
    zlen buf' = zlen buf /\
    match meaning url s with
    | Some g =>
        if zlen g <=? zlen buf
        then ret = 0 /\ buf' = g ++ drop (length g) buf /\ out_len = Some (zlen g)
        else ret = -1 /\ out_len = None
    | None => ret = -1 /\ out_len = None
    end.
Proof. apply decoder_decodes. Qed.

(** Encoding into a buffer of [cloak_base64_encoded_size] bytes or more and
    decoding the result gives the original bytes back, for both alphabets. *)
Theorem base64_roundtrip url l buf out :
  all_bytes l -> zlen l < 4611686018427387904 -> zlen buf < 4611686018427387904 ->
  zlen out < 4611686018427387904 ->
  cloak_base64_encoded_size (zlen l) <= zlen buf -> zlen l <= zlen out ->
  exists text,
    encoder url (Some l) (zlen l) (Some buf) (zlen buf) = Some (0, Some text) /\
    decoder url (Some text) (Some out) (zlen out) =
      Some (0, l ++ drop (length l) out, Some (zlen l)).
Proof.
  intros Hb Hl Hbuf Hout Hcap Hfit. destruct (alphabet_ok url) as [Ha Hnn]. zlen_pos.
  assert (Hq : 0 <= (zlen l + 2) / 3 * 4 < 9223372036854775000) by dlia.
  unfold cloak_base64_encoded_size in Hcap.
  rewrite (u64_small (zlen l + 2)) in Hcap by lia.
  rewrite (u64_small ((zlen l + 2) / 3 * 4)) in Hcap by lia. rewrite u64_small in Hcap by lia.
  assert (Henc : encoder url (Some l) (zlen l) (Some buf) (zlen buf) =
    encode (alphabet_of url) (Some l) (zlen l) (Some buf) (zlen buf)) by (by destruct url).
  rewrite Henc, encode_exact by (done || lia). rewrite length_base64_le by done. decide_cmp.
  eexists; split; [done|].
  set (text := base64 (alphabet_of url) l).
  change (text ++ 0 :: drop (S (length text)) buf) with (c_block text (drop (S (length text)) buf)).
  destruct (decoder_decodes url text (drop (S (length text)) buf) out) as (ret&buf'&n&->&_&Hm).
  - by apply base64_no_nul.
  - unfold c_block. rewrite zlen_app, zlen_cons. subst text. rewrite length_base64_le by done.
    unfold zlen. rewrite length_drop. unfold zlen in *. lia.
  - lia.
  - subst text. rewrite meaning_base64 in Hm by done.
    rewrite (proj2 (Z.leb_le _ _)) in Hm by lia. destruct Hm as (->&->&->). done.
Qed.

Lemma base64_decode_exact_witness :
  exists buf', decoder true (Some (c_block [97; 71; 107; 104; 67; 103] [])) (Some [1; 2; 3; 4; 5]) 5 =
    Some (0, buf', Some 4) /\ take 4 buf' = [104; 105; 33; 10].
Proof.
  destruct (base64_decode_exact true [97; 71; 107; 104; 67; 103] [] [1; 2; 3; 4; 5])
    as (ret&buf'&n&E&_&Hm).
  - by repeat constructor.
  - by vm_compute.
  - by vm_compute.
  - change (meaning true [97; 71; 107; 104; 67; 103]) with (Some [104; 105; 33; 10]) in Hm.
    destruct Hm as (->&->&->). eexists. by split; [exact E|].
Defined.

Lemma base64_roundtrip_witness :
  exists text, cloak_base64_encode (Some [255; 0; 7; 9]) 4 (Some (replicate 12 1)) 12 = Some (0, Some text) /\
    cloak_base64_decode (Some text) (Some [0; 0; 0; 0]) 4 = Some (0, [255; 0; 7; 9], Some 4).
Proof.
  apply (base64_roundtrip false [255; 0; 7; 9] (replicate 12 1) [0; 0; 0; 0]).
  - apply all_bytesb_sound. reflexivity.
  - reflexivity.
  - reflexivity.
  - reflexivity.
  - by vm_compute.
  - by vm_compute.
Defined.
