(* ===== verification/WsFrame.v ===== *)
(** * The WebSocket frame codec ([libcloak-mux/src/ws_frame.c])

    The header parser runs on whatever a socket accumulated, so it answers
    "malformed" (-1), "not complete yet" (0) or a header.  [ssize_t] results
    are modelled in the monad of [Fallible]: [malformed] is -1, [ok None] is 0
    with [*out] untouched and [ok (Some h)] is a header whose [wh_header_len]
    is the value returned. *)
From S2P Require Import Prelude Fallible Random.

Definition WS_FIN_BIT : Z := 128.
Definition WS_RSV1_BIT : Z := 64.
Definition WS_RSV2_BIT : Z := 32.
Definition WS_RSV3_BIT : Z := 16.
Definition WS_OPCODE_MASK : Z := 15.
Definition WS_MASK_BIT : Z := 128.
Definition WS_LEN7_MASK : Z := 127.
Definition WS_LEN7_U16 : Z := 126.
Definition WS_LEN7_U64 : Z := 127.
Definition WS_U64_LEN_HIGH_BIT : Z := 9223372036854775808.
Definition CLOAK_WS_FRAME_MAX_HEADER_LEN : Z := 14.
Definition CLOAK_WS_FRAME_MAX_CONTROL_PAYLOAD : Z := 125.

Definition CLOAK_WS_OP_CONTINUATION : Z := 0.
Definition CLOAK_WS_OP_TEXT : Z := 1.
Definition CLOAK_WS_OP_BINARY : Z := 2.
Definition CLOAK_WS_OP_CLOSE : Z := 8.
Definition CLOAK_WS_OP_PING : Z := 9.
Definition CLOAK_WS_OP_PONG : Z := 10.

Record cloak_ws_frame_header_t := WsHeader {
  wh_opcode : Z;
  wh_fin : Z;
  wh_masked : Z;
  wh_mask_key : bytes;
  wh_payload_len : Z;
  wh_header_len : Z
}.

Definition ws_opcode_is_known (op : Z) : bool :=
  (op =? CLOAK_WS_OP_CONTINUATION) || (op =? CLOAK_WS_OP_TEXT) || (op =? CLOAK_WS_OP_BINARY) ||
  (op =? CLOAK_WS_OP_CLOSE) || (op =? CLOAK_WS_OP_PING) || (op =? CLOAK_WS_OP_PONG).

Definition ws_opcode_is_control (op : Z) : bool := negb (Z.land op 8 =? 0).

Definition ws_load_be16 (p : bytes) (off : Z) : parse Z :=
  let! b0 := byte_at p off in
  let! b1 := byte_at p (off + 1) in
  ok (u16 (Z.lor (Z.shiftl b0 8) b1)).

Definition ws_load_be64 (p : bytes) (off : Z) : parse Z :=
  match load_be64_at p off with None => None | Some v => ok v end.

Definition ws_store_be16 (v : Z) : bytes := [u8 (Z.shiftr v 8); u8 v].
Definition ws_store_be64 (v : Z) : bytes := store_be_loop 8 v.

(** ** Parsing *)

(** The payload length once the extended bytes are there. *)
Definition ws_payload_len (buf : bytes) (ext_len len7 : Z) : parse Z :=
  if ext_len =? 2 then ws_load_be16 buf 2
  else if ext_len =? 8 then
    let! n := ws_load_be64 buf 2 in
    if negb (Z.land n WS_U64_LEN_HIGH_BIT =? 0) then malformed else ok n
  else ok len7.

(** The extended length, the mask key and the result. *)
Definition ws_parse_rest (buf : bytes) (b0 b1 : Z) : parse (option cloak_ws_frame_header_t) :=
  let len := zlen buf in
  let op := Z.land b0 WS_OPCODE_MASK in
  let len7 := Z.land b1 WS_LEN7_MASK in
  let ext_len := if len7 =? WS_LEN7_U16 then 2 else if len7 =? WS_LEN7_U64 then 8 else 0 in
  if len <? 2 + ext_len then ok None
  else
    let! payload_len := ws_payload_len buf ext_len len7 in
    let masked := negb (Z.land b1 WS_MASK_BIT =? 0) in
    let need := 2 + ext_len + (if masked then 4 else 0) in
    if len <? need then ok None
    else
      match (if masked then buf.[2 + ext_len +: 4] else Some (replicate 4 0)) with
      | None => None
      | Some key =>
          ok (Some (WsHeader op (b2z (negb (Z.land b0 WS_FIN_BIT =? 0))) (b2z masked) key
                      payload_len need))
      end.

(** The checks on the two fixed bytes. *)
Definition ws_two_bytes_bad (b0 b1 : Z) : bool :=
  let op := Z.land b0 WS_OPCODE_MASK in
  let len7 := Z.land b1 WS_LEN7_MASK in
  negb (Z.land b0 (Z.lor (Z.lor WS_RSV1_BIT WS_RSV2_BIT) WS_RSV3_BIT) =? 0) ||
  negb (ws_opcode_is_known op) ||
  ws_opcode_is_control op &&
    ((CLOAK_WS_FRAME_MAX_CONTROL_PAYLOAD <? len7) || (Z.land b0 WS_FIN_BIT =? 0)).

Definition cloak_ws_frame_parse_header (buf : option bytes) (out_null : bool)
    : parse (option cloak_ws_frame_header_t) :=
  match buf with
  | None => malformed
  | Some buf =>
      if out_null then malformed
      else if zlen buf <? 2 then ok None
      else
        let! b0 := byte_at buf 0 in
        let! b1 := byte_at buf 1 in
        if ws_two_bytes_bad b0 b1 then malformed else ws_parse_rest buf b0 b1
  end.

(** ** Masking *)

Fixpoint ws_mask_loop (n : nat) (i : Z) (payload key : bytes) (pos : Z) : option bytes :=
  match n with
  | O => Some payload
  | S n' =>
      b ← payload.[i]; k ← key.[Z.land (u64 (pos + i)) 3];
      payload ← mem_set payload i (Z.lxor b k);
      ws_mask_loop n' (i + 1) payload key pos
  end.

(** The next position and the payload. *)
Definition cloak_ws_frame_mask (payload : option bytes) (key : option bytes) (pos : Z)
    : option (Z * option bytes) :=
  match payload, key with
  | Some p, Some k =>
      if zlen p =? 0 then Some (Z.land pos 3, payload)
      else
        p' ← ws_mask_loop (length p) 0 p k pos;
        Some (Z.land (u64 (pos + zlen p)) 3, Some p')
  | _, _ => Some (Z.land pos 3, payload)
  end.

(** ** Writing *)

(** The bytes [write_header] stores, and the value it returns. *)
Definition ws_header_stores (buf : bytes) (op fin : Z) (mask_key : option bytes)
    (payload_len ext_len : Z) : option bytes :=
  buf ← mem_set buf 0
          (u8 (Z.lor (if negb (fin =? 0) then WS_FIN_BIT else 0) (Z.land op WS_OPCODE_MASK)));
  '(b1, buf) ←
    (if ext_len =? 0 then Some (u8 payload_len, buf)
     else if ext_len =? 2 then
       buf ← buf.[2 <- ws_store_be16 (u16 payload_len)]; Some (WS_LEN7_U16, buf)
     else buf ← buf.[2 <- ws_store_be64 payload_len]; Some (WS_LEN7_U64, buf));
  match mask_key with
  | None => mem_set buf 1 b1
  | Some key =>
      k ← key.[0 +: 4];
      buf ← buf.[2 + ext_len <- k];
      mem_set buf 1 (u8 (Z.lor b1 WS_MASK_BIT))
  end.

(** The value returned, and the buffer. *)
Definition cloak_ws_frame_write_header (buf : option bytes) (op fin : Z)
    (mask_key : option bytes) (payload_len : Z) : option (Z * option bytes) :=
  match buf with
  | None => Some (-1, None)
  | Some b =>
      if negb (ws_opcode_is_known op) then Some (-1, buf)
      else if ws_opcode_is_control op &&
              ((CLOAK_WS_FRAME_MAX_CONTROL_PAYLOAD <? payload_len) || (fin =? 0))
      then Some (-1, buf)
      else if negb (Z.land payload_len WS_U64_LEN_HIGH_BIT =? 0) then Some (-1, buf)
      else
        let ext_len := if payload_len <=? 125 then 0 else if payload_len <=? 65535 then 2 else 8 in
        let need := 2 + ext_len + (if bool_decide (mask_key = None) then 0 else 4) in
        if zlen b <? need then Some (-1, buf)
        else
          b' ← ws_header_stores b op fin mask_key payload_len ext_len;
          Some (need, Some b')
  end.

Definition cloak_ws_frame_mask_key (r : rand) : bytes * rand := cloak_random_bytes 4 r.

(** ** The grammar of headers *)

(** The three encodings of a length; only writers must take the shortest. *)
Inductive length_form := Len7 | Len16 | Len64.

Definition form_len7 (form : length_form) (n : Z) : Z :=
  match form with Len7 => n | Len16 => 126 | Len64 => 127 end.
Definition form_ext (form : length_form) (n : Z) : bytes :=
  match form with Len7 => [] | Len16 => be_bytes 2 n | Len64 => be_bytes 8 n end.
Definition form_limit (form : length_form) : Z :=
  match form with Len7 => 126 | Len16 => 65536 | Len64 => 9223372036854775808 end.

Definition ws_encode (form : length_form) (h : cloak_ws_frame_header_t) : bytes :=
  [wh_fin h * 128 + wh_opcode h; wh_masked h * 128 + form_len7 form (wh_payload_len h)] ++
  form_ext form (wh_payload_len h) ++ (if wh_masked h =? 1 then wh_mask_key h else []).

Definition is_flag (x : Z) : Prop := x = 0 \/ x = 1.

Record ws_header_ok (form : length_form) (h : cloak_ws_frame_header_t) : Prop := {
  who_opcode : ws_opcode_is_known (wh_opcode h) = true;
  who_fin : is_flag (wh_fin h);
  who_masked : is_flag (wh_masked h);
  who_len : 0 <= wh_payload_len h < form_limit form;
  who_control : ws_opcode_is_control (wh_opcode h) = true -> form = Len7 /\ wh_fin h = 1;
  who_key_len : zlen (wh_mask_key h) = 4;
  who_key : wh_masked h = 0 -> wh_mask_key h = replicate 4 0;
  who_header_len : wh_header_len h = zlen (ws_encode form h)
}.

(** The form [write_header] chooses. *)
Definition shortest_form (n : Z) : length_form :=
  if n <=? 125 then Len7 else if n <=? 65535 then Len16 else Len64.

Example parse_binary :
  cloak_ws_frame_parse_header (Some [130; 126; 1; 0; 9]) false =
    ok (Some (WsHeader 2 1 0 [0; 0; 0; 0] 256 4)).
Proof. reflexivity. Qed.

Example write_masked_ping :
  cloak_ws_frame_write_header (Some (replicate 8 0)) CLOAK_WS_OP_PING 1 (Some [1; 2; 3; 4]) 5 =
    Some (6, Some [137; 133; 1; 2; 3; 4; 0; 0]).
Proof. reflexivity. Qed.

(** ** Bits of the fixed bytes *)

(** A property of bytes, checked on all of them. *)
Lemma every_byte (P : Z -> bool) b : forallb P (seqZ 0 256) = true -> is_byte b -> P b = true.
Proof.
  intros H Hb. rewrite forallb_forall in H. apply H, list_elem_of_In, elem_of_seqZ.
  unfold is_byte in Hb. lia.
Qed.

Lemma first_byte b : is_byte b -> Z.land b 112 = 0 ->
  b = b2z (negb (Z.land b WS_FIN_BIT =? 0)) * 128 + Z.land b WS_OPCODE_MASK.
Proof.
  intros Hb Hr. apply Z.eqb_eq.
  pose proof (every_byte (fun b => negb (Z.land b 112 =? 0) ||
    (b =? b2z (negb (Z.land b WS_FIN_BIT =? 0)) * 128 + Z.land b WS_OPCODE_MASK)) b
    ltac:(by vm_compute) Hb) as H. cbn beta in H. by rewrite Hr in H.
Qed.

Lemma second_byte b : is_byte b ->
  b = b2z (negb (Z.land b WS_MASK_BIT =? 0)) * 128 + Z.land b WS_LEN7_MASK /\
  0 <= Z.land b WS_LEN7_MASK <= 127.
Proof.
  intros Hb.
  pose proof (every_byte (fun b =>
    (b =? b2z (negb (Z.land b WS_MASK_BIT =? 0)) * 128 + Z.land b WS_LEN7_MASK) &&
    (0 <=? Z.land b WS_LEN7_MASK) && (Z.land b WS_LEN7_MASK <=? 127)) b
    ltac:(by vm_compute) Hb) as H. cbn beta in H. bool_hyps. lia.
Qed.

Lemma known_range op : ws_opcode_is_known op = true -> 0 <= op < 16.
Proof. unfold ws_opcode_is_known. rewrite !orb_true_iff, !Z.eqb_eq.
  unfold CLOAK_WS_OP_CONTINUATION, CLOAK_WS_OP_TEXT, CLOAK_WS_OP_BINARY, CLOAK_WS_OP_CLOSE,
    CLOAK_WS_OP_PING, CLOAK_WS_OP_PONG. lia. Qed.

Lemma first_byte_fields fin op :
  is_flag fin -> ws_opcode_is_known op = true ->
  let b := fin * 128 + op in
  is_byte b /\ Z.land b WS_OPCODE_MASK = op /\ Z.land b 112 = 0 /\
  Z.lor (if negb (fin =? 0) then WS_FIN_BIT else 0) (Z.land op WS_OPCODE_MASK) = b /\
  b2z (negb (Z.land b WS_FIN_BIT =? 0)) = fin /\ (Z.land b WS_FIN_BIT =? 0) = (fin =? 0).
Proof.
  intros Hfin Hop. pose proof (known_range op Hop).
  assert (Hop' : In op [0; 1; 2; 8; 9; 10]).
  { unfold ws_opcode_is_known in Hop. rewrite !orb_true_iff, !Z.eqb_eq in Hop. cbn [In].
    unfold CLOAK_WS_OP_CONTINUATION, CLOAK_WS_OP_TEXT, CLOAK_WS_OP_BINARY, CLOAK_WS_OP_CLOSE,
      CLOAK_WS_OP_PING, CLOAK_WS_OP_PONG in Hop. lia. }
  cbn zeta. unfold is_byte. destruct Hfin as [-> | ->]; cbn in Hop';
    repeat destruct Hop' as [<-|Hop']; try done; cbv; repeat split; discriminate.
Qed.

Lemma second_byte_fields m len7 :
  is_flag m -> 0 <= len7 <= 127 ->
  let b := m * 128 + len7 in
  is_byte b /\ Z.land b WS_LEN7_MASK = len7 /\ negb (Z.land b WS_MASK_BIT =? 0) = (m =? 1) /\
  b2z (m =? 1) = m.
Proof.
  intros Hm Hl b.
  assert (Hb : is_byte b) by (unfold is_byte, b; destruct Hm; lia).
  destruct (second_byte b Hb) as [He Hr]. revert He Hr.
  assert (Hflag : is_flag (b2z (negb (Z.land b WS_MASK_BIT =? 0)))) by (destruct (_ =? 0); [by left|by right]).
  unfold b at 1. intros He Hr.
  assert (b2z (negb (Z.land b WS_MASK_BIT =? 0)) = m /\ Z.land b WS_LEN7_MASK = len7) as [Hmm ?]
    by (unfold is_flag in *; lia).
  split_and!; [done|done| |destruct Hm as [-> | ->]; done].
  destruct (negb _); cbn in Hmm; subst m; done.
Qed.

Lemma high_bit_clear n : 0 <= n < 2 ^ 64 -> (Z.land n WS_U64_LEN_HIGH_BIT =? 0) = (n <? 2 ^ 63).
Proof.
  intros Hn. change WS_U64_LEN_HIGH_BIT with (2 ^ 63).
  assert (Hl : Z.land n (2 ^ 63) = if n <? 2 ^ 63 then 0 else 2 ^ 63).
  { apply Z.bits_inj'. intros i Hi. rewrite Z.land_spec, Z.pow2_bits_eqb by lia.
    destruct (Z.eqb_spec 63 i) as [<-|Hne].
    - rewrite andb_true_r. destruct (Z.ltb_spec n (2 ^ 63)).
      + rewrite Z.bits_0. apply Z.testbit_false; [lia|]. rewrite Z.div_small by lia. done.
      + rewrite Z.pow2_bits_true by lia. apply Z.testbit_true; [lia|].
        replace (n / 2 ^ 63) with 1; [done|]. apply Z.div_unique with (n - 2 ^ 63); lia.
    - rewrite andb_false_r. destruct (n <? 2 ^ 63); [by rewrite Z.bits_0|].
      by rewrite Z.pow2_bits_false. }
  rewrite Hl. destruct (Z.ltb_spec n (2 ^ 63)); done.
Qed.

(** ** Lengths *)

Lemma ws_store_be16_be n : ws_store_be16 n = be_bytes 2 n.
Proof. unfold ws_store_be16, u8. cbn. by rewrite Z.shiftr_div_pow2 by lia. Qed.

Lemma form_ext_length form n :
  zlen (form_ext form n) = match form with Len7 => 0 | Len16 => 2 | Len64 => 8 end.
Proof. by destruct form; cbn; unfold zlen; rewrite ?length_app. Qed.

Lemma ws_load_be16_slice p off l :
  p.[off +: 2] = Some l -> all_bytes l -> ws_load_be16 p off = ok (be_val l).
Proof.
  intros Hp Hl. pose proof (mem_read_inv _ _ _ _ Hp) as (_&_&_&_&Hlen).
  destruct l as [|b0 [|b1 [|]]]; try (unfold zlen in Hlen; cbn in Hlen; lia). unfold ws_load_be16, byte_at.
  rewrite <- (Z.add_0_r off) at 1.
  rewrite (mem_read_get _ _ _ _ 0 Hp), (mem_read_get _ _ _ _ 1 Hp) by lia.
  rewrite !all_bytes_cons in Hl. unfold is_byte in Hl. destruct Hl as (?&?&_). mem_eval. cbn [pbind ok].
  rewrite lor_shiftl_add by lia. change (2 ^ 8) with 256. rewrite u16_small by lia.
  unfold be_val. cbn [fold_left]. done.
Qed.

Lemma ws_load_be64_slice p off l :
  p.[off +: 8] = Some l -> all_bytes l -> ws_load_be64 p off = ok (be_val l).
Proof. intros Hp Hl. unfold ws_load_be64. by rewrite (load_be64_slice _ _ _ Hp Hl). Qed.

(** ** The parser *)

Lemma control_known op : ws_opcode_is_known op = true ->
  ws_opcode_is_control op = true -> 8 <= op.
Proof.
  intros Hk Hc. pose proof (known_range op Hk) as Hr.
  assert (H : forallb (fun op => negb (ws_opcode_is_control op) || (8 <=? op)) (seqZ 0 16) = true)
    by (by vm_compute).
  rewrite forallb_forall in H. specialize (H op). rewrite <- list_elem_of_In, elem_of_seqZ in H.
  specialize (H ltac:(lia)). cbn beta in H. rewrite Hc in H. cbn [negb orb] in H. lia.
Qed.

Lemma ws_encode_length form h :
  zlen (wh_mask_key h) = 4 ->
  zlen (ws_encode form h) = 2 + zlen (form_ext form (wh_payload_len h)) +
    (if wh_masked h =? 1 then 4 else 0).
Proof.
  intros Hk. unfold ws_encode. rewrite !zlen_app. change (zlen [_; _]) with 2.
  destruct (wh_masked h =? 1); rewrite ?Hk; [lia|]. change (zlen []) with 0. lia.
Qed.

Lemma ws_header_max form h : ws_header_ok form h -> 2 <= zlen (ws_encode form h) <= 14.
Proof.
  intros Hok. rewrite ws_encode_length by apply Hok. rewrite form_ext_length.
  destruct form, (wh_masked h =? 1); lia.
Qed.

Lemma form_bits form n : 0 <= n < form_limit form ->
  0 <= form_len7 form n <= 127 /\
  (if form_len7 form n =? WS_LEN7_U16 then 2
   else if form_len7 form n =? WS_LEN7_U64 then 8 else 0) = zlen (form_ext form n).
Proof.
  intros Hn. rewrite form_ext_length. destruct form; cbn in *; try (split; [lia|done]).
  split; [lia|]. unfold WS_LEN7_U16, WS_LEN7_U64. by decide_cmp.
Qed.

Lemma ws_payload_len_encode form h rest :
  0 <= wh_payload_len h < form_limit form ->
  ws_payload_len (ws_encode form h ++ rest) (zlen (form_ext form (wh_payload_len h)))
    (form_len7 form (wh_payload_len h)) = ok (wh_payload_len h).
Proof.
  intros Hn. unfold ws_payload_len, ws_encode. rewrite <- !app_assoc.
  set (pre := [_; _]). set (tl := _ ++ rest). rewrite form_ext_length.
  destruct form; cbn [form_limit form_ext form_len7] in *; cbn [Z.eqb Pos.eqb]; [done|..].
  - rewrite (ws_load_be16_slice _ _ (be_bytes 2 (wh_payload_len h)));
      [|by apply mem_read_app|apply be_bytes_all_bytes].
    rewrite be_val_be_bytes. f_equal. f_equal. by apply Z.mod_small.
  - rewrite (ws_load_be64_slice _ _ (be_bytes 8 (wh_payload_len h)));
      [|by apply mem_read_app|apply be_bytes_all_bytes].
    cbn [pbind ok]. rewrite be_val_be_bytes, Z.mod_small by (change (256 ^ Z.of_nat 8) with 18446744073709551616; lia).
    rewrite high_bit_clear by lia. by rewrite (proj2 (Z.ltb_lt _ _)) by lia.
Qed.

(** Every header the grammar describes is parsed, whatever follows it. *)
Lemma ws_parse_complete form h rest :
  ws_header_ok form h ->
  cloak_ws_frame_parse_header (Some (ws_encode form h ++ rest)) false = ok (Some h).
Proof.
  intros Hok. pose proof (ws_header_max form h Hok) as Hmax.
  pose proof (ws_encode_length form h (who_key_len _ _ Hok)) as Hlen.
  destruct Hok as [Hop Hfin Hm Hn Hctl Hkl Hk0 Hhl].
  destruct (form_bits form _ Hn) as [H7 Hext].
  destruct (first_byte_fields _ _ Hfin Hop) as (Hb0&F1&F2&_&F4&F5).
  destruct (second_byte_fields _ _ Hm H7) as (Hb1&S1&S2&S3).
  unfold cloak_ws_frame_parse_header. rewrite zlen_app. zlen_pos. decide_cmp.
  set (b0 := wh_fin h * 128 + wh_opcode h) in *.
  set (b1 := wh_masked h * 128 + form_len7 form (wh_payload_len h)) in *.
  change (byte_at (ws_encode form h ++ rest) 0) with (ok b0).
  change (byte_at (ws_encode form h ++ rest) 1) with (ok b1).
  cbn [pbind ok].
  assert (Hgood : ws_two_bytes_bad b0 b1 = false).
  { unfold ws_two_bytes_bad. change (Z.lor (Z.lor WS_RSV1_BIT WS_RSV2_BIT) WS_RSV3_BIT) with 112.
    rewrite F1, F2, S1, Hop, F5. cbn [negb Z.eqb orb].
    destruct (ws_opcode_is_control _); [|done]. destruct (Hctl eq_refl) as [-> ->]. cbn in *.
    rewrite orb_false_r. apply Z.ltb_ge. unfold CLOAK_WS_FRAME_MAX_CONTROL_PAYLOAD. lia. }
  rewrite Hgood. unfold ws_parse_rest. rewrite F1, S1, Hext, S2, F4, S3.
  rewrite zlen_app. rewrite (proj2 (Z.ltb_ge _ _)) by (destruct (wh_masked h =? 1); lia).
  assert (Hpl : ws_payload_len (ws_encode form h ++ rest) (zlen (form_ext form (wh_payload_len h)))
    (form_len7 form (wh_payload_len h)) = ok (wh_payload_len h)).
  { by apply ws_payload_len_encode. }
  rewrite Hpl. cbn [pbind ok]. rewrite <- Hlen, (proj2 (Z.ltb_ge _ _)) by lia.
  rewrite <- Hhl. destruct Hm as [Hm | Hm]; rewrite Hm in *; cbn [Z.eqb Pos.eqb] in *.
  - rewrite <- Hk0 by done. unfold ok. do 2 f_equal. clear -Hm. destruct h; cbn in *. congruence.
  - unfold ws_encode. rewrite Hm. cbn [Z.eqb Pos.eqb]. rewrite <- !app_assoc, (app_assoc [_; _]).
    rewrite (mem_read_app _ (wh_mask_key h)) by (rewrite ?zlen_app; done || lia).
    unfold ok. do 2 f_equal. clear -Hm. destruct h; cbn in *. congruence.
Qed.

Definition form_of (len7 : Z) : length_form :=
  if len7 =? WS_LEN7_U16 then Len16 else if len7 =? WS_LEN7_U64 then Len64 else Len7.

(** The extended length of a buffer that is long enough for it. *)
Lemma ws_payload_len_safe b0 b1 l len7 :
  all_bytes l -> 0 <= len7 <= 127 ->
  let ext_len := if len7 =? WS_LEN7_U16 then 2 else if len7 =? WS_LEN7_U64 then 8 else 0 in
  2 + ext_len <= zlen (b0 :: b1 :: l) ->
  safely (ws_payload_len (b0 :: b1 :: l) ext_len len7) (fun n =>
    0 <= n < form_limit (form_of len7) /\ form_len7 (form_of len7) n = len7 /\
    exists l', l = form_ext (form_of len7) n ++ l').
Proof.
  intros Hl H7 ext_len Hlen. unfold ws_payload_len, form_of. subst ext_len.
  rewrite !zlen_cons in Hlen.
  destruct (Z.eqb_spec len7 WS_LEN7_U16) as [->|N1]; cbn [Z.eqb Pos.eqb].
  { destruct (zlen_split l 2 ltac:(lia)) as (l1&l2&->&Hl1&_).
    apply all_bytes_app in Hl as [Hb1 _].
    change (b0 :: b1 :: l1 ++ l2) with ([b0; b1] ++ l1 ++ l2).
    rewrite (ws_load_be16_slice _ _ l1) by (done || by apply mem_read_app).
    pose proof (be_val_range l1 Hb1) as Hr. rewrite Hl1 in Hr. cbn [safely ok form_limit form_len7 form_ext].
    split_and!; [lia|lia|done|]. exists l2. f_equal.
    rewrite <- (be_bytes_be_val l1) at 1 by done. f_equal. unfold zlen in Hl1. lia. }
  destruct (Z.eqb_spec len7 WS_LEN7_U64) as [->|N2]; cbn [Z.eqb Pos.eqb].
  { destruct (zlen_split l 8 ltac:(lia)) as (l1&l2&->&Hl1&_).
    apply all_bytes_app in Hl as [Hb1 _].
    change (b0 :: b1 :: l1 ++ l2) with ([b0; b1] ++ l1 ++ l2).
    rewrite (ws_load_be64_slice _ _ l1) by (done || by apply mem_read_app).
    pose proof (be_val_range l1 Hb1) as Hr. rewrite Hl1 in Hr. change (256 ^ 8) with (2 ^ 64) in Hr.
    cbn [pbind ok]. rewrite high_bit_clear by lia.
    destruct (Z.ltb_spec (be_val l1) (2 ^ 63)); [|done]. cbn [negb safely ok form_limit form_len7 form_ext].
    split_and!; [lia|lia|done|]. exists l2. f_equal.
    rewrite <- (be_bytes_be_val l1) at 1 by done. f_equal. unfold zlen in Hl1. lia. }
  cbn [safely ok form_limit form_len7 form_ext]. unfold WS_LEN7_U16, WS_LEN7_U64 in *.
  split_and!; [lia|lia|done|]. by exists l.
Qed.

Lemma two_bytes_good b0 b1 :
  ws_two_bytes_bad b0 b1 = false ->
  let op := Z.land b0 WS_OPCODE_MASK in
  Z.land b0 112 = 0 /\ ws_opcode_is_known op = true /\
  (ws_opcode_is_control op = true ->
   Z.land b1 WS_LEN7_MASK <= 125 /\ (Z.land b0 WS_FIN_BIT =? 0) = false).
Proof.
  unfold ws_two_bytes_bad. change (Z.lor (Z.lor WS_RSV1_BIT WS_RSV2_BIT) WS_RSV3_BIT) with 112.
  intros H. apply orb_false_iff in H as [H H3]. apply orb_false_iff in H as [H1 H2].
  apply negb_false_iff in H1, H2. apply Z.eqb_eq in H1. split_and!; [done|done|].
  intros Hc. rewrite Hc in H3. cbn [andb] in H3. apply orb_false_iff in H3 as [H3 H4].
  apply Z.ltb_ge in H3. done.
Qed.

(** Whatever was received, the parser reads only that; it asks for more only
    while there are fewer bytes than the longest header, and a header it
    returns is at the start of the buffer. *)
Lemma ws_parse_sound buf :
  all_bytes buf ->
  safely (cloak_ws_frame_parse_header (Some buf) false) (fun r =>
    match r with
    | None => zlen buf < CLOAK_WS_FRAME_MAX_HEADER_LEN
    | Some h => exists form rest, ws_header_ok form h /\ buf = ws_encode form h ++ rest
    end).
Proof.
  intros Hb. unfold cloak_ws_frame_parse_header, CLOAK_WS_FRAME_MAX_HEADER_LEN.
  destruct (Z.ltb_spec (zlen buf) 2); [cbn; lia|].
  destruct buf as [|b0 [|b1 l]]; try done.
  change (byte_at (b0 :: b1 :: l) 0) with (ok b0). change (byte_at (b0 :: b1 :: l) 1) with (ok b1).
  cbn [pbind ok]. destruct (ws_two_bytes_bad b0 b1) eqn:Hbad; [done|].
  apply two_bytes_good in Hbad as (Hrsv&Hknown&Hctl).
  rewrite !all_bytes_cons in Hb. destruct Hb as (Hb0&Hb1&Hl).
  destruct (second_byte b1 Hb1) as [He1 H7]. pose proof (first_byte b0 Hb0 Hrsv) as He0.
  unfold ws_parse_rest. set (len7 := Z.land b1 WS_LEN7_MASK) in *.
  set (ext_len := if len7 =? WS_LEN7_U16 then 2 else if len7 =? WS_LEN7_U64 then 8 else 0).
  assert (Hext : 0 <= ext_len <= 8) by (unfold ext_len; repeat case_match; lia).
  destruct (Z.ltb_spec (zlen (b0 :: b1 :: l)) (2 + ext_len)); [cbn; lia|].
  eapply safely_bind; [by apply ws_payload_len_safe|]. fold ext_len.
  intros n (Hn&Hl7&l'&->). set (form := form_of len7) in *.
  set (masked := negb (Z.land b1 WS_MASK_BIT =? 0)) in *.
  destruct (Z.ltb_spec (zlen (b0 :: b1 :: form_ext form n ++ l')) (2 + ext_len + (if masked then 4 else 0)))
    as [|Hneed]; [cbn; destruct masked; lia|].
  destruct (form_bits form n Hn) as [_ Hfl]. rewrite Hl7 in Hfl. fold ext_len in Hfl.
  rewrite !zlen_cons, zlen_app in Hneed.
  assert (Hkey : exists key rest, (if masked then (b0 :: b1 :: form_ext form n ++ l').[2 + ext_len +: 4]
      else Some (replicate 4 0)) = Some key /\ zlen key = 4 /\
      (b2z masked = 0 -> key = replicate 4 0) /\ l' = (if b2z masked =? 1 then key else []) ++ rest).
  { destruct masked; cbn [b2z Z.eqb Pos.eqb].
    - destruct (zlen_split l' 4 ltac:(lia)) as (key&rest&->&Hk&_). exists key, rest. split_and!; try done.
      change (b0 :: b1 :: ?x) with ([b0; b1] ++ x). rewrite app_assoc.
      apply mem_read_app; [|done]. rewrite zlen_app. change (zlen [b0; b1]) with 2. lia.
    - by exists (replicate 4 0), l'. }
  destruct Hkey as (key&rest&->&Hk4&Hk0&->). cbn [safely ok].
  exists form, rest. split.
  - split; cbn [wh_opcode wh_fin wh_masked wh_mask_key wh_payload_len wh_header_len]; try done.
    + unfold is_flag. destruct (Z.land b0 WS_FIN_BIT =? 0); cbn; lia.
    + unfold is_flag. destruct masked; cbn; lia.
    + intros Hc. destruct (Hctl Hc) as [Hsmall ->]. split; [|done].
      unfold form, form_of, WS_LEN7_U16, WS_LEN7_U64. by decide_cmp.
    + rewrite ws_encode_length by done. cbn [wh_masked wh_payload_len]. rewrite Hfl.
      by destruct masked.
  - unfold ws_encode. cbn [wh_opcode wh_fin wh_masked wh_mask_key wh_payload_len].
    rewrite Hl7, <- !app_assoc. cbn [app]. fold masked in He1. congruence.
Qed.

(** A verdict stays when more bytes arrive. *)
Lemma ws_load_app buf ext off :
  0 <= off -> off + 8 <= zlen buf -> load_be64_at (buf ++ ext) off = load_be64_at buf off.
Proof.
  intros ??. unfold load_be64_at. zlen_pos. rewrite !mem_read_Some by (rewrite ?zlen_app; zlen_pos; lia).
  cbn [mbind option_bind]. do 2 f_equal. rewrite drop_app_le by (unfold zlen in *; lia).
  apply take_app_le. rewrite length_drop. unfold zlen in *; lia.
Qed.

Lemma ws_parse_malformed_stable buf ext :
  cloak_ws_frame_parse_header (Some buf) false = malformed ->
  cloak_ws_frame_parse_header (Some (buf ++ ext)) false = malformed.
Proof.
  unfold cloak_ws_frame_parse_header. rewrite zlen_app. zlen_pos.
  destruct (Z.ltb_spec (zlen buf) 2); [done|]. decide_cmp.
  unfold byte_at. rewrite !mem_get_app_l by lia.
  destruct (buf.[0]) as [b0|]; [|done]. destruct (buf.[1]) as [b1|]; [|done]. cbn [pbind ok].
  destruct (ws_two_bytes_bad b0 b1); [done|]. unfold ws_parse_rest. rewrite zlen_app.
  set (ext_len := if _ =? WS_LEN7_U16 then 2 else _).
  destruct (Z.ltb_spec (zlen buf) (2 + ext_len)); [done|]. decide_cmp.
  assert (Hpl : ws_payload_len (buf ++ ext) ext_len (Z.land b1 WS_LEN7_MASK) =
                ws_payload_len buf ext_len (Z.land b1 WS_LEN7_MASK)).
  { unfold ws_payload_len, ws_load_be16, ws_load_be64, byte_at.
    destruct (Z.eqb_spec ext_len 2); [by rewrite !mem_get_app_l by lia|].
    destruct (Z.eqb_spec ext_len 8); [by rewrite ws_load_app by lia|done]. }
  rewrite Hpl. clear Hpl.
  destruct (ws_payload_len buf ext_len (Z.land b1 WS_LEN7_MASK)) as [[n|]|]; cbn [pbind]; [|done..].
  intros Hm. exfalso. revert Hm. repeat case_match; done.
Qed.

(** The header parser is exact and safe on every byte string, as it stands
    in a socket's accumulator: it reads nothing beyond it; it returns a header
    exactly when the string starts with an encoding of that header in any of the
    three length forms (RFC 6455 allows a sender the shortest one only; the
    parser is lenient on purpose, ws_frame.h:170); it asks for more only below
    14 bytes; and what it calls malformed no further byte can repair. *)
Theorem ws_parse_exact buf :
  all_bytes buf ->
  exists r, cloak_ws_frame_parse_header (Some buf) false = Some r /\
    (forall h, r = Some (Some h) <->
       exists form rest, ws_header_ok form h /\ buf = ws_encode form h ++ rest) /\
    (r = Some None -> zlen buf < CLOAK_WS_FRAME_MAX_HEADER_LEN) /\
    (r = None -> forall ext form h rest,
       ws_header_ok form h -> buf ++ ext <> ws_encode form h ++ rest).
Proof.
  intros Hb. pose proof (ws_parse_sound buf Hb) as Hs.
  destruct (cloak_ws_frame_parse_header (Some buf) false) as [r|] eqn:E; [|done].
  exists r. split_and!; [done|..].
  - intros h. split.
    + intros ->. exact Hs.
    + intros (form&rest&Hok&->). rewrite ws_parse_complete in E by done. by injection E as <-.
  - by intros ->.
  - intros -> ext form h rest Hok He. pose proof (ws_parse_malformed_stable buf ext E) as Hm.
    rewrite He, ws_parse_complete in Hm by done. done.
Qed.

Lemma ws_parse_exact_witness :
  exists r, cloak_ws_frame_parse_header (Some [130; 1; 77]) false = Some r /\
    (forall h, r = Some (Some h) <->
       exists form rest, ws_header_ok form h /\ [130; 1; 77] = ws_encode form h ++ rest) /\
    (r = Some None -> zlen [130; 1; 77] < CLOAK_WS_FRAME_MAX_HEADER_LEN) /\
    (r = None -> forall ext form h rest,
       ws_header_ok form h -> [130; 1; 77] ++ ext <> ws_encode form h ++ rest).
Proof. apply (ws_parse_exact [130; 1; 77]). apply all_bytesb_sound. reflexivity. Defined.

(** The documented promise to report an error as soon as the bytes that prove
    it are in hand is not kept for the first byte and for the sign bit of a
    64-bit length: no continuation of these strings is a header, yet more
    bytes are asked for. *)
Lemma ws_late_error :
  cloak_ws_frame_parse_header (Some [240]) false = ok None /\
  cloak_ws_frame_parse_header (Some [130; 127; 128]) false = ok None /\
  (forall form h rest ext, ws_header_ok form h -> [240] ++ ext <> ws_encode form h ++ rest).
Proof.
  split_and!; [done|done|]. intros form h rest ext Hok He.
  unfold ws_encode in He. injection He as He _.
  pose proof (known_range _ (who_opcode _ _ Hok)). destruct (who_fin _ _ Hok); lia.
Qed.

(** ** The writer *)

(** The header [write_header] is asked for. *)
Definition ws_request (op fin : Z) (mask_key : option bytes) (n : Z) : cloak_ws_frame_header_t :=
  let form := shortest_form n in
  let masked := bool_decide (mask_key <> None) in
  WsHeader op (b2z (negb (fin =? 0))) (b2z masked) (default (replicate 4 0) mask_key) n
    (2 + zlen (form_ext form n) + (if masked then 4 else 0)).

Definition ws_request_ok (op fin : Z) (mask_key : option bytes) (n : Z) : Prop :=
  ws_opcode_is_known op = true /\ 0 <= n < 9223372036854775808 /\
  (ws_opcode_is_control op = true -> n <= 125 /\ fin <> 0) /\
  (forall k, mask_key = Some k -> zlen k = 4).

Lemma shortest_limit n : 0 <= n < 9223372036854775808 -> 0 <= n < form_limit (shortest_form n).
Proof. intros Hn. unfold shortest_form. repeat case_match; cbn; lia. Qed.

Lemma ws_request_header op fin mask_key n :
  ws_request_ok op fin mask_key n ->
  ws_header_ok (shortest_form n) (ws_request op fin mask_key n).
Proof.
  intros (Hop&Hn&Hctl&Hk). unfold ws_request.
  split; cbn [wh_opcode wh_fin wh_masked wh_mask_key wh_payload_len wh_header_len].
  - done.
  - unfold is_flag. destruct (fin =? 0); cbn; lia.
  - unfold is_flag. destruct mask_key; cbn; lia.
  - by apply shortest_limit.
  - intros Hc. destruct (Hctl Hc) as [Hs Hf]. unfold shortest_form.
    rewrite (proj2 (Z.leb_le n 125)), (proj2 (Z.eqb_neq fin 0)) by done. done.
  - destruct mask_key as [k|]; cbn; [by apply Hk|done].
  - by destruct mask_key.
  - rewrite ws_encode_length; cbn [wh_masked wh_payload_len wh_mask_key].
    + by destruct mask_key.
    + destruct mask_key as [k|]; cbn; [by apply Hk|done].
Qed.

Lemma mem_set_0 (x : Z) l y : mem_set (x :: l) 0 y = Some (y :: l).
Proof. by apply (mem_set_app [] x y l 0). Qed.

Lemma mem_set_1 (a x : Z) l y : mem_set (a :: x :: l) 1 y = Some (a :: y :: l).
Proof. by apply (mem_set_app [a] x y l 1). Qed.

(** Or-ing the mask bit into a length byte. *)
Lemma mask_bit_byte l7 : 0 <= l7 <= 127 -> u8 (Z.lor l7 WS_MASK_BIT) = 1 * 128 + l7.
Proof.
  intros Hl. rewrite Z.lor_comm. change WS_MASK_BIT with (Z.shiftl 1 7).
  rewrite lor_shiftl_add by lia. apply u8_small. lia.
Qed.

Lemma ws_header_stores_spec buf op fin mask_key n :
  ws_request_ok op fin mask_key n ->
  let form := shortest_form n in
  let e := ws_encode form (ws_request op fin mask_key n) in
  zlen e <= zlen buf ->
  ws_header_stores buf op fin mask_key n (zlen (form_ext form n)) =
  Some (e ++ drop (length e) buf).
Proof.
  intros Hreq form e Hcap. pose proof (ws_request_header _ _ _ _ Hreq) as Hok.
  pose proof (ws_encode_length form _ (who_key_len _ _ Hok)) as Hlen. fold e in Hlen.
  destruct Hreq as (Hop&Hn&Hctl&Hk). destruct Hok as [_ Hfin Hmask Hlim _ Hk4 _ _].
  destruct (first_byte_fields _ _ Hfin Hop) as (Hb0&_&_&Hb0e&_&_).
  destruct (form_bits form _ Hlim) as [H7 _].
  destruct (second_byte_fields _ _ Hmask H7) as (Hb1&_).
  cbn [ws_request wh_fin wh_masked wh_payload_len wh_mask_key] in *. fold form in Hlen, H7, Hb1, Hlim.
  set (ext := form_ext form n) in *.
  set (klen := if bool_decide (mask_key <> None) then 4 else 0).
  assert (Hk04 : 0 <= klen) by (unfold klen; destruct (bool_decide _); lia).
  replace (if b2z (bool_decide (mask_key <> None)) =? 1 then 4 else 0) with klen in Hlen
    by (by destruct mask_key).
  assert (Hsplit : exists x0 x1 o1 o2 r, buf = x0 :: x1 :: o1 ++ o2 ++ r /\ zlen o1 = zlen ext /\
    zlen o2 = klen /\ drop (length e) buf = r).
  { zlen_pos. destruct buf as [|x0 [|x1 r]].
    - change (zlen []) with 0 in Hcap. lia.
    - change (zlen [x0]) with 1 in Hcap. lia.
    - rewrite !zlen_cons in Hcap.
      destruct (zlen_split r (zlen ext)) as (o1&r1&->&Ho1&Hr1); [lia|].
      destruct (zlen_split r1 klen) as (o2&r2&->&Ho2&_); [rewrite zlen_app in *; lia|].
      exists x0, x1, o1, o2, r2. split_and!; try done.
      replace (x0 :: x1 :: o1 ++ o2 ++ r2) with (([x0; x1] ++ o1 ++ o2) ++ r2)
        by (cbn [app]; by rewrite <- !app_assoc).
      apply drop_app_length'. rewrite !length_app. cbn [length]. unfold zlen in *. lia. }
  destruct Hsplit as (x0&x1&o1&o2&r&->&Ho1&Ho2&->). unfold ws_header_stores.
  rewrite mem_set_0. cbn [mbind option_bind app].
  assert (Hfirst : u8 (Z.lor (if negb (fin =? 0) then WS_FIN_BIT else 0) (Z.land op WS_OPCODE_MASK)) =
    b2z (negb (fin =? 0)) * 128 + op).
  { rewrite <- Hb0e. rewrite u8_small; [by destruct (fin =? 0)|].
    assert (Hw : forall b : bool, Z.lor (if b then WS_FIN_BIT else 0) (Z.land op WS_OPCODE_MASK) =
      Z.lor (if negb (b2z b =? 0) then WS_FIN_BIT else 0) (Z.land op WS_OPCODE_MASK)) by (by intros []).
    rewrite Hw, Hb0e. exact Hb0. }
  rewrite Hfirst. set (b0 := b2z (negb (fin =? 0)) * 128 + op) in *.
  (* the extended length *)
  assert (Hext : (if zlen ext =? 0 then Some (u8 n, b0 :: x1 :: o1 ++ o2 ++ r)
      else if zlen ext =? 2 then
        buf ← (b0 :: x1 :: o1 ++ o2 ++ r).[2 <- ws_store_be16 (u16 n)]; Some (WS_LEN7_U16, buf)
      else buf ← (b0 :: x1 :: o1 ++ o2 ++ r).[2 <- ws_store_be64 n]; Some (WS_LEN7_U64, buf)) =
    Some (form_len7 form n, b0 :: x1 :: ext ++ o2 ++ r)).
  { change (b0 :: x1 :: ?l) with ([b0; x1] ++ l).
    unfold ext in *. rewrite form_ext_length in *. clearbody form. destruct form; cbn [form_ext form_len7 form_limit Z.eqb Pos.eqb] in *.
    - rewrite (zlen_zero o1) by done. by rewrite u8_small by lia.
    - rewrite u16_small, ws_store_be16_be by lia.
      change (b0 :: x1 :: o1 ++ o2 ++ r) with ([b0; x1] ++ o1 ++ o2 ++ r).
      rewrite mem_write_app; [done|done|]. by rewrite Ho1.
    - unfold ws_store_be64. rewrite store_be_loop_be.
      change (b0 :: x1 :: o1 ++ o2 ++ r) with ([b0; x1] ++ o1 ++ o2 ++ r).
      rewrite mem_write_app; [done|done|]. by rewrite Ho1. }
  rewrite Hext. cbn [mbind option_bind]. clear Hext.
  unfold e, ws_encode, ws_request.
  cbn [wh_opcode wh_fin wh_masked wh_mask_key wh_payload_len]. fold form ext b0.
  destruct mask_key as [k|]; cbn [bool_decide default] in *.
  - rewrite mem_read_all by (by rewrite (Hk k eq_refl)). cbn [mbind option_bind].
    rewrite bool_decide_eq_true_2 in * by done. cbn [b2z Z.eqb Pos.eqb] in *.
    change (b0 :: x1 :: ext ++ o2 ++ r) with ([b0; x1] ++ ext ++ o2 ++ r). rewrite app_assoc.
    rewrite mem_write_app; [|by rewrite zlen_app|by rewrite (Hk k eq_refl), Ho2].
    cbn [mbind option_bind]. rewrite <- app_assoc. cbn [app].
    rewrite mem_set_1, mask_bit_byte by done. by rewrite <- !app_assoc.
  - rewrite bool_decide_eq_false_2 in * by (by intros ?). cbn [b2z Z.eqb] in *.
    rewrite (zlen_zero o2) by done. rewrite mem_set_1.
    by rewrite app_nil_r.
Qed.

(** The header [write_header] stores for a request it accepts. *)
Lemma ws_write_spec buf op fin mask_key n :
  ws_request_ok op fin mask_key n ->
  let h := ws_request op fin mask_key n in
  let e := ws_encode (shortest_form n) h in
  wh_header_len h <= zlen buf ->
  cloak_ws_frame_write_header (Some buf) op fin mask_key n =
    Some (wh_header_len h, Some (e ++ drop (length e) buf)).
Proof.
  intros Hreq h e Hcap. pose proof (ws_request_header _ _ _ _ Hreq) as Hok. fold h in Hok.
  pose proof (ws_header_stores_spec buf op fin mask_key n Hreq) as Hst. cbn zeta in Hst.
  fold h in Hst. rewrite <- (who_header_len _ _ Hok) in Hst. specialize (Hst Hcap). fold e in Hst.
  assert (Hneed : wh_header_len h = 2 + zlen (form_ext (shortest_form n) n) +
    (if bool_decide (mask_key = None) then 0 else 4)) by (by destruct mask_key).
  assert (Hform : (if n <=? 125 then 0 else if n <=? 65535 then 2 else 8) =
    zlen (form_ext (shortest_form n) n)).
  { rewrite form_ext_length. unfold shortest_form. by repeat case_match. }
  destruct Hreq as (Hop&Hn'&Hctl&_). unfold cloak_ws_frame_write_header.
  rewrite Hform, <- Hneed, high_bit_clear by lia.
  rewrite Hop, (proj2 (Z.ltb_lt n (2 ^ 63))) by lia. cbn [negb].
  assert (Hc : ws_opcode_is_control op &&
    ((CLOAK_WS_FRAME_MAX_CONTROL_PAYLOAD <? n) || (fin =? 0)) = false).
  { destruct (ws_opcode_is_control op); [|done]. destruct (Hctl eq_refl).
    unfold CLOAK_WS_FRAME_MAX_CONTROL_PAYLOAD. by decide_cmp. }
  by rewrite Hc, (proj2 (Z.ltb_ge _ _)), Hst by lia.
Qed.

(** What [write_header] writes, [parse_header] reads.  For a request RFC
    6455 allows it either refuses a buffer that is too small and leaves it
    alone, or stores the header in its shortest form in exactly the returned
    number of bytes, and parsing them, whatever follows, gives the opcode,
    flags, key and length back; any other request is refused with the buffer
    untouched. *)
Theorem ws_write_parse buf op fin mask_key n rest :
  0 <= n <= SIZE_MAX -> (forall k, mask_key = Some k -> zlen k = 4) ->
  let h := ws_request op fin mask_key n in
  (ws_request_ok op fin mask_key n -> wh_header_len h <= zlen buf ->
   exists buf',
     cloak_ws_frame_write_header (Some buf) op fin mask_key n = Some (wh_header_len h, Some buf') /\
     zlen buf' = zlen buf /\
     drop (Z.to_nat (wh_header_len h)) buf' = drop (Z.to_nat (wh_header_len h)) buf /\
     cloak_ws_frame_parse_header (Some (take (Z.to_nat (wh_header_len h)) buf' ++ rest)) false =
       ok (Some h)) /\
  (~ (ws_request_ok op fin mask_key n /\ wh_header_len h <= zlen buf) ->
   cloak_ws_frame_write_header (Some buf) op fin mask_key n = Some (-1, Some buf)).
Proof.
  intros Hn Hk h. unfold SIZE_MAX in Hn.
  split.
  - intros Hreq Hcap. pose proof (ws_request_header _ _ _ _ Hreq) as Hok. fold h in Hok.
    rewrite (ws_write_spec buf op fin mask_key n Hreq Hcap). fold h.
    set (e := ws_encode (shortest_form n) h).
    assert (Hl : Z.to_nat (wh_header_len h) = length e).
    { rewrite (who_header_len _ _ Hok). apply zlen_length. }
    eexists; split; [done|]. rewrite Hl, take_app_length, drop_app_length.
    split_and!; [|done|by apply ws_parse_complete].
    rewrite zlen_app. unfold zlen in *. rewrite length_drop. rewrite (who_header_len _ _ Hok) in Hcap.
    unfold zlen in Hcap. fold e in Hcap. lia.
  - intros Hbad.
    assert (Hneed : wh_header_len h = 2 + zlen (form_ext (shortest_form n) n) +
      (if bool_decide (mask_key = None) then 0 else 4)) by (by destruct mask_key).
    assert (Hform : (if n <=? 125 then 0 else if n <=? 65535 then 2 else 8) =
      zlen (form_ext (shortest_form n) n)).
    { rewrite form_ext_length. unfold shortest_form. by repeat case_match. }
    unfold cloak_ws_frame_write_header. rewrite Hform, <- Hneed, high_bit_clear by lia.
    destruct (ws_opcode_is_known op) eqn:Hop; [|done]. cbn [negb].
    destruct (ws_opcode_is_control op &&
      ((CLOAK_WS_FRAME_MAX_CONTROL_PAYLOAD <? n) || (fin =? 0))) eqn:Hc; [done|].
    destruct (Z.ltb_spec n (2 ^ 63)); [|done]. cbn [negb].
    destruct (Z.ltb_spec (zlen buf) (wh_header_len h)); [done|]. exfalso. apply Hbad.
    split; [|done]. split_and!; [done|lia|lia| |done].
    intros Hctl. rewrite Hctl in Hc. cbn [andb] in Hc. unfold CLOAK_WS_FRAME_MAX_CONTROL_PAYLOAD in Hc.
    bool_hyps. done.
Qed.

Lemma ws_write_parse_witness :
  cloak_ws_frame_write_header (Some (replicate 5 0)) CLOAK_WS_OP_BINARY 1 (Some [1; 2; 3; 4]) 9 =
    Some (-1, Some (replicate 5 0)) /\
  exists buf',
    cloak_ws_frame_write_header (Some (replicate 20 0)) CLOAK_WS_OP_BINARY 1 (Some [1; 2; 3; 4]) 70000 =
      Some (14, Some buf') /\
    cloak_ws_frame_parse_header (Some (take 14 buf' ++ [7; 7])) false =
      ok (Some (WsHeader CLOAK_WS_OP_BINARY 1 1 [1; 2; 3; 4] 70000 14)).
Proof.
  assert (Hk : forall k, Some [1; 2; 3; 4] = Some k -> zlen k = 4) by (by intros k [= <-]).
  split.
  - apply (ws_write_parse (replicate 5 0) 2 1 (Some [1; 2; 3; 4]) 9 []); [by unfold SIZE_MAX|done|].
    intros [_ H]. vm_compute in H. by apply H.
  - destruct (ws_write_parse (replicate 20 0) 2 1 (Some [1; 2; 3; 4]) 70000 [7; 7]) as [H _];
      [by unfold SIZE_MAX|done|].
    destruct H as (buf'&Hw&_&_&Hp).
    + split_and!; [done|lia|lia|done|exact Hk].
    + by vm_compute.
    + by exists buf'.
Defined.

(** ** Masking *)

(** The mask as RFC 6455 defines it: octet [i] of the payload with octet
    [i mod 4] of the key. *)
Fixpoint mask_bytes (key : bytes) (pos : Z) (p : bytes) : bytes :=
  match p with
  | [] => []
  | b :: p' => Z.lxor b (default 0 key.[pos mod 4]) :: mask_bytes key (pos + 1) p'
  end.

Lemma mask_bytes_app key pos p q :
  mask_bytes key pos (p ++ q) = mask_bytes key pos p ++ mask_bytes key (pos + zlen p) q.
Proof.
  revert pos. induction p as [|b p IH]; intros pos; cbn [app mask_bytes].
  - by rewrite Z.add_0_r.
  - rewrite IH, zlen_cons. do 3 f_equal. lia.
Qed.

Lemma mask_bytes_length key pos p : zlen (mask_bytes key pos p) = zlen p.
Proof. revert pos. induction p as [|b p IH]; intros; [done|]. cbn [mask_bytes]. by rewrite !zlen_cons, IH. Qed.

Lemma mask_bytes_involutive key pos p : mask_bytes key pos (mask_bytes key pos p) = p.
Proof.
  revert pos. induction p as [|b p IH]; intros; [done|]. cbn [mask_bytes].
  by rewrite IH, Z.lxor_assoc, Z.lxor_nilpotent, Z.lxor_0_r.
Qed.

Lemma mask_bytes_mod key pos p : mask_bytes key (pos mod 4) p = mask_bytes key pos p.
Proof.
  revert pos. induction p as [|b p IH]; intros; [done|]. cbn [mask_bytes].
  rewrite Z.mod_mod by lia. f_equal. rewrite <- (IH (pos mod 4 + 1)), <- (IH (pos + 1)). f_equal.
  by rewrite Z.add_mod_idemp_l.
Qed.

Lemma and_3 x : Z.land (u64 x) 3 = x mod 4.
Proof.
  change 3 with (Z.ones 2). rewrite Z.land_ones by lia. change (2 ^ 2) with 4. unfold u64.
  apply Z.mod_mod_divide. by exists 4611686018427387904.
Qed.

Lemma ws_mask_loop_spec key pos d p :
  zlen key = 4 ->
  ws_mask_loop (length p) (zlen d) (d ++ p) key pos = Some (d ++ mask_bytes key (pos + zlen d) p).
Proof.
  intros Hk. revert d. induction p as [|b p IH]; intros d; [done|].
  cbn [length ws_mask_loop mask_bytes]. rewrite mem_get_app_r by lia. rewrite Z.sub_diag.
  change ((b :: p).[0]) with (Some b). rewrite and_3.
  destruct (mem_get_Some key ((pos + zlen d) mod 4)) as [k Hkk].
  { rewrite Hk. by apply Z.mod_pos_bound. }
  rewrite Hkk. cbn [mbind option_bind from_option id].
  rewrite mem_set_app by done. cbn [mbind option_bind].
  replace (d ++ Z.lxor b k :: p) with ((d ++ [Z.lxor b k]) ++ p) by (by rewrite <- app_assoc).
  replace (zlen d + 1) with (zlen (d ++ [Z.lxor b k])) by zlia.
  rewrite IH, zlen_app, <- app_assoc. cbn [app]. do 4 f_equal. change (zlen [_]) with 1. lia.
Qed.

Lemma ws_mask_spec key pos p :
  zlen key = 4 -> 0 <= pos <= SIZE_MAX ->
  cloak_ws_frame_mask (Some p) (Some key) pos =
    Some ((pos + zlen p) mod 4, Some (mask_bytes key pos p)).
Proof.
  intros Hk Hpos. unfold cloak_ws_frame_mask, SIZE_MAX in *. destruct (Z.eqb_spec (zlen p) 0) as [H0|].
  - rewrite (zlen_zero p H0). cbn [mask_bytes]. change (zlen []) with 0. rewrite Z.add_0_r.
    rewrite <- and_3, u64_small by lia. done.
  - pose proof (ws_mask_loop_spec key pos [] p Hk) as Hl. cbn [app] in Hl.
    change (zlen []) with 0 in Hl. rewrite Hl, Z.add_0_r. cbn [mbind option_bind]. by rewrite and_3.
Qed.

(** A payload masked chunk by chunk, each call starting where the last ended. *)
Fixpoint ws_mask_chunks (key : bytes) (pos : Z) (chunks : list bytes)
    : option (list bytes * Z) :=
  match chunks with
  | [] => Some ([], pos)
  | p :: ps =>
      '(pos, p') ← cloak_ws_frame_mask (Some p) (Some key) pos;
      '(ps', pos) ← ws_mask_chunks key pos ps;
      Some (default [] p' :: ps', pos)
  end.

Lemma ws_mask_chunks_spec key pos chunks :
  zlen key = 4 -> 0 <= pos < 4 ->
  exists outs, ws_mask_chunks key pos chunks = Some (outs, (pos + zlen (concat chunks)) mod 4) /\
    concat outs = mask_bytes key pos (concat chunks).
Proof.
  intros Hk. revert pos. induction chunks as [|p ps IH]; intros pos Hpos; cbn [ws_mask_chunks concat].
  - exists []. change (zlen []) with 0. by rewrite Z.add_0_r, Z.mod_small.
  - rewrite ws_mask_spec by (unfold SIZE_MAX; done || lia). cbn [mbind option_bind].
    destruct (IH ((pos + zlen p) mod 4)) as (outs&->&Ho); [by apply Z.mod_pos_bound|].
    cbn [mbind option_bind from_option id]. eexists; split.
    + do 2 f_equal. rewrite zlen_app, Z.add_mod_idemp_l by lia. f_equal. lia.
    + cbn [concat]. by rewrite Ho, mask_bytes_app, mask_bytes_mod.
Qed.

(** Masking is a stream operation and its own inverse.  However a payload
    is cut into chunks, threading the position through the calls masks it as
    RFC 6455 says, octet [i] with key octet [i mod 4]; and masking the result,
    cut in any other way, gives the payload back. *)
Theorem ws_mask_stream key chunks :
  zlen key = 4 ->
  exists outs, ws_mask_chunks key 0 chunks = Some (outs, zlen (concat chunks) mod 4) /\
    (forall i b, concat chunks !! i = Some b ->
       exists k, key !! (i mod 4)%nat = Some k /\ concat outs !! i = Some (Z.lxor b k)) /\
    forall chunks', concat chunks' = concat outs ->
      exists outs', ws_mask_chunks key 0 chunks' = Some (outs', zlen (concat chunks) mod 4) /\
        concat outs' = concat chunks.
Proof.
  intros Hk. destruct (ws_mask_chunks_spec key 0 chunks Hk ltac:(lia)) as (outs&Hrun&Ho).
  exists outs. split_and!; [done|..].
  - intros i b Hb. rewrite Ho.
    assert (Hgen : forall pos, 0 <= pos -> exists k, key.[(pos + Z.of_nat i) mod 4] = Some k /\
      mask_bytes key pos (concat chunks) !! i = Some (Z.lxor b k)).
    { clear -Hb Hk. revert i Hb. induction (concat chunks) as [|c p IH]; intros i Hb pos Hpos; [done|].
      destruct i as [|i].
      - injection Hb as ->. rewrite Z.add_0_r.
        destruct (mem_get_Some key (pos mod 4)) as [k Hkk]; [rewrite Hk; by apply Z.mod_pos_bound|].
        exists k. split; [done|]. cbn [mask_bytes]. by rewrite Hkk.
      - destruct (IH i Hb (pos + 1) ltac:(lia)) as (k&Hkk&Hm). exists k. split; [|done].
        rewrite <- Hkk. f_equal. f_equal. lia. }
    destruct (Hgen 0 ltac:(lia)) as (k&Hkk&Hm). exists k. split; [|done].
    rewrite Z.add_0_l in Hkk. apply mem_get_inv in Hkk as [_ Hkk].
    change 4 with (Z.of_nat 4) in Hkk. by rewrite <- Nat2Z.inj_mod, Nat2Z.id in Hkk.
  - intros chunks' Hc. destruct (ws_mask_chunks_spec key 0 chunks' Hk ltac:(lia)) as (outs'&Hrun'&Ho').
    exists outs'. rewrite Hrun', Ho', Hc, Ho, mask_bytes_involutive, mask_bytes_length. done.
Qed.

Lemma ws_mask_stream_witness :
  exists outs, ws_mask_chunks [1; 2; 4; 8] 0 [[7; 7; 7]; []; [7; 7]] = Some (outs, 1) /\
    forall chunks', concat chunks' = concat outs ->
      exists outs', ws_mask_chunks [1; 2; 4; 8] 0 chunks' = Some (outs', 1) /\
        concat outs' = [7; 7; 7; 7; 7].
Proof.
  destruct (ws_mask_stream [1; 2; 4; 8] [[7; 7; 7]; []; [7; 7]] eq_refl) as (outs&H&_&Hinv).
  exists outs. split; [exact H|exact Hinv].
Defined.
