(* ===== verification/WsHandshake.v ===== *)
(** * The WebSocket upgrade on the server ([libcloak-server/src/ws_handshake.c])

    The parser reads the request in place.  A pointer into it is an offset, and
    a read outside the buffer is [None].  SHA-1 is OpenSSL's: the class [Sha1]
    holds [EVP_Digest] with [EVP_sha1()], which may fail. *)
From S2P Require Import Prelude Fallible Base64.

(** [EVP_Digest(data, ..., EVP_sha1(), NULL)]: the digest, or a failure. *)
Class Sha1 := evp_sha1 : bytes -> option bytes.

Definition CLOAK_WS_HS_HIDDEN_LEN : Z := 96.
Definition CLOAK_WS_HS_HIDDEN_B64_LEN : Z := 128.
Definition CLOAK_WS_HS_KEY_B64_MAX : Z := 24.
Definition CLOAK_WS_HS_ACCEPT_LEN : Z := 28.
Definition CLOAK_WS_HS_101_LEN : Z := 129.

Definition CLOAK_WS_HS_OK : Z := 0.
Definition CLOAK_WS_HS_ERR_NOT_UPGRADE : Z := 1.
Definition CLOAK_WS_HS_ERR_BAD_VERSION : Z := 2.
Definition CLOAK_WS_HS_ERR_BAD_KEY : Z := 3.
Definition CLOAK_WS_HS_ERR_BAD_HIDDEN : Z := 4.
Definition CLOAK_WS_HS_ERR_MALFORMED : Z := 5.
Definition CLOAK_WS_HS_ERR_INTERNAL : Z := 6.

(** The arrays of the result. *)
Record cloak_ws_hs_t := WsHs { hs_hidden : bytes; hs_accept : bytes }.

Definition WS_GUID : bytes := c_string "258EAFA5-E914-47DA-95CA-C5AB0DC85B11".
Definition WS_GUID_LEN : Z := 36.

(** A literal of the source, with its terminator. *)
Definition literal (s : bytes) : bytes := s ++ [0].

Record span_t := Span { sp_p : Z; sp_len : Z }.

(** ** Classes of octets *)

Definition ascii_lower (c : Z) : Z := if (65 <=? c) && (c <=? 90) then u8 (c - 65 + 97) else c.

Definition is_token_octet (c : Z) : bool :=
  ((97 <=? c) && (c <=? 122)) || ((65 <=? c) && (c <=? 90)) || ((48 <=? c) && (c <=? 57)) ||
  existsb (Z.eqb c) (c_string "!#$%&'*+-.^_`|~").

Definition is_ows (c : Z) : bool := (c =? 32) || (c =? 9).

Definition is_value_octet (c : Z) : bool := if c =? 9 then true else (32 <=? c) && negb (c =? 127).

(** ** The string functions of C *)

(** [memchr(buf + off, c, n)], the offset of the octet. *)
Fixpoint memchr (n : nat) (buf : bytes) (off c : Z) : option (option Z) :=
  match n with
  | O => Some None
  | S n' => b ← buf.[off]; if b =? c then Some (Some off) else memchr n' buf (off + 1) c
  end.

(** [memcmp(buf + off, lit, n) == 0] for a literal of [n] octets. *)
Definition memcmp_eq (buf : bytes) (off : Z) (lit : bytes) : option bool :=
  s ← buf.[off +: zlen lit]; Some (bool_decide (s = lit)).

(** ** Comparisons *)

(** The loop from [i] on, with [n] octets of the span left. *)
Fixpoint ci_eq_loop (n : nat) (buf : bytes) (s : span_t) (lit : bytes) (i : Z) : option bool :=
  match n with
  | O => b ← lit.[i]; Some (b =? 0)
  | S n' =>
      b ← lit.[i];
      if b =? 0 then Some false
      else
        c ← buf.[sp_p s + i];
        if negb (ascii_lower c =? ascii_lower b) then Some false
        else ci_eq_loop n' buf s lit (i + 1)
  end.

Definition ci_eq (buf : bytes) (s : span_t) (lit : bytes) : option bool :=
  ci_eq_loop (Z.to_nat (sp_len s)) buf s lit 0.

(** [while (i < v.len && p(v.p[i])) i++], with [n] octets left. *)
Fixpoint skip_while (n : nat) (buf : bytes) (v : span_t) (p : Z -> bool) (i : Z) : option Z :=
  match n with
  | O => Some i
  | S n' => c ← buf.[sp_p v + i]; if p c then skip_while n' buf v p (i + 1) else Some i
  end.

Definition skip_from (buf : bytes) (v : span_t) (p : Z -> bool) (i : Z) : option Z :=
  skip_while (Z.to_nat (sp_len v - i)) buf v p i.

(** Every round steps past a comma. *)
Fixpoint token_list_loop (fuel : nat) (buf : bytes) (v : span_t) (want : bytes) (i : Z) : option bool :=
  match fuel with
  | O => None
  | S fuel' =>
      start ← skip_from buf v is_ows i;
      i ← skip_from buf v is_token_octet start;
      if i =? start then Some false
      else
        let tok := Span (sp_p v + start) (i - start) in
        after ← skip_from buf v is_ows i;
        stop ← (if after <? sp_len v then c ← buf.[sp_p v + after]; Some (negb (c =? 44)) else Some false);
        if (stop : bool) then Some false
        else
          found ← ci_eq buf tok want;
          if (found : bool) then Some true
          else if sp_len v <=? after then Some false
          else token_list_loop fuel' buf v want (after + 1)
  end.

Definition token_list_contains (buf : bytes) (v : span_t) (want : bytes) : option bool :=
  token_list_loop (S (Z.to_nat (sp_len v))) buf v want 0.

(** ** The scan *)

Record scan_t := Scan {
  sc_hidden : span_t;
  sc_key : span_t;
  sc_have_hidden : bool;
  sc_have_key : bool;
  sc_conn_upgrade : bool;
  sc_upgrade_websocket : bool;
  sc_version_13 : bool
}.

Definition zero_scan : scan_t := Scan (Span 0 0) (Span 0 0) false false false false false.

(** The line and the new offset; the inner [None] is the result 0. *)
Definition next_line (buf : bytes) (len off : Z) : option (option (span_t * Z)) :=
  if len <=? off then Some None
  else
    let avail := u64 (len - off) in
    cr ← memchr (Z.to_nat avail) buf off 13;
    match cr with
    | None => Some None
    | Some cr =>
        let line_len := cr - off in
        if avail <=? u64 (line_len + 1) then Some None
        else
          c ← buf.[cr + 1];
          if negb (c =? 10) then Some None
          else Some (Some (Span off line_len, u64 (off + (line_len + 2))))
    end.

Definition REQLINE_MALFORMED : Z := 0.
Definition REQLINE_NOT_GET : Z := 1.
Definition REQLINE_GET : Z := 2.

Definition parse_request_line (buf : bytes) (line : span_t) : option Z :=
  sp1 ← memchr (Z.to_nat (sp_len line)) buf (sp_p line) 32;
  match sp1 with
  | None => Some REQLINE_MALFORMED
  | Some sp1 =>
      let method_len := sp1 - sp_p line in
      let rest := sp1 + 1 in
      let rest_len := u64 (sp_len line - method_len - 1) in
      sp2 ← memchr (Z.to_nat rest_len) buf rest 32;
      match sp2 with
      | None => Some REQLINE_MALFORMED
      | Some sp2 =>
          if sp2 =? rest then Some REQLINE_MALFORMED
          else
            let vers := sp2 + 1 in
            let vers_len := u64 (rest_len - (sp2 - rest) - 1) in
            same ← (if vers_len <? 6 then Some false else memcmp_eq buf vers (c_string "HTTP/"));
            if negb same then Some REQLINE_MALFORMED
            else
              sp3 ← memchr (Z.to_nat vers_len) buf vers 32;
              if bool_decide (sp3 <> None) then Some REQLINE_MALFORMED
              else
                get ← (if negb (method_len =? 3) then Some false else memcmp_eq buf (sp_p line) (c_string "GET"));
                Some (if negb get then REQLINE_NOT_GET else REQLINE_GET)
      end
  end.

(** The loops that trim a value, with [n] octets left. *)
Fixpoint trim_front (n : nat) (buf : bytes) (v : span_t) : option span_t :=
  match n with
  | O => Some v
  | S n' =>
      c ← buf.[sp_p v];
      if is_ows c then trim_front n' buf (Span (sp_p v + 1) (u64 (sp_len v - 1))) else Some v
  end.
Fixpoint trim_back (n : nat) (buf : bytes) (v : span_t) : option span_t :=
  match n with
  | O => Some v
  | S n' =>
      c ← buf.[sp_p v + u64 (sp_len v - 1)];
      if is_ows c then trim_back n' buf (Span (sp_p v) (u64 (sp_len v - 1))) else Some v
  end.

(** Whether [p] holds of every octet of the span. *)
Definition all_octets (buf : bytes) (v : span_t) (p : Z -> bool) : option bool :=
  i ← skip_from buf v p 0; Some (i =? sp_len v).

Definition set_hidden (s : scan_t) (v : span_t) : scan_t :=
  if sc_have_hidden s then s
  else Scan v (sc_key s) true (sc_have_key s) (sc_conn_upgrade s) (sc_upgrade_websocket s) (sc_version_13 s).
Definition set_key (s : scan_t) (v : span_t) : scan_t :=
  if sc_have_key s then s
  else Scan (sc_hidden s) v (sc_have_hidden s) true (sc_conn_upgrade s) (sc_upgrade_websocket s) (sc_version_13 s).
Definition or_flags (s : scan_t) (conn upgrade version : bool) : scan_t :=
  Scan (sc_hidden s) (sc_key s) (sc_have_hidden s) (sc_have_key s)
    (sc_conn_upgrade s || conn) (sc_upgrade_websocket s || upgrade) (sc_version_13 s || version).

(** The inner [None] is the result 0. *)
Definition scan_header_line (buf : bytes) (line : span_t) (s : scan_t) : option (option scan_t) :=
  let! colon := memchr (Z.to_nat (sp_len line)) buf (sp_p line) 58 in
  let name := Span (sp_p line) (colon - sp_p line) in
  if sp_len name =? 0 then Some None
  else
    name_ok ← all_octets buf name is_token_octet;
    if negb name_ok then Some None
    else
      let val := Span (colon + 1) (u64 (sp_len line - sp_len name - 1)) in
      val ← trim_front (Z.to_nat (sp_len val)) buf val;
      val ← trim_back (Z.to_nat (sp_len val)) buf val;
      val_ok ← all_octets buf val is_value_octet;
      if negb val_ok then Some None
      else
        is_hidden ← ci_eq buf name (literal (c_string "hidden"));
        if (is_hidden : bool) then Some (Some (set_hidden s val))
        else
          is_key ← ci_eq buf name (literal (c_string "sec-websocket-key"));
          if (is_key : bool) then Some (Some (set_key s val))
          else
            is_conn ← ci_eq buf name (literal (c_string "connection"));
            if (is_conn : bool) then
              f ← token_list_contains buf val (literal (c_string "upgrade")); Some (Some (or_flags s f false false))
            else
              is_upgrade ← ci_eq buf name (literal (c_string "upgrade"));
              if (is_upgrade : bool) then
                f ← token_list_contains buf val (literal (c_string "websocket")); Some (Some (or_flags s false f false))
              else
                is_version ← ci_eq buf name (literal (c_string "sec-websocket-version"));
                if (is_version : bool) then
                  f ← token_list_contains buf val (literal (c_string "13")); Some (Some (or_flags s false false f))
                else Some (Some s).

(** The loop over the header lines: [saw_blank] and the scan, or the error. *)
Fixpoint header_loop (fuel : nat) (req : bytes) (len off : Z) (s : scan_t) : option (option (bool * scan_t)) :=
  match fuel with
  | O => None
  | S fuel' =>
      next ← next_line req len off;
      match next with
      | None => Some (Some (false, s))
      | Some (line, off) =>
          if sp_len line =? 0 then Some (Some (true, s))
          else let! s := scan_header_line req line s in header_loop fuel' req len off s
      end
  end.

(** What the span decodes to; the inner [None] is the result 0.  The local
    arrays hold anything at first, here zeros. *)
Definition decode_exact (req : bytes) (inp : span_t) (b64_cap out_len : Z) : option (option bytes) :=
  let tmp := replicate (Z.to_nat (CLOAK_WS_HS_HIDDEN_B64_LEN + 1)) 0 in
  if u64 (zlen tmp - 1) <? b64_cap then Some None
  else if (sp_len inp =? 0) || (b64_cap <? sp_len inp) then Some None
  else
    src ← req.[sp_p inp +: sp_len inp];
    tmp ← tmp.[0 <- src];
    tmp ← mem_set tmp (sp_len inp) 0;
    let decoded := replicate (Z.to_nat CLOAK_WS_HS_HIDDEN_LEN) 0 in
    '(rc, decoded, got) ← cloak_base64_decode (Some tmp) (Some decoded) (zlen decoded);
    if negb (rc =? 0) then Some None
    else if negb (default 0 got =? out_len) then Some None
    else out ← decoded.[0 +: out_len]; Some (Some out).

Section handshake.
Context {SHA : Sha1}.

(** The array [out] of [CLOAK_WS_HS_ACCEPT_LEN + 1] characters. *)
Definition compute_accept (req : bytes) (key : span_t) (out : bytes) : option (option bytes) :=
  if CLOAK_WS_HS_KEY_B64_MAX <? sp_len key then Some None
  else
    let buf := replicate (Z.to_nat (CLOAK_WS_HS_KEY_B64_MAX + WS_GUID_LEN)) 0 in
    src ← req.[sp_p key +: sp_len key];
    buf ← buf.[0 <- src];
    buf ← buf.[sp_len key <- WS_GUID];
    input ← buf.[0 +: u64 (sp_len key + WS_GUID_LEN)];
    match evp_sha1 input with
    | None => Some None
    | Some md =>
        if negb (zlen md =? 20) then Some None
        else
          '(rc, out) ← cloak_base64_encode (Some md) (zlen md) (Some out) (CLOAK_WS_HS_ACCEPT_LEN + 1);
          if negb (rc =? 0) then Some None else Some out
    end.

(** NULL is [None]; the return value and what [out] holds. *)
Definition cloak_ws_handshake_parse (req : option bytes) (len : Z) (out : option cloak_ws_hs_t)
    : option (Z * option cloak_ws_hs_t) :=
  match req, out with
  | Some req, Some _ =>
      if len =? 0 then Some (CLOAK_WS_HS_ERR_MALFORMED, out)
      else
        first ← next_line req len 0;
        match first with
        | None => Some (CLOAK_WS_HS_ERR_MALFORMED, out)
        | Some (line, off) =>
            reqline ← parse_request_line req line;
            if reqline =? REQLINE_MALFORMED then Some (CLOAK_WS_HS_ERR_MALFORMED, out)
            else
              scanned ← header_loop (S (length req)) req len off zero_scan;
              match scanned with
              | None => Some (CLOAK_WS_HS_ERR_MALFORMED, out)
              | Some (saw_blank, s) =>
                  if negb saw_blank then Some (CLOAK_WS_HS_ERR_MALFORMED, out)
                  else
                    hidden ← (if negb (sc_have_hidden s) then Some None
                              else decode_exact req (sc_hidden s) CLOAK_WS_HS_HIDDEN_B64_LEN CLOAK_WS_HS_HIDDEN_LEN);
                    match hidden with
                    | None => Some (CLOAK_WS_HS_ERR_BAD_HIDDEN, out)
                    | Some hidden =>
                        if negb (sc_conn_upgrade s) || negb (sc_upgrade_websocket s) || negb (reqline =? REQLINE_GET)
                        then Some (CLOAK_WS_HS_ERR_NOT_UPGRADE, out)
                        else if negb (sc_version_13 s) then Some (CLOAK_WS_HS_ERR_BAD_VERSION, out)
                        else
                          key_bytes ← (if negb (sc_have_key s) then Some None
                                       else decode_exact req (sc_key s) CLOAK_WS_HS_KEY_B64_MAX 16);
                          match key_bytes with
                          | None => Some (CLOAK_WS_HS_ERR_BAD_KEY, out)
                          | Some _ =>
                              accept ← compute_accept req (sc_key s)
                                         (replicate (Z.to_nat (CLOAK_WS_HS_ACCEPT_LEN + 1)) 0);
                              match accept with
                              | None => Some (CLOAK_WS_HS_ERR_INTERNAL, out)
                              | Some accept => Some (CLOAK_WS_HS_OK, Some (WsHs hidden accept))
                              end
                          end
                    end
              end
        end
  | _, _ => Some (CLOAK_WS_HS_ERR_MALFORMED, out)
  end.

End handshake.

(** ** The answer *)

(** Carriage return and line feed. *)
Definition CRLF : bytes := [13; 10].

Definition RESP_HEAD : bytes :=
  c_string "HTTP/1.1 101 Switching Protocols" ++ CRLF ++ c_string "Upgrade: websocket" ++ CRLF ++
  c_string "Connection: Upgrade" ++ CRLF ++ c_string "Sec-WebSocket-Accept: ".
Definition RESP_TAIL : bytes := CRLF ++ CRLF.
Definition RESP_HEAD_LEN : Z := zlen RESP_HEAD.
Definition RESP_TAIL_LEN : Z := zlen RESP_TAIL.

Definition is_base64_char (c : Z) : bool :=
  ((65 <=? c) && (c <=? 90)) || ((97 <=? c) && (c <=? 122)) || ((48 <=? c) && (c <=? 57)) ||
  (c =? 43) || (c =? 47) || (c =? 61).

(** The loop over the characters, [n] of them left. *)
Fixpoint accept_loop (n : nat) (accept : bytes) (i : Z) : option bool :=
  match n with
  | O => Some true
  | S n' => c ← accept.[i]; if negb (is_base64_char c) then Some false else accept_loop n' accept (i + 1)
  end.

(** The return value and the buffer. *)
Definition cloak_ws_handshake_compose_101 (buf : option bytes) (cap : Z) (accept : option bytes)
    : option (Z * option bytes) :=
  match buf, accept with
  | Some b, Some accept =>
      shape ← accept_loop (Z.to_nat CLOAK_WS_HS_ACCEPT_LEN) accept 0;
      if negb shape then Some (-1, buf)
      else
        c ← accept.[CLOAK_WS_HS_ACCEPT_LEN];
        if negb (c =? 0) then Some (-1, buf)
        else if cap <? RESP_HEAD_LEN + CLOAK_WS_HS_ACCEPT_LEN + RESP_TAIL_LEN then Some (-1, buf)
        else
          a ← accept.[0 +: CLOAK_WS_HS_ACCEPT_LEN];
          b ← b.[0 <- RESP_HEAD];
          b ← b.[RESP_HEAD_LEN <- a];
          b ← b.[RESP_HEAD_LEN + CLOAK_WS_HS_ACCEPT_LEN <- RESP_TAIL];
          Some (RESP_HEAD_LEN + CLOAK_WS_HS_ACCEPT_LEN + RESP_TAIL_LEN, Some b)
  | _, _ => Some (-1, buf)
  end.

(** The compile-time assertion of the source. *)
Example composed_length : RESP_HEAD_LEN + CLOAK_WS_HS_ACCEPT_LEN + RESP_TAIL_LEN = CLOAK_WS_HS_101_LEN.
Proof. reflexivity. Qed.
