(* ===== verification/WsHandshakeSpec.v ===== *)
(** * What the WebSocket upgrade means

    A request is a request line and header lines, each ended by CRLF, then an
    empty line; a header line is a name of token octets, a colon and a value;
    the values of the list headers are cut at commas.  The parser of
    [WsHandshake] is shown to be this grammar and a verdict over the fields. *)
From S2P Require Import Prelude Fallible Octets Base64 WsHandshake.

(** ** Reference definitions on lists *)

(** The pieces between the octets [c]; there is at least one. *)
Fixpoint split_on (c : Z) (l : bytes) : list bytes :=
  match l with
  | [] => [[]]
  | x :: l' =>
      if x =? c then [] :: split_on c l'
      else match split_on c l' with [] => [[x]] | e :: es => (x :: e) :: es end
  end.

(** An element of a list header: a token with white space around it. *)
Definition list_element (e : bytes) : option bytes :=
  let r := suffix_while ows e in
  if bool_decide (prefix_while tchar r = []) then None
  else if forallb ows (suffix_while tchar r) then Some (prefix_while tchar r) else None.

(** The elements in front of the first piece that is not one. *)
Fixpoint leading {A B} (f : A -> option B) (l : list A) : list B :=
  match l with
  | [] => []
  | x :: l' => match f x with Some y => y :: leading f l' | None => [] end
  end.

Definition lists (v want : bytes) : bool :=
  existsb (fun t => ci_equal t want) (leading list_element (split_on 44 v)).

(** The span of the buffer that holds [l]. *)
Definition reads (buf : bytes) (s : span_t) (l : bytes) : Prop := buf.[sp_p s +: sp_len s] = Some l.

(** ** Lemmas on the reference definitions *)

(** The classes of the code are those of the RFC. *)
Lemma token_tchar c : is_token_octet c = tchar c.
Proof.
  revert c. apply ascii_cases; [|by apply below_128; vm_compute]. intros c Hc. unfold is_token_octet, tchar.
  rewrite !outside_list by done. lia.
Qed.

Lemma is_ows_ows c : is_ows c = ows c.
Proof. unfold is_ows, ows. cbn. by rewrite orb_false_r. Qed.

Lemma value_octet_char c : is_value_octet c = value_char c.
Proof. unfold is_value_octet, value_char, ows. cbn. destruct (Z.eqb_spec c 9); lia. Qed.

Lemma ascii_lower_to_lower c : ascii_lower c = to_lower c.
Proof.
  revert c. apply ascii_cases; [|by apply below_128; vm_compute]. intros c Hc. unfold ascii_lower, to_lower.
  rewrite replaced_outside by done. by destruct (Z.leb_spec 65 c), (Z.leb_spec c 90); try lia.
Qed.

Lemma ci_equal_code a b : ci_equal a b = bool_decide (map ascii_lower a = map ascii_lower b).
Proof. unfold ci_equal. by rewrite !(map_ext _ _ ascii_lower_to_lower). Qed.

Lemma trim_code l : trim l = rev (suffix_while is_ows (rev (suffix_while is_ows l))).
Proof. unfold trim. by rewrite !(suffix_while_ext _ _ is_ows_ows). Qed.

Lemma list_element_code e :
  list_element e =
  (let r := suffix_while is_ows e in
   if bool_decide (prefix_while is_token_octet r = []) then None
   else if forallb is_ows (suffix_while is_token_octet r) then Some (prefix_while is_token_octet r) else None).
Proof.
  unfold list_element. cbn zeta.
  by rewrite !(suffix_while_ext _ _ is_ows_ows), !(prefix_while_ext _ _ token_tchar), !(suffix_while_ext _ _ token_tchar), !(forallb_same _ _ is_ows_ows).
Qed.

Lemma prefix_suffix p l : prefix_while p l ++ suffix_while p l = l.
Proof. induction l as [|c l IH]; [done|]. cbn. destruct (p c); [|done]. cbn. by rewrite IH. Qed.

Lemma suffix_drop p l : suffix_while p l = drop (length (prefix_while p l)) l.
Proof. induction l as [|c l IH]; [done|]. cbn. destruct (p c); [|done]. cbn. by rewrite IH. Qed.

Lemma suffix_head p l c r : suffix_while p l = c :: r -> p c = false.
Proof. induction l as [|x l IH]; [done|]. cbn. destruct (p x) eqn:E; [done|]. by intros [= -> ->]. Qed.

Lemma prefix_all p l : forallb p (prefix_while p l) = true.
Proof. induction l as [|c l IH]; [done|]. cbn. destruct (p c) eqn:E; [|done]. cbn. by rewrite E. Qed.

Lemma prefix_full p l : (length (prefix_while p l) = length l) <-> forallb p l = true.
Proof.
  induction l as [|c l IH]; [done|]. cbn. destruct (p c); cbn; [|split; intros; discriminate].
  rewrite <- IH. lia.
Qed.

Lemma zlen_prefix p l : 0 <= zlen (prefix_while p l) <= zlen l.
Proof. pose proof (prefix_suffix p l) as H. apply (f_equal zlen) in H. zlia. Qed.

(** Cutting at an octet outside the class does not change a prefix. *)
Section cut.
Context (p q : Z -> bool) (Hpq : forall c, p c = true -> q c = true).

Lemma prefix_cut l : prefix_while p (prefix_while q l) = prefix_while p l.
Proof.
  induction l as [|c l IH]; [done|]. cbn. destruct (p c) eqn:E.
  - rewrite (Hpq _ E). cbn. by rewrite E, IH.
  - destruct (q c); cbn; by rewrite ?E.
Qed.

Lemma suffix_cut l : suffix_while p (prefix_while q l) = prefix_while q (suffix_while p l).
Proof.
  induction l as [|c l IH]; [done|]. cbn. destruct (p c) eqn:E.
  - rewrite (Hpq _ E). cbn. by rewrite E, IH.
  - cbn. destruct (q c) eqn:F; cbn; by rewrite ?E, ?F.
Qed.
End cut.

Lemma ows_not_comma c : is_ows c = true -> negb (c =? 44) = true.
Proof. unfold is_ows. lia. Qed.

Lemma token_not c d : is_token_octet d = false -> is_token_octet c = true -> negb (c =? d) = true.
Proof. intros Hd Hc. destruct (Z.eqb_spec c d) as [->|]; [congruence|done]. Qed.

Lemma token_not_comma c : is_token_octet c = true -> negb (c =? 44) = true.
Proof. by apply token_not. Qed.

Lemma split_on_eq c l :
  split_on c l = prefix_while (fun x => negb (x =? c)) l ::
    match suffix_while (fun x => negb (x =? c)) l with [] => [] | _ :: r => split_on c r end.
Proof.
  induction l as [|x l IH]; [done|]. cbn. destruct (x =? c) eqn:E; cbn; [done|]. by rewrite IH.
Qed.

(** ** Reading a span *)

Section buffer.
Context (buf : bytes) (s : span_t) (l : bytes) (H : reads buf s l).

Lemma reads_len : sp_len s = zlen l.
Proof. apply mem_read_inv in H as (_&_&_&_&?). lia. Qed.

Lemma reads_bounds : 0 <= sp_p s /\ sp_p s + zlen l <= zlen buf.
Proof. pose proof reads_len. apply mem_read_inv in H as (?&?&?&_&_). lia. Qed.

Lemma reads_get i c : l !! Z.to_nat i = Some c -> 0 <= i -> buf.[sp_p s + i] = Some c.
Proof.
  intros Hc Hi. pose proof (lookup_lt_Some _ _ _ Hc) as Hlt. pose proof reads_len.
  rewrite (mem_read_get _ _ _ _ i H) by (unfold zlen in *; lia). by rewrite mem_get_lookup.
Qed.

Lemma reads_sub i n : 0 <= i -> 0 <= n -> i + n <= zlen l ->
  reads buf (Span (sp_p s + i) n) (take (Z.to_nat n) (drop (Z.to_nat i) l)).
Proof.
  intros Hi Hn Hle. pose proof reads_bounds. pose proof reads_len.
  pose proof H as Hr. apply mem_read_inv in Hr as (_&_&_&Hl&_). unfold reads. cbn.
  rewrite mem_read_Some by lia. f_equal. rewrite Hl at 1. rewrite skipn_firstn_comm, firstn_firstn, skipn_skipn.
  f_equal; [lia|]. f_equal. lia.
Qed.

Lemma skip_from_spec p i : 0 <= i <= zlen l ->
  skip_from buf s p i = Some (i + zlen (prefix_while p (drop (Z.to_nat i) l))).
Proof.
  unfold skip_from. intros Hi. rewrite reads_len.
  remember (Z.to_nat (zlen l - i)) as n eqn:Hn. revert i Hi Hn. induction n as [|n IH]; intros i Hi Hn.
  - cbn. rewrite drop_ge by (unfold zlen in *; lia). cbn [prefix_while]. f_equal. zlia.
  - cbn. destruct (l !! Z.to_nat i) as [c|] eqn:Hc; [|apply lookup_ge_None in Hc; unfold zlen in *; lia].
    rewrite (reads_get i c) by (done || lia). cbn [mbind option_bind].
    rewrite (drop_S _ _ _ Hc). cbn. destruct (p c).
    + rewrite IH by lia. replace (Z.to_nat (i + 1)) with (S (Z.to_nat i)) by lia. rewrite zlen_cons. f_equal. lia.
    + f_equal. zlia.
Qed.

Lemma all_octets_spec p : all_octets buf s p = Some (forallb p l).
Proof.
  unfold all_octets. pose proof (zlen_nonneg l). rewrite skip_from_spec by lia. cbn [mbind option_bind].
  change (Z.to_nat 0) with 0%nat. rewrite drop_0, reads_len. f_equal.
  apply eq_true_iff_eq. rewrite <- prefix_full. unfold zlen. lia.
Qed.
End buffer.

(** The first octet [c] of what is read from [off] on. *)
Lemma memchr_spec n buf off c l :
  buf.[off +: Z.of_nat n] = Some l ->
  memchr n buf off c =
  Some (let r := suffix_while (fun x => negb (x =? c)) l in
        if bool_decide (r = []) then None
        else Some (off + zlen (prefix_while (fun x => negb (x =? c)) l))).
Proof.
  revert off l. induction n as [|n IH]; intros off l Hl.
  - pose proof Hl as (_&_&_&_&Hz)%mem_read_inv. destruct l; [done|]. zlia.
  - pose proof Hl as (Ho&_&Hb&_&Hz)%mem_read_inv. destruct l as [|x l]; [zlia|].
    assert (Hx : buf.[off] = Some x).
    { replace off with (off + 0) by lia. rewrite (mem_read_get _ _ _ _ 0 Hl) by lia. done. }
    assert (Hr : buf.[off + 1 +: Z.of_nat n] = Some l).
    { pose proof (reads_sub buf (Span off (Z.of_nat (S n))) (x :: l) Hl 1 (Z.of_nat n)) as Hs.
      unfold reads in Hs. cbn [sp_p sp_len] in Hs. rewrite Hs by zlia.
      change (drop (Z.to_nat 1) (x :: l)) with l. rewrite firstn_all2; [done|]. rewrite zlen_cons in Hz.
      unfold zlen in Hz. lia. }
    cbn [memchr]. rewrite Hx. cbn [mbind option_bind prefix_while suffix_while].
    destruct (x =? c); cbn [negb].
    + rewrite bool_decide_eq_false_2 by done. f_equal. f_equal. zlia.
    + rewrite (IH _ _ Hr). cbn zeta. case_bool_decide; [done|]. f_equal. f_equal. rewrite zlen_cons. lia.
Qed.

(** ** Comparing and listing *)

Lemma ci_eq_spec buf s l lit : reads buf s l -> no_nul lit -> ci_eq buf s (literal lit) = Some (ci_equal l lit).
Proof.
  intros H Hn. rewrite ci_equal_code. unfold ci_eq. rewrite (reads_len _ _ _ H).
  assert (Hgen : forall n l' lit' i, 0 <= i -> n = length l' ->
    drop (Z.to_nat i) l = l' -> drop (Z.to_nat i) lit = lit' -> i <= zlen lit ->
    ci_eq_loop n buf s (literal lit) i = Some (bool_decide (map ascii_lower l' = map ascii_lower lit'))).
  2:{ rewrite (Hgen _ l lit 0); [done|lia|by rewrite zlen_length|done|done|zlia]. }
  unfold literal. induction n as [|n IH]; intros l' lit' i Hi Hl H1 H2 Hle; cbn [ci_eq_loop].
  - destruct l'; [|done]. destruct (lit !! Z.to_nat i) as [b|] eqn:Hb.
    + rewrite mem_get_app_l, mem_get_lookup, Hb by (lia || (apply lookup_lt_Some in Hb; unfold zlen; lia)).
      cbn [mbind option_bind]. rewrite (drop_S _ _ _ Hb) in H2. subst lit'. cbn.
      rewrite bool_decide_eq_false_2 by done. pose proof (proj1 (Forall_lookup _ _) Hn _ _ Hb). f_equal. by apply Z.eqb_neq.
    + apply lookup_ge_None in Hb. rewrite drop_ge in H2 by done. subst lit'.
      assert (i = zlen lit) by (unfold zlen in *; lia). rewrite mem_get_app_r by lia.
      replace (i - zlen lit) with 0 by lia. done.
  - destruct l' as [|c l']; [done|]. injection Hl as Hl.
    destruct (l !! Z.to_nat i) as [c'|] eqn:Hc; [|apply lookup_ge_None in Hc; rewrite drop_ge in H1 by done; done].
    rewrite (drop_S _ _ _ Hc) in H1. injection H1 as -> H1.
    destruct (lit !! Z.to_nat i) as [b|] eqn:Hb.
    + rewrite mem_get_app_l, (mem_get_lookup lit i), Hb by (lia || (apply lookup_lt_Some in Hb; unfold zlen; lia)).
      cbn [mbind option_bind]. rewrite (drop_S _ _ _ Hb) in H2. subst lit'.
      rewrite (proj2 (Z.eqb_neq b 0) (proj1 (Forall_lookup _ _) Hn _ _ Hb)).
      rewrite (reads_get _ _ _ H _ _ Hc Hi). cbn [mbind option_bind map].
      destruct (Z.eqb_spec (ascii_lower c) (ascii_lower b)) as [E|E]; cbn [negb].
      * rewrite (IH l' (drop (S (Z.to_nat i)) lit)); try done; try lia.
        2,3: by replace (Z.to_nat (i + 1)) with (S (Z.to_nat i)) by lia.
        2:{ apply lookup_lt_Some in Hb. unfold zlen. lia. }
        f_equal. apply bool_decide_ext. rewrite E. split; [by intros ->|by intros [= ?]].
      * rewrite bool_decide_eq_false_2 by congruence. done.
    + apply lookup_ge_None in Hb. rewrite drop_ge in H2 by done. subst lit'.
      assert (i = zlen lit) by (unfold zlen in *; lia). rewrite mem_get_app_r by lia.
      replace (i - zlen lit) with 0 by lia. cbn. by rewrite bool_decide_eq_false_2.
Qed.

(** One round of the loop, on the list from [i] on. *)
Lemma list_element_cut r :
  let t := prefix_while is_token_octet (suffix_while is_ows r) in
  let rest := suffix_while is_ows (suffix_while is_token_octet (suffix_while is_ows r)) in
  leading list_element (split_on 44 r) =
  if bool_decide (t = []) then []
  else match rest with
       | [] => [t]
       | c :: rest' => if c =? 44 then t :: leading list_element (split_on 44 rest') else []
       end.
Proof.
  cbn zeta. rewrite split_on_eq. cbn [leading]. rewrite list_element_code. cbn zeta.
  rewrite (suffix_cut _ _ ows_not_comma), (prefix_cut _ _ token_not_comma), (suffix_cut _ _ token_not_comma).
  set (q := fun x => negb (x =? 44)). set (r1 := suffix_while is_ows r). set (r2 := suffix_while is_token_octet r1).
  case_bool_decide; [done|].
  assert (Hq : suffix_while q r = suffix_while q r2).
  { assert (Hs : forall p l, (forall c, p c = true -> q c = true) -> suffix_while q l = suffix_while q (suffix_while p l)).
    { intros p l Hp. induction l as [|c l IH]; [done|]. cbn. destruct (p c) eqn:E; [by rewrite (Hp _ E)|done]. }
    by rewrite (Hs is_ows r ows_not_comma), (Hs is_token_octet (suffix_while is_ows r) token_not_comma). }
  rewrite Hq. assert (Hall : forallb is_ows (prefix_while q r2) =
    match suffix_while is_ows r2 with [] => true | c :: _ => c =? 44 end).
  { clear. induction r2 as [|c l IH]; [done|]. cbn. unfold q at 1. destruct (is_ows c) eqn:E.
    - rewrite (ows_not_comma _ E). cbn. by rewrite E, IH.
    - destruct (c =? 44); cbn; by rewrite ?E. }
  rewrite Hall.
  assert (Hs : suffix_while q r2 = suffix_while q (suffix_while is_ows r2)).
  { clear. induction r2 as [|c l IH]; [done|]. cbn. destruct (is_ows c) eqn:E; [by rewrite (ows_not_comma _ E : q c = true)|done]. }
  rewrite Hs. destruct (suffix_while is_ows r2) as [|c r3]; [done|]. destruct (Z.eqb_spec c 44) as [->|]; done.
Qed.

Lemma token_list_spec buf v l want : reads buf v l -> no_nul want ->
  token_list_contains buf v (literal want) = Some (lists l want).
Proof.
  intros H Hw. unfold token_list_contains, lists. rewrite (reads_len _ _ _ H), zlen_length.
  assert (Hgen : forall fuel i, 0 <= i <= zlen l -> (length l - Z.to_nat i < fuel)%nat ->
    token_list_loop fuel buf v (literal want) i =
    Some (existsb (fun t => ci_equal t want) (leading list_element (split_on 44 (drop (Z.to_nat i) l))))).
  2:{ apply (Hgen _ 0); [zlia|lia]. }
  induction fuel as [|fuel IH]; intros i Hi Hf; [lia|]. cbn [token_list_loop].
  rewrite list_element_cut. set (r := drop (Z.to_nat i) l).
  assert (Hstep : forall p j r, 0 <= j <= zlen l -> r = drop (Z.to_nat j) l ->
    skip_from buf v p j = Some (j + zlen (prefix_while p r)) /\
    0 <= j + zlen (prefix_while p r) <= zlen l /\
    suffix_while p r = drop (Z.to_nat (j + zlen (prefix_while p r))) l).
  { intros p j r' Hj ->. split; [by apply skip_from_spec|]. pose proof (zlen_prefix p (drop (Z.to_nat j) l)) as Hp.
    rewrite zlen_drop in Hp by lia. split; [lia|]. rewrite suffix_drop, skipn_skipn. f_equal. unfold zlen in *. lia. }
  destruct (Hstep is_ows i r Hi eq_refl) as (E1&B1&S1). rewrite E1. cbn [mbind option_bind].
  destruct (Hstep is_token_octet _ _ B1 S1) as (E2&B2&S2). rewrite E2. cbn [mbind option_bind].
  set (i1 := i + zlen (prefix_while is_ows r)) in *.
  set (t := prefix_while is_token_octet (suffix_while is_ows r)) in *.
  destruct (Hstep is_ows _ _ B2 S2) as (E3&B3&S3).
  destruct (Z.eqb_spec (i1 + zlen t) i1) as [Ht|Ht].
  { rewrite bool_decide_eq_true_2; [done|]. apply zlen_zero. lia. }
  rewrite bool_decide_eq_false_2 by (intros Et; apply Ht; rewrite Et, zlen_nil; lia). rewrite E3. cbn [mbind option_bind].
  set (after := i1 + zlen t + _) in *. rewrite (reads_len _ _ _ H). rewrite S3.
  assert (Htok : reads buf (Span (sp_p v + i1) (i1 + zlen t - i1)) t).
  { pose proof (reads_sub _ _ _ H i1 (zlen t)) as Hr. replace (i1 + zlen t - i1) with (zlen t) by lia.
    rewrite <- S1 in Hr. rewrite <- (prefix_suffix is_token_octet (suffix_while is_ows r)) in Hr. fold t in Hr.
    rewrite take_app_le, firstn_all2 in Hr by (unfold zlen; lia). apply Hr; zlia. }
  destruct (Z.ltb_spec after (zlen l)) as [Ha|Ha].
  - destruct (l !! Z.to_nat after) as [c|] eqn:Hc; [|apply lookup_ge_None in Hc; unfold zlen in *; lia].
    rewrite (reads_get _ _ _ H _ _ Hc) by lia. cbn [mbind option_bind]. rewrite (drop_S _ _ _ Hc).
    destruct (c =? 44); cbn [negb]; [|done].
    rewrite (ci_eq_spec _ _ _ _ Htok Hw). cbn [mbind option_bind existsb].
    destruct (ci_equal t want); [done|]. rewrite (proj2 (Z.leb_gt _ _)) by lia.
    rewrite IH by (unfold zlen in *; lia). by replace (Z.to_nat (after + 1)) with (S (Z.to_nat after)) by lia.
  - rewrite drop_ge by (unfold zlen in *; lia). cbn [mbind option_bind].
    rewrite (ci_eq_spec _ _ _ _ Htok Hw). cbn [mbind option_bind existsb].
    destruct (ci_equal t want); [done|]. by rewrite (proj2 (Z.leb_le _ _)) by lia.
Qed.

(** ** Lines *)

(** The line in front of a CRLF and what follows, when the first carriage
    return is that of a CRLF. *)
Definition line_at (t : bytes) : option (bytes * bytes) :=
  match suffix_while (fun x => negb (x =? 13)) t with
  | _ :: c :: rest => if c =? 10 then Some (prefix_while (fun x => negb (x =? 13)) t, rest) else None
  | _ => None
  end.

Lemma line_at_iff t l rest : line_at t = Some (l, rest) <-> (13 ∉ l) /\ t = l ++ CRLF ++ rest.
Proof.
  unfold line_at. split.
  - intros H. pose proof (prefix_suffix (fun x => negb (x =? 13)) t) as Hps.
    destruct (suffix_while _ t) as [|x [|c r]] eqn:Hs; [done..|].
    destruct (Z.eqb_spec c 10) as [->|]; [|done]. injection H as <- <-.
    apply suffix_head in Hs. destruct (Z.eqb_spec x 13) as [->|]; [|done]. split; [|symmetry; exact Hps].
    pose proof (prefix_all (fun x => negb (x =? 13)) t) as Ha. intros Hin%list_elem_of_In.
    rewrite forallb_forall in Ha. by apply Ha in Hin.
  - intros [Hl ->]. assert (prefix_while (fun x => negb (x =? 13)) (l ++ CRLF ++ rest) = l /\
      suffix_while (fun x => negb (x =? 13)) (l ++ CRLF ++ rest) = CRLF ++ rest) as [-> ->]; [|done].
    induction l as [|c l IH]; [done|]. apply not_elem_of_cons in Hl as [Hc Hl]. cbn [app prefix_while suffix_while].
    rewrite (proj2 (Z.eqb_neq c 13)) by done. cbn [negb]. destruct (IH Hl) as [-> ->]. done.
Qed.

Lemma suffix_nil p l : suffix_while p l = [] <-> prefix_while p l = l.
Proof.
  pose proof (prefix_suffix p l) as H. split; [intros E; rewrite E, app_nil_r in H; done|].
  intros E. rewrite E in H. apply (app_inv_head l). by rewrite app_nil_r.
Qed.

Section request.
Context (req : bytes) (Hreq : zlen req < 9223372036854775808).

Lemma reads_drop off : 0 <= off <= zlen req -> reads req (Span off (zlen req - off)) (drop (Z.to_nat off) req).
Proof.
  intros H. unfold reads. cbn. rewrite mem_read_Some by lia. f_equal. apply firstn_all2. rewrite length_drop.
  unfold zlen in *. lia.
Qed.

Lemma next_line_spec off : 0 <= off <= zlen req ->
  next_line req (zlen req) off =
  Some (match line_at (drop (Z.to_nat off) req) with
        | None => None
        | Some (l, _) => Some (Span off (zlen l), off + (zlen l + 2))
        end).
Proof.
  intros Ho. unfold next_line. pose proof (zlen_nonneg req).
  destruct (Z.leb_spec (zlen req) off).
  { rewrite drop_ge by (unfold zlen in *; lia). done. }
  rewrite u64_small by lia. set (t := drop (Z.to_nat off) req).
  assert (Ht : zlen t = zlen req - off) by (apply zlen_drop; lia).
  rewrite (memchr_spec _ _ _ _ t) by (rewrite Z2Nat.id by lia; by apply reads_drop).
  cbn [mbind option_bind]. cbn zeta. unfold line_at.
  pose proof (prefix_suffix (fun x => negb (x =? 13)) t) as Hps.
  set (l := prefix_while _ t) in *. destruct (suffix_while _ t) as [|x [|c r]] eqn:Hs.
  - rewrite bool_decide_eq_true_2 by done. done.
  - rewrite bool_decide_eq_false_2 by done. apply (f_equal zlen) in Hps. rewrite zlen_app in Hps.
    replace (off + zlen l - off) with (zlen l) by lia. zlen_pos. rewrite u64_small by zlia.
    rewrite (proj2 (Z.leb_le _ _)) by zlia. done.
  - rewrite bool_decide_eq_false_2 by done. pose proof Hps as Hlen. apply (f_equal zlen) in Hlen. rewrite zlen_app in Hlen.
    replace (off + zlen l - off) with (zlen l) by lia. zlen_pos. rewrite u64_small by zlia.
    rewrite (proj2 (Z.leb_gt _ _)) by zlia.
    rewrite <- Z.add_assoc, (reads_get _ _ _ (reads_drop off ltac:(lia)) _ c); [|fold t; rewrite <- Hps|lia].
    2:{ rewrite lookup_app_r by (unfold zlen; lia). replace (Z.to_nat (zlen l + 1) - length l)%nat with 1%nat
          by (unfold zlen; lia). done. }
    cbn [mbind option_bind]. destruct (c =? 10); cbn [negb]; [|done]. by rewrite u64_small by zlia.
Qed.

(** ** The request line *)

(** The method of a request line: three words, the second not empty, the third
    [HTTP/] and more. *)
Definition request_line (l : bytes) : option bytes :=
  match split_on 32 l with
  | [m; t; v] =>
      if negb (bool_decide (t = [])) && (6 <=? zlen v) && bool_decide (take 5 v = c_string "HTTP/") then Some m else None
  | _ => None
  end.

Lemma memcmp_spec s l lit : reads req s l -> zlen lit <= zlen l ->
  memcmp_eq req (sp_p s) lit = Some (bool_decide (take (length lit) l = lit)).
Proof.
  intros H Hl. unfold memcmp_eq. pose proof (reads_sub _ _ _ H 0 (zlen lit)) as Hr. unfold reads in Hr.
  cbn [sp_p sp_len] in Hr. rewrite Z.add_0_r in Hr. rewrite Hr by zlia. change (Z.to_nat 0) with 0%nat.
  by rewrite drop_0, zlen_length.
Qed.

(** What stands behind the octet that [memchr] found. *)
Lemma memchr_split s l c : reads req s l ->
  memchr (Z.to_nat (sp_len s)) req (sp_p s) c =
    Some (match suffix_while (fun x => negb (x =? c)) l with
          | [] => None
          | _ => Some (sp_p s + zlen (prefix_while (fun x => negb (x =? c)) l)) end) /\
  match suffix_while (fun x => negb (x =? c)) l with
  | [] => True
  | _ :: r => let n := zlen (prefix_while (fun x => negb (x =? c)) l) in
      reads req (Span (sp_p s) n) (prefix_while (fun x => negb (x =? c)) l) /\
      reads req (Span (sp_p s + n + 1) (zlen r)) r /\ zlen l = n + 1 + zlen r
  end.
Proof.
  intros H. rewrite (memchr_spec _ _ _ _ l).
  2:{ rewrite (reads_len _ _ _ H), zlen_length. unfold reads in H. rewrite (reads_len _ _ _ H) in H. exact H. }
  set (q := fun x => negb (x =? c)). pose proof (prefix_suffix q l) as Hps. cbn zeta.
  destruct (suffix_while q l) as [|x r] eqn:Hs; [done|]. split; [by rewrite bool_decide_eq_false_2|].
  clear Hs. generalize (prefix_while q l) as m, Hps. clear Hps. intros m Hps. subst l. zlen_pos. split_and!; [| |zlia].
  - pose proof (reads_sub _ _ _ H 0 (zlen m)) as Hr. rewrite Z.add_0_r in Hr.
    change (Z.to_nat 0) with 0%nat in Hr. rewrite drop_0, zlen_length, take_app_le, firstn_all2 in Hr by lia. apply Hr; zlia.
  - pose proof (reads_sub _ _ _ H (zlen m + 1) (zlen r)) as Hr.
    rewrite drop_app_ge in Hr by (unfold zlen in *; lia).
    replace (Z.to_nat (zlen m + 1) - length m)%nat with 1%nat in Hr by (unfold zlen in *; lia).
    change (drop 1 (x :: r)) with r in Hr. rewrite firstn_all2 in Hr by (unfold zlen in *; lia). rewrite <- Z.add_assoc. apply Hr; zlia.
Qed.

Lemma parse_request_line_spec s l : reads req s l ->
  parse_request_line req s =
  Some (match request_line l with
        | None => REQLINE_MALFORMED
        | Some m => if bool_decide (m = c_string "GET") then REQLINE_GET else REQLINE_NOT_GET
        end).
Proof.
  intros H. pose proof (reads_bounds _ _ _ H) as Hb. zlen_pos.
  unfold parse_request_line, request_line. rewrite split_on_eq.
  destruct (memchr_split s l 32 H) as [-> Hrest]. cbn [mbind option_bind].
  set (q := fun x => negb (x =? 32)) in *. set (m := prefix_while q l) in *.
  destruct (suffix_while q l) as [|x r]; [done|]. cbn zeta in Hrest. destruct Hrest as (Hm&Hr&Hl).
  replace (sp_p s + zlen m - sp_p s) with (zlen m) by lia. rewrite (reads_len _ _ _ H).
  zlen_pos. rewrite u64_small by lia. replace (zlen l - zlen m - 1) with (zlen r) by lia.
  rewrite (split_on_eq 32 r). fold q.
  destruct (memchr_split _ r 32 Hr) as [Hmr Hrest2]. cbn [sp_p sp_len] in Hmr, Hrest2. rewrite Hmr. cbn [mbind option_bind].
  fold q in Hrest2. fold q. set (t := prefix_while q r) in *.
  destruct (suffix_while q r) as [|y v]; [done|]. cbn zeta in Hrest2. destruct Hrest2 as (Ht&Hv&Hrl).
  set (rest := sp_p s + zlen m + 1) in *.
  assert (Ht0 : (rest + zlen t =? rest) = bool_decide (t = [])).
  { case_bool_decide as E; [rewrite E, zlen_nil; lia|]. apply Z.eqb_neq. intros Hz. apply E, zlen_zero. lia. }
  rewrite Ht0. rewrite (split_on_eq 32 v). fold q.
  case_bool_decide as Et; cbn [negb andb].
  { destruct (suffix_while q v) as [|z w]; [done|]. by rewrite (split_on_eq 32 w). }
  replace (rest + zlen t - rest) with (zlen t) by lia. zlen_pos. rewrite u64_small by lia.
  replace (zlen r - zlen t - 1) with (zlen v) by lia.
  destruct (memchr_split _ v 32 Hv) as [Hmv _]. cbn [sp_p sp_len] in Hmv. rewrite Hmv. fold q.
  destruct (Z.ltb_spec (zlen v) 6) as [Hv6|Hv6]; cbn [mbind option_bind negb].
  { destruct (suffix_while q v) as [|z w] eqn:Ev; [|by rewrite (split_on_eq 32 w)]. apply suffix_nil in Ev. rewrite Ev, (proj2 (Z.leb_gt 6 (zlen v))) by lia. done. }
  assert (Hcmp : memcmp_eq req (rest + zlen t + 1) (c_string "HTTP/") = Some (bool_decide (take 5 v = c_string "HTTP/"))).
  { apply (memcmp_spec _ v (c_string "HTTP/") Hv). change (zlen (c_string "HTTP/")) with 5. lia. }
  rewrite Hcmp. cbn [mbind option_bind].
  destruct (suffix_while q v) as [|z w] eqn:Ev.
  2:{ rewrite (split_on_eq 32 w). by destruct (bool_decide (take 5 v = _)). }
  apply suffix_nil in Ev. rewrite Ev, (proj2 (Z.leb_le 6 (zlen v))) by lia. cbn [andb].
  case_bool_decide; cbn [negb]; [|done]. rewrite bool_decide_eq_false_2 by (intros F; by apply F).
  destruct (Z.eqb_spec (zlen m) 3) as [Hm3|Hm3]; cbn [negb mbind option_bind].
  - assert (Hcmp2 : memcmp_eq req (sp_p s) (c_string "GET") = Some (bool_decide (take 3 m = c_string "GET"))).
    { apply (memcmp_spec _ m (c_string "GET") Hm). change (zlen (c_string "GET")) with 3. lia. }
    rewrite Hcmp2. cbn [mbind option_bind]. rewrite firstn_all2 by (unfold zlen in Hm3; lia). repeat case_bool_decide; try done; congruence.
  - rewrite bool_decide_eq_false_2; [done|]. intros E. apply Hm3. by rewrite E.
Qed.
End request.
