(* ===== verification/WsUpgrade.v ===== *)
(** * The WebSocket upgrade is its grammar

    [WsHandshakeSpec] says what lines, names and list headers are; this file
    puts them together: the fields of a request, the verdict over them, and
    the theorems about the parser and the answer of [WsHandshake], up to the
    identity that the server of [ServerAuth] learns from a request. *)
From S2P Require Import Prelude Fallible Octets Base64 Aead X25519 ClientAuth ServerAuth WsHandshake WsHandshakeSpec.

(** ** Requests *)

(** A name of token octets, a colon, a value of value octets. *)
Definition parse_field (l : bytes) : option (bytes * bytes) :=
  match suffix_while (fun x => negb (x =? 58)) l with
  | [] => None
  | _ :: raw =>
      let name := prefix_while (fun x => negb (x =? 58)) l in
      if negb (bool_decide (name = [])) && forallb tchar name && forallb value_char (trim raw)
      then Some (name, trim raw) else None
  end.

(** The lines up to the empty one. *)
Definition head_lines (ls : list bytes) : bytes := mjoin ((fun l => l ++ CRLF) <$> ls) ++ CRLF.

Definition header_line (l : bytes) : Prop := l <> [] /\ (13 ∉ l).

Definition header_block (t : bytes) (ls : list bytes) : Prop :=
  Forall header_line ls /\ exists rest, t = head_lines ls ++ rest.

(** A request with a method and fields. *)
Definition ws_request (req m : bytes) (fs : list (bytes * bytes)) : Prop :=
  exists line ls t, req = line ++ CRLF ++ t /\ (13 ∉ line) /\ header_block t ls /\
    request_line line = Some m /\ mapM parse_field ls = Some fs.

(** ** The verdict *)

(** The value of the first field of a name. *)
Fixpoint first_field (n : bytes) (fs : list (bytes * bytes)) : option bytes :=
  match fs with
  | [] => None
  | f :: fs => if ci_equal f.1 n then Some f.2 else first_field n fs
  end.

(** Whether some field of a name lists a token. *)
Definition listed (n want : bytes) (fs : list (bytes * bytes)) : bool :=
  existsb (fun f => ci_equal f.1 n && lists f.2 want) fs.

(** Base64 of exactly [n] bytes. *)
Definition decodes_to (n : Z) (v : bytes) : option bytes :=
  g ← unbase64 b64_value true v; if zlen g =? n then Some g else None.

Section verdict.
Context {SHA : Sha1}.

(** RFC 6455, 1.3: base64 of the SHA-1 of the key and this GUID.  The alphabet
    is that of RFC 4648. *)
Definition rfc6455_guid : bytes := c_string "258EAFA5-E914-47DA-95CA-C5AB0DC85B11".
Definition rfc4648_alphabet : bytes :=
  c_string "ABCDEFGHIJKLMNOPQRSTUVWXYZabcdefghijklmnopqrstuvwxyz0123456789+/".
Definition accept_of (key : bytes) : option bytes :=
  md ← evp_sha1 (key ++ rfc6455_guid); if zlen md =? 20 then Some (base64 rfc4648_alphabet md) else None.

Definition ws_verdict (m : bytes) (fs : list (bytes * bytes)) (out : cloak_ws_hs_t) : Z * cloak_ws_hs_t :=
  match first_field (c_string "hidden") fs ≫= decodes_to 96 with
  | None => (CLOAK_WS_HS_ERR_BAD_HIDDEN, out)
  | Some hidden =>
      if negb (listed (c_string "connection") (c_string "upgrade") fs &&
               listed (c_string "upgrade") (c_string "websocket") fs && bool_decide (m = c_string "GET"))
      then (CLOAK_WS_HS_ERR_NOT_UPGRADE, out)
      else if negb (listed (c_string "sec-websocket-version") (c_string "13") fs)
      then (CLOAK_WS_HS_ERR_BAD_VERSION, out)
      else
        match first_field (c_string "sec-websocket-key") fs with
        | None => (CLOAK_WS_HS_ERR_BAD_KEY, out)
        | Some key =>
            match decodes_to 16 key, accept_of key with
            | None, _ => (CLOAK_WS_HS_ERR_BAD_KEY, out)
            | _, None => (CLOAK_WS_HS_ERR_INTERNAL, out)
            | _, Some accept => (CLOAK_WS_HS_OK, WsHs hidden (accept ++ [0]))
            end
        end
  end.
End verdict.

(** ** Lists of fields *)

Lemma first_field_snoc n fs f :
  first_field n (fs ++ [f]) =
  match first_field n fs with Some v => Some v | None => if ci_equal f.1 n then Some f.2 else None end.
Proof. induction fs as [|g fs IH]; cbn; [done|]. by destruct (ci_equal g.1 n). Qed.

Lemma listed_snoc n want fs f :
  listed n want (fs ++ [f]) = listed n want fs || (ci_equal f.1 n && lists f.2 want).
Proof. unfold listed. rewrite existsb_app. cbn. by rewrite orb_false_r. Qed.

(** Two names of different letters are never the same field. *)
Lemma ci_equal_other a n n' :
  ci_equal a n = true -> map to_lower n <> map to_lower n' -> ci_equal a n' = false.
Proof. unfold ci_equal. intros H%bool_decide_eq_true Hne. apply bool_decide_eq_false. congruence. Qed.

(** ** Trimming in place *)
Section request.
Context (req : bytes) (Hreq : zlen req < 9223372036854775808).

Lemma trim_front_spec v l : reads req v l ->
  exists v', trim_front (Z.to_nat (sp_len v)) req v = Some v' /\ reads req v' (suffix_while is_ows l).
Proof.
  intros H. rewrite (reads_len _ _ _ H), zlen_length. revert v H. induction l as [|c l IH]; intros v H.
  { exists v. done. }
  cbn [length trim_front suffix_while]. pose proof (reads_len _ _ _ H) as Hl. pose proof (reads_bounds _ _ _ H).
  rewrite <- (Z.add_0_r (sp_p v)), (reads_get _ _ _ H 0 c) by done. rewrite Z.add_0_r. cbn [mbind option_bind].
  destruct (is_ows c); [|exists v; done]. zlen_pos. apply IH. rewrite u64_small by zlia.
  pose proof (reads_sub _ _ _ H 1 (zlen l)) as Hr. replace (sp_len v - 1) with (zlen l) by zlia.
  change (drop (Z.to_nat 1) (c :: l)) with l in Hr. rewrite firstn_all2 in Hr by (unfold zlen; lia). apply Hr; zlia.
Qed.

Lemma trim_back_spec v l : reads req v l ->
  exists v', trim_back (Z.to_nat (sp_len v)) req v = Some v' /\ reads req v' (rev (suffix_while is_ows (rev l))).
Proof.
  intros H. rewrite (reads_len _ _ _ H), zlen_length. revert v H. induction l as [|c l IH] using rev_ind; intros v H.
  { exists v. done. }
  rewrite length_app, Nat.add_comm. cbn [length Nat.add trim_back]. rewrite rev_unit. cbn [suffix_while].
  pose proof (reads_len _ _ _ H) as Hl. pose proof (reads_bounds _ _ _ H). assert (Hl1 : sp_len v = zlen l + 1) by zlia. rewrite zlen_app in H0. zlen_pos. rewrite u64_small by zlia.
  rewrite Hl1. replace (zlen l + 1 - 1) with (zlen l) by lia.
  rewrite (reads_get _ _ _ H _ c); [|by rewrite zlen_length, list_lookup_middle|lia].
  cbn [mbind option_bind].
  destruct (is_ows c); [|exists v; split; [done|]; cbn; rewrite rev_involutive; exact H]. apply IH.
  pose proof (reads_sub _ _ _ H 0 (zlen l)) as Hr. rewrite Z.add_0_r in Hr. change (Z.to_nat 0) with 0%nat in Hr. rewrite drop_0, zlen_length, take_app_le, firstn_all2 in Hr by lia. apply Hr; zlia.
Qed.

(** ** The scan is what the verdict looks at *)

(** The first value of a name, in place. *)
Definition field_span (n : bytes) (fs : list (bytes * bytes)) (have : bool) (s : span_t) : Prop :=
  match first_field n fs with Some v => have = true /\ reads req s v /\ no_nul v | None => have = false end.

Definition scanned (fs : list (bytes * bytes)) (s : scan_t) : Prop :=
  field_span (c_string "hidden") fs (sc_have_hidden s) (sc_hidden s) /\
  field_span (c_string "sec-websocket-key") fs (sc_have_key s) (sc_key s) /\
  sc_conn_upgrade s = listed (c_string "connection") (c_string "upgrade") fs /\
  sc_upgrade_websocket s = listed (c_string "upgrade") (c_string "websocket") fs /\
  sc_version_13 s = listed (c_string "sec-websocket-version") (c_string "13") fs.

Lemma field_span_snoc n fs have s f v :
  field_span n fs have s -> reads req v f.2 -> no_nul f.2 ->
  field_span n (fs ++ [f]) (have || ci_equal f.1 n) (if ci_equal f.1 n && negb have then v else s).
Proof.
  unfold field_span. rewrite first_field_snoc. intros H Hr Hn.
  destruct (first_field n fs); [destruct H as [-> H]|subst have]; destruct (ci_equal f.1 n); done.
Qed.

Definition named (f : bytes * bytes) (n : String.string) : bool := ci_equal f.1 (c_string n).
#[local] Arguments named _ _%_string_scope.

Lemma scanned_snoc fs s f v : scanned fs s -> reads req v f.2 -> no_nul f.2 ->
  scanned (fs ++ [f])
    (Scan (if named f "hidden" && negb (sc_have_hidden s) then v else sc_hidden s)
          (if named f "sec-websocket-key" && negb (sc_have_key s) then v else sc_key s)
          (sc_have_hidden s || named f "hidden") (sc_have_key s || named f "sec-websocket-key")
          (sc_conn_upgrade s || (named f "connection" && lists f.2 (c_string "upgrade")))
          (sc_upgrade_websocket s || (named f "upgrade" && lists f.2 (c_string "websocket")))
          (sc_version_13 s || (named f "sec-websocket-version" && lists f.2 (c_string "13")))).
Proof.
  intros (H1&H2&H3&H4&H5) Hr Hn. unfold scanned, named.
  cbn [sc_hidden sc_key sc_have_hidden sc_have_key sc_conn_upgrade sc_upgrade_websocket sc_version_13]. rewrite !listed_snoc, <- H3, <- H4, <- H5.
  split; [by apply field_span_snoc|]. split; [by apply field_span_snoc|]. done.
Qed.

Lemma value_no_nul l : forallb value_char l = true -> no_nul l.
Proof.
  intros H. apply Forall_forall. intros c Hc%list_elem_of_In. rewrite forallb_forall in H. apply H in Hc.
  intros ->. done.
Qed.

(** The field is not one of the other four: the literals differ. *)
Ltac other_names H :=
  repeat match type of H with
  | ci_equal ?a ?n = true =>
      match goal with
      | |- context [ci_equal a ?m] => rewrite (ci_equal_other a n m H) by (vm_compute; done)
      end
  end.

Ltac scan_cbn H :=
  cbn [negb orb andb sc_hidden sc_key sc_have_hidden sc_have_key sc_conn_upgrade sc_upgrade_websocket sc_version_13] in H |- *.

Lemma scan_header_line_spec fs s line l : scanned fs s -> reads req line l ->
  match parse_field l with
  | None => scan_header_line req line s = Some None
  | Some f => exists s', scan_header_line req line s = Some (Some s') /\ scanned (fs ++ [f]) s'
  end.
Proof.
  intros Hs H. pose proof (reads_bounds _ _ _ H). zlen_pos. unfold parse_field, scan_header_line.
  destruct (memchr_split _ _ _ 58 H) as [-> Hrest]. set (q := fun x => negb (x =? 58)) in *.
  set (name := prefix_while q l) in *. destruct (suffix_while q l) as [|x raw]; [done|].
  cbn zeta in Hrest. destruct Hrest as (Hn&Hr&Hl). cbn [pbind sp_len]. rewrite (reads_len _ _ _ H).
  replace (sp_p line + zlen name - sp_p line) with (zlen name) by lia. zlen_pos.
  rewrite u64_small by lia. replace (zlen l - zlen name - 1) with (zlen raw) by lia.
  case_bool_decide as En; cbn [negb andb].
  { rewrite En. done. }
  rewrite (proj2 (Z.eqb_neq (zlen name) 0)) by (intros E; by apply En, zlen_zero).
  rewrite (all_octets_spec _ _ _ Hn), (forallb_same _ _ token_tchar). cbn [mbind option_bind].
  destruct (forallb tchar name); cbn [negb andb]; [|done].
  destruct (trim_front_spec _ _ Hr) as (v1&Ev1&Hv1). cbn [sp_len] in Ev1. cbn [sp_len]. rewrite Ev1. cbn [mbind option_bind].
  destruct (trim_back_spec _ _ Hv1) as (v2&Ev2&Hv2). rewrite Ev2. cbn [mbind option_bind]. rewrite <- trim_code in Hv2.
  rewrite (all_octets_spec _ _ _ Hv2), (forallb_same _ _ value_octet_char). cbn [mbind option_bind].
  destruct (forallb value_char (trim raw)) eqn:Eval; cbn [negb]; [|done].
  apply value_no_nul in Eval. set (f := (name, trim raw)).
  rewrite !(ci_eq_spec _ _ _ _ Hn) by (apply Forall_forall; intros c Hc%list_elem_of_In; cbn in Hc; intuition subst; done).
  pose proof (scanned_snoc fs s f v2 Hs Hv2 Eval) as Hsc. subst f. revert Hsc. unfold named.
  cbn [fst snd]. assert (Hlist : forall w, no_nul w -> token_list_contains req v2 (literal w) = Some (lists (trim raw) w))
    by (intros; by apply token_list_spec).
  rewrite !Hlist by (apply Forall_forall; intros c Hc%list_elem_of_In; cbn in Hc; intuition subst; done).
  destruct s as [sh sk bh bk c u w]. cbn [mbind option_bind sc_hidden sc_key sc_have_hidden sc_have_key sc_conn_upgrade sc_upgrade_websocket sc_version_13].
  destruct (ci_equal name (c_string "hidden")) eqn:E1; [other_names E1|].
  { intros Hsc. eexists. split; [done|]. unfold set_hidden. destruct bh; scan_cbn Hsc; rewrite ?orb_false_r in Hsc; rewrite ?orb_false_r; exact Hsc. }
  destruct (ci_equal name (c_string "sec-websocket-key")) eqn:E2; [other_names E2|].
  { intros Hsc. eexists. split; [done|]. unfold set_key. destruct bk; scan_cbn Hsc; rewrite ?orb_false_r in Hsc; rewrite ?orb_false_r; exact Hsc. }
  destruct (ci_equal name (c_string "connection")) eqn:E3; [other_names E3|].
  { intros Hsc. eexists. split; [done|]. unfold or_flags. scan_cbn Hsc. rewrite ?orb_false_r in Hsc; rewrite ?orb_false_r; exact Hsc. }
  destruct (ci_equal name (c_string "upgrade")) eqn:E4; [other_names E4|].
  { intros Hsc. eexists. split; [done|]. unfold or_flags. scan_cbn Hsc. rewrite ?orb_false_r in Hsc; rewrite ?orb_false_r; exact Hsc. }
  destruct (ci_equal name (c_string "sec-websocket-version")) eqn:E5; intros Hsc; eexists; (split; [done|]);
    unfold or_flags; scan_cbn Hsc; rewrite ?orb_false_r in Hsc; rewrite ?orb_false_r; exact Hsc.
Qed.

(** ** The loop over the header lines *)

Lemma head_lines_cons l ls : head_lines (l :: ls) = l ++ CRLF ++ head_lines ls.
Proof. unfold head_lines. cbn. by rewrite <- !app_assoc. Qed.

(** The blocks of a text, by its first line. *)
Lemma header_block_iff t ls :
  header_block t ls <->
  match line_at t with
  | None => False
  | Some (l, rest) => (l = [] /\ ls = []) \/ (l <> [] /\ exists ls', ls = l :: ls' /\ header_block rest ls')
  end.
Proof.
  split.
  - intros [Hf [rest ->]]. destruct ls as [|l ls].
    + rewrite (proj2 (line_at_iff _ [] rest)); [by left|]. split; [by apply not_elem_of_nil|done].
    + apply Forall_cons in Hf as [[Hne H13] Hf]. rewrite head_lines_cons, <- !app_assoc.
      rewrite (proj2 (line_at_iff _ l (head_lines ls ++ rest))) by done. right. split; [done|].
      exists ls. split; [done|]. split; [done|]. by exists rest.
  - destruct (line_at t) as [[l rest]|] eqn:E; [|done]. apply line_at_iff in E as [H13 ->].
    intros [[-> ->]|(Hne&ls'&->&Hf&r&->)].
    + split; [constructor|]. by exists rest.
    + split; [by constructor|]. exists r. rewrite head_lines_cons, <- !app_assoc. done.
Qed.

Lemma line_at_length t l rest : line_at t = Some (l, rest) ->
  (length t = length l + 2 + length rest)%nat /\ rest = drop (length l + 2) t /\ l = take (length l) t.
Proof.
  intros [_ ->]%line_at_iff. rewrite !length_app. cbn [length CRLF]. split; [lia|].
  rewrite drop_app_ge by lia. replace (length l + 2 - length l)%nat with 2%nat by lia. split; [done|].
  by rewrite take_app_le, firstn_all by lia.
Qed.

Lemma header_loop_spec fuel off fs s :
  0 <= off <= zlen req -> (length req - Z.to_nat off < fuel)%nat -> scanned fs s ->
  let t := drop (Z.to_nat off) req in
  exists r, header_loop fuel req (zlen req) off s = Some r /\
  ((exists ls gs s', header_block t ls /\ mapM parse_field ls = Some gs /\ r = Some (true, s') /\ scanned (fs ++ gs) s') \/
   ((forall ls gs, header_block t ls -> mapM parse_field ls = Some gs -> False) /\
    match r with None => True | Some (saw_blank, _) => saw_blank = false end)).
Proof.
  revert off fs s. induction fuel as [|fuel IH]; intros off fs s Ho Hf Hs; [lia|]. cbn zeta.
  cbn [header_loop]. rewrite next_line_spec by done. cbn [mbind option_bind].
  set (t := drop (Z.to_nat off) req).
  destruct (line_at t) as [[l rest]|] eqn:El.
  2:{ eexists. split; [done|]. right. split; [|done]. intros ls gs Hb _. apply header_block_iff in Hb. by rewrite El in Hb. }
  pose proof (line_at_length _ _ _ El) as (Hlen&Hrest&Hl). subst t. rewrite length_drop in Hlen. cbn [sp_len].
  destruct (Z.eqb_spec (zlen l) 0) as [Hz|Hz].
  { apply zlen_zero in Hz. subst l. eexists. split; [done|]. left. exists [], [], s. split_and!; [|done|done|by rewrite app_nil_r].
    apply header_block_iff. rewrite El. by left. }
  assert (Hr : reads req (Span off (zlen l)) l).
  { pose proof (reads_sub _ _ _ (reads_drop req off Ho) 0 (zlen l)) as Hr. cbn [sp_p] in Hr. rewrite Z.add_0_r in Hr.
    change (Z.to_nat 0) with 0%nat in Hr. rewrite drop_0, zlen_length, <- Hl in Hr. apply Hr; [lia|zlia|].
    rewrite zlen_drop by lia. unfold zlen in *. lia. }
  pose proof (scan_header_line_spec fs s _ l Hs Hr) as Hscan.
  destruct (parse_field l) as [f|] eqn:Ef.
  2:{ rewrite Hscan. eexists. split; [done|]. right. split; [|done]. intros ls gs Hb Hm. apply header_block_iff in Hb.
      rewrite El in Hb. destruct Hb as [[-> _]|(_&ls'&->&_)]; [done|]. cbn in Hm. by rewrite Ef in Hm. }
  destruct Hscan as (s'&->&Hs'). cbn [pbind].
  assert (Hoff : 0 <= off + (zlen l + 2) <= zlen req) by (unfold zlen in *; lia).
  destruct (IH (off + (zlen l + 2)) (fs ++ [f]) s' Hoff ltac:(unfold zlen in *; lia) Hs') as (r&->&Hcase).
  assert (Ht : drop (Z.to_nat (off + (zlen l + 2))) req = rest).
  { rewrite Hrest, skipn_skipn. f_equal. unfold zlen in *. lia. }
  cbn zeta in Hcase. rewrite Ht in Hcase. eexists. split; [done|].
  destruct Hcase as [(ls&gs&s2&Hb&Hm&->&Hs2)|[Hno Hr2]].
  - left. exists (l :: ls), (f :: gs), s2. split_and!; [|by cbn; rewrite Ef; cbn; rewrite Hm|done|by rewrite <- app_assoc in Hs2].
    apply header_block_iff. rewrite El. right. split; [intros ->; done|]. by exists ls.
  - right. split; [|done]. intros ls gs Hb Hm. apply header_block_iff in Hb. rewrite El in Hb.
    destruct Hb as [[-> _]|(_&ls'&->&Hb)]; [done|]. cbn in Hm. rewrite Ef in Hm. cbn in Hm.
    destruct (mapM parse_field ls') as [gs'|] eqn:Em; [|done]. by eapply Hno.
Qed.

(** ** Decoding *)

Lemma unbase64_size padded v g : unbase64 b64_value padded v = Some g -> 3 * zlen v <= 4 * (zlen g + 2).
Proof.
  remember (length v) as n eqn:Hn. assert (Hle : (length v <= n)%nat) by lia. clear Hn.
  revert padded v g Hle. induction n as [|n IH]; intros padded v g Hle.
  { destruct v; [|cbn in Hle; lia]. intros [= <-]. done. }
  destruct v as [|a [|b [|c [|d v]]]]; try done; [by intros [= <-]|]. cbn [unbase64].
  destruct (unbase64_group _ _ _ _ _ _) as [g1|] eqn:E1; [|done]. cbn [mbind option_bind].
  destruct (unbase64 b64_value padded v) as [g2|] eqn:E2; [|done]. cbn [mbind option_bind]. intros [= <-].
  pose proof (group_length _ _ _ _ _ _ _ E1) as H1. destruct v as [|x v].
  { injection E2 as <-. rewrite app_nil_r, !zlen_cons, zlen_nil. lia. }
  pose proof (IH padded (x :: v) g2 ltac:(cbn in *; lia) E2) as H2.
  assert (H3 : zlen g1 = 3).
  { rewrite bool_decide_eq_false_2, andb_false_r in E1 by done. unfold unbase64_group in E1.
    repeat case_match; try done. by injection E1 as <-. }
  rewrite zlen_app, !zlen_cons in *. lia.
Qed.

Lemma decode_exact_spec s v cap n : reads req s v -> no_nul v ->
  0 < n <= CLOAK_WS_HS_HIDDEN_LEN -> (n + 2) / 3 * 4 <= cap <= CLOAK_WS_HS_HIDDEN_B64_LEN ->
  decode_exact req s cap n = Some (decodes_to n v).
Proof.
  intros H Hn Hrange Hcap. unfold decode_exact, decodes_to. change (u64 _) with 128.
  change CLOAK_WS_HS_HIDDEN_LEN with 96 in *. change CLOAK_WS_HS_HIDDEN_B64_LEN with 128 in *.
  rewrite (proj2 (Z.ltb_ge 128 cap)) by lia. rewrite (reads_len _ _ _ H).
  destruct (Z.eqb_spec (zlen v) 0) as [Hz|Hz]; cbn [orb].
  { apply zlen_zero in Hz. subst v. cbn [unbase64 mbind option_bind].
    by rewrite zlen_nil, (proj2 (Z.eqb_neq 0 n)) by lia. }
  destruct (Z.ltb_spec cap (zlen v)) as [Hlong|Hshort].
  { destruct (unbase64 b64_value true v) as [g|] eqn:E; [|done]. cbn [mbind option_bind].
    pose proof (unbase64_size _ _ _ E). pose proof (unbase64_div4 _ _ _ _ E) as [k Hk].
    rewrite (proj2 (Z.eqb_neq (zlen g) n)); [done|]. intros Hgn. rewrite Hgn in *. dlia. }
  pose proof H as Hr. unfold reads in Hr. rewrite (reads_len _ _ _ H) in Hr. rewrite Hr. cbn [mbind option_bind].
  zlen_pos. set (tmp := replicate (Z.to_nat (128 + 1)) 0). destruct (zlen_split tmp (zlen v)) as (t1&t2&Et&Ht1&Ht2); [subst tmp; rewrite zlen_replicate; lia|].
  assert (Htmp : zlen t2 = 129 - zlen v) by (rewrite Ht2; subst tmp; rewrite zlen_replicate; lia).
  rewrite Et, (mem_write_app [] t1 t2) by (done || lia). cbn [mbind option_bind app].
  destruct t2 as [|y junk]; [rewrite zlen_nil in Htmp; lia|]. rewrite mem_set_app by done. cbn [mbind option_bind].
  destruct (std_decodes v junk (replicate (Z.to_nat 96) 0) Hn) as (rc&buf'&len&Hd&Hlb&Hres).
  { unfold c_block. rewrite zlen_app, zlen_cons in *. lia. } { done. }
  unfold c_block in Hd. rewrite Hd. cbn [mbind option_bind]. change (zlen (replicate (Z.to_nat 96) 0)) with 96 in *.
  destruct (unbase64 b64_value true v) as [g|] eqn:E; cbn [mbind option_bind].
  2:{ by destruct Hres as [-> ->]. }
  destruct (Z.leb_spec (zlen g) 96) as [Hg|Hg].
  - destruct Hres as (->&->&->). cbn [negb Z.eqb from_option id]. destruct (Z.eqb_spec (zlen g) n) as [<-|]; cbn [negb]; [|done].
    rewrite mem_read_head by done. done.
  - destruct Hres as (->&->). rewrite (proj2 (Z.eqb_neq (zlen g) n)) by lia. done.
Qed.
End request.

(** ** The parser *)

(** SHA-1 gives bytes. *)
Class Sha1Laws {SHA : Sha1} : Prop := { sha1_bytes : forall x md, evp_sha1 x = Some md -> all_bytes md }.

Section parser.
Context {SHA : Sha1} {SL : Sha1Laws}.

Lemma base64_20 md : zlen md = 20 -> zlen (base64 b64_alphabet md) = 28.
Proof. intros H. by rewrite length_base64_le, H. Qed.

Lemma compute_accept_spec req s key : reads req s key -> zlen key <= CLOAK_WS_HS_KEY_B64_MAX ->
  compute_accept req s (replicate (Z.to_nat (CLOAK_WS_HS_ACCEPT_LEN + 1)) 0) =
  Some (match accept_of key with Some a => Some (a ++ [0]) | None => None end).
Proof.
  intros H Hk. unfold compute_accept, accept_of. change rfc6455_guid with WS_GUID. change rfc4648_alphabet with b64_alphabet. rewrite (reads_len _ _ _ H).
  change CLOAK_WS_HS_KEY_B64_MAX with 24 in *. change WS_GUID_LEN with 36. zlen_pos.
  rewrite (proj2 (Z.ltb_ge 24 (zlen key))) by lia.
  pose proof H as Hr. unfold reads in Hr. rewrite (reads_len _ _ _ H) in Hr. rewrite Hr. cbn [mbind option_bind].
  set (buf := replicate (Z.to_nat (24 + 36)) 0).
  destruct (zlen_split buf (zlen key)) as (b1&b2&Eb&Hb1&Hb2); [subst buf; rewrite zlen_replicate; lia|].
  assert (Hbuf : zlen b2 = 60 - zlen key) by (rewrite Hb2; subst buf; rewrite zlen_replicate; lia).
  rewrite Eb, (mem_write_app [] b1 b2) by (done || lia). cbn [mbind option_bind app].
  destruct (zlen_split b2 36) as (b3&b4&->&Hb3&Hb4); [lia|].
  rewrite (mem_write_app key b3 b4) by (done || (change (zlen WS_GUID) with 36; lia)). cbn [mbind option_bind].
  rewrite u64_small by lia. rewrite app_assoc, mem_read_head by (rewrite zlen_app; change (zlen WS_GUID) with 36; lia).
  cbn [mbind option_bind]. destruct (evp_sha1 (key ++ WS_GUID)) as [md|] eqn:Emd; [|done]. cbn [mbind option_bind].
  destruct (Z.eqb_spec (zlen md) 20) as [H20|]; cbn [negb]; [|done].
  set (out := replicate _ 0). change (CLOAK_WS_HS_ACCEPT_LEN + 1) with (zlen out).
  unfold cloak_base64_encode. rewrite (encode_exact b64_alphabet eq_refl md out); [|by eapply sha1_bytes|lia|done].
  rewrite base64_20 by done. change (zlen out <=? 28) with false. cbn [mbind option_bind negb Z.eqb].
  f_equal. f_equal. f_equal. f_equal. apply drop_ge. pose proof (base64_20 md H20) as Hb. unfold zlen in Hb.
  subst out. rewrite length_replicate. change (CLOAK_WS_HS_ACCEPT_LEN + 1) with 29. lia.
Qed.

(** A request has one method and one list of fields. *)
Lemma ws_request_line req m fs : ws_request req m fs <->
  exists line t ls, line_at req = Some (line, t) /\ header_block t ls /\ request_line line = Some m /\ mapM parse_field ls = Some fs.
Proof.
  split.
  - intros (line&ls&t&Hr&H13&Hb&Hm&Hf). exists line, t, ls. split; [by apply line_at_iff|done].
  - intros (line&t&ls&[H13 Hr]%line_at_iff&Hb&Hm&Hf). by exists line, ls, t.
Qed.

(** What the parser does with a scan is the verdict over the fields. *)
Lemma verdict_spec req fs s m out : scanned req fs s ->
  let reqline := if bool_decide (m = c_string "GET") then REQLINE_GET else REQLINE_NOT_GET in
  (hidden ← (if negb (sc_have_hidden s) then Some None
             else decode_exact req (sc_hidden s) CLOAK_WS_HS_HIDDEN_B64_LEN CLOAK_WS_HS_HIDDEN_LEN);
   match hidden with
   | None => Some (CLOAK_WS_HS_ERR_BAD_HIDDEN, Some out)
   | Some hidden =>
       if negb (sc_conn_upgrade s) || negb (sc_upgrade_websocket s) || negb (reqline =? REQLINE_GET)
       then Some (CLOAK_WS_HS_ERR_NOT_UPGRADE, Some out)
       else if negb (sc_version_13 s) then Some (CLOAK_WS_HS_ERR_BAD_VERSION, Some out)
       else
         key_bytes ← (if negb (sc_have_key s) then Some None
                      else decode_exact req (sc_key s) CLOAK_WS_HS_KEY_B64_MAX 16);
         match key_bytes with
         | None => Some (CLOAK_WS_HS_ERR_BAD_KEY, Some out)
         | Some _ =>
             accept ← compute_accept req (sc_key s) (replicate (Z.to_nat (CLOAK_WS_HS_ACCEPT_LEN + 1)) 0);
             match accept with
             | None => Some (CLOAK_WS_HS_ERR_INTERNAL, Some out)
             | Some accept => Some (CLOAK_WS_HS_OK, Some (WsHs hidden accept))
             end
         end
   end) = Some (let v := ws_verdict m fs out in (v.1, Some v.2)).
Proof.
  intros (H1&H2&H3&H4&H5). cbn zeta. unfold ws_verdict, field_span in *. rewrite H3, H4, H5.
  destruct (first_field (c_string "hidden") fs) as [v|].
  2:{ rewrite H1. done. }
  destruct H1 as (->&Hr1&Hn1). cbn [negb]. rewrite (decode_exact_spec _ _ v _ _ Hr1 Hn1) by done. cbn [mbind option_bind].
  change CLOAK_WS_HS_HIDDEN_LEN with 96. destruct (decodes_to 96 v) as [hidden|]; [|done].
  destruct (listed (c_string "connection") _ fs); cbn [negb orb andb]; [|done].
  destruct (listed (c_string "upgrade") _ fs); cbn [negb orb andb]; [|done].
  destruct (bool_decide (m = c_string "GET")); [|done]. change (REQLINE_GET =? REQLINE_GET) with true. cbn [negb].
  destruct (listed (c_string "sec-websocket-version") _ fs); cbn [negb]; [|done].
  destruct (first_field (c_string "sec-websocket-key") fs) as [key|].
  2:{ rewrite H2. done. }
  destruct H2 as (->&Hr2&Hn2). cbn [negb]. rewrite (decode_exact_spec _ _ key _ _ Hr2 Hn2) by done. cbn [mbind option_bind].
  destruct (decodes_to 16 key) as [kb|] eqn:Ek; [|by destruct (accept_of key)].
  rewrite (compute_accept_spec _ _ key Hr2).
  - cbn [mbind option_bind]. by destruct (accept_of key).
  - unfold decodes_to in Ek. destruct (unbase64 b64_value true key) as [g|] eqn:Eu; [|done]. cbn [mbind option_bind] in Ek.
    destruct (Z.eqb_spec (zlen g) 16) as [Hg|]; [|done].
    pose proof (unbase64_size _ _ _ Eu). pose proof (unbase64_div4 _ _ _ _ Eu) as [k Hk].
    change CLOAK_WS_HS_KEY_B64_MAX with 24. rewrite Hg in *. dlia.
Qed.

Lemma header_block_unique t ls ls' : header_block t ls -> header_block t ls' -> ls = ls'.
Proof.
  revert t ls'. induction ls as [|l ls IH]; intros t ls' H1%header_block_iff H2%header_block_iff;
    destruct (line_at t) as [[x rest]|]; try done.
  - destruct H1 as [[-> _]|(_&?&?&_)]; [|done]. by destruct H2 as [[_ ->]|[? _]].
  - destruct H1 as [[_ ?]|(Hx&l1&[= -> ->]&Hb)]; [done|]. destruct H2 as [[? _]|(_&l2&->&Hb2)]; [done|].
    f_equal. by apply (IH rest).
Qed.

Lemma ws_request_unique req m fs m' fs' : ws_request req m fs -> ws_request req m' fs' -> m' = m /\ fs' = fs.
Proof.
  intros (line&t&ls&Hl&Hb&Hm&Hf)%ws_request_line (line'&t'&ls'&Hl'&Hb'&Hm'&Hf')%ws_request_line.
  rewrite Hl in Hl'. injection Hl' as <- <-. rewrite (header_block_unique _ _ _ Hb' Hb) in Hf'.
  split; congruence.
Qed.

Lemma ws_parse_cases req out :
  zlen req < 9223372036854775808 ->
  exists r res, cloak_ws_handshake_parse (Some req) (zlen req) (Some out) = Some (r, Some res) /\
    ((exists m fs, ws_request req m fs /\ (r, res) = ws_verdict m fs out) \/
     ((forall m fs, ~ ws_request req m fs) /\ r = CLOAK_WS_HS_ERR_MALFORMED /\ res = out)).
Proof.
  intros Hreq. zlen_pos. unfold cloak_ws_handshake_parse.
  destruct (Z.eqb_spec (zlen req) 0) as [Hz|Hz].
  { eexists _, _. split; [done|]. right. split; [|done]. intros m fs (line&t&ls&Hl&_)%ws_request_line.
    apply zlen_zero in Hz. by subst req. }
  rewrite (next_line_spec req Hreq 0) by lia. change (drop (Z.to_nat 0) req) with req. cbn [mbind option_bind].
  destruct (line_at req) as [[line t]|] eqn:El.
  2:{ eexists _, _. split; [done|]. right. split; [|done]. intros m fs (line&t&ls&Hl&_)%ws_request_line. congruence. }
  pose proof (line_at_length _ _ _ El) as (Hlen&Ht&Hline).
  assert (Hr : reads req (Span 0 (zlen line)) line).
  { unfold reads. cbn [sp_p sp_len]. apply line_at_iff in El as [_ ->]. by apply mem_read_head. }
  rewrite (parse_request_line_spec req Hreq _ _ Hr). cbn [mbind option_bind].
  destruct (request_line line) as [m|] eqn:Em.
  2:{ eexists _, _. split; [done|]. right. split; [|done]. intros m fs (line'&t'&ls&Hl&_&Hm&_)%ws_request_line. congruence. }
  assert (Hrl : ((if bool_decide (m = c_string "GET") then REQLINE_GET else REQLINE_NOT_GET) =? REQLINE_MALFORMED) = false)
    by (by case_bool_decide).
  rewrite Hrl. assert (Ho : 0 <= 0 + (zlen line + 2) <= zlen req) by (unfold zlen; lia).
  destruct (header_loop_spec req Hreq (S (length req)) _ [] zero_scan Ho ltac:(lia)) as (r&->&Hcase); [done|].
  cbn zeta in Hcase. replace (drop (Z.to_nat (0 + (zlen line + 2))) req) with t in Hcase.
  2:{ rewrite Ht. f_equal. unfold zlen. lia. }
  destruct Hcase as [(ls&gs&s&Hb&Hm&->&Hs)|[Hno Hr2]].
  - cbn [mbind option_bind negb]. rewrite (verdict_spec req gs s m out Hs). cbn zeta. eexists _, _. split; [done|].
    left. exists m, gs. split; [|by destruct (ws_verdict m gs out)]. apply ws_request_line. by exists line, t, ls.
  - assert (Hnone : forall m fs, ~ ws_request req m fs).
    { intros m' fs (line'&t'&ls&Hl&Hb&Hm&Hf)%ws_request_line. replace t' with t in * by congruence. by eapply Hno. }
    cbn [mbind option_bind]. destruct r as [[saw s]|]; [subst saw|]; (eexists _, _; split; [done|]; by right).
Qed.

(** C26: equivalence.  The parser of the upgrade is its grammar.  On any buffer
    of bytes it stays inside the buffer; if the buffer starts with a request
    (request line, well-formed header lines, empty line, each ended by CRLF)
    the result is the verdict over its method and fields: the first [Hidden]
    must be base64 of exactly 96 bytes, then [Connection] and [Upgrade] must
    list their tokens and the method be [GET], then the version be listed, then
    the first key be base64 of exactly 16 bytes; then the accept is base64 of
    the digest of the key as it arrived and the GUID.  Anything else is
    malformed, and the output is written only on success. *)
Theorem ws_upgrade_exact req out :
  zlen req < 9223372036854775808 ->
  exists r res, cloak_ws_handshake_parse (Some req) (zlen req) (Some out) = Some (r, Some res) /\
    ((exists m fs, ws_request req m fs /\ (forall m' fs', ws_request req m' fs' -> m' = m /\ fs' = fs) /\
        (r, res) = ws_verdict m fs out) \/
     ((forall m fs, ~ ws_request req m fs) /\ r = CLOAK_WS_HS_ERR_MALFORMED /\ res = out)).
Proof.
  intros Hreq. destruct (ws_parse_cases req out Hreq) as (r&res&Hp&Hcase). exists r, res. split; [done|].
  destruct Hcase as [(m&fs&Hr&Hv)|Hno]; [|by right]. left. exists m, fs. split; [done|]. split; [|done].
  intros m' fs'. by apply ws_request_unique.
Qed.

End parser.

(** ** The answer *)

(** The four lines of RFC 6455, 4.2.2, each ended by CRLF, and an empty line. *)
Definition ws_answer (accept : bytes) : bytes :=
  head_lines [c_string "HTTP/1.1 101 Switching Protocols"; c_string "Upgrade: websocket"; c_string "Connection: Upgrade";
              c_string "Sec-WebSocket-Accept: " ++ accept].

Lemma ws_answer_code a : ws_answer a = RESP_HEAD ++ a ++ RESP_TAIL.
Proof. unfold ws_answer, head_lines, RESP_HEAD, RESP_TAIL. cbn. by rewrite <- ?app_assoc. Qed.

Lemma accept_loop_spec n pre l junk :
  accept_loop n (pre ++ c_block l junk) (zlen pre) =
  Some ((n <=? length l)%nat && forallb is_base64_char (take n l)).
Proof.
  revert pre l. induction n as [|n IH]; intros pre l; [done|]. cbn [accept_loop]. destruct l as [|c l].
  - cbn [c_block app]. by rewrite mem_get_app_r, Z.sub_diag by lia.
  - rewrite mem_get_app_r, Z.sub_diag by lia. cbn [c_block app mem_get].
    change ((c :: l ++ 0 :: junk).[0]) with (Some c). cbn [mbind option_bind take forallb length Nat.leb].
    destruct (is_base64_char c); cbn [negb andb]; [|by rewrite andb_false_r].
    replace (pre ++ c :: l ++ 0 :: junk) with ((pre ++ [c]) ++ c_block l junk) by (unfold c_block; by rewrite <- app_assoc).
    replace (zlen pre + 1) with (zlen (pre ++ [c])) by zlia. apply IH.
Qed.

(** The answer to a string: [-1] and nothing written unless it is an accept and
    the buffer is big enough. *)
Lemma compose_101_spec buf a junk : no_nul a ->
  cloak_ws_handshake_compose_101 (Some buf) (zlen buf) (Some (c_block a junk)) =
  Some (if (zlen a =? CLOAK_WS_HS_ACCEPT_LEN) && forallb is_base64_char a && (CLOAK_WS_HS_101_LEN <=? zlen buf)
        then (CLOAK_WS_HS_101_LEN, Some (ws_answer a ++ drop (Z.to_nat CLOAK_WS_HS_101_LEN) buf)) else (-1, Some buf)).
Proof.
  intros Hn. unfold cloak_ws_handshake_compose_101.
  change (accept_loop _ _ 0) with (accept_loop 28 ([] ++ c_block a junk) (zlen (@nil Z))). rewrite accept_loop_spec.
  change CLOAK_WS_HS_ACCEPT_LEN with 28. cbn [mbind option_bind]. zlen_pos.
  destruct (Nat.leb_spec 28 (length a)) as [Hl|Hl].
  2:{ rewrite (proj2 (Z.eqb_neq (zlen a) 28)) by (unfold zlen; lia). done. }
  cbn [andb]. destruct (Z.eqb_spec (zlen a) 28) as [H28|H28]; cbn [andb].
  - rewrite firstn_all2 by (unfold zlen in H28; lia). destruct (forallb is_base64_char a); cbn [andb negb]; [|done].
    unfold c_block. rewrite mem_get_app_r, H28 by lia. cbn [mbind option_bind]. change ((0 :: junk).[28 - 28]) with (Some 0).
    cbn [mbind option_bind Z.eqb negb].
    change (RESP_HEAD_LEN + 28 + RESP_TAIL_LEN) with 129. change CLOAK_WS_HS_101_LEN with 129.
    destruct (Z.ltb_spec (zlen buf) 129); [by rewrite (proj2 (Z.leb_gt 129 (zlen buf))) by lia|].
    rewrite (proj2 (Z.leb_le 129 (zlen buf))) by lia. rewrite mem_read_head by done. cbn [mbind option_bind].
    destruct (zlen_split buf 97) as (b1&b&->&Hb1&Hb); [lia|]. rewrite zlen_app in *.
    destruct (zlen_split b 28) as (b2&b'&->&Hb2&Hb'); [lia|]. rewrite zlen_app in *.
    destruct (zlen_split b' 4) as (b3&b4&->&Hb3&Hb4); [lia|].
    rewrite (mem_write_app [] b1 (b2 ++ b3 ++ b4)) by done. cbn [mbind option_bind app].
    rewrite (mem_write_app RESP_HEAD b2 (b3 ++ b4)) by (done || lia). cbn [mbind option_bind].
    rewrite (app_assoc RESP_HEAD a), (mem_write_app (RESP_HEAD ++ a) b3 b4) by
      (done || (rewrite zlen_app, H28; done)). cbn [mbind option_bind].
    assert (Hd : drop (Z.to_nat 129) (b1 ++ b2 ++ b3 ++ b4) = b4).
    { rewrite (app_assoc b2), (app_assoc b1), drop_app_ge by (rewrite !length_app; unfold zlen in *; lia).
      replace (Z.to_nat 129 - _)%nat with 0%nat by (rewrite !length_app; unfold zlen in *; lia). done. }
    rewrite Hd, ws_answer_code. by rewrite <- !app_assoc.
  - destruct (forallb is_base64_char (take 28 a)); cbn [negb]; [|done].
    destruct (a !! 28%nat) as [c|] eqn:Hc; [|apply lookup_ge_None in Hc; unfold zlen in *; lia].
    unfold c_block. rewrite mem_get_app_l, mem_get_lookup by (unfold zlen in *; lia).
    change (Z.to_nat 28) with 28%nat. rewrite Hc. cbn [mbind option_bind].
    rewrite (proj2 (Z.eqb_neq c 0)); [done|]. exact (proj1 (Forall_lookup _ _) Hn _ _ Hc).
Qed.

(** Digits of the alphabet are characters of an accept. *)
Lemma base64_chars l : forallb is_base64_char (base64 b64_alphabet l) = true.
Proof.
  assert (Hd : forall v, is_base64_char (digit b64_alphabet v) = true).
  { intros v. unfold digit. pose proof (Z.mod_pos_bound v 64 ltac:(lia)).
    destruct (mem_get_Some b64_alphabet (v mod 64)) as [c Hc]; [change (zlen b64_alphabet) with 64; lia|]. rewrite Hc.
    apply mem_get_inv in Hc as [_ Hc]. assert (Hall : forallb is_base64_char b64_alphabet = true) by done.
    rewrite forallb_forall in Hall. apply Hall. by eapply list_elem_of_In, list_elem_of_lookup_2. }
  remember (length l) as n eqn:Hn. assert (Hle : (length l <= n)%nat) by lia. clear Hn.
  revert l Hle. induction n as [|n IH]; intros l Hle; [by destruct l; [|cbn in Hle; lia]|].
  destruct l as [|a [|b [|c l]]]; [done| | |]; cbn [base64]; unfold digits4; cbn [take app forallb];
    rewrite !Hd; [done..|]. cbn in Hle. by rewrite IH by lia.
Qed.

Section answer.
Context `{EvpLaws} `{X25519Laws} {SHA : Sha1} {SL : Sha1Laws}.

Lemma accept_of_shape key a : accept_of key = Some a ->
  no_nul a /\ zlen a = CLOAK_WS_HS_ACCEPT_LEN /\ forallb is_base64_char a = true.
Proof.
  unfold accept_of. change rfc4648_alphabet with b64_alphabet. destruct (evp_sha1 _) as [md|]; [|done]. cbn [mbind option_bind].
  destruct (Z.eqb_spec (zlen md) 20) as [H20|]; [|done]. intros [= <-]. split_and!.
  - destruct (alphabet_ok false). by apply base64_no_nul.
  - by apply base64_20.
  - apply base64_chars.
Qed.

(** The answer.  Composing the 101 response from a string is
    refused, with nothing written, unless the string is 28 characters of
    base64 and the buffer has room; then exactly the four lines of the upgrade
    are written, with the string in the last one and nothing after them.  The
    accept of every request that the parser accepts is such a string. *)
Theorem ws_answer_exact a junk buf :
  no_nul a ->
  cloak_ws_handshake_compose_101 (Some buf) (zlen buf) (Some (c_block a junk)) =
    Some (if (zlen a =? CLOAK_WS_HS_ACCEPT_LEN) && forallb is_base64_char a && (CLOAK_WS_HS_101_LEN <=? zlen buf)
          then (CLOAK_WS_HS_101_LEN, Some (ws_answer a ++ drop (Z.to_nat CLOAK_WS_HS_101_LEN) buf))
          else (-1, Some buf)) /\
  forall req out res, zlen req < 9223372036854775808 ->
    cloak_ws_handshake_parse (Some req) (zlen req) (Some out) = Some (CLOAK_WS_HS_OK, Some res) ->
    exists accept key, hs_accept res = c_block accept [] /\ accept_of key = Some accept /\
      zlen accept = CLOAK_WS_HS_ACCEPT_LEN /\ forallb is_base64_char accept = true.
Proof.
  intros Hn. split; [by apply compose_101_spec|]. intros req out res Hreq Hp.
  destruct (ws_parse_cases req out Hreq) as (r&res'&Hp'&Hcase). rewrite Hp in Hp'. injection Hp' as <- <-.
  destruct Hcase as [(m&fs&_&Hv)|(_&?&_)]; [|done]. unfold ws_verdict in Hv.
  repeat case_match; try done. injection Hv as ->. eexists _, _. split; [done|]. split; [eassumption|].
  by eapply accept_of_shape.
Qed.

(** C25: roundtrip.  A client behind a CDN is recognised.  Take the payload that
    a client builds for a server's key and any request of method [GET], however
    its names are written and whatever other fields it has, whose first
    [Hidden] is base64 of the payload and which asks for the upgrade with any
    key: the parser accepts it, the answer carries the accept of that key, and
    the hidden bytes, cut as the dispatcher cuts them, let the server learn
    exactly the client's identity and the shared secret, when the clocks are
    less than 180 seconds apart. *)
Theorem ws_client_recognised a unordered junk server_priv server_pub priv pub seed :
  auth_fields_ok a -> af_unordered a = negb (unordered =? 0) ->
  keypair server_priv server_pub -> cloak_x25519_generate_keypair seed = Some (priv, pub) ->
  exists payload secret,
    cloak_client_auth_build (af_uid a) (Some (c_block (af_proxy_method a) junk))
      (af_encryption_method a) (af_session_id a) unordered (af_time a) server_pub seed = Some (0, payload, secret) /\
    forall req fs key accept out buf,
      zlen req < 9223372036854775808 -> ws_request req (c_string "GET") fs ->
      first_field (c_string "hidden") fs = Some (base64 b64_alphabet (ap_random payload ++ ap_ciphertext payload)) ->
      listed (c_string "connection") (c_string "upgrade") fs = true ->
      listed (c_string "upgrade") (c_string "websocket") fs = true ->
      listed (c_string "sec-websocket-version") (c_string "13") fs = true ->
      first_field (c_string "sec-websocket-key") fs = Some key -> is_Some (decodes_to 16 key) ->
      accept_of key = Some accept -> CLOAK_WS_HS_101_LEN <= zlen buf ->
      exists res,
        cloak_ws_handshake_parse (Some req) (zlen req) (Some out) = Some (CLOAK_WS_HS_OK, Some res) /\
        cloak_ws_handshake_compose_101 (Some buf) (zlen buf) (Some (hs_accept res)) =
          Some (CLOAK_WS_HS_101_LEN, Some (ws_answer accept ++ drop (Z.to_nat CLOAK_WS_HS_101_LEN) buf)) /\
        forall now method0, INT64_MIN + 180 < now < INT64_MAX - 180 -> zlen method0 = 13 ->
          cloak_server_auth_decrypt (take 32 (hs_hidden res)) (Some (take 32 (drop 32 (hs_hidden res)))) 32
            (Some (drop 64 (hs_hidden res))) server_priv now method0 =
          Some (if Z.abs (now - af_time a) <? 180 then Some (client_info a method0, secret) else None).
Proof.
  intros Ha Hun Hserver Hseed.
  destruct (client_auth_build_ok a unordered junk _ _ _ _ _ Ha Hun Hserver Hseed)
    as (ct&secret&Hb&Hpl&Hpb&Hcl&Hcb&_&_&Hsec&Hopen).
  exists (AuthPayload pub ct), secret. split; [done|]. cbn [ap_random ap_ciphertext].
  intros req fs key accept out buf Hreq Hr Hh Hc Hu Hver Hk [kb Hkb] Hacc Hbuf.
  destruct (ws_parse_cases req out Hreq) as (r&res&Hp&Hcase).
  destruct Hcase as [(m&fs'&Hr'&Hv)|[Hno _]]; [|by destruct (Hno _ _ Hr)].
  destruct (ws_request_unique _ _ _ _ _ Hr Hr') as [-> ->].
  assert (Hd : decodes_to 96 (base64 b64_alphabet (pub ++ ct)) = Some (pub ++ ct)).
  { unfold decodes_to. 
    assert (Hm : unbase64 b64_value true (base64 b64_alphabet (pub ++ ct)) = Some (pub ++ ct))
      by (apply (meaning_base64 false), all_bytes_app; done).
    rewrite Hm.
    cbn [mbind option_bind]. by rewrite zlen_app, Hpl, Hcl. }
  unfold ws_verdict in Hv. rewrite Hh in Hv. cbn [mbind option_bind] in Hv. rewrite Hd, Hc, Hu, Hver, Hk, Hkb, Hacc in Hv.
  cbn [andb negb] in Hv. rewrite bool_decide_eq_true_2 in Hv by done. cbn [negb] in Hv. injection Hv as -> ->.
  exists (WsHs (pub ++ ct) (accept ++ [0])). split; [done|]. cbn [hs_accept hs_hidden]. split.
  - destruct (accept_of_shape _ _ Hacc) as (Hn&Hl&Hc64). change (accept ++ [0]) with (c_block accept []).
    rewrite compose_101_spec by done. rewrite Hl, Hc64, (proj2 (Z.leb_le _ _) Hbuf). done.
  - intros now method0 Hnow Hm. unfold zlen in Hpl.
    assert (take 32 (pub ++ ct) = pub /\ drop 32 (pub ++ ct) = ct /\ drop 64 (pub ++ ct) = drop 32 ct) as (->&->&->).
    { split_and!; [by rewrite take_app_le, firstn_all2 by lia| |]; rewrite drop_app_ge by lia.
      - by replace (32 - length pub)%nat with 0%nat by lia.
      - by replace (64 - length pub)%nat with 32%nat by lia. }
    by apply (payload_decrypts a server_priv pub secret ct now method0).
Qed.

End answer.

(** * An upgrade of concrete data

    SHA-1 as FIPS 180-4 defines it is an instance of the digest that
    [WsHandshake] asks for; with it the sample key of RFC 6455 gives the accept
    of RFC 6455.  The theorems are applied to a request as a CDN would rewrite
    it. *)

(** ** SHA-1 *)

Definition rol32 (x n : Z) : Z := u32 (Z.lor (Z.shiftl x n) (Z.shiftr x (32 - n))).

Definition sha1_padded (m : bytes) : bytes :=
  m ++ [128] ++ replicate (Z.to_nat ((55 - zlen m) mod 64)) 0 ++ be_bytes 8 (8 * zlen m).

(** The next word of the schedule from the last sixteen, the newest first. *)
Definition sha1_word (w : list Z) : Z :=
  rol32 (Z.lxor (Z.lxor (nth 2 w 0) (nth 7 w 0)) (Z.lxor (nth 13 w 0) (nth 15 w 0))) 1.
Fixpoint sha1_schedule (n : nat) (w : list Z) : list Z :=
  match n with O => w | S n' => sha1_schedule n' (sha1_word w :: w) end.

Definition sha1_f (t b c d : Z) : Z * Z :=
  if t <? 20 then (Z.lor (Z.land b c) (Z.land (Z.lxor b 4294967295) d), 1518500249)
  else if t <? 40 then (Z.lxor (Z.lxor b c) d, 1859775393)
  else if t <? 60 then (Z.lor (Z.lor (Z.land b c) (Z.land b d)) (Z.land c d), 2400959708)
  else (Z.lxor (Z.lxor b c) d, 3395469782).

Definition sha1_state : Type := Z * Z * Z * Z * Z.
Fixpoint sha1_rounds (t : Z) (w : list Z) (s : sha1_state) : sha1_state :=
  match w with
  | [] => s
  | x :: w =>
      let '(a, b, c, d, e) := s in
      let '(f, k) := sha1_f t b c d in
      sha1_rounds (t + 1) w (u32 (rol32 a 5 + f + e + k + x), a, rol32 b 30, c, d)
  end.

Fixpoint words32 (n : nat) (l : bytes) : list Z :=
  match n with O => [] | S n' => be_val (take 4 l) :: words32 n' (drop 4 l) end.

Definition sha1_block (s : sha1_state) (block : bytes) : sha1_state :=
  let '(a, b, c, d, e) := s in
  let '(a', b', c', d', e') := sha1_rounds 0 (rev (sha1_schedule 64 (rev (words32 16 block)))) s in
  (u32 (a + a'), u32 (b + b'), u32 (c + c'), u32 (d + d'), u32 (e + e')).

Fixpoint sha1_blocks (n : nat) (l : bytes) (s : sha1_state) : sha1_state :=
  match n with O => s | S n' => sha1_blocks n' (drop 64 l) (sha1_block s (take 64 l)) end.

Definition sha1 (m : bytes) : bytes :=
  let p := sha1_padded m in
  let '(a, b, c, d, e) :=
    sha1_blocks (length p / 64) p (1732584193, 4023233417, 2562383102, 271733878, 3285377520) in
  be_bytes 4 a ++ be_bytes 4 b ++ be_bytes 4 c ++ be_bytes 4 d ++ be_bytes 4 e.

(** FIPS 180: the digest of "abc". *)
Example sha1_abc :
  sha1 (c_string "abc") =
  [169; 153; 62; 54; 71; 6; 129; 106; 186; 62; 37; 113; 120; 80; 194; 108; 156; 208; 216; 157].
Proof. vm_compute. reflexivity. Qed.

Definition sha1_fips : Sha1 := fun x => Some (sha1 x).
#[local] Existing Instance sha1_fips.

Lemma sha1_fips_laws : Sha1Laws.
Proof.
  split. intros x md [= <-]. unfold sha1. destruct (sha1_blocks _ _ _) as [[[[a b] c] d] e].
  rewrite !all_bytes_app. split_and!; apply be_bytes_all_bytes.
Qed.
#[local] Existing Instances sha1_fips_laws evp_plain evp_plain_laws x25519_sum x25519_sum_laws.

(** ** A request *)

Definition sample_key : bytes := c_string "dGhlIHNhbXBsZSBub25jZQ==".

(** RFC 6455, section 1.3. *)
Example sample_accept : accept_of sample_key = Some (c_string "s3pPLMBiTxaQ9kYGzzhZRbK+xOo=").
Proof. vm_compute. reflexivity. Qed.

Definition demo_lines (hidden : bytes) : list bytes :=
  [c_string "host: origin.example.com"; c_string "CF-RAY: 1"; c_string "hidden: " ++ hidden;
   c_string "CONNECTION: keep-alive, Upgrade"; c_string "Upgrade: WebSocket";
   c_string "Sec-WebSocket-Version: 13"; c_string "sec-websocket-key:" ++ sample_key].

Definition demo_header (hidden : bytes) : list (bytes * bytes) :=
  [(c_string "host", c_string "origin.example.com"); (c_string "CF-RAY", c_string "1");
   (c_string "hidden", hidden); (c_string "CONNECTION", c_string "keep-alive, Upgrade");
   (c_string "Upgrade", c_string "WebSocket"); (c_string "Sec-WebSocket-Version", c_string "13");
   (c_string "sec-websocket-key", sample_key)].

Definition demo_request (hidden : bytes) : bytes :=
  c_string "GET /cdn/ws HTTP/1.1" ++ CRLF ++ head_lines (demo_lines hidden) ++ c_string "frames".

Definition demo_hidden : bytes := base64 b64_alphabet (replicate 96 7).

Example demo_parsed :
  cloak_ws_handshake_parse (Some (demo_request demo_hidden)) (zlen (demo_request demo_hidden)) (Some (WsHs [] [])) =
  Some (CLOAK_WS_HS_OK, Some (WsHs (replicate 96 7) (c_block (c_string "s3pPLMBiTxaQ9kYGzzhZRbK+xOo=") []))).
Proof. vm_compute. reflexivity. Qed.

(** Whether every line is a header line. *)
Definition header_lineb (l : bytes) : bool := negb (bool_decide (l = [])) && forallb (fun c => negb (c =? 13)) l.

Lemma header_lines_ok ls : forallb header_lineb ls = true -> Forall header_line ls.
Proof.
  intros Hf. apply Forall_forall. intros l Hl%list_elem_of_In. rewrite forallb_forall in Hf.
  apply Hf, andb_true_iff in Hl as [Hne Hc]. split.
  - intros ->. done.
  - intros Hin%list_elem_of_In. rewrite forallb_forall in Hc. by apply Hc in Hin.
Qed.

(** A request line, header lines and anything behind them are a request. *)
Lemma composed_request line ls rest m fs :
  forallb (fun c => negb (c =? 13)) line = true -> forallb header_lineb ls = true ->
  request_line line = Some m -> mapM parse_field ls = Some fs ->
  ws_request (line ++ CRLF ++ head_lines ls ++ rest) m fs.
Proof.
  intros Hl Hls Hm Hf. exists line, ls, (head_lines ls ++ rest). split_and!; [done| | |done|done].
  - intros Hin%list_elem_of_In. rewrite forallb_forall in Hl. by apply Hl in Hin.
  - split; [by apply header_lines_ok|]. by exists rest.
Qed.

(** ** Witnesses *)

Lemma ws_upgrade_exact_witness :
  exists r res, cloak_ws_handshake_parse (Some (demo_request demo_hidden)) (zlen (demo_request demo_hidden)) (Some (WsHs [] [])) =
    Some (r, Some res) /\ r = CLOAK_WS_HS_OK.
Proof.
  destruct (ws_upgrade_exact (demo_request demo_hidden) (WsHs [] []) ltac:(vm_compute; reflexivity)) as (r&res&Hp&_).
  exists r, res. split; [exact Hp|]. pose proof demo_parsed as Hd. rewrite Hp in Hd. injection Hd as -> _. reflexivity.
Defined.

Lemma ws_answer_exact_witness :
  cloak_ws_handshake_compose_101 (Some (replicate 200 0)) 200 (Some (c_block (c_string "s3pPLMBiTxaQ9kYGzzhZRbK+xOo=") [])) =
    Some (129, Some (ws_answer (c_string "s3pPLMBiTxaQ9kYGzzhZRbK+xOo=") ++ replicate 71 0)).
Proof.
  destruct (ws_answer_exact (c_string "s3pPLMBiTxaQ9kYGzzhZRbK+xOo=") [] (replicate 200 0)) as [Hc _].
  - repeat constructor; discriminate.
  - exact Hc.
Defined.

(** What the demo client hides. *)
Definition demo_payload : bytes :=
  match cloak_client_auth_build (af_uid demo_auth) (Some (c_block (af_proxy_method demo_auth) []))
          (af_encryption_method demo_auth) (af_session_id demo_auth) 1 (af_time demo_auth) (replicate 32 9) [4; 4] with
  | Some (_, p, _) => ap_random p ++ ap_ciphertext p
  | None => []
  end.

Lemma ws_demo_request_ok : ws_request (demo_request (base64 b64_alphabet demo_payload)) (c_string "GET")
  (demo_header (base64 b64_alphabet demo_payload)).
Proof. apply composed_request; vm_compute; reflexivity. Qed.

Lemma ws_client_recognised_witness :
  exists secret res,
    cloak_ws_handshake_parse (Some (demo_request (base64 b64_alphabet demo_payload)))
      (zlen (demo_request (base64 b64_alphabet demo_payload))) (Some (WsHs [] [])) = Some (CLOAK_WS_HS_OK, Some res) /\
    cloak_server_auth_decrypt (take 32 (hs_hidden res)) (Some (take 32 (drop 32 (hs_hidden res)))) 32
      (Some (drop 64 (hs_hidden res))) (replicate 32 9) 1700000179 (replicate 13 0) =
    Some (Some (client_info demo_auth (replicate 13 0), secret)).
Proof.
  destruct (ws_client_recognised demo_auth 1 [] (replicate 32 9) (replicate 32 9)
    (take 32 ([4; 4] ++ replicate 32 0)) (take 32 ([4; 4] ++ replicate 32 0)) [4; 4]
    demo_auth_ok eq_refl demo_server_keys eq_refl) as (payload&secret&Hb&Hall).
  assert (Hp : ap_random payload ++ ap_ciphertext payload = demo_payload)
    by (unfold demo_payload; rewrite Hb; reflexivity).
  rewrite Hp in Hall. exists secret.
  destruct (Hall (demo_request (base64 b64_alphabet demo_payload)) (demo_header (base64 b64_alphabet demo_payload))
    sample_key (c_string "s3pPLMBiTxaQ9kYGzzhZRbK+xOo=") (WsHs [] []) (replicate 200 0)
    ltac:(vm_compute; reflexivity) ws_demo_request_ok ltac:(vm_compute; reflexivity) ltac:(vm_compute; reflexivity)
    ltac:(vm_compute; reflexivity) ltac:(vm_compute; reflexivity) ltac:(vm_compute; reflexivity) ltac:(vm_compute; eexists; reflexivity)
    ltac:(vm_compute; reflexivity) ltac:(vm_compute; discriminate)) as (res&Hr&_&Hd).
  exists res. split; [exact Hr|]. apply (Hd 1700000179 (replicate 13 0)); [split; reflexivity|reflexivity].
Defined.
