(* ===== verification/SipHash.v ===== *)
(** * SipHash-2-4 ([libcloak-server/src/hash_internal.h] and the copy in
    [replay_cache.c])

    The server keys its hash tables with SipHash so that a peer cannot aim at a
    slot.  The code exists twice: a general one in [hash_internal.h], which the
    registry uses, and one unrolled for 32-byte inputs in [replay_cache.c]. *)
From S2P Require Import Prelude.

(** The four words of state. *)
Record sip_state := Sip { sip0 : Z; sip1 : Z; sip2 : Z; sip3 : Z }.

(** A 64-bit load; the shifts put the bytes side by side. *)
Definition cloak_sip_load_le64 (p : bytes) (off : Z) : option Z :=
  b0 ← p.[off]; b1 ← p.[off + 1]; b2 ← p.[off + 2]; b3 ← p.[off + 3];
  b4 ← p.[off + 4]; b5 ← p.[off + 5]; b6 ← p.[off + 6]; b7 ← p.[off + 7];
  Some (Z.lor (Z.lor (Z.lor (Z.lor (Z.lor (Z.lor (Z.lor b0 (Z.shiftl b1 8)) (Z.shiftl b2 16))
    (Z.shiftl b3 24)) (Z.shiftl b4 32)) (Z.shiftl b5 40)) (Z.shiftl b6 48)) (u64 (Z.shiftl b7 56))).

Definition cloak_sip_rotl (x b : Z) : Z := Z.lor (u64 (Z.shiftl x b)) (Z.shiftr x (64 - b)).

Definition cloak_sip_round (v : sip_state) : sip_state :=
  let 'Sip v0 v1 v2 v3 := v in
  let v0 := u64 (v0 + v1) in
  let v1 := cloak_sip_rotl v1 13 in
  let v1 := Z.lxor v1 v0 in
  let v0 := cloak_sip_rotl v0 32 in
  let v2 := u64 (v2 + v3) in
  let v3 := cloak_sip_rotl v3 16 in
  let v3 := Z.lxor v3 v2 in
  let v0 := u64 (v0 + v3) in
  let v3 := cloak_sip_rotl v3 21 in
  let v3 := Z.lxor v3 v0 in
  let v2 := u64 (v2 + v1) in
  let v1 := cloak_sip_rotl v1 17 in
  let v1 := Z.lxor v1 v2 in
  let v2 := cloak_sip_rotl v2 32 in
  Sip v0 v1 v2 v3.

Definition sip_init (k0 k1 : Z) : sip_state :=
  Sip (Z.lxor 8317987319222330741 k0) (Z.lxor 7237128888997146477 k1)
    (Z.lxor 7816392313619706465 k0) (Z.lxor 8387220255154660723 k1).

(** Absorb one word: two rounds between the two exclusive-ors. *)
Definition sip_absorb (v : sip_state) (m : Z) : sip_state :=
  let v := Sip (sip0 v) (sip1 v) (sip2 v) (Z.lxor (sip3 v) m) in
  let v := cloak_sip_round (cloak_sip_round v) in
  Sip (Z.lxor (sip0 v) m) (sip1 v) (sip2 v) (sip3 v).

(** The loop over the complete words, from word [i] on. *)
Fixpoint sip_blocks (n : nat) (i : Z) (inp : bytes) (v : sip_state) : option sip_state :=
  match n with
  | O => Some v
  | S n' => m ← cloak_sip_load_le64 inp (i * 8); sip_blocks n' (i + 1) inp (sip_absorb v m)
  end.

(** The loop over the bytes after them. *)
Fixpoint sip_tail (n : nat) (i : Z) (inp : bytes) (tail b : Z) : option Z :=
  match n with
  | O => Some b
  | S n' =>
      x ← inp.[tail + i]; sip_tail n' (i + 1) inp tail (Z.lor b (u64 (Z.shiftl x (8 * i))))
  end.

Definition sip_finish (v : sip_state) : Z :=
  let v := Sip (sip0 v) (sip1 v) (Z.lxor (sip2 v) 255) (sip3 v) in
  let v := cloak_sip_round (cloak_sip_round (cloak_sip_round (cloak_sip_round v))) in
  Z.lxor (Z.lxor (Z.lxor (sip0 v) (sip1 v)) (sip2 v)) (sip3 v).

Definition cloak_siphash24 (k inp : bytes) (len : Z) : option Z :=
  k0 ← cloak_sip_load_le64 k 0;
  k1 ← cloak_sip_load_le64 k 8;
  let blocks := len / 8 in
  v ← sip_blocks (Z.to_nat blocks) 0 inp (sip_init k0 k1);
  b ← sip_tail (Z.to_nat (Z.land len 7)) 0 inp (blocks * 8) (u64 (Z.shiftl len 56));
  Some (sip_finish (sip_absorb v b)).

(** ** The copy in the replay cache *)

Definition SIP_ROTL (x b : Z) : Z := u64 (Z.lor (u64 (Z.shiftl x b)) (Z.shiftr x (64 - b))).

Definition SIP_ROUND (v : sip_state) : sip_state :=
  let 'Sip v0 v1 v2 v3 := v in
  let v0 := u64 (v0 + v1) in
  let v1 := SIP_ROTL v1 13 in
  let v1 := Z.lxor v1 v0 in
  let v0 := SIP_ROTL v0 32 in
  let v2 := u64 (v2 + v3) in
  let v3 := SIP_ROTL v3 16 in
  let v3 := Z.lxor v3 v2 in
  let v0 := u64 (v0 + v3) in
  let v3 := SIP_ROTL v3 21 in
  let v3 := Z.lxor v3 v0 in
  let v2 := u64 (v2 + v1) in
  let v1 := SIP_ROTL v1 17 in
  let v1 := Z.lxor v1 v2 in
  let v2 := SIP_ROTL v2 32 in
  Sip v0 v1 v2 v3.

Definition sip_load_le64 (p : bytes) (off : Z) : option Z := cloak_sip_load_le64 p off.

Definition sip32_absorb (v : sip_state) (m : Z) : sip_state :=
  let v := Sip (sip0 v) (sip1 v) (sip2 v) (Z.lxor (sip3 v) m) in
  let v := SIP_ROUND (SIP_ROUND v) in
  Sip (Z.lxor (sip0 v) m) (sip1 v) (sip2 v) (sip3 v).

(** The loop over the four words. *)
Fixpoint sip32_blocks (n : nat) (i : Z) (inp : bytes) (v : sip_state) : option sip_state :=
  match n with
  | O => Some v
  | S n' => m ← sip_load_le64 inp (i * 8); sip32_blocks n' (i + 1) inp (sip32_absorb v m)
  end.

Definition sip32_finish (v : sip_state) : Z :=
  let v := Sip (sip0 v) (sip1 v) (Z.lxor (sip2 v) 255) (sip3 v) in
  let v := SIP_ROUND (SIP_ROUND (SIP_ROUND (SIP_ROUND v))) in
  Z.lxor (Z.lxor (Z.lxor (sip0 v) (sip1 v)) (sip2 v)) (sip3 v).

Definition siphash24_32 (k inp : bytes) : option Z :=
  k0 ← sip_load_le64 k 0;
  k1 ← sip_load_le64 k 8;
  v ← sip32_blocks 4 0 inp (sip_init k0 k1);
  let b := u64 (Z.shiftl 32 56) in
  Some (sip32_finish (sip32_absorb v b)).

(** The test vector of the SipHash paper: key 00..0f, message 00..0e. *)
Example siphash_vector :
  cloak_siphash24 (seqZ 0 16) (seqZ 0 15) 15 = Some 11613035633349379557.
Proof. vm_compute. reflexivity. Qed.

(** ** Words stay words *)

Definition is_u64 (x : Z) : Prop := 0 <= x < 18446744073709551616.

Lemma is_u64_u64 x : is_u64 (u64 x).
Proof. apply u64_range. Qed.

(** Sixty-four bits are those below 64. *)
Lemma is_u64_bits x : 0 <= x -> (forall i, 64 <= i -> Z.testbit x i = false) -> is_u64 x.
Proof.
  intros Hx Hb. split; [done|]. change 18446744073709551616 with (2 ^ 64).
  destruct (Z.eq_dec x 0) as [->|]; [done|]. apply Z.log2_lt_pow2; [lia|].
  destruct (Z.lt_ge_cases (Z.log2 x) 64); [done|].
  specialize (Hb (Z.log2 x) ltac:(lia)). rewrite Z.bit_log2 in Hb by lia. done.
Qed.

Lemma is_u64_high x i : is_u64 x -> 64 <= i -> Z.testbit x i = false.
Proof.
  intros [H0 H1] Hi. rewrite <- (Z.mod_small x (2 ^ 64)) by (by split).
  apply Z.mod_pow2_bits_high. lia.
Qed.

Lemma lxor_u64 x y : is_u64 x -> is_u64 y -> is_u64 (Z.lxor x y).
Proof. apply (lxor_range 64). Qed.

Lemma lor_u64 x y : is_u64 x -> is_u64 y -> is_u64 (Z.lor x y).
Proof.
  intros Hx Hy. apply is_u64_bits; [apply Z.lor_nonneg; destruct Hx, Hy; tauto|].
  intros i Hi. by rewrite Z.lor_spec, !is_u64_high.
Qed.

Lemma shiftr_u64 x n : is_u64 x -> 0 <= n -> is_u64 (Z.shiftr x n).
Proof.
  intros Hx Hn. apply is_u64_bits; [apply Z.shiftr_nonneg; by destruct Hx|].
  intros i Hi. rewrite Z.shiftr_spec by lia. apply is_u64_high; [done|lia].
Qed.

Lemma rotl_u64 x n : is_u64 x -> 0 <= n <= 64 -> is_u64 (cloak_sip_rotl x n).
Proof. intros. apply lor_u64; [apply is_u64_u64|apply shiftr_u64; [done|lia]]. Qed.

Create HintDb sip.
#[export] Hint Resolve is_u64_u64 lxor_u64 : sip.
#[export] Hint Extern 2 (is_u64 (cloak_sip_rotl _ _)) => apply rotl_u64; [|lia] : sip.

Definition sip_ok (v : sip_state) : Prop :=
  is_u64 (sip0 v) /\ is_u64 (sip1 v) /\ is_u64 (sip2 v) /\ is_u64 (sip3 v).

Lemma rotl_copies x n : is_u64 x -> 0 <= n <= 64 -> SIP_ROTL x n = cloak_sip_rotl x n.
Proof. intros. unfold SIP_ROTL. fold (cloak_sip_rotl x n). by apply u64_small, rotl_u64. Qed.

Lemma round_ok v : sip_ok v -> sip_ok (cloak_sip_round v).
Proof.
  destruct v as [v0 v1 v2 v3]. intros (H0&H1&H2&H3). unfold cloak_sip_round, sip_ok. cbn in *.
  split_and!; auto 12 with sip.
Qed.

Lemma round_copies v : sip_ok v -> SIP_ROUND v = cloak_sip_round v.
Proof.
  destruct v as [v0 v1 v2 v3]. intros (H0&H1&H2&H3). cbn in *. unfold SIP_ROUND, cloak_sip_round.
  rewrite (rotl_copies v1 13), (rotl_copies v3 16) by (done || lia).
  rewrite (rotl_copies (u64 (v0 + v1)) 32) by (auto with sip || lia).
  rewrite !(rotl_copies (Z.lxor _ _)) by (auto 12 with sip || lia).
  by rewrite (rotl_copies (u64 _) 32) by (auto with sip || lia).
Qed.

Lemma load_le64_total p off :
  all_bytes p -> 0 <= off -> off + 8 <= zlen p ->
  exists v, cloak_sip_load_le64 p off = Some v /\ is_u64 v.
Proof.
  intros Hp ??. unfold cloak_sip_load_le64.
  destruct (mem_get_byte p off) as (b0&->&Hb0); [done|lia|].
  destruct (mem_get_byte p (off + 1)) as (b1&->&Hb1); [done|lia|].
  destruct (mem_get_byte p (off + 2)) as (b2&->&Hb2); [done|lia|].
  destruct (mem_get_byte p (off + 3)) as (b3&->&Hb3); [done|lia|].
  destruct (mem_get_byte p (off + 4)) as (b4&->&Hb4); [done|lia|].
  destruct (mem_get_byte p (off + 5)) as (b5&->&Hb5); [done|lia|].
  destruct (mem_get_byte p (off + 6)) as (b6&->&Hb6); [done|lia|].
  destruct (mem_get_byte p (off + 7)) as (b7&->&Hb7); [done|lia|].
  cbn [mbind option_bind]. eexists; split; [done|]. unfold is_byte in *.
  assert (Hs : forall b n, 0 <= b < 256 -> 0 <= n <= 48 -> is_u64 (Z.shiftl b n)).
  { intros b n Hb Hn. rewrite Z.shiftl_mul_pow2 by lia. assert (0 < 2 ^ n) by (apply Z.pow_pos_nonneg; lia).
    assert (2 ^ n <= 2 ^ 48) by (apply Z.pow_le_mono_r; lia). change (2 ^ 48) with 281474976710656 in *.
    unfold is_u64. nia. }
  repeat apply lor_u64; try apply is_u64_u64; try (apply Hs; lia). unfold is_u64; lia.
Qed.

(** Replacing one word of a state. *)
Lemma set_word_ok v x y : sip_ok v -> is_u64 x -> is_u64 y ->
  sip_ok (Sip (sip0 v) (sip1 v) (sip2 v) (Z.lxor (sip3 v) x)) /\
  sip_ok (Sip (Z.lxor (sip0 v) x) (sip1 v) (sip2 v) (sip3 v)) /\
  sip_ok (Sip (sip0 v) (sip1 v) (Z.lxor (sip2 v) y) (sip3 v)).
Proof.
  destruct v as [v0 v1 v2 v3]. unfold sip_ok. cbn [sip0 sip1 sip2 sip3]. intros (?&?&?&?) ??.
  split_and!; auto with sip.
Qed.

Lemma absorb_ok v m : sip_ok v -> is_u64 m -> sip_ok (sip_absorb v m).
Proof.
  intros Hv Hm. apply (set_word_ok _ m m); [|done..].
  apply round_ok, round_ok. by apply (set_word_ok v m m).
Qed.

Lemma finish_ok v : sip_ok v -> is_u64 (sip_finish v).
Proof.
  intros Hv. assert (Hff : is_u64 255) by (by unfold is_u64).
  assert (Hw : sip_ok (cloak_sip_round (cloak_sip_round (cloak_sip_round (cloak_sip_round
    (Sip (sip0 v) (sip1 v) (Z.lxor (sip2 v) 255) (sip3 v))))))).
  { do 4 apply round_ok. by apply (set_word_ok v 255 255). }
  unfold sip_finish. revert Hw. generalize (cloak_sip_round (cloak_sip_round (cloak_sip_round
    (cloak_sip_round (Sip (sip0 v) (sip1 v) (Z.lxor (sip2 v) 255) (sip3 v)))))).
  intros w (?&?&?&?). auto with sip.
Qed.

Lemma blocks_total n i inp v :
  all_bytes inp -> 0 <= i -> (i + Z.of_nat n) * 8 <= zlen inp -> sip_ok v ->
  exists w, sip_blocks n i inp v = Some w /\ sip_ok w.
Proof.
  intros Hb. revert i v. induction n as [|n IH]; intros i v Hi Hn Hv; [by exists v|].
  cbn [sip_blocks]. destruct (load_le64_total inp (i * 8)) as (m&->&Hm); [done|lia|lia|].
  cbn [mbind option_bind]. apply IH; [lia|lia|by apply absorb_ok].
Qed.

Lemma tail_total n i inp tl b :
  all_bytes inp -> 0 <= tl -> 0 <= i -> tl + i + Z.of_nat n <= zlen inp -> is_u64 b ->
  exists w, sip_tail n i inp tl b = Some w /\ is_u64 w.
Proof.
  intros Hb Ht. revert i b. induction n as [|n IH]; intros i b Hi Hn Hbw; [by exists b|].
  cbn [sip_tail]. destruct (mem_get_byte inp (tl + i)) as (x&->&Hx); [done|lia|].
  cbn [mbind option_bind]. apply IH; [lia|lia|]. apply lor_u64; [done|apply is_u64_u64].
Qed.

Lemma init_ok k0 k1 : is_u64 k0 -> is_u64 k1 -> sip_ok (sip_init k0 k1).
Proof. intros. unfold sip_ok, sip_init; cbn. split_and!; apply lxor_u64; done. Qed.

(** The hash of any buffer is a 64-bit word, computed inside the buffer. *)
Lemma siphash_total k inp :
  all_bytes k -> zlen k = 16 -> all_bytes inp -> zlen inp <= SIZE_MAX ->
  exists h, cloak_siphash24 k inp (zlen inp) = Some h /\ is_u64 h.
Proof.
  intros Hk Hk16 Hb Hlen. unfold cloak_siphash24. zlen_pos.
  destruct (load_le64_total k 0) as (k0&->&Hk0); [done|lia|lia|].
  destruct (load_le64_total k 8) as (k1&->&Hk1); [done|lia|lia|]. cbn [mbind option_bind].
  assert (Hdm : zlen inp = 8 * (zlen inp / 8) + zlen inp mod 8) by (apply Z.div_mod; lia).
  pose proof (Z.mod_pos_bound (zlen inp) 8 ltac:(lia)). pose proof (Z.div_pos (zlen inp) 8 ltac:(lia) ltac:(lia)).
  destruct (blocks_total (Z.to_nat (zlen inp / 8)) 0 inp (sip_init k0 k1)) as (v&->&Hv);
    [done|lia|lia|by apply init_ok|]. cbn [mbind option_bind].
  change 7 with (Z.ones 3). rewrite Z.land_ones by lia. change (2 ^ 3) with 8.
  destruct (tail_total (Z.to_nat (zlen inp mod 8)) 0 inp (zlen inp / 8 * 8) (u64 (Z.shiftl (zlen inp) 56)))
    as (b&->&Hbb); [done|lia|lia|lia|apply is_u64_u64|].
  cbn [mbind option_bind]. eexists; split; [done|]. by apply finish_ok, absorb_ok.
Qed.

Lemma absorb_copies v m : sip_ok v -> is_u64 m -> sip32_absorb v m = sip_absorb v m.
Proof.
  intros (H0&H1&H2&H3) Hm. unfold sip32_absorb, sip_absorb.
  assert (Hw : sip_ok (Sip (sip0 v) (sip1 v) (sip2 v) (Z.lxor (sip3 v) m)))
    by (unfold sip_ok; cbn [sip0 sip1 sip2 sip3]; auto 6 with sip).
  by rewrite (round_copies _ Hw), (round_copies _ (round_ok _ Hw)).
Qed.

Lemma finish_copies v : sip_ok v -> sip32_finish v = sip_finish v.
Proof.
  intros (H0&H1&H2&H3). unfold sip32_finish, sip_finish.
  assert (Hff : is_u64 255) by (by unfold is_u64).
  assert (Hx : sip_ok (Sip (sip0 v) (sip1 v) (Z.lxor (sip2 v) 255) (sip3 v)))
    by (unfold sip_ok; cbn [sip0 sip1 sip2 sip3]; auto 6 with sip).
  generalize dependent (Sip (sip0 v) (sip1 v) (Z.lxor (sip2 v) 255) (sip3 v)). intros x Hx.
  rewrite (round_copies x Hx). apply round_ok in Hx. generalize dependent (cloak_sip_round x).
  clear x. intros x Hx. rewrite (round_copies x Hx). apply round_ok in Hx.
  generalize dependent (cloak_sip_round x). clear x. intros x Hx.
  rewrite (round_copies x Hx). apply round_ok in Hx. generalize dependent (cloak_sip_round x).
  clear x. intros x Hx. by rewrite (round_copies x Hx).
Qed.

Lemma sip32_blocks_copies n i inp v :
  all_bytes inp -> 0 <= i -> (i + Z.of_nat n) * 8 <= zlen inp -> sip_ok v ->
  sip32_blocks n i inp v = sip_blocks n i inp v.
Proof.
  intros Hb. revert i v. induction n as [|n IH]; intros i v Hi Hn Hv; [done|].
  cbn [sip32_blocks sip_blocks]. unfold sip_load_le64.
  destruct (load_le64_total inp (i * 8)) as (m&->&Hm); [done|lia|lia|]. cbn [mbind option_bind].
  rewrite absorb_copies by done. apply IH; [lia|lia|by apply absorb_ok].
Qed.

(** The unrolled copy computes what the general one does. *)
Lemma siphash32_general k inp :
  all_bytes k -> zlen k = 16 -> all_bytes inp -> zlen inp = 32 ->
  exists h, siphash24_32 k inp = Some h /\ cloak_siphash24 k inp 32 = Some h /\ is_u64 h.
Proof.
  intros Hk Hk16 Hb H32.
  destruct (siphash_total k inp Hk Hk16 Hb) as (h&Hh&Hr); [by rewrite H32|]. rewrite H32 in Hh.
  exists h. split; [|done]. rewrite <- Hh. unfold siphash24_32, cloak_siphash24, sip_load_le64.
  destruct (load_le64_total k 0) as (k0&->&Hk0); [done|lia|lia|].
  destruct (load_le64_total k 8) as (k1&->&Hk1); [done|lia|lia|]. cbn [mbind option_bind].
  rewrite sip32_blocks_copies by (done || lia || by apply init_ok).
  change (Z.to_nat (32 / 8)) with 4%nat. change (Z.to_nat (Z.land 32 7)) with 0%nat. cbn [sip_tail].
  destruct (blocks_total 4 0 inp (sip_init k0 k1)) as (v&->&Hv); [done|lia|lia|by apply init_ok|].
  cbn [mbind option_bind]. assert (Hbu : is_u64 (u64 (Z.shiftl 32 56))) by apply is_u64_u64.
  by rewrite absorb_copies, finish_copies by (done || by apply absorb_ok).
Qed.

(** The two copies of SipHash agree.  Under any 16-byte key the unrolled
    copy in the replay cache computes, on any 32 bytes, the same 64-bit value
    as the general one, and both stay inside their arguments. *)
Theorem siphash_copies_agree k inp :
  all_bytes k -> zlen k = 16 -> all_bytes inp -> zlen inp = 32 ->
  exists h, siphash24_32 k inp = Some h /\ cloak_siphash24 k inp 32 = Some h /\ is_u64 h.
Proof. apply siphash32_general. Qed.

Lemma siphash_copies_agree_witness :
  exists h, siphash24_32 (seqZ 0 16) (seqZ 0 32) = Some h /\
    cloak_siphash24 (seqZ 0 16) (seqZ 0 32) 32 = Some h /\ is_u64 h.
Proof.
  apply (siphash_copies_agree (seqZ 0 16) (seqZ 0 32)); try reflexivity;
    apply all_bytesb_sound; vm_compute; reflexivity.
Defined.
