(* ===== verification/ReplayCache.v ===== *)
(** * The replay cache ([libcloak-server/src/replay_cache.c])

    A direct-mapped table of recently seen 32-byte values.  A value has one
    home slot, chosen by SipHash under a per-cache secret key; inserting
    overwrites whatever lives there and never fails.  [calloc]'s success is an
    argument of [init], the random key comes from the tape. *)
From S2P Require Import Prelude Refinement Random SipHash.

Record cloak_replay_slot_t := ReplaySlot { rp_key : bytes; rp_inserted_at : Z }.

Record cloak_replay_cache_t := ReplayCache {
  rc_slots : list cloak_replay_slot_t;
  rc_capacity : Z;
  rc_hash_key : bytes
}.

Definition replay_slot_zero : cloak_replay_slot_t := ReplaySlot (replicate 32 0) 0.
Definition replay_cache_zero : cloak_replay_cache_t := ReplayCache [] 0 (replicate 16 0).

Definition cloak_replay_cache_init (capacity : Z) (calloc_ok : bool) (r : rand)
    : Z * cloak_replay_cache_t * rand :=
  if capacity =? 0 then (-1, replay_cache_zero, r)
  else if negb calloc_ok then (-1, replay_cache_zero, r)
  else
    let slots := replicate (Z.to_nat capacity) replay_slot_zero in
    let '(hash_key, r) := cloak_random_bytes 16 r in
    (0, ReplayCache slots capacity hash_key, r).

Definition cloak_replay_cache_destroy (cache : cloak_replay_cache_t) : cloak_replay_cache_t :=
  ReplayCache [] 0 (replicate 16 0).

Definition cloak_replay_cache_check_and_insert (cache : cloak_replay_cache_t) (key : bytes)
    (now_unix age_limit_seconds : Z) : option (Z * cloak_replay_cache_t) :=
  if rc_capacity cache =? 0 then Some (0, cache)
  else
    h ← siphash24_32 (rc_hash_key cache) key;
    let slot_idx := h mod rc_capacity cache in
    slot ← (rc_slots cache).[slot_idx];
    replay ← (if negb (rp_inserted_at slot =? 0) && bool_decide (rp_key slot = key) then
                age ← i64 (now_unix - rp_inserted_at slot);
                Some ((0 <=? age) && (age <? age_limit_seconds))
              else Some false);
    if (replay : bool) then Some (1, cache)
    else
      slots ← mem_set (rc_slots cache) slot_idx (ReplaySlot key now_unix);
      Some (0, ReplayCache slots (rc_capacity cache) (rc_hash_key cache)).

(** ** The contract

    What the cache should answer, as a function of the calls made so far and
    their answers: nothing is stored but the history. *)
Record handshake := Handshake { hs_key : bytes; hs_now : Z; hs_limit : Z }.

Definition handshake_ok (o : handshake) : Prop :=
  all_bytes (hs_key o) /\ zlen (hs_key o) = 32 /\ 0 <= hs_now o <= INT64_MAX.

(** The home slot of a value. *)
Definition home (cache : cloak_replay_cache_t) (key : bytes) : Z :=
  default 0 (siphash24_32 (rc_hash_key cache) key) mod rc_capacity cache.

(** The last value inserted (answered 0) at slot [i], and when. *)
Definition last_inserted (slot_of : bytes -> Z) (hist : list (handshake * Z)) (i : Z)
    : option (bytes * Z) :=
  last (omap (fun '(o, out) => if (slot_of (hs_key o) =? i) && (out =? 0)
                               then Some (hs_key o, hs_now o) else None) hist).

Definition verdict (slot_of : bytes -> Z) (hist : list (handshake * Z)) (o : handshake) : Z :=
  match last_inserted slot_of hist (slot_of (hs_key o)) with
  | Some (k, t) =>
      if bool_decide (k = hs_key o) && negb (t =? 0) && (0 <=? hs_now o - t) &&
         (hs_now o - t <? hs_limit o) then 1 else 0
  | None => 0
  end.

Definition verdict_exec (slot_of : bytes -> Z) (o : handshake) (hist : list (handshake * Z))
    : Z * list (handshake * Z) :=
  let out := verdict slot_of hist o in (out, hist ++ [(o, out)]).

Definition replay_exec (o : handshake) (c : cloak_replay_cache_t)
    : option (Z * cloak_replay_cache_t) :=
  cloak_replay_cache_check_and_insert c (hs_key o) (hs_now o) (hs_limit o).

(** ** The table holds the last insertions *)

Record cache_rep (hist : list (handshake * Z)) (c : cloak_replay_cache_t) : Prop := {
  cr_capacity : 0 < rc_capacity c < 18446744073709551616;
  cr_slots : zlen (rc_slots c) = rc_capacity c;
  cr_key : all_bytes (rc_hash_key c) /\ zlen (rc_hash_key c) = 16;
  cr_hist : Forall (fun p => handshake_ok p.1) hist;
  cr_content : forall i s, (rc_slots c).[i] = Some s ->
    match last_inserted (home c) hist i with
    | Some (k, t) => s = ReplaySlot k t
    | None => rp_inserted_at s = 0
    end
}.

Lemma last_inserted_snoc slot_of hist o out i :
  last_inserted slot_of (hist ++ [(o, out)]) i =
  if (slot_of (hs_key o) =? i) && (out =? 0) then Some (hs_key o, hs_now o)
  else last_inserted slot_of hist i.
Proof.
  unfold last_inserted. rewrite omap_app. cbn [omap list_omap].
  destruct ((slot_of (hs_key o) =? i) && (out =? 0)); [by rewrite last_snoc|by rewrite app_nil_r].
Qed.

Lemma last_inserted_ok slot_of hist i k t :
  Forall (fun p => handshake_ok p.1) hist ->
  last_inserted slot_of hist i = Some (k, t) -> 0 <= t <= INT64_MAX.
Proof.
  induction hist as [|[o out] hist IH] using rev_ind; [done|].
  intros [Hh Ho]%Forall_app. rewrite last_inserted_snoc. destruct (_ && _); [|by apply IH].
  intros [= <- <-]. apply Forall_inv in Ho. apply Ho.
Qed.

Lemma mem_set_slot (l : list cloak_replay_slot_t) i x l' j s :
  mem_set l i x = Some l' -> l'.[j] = Some s -> (j = i /\ s = x) \/ (j <> i /\ l.[j] = Some s).
Proof.
  intros Hs Hj. pose proof (mem_set_get l i x l' j Hs) as [_ H]. rewrite H in Hj.
  destruct (Z.eqb_spec j i); [left|right]; split; congruence.
Qed.

Lemma check_spec hist c o :
  cache_rep hist c -> handshake_ok o ->
  exists c', replay_exec o c = Some (verdict (home c) hist o, c') /\
    cache_rep (hist ++ [(o, verdict (home c) hist o)]) c' /\
    rc_hash_key c' = rc_hash_key c /\ rc_capacity c' = rc_capacity c.
Proof.
  intros [Hcap Hlen [Hkb Hk16] Hhist Hcont] Ho. destruct (Ho) as (Hb&H32&Hnow).
  destruct (siphash32_general (rc_hash_key c) (hs_key o) Hkb Hk16 Hb H32) as (h&Hh&_&Hr).
  unfold replay_exec, cloak_replay_cache_check_and_insert.
  rewrite (proj2 (Z.eqb_neq _ _)) by lia. rewrite Hh. cbn [mbind option_bind].
  assert (Hhome : home c (hs_key o) = h mod rc_capacity c) by (unfold home; by rewrite Hh).
  rewrite <- Hhome. pose proof (Z.mod_pos_bound h (rc_capacity c) ltac:(lia)) as Hi.
  rewrite <- Hhome in Hi.
  destruct (mem_get_Some (rc_slots c) (home c (hs_key o))) as [s Hs]; [lia|].
  pose proof (Hcont _ s Hs) as Hsc. rewrite Hs. cbn [mbind option_bind].
  (* the test of the slot is the verdict *)
  assert (Htest : (if negb (rp_inserted_at s =? 0) && bool_decide (rp_key s = hs_key o)
     then age ← i64 (hs_now o - rp_inserted_at s); Some ((0 <=? age) && (age <? hs_limit o))
     else Some false) = Some (verdict (home c) hist o =? 1)).
  { unfold verdict. destruct (last_inserted _ _ _) as [[k t]|] eqn:El.
    - subst s. cbn [rp_inserted_at rp_key]. apply last_inserted_ok in El; [|done].
      rewrite i64_Some by (unfold INT64_MIN, INT64_MAX in *; lia). cbn [mbind option_bind].
      destruct (bool_decide (k = hs_key o)), (t =? 0); cbn [negb andb]; try done.
      by destruct ((0 <=? _) && _).
    - by rewrite Hsc. }
  rewrite Htest. cbn [mbind option_bind].
  assert (Hv : verdict (home c) hist o = 0 \/ verdict (home c) hist o = 1).
  { unfold verdict. repeat case_match; auto. }
  assert (Hhist' : Forall (fun p => handshake_ok p.1) (hist ++ [(o, verdict (home c) hist o)])).
  { apply Forall_app. split; [done|]. constructor; [exact Ho|constructor]. }
  destruct Hv as [Hv|Hv]; rewrite Hv in *; cbn [Z.eqb Pos.eqb].
  - rewrite mem_set_Some by lia. cbn [mbind option_bind]. eexists; split; [done|]. split_and!; try done.
    split; cbn [rc_slots rc_capacity rc_hash_key]; try done.
    + unfold zlen in *. by rewrite length_insert.
    + intros i s' Hs'. change (home (ReplayCache _ _ _)) with (home c). rewrite last_inserted_snoc.
      destruct (mem_set_slot (rc_slots c) (home c (hs_key o)) (ReplaySlot (hs_key o) (hs_now o)) _ i s'
        ltac:(apply mem_set_Some; lia) Hs') as [[-> ->]|[Hne Hold]].
      * by rewrite (Z.eqb_refl (home c (hs_key o))).
      * rewrite (proj2 (Z.eqb_neq _ _)) by done. cbn [andb]. by apply Hcont.
  - eexists; split; [done|]. split_and!; try done. split; try done.
    intros i s' Hs'. rewrite last_inserted_snoc, andb_false_r. by apply Hcont.
Qed.

(** The cache, related to the history by the home slots of [c0]. *)
Definition cache_hist (c0 c : cloak_replay_cache_t) (hist : list (handshake * Z)) : Prop :=
  cache_rep hist c /\ rc_hash_key c = rc_hash_key c0 /\ rc_capacity c = rc_capacity c0.

#[export] Instance replay_refines c0 :
  Refines replay_exec (verdict_exec (home c0)) handshake_ok (cache_hist c0).
Proof.
  intros o c hist (Hrep&Hk&Hc) Ho.
  assert (Hhome : home c = home c0) by (unfold home; by rewrite Hk, Hc).
  destruct (check_spec hist c o Hrep Ho) as (c'&He&Hrep'&Hk'&Hc'). rewrite Hhome in *.
  exists (verdict (home c0) hist o), c', (hist ++ [(o, verdict (home c0) hist o)]).
  split; [exact He|]. split; [|done]. split; [exact Hrep'|]. split; congruence.
Qed.

Lemma init_rep capacity r c0 r' :
  0 < capacity < 18446744073709551616 -> rand_ok r ->
  cloak_replay_cache_init capacity true r = (0, c0, r') -> cache_rep [] c0.
Proof.
  intros Hcap Hr. unfold cloak_replay_cache_init. rewrite (proj2 (Z.eqb_neq _ _)) by lia.
  cbn [negb]. destruct (cloak_random_bytes 16 r) as [k r1] eqn:E. intros [= <- <-].
  split; cbn [rc_slots rc_capacity rc_hash_key]; try done.
  - rewrite zlen_replicate. lia.
  - split; [by eapply (random_bytes_ok 16 r)|by eapply random_bytes_length].
  - intros i s [_ Hs]%mem_get_inv. apply lookup_replicate in Hs as [-> _]. done.
Qed.

(** C39: refinement.  From initialisation on, any sequence of checks on a cache
    of any capacity answers what the history alone determines: 1 exactly when
    the last value inserted at the home slot of the presented value is that
    value, inserted at a non-zero time [t] with [0 <= now - t < limit]; a
    replay is not recorded, everything else is.  No access leaves the table
    and no clock reading, forwards or backwards, overflows. *)
Theorem replay_cache_refines_history capacity r c0 r' ops :
  0 < capacity < 18446744073709551616 -> rand_ok r ->
  cloak_replay_cache_init capacity true r = (0, c0, r') -> Forall handshake_ok ops ->
  exists outs c hist, run replay_exec ops c0 = Some (outs, c) /\ cache_rep hist c /\
    spec_run (verdict_exec (home c0)) ops [] = (outs, hist).
Proof.
  intros Hcap Hr Hinit Hops. pose proof (init_rep _ _ _ _ Hcap Hr Hinit) as Hrep.
  destruct (run_refines _ _ _ (cache_hist c0) ops c0 [] (conj Hrep (conj eq_refl eq_refl)) Hops)
    as (outs&c&hist&Hrun&[Hc _]&Hspec).
  by exists outs, c, hist.
Qed.

(** A value stays recorded while only its own replays come to its slot. *)
Lemma mid_keeps c0 key t mid c hist :
  cache_hist c0 c hist -> Forall handshake_ok mid -> 0 < t ->
  last_inserted (home c0) hist (home c0 key) = Some (key, t) ->
  Forall (fun m => home c0 (hs_key m) = home c0 key ->
                   hs_key m = key /\ 0 <= hs_now m - t < hs_limit m) mid ->
  exists outs c' hist', run replay_exec mid c = Some (outs, c') /\ cache_hist c0 c' hist' /\
    last_inserted (home c0) hist' (home c0 key) = Some (key, t).
Proof.
  intros Hrep Hok Ht Hlast Hmid. revert c hist Hrep Hok Hlast.
  induction Hmid as [|m mid Hm Hmid IH]; intros c hist Hrep Hok Hlast.
  { exists [], c, hist. done. }
  apply Forall_cons in Hok as [Hmok Hok]. destruct Hrep as (Hrep&Hk&Hc).
  assert (Hhome : home c = home c0) by (unfold home; by rewrite Hk, Hc).
  destruct (check_spec hist c m Hrep Hmok) as (c'&He&Hrep'&Hk'&Hc'). rewrite Hhome in *.
  assert (Hlast' : last_inserted (home c0) (hist ++ [(m, verdict (home c0) hist m)]) (home c0 key)
    = Some (key, t)).
  { rewrite last_inserted_snoc. destruct (Z.eqb_spec (home c0 (hs_key m)) (home c0 key)) as [Eh|]; [|done].
    destruct (Hm Eh) as [<- Hw]. unfold verdict. rewrite Hlast. rewrite bool_decide_eq_true_2 by done.
    decide_cmp. done. }
  assert (Hch : cache_hist c0 c' (hist ++ [(m, verdict (home c0) hist m)]))
    by (split; [done|split; congruence]).
  destruct (IH c' _ Hch Hok Hlast')
    as (outs&c2&hist2&Hrun&Hrest).
  exists (verdict (home c0) hist m :: outs), c2, hist2. split; [|done].
  cbn [run]. rewrite He. cbn [mbind option_bind]. by rewrite Hrun.
Qed.

(** A captured handshake is caught.  Once a value has been recorded at a
    non-zero time, presenting it again within the age limit is answered 1,
    however many other handshakes and replays of it were checked in between,
    as long as none of them inserted another value at its home slot or came
    outside its window; in particular replaying does not extend or shorten
    the window. *)
Theorem replay_is_caught capacity r c0 r' pre o outs c1 mid o' :
  0 < capacity < 18446744073709551616 -> rand_ok r ->
  cloak_replay_cache_init capacity true r = (0, c0, r') ->
  Forall handshake_ok pre -> handshake_ok o -> Forall handshake_ok mid -> handshake_ok o' ->
  run replay_exec (pre ++ [o]) c0 = Some (outs ++ [0], c1) ->
  Forall (fun m => home c0 (hs_key m) = home c0 (hs_key o) ->
                   hs_key m = hs_key o /\ 0 <= hs_now m - hs_now o < hs_limit m) mid ->
  0 < hs_now o -> hs_key o' = hs_key o -> 0 <= hs_now o' - hs_now o < hs_limit o' ->
  exists outs2 c2, run replay_exec (mid ++ [o']) c1 = Some (outs2 ++ [1], c2).
Proof.
  intros Hcap Hr Hinit Hpre Ho Hmid Ho' Hrun Hcol Ht Hkey Hwin.
  pose proof (init_rep _ _ _ _ Hcap Hr Hinit) as Hrep0.
  destruct (run_refines _ _ _ (cache_hist c0) pre c0 [] (conj Hrep0 (conj eq_refl eq_refl)) Hpre)
    as (outs0&cp&histp&Hp&(Hrepp&Hkp&Hcp)&_).
  rewrite run_app, Hp in Hrun. cbn [mbind option_bind run] in Hrun.
  assert (Hhome : home cp = home c0) by (unfold home; by rewrite Hkp, Hcp).
  destruct (check_spec histp cp o Hrepp Ho) as (c&He&Hrepc&Hkc&Hcc). rewrite Hhome in *.
  rewrite He in Hrun. cbn [mbind option_bind] in Hrun. injection Hrun as Houts <-.
  apply app_inj_tail in Houts as [_ Hv]. rewrite Hv in *.
  destruct (mid_keeps c0 (hs_key o) (hs_now o) mid c (histp ++ [(o, 0)])) as (outs2&c2&hist2&Hm&(Hrep2&Hk2&Hc2)&Hl2);
    [split; [done|split; congruence]|done|done| |done|].
  { by rewrite last_inserted_snoc, Z.eqb_refl. }
  assert (Hhome2 : home c2 = home c0) by (unfold home; by rewrite Hk2, Hc2).
  destruct (check_spec hist2 c2 o' Hrep2 Ho') as (c3&He3&_). rewrite Hhome2 in He3.
  exists outs2, c3. rewrite run_app, Hm. cbn [mbind option_bind run]. rewrite He3.
  cbn [mbind option_bind]. unfold verdict. rewrite Hkey, Hl2, bool_decide_eq_true_2 by done.
  by decide_cmp.
Qed.

(** ** Concrete runs *)

Definition tape_zero : rand := fun i => Z.of_nat i mod 256.

Lemma tape_zero_ok : rand_ok tape_zero.
Proof. intros i. by apply Z.mod_pos_bound. Qed.

Definition demo_replay_cache : cloak_replay_cache_t :=
  snd (fst (cloak_replay_cache_init 4 true tape_zero)).

Definition hello_at (b t : Z) : handshake := Handshake (replicate 32 b) t 300.

Lemma hello_at_ok b t : is_byte b -> 0 <= t <= INT64_MAX -> handshake_ok (hello_at b t).
Proof. intros Hb Ht. split_and!; [by apply Forall_replicate|done|apply Ht|apply Ht]. Qed.

Lemma replay_cache_refines_history_witness :
  exists outs c hist,
    run replay_exec [hello_at 1 50; hello_at 1 60; hello_at 1 500] demo_replay_cache = Some (outs, c) /\
    cache_rep hist c /\
    spec_run (verdict_exec (home demo_replay_cache)) [hello_at 1 50; hello_at 1 60; hello_at 1 500] []
      = (outs, hist).
Proof.
  apply (replay_cache_refines_history 4 tape_zero demo_replay_cache
    (snd (cloak_replay_cache_init 4 true tape_zero))); [lia|apply tape_zero_ok|done|].
  repeat (apply Forall_cons; split; [by apply hello_at_ok|]). by apply Forall_nil.
Defined.

Lemma replay_is_caught_witness :
  exists outs2 c2, run replay_exec ([hello_at 1 60] ++ [hello_at 1 61])
    (default demo_replay_cache (snd <$> run replay_exec [hello_at 1 50] demo_replay_cache)) =
    Some (outs2 ++ [1], c2).
Proof.
  apply (replay_is_caught 4 tape_zero demo_replay_cache
    (snd (cloak_replay_cache_init 4 true tape_zero)) [] (hello_at 1 50) []
    (default demo_replay_cache (snd <$> run replay_exec [hello_at 1 50] demo_replay_cache))
    [hello_at 1 60] (hello_at 1 61)).
  - lia.
  - apply tape_zero_ok.
  - done.
  - by apply Forall_nil.
  - by apply hello_at_ok.
  - apply Forall_cons; split; [by apply hello_at_ok|by apply Forall_nil].
  - by apply hello_at_ok.
  - vm_compute. reflexivity.
  - apply Forall_cons; split; [|by apply Forall_nil]. intros _. split; [done|cbn; lia].
  - cbn. lia.
  - done.
  - cbn. lia.
Defined.
