(* ===== verification/Http.v ===== *)
(** * The incremental HTTP request parser ([libcloak-server/src/http.c])

    The parser of the admin API takes the bytes of a connection in whatever
    pieces they arrive.  It is a state machine over lines; a request is done
    when its body is complete and nothing behind it is consumed.

    A [cloak_http_parser_t *] is never NULL here.  [malloc]'s success is an
    argument of [feed]; the block it returns is overwritten before it is read,
    so its first contents do not matter and are zeros. *)
From S2P Require Import Prelude Fallible.

Definition CLOAK_HTTP_MAX_PATH : Z := 256.
Definition CLOAK_HTTP_MAX_REQUEST_LINE : Z := 1024.
Definition CLOAK_HTTP_MAX_HEADER_LINE : Z := 512.
Definition CLOAK_HTTP_MAX_HEADER_BLOCK : Z := 4096.
Definition CLOAK_HTTP_MAX_HEADERS : Z := 32.
Definition CLOAK_HTTP_MAX_BODY : Z := 65536.

Inductive cloak_http_state_t := CLOAK_HTTP_INCOMPLETE | CLOAK_HTTP_DONE | CLOAK_HTTP_ERROR.

Inductive cloak_http_method_t :=
  | CLOAK_HTTP_METHOD_OTHER
  | CLOAK_HTTP_METHOD_GET
  | CLOAK_HTTP_METHOD_POST
  | CLOAK_HTTP_METHOD_DELETE
  | CLOAK_HTTP_METHOD_OPTIONS.

(** [hq_body] is what the [body] pointer points at when it is set. *)
Record cloak_http_request_t := HttpRequest {
  hq_method : cloak_http_method_t;
  hq_path : bytes;
  hq_content_length : Z;
  hq_have_content_length : bool;
  hq_body : option bytes;
  hq_body_len : Z;
  hq_status : Z
}.

Definition PHASE_REQUEST_LINE : Z := 0.
Definition PHASE_HEADERS : Z := 1.
Definition PHASE_BODY : Z := 2.

Record cloak_http_parser_t := HttpParser {
  hp_state : cloak_http_state_t;
  hp_phase : Z;
  hp_pending_cr : bool;
  hp_line : bytes;
  hp_line_len : Z;
  hp_header_block_len : Z;
  hp_header_count : Z;
  hp_body_buf : option bytes;
  hp_body_cap : Z;
  hp_body_have : Z;
  hp_req : cloak_http_request_t
}.

(** *** Field updates *)

Definition hq_fail (r : cloak_http_request_t) (status : Z) : cloak_http_request_t :=
  HttpRequest (hq_method r) (hq_path r) (hq_content_length r) (hq_have_content_length r)
    (hq_body r) (hq_body_len r) status.
Definition hq_set_target (r : cloak_http_request_t) (m : cloak_http_method_t) (path : bytes)
    : cloak_http_request_t :=
  HttpRequest m path (hq_content_length r) (hq_have_content_length r) (hq_body r) (hq_body_len r)
    (hq_status r).
Definition hq_set_length (r : cloak_http_request_t) (n : Z) : cloak_http_request_t :=
  HttpRequest (hq_method r) (hq_path r) n true (hq_body r) (hq_body_len r) (hq_status r).
Definition hq_set_body (r : cloak_http_request_t) (body : option bytes) (n : Z)
    : cloak_http_request_t :=
  HttpRequest (hq_method r) (hq_path r) (hq_content_length r) (hq_have_content_length r) body n
    (hq_status r).

Definition hp_set_state (p : cloak_http_parser_t) (st : cloak_http_state_t) : cloak_http_parser_t :=
  HttpParser st (hp_phase p) (hp_pending_cr p) (hp_line p) (hp_line_len p)
    (hp_header_block_len p) (hp_header_count p) (hp_body_buf p) (hp_body_cap p) (hp_body_have p)
    (hp_req p).
Definition hp_set_req (p : cloak_http_parser_t) (r : cloak_http_request_t) : cloak_http_parser_t :=
  HttpParser (hp_state p) (hp_phase p) (hp_pending_cr p) (hp_line p) (hp_line_len p)
    (hp_header_block_len p) (hp_header_count p) (hp_body_buf p) (hp_body_cap p) (hp_body_have p) r.
Definition hp_set_phase (p : cloak_http_parser_t) (phase : Z) : cloak_http_parser_t :=
  HttpParser (hp_state p) phase (hp_pending_cr p) (hp_line p) (hp_line_len p)
    (hp_header_block_len p) (hp_header_count p) (hp_body_buf p) (hp_body_cap p) (hp_body_have p)
    (hp_req p).
Definition hp_set_line (p : cloak_http_parser_t) (line : bytes) (n : Z) : cloak_http_parser_t :=
  HttpParser (hp_state p) (hp_phase p) (hp_pending_cr p) line n
    (hp_header_block_len p) (hp_header_count p) (hp_body_buf p) (hp_body_cap p) (hp_body_have p)
    (hp_req p).
Definition hp_set_cr (p : cloak_http_parser_t) (cr : bool) : cloak_http_parser_t :=
  HttpParser (hp_state p) (hp_phase p) cr (hp_line p) (hp_line_len p)
    (hp_header_block_len p) (hp_header_count p) (hp_body_buf p) (hp_body_cap p) (hp_body_have p)
    (hp_req p).
Definition hp_set_counts (p : cloak_http_parser_t) (block count : Z) : cloak_http_parser_t :=
  HttpParser (hp_state p) (hp_phase p) (hp_pending_cr p) (hp_line p) (hp_line_len p)
    block count (hp_body_buf p) (hp_body_cap p) (hp_body_have p) (hp_req p).
Definition hp_set_body (p : cloak_http_parser_t) (buf : option bytes) (cap have : Z)
    : cloak_http_parser_t :=
  HttpParser (hp_state p) (hp_phase p) (hp_pending_cr p) (hp_line p) (hp_line_len p)
    (hp_header_block_len p) (hp_header_count p) buf cap have (hp_req p).

(** ** Life cycle and accessors *)

Definition cloak_http_parser_init : cloak_http_parser_t :=
  HttpParser CLOAK_HTTP_INCOMPLETE PHASE_REQUEST_LINE false
    (replicate (Z.to_nat CLOAK_HTTP_MAX_REQUEST_LINE) 0) 0 0 0 None 0 0
    (HttpRequest CLOAK_HTTP_METHOD_OTHER (replicate (Z.to_nat CLOAK_HTTP_MAX_PATH) 0) 0 false None
       0 0).

Definition cloak_http_parser_destroy (p : cloak_http_parser_t) : cloak_http_parser_t :=
  cloak_http_parser_init.

Definition cloak_http_parser_request (p : cloak_http_parser_t) : cloak_http_request_t := hp_req p.
Definition cloak_http_parser_state (p : cloak_http_parser_t) : cloak_http_state_t := hp_state p.
Definition cloak_http_parser_body_allocated (p : cloak_http_parser_t) : Z := hp_body_cap p.

(** ** Characters and names *)

(** The result of an operation: the state it returns, and the parser. *)
Definition http_result : Type := cloak_http_state_t * cloak_http_parser_t.

Definition fail (p : cloak_http_parser_t) (status : Z) : http_result :=
  (CLOAK_HTTP_ERROR, hp_set_req (hp_set_state p CLOAK_HTTP_ERROR) (hq_fail (hp_req p) status)).

Definition ascii_lower (c : Z) : Z := if (65 <=? c) && (c <=? 90) then c - 65 + 97 else c.

(** [name_is (name, strlen (lower), lower)]. *)
Definition name_is (name lower : bytes) : bool :=
  if negb (zlen lower =? zlen name) then false
  else forallb (fun '(c, l) => ascii_lower c =? l) (combine name lower).

Definition is_tchar (c : Z) : bool :=
  if ((97 <=? c) && (c <=? 122)) || ((65 <=? c) && (c <=? 90)) || ((48 <=? c) && (c <=? 57))
  then true
  else bool_decide (c ∈ c_string "!#$%&'*+-.^_`|~").

Definition method_of (s : bytes) : cloak_http_method_t :=
  if bool_decide (s = c_string "GET") then CLOAK_HTTP_METHOD_GET
  else if bool_decide (s = c_string "POST") then CLOAK_HTTP_METHOD_POST
  else if bool_decide (s = c_string "DELETE") then CLOAK_HTTP_METHOD_DELETE
  else if bool_decide (s = c_string "OPTIONS") then CLOAK_HTTP_METHOD_OPTIONS
  else CLOAK_HTTP_METHOD_OTHER.

(** [memchr (p + off, c, n)]: the offset found, relative to [off]. *)
Fixpoint index_of (c : Z) (l : bytes) : option Z :=
  match l with
  | [] => None
  | x :: l' => if x =? c then Some 0 else i ← index_of c l'; Some (1 + i)
  end.
Definition memchr (p : bytes) (off n c : Z) : option (option Z) :=
  l ← p.[off +: n]; Some (index_of c l).

(** ** Lines *)

Definition finish_request_line (p : cloak_http_parser_t) : option http_result :=
  let line := hp_line p in
  let len := hp_line_len p in
  sp1 ← memchr line 0 len 32;
  match sp1 with
  | None => Some (fail p 400)
  | Some method_len =>
      if method_len =? 0 then Some (fail p 400)
      else
        let path := method_len + 1 in
        sp2 ← memchr line path (u64 (len - method_len - 1)) 32;
        match sp2 with
        | None => Some (fail p 400)
        | Some path_len =>
            if path_len =? 0 then Some (fail p 400)
            else
              let version := path + path_len + 1 in
              let version_len := u64 (len - version) in
              sp3 ← memchr line version version_len 32;
              if bool_decide (sp3 <> None) then Some (fail p 400)
              else
                v ← (if version_len =? 8 then line.[version +: 8] else Some []);
                if negb (version_len =? 8) ||
                   negb (bool_decide (v = c_string "HTTP/1.1")) &&
                   negb (bool_decide (v = c_string "HTTP/1.0"))
                then Some (fail p 400)
                else if CLOAK_HTTP_MAX_PATH <=? path_len then Some (fail p 414)
                else
                  c ← line.[path];
                  if negb (c =? 47) then Some (fail p 400)
                  else
                    m ← line.[0 +: method_len];
                    target ← line.[path +: path_len];
                    stored ← (hq_path (hp_req p)).[0 <- target];
                    stored ← mem_set stored path_len 0;
                    let p := hp_set_req p (hq_set_target (hp_req p) (method_of m) stored) in
                    let p := hp_set_phase p PHASE_HEADERS in
                    Some (CLOAK_HTTP_INCOMPLETE, hp_set_line p (hp_line p) 0)
        end
  end.

(** The accumulating loop: [None] once the value is over the cap. *)
Fixpoint content_length_loop (v : bytes) (value : Z) : option Z :=
  match v with
  | [] => Some value
  | c :: v' =>
      let value := u64 (value * 10 + (c - 48)) in
      if CLOAK_HTTP_MAX_BODY <? value then None else content_length_loop v' value
  end.

Definition parse_content_length (p : cloak_http_parser_t) (v : bytes) : http_result :=
  if zlen v =? 0 then fail p 400
  else if existsb (fun c => (c <? 48) || (57 <? c)) v then fail p 400
  else
    match content_length_loop v 0 with
    | None => fail p 413
    | Some value =>
        if hq_have_content_length (hp_req p) then
          if negb (hq_content_length (hp_req p) =? value) then fail p 400
          else (CLOAK_HTTP_INCOMPLETE, p)
        else (CLOAK_HTTP_INCOMPLETE, hp_set_req p (hq_set_length (hp_req p) value))
    end.

Definition finish_headers (p : cloak_http_parser_t) (malloc_ok : bool) : http_result :=
  if negb (hq_have_content_length (hp_req p)) || (hq_content_length (hp_req p) =? 0) then
    (CLOAK_HTTP_DONE,
     hp_set_state (hp_set_req p (hq_set_body (hp_req p) None 0)) CLOAK_HTTP_DONE)
  else if negb malloc_ok then fail (hp_set_body p None (hp_body_cap p) (hp_body_have p)) 500
  else
    let n := hq_content_length (hp_req p) in
    let p := hp_set_body p (Some (replicate (Z.to_nat n) 0)) n 0 in
    (CLOAK_HTTP_INCOMPLETE, hp_set_phase p PHASE_BODY).

(** The two trimming loops. *)
Fixpoint trim_left (v : bytes) : bytes :=
  match v with
  | c :: v' => if (c =? 32) || (c =? 9) then trim_left v' else v
  | [] => []
  end.
Definition trim (v : bytes) : bytes := reverse (trim_left (reverse (trim_left v))).

Definition finish_header_line (p : cloak_http_parser_t) (malloc_ok : bool)
    : option http_result :=
  let line := hp_line p in
  let len := hp_line_len p in
  let p := hp_set_line p line 0 in
  if len =? 0 then Some (finish_headers p malloc_ok)
  else
    c ← line.[0];
    if (c =? 32) || (c =? 9) then Some (fail p 400)
    else
      let p := hp_set_counts p (hp_header_block_len p) (u32 (hp_header_count p + 1)) in
      if CLOAK_HTTP_MAX_HEADERS <? hp_header_count p then Some (fail p 431)
      else
        colon ← memchr line 0 len 58;
        match colon with
        | None => Some (fail p 400)
        | Some name_len =>
            if name_len =? 0 then Some (fail p 400)
            else
              name ← line.[0 +: name_len];
              if negb (forallb is_tchar name) then Some (fail p 400)
              else
                value ← line.[name_len + 1 +: u64 (len - name_len - 1)];
                let value := trim value in
                if name_is name (c_string "transfer-encoding") then Some (fail p 501)
                else if name_is name (c_string "content-length")
                then Some (parse_content_length p value)
                else Some (CLOAK_HTTP_INCOMPLETE, p)
        end.

(** ** Bytes *)

(** Whether a result lets the loop go on. *)
Definition is_incomplete (st : cloak_http_state_t) : bool :=
  match st with CLOAK_HTTP_INCOMPLETE => true | _ => false end.

(** [line_byte]: [Some st] for the return value -1 with [*out = st], [None]
    for 0. *)
Definition line_byte (p : cloak_http_parser_t) (b : Z) (malloc_ok : bool)
    : option (option cloak_http_state_t * cloak_http_parser_t) :=
  let request_line := hp_phase p =? PHASE_REQUEST_LINE in
  let cap := if request_line then CLOAK_HTTP_MAX_REQUEST_LINE else CLOAK_HTTP_MAX_HEADER_LINE in
  let over_status := if request_line then 414 else 431 in
  let failed status := let '(st, p) := fail p status in Some (Some st, p) in
  if hp_pending_cr p then
    if negb (b =? 10) then failed 400
    else
      let p := hp_set_cr p false in
      '(st, p) ← (if request_line then finish_request_line p else finish_header_line p malloc_ok);
      Some (if is_incomplete st then None else Some st, p)
  else if b =? 13 then Some (None, hp_set_cr p true)
  else if b =? 10 then failed 400
  else if ((b <? 32) || (b =? 127)) && negb ((b =? 9) && (hp_phase p =? PHASE_HEADERS))
  then failed 400
  else if cap <=? hp_line_len p then failed over_status
  else
    line ← mem_set (hp_line p) (hp_line_len p) b;
    Some (None, hp_set_line p line (hp_line_len p + 1)).

(** The loop of [feed], from [off] on: the final [off] and the parser. *)
Fixpoint feed_loop (fuel : nat) (p : cloak_http_parser_t) (data : bytes) (off : Z)
    (malloc_ok : bool) : option (Z * cloak_http_parser_t) :=
  let len := zlen data in
  if negb (off <? len) then Some (off, p)
  else match fuel with
  | O => None
  | S fuel' =>
      if hp_phase p =? PHASE_BODY then
        let need := u64 (hq_content_length (hp_req p) - hp_body_have p) in
        let avail := u64 (len - off) in
        let take := if need <? avail then need else avail in
        src ← data.[off +: take];
        buf ← hp_body_buf p;
        buf ← buf.[hp_body_have p <- src];
        let have := u64 (hp_body_have p + take) in
        let p := hp_set_body p (Some buf) (hp_body_cap p) have in
        if have =? hq_content_length (hp_req p) then
          Some (off + take,
                hp_set_state (hp_set_req p (hq_set_body (hp_req p) (Some buf) have))
                  CLOAK_HTTP_DONE)
        else feed_loop fuel' p data (off + take) malloc_ok
      else
        let p := if hp_phase p =? PHASE_HEADERS
                 then hp_set_counts p (u64 (hp_header_block_len p + 1)) (hp_header_count p)
                 else p in
        if (hp_phase p =? PHASE_HEADERS) &&
           (CLOAK_HTTP_MAX_HEADER_BLOCK <? hp_header_block_len p)
        then let '(st, p) := fail p 431 in Some (off + 1, hp_set_state p st)
        else
          b ← data.[off];
          '(rc, p) ← line_byte p b malloc_ok;
          match rc with
          | Some st => Some (off + 1, hp_set_state p st)
          | None =>
              if negb (is_incomplete (hp_state p)) then Some (off + 1, p)
              else feed_loop fuel' p data (off + 1) malloc_ok
          end
  end.

(** [cloak_http_parser_feed]: [*consumed_out] and the parser, whose state is
    the return value.  [data] is [None] for NULL, with [len] then positive. *)
Definition cloak_http_parser_feed (p : cloak_http_parser_t) (data : option bytes)
    (malloc_ok : bool) : option (Z * cloak_http_parser_t) :=
  if negb (is_incomplete (hp_state p)) then Some (0, p)
  else
    match data with
    | None => Some (0, snd (fail p 400))
    | Some data => feed_loop (length data) p data 0 malloc_ok
    end.
