(* ===== verification/HttpSpec.v ===== *)
(** * What the HTTP parser promises

    The contract of [Http] in two layers: a machine over single bytes whose
    state holds lists instead of buffers, and a grammar of requests.  The
    theorems say that the parser of the sources refines the machine, however
    the bytes are cut into calls, and that the machine accepts exactly the
    grammar. *)
From S2P Require Import Prelude Fallible Octets Http.

(** ** Lines *)

(** The parts of [l] before and after the first [c]. *)
Fixpoint split_at (c : Z) (l : bytes) : option (bytes * bytes) :=
  match l with
  | [] => None
  | x :: l' => if x =? c then Some ([], l') else '(a, b) ← split_at c l'; Some (x :: a, b)
  end.

Definition versions : list bytes := [c_string "HTTP/1.1"; c_string "HTTP/1.0"].

(** Method token and target of a request line, or the status to refuse with. *)
Definition request_line (line : bytes) : (bytes * bytes) + Z :=
  match split_at 32 line with
  | None => inr 400
  | Some (m, r) =>
      if bool_decide (m = []) then inr 400
      else match split_at 32 r with
      | None => inr 400
      | Some (t, v) =>
          if bool_decide (t = []) then inr 400
          else if negb (bool_decide (v ∈ versions)) then inr 400
          else if CLOAK_HTTP_MAX_PATH <=? zlen t then inr 414
          else if bool_decide (head t = Some 47) then inl (m, t) else inr 400
      end
  end.

Definition is_digit (c : Z) : bool := (48 <=? c) && (c <=? 57).
Definition decimal (v : bytes) : Z := fold_left (fun n c => n * 10 + (c - 48)) v 0.

Inductive header_kind := Plain | Length (n : Z) | BadHeader (status : Z).

Definition length_value (v : bytes) : header_kind :=
  if bool_decide (v = []) || negb (forallb is_digit v) then BadHeader 400
  else if CLOAK_HTTP_MAX_BODY <? decimal v then BadHeader 413 else Length (decimal v).

(** What a header line means. *)
Definition header_line (line : bytes) : header_kind :=
  match split_at 58 line with
  | None => BadHeader 400
  | Some (name, v) =>
      if bool_decide (name = []) || negb (forallb tchar name) then BadHeader 400
      else if ci_equal name (c_string "transfer-encoding") then BadHeader 501
      else if ci_equal name (c_string "content-length") then length_value (Octets.trim v)
      else Plain
  end.

Definition folded (line : bytes) : bool :=
  match line with c :: _ => (c =? 32) || (c =? 9) | [] => false end.

(** The content length after one more header line. *)
Definition header_step (len : option Z) (line : bytes) : option Z + Z :=
  match header_line line, len with
  | BadHeader s, _ => inr s
  | Plain, _ => inl len
  | Length n, None => inl (Some n)
  | Length n, Some m => if m =? n then inl len else inr 400
  end.

(** ** The machine over bytes *)

Inductive http_phase :=
  | InRequestLine
  | InHeaders (token target : bytes) (len : option Z) (block count : Z)
  | InBody (token target : bytes) (len : Z) (body : bytes).

Record http_machine := Machine { m_phase : http_phase; m_line : bytes; m_cr : bool }.

Inductive http_outcome :=
  | Reading (s : http_machine)
  | Request (token target : bytes) (len : option Z) (body : bytes)
  | Refused (status : Z).

Definition machine_init : http_machine := Machine InRequestLine [] false.

(** A byte that a line may hold. *)
Definition line_char (headers : bool) (b : Z) : bool :=
  negb ((b <? 32) || (b =? 127)) || (b =? 9) && headers.

(** The end of a line. *)
Definition end_line (ph : http_phase) (line : bytes) (malloc_ok : bool) : http_outcome :=
  match ph with
  | InRequestLine =>
      match request_line line with
      | inr s => Refused s
      | inl (m, t) => Reading (Machine (InHeaders m t None 0 0) [] false)
      end
  | InHeaders m t len block count =>
      if bool_decide (line = []) then
        match len with
        | None => Request m t None []
        | Some n =>
            if n =? 0 then Request m t (Some 0) []
            else if malloc_ok then Reading (Machine (InBody m t n []) [] false) else Refused 500
        end
      else if folded line then Refused 400
      else if CLOAK_HTTP_MAX_HEADERS <? count + 1 then Refused 431
      else match header_step len line with
           | inr s => Refused s
           | inl len' => Reading (Machine (InHeaders m t len' block (count + 1)) [] false)
           end
  | InBody m t n body => Reading (Machine ph line false)
  end.

(** One byte of a line, its charge already made. *)
Definition line_step (ph : http_phase) (line : bytes) (cr : bool) (b : Z) (malloc_ok : bool)
    : http_outcome :=
  let headers := match ph with InRequestLine => false | _ => true end in
  if cr then if b =? 10 then end_line ph line malloc_ok else Refused 400
  else if b =? 13 then Reading (Machine ph line true)
  else if b =? 10 then Refused 400
  else if negb (line_char headers b) then Refused 400
  else if (if headers then CLOAK_HTTP_MAX_HEADER_LINE else CLOAK_HTTP_MAX_REQUEST_LINE) <=? zlen line
  then Refused (if headers then 431 else 414)
  else Reading (Machine ph (line ++ [b]) false).

Definition http_step (s : http_machine) (b : Z) (malloc_ok : bool) : http_outcome :=
  match m_phase s with
  | InRequestLine => line_step InRequestLine (m_line s) (m_cr s) b malloc_ok
  | InHeaders m t len block count =>
      if CLOAK_HTTP_MAX_HEADER_BLOCK <? block + 1 then Refused 431
      else line_step (InHeaders m t len (block + 1) count) (m_line s) (m_cr s) b malloc_ok
  | InBody m t n body =>
      let body := body ++ [b] in
      if zlen body =? n then Request m t (Some n) body
      else Reading (Machine (InBody m t n body) (m_line s) (m_cr s))
  end.

(** The bytes consumed and the outcome. *)
Fixpoint http_run (s : http_machine) (data : bytes) (malloc_ok : bool) : Z * http_outcome :=
  match data with
  | [] => (0, Reading s)
  | b :: data' =>
      match http_step s b malloc_ok with
      | Reading s' => let '(n, o) := http_run s' data' malloc_ok in (1 + n, o)
      | o => (1, o)
      end
  end.

(** ** The representation *)

(** A [char] array that holds the string [s]. *)
Definition holds_string (a : bytes) (n : Z) (s : bytes) : Prop :=
  zlen a = n /\ exists rest, a = s ++ 0 :: rest.

(** The method that a token names. *)
Definition method_token (k : cloak_http_method_t) : option bytes :=
  match k with
  | CLOAK_HTTP_METHOD_GET => Some (c_string "GET")
  | CLOAK_HTTP_METHOD_POST => Some (c_string "POST")
  | CLOAK_HTTP_METHOD_DELETE => Some (c_string "DELETE")
  | CLOAK_HTTP_METHOD_OPTIONS => Some (c_string "OPTIONS")
  | CLOAK_HTTP_METHOD_OTHER => None
  end.

Definition names_method (k : cloak_http_method_t) (m : bytes) : Prop :=
  match method_token k with Some s => m = s | None => forall k', method_token k' <> Some m end.

Definition target_rep (r : cloak_http_request_t) (m t : bytes) : Prop :=
  names_method (hq_method r) m /\ holds_string (hq_path r) CLOAK_HTTP_MAX_PATH t.

Definition length_rep (r : cloak_http_request_t) (len : option Z) : Prop :=
  match len with
  | None => hq_have_content_length r = false
  | Some n => hq_have_content_length r = true /\ hq_content_length r = n /\
              0 <= n <= CLOAK_HTTP_MAX_BODY
  end.

Definition phase_rep (p : cloak_http_parser_t) (ph : http_phase) : Prop :=
  match ph with
  | InRequestLine =>
      hp_phase p = PHASE_REQUEST_LINE /\ hp_header_block_len p = 0 /\ hp_header_count p = 0 /\
      hq_have_content_length (hp_req p) = false
  | InHeaders m t len block count =>
      hp_phase p = PHASE_HEADERS /\ hp_header_block_len p = block /\ hp_header_count p = count /\
      0 <= block <= CLOAK_HTTP_MAX_HEADER_BLOCK /\ 0 <= count <= CLOAK_HTTP_MAX_HEADERS /\
      target_rep (hp_req p) m t /\ length_rep (hp_req p) len
  | InBody m t n body =>
      hp_phase p = PHASE_BODY /\ target_rep (hp_req p) m t /\ length_rep (hp_req p) (Some n) /\
      hp_body_have p = zlen body /\ zlen body < n /\
      exists rest, hp_body_buf p = Some (body ++ rest) /\ zlen body + zlen rest = n
  end.

Record http_rep (p : cloak_http_parser_t) (s : http_machine) : Prop := {
  hr_state : hp_state p = CLOAK_HTTP_INCOMPLETE;
  hr_cr : hp_pending_cr p = m_cr s;
  hr_path : zlen (hq_path (hp_req p)) = CLOAK_HTTP_MAX_PATH;
  hr_line : exists rest, hp_line p = m_line s ++ rest /\
              zlen (m_line s) + zlen rest = CLOAK_HTTP_MAX_REQUEST_LINE;
  hr_line_len : hp_line_len p = zlen (m_line s);
  hr_phase : phase_rep p (m_phase s)
}.

Definition outcome_rep (p : cloak_http_parser_t) (o : http_outcome) : Prop :=
  match o with
  | Reading s => http_rep p s
  | Refused status => hp_state p = CLOAK_HTTP_ERROR /\ hq_status (hp_req p) = status
  | Request m t len body =>
      hp_state p = CLOAK_HTTP_DONE /\ target_rep (hp_req p) m t /\ length_rep (hp_req p) len /\
      hq_body_len (hp_req p) = zlen body /\
      (if bool_decide (body = []) then hq_body (hp_req p) = None
       else hq_body (hp_req p) = Some body)
  end.

(** ** Searching *)

Lemma split_at_inv c l a b : split_at c l = Some (a, b) -> l = a ++ c :: b /\ Forall (fun x => x <> c) a.
Proof.
  revert a b. induction l as [|x l IH]; intros a b; [done|]. cbn [split_at].
  destruct (Z.eqb_spec x c) as [->|Hx]; [by intros [= <- <-]|].
  destruct (split_at c l) as [[a' b']|]; [|done]. cbn [mbind option_bind]. intros [= <- <-].
  destruct (IH a' b' eq_refl) as [-> Ha]. split; [done|by constructor].
Qed.

Lemma split_at_app c a b : Forall (fun x => x <> c) a -> split_at c (a ++ c :: b) = Some (a, b).
Proof.
  induction 1 as [|x a Hx Ha IH]; cbn [app split_at]; [by rewrite Z.eqb_refl|].
  rewrite (proj2 (Z.eqb_neq _ _) Hx), IH. done.
Qed.

Lemma index_of_split c l : index_of c l = (fun ab : bytes * bytes => zlen ab.1) <$> split_at c l.
Proof.
  induction l as [|x l IH]; [done|]. cbn [index_of split_at].
  destruct (x =? c); [done|]. rewrite IH. destruct (split_at c l) as [[a b]|]; [|done].
  cbn. by rewrite zlen_cons.
Qed.

Lemma memchr_slice p off n c l :
  p.[off +: n] = Some l -> memchr p off n c = Some ((fun ab : bytes * bytes => zlen ab.1) <$> split_at c l).
Proof. intros Hp. unfold memchr. rewrite Hp. cbn [mbind option_bind]. by rewrite index_of_split. Qed.

Lemma zlen_eqb_nil {A} (l : list A) : (zlen l =? 0) = bool_decide (l = []).
Proof.
  destruct l; [done|]. rewrite bool_decide_eq_false_2 by done. apply Z.eqb_neq. zlia.
Qed.

(** A slice behind a prefix. *)
Lemma slice_at (l1 l2 l3 : bytes) off n :
  off = zlen l1 -> n = zlen l2 -> (l1 ++ l2 ++ l3).[off +: n] = Some l2.
Proof. apply mem_read_app. Qed.

Lemma mem_get_behind (m : bytes) x c l i : i = zlen m + 1 -> (m ++ x :: c :: l).[i] = Some c.
Proof.
  intros ->. zlen_pos. rewrite mem_get_app_r by lia. by replace (zlen m + 1 - zlen m) with 1 by lia.
Qed.

(** ** The request line *)

Lemma version_ok v :
  negb (zlen v =? 8) || negb (bool_decide (v = c_string "HTTP/1.1")) &&
    negb (bool_decide (v = c_string "HTTP/1.0")) = negb (bool_decide (v ∈ versions)).
Proof.
  unfold versions. destruct (decide (v = c_string "HTTP/1.1")) as [->|H1]; [done|].
  destruct (decide (v = c_string "HTTP/1.0")) as [->|H0]; [done|].
  rewrite !bool_decide_eq_false_2 by done. rewrite (bool_decide_eq_false_2 (v ∈ _)).
  - by rewrite orb_true_r.
  - rewrite !elem_of_cons. intros [?|[?|?%elem_of_nil]]; done.
Qed.

Lemma version_no_space v a b : split_at 32 v = Some (a, b) -> v ∉ versions.
Proof.
  intros H Hv. unfold versions in Hv. rewrite !elem_of_cons in Hv.
  destruct Hv as [->|[->|?%elem_of_nil]]; try done; vm_compute in H; done.
Qed.

Lemma method_of_names m : names_method (method_of m) m.
Proof.
  unfold names_method, method_of. repeat case_bool_decide; cbn [method_token]; try done.
  intros [] Hk; cbn [method_token] in Hk; congruence.
Qed.

(** The leaf functions of the code are those of the RFC. *)
Lemma is_tchar_tchar c : is_tchar c = tchar c.
Proof.
  revert c. apply ascii_cases; [|by apply below_128; vm_compute]. intros c Hc. unfold is_tchar, tchar.
  rewrite (outside_list c tchars) by done.
  destruct (_ || _) eqn:E; [lia|]. apply bool_decide_eq_false_2. intros Hin%list_elem_of_In.
  apply (outside_list c (c_string "!#$%&'*+-.^_`|~") eq_refl) in Hc. apply not_true_iff_false in Hc. apply Hc.
  apply existsb_exists. exists c. split; [done|lia].
Qed.

Lemma http_ascii_lower c : ascii_lower c = to_lower c.
Proof.
  revert c. apply ascii_cases; [|by apply below_128; vm_compute]. intros c Hc. unfold ascii_lower, to_lower.
  rewrite replaced_outside by done. by destruct (Z.leb_spec 65 c), (Z.leb_spec c 90); try lia.
Qed.

Lemma trim_left_ows v : trim_left v = suffix_while ows v.
Proof. induction v as [|c v IH]; [done|]. cbn. unfold ows. cbn. rewrite orb_false_r, IH. done. Qed.

Lemma http_trim v : Http.trim v = Octets.trim v.
Proof. unfold Http.trim, Octets.trim, reverse. rewrite !trim_left_ows, <- !rev_alt. done. Qed.

(** Against a name in small letters. *)
Lemma name_is_ci name lower : map to_lower lower = lower -> name_is name lower = ci_equal name lower.
Proof.
  unfold name_is, ci_equal. intros ->. rewrite <- (map_ext _ _ http_ascii_lower).
  destruct (Z.eqb_spec (zlen lower) (zlen name)) as [Hl|Hl]; cbn [negb].
  - unfold zlen in Hl. apply Nat2Z.inj in Hl. revert lower Hl.
    induction name as [|c name IH]; intros [|l lower] Hl; try done. cbn [combine forallb map].
    rewrite IH by (cbn in Hl; lia). apply eq_true_iff_eq. rewrite andb_true_iff, !bool_decide_eq_true, Z.eqb_eq.
    split; [by intros [-> ->]|by intros [= ? ?]].
  - symmetry. apply bool_decide_eq_false_2. intros E. apply Hl. unfold zlen. by rewrite <- E, length_map.
Qed.

Definition to_headers (p : cloak_http_parser_t) (m stored : bytes) : cloak_http_parser_t :=
  hp_set_line (hp_set_phase (hp_set_req p (hq_set_target (hp_req p) (method_of m) stored))
    PHASE_HEADERS) (hp_line p) 0.

Lemma finish_request_line_spec p line rest :
  hp_line p = line ++ rest -> hp_line_len p = zlen line -> zlen line <= 1024 ->
  zlen (hq_path (hp_req p)) = CLOAK_HTTP_MAX_PATH ->
  match request_line line with
  | inr s => finish_request_line p = Some (fail p s)
  | inl (m, t) => exists stored, holds_string stored CLOAK_HTTP_MAX_PATH t /\
      finish_request_line p = Some (CLOAK_HTTP_INCOMPLETE, to_headers p m stored)
  end.
Proof.
  intros Hl Hn Hmax Hpath. unfold finish_request_line, request_line. rewrite Hn, Hl.
  rewrite (memchr_slice _ 0 _ _ line) by (by apply mem_read_head).
  cbn [mbind option_bind].
  destruct (split_at 32 line) as [[m r]|] eqn:E1; cbn [fmap option_fmap option_map fst]; [|done].
  apply split_at_inv in E1 as [-> Hm]. rewrite zlen_eqb_nil.
  destruct (bool_decide_reflect (m = [])); [done|].
  rewrite zlen_app, zlen_cons in Hmax |- *. zlen_pos.
  replace (u64 (zlen m + (1 + zlen r) - zlen m - 1)) with (zlen r) by (rewrite u64_small; lia).
  rewrite <- app_assoc. cbn [app].
  rewrite (memchr_slice _ _ _ _ r).
  2:{ change (m ++ 32 :: r ++ rest) with (m ++ [32] ++ r ++ rest). rewrite app_assoc.
      apply slice_at; [by rewrite zlen_app|done]. }
  cbn [mbind option_bind].
  destruct (split_at 32 r) as [[t v]|] eqn:E2; cbn [fmap option_fmap option_map fst]; [|done].
  apply split_at_inv in E2 as [-> Ht]. rewrite zlen_eqb_nil.
  destruct (bool_decide_reflect (t = [])) as [|Htne]; [done|].
  rewrite zlen_app, zlen_cons in *. zlen_pos.
  replace (u64 (zlen m + (1 + (zlen t + (1 + zlen v))) - (zlen m + 1 + zlen t + 1))) with (zlen v)
    by (rewrite u64_small; lia).
  assert (Hv : (m ++ 32 :: (t ++ 32 :: v) ++ rest).[zlen m + 1 + zlen t + 1 +: zlen v] = Some v).
  { replace (m ++ 32 :: (t ++ 32 :: v) ++ rest) with ((m ++ [32] ++ t ++ [32]) ++ v ++ rest)
      by (by rewrite <- !app_assoc).
    apply slice_at; [rewrite !zlen_app; change (zlen [32]) with 1; lia|done]. }
  rewrite (memchr_slice _ _ _ _ v Hv). cbn [mbind option_bind].
  destruct (split_at 32 v) as [[a b]|] eqn:E3; cbn [fmap option_fmap option_map fst].
  { apply version_no_space in E3. rewrite (bool_decide_eq_true_2 (Some _ <> None)) by done.
    by rewrite (bool_decide_eq_false_2 (v ∈ versions)). }
  rewrite (bool_decide_eq_false_2 (None <> None)) by (by intros []).
  assert (H8 : exists w, (if zlen v =? 8 then
      (m ++ 32 :: (t ++ 32 :: v) ++ rest).[zlen m + 1 + zlen t + 1 +: 8] else Some []) = Some w /\
      (zlen v = 8 -> w = v)).
  { destruct (Z.eqb_spec (zlen v) 8) as [H8|]; [|by exists []]. rewrite H8 in Hv. by exists v. }
  destruct H8 as (w&->&Hw). cbn [mbind option_bind].
  assert (Hver : negb (zlen v =? 8) || negb (bool_decide (w = c_string "HTTP/1.1")) &&
    negb (bool_decide (w = c_string "HTTP/1.0")) = negb (bool_decide (v ∈ versions))).
  { rewrite <- version_ok. destruct (Z.eqb_spec (zlen v) 8) as [H8|]; [by rewrite Hw|done]. }
  rewrite Hver. destruct (negb (bool_decide (v ∈ versions))); [done|].
  destruct (Z.leb_spec CLOAK_HTTP_MAX_PATH (zlen t)) as [|Hshort]; [done|].
  destruct t as [|c t]; [done|]. cbn [app head].
  rewrite (mem_get_behind m 32 c) by done. cbn [mbind option_bind].
  destruct (Z.eqb_spec c 47) as [->|Hc]; cbn [negb].
  2:{ rewrite bool_decide_eq_false_2 by congruence. done. }
  rewrite bool_decide_eq_true_2 by done.
  rewrite (mem_read_head m) by done. cbn [mbind option_bind].
  replace (m ++ 32 :: 47 :: (t ++ 32 :: v) ++ rest) with ((m ++ [32]) ++ (47 :: t) ++ 32 :: v ++ rest)
    by (cbn [app]; by rewrite <- !app_assoc).
  rewrite slice_at by (by rewrite ?zlen_app). cbn [mbind option_bind].
  destruct (zlen_split (hq_path (hp_req p)) (zlen (47 :: t))) as (o&r2&Ho&Hol&Hor).
  { rewrite Hpath. lia. }
  rewrite Ho. rewrite (mem_write_app [] o r2) by done. cbn [mbind option_bind app].
  destruct r2 as [|x r2]; [change (zlen []) with 0 in Hor; unfold CLOAK_HTTP_MAX_PATH in *; lia|].
  rewrite (mem_set_app (47 :: t) x 0 r2) by done. cbn [mbind option_bind].
  exists ((47 :: t) ++ 0 :: r2). split; [|done]. split; [|by exists r2].
  rewrite <- Hpath, Ho, !zlen_app, !zlen_cons in *. rewrite <- Hol. lia.
Qed.

(** ** Header lines *)

Lemma digits_existsb v :
  existsb (fun c => (c <? 48) || (57 <? c)) v = negb (forallb is_digit v).
Proof.
  induction v as [|c v IH]; [done|]. cbn [existsb forallb]. rewrite IH, negb_andb. f_equal.
  unfold is_digit. by rewrite negb_andb, <- !Z.ltb_antisym.
Qed.

Lemma decimal_from_ge v n :
  forallb is_digit v = true -> 0 <= n -> n <= fold_left (fun n c => n * 10 + (c - 48)) v n.
Proof.
  revert n. induction v as [|c v IH]; intros n Hv Hn; cbn [fold_left forallb] in *; [lia|].
  apply andb_true_iff in Hv as [Hc Hv]. unfold is_digit in Hc. bool_hyps.
  specialize (IH (n * 10 + (c - 48)) Hv ltac:(lia)). lia.
Qed.

Lemma content_length_loop_spec v n :
  forallb is_digit v = true -> 0 <= n <= CLOAK_HTTP_MAX_BODY ->
  let m := fold_left (fun n c => n * 10 + (c - 48)) v n in
  content_length_loop v n = if CLOAK_HTTP_MAX_BODY <? m then None else Some m.
Proof.
  unfold CLOAK_HTTP_MAX_BODY. revert n.
  induction v as [|c v IH]; intros n Hv Hn; cbn [content_length_loop fold_left forallb] in *.
  { by decide_cmp. }
  apply andb_true_iff in Hv as [Hc Hv]. unfold is_digit in Hc. bool_hyps.
  rewrite u64_small by lia. unfold CLOAK_HTTP_MAX_BODY.
  destruct (Z.ltb_spec 65536 (n * 10 + (c - 48))).
  - pose proof (decimal_from_ge v (n * 10 + (c - 48)) Hv ltac:(lia)). by decide_cmp.
  - apply IH; [done|lia].
Qed.

Lemma decimal_nonneg v : forallb is_digit v = true -> 0 <= decimal v.
Proof. intros Hv. by apply (decimal_from_ge v 0). Qed.

Lemma parse_content_length_spec p v :
  parse_content_length p v =
  match length_value v with
  | BadHeader s => fail p s
  | Plain => (CLOAK_HTTP_INCOMPLETE, p)
  | Length n =>
      if hq_have_content_length (hp_req p) then
        if hq_content_length (hp_req p) =? n then (CLOAK_HTTP_INCOMPLETE, p) else fail p 400
      else (CLOAK_HTTP_INCOMPLETE, hp_set_req p (hq_set_length (hp_req p) n))
  end.
Proof.
  unfold parse_content_length, length_value. rewrite zlen_eqb_nil, digits_existsb.
  destruct (bool_decide (v = [])); [done|]. cbn [orb].
  destruct (forallb is_digit v) eqn:Hd; [|done]. cbn [negb].
  rewrite content_length_loop_spec by done. fold (decimal v).
  destruct (CLOAK_HTTP_MAX_BODY <? decimal v); [done|].
  destruct (hq_have_content_length (hp_req p)); [|done]. by destruct (_ =? _).
Qed.

Lemma length_value_range v n : length_value v = Length n -> 0 <= n <= CLOAK_HTTP_MAX_BODY.
Proof.
  unfold length_value. destruct (bool_decide (v = [])); [done|]. cbn [orb].
  destruct (forallb is_digit v) eqn:Hd; [|done]. cbn [negb].
  destruct (Z.ltb_spec CLOAK_HTTP_MAX_BODY (decimal v)); [done|]. intros [= <-].
  split; [by apply decimal_nonneg|done].
Qed.

Lemma header_line_range line n : header_line line = Length n -> 0 <= n <= CLOAK_HTTP_MAX_BODY.
Proof. unfold header_line. repeat case_match; try done. apply length_value_range. Qed.

(** The parser after a header line was taken. *)
Definition counted (p : cloak_http_parser_t) : cloak_http_parser_t :=
  hp_set_counts (hp_set_line p (hp_line p) 0) (hp_header_block_len p) (hp_header_count p + 1).

Lemma finish_header_line_spec p line rest malloc_ok :
  hp_line p = line ++ rest -> hp_line_len p = zlen line -> zlen line <= 1024 ->
  0 <= hp_header_count p <= 32 ->
  finish_header_line p malloc_ok = Some (
    if bool_decide (line = []) then finish_headers (hp_set_line p (hp_line p) 0) malloc_ok
    else if folded line then fail (hp_set_line p (hp_line p) 0) 400
    else if CLOAK_HTTP_MAX_HEADERS <? hp_header_count p + 1 then fail (counted p) 431
    else match header_line line with
         | BadHeader s => fail (counted p) s
         | Plain => (CLOAK_HTTP_INCOMPLETE, counted p)
         | Length n =>
             if hq_have_content_length (hp_req p) then
               if hq_content_length (hp_req p) =? n then (CLOAK_HTTP_INCOMPLETE, counted p)
               else fail (counted p) 400
             else (CLOAK_HTTP_INCOMPLETE,
                   hp_set_req (counted p) (hq_set_length (hp_req p) n))
         end).
Proof.
  intros Hl Hn Hmax Hc. unfold finish_header_line. rewrite Hn. zlen_pos. rewrite zlen_eqb_nil.
  destruct (bool_decide_reflect (line = [])) as [->|Hne]; [done|].
  assert (H0 : (hp_line p).[0] = head line /\ head line = Some (hd 0 line)).
  { rewrite Hl. by destruct line. }
  destruct H0 as [-> ->]. cbn [mbind option_bind].
  assert (Hf : folded line = (hd 0 line =? 32) || (hd 0 line =? 9)) by (by destruct line).
  rewrite <- Hf. destruct (folded line); [done|].
  cbn [hp_header_count hp_set_line hp_header_block_len]. rewrite u32_small by lia.
  fold (counted p). cbn [hp_header_count counted hp_set_counts].
  destruct (CLOAK_HTTP_MAX_HEADERS <? hp_header_count p + 1); [done|].
  rewrite (memchr_slice _ 0 _ _ line) by (rewrite Hl; by apply mem_read_head).
  cbn [mbind option_bind]. unfold header_line.
  destruct (split_at 58 line) as [[name v]|] eqn:E; cbn [fmap option_fmap option_map fst]; [|done].
  apply split_at_inv in E as [-> _]. rewrite zlen_eqb_nil.
  destruct (bool_decide_reflect (name = [])) as [|Hname]; [done|]. cbn [orb].
  rewrite <- app_assoc in Hl. cbn [app] in Hl.
  rewrite Hl at 1. rewrite mem_read_head by done. cbn [mbind option_bind].
  rewrite (forallb_same _ _ is_tchar_tchar). destruct (forallb tchar name); [|done]. cbn [negb].
  rewrite zlen_app, zlen_cons in *. zlen_pos.
  replace (u64 (zlen name + (1 + zlen v) - zlen name - 1)) with (zlen v) by (rewrite u64_small; lia).
  assert (Hv : (hp_line p).[zlen name + 1 +: zlen v] = Some v).
  { rewrite Hl. replace (name ++ 58 :: v ++ rest) with ((name ++ [58]) ++ v ++ rest)
      by (by rewrite <- app_assoc).
    apply slice_at; [by rewrite zlen_app|done]. }
  rewrite Hv. cbn [mbind option_bind].
  rewrite !name_is_ci by done. destruct (ci_equal name (c_string "transfer-encoding")); [done|].
  destruct (ci_equal name (c_string "content-length")); [|done].
  rewrite <- http_trim. by rewrite parse_content_length_spec.
Qed.

(** ** One byte *)

Lemma to_headers_rep p m t stored rest :
  hp_state p = CLOAK_HTTP_INCOMPLETE -> hp_pending_cr p = false -> hp_line p = rest ->
  zlen rest = CLOAK_HTTP_MAX_REQUEST_LINE -> hp_header_block_len p = 0 -> hp_header_count p = 0 ->
  hq_have_content_length (hp_req p) = false -> holds_string stored CLOAK_HTTP_MAX_PATH t ->
  http_rep (to_headers p m stored) (Machine (InHeaders m t None 0 0) [] false).
Proof.
  intros Hst Hcr Hl Hlen Hb Hc Hh Hs. pose proof Hs as [Hpath _].
  split; cbn; try done; [by exists rest|].
  split_and!; try done. split; [apply method_of_names|exact Hs].
Qed.

(** The empty line behind the headers. *)
Lemma finish_headers_rep p m t len block count malloc_ok :
  http_rep p (Machine (InHeaders m t len block count) [] false) ->
  match end_line (InHeaders m t len block count) [] malloc_ok with
  | Reading s => exists p', finish_headers p malloc_ok = (CLOAK_HTTP_INCOMPLETE, p') /\ http_rep p' s
  | o => exists st p', finish_headers p malloc_ok = (st, p') /\ is_incomplete st = false /\
                       outcome_rep (hp_set_state p' st) o
  end.
Proof.
  intros [Hst Hcr Hpath Hl Hn (Hph&Hb&Hc&Hbr&Hcr'&Ht&Hlen)]. cbn [m_cr m_line] in *.
  unfold finish_headers. cbn [end_line bool_decide]. rewrite bool_decide_eq_true_2 by done.
  destruct len as [n|]; cbn [length_rep] in Hlen.
  - destruct Hlen as (Hh&<-&Hr). rewrite Hh. cbn [negb orb].
    destruct (Z.eqb_spec (hq_content_length (hp_req p)) 0) as [H0|H0].
    + do 2 eexists. split; [done|split; [done|]].
      by split_and!; cbn; rewrite ?bool_decide_eq_true_2 by done.
    + destruct malloc_ok; cbn [negb].
      * eexists. split; [done|]. split; cbn; try done. split_and!; try done; try lia; change (zlen []) with 0; try lia.
        eexists. split; [done|]. rewrite zlen_replicate. lia.
      * by do 2 eexists.
  - rewrite Hlen. cbn [negb orb]. do 2 eexists. split; [done|split; [done|]].
    split_and!; cbn; try done; by rewrite bool_decide_eq_true_2.
Qed.

Lemma counted_rep p m t len block count line rest :
  http_rep p (Machine (InHeaders m t len block count) line false) ->
  hp_line p = line ++ rest -> count + 1 <= CLOAK_HTTP_MAX_HEADERS ->
  http_rep (counted p) (Machine (InHeaders m t len block (count + 1)) [] false).
Proof.
  intros [Hst Hcr Hpath (r&Hl&Hlen) Hn (Hph&Hb&Hc&Hbr&Hcr'&Ht&Hlr)] _ Hmax. cbn [m_cr m_line] in *.
  split; cbn; try done.
  - exists (hp_line p). split; [done|]. rewrite Hl, zlen_app. change (zlen []) with 0. lia.
  - split_and!; try done; lia.
Qed.

Lemma set_length_rep p m t block count n :
  http_rep p (Machine (InHeaders m t None block count) [] false) -> 0 <= n <= CLOAK_HTTP_MAX_BODY ->
  http_rep (hp_set_req p (hq_set_length (hp_req p) n))
    (Machine (InHeaders m t (Some n) block count) [] false).
Proof.
  intros [Hst Hcr Hpath Hl Hn (Hph&Hb&Hc&Hbr&Hcr'&Ht&Hlr)] Hr. split; cbn; try done.
Qed.

(** A complete line: what the two [finish_] functions do is [end_line]. *)
Lemma end_line_rep p ph line malloc_ok :
  http_rep p (Machine ph line false) -> hp_phase p <> PHASE_BODY ->
  let r := if hp_phase p =? PHASE_REQUEST_LINE then finish_request_line p
           else finish_header_line p malloc_ok in
  match end_line ph line malloc_ok with
  | Reading s => exists p', r = Some (CLOAK_HTTP_INCOMPLETE, p') /\ http_rep p' s
  | o => exists st p', r = Some (st, p') /\ is_incomplete st = false /\
                       outcome_rep (hp_set_state p' st) o
  end.
Proof.
  intros Hrep Hph. pose proof Hrep as [Hst Hcr Hpath (rest&Hl&Hlen) Hn Hphase]. cbn [m_cr m_line m_phase] in *.
  unfold CLOAK_HTTP_MAX_REQUEST_LINE in Hlen. zlen_pos.
  assert (Hmax : zlen line <= 1024) by (pose proof (zlen_nonneg rest); lia).
  destruct ph as [|m t len block count|m t n body]; cbn [phase_rep] in Hphase.
  - destruct Hphase as (->&Hb&Hc&Hh). cbn [Z.eqb PHASE_REQUEST_LINE end_line].
    pose proof (finish_request_line_spec p line rest Hl Hn Hmax Hpath) as Hf.
    destruct (request_line line) as [[m t]|s].
    + destruct Hf as (stored&Hs&->). eexists. split; [done|].
      eapply to_headers_rep; try done. rewrite zlen_app. unfold CLOAK_HTTP_MAX_REQUEST_LINE. lia.
    + rewrite Hf. by do 2 eexists.
  - pose proof Hphase as (->&Hb&Hc&Hbr&Hcr'&Ht&Hlr). cbn [Z.eqb PHASE_HEADERS PHASE_REQUEST_LINE].
    rewrite (finish_header_line_spec p line rest) by (done || (unfold CLOAK_HTTP_MAX_HEADERS in *; lia)).
    cbn [end_line]. destruct (bool_decide_reflect (line = [])) as [->|Hne].
    + assert (Hrep' : http_rep (hp_set_line p (hp_line p) 0) (Machine (InHeaders m t len block count) [] false)).
      { split; cbn; try done. by exists rest. }
      pose proof (finish_headers_rep _ _ _ _ _ _ malloc_ok Hrep') as Hf. cbn [end_line] in Hf.
      rewrite bool_decide_eq_true_2 in Hf by done.
      destruct (match len with None => _ | Some n => _ end) as [s| |];
        [destruct Hf as (p'&->&Hf)|destruct Hf as (st&p'&->&Hf)..]; eauto.
    + destruct (folded line); [by do 2 eexists|]. rewrite Hc.
      destruct (Z.ltb_spec CLOAK_HTTP_MAX_HEADERS (count + 1)) as [|Hle]; [by do 2 eexists|].
      pose proof (counted_rep _ _ _ _ _ _ _ _ Hrep Hl Hle) as Hcnt.
      unfold header_step. destruct (header_line line) as [|n|s] eqn:Eh.
      * eexists. by split.
      * apply header_line_range in Eh. destruct len as [k|]; cbn [length_rep] in Hlr.
        -- destruct Hlr as (->&->&_). destruct (k =? n); [eexists; by split|by do 2 eexists].
        -- rewrite Hlr. eexists. split; [done|].
           by apply (set_length_rep (counted p)).
      * by do 2 eexists.
  - destruct Hphase as [Hp _]. by rewrite Hp in Hph.
Qed.

Lemma line_byte_rep p ph line cr b malloc_ok :
  http_rep p (Machine ph line cr) -> hp_phase p <> PHASE_BODY ->
  match line_step ph line cr b malloc_ok with
  | Reading s => exists p', line_byte p b malloc_ok = Some (None, p') /\ http_rep p' s
  | o => exists st p', line_byte p b malloc_ok = Some (Some st, p') /\
                       outcome_rep (hp_set_state p' st) o
  end.
Proof.
  intros Hrep Hph. pose proof Hrep as [Hst Hcr Hpath (rest&Hl&Hlen) Hn Hphase].
  cbn [m_cr m_line m_phase] in *. unfold line_byte, line_step. rewrite Hcr, Hn.
  set (headers := match ph with InRequestLine => false | _ => true end).
  assert (Hreq : (hp_phase p =? PHASE_REQUEST_LINE) = negb headers /\
                 (hp_phase p =? PHASE_HEADERS) = headers).
  { destruct ph; destruct Hphase as (Hp&_); rewrite Hp in *; done. }
  destruct Hreq as [Hreq Hhd]. rewrite Hreq, Hhd. destruct cr.
  - destruct (b =? 10); cbn [negb]; [|by do 2 eexists].
    assert (Hrep' : http_rep (hp_set_cr p false) (Machine ph line false)).
    { split; cbn; try done. by exists rest. }
    pose proof (end_line_rep _ _ _ malloc_ok Hrep' Hph) as He. cbn [hp_phase hp_set_cr] in He.
    rewrite Hreq in He. clearbody headers.
    destruct headers; cbn [negb] in *; destruct (end_line ph line malloc_ok);
      first [destruct He as (p'&->&He)|destruct He as (st&p'&->&Hi&He)]; cbn; rewrite ?Hi; eauto.
  - destruct (b =? 13). { eexists. split; [done|]. split; cbn; try done. by exists rest. }
    destruct (b =? 10); [by do 2 eexists|].
    assert (Hchar : ((b <? 32) || (b =? 127)) && negb ((b =? 9) && headers) =
                    negb (line_char headers b)).
    { unfold line_char. by destruct ((b <? 32) || (b =? 127)), ((b =? 9) && headers). }
    rewrite Hchar. destruct (line_char headers b); cbn [negb]; [|by do 2 eexists].
    assert (Hcap : (if negb headers then CLOAK_HTTP_MAX_REQUEST_LINE else CLOAK_HTTP_MAX_HEADER_LINE) =
      (if headers then CLOAK_HTTP_MAX_HEADER_LINE else CLOAK_HTTP_MAX_REQUEST_LINE)) by (by destruct headers).
    rewrite Hcap. destruct (Z.leb_spec (if headers then CLOAK_HTTP_MAX_HEADER_LINE else
      CLOAK_HTTP_MAX_REQUEST_LINE) (zlen line)) as [|Hfit].
    { destruct headers; by do 2 eexists. }
    assert (Hlt : zlen line < CLOAK_HTTP_MAX_REQUEST_LINE).
    { destruct headers; unfold CLOAK_HTTP_MAX_REQUEST_LINE, CLOAK_HTTP_MAX_HEADER_LINE in *; lia. }
    destruct rest as [|x rest]; [change (zlen []) with 0 in Hlen; lia|].
    rewrite Hl, mem_set_app by done. cbn [mbind option_bind]. eexists. split; [done|].
    rewrite zlen_cons in Hlen. split; cbn; try done.
    + exists rest. rewrite <- app_assoc. split; [done|]. rewrite zlen_app.
      change (zlen [b]) with 1. lia.
    + rewrite zlen_app. by change (zlen [b]) with 1.
Qed.

(** ** A call of [feed] *)

(** The bytes of a body are taken one by one by the machine. *)
Lemma http_run_body m t n body line cr src data malloc_ok :
  src <> [] -> zlen body + zlen src <= n -> (zlen body + zlen src < n -> data = []) ->
  http_run (Machine (InBody m t n body) line cr) (src ++ data) malloc_ok =
  (zlen src, if zlen body + zlen src =? n then Request m t (Some n) (body ++ src)
             else Reading (Machine (InBody m t n (body ++ src)) line cr)).
Proof.
  revert body. induction src as [|b src IH]; intros body Hne Hle Hall; [done|].
  cbn [app http_run http_step m_phase m_line m_cr].
  rewrite zlen_cons in Hle, Hall |- *. pose proof (zlen_nonneg src) as Hpos.
  assert (H1 : zlen (body ++ [b]) = zlen body + 1) by (by rewrite zlen_app).
  rewrite H1. destruct (decide (src = [])) as [->|Hs].
  - change (zlen []) with 0 in *. rewrite !Z.add_0_r in *.
    destruct (Z.eqb_spec (zlen body + 1) n) as [|Hne']; [done|].
    rewrite Hall by lia. done.
  - assert (Hp : zlen src <> 0) by (by intros ?%zlen_zero).
    decide_cmp. rewrite IH by (done || (rewrite ?H1; lia || (intros; apply Hall; lia))).
    rewrite H1, <- app_assoc. do 2 f_equal. by replace (zlen body + 1 + zlen src) with (zlen body + (1 + zlen src)) by lia.
Qed.

(** A chunk of a body, copied into the buffer. *)
Definition store_body (p : cloak_http_parser_t) (buf : bytes) (have : Z) : cloak_http_parser_t :=
  hp_set_body p (Some buf) (hp_body_cap p) have.

Lemma store_body_rep p m t n body line cr src rest :
  http_rep p (Machine (InBody m t n body) line cr) -> zlen body + zlen src + zlen rest = n ->
  let p' := store_body p (body ++ src ++ rest) (zlen body + zlen src) in
  if zlen body + zlen src =? n then
    outcome_rep (hp_set_state (hp_set_req p' (hq_set_body (hp_req p')
      (Some (body ++ src ++ rest)) (zlen body + zlen src))) CLOAK_HTTP_DONE)
      (Request m t (Some n) (body ++ src))
  else http_rep p' (Machine (InBody m t n (body ++ src)) line cr).
Proof.
  intros [Hst Hcr Hpath Hl Hn (Hph&Ht&Hlr&Hh&Hlt&Hbuf)] Hlen p'. cbn [m_cr m_line] in *. zlen_pos.
  destruct (Z.eqb_spec (zlen body + zlen src) n) as [He|Hne].
  - assert (rest = []) as -> by (apply zlen_zero; lia). rewrite app_nil_r.
    split_and!; cbn; try done.
    + by rewrite zlen_app.
    + rewrite bool_decide_eq_false_2; [done|].
      intros [-> ->]%app_eq_nil. change (zlen []) with 0 in *. lia.
  - split; cbn; try done. split_and!; try done; try apply Hlr; rewrite ?zlen_app; try lia.
    exists rest. split; [by rewrite app_assoc|]. lia.
Qed.

(** One byte of a line in the loop, its charge made. *)
Definition feed_line (k : cloak_http_parser_t -> Z -> option (Z * cloak_http_parser_t))
    (p : cloak_http_parser_t) (data : bytes) (off : Z) (malloc_ok : bool)
    : option (Z * cloak_http_parser_t) :=
  b ← data.[off];
  '(rc, p) ← line_byte p b malloc_ok;
  match rc with
  | Some st => Some (off + 1, hp_set_state p st)
  | None => if negb (is_incomplete (hp_state p)) then Some (off + 1, p) else k p (off + 1)
  end.

Definition then_run (o : http_outcome) (data : bytes) (malloc_ok : bool) : Z * http_outcome :=
  match o with
  | Reading s => let '(n, o) := http_run s data malloc_ok in (1 + n, o)
  | o => (1, o)
  end.

Lemma http_run_cons s b data malloc_ok :
  http_run s (b :: data) malloc_ok = then_run (http_step s b malloc_ok) data malloc_ok.
Proof. cbn [http_run]. by destruct (http_step s b malloc_ok). Qed.

Lemma feed_line_rep k p ph line cr pre b data malloc_ok :
  http_rep p (Machine ph line cr) -> hp_phase p <> PHASE_BODY ->
  (forall p s, http_rep p s ->
     let '(n, o) := http_run s data malloc_ok in
     exists p', k p (zlen pre + 1) = Some (zlen pre + 1 + n, p') /\ outcome_rep p' o) ->
  let '(n, o) := then_run (line_step ph line cr b malloc_ok) data malloc_ok in
  exists p', feed_line k p (pre ++ b :: data) (zlen pre) malloc_ok = Some (zlen pre + n, p') /\
             outcome_rep p' o.
Proof.
  intros Hrep Hph Hk. unfold feed_line. rewrite mem_get_app_r, Z.sub_diag by lia.
  change ((b :: data).[0]) with (Some b). cbn [mbind option_bind].
  pose proof (line_byte_rep _ _ _ _ b malloc_ok Hrep Hph) as Hb.
  destruct (line_step ph line cr b malloc_ok) as [s| |]; cbn [then_run].
  - destruct Hb as (p'&->&Hrep'). cbn [mbind option_bind].
    rewrite (hr_state _ _ Hrep'). cbn [is_incomplete negb].
    specialize (Hk p' s Hrep'). destruct (http_run s data malloc_ok) as [n o].
    by rewrite Z.add_assoc.
  - destruct Hb as (st&p'&->&Ho). by eexists.
  - destruct Hb as (st&p'&->&Ho). by eexists.
Qed.

(** A chunk of a body in the loop. *)
Lemma feed_body_rep fuel p m t n body line cr pre data malloc_ok :
  http_rep p (Machine (InBody m t n body) line cr) -> data <> [] ->
  zlen pre + zlen data < 18446744073709551616 ->
  let '(k, o) := http_run (Machine (InBody m t n body) line cr) data malloc_ok in
  exists p', feed_loop (S fuel) p (pre ++ data) (zlen pre) malloc_ok = Some (zlen pre + k, p') /\
             outcome_rep p' o.
Proof.
  intros Hrep Hne Hmax.
  pose proof Hrep as [Hst Hcr Hpath Hl Hn (Hph&Ht&(Hh&Hcl&Hnr)&Hhave&Hlt&rest&Hbuf&Hlen)].
  unfold CLOAK_HTTP_MAX_BODY in *. zlen_pos. pose proof (zlen_nonneg data).
  assert (Hd : zlen data <> 0) by (by intros ?%zlen_zero).
  destruct (zlen_split data (Z.min (n - zlen body) (zlen data))) as (src&data'&->&Hs&Hd').
  { lia. }
  rewrite zlen_app in *. pose proof (zlen_nonneg src). pose proof (zlen_nonneg data').
  assert (Hsrc : src <> []). { intros ->. change (zlen []) with 0 in *. lia. }
  rewrite http_run_body; [|done|lia|intros; apply zlen_zero; lia].
  cbn [feed_loop]. rewrite !zlen_app, Hph, Hcl, Hhave, Hbuf.
  change (PHASE_BODY =? PHASE_BODY) with true.
  rewrite (proj2 (Z.ltb_lt (zlen pre) _)) by lia. cbn [negb].
  rewrite (u64_small (n - zlen body)), (u64_small (zlen pre + _ - _)) by lia.
  assert (Htake : (if n - zlen body <? zlen pre + (zlen src + zlen data') - zlen pre
    then n - zlen body else zlen pre + (zlen src + zlen data') - zlen pre) = zlen src).
  { destruct (Z.ltb_spec (n - zlen body) (zlen pre + (zlen src + zlen data') - zlen pre)); lia. }
  rewrite Htake, mem_read_app by done. cbn [mbind option_bind].
  destruct (zlen_split rest (zlen src)) as (old&rest'&->&Ho&Hr'); [lia|].
  rewrite mem_write_app by done. cbn [mbind option_bind].
  rewrite u64_small by lia. rewrite zlen_app in Hlen.
  pose proof (store_body_rep p m t n body line cr src rest' Hrep ltac:(lia)) as Hstore.
  cbn zeta in Hstore. unfold store_body in Hstore.
  destruct (Z.eqb_spec (zlen body + zlen src) n) as [He|He]; cbn [hp_req hp_set_body] in *.
  - assert (rest' = []) as -> by (apply zlen_zero; lia). rewrite Hcl, He, Z.eqb_refl.
    rewrite He in Hstore. by eexists.
  - rewrite Hcl. decide_cmp. assert (data' = []) as -> by (apply zlen_zero; lia).
    eexists. split; [|exact Hstore]. rewrite app_nil_r.
    assert (Hstop : forall q, feed_loop fuel q (pre ++ src) (zlen pre + zlen src) malloc_ok =
      Some (zlen pre + zlen src, q)).
    { intros q. destruct fuel; cbn [feed_loop]; rewrite zlen_app, Z.ltb_irrefl; done. }
    apply Hstop.
Qed.

Lemma feed_loop_S fuel p data off malloc_ok :
  off < zlen data -> hp_phase p <> PHASE_BODY ->
  feed_loop (S fuel) p data off malloc_ok =
  let p := if hp_phase p =? PHASE_HEADERS
           then hp_set_counts p (u64 (hp_header_block_len p + 1)) (hp_header_count p) else p in
  if (hp_phase p =? PHASE_HEADERS) && (CLOAK_HTTP_MAX_HEADER_BLOCK <? hp_header_block_len p)
  then Some (off + 1, hp_set_state (snd (fail p 431)) CLOAK_HTTP_ERROR)
  else feed_line (fun p off => feed_loop fuel p data off malloc_ok) p data off malloc_ok.
Proof.
  intros Hoff Hph. cbn [feed_loop]. rewrite (proj2 (Z.ltb_lt _ _) Hoff). cbn [negb].
  by rewrite (proj2 (Z.eqb_neq _ _) Hph).
Qed.

Lemma charge_rep p m t len block count line cr :
  http_rep p (Machine (InHeaders m t len block count) line cr) ->
  block + 1 <= CLOAK_HTTP_MAX_HEADER_BLOCK ->
  http_rep (hp_set_counts p (u64 (hp_header_block_len p + 1)) (hp_header_count p))
    (Machine (InHeaders m t len (block + 1) count) line cr).
Proof.
  intros [Hst Hcr Hpath Hl Hn (Hph&Hb&Hc&Hbr&Hcr'&Ht&Hlr)] Hle. cbn [m_cr m_line] in *.
  unfold CLOAK_HTTP_MAX_HEADER_BLOCK in *. rewrite Hb, u64_small by lia.
  split; cbn; try done. unfold CLOAK_HTTP_MAX_HEADER_BLOCK. split_and!; done || lia.
Qed.

Lemma feed_loop_rep malloc_ok data fuel p s pre :
  http_rep p s -> zlen pre + zlen data <= SIZE_MAX -> (length data <= fuel)%nat ->
  let '(n, o) := http_run s data malloc_ok in
  exists p', feed_loop fuel p (pre ++ data) (zlen pre) malloc_ok = Some (zlen pre + n, p') /\
             outcome_rep p' o.
Proof.
  revert fuel p s pre. induction data as [data IH] using (induction_ltof1 _ length).
  unfold ltof in IH. intros fuel p s pre Hrep Hmax Hfuel. unfold SIZE_MAX in Hmax.
  destruct data as [|b data].
  { cbn [http_run]. exists p. split; [|done]. rewrite app_nil_r, Z.add_0_r.
    unfold feed_loop. destruct fuel; decide_cmp; done. }
  destruct fuel as [|fuel]; [cbn in Hfuel; lia|].
  pose proof Hrep as [Hst Hcr Hpath Hl Hn Hphase].
  destruct s as [ph line cr]. cbn [m_cr m_line m_phase] in *.
  assert (Hoff : zlen pre < zlen (pre ++ b :: data)).
  { rewrite zlen_app, zlen_cons. zlen_pos. lia. }
  assert (Hk : forall p s, http_rep p s ->
     let '(n, o) := http_run s data malloc_ok in
     exists p', feed_loop fuel p (pre ++ b :: data) (zlen pre + 1) malloc_ok =
                  Some (zlen pre + 1 + n, p') /\ outcome_rep p' o).
  { intros q s Hq. specialize (IH data ltac:(cbn; lia) fuel q s (pre ++ [b]) Hq).
    rewrite zlen_app, <- app_assoc in IH. change (zlen [b]) with 1 in IH. apply IH.
    - rewrite zlen_cons in Hmax. unfold SIZE_MAX. lia.
    - cbn in Hfuel. lia. }
  destruct ph as [|m t len block count|m t n body].
  - destruct Hphase as (Hph&_). rewrite feed_loop_S, Hph by (done || by rewrite Hph).
    rewrite http_run_cons. change (PHASE_REQUEST_LINE =? PHASE_HEADERS) with false.
    cbn zeta iota. rewrite Hph. cbn [andb Z.eqb PHASE_HEADERS PHASE_REQUEST_LINE].
    exact (feed_line_rep (fun p off => feed_loop fuel p (pre ++ b :: data) off malloc_ok)
      p InRequestLine line cr pre b data malloc_ok Hrep ltac:(by rewrite Hph) Hk).
  - destruct Hphase as (Hph&Hb&Hc&Hbr&_). rewrite feed_loop_S by (done || by rewrite Hph).
    rewrite Hph. cbn [Z.eqb PHASE_HEADERS Pos.eqb andb].
    rewrite http_run_cons.
    cbn [http_step m_phase m_line m_cr hp_phase hp_set_counts hp_header_block_len].
    rewrite Hph, Hb. unfold CLOAK_HTTP_MAX_HEADER_BLOCK in *.
    rewrite (u64_small (block + 1)) by lia. cbn [Z.eqb PHASE_HEADERS Pos.eqb andb].
    destruct (Z.ltb_spec 4096 (block + 1)); [by eexists|].
    pose proof (charge_rep _ _ _ _ _ _ _ _ Hrep ltac:(done)) as Hrep'.
    rewrite Hb, u64_small in Hrep' by lia.
    exact (feed_line_rep (fun p off => feed_loop fuel p (pre ++ b :: data) off malloc_ok)
      _ _ line cr pre b data malloc_ok Hrep' ltac:(cbn; by rewrite Hph) Hk).
  - rewrite zlen_cons in *. apply feed_body_rep; [done|done|rewrite zlen_cons; lia].
Qed.

(** ** A connection *)

(** The pieces of a connection, fed one after the other. *)
Fixpoint feed_all (p : cloak_http_parser_t) (chunks : list bytes) (malloc_ok : bool)
    : option (Z * cloak_http_parser_t) :=
  match chunks with
  | [] => Some (0, p)
  | c :: chunks =>
      '(n, p) ← cloak_http_parser_feed p (Some c) malloc_ok;
      '(k, p) ← feed_all p chunks malloc_ok;
      Some (n + k, p)
  end.

(** A run, [n] bytes later. *)
Definition after (n : Z) (r : Z * http_outcome) : Z * http_outcome := (n + r.1, r.2).

(** What an outcome does with more bytes. *)
Definition go_on (o : http_outcome) (data : bytes) (malloc_ok : bool) : Z * http_outcome :=
  match o with Reading s => http_run s data malloc_ok | o => (0, o) end.

Lemma http_run_step s b data malloc_ok :
  http_run s (b :: data) malloc_ok = after 1 (go_on (http_step s b malloc_ok) data malloc_ok).
Proof.
  rewrite http_run_cons. destruct (http_step s b malloc_ok) as [s'| |]; try done.
  cbn [then_run go_on after]. by destruct (http_run s' data malloc_ok).
Qed.

Lemma after_after n m r : after n (after m r) = after (n + m) r.
Proof. unfold after. cbn. by rewrite Z.add_assoc. Qed.

Lemma after_0 r : after 0 r = r.
Proof. by destruct r. Qed.

Lemma http_run_app s a b malloc_ok :
  http_run s (a ++ b) malloc_ok =
  after (http_run s a malloc_ok).1 (go_on (http_run s a malloc_ok).2 b malloc_ok).
Proof.
  revert s. induction a as [|x a IH]; intros s.
  - cbn [app http_run fst snd go_on]. by rewrite after_0.
  - cbn [app]. rewrite !http_run_step. destruct (http_step s x malloc_ok) as [s'| |]; [|done..].
    cbn [go_on]. rewrite IH, after_after. done.
Qed.

Lemma feed_rep p s data malloc_ok :
  http_rep p s -> zlen data <= SIZE_MAX ->
  exists p', cloak_http_parser_feed p (Some data) malloc_ok =
               Some ((http_run s data malloc_ok).1, p') /\
             outcome_rep p' (http_run s data malloc_ok).2.
Proof.
  intros Hrep Hmax. unfold cloak_http_parser_feed. rewrite (hr_state _ _ Hrep).
  cbn [is_incomplete negb].
  pose proof (feed_loop_rep malloc_ok data (length data) p s [] Hrep ltac:(by rewrite zlen_nil)
    ltac:(done)) as Hf.
  destruct (http_run s data malloc_ok) as [n o]. exact Hf.
Qed.

Lemma feed_all_stopped p chunks malloc_ok :
  is_incomplete (hp_state p) = false -> feed_all p chunks malloc_ok = Some (0, p).
Proof.
  intros Hp. induction chunks as [|c chunks IH]; [done|]. cbn [feed_all].
  unfold cloak_http_parser_feed. rewrite Hp. cbn [negb mbind option_bind]. by rewrite IH.
Qed.

Lemma outcome_stopped p o :
  outcome_rep p o -> match o with Reading _ => True | _ => is_incomplete (hp_state p) = false end.
Proof. destruct o; [done|intros [-> _]..]; done. Qed.

Lemma feed_all_rep p s chunks malloc_ok :
  http_rep p s -> Forall (fun c => zlen c <= SIZE_MAX) chunks ->
  exists p', feed_all p chunks malloc_ok = Some ((http_run s (concat chunks) malloc_ok).1, p') /\
             outcome_rep p' (http_run s (concat chunks) malloc_ok).2.
Proof.
  intros Hrep Hc. revert p s Hrep. induction Hc as [|c chunks Hc _ IH]; intros p s Hrep.
  { by exists p. }
  cbn [feed_all concat]. rewrite http_run_app.
  destruct (feed_rep p s c malloc_ok Hrep Hc) as (p'&->&Ho). cbn [mbind option_bind].
  destruct (http_run s c malloc_ok) as [n [s'| |]]; cbn [fst snd go_on after] in *.
  - destruct (IH p' s' Ho) as (p2&->&Ho'). by exists p2.
  - rewrite feed_all_stopped by apply (outcome_stopped _ _ Ho). by exists p'.
  - rewrite feed_all_stopped by apply (outcome_stopped _ _ Ho). by exists p'.
Qed.

Lemma http_init_rep : http_rep cloak_http_parser_init machine_init.
Proof.
  split; try done. exists (hp_line cloak_http_parser_init). done.
Qed.

(** A fresh parser that is fed the pieces of a connection
    behaves as the byte machine on their concatenation: no access leaves a
    buffer, the bytes consumed are the same, and the state, the request, the
    body and the HTTP status are those of the machine, whatever [malloc]
    does.  So nothing depends on where the pieces were cut. *)
Theorem http_parser_refines_machine chunks malloc_ok :
  Forall (fun c => zlen c <= SIZE_MAX) chunks ->
  let r := http_run machine_init (concat chunks) malloc_ok in
  exists p, feed_all cloak_http_parser_init chunks malloc_ok = Some (r.1, p) /\ outcome_rep p r.2.
Proof. intros Hc. by apply feed_all_rep; [apply http_init_rep|]. Qed.

(** ** The grammar *)

Record http_request := HttpReq {
  rq_token : bytes;
  rq_target : bytes;
  rq_version : bytes;
  rq_headers : list bytes;
  rq_body : bytes
}.

Definition crlf : bytes := [13; 10].
Definition with_crlf (l : bytes) : bytes := l ++ crlf.
Definition request_text (m t v : bytes) : bytes := m ++ 32 :: t ++ 32 :: v.
Definition header_text (hs : list bytes) : bytes := concat (with_crlf <$> hs).

Definition http_encode (r : http_request) : bytes :=
  with_crlf (request_text (rq_token r) (rq_target r) (rq_version r)) ++
  header_text (rq_headers r) ++ crlf ++ rq_body r.

(** The content length that header lines declare; [None] when one of them is
    malformed, not allowed, or disagrees with an earlier one. *)
Fixpoint headers_length (len : option Z) (hs : list bytes) : option (option Z) :=
  match hs with
  | [] => Some len
  | h :: hs => match header_step len h with inl len' => headers_length len' hs | inr _ => None end
  end.

Definition no_space (s : bytes) : Prop := Forall (fun c => c <> 32) s.

Record head_line_ok (m t v : bytes) : Prop := {
  hl_token : m <> [] /\ no_space m;
  hl_target : head t = Some 47 /\ no_space t /\ zlen t < CLOAK_HTTP_MAX_PATH;
  hl_version : v ∈ versions;
  hl_chars : forallb (line_char false) (request_text m t v) = true;
  hl_len : zlen (request_text m t v) <= CLOAK_HTTP_MAX_REQUEST_LINE
}.

Definition header_text_ok (h : bytes) : Prop :=
  h <> [] /\ folded h = false /\ forallb (line_char true) h = true /\
  zlen h <= CLOAK_HTTP_MAX_HEADER_LINE.

Record headers_ok (hs : list bytes) (len : option Z) : Prop := {
  ho_lines : Forall header_text_ok hs;
  ho_count : zlen hs <= CLOAK_HTTP_MAX_HEADERS;
  ho_block : zlen (header_text hs) + 2 <= CLOAK_HTTP_MAX_HEADER_BLOCK;
  ho_length : headers_length None hs = Some len
}.

(** The requests the server takes, with the content length they declare. *)
Record http_request_ok (r : http_request) (len : option Z) : Prop := {
  ro_line : head_line_ok (rq_token r) (rq_target r) (rq_version r);
  ro_headers : headers_ok (rq_headers r) len;
  ro_body : zlen (rq_body r) = default 0 len
}.

(** *** Every request of the grammar is accepted *)

Lemma request_line_text m t v :
  head_line_ok m t v -> request_line (request_text m t v) = inl (m, t).
Proof.
  intros [[Hm Hms] (Ht&Hts&Htl) Hv _ _]. unfold request_line, request_text.
  rewrite split_at_app by done. rewrite bool_decide_eq_false_2 by done.
  rewrite split_at_app by done. rewrite bool_decide_eq_false_2 by (by intros ->).
  rewrite bool_decide_eq_true_2 by done. cbn [negb]. decide_cmp.
  by rewrite bool_decide_eq_true_2.
Qed.

Definition in_headers (ph : http_phase) : bool :=
  match ph with InRequestLine => false | _ => true end.
Definition line_cap (headers : bool) : Z :=
  if headers then CLOAK_HTTP_MAX_HEADER_LINE else CLOAK_HTTP_MAX_REQUEST_LINE.

(** The phase after [n] bytes of a line have been charged to it. *)
Definition charge (ph : http_phase) (n : Z) : http_phase :=
  match ph with
  | InHeaders m t len block count => InHeaders m t len (block + n) count
  | ph => ph
  end.
Definition can_charge (ph : http_phase) (n : Z) : Prop :=
  match ph with
  | InRequestLine => True
  | InHeaders m t len block count => block + n <= CLOAK_HTTP_MAX_HEADER_BLOCK
  | InBody _ _ _ _ => False
  end.

Lemma charge_charge ph n m : charge (charge ph n) m = charge ph (n + m).
Proof. destruct ph; cbn; try done. by rewrite Z.add_assoc. Qed.

Lemma charge_0 ph : charge ph 0 = ph.
Proof. destruct ph; cbn; try done. by rewrite Z.add_0_r. Qed.

Lemma can_charge_le ph n m : can_charge ph n -> m <= n -> can_charge ph m.
Proof. destruct ph; cbn; lia || done. Qed.

Lemma can_charge_charge ph n m : can_charge ph (n + m) -> can_charge (charge ph n) m.
Proof. destruct ph; cbn; lia || done. Qed.

Lemma in_headers_charge ph n : in_headers (charge ph n) = in_headers ph.
Proof. by destruct ph. Qed.

Lemma http_step_line ph line cr b malloc_ok :
  can_charge ph 1 ->
  http_step (Machine ph line cr) b malloc_ok = line_step (charge ph 1) line cr b malloc_ok.
Proof. destruct ph; cbn; [done| |done]. intros. by decide_cmp. Qed.

Lemma line_char_not_end headers b : line_char headers b = true -> b <> 13 /\ b <> 10.
Proof. intros H. split; intros ->; by destruct headers. Qed.

Lemma run_chars ph line a rest malloc_ok :
  forallb (line_char (in_headers ph)) a = true ->
  zlen line + zlen a <= line_cap (in_headers ph) -> can_charge ph (zlen a) ->
  http_run (Machine ph line false) (a ++ rest) malloc_ok =
  after (zlen a) (http_run (Machine (charge ph (zlen a)) (line ++ a) false) rest malloc_ok).
Proof.
  revert ph line. induction a as [|b a IH]; intros ph line Ha Hcap Hch.
  { change (zlen []) with 0. by rewrite charge_0, app_nil_r, after_0. }
  cbn [app forallb] in *. apply andb_true_iff in Ha as [Hb Ha].
  rewrite zlen_cons in Hcap, Hch |- *. pose proof (zlen_nonneg a).
  rewrite http_run_step, http_step_line by (by eapply can_charge_le; [done|lia]).
  pose proof (line_char_not_end _ _ Hb) as [H13 H10].
  unfold line_step. fold (in_headers (charge ph 1)). rewrite in_headers_charge, Hb. decide_cmp.
  cbn [negb]. fold (line_cap (in_headers ph)). decide_cmp. cbn [go_on].
  assert (Hl : zlen (line ++ [b]) = zlen line + 1) by (by rewrite zlen_app).
  rewrite IH by (rewrite ?in_headers_charge, ?Hl; done || lia || by apply can_charge_charge).
  by rewrite after_after, charge_charge, <- app_assoc.
Qed.

(** A whole line. *)
Lemma run_line ph line rest malloc_ok :
  forallb (line_char (in_headers ph)) line = true -> zlen line <= line_cap (in_headers ph) ->
  can_charge ph (zlen line + 2) ->
  http_run (Machine ph [] false) (with_crlf line ++ rest) malloc_ok =
  after (zlen line + 2) (go_on (end_line (charge ph (zlen line + 2)) line malloc_ok) rest malloc_ok).
Proof.
  intros Hl Hcap Hch. unfold with_crlf, crlf. rewrite <- app_assoc. pose proof (zlen_nonneg line).
  rewrite run_chars by (done || lia || (eapply can_charge_le; [done|lia])). cbn [app].
  replace (zlen line + 2) with (zlen line + 1 + 1) in * by lia.
  rewrite http_run_step, http_step_line
    by (apply can_charge_charge; eapply can_charge_le; [done|lia]).
  unfold line_step at 1. cbn [Z.eqb Pos.eqb go_on].
  rewrite http_run_step, http_step_line
    by (rewrite charge_charge; by apply can_charge_charge).
  unfold line_step. cbn [Z.eqb Pos.eqb]. by rewrite !charge_charge, !after_after, !Z.add_assoc.
Qed.

Lemma zlen_with_crlf l : zlen (with_crlf l) = zlen l + 2.
Proof. unfold with_crlf. by rewrite zlen_app. Qed.

Lemma header_text_cons h hs : header_text (h :: hs) = with_crlf h ++ header_text hs.
Proof. done. Qed.

Lemma run_headers m t len block count hs len' rest malloc_ok :
  Forall header_text_ok hs -> headers_length len hs = Some len' ->
  block + zlen (header_text hs) <= CLOAK_HTTP_MAX_HEADER_BLOCK ->
  count + zlen hs <= CLOAK_HTTP_MAX_HEADERS ->
  http_run (Machine (InHeaders m t len block count) [] false) (header_text hs ++ rest) malloc_ok =
  after (zlen (header_text hs))
    (http_run (Machine (InHeaders m t len' (block + zlen (header_text hs)) (count + zlen hs)) [] false)
       rest malloc_ok).
Proof.
  intros Hok. revert len block count.
  induction Hok as [|h hs (Hne&Hf&Hch&Hlen) Hok IH]; intros len block count Hhl Hblk Hcnt.
  { injection Hhl as ->. change (zlen (header_text [])) with 0.
    change (zlen []) with 0. by rewrite after_0, !Z.add_0_r. }
  rewrite header_text_cons, zlen_app, zlen_with_crlf, zlen_cons in *.
  pose proof (zlen_nonneg (header_text hs)). pose proof (zlen_nonneg hs).
  rewrite <- app_assoc, run_line by (done || (cbn; lia)). cbn [charge end_line].
  rewrite bool_decide_eq_false_2, Hf by done. decide_cmp. cbn [headers_length] in Hhl.
  destruct (header_step len h) as [len2|]; [|done]. cbn [go_on].
  rewrite IH by (done || lia). rewrite after_after. by rewrite !Z.add_assoc.
Qed.

Lemma http_run_complete r len rest :
  http_request_ok r len ->
  http_run machine_init (http_encode r ++ rest) true =
  (zlen (http_encode r), Request (rq_token r) (rq_target r) len (rq_body r)).
Proof.
  intros [Hline [Hh Hc Hb Hl] Hbody].
  pose proof (zlen_nonneg (header_text (rq_headers r))).
  assert (Henc : zlen (http_encode r) = zlen (request_text (rq_token r) (rq_target r) (rq_version r)) + 2 +
    zlen (header_text (rq_headers r)) + 2 + zlen (rq_body r)).
  { unfold http_encode. rewrite !zlen_app, zlen_with_crlf. change (zlen crlf) with 2. lia. }
  rewrite Henc. unfold http_encode, machine_init. rewrite <- !app_assoc.
  rewrite run_line by apply Hline || done. cbn [charge end_line].
  rewrite request_line_text by done. cbn [go_on].
  rewrite (run_headers _ _ _ _ _ _ len) by (done || lia).
  change crlf with (with_crlf []).
  rewrite run_line by (done || (cbn; lia)). cbn [charge end_line].
  rewrite bool_decide_eq_true_2, !after_after, zlen_nil, Z.add_0_l by done.
  destruct len as [n|]; cbn [default from_option id] in Hbody.
  - destruct (Z.eqb_spec n 0) as [->|Hn].
    + rewrite Hbody, (zlen_zero _ Hbody). unfold after. cbn [fst snd go_on]. f_equal; lia.
    + cbn [go_on]. rewrite http_run_body by (rewrite ?zlen_nil; lia || (intros He; by rewrite He in Hbody)).
      rewrite zlen_nil, Z.add_0_l, Hbody, Z.eqb_refl. unfold after. cbn [fst snd app]. f_equal; lia.
  - rewrite Hbody, (zlen_zero _ Hbody). unfold after. cbn [fst snd go_on]. f_equal; lia.
Qed.

(** *** Nothing else is *)

Definition pending (cr : bool) : bytes := if cr then [13] else [].

(** What has been consumed in a state. *)
Definition consumed (pre : bytes) (s : http_machine) : Prop :=
  match m_phase s with
  | InRequestLine =>
      forallb (line_char false) (m_line s) = true /\
      zlen (m_line s) <= CLOAK_HTTP_MAX_REQUEST_LINE /\ pre = m_line s ++ pending (m_cr s)
  | InHeaders m t len block count =>
      exists v hs, head_line_ok m t v /\ Forall header_text_ok hs /\
        headers_length None hs = Some len /\ count = zlen hs /\ count <= CLOAK_HTTP_MAX_HEADERS /\
        block = zlen (header_text hs) + zlen (m_line s) + zlen (pending (m_cr s)) /\
        block <= CLOAK_HTTP_MAX_HEADER_BLOCK /\
        forallb (line_char true) (m_line s) = true /\
        zlen (m_line s) <= CLOAK_HTTP_MAX_HEADER_LINE /\
        pre = with_crlf (request_text m t v) ++ header_text hs ++ m_line s ++ pending (m_cr s)
  | InBody m t n body =>
      exists v hs, head_line_ok m t v /\ headers_ok hs (Some n) /\ zlen body < n /\
        pre = with_crlf (request_text m t v) ++ header_text hs ++ crlf ++ body
  end.

Definition sound_outcome (pre : bytes) (o : http_outcome) : Prop :=
  match o with
  | Reading s => consumed pre s
  | Request m t len body =>
      exists r, http_request_ok r len /\ pre = http_encode r /\
                m = rq_token r /\ t = rq_target r /\ body = rq_body r
  | Refused _ => True
  end.

Lemma request_line_inv line m t :
  request_line line = inl (m, t) ->
  forallb (line_char false) line = true -> zlen line <= CLOAK_HTTP_MAX_REQUEST_LINE ->
  exists v, line = request_text m t v /\ head_line_ok m t v.
Proof.
  unfold request_line. destruct (split_at 32 line) as [[m' r]|] eqn:E1; [|done].
  apply split_at_inv in E1 as [-> Hm]. destruct (bool_decide_reflect (m' = [])); [done|].
  destruct (split_at 32 r) as [[t' v]|] eqn:E2; [|done]. apply split_at_inv in E2 as [-> Ht].
  destruct (bool_decide_reflect (t' = [])); [done|].
  destruct (bool_decide_reflect (v ∈ versions)); [|done]. cbn [negb].
  destruct (Z.leb_spec CLOAK_HTTP_MAX_PATH (zlen t')); [done|].
  destruct (bool_decide_reflect (head t' = Some 47)); [|done].
  intros [= -> ->] Hc Hl. by exists v.
Qed.

Lemma headers_length_snoc len hs h :
  headers_length len (hs ++ [h]) =
  len' ← headers_length len hs; match header_step len' h with inl l => Some l | inr _ => None end.
Proof.
  revert len. induction hs as [|x hs IH]; intros len; cbn [app headers_length mbind option_bind].
  - by destruct (header_step len h).
  - by destruct (header_step len x).
Qed.

Lemma header_text_snoc hs h : header_text (hs ++ [h]) = header_text hs ++ with_crlf h.
Proof.
  unfold header_text. rewrite fmap_app, concat_app. f_equal. apply app_nil_r.
Qed.

Definition length_in_range (len : option Z) : Prop :=
  match len with Some n => 0 <= n <= CLOAK_HTTP_MAX_BODY | None => True end.

Lemma headers_length_range len hs len' :
  headers_length len hs = Some len' -> length_in_range len -> length_in_range len'.
Proof.
  revert len. induction hs as [|h hs IH]; intros len; cbn [headers_length]; [by intros [= ->]|].
  destruct (header_step len h) as [l|] eqn:E; [|done]. intros Hl Hr. apply (IH l); [done|].
  unfold header_step in E. destruct (header_line h) as [|n|] eqn:Eh; [by injection E as <-| |done].
  apply header_line_range in Eh. destruct len as [k|]; [|by injection E as <-].
  destruct (k =? n); [by injection E as <-|done].
Qed.

(** The end of a header line. *)
Lemma end_header_sound m t len block count line malloc_ok pre :
  consumed pre (Machine (InHeaders m t len block count) line true) ->
  block + 1 <= CLOAK_HTTP_MAX_HEADER_BLOCK ->
  sound_outcome (pre ++ [10]) (end_line (InHeaders m t len (block + 1) count) line malloc_ok).
Proof.
  intros (v&hs&Hl&Hok&Hlen&->&Hcnt&->&Hblk&Hch&Hcap&->) Hle. cbn [m_line m_cr pending] in *.
  change (zlen [13]) with 1 in *. rewrite <- !app_assoc. cbn [app end_line].
  destruct (bool_decide_reflect (line = [])) as [->|Hne].
  - assert (Hho : headers_ok hs len) by (split; try done; rewrite zlen_nil in *; lia).
    assert (Hreq : default 0 len = 0 ->
      sound_outcome (with_crlf (request_text m t v) ++ header_text hs ++ crlf) (Request m t len [])).
    { intros Hd. exists (HttpReq m t v hs []). split; [by split|]. split; [|done].
      done. }
    destruct len as [n|]; [|by apply Hreq].
    destruct (Z.eqb_spec n 0) as [->|Hn]; [by apply Hreq|]. destruct malloc_ok; [|done].
    exists v, hs. split_and!; try done. rewrite zlen_nil.
    pose proof (headers_length_range _ _ _ Hlen I) as Hr. cbn [length_in_range] in Hr. lia.
  - destruct (folded line) eqn:Hf; [done|].
    destruct (Z.ltb_spec CLOAK_HTTP_MAX_HEADERS (zlen hs + 1)) as [|Hmax]; [done|].
    destruct (header_step len line) as [len'|] eqn:Hs; [|done].
    exists v, (hs ++ [line]). cbn [m_line m_cr pending]. rewrite header_text_snoc, !zlen_app, zlen_with_crlf.
    change (zlen [line]) with 1. rewrite zlen_nil. split_and!; try done; try lia.
    + apply Forall_app. split; [done|]. by repeat constructor.
    + rewrite headers_length_snoc, Hlen. cbn [mbind option_bind]. by rewrite Hs.
    + unfold with_crlf, crlf. by rewrite <- !app_assoc.
Qed.

Lemma forallb_snoc {A} (f : A -> bool) l x : forallb f (l ++ [x]) = forallb f l && f x.
Proof. rewrite forallb_app. cbn. by rewrite andb_true_r. Qed.

(** Another byte of a line. *)
Lemma grow_line_sound headers line b :
  line_char headers b = true -> zlen line < line_cap headers ->
  forallb (line_char headers) line = true ->
  forallb (line_char headers) (line ++ [b]) = true /\ zlen (line ++ [b]) <= line_cap headers.
Proof.
  intros Hb Hlt Hl. rewrite forallb_snoc, Hl, Hb. split; [done|].
  rewrite zlen_app. change (zlen [b]) with 1. lia.
Qed.

Lemma http_step_sound pre s b malloc_ok :
  consumed pre s -> sound_outcome (pre ++ [b]) (http_step s b malloc_ok).
Proof.
  destruct s as [[|m t len block count|m t n body] line cr]; intros Hc.
  - cbn [http_step m_phase m_line m_cr]. unfold line_step. cbn iota.
    destruct Hc as (Hch&Hcap&->). cbn [m_line m_cr] in *. destruct cr; cbn [pending].
    + destruct (Z.eqb_spec b 10) as [->|]; [|done]. cbn [end_line].
      destruct (request_line line) as [[m t]|] eqn:E; [|done].
      apply request_line_inv in E as (v&->&Hok); [|done..].
      exists v, []. cbn [m_line m_cr pending]. split_and!; try done.
      change (header_text [] ++ [] ++ []) with (@nil Z). unfold with_crlf, crlf.
      by rewrite app_nil_r, <- !app_assoc.
    + rewrite app_nil_r. destruct (Z.eqb_spec b 13) as [->|]; [done|].
      destruct (b =? 10); [done|]. destruct (line_char false b) eqn:Hb; [|done]. cbn [negb].
      destruct (Z.leb_spec CLOAK_HTTP_MAX_REQUEST_LINE (zlen line)) as [|Hlt]; [done|].
      destruct (grow_line_sound false line b) as [H1 H2]; try done.
      split_and!; [done|done|]. cbn. by rewrite app_nil_r.
  - cbn [http_step m_phase m_line m_cr].
    destruct (Z.ltb_spec CLOAK_HTTP_MAX_HEADER_BLOCK (block + 1)) as [|Hle]; [done|].
    unfold line_step. cbn iota. destruct cr.
    + destruct (Z.eqb_spec b 10) as [->|]; [|done]. by apply end_header_sound.
    + destruct Hc as (v&hs&Hl&Hok&Hlen&->&Hcnt&Heq&Hblk&Hch&Hcap&->).
      cbn [m_line m_cr pending] in *. subst block.
      rewrite app_nil_r, zlen_nil in *. rewrite <- !app_assoc.
      destruct (Z.eqb_spec b 13) as [->|].
      { exists v, hs. cbn [m_line m_cr pending]. change (zlen [13]) with 1. split_and!; done || lia. }
      destruct (b =? 10); [done|]. destruct (line_char true b) eqn:Hb; [|done]. cbn [negb].
      destruct (Z.leb_spec CLOAK_HTTP_MAX_HEADER_LINE (zlen line)) as [|Hlt]; [done|].
      destruct (grow_line_sound true line b) as [H1 H2]; try done.
      exists v, hs. cbn [m_line m_cr pending]. change (zlen []) with 0.
      assert (Hlen1 : zlen (line ++ [b]) = zlen line + 1) by (by rewrite zlen_app).
      split_and!; try done; try lia. by rewrite (app_nil_r (line ++ [b])).
  - destruct Hc as (v&hs&Hl&Hok&Hlt&->). cbn [http_step m_phase m_line m_cr].
      assert (Happ : (with_crlf (request_text m t v) ++ header_text hs ++ crlf ++ body) ++ [b] =
      with_crlf (request_text m t v) ++ header_text hs ++ crlf ++ (body ++ [b]))
      by (by rewrite <- !app_assoc).
    rewrite Happ. destruct (Z.eqb_spec (zlen (body ++ [b])) n) as [He|He].
    + exists (HttpReq m t v hs (body ++ [b])). by split.
    + exists v, hs. rewrite zlen_app in *. change (zlen [b]) with 1 in *. split_and!; try done; lia.
Qed.

Lemma http_run_sound pre s data malloc_ok :
  consumed pre s ->
  exists used rest, data = used ++ rest /\ zlen used = (http_run s data malloc_ok).1 /\
    sound_outcome (pre ++ used) (http_run s data malloc_ok).2 /\
    (match (http_run s data malloc_ok).2 with Reading _ => rest = [] | _ => True end).
Proof.
  revert pre s. induction data as [|b data IH]; intros pre s Hc.
  { exists [], []. split_and!; try done. cbn. by rewrite (app_nil_r pre). }
  rewrite http_run_step. pose proof (http_step_sound pre s b malloc_ok Hc) as Hs.
  destruct (http_step s b malloc_ok) as [s'| |]; cbn [go_on after fst snd].
  - destruct (IH _ _ Hs) as (used&rest&->&Hu&Ho&Hr). exists (b :: used), rest.
    rewrite <- app_assoc in Ho. by rewrite zlen_cons, Hu.
  - by exists [b], data.
  - by exists [b], data.
Qed.

(** *** Exactness *)

(** The request that a parser reports. *)
Definition reports (p : cloak_http_parser_t) (r : http_request) (len : option Z) : Prop :=
  outcome_rep p (Request (rq_token r) (rq_target r) len (rq_body r)).

(** C33: exactness.  When its allocations succeed the server reads exactly the
    requests of the grammar, however their bytes are cut into pieces: a
    connection is answered with DONE if and only if it starts with the encoding
    of a well-formed request; the parser has then consumed that encoding and
    nothing behind it, and reports its method, target, declared length and
    body.  It asks for more only after consuming everything, and what it
    refuses no further bytes could have turned into a request. *)
Theorem http_requests_exact chunks :
  Forall (fun c => zlen c <= SIZE_MAX) chunks ->
  exists n p, feed_all cloak_http_parser_init chunks true = Some (n, p) /\
    (hp_state p = CLOAK_HTTP_DONE <->
       exists r len rest, http_request_ok r len /\ concat chunks = http_encode r ++ rest) /\
    (forall r len rest, http_request_ok r len -> concat chunks = http_encode r ++ rest ->
       n = zlen (http_encode r) /\ reports p r len) /\
    (hp_state p = CLOAK_HTTP_INCOMPLETE -> n = zlen (concat chunks)) /\
    (hp_state p = CLOAK_HTTP_ERROR -> forall ext r len rest,
       http_request_ok r len -> concat chunks ++ ext <> http_encode r ++ rest).
Proof.
  intros Hc. destruct (feed_all_rep _ _ chunks true http_init_rep Hc) as (p&Hf&Ho).
  destruct (http_run_sound [] machine_init (concat chunks) true) as (used&rest&He&Hu&Hs&Hr).
  { by repeat split. }
  assert (Hcomp : forall r len rest, http_request_ok r len -> concat chunks = http_encode r ++ rest ->
    http_run machine_init (concat chunks) true =
    (zlen (http_encode r), Request (rq_token r) (rq_target r) len (rq_body r))).
  { intros r len rest' Hok ->. by apply http_run_complete. }
  destruct (http_run machine_init (concat chunks) true) as [n o] eqn:Erun.
  cbn [fst snd app] in *. exists n, p. split; [done|]. split_and!.
  - split.
    + intros Hd. destruct o as [s|m t len body|s]; [by rewrite (hr_state _ _ Ho) in Hd| |].
      * destruct Hs as (r&Hok&->&_). by exists r, len, rest.
      * destruct Ho as [Hst _]. by rewrite Hst in Hd.
    + intros (r&len&rest'&Hok&Henc). injection (Hcomp _ _ _ Hok Henc) as -> ->. apply Ho.
  - intros r len rest' Hok Henc. by injection (Hcomp _ _ _ Hok Henc) as -> ->.
  - intros Hd. destruct o as [s|m t len body|s]; [|destruct Ho as [Hst _]; by rewrite Hst in Hd..].
    rewrite He, Hr, app_nil_r. done.
  - intros Hd ext r len rest' Hok Henc. pose proof (http_run_complete r len rest' Hok) as Hrun.
    rewrite <- Henc, http_run_app, Erun in Hrun. cbn [fst snd] in Hrun.
    destruct o as [s|m t len' body|s]; [by rewrite (hr_state _ _ Ho) in Hd| |done].
    destruct Ho as [Hst _]. by rewrite Hst in Hd.
Qed.

(** *** A request in three pieces *)

Definition demo_request : http_request :=
  HttpReq (c_string "POST") (c_string "/admin/users") (c_string "HTTP/1.1")
    [c_string "Host: a"; c_string "Content-Length: 3"] (c_string "abc").

Definition demo_pieces : list bytes :=
  [take 7 (http_encode demo_request); []; drop 7 (http_encode demo_request) ++ c_string "GET"].

Lemma demo_request_ok : http_request_ok demo_request (Some 3).
Proof.
  split; [split|split|done]; try done.
  - split; [done|]. unfold no_space. by repeat constructor.
  - split_and!; [done| |done]. unfold no_space. by repeat constructor.
  - constructor.
  - by repeat constructor.
Qed.

Lemma demo_pieces_small : Forall (fun c => zlen c <= SIZE_MAX) demo_pieces.
Proof. by repeat constructor. Qed.

Example http_feed_example :
  (fun '(n, p) => (n, hp_state p, hq_method (hp_req p), hq_body (hp_req p))) <$>
    feed_all cloak_http_parser_init demo_pieces true =
  Some (zlen (http_encode demo_request), CLOAK_HTTP_DONE, CLOAK_HTTP_METHOD_POST,
        Some (c_string "abc")).
Proof. vm_compute. reflexivity. Qed.

Lemma http_parser_refines_machine_witness :
  exists p, feed_all cloak_http_parser_init demo_pieces true =
    Some ((http_run machine_init (concat demo_pieces) true).1, p) /\
    outcome_rep p (http_run machine_init (concat demo_pieces) true).2.
Proof. apply (http_parser_refines_machine demo_pieces true). exact demo_pieces_small. Defined.

Lemma http_requests_exact_witness :
  exists n p, feed_all cloak_http_parser_init demo_pieces true = Some (n, p) /\
    n = zlen (http_encode demo_request) /\ reports p demo_request (Some 3).
Proof.
  destruct (http_requests_exact demo_pieces demo_pieces_small) as (n&p&Hf&_&Hr&_).
  exists n, p. split; [exact Hf|].
  apply (Hr _ _ (c_string "GET")); [exact demo_request_ok|vm_compute; reflexivity].
Defined.
