(* ===== verification/ReactorApi.v ===== *)
(** * What an event loop promises its users ([libcloak-common/include/cloak/reactor.h])

    The drivers of connections use the reactor through five calls, and the
    reactor calls them back when a descriptor is ready or a timer is due.
    [Reactor] names the calls and the two observations that matter to a user,
    [ReactorLaws] is the contract: a user's theorems are proved against it,
    and [ReactorInst] shows that reactor.c keeps it. *)
From S2P Require Import Prelude.

Definition CLOAK_REACTOR_READABLE : Z := 1.
Definition CLOAK_REACTOR_WRITABLE : Z := 2.
Definition CLOAK_TIMER_INVALID : Z := 0.

Class Reactor (R : Type) := {
  (** return value (0 or -1) and the reactor behind the call *)
  r_add_fd : R -> Z -> Z -> Z * R;
  r_mod_fd : R -> Z -> Z -> Z * R;
  r_remove_fd : R -> Z -> R;
  (** the identifier, or [CLOAK_TIMER_INVALID] *)
  r_add_timer : R -> Z -> Z * R;
  r_cancel_timer : R -> Z -> R;
  (** the loop takes the earliest timer off, if it is due, before it calls back *)
  r_fire : R -> option (Z * R);
  (** the mask that the descriptor is watched for, when a callback is installed *)
  interest_in : R -> Z -> option Z;
  (** the timer will fire unless it is cancelled *)
  armed : R -> Z -> Prop;
  (** the identifier was given out, and will not be given out again *)
  spent : R -> Z -> Prop;
  (** the representation invariant *)
  reactor_ok : R -> Prop
}.

Section laws.
Context {R : Type} `{Reactor R}.

Definition watching (r : R) (fd : Z) : Prop := is_Some (interest_in r fd).

(** Nothing but the watch on [fd], or the timer [id], differs. *)
Definition same_watches (r r' : R) : Prop := forall f, interest_in r' f = interest_in r f.
Definition same_watched (r r' : R) : Prop := forall f, watching r' f <-> watching r f.
Definition same_timers (r r' : R) : Prop := forall i, armed r' i <-> armed r i.

Inductive reactor_call (r : R) : R -> Prop :=
| call_add_fd fd ev : reactor_call r (r_add_fd r fd ev).2
| call_mod_fd fd ev : reactor_call r (r_mod_fd r fd ev).2
| call_remove_fd fd : reactor_call r (r_remove_fd r fd)
| call_add_timer delay : reactor_call r (r_add_timer r delay).2
| call_cancel_timer id : reactor_call r (r_cancel_timer r id)
| call_fire id r' : r_fire r = Some (id, r') -> reactor_call r r'.

Class ReactorLaws : Prop := {
  add_fd_law r fd ev v r' :
    reactor_ok r -> r_add_fd r fd ev = (v, r') ->
    reactor_ok r' /\ same_timers r r' /\
    if v =? 0
    then interest_in r fd = None /\ interest_in r' fd = Some (Z.land ev 3) /\
         forall f, f <> fd -> interest_in r' f = interest_in r f
    else same_watches r r';
  mod_fd_law r fd ev v r' :
    reactor_ok r -> r_mod_fd r fd ev = (v, r') ->
    reactor_ok r' /\ same_timers r r' /\
    if v =? 0
    then watching r fd /\ interest_in r' fd = Some (Z.land ev 3) /\
         forall f, f <> fd -> interest_in r' f = interest_in r f
    else same_watches r r';
  remove_fd_law r fd :
    reactor_ok r ->
    reactor_ok (r_remove_fd r fd) /\ same_timers r (r_remove_fd r fd) /\
    interest_in (r_remove_fd r fd) fd = None /\
    forall f, f <> fd -> interest_in (r_remove_fd r fd) f = interest_in r f;
  add_timer_law r delay id r' :
    reactor_ok r -> r_add_timer r delay = (id, r') ->
    reactor_ok r' /\ same_watches r r' /\
    if id =? CLOAK_TIMER_INVALID then same_timers r r'
    else ~ armed r id /\ forall i, armed r' i <-> i = id \/ armed r i;
  cancel_timer_law r id :
    reactor_ok r ->
    reactor_ok (r_cancel_timer r id) /\ same_watches r (r_cancel_timer r id) /\
    forall i, armed (r_cancel_timer r id) i <-> i <> id /\ armed r i;
  fire_law r id r' :
    reactor_ok r -> r_fire r = Some (id, r') ->
    reactor_ok r' /\ same_watches r r' /\ armed r id /\
    forall i, armed r' i <-> i <> id /\ armed r i;
  armed_valid r id : reactor_ok r -> armed r id -> id <> CLOAK_TIMER_INVALID;
  armed_spent r id : reactor_ok r -> armed r id -> spent r id;
  new_timer_law r delay id r' :
    reactor_ok r -> r_add_timer r delay = (id, r') -> id <> CLOAK_TIMER_INVALID -> ~ spent r id;
  spent_law r r' id : reactor_ok r -> reactor_call r r' -> spent r id -> spent r' id
}.

(** ** Watches, without their masks *)

Lemma same_watches_watched r r' : same_watches r r' -> same_watched r r'.
Proof. intros Hs f. unfold watching. by rewrite Hs. Qed.

Lemma add_fd_watching `{!ReactorLaws} r fd ev v r' :
  reactor_ok r -> r_add_fd r fd ev = (v, r') ->
  if v =? 0 then ~ watching r fd /\ forall f, watching r' f <-> f = fd \/ watching r f
  else same_watched r r'.
Proof.
  intros Hok E. destruct (add_fd_law _ _ _ _ _ Hok E) as (_&_&Hw). unfold watching. destruct (v =? 0).
  - destruct Hw as (Hn&Hs&Hf). rewrite Hn. split; [by intros [? ?]|]. intros f.
    destruct (decide (f = fd)) as [->|Hne]; [rewrite Hs; split; [by left|by eexists]|].
    rewrite Hf by done. split; [by right|by intros [?|?]].
  - by apply same_watches_watched.
Qed.

Lemma mod_fd_watching `{!ReactorLaws} r fd ev v r' :
  reactor_ok r -> r_mod_fd r fd ev = (v, r') -> same_watched r r'.
Proof.
  intros Hok E f. destruct (mod_fd_law _ _ _ _ _ Hok E) as (_&_&Hw). unfold watching in *. destruct (v =? 0).
  - destruct Hw as (Hi&Hs&Hf). destruct (decide (f = fd)) as [->|Hne]; [|by rewrite Hf].
    rewrite Hs. split; [done|by eexists].
  - by rewrite (Hw f).
Qed.

Lemma remove_fd_watching `{!ReactorLaws} r fd f :
  reactor_ok r -> watching (r_remove_fd r fd) f <-> f <> fd /\ watching r f.
Proof.
  intros Hok. destruct (remove_fd_law r fd Hok) as (_&_&Hn&Hf). unfold watching.
  destruct (decide (f = fd)) as [->|Hne]; [rewrite Hn|rewrite Hf by done].
  - split; [by intros [? ?]|by intros [? _]].
  - split; [done|by intros [_ ?]].
Qed.

(** The descriptors of [l] are no longer watched, every other one is watched as before. *)
Definition unwatched (l : list Z) (r r' : R) : Prop :=
  forall f, (f ∈ l -> interest_in r' f = None) /\ (f ∉ l -> interest_in r' f = interest_in r f).

Lemma unwatched_watching l r r' f : unwatched l r r' -> watching r' f <-> watching r f /\ (f ∉ l).
Proof.
  intros Hu. destruct (Hu f) as [Hin Hout]. unfold watching. destruct (decide (f ∈ l)) as [Hf|Hf].
  - rewrite (Hin Hf). split; [by intros [? ?]|by intros [_ []]].
  - rewrite (Hout Hf). tauto.
Qed.

Lemma unwatched_nil r r' : same_watches r r' -> unwatched [] r r'.
Proof. intros Hs f. split; [by intros ?%not_elem_of_nil|intros _; apply Hs]. Qed.

Lemma unwatched_remove `{!ReactorLaws} fd l r r' :
  reactor_ok r -> unwatched l (r_remove_fd r fd) r' -> unwatched (fd :: l) r r'.
Proof.
  intros Hok Hu f. destruct (remove_fd_law r fd Hok) as (_&_&Hn&Hf), (Hu f) as [Hin Hout].
  rewrite elem_of_cons. split.
  - intros Hf'. destruct (decide (f ∈ l)) as [|Hl]; [by apply Hin|]. destruct Hf' as [->|]; [|done]. by rewrite Hout.
  - intros [Hne Hl]%Decidable.not_or. rewrite Hout by done. by apply Hf.
Qed.

Lemma same_unwatched l r1 r2 r3 : same_watches r1 r2 -> unwatched l r2 r3 -> unwatched l r1 r3.
Proof. intros Hs Hu f. destruct (Hu f) as [Hin Hout]. split; [done|]. intros Hf. rewrite Hout by done. apply Hs. Qed.

(** The kernel takes every new mask for a watched descriptor. *)
Definition mod_reliable : Prop :=
  forall r fd ev, reactor_ok r -> watching r fd -> (r_mod_fd r fd ev).1 = 0.

(** Since [r], only new identifiers were armed. *)
Definition aged (r r' : R) : Prop :=
  (forall i, armed r' i -> armed r i \/ ~ spent r i) /\ (forall i, spent r i -> spent r' i).

Lemma aged_refl r : aged r r.
Proof. split; auto. Qed.

Lemma aged_trans r1 r2 r3 : aged r1 r2 -> aged r2 r3 -> aged r1 r3.
Proof. intros [A1 S1] [A2 S2]. split; [|by auto]. intros i [Hi|Hn]%A2; [by apply A1|]. right. auto. Qed.

Lemma aged_call `{!ReactorLaws} r r' : reactor_ok r -> reactor_call r r' -> aged r r'.
Proof.
  intros Hok Hcall. split; [|by intros i; apply spent_law].
  destruct Hcall as [fd ev|fd ev|fd|delay|i|i r' Hf].
  - destruct (r_add_fd r fd ev) as [v r'] eqn:E. destruct (add_fd_law _ _ _ _ _ Hok E) as (_&Hs&_). intros i. rewrite (Hs i). by left.
  - destruct (r_mod_fd r fd ev) as [v r'] eqn:E. destruct (mod_fd_law _ _ _ _ _ Hok E) as (_&Hs&_). intros i. rewrite (Hs i). by left.
  - destruct (remove_fd_law r fd Hok) as (_&Hs&_). intros i. rewrite (Hs i). by left.
  - destruct (r_add_timer r delay) as [id r'] eqn:E. destruct (add_timer_law _ _ _ _ Hok E) as (_&_&Hs).
    destruct (Z.eqb_spec id CLOAK_TIMER_INVALID) as [|Hne]; [intros i; rewrite (Hs i); by left|].
    intros i Hi. apply (proj2 Hs) in Hi as [->|]; [right; by eapply new_timer_law|by left].
  - destruct (cancel_timer_law r i Hok) as (_&_&Hs). intros j Hj. apply Hs in Hj as [_ ?]. by left.
  - destruct (fire_law _ _ _ Hok Hf) as (_&_&_&Hs). intros j Hj. apply Hs in Hj as [_ ?]. by left.
Qed.

Lemma aged_add_timer `{!ReactorLaws} r delay id r' : reactor_ok r -> r_add_timer r delay = (id, r') -> aged r r'.
Proof. intros Hok E. replace r' with (r_add_timer r delay).2 by (by rewrite E). by apply aged_call; [|constructor]. Qed.

End laws.

#[export] Hint Resolve aged_refl : core.
#[global] Arguments ReactorLaws R {_}.
#[global] Arguments reactor_call {R _} _ _.

(** ** A small reactor, for the witnesses: it never refuses. *)

Record reactor_lists := ReactorLists { rl_fds : list (Z * Z); rl_timers : list Z; rl_next : Z }.

(** The mask of a descriptor in such a list, and the list with another one. *)
Fixpoint mask_of (l : list (Z * Z)) (fd : Z) : option Z :=
  match l with [] => None | (f, ev) :: l' => if f =? fd then Some ev else mask_of l' fd end.
Definition unlisted (fd : Z) (l : list (Z * Z)) : list (Z * Z) := filter (fun x => x.1 <> fd) l.
Definition remask (fd ev : Z) (l : list (Z * Z)) : list (Z * Z) := (fd, Z.land ev 3) :: unlisted fd l.

Definition without (x : Z) (l : list Z) : list Z := filter (fun y => y <> x) l.

#[export] Instance reactor_lists_reactor : Reactor reactor_lists := {|
  r_add_fd r fd ev :=
    match mask_of (rl_fds r) fd with
    | Some _ => (-1, r)
    | None => (0, ReactorLists (remask fd ev (rl_fds r)) (rl_timers r) (rl_next r))
    end;
  r_mod_fd r fd ev :=
    match mask_of (rl_fds r) fd with
    | Some _ => (0, ReactorLists (remask fd ev (rl_fds r)) (rl_timers r) (rl_next r))
    | None => (-1, r)
    end;
  r_remove_fd r fd := ReactorLists (unlisted fd (rl_fds r)) (rl_timers r) (rl_next r);
  r_add_timer r _ := (rl_next r, ReactorLists (rl_fds r) (rl_next r :: rl_timers r) (rl_next r + 1));
  r_cancel_timer r id := ReactorLists (rl_fds r) (without id (rl_timers r)) (rl_next r);
  r_fire r :=
    match rl_timers r with
    | [] => None
    | id :: _ => Some (id, ReactorLists (rl_fds r) (without id (rl_timers r)) (rl_next r))
    end;
  interest_in r fd := mask_of (rl_fds r) fd;
  armed r id := id ∈ rl_timers r;
  spent r id := id < rl_next r;
  reactor_ok r := 0 < rl_next r /\ Forall (fun id => 0 < id < rl_next r) (rl_timers r)
|}.

Lemma elem_of_without x y l : y ∈ without x l <-> y <> x /\ y ∈ l.
Proof. unfold without. by rewrite list_elem_of_filter. Qed.

Lemma without_Forall P x l : Forall P l -> Forall P (without x l).
Proof. rewrite !Forall_forall. intros H y [_ Hy]%elem_of_without. auto. Qed.

Lemma mask_of_unlisted fd f l : mask_of (unlisted fd l) f = if f =? fd then None else mask_of l f.
Proof.
  unfold unlisted. induction l as [|[g ev] l IH]; [by destruct (f =? fd)|]. destruct (decide (g = fd)) as [->|Hne].
  - rewrite filter_cons_False by (cbn; tauto). rewrite IH. cbn. rewrite (Z.eqb_sym fd f). by destruct (f =? fd).
  - rewrite filter_cons_True by done. cbn. rewrite IH. destruct (Z.eqb_spec g f) as [->|]; [|done].
    by rewrite (proj2 (Z.eqb_neq _ _) Hne).
Qed.

Lemma mask_of_remask fd ev f l : mask_of (remask fd ev l) f = if f =? fd then Some (Z.land ev 3) else mask_of l f.
Proof. cbn. rewrite mask_of_unlisted, (Z.eqb_sym fd f). by destruct (f =? fd). Qed.

#[export] Instance reactor_lists_laws : ReactorLaws reactor_lists.
Proof.
  split; unfold same_watches, watching; cbn.
  - intros r fd ev v r' Hok. destruct (mask_of (rl_fds r) fd) eqn:E; intros [= <- <-]; [done|].
    split; [exact Hok|]. split; [done|]. split; [done|]. cbn [rl_fds]. split; [by rewrite mask_of_remask, Z.eqb_refl|].
    intros f Hf. by rewrite mask_of_remask, (proj2 (Z.eqb_neq _ _) Hf).
  - intros r fd ev v r' Hok. destruct (mask_of (rl_fds r) fd) eqn:E; intros [= <- <-]; [|done].
    split; [exact Hok|]. split; [done|]. split; [by eexists|]. cbn [rl_fds]. split; [by rewrite mask_of_remask, Z.eqb_refl|].
    intros f Hf. by rewrite mask_of_remask, (proj2 (Z.eqb_neq _ _) Hf).
  - intros r fd Hok. split; [done|]. split; [done|]. split; [by rewrite mask_of_unlisted, Z.eqb_refl|].
    intros f Hf. by rewrite mask_of_unlisted, (proj2 (Z.eqb_neq _ _) Hf).
  - intros r delay id r' [Hn Ht] [= <- <-]. cbn. split; [split; [lia|]|split; [done|]].
    + apply Forall_cons. split; [lia|]. eapply Forall_impl; [exact Ht|]. cbn. lia.
    + rewrite (proj2 (Z.eqb_neq _ _)) by (unfold CLOAK_TIMER_INVALID; lia). split.
      * intros Hin. rewrite Forall_forall in Ht. specialize (Ht _ Hin). lia.
      * intros i. apply elem_of_cons.
  - intros r id [Hn Ht]. split; [split; [done|by apply without_Forall]|]. split; [done|].
    intros i. apply elem_of_without.
  - intros r id r' [Hn Ht]. destruct (rl_timers r) as [|id' l] eqn:Hl; [done|]. intros [= -> <-].
    split; [split; [done|by apply (without_Forall _ id (id :: l))]|]. split; [done|].
    split; [by left|]. intros i. apply (elem_of_without id i (id :: l)).
  - intros r id [Hn Ht] Hin. rewrite Forall_forall in Ht. specialize (Ht _ Hin).
    unfold CLOAK_TIMER_INVALID. lia.
  - intros r id [_ Ht] Hin. rewrite Forall_forall in Ht. specialize (Ht _ Hin). lia.
  - intros r delay id r' _ [= <- _] _. lia.
  - intros r r' id _ Hcall. destruct Hcall as [fd ev|fd ev|fd|delay|i|i r' Hf]; cbn; try lia.
    + by destruct (mask_of _ _).
    + by destruct (mask_of _ _).
    + cbn in Hf. destruct (rl_timers r); [done|]. by injection Hf as _ <-.
Qed.

Lemma reactor_lists_reliable : mod_reliable (R := reactor_lists).
Proof. intros r fd ev _ [m Hm]. cbn in *. by rewrite Hm. Qed.
