(* ===== verification/TimerHeap.v ===== *)
(** * The timers of the event loop ([libcloak-common/src/reactor.c])

    A timer lives in a binary min-heap on its deadline and owns a slot of a
    second table.  Its handle names the slot and the slot's generation, and the
    slot knows where in the heap the timer is, so that cancelling is a lookup
    and not a search.  The record [timer_state] holds the fields of
    [struct cloak_reactor] that the timer functions use; the arrays are
    modelled by their initialised prefixes ([timer_count], [slots_count]), so
    that reading beyond them is [None], with their capacities beside them.
    The result of a [realloc] is the argument [mem_ok]. *)
From S2P Require Import Prelude Fallible HeapOrder ReactorApi.

Definition TIMER_SLOT_BITS : Z := 20.
Definition TIMER_SLOT_MASK : Z := u64 (Z.shiftl 1 TIMER_SLOT_BITS) - 1.
Definition TIMER_MAX_SLOTS : Z := TIMER_SLOT_MASK.
Definition TIMER_GEN_MAX : Z := u64 (Z.shiftl 1 (64 - TIMER_SLOT_BITS)) - 1.
Definition TIMER_NO_SLOT : Z := 4294967295.

(** A callback is the address of its code, 0 for NULL. *)
Record timer_entry := TimerEntry {
  deadline_ms : Z;
  te_id : Z;
  te_slot : Z;
  te_cb : Z;
  te_userdata : Z
}.

Record timer_slot := TimerSlot {
  heap_pos : Z;
  gen : Z;
  next_free : Z;
  in_use : Z
}.

Record timer_state := Timers {
  timers : list timer_entry;
  timer_cap : Z;
  slots : list timer_slot;
  slots_cap : Z;
  free_slot : Z;
  cancel_probe_steps : Z
}.

Definition timer_count (q : timer_state) : Z := zlen (timers q).
Definition slots_count (q : timer_state) : Z := zlen (slots q).

Definition with_timers (q : timer_state) (t : list timer_entry) : timer_state :=
  Timers t (timer_cap q) (slots q) (slots_cap q) (free_slot q) (cancel_probe_steps q).
Definition with_timer_cap (q : timer_state) (c : Z) : timer_state :=
  Timers (timers q) c (slots q) (slots_cap q) (free_slot q) (cancel_probe_steps q).
Definition with_slots (q : timer_state) (s : list timer_slot) : timer_state :=
  Timers (timers q) (timer_cap q) s (slots_cap q) (free_slot q) (cancel_probe_steps q).
Definition with_slots_cap (q : timer_state) (c : Z) : timer_state :=
  Timers (timers q) (timer_cap q) (slots q) c (free_slot q) (cancel_probe_steps q).
Definition with_free_slot (q : timer_state) (s : Z) : timer_state :=
  Timers (timers q) (timer_cap q) (slots q) (slots_cap q) s (cancel_probe_steps q).
Definition with_probes (q : timer_state) (n : Z) : timer_state :=
  Timers (timers q) (timer_cap q) (slots q) (slots_cap q) (free_slot q) n.

(** ** Moving entries *)

Definition timer_place (q : timer_state) (i : Z) (e : timer_entry) : option timer_state :=
  t ← mem_set (timers q) i e;
  s ← (slots q).[te_slot e];
  sl ← mem_set (slots q) (te_slot e) (TimerSlot i (gen s) (next_free s) (in_use s));
  Some (with_slots (with_timers q t) sl).

(** The loop of [heap_sift_up]: the place found for [e] and the moves made. *)
Fixpoint sift_up_loop (fuel : nat) (q : timer_state) (e : timer_entry) (i moves : Z)
    : option (Z * Z * timer_state) :=
  if 0 <? i then
    match fuel with
    | O => None
    | S fuel' =>
        let parent := (i - 1) / 2 in
        p ← (timers q).[parent];
        if deadline_ms p <=? deadline_ms e then Some (i, moves, q)
        else q' ← timer_place q i p; sift_up_loop fuel' q' e parent (u64 (moves + 1))
    end
  else Some (i, moves, q).

Definition heap_sift_up (q : timer_state) (i : Z) : option (Z * timer_state) :=
  e ← (timers q).[i];
  '(j, moves, q1) ← sift_up_loop (length (timers q)) q e i 0;
  q2 ← timer_place q1 j e;
  Some (moves, q2).

(** The loop of [heap_sift_down]. *)
Fixpoint sift_down_loop (fuel : nat) (q : timer_state) (e : timer_entry) (i moves : Z)
    : option (Z * Z * timer_state) :=
  match fuel with
  | O => None
  | S fuel' =>
      let left := u64 (2 * i + 1) in
      let right := u64 (2 * i + 2) in
      if timer_count q <=? left then Some (i, moves, q)
      else
        l ← (timers q).[left];
        smallest ← (if right <? timer_count q then
                      r ← (timers q).[right];
                      Some (if deadline_ms r <? deadline_ms l then right else left)
                    else Some left);
        s ← (timers q).[smallest];
        if deadline_ms e <=? deadline_ms s then Some (i, moves, q)
        else q' ← timer_place q i s; sift_down_loop fuel' q' e smallest (u64 (moves + 1))
  end.

Definition heap_sift_down (q : timer_state) (i : Z) : option (Z * timer_state) :=
  e ← (timers q).[i];
  '(j, moves, q1) ← sift_down_loop (length (timers q)) q e i 0;
  q2 ← timer_place q1 j e;
  Some (moves, q2).

(** Removes the entry at [pos]; how many entries were moved.  The last entry is
    read before the prefix shrinks. *)
Definition heap_remove_at (q : timer_state) (pos : Z) : option (Z * timer_state) :=
  let last := u64 (timer_count q - 1) in
  moved ← (timers q).[last];
  let q := with_timers q (take (Z.to_nat last) (timers q)) in
  if pos =? last then Some (0, q)
  else
    q1 ← timer_place q pos moved;
    '(moves, q2) ← heap_sift_down q1 pos;
    '(moves, q3) ← (if moves =? 0 then heap_sift_up q2 pos else Some (moves, q2));
    Some (u64 (moves + 1), q3).

(** ** Slots *)

(** The slot, or -1 ([malformed]) when there is none. *)
Definition timer_slot_alloc (q : timer_state) (mem_ok : bool)
    : option (option (Z * timer_state)) :=
  if negb (free_slot q =? TIMER_NO_SLOT) then
    let s := free_slot q in
    sl ← (slots q).[s];
    sls ← mem_set (slots q) s (TimerSlot (heap_pos sl) (gen sl) TIMER_NO_SLOT 1);
    Some (Some (s, with_slots (with_free_slot q (next_free sl)) sls))
  else if TIMER_MAX_SLOTS <=? slots_count q then malformed
  else
    let! q := (if slots_count q =? slots_cap q then
                 let new_cap := if slots_cap q =? 0 then 8 else u64 (slots_cap q * 2) in
                 let new_cap := if TIMER_MAX_SLOTS <? new_cap then TIMER_MAX_SLOTS else new_cap in
                 if mem_ok then ok (with_slots_cap q new_cap) else malformed
               else ok q) in
    let s := u32 (slots_count q) in
    if slots_count q <? slots_cap q
    then ok (s, with_slots q (slots q ++ [TimerSlot 0 0 TIMER_NO_SLOT 1]))
    else None.

Definition timer_slot_free (q : timer_state) (s : Z) : option timer_state :=
  sl ← (slots q).[s];
  if gen sl <? TIMER_GEN_MAX then
    sls ← mem_set (slots q) s (TimerSlot (heap_pos sl) (gen sl + 1) (free_slot q) 0);
    Some (with_free_slot (with_slots q sls) s)
  else
    sls ← mem_set (slots q) s (TimerSlot (heap_pos sl) (gen sl) (next_free sl) 0);
    Some (with_slots q sls).

(** ** The operations *)

(** What [calloc] and [cloak_reactor_create] leave. *)
Definition no_timers : timer_state := Timers [] 0 [] 0 TIMER_NO_SLOT 0.

Definition timer_heap_ensure_capacity (q : timer_state) (mem_ok : bool) : parse timer_state :=
  if timer_count q <? timer_cap q then ok q
  else
    let new_cap := if timer_cap q =? 0 then 8 else u64 (timer_cap q * 2) in
    if mem_ok then ok (with_timer_cap q new_cap) else malformed.

Definition timer_handle (gen slot : Z) : Z :=
  Z.lor (u64 (Z.shiftl gen TIMER_SLOT_BITS)) (slot + 1).

(** [now] is what [now_ms] answers, [heap_mem] and [slot_mem] the two
    [realloc]s. *)
Definition cloak_reactor_add_timer (q : timer_state) (now : Z) (heap_mem slot_mem : bool)
    (delay_ms cb userdata : Z) : option (Z * timer_state) :=
  if cb =? 0 then Some (CLOAK_TIMER_INVALID, q)
  else
    match timer_heap_ensure_capacity q heap_mem with
    | None => None
    | Some None => Some (CLOAK_TIMER_INVALID, q)
    | Some (Some q) =>
        match timer_slot_alloc q slot_mem with
        | None => None
        | Some None => Some (CLOAK_TIMER_INVALID, q)
        | Some (Some (slot, q)) =>
            s ← (slots q).[slot];
            let e := TimerEntry (u64 (now + delay_ms)) (timer_handle (gen s) slot) slot cb userdata in
            let idx := timer_count q in
            if idx <? timer_cap q then
              q ← timer_place (with_timers q (timers q ++ [e])) idx e;
              '(_, q) ← heap_sift_up q idx;
              Some (te_id e, q)
            else None
        end
    end.

Definition cloak_reactor_cancel_timer (q : timer_state) (id : Z) : option timer_state :=
  if id =? CLOAK_TIMER_INVALID then Some q
  else
    let q := with_probes q (u64 (cancel_probe_steps q + 1)) in
    let low := Z.land id TIMER_SLOT_MASK in
    if low =? 0 then Some q
    else
      let slot := low - 1 in
      if slots_count q <=? slot then Some q
      else
        s ← (slots q).[slot];
        if (in_use s =? 0) || negb (gen s =? Z.shiftr id TIMER_SLOT_BITS) then Some q
        else
          '(moves, q') ← heap_remove_at q (heap_pos s);
          timer_slot_free (with_probes q' (u64 (cancel_probe_steps q' + moves))) (u32 slot).

(** One turn of the loop of [process_expired_timers], up to the callback: the
    timer to fire, unless none is due at [now]. *)
Definition timer_expire (q : timer_state) (now : Z) : option (option (timer_entry * timer_state)) :=
  if 0 <? timer_count q then
    first ← (timers q).[0];
    if now <? deadline_ms first then Some None
    else
      top ← (timers q).[0];
      '(_, q1) ← heap_remove_at q 0;
      q2 ← timer_slot_free q1 (te_slot top);
      Some (Some (top, q2))
  else Some None.

(** [now_ms] is asked only when there is a timer. *)
Definition compute_timeout_ms (q : timer_state) (now : Z) : option Z :=
  if timer_count q =? 0 then Some (-1)
  else
    first ← (timers q).[0];
    if deadline_ms first <=? now then Some 0
    else
      let diff := u64 (deadline_ms first - now) in
      Some (if 2147483647 <? diff then 2147483647 else diff).

Definition cloak_reactor_cancel_probe_steps (q : timer_state) : Z := cancel_probe_steps q.
Definition cloak_reactor_pending_timers (q : timer_state) : Z := timer_count q.

(** ** Moving entries keeps the heap and the back pointers *)

(** Deadline at an index. *)
Definition due (t : list timer_entry) (j : Z) : Z :=
  match t.[j] with Some e => deadline_ms e | None => 0 end.

(** Slot [i] says that its timer is at [j]. *)
Definition points_to (sl : list timer_slot) (i j : Z) : Prop :=
  exists s, sl.[i] = Some s /\ heap_pos s = j.

(** Equal but for the back pointers. *)
Definition same_slots (sl sl' : list timer_slot) : Prop :=
  zlen sl' = zlen sl /\
  forall i s, sl.[i] = Some s -> exists j, sl'.[i] = Some (TimerSlot j (gen s) (next_free s) (in_use s)).

Lemma same_slots_refl sl : same_slots sl sl.
Proof. split; [done|]. intros i s Hs. exists (heap_pos s). by destruct s. Qed.

Lemma same_slots_trans s1 s2 s3 : same_slots s1 s2 -> same_slots s2 s3 -> same_slots s1 s3.
Proof.
  intros [L1 H1] [L2 H2]. split; [by rewrite L2|]. intros i s Hs.
  destruct (H1 i s Hs) as [j Hj]. destruct (H2 i _ Hj) as [k Hk]. by exists k.
Qed.

(** Everything but the entries' places. *)
Definition rearranged (q q' : timer_state) : Prop :=
  same_slots (slots q) (slots q') /\ zlen (timers q') = zlen (timers q) /\
  timer_cap q' = timer_cap q /\ slots_cap q' = slots_cap q /\ free_slot q' = free_slot q /\
  cancel_probe_steps q' = cancel_probe_steps q.

Lemma rearranged_refl q : rearranged q q.
Proof. by split_and!; [apply same_slots_refl|..]. Qed.

Lemma rearranged_trans q1 q2 q3 : rearranged q1 q2 -> rearranged q2 q3 -> rearranged q1 q3.
Proof.
  intros (?&?&?&?&?&?) (?&?&?&?&?&?). split_and!; [by eapply same_slots_trans|congruence..].
Qed.

(** The loops hold [e] in their hand: [h] is the heap with [e] at the hole [i]. *)
Record holed (q : timer_state) (i : Z) (e : timer_entry) (h : list timer_entry) : Prop := {
  ho_index : 0 <= i < zlen (timers q);
  ho_heap : <[Z.to_nat i := e]> (timers q) ≡ₚ h;
  ho_distinct : NoDup (te_slot <$> h);
  ho_slots : Forall (fun e => 0 <= te_slot e < zlen (slots q)) h;
  ho_linked : forall j x, j <> i -> (timers q).[j] = Some x -> points_to (slots q) (te_slot x) j
}.

(** A heap without a hole. *)
Record settled (q : timer_state) (h : list timer_entry) : Prop := {
  se_heap : timers q ≡ₚ h;
  se_linked : forall j x, (timers q).[j] = Some x -> points_to (slots q) (te_slot x) j
}.

(** The keys, with [e] in the hole. *)
Definition held (q : timer_state) (i : Z) (e : timer_entry) : Z -> Z :=
  fun j => if j =? i then deadline_ms e else due (timers q) j.

Lemma holed_get q i e h j x :
  holed q i e h -> j <> i -> (timers q).[j] = Some x ->
  te_slot x <> te_slot e /\ 0 <= te_slot x < zlen (slots q) /\
  forall k y, (timers q).[k] = Some y -> k <> i -> k <> j -> te_slot y <> te_slot x.
Proof.
  intros [Hi Hh Hd Hs _] Hne Hx. set (l := <[Z.to_nat i := e]> (timers q)) in *.
  assert (Hget : forall k y, k <> i -> (timers q).[k] = Some y ->
                             l !! Z.to_nat k = Some y /\ 0 <= k).
  { intros k y Hk Hy. apply mem_get_inv in Hy as [? Hy]. split; [|lia].
    unfold l. by rewrite list_lookup_insert_ne by lia. }
  assert (He : l !! Z.to_nat i = Some e).
  { apply list_lookup_insert_eq. unfold zlen in *. lia. }
  assert (Hl : NoDup (te_slot <$> l)) by (by rewrite Hh).
  assert (Hf : forall a y, l !! a = Some y -> (te_slot <$> l) !! a = Some (te_slot y))
    by (intros a y Ha; by rewrite list_lookup_fmap, Ha).
  destruct (Hget j x Hne Hx) as [Hj Hj0]. split_and!.
  - intros E. apply Hne. enough (Z.to_nat j = Z.to_nat i) by lia.
    apply (NoDup_lookup _ _ _ (te_slot x) Hl); [by apply Hf|]. rewrite E. by apply Hf.
  - rewrite <- Hh in Hs. by destruct (Forall_lookup_1 _ _ _ _ Hs Hj).
  - rewrite <- Hh in Hs. by destruct (Forall_lookup_1 _ _ _ _ Hs Hj).
  - intros k y Hy Hki Hkj E. destruct (Hget k y Hki Hy) as [Hk Hk0].
    apply Hkj. enough (Z.to_nat k = Z.to_nat j) by lia.
    apply (NoDup_lookup _ _ _ (te_slot x) Hl); [|by apply Hf]. rewrite <- E. by apply Hf.
Qed.

Lemma timer_place_spec q i e :
  0 <= i < zlen (timers q) -> 0 <= te_slot e < zlen (slots q) ->
  exists q', timer_place q i e = Some q' /\ rearranged q q' /\
    timers q' = <[Z.to_nat i := e]> (timers q) /\ points_to (slots q') (te_slot e) i /\
    forall k j, k <> te_slot e -> points_to (slots q) k j -> points_to (slots q') k j.
Proof.
  intros Hi Hs. unfold timer_place. rewrite mem_set_Some by done. cbn [mbind option_bind].
  destruct (mem_get_Some (slots q) (te_slot e) Hs) as [s Es]. rewrite Es. cbn [mbind option_bind].
  set (s' := TimerSlot i (gen s) (next_free s) (in_use s)).
  assert (Hset : exists sl, mem_set (slots q) (te_slot e) s' = Some sl)
    by (rewrite mem_set_Some by done; eauto).
  destruct Hset as [sl Hset]. rewrite Hset. cbn [mbind option_bind].
  assert (Hget : forall k, sl.[k] = if k =? te_slot e then Some s' else (slots q).[k])
    by (intros k; by apply (mem_set_get _ _ _ _ k Hset)).
  eexists; split; [done|]. split_and!; [|done| |]; cbn.
  - unfold rearranged. cbn. split_and!; [|by (unfold zlen; rewrite length_insert)|done..].
    split; [by apply (mem_set_get _ _ _ _ 0 Hset)|]. intros k x Hx. rewrite Hget.
    destruct (Z.eqb_spec k (te_slot e)) as [->|].
    + rewrite Es in Hx. injection Hx as <-. by exists i.
    + rewrite Hx. exists (heap_pos x). by destruct x.
  - exists s'. by rewrite Hget, Z.eqb_refl.
  - intros k j Hk (x&Hx&Hp). exists x. by rewrite Hget, (proj2 (Z.eqb_neq _ _) Hk).
Qed.

(** The entry in hand is put into the hole. *)
Lemma place_settled q i e h :
  holed q i e h ->
  exists q', timer_place q i e = Some q' /\ rearranged q q' /\ settled q' h /\
    forall j, due (timers q') j = held q i e j.
Proof.
  intros Hh. pose proof Hh as [Hi Hp Hd Hs Hl].
  assert (He : e ∈ h).
  { rewrite <- Hp. apply list_elem_of_lookup. exists (Z.to_nat i).
    apply list_lookup_insert_eq. unfold zlen in *; lia. }
  rewrite Forall_forall in Hs. pose proof (Hs e He) as Hse.
  destruct (timer_place_spec q i e Hi Hse) as (q'&->&Hr&Ht&Hpt&Hold).
  exists q'. split; [done|]. split; [done|].
  assert (Hget : forall j, (timers q').[j] = if j =? i then Some e else (timers q).[j]).
  { intros j. rewrite Ht. apply (mem_set_get (timers q) i e). by apply mem_set_Some. }
  split.
  - split; [by rewrite Ht|]. intros j x. rewrite Hget.
    destruct (Z.eqb_spec j i) as [->|Hne]; [by intros [= <-]|]. intros Hx.
    apply Hold; [|by apply Hl]. by destruct (holed_get _ _ _ _ _ _ Hh Hne Hx).
  - intros j. unfold due, held. rewrite Hget. by destruct (j =? i).
Qed.

(** An entry moves into the hole; the hole is where it was. *)
Lemma place_moved q i e h k p :
  holed q i e h -> k <> i -> (timers q).[k] = Some p ->
  exists q', timer_place q i p = Some q' /\ rearranged q q' /\ holed q' k e h /\
    forall j, held q' k e j = swapped (held q i e) i k j.
Proof.
  intros Hh Hk Hp. pose proof Hh as [Hi Hperm Hd Hs Hl].
  destruct (holed_get _ _ _ _ _ _ Hh Hk Hp) as (Hpe&Hps&Hother).
  destruct (timer_place_spec q i p Hi Hps) as (q'&->&Hr&Ht&Hpt&Hold).
  exists q'. split; [done|]. split; [done|].
  assert (Hget : forall j, (timers q').[j] = if j =? i then Some p else (timers q).[j]).
  { intros j. rewrite Ht. apply (mem_set_get (timers q) i p). by apply mem_set_Some. }
  destruct Hr as ((Hsl&_)&Htl&_). apply mem_get_inv in Hp as Hp'. destruct Hp' as [Hki Hpl].
  split.
  - split; [lia| |done|by rewrite Hsl|].
    + rewrite Ht, <- Hperm. rewrite <- (insert_swap_perm (<[Z.to_nat i:=e]> (timers q))
        (Z.to_nat i) (Z.to_nat k) e p).
      * rewrite list_insert_insert_eq. done.
      * apply list_lookup_insert_eq. unfold zlen in *; lia.
      * by rewrite list_lookup_insert_ne by lia.
      * lia.
    + intros j x Hjk. rewrite Hget. destruct (Z.eqb_spec j i) as [->|Hji]; [by intros [= <-]|].
      intros Hx. apply Hold; [|by apply Hl]. by apply (Hother j).
  - intros j. unfold held, swapped, due. rewrite Hget, Hp.
    rewrite Z.eqb_refl, (proj2 (Z.eqb_neq k i) Hk).
    by destruct (Z.eqb_spec j k) as [Ek|], (Z.eqb_spec j i) as [Ei|]; subst.
Qed.

(** The result of sifting: [m] moves along a path of the heap. *)
Definition sifted (q : timer_state) (h : list timer_entry) (r : option (Z * timer_state))
    (P : Z -> Prop) : Prop :=
  exists m q', r = Some (m, q') /\ 0 <= m /\ P m /\ rearranged q q' /\ settled q' h /\
    ordered (zlen (timers q')) (due (timers q')).

Lemma sift_up_loop_spec fuel q e i moves h :
  holed q i e h -> up_ordered (zlen (timers q)) (held q i e) i -> i <= Z.of_nat fuel ->
  0 <= moves -> moves + i < 18446744073709551616 ->
  exists j m q', sift_up_loop fuel q e i moves = Some (j, m, q') /\ rearranged q q' /\
    holed q' j e h /\ ordered (zlen (timers q)) (held q' j e) /\
    moves <= m /\ 2 ^ (m - moves) <= i + 1.
Proof.
  revert q i moves. induction fuel as [|fuel IH]; intros q i moves Hh Hup Hf Hm Hmb; cbn [sift_up_loop].
  all: pose proof (ho_index _ _ _ _ Hh) as Hi.
  all: assert (Hstay : (i <= 0 \/ held q i e (heap_parent i) <= held q i e i) ->
    exists j m q', Some (i, moves, q) = Some (j, m, q') /\ rearranged q q' /\ holed q' j e h /\
      ordered (zlen (timers q)) (held q' j e) /\ moves <= m /\ 2 ^ (m - moves) <= i + 1)
    by (intros Hor; exists i, moves, q; split_and!;
        [done|apply rearranged_refl|done|by eapply up_done|lia|rewrite Z.sub_diag; lia]).
  { case_if; [lia|]. apply Hstay. by left. }
  case_if; [|apply Hstay; by left].
  change ((i - 1) / 2) with (heap_parent i).
  assert (Hp : 0 <= heap_parent i < i) by hlia.
  destruct (mem_get_Some (timers q) (heap_parent i)) as [p Ep]; [lia|]. rewrite Ep. cbn [mbind option_bind].
  assert (Hhp : held q i e (heap_parent i) = deadline_ms p)
    by (unfold held, due; rewrite Ep; by decide_cmp).
  assert (Hhi : held q i e i = deadline_ms e) by (unfold held; by rewrite Z.eqb_refl).
  case_if; [apply Hstay; right; lia|].
  destruct (place_moved q i e h (heap_parent i) p) as (q1&->&Hr&Hh1&Hk); [done|lia|done|].
  cbn [mbind option_bind]. pose proof Hr as (_&Hlen&_). rewrite u64_small by lia.
  destruct (IH q1 (heap_parent i) (moves + 1)) as (j&m&q'&->&Hr'&Hh'&Ho'&Hm'&Hpw); [done| |lia..|].
  - rewrite Hlen. eapply up_ordered_ext; [lia|intros x _; apply Hk|]. apply up_move; [done|lia..].
  - exists j, m, q'. rewrite Hlen in Ho'. split_and!; try done; [by eapply rearranged_trans|lia|].
    replace (m - moves) with (Z.succ (m - (moves + 1))) by lia. rewrite Z.pow_succ_r by lia. hlia.
Qed.

(** A turn of the loop: stop when no child is earlier, or move the earliest. *)
Lemma sift_down_turn fuel q e i moves h :
  holed q i e h -> zlen (timers q) <= INT64_MAX ->
  (sift_down_loop (S fuel) q e i moves = Some (i, moves, q) /\
   forall j, 0 < j < zlen (timers q) -> heap_parent j = i -> held q i e i <= held q i e j) \/
  exists c x, (timers q).[c] = Some x /\ held q i e c < held q i e i /\
    smallest_child (zlen (timers q)) (held q i e) i c /\
    sift_down_loop (S fuel) q e i moves =
      (q' ← timer_place q i x; sift_down_loop fuel q' e c (u64 (moves + 1))).
Proof.
  unfold INT64_MAX. intros Hh Hmax. pose proof (ho_index _ _ _ _ Hh) as Hi.
  cbn [sift_down_loop]. unfold timer_count.
  rewrite (u64_small (2 * i + 1)), (u64_small (2 * i + 2)) by lia.
  case_if; [left; split; [done|intros; hlia]|].
  assert (Hheld : forall j x, j <> i -> (timers q).[j] = Some x -> held q i e j = deadline_ms x)
    by (intros j x Hj Hx; unfold held, due; rewrite Hx; by rewrite (proj2 (Z.eqb_neq _ _) Hj)).
  assert (Hhi : held q i e i = deadline_ms e) by (unfold held; by rewrite Z.eqb_refl).
  destruct (mem_get_Some (timers q) (2 * i + 1)) as [l El]; [lia|]. rewrite El. cbn [mbind option_bind].
  pose proof (Hheld (2 * i + 1) _ ltac:(lia) El).
  assert (exists c x, (if 2 * i + 2 <? zlen (timers q) then
       r ← (timers q).[2 * i + 2];
       Some (if deadline_ms r <? deadline_ms l then 2 * i + 2 else 2 * i + 1)
     else Some (2 * i + 1)) = Some c /\ (timers q).[c] = Some x /\
     smallest_child (zlen (timers q)) (held q i e) i c) as (c&x&->&Ex&Hc).
  { unfold smallest_child. case_if.
    - destruct (mem_get_Some (timers q) (2 * i + 2)) as [r Er]; [lia|]. rewrite Er. cbn [mbind option_bind].
      pose proof (Hheld (2 * i + 2) _ ltac:(lia) Er).
      assert (forall j, 0 < j -> heap_parent j = i -> j = 2 * i + 1 \/ j = 2 * i + 2) as Hch by (intros; hlia).
      case_if; eexists _, _; (split_and!; [done|done|lia|lia|hlia|]);
        intros j Hj [-> | ->]%Hch; lia.
    - eexists _, l. split_and!; [done|done|lia|lia|hlia|].
      intros j Hj Hpj. assert (j = 2 * i + 1) as -> by hlia. lia. }
  cbn [mbind option_bind]. rewrite Ex. cbn [mbind option_bind].
  pose proof Hc as (Hci & Hcp & Hmin). pose proof (Hheld c _ ltac:(lia) Ex) as Hhc.
  case_if; [left|right].
  - split; [done|]. intros j Hj Hpj. specialize (Hmin j Hj Hpj). lia.
  - exists c, x. split_and!; [done|lia|done|done].
Qed.

Lemma sift_down_loop_spec fuel q e i moves h :
  holed q i e h -> down_ordered (zlen (timers q)) (held q i e) i ->
  zlen (timers q) - i <= Z.of_nat fuel -> zlen (timers q) <= INT64_MAX ->
  0 <= moves -> moves + (zlen (timers q) - i) < 18446744073709551616 ->
  exists j m q', sift_down_loop fuel q e i moves = Some (j, m, q') /\ rearranged q q' /\
    holed q' j e h /\ ordered (zlen (timers q)) (held q' j e) /\
    moves <= m /\ 2 ^ (m - moves) * (i + 1) <= zlen (timers q).
Proof.
  revert q i moves. induction fuel as [|fuel IH]; intros q i moves Hh Hdown Hf Hmax Hm Hmb.
  all: pose proof (ho_index _ _ _ _ Hh) as Hi. { lia. }
  destruct (sift_down_turn fuel q e i moves h Hh Hmax) as [[-> Hc]|(c&x&Ex&Hlt&Hc&->)].
  { exists i, moves, q. split_and!;
      [done|apply rearranged_refl|done|by eapply down_done|lia|rewrite Z.sub_diag; lia]. }
  pose proof Hc as (Hci & Hcp & _).
  destruct (place_moved q i e h c x) as (q1&->&Hr&Hh1&Hk); [done|lia|done|].
  cbn [mbind option_bind]. pose proof Hr as (_&Hlen&_). rewrite u64_small by lia.
  destruct (IH q1 c (moves + 1)) as (j&m&q'&->&Hr'&Hh'&Ho'&Hm'&Hpw); [done| |lia..|].
  - rewrite Hlen. eapply down_ordered_ext; [lia|intros y _; apply Hk|].
    apply down_move; [done|lia|done|lia].
  - exists j, m, q'. rewrite Hlen in *. split_and!; try done; [by eapply rearranged_trans|lia|].
    replace (m - moves) with (Z.succ (m - (moves + 1))) by lia. rewrite Z.pow_succ_r by lia.
    assert (0 < 2 ^ (m - (moves + 1))) by (apply Z.pow_pos_nonneg; lia).
    assert (2 * (i + 1) <= c + 1) by hlia. nia.
Qed.

Lemma held_due q i e j : (timers q).[i] = Some e -> held q i e j = due (timers q) j.
Proof. intros He. unfold held. destruct (Z.eqb_spec j i) as [->|]; [|done]. unfold due. by rewrite He. Qed.

Lemma sifted_place q q1 j e h m (P : Z -> Prop) n :
  holed q1 j e h -> rearranged q q1 -> zlen (timers q) = n -> ordered n (held q1 j e) -> 0 <= m -> P m ->
  sifted q h (q2 ← timer_place q1 j e; Some (m, q2)) P.
Proof.
  intros Hh Hr Hn Ho Hm HP. destruct (place_settled q1 j e h Hh) as (q2&->&Hr2&Hs&Hd).
  cbn [mbind option_bind]. exists m, q2. split_and!; try done; [by eapply rearranged_trans|].
  destruct Hr as (_&L1&_), Hr2 as (_&L2&_). rewrite L2, L1, Hn.
  by eapply ordered_ext; [intros; apply Hd|].
Qed.

Lemma timer_sift_up_spec q i e h :
  holed q i e h -> (timers q).[i] = Some e -> up_ordered (zlen (timers q)) (due (timers q)) i ->
  zlen (timers q) <= INT64_MAX ->
  sifted q h (heap_sift_up q i) (fun m => 2 ^ m <= i + 1).
Proof.
  unfold INT64_MAX. intros Hh He Hup Hmax. pose proof (ho_index _ _ _ _ Hh) as Hi. unfold heap_sift_up.
  rewrite He. cbn [mbind option_bind].
  destruct (sift_up_loop_spec (length (timers q)) q e i 0 h) as (j&m&q1&->&Hr&Hh1&Ho&Hm&Hp);
    [done| |unfold zlen in *; lia|lia|lia|].
  { eapply up_ordered_ext; [lia|intros; by apply held_due|done]. }
  cbn [mbind option_bind]. rewrite Z.sub_0_r in Hp. by eapply sifted_place.
Qed.

Lemma timer_sift_down_spec q i e h :
  holed q i e h -> (timers q).[i] = Some e -> down_ordered (zlen (timers q)) (due (timers q)) i ->
  zlen (timers q) <= INT64_MAX ->
  sifted q h (heap_sift_down q i) (fun m => 2 ^ m * (i + 1) <= zlen (timers q)).
Proof.
  intros Hh He Hdown Hmax. pose proof (ho_index _ _ _ _ Hh) as Hi. unfold heap_sift_down.
  rewrite He. cbn [mbind option_bind]. pose proof Hmax as Hmax'. unfold INT64_MAX in Hmax'.
  destruct (sift_down_loop_spec (length (timers q)) q e i 0 h) as (j&m&q1&->&Hr&Hh1&Ho&Hm&Hp);
    [done| |unfold zlen in *; lia|lia|lia|lia|].
  { eapply down_ordered_ext; [lia|intros; by apply held_due|done]. }
  cbn [mbind option_bind]. rewrite Z.sub_0_r in Hp. by eapply sifted_place.
Qed.

(** No child is earlier: nothing moves. *)
Lemma timer_sift_down_stays q i e h :
  holed q i e h -> (timers q).[i] = Some e -> zlen (timers q) <= INT64_MAX ->
  (forall j, 0 < j < zlen (timers q) -> heap_parent j = i -> due (timers q) i <= due (timers q) j) ->
  exists q', heap_sift_down q i = Some (0, q') /\ rearranged q q' /\ settled q' h /\
    forall j, due (timers q') j = due (timers q) j.
Proof.
  intros Hh He Hmax Hc. pose proof (ho_index _ _ _ _ Hh) as Hi. unfold heap_sift_down.
  rewrite He. cbn [mbind option_bind].
  destruct (timers q) as [|e0 t] eqn:Ht; [unfold zlen in Hi; cbn in Hi; lia|].
  cbn [length]. rewrite <- Ht in *.
  destruct (sift_down_turn (length t) q e i 0 h Hh Hmax) as [[-> _]|(c&x&Ex&Hlt&(Hci&Hcp&_)&_)].
  - cbn [mbind option_bind]. destruct (place_settled q i e h Hh) as (q2&->&Hr&Hs&Hd).
    cbn [mbind option_bind]. exists q2. split_and!; try done. intros j. rewrite Hd. by apply held_due.
  - exfalso. rewrite !held_due in Hlt by done. specialize (Hc c ltac:(lia) Hcp). lia.
Qed.

(** ** Removing an entry *)

(** Every slot points back at its entry. *)
Definition linked (q : timer_state) : Prop :=
  forall j x, (timers q).[j] = Some x -> points_to (slots q) (te_slot x) j.

(** What the heap functions need of the entries. *)
Record heap_inv (q : timer_state) : Prop := {
  hi_ordered : ordered (timer_count q) (due (timers q));
  hi_linked : linked q;
  hi_distinct : NoDup (te_slot <$> timers q);
  hi_slots : Forall (fun e => 0 <= te_slot e < slots_count q) (timers q);
  hi_max : timer_count q <= INT64_MAX
}.

Lemma settled_holed q h i e :
  settled q h -> NoDup (te_slot <$> h) -> Forall (fun e => 0 <= te_slot e < zlen (slots q)) h ->
  (timers q).[i] = Some e -> holed q i e h.
Proof.
  intros [Hh Hl] Hd Hs He. pose proof (mem_get_inv _ _ _ He) as [Hi Hi'].
  split; [done|by rewrite list_insert_id|done|done|]. intros j x _. apply Hl.
Qed.

Lemma due_take t n j : j < n -> n <= zlen t -> due (take (Z.to_nat n) t) j = due t j.
Proof.
  intros Hj Hn. rewrite <- (take_drop (Z.to_nat n) t) at 2. unfold due.
  destruct (Z.leb_spec 0 j); [|unfold mem_get; by decide_cmp].
  rewrite mem_get_app_l; [done|]. rewrite zlen_take; lia.
Qed.

Lemma mem_get_take {A} (l : list A) n j x :
  (take (Z.to_nat n) l).[j] = Some x -> 0 <= j < n /\ l.[j] = Some x.
Proof.
  intros Hx. apply mem_get_inv in Hx as [Hj Hx].
  destruct (decide (Z.to_nat j < Z.to_nat n)%nat).
  - split; [lia|]. rewrite mem_get_lookup by lia. by rewrite lookup_take_lt in Hx.
  - unfold zlen in Hj. rewrite length_take in Hj. lia.
Qed.

(** The last entry moved over the one to remove, before anything is sifted. *)
Lemma heap_fill_hole q pos e0 :
  heap_inv q -> (timers q).[pos] = Some e0 -> pos < timer_count q - 1 ->
  exists moved q1 h,
    (timers q).[timer_count q - 1] = Some moved /\
    timer_place (with_timers q (take (Z.to_nat (timer_count q - 1)) (timers q))) pos moved = Some q1 /\
    same_slots (slots q) (slots q1) /\ zlen (timers q1) = timer_count q - 1 /\
    (timer_cap q1, slots_cap q1, free_slot q1, cancel_probe_steps q1)
      = (timer_cap q, slots_cap q, free_slot q, cancel_probe_steps q) /\
    holed q1 pos moved h /\ (timers q1).[pos] = Some moved /\ e0 :: h ≡ₚ timers q /\
    forall j, 0 <= j < timer_count q - 1 ->
      due (timers q1) j = if j =? pos then due (timers q) (timer_count q - 1) else due (timers q) j.
Proof.
  intros [Ho Hl Hd Hs Hmax] He0 Hpos. unfold timer_count in *. set (n := zlen (timers q)) in *.
  pose proof (mem_get_inv _ _ _ He0) as [Hpr Hpl].
  destruct (mem_get_Some (timers q) (n - 1)) as [moved Em]; [lia|]. exists moved.
  set (t := take (Z.to_nat (n - 1)) (timers q)). set (q0 := with_timers q t).
  assert (Htl : zlen t = n - 1) by (unfold t; rewrite zlen_take; lia).
  assert (Htpos : t !! Z.to_nat pos = Some e0) by (unfold t; by rewrite lookup_take_lt by lia).
  assert (Hsplit : timers q = t ++ [moved]).
  { rewrite <- (take_drop (Z.to_nat (n - 1)) (timers q)) at 1. f_equal.
    apply mem_get_inv in Em as [_ Em]. rewrite (drop_S _ moved) by done.
    rewrite drop_ge by (unfold n, zlen; lia). done. }
  set (h := <[Z.to_nat pos := moved]> t).
  assert (HP : e0 :: h ≡ₚ timers q).
  { rewrite Hsplit. unfold h. rewrite (insert_replace_perm _ _ _ _ Htpos).
    apply Permutation_cons_append. }
  assert (Hdh : NoDup (te_slot <$> h)).
  { rewrite <- HP in Hd. cbn in Hd. by apply NoDup_cons in Hd as [_ ?]. }
  assert (Hsh : Forall (fun e => 0 <= te_slot e < zlen (slots q)) h).
  { unfold slots_count in Hs. rewrite <- HP in Hs. by apply Forall_cons in Hs as [_ ?]. }
  assert (Hh0 : holed q0 pos moved h).
  { split; cbn; [unfold t in *; lia|done|done|done|].
    intros j x _ [_ Hx]%mem_get_take. by apply Hl. }
  destruct (place_settled q0 pos moved h Hh0) as (q1&E1&(Hss&Hlen&Hc1&Hc2&Hc3&Hc4)&Hset&Hdue).
  cbn in Hss, Hlen, Hc1, Hc2, Hc3, Hc4.
  assert (Hget : (timers q1).[pos] = Some moved).
  { unfold timer_place in E1. destruct (mem_set (timers q0) pos moved) as [t1|] eqn:E2; [|done].
    cbn [mbind option_bind] in E1. destruct (slots q0).[te_slot moved]; [|done]. cbn [mbind option_bind] in E1.
    destruct (mem_set (slots q0) _ _); [|done]. injection E1 as <-. cbn.
    destruct (mem_set_get _ _ _ _ pos E2) as [_ ->]. by rewrite Z.eqb_refl. }
  exists q1, h. split_and!; try done; [congruence|congruence| |].
  - apply settled_holed; try done. destruct Hss as [-> _]. done.
  - intros j Hj. rewrite Hdue. unfold held. destruct (Z.eqb_spec j pos).
    + unfold due. by rewrite Em.
    + unfold q0, t. cbn. apply due_take; lia.
Qed.

(** The keys after the hole is filled are ordered, up or down. *)
Lemma filled_order n k k' pos :
  ordered n k -> 0 <= pos < n - 1 ->
  (forall j, 0 <= j < n - 1 -> k' j = if j =? pos then k (n - 1) else k j) ->
  if (0 <? pos) && (k' pos <? k' (heap_parent pos))
  then up_ordered (n - 1) k' pos /\
       forall j, 0 < j < n - 1 -> heap_parent j = pos -> k' pos <= k' j
  else down_ordered (n - 1) k' pos.
Proof.
  intros Ho Hpos Hk'.
  assert (Hne : forall j, 0 <= j < n - 1 -> j <> pos -> k' j = k j).
  { intros j Hj Hn. rewrite Hk' by done. by rewrite (proj2 (Z.eqb_neq _ _) Hn). }
  assert (Hb : bridged (n - 1) k' pos).
  { intros j Hj Hjp H0. rewrite !Hne by hlia. etransitivity; [apply (Ho pos); lia|].
    rewrite <- Hjp. apply Ho. lia. }
  assert (Hoth : forall j, 0 < j < n - 1 -> j <> pos -> heap_parent j <> pos ->
                           k' (heap_parent j) <= k' j)
    by (intros; rewrite !Hne by hlia; apply Ho; lia).
  case_if.
  - split; [split; [|done]|].
    + intros j Hj Hn. destruct (Z.eq_dec (heap_parent j) pos) as [E0|]; [|by apply Hoth].
      rewrite E0. specialize (Hb j Hj E0). lia.
    + intros j Hj E0. specialize (Hb j Hj E0). lia.
  - split; [|done]. intros j Hj Hp. destruct (Z.eq_dec j pos) as [->|]; [|by apply Hoth].
    apply andb_false_iff in E as [?|?]; bool_hyps; lia.
Qed.

(** The entry at [pos] leaves, the others stay in order and linked. *)
Definition removed (q q' : timer_state) (e0 : timer_entry) : Prop :=
  same_slots (slots q) (slots q') /\ e0 :: timers q' ≡ₚ timers q /\ linked q' /\
  ordered (timer_count q') (due (timers q')) /\
  timer_cap q' = timer_cap q /\ slots_cap q' = slots_cap q /\ free_slot q' = free_slot q /\
  cancel_probe_steps q' = cancel_probe_steps q.

Lemma log2_moves m n : 0 <= m -> 2 ^ m <= n -> m <= Z.log2 n.
Proof.
  intros Hm Hp. assert (0 < 2 ^ m) by (apply Z.pow_pos_nonneg; lia).
  apply Z.log2_le_pow2; lia.
Qed.

(** Sifting after the hole is filled, both ways of [heap_remove_at]. *)
Lemma heap_refit q pos e h :
  holed q pos e h -> (timers q).[pos] = Some e -> zlen (timers q) < INT64_MAX ->
  (if (0 <? pos) && (due (timers q) pos <? due (timers q) (heap_parent pos))
   then up_ordered (zlen (timers q)) (due (timers q)) pos /\
        forall j, 0 < j < zlen (timers q) -> heap_parent j = pos ->
                  due (timers q) pos <= due (timers q) j
   else down_ordered (zlen (timers q)) (due (timers q)) pos) ->
  sifted q h ('(moves, q2) ← heap_sift_down q pos;
              if moves =? 0 then heap_sift_up q2 pos else Some (moves, q2))
         (fun m => m <= Z.log2 (zlen (timers q))).
Proof.
  intros Hh He Hmax Ho. pose proof Hh as [Hi _ Hd Hs _].
  assert (Hup : forall q2, rearranged q q2 -> settled q2 h ->
    up_ordered (zlen (timers q2)) (due (timers q2)) pos ->
    sifted q h (heap_sift_up q2 pos) (fun m => m <= Z.log2 (zlen (timers q)))).
  { intros q2 Hr Hset Hup. pose proof Hr as ((Hsl&_)&Hlen&_).
    destruct (mem_get_Some (timers q2) pos) as [x Hx]; [lia|].
    assert (Hh2 : holed q2 pos x h) by (apply settled_holed; try done; by rewrite Hsl).
    destruct (timer_sift_up_spec q2 pos x h Hh2 Hx Hup) as (m&q3&->&Hm&Hp&Hr3&Hs3&Ho3); [lia|].
    exists m, q3. split_and!; try done; [|by eapply rearranged_trans].
    apply log2_moves; lia. }
  destruct ((0 <? pos) && _).
  - destruct Ho as [Huo Hc].
    destruct (timer_sift_down_stays q pos e h Hh He ltac:(lia) Hc) as (q2&->&Hr&Hset&Hdue).
    cbn [mbind option_bind Z.eqb]. apply Hup; [done|done|]. destruct Hr as (_&->&_).
    by eapply up_ordered_ext; [|intros; apply Hdue|].
  - destruct (timer_sift_down_spec q pos e h Hh He Ho ltac:(lia)) as (m&q2&->&Hm&Hp&Hr&Hset&Hord).
    cbn [mbind option_bind]. destruct (Z.eqb_spec m 0).
    + apply Hup; [done|done|]. pose proof Hr as (_&Hlen&_). split.
      * intros j Hj _. by apply Hord.
      * intros j Hj Hjp H0. etransitivity; [apply (Hord pos); lia|]. rewrite <- Hjp. by apply Hord.
    + exists m, q2. split_and!; try done. apply log2_moves; [done|].
      assert (0 < 2 ^ m) by (apply Z.pow_pos_nonneg; lia). nia.
Qed.

Lemma heap_remove_at_spec q pos e0 :
  heap_inv q -> (timers q).[pos] = Some e0 ->
  exists m q', heap_remove_at q pos = Some (m, q') /\ removed q q' e0 /\
    0 <= m <= 1 + Z.log2 (timer_count q).
Proof.
  intros Hinv He0. pose proof Hinv as [Ho Hl Hd Hs Hmax].
  pose proof (mem_get_inv _ _ _ He0) as [Hpos Hpl]. unfold heap_remove_at.
  assert (Hlast : u64 (timer_count q - 1) = timer_count q - 1).
  { apply u64_small. unfold timer_count, INT64_MAX in *. lia. }
  rewrite Hlast. pose proof (Z.log2_nonneg (timer_count q)). destruct (Z.eqb_spec pos (timer_count q - 1)) as [->|Hne].
  { rewrite He0. cbn [mbind option_bind]. exists 0, (with_timers q (take (Z.to_nat (timer_count q - 1)) (timers q))).
    split; [done|]. split; [|lia]. unfold removed. cbn. unfold timer_count in *. split_and!; try done.
    - apply same_slots_refl.
    - rewrite <- (take_drop (Z.to_nat (zlen (timers q) - 1)) (timers q)) at 3.
      rewrite (drop_S _ e0) by done. rewrite drop_ge by (unfold zlen; lia). by rewrite Permutation_cons_append.
    - intros j x [_ Hx]%mem_get_take. by apply Hl.
    - cbn. rewrite zlen_take by lia. intros j Hj. rewrite !due_take by hlia. apply Ho. lia. }
  destruct (heap_fill_hole q pos e0 Hinv He0) as (moved&q1&h&->&Hplace&Hss&Hlen&[= Hc1 Hc2 Hc3 Hc4]&Hh&Hget&HP&Hdue);
    [unfold timer_count in *; lia|].
  cbn [mbind option_bind]. rewrite Hplace. cbn [mbind option_bind].
  destruct (heap_refit q1 pos moved h Hh Hget) as (m&q2&E&Hm&Hlog&Hr&Hset&Hord); [unfold timer_count in *; lia| |].
  { rewrite Hlen. apply (filled_order _ (due (timers q))); [done| |done].
    unfold timer_count in *. lia. }
  destruct (heap_sift_down q1 pos) as [[m1 q1']|]; [|done]. cbn [mbind option_bind] in E |- *.
  rewrite E. cbn [mbind option_bind].
  assert (Hlog' : m <= Z.log2 (timer_count q)).
  { rewrite Hlen in Hlog. etransitivity; [apply Hlog|]. apply Z.log2_le_mono. lia. }
  assert (Z.log2 (timer_count q) < 64).
  { apply Z.log2_lt_pow2; unfold timer_count, INT64_MAX in *; lia. }
  rewrite u64_small by lia. exists (m + 1), q2. split; [done|]. split; [|lia].
  destruct Hr as (Hss2&Hlen2&?&?&?&?), Hset as [Hp2 Hl2].
  split_and!; try congruence; try done; [by eapply same_slots_trans|by rewrite Hp2].
Qed.
