(* ===== verification/TimerSpec.v ===== *)
(** * The contract of the timers ([libcloak-common/include/cloak/reactor.h])

    The heap and the slot table of [TimerHeap] implement a finite map from
    handles to timers.  A handle is never issued twice, so a handle whose timer
    has fired or was cancelled stays dead: cancelling it is a no-op, whatever
    timer has its slot by then. *)
From stdpp Require Import gmap.
From S2P Require Import Prelude Refinement Fallible HeapOrder ReactorApi TimerHeap.

(** ** Handles *)

(** A generation and a slot that exist. *)
Definition handle_range (g i : Z) : Prop := 0 <= g <= TIMER_GEN_MAX /\ 0 <= i < TIMER_MAX_SLOTS.

Lemma timer_max_slots : TIMER_MAX_SLOTS = 1048575.
Proof. reflexivity. Qed.

Lemma timer_gen_max : TIMER_GEN_MAX = 17592186044415.
Proof. reflexivity. Qed.

Ltac timer_consts := unfold handle_range in *; rewrite ?timer_max_slots, ?timer_gen_max in *.

Lemma timer_handle_val g i : handle_range g i -> timer_handle g i = g * 1048576 + (i + 1).
Proof.
  intros H. timer_consts. unfold timer_handle, TIMER_SLOT_BITS.
  rewrite u64_small by (rewrite Z.shiftl_mul_pow2; lia).
  rewrite lor_shiftl_add; [done|done|]. change (2 ^ 20) with 1048576. lia.
Qed.

Lemma timer_handle_slot g i : handle_range g i -> Z.land (timer_handle g i) TIMER_SLOT_MASK = i + 1.
Proof.
  intros H. rewrite timer_handle_val by done. timer_consts.
  change TIMER_SLOT_MASK with (Z.ones 20). rewrite Z.land_ones by done. change (2 ^ 20) with 1048576. dlia.
Qed.

Lemma timer_handle_gen g i : handle_range g i -> Z.shiftr (timer_handle g i) TIMER_SLOT_BITS = g.
Proof.
  intros H. rewrite timer_handle_val by done. timer_consts. unfold TIMER_SLOT_BITS.
  rewrite Z.shiftr_div_pow2 by done. change (2 ^ 20) with 1048576. dlia.
Qed.

Lemma timer_handle_inj g i g' i' :
  handle_range g i -> handle_range g' i' -> timer_handle g i = timer_handle g' i' -> g = g' /\ i = i'.
Proof. intros H H'. rewrite !timer_handle_val by done. timer_consts. lia. Qed.

Lemma timer_handle_valid g i :
  handle_range g i -> 0 < timer_handle g i < 18446744073709551616.
Proof. intros H. rewrite timer_handle_val by done. timer_consts. lia. Qed.

Lemma timer_low_range id : 0 <= Z.land id TIMER_SLOT_MASK <= TIMER_MAX_SLOTS.
Proof.
  change TIMER_SLOT_MASK with (Z.ones 20). rewrite Z.land_ones by done. timer_consts.
  change (2 ^ 20) with 1048576. dlia.
Qed.

(** What [cancel_timer] decodes is the handle, when the generation exists. *)
Lemma handle_decode id :
  0 <= Z.shiftr id TIMER_SLOT_BITS <= TIMER_GEN_MAX -> Z.land id TIMER_SLOT_MASK <> 0 ->
  timer_handle (Z.shiftr id TIMER_SLOT_BITS) (Z.land id TIMER_SLOT_MASK - 1) = id.
Proof.
  intros Hg Hnz. pose proof (timer_low_range id). rewrite timer_handle_val by (split; lia).
  revert Hg Hnz. change TIMER_SLOT_MASK with (Z.ones 20). unfold TIMER_SLOT_BITS.
  rewrite Z.land_ones, Z.shiftr_div_pow2 by done. change (2 ^ 20) with 1048576. intros _ _. dlia.
Qed.

(** ** The representation invariant *)

(** The free list from [head] on. *)
Fixpoint free_chain (sl : list timer_slot) (head : Z) (l : list Z) : Prop :=
  match l with
  | [] => head = TIMER_NO_SLOT
  | i :: l' => head = i /\ exists s, sl.[i] = Some s /\ in_use s = 0 /\ free_chain sl (next_free s) l'
  end.

(** The slot of an entry is in use and has its generation. *)
Definition live (sl : list timer_slot) (e : timer_entry) : Prop :=
  exists s, sl.[te_slot e] = Some s /\ in_use s = 1 /\ te_id e = timer_handle (gen s) (te_slot e).

Record timers_ok (q : timer_state) (free : list Z) : Prop := {
  tk_heap : heap_inv q;
  tk_live : Forall (live (slots q)) (timers q);
  tk_used : forall i s, (slots q).[i] = Some s -> in_use s <> 0 -> exists e, e ∈ timers q /\ te_slot e = i;
  tk_gen : forall i s, (slots q).[i] = Some s -> 0 <= gen s <= TIMER_GEN_MAX;
  tk_free : free_chain (slots q) (free_slot q) free;
  tk_nodup : NoDup free;
  tk_retired : forall i s, (slots q).[i] = Some s -> in_use s = 0 -> i ∈ free \/ gen s = TIMER_GEN_MAX;
  tk_caps : timer_count q <= timer_cap q <= 2097152 /\ slots_count q <= slots_cap q <= TIMER_MAX_SLOTS
}.

(** The timers that wait, by handle. *)
Definition timer_data (e : timer_entry) : Z * (Z * Z * Z) :=
  (te_id e, (deadline_ms e, te_cb e, te_userdata e)).

Definition pending (q : timer_state) : gmap Z (Z * Z * Z) := list_to_map (timer_data <$> timers q).

(** The handles that may still be issued. *)
Definition unissued (q : timer_state) (free : list Z) (id : Z) : Prop :=
  exists g i, handle_range g i /\ id = timer_handle g i /\
    (slots_count q <= i \/
     exists s, (slots q).[i] = Some s /\ (gen s < g \/ gen s = g /\ i ∈ free)).

Lemma free_chain_head sl h l :
  free_chain sl h l -> Forall (fun i => 0 <= i < zlen sl) l ->
  zlen sl <= TIMER_MAX_SLOTS -> (h =? TIMER_NO_SLOT) = true -> l = [].
Proof.
  destruct l as [|i l]; [done|]. cbn [free_chain]. intros [-> _] [Hi _]%Forall_cons Hm ->%Z.eqb_eq.
  unfold TIMER_NO_SLOT in Hi. timer_consts. lia.
Qed.

Lemma free_chain_range sl h l : free_chain sl h l -> Forall (fun i => 0 <= i < zlen sl) l.
Proof.
  revert h. induction l as [|i l IH]; intros h; [constructor|].
  intros [_ (s&Hs&_&Hc)]. constructor; [by apply mem_get_inv in Hs as [? _]|by eapply IH].
Qed.

Lemma free_chain_in sl h l i :
  free_chain sl h l -> i ∈ l -> exists s, sl.[i] = Some s /\ in_use s = 0.
Proof.
  revert h. induction l as [|j l IH]; intros h; [by intros _ ?%not_elem_of_nil|].
  intros [-> (s&Hs&Hu&Hc)] [->|Hin]%elem_of_cons; [by exists s|by eapply IH].
Qed.

(** A change that keeps the links of the listed slots keeps the chain. *)
Lemma free_chain_ext sl sl' h l :
  (forall i s, i ∈ l -> sl.[i] = Some s ->
     exists s', sl'.[i] = Some s' /\ in_use s' = in_use s /\ next_free s' = next_free s) ->
  free_chain sl h l -> free_chain sl' h l.
Proof.
  revert h. induction l as [|i l IH]; intros h He; [done|]. intros [-> (s&Hs&Hu&Hc)].
  destruct (He i s) as (s'&Hs'&Hu'&Hn'); [by left|done|].
  split; [done|]. exists s'. split; [done|]. split; [by rewrite Hu'|]. rewrite Hn'.
  apply IH; [|done]. intros j x Hj. apply He. by right.
Qed.

Lemma same_slots_chain sl sl' h l : same_slots sl sl' -> free_chain sl h l -> free_chain sl' h l.
Proof.
  intros [_ Hs]. apply free_chain_ext. intros i s _ Hi. destruct (Hs i s Hi) as [j Hj]. eauto.
Qed.

Lemma same_slots_back sl sl' i s' :
  same_slots sl sl' -> sl'.[i] = Some s' ->
  exists s, sl.[i] = Some s /\ gen s' = gen s /\ in_use s' = in_use s.
Proof.
  intros [Hl Hs] Hi. destruct (mem_get_Some sl i) as [s Es].
  { apply mem_get_inv in Hi as [? _]. lia. }
  exists s. destruct (Hs i s Es) as [j Hj]. rewrite Hj in Hi. injection Hi as <-. done.
Qed.

Lemma same_slots_live sl sl' e : same_slots sl sl' -> live sl e -> live sl' e.
Proof.
  intros [_ Hs] (s&Hi&Hu&He). destruct (Hs _ s Hi) as [j Hj]. by eexists; split.
Qed.

Lemma timers_count_slots q free : timers_ok q free -> timer_count q <= slots_count q.
Proof.
  intros [[_ _ Hd Hs _] _ _ _ _ _ _ _]. unfold timer_count, slots_count, zlen in *.
  enough (length (te_slot <$> timers q) <= length (seqZ 0 (zlen (slots q))))%nat as Hle.
  { rewrite length_fmap, length_seqZ in Hle. unfold zlen in Hle. lia. }
  apply submseteq_length. apply NoDup_submseteq; [done|].
  intros i (e&->&He)%list_elem_of_fmap. rewrite Forall_forall in Hs. specialize (Hs e He).
  apply elem_of_seqZ. unfold zlen. lia.
Qed.

(** ** What waits *)

Lemma live_range q free e :
  timers_ok q free -> e ∈ timers q ->
  exists s, (slots q).[te_slot e] = Some s /\ in_use s = 1 /\ handle_range (gen s) (te_slot e) /\
            te_id e = timer_handle (gen s) (te_slot e).
Proof.
  intros [_ Hlive _ Hgen _ _ _ Hcaps] He. rewrite Forall_forall in Hlive.
  destruct (Hlive e He) as (s&Hs&Hu&Hid). exists s. split_and!; try done.
  pose proof (Hgen _ _ Hs). apply mem_get_inv in Hs as [? _].
  unfold handle_range, slots_count in *. lia.
Qed.

Lemma slots_distinct q free e e' :
  timers_ok q free -> e ∈ timers q -> e' ∈ timers q -> te_slot e = te_slot e' -> e = e'.
Proof.
  intros Hok He He' E. pose proof (hi_distinct _ (tk_heap _ _ Hok)) as Hd.
  apply list_elem_of_lookup in He as [i Hi], He' as [j Hj].
  assert (i = j) as <-; [|congruence].
  apply (NoDup_lookup _ _ _ (te_slot e) Hd).
  - by rewrite list_lookup_fmap, Hi.
  - by rewrite list_lookup_fmap, Hj, E.
Qed.

Lemma ids_distinct q free e e' :
  timers_ok q free -> e ∈ timers q -> e' ∈ timers q -> te_id e = te_id e' -> e = e'.
Proof.
  intros Hok He He' E.
  destruct (live_range q free e Hok He) as (s&_&_&Hr&Hid).
  destruct (live_range q free e' Hok He') as (s'&_&_&Hr'&Hid').
  rewrite Hid, Hid' in E. apply timer_handle_inj in E as [_ E]; [|done..].
  by eapply slots_distinct.
Qed.

Lemma ids_nodup q free : timers_ok q free -> NoDup ((timer_data <$> timers q).*1).
Proof.
  intros Hok. pose proof (hi_distinct _ (tk_heap _ _ Hok)) as Hd.
  pose proof (ids_distinct q free) as Hi. specialize (fun e e' => Hi e e' Hok).
  clear Hok. revert Hd Hi. generalize (timers q) as l. induction l as [|e l IH]; intros Hd Hi; [constructor|].
  cbn in *. apply NoDup_cons in Hd as [Hn Hd]. constructor.
  - intros ([? ?]&E1&(e'&E2&He')%list_elem_of_fmap)%list_elem_of_fmap. cbn in E1. injection E2 as -> ->.
    apply Hn. rewrite (Hi e e'); [by apply list_elem_of_fmap_2|by left|by right|done].
  - apply IH; [done|]. intros. apply Hi; [by right|by right|done].
Qed.

Lemma pending_lookup q free id d :
  timers_ok q free -> pending q !! id = Some d <-> exists e, e ∈ timers q /\ timer_data e = (id, d).
Proof.
  intros Hok. unfold pending. rewrite <- elem_of_list_to_map by (by eapply ids_nodup).
  rewrite list_elem_of_fmap. by split; intros (e&?&?); exists e.
Qed.

Lemma pending_perm q free e t :
  timers_ok q free -> e :: t ≡ₚ timers q ->
  pending q = <[te_id e := (deadline_ms e, te_cb e, te_userdata e)]> (list_to_map (timer_data <$> t)) /\
  (list_to_map (timer_data <$> t) : gmap Z (Z * Z * Z)) !! te_id e = None.
Proof.
  intros Hok HP. pose proof (ids_nodup q free Hok) as Hn. unfold pending.
  assert (HP' : timer_data e :: (timer_data <$> t) ≡ₚ timer_data <$> timers q)
    by (rewrite <- HP; done).
  assert ((list_to_map (timer_data <$> timers q) : gmap Z (Z * Z * Z))
          = list_to_map (timer_data e :: (timer_data <$> t))) as ->
    by (apply list_to_map_proper; [done|by symmetry]).
  split; [done|].
  rewrite <- HP' in Hn. cbn in Hn. apply NoDup_cons in Hn as [Hn _]. by apply not_elem_of_list_to_map_1.
Qed.

Lemma pending_removed q free q' e :
  timers_ok q free -> e :: timers q' ≡ₚ timers q -> pending q' = delete (te_id e) (pending q).
Proof.
  intros Hok HP. destruct (pending_perm q free e (timers q') Hok HP) as [-> Hn].
  by rewrite delete_insert_id.
Qed.

(** ** A timer leaves *)

Lemma timers_ok_probes q free n : timers_ok q free -> timers_ok (with_probes q n) free.
Proof. intros [[] ? ? ? ? ? ? ?]. by split. Qed.

Lemma slot_release {A} (sl : list A) i s x :
  sl.[i] = Some s -> exists sl', mem_set sl i x = Some sl' /\ zlen sl' = zlen sl /\
    forall j, sl'.[j] = if j =? i then Some x else sl.[j].
Proof.
  intros Hi. apply mem_get_inv in Hi as [Hi _].
  destruct (mem_set sl i x) as [sl'|] eqn:E; [|by rewrite mem_set_Some in E].
  exists sl'. split; [done|]. split; [by apply (mem_set_get _ _ _ _ 0 E)|].
  intros j. by apply (mem_set_get _ _ _ _ j E).
Qed.

(** The slot of the entry that left, before it is given back. *)
Lemma removed_slot q free q1 e :
  timers_ok q free -> e ∈ timers q -> removed q q1 e ->
  exists s, (slots q1).[te_slot e] = Some s /\ in_use s = 1 /\
    handle_range (gen s) (te_slot e) /\ te_id e = timer_handle (gen s) (te_slot e) /\ te_slot e ∉ free.
Proof.
  intros Hok He (Hss&_). destruct (live_range q free e Hok He) as (s&Hs&Hu&Hr&Hid).
  destruct (proj2 Hss _ _ Hs) as [j Hj]. eexists. split_and!; [done..|].
  intros Hin. destruct (free_chain_in _ _ _ _ (tk_free _ _ Hok) Hin) as (s'&Hs'&Hu').
  rewrite Hs in Hs'. injection Hs' as <-. lia.
Qed.

(** The entries that stay, whatever becomes of the slot of the one that left. *)
Lemma removed_heap q free q1 e (sl : list timer_slot) :
  timers_ok q free -> removed q q1 e -> zlen sl = zlen (slots q1) ->
  (forall j, j <> te_slot e -> sl.[j] = (slots q1).[j]) ->
  (forall s, sl.[te_slot e] = Some s -> in_use s = 0 /\ 0 <= gen s <= TIMER_GEN_MAX) ->
  let q2 := with_slots q1 sl in
  heap_inv q2 /\ Forall (live (slots q2)) (timers q2) /\
  (forall i s, (slots q2).[i] = Some s -> in_use s <> 0 -> exists e', e' ∈ timers q2 /\ te_slot e' = i) /\
  (forall i s, (slots q2).[i] = Some s -> 0 <= gen s <= TIMER_GEN_MAX) /\
  timer_count q2 <= timer_cap q2 <= 2097152 /\ slots_count q2 <= slots_cap q2 <= TIMER_MAX_SLOTS.
Proof.
  intros Hok (Hss&HP&Hl&Ho&Hc1&Hc2&_&_) Hlen Hoth He. cbn.
  pose proof Hok as [[_ _ Hd Hs Hmax] Hlive Hused Hgen _ _ _ Hcaps]. pose proof Hss as [Hsl _].
  assert (Hcount : timer_count q = 1 + timer_count q1)
    by (unfold timer_count, zlen; rewrite <- HP; cbn; lia).
  rewrite <- HP in Hd, Hs, Hlive. cbn in Hd. apply NoDup_cons in Hd as [Hnin Hd].
  apply Forall_cons in Hs as [_ Hs], Hlive as [_ Hlive].
  assert (Hne : forall x, x ∈ timers q1 -> te_slot x <> te_slot e).
  { intros x Hx E. apply Hnin. rewrite <- E. by apply list_elem_of_fmap_2. }
  unfold slots_count, timer_count in *. cbn. split_and!; try lia.
  - split; cbn; try done; [| |unfold timer_count in *; cbn; lia].
    + intros j x Hx. destruct (Hl j x Hx) as (s&Es&Ep). exists s. cbn. rewrite Hoth; [done|].
      apply Hne. apply mem_get_inv in Hx as [_ Hx]. by eapply list_elem_of_lookup_2.
    + unfold slots_count. cbn. by rewrite Hlen, Hsl.
  - rewrite Forall_forall in *. intros x Hx. destruct (same_slots_live _ _ x Hss (Hlive x Hx)) as (s&Es&Hu&Hid).
    exists s. rewrite Hoth by (by apply Hne). done.
  - intros i s Hi Hu. destruct (decide (i = te_slot e)) as [->|Hi'].
    + destruct (He s Hi). done.
    + rewrite Hoth in Hi by done. destruct (same_slots_back _ _ _ _ Hss Hi) as (s0&Hi0&_&Hu0).
      destruct (Hused i s0 Hi0) as (x&Hx&Ex); [congruence|]. exists x. split; [|done].
      rewrite <- HP in Hx. apply elem_of_cons in Hx as [->|Hx]; [by subst i|done].
  - intros i s Hi. destruct (decide (i = te_slot e)) as [->|Hi']; [by apply He|].
    rewrite Hoth in Hi by done. destruct (same_slots_back _ _ _ _ Hss Hi) as (s0&Hi0&->&_). by eapply Hgen.
Qed.

(** The gens decide what may still be issued. *)
Lemma unissued_ext q free q' free' :
  slots_count q' = slots_count q ->
  (forall i s g, (slots q).[i] = Some s -> exists s', (slots q').[i] = Some s' /\
     (gen s' < g \/ gen s' = g /\ i ∈ free' <-> gen s < g \/ gen s = g /\ i ∈ free)) ->
  forall id, unissued q' free' id <-> unissued q free id.
Proof.
  intros Hc He id. unfold unissued. rewrite Hc.
  split; intros (g&i&Hr&->&Hor); exists g, i; (split; [done|]; split; [done|]);
    (destruct Hor as [?|(s&Hs&Hor)]; [by left|right]).
  - assert (Hi : 0 <= i < zlen (slots q)) by (apply mem_get_inv in Hs as [? _]; unfold slots_count in Hc; lia).
    apply mem_get_Some in Hi as [s0 Hs0]. destruct (He i s0 g Hs0) as (s'&Hs'&Hiff).
    rewrite Hs in Hs'. injection Hs' as <-. exists s0. split; [done|]. by apply Hiff.
  - destruct (He i s g Hs) as (s'&Hs'&Hiff). exists s'. split; [done|]. by apply Hiff.
Qed.

(** The slot is freed: recycled with a new generation, or retired. *)
Lemma timer_drop q free q1 e n :
  timers_ok q free -> e ∈ timers q -> removed q q1 e ->
  exists q2 free2, timer_slot_free (with_probes q1 n) (te_slot e) = Some q2 /\
    timers_ok q2 free2 /\ pending q2 = delete (te_id e) (pending q) /\
    cancel_probe_steps q2 = n /\
    forall id, unissued q2 free2 id <-> unissued q free id.
Proof.
  intros Hok He Hr. destruct (removed_slot q free q1 e Hok He Hr) as (s&Hs&Hu&[Hg Hrange]&Hid&Hnin).
  pose proof Hr as (Hss&HP&_&_&_&_&Hfree&_). pose proof Hss as [Hsl _].
  pose proof (same_slots_chain _ _ _ _ Hss (tk_free _ _ Hok)) as Hchain.
  set (recycle := gen s <? TIMER_GEN_MAX).
  set (s' := if recycle then TimerSlot (heap_pos s) (gen s + 1) (free_slot q1) 0
             else TimerSlot (heap_pos s) (gen s) (next_free s) 0).
  assert (Hs' : in_use s' = 0 /\ 0 <= gen s' <= TIMER_GEN_MAX)
    by (unfold s', recycle; case_if; cbn; lia).
  destruct (slot_release _ _ _ s' Hs) as (sl&Hset&Hlen&Hget).
  assert (Hdrop : let q2 := with_slots q1 sl in _) by
    (apply (removed_heap q free q1 e sl Hok Hr Hlen);
     [intros j Hj; by rewrite Hget, (proj2 (Z.eqb_neq _ _) Hj)|
      intros x; rewrite Hget, Z.eqb_refl; intros Hx; assert (x = s') as -> by congruence; exact Hs']).
  cbn in Hdrop. destruct Hdrop as (Hheap&Hlive&Hused&Hgens&Hcaps).
  assert (Hext : free_chain sl (free_slot q1) free).
  { rewrite Hfree. eapply free_chain_ext; [|exact Hchain]. intros i x Hi Hx. exists x.
    rewrite Hget, (proj2 (Z.eqb_neq _ _)); [done|by intros ->]. }
  set (free2 := if recycle then te_slot e :: free else free).
  set (q2 := (if recycle then with_free_slot (with_slots (with_probes q1 n) sl) (te_slot e)
              else with_slots (with_probes q1 n) sl)).
  assert (Hq2 : timer_slot_free (with_probes q1 n) (te_slot e) = Some q2).
  { unfold timer_slot_free. cbn. rewrite Hs. cbn [mbind option_bind]. unfold q2, s' in *.
    change (gen s <? TIMER_GEN_MAX) with recycle.
    destruct recycle; cbn in Hset; cbn; by rewrite Hset. }
  exists q2, free2. split; [exact Hq2|]. split; [|split; [|split]].
  - assert (Hparts : heap_inv q2 /\ timers q2 = timers q1 /\ slots q2 = sl /\
      timer_cap q2 = timer_cap q1 /\ slots_cap q2 = slots_cap q1 /\
      free_slot q2 = if recycle then te_slot e else free_slot q1).
    { unfold q2. destruct recycle; (split; [destruct Hheap; by split|done]). }
    destruct Hparts as (Hh&Ht&Hsl2&Hc1&Hc2&Hf2).
    split; rewrite ?Ht, ?Hsl2, ?Hf2; try done.
    + unfold free2. destruct recycle eqn:Er; [|done]. cbn. split; [done|]. exists s'.
      rewrite Hget, Z.eqb_refl. done.
    + unfold free2. destruct recycle; [|by apply (tk_nodup _ _ Hok)].
      constructor; [done|by apply (tk_nodup _ _ Hok)].
    + intros i x. rewrite Hget. destruct (Z.eqb_spec i (te_slot e)) as [->|Hne].
      * intros [= <-] _. unfold free2, s'. destruct recycle eqn:Er; [left; by left|right].
        cbn. unfold recycle in Er. bool_hyps. lia.
      * intros Hx Hux. destruct (same_slots_back _ _ _ _ Hss Hx) as (y&Hy&->&Huy).
        destruct (tk_retired _ _ Hok i y Hy ltac:(congruence)) as [?|?]; [left|by right].
        unfold free2. destruct recycle; [by right|done].
    + unfold timer_count, slots_count in *. by rewrite Ht, Hsl2, Hc1, Hc2.
  - assert (pending q2 = pending q1) as -> by (unfold q2; by destruct recycle).
    by eapply pending_removed.
  - unfold q2. by destruct recycle.
  - assert (Hsl2 : slots q2 = sl) by (unfold q2; by destruct recycle).
    apply unissued_ext; unfold slots_count; rewrite Hsl2; [by rewrite Hlen|].
    intros i x g Hx. destruct (proj2 Hss _ _ Hx) as [j Hj]. rewrite Hget.
    destruct (Z.eqb_spec i (te_slot e)) as [->|Hne].
    + rewrite Hs in Hj. injection Hj as ->. cbn in *. eexists; split; [done|].
      unfold free2, s', recycle. case_if; cbn; rewrite ?elem_of_cons; intuition lia.
    + eexists; split; [done|]. cbn. unfold free2. destruct recycle; [|done].
      rewrite elem_of_cons. tauto.
Qed.

(** ** Cancelling and expiring *)

Lemma with_probes_id q : with_probes q (cancel_probe_steps q) = q.
Proof. by destruct q. Qed.

(** Where the entry of a used slot is. *)
Lemma used_entry q free i s :
  timers_ok q free -> (slots q).[i] = Some s -> in_use s <> 0 ->
  exists e, (timers q).[heap_pos s] = Some e /\ e ∈ timers q /\ te_slot e = i /\
            handle_range (gen s) i /\ te_id e = timer_handle (gen s) i.
Proof.
  intros Hok Hs Hu. destruct (tk_used _ _ Hok i s Hs Hu) as (e&He&<-).
  destruct (live_range q free e Hok He) as (s'&Hs'&_&Hr&Hid).
  rewrite Hs in Hs'. injection Hs' as <-. exists e. split_and!; try done; [|apply Hr..].
  apply list_elem_of_lookup in He as [j Hj]. pose proof (lookup_lt_Some _ _ _ Hj).
  assert (Hje : (timers q).[Z.of_nat j] = Some e) by (rewrite mem_get_lookup, Nat2Z.id by lia; done).
  destruct (hi_linked _ (tk_heap _ _ Hok) _ _ Hje) as (s'&Hs'&Hp'). rewrite Hs in Hs'.
  injection Hs' as <-. by rewrite Hp'.
Qed.

(** The lookup of [cancel_timer] decides whether the handle waits. *)
Lemma pending_lookup_slot q free id d :
  timers_ok q free -> pending q !! id = Some d ->
  exists s, Z.land id TIMER_SLOT_MASK <> 0 /\ Z.land id TIMER_SLOT_MASK - 1 < slots_count q /\
    (slots q).[Z.land id TIMER_SLOT_MASK - 1] = Some s /\ in_use s = 1 /\
    gen s = Z.shiftr id TIMER_SLOT_BITS.
Proof.
  intros Hok (e&He&[= <- _])%(pending_lookup q free _ _ Hok).
  destruct (live_range q free e Hok He) as (s&Hs&Hu&Hr&->).
  rewrite timer_handle_slot, timer_handle_gen by done. exists s.
  replace (te_slot e + 1 - 1) with (te_slot e) by lia.
  pose proof (mem_get_inv _ _ _ Hs) as [? _]. unfold slots_count. split_and!; (done || lia).
Qed.

Lemma cancel_timer_spec q free id :
  timers_ok q free ->
  exists q' free' k, cloak_reactor_cancel_timer q id = Some q' /\ timers_ok q' free' /\
    pending q' = delete id (pending q) /\
    (forall x, unissued q' free' x <-> unissued q free x) /\
    cancel_probe_steps q' mod 18446744073709551616
      = (cancel_probe_steps q + k) mod 18446744073709551616 /\
    0 <= k <= 2 + Z.log2 (timer_count q).
Proof.
  intros Hok. unfold cloak_reactor_cancel_timer. pose proof (Z.log2_nonneg (timer_count q)) as Hlog.
  (* nothing waits under the handle *)
  assert (Hnone : forall n k, n mod 18446744073709551616
                                = (cancel_probe_steps q + k) mod 18446744073709551616 ->
    0 <= k <= 1 -> pending q !! id = None ->
    exists q' free' k, Some (with_probes q n) = Some q' /\ timers_ok q' free' /\
      pending q' = delete id (pending q) /\ (forall x, unissued q' free' x <-> unissued q free x) /\
      cancel_probe_steps q' mod 18446744073709551616
        = (cancel_probe_steps q + k) mod 18446744073709551616 /\
      0 <= k <= 2 + Z.log2 (timer_count q)).
  { intros n k Hn Hk Hpn. exists (with_probes q n), free, k. split_and!; try done; try lia.
    - by apply timers_ok_probes.
    - by rewrite delete_id. }
  assert (Hno : (forall s d, pending q !! id = Some d -> Z.land id TIMER_SLOT_MASK <> 0 ->
      Z.land id TIMER_SLOT_MASK - 1 < slots_count q ->
      (slots q).[Z.land id TIMER_SLOT_MASK - 1] = Some s -> in_use s = 1 ->
      gen s = Z.shiftr id TIMER_SLOT_BITS -> False) -> pending q !! id = None).
  { intros Hf. destruct (pending q !! id) as [d|] eqn:Hd; [exfalso|done].
    destruct (pending_lookup_slot q free id d Hok Hd) as (s&?&?&?&?&?). by apply (Hf s d). }
  case_if.
  { pose proof (Hnone (cancel_probe_steps q) 0) as H0. rewrite with_probes_id in H0. apply H0; [by rewrite Z.add_0_r|lia|].
    apply Hno. intros s d _ Hl _ _ _ _. subst id. by apply Hl. }
  assert (Hone : u64 (cancel_probe_steps q + 1) mod 18446744073709551616
                 = (cancel_probe_steps q + 1) mod 18446744073709551616)
    by (unfold u64; apply Zmod_mod).
  case_if; [apply (Hnone _ 1); [done|lia|apply Hno; intros; congruence]|].
  cbn [slots slots_count with_probes]. unfold slots_count at 1. cbn [slots with_probes].
  case_if; [apply (Hnone _ 1); [done|lia|apply Hno; unfold slots_count; intros; lia]|].
  pose proof (timer_low_range id) as Hlow.
  destruct (mem_get_Some (slots q) (Z.land id TIMER_SLOT_MASK - 1)) as [s Hs].
  { split; [lia|done]. }
  rewrite Hs. cbn [mbind option_bind].
  destruct ((in_use s =? 0) || _) eqn:Etest.
  { apply (Hnone _ 1); [done|lia|]. apply Hno. intros s' d _ _ _ Hs' Hu Hg.
    rewrite Hs in Hs'. injection Hs' as <-. rewrite Hu, Hg, Z.eqb_refl in Etest. done. }
  bool_hyps. destruct (used_entry q free _ s Hok Hs ltac:(done)) as (e&Hpos&He&Hsl&Hr&Hte).
  assert (Hdec : te_id e = id).
  { rewrite Hte. replace (gen s) with (Z.shiftr id TIMER_SLOT_BITS) in * by congruence.
    apply handle_decode; [apply Hr|done]. }
  pose proof (timers_ok_probes q free (u64 (cancel_probe_steps q + 1)) Hok) as Hok1.
  destruct (heap_remove_at_spec _ _ _ (tk_heap _ _ Hok1) Hpos) as (m&q1&->&Hrem&Hm).
  cbn [mbind option_bind]. destruct (timer_drop _ free q1 e (u64 (cancel_probe_steps q1 + m)) Hok1 He Hrem)
    as (q2&free2&Hfree&Hok2&Hpend&Hprobe&Hun).
  rewrite u32_small by (timer_consts; lia). rewrite <- Hsl, Hfree.
  exists q2, free2, (1 + m). split_and!; try done.
  - by rewrite Hpend, Hdec.
  - rewrite Hprobe. destruct Hrem as (_&_&_&_&_&_&_&->). cbn. unfold u64.
    rewrite Zmod_mod, Zplus_mod_idemp_l. f_equal. lia.
  - lia.
  - unfold timer_count in *. cbn in Hm. lia.
Qed.

Lemma pending_first q free :
  timers_ok q free -> forall first id d, (timers q).[0] = Some first -> pending q !! id = Some d ->
  deadline_ms first <= d.1.1.
Proof.
  intros Hok first id d Hf (e&He&[= _ <-])%(pending_lookup q free _ _ Hok). cbn.
  apply list_elem_of_lookup in He as [j Hj]. pose proof (lookup_lt_Some _ _ _ Hj).
  pose proof (ordered_min _ _ (Z.of_nat j) (hi_ordered _ (tk_heap _ _ Hok))) as Hm.
  unfold due, timer_count, zlen in Hm. rewrite Hf, mem_get_lookup, Nat2Z.id, Hj in Hm by lia.
  apply Hm. lia.
Qed.

Lemma timer_expire_spec q free now :
  timers_ok q free ->
  exists r, timer_expire q now = Some r /\
    match r with
    | None => forall id d, pending q !! id = Some d -> now < d.1.1
    | Some (top, q') => exists free',
        timers_ok q' free' /\ top ∈ timers q /\ deadline_ms top <= now /\
        pending q !! te_id top = Some (deadline_ms top, te_cb top, te_userdata top) /\
        (forall id d, pending q !! id = Some d -> deadline_ms top <= d.1.1) /\
        pending q' = delete (te_id top) (pending q) /\
        cancel_probe_steps q' = cancel_probe_steps q /\
        forall x, unissued q' free' x <-> unissued q free x
    end.
Proof.
  intros Hok. unfold timer_expire. case_if.
  2: { exists None. split; [done|]. intros id d Hd. exfalso.
       apply (pending_lookup q free _ _ Hok) in Hd as (e&He&_).
       unfold timer_count in E. rewrite (zlen_zero (timers q)) in He by (zlen_pos; lia).
       by apply not_elem_of_nil in He. }
  destruct (mem_get_Some (timers q) 0) as [top Htop]; [unfold timer_count in E; lia|].
  rewrite Htop. cbn [mbind option_bind]. case_if.
  { exists None. split; [done|]. intros id d Hd.
    pose proof (pending_first q free Hok top id d Htop Hd). lia. }
  destruct (heap_remove_at_spec _ _ _ (tk_heap _ _ Hok) Htop) as (m&q1&->&Hrem&_).
  cbn [mbind option_bind].
  assert (He : top ∈ timers q) by (apply mem_get_inv in Htop as [_ ?]; by eapply list_elem_of_lookup_2).
  destruct (timer_drop q free q1 top (cancel_probe_steps q1) Hok He Hrem)
    as (q2&free2&Hfree&Hok2&Hpend&Hprobe&Hun).
  rewrite with_probes_id in Hfree. rewrite Hfree. exists (Some (top, q2)). split; [done|].
  exists free2. split_and!; try done.
  - apply (pending_lookup q free _ _ Hok). by exists top.
  - intros id d. by apply (pending_first q free Hok).
  - rewrite Hprobe. by destruct Hrem as (_&_&_&_&_&_&_&->).
Qed.

(** ** Adding *)

(** A slot was taken out of the table for a new timer. *)
Record allotted (q : timer_state) (free : list Z) (q1 : timer_state) (free1 : list Z)
    (slot : Z) (s : timer_slot) : Prop := {
  al_timers : timers q1 = timers q;
  al_cap : timer_cap q1 = timer_cap q;
  al_probes : cancel_probe_steps q1 = cancel_probe_steps q;
  al_slot : (slots q1).[slot] = Some s;
  al_in_use : in_use s = 1;
  al_range : handle_range (gen s) slot;
  al_count : slots_count q <= slots_count q1;
  al_others : forall j, j <> slot -> (slots q1).[j] = (slots q).[j];
  al_new : forall e, e ∈ timers q -> te_slot e <> slot;
  al_chain : free_chain (slots q1) (free_slot q1) free1;
  al_nodup : NoDup free1;
  al_free : forall i, i <> slot -> i ∈ free -> i ∈ free1;
  al_caps : slots_count q1 <= slots_cap q1 <= TIMER_MAX_SLOTS;
  al_fresh : unissued q free (timer_handle (gen s) slot);
  al_unissued : forall x, unissued q1 free1 x <-> unissued q free x /\ x <> timer_handle (gen s) slot
}.

(** The handle of the new slot is gone from what may be issued, no other is. *)
Lemma issue_unissued q free q1 free1 slot s :
  handle_range (gen s) slot ->
  (slots q1).[slot] = Some s -> slot ∉ free1 ->
  (forall i g, i = slot -> handle_range g i ->
     (slots_count q <= i \/ exists x, (slots q).[i] = Some x /\ (gen x < g \/ gen x = g /\ i ∈ free))
     <-> gen s <= g) ->
  (forall i, i <> slot -> (slots q1).[i] = (slots q).[i]) ->
  (forall i, i <> slot -> i ∈ free1 <-> i ∈ free) ->
  (forall i, i <> slot -> slots_count q1 <= i <-> slots_count q <= i) ->
  forall x, unissued q1 free1 x <-> unissued q free x /\ x <> timer_handle (gen s) slot.
Proof.
  intros Hr Hs Hnin Hslot Hoth Hfree Hcount x. unfold unissued. split.
  - intros (g&i&Hgi&->&Hor). destruct (decide (i = slot)) as [->|Hi].
    + assert (gen s < g).
      { destruct Hor as [Hc|(y&Hy&Hor)].
        - apply mem_get_inv in Hs as [? _]. unfold slots_count in Hc. lia.
        - rewrite Hs in Hy. injection Hy as <-. destruct Hor as [?|[_ ?]]; done. }
      split; [|intros [? _]%timer_handle_inj; [lia|done|done]].
      exists g, slot. split; [done|]. split; [done|]. apply (Hslot slot g); [done|done|lia].
    + rewrite Hcount, Hoth in Hor by done. setoid_rewrite (Hfree i Hi) in Hor.
      split; [by exists g, i|]. by intros [_ ?]%timer_handle_inj.
  - intros [(g&i&Hgi&->&Hor) Hne]. exists g, i. split; [done|]. split; [done|].
    destruct (decide (i = slot)) as [->|Hi].
    + right. exists s. split; [done|]. left. apply (Hslot slot g) in Hor; [|done|done].
      destruct (decide (gen s = g)) as [<-|]; [done|lia].
    + rewrite Hcount, Hoth by done. by setoid_rewrite (Hfree i Hi).
Qed.

Lemma timer_slot_alloc_spec q free mem :
  timers_ok q free ->
  match timer_slot_alloc q mem with
  | None => False
  | Some None => mem = false \/ free = [] /\ slots_count q = TIMER_MAX_SLOTS
  | Some (Some (slot, q1)) => exists free1 s, allotted q free q1 free1 slot s
  end.
Proof.
  intros Hok. pose proof Hok as [_ _ _ Hgen Hchain Hnd _ [_ Hcaps]]. unfold timer_slot_alloc.
  pose proof (free_chain_range _ _ _ Hchain) as Hfr.
  assert (Hmax : zlen (slots q) <= TIMER_MAX_SLOTS) by (unfold slots_count in Hcaps; lia).
  assert (Hnew : forall i e, e ∈ timers q -> i ∈ free \/ slots_count q <= i -> te_slot e <> i).
  { intros i e He Hi <-. destruct (live_range q free e Hok He) as (s&Hs&Hu&_).
    destruct Hi as [Hi|Hi].
    - destruct (free_chain_in _ _ _ _ Hchain Hi) as (s'&Hs'&Hu'). rewrite Hs in Hs'.
      injection Hs' as <-. lia.
    - apply mem_get_inv in Hs as [? _]. unfold slots_count in Hi. lia. }
  destruct (free_slot q =? TIMER_NO_SLOT) eqn:Ehead; cbn [negb].
  - pose proof (free_chain_head _ _ _ Hchain Hfr Hmax Ehead) as ->.
    case_if; [right; split; [done|lia]|].
    (* a slot that was never used *)
    assert (Hadd : forall c, slots_count q < c <= TIMER_MAX_SLOTS ->
      exists free1 s, allotted q [] (with_slots (with_slots_cap q c)
        (slots q ++ [TimerSlot 0 0 TIMER_NO_SLOT 1])) free1 (slots_count q) s).
    { intros c Hc. pose proof (zlen_nonneg (slots q)) as Hpos. unfold slots_count in *.
      set (s := TimerSlot 0 0 TIMER_NO_SLOT 1). exists [], s.
      assert (Hs : (slots q ++ [s]).[zlen (slots q)] = Some s).
      { rewrite mem_get_app_r, Z.sub_diag by lia. done. }
      assert (Hoth : forall j, j <> zlen (slots q) -> (slots q ++ [s]).[j] = (slots q).[j]).
      { intros j Hj. destruct (Z.lt_ge_cases j (zlen (slots q))); [by apply mem_get_app_l|].
        rewrite mem_get_app_r by lia. unfold mem_get. decide_cmp.
        rewrite !lookup_ge_None_2; [done|unfold zlen in *; lia|cbn; lia]. }
      assert (Hr : handle_range (gen s) (zlen (slots q))) by (timer_consts; cbn; lia).
      split; try done; unfold slots_count; cbn [slots slots_cap with_slots with_slots_cap with_free_slot].
      - rewrite zlen_app. change (zlen [s]) with 1. lia.
      - intros e He. apply (Hnew _ e He). right. lia.
      - rewrite zlen_app. change (zlen [s]) with 1. lia.
      - exists 0, (zlen (slots q)). split; [done|]. split; [done|]. left. unfold slots_count. lia.
      - apply (issue_unissued _ _ _ _ (zlen (slots q)) s); [exact Hr|exact Hs|apply not_elem_of_nil| |exact Hoth|done|].
        + intros i g -> [Hg _]. split; [cbn; lia|]. intros _. left. unfold slots_count. lia.
        + intros i Hi. unfold slots_count. cbn. rewrite zlen_app. change (zlen [s]) with 1. lia. }
    assert (Hslot : u32 (slots_count q) = slots_count q)
      by (unfold slots_count in *; pose proof (zlen_nonneg (slots q)); timer_consts;
          apply u32_small; lia).
    assert (Hstep : forall c, slots_count q < c <= TIMER_MAX_SLOTS ->
      exists q1, Some (Some (u32 (slots_count (with_slots_cap q c)), q1)) =
        (if slots_count (with_slots_cap q c) <? slots_cap (with_slots_cap q c)
         then ok (u32 (slots_count (with_slots_cap q c)),
                  with_slots (with_slots_cap q c) (slots (with_slots_cap q c) ++ [TimerSlot 0 0 TIMER_NO_SLOT 1]))
         else None) /\ exists free1 s, allotted q [] q1 free1 (u32 (slots_count (with_slots_cap q c))) s).
    { intros c Hc. change (slots_count (with_slots_cap q c)) with (slots_count q).
      change (slots_cap (with_slots_cap q c)) with c. rewrite Hslot. decide_cmp.
      eexists. split; [done|]. by apply Hadd. }
    destruct (Z.eqb_spec (slots_count q) (slots_cap q)) as [Hfull|].
    + destruct mem; cbn [pbind ok malformed]; [|by left].
      match goal with |- context [with_slots_cap q ?c] => set (c0 := c) end.
      assert (Hc0 : slots_count q < c0 <= TIMER_MAX_SLOTS).
      { unfold c0. pose proof (zlen_nonneg (slots q)). unfold slots_count in *. timer_consts.
        rewrite u64_small by lia. repeat case_if; lia. }
      destruct (Hstep c0 Hc0) as (q1&<-&Hal). exact Hal.
    + cbn [pbind ok]. destruct (Hstep (slots_cap q) ltac:(lia)) as (q1&E1&Hal).
      replace (with_slots_cap q (slots_cap q)) with q in * by (by destruct q).
      rewrite <- E1. exact Hal.
  - (* the head of the free list *)
    destruct free as [|i free1]; [cbn in Hchain; by rewrite Hchain in Ehead|].
    destruct Hchain as [Hhead (x&Hx&Hu&Hch)]. rewrite Hhead in *. rewrite Hx. cbn [mbind option_bind].
    set (s := TimerSlot (heap_pos x) (gen x) TIMER_NO_SLOT 1).
    destruct (slot_release _ _ _ s Hx) as (sl&->&Hlen&Hget). cbn [mbind option_bind].
    apply NoDup_cons in Hnd as [Hnin Hnd]. exists free1, s.
    pose proof (mem_get_inv _ _ _ Hx) as [Hi _].
    assert (Hr : handle_range (gen s) i).
    { split; [exact (Hgen i x Hx)|]. unfold slots_count in Hcaps. lia. }
    assert (Hs : sl.[i] = Some s) by (by rewrite Hget, Z.eqb_refl).
    assert (Hoth : forall j, j <> i -> sl.[j] = (slots q).[j])
      by (intros j Hj; by rewrite Hget, (proj2 (Z.eqb_neq _ _) Hj)).
    split; try done; unfold slots_count; cbn [slots slots_cap with_slots with_slots_cap with_free_slot].
    + lia.
    + intros e He. apply (Hnew _ e He). left. by left.
    + eapply free_chain_ext; [|exact Hch]. intros j y Hj Hy. exists y.
      rewrite Hoth; [done|]. by intros ->.
    + intros j Hj [->|?]%elem_of_cons; done.
    + unfold slots_count in Hcaps. lia.
    + exists (gen x), i. split; [done|]. split; [done|]. right. exists x. split; [done|].
      right. split; [done|by left].
    + apply (issue_unissued _ _ _ _ i s); [exact Hr|exact Hs|exact Hnin| |exact Hoth| |]; cbn.
      * intros k g -> [Hg _]. unfold slots_count. split.
        -- intros [?|(y&Hy&Hor)]; [lia|]. rewrite Hx in Hy. injection Hy as <-. lia.
        -- intros Hge. right. exists x. split; [done|]. destruct (decide (gen x = g)); [right|left; lia].
           split; [done|by left].
      * intros k Hk. rewrite elem_of_cons. tauto.
      * intros k Hk. unfold slots_count. cbn. by rewrite Hlen.
Qed.

Lemma timers_ok_cap q free c :
  timers_ok q free -> timer_count q <= c <= 2097152 -> timers_ok (with_timer_cap q c) free.
Proof. intros [[] ? ? ? ? ? ? [_ ?]] Hc. by split. Qed.

(** The entry of the new slot joins the heap. *)
Lemma timer_join q free q1 free1 slot s e :
  timers_ok q free -> timer_count q < timer_cap q -> allotted q free q1 free1 slot s ->
  te_slot e = slot -> te_id e = timer_handle (gen s) slot ->
  exists q2 m q3, timer_place (with_timers q1 (timers q1 ++ [e])) (timer_count q1) e = Some q2 /\
    heap_sift_up q2 (timer_count q1) = Some (m, q3) /\ timers_ok q3 free1 /\
    e :: timers q ≡ₚ timers q3 /\
    slots_count q3 = slots_count q1 /\ same_slots (slots q1) (slots q3) /\
    cancel_probe_steps q3 = cancel_probe_steps q1.
Proof.
  intros Hok Hcap Hal Hsl Hid. pose proof Hok as [[Ho Hl Hd Hs Hmax] Hlive Hused Hgen _ _ Hret Hcaps].
  destruct Hal as [Ht Hc _ Hslot Huse Hr Hcount Hoth Hnew Hch Hnd Hfr Hcaps1 _ _].
  set (h := timers q ++ [e]). set (q0 := with_timers q1 (timers q1 ++ [e])).
  assert (Hht : timers q0 = h) by (unfold q0, h; cbn; by rewrite Ht).
  assert (Hn : timer_count q1 = timer_count q) by (unfold timer_count; by rewrite Ht).
  assert (Hlen : zlen (timers q0) = timer_count q + 1)
    by (rewrite Hht; unfold h, timer_count; by rewrite zlen_app).
  assert (Hpos : 0 <= timer_count q) by (unfold timer_count; apply zlen_nonneg).
  assert (Hge : (timers q0).[timer_count q] = Some e).
  { rewrite Hht. unfold h, timer_count. by rewrite mem_get_app_r, Z.sub_diag by lia. }
  assert (Hlast : forall j x, (timers q0).[j] = Some x -> j <> timer_count q -> (timers q).[j] = Some x).
  { intros j x Hx Hj. pose proof (mem_get_inv _ _ _ Hx) as [Hjl _]. rewrite Hht in Hx.
    unfold h, timer_count in *. rewrite mem_get_app_l in Hx by lia. done. }
  assert (Hkeep : forall i x, (slots q).[i] = Some x -> i <> slot -> (slots q1).[i] = Some x)
    by (intros; by rewrite Hoth).
  assert (Hnew' : forall x, x ∈ timers q -> te_slot x <> slot) by done.
  assert (Hdh : NoDup (te_slot <$> h)).
  { unfold h. rewrite fmap_app. apply NoDup_app. split_and!; [done| |apply NoDup_singleton].
    intros i (x&->&Hx)%list_elem_of_fmap Hin. apply list_elem_of_singleton in Hin.
    apply (Hnew' x Hx). congruence. }
  assert (Hrange : Forall (fun e => 0 <= te_slot e < zlen (slots q1)) h).
  { unfold h. apply Forall_app. split.
    - eapply Forall_impl; [exact Hs|]. cbn. unfold slots_count in *. lia.
    - constructor; [|constructor]. rewrite Hsl. by apply mem_get_inv in Hslot as [? _]. }
  assert (Hh0 : holed q0 (timer_count q) e h).
  { split; [lia| |done|done|].
    - rewrite Hht, list_insert_id; [done|]. rewrite <- Hht. by apply mem_get_inv in Hge as [_ ?].
    - intros j x Hj Hx. pose proof (Hlast j x Hx Hj) as Hxq.
      destruct (Hl j x Hxq) as (y&Hy&Hp). exists y. split; [|done]. cbn. apply Hkeep; [done|].
      apply Hnew'. apply mem_get_inv in Hxq as [_ ?]. by eapply list_elem_of_lookup_2. }
  destruct (place_settled q0 _ e h Hh0) as (q2&E2&Hr2&Hset2&Hdue2). exists q2.
  rewrite Hn. rewrite E2. pose proof Hr2 as ((Hsl2&_)&Hlen2&Hcap2&Hscap2&Hfree2&Hprobe2).
  destruct (mem_get_Some (timers q2) (timer_count q)) as [x Hx]; [lia|].
  assert (Hh2 : holed q2 (timer_count q) x h).
  { apply settled_holed; try done. rewrite Hsl2. done. }
  assert (Hup : up_ordered (zlen (timers q2)) (due (timers q2)) (timer_count q)).
  { rewrite Hlen2, Hlen. eapply up_ordered_ext; [lia|intros; rewrite Hdue2; apply held_due; exact Hge|].
    assert (Hdq : forall j, j < timer_count q -> due (timers q0) j = due (timers q) j).
    { intros j Hj. unfold due. rewrite Hht. unfold h. by rewrite mem_get_app_l. }
    split; intros j Hj.
    - intros Hne. rewrite !Hdq by hlia. apply Ho. lia.
    - intros Hp. exfalso. hlia. }
  destruct (timer_sift_up_spec q2 _ x h Hh2 Hx Hup) as (m&q3&E3&_&_&Hr3&[HP3 Hl3]&Ho3).
  { rewrite Hlen2, Hlen. change INT64_MAX with 9223372036854775807. lia. }
  exists m, q3. split; [done|]. split; [done|].
  pose proof (rearranged_trans _ _ _ Hr2 Hr3) as (Hss&Hlen3&Hcap3&Hscap3&Hfree3&Hprobe3).
  assert (Hss1 : same_slots (slots q1) (slots q3)) by done. pose proof Hss1 as [Hsc3 _].
  assert (HPe : e :: timers q ≡ₚ timers q3) by (rewrite HP3; unfold h; apply Permutation_cons_append).
  split; [|split_and!; done].
  split.
  - split; [exact Ho3|exact Hl3|by rewrite HP3| |].
    + unfold slots_count. by rewrite HP3, Hsc3.
    + unfold timer_count. rewrite Hlen3, Hlen. unfold INT64_MAX. lia.
  - rewrite HP3. apply Forall_app. split.
    + rewrite Forall_forall in *. intros y Hy. apply (same_slots_live (slots q1)); [done|].
      destruct (Hlive y Hy) as (z&Hz&Hrest). exists z. split; [|done]. apply Hkeep; auto.
    + constructor; [|constructor]. apply (same_slots_live (slots q1)); [done|].
      exists s. by rewrite Hsl.
  - intros i y Hy Hu. destruct (same_slots_back _ _ _ _ Hss1 Hy) as (z&Hz&_&Huz).
    destruct (decide (i = slot)) as [->|Hi].
    + exists e. split; [rewrite <- HPe; by left|done].
    + rewrite Hoth in Hz by done. destruct (Hused i z Hz) as (y'&Hy'&E); [congruence|].
      exists y'. split; [|done]. rewrite <- HPe. by right.
  - intros i y Hy. destruct (same_slots_back _ _ _ _ Hss1 Hy) as (z&Hz&->&_).
    destruct (decide (i = slot)) as [->|Hi].
    + rewrite Hslot in Hz. injection Hz as <-. apply Hr.
    + rewrite Hoth in Hz by done. by eapply Hgen.
  - rewrite Hfree3. by eapply same_slots_chain.
  - done.
  - intros i y Hy Hu. destruct (same_slots_back _ _ _ _ Hss1 Hy) as (z&Hz&->&Huz).
    destruct (decide (i = slot)) as [->|Hi].
    + rewrite Hslot in Hz. injection Hz as <-. lia.
    + rewrite Hoth in Hz by done. destruct (Hret i z Hz ltac:(congruence)) as [?|?]; [left; auto|by right].
  - unfold timer_count at 1, slots_count. rewrite Hlen3, Hlen, Hcap3, Hscap3, Hsc3. cbn. rewrite Hc.
    split; [lia|done].
Qed.

Lemma heap_capacity_spec q free mem :
  timers_ok q free ->
  match timer_heap_ensure_capacity q mem with
  | None => False
  | Some None => mem = false
  | Some (Some q1) => exists c, q1 = with_timer_cap q c /\ timers_ok q1 free /\ timer_count q < c
  end.
Proof.
  intros Hok. pose proof (timers_count_slots q free Hok) as Hcs.
  pose proof (tk_caps _ _ Hok) as [Hcap Hsc]. pose proof (zlen_nonneg (timers q)) as Hpos.
  fold (timer_count q) in Hpos. unfold timer_heap_ensure_capacity. case_if.
  - exists (timer_cap q). assert (q = with_timer_cap q (timer_cap q)) as E1 by (by destruct q).
    split; [exact E1|]. split; [done|lia].
  - destruct mem; [|done]. timer_consts.
    assert (Hc : timer_count q < (if timer_cap q =? 0 then 8 else u64 (timer_cap q * 2)) <= 2097152).
    { case_if; [lia|]. rewrite u64_small by lia. lia. }
    eexists. split; [done|]. split; [apply timers_ok_cap; [done|lia]|lia].
Qed.

Lemma add_timer_spec q free now heap_mem slot_mem delay cb ud :
  timers_ok q free ->
  exists id q' free', cloak_reactor_add_timer q now heap_mem slot_mem delay cb ud = Some (id, q') /\
    timers_ok q' free' /\ cancel_probe_steps q' = cancel_probe_steps q /\
    if id =? CLOAK_TIMER_INVALID then
      pending q' = pending q /\ (forall x, unissued q' free' x <-> unissued q free x) /\
      (cb = 0 \/ heap_mem = false \/ slot_mem = false \/ free = [] /\ slots_count q = TIMER_MAX_SLOTS)
    else
      unissued q free id /\ pending q !! id = None /\
      pending q' = <[id := (u64 (now + delay), cb, ud)]> (pending q) /\
      forall x, unissued q' free' x <-> unissued q free x /\ x <> id.
Proof.
  intros Hok. unfold cloak_reactor_add_timer. destruct (Z.eqb_spec cb 0) as [->|Hcb].
  { exists CLOAK_TIMER_INVALID, q, free. split_and!; try done. split_and!; auto. }
  pose proof (heap_capacity_spec q free heap_mem Hok) as Hcap.
  destruct (timer_heap_ensure_capacity q heap_mem) as [[q1|]|]; [| |done].
  2: { exists CLOAK_TIMER_INVALID, q, free. split_and!; try done. split_and!; auto. }
  destruct Hcap as (c&->&Hok1&Hc). set (q1 := with_timer_cap q c) in *.
  pose proof (timer_slot_alloc_spec q1 free slot_mem Hok1) as Halloc.
  destruct (timer_slot_alloc q1 slot_mem) as [[[slot q2]|]|]; [| |done].
  2: { exists CLOAK_TIMER_INVALID, q1, free. split_and!; try done. split_and!; try done.
       destruct Halloc; auto. }
  destruct Halloc as (free1&s&Hal). pose proof Hal as [Ht Hcp Hprobe Hslot Huse Hr Hcnt _ _ _ _ _ _ Hfresh Hun].
  rewrite Hslot. cbn [mbind option_bind].
  set (e := TimerEntry (u64 (now + delay)) (timer_handle (gen s) slot) slot cb ud).
  assert (Hc2 : timer_count q2 = timer_count q) by (unfold timer_count; by rewrite Ht).
  rewrite Hcp. change (timer_cap q1) with c. rewrite Hc2. decide_cmp.
  destruct (timer_join q1 free q2 free1 slot s e Hok1 Hc Hal eq_refl eq_refl)
    as (q3&m&q4&E3&E4&Hok4&HP&Hc4&Hss&Hpr).
  rewrite Hc2 in E3, E4. rewrite E3. cbn [mbind option_bind]. rewrite E4. cbn [mbind option_bind].
  exists (te_id e), q4, free1. split; [done|]. split; [done|].
  split; [rewrite Hpr; exact Hprobe|].
  cbn [te_id e]. rewrite (proj2 (Z.eqb_neq _ _)).
  2: { pose proof (timer_handle_valid _ _ Hr). unfold CLOAK_TIMER_INVALID. lia. }
  split; [exact Hfresh|].
  destruct (pending_perm q4 free1 e (timers q) Hok4 HP) as [-> Hn].
  split; [exact Hn|]. split; [done|]. intros x. etransitivity; [|exact (Hun x)].
  apply unissued_ext; [done|]. intros i y g Hy. destruct (proj2 Hss _ _ Hy) as [j Hj]. by eexists.
Qed.

(** ** The contract, for every sequence of operations *)

Inductive timer_op :=
| AddTimer (now : Z) (heap_mem slot_mem : bool) (delay_ms cb userdata : Z)
| CancelTimer (id : Z)
| ExpireTimer (now : Z).

(** A cancellation shows its cost, an expiry the timer whose callback runs. *)
Inductive timer_out :=
| Issued (id : Z)
| Cancelled (steps : Z)
| Fired (timer : option (Z * (Z * Z * Z))).

Definition timer_exec (o : timer_op) (q : timer_state) : option (timer_out * timer_state) :=
  match o with
  | AddTimer now heap_mem slot_mem delay_ms cb userdata =>
      '(id, q') ← cloak_reactor_add_timer q now heap_mem slot_mem delay_ms cb userdata;
      Some (Issued id, q')
  | CancelTimer id =>
      q' ← cloak_reactor_cancel_timer q id;
      Some (Cancelled (u64 (cancel_probe_steps q' - cancel_probe_steps q)), q')
  | ExpireTimer now =>
      r ← timer_expire q now;
      Some (match r with
            | Some (top, q') => (Fired (Some (timer_data top)), q')
            | None => (Fired None, q)
            end)
  end.

(** A map from handles to the deadline, callback and user data of the timers
    that wait, and the handles issued so far. *)
Definition timer_world : Type := gmap Z (Z * Z * Z) * gset Z.

Definition timer_contract (o : timer_op) (w : timer_world) (out : timer_out) (w' : timer_world) : Prop :=
  let '(m, used) := w in
  match o, out with
  | AddTimer now heap_mem slot_mem delay cb ud, Issued id =>
      if id =? CLOAK_TIMER_INVALID then
        w' = w /\ (cb = 0 \/ heap_mem = false \/ slot_mem = false \/
                   TIMER_MAX_SLOTS <= Z.of_nat (size m) \/ TIMER_GEN_MAX < Z.of_nat (size used))
      else (id ∉ used) /\ w' = (<[id := (u64 (now + delay), cb, ud)]> m, {[id]} ∪ used)
  | CancelTimer id, Cancelled steps =>
      w' = (delete id m, used) /\ 0 <= steps <= 2 + Z.log2 (Z.of_nat (size m))
  | ExpireTimer now, Fired None => w' = w /\ forall id d, m !! id = Some d -> now < d.1.1
  | ExpireTimer now, Fired (Some (id, d)) =>
      m !! id = Some d /\ d.1.1 <= now /\ w' = (delete id m, used) /\
      forall id' d', m !! id' = Some d' -> d.1.1 <= d'.1.1
  | _, _ => False
  end.

(** The run of the contract; it also says that what waits was issued. *)
Fixpoint timer_history (ops : list timer_op) (w : timer_world) (outs : list timer_out)
    (w' : timer_world) : Prop :=
  match ops, outs with
  | [], [] => w' = w
  | o :: ops, out :: outs =>
      exists w1, timer_contract o w out w1 /\ dom w1.1 ⊆ w1.2 /\ timer_history ops w1 outs w'
  | _, _ => False
  end.

Definition timer_sim (q : timer_state) (w : timer_world) : Prop :=
  exists free, timers_ok q free /\ pending q = w.1 /\
    forall x, x ∈ w.2 <-> exists g i, handle_range g i /\ x = timer_handle g i /\ ~ unissued q free x.

Lemma timer_sim_waits q w : timer_sim q w -> dom w.1 ⊆ w.2.
Proof.
  intros (free&Hok&<-&Hu) id. rewrite elem_of_dom. intros [d Hd]. apply Hu.
  apply (pending_lookup q free _ _ Hok) in Hd as (e&He&[= <- _]).
  destruct (live_range q free e Hok He) as (s&Hs&Huse&Hr&->).
  exists (gen s), (te_slot e). split; [done|]. split; [done|].
  intros (g&i&Hr'&E&Hor). apply timer_handle_inj in E as [<- <-]; [|done..].
  destruct Hor as [Hc|(x&Hx&Hor)].
  - apply mem_get_inv in Hs as [? _]. unfold slots_count in Hc. lia.
  - rewrite Hs in Hx. injection Hx as <-. destruct Hor as [?|[_ Hin]]; [lia|].
    destruct (free_chain_in _ _ _ _ (tk_free _ _ Hok) Hin) as (y&Hy&Hy0).
    rewrite Hs in Hy. injection Hy as <-. lia.
Qed.

Lemma timer_count_size q free : timers_ok q free -> Z.of_nat (size (pending q)) = timer_count q.
Proof.
  intros Hok. pose proof (ids_nodup q free Hok) as Hn. unfold pending.
  rewrite <- size_dom, dom_list_to_map_L, size_list_to_set by done. unfold timer_count, zlen.
  by rewrite !length_fmap.
Qed.

(** No slot is left: as many timers wait as there are slots, unless a slot has
    gone through all its generations. *)
Lemma no_slot_left q (used : gset Z) :
  timers_ok q [] -> slots_count q = TIMER_MAX_SLOTS ->
  (forall g i, handle_range g i -> ~ unissued q [] (timer_handle g i) -> timer_handle g i ∈ used) ->
  TIMER_MAX_SLOTS <= Z.of_nat (size (pending q)) \/ TIMER_GEN_MAX < Z.of_nat (size used).
Proof.
  intros Hok Hcount Hused.
  destruct (decide (Exists (fun s => in_use s = 0) (slots q))) as [Hex|Hall].
  - right. apply Exists_exists in Hex as (s&Hin&Hs0). apply list_elem_of_lookup in Hin as [i Hi].
    pose proof (lookup_lt_Some _ _ _ Hi) as Hil.
    assert (Hget : (slots q).[Z.of_nat i] = Some s) by (rewrite mem_get_lookup, Nat2Z.id by lia; done).
    destruct (tk_retired _ _ Hok _ s Hget Hs0) as [?%not_elem_of_nil|Hg]; [done|].
    assert (Hr : forall g, 0 <= g <= TIMER_GEN_MAX -> handle_range g (Z.of_nat i)).
    { intros g Hg'. split; [done|]. unfold slots_count, zlen in Hcount. lia. }
    set (l := (fun g => timer_handle g (Z.of_nat i)) <$> seqZ 0 (TIMER_GEN_MAX + 1)).
    assert (Hl : length l = Z.to_nat (TIMER_GEN_MAX + 1)) by (unfold l; by rewrite length_fmap, length_seqZ).
    assert (Hnd : NoDup l).
    { apply NoDup_fmap_2_strong; [|apply NoDup_seqZ].
      intros g g' Hg1%elem_of_seqZ Hg2%elem_of_seqZ E. by apply timer_handle_inj in E as [? _]; [|apply Hr; lia..]. }
    assert (Hsub : (list_to_set l : gset Z) ⊆ used).
    { intros x (g&->&Hg1%elem_of_seqZ)%elem_of_list_to_set%list_elem_of_fmap.
      apply Hused; [apply Hr; lia|]. intros (g'&i'&Hr'&E&Hor).
      apply timer_handle_inj in E as [<- <-]; [|apply Hr; lia|done].
      destruct Hor as [?|(y&Hy&Hor)]; [unfold slots_count, zlen in *; lia|].
      rewrite Hget in Hy. injection Hy as <-. destruct Hor as [?|[_ ?%not_elem_of_nil]]; [lia|done]. }
    apply subseteq_size in Hsub. rewrite size_list_to_set, Hl in Hsub by done.
    rewrite timer_gen_max in *. clear - Hsub. lia.
  - left. rewrite (timer_count_size q []) by done.
    assert (Hsub : seqZ 0 TIMER_MAX_SLOTS ⊆+ te_slot <$> timers q).
    { apply NoDup_submseteq; [apply NoDup_seqZ|]. intros i Hi%elem_of_seqZ.
      destruct (mem_get_Some (slots q) i) as [s Hs]; [unfold slots_count in Hcount; lia|].
      destruct (tk_used _ _ Hok i s Hs) as (e&He&<-); [|by apply list_elem_of_fmap_2].
      intros Hu. apply Hall, Exists_exists. exists s. split; [|done].
      apply mem_get_inv in Hs as [_ Hs]. by eapply list_elem_of_lookup_2. }
    apply submseteq_length in Hsub. rewrite length_seqZ, length_fmap in Hsub.
    unfold timer_count, zlen. lia.
Qed.

Lemma timer_step o q w :
  timer_sim q w ->
  exists out q' w', timer_exec o q = Some (out, q') /\ timer_sim q' w' /\ timer_contract o w out w'.
Proof.
  destruct w as [m used]. intros (free&Hok&Hm&Hu). cbn [fst snd] in Hm, Hu.
  assert (Hkeep : forall q' free' m', timers_ok q' free' -> pending q' = m' ->
    (forall x, unissued q' free' x <-> unissued q free x) -> timer_sim q' (m', used)).
  { intros q' free' m' Hok' Hm' Hun. exists free'. split_and!; try done. cbn. intros x. rewrite Hu.
    by setoid_rewrite Hun. }
  destruct o as [now hm sm delay cb ud|id|now]; cbn [timer_exec timer_contract] in *.
  - destruct (add_timer_spec q free now hm sm delay cb ud Hok) as (id&q'&free'&->&Hok'&_&Hcase).
    cbn [mbind option_bind]. exists (Issued id), q'.
    destruct (id =? CLOAK_TIMER_INVALID) eqn:Eid.
    + destruct Hcase as (Hp&Hun&Hwhy). exists (m, used). split; [done|].
      split; [by eapply Hkeep; [|by rewrite Hp|]|]. unfold timer_contract. split; [done|].
      destruct Hwhy as [?|[?|[?|[-> Hc]]]]; auto. do 3 right. rewrite <- Hm.
      apply no_slot_left; [done..|]. intros g i Hr Hn. apply Hu. by exists g, i.
    + destruct Hcase as (Hfresh&Hnone&Hp&Hun).
      exists (<[id := (u64 (now + delay), cb, ud)]> m, {[id]} ∪ used). split; [done|]. split.
      * exists free'. split; [done|]. split; [by rewrite Hp, Hm|]. intros x. cbn.
        rewrite elem_of_union, elem_of_singleton, Hu. split.
        -- intros [->|(g&i&Hr&->&Hn)].
           ++ destruct Hfresh as (g&i&Hr&->&_). exists g, i. split; [done|]. split; [done|].
              rewrite Hun. by intros [_ ?].
           ++ exists g, i. split; [done|]. split; [done|]. rewrite Hun. by intros [? _].
        -- intros (g&i&Hr&->&Hn). rewrite Hun in Hn.
           destruct (decide (timer_handle g i = id)) as [|Hne]; [by left|right].
           exists g, i. split; [done|]. split; [done|]. intros ?. by apply Hn.
      * split; [|done]. rewrite Hu. by intros (g&i&_&->&Hn).
  - destruct (cancel_timer_spec q free id Hok) as (q'&free'&k&->&Hok'&Hp&Hun&Hk&Hb).
    cbn [mbind option_bind]. eexists _, q', (delete id m, used). split; [done|].
    split; [by eapply Hkeep; [|by rewrite Hp, Hm|]|]. cbn. split; [done|].
    rewrite <- Hm, (timer_count_size q free) by done.
    assert (Hlog : Z.log2 (timer_count q) < 64).
    { pose proof (hi_max _ (tk_heap _ _ Hok)) as Hmx. unfold INT64_MAX in Hmx.
      pose proof (zlen_nonneg (timers q)). fold (timer_count q) in *.
      destruct (decide (timer_count q = 0)) as [->|]; [done|]. apply Z.log2_lt_pow2; lia. }
    unfold u64. rewrite Zminus_mod, Hk, <- Zminus_mod.
    replace (cancel_probe_steps q + k - cancel_probe_steps q) with k by lia. rewrite Z.mod_small by lia. done.
  - destruct (timer_expire_spec q free now Hok) as (r&->&Hr). cbn [mbind option_bind].
    destruct r as [[top q']|].
    + destruct Hr as (free'&Hok'&_&Hdue&Hwait&Hmin&Hp&_&Hun).
      eexists _, q', (delete (te_id top) m, used). split; [done|].
      split; [by eapply Hkeep; [|by rewrite Hp, Hm|]|]. cbn. rewrite <- Hm. done.
    + eexists _, q, (m, used). split; [done|]. split; [by eapply Hkeep|]. cbn. rewrite <- Hm. done.
Qed.

Lemma no_timers_sim : timer_sim no_timers (∅, ∅).
Proof.
  exists []. split; [|split; [done|]].
  - assert (Hnil : forall {A} i (x : A), ([] : list A).[i] = Some x -> False)
      by (intros A i x Hx; unfold mem_get in Hx; by destruct (0 <=? i)).
    split; cbn.
    + split; cbn; [|intros j x Hx; by apply Hnil in Hx|constructor..|done].
      intros j Hj. unfold timer_count, zlen in Hj. cbn in Hj. lia.
    + constructor.
    + intros i s Hs. by apply Hnil in Hs.
    + intros i s Hs. by apply Hnil in Hs.
    + done.
    + constructor.
    + intros i s Hs. by apply Hnil in Hs.
    + unfold timer_count, slots_count, zlen. cbn. timer_consts. lia.
  - intros x. cbn. split; [intros Hx; by apply not_elem_of_empty in Hx|].
    intros (g&i&Hr&->&Hn). exfalso. apply Hn. exists g, i. split; [done|]. split; [done|]. left.
    unfold slots_count, zlen. cbn. unfold handle_range in Hr. lia.
Qed.

Lemma timer_runs ops q w :
  timer_sim q w ->
  exists outs q' w', Refinement.run timer_exec ops q = Some (outs, q') /\ timer_sim q' w' /\
    timer_history ops w outs w'.
Proof.
  revert q w. induction ops as [|o ops IH]; intros q w Hs.
  { by exists [], q, w. }
  destruct (timer_step o q w Hs) as (out&q1&w1&E&Hs1&Hc). cbn. rewrite E. cbn [mbind option_bind].
  destruct (IH q1 w1 Hs1) as (outs&q2&w2&->&Hs2&Hh). cbn [mbind option_bind].
  exists (out :: outs), q2, w2. split; [done|]. split; [done|]. cbn. exists w1. split; [done|].
  split; [exact (timer_sim_waits _ _ Hs1)|exact Hh].
Qed.

(** C30: From a new reactor, every sequence of additions, cancellations (of
    arbitrary numbers, stale and forged handles included) and expiries is
    memory safe and has a run of the contract: a handle that is issued was never
    issued before; an addition is refused only without memory, with 1048575
    timers waiting, or after 2^44 additions; a cancellation removes exactly the
    timer of the handle, at a cost of two steps more than the binary logarithm
    of the timers; an expiry takes an earliest timer when it is due and refuses
    only when none is. *)
Theorem reactor_timers_contract ops :
  exists outs q m used, Refinement.run timer_exec ops no_timers = Some (outs, q) /\
    timer_history ops (∅, ∅) outs (m, used) /\
    pending q = m /\ cloak_reactor_pending_timers q = Z.of_nat (size m).
Proof.
  destruct (timer_runs ops _ (∅, ∅) no_timers_sim) as (outs&q&[m used]&E&Hs&Hh).
  exists outs, q, m, used. destruct Hs as (free&Hok&Hp&_). cbn in Hp. subst m. split_and!; try done.
  symmetry. by apply (timer_count_size q free).
Qed.

(** Three timers; the second is cancelled twice, the second time with its slot
    in other hands; the others fire in the order of their deadlines. *)
Definition demo_timer_ops : list timer_op :=
  [AddTimer 100 true true 50 7 1; AddTimer 100 true true 10 7 2; CancelTimer 2;
   AddTimer 101 true true 20 7 3; CancelTimer 2; ExpireTimer 120; ExpireTimer 121; ExpireTimer 200].

Example demo_timers :
  option_map fst (Refinement.run timer_exec demo_timer_ops no_timers) =
    Some [Issued 1; Issued 2; Cancelled 2; Issued 1048578; Cancelled 1; Fired None;
          Fired (Some (1048578, (121, 7, 3))); Fired (Some (1, (150, 7, 1)))].
Proof. vm_compute. reflexivity. Qed.
