(* ===== verification/Reactor.v ===== *)
(** * The event loop ([libcloak-common/src/reactor.c])

    Watches live in a store: [watchers] holds their addresses by descriptor, the
    kernel holds them as the data of its events, and a watch that is removed in
    the middle of a batch of events waits on [dead_list] until the batch is
    over.  The answers of the system calls, of [malloc] and of [realloc] are
    arguments.  The callbacks are a parameter, [call] and [call_timer]; they see
    the reactor and the rest of the program's state, of type [W].

    The lemmas of the file: the invariant of the watches and that every call
    keeps it, a turn of the loop that never touches freed memory, whatever the
    callbacks add and remove, and the interest that the kernel holds for each
    descriptor.  What a turn owes its users is in [ReactorTurn]. *)
From stdpp Require Import gmap.
From S2P Require Import Prelude Refinement Fallible HeapOrder ReactorApi TimerHeap TimerSpec.

Definition EPOLLIN : Z := 1.
Definition EPOLLOUT : Z := 4.
Definition EPOLLERR : Z := 8.
Definition EPOLLHUP : Z := 16.
Definition EPOLLET : Z := 2147483648.

Record watcher := Watcher {
  w_fd : Z;
  w_events : Z;
  w_cb : Z;
  w_userdata : Z;
  dead : Z;
  dead_next : Z
}.

(** [watchers_cap] is the length of [watchers]; the address 0 is NULL.  The
    fields of the timers are those of [TimerHeap].  [epoll_set] is what the
    kernel holds behind [epoll_fd]: the event bits and the data pointer that
    [epoll_ctl] left for each descriptor. *)
Record cloak_reactor := MkReactor {
  store : gmap Z watcher;
  watchers : list Z;
  dead_list : Z;
  stopped : Z;
  queue : timer_state;
  epoll_set : gmap Z (Z * Z)
}.

Definition watchers_cap (r : cloak_reactor) : Z := zlen (watchers r).

Definition with_store (r : cloak_reactor) (s : gmap Z watcher) : cloak_reactor :=
  MkReactor s (watchers r) (dead_list r) (stopped r) (queue r) (epoll_set r).
Definition with_watchers (r : cloak_reactor) (ws : list Z) : cloak_reactor :=
  MkReactor (store r) ws (dead_list r) (stopped r) (queue r) (epoll_set r).
Definition with_dead_list (r : cloak_reactor) (p : Z) : cloak_reactor :=
  MkReactor (store r) (watchers r) p (stopped r) (queue r) (epoll_set r).
Definition with_stopped (r : cloak_reactor) (x : Z) : cloak_reactor :=
  MkReactor (store r) (watchers r) (dead_list r) x (queue r) (epoll_set r).
Definition with_queue (r : cloak_reactor) (q : timer_state) : cloak_reactor :=
  MkReactor (store r) (watchers r) (dead_list r) (stopped r) q (epoll_set r).
Definition with_epoll (r : cloak_reactor) (e : gmap Z (Z * Z)) : cloak_reactor :=
  MkReactor (store r) (watchers r) (dead_list r) (stopped r) (queue r) e.

Definition cloak_reactor_create : cloak_reactor := MkReactor ∅ [] 0 0 no_timers ∅.

Definition to_epoll_events (events : Z) : Z :=
  let e := EPOLLET in
  let e := if Z.land events CLOAK_REACTOR_READABLE =? 0 then e else Z.lor e EPOLLIN in
  if Z.land events CLOAK_REACTOR_WRITABLE =? 0 then e else Z.lor e EPOLLOUT.

(** The loop [while (new_cap <= fd) new_cap *= 2]. *)
Fixpoint grow_to (fuel : nat) (new_cap fd : Z) : option Z :=
  if new_cap <=? fd then
    match fuel with O => None | S fuel' => grow_to fuel' (u64 (new_cap * 2)) fd end
  else Some new_cap.

Definition ensure_capacity (r : cloak_reactor) (fd : Z) (mem_ok : bool)
    : option (option cloak_reactor) :=
  if u64 fd <? watchers_cap r then Some (Some r)
  else
    let new_cap := if watchers_cap r =? 0 then 16 else u64 (watchers_cap r * 2) in
    new_cap ← grow_to 64 new_cap (u64 fd);
    if mem_ok
    then Some (Some (with_watchers r (watchers r ++ replicate (Z.to_nat (new_cap - watchers_cap r)) 0)))
    else Some None.

(** The answers to a registration: [fcntl], [realloc], the address [malloc]
    returns (0: none) and [epoll_ctl]. *)
Record add_answers := AddAnswers {
  aa_fcntl : bool;
  aa_grow : bool;
  aa_malloc : Z;
  aa_epoll : bool
}.

Definition cloak_reactor_add_fd (r : cloak_reactor) (k : add_answers) (fd events cb userdata : Z)
    : option (Z * cloak_reactor) :=
  if (fd <? 0) || (cb =? 0) then Some (-1, r)
  else if negb (aa_fcntl k) then Some (-1, r)
  else
    match ensure_capacity r fd (aa_grow k) with
    | None => None
    | Some None => Some (-1, r)
    | Some (Some r) =>
        w ← (watchers r).[fd];
        if negb (w =? 0) then Some (-1, r)
        else if aa_malloc k =? 0 then Some (-1, r)
        else
          let r1 := with_store r (<[aa_malloc k := Watcher fd events cb userdata 0 0]> (store r)) in
          if negb (aa_epoll k) then Some (-1, with_store r1 (delete (aa_malloc k) (store r1)))
          else
            let r2 := with_epoll r1 (<[fd := (to_epoll_events events, aa_malloc k)]> (epoll_set r1)) in
            ws ← mem_set (watchers r2) fd (aa_malloc k);
            Some (0, with_watchers r2 ws)
    end.

(** The test that both [mod_fd] and [remove_fd] begin with. *)
Definition registered_at (r : cloak_reactor) (fd : Z) : option (option Z) :=
  if (fd <? 0) || (watchers_cap r <=? u64 fd) then Some None
  else p ← (watchers r).[fd]; Some (if p =? 0 then None else Some p).

Definition cloak_reactor_mod_fd (r : cloak_reactor) (epoll_ok : bool) (fd events : Z)
    : option (Z * cloak_reactor) :=
  match registered_at r fd with
  | None => None
  | Some None => Some (-1, r)
  | Some (Some p) =>
      w ← store r !! p;
      let r := with_store r (<[p := Watcher (w_fd w) events (w_cb w) (w_userdata w) (dead w) (dead_next w)]> (store r)) in
      if negb epoll_ok then Some (-1, r)
      else Some (0, with_epoll r (<[fd := (to_epoll_events events, p)]> (epoll_set r)))
  end.

Definition cloak_reactor_remove_fd (r : cloak_reactor) (fd : Z) : option (Z * cloak_reactor) :=
  match registered_at r fd with
  | None => None
  | Some None => Some (-1, r)
  | Some (Some p) =>
      w ← store r !! p;
      let r := with_epoll r (delete fd (epoll_set r)) in
      ws ← mem_set (watchers r) fd 0;
      let s := <[p := Watcher (w_fd w) (w_events w) (w_cb w) (w_userdata w) 1 (dead_list r)]> (store r) in
      Some (0, with_dead_list (with_store (with_watchers r ws) s) p)
  end.

Definition cloak_reactor_stop (r : cloak_reactor) : cloak_reactor := with_stopped r 1.

(** Adding and cancelling timers, on the reactor. *)
Definition reactor_add_timer (r : cloak_reactor) (now : Z) (heap_mem slot_mem : bool)
    (delay_ms cb userdata : Z) : option (Z * cloak_reactor) :=
  '(id, q) ← cloak_reactor_add_timer (queue r) now heap_mem slot_mem delay_ms cb userdata;
  Some (id, with_queue r q).
Definition reactor_cancel_timer (r : cloak_reactor) (id : Z) : option cloak_reactor :=
  q ← cloak_reactor_cancel_timer (queue r) id; Some (with_queue r q).

(** [free]: the address is dead afterwards. *)
Definition store_free (r : cloak_reactor) (p : Z) : option cloak_reactor :=
  match store r !! p with None => None | Some _ => Some (with_store r (delete p (store r))) end.

(** The loop that frees [dead_list], in [run_once] and in [destroy]. *)
Fixpoint free_dead (fuel : nat) (r : cloak_reactor) : option cloak_reactor :=
  if dead_list r =? 0 then Some r
  else
    match fuel with
    | O => None
    | S fuel' =>
        w ← store r !! dead_list r;
        r' ← store_free (with_dead_list r (dead_next w)) (dead_list r);
        free_dead fuel' r'
    end.

(** The store when [destroy] is done with it: [free] of NULL is a no-op. *)
Definition cloak_reactor_destroy (r : cloak_reactor) : option cloak_reactor :=
  r ← foldl (fun acc p => r ← acc; if p =? 0 then Some r else store_free r p) (Some r) (watchers r);
  free_dead (size (store r)) r.

Definition effective_timeout_ms (timer_timeout_ms caller_timeout_ms : Z) : Z :=
  if timer_timeout_ms <? 0 then caller_timeout_ms
  else if caller_timeout_ms <? 0 then timer_timeout_ms
  else if timer_timeout_ms <? caller_timeout_ms then timer_timeout_ms else caller_timeout_ms.

Section loop.
Context {W : Type}.
(** [cb(r, fd, events, userdata)] and [cb(r, userdata)]. *)
Variable call : Z -> Z -> Z -> Z -> cloak_reactor * W -> option (cloak_reactor * W).
Variable call_timer : Z -> Z -> cloak_reactor * W -> option (cloak_reactor * W).

(** What the kernel's event bits are folded into. *)
Definition fired_events (events : Z) : Z :=
  let fired := if Z.land events (Z.lor EPOLLIN (Z.lor EPOLLHUP EPOLLERR)) =? 0 then 0
               else CLOAK_REACTOR_READABLE in
  if Z.land events EPOLLOUT =? 0 then fired else Z.lor fired CLOAK_REACTOR_WRITABLE.

(** The loop over the events of a batch, each an address and event bits. *)
Fixpoint dispatch (events : list (Z * Z)) (s : cloak_reactor * W) (dispatched : Z)
    : option (Z * (cloak_reactor * W)) :=
  match events with
  | [] => Some (dispatched, s)
  | (p, bits) :: events' =>
      if negb (stopped s.1 =? 0) then Some (dispatched, s)
      else
        w ← store s.1 !! p;
        if negb (dead w =? 0) then dispatch events' s dispatched
        else
          let fired := fired_events bits in
          if negb (fired =? 0) then
            s' ← call (w_cb w) (w_fd w) fired (w_userdata w) s;
            dispatch events' s' (dispatched + 1)
          else dispatch events' s dispatched
  end.

(** [Some None]: still running when the fuel ran out. *)
Fixpoint process_expired_timers (fuel : nat) (now : Z) (s : cloak_reactor * W)
    : option (option (cloak_reactor * W)) :=
  if (0 <? timer_count (queue s.1)) && (stopped s.1 =? 0) then
    r ← timer_expire (queue s.1) now;
    match r with
    | None => Some (Some s)
    | Some (top, q) =>
        match fuel with
        | O => Some None
        | S fuel' =>
            s' ← call_timer (te_cb top) (te_userdata top) (with_queue s.1 q, s.2);
            process_expired_timers fuel' now s'
        end
    end
  else Some (Some s).

(** What [epoll_wait] answers: an error ([EINTR] or not) or a batch. *)
Inductive wait_result :=
| WaitFailed (eintr : bool)
| WaitReady (events : list (Z * Z)).

Definition cloak_reactor_run_once (fuel : nat) (now : Z) (res : wait_result) (s : cloak_reactor * W)
    : option (option (Z * (cloak_reactor * W))) :=
  match res with
  | WaitFailed eintr => Some (Some (if eintr then 0 else -1, s))
  | WaitReady events =>
      '(dispatched, s1) ← dispatch events s 0;
      r2 ← free_dead (size (store s1.1)) s1.1;
      if stopped r2 =? 0 then
        t ← process_expired_timers fuel now (r2, s1.2);
        Some (match t with Some s' => Some (dispatched, s') | None => None end)
      else Some (Some (dispatched, (r2, s1.2)))
  end.

(** The timeout of the wait that a turn begins with. *)
Definition wait_timeout (r : cloak_reactor) (now timeout_ms : Z) : option Z :=
  t ← compute_timeout_ms (queue r) now; Some (effective_timeout_ms t timeout_ms).

(** [cloak_reactor_run]: turns until one stops the loop or fails; the list holds
    the kernel's answers, [Some None] says that the loop still runs after them. *)
Fixpoint run_turns (fuel : nat) (turns : list (Z * wait_result)) (s : cloak_reactor * W)
    : option (option (cloak_reactor * W)) :=
  if stopped s.1 =? 0 then
    match turns with
    | [] => Some None
    | (now, res) :: turns' =>
        t ← cloak_reactor_run_once fuel now res s;
        match t with
        | None => Some None
        | Some (n, s') => if n <? 0 then Some (Some s') else run_turns fuel turns' s'
        end
    end
  else Some (Some s).

Definition cloak_reactor_run (fuel : nat) (turns : list (Z * wait_result)) (s : cloak_reactor * W) :=
  run_turns fuel turns (with_stopped s.1 0, s.2).

End loop.

(** ** The representation invariant *)

Fixpoint dead_chain (st : gmap Z watcher) (head : Z) (l : list Z) : Prop :=
  match l with
  | [] => head = 0
  | p :: l' => head = p /\ p <> 0 /\ exists w, st !! p = Some w /\ dead w <> 0 /\ dead_chain st (dead_next w) l'
  end.

(** Every watch of the store is in the table or on the list, never both; every
    address in the table or on the list is in the store; and the kernel holds
    the addresses of the table. *)
Record reactor_inv (r : cloak_reactor) (dl : list Z) : Prop := {
  ri_watched : forall fd p, (watchers r).[fd] = Some p -> p <> 0 ->
    exists w, store r !! p = Some w /\ w_fd w = fd /\ dead w = 0;
  ri_store : forall p w, store r !! p = Some w ->
    p <> 0 /\ (dead w = 0 /\ (watchers r).[w_fd w] = Some p \/ dead w <> 0 /\ p ∈ dl);
  ri_chain : dead_chain (store r) (dead_list r) dl;
  ri_nodup : NoDup dl;
  ri_cap : watchers_cap r <= 4294967296;
  ri_timers : exists free, timers_ok (queue r) free;
  ri_epoll : forall fd p,
    (exists bits, epoll_set r !! fd = Some (bits, p)) <-> (watchers r).[fd] = Some p /\ p <> 0
}.

(** The calls of the interface, with what the system answers to each. *)
Inductive api_op :=
| ApiAddFd (k : add_answers) (fd events cb userdata : Z)
| ApiModFd (epoll_ok : bool) (fd events : Z)
| ApiRemoveFd (fd : Z)
| ApiAddTimer (now : Z) (heap_mem slot_mem : bool) (delay_ms cb userdata : Z)
| ApiCancelTimer (id : Z)
| ApiStop.

Definition api_exec (o : api_op) (r : cloak_reactor) : option (Z * cloak_reactor) :=
  match o with
  | ApiAddFd k fd events cb userdata => cloak_reactor_add_fd r k fd events cb userdata
  | ApiModFd epoll_ok fd events => cloak_reactor_mod_fd r epoll_ok fd events
  | ApiRemoveFd fd => cloak_reactor_remove_fd r fd
  | ApiAddTimer now heap_mem slot_mem delay_ms cb userdata =>
      reactor_add_timer r now heap_mem slot_mem delay_ms cb userdata
  | ApiCancelTimer id => r' ← reactor_cancel_timer r id; Some (0, r')
  | ApiStop => Some (0, cloak_reactor_stop r)
  end.

(** A descriptor is an [int], and [malloc] returns a block that is not in use. *)
Definition api_ok (o : api_op) (r : cloak_reactor) : Prop :=
  match o with
  | ApiAddFd k fd _ _ _ => fd < 2147483648 /\ store r !! aa_malloc k = None
  | ApiModFd _ fd _ | ApiRemoveFd fd => fd < 2147483648
  | _ => True
  end.

Definition api_step (r r' : cloak_reactor) : Prop :=
  exists o x, api_ok o r /\ api_exec o r = Some (x, r').

(** What no call takes away: the watches of the store keep their descriptor and
    their callback. *)
Definition same_watch (w w' : watcher) : Prop :=
  w_fd w' = w_fd w /\ w_cb w' = w_cb w /\ w_userdata w' = w_userdata w.
Definition keeps (r r' : cloak_reactor) : Prop :=
  forall p w, store r !! p = Some w -> exists w', store r' !! p = Some w' /\ same_watch w w'.

Lemma keeps_refl r : keeps r r.
Proof. intros p w Hw. by exists w. Qed.

Lemma keeps_trans r1 r2 r3 : keeps r1 r2 -> keeps r2 r3 -> keeps r1 r3.
Proof.
  intros H1 H2 p w Hw. destruct (H1 p w Hw) as (w1&Hw1&?&?&?).
  destruct (H2 p w1 Hw1) as (w2&Hw2&?&?&?). exists w2. split; [done|]. split_and!; congruence.
Qed.

(** Who is called back for which descriptor. *)
Definition registration (r : cloak_reactor) (fd : Z) (cb userdata : Z) : Prop :=
  exists p w, (watchers r).[fd] = Some p /\ p <> 0 /\ store r !! p = Some w /\
              w_cb w = cb /\ w_userdata w = userdata.

(** ** The calls keep the invariant *)

Lemma dead_chain_ext st st' head l :
  (forall p w, p ∈ l -> st !! p = Some w ->
     exists w', st' !! p = Some w' /\ dead w' = dead w /\ dead_next w' = dead_next w) ->
  dead_chain st head l -> dead_chain st' head l.
Proof.
  revert head. induction l as [|p l IH]; intros head He; [done|]. intros [-> (Hp&w&Hw&Hd&Hc)].
  destruct (He p w) as (w'&Hw'&Hd'&Hn'); [by left|done|].
  split; [done|]. split; [done|]. exists w'. rewrite Hd', Hn'. split; [done|]. split; [done|].
  apply IH; [|done]. intros q x Hq. apply He. by right.
Qed.

Lemma dead_chain_in st head l p :
  dead_chain st head l -> p ∈ l -> exists w, st !! p = Some w /\ dead w <> 0.
Proof.
  revert head. induction l as [|q l IH]; intros head; [by intros _ ?%not_elem_of_nil|].
  intros [-> (Hq&w&Hw&Hd&Hc)] [->|Hin]%elem_of_cons; [by exists w|by eapply IH].
Qed.

Lemma grow_to_spec fuel c fd :
  0 < c <= 4294967296 -> 0 <= fd < 2147483648 -> fd < c * 2 ^ Z.of_nat fuel ->
  exists c', grow_to fuel c fd = Some c' /\ fd < c' /\ c <= c' <= 4294967296.
Proof.
  revert c. induction fuel as [|fuel IH]; intros c Hc Hfd Hf; cbn [grow_to].
  - rewrite Z.mul_1_r in Hf. decide_cmp. by exists c; split; [|lia].
  - case_if; [|by exists c; split; [|lia]]. rewrite u64_small by lia.
    destruct (IH (c * 2)) as (c'&->&?&?); [lia|done| |exists c'; split; [done|lia]].
    rewrite Nat2Z.inj_succ, Z.pow_succ_r in Hf by lia. lia.
Qed.

(** The table grows by NULLs. *)
Lemma ensure_capacity_spec r dl fd mem :
  reactor_inv r dl -> 0 <= fd < 2147483648 ->
  match ensure_capacity r fd mem with
  | None => False
  | Some None => mem = false
  | Some (Some r') => exists n, r' = with_watchers r (watchers r ++ replicate n 0) /\
      fd < watchers_cap r' /\ reactor_inv r' dl
  end.
Proof.
  intros Hinv Hfd. pose proof (ri_cap _ _ Hinv) as Hcap. unfold ensure_capacity.
  pose proof (zlen_nonneg (watchers r)) as Hpos. fold (watchers_cap r) in Hpos.
  rewrite !(u64_small fd) by lia. case_if.
  { exists 0%nat. cbn. rewrite app_nil_r. assert (with_watchers r (watchers r) = r) as -> by (by destruct r).
    done. }
  set (c0 := if watchers_cap r =? 0 then 16 else u64 (watchers_cap r * 2)).
  assert (Hc0 : 0 < c0 <= 4294967296 /\ watchers_cap r <= c0).
  { unfold c0. case_if; [lia|]. rewrite u64_small by lia. lia. }
  destruct (grow_to_spec 64 c0 fd) as (c&->&Hfc&Hcc); [lia|lia| |].
  { change (2 ^ Z.of_nat 64) with 18446744073709551616. lia. }
  cbn [mbind option_bind]. destruct mem; [|done]. eexists. split; [done|].
  assert (Hlen : zlen (watchers r ++ replicate (Z.to_nat (c - watchers_cap r)) 0) = c).
  { rewrite zlen_app, zlen_replicate. unfold watchers_cap in *. lia. }
  split; [unfold watchers_cap at 1; cbn; lia|].
  assert (Hget : forall i p, (watchers r ++ replicate (Z.to_nat (c - watchers_cap r)) 0).[i] = Some p ->
                   p <> 0 -> (watchers r).[i] = Some p).
  { intros i p Hi Hp. destruct (Z.lt_ge_cases i (zlen (watchers r))); [by rewrite mem_get_app_l in Hi|].
    rewrite mem_get_app_r in Hi by done. apply mem_get_inv in Hi as [_ Hi].
    apply lookup_replicate in Hi as [-> _]. done. }
  destruct Hinv as [Hw Hs Hc Hn _ Ht He]. split; try done; cbn.
  - intros i p Hi Hp. apply Hw; [by apply Hget|done].
  - intros p w Hpw. destruct (Hs p w Hpw) as [Hp0 Hor]. split; [done|].
    destruct Hor as [[Hd Hi]|?]; [left|by right]. split; [done|].
    rewrite mem_get_app_l; [done|]. apply mem_get_inv in Hi as [? _]. lia.
  - unfold watchers_cap at 1. cbn. lia.
  - intros i p. rewrite (He i p). split; intros [Hi Hp]; (split; [|done]); [|by apply Hget].
    rewrite mem_get_app_l; [done|]. apply mem_get_inv in Hi as [? _]. lia.
Qed.

Lemma add_fd_spec r dl k fd ev cb ud :
  reactor_inv r dl -> fd < 2147483648 -> store r !! aa_malloc k = None ->
  exists v r', cloak_reactor_add_fd r k fd ev cb ud = Some (v, r') /\ reactor_inv r' dl /\
    keeps r r' /\ stopped r' = stopped r /\ queue r' = queue r /\
    if v =? 0 then
      (forall c u, ~ registration r fd c u) /\ registration r' fd cb ud /\
      forall f c u, f <> fd -> registration r' f c u <-> registration r f c u
    else forall f c u, registration r' f c u <-> registration r f c u.
Proof.
  intros Hinv Hfd Hfresh. unfold cloak_reactor_add_fd.
  assert (Hrefuse : forall r', reactor_inv r' dl -> keeps r r' -> stopped r' = stopped r ->
    queue r' = queue r -> (forall f c u, registration r' f c u <-> registration r f c u) ->
    exists v r'', Some (-1, r') = Some (v, r'') /\ reactor_inv r'' dl /\ keeps r r'' /\
      stopped r'' = stopped r /\ queue r'' = queue r /\
      if v =? 0 then (forall c u, ~ registration r fd c u) /\ registration r'' fd cb ud /\
        forall f c u, f <> fd -> registration r'' f c u <-> registration r f c u
      else forall f c u, registration r'' f c u <-> registration r f c u)
    by (intros r' ?????; exists (-1), r'; done).
  destruct ((fd <? 0) || (cb =? 0)) eqn:Eargs; [by apply Hrefuse; [|apply keeps_refl|..]|].
  bool_hyps. destruct (aa_fcntl k); cbn [negb]; [|by apply Hrefuse; [|apply keeps_refl|..]].
  pose proof (ensure_capacity_spec r dl fd (aa_grow k) Hinv ltac:(lia)) as Hcap.
  destruct (ensure_capacity r fd (aa_grow k)) as [[r1|]|]; [| |done].
  2: by apply Hrefuse; [|apply keeps_refl|..].
  destruct Hcap as (n&Hr1&Hlt&Hinv1). pose proof Hinv1 as [Hw Hs Hc Hn Hcp Ht He].
  assert (Hst : store r1 = store r) by (by subst r1).
  assert (Hk1 : keeps r r1) by (intros p w Hp; exists w; by rewrite Hst).
  assert (Hsame : forall f c u, registration r1 f c u <-> registration r f c u).
  { intros f c u. unfold registration. rewrite Hst.
    split; intros (p&w&Hf&Hp&Hrest); exists p, w; (split; [|done]); subst r1; cbn in *.
    - destruct (Z.lt_ge_cases f (zlen (watchers r))); [by rewrite mem_get_app_l in Hf|].
      rewrite mem_get_app_r in Hf by done. apply mem_get_inv in Hf as [_ Hf].
      by apply lookup_replicate in Hf as [-> _].
    - rewrite mem_get_app_l; [done|]. apply mem_get_inv in Hf as [? _]. lia. }
  destruct (mem_get_Some (watchers r1) fd) as [p0 Hp0]; [unfold watchers_cap in Hlt; lia|].
  rewrite Hp0. cbn [mbind option_bind].
  assert (Hq : stopped r1 = stopped r /\ queue r1 = queue r) by (by subst r1). destruct Hq as [Hq1 Hq2].
  destruct (Z.eqb_spec p0 0) as [->|Hp]; cbn [negb]; [|by apply Hrefuse].
  destruct (Z.eqb_spec (aa_malloc k) 0) as [|Hm]; [by apply Hrefuse|].
  destruct (aa_epoll k); cbn [negb].
  2: { assert (Hdel : delete (aa_malloc k) (<[aa_malloc k := Watcher fd ev cb ud 0 0]> (store r1)) = store r1).
       { rewrite delete_insert_id; [done|]. by rewrite Hst. }
       cbn. rewrite Hdel. apply Hrefuse; by destruct r1. }
  cbn [watchers with_store with_epoll epoll_set].
  destruct (slot_release (watchers r1) fd 0 (aa_malloc k) Hp0) as (ws&->&Hlen&Hget).
  cbn [mbind option_bind]. eexists 0, _. split; [done|].
  set (r2 := with_watchers _ ws). set (nw := Watcher fd ev cb ud 0 0).
  assert (Hst2 : store r2 = <[aa_malloc k := nw]> (store r1)) by done.
  assert (Hnew : store r1 !! aa_malloc k = None) by (by rewrite Hst).
  assert (Hold : forall p w, store r1 !! p = Some w -> store r2 !! p = Some w).
  { intros p w Hpw. rewrite Hst2, lookup_insert_ne; [done|]. intros <-. congruence. }
  assert (Hws : forall i, watchers r2 = ws /\ ws.[i] = if i =? fd then Some (aa_malloc k) else (watchers r1).[i])
    by (intros; split; [done|apply Hget]).
  split; [|split; [|split; [done|split; [done|]]]].
  - split; cbn [watchers with_watchers]; try done.
    + intros f p. rewrite Hget. destruct (Z.eqb_spec f fd) as [->|Hne].
      * intros [= <-] _. exists nw. by rewrite Hst2, lookup_insert_eq.
      * intros Hf Hp. destruct (Hw f p Hf Hp) as (w&Hpw&?&?). exists w. split; [by apply Hold|done].
    + intros p w. rewrite Hst2. intros [[<- <-]|[Hne Hpw]]%lookup_insert_Some.
      * split; [done|]. left. split; [done|]. cbn. by rewrite Hget, Z.eqb_refl.
      * destruct (Hs p w Hpw) as [Hp Hor]. split; [done|]. destruct Hor as [[Hd Hf]|?]; [left|by right].
        split; [done|]. change (ws.[w_fd w] = Some p). rewrite Hget.
        destruct (Z.eqb_spec (w_fd w) fd) as [E1|]; [|done]. rewrite E1, Hp0 in Hf. congruence.
    + eapply dead_chain_ext; [|exact Hc]. intros p w _ Hpw. exists w. split; [by apply Hold|done].
    + unfold watchers_cap in *. cbn. by rewrite Hlen.
    + intros f p. change (epoll_set r2) with (<[fd := (to_epoll_events ev, aa_malloc k)]> (epoll_set r1)).
      rewrite Hget. destruct (Z.eqb_spec f fd) as [->|Hne].
      * rewrite lookup_insert_eq. split; [intros [? [= _ <-]]; done|]. intros [[= <-] _]. by eexists.
      * rewrite lookup_insert_ne by done. apply He.
  - eapply keeps_trans; [exact Hk1|]. intros p w Hpw. exists w. split; [by apply Hold|done].
  - cbn. split; [|split].
    + intros c u Hreg%Hsame. destruct Hreg as (p&w&Hf&Hp&_). rewrite Hp0 in Hf. congruence.
    + exists (aa_malloc k), nw. cbn. rewrite Hget, Z.eqb_refl, lookup_insert_eq. done.
    + intros f c u Hne. rewrite <- Hsame. unfold registration. cbn. rewrite Hget, (proj2 (Z.eqb_neq _ _) Hne).
      split; intros (p&w&Hf&Hp&Hpw&Hcu); exists p, w; (split; [done|]; split; [done|]; split; [|done]).
      * rewrite lookup_insert_ne in Hpw; [done|]. intros <-.
        destruct (Hw f _ Hf Hp) as (x&Hx&_). congruence.
      * by apply Hold.
Qed.

(** The test of [mod_fd] and [remove_fd] finds the watch of a registration. *)
Lemma registered_at_spec r dl fd :
  reactor_inv r dl -> fd < 2147483648 ->
  match registered_at r fd with
  | None => False
  | Some None => forall c u, ~ registration r fd c u
  | Some (Some p) => p <> 0 /\ (watchers r).[fd] = Some p /\
      exists w, store r !! p = Some w /\ w_fd w = fd /\ dead w = 0
  end.
Proof.
  intros Hinv Hfd. unfold registered_at.
  assert (Hnone : (forall p, (watchers r).[fd] = Some p -> p = 0) -> forall c u, ~ registration r fd c u)
    by (intros Hz c u (p&w&Hf&Hp&_); by apply Hp, Hz).
  destruct ((fd <? 0) || _) eqn:E.
  { apply Hnone. intros p (Hr&_)%mem_get_inv. exfalso. unfold watchers_cap in E.
    pose proof (ri_cap _ _ Hinv). unfold watchers_cap in *.
    apply orb_true_iff in E as [E|E]; bool_hyps; [lia|]. rewrite u64_small in E; lia. }
  bool_hyps. rewrite u64_small in * by lia. destruct (mem_get_Some (watchers r) fd) as [p Hp]; [done|].
  rewrite Hp. cbn [mbind option_bind]. destruct (Z.eqb_spec p 0) as [->|Hn].
  - apply Hnone. intros p Hp'. congruence.
  - split; [done|]. split; [done|]. by apply (ri_watched _ _ Hinv).
Qed.

Lemma mod_fd_spec r dl ok fd ev :
  reactor_inv r dl -> fd < 2147483648 ->
  exists v r', cloak_reactor_mod_fd r ok fd ev = Some (v, r') /\ reactor_inv r' dl /\
    keeps r r' /\ stopped r' = stopped r /\ queue r' = queue r /\
    forall f c u, registration r' f c u <-> registration r f c u.
Proof.
  intros Hinv Hfd. unfold cloak_reactor_mod_fd.
  pose proof (registered_at_spec r dl fd Hinv Hfd) as Hreg.
  destruct (registered_at r fd) as [[p|]|]; [| |done].
  2: { exists (-1), r. split_and!; try done. apply keeps_refl. }
  destruct Hreg as (Hp&Hf&w&Hw&Hwf&Hd). rewrite Hw. cbn [mbind option_bind].
  set (w' := Watcher (w_fd w) ev (w_cb w) (w_userdata w) (dead w) (dead_next w)).
  set (r1 := with_store r (<[p := w']> (store r))).
  assert (H1 : reactor_inv r1 dl /\ keeps r r1 /\ forall f c u, registration r1 f c u <-> registration r f c u).
  2: { destruct H1 as (Hi&Hk&Hr). destruct ok; cbn [negb]; [|by exists (-1), r1].
       exists 0, (with_epoll r1 (<[fd := (to_epoll_events ev, p)]> (epoll_set r1))). split; [done|].
       split; [|by split_and!]. destruct Hi as [? ? ? ? ? ? He]. split; try done. intros f q. cbn.
       destruct (decide (f = fd)) as [->|Hne]; [|rewrite lookup_insert_ne by done; apply He].
       rewrite lookup_insert_eq. split; [by intros [? [= _ <-]]|]. intros [Hq _]. exists (to_epoll_events ev). congruence. }
  destruct Hinv as [Hwt Hs Hc Hn Hcp Ht He]. split; [|split].
  - split; try done; cbn.
    + intros f q Hq Hq0. destruct (Hwt f q Hq Hq0) as (x&Hx&Hxf&Hxd).
      destruct (decide (q = p)) as [->|Hne].
      * exists w'. rewrite lookup_insert_eq. cbn. split; [done|]. split; [congruence|done].
      * exists x. by rewrite lookup_insert_ne.
    + intros q x [[<- <-]|[Hne Hx]]%lookup_insert_Some; [|by apply Hs].
      by apply (Hs p w Hw).
    + eapply dead_chain_ext; [|exact Hc]. intros q x Hq Hx. destruct (decide (q = p)) as [->|Hne].
      * exists w'. rewrite lookup_insert_eq. split; [done|]. rewrite Hw in Hx. by injection Hx as <-.
      * exists x. by rewrite lookup_insert_ne.
  - intros q x Hx. cbn. destruct (decide (q = p)) as [->|Hne].
    + exists w'. rewrite lookup_insert_eq. rewrite Hw in Hx. by injection Hx as <-.
    + exists x. by rewrite lookup_insert_ne.
  - intros f c u. unfold registration. cbn.
    split; intros (q&x&Hq&Hq0&Hx&Hcb&Hu).
    + apply lookup_insert_Some in Hx as [[<- <-]|[Hne Hx]]; [by exists p, w|by exists q, x].
    + destruct (decide (q = p)) as [->|Hne].
      * exists p, w'. rewrite lookup_insert_eq. rewrite Hw in Hx. by injection Hx as <-.
      * exists q, x. by rewrite lookup_insert_ne.
Qed.

Lemma remove_fd_spec r dl fd :
  reactor_inv r dl -> fd < 2147483648 ->
  exists v r' dl', cloak_reactor_remove_fd r fd = Some (v, r') /\ reactor_inv r' dl' /\
    keeps r r' /\ stopped r' = stopped r /\ queue r' = queue r /\
    (forall c u, ~ registration r' fd c u) /\
    forall f c u, f <> fd -> registration r' f c u <-> registration r f c u.
Proof.
  intros Hinv Hfd. unfold cloak_reactor_remove_fd.
  pose proof (registered_at_spec r dl fd Hinv Hfd) as Hreg.
  destruct (registered_at r fd) as [[p|]|]; [| |done].
  2: { exists (-1), r, dl. split_and!; try done. apply keeps_refl. }
  destruct Hreg as (Hp&Hf&w&Hw&Hwf&Hd). rewrite Hw. cbn [mbind option_bind with_epoll watchers store].
  destruct (slot_release (watchers r) fd p 0 Hf) as (ws&->&Hlen&Hget). cbn [mbind option_bind].
  eexists _, _, (p :: dl). split; [done|].
  set (w' := Watcher (w_fd w) (w_events w) (w_cb w) (w_userdata w) 1 (dead_list r)).
  destruct Hinv as [Hwt Hs Hc Hn Hcp Ht He].
  assert (Hnin : p ∉ dl).
  { intros Hin. destruct (dead_chain_in _ _ _ _ Hc Hin) as (x&Hx&Hxd). rewrite Hw in Hx.
    injection Hx as <-. done. }
  split; [|split; [|split; [done|split; [done|split]]]].
  - split; try done; cbn.
    + intros f q. rewrite Hget. destruct (Z.eqb_spec f fd) as [->|Hne]; [congruence|]. intros Hq Hq0.
      destruct (Hwt f q Hq Hq0) as (x&Hx&Hxf&Hxd). exists x. rewrite lookup_insert_ne; [done|].
      intros <-. rewrite Hw in Hx. injection Hx as <-. congruence.
    + intros q x [[<- <-]|[Hne Hx]]%lookup_insert_Some; [split; [done|right; split; [done|by left]]|].
      destruct (Hs q x Hx) as [Hq Hor]. split; [done|]. destruct Hor as [[Hxd Hxf]|[? ?]]; [left|right].
      * split; [done|]. rewrite Hget. destruct (Z.eqb_spec (w_fd x) fd) as [E|]; [|done].
        rewrite E, Hf in Hxf. congruence.
      * split; [done|by right].
    + split; [done|]. split; [done|]. exists w'. rewrite lookup_insert_eq. split; [done|]. split; [done|].
      cbn. eapply dead_chain_ext; [|exact Hc]. intros q x Hq Hx. exists x.
      rewrite lookup_insert_ne; [done|]. by intros <-.
    + by constructor.
    + unfold watchers_cap in *. cbn. by rewrite Hlen.
    + intros f q. rewrite Hget. destruct (Z.eqb_spec f fd) as [->|Hne].
      * rewrite lookup_delete_eq. split; [by intros [? ?]|]. by intros [[= <-] ?].
      * rewrite lookup_delete_ne by done. apply He.
  - intros q x Hx. cbn. destruct (decide (q = p)) as [->|Hne].
    + exists w'. rewrite lookup_insert_eq. rewrite Hw in Hx. by injection Hx as <-.
    + exists x. by rewrite lookup_insert_ne.
  - intros c u (q&x&Hq&Hq0&_). cbn in Hq. rewrite Hget, Z.eqb_refl in Hq. congruence.
  - intros f c u Hne. unfold registration. cbn. rewrite Hget, (proj2 (Z.eqb_neq _ _) Hne).
    split; intros (q&x&Hq&Hq0&Hx&Hcu); exists q, x; (split; [done|]; split; [done|]; split; [|done]).
    + apply lookup_insert_Some in Hx as [[<- _]|[_ Hx]]; [|done].
      destruct (Hwt f p Hq Hq0) as (y&Hy&Hyf&_). rewrite Hw in Hy. injection Hy as <-. congruence.
    + rewrite lookup_insert_ne; [done|]. intros <-.
      destruct (Hwt f p Hq Hq0) as (y&Hy&Hyf&_). rewrite Hw in Hy. injection Hy as <-. congruence.
Qed.

(** ** What the kernel was asked for *)

(** The interest that event bits stand for, and the one held for a descriptor. *)
Definition epoll_interest (bits : Z) : Z :=
  Z.lor (if Z.land bits EPOLLIN =? 0 then 0 else CLOAK_REACTOR_READABLE)
        (if Z.land bits EPOLLOUT =? 0 then 0 else CLOAK_REACTOR_WRITABLE).
Definition interest_of (r : cloak_reactor) (fd : Z) : option Z :=
  match epoll_set r !! fd with Some (bits, _) => Some (epoll_interest bits) | None => None end.

Lemma to_epoll_interest ev : epoll_interest (to_epoll_events ev) = Z.land ev 3.
Proof.
  assert (Hm : 0 <= Z.land ev 3 < 4) by (change 3 with (Z.ones 2); rewrite Z.land_ones by lia; by apply Z.mod_pos_bound).
  unfold epoll_interest, to_epoll_events, CLOAK_REACTOR_READABLE, CLOAK_REACTOR_WRITABLE.
  replace (Z.land ev 1) with (Z.land (Z.land ev 3) 1) by (by rewrite <- Z.land_assoc).
  replace (Z.land ev 2) with (Z.land (Z.land ev 3) 2) by (by rewrite <- Z.land_assoc).
  destruct (Z.land ev 3) as [|[[|[]|]|[|[]|]|]|] eqn:E; try lia; done.
Qed.

Lemma add_fd_interest r k fd ev cb ud v r' :
  cloak_reactor_add_fd r k fd ev cb ud = Some (v, r') ->
  forall f, interest_of r' f = if (v =? 0) && (f =? fd) then Some (Z.land ev 3) else interest_of r f.
Proof.
  unfold cloak_reactor_add_fd. destruct (_ || _); [by intros [= <- <-]|]. destruct (negb (aa_fcntl k)); [by intros [= <- <-]|].
  destruct (ensure_capacity r fd (aa_grow k)) as [[r1|]|] eqn:Ecap; [|by intros [= <- <-]|done].
  assert (Hr1 : epoll_set r1 = epoll_set r).
  { unfold ensure_capacity in Ecap. destruct (_ <? _); [congruence|].
    destruct (grow_to 64 _ _); [|done]. cbn in Ecap. destruct (aa_grow k); [|done]. by injection Ecap as <-. }
  assert (Hi : forall f, interest_of r1 f = interest_of r f) by (intros f; unfold interest_of; by rewrite Hr1).
  destruct ((watchers r1).[fd]) as [w|]; [|done]. cbn [mbind option_bind].
  destruct (negb (w =? 0)); [by intros [= <- <-]|]. destruct (aa_malloc k =? 0); [by intros [= <- <-]|].
  destruct (negb (aa_epoll k)); [by intros [= <- <-]|].
  destruct (mem_set _ fd (aa_malloc k)) as [ws|]; [|done]. intros [= <- <-] f. cbn [Z.eqb andb].
  unfold interest_of. cbn. destruct (Z.eqb_spec f fd) as [->|].
  - by rewrite lookup_insert_eq, to_epoll_interest.
  - rewrite lookup_insert_ne by done. by rewrite Hr1.
Qed.

Lemma mod_fd_interest r dl ok fd ev v r' :
  reactor_inv r dl -> cloak_reactor_mod_fd r ok fd ev = Some (v, r') ->
  (v = 0 -> is_Some (interest_of r fd)) /\
  forall f, interest_of r' f = if (v =? 0) && (f =? fd) then Some (Z.land ev 3) else interest_of r f.
Proof.
  intros Hinv. unfold cloak_reactor_mod_fd. destruct (registered_at r fd) as [[p|]|] eqn:Ereg; [|by intros [= <- <-]|done].
  destruct (store r !! p) as [w|]; [|done]. cbn [mbind option_bind].
  destruct ok; cbn [negb]; intros [= <- <-]; [|done]. cbn [Z.eqb andb]. split.
  - intros _. unfold registered_at in Ereg. destruct (_ || _); [done|].
    destruct ((watchers r).[fd]) as [q|] eqn:Eq; [|done]. cbn in Ereg. destruct (Z.eqb_spec q 0); [done|]. injection Ereg as ->.
    destruct (proj2 (ri_epoll _ _ Hinv fd p)) as [bits Hb]; [done|]. unfold interest_of. rewrite Hb. by eexists.
  - intros f. unfold interest_of. cbn. destruct (Z.eqb_spec f fd) as [->|].
    + by rewrite lookup_insert_eq, to_epoll_interest.
    + by rewrite lookup_insert_ne.
Qed.

Lemma interest_registered r dl fd :
  reactor_inv r dl -> is_Some (interest_of r fd) <-> exists c u, registration r fd c u.
Proof.
  intros Hinv. unfold interest_of. split.
  - destruct (epoll_set r !! fd) as [[bits p]|] eqn:E; [|by intros [? ?]]. intros _.
    destruct (proj1 (ri_epoll _ _ Hinv fd p)) as [Hf Hp]; [by exists bits|].
    destruct (ri_watched _ _ Hinv fd p Hf Hp) as (w&Hw&_). by exists (w_cb w), (w_userdata w), p, w.
  - intros (c&u&p&w&Hf&Hp&_). destruct (proj2 (ri_epoll _ _ Hinv fd p)) as [bits ->]; [done|]. by eexists.
Qed.

Lemma remove_fd_interest r dl fd v r' :
  reactor_inv r dl -> fd < 2147483648 -> cloak_reactor_remove_fd r fd = Some (v, r') ->
  forall f, interest_of r' f = if f =? fd then None else interest_of r f.
Proof.
  intros Hinv Hfd. unfold cloak_reactor_remove_fd. pose proof (registered_at_spec r dl fd Hinv Hfd) as Hreg.
  destruct (registered_at r fd) as [[p|]|]; [| |done].
  - destruct (store r !! p); [|done]. cbn [mbind option_bind with_epoll watchers].
    destruct (mem_set (watchers r) fd 0); [|done]. intros [= <- <-] f. unfold interest_of. cbn.
    destruct (Z.eqb_spec f fd) as [->|]; [by rewrite lookup_delete_eq|by rewrite lookup_delete_ne].
  - intros [= <- <-] f. destruct (Z.eqb_spec f fd) as [->|]; [|done]. apply eq_None_not_Some.
    rewrite (interest_registered r dl fd Hinv). intros (c&u&Hcu). by eapply Hreg.
Qed.

Lemma reactor_inv_queue r dl q free :
  reactor_inv r dl -> timers_ok q free -> reactor_inv (with_queue r q) dl.
Proof. intros [] Hq. split; try done. by exists free. Qed.

(** Every call of the interface is defined and keeps the invariant. *)
Lemma api_exec_spec o r dl :
  reactor_inv r dl -> api_ok o r ->
  exists x r' dl', api_exec o r = Some (x, r') /\ reactor_inv r' dl' /\ keeps r r'.
Proof.
  intros Hinv Ho. destruct o as [k fd ev cb ud|ok fd ev|fd|now hm sm delay cb ud|id|]; cbn [api_exec api_ok] in *.
  - destruct Ho as [Hfd Hm]. destruct (add_fd_spec r dl k fd ev cb ud Hinv Hfd Hm) as (v&r'&->&?&?&_).
    by exists v, r', dl.
  - destruct (mod_fd_spec r dl ok fd ev Hinv Ho) as (v&r'&->&?&?&_). by exists v, r', dl.
  - destruct (remove_fd_spec r dl fd Hinv Ho) as (v&r'&dl'&->&?&?&_). by exists v, r', dl'.
  - destruct (ri_timers _ _ Hinv) as [free Hok]. unfold reactor_add_timer.
    destruct (add_timer_spec (queue r) free now hm sm delay cb ud Hok) as (id&q&free'&->&Hok'&_).
    cbn [mbind option_bind]. exists id, (with_queue r q), dl. split; [done|].
    split; [by eapply reactor_inv_queue|exact (keeps_refl r)].
  - destruct (ri_timers _ _ Hinv) as [free Hok]. unfold reactor_cancel_timer.
    destruct (cancel_timer_spec (queue r) free id Hok) as (q&free'&n&->&Hok'&_).
    cbn [mbind option_bind]. exists 0, (with_queue r q), dl. split; [done|].
    split; [by eapply reactor_inv_queue|exact (keeps_refl r)].
  - exists 0, (with_stopped r 1), dl. split; [done|]. split; [by destruct Hinv|exact (keeps_refl r)].
Qed.

Lemma api_steps r r' :
  rtc api_step r r' -> (exists dl, reactor_inv r dl) -> (exists dl, reactor_inv r' dl) /\ keeps r r'.
Proof.
  induction 1 as [r|r1 r2 r3 (o&x&Ho&E) _ IH]; intros [dl Hinv].
  { split; [by exists dl|apply keeps_refl]. }
  destruct (api_exec_spec o r1 dl Hinv Ho) as (x'&r2'&dl'&E'&Hinv'&Hk).
  rewrite E in E'. injection E' as <- <-. destruct IH as [? Hk']; [by exists dl'|].
  split; [done|by eapply keeps_trans].
Qed.

(** ** A turn of the loop *)

(** The list is freed to the end, and nothing else is. *)
Lemma free_dead_chain fuel r dl :
  dead_chain (store r) (dead_list r) dl -> NoDup dl -> (length dl <= fuel)%nat ->
  exists st, free_dead fuel r = Some (with_dead_list (with_store r st) 0) /\
    forall p, st !! p = if decide (p ∈ dl) then None else store r !! p.
Proof.
  revert fuel r. induction dl as [|p dl IH]; intros fuel r Hc Hn Hf.
  { exists (store r). cbn in Hc. assert (Hz : (dead_list r =? 0) = true) by (by apply Z.eqb_eq).
    split; [|done]. assert (r = with_dead_list (with_store r (store r)) 0) as <-
      by (destruct r; cbn in Hc; by subst).
    destruct fuel; cbn [free_dead]; by rewrite Hz. }
  destruct fuel as [|fuel]; [cbn in Hf; lia|].
  destruct Hc as [Hhead (Hp&w&Hpw&Hd&Hc)]. cbn [free_dead]. rewrite Hhead.
  rewrite (proj2 (Z.eqb_neq _ _) Hp), Hpw. cbn [mbind option_bind].
  unfold store_free. cbn [store with_dead_list]. rewrite Hpw. cbn [mbind option_bind].
  apply NoDup_cons in Hn as [Hnin Hn].
  destruct (IH fuel (with_store (with_dead_list r (dead_next w)) (delete p (store r)))) as (st&->&Hst);
    [|done|cbn in Hf; lia|].
  - cbn. eapply dead_chain_ext; [|exact Hc]. intros q x Hq Hx. exists x.
    rewrite lookup_delete_ne; [done|]. by intros ->.
  - exists st. split; [done|]. intros q. rewrite Hst. cbn. destruct (decide (q = p)) as [->|Hne].
    + rewrite lookup_delete_eq. rewrite (decide_True (P := p ∈ p :: dl)) by (by left). by destruct (decide _).
    + rewrite lookup_delete_ne by done. apply decide_ext. rewrite elem_of_cons. intuition congruence.
Qed.

Lemma free_dead_spec fuel r dl :
  reactor_inv r dl -> (length dl <= fuel)%nat ->
  exists st, free_dead fuel r = Some (with_dead_list (with_store r st) 0) /\
    reactor_inv (with_dead_list (with_store r st) 0) [].
Proof.
  intros [Hw Hs Hc Hn Hcp Ht He] Hf. destruct (free_dead_chain fuel r dl Hc Hn Hf) as (st&E&Hst).
  exists st. split; [done|]. split; cbn; try done.
  - intros fd p Hp Hp0. destruct (Hw fd p Hp Hp0) as (w&Hpw&Hfd&Hd). exists w. split; [|done].
    rewrite Hst, decide_False; [done|]. intros Hin.
    destruct (dead_chain_in _ _ _ _ Hc Hin) as (x&Hx&?). rewrite Hpw in Hx. by injection Hx as <-.
  - intros p w. rewrite Hst. destruct (decide (p ∈ dl)); [done|]. intros Hpw.
    destruct (Hs p w Hpw) as [Hp Hor]. split; [done|]. destruct Hor as [?|[_ ?]]; [by left|done].
  - constructor.
Qed.

Lemma dead_count r dl : reactor_inv r dl -> (length dl <= size (store r))%nat.
Proof.
  intros Hinv. rewrite <- (size_dom (D := gset Z)).
  assert (Hsub : (list_to_set dl : gset Z) ⊆ dom (store r)).
  { intros p Hp%elem_of_list_to_set. apply elem_of_dom.
    destruct (dead_chain_in _ _ _ _ (ri_chain _ _ Hinv) Hp) as (w&Hw&_). by exists w. }
  apply subseteq_size in Hsub. by rewrite size_list_to_set in Hsub by apply (ri_nodup _ _ Hinv).
Qed.

Lemma fired_events_range bits : fired_events bits = 0 \/ 1 <= fired_events bits <= 3.
Proof.
  unfold fired_events. destruct (Z.land bits (Z.lor _ _) =? 0), (Z.land bits EPOLLOUT =? 0);
    first [left; reflexivity|right; split; vm_compute; congruence].
Qed.

(** Timers that are due at [now]. *)
Definition due_by (now : Z) (q : timer_state) : gmap Z (Z * Z * Z) :=
  filter (fun x => x.2.1.1 <= now) (pending q).

Section turns.
Context {W : Type}.
Variable call : Z -> Z -> Z -> Z -> cloak_reactor * W -> option (cloak_reactor * W).
Variable call_timer : Z -> Z -> cloak_reactor * W -> option (cloak_reactor * W).

(** What the callbacks may rely on and must do: a callback is called only for a
    registered descriptor, with the callback and the data of its registration,
    and changes the reactor only through the calls of the interface. *)
Definition fd_callbacks_ok : Prop := forall cb fd events userdata r w,
  (exists dl, reactor_inv r dl) -> registration r fd cb userdata -> 1 <= events <= 3 -> stopped r = 0 ->
  exists r' w', call cb fd events userdata (r, w) = Some (r', w') /\ rtc api_step r r'.

Definition timer_callbacks_ok : Prop := forall cb userdata r w,
  (exists dl, reactor_inv r dl) -> stopped r = 0 ->
  exists r' w', call_timer cb userdata (r, w) = Some (r', w') /\ rtc api_step r r'.

(** The timers that the callbacks of timers arm are due later. *)
Definition rearms_later (now : Z) : Prop := forall cb userdata r w r' w',
  call_timer cb userdata (r, w) = Some (r', w') ->
  forall id d, due_by now (queue r') !! id = Some d -> due_by now (queue r) !! id = Some d.

Lemma dispatch_spec events r w n :
  fd_callbacks_ok -> (exists dl, reactor_inv r dl) ->
  Forall (fun e => exists x, store r !! e.1 = Some x) events ->
  exists m r' w', dispatch call events (r, w) n = Some (m, (r', w')) /\
    (exists dl, reactor_inv r' dl) /\ n <= m <= n + zlen events.
Proof.
  intros Hcall. revert r w n. induction events as [|[p bits] events IH]; intros r w n Hinv Hev.
  { exists n, r, w. split; [done|]. split; [done|]. change (zlen []) with 0. lia. }
  apply Forall_cons in Hev as [[x Hx] Hev]. cbn in Hx. cbn [dispatch fst]. rewrite zlen_cons.
  pose proof (zlen_nonneg events).
  destruct (Z.eqb_spec (stopped r) 0) as [Hst|]; cbn [negb].
  2: { exists n, r, w. split; [done|]. split; [done|lia]. }
  rewrite Hx. cbn [mbind option_bind].
  assert (Hskip : exists m r' w', dispatch call events (r, w) n = Some (m, (r', w')) /\
    (exists dl, reactor_inv r' dl) /\ n <= m <= n + (1 + zlen events)).
  { destruct (IH r w n Hinv Hev) as (m&r'&w'&E&Hi&Hm). exists m, r', w'. split; [done|]. split; [done|lia]. }
  destruct (Z.eqb_spec (dead x) 0) as [Hd|]; cbn [negb]; [|exact Hskip].
  destruct (Z.eqb_spec (fired_events bits) 0) as [|Hfired]; cbn [negb]; [exact Hskip|].
  assert (Hreg : registration r (w_fd x) (w_cb x) (w_userdata x)).
  { destruct Hinv as [dl Hinv]. destruct (ri_store _ _ Hinv p x Hx) as [Hp [[_ Hf]|[? _]]]; [|done].
    by exists p, x. }
  destruct (Hcall _ _ (fired_events bits) _ r w Hinv Hreg) as (r1&w1&->&Hapi);
    [destruct (fired_events_range bits); lia|done|].
  cbn [mbind option_bind]. destruct (api_steps _ _ Hapi Hinv) as [Hinv1 Hk].
  destruct (IH r1 w1 (n + 1) Hinv1) as (m&r'&w'&->&Hi&Hm).
  { eapply Forall_impl; [exact Hev|]. intros e [y Hy]. destruct (Hk _ _ Hy) as (y'&Hy'&_). by exists y'. }
  exists m, r', w'. split; [done|]. split; [done|lia].
Qed.

Lemma process_expired_spec fuel now r w :
  timer_callbacks_ok -> (exists dl, reactor_inv r dl) ->
  exists t, process_expired_timers call_timer fuel now (r, w) = Some t /\
    match t with
    | Some (r', w') => (exists dl, reactor_inv r' dl) /\ (stopped r' = 0 -> due_by now (queue r') = ∅)
    | None => ~ (rearms_later now /\ (size (due_by now (queue r)) <= fuel)%nat)
    end.
Proof.
  intros Hcall. revert r w. induction fuel as [|fuel IH]; intros r w Hinv; cbn [process_expired_timers fst snd].
  all: pose proof Hinv as [dl Hi]; destruct (ri_timers _ _ Hi) as [free Hok].
  all: destruct (0 <? timer_count (queue r)) eqn:Hcnt; cbn [andb].
  all: try (exists (Some (r, w)); split; [done|]; split; [done|]; intros _;
    bool_hyps; apply map_empty; intros id; apply map_lookup_filter_None_2; left;
    apply eq_None_not_Some; intros [d Hd];
    apply (pending_lookup _ free _ _ Hok) in Hd as (e&He&_);
    unfold timer_count in Hcnt; rewrite (zlen_zero (timers (queue r))) in He by (zlen_pos; lia);
    by apply not_elem_of_nil in He).
  all: destruct (Z.eqb_spec (stopped r) 0) as [Hst|]; [|by exists (Some (r, w))].
  all: destruct (timer_expire_spec (queue r) free now Hok) as (res&->&Hres); cbn [mbind option_bind].
  all: destruct res as [[top q]|];
    [|exists (Some (r, w)); split; [done|]; split; [done|]; intros _; apply map_empty; intros id;
      apply map_lookup_filter_None_2; right; intros d Hd; cbn; specialize (Hres id d Hd); lia].
  all: destruct Hres as (free'&Hok'&_&Hdue&Hwait&_&Hpend&_).
  all: assert (Htop : due_by now (queue r) !! te_id top = Some (deadline_ms top, te_cb top, te_userdata top))
    by (apply map_lookup_filter_Some_2; [done|cbn; lia]).
  { exists None. split; [done|]. intros [_ Hsz].
    assert (size (due_by now (queue r)) <> 0%nat); [|lia].
    intros E%map_size_empty_inv. by rewrite E in Htop. }
  set (r1 := with_queue r q).
  assert (Hinv1 : exists dl, reactor_inv r1 dl) by (exists dl; by eapply reactor_inv_queue).
  destruct (Hcall (te_cb top) (te_userdata top) r1 w Hinv1 Hst) as (r2&w2&E&Hapi). rewrite E.
  cbn [mbind option_bind]. destruct (api_steps _ _ Hapi Hinv1) as [Hinv2 _].
  destruct (IH r2 w2 Hinv2) as (t&->&Ht). exists t. split; [done|]. destruct t as [[r' w']|]; [done|].
  intros [Hlater Hsz]. apply Ht. split; [done|].
  assert (Hsub : due_by now (queue r2) ⊆ delete (te_id top) (due_by now (queue r))).
  { apply map_subseteq_spec. intros id d Hd. apply (Hlater _ _ _ _ _ _ E) in Hd. cbn in Hd.
    unfold due_by in Hd. rewrite Hpend in Hd. apply map_lookup_filter_Some in Hd as [Hd Hle].
    apply lookup_delete_Some in Hd as [Hne Hd]. apply lookup_delete_Some. split; [done|].
    by apply map_lookup_filter_Some_2. }
  apply map_subseteq_size in Hsub. rewrite map_size_delete_Some in Hsub by (by exists (deadline_ms top, te_cb top, te_userdata top)).
  lia.
Qed.

(** What [epoll_wait] reports: at most 64 events, for watches of the table. *)
Definition batch_ok (r : cloak_reactor) (res : wait_result) : Prop :=
  match res with
  | WaitFailed _ => True
  | WaitReady events => zlen events <= 64 /\
      Forall (fun e => e.1 <> 0 /\ exists fd, (watchers r).[fd] = Some e.1) events
  end.

(** The outcome of a turn that ends. *)
Definition turn_done (now : Z) (res : wait_result) (n : Z) (r' : cloak_reactor) : Prop :=
  (exists dl, reactor_inv r' dl) /\
  match res with
  | WaitFailed _ => -1 <= n <= 0
  | WaitReady events => 0 <= n <= zlen events /\ (stopped r' = 0 -> due_by now (queue r') = ∅)
  end.

Lemma due_by_bound now q free : timers_ok q free -> Z.of_nat (size (due_by now q)) <= TIMER_MAX_SLOTS.
Proof.
  intros Hok. pose proof (timers_count_slots q free Hok) as Hle. pose proof (tk_caps _ _ Hok) as Hcaps.
  rewrite <- (timer_count_size q free Hok) in Hle.
  pose proof (map_subseteq_size _ _ (map_filter_subseteq (fun x => x.2.1.1 <= now) (pending q))) as Hsub.
  unfold due_by. lia.
Qed.

Lemma run_once_spec fuel now res r w :
  fd_callbacks_ok -> timer_callbacks_ok -> (exists dl, reactor_inv r dl) -> batch_ok r res ->
  exists t, cloak_reactor_run_once call call_timer fuel now res (r, w) = Some t /\
    match t with
    | Some (n, (r', w')) => turn_done now res n r'
    | None => ~ (rearms_later now /\ TIMER_MAX_SLOTS <= Z.of_nat fuel)
    end.
Proof.
  intros Hcall Htimer Hinv Hb. destruct res as [eintr|events]; cbn [cloak_reactor_run_once].
  { exists (Some (if eintr then 0 else -1, (r, w))). split; [done|]. split; [done|]. cbn. case_match; lia. }
  destruct Hb as [_ Hev]. destruct (dispatch_spec events r w 0 Hcall Hinv) as (n&r1&w1&->&Hinv1&Hn).
  { eapply Forall_impl; [exact Hev|]. intros e [He [fd Hfd]]. destruct Hinv as [dl Hinv].
    destruct (ri_watched _ _ Hinv fd _ Hfd He) as (x&Hx&_). by exists x. }
  cbn [mbind option_bind fst snd]. destruct Hinv1 as [dl1 Hinv1].
  destruct (free_dead_spec (size (store r1)) r1 dl1 Hinv1 (dead_count _ _ Hinv1)) as (st&->&Hinv2).
  cbn [mbind option_bind]. set (r2 := with_dead_list _ 0) in *. destruct (Z.eqb_spec (stopped r2) 0) as [Hst|Hst].
  - destruct (process_expired_spec fuel now r2 w1 Htimer) as (t&->&Ht); [by exists []|].
    cbn [mbind option_bind]. destruct t as [[r' w']|].
    + eexists; split; [done|]. destruct Ht as [Hi Hd]. split; [done|]. split; [lia|done].
    + eexists; split; [done|]. intros [Hl Hf]. apply Ht. split; [done|].
      destruct (ri_timers _ _ Hinv2) as [free Hok]. pose proof (due_by_bound now _ _ Hok). lia.
  - eexists; split; [done|]. split; [by exists []|]. split; [lia|]. intros; done.
Qed.

(** The states of a program that drives a reactor. *)
Inductive reachable : cloak_reactor * W -> Prop :=
| reach_new w : reachable (cloak_reactor_create, w)
| reach_api r w r' w' : reachable (r, w) -> api_step r r' -> reachable (r', w')
| reach_turn fuel now res r w n s' :
    reachable (r, w) -> batch_ok r res ->
    cloak_reactor_run_once call call_timer fuel now res (r, w) = Some (Some (n, s')) -> reachable s'.

Lemma create_inv : reactor_inv cloak_reactor_create [].
Proof.
  assert (Hnil : forall {A} i (x : A), ([] : list A).[i] = Some x -> False)
    by (intros A i x Hx; unfold mem_get in Hx; by destruct (0 <=? i)).
  split; cbn.
  - intros fd p Hp. by apply Hnil in Hp.
  - intros p w Hp. by rewrite lookup_empty in Hp.
  - done.
  - constructor.
  - done.
  - destruct no_timers_sim as (free&Hok&_). by exists free.
  - intros fd p. rewrite lookup_empty. split; [by intros [? ?]|]. by intros [Hp%Hnil _].
Qed.

Lemma reachable_inv s :
  fd_callbacks_ok -> timer_callbacks_ok -> reachable s -> exists dl, reactor_inv s.1 dl.
Proof.
  intros Hcall Htimer. induction 1 as [w|r w r' w' _ IH Hstep|fuel now res r w n s' _ IH Hb E].
  - exists []. apply create_inv.
  - destruct IH as [dl Hinv]. destruct Hstep as (o&x&Ho&E). destruct (api_exec_spec o r dl Hinv Ho) as (x'&r1&dl'&E'&Hi&_).
    rewrite E in E'. injection E' as <- <-. by exists dl'.
  - destruct (run_once_spec fuel now res r w Hcall Htimer IH Hb) as (t&E'&Ht).
    rewrite E in E'. injection E' as <-. destruct s' as [r' w']. by destruct Ht.
Qed.
End turns.

(** ** Tearing down *)

(** Freeing the addresses of a table that names no block twice. *)
Lemma free_all_spec ws r :
  (forall i p, ws !! i = Some p -> p <> 0 -> is_Some (store r !! p)) ->
  (forall i j p, ws !! i = Some p -> ws !! j = Some p -> p <> 0 -> i = j) ->
  exists st, foldl (fun acc p => r ← acc; if p =? 0 then Some r else store_free r p) (Some r) ws
      = Some (with_store r st) /\
    forall p, st !! p = if decide (p <> 0 /\ p ∈ ws) then None else store r !! p.
Proof.
  revert r. induction ws as [|q ws IH]; intros r Hin Hinj.
  { exists (store r). split; [by destruct r|]. intros p. rewrite decide_False; [done|].
    by intros [_ ?%not_elem_of_nil]. }
  cbn [foldl]. cbn [mbind option_bind]. destruct (Z.eqb_spec q 0) as [->|Hq].
  - destruct (IH r) as (st&->&Hst); [intros i p Hi; by apply (Hin (S i))| |].
    { intros i j p Hi Hj Hp. enough (S i = S j) by lia. by apply (Hinj (S i) (S j) p). }
    exists st. split; [done|]. intros p. rewrite Hst. apply decide_ext. rewrite elem_of_cons.
    intuition congruence.
  - destruct (Hin 0%nat q eq_refl Hq) as [w Hw]. unfold store_free at 2. rewrite Hw.
    assert (Hnin : q ∉ ws).
    { intros [i Hi]%list_elem_of_lookup. enough (0%nat = S i) by lia. by apply (Hinj 0%nat (S i) q). }
    destruct (IH (with_store r (delete q (store r)))) as (st&->&Hst).
    + intros i p Hi Hp. cbn. rewrite lookup_delete_ne; [by apply (Hin (S i))|].
      intros ->. apply Hnin. by eapply list_elem_of_lookup_2.
    + intros i j p Hi Hj Hp. enough (S i = S j) by lia. by apply (Hinj (S i) (S j) p).
    + exists st. split; [done|]. intros p. rewrite Hst. cbn. destruct (decide (p = q)) as [->|Hne].
      * rewrite lookup_delete_eq. rewrite (decide_True (P := q <> 0 /\ q ∈ q :: ws)) by (split; [done|by left]).
        by destruct (decide _).
      * rewrite lookup_delete_ne by done. apply decide_ext. rewrite elem_of_cons. intuition congruence.
Qed.

Lemma destroy_spec r dl :
  reactor_inv r dl -> exists r', cloak_reactor_destroy r = Some r' /\ store r' = ∅.
Proof.
  intros Hinv. pose proof Hinv as [Hw Hs Hc Hn _ _ _]. unfold cloak_reactor_destroy.
  assert (Hget : forall i p, watchers r !! i = Some p -> (watchers r).[Z.of_nat i] = Some p)
    by (intros i p Hi; rewrite mem_get_lookup, Nat2Z.id by lia; done).
  destruct (free_all_spec (watchers r) r) as (st&->&Hst).
  { intros i p Hi Hp. destruct (Hw _ _ (Hget i p Hi) Hp) as (w&Hpw&_). by exists w. }
  { intros i j p Hi Hj Hp. destruct (Hw _ _ (Hget i p Hi) Hp) as (w&Hpw&Hf&_).
    destruct (Hw _ _ (Hget j p Hj) Hp) as (w'&Hpw'&Hf'&_). rewrite Hpw in Hpw'. injection Hpw' as <-. lia. }
  cbn [mbind option_bind]. set (r1 := with_store r st).
  assert (Hdl : forall p, p ∈ dl -> st !! p = store r !! p).
  { intros p Hp. rewrite Hst, decide_False; [done|]. intros [Hp0 [i Hi]%list_elem_of_lookup].
    destruct (Hw _ _ (Hget i p Hi) Hp0) as (w&Hpw&_&Hd).
    destruct (dead_chain_in _ _ _ _ Hc Hp) as (x&Hx&?). rewrite Hpw in Hx. by injection Hx as <-. }
  assert (Hc1 : dead_chain (store r1) (dead_list r1) dl).
  { eapply dead_chain_ext; [|exact Hc]. intros p w Hp Hpw. exists w. cbn. by rewrite Hdl. }
  assert (Hlen : (length dl <= size (store r1))%nat).
  { rewrite <- (size_dom (D := gset Z)).
    assert (Hsub : (list_to_set dl : gset Z) ⊆ dom (store r1)).
    { intros p Hp%elem_of_list_to_set. apply elem_of_dom.
      destruct (dead_chain_in _ _ _ _ Hc1 Hp) as (w&Hpw&_). by exists w. }
    apply subseteq_size in Hsub. by rewrite size_list_to_set in Hsub. }
  destruct (free_dead_chain _ r1 dl Hc1 Hn Hlen) as (st2&->&Hst2). eexists. split; [done|].
  cbn. apply map_empty. intros p. rewrite Hst2. destruct (decide (p ∈ dl)) as [|Hnin]; [done|].
  cbn. rewrite Hst. destruct (decide _) as [|Hno]; [done|]. apply eq_None_not_Some. intros [w Hpw].
  destruct (Hs p w Hpw) as [Hp [[_ Hf]|[_ ?]]]; [|done]. apply Hno. split; [done|].
  apply mem_get_inv in Hf as [_ Hf]. by eapply list_elem_of_lookup_2.
Qed.
