(* ===== verification/ReactorTurn.v ===== *)
(** * What a turn of the event loop tells its users

    The same turn of [Reactor], with callbacks that also write down when they
    are called and what they do to the reactor: which callbacks a turn owes
    for the events of a batch and for the timers that are due, and that it
    pays them.  Then the contract of the loop as one theorem over every state
    that a program can drive it to. *)
From stdpp Require Import gmap.
From S2P Require Import Prelude Fallible ReactorApi TimerHeap TimerSpec Reactor.

(** ** The log of a turn *)

Inductive told :=
| Called (cb fd events userdata : Z)
| Fired (cb userdata : Z).

(** A callback, and the reactor it was given and the one it left. *)
Record entry := Entry { e_told : told; e_before : cloak_reactor; e_after : cloak_reactor }.

(** The callbacks that a batch asks for, by the watches at its beginning. *)
Definition owed_calls (r : cloak_reactor) (events : list (Z * Z)) : list told :=
  omap (fun e => x ← store r !! e.1;
                 if fired_events e.2 =? 0 then None
                 else Some (Called (w_cb x) (w_fd x) (fired_events e.2) (w_userdata x))) events.

(** Those that the timers due at [now] ask for. *)
Definition owed_timers (now : Z) (q : timer_state) : list told :=
  map (fun x => Fired x.2.1.2 x.2.2) (map_to_list (due_by now q)).

(** A callback took a watch, or a timer, away. *)
Definition removes_watch (fd p : Z) (e : entry) : Prop :=
  (watchers (e_before e)).[fd] = Some p /\ (watchers (e_after e)).[fd] <> Some p.
Definition cancels (id : Z) (e : entry) : Prop :=
  exists d, pending (queue (e_before e)) !! id = Some d /\ pending (queue (e_after e)) !! id <> Some d.

Section trace.
Context {W : Type}.
Variable call : Z -> Z -> Z -> Z -> cloak_reactor * W -> option (cloak_reactor * W).
Variable call_timer : Z -> Z -> cloak_reactor * W -> option (cloak_reactor * W).

Definition traced_call (cb fd events userdata : Z) (s : cloak_reactor * (W * list entry))
    : option (cloak_reactor * (W * list entry)) :=
  '(r, w) ← call cb fd events userdata (s.1, s.2.1);
  Some (r, (w, s.2.2 ++ [Entry (Called cb fd events userdata) s.1 r])).
Definition traced_timer (cb userdata : Z) (s : cloak_reactor * (W * list entry))
    : option (cloak_reactor * (W * list entry)) :=
  '(r, w) ← call_timer cb userdata (s.1, s.2.1);
  Some (r, (w, s.2.2 ++ [Entry (Fired cb userdata) s.1 r])).

(** What a turn from [r] to [r'] owes for [events] at [now].  The calls are some
    of those owed, in order, and all of them if no callback removes a watch; an
    event goes unanswered only if a callback before it removed that watch, and a
    due timer is passed over only if a callback cancelled it; and if the
    callbacks leave the due timers as they are, each of those fires once. *)
Definition turn_pays (now : Z) (events : list (Z * Z)) (r r' : cloak_reactor) (n : Z) (calls fires : list entry) : Prop :=
  n = zlen calls /\
  map e_told calls `sublist_of` owed_calls r events /\
  (stopped r' = 0 ->
    (forall p bits x, (p, bits) ∈ events -> store r !! p = Some x -> fired_events bits <> 0 ->
       Called (w_cb x) (w_fd x) (fired_events bits) (w_userdata x) ∈ map e_told calls \/
       exists e, e ∈ calls /\ removes_watch (w_fd x) p e) /\
    ((forall e fd p, e ∈ calls -> ~ removes_watch fd p e) -> map e_told calls = owed_calls r events) /\
    (forall id d cb ud, pending (queue r) !! id = Some (d, cb, ud) -> d <= now ->
       Fired cb ud ∈ map e_told fires \/ exists e, e ∈ calls ++ fires /\ cancels id e) /\
    ((forall e, e ∈ calls ++ fires -> due_by now (queue (e_after e)) = due_by now (queue (e_before e))) ->
       map e_told fires ≡ₚ owed_timers now (queue r))).

Hypothesis Hcall : fd_callbacks_ok call.
Hypothesis Htimer : timer_callbacks_ok call_timer.

Lemma traced_call_eq cb fd ev ud r w log r' w' :
  call cb fd ev ud (r, w) = Some (r', w') ->
  traced_call cb fd ev ud (r, (w, log)) = Some (r', (w', log ++ [Entry (Called cb fd ev ud) r r'])).
Proof. intros E. unfold traced_call. cbn [fst snd]. by rewrite E. Qed.

Lemma traced_timer_eq cb ud r w log r' w' :
  call_timer cb ud (r, w) = Some (r', w') ->
  traced_timer cb ud (r, (w, log)) = Some (r', (w', log ++ [Entry (Fired cb ud) r r'])).
Proof. intros E. unfold traced_timer. cbn [fst snd]. by rewrite E. Qed.

(** What the calls of a batch did to the timers. *)
Definition timers_seen (q q' : timer_state) (l : list entry) : Prop :=
  (forall id d, pending q !! id = Some d -> pending q' !! id = Some d \/ exists e, e ∈ l /\ cancels id e) /\
  (forall now, (forall e, e ∈ l -> due_by now (queue (e_after e)) = due_by now (queue (e_before e))) ->
     due_by now q' = due_by now q).

Lemma seen_nil q : timers_seen q q [].
Proof. split; [by left|done]. Qed.

Lemma seen_cons e q l : timers_seen (queue (e_after e)) q l -> timers_seen (queue (e_before e)) q (e :: l).
Proof.
  intros [H1 H2]. split.
  - intros id d Hd. destruct (decide (pending (queue (e_after e)) !! id = Some d)) as [Ha|Ha].
    + destruct (H1 id d Ha) as [?|(x&Hx&?)]; [by left|]. right. exists x. split; [by right|done].
    + right. exists e. split; [by left|by exists d].
  - intros now Hl. rewrite H2 by (intros x Hx; apply Hl; by right). apply Hl. by left.
Qed.

Lemma owed_cons r p bits x events :
  store r !! p = Some x ->
  owed_calls r ((p, bits) :: events) =
    (if fired_events bits =? 0 then [] else [Called (w_cb x) (w_fd x) (fired_events bits) (w_userdata x)]) ++ owed_calls r events.
Proof. intros Hx. unfold owed_calls. cbn. rewrite Hx. cbn. by destruct (fired_events bits =? 0). Qed.

Lemma owed_keeps r r' events :
  keeps r r' -> Forall (fun e => is_Some (store r !! e.1)) events -> owed_calls r' events = owed_calls r events.
Proof.
  intros Hk. induction 1 as [|[p bits] events [x Hx] _ IH]; [done|]. cbn [fst] in Hx.
  destruct (Hk p x Hx) as (x'&Hx'&Ef&Ec&Eu). rewrite (owed_cons r' p bits x'), (owed_cons r p bits x), IH, Ef, Ec, Eu by done. done.
Qed.

(** A watch that died while a callback ran was removed by it. *)
Lemma died_removed r r' t p x x' :
  (exists dl, reactor_inv r dl) -> (exists dl, reactor_inv r' dl) -> keeps r r' ->
  store r !! p = Some x -> dead x = 0 -> store r' !! p = Some x' -> dead x' <> 0 ->
  removes_watch (w_fd x) p (Entry t r r').
Proof.
  intros [dl Hi] [dl' Hi'] Hk Hx Hd Hx' Hd'. destruct (ri_store _ _ Hi p x Hx) as [Hp [[_ Hf]|[? _]]]; [|done].
  split; [exact Hf|]. cbn. intros Hf'. destruct (ri_watched _ _ Hi' _ _ Hf' Hp) as (y&Hy&_&?). congruence.
Qed.

(** The loop over a batch. *)
Definition batch_paid (events : list (Z * Z)) (r r' : cloak_reactor) (calls : list entry) : Prop :=
  map e_told calls `sublist_of` owed_calls r events /\ timers_seen (queue r) (queue r') calls /\
  (stopped r' = 0 ->
    (forall p bits x, (p, bits) ∈ events -> store r !! p = Some x -> dead x = 0 -> fired_events bits <> 0 ->
       Called (w_cb x) (w_fd x) (fired_events bits) (w_userdata x) ∈ map e_told calls \/
       exists e, e ∈ calls /\ removes_watch (w_fd x) p e) /\
    ((forall p bits x, (p, bits) ∈ events -> store r !! p = Some x -> dead x = 0) ->
     (forall e fd p, e ∈ calls -> ~ removes_watch fd p e) -> map e_told calls = owed_calls r events)).

Lemma batch_skip p bits events r r' x calls :
  store r !! p = Some x -> fired_events bits = 0 \/ dead x <> 0 ->
  batch_paid events r r' calls -> batch_paid ((p, bits) :: events) r r' calls.
Proof.
  intros Hx Hskip (Hsub&Hseen&Hrest). split; [|split; [exact Hseen|]].
  - rewrite (owed_cons r p bits x) by done. destruct (fired_events bits =? 0); [exact Hsub|by apply sublist_cons].
  - intros Hst. destruct (Hrest Hst) as [Hall Heq]. split.
    + intros p' bits' x' [[= -> ->]|Hin]%elem_of_cons Hx' Hd Hf; [|by apply (Hall p' bits' x')].
      rewrite Hx in Hx'. injection Hx' as <-. by destruct Hskip.
    + intros Hlive Hno. destruct Hskip as [Hz|Hd].
      * rewrite (owed_cons r p bits x), Hz by done. apply Heq; [|done]. intros p' b' x' Hin. apply (Hlive p' b'). by right.
      * destruct Hd. apply (Hlive p bits); [by left|done].
Qed.

Lemma batch_call p bits events r r1 r' x calls :
  (exists dl, reactor_inv r dl) -> (exists dl, reactor_inv r1 dl) -> keeps r r1 ->
  store r !! p = Some x -> fired_events bits <> 0 -> Forall (fun e => is_Some (store r !! e.1)) events ->
  batch_paid events r1 r' calls ->
  batch_paid ((p, bits) :: events) r r'
    (Entry (Called (w_cb x) (w_fd x) (fired_events bits) (w_userdata x)) r r1 :: calls).
Proof.
  intros Hi Hi1 Hk Hx Hf Hev (Hsub&Hseen&Hrest). set (e := Entry _ r r1).
  assert (Howed : owed_calls r ((p, bits) :: events) = e_told e :: owed_calls r1 events).
  { rewrite (owed_keeps r r1), (owed_cons r p bits x), (proj2 (Z.eqb_neq _ _) Hf) by done. done. }
  assert (Hnext : forall p' b' y, (p', b') ∈ events -> store r !! p' = Some y -> dead y = 0 ->
    exists y', store r1 !! p' = Some y' /\ same_watch y y' /\ (dead y' = 0 \/ removes_watch (w_fd y) p' e)).
  { intros p' b' y _ Hy Hd. destruct (Hk p' y Hy) as (y'&Hy'&Hs). exists y'. split; [done|]. split; [done|].
    destruct (Z.eq_dec (dead y') 0) as [|Hd']; [by left|right]. by eapply died_removed. }
  split; [|split].
  - rewrite Howed. cbn [map]. by apply sublist_skip.
  - by apply (seen_cons e).
  - intros Hst. destruct (Hrest Hst) as [Hall Heq]. split.
    + intros p' b' y [[= -> ->]|Hin]%elem_of_cons Hy Hd Hfd.
      { rewrite Hx in Hy. injection Hy as <-. left. by left. }
      destruct (Hnext p' b' y Hin Hy Hd) as (y'&Hy'&(Ef&Ec&Eu)&[Hd'|Hrm]).
      * rewrite <- Ec, <- Eu, <- Ef. destruct (Hall p' b' y' Hin Hy' Hd' Hfd) as [?|(z&Hz&?)]; [left; by right|].
        right. exists z. split; [by right|done].
      * right. exists e. split; [by left|done].
    + intros Hlive Hno. rewrite Howed. cbn [map]. f_equal. apply Heq.
      * intros p' b' y' Hin Hy'. pose proof Hin as Hin'. apply (proj1 (Forall_forall _ _) Hev) in Hin' as [y Hy]. cbn in Hy.
        destruct (Hnext p' b' y Hin Hy) as (y2&Hy2&_&[?|Hrm]); [apply (Hlive p' b'); [by right|done]|congruence|].
        destruct (Hno e _ _ ltac:(by left) Hrm).
      * intros z fd q Hz. apply Hno. by right.
Qed.

Lemma dispatch_trace events r w n log :
  (exists dl, reactor_inv r dl) -> Forall (fun e => is_Some (store r !! e.1)) events ->
  exists m r' w' calls, dispatch call events (r, w) n = Some (m, (r', w')) /\
    dispatch traced_call events (r, (w, log)) n = Some (m, (r', (w', log ++ calls))) /\
    (exists dl, reactor_inv r' dl) /\ m = n + zlen calls /\ batch_paid events r r' calls.
Proof.
  revert r w n log. induction events as [|[p bits] events IH]; intros r w n log Hinv Hev.
  { exists n, r, w, []. rewrite app_nil_r, Z.add_0_r. split_and!; [done..|]. split; [done|]. split; [apply seen_nil|].
    intros _. split; [by intros p b x Hin%not_elem_of_nil|done]. }
  apply Forall_cons in Hev as [[x Hx] Hev]. cbn [fst] in Hx. cbn [dispatch fst].
  destruct (Z.eqb_spec (stopped r) 0) as [Hst|Hst]; cbn [negb].
  2: { exists n, r, w, []. rewrite app_nil_r, Z.add_0_r. split_and!; [done..|]. split; [apply sublist_nil_l|]. split; [apply seen_nil|done]. }
  rewrite Hx. cbn [mbind option_bind].
  assert (Hskip : fired_events bits = 0 \/ dead x <> 0 -> exists m r' w' calls,
    dispatch call events (r, w) n = Some (m, (r', w')) /\
    dispatch traced_call events (r, (w, log)) n = Some (m, (r', (w', log ++ calls))) /\
    (exists dl, reactor_inv r' dl) /\ m = n + zlen calls /\ batch_paid ((p, bits) :: events) r r' calls).
  { intros H. destruct (IH r w n log Hinv Hev) as (m&r'&w'&calls&E&E'&Hi&Hm&Hb). exists m, r', w', calls.
    split_and!; [done..|]. by eapply batch_skip. }
  destruct (Z.eqb_spec (dead x) 0) as [Hd|Hd]; cbn [negb]; [|by apply Hskip; right].
  destruct (Z.eqb_spec (fired_events bits) 0) as [|Hfired]; cbn [negb]; [by apply Hskip; left|].
  assert (Hreg : registration r (w_fd x) (w_cb x) (w_userdata x)).
  { destruct Hinv as [dl Hinv]. destruct (ri_store _ _ Hinv p x Hx) as [Hp [[_ Hf]|[? _]]]; [|done]. by exists p, x. }
  destruct (Hcall _ _ (fired_events bits) _ r w Hinv Hreg) as (r1&w1&E1&Hapi);
    [destruct (fired_events_range bits); lia|done|].
  rewrite (traced_call_eq _ _ _ _ _ _ log _ _ E1), E1. cbn [mbind option_bind].
  destruct (api_steps _ _ Hapi Hinv) as [Hinv1 Hk].
  destruct (IH r1 w1 (n + 1) (log ++ [Entry (Called (w_cb x) (w_fd x) (fired_events bits) (w_userdata x)) r r1]) Hinv1)
    as (m&r'&w'&calls&->&->&Hi&->&Hb).
  { eapply Forall_impl; [exact Hev|]. intros e [y Hy]. destruct (Hk _ _ Hy) as (y'&Hy'&_). by exists y'. }
  eexists _, r', w', (_ :: calls). split; [done|]. rewrite <- app_assoc. split; [done|]. split; [done|].
  split; [rewrite zlen_cons; lia|]. by apply (batch_call _ _ _ _ r1).
Qed.

(** The timers. *)
Definition timers_paid (now : Z) (r r' : cloak_reactor) (fires : list entry) : Prop :=
  stopped r' = 0 ->
  (forall id d cb ud, pending (queue r) !! id = Some (d, cb, ud) -> d <= now ->
     Fired cb ud ∈ map e_told fires \/ exists e, e ∈ fires /\ cancels id e) /\
  ((forall e, e ∈ fires -> due_by now (queue (e_after e)) = due_by now (queue (e_before e))) ->
     map e_told fires ≡ₚ owed_timers now (queue r)).

Lemma due_lookup now q id d cb ud :
  due_by now q !! id = Some (d, cb, ud) <-> pending q !! id = Some (d, cb, ud) /\ d <= now.
Proof. unfold due_by. by rewrite map_lookup_filter_Some. Qed.

Lemma none_due now r : (stopped r = 0 -> due_by now (queue r) = ∅) -> timers_paid now r r [].
Proof.
  intros He Hst. specialize (He Hst). split.
  - intros id d cb ud Hp Hd. pose proof (proj2 (due_lookup now (queue r) id d cb ud) (conj Hp Hd)) as H.
    by rewrite He in H.
  - intros _. unfold owed_timers. rewrite He. by rewrite map_to_list_empty.
Qed.

Lemma fire_paid now r q r1 r' top fires :
  due_by now (queue r) !! te_id top = Some (deadline_ms top, te_cb top, te_userdata top) ->
  pending q = delete (te_id top) (pending (queue r)) ->
  timers_paid now r1 r' fires ->
  timers_paid now r r' (Entry (Fired (te_cb top) (te_userdata top)) (with_queue r q) r1 :: fires).
Proof.
  intros Htop Hq Hpaid Hst. destruct (Hpaid Hst) as [Hall Heq]. set (e := Entry _ _ r1). split.
  - intros id d cb ud Hp Hd. destruct (decide (id = te_id top)) as [->|Hne].
    { pose proof (proj2 (due_lookup now (queue r) _ d cb ud) (conj Hp Hd)) as Hp'. rewrite Htop in Hp'. injection Hp' as <- <- <-.
      left. by left. }
    assert (Hb : pending (queue (e_before e)) !! id = Some (d, cb, ud)) by (cbn; rewrite Hq; by rewrite lookup_delete_ne).
    destruct (decide (pending (queue r1) !! id = Some (d, cb, ud))) as [H1|H1].
    + destruct (Hall id d cb ud H1 Hd) as [?|(z&Hz&?)]; [left; by right|]. right. exists z. split; [by right|done].
    + right. exists e. split; [by left|by exists (d, cb, ud)].
  - intros Hsame. cbn [map e_told e]. rewrite Heq by (intros z Hz; apply Hsame; by right). unfold owed_timers.
    specialize (Hsame e ltac:(by left)). cbn in Hsame. rewrite Hsame.
    assert (Hdel : due_by now q = delete (te_id top) (due_by now (queue r))).
    { unfold due_by. by rewrite Hq, map_filter_delete. }
    rewrite Hdel. by rewrite <- (map_to_list_delete (due_by now (queue r)) _ _ Htop).
Qed.

Lemma expired_trace fuel now r w log :
  (exists dl, reactor_inv r dl) ->
  exists t, process_expired_timers call_timer fuel now (r, w) = Some t /\
    match t with
    | Some (r', w') => exists fires,
        process_expired_timers traced_timer fuel now (r, (w, log)) = Some (Some (r', (w', log ++ fires))) /\
        timers_paid now r r' fires
    | None => True
    end.
Proof.
  revert r w log. induction fuel as [|fuel IH]; intros r w log Hinv.
  all: destruct (process_expired_spec call_timer 0 now r w Htimer Hinv) as (t0&E0&H0).
  all: cbn [process_expired_timers fst snd] in *; pose proof Hinv as [dl Hi]; destruct (ri_timers _ _ Hi) as [free Hok].
  all: destruct ((0 <? timer_count (queue r)) && (stopped r =? 0)) eqn:Hgo;
    [|injection E0 as <-; exists (Some (r, w)); split; [done|]; exists []; rewrite app_nil_r; split; [done|]; apply none_due; apply H0].
  all: destruct (timer_expire_spec (queue r) free now Hok) as (res&Hres&Hcase); rewrite Hres in *; cbn [mbind option_bind] in *.
  all: destruct res as [[top q]|];
    [|injection E0 as <-; exists (Some (r, w)); split; [done|]; exists []; rewrite app_nil_r; split; [done|]; apply none_due; apply H0].
  { by exists None. }
  destruct Hcase as (free'&Hok'&_&Hdue&Hwait&_&Hpend&_). bool_hyps.
  set (r1 := with_queue r q).
  assert (Hinv1 : exists dl, reactor_inv r1 dl) by (exists dl; by eapply reactor_inv_queue).
  destruct (Htimer (te_cb top) (te_userdata top) r1 w Hinv1 ltac:(done)) as (r2&w2&E&Hapi).
  rewrite (traced_timer_eq _ _ _ _ log _ _ E), E. cbn [mbind option_bind].
  destruct (api_steps _ _ Hapi Hinv1) as [Hinv2 _].
  destruct (IH r2 w2 (log ++ [Entry (Fired (te_cb top) (te_userdata top)) r1 r2]) Hinv2) as (t&->&Ht). exists t. split; [done|].
  destruct t as [[r' w']|]; [|done]. destruct Ht as (fires&->&Hpaid). eexists. rewrite <- app_assoc. split; [done|].
  apply fire_paid; [|done|done]. by apply due_lookup.
Qed.

(** A whole turn. *)
Lemma turn_trace fuel now events r w n r' w' :
  (exists dl, reactor_inv r dl) -> batch_ok r (WaitReady events) ->
  cloak_reactor_run_once call call_timer fuel now (WaitReady events) (r, w) = Some (Some (n, (r', w'))) ->
  exists calls fires,
    cloak_reactor_run_once traced_call traced_timer fuel now (WaitReady events) (r, (w, [])) =
      Some (Some (n, (r', (w', calls ++ fires)))) /\ turn_pays now events r r' n calls fires.
Proof.
  intros Hinv [_ Hev] Hrun. cbn [cloak_reactor_run_once] in *.
  assert (Hwatch : forall e, e ∈ events -> exists x, store r !! e.1 = Some x /\ dead x = 0).
  { intros e He. apply (proj1 (Forall_forall _ _) Hev) in He as [Hp [fd Hfd]]. destruct Hinv as [dl Hi].
    destruct (ri_watched _ _ Hi fd _ Hfd Hp) as (x&Hx&_&Hd). by exists x. }
  destruct (dispatch_trace events r w 0 [] Hinv) as (m&r1&w1&calls&E&->&[dl1 Hi1]&Hm&Hsub&[Hkeep Hsame]&Hpaid).
  { apply Forall_forall. intros e He. destruct (Hwatch e He) as (x&Hx&_). by exists x. }
  rewrite E in Hrun. cbn [mbind option_bind fst snd app] in *.
  destruct (free_dead_spec (size (store r1)) r1 dl1 Hi1 (dead_count _ _ Hi1)) as (st&Efree&Hi2). rewrite Efree in *.
  cbn [mbind option_bind] in *. set (r2 := with_dead_list _ 0) in *.
  destruct (Z.eqb_spec (stopped r2) 0) as [Hst|Hst].
  2: { injection Hrun as <- <- <-. exists calls, []. rewrite app_nil_r. split; [done|]. split; [lia|]. split; [done|]. by intros ?. }
  destruct (expired_trace fuel now r2 w1 calls) as (t&Et&Ht); [by exists []|]. rewrite Et in Hrun. cbn [mbind option_bind] in Hrun.
  destruct t as [[r3 w3]|]; [|done]. injection Hrun as <- <- <-. destruct Ht as (fires&->&Hfires). exists calls, fires.
  split; [done|]. split; [lia|]. split; [done|]. intros Hst3. destruct (Hpaid Hst) as [Hall Heq]. destruct (Hfires Hst3) as [Hdue Hexact].
  split; [|split; [|split]].
  - intros p bits x Hin Hx Hf. apply (Hall p bits x); [done..| |done]. destruct (Hwatch _ Hin) as (y&Hy&?). cbn in Hy. congruence.
  - apply Heq. intros p bits x Hin Hx. destruct (Hwatch _ Hin) as (y&Hy&?). cbn in Hy. congruence.
  - intros id d cb ud Hp Hd. destruct (Hkeep id _ Hp) as [Hp2|(e&He&?)].
    + destruct (Hdue id d cb ud Hp2 Hd) as [?|(e&He&?)]; [by left|]. right. exists e. split; [apply elem_of_app; by right|done].
    + right. exists e. split; [apply elem_of_app; by left|done].
  - intros Hq. rewrite Hexact by (intros e He; apply Hq, elem_of_app; by right). unfold owed_timers.
    change (queue r2) with (queue r1). rewrite (Hsame now); [done|]. intros e He. apply Hq, elem_of_app. by left.
Qed.
End trace.

(** C31: invariant.  In a program that reaches the reactor only through its
    calls, whose descriptors close after they are removed, every state can take
    a turn: no freed watch is read however the callbacks add and remove watches
    in the middle of a batch, a callback runs only for a descriptor that is
    registered at that moment and with its own data, and the turn ends when the
    callbacks of timers re-arm later, with no due timer left unless the loop was
    stopped.  The turn pays what it owes: for every event of the batch, in
    order, the callback of its watch is called with its descriptor, the folded
    event bits and its data, unless a callback of the turn removed that watch;
    every timer that was due fires, unless a callback cancelled it, and once
    each if the callbacks leave the due timers alone; nothing else is called
    for the batch, and the number returned counts the calls.  (Stopping the
    loop from a callback ends the turn early.)  Destroying the reactor then
    frees every watch, each one once. *)
Theorem reactor_memory_safe {W : Type} call call_timer (r : cloak_reactor) (w : W) :
  fd_callbacks_ok call -> timer_callbacks_ok call_timer -> reachable call call_timer (r, w) ->
  (forall fuel now res, batch_ok r res ->
     exists t, cloak_reactor_run_once call call_timer fuel now res (r, w) = Some t /\
       match t with
       | Some (n, (r', w')) => turn_done now res n r'
       | None => ~ (rearms_later call_timer now /\ TIMER_MAX_SLOTS <= Z.of_nat fuel)
       end) /\
  (forall fuel now events n r' w', batch_ok r (WaitReady events) ->
     cloak_reactor_run_once call call_timer fuel now (WaitReady events) (r, w) = Some (Some (n, (r', w'))) ->
     exists calls fires,
       cloak_reactor_run_once (traced_call call) (traced_timer call_timer) fuel now (WaitReady events) (r, (w, [])) =
         Some (Some (n, (r', (w', calls ++ fires)))) /\
       turn_pays now events r r' n calls fires) /\
  exists r', cloak_reactor_destroy r = Some r' /\ store r' = ∅.
Proof.
  intros Hcall Htimer Hreach.
  destruct (reachable_inv call call_timer (r, w) Hcall Htimer Hreach) as [dl Hinv].
  split; [|split; [|by eapply destroy_spec]].
  - intros fuel now res Hb. by apply run_once_spec; [| |exists dl|].
  - intros fuel now events n r' w' Hb E. eapply turn_trace; [exact Hcall|exact Htimer|by exists dl|exact Hb|exact E].
Qed.

(** A callback that removes the descriptor its user data name, and a timer that
    arms itself again. *)
Definition demo_call (cb fd events userdata : Z) (s : cloak_reactor * list Z)
    : option (cloak_reactor * list Z) :=
  if userdata <? 2147483648 then
    '(_, r) ← cloak_reactor_remove_fd s.1 userdata; Some (r, s.2 ++ [fd])
  else Some s.
Definition demo_call_timer (cb userdata : Z) (s : cloak_reactor * list Z)
    : option (cloak_reactor * list Z) :=
  '(_, r) ← reactor_add_timer s.1 1000 true true 100 cb userdata; Some (r, s.2 ++ [userdata]).

Lemma demo_call_ok : fd_callbacks_ok demo_call.
Proof.
  intros cb fd ev ud r w [dl Hinv] _ _ _. unfold demo_call. cbn [fst snd].
  destruct (Z.ltb_spec ud 2147483648); [|by exists r, w].
  destruct (api_exec_spec (ApiRemoveFd ud) r dl Hinv ltac:(done)) as (x&r'&dl'&E&_). cbn [api_exec] in E.
  rewrite E. cbn [mbind option_bind]. eexists _, _. split; [done|]. apply rtc_once.
  by exists (ApiRemoveFd ud), x.
Qed.

Lemma demo_call_timer_ok : timer_callbacks_ok demo_call_timer.
Proof.
  intros cb ud r w [dl Hinv] _. unfold demo_call_timer. cbn [fst snd].
  destruct (api_exec_spec (ApiAddTimer 1000 true true 100 cb ud) r dl Hinv ltac:(done)) as (x&r'&dl'&E&_).
  cbn [api_exec] in E. rewrite E. cbn [mbind option_bind]. eexists _, _. split; [done|]. apply rtc_once.
  by exists (ApiAddTimer 1000 true true 100 cb ud), x.
Qed.

(** Descriptors 3 and 4, each of which removes the other, and a timer. *)
Definition demo_setup : list api_op :=
  [ApiAddFd (AddAnswers true true 100 true) 3 1 7 4; ApiAddFd (AddAnswers true true 200 true) 4 1 7 3;
   ApiAddTimer 900 true true 50 8 9].
Fixpoint api_run (ops : list api_op) (r : cloak_reactor) : option cloak_reactor :=
  match ops with
  | [] => Some r
  | o :: ops' => '(_, r') ← api_exec o r; api_run ops' r'
  end.
Definition demo_reactor : cloak_reactor :=
  default cloak_reactor_create (api_run demo_setup cloak_reactor_create).

Lemma demo_reachable : reachable demo_call demo_call_timer (demo_reactor, []).
Proof.
  assert (Hrun : forall ops r w r', reachable demo_call demo_call_timer (r, w) ->
    (forall n o r1, ops !! n = Some o -> api_run (take n ops) r = Some r1 -> api_ok o r1) ->
    api_run ops r = Some r' -> reachable demo_call demo_call_timer (r', w)).
  { induction ops as [|o ops IH]; intros r w r' Hr Hok E; [by injection E as <-|].
    cbn in E. destruct (api_exec o r) as [[x r1]|] eqn:E1; [|done]. cbn [mbind option_bind] in E.
    apply (IH r1 w r'); [| |done].
    - eapply reach_api; [exact Hr|]. exists o, x. split; [|done]. by apply (Hok 0%nat o r).
    - intros n o' r2 Hn En. apply (Hok (S n) o' r2 Hn). cbn. by rewrite E1. }
  apply (Hrun demo_setup cloak_reactor_create); [apply reach_new| |vm_compute; reflexivity].
  intros n o r1. destruct n as [|[|[|n]]]; [| | |done]; cbn [lookup list_lookup demo_setup take];
    intros [= <-] [= <-]; done.
Qed.

Definition demo_batch : wait_result := WaitReady [(100, EPOLLIN); (200, EPOLLHUP)].
Definition demo_log : list told :=
  match cloak_reactor_run_once (traced_call demo_call) (traced_timer demo_call_timer) 5 960 demo_batch (demo_reactor, ([], [])) with
  | Some (Some x) => map e_told x.2.2.2
  | _ => []
  end.
Lemma demo_turn_log : demo_log = [Called 7 3 CLOAK_REACTOR_READABLE 4; Fired 8 9].
Proof. vm_compute. reflexivity. Qed.

(** Of the two watches the first called back removes the other; the timer was
    due. *)
Lemma reactor_memory_safe_witness :
  let batch := [(100, EPOLLIN); (200, EPOLLHUP)] in
  (exists r' calls fires,
    cloak_reactor_run_once demo_call demo_call_timer 5 960 (WaitReady batch) (demo_reactor, []) = Some (Some (1, (r', [3; 9]))) /\
    turn_done 960 (WaitReady batch) 1 r' /\ turn_pays 960 batch demo_reactor r' 1 calls fires /\
    map e_told calls = [Called 7 3 CLOAK_REACTOR_READABLE 4] /\ map e_told fires = [Fired 8 9]) /\
  exists r', cloak_reactor_destroy demo_reactor = Some r' /\ store r' = ∅.
Proof.
  destruct (reactor_memory_safe demo_call demo_call_timer demo_reactor []
              demo_call_ok demo_call_timer_ok demo_reachable) as (Hturn&Hpays&Hdestroy).
  split; [|exact Hdestroy].
  assert (Hb : batch_ok demo_reactor (WaitReady [(100, EPOLLIN); (200, EPOLLHUP)])).
  { split; [vm_compute; congruence|].
    repeat constructor; try (exists 3; vm_compute; reflexivity); try (exists 4; vm_compute; reflexivity);
      vm_compute; congruence. }
  destruct (Hturn 5%nat 960 _ Hb) as (t&E&Ht).
  destruct t as [[n [r' w']]|]; [|vm_compute in E; discriminate].
  assert (n = 1 /\ w' = [3; 9]) as [-> ->].
  { vm_compute in E. injection E as <- _ <-. done. }
  destruct (Hpays 5%nat 960 _ _ _ _ Hb E) as (calls&fires&Etr&Hp). exists r', calls, fires.
  split; [exact E|]. split; [exact Ht|]. split; [exact Hp|].
  assert (Htold : map e_told (calls ++ fires) = [Called 7 3 1 4; Fired 8 9]).
  { pose proof demo_turn_log as H. unfold demo_log, demo_batch in H. rewrite Etr in H. exact H. }
  destruct Hp as (Hn&_). rewrite map_app in Htold. destruct calls as [|c [|c' calls]]; [done| |exfalso; rewrite !zlen_cons in Hn; pose proof (zlen_nonneg calls); lia].
  injection Htold as Hc Hf. split; [cbn [map]; by rewrite Hc|exact Hf].
Defined.
