(* ===== verification/ReactorInst.v ===== *)
(** * The event loop discharges the interface of its users

    [ReactorApi] states what the drivers of connections rely on.  Here the
    functions of reactor.c are an instance: a user's callbacks are fixed, and
    the answers of the kernel and of the allocator are read from a script that
    the laws quantify over. *)
From stdpp Require Import gmap.
From S2P Require Import Prelude Refinement Fallible ReactorApi TimerHeap TimerSpec Reactor.

(** The reactor with what is still to be answered: successes (refusals when the
    script is over) and readings of the clock. *)
Record driven := Driven {
  dr : cloak_reactor;
  dr_answers : list bool;
  dr_clock : list Z
}.

Definition answer (n : nat) (d : driven) : bool := default false (dr_answers d !! n).
Definition clock (d : driven) : Z := default 0 (dr_clock d !! 0%nat).
Definition after (n : nat) (r : cloak_reactor) (d : driven) : driven :=
  Driven r (drop n (dr_answers d)) (drop 1 (dr_clock d)).

(** [malloc] returns an address that is not in use, or NULL. *)
Definition new_address (r : cloak_reactor) (mem_ok : bool) : Z :=
  if mem_ok then fresh (dom (store r) ∪ {[0]}) else 0.

(** A descriptor is an [int]; no other number can be passed. *)
Definition is_int (fd : Z) : bool := fd <? 2147483648.

(** A handle whose generation is over, or in use. *)
Definition given_out (q : timer_state) (id : Z) : Prop :=
  exists free, timers_ok q free /\ ~ unissued q free id.

Lemma free_chain_unique sl h l l' :
  zlen sl <= TIMER_MAX_SLOTS -> free_chain sl h l -> free_chain sl h l' -> l = l'.
Proof.
  intros Hmax. revert h l'. induction l as [|i l IH]; intros h l' Hl Hl'.
  - symmetry. eapply free_chain_head; [exact Hl'|by eapply free_chain_range|done|]. cbn in Hl. by rewrite Hl.
  - destruct l' as [|j l'].
    + eapply free_chain_head; [exact Hl|by eapply free_chain_range|done|]. cbn in Hl'. by rewrite Hl'.
    + cbn [free_chain] in Hl, Hl'. destruct Hl as [-> (s&Hs&_&Hl)], Hl' as [-> (s'&Hs'&_&Hl')].
      f_equal. eapply IH; [exact Hl|]. congruence.
Qed.

Lemma timers_free_unique q free free' : timers_ok q free -> timers_ok q free' -> free = free'.
Proof.
  intros H H'. eapply free_chain_unique; [|apply H|apply H']. destruct (tk_caps _ _ H) as [_ Hc].
  unfold slots_count in Hc. lia.
Qed.

Lemma given_out_in q free id : timers_ok q free -> given_out q id <-> ~ unissued q free id.
Proof.
  intros Hok. split; [|by exists free]. intros (free'&Hok'&Hn). by rewrite (timers_free_unique _ _ _ Hok Hok').
Qed.

(** What an operation leaves of the handles still to come. *)
Lemma given_out_step q free q' free' id :
  timers_ok q free -> timers_ok q' free' -> (unissued q' free' id -> unissued q free id) ->
  given_out q id -> given_out q' id.
Proof. intros Hok Hok' Hi. rewrite (given_out_in _ _ _ Hok), (given_out_in _ _ _ Hok'). tauto. Qed.

(** What waits was given out. *)
Lemma pending_given_out q free id x : timers_ok q free -> pending q !! id = Some x -> given_out q id.
Proof.
  intros Hok Hx. apply (given_out_in _ _ _ Hok). intros (g&i&Hr&->&Hfree).
  apply (pending_lookup q free _ _ Hok) in Hx as (e&He&[= Hid _]).
  destruct (live_range q free e Hok He) as (s&Hs&Hu&Hr'&Hid'). rewrite Hid in Hid'.
  destruct (timer_handle_inj _ _ _ _ Hr Hr' Hid') as [-> ->].
  pose proof (mem_get_inv _ _ _ Hs) as [Hlt _]. destruct Hfree as [Hge|(s'&Hs'&Hg)]; [unfold slots_count in Hge; lia|].
  rewrite Hs in Hs'. injection Hs' as <-. destruct Hg as [|[_ Hin]]; [lia|].
  destruct (free_chain_in _ _ _ _ (tk_free _ _ Hok) Hin) as (s'&Hs'&Hu'). rewrite Hs in Hs'. injection Hs' as <-. lia.
Qed.

Section instance.
(** The callbacks of the user, and the pointer it registers with them. *)
Context (cb timer_cb userdata : Z).

Definition driven_add_fd (d : driven) (fd events : Z) : Z * driven :=
  let k := AddAnswers (answer 0 d) (answer 1 d) (new_address (dr d) (answer 2 d)) (answer 3 d) in
  match (if is_int fd then cloak_reactor_add_fd (dr d) k fd events cb userdata else None) with
  | Some (v, r) => (v, after 4 r d)
  | None => (-1, d)
  end.

Definition driven_mod_fd (d : driven) (fd events : Z) : Z * driven :=
  match (if is_int fd then cloak_reactor_mod_fd (dr d) (answer 0 d) fd events else None) with
  | Some (v, r) => (v, after 1 r d)
  | None => (-1, d)
  end.

Definition driven_remove_fd (d : driven) (fd : Z) : driven :=
  match (if is_int fd then cloak_reactor_remove_fd (dr d) fd else None) with
  | Some (_, r) => after 0 r d
  | None => d
  end.

Definition driven_add_timer (d : driven) (delay_ms : Z) : Z * driven :=
  match reactor_add_timer (dr d) (clock d) (answer 0 d) (answer 1 d) delay_ms timer_cb userdata with
  | Some (id, r) => (id, after 2 r d)
  | None => (CLOAK_TIMER_INVALID, d)
  end.

Definition driven_cancel_timer (d : driven) (id : Z) : driven :=
  match reactor_cancel_timer (dr d) id with Some r => after 0 r d | None => d end.

Definition driven_fire (d : driven) : option (Z * driven) :=
  match timer_expire (queue (dr d)) (clock d) with
  | Some (Some (top, q)) => Some (te_id top, after 0 (with_queue (dr d) q) d)
  | _ => None
  end.

Definition interest_held (r : cloak_reactor) (fd : Z) : option Z := if is_int fd then interest_of r fd else None.

#[export] Instance driven_reactor : Reactor driven := {|
  r_add_fd := driven_add_fd;
  r_mod_fd := driven_mod_fd;
  r_remove_fd := driven_remove_fd;
  r_add_timer := driven_add_timer;
  r_cancel_timer := driven_cancel_timer;
  r_fire := driven_fire;
  interest_in d fd := interest_held (dr d) fd;
  armed d id := is_Some (pending (queue (dr d)) !! id);
  spent d id := given_out (queue (dr d)) id;
  reactor_ok d := exists dl, reactor_inv (dr d) dl
|}.

Lemma new_address_fresh r ok dl : reactor_inv r dl -> store r !! new_address r ok = None.
Proof.
  intros Hinv. unfold new_address. apply eq_None_not_Some. intros [w Hw]. destruct ok.
  - apply (is_fresh (dom (store r) ∪ {[0]})), elem_of_union_l, elem_of_dom. by exists w.
  - by destruct (ri_store _ _ Hinv 0 w Hw).
Qed.

Lemma interest_held_int r fd : fd < 2147483648 -> interest_held r fd = interest_of r fd.
Proof. intros Hfd. unfold interest_held, is_int. by rewrite (proj2 (Z.ltb_lt _ _)). Qed.

(** What two reactors agree on off a descriptor. *)
Lemma interest_held_ext r r' f : interest_of r' f = interest_of r f -> interest_held r' f = interest_held r f.
Proof. intros H. unfold interest_held. by destruct (is_int f). Qed.

Lemma driven_spent d d' id : reactor_ok d -> reactor_call d d' -> spent d id -> spent d' id.
Proof.
  intros [dl Hinv]. destruct (ri_timers _ _ Hinv) as [free Hok]. cbn.
  assert (Hsame : forall d2, queue (dr d2) = queue (dr d) -> given_out (queue (dr d)) id -> given_out (queue (dr d2)) id)
    by (intros d2 ->; done).
  intros Hcall. destruct Hcall as [fd ev|fd ev|fd|delay|i|i d' Hf]; cbn in *.
  - unfold driven_add_fd, is_int. destruct (Z.ltb_spec fd 2147483648) as [Hfd|]; [|by apply Hsame].
    set (k := AddAnswers _ _ _ _).
    destruct (add_fd_spec (dr d) dl k fd ev cb userdata Hinv Hfd) as (x&r'&->&_&_&_&Hq&_); [by eapply new_address_fresh|].
    by apply Hsame.
  - unfold driven_mod_fd, is_int. destruct (Z.ltb_spec fd 2147483648) as [Hfd|]; [|by apply Hsame].
    destruct (mod_fd_spec (dr d) dl (answer 0 d) fd ev Hinv Hfd) as (x&r'&->&_&_&_&Hq&_). by apply Hsame.
  - unfold driven_remove_fd, is_int. destruct (Z.ltb_spec fd 2147483648) as [Hfd|]; [|by apply Hsame].
    destruct (remove_fd_spec (dr d) dl fd Hinv Hfd) as (x&r'&dl'&->&_&_&_&Hq&_). by apply Hsame.
  - unfold driven_add_timer, reactor_add_timer.
    destruct (add_timer_spec (queue (dr d)) free (clock d) (answer 0 d) (answer 1 d) delay timer_cb userdata Hok)
      as (x&q&free'&->&Hok'&_&Hcase). cbn. eapply given_out_step; [done..|].
    destruct (x =? CLOAK_TIMER_INVALID); [apply Hcase|]. destruct Hcase as (_&_&_&Hu). rewrite Hu. tauto.
  - unfold driven_cancel_timer, reactor_cancel_timer.
    destruct (cancel_timer_spec (queue (dr d)) free i Hok) as (q&free'&n&->&Hok'&_&Hu&_). cbn.
    eapply given_out_step; [done..|]. apply Hu.
  - unfold driven_fire in Hf. destruct (timer_expire_spec (queue (dr d)) free (clock d) Hok) as (res&E&Hres).
    rewrite E in Hf. destruct res as [[top q]|]; [|done]. destruct Hres as (free'&Hok'&_&_&_&_&_&_&Hu).
    injection Hf as _ <-. cbn. eapply given_out_step; [done..|]. apply Hu.
Qed.

#[export] Instance driven_laws : ReactorLaws driven.
Proof.
  split; cbn; unfold same_watches, same_timers; cbn.
  - (* add_fd *)
    intros d fd ev v d' [dl Hinv]. unfold driven_add_fd, is_int.
    destruct (Z.ltb_spec fd 2147483648) as [Hfd|]; [|intros [= <- <-]; split; [by exists dl|done]].
    set (k := AddAnswers _ _ _ _).
    destruct (add_fd_spec (dr d) dl k fd ev cb userdata Hinv Hfd) as (x&r'&E&Hinv'&_&_&Hq&Hreg);
      [by eapply new_address_fresh|].
    rewrite E. intros [= <- <-]. cbn. split; [by exists dl|]. rewrite Hq. split; [done|].
    pose proof (add_fd_interest _ _ _ _ _ _ _ _ E) as Hi. destruct (x =? 0); cbn [andb] in Hi.
    + destruct Hreg as (Hnone&_). rewrite !interest_held_int by done. split; [|split].
      * apply eq_None_not_Some. rewrite (interest_registered _ dl fd Hinv). intros (c&u&Hcu). by eapply Hnone.
      * by rewrite Hi, Z.eqb_refl.
      * intros f Hf. apply interest_held_ext. by rewrite Hi, (proj2 (Z.eqb_neq _ _) Hf).
    + intros f. apply interest_held_ext, Hi.
  - (* mod_fd *)
    intros d fd ev v d' [dl Hinv]. unfold driven_mod_fd, is_int.
    destruct (Z.ltb_spec fd 2147483648) as [Hfd|]; [|intros [= <- <-]; split; [by exists dl|done]].
    destruct (mod_fd_spec (dr d) dl (answer 0 d) fd ev Hinv Hfd) as (x&r'&E&Hinv'&_&_&Hq&_).
    rewrite E. intros [= <- <-]. cbn. split; [by exists dl|]. rewrite Hq. split; [done|].
    destruct (mod_fd_interest _ dl _ _ _ _ _ Hinv E) as [Hw Hi]. destruct (Z.eqb_spec x 0); cbn [andb] in Hi.
    + unfold watching. cbn. rewrite !interest_held_int by done. split; [by apply Hw|]. split; [by rewrite Hi, Z.eqb_refl|].
      intros f Hf. apply interest_held_ext. by rewrite Hi, (proj2 (Z.eqb_neq _ _) Hf).
    + intros f. apply interest_held_ext, Hi.
  - (* remove_fd *)
    intros d fd [dl Hinv]. unfold driven_remove_fd, is_int.
    destruct (Z.ltb_spec fd 2147483648) as [Hfd|Hfd].
    + destruct (remove_fd_spec (dr d) dl fd Hinv Hfd) as (x&r'&dl'&E&Hinv'&_&_&Hq&_).
      rewrite E. cbn. split; [by exists dl'|]. rewrite Hq. split; [done|].
      pose proof (remove_fd_interest _ dl _ _ _ Hinv Hfd E) as Hi. split.
      * by rewrite interest_held_int, Hi, Z.eqb_refl.
      * intros f Hf. apply interest_held_ext. by rewrite Hi, (proj2 (Z.eqb_neq _ _) Hf).
    + split; [by exists dl|]. split; [done|]. split; [|done].
      unfold interest_held, is_int. by rewrite (proj2 (Z.ltb_ge _ _)).
  - (* add_timer *)
    intros d delay id d' [dl Hinv]. destruct (ri_timers _ _ Hinv) as [free Hok]. unfold driven_add_timer, reactor_add_timer.
    destruct (add_timer_spec (queue (dr d)) free (clock d) (answer 0 d) (answer 1 d) delay timer_cb userdata Hok)
      as (x&q&free'&->&Hok'&_&Hcase). cbn [mbind option_bind]. intros [= <- <-]. cbn.
    split; [exists dl; by eapply reactor_inv_queue|]. split; [done|].
    destruct (x =? CLOAK_TIMER_INVALID).
    + destruct Hcase as [-> _]. done.
    + destruct Hcase as (_&Hnone&->&_). rewrite Hnone. split; [by intros [? ?]|]. intros i.
      destruct (decide (i = x)) as [->|Hne]; [rewrite lookup_insert_eq; split; [by left|by eexists]|].
      rewrite lookup_insert_ne by done. split; [by right|by intros [?|?]].
  - (* cancel_timer *)
    intros d id [dl Hinv]. destruct (ri_timers _ _ Hinv) as [free Hok]. unfold driven_cancel_timer, reactor_cancel_timer.
    destruct (cancel_timer_spec (queue (dr d)) free id Hok) as (q&free'&n&->&Hok'&Hp&_).
    cbn. split; [exists dl; by eapply reactor_inv_queue|]. split; [done|]. intros i. rewrite Hp.
    destruct (decide (i = id)) as [->|Hne]; [rewrite lookup_delete_eq|rewrite lookup_delete_ne by done].
    + split; [by intros [? ?]|by intros [? _]].
    + split; [done|by intros [_ ?]].
  - (* fire *)
    intros d id d' [dl Hinv]. destruct (ri_timers _ _ Hinv) as [free Hok]. unfold driven_fire.
    destruct (timer_expire_spec (queue (dr d)) free (clock d) Hok) as (res&->&Hres).
    destruct res as [[top q]|]; [|done]. destruct Hres as (free'&Hok'&_&_&Hwait&_&Hp&_).
    intros [= <- <-]. cbn. split; [exists dl; by eapply reactor_inv_queue|]. split; [done|].
    split; [by eexists|]. intros i. rewrite Hp.
    destruct (decide (i = te_id top)) as [->|Hne]; [rewrite lookup_delete_eq|rewrite lookup_delete_ne by done].
    + split; [by intros [? ?]|by intros [? _]].
    + split; [done|by intros [_ ?]].
  - (* handles *)
    intros d id [dl Hinv] [x Hx]. destruct (ri_timers _ _ Hinv) as [free Hok].
    apply (pending_lookup _ free _ _ Hok) in Hx as (e&He&[= <- _]).
    destruct (live_range _ free e Hok He) as (s&_&_&Hr&->).
    pose proof (timer_handle_valid _ _ Hr). unfold CLOAK_TIMER_INVALID. lia.
  - intros d id [dl Hinv] [x Hx]. destruct (ri_timers _ _ Hinv) as [free Hok]. by eapply pending_given_out.
  - intros d delay id d' [dl Hinv]. destruct (ri_timers _ _ Hinv) as [free Hok]. unfold driven_add_timer, reactor_add_timer.
    destruct (add_timer_spec (queue (dr d)) free (clock d) (answer 0 d) (answer 1 d) delay timer_cb userdata Hok)
      as (x&q&free'&->&_&_&Hcase). cbn [mbind option_bind]. intros [= <- _] Hx.
    rewrite (proj2 (Z.eqb_neq _ _) Hx) in Hcase. rewrite (given_out_in _ _ _ Hok). tauto.
  - intros d d' id. apply driven_spent.
Qed.

End instance.
