(* ===== verification/ClientTransport.v ===== *)
(** * The client's handshake ([libcloak-client/src/client_transport.c])

    The handshake object sends the ClientHello that carries the client's
    proof of identity and reads the server's reply, three TLS records, never
    taking a byte that belongs to what follows.  It is driven by a reactor:
    readiness of its descriptor and a deadline. *)
From S2P Require Import Prelude Fallible Buffer Aead X25519 Random ClientAuth ClientHelloTemplates ClientHello ReactorApi Http.

Definition CLOAK_CLIENT_RANDOM_SERVER_NAME_MAX : Z := 18.
Definition CLOAK_CLIENT_SERVER_NAME_MAX : Z := 253.
Definition CLOAK_CLIENT_TLD_COUNT : Z := 13.

(** [cloak_client_browser_t] *)
Definition CLOAK_CLIENT_BROWSER_CHROME : Z := 0.
Definition CLOAK_CLIENT_BROWSER_FIREFOX : Z := 1.
Definition CLOAK_CLIENT_BROWSER_SAFARI : Z := 2.

(** [cloak_client_handshake_error_t] *)
Definition CLOAK_CLIENT_HANDSHAKE_ERR_NONE : Z := 0.
Definition CLOAK_CLIENT_HANDSHAKE_ERR_CONFIG : Z := 1.
Definition CLOAK_CLIENT_HANDSHAKE_ERR_BUILD : Z := 2.
Definition CLOAK_CLIENT_HANDSHAKE_ERR_IO : Z := 3.
Definition CLOAK_CLIENT_HANDSHAKE_ERR_EOF : Z := 4.
Definition CLOAK_CLIENT_HANDSHAKE_ERR_PROTOCOL : Z := 5.
Definition CLOAK_CLIENT_HANDSHAKE_ERR_AUTH : Z := 6.
Definition CLOAK_CLIENT_HANDSHAKE_ERR_TIMEOUT : Z := 7.

(** [cloak_client_handshake_status_t] *)
Definition CLOAK_CLIENT_HANDSHAKE_PENDING : Z := 0.
Definition CLOAK_CLIENT_HANDSHAKE_DONE : Z := 1.
Definition CLOAK_CLIENT_HANDSHAKE_FAILED : Z := -1.

(** [cloak_client_handshake_state_t] *)
Definition CLOAK_CLIENT_HS_STATE_WRITE_HELLO : Z := 0.
Definition CLOAK_CLIENT_HS_STATE_READ_RECORD_HEADER : Z := 1.
Definition CLOAK_CLIENT_HS_STATE_READ_RECORD_BODY : Z := 2.
Definition CLOAK_CLIENT_HS_STATE_DONE : Z := 3.
Definition CLOAK_CLIENT_HS_STATE_FAILED : Z := 4.

Definition CLOAK_CLIENT_HANDSHAKE_REPLY_RECORDS : Z := 3.
Definition CLOAK_CLIENT_HANDSHAKE_SERVERHELLO_PREFIX : Z := 112.
Definition CLOAK_CLIENT_HANDSHAKE_MAX_RECORD_BODY : Z := 16640.
Definition CLOAK_CLIENT_HANDSHAKE_MAX_REPLY_BYTES : Z :=
  CLOAK_CLIENT_HANDSHAKE_REPLY_RECORDS * (5 + CLOAK_CLIENT_HANDSHAKE_MAX_RECORD_BODY).
Definition CLOAK_CLIENT_HANDSHAKE_DEFAULT_TIMEOUT_MS : Z := 15000.

(** ** The random server name *)

Definition cloak_client_top_level_domains : list bytes :=
  [c_string "com"; c_string "net"; c_string "org"; c_string "it"; c_string "fr"; c_string "me";
   c_string "ru"; c_string "cn"; c_string "es"; c_string "tr"; c_string "top"; c_string "xyz"; c_string "info"].

Definition random_below (n : Z) (r : rand) : Z * rand :=
  let '(b, r) := cloak_random_bytes 8 r in
  (fold_left (fun v x => Z.lor (u64 (Z.shiftl v 8)) x) b 0 mod n, r).

(** The letters. *)
Fixpoint random_letters (n : nat) (i : Z) (out : bytes) (r : rand) : option (bytes * rand) :=
  match n with
  | O => Some (out, r)
  | S n =>
      let '(x, r) := random_below 26 r in
      out ← mem_set out i (97 + x);
      random_letters n (i + 1) out r
  end.

(** Return value, [out] and the tape; the capacity is [zlen out]. *)
Definition cloak_client_random_server_name (out : option bytes) (r : rand)
    : option (Z * option bytes * rand) :=
  match out with
  | None => Some (-1, None, r)
  | Some out =>
      if zlen out <? CLOAK_CLIENT_RANDOM_SERVER_NAME_MAX then Some (-1, Some out, r)
      else
        let '(k, r) := random_below 10 r in
        let size := 3 + k in
        '(out, r) ← random_letters (Z.to_nat size) 0 out r;
        out ← mem_set out size 46;
        let i := size + 1 in
        let '(t, r) := random_below CLOAK_CLIENT_TLD_COUNT r in
        tld ← cloak_client_top_level_domains.[t];
        out ← out.[i <- tld];
        out ← mem_set out (i + zlen tld) 0;
        Some (0, Some out, r)
  end.

Definition store_be16 (p : bytes) (off v : Z) : option bytes :=
  p ← mem_set p off (u8 (Z.shiftr v 8));
  mem_set p (off + 1) (Z.land v 255).

Definition min_size (a b : Z) : Z := if a <? b then a else b.

Definition template_for (b : Z) : option cloak_clienthello_template_t :=
  if b =? CLOAK_CLIENT_BROWSER_CHROME then Some cloak_clienthello_chrome
  else if b =? CLOAK_CLIENT_BROWSER_FIREFOX then Some cloak_clienthello_firefox
  else if b =? CLOAK_CLIENT_BROWSER_SAFARI then Some cloak_clienthello_safari
  else None.

(** [strcasecmp (a, b) == 0], in the C locale. *)
Definition strcaseeq (a b : bytes) : option bool :=
  n ← strlen a; m ← strlen b;
  Some (bool_decide (map ascii_lower (take (Z.to_nat n) a) = map ascii_lower (take (Z.to_nat m) b))).

(** ** The object *)

(** The read side of the structure. *)
Record reply_reader := ReplyReader {
  record_index : Z;
  rr_header : bytes;
  header_len : Z;
  body_len : Z;
  body_total : Z;
  reply_bytes : Z;
  rr_sh : bytes;
  sh_len : Z
}.

(** [h_reactor] and [h_on_done] say that the pointers are not NULL. *)
Record cloak_client_handshake_t := Handshake {
  h_reactor : bool;
  h_fd : Z;
  h_fd_registered : bool;
  h_fd_interest : Z;
  h_state : Z;
  h_status : Z;
  h_error : Z;
  h_hello : bytes;
  h_hello_len : Z;
  h_hello_sent : Z;
  h_shared_secret : bytes;
  h_reader : reply_reader;
  h_session_key : bytes;
  h_server_name : bytes;
  h_timeout_ms : Z;
  h_deadline_timer : Z;
  h_notified : bool;
  h_on_done : bool
}.

Definition set_fd (h : cloak_client_handshake_t) (registered : bool) (interest : Z) :=
  Handshake (h_reactor h) (h_fd h) registered interest (h_state h) (h_status h) (h_error h)
    (h_hello h) (h_hello_len h) (h_hello_sent h) (h_shared_secret h) (h_reader h)
    (h_session_key h) (h_server_name h) (h_timeout_ms h) (h_deadline_timer h) (h_notified h)
    (h_on_done h).
Definition set_timer (h : cloak_client_handshake_t) (id : Z) :=
  Handshake (h_reactor h) (h_fd h) (h_fd_registered h) (h_fd_interest h) (h_state h) (h_status h)
    (h_error h) (h_hello h) (h_hello_len h) (h_hello_sent h) (h_shared_secret h) (h_reader h)
    (h_session_key h) (h_server_name h) (h_timeout_ms h) id (h_notified h) (h_on_done h).
Definition set_verdict (h : cloak_client_handshake_t) (state status error : Z) :=
  Handshake (h_reactor h) (h_fd h) (h_fd_registered h) (h_fd_interest h) state status error
    (h_hello h) (h_hello_len h) (h_hello_sent h) (h_shared_secret h) (h_reader h)
    (h_session_key h) (h_server_name h) (h_timeout_ms h) (h_deadline_timer h) (h_notified h)
    (h_on_done h).
Definition set_state (h : cloak_client_handshake_t) (state : Z) :=
  set_verdict h state (h_status h) (h_error h).
Definition set_sent (h : cloak_client_handshake_t) (sent : Z) :=
  Handshake (h_reactor h) (h_fd h) (h_fd_registered h) (h_fd_interest h) (h_state h) (h_status h)
    (h_error h) (h_hello h) (h_hello_len h) sent (h_shared_secret h) (h_reader h)
    (h_session_key h) (h_server_name h) (h_timeout_ms h) (h_deadline_timer h) (h_notified h)
    (h_on_done h).
Definition set_reader (h : cloak_client_handshake_t) (rd : reply_reader) :=
  Handshake (h_reactor h) (h_fd h) (h_fd_registered h) (h_fd_interest h) (h_state h) (h_status h)
    (h_error h) (h_hello h) (h_hello_len h) (h_hello_sent h) (h_shared_secret h) rd
    (h_session_key h) (h_server_name h) (h_timeout_ms h) (h_deadline_timer h) (h_notified h)
    (h_on_done h).
Definition set_session_key (h : cloak_client_handshake_t) (key : bytes) :=
  Handshake (h_reactor h) (h_fd h) (h_fd_registered h) (h_fd_interest h) (h_state h) (h_status h)
    (h_error h) (h_hello h) (h_hello_len h) (h_hello_sent h) (h_shared_secret h) (h_reader h)
    key (h_server_name h) (h_timeout_ms h) (h_deadline_timer h) (h_notified h) (h_on_done h).
Definition set_notified (h : cloak_client_handshake_t) :=
  Handshake (h_reactor h) (h_fd h) (h_fd_registered h) (h_fd_interest h) (h_state h) (h_status h)
    (h_error h) (h_hello h) (h_hello_len h) (h_hello_sent h) (h_shared_secret h) (h_reader h)
    (h_session_key h) (h_server_name h) (h_timeout_ms h) (h_deadline_timer h) true (h_on_done h).

Definition zero_reader : reply_reader :=
  ReplyReader 0 (replicate 5 0) 0 0 0 0 (replicate 112 0) 0.

(** The object and what it acts on: the reactor, the two directions of the
    socket and the statuses handed to [on_done]. *)
Record conn (R : Type) := Conn {
  c_h : cloak_client_handshake_t;
  c_reactor : R;
  c_inbox : bytes;
  c_outbox : bytes;
  c_done : list Z
}.
#[global] Arguments Conn {_} _ _ _ _ _.
#[global] Arguments c_h {_} _.
#[global] Arguments c_reactor {_} _.
#[global] Arguments c_inbox {_} _.
#[global] Arguments c_outbox {_} _.
#[global] Arguments c_done {_} _.

Definition with_h {R} (c : conn R) (h : cloak_client_handshake_t) : conn R :=
  Conn h (c_reactor c) (c_inbox c) (c_outbox c) (c_done c).
Definition with_reactor {R} (c : conn R) (r : R) : conn R :=
  Conn (c_h c) r (c_inbox c) (c_outbox c) (c_done c).

(** What [recv] and [send] answer.  The kernel moves at least one byte, and no
    more than it has or is asked for. *)
Inductive recv_answer := RecvSome (n : Z) | RecvEof | RecvEintr | RecvEagain | RecvError.
Inductive send_answer := SendSome (n : Z) | SendZero | SendEintr | SendEagain | SendError.

Definition moved (n bound : Z) : Z := Z.max 1 (Z.min n bound).

(** ** The driver *)

Section driver.
Context `{Evp} {R : Type} `{Reactor R}.
Implicit Types c : conn R.

Definition release_reactor (c : conn R) : conn R :=
  let c :=
    if h_fd_registered (c_h c) then
      with_h (with_reactor c (r_remove_fd (c_reactor c) (h_fd (c_h c)))) (set_fd (c_h c) false 0)
    else c in
  if negb (h_deadline_timer (c_h c) =? CLOAK_TIMER_INVALID) then
    with_h (with_reactor c (r_cancel_timer (c_reactor c) (h_deadline_timer (c_h c))))
      (set_timer (c_h c) CLOAK_TIMER_INVALID)
  else c.

Definition fail (c : conn R) (err : Z) : conn R :=
  if negb (h_status (c_h c) =? CLOAK_CLIENT_HANDSHAKE_PENDING) then c
  else
    release_reactor
      (with_h c (set_verdict (c_h c) CLOAK_CLIENT_HS_STATE_FAILED CLOAK_CLIENT_HANDSHAKE_FAILED err)).

Definition complete (c : conn R) : conn R :=
  if negb (h_status (c_h c) =? CLOAK_CLIENT_HANDSHAKE_PENDING) then c
  else
    release_reactor
      (with_h c (set_verdict (c_h c) CLOAK_CLIENT_HS_STATE_DONE CLOAK_CLIENT_HANDSHAKE_DONE
                   CLOAK_CLIENT_HANDSHAKE_ERR_NONE)).

Definition finish (c : conn R) : conn R :=
  let h := c_h c in
  if (h_status h =? CLOAK_CLIENT_HANDSHAKE_PENDING) || h_notified h then c
  else
    let c := with_h c (set_notified h) in
    if h_on_done h then
      Conn (c_h c) (c_reactor c) (c_inbox c) (c_outbox c) (c_done c ++ [h_status h])
    else c.

Definition set_interest (c : conn R) (want : Z) : conn R :=
  let h := c_h c in
  if negb (h_fd_registered h) || (h_fd_interest h =? want) then c
  else
    let '(v, r) := r_mod_fd (c_reactor c) (h_fd h) want in
    let c := with_reactor c r in
    if negb (v =? 0) then fail c CLOAK_CLIENT_HANDSHAKE_ERR_IO
    else with_h c (set_fd (c_h c) (h_fd_registered h) want).

(** Return value and object. *)
Definition recover_session_key (h : cloak_client_handshake_t)
    : option (Z * cloak_client_handshake_t) :=
  let rd := h_reader h in
  if sh_len rd <? CLOAK_CLIENT_HANDSHAKE_SERVERHELLO_PREFIX then Some (-1, h)
  else
    let ciphertext := replicate 48 0 in
    part ← (rr_sh rd).[18 +: 20];
    ciphertext ← ciphertext.[0 <- part];
    part ← (rr_sh rd).[84 +: 28];
    ciphertext ← ciphertext.[20 <- part];
    nonce ← (rr_sh rd).[6 +: CLOAK_AEAD_NONCE_LEN];
    match cloak_aead_open CLOAK_AEAD_AES_256_GCM (h_shared_secret h) nonce [] ciphertext with
    | None => Some (-1, h)
    | Some key =>
        if negb (zlen key =? CLOAK_AEAD_KEY_LEN) then Some (-1, h)
        else
          session_key ← (h_session_key h).[0 <- key];
          Some (0, set_session_key h session_key)
    end.

Definition record_complete (c : conn R) : option (conn R) :=
  let rd := h_reader (c_h c) in
  let index := u64 (record_index rd + 1) in
  let next total body header :=
    ReplyReader index (rr_header rd) header body total (reply_bytes rd) (rr_sh rd) (sh_len rd) in
  let c := with_h c (set_reader (c_h c) (next (body_total rd) (body_len rd) (header_len rd))) in
  '(v, h) ← (if index =? 1 then recover_session_key (c_h c) else Some (0, c_h c));
  let c := with_h c h in
  if negb (v =? 0) then Some (fail c CLOAK_CLIENT_HANDSHAKE_ERR_AUTH)
  else if index =? CLOAK_CLIENT_HANDSHAKE_REPLY_RECORDS then Some (complete c)
  else
    Some (with_h c (set_state (set_reader (c_h c) (next 0 0 0))
                      CLOAK_CLIENT_HS_STATE_READ_RECORD_HEADER)).

Definition bytes_wanted (h : cloak_client_handshake_t) : Z :=
  let rd := h_reader h in
  if h_state h =? CLOAK_CLIENT_HS_STATE_READ_RECORD_HEADER then u64 (5 - header_len rd)
  else if h_state h =? CLOAK_CLIENT_HS_STATE_READ_RECORD_BODY then u64 (body_total rd - body_len rd)
  else 0.

(** The checks on a complete header, in order; [None] when one fails. *)
Definition header_acceptable (rd : reply_reader) (first : Z) : bool :=
  negb (CLOAK_CLIENT_HANDSHAKE_MAX_RECORD_BODY <? body_total rd) &&
  negb ((record_index rd =? 0) &&
        (negb (first =? 22) || (body_total rd <? CLOAK_CLIENT_HANDSHAKE_SERVERHELLO_PREFIX))) &&
  negb (CLOAK_CLIENT_HANDSHAKE_MAX_REPLY_BYTES <? u64 (reply_bytes rd + body_total rd)).

(** One round of the loop of [feed] in each state: the offset to go on from,
    or [None] where the code returns. *)
Definition feed_header (c : conn R) (data : bytes) (i : Z) : option (conn R * option Z) :=
  let h := c_h c in
  let rd := h_reader h in
  let n := min_size (u64 (5 - header_len rd)) (u64 (zlen data - i)) in
  chunk ← data.[i +: n];
  header ← (rr_header rd).[header_len rd <- chunk];
  let len := u64 (header_len rd + n) in
  let count := u64 (reply_bytes rd + n) in
  let rd := ReplyReader (record_index rd) header len (body_len rd) (body_total rd) count
              (rr_sh rd) (sh_len rd) in
  let i := i + n in
  if len <? 5 then Some (with_h c (set_reader h rd), Some i)
  else
    first ← header.[0]; hi ← header.[3]; lo ← header.[4];
    let total := Z.lor (Z.shiftl hi 8) lo in
    let read body := ReplyReader (record_index rd) header len body total count (rr_sh rd) (sh_len rd) in
    if negb (header_acceptable (read (body_len rd)) first) then
      Some (fail (with_h c (set_reader h (read (body_len rd)))) CLOAK_CLIENT_HANDSHAKE_ERR_PROTOCOL,
            None)
    else
      let c := with_h c (set_state (set_reader h (read 0)) CLOAK_CLIENT_HS_STATE_READ_RECORD_BODY) in
      if total =? 0 then c ← record_complete c; Some (c, Some i) else Some (c, Some i).

Definition feed_body (c : conn R) (data : bytes) (i : Z) : option (conn R * option Z) :=
  let h := c_h c in
  let rd := h_reader h in
  let n := min_size (u64 (body_total rd - body_len rd)) (u64 (zlen data - i)) in
  '(sh, len) ← (if (record_index rd =? 0) && (sh_len rd <? CLOAK_CLIENT_HANDSHAKE_SERVERHELLO_PREFIX)
                then
                  let copy := min_size n (u64 (CLOAK_CLIENT_HANDSHAKE_SERVERHELLO_PREFIX - sh_len rd)) in
                  chunk ← data.[i +: copy];
                  sh ← (rr_sh rd).[sh_len rd <- chunk];
                  Some (sh, u64 (sh_len rd + copy))
                else Some (rr_sh rd, sh_len rd));
  let rd := ReplyReader (record_index rd) (rr_header rd) (header_len rd) (u64 (body_len rd + n))
              (body_total rd) (u64 (reply_bytes rd + n)) sh len in
  let c := with_h c (set_reader h rd) in
  let i := i + n in
  if body_len rd =? body_total rd then c ← record_complete c; Some (c, Some i) else Some (c, Some i).

(** The loop; [None] also when [fuel] does not suffice. *)
Fixpoint feed_loop (fuel : nat) (c : conn R) (data : bytes) (i : Z) : option (conn R) :=
  match fuel with
  | O => None
  | S fuel =>
      if negb ((i <? zlen data) && (h_status (c_h c) =? CLOAK_CLIENT_HANDSHAKE_PENDING)) then Some c
      else
        '(c, next) ← (if h_state (c_h c) =? CLOAK_CLIENT_HS_STATE_READ_RECORD_HEADER then
                        feed_header c data i
                      else if h_state (c_h c) =? CLOAK_CLIENT_HS_STATE_READ_RECORD_BODY then
                        feed_body c data i
                      else Some (c, None));
        match next with Some i => feed_loop fuel c data i | None => Some c end
  end.

Definition feed (c : conn R) (data : bytes) : option (conn R) :=
  feed_loop (S (length data)) c data 0.

(** The loop around [recv], which answers by the list. *)
Fixpoint do_read (answers : list recv_answer) (c : conn R) : option (conn R) :=
  if negb (h_status (c_h c) =? CLOAK_CLIENT_HANDSHAKE_PENDING) then Some c
  else
    let want := bytes_wanted (c_h c) in
    if want =? 0 then Some c
    else
      let want := if 1024 <? want then 1024 else want in
      match answers with
      | [] | RecvEagain :: _ => Some c
      | RecvSome n :: answers =>
          match c_inbox c with
          | [] => Some c
          | inbox =>
              let n := moved n (Z.min want (zlen inbox)) in
              c ← feed (Conn (c_h c) (c_reactor c) (drop (Z.to_nat n) inbox) (c_outbox c) (c_done c))
                       (take (Z.to_nat n) inbox);
              do_read answers c
          end
      | RecvEof :: _ => Some (fail c CLOAK_CLIENT_HANDSHAKE_ERR_EOF)
      | RecvEintr :: answers => do_read answers c
      | RecvError :: _ => Some (fail c CLOAK_CLIENT_HANDSHAKE_ERR_IO)
      end.

(** The loop around [send]. *)
Fixpoint do_write (answers : list send_answer) (c : conn R) : option (conn R) :=
  let h := c_h c in
  if h_hello_sent h <? h_hello_len h then
    let remaining := u64 (h_hello_len h - h_hello_sent h) in
    match answers with
    | [] | SendEagain :: _ | SendZero :: _ => Some c
    | SendSome n :: answers =>
        let n := moved n remaining in
        chunk ← (h_hello h).[h_hello_sent h +: n];
        do_write answers
          (Conn (set_sent h (u64 (h_hello_sent h + n))) (c_reactor c) (c_inbox c)
             (c_outbox c ++ chunk) (c_done c))
    | SendEintr :: answers => do_write answers c
    | SendError :: _ => Some (fail c CLOAK_CLIENT_HANDSHAKE_ERR_IO)
    end
  else
    Some (set_interest (with_h c (set_state h CLOAK_CLIENT_HS_STATE_READ_RECORD_HEADER))
            CLOAK_REACTOR_READABLE).

Definition on_event (sends : list send_answer) (recvs : list recv_answer) (c : conn R)
    : option (conn R) :=
  if negb (h_status (c_h c) =? CLOAK_CLIENT_HANDSHAKE_PENDING) then Some c
  else
    c ← (if h_state (c_h c) =? CLOAK_CLIENT_HS_STATE_WRITE_HELLO then do_write sends c else Some c);
    c ← (if (h_status (c_h c) =? CLOAK_CLIENT_HANDSHAKE_PENDING) &&
            ((h_state (c_h c) =? CLOAK_CLIENT_HS_STATE_READ_RECORD_HEADER) ||
             (h_state (c_h c) =? CLOAK_CLIENT_HS_STATE_READ_RECORD_BODY))
         then do_read recvs c else Some c);
    Some (finish c).

Definition on_deadline (c : conn R) : conn R :=
  finish (fail (with_h c (set_timer (c_h c) CLOAK_TIMER_INVALID)) CLOAK_CLIENT_HANDSHAKE_ERR_TIMEOUT).

Definition cloak_client_handshake_start (c : conn R) : Z * conn R :=
  let h := c_h c in
  if negb (h_status h =? CLOAK_CLIENT_HANDSHAKE_PENDING) ||
     negb (h_state h =? CLOAK_CLIENT_HS_STATE_WRITE_HELLO) || h_fd_registered h then (-1, c)
  else
    let refuse c :=
      with_h c (set_notified (set_verdict (c_h c) CLOAK_CLIENT_HS_STATE_FAILED
                                CLOAK_CLIENT_HANDSHAKE_FAILED CLOAK_CLIENT_HANDSHAKE_ERR_IO)) in
    let '(v, r) := r_add_fd (c_reactor c) (h_fd h) CLOAK_REACTOR_WRITABLE in
    let c := with_reactor c r in
    if negb (v =? 0) then (-1, refuse c)
    else
      let c := with_h c (set_fd (c_h c) true CLOAK_REACTOR_WRITABLE) in
      let '(id, r) := r_add_timer (c_reactor c) (h_timeout_ms h) in
      let c := with_h (with_reactor c r) (set_timer (c_h c) id) in
      if id =? CLOAK_TIMER_INVALID then
        let c := with_reactor c (r_remove_fd (c_reactor c) (h_fd h)) in
        (-1, refuse (with_h c (set_fd (c_h c) false 0)))
      else (0, c).

Definition cloak_client_handshake_destroy (c : conn R) : conn R :=
  if negb (h_reactor (c_h c)) then c
  else
    let c := release_reactor c in
    let c := with_h c (set_notified (c_h c)) in
    if h_status (c_h c) =? CLOAK_CLIENT_HANDSHAKE_PENDING then
      with_h c (set_verdict (c_h c) CLOAK_CLIENT_HS_STATE_FAILED CLOAK_CLIENT_HANDSHAKE_FAILED
                  (h_error (c_h c)))
    else c.

End driver.

(** ** Accessors; [None] is NULL *)

Definition cloak_client_handshake_status (h : option cloak_client_handshake_t) : Z :=
  match h with None => CLOAK_CLIENT_HANDSHAKE_FAILED | Some h => h_status h end.

Definition cloak_client_handshake_error (h : option cloak_client_handshake_t) : Z :=
  match h with None => CLOAK_CLIENT_HANDSHAKE_ERR_CONFIG | Some h => h_error h end.

Definition cloak_client_handshake_session_key (h : option cloak_client_handshake_t) : option bytes :=
  match h with
  | None => None
  | Some h => if negb (h_status h =? CLOAK_CLIENT_HANDSHAKE_DONE) then None else Some (h_session_key h)
  end.

Definition cloak_client_handshake_server_name (h : option cloak_client_handshake_t)
    : option (option bytes) :=
  match h with
  | None => Some None
  | Some h => b ← (h_server_name h).[0]; Some (if b =? 0 then None else Some (h_server_name h))
  end.

(** ** Initialisation *)

(** [cloak_client_handshake_config_t]; [None] and [false] are NULL. *)
Record cloak_client_handshake_config_t := HandshakeConfig {
  cfg_reactor : bool;
  cfg_fd : Z;
  cfg_browser : Z;
  cfg_server_name : option bytes;
  cfg_server_pub : bytes;
  cfg_uid : bytes;
  cfg_proxy_method : option bytes;
  cfg_encryption_method : Z;
  cfg_session_id : Z;
  cfg_unordered : Z;
  cfg_now_unix : Z;
  cfg_timeout_ms : Z;
  cfg_on_done : bool
}.

(** The object before anything is known: dead, and not able to report. *)
Definition handshake_blank : cloak_client_handshake_t :=
  Handshake false (-1) false 0 CLOAK_CLIENT_HS_STATE_FAILED CLOAK_CLIENT_HANDSHAKE_FAILED
    CLOAK_CLIENT_HANDSHAKE_ERR_CONFIG (replicate (Z.to_nat (5 + CLOAK_CLIENTHELLO_MAX_BYTES)) 0) 0 0
    (replicate 32 0) zero_reader (replicate 32 0) (replicate 254 0) 0 CLOAK_TIMER_INVALID true false.

Definition set_names (h : cloak_client_handshake_t) (secret name : bytes) (error : Z) :=
  Handshake (h_reactor h) (h_fd h) (h_fd_registered h) (h_fd_interest h) (h_state h) (h_status h)
    error (h_hello h) (h_hello_len h) (h_hello_sent h) secret (h_reader h)
    (h_session_key h) name (h_timeout_ms h) (h_deadline_timer h) (h_notified h) (h_on_done h).

Section init.
Context `{Evp} `{EvpX25519} `{EvpP256}.

(** The name to present: [Some None] is the return value -1. *)
Definition choose_server_name (server_name : bytes) (buf : bytes) (r : rand)
    : option (option (bytes * rand)) :=
  is_random ← strcaseeq server_name (c_block (c_string "random") []);
  if is_random : bool then
    '(v, name, r) ← cloak_client_random_server_name (Some buf) r;
    match name with
    | Some name => if negb (v =? 0) then Some None else Some (Some (name, r))
    | None => Some None
    end
  else
    n ← strlen server_name;
    if (n =? 0) || (CLOAK_CLIENT_SERVER_NAME_MAX <? n) then Some None
    else
      src ← server_name.[0 +: n + 1];
      name ← buf.[0 <- src];
      Some (Some (name, r)).

(** The record around the ClientHello: [hello] and [hello_len]. *)
Definition frame_hello (hello : bytes) (hs_len : Z) : option bytes :=
  hello ← mem_set hello 0 22;
  hello ← mem_set hello 1 3;
  hello ← mem_set hello 2 1;
  store_be16 hello 3 (u16 hs_len).

(** [cloak_client_handshake_init]: return value, object and tape.  [seed] is
    what the key generator draws.  After a failure of the build the content of
    the [hello] array, which nothing reads, is left out of the model. *)
Definition cloak_client_handshake_init (fuel : nat) (cfg : option cloak_client_handshake_config_t)
    (seed : bytes) (r : rand) : option (Z * cloak_client_handshake_t * rand) :=
  let h := handshake_blank in
  match cfg with
  | None => Some (-1, h, r)
  | Some cfg =>
      match cfg_server_name cfg, cfg_proxy_method cfg with
      | Some server_name, Some proxy_method =>
          if negb (cfg_reactor cfg) || (cfg_fd cfg <? 0) || negb (cfg_on_done cfg)
          then Some (-1, h, r)
          else
            match template_for (cfg_browser cfg) with
            | None => Some (-1, h, r)
            | Some tmpl =>
                method_len ← strlen proxy_method;
                if CLOAK_PROXY_METHOD_LEN <? method_len then Some (-1, h, r)
                else
                  chosen ← choose_server_name server_name (h_server_name h) r;
                  match chosen with
                  | None => Some (-1, h, r)
                  | Some (name, r) =>
                      '(v, payload, secret) ←
                        cloak_client_auth_build (cfg_uid cfg) (Some proxy_method)
                          (cfg_encryption_method cfg) (cfg_session_id cfg) (cfg_unordered cfg)
                          (cfg_now_unix cfg) (cfg_server_pub cfg) seed;
                      let dead := set_names h secret name CLOAK_CLIENT_HANDSHAKE_ERR_BUILD in
                      if negb (v =? 0) then Some (-1, dead, r)
                      else
                        session_id ← (ap_ciphertext payload).[0 +: 32];
                        share ← (ap_ciphertext payload).[32 +: 32];
                        room ← (h_hello h).[5 +: zlen (h_hello h) - 5];
                        built ← cloak_clienthello_build fuel tmpl (ap_random payload) session_id
                                  share name room r;
                        match built with
                        | None => Some (-1, dead, r)
                        | Some (hs_len, msg, r) =>
                            if hs_len <=? 0 then Some (-1, dead, r)
                            else
                              hello ← (h_hello h).[5 <- msg];
                              hello ← frame_hello hello hs_len;
                              Some (0,
                                Handshake true (cfg_fd cfg) false 0
                                  CLOAK_CLIENT_HS_STATE_WRITE_HELLO CLOAK_CLIENT_HANDSHAKE_PENDING
                                  CLOAK_CLIENT_HANDSHAKE_ERR_NONE hello (5 + hs_len) 0 secret
                                  zero_reader (h_session_key h) name
                                  (if negb (cfg_timeout_ms cfg =? 0) then cfg_timeout_ms cfg
                                   else CLOAK_CLIENT_HANDSHAKE_DEFAULT_TIMEOUT_MS)
                                  CLOAK_TIMER_INVALID false (cfg_on_done cfg), r)
                        end
                  end
            end
      | _, _ => Some (-1, h, r)
      end
  end.

End init.
