(* ===== verification/ClientReply.v ===== *)
(** * What the client makes of the reply

    [reply_outcome] is the verdict on the bytes a server has sent: three TLS
    records, the first of them a ServerHello that carries the sealed session
    key.  Reading in pieces, as [ClientTransport.feed] does, reaches the
    verdict of the whole. *)
From S2P Require Import Prelude Fallible Buffer Aead ReactorApi ClientTransport.

Inductive outcome := More | Refused (err : Z) | Finished (key rest : bytes).

Section contract.
Context `{Evp} (secret : bytes).

(** The session key sealed into a ServerHello. *)
Definition sealed_key (hello : bytes) : option bytes :=
  cloak_aead_open CLOAK_AEAD_AES_256_GCM secret (take 12 (drop 6 hello)) []
    (take 20 (drop 18 hello) ++ take 28 (drop 84 hello)).

Definition header_refused (first : bool) (type total : Z) : bool :=
  (CLOAK_CLIENT_HANDSHAKE_MAX_RECORD_BODY <? total) ||
  (first && (negb (type =? 22) || (total <? CLOAK_CLIENT_HANDSHAKE_SERVERHELLO_PREFIX))).

Definition is_first (key : option bytes) : bool := match key with None => true | _ => false end.

(** The verdict on [s] when [records] records are to come; [key] is known once
    the first one is complete. *)
Fixpoint reply_outcome (records : nat) (key : option bytes) (s : bytes) : outcome :=
  match records with
  | O => Finished (default [] key) s
  | S records =>
      match s with
      | type :: _ :: _ :: hi :: lo :: s =>
          let total := hi * 256 + lo in
          if header_refused (is_first key) type total then
            Refused CLOAK_CLIENT_HANDSHAKE_ERR_PROTOCOL
          else if zlen s <? total then More
          else
            match (match key with Some key => Some key
                   | None => sealed_key (take (Z.to_nat total) s) end) with
            | Some key => reply_outcome records (Some key) (drop (Z.to_nat total) s)
            | None => Refused CLOAK_CLIENT_HANDSHAKE_ERR_AUTH
            end
      | _ => More
      end
  end.

(** A verdict other than [More] is not changed by what follows. *)
Definition extend (o : outcome) (x : bytes) : outcome :=
  match o with Finished key rest => Finished key (rest ++ x) | _ => o end.

Lemma outcome_app n key s x :
  all_bytes s -> reply_outcome n key s <> More ->
  reply_outcome n key (s ++ x) = extend (reply_outcome n key s) x.
Proof.
  revert key s. induction n as [|n IH]; intros key s Hb Hm; [done|].
  destruct s as [|t [|a [|b [|hi [|lo s]]]]]; try (by destruct Hm).
  rewrite !all_bytes_cons in Hb. destruct Hb as (_&_&_&Hhi&Hlo&Hb). unfold is_byte in *.
  cbn [reply_outcome app] in *. case_if; [done|]. rewrite zlen_app. zlen_pos.
  destruct (Z.ltb_spec (zlen s) (hi * 256 + lo)); [by destruct Hm|].
  decide_cmp.
  rewrite take_app_le, drop_app_le by (unfold zlen in *; lia).
  destruct (match key with Some k => Some k | None => _ end); [|done].
  apply IH; [by apply Forall_drop|done].
Qed.

Lemma outcome_header n key cur :
  zlen cur < 5 -> reply_outcome (S n) key cur = More.
Proof.
  intros Hc. destruct cur as [|t [|a [|b [|hi [|lo cur]]]]]; try done.
  rewrite !zlen_cons in Hc. zlen_pos. lia.
Qed.

End contract.

(** ** The effects of an end *)

Section ends.
Context `{Evp} {R : Type} `{Reactor R}.
Implicit Types (c : conn R) (h : cloak_client_handshake_t).

(** The object without what reading changes. *)
Definition outside (h : cloak_client_handshake_t) : cloak_client_handshake_t :=
  set_session_key (set_reader (set_state h 0) zero_reader) [].

(** Reading changes nothing else. *)
Definition only_read (c c' : conn R) : Prop :=
  with_h c (outside (c_h c)) = with_h c' (outside (c_h c')).

Lemma only_read_trans c1 c2 c3 : only_read c1 c2 -> only_read c2 c3 -> only_read c1 c3.
Proof. unfold only_read. congruence. Qed.

Lemma only_read_status c c' : only_read c c' -> h_status (c_h c') = h_status (c_h c).
Proof. intros E. by apply (f_equal (fun c => h_status (c_h c))) in E. Qed.

Lemma only_read_secret c c' : only_read c c' -> h_shared_secret (c_h c') = h_shared_secret (c_h c).
Proof. intros E. by apply (f_equal (fun c => h_shared_secret (c_h c))) in E. Qed.

(** The object after the release. *)
Definition released (h : cloak_client_handshake_t) : cloak_client_handshake_t :=
  let h := if h_fd_registered h then set_fd h false 0 else h in
  if negb (h_deadline_timer h =? CLOAK_TIMER_INVALID) then set_timer h CLOAK_TIMER_INVALID else h.

Lemma release_h c : c_h (release_reactor c) = released (c_h c).
Proof.
  destruct c as [h r i o d]. destruct h. unfold release_reactor, released. cbn.
  repeat (case_if; cbn); done.
Qed.

Lemma released_status h : h_status (released h) = h_status h.
Proof.
  destruct h. unfold released. cbn. repeat (case_if; cbn); done.
Qed.

Lemma fail_status c e :
  h_status (c_h c) = CLOAK_CLIENT_HANDSHAKE_PENDING ->
  h_status (c_h (fail c e)) = CLOAK_CLIENT_HANDSHAKE_FAILED.
Proof.
  intros Hs. unfold fail. rewrite Hs, Z.eqb_refl. cbn [negb]. by rewrite release_h, released_status.
Qed.

Lemma complete_status c :
  h_status (c_h c) = CLOAK_CLIENT_HANDSHAKE_PENDING ->
  h_status (c_h (complete c)) = CLOAK_CLIENT_HANDSHAKE_DONE.
Proof.
  intros Hs. unfold complete. rewrite Hs, Z.eqb_refl. cbn [negb]. by rewrite release_h, released_status.
Qed.

End ends.

(** ** The reader's invariant *)

Section reading.
Context `{EvpLaws} {R : Type} `{!Reactor R} (secret : bytes).
Implicit Types (c : conn R) (h : cloak_client_handshake_t).

Abbreviation outcome_of := (reply_outcome secret 3 None).

(** A header is being read: [cur] is what there is of it. *)
Record in_header (h : cloak_client_handshake_t) (key : option bytes) (cur : bytes) : Prop := {
  ih_state : h_state h = CLOAK_CLIENT_HS_STATE_READ_RECORD_HEADER;
  ih_len : zlen cur < 5 /\ header_len (h_reader h) = zlen cur;
  ih_header : exists junk, rr_header (h_reader h) = cur ++ junk /\ zlen cur + zlen junk = 5;
  ih_sh : key = None -> sh_len (h_reader h) = 0
}.

(** A body is being read: [cur] is the header and [body], what there is of it. *)
Record in_body (h : cloak_client_handshake_t) (key : option bytes) (cur : bytes)
    (head body : bytes) (total : Z) : Prop := {
  ib_state : h_state h = CLOAK_CLIENT_HS_STATE_READ_RECORD_BODY;
  ib_cur : cur = head ++ body;
  ib_header : rr_header (h_reader h) = head;
  ib_head : exists type a b hi lo, head = [type; a; b; hi; lo] /\ total = hi * 256 + lo /\
    header_refused (is_first key) type total = false;
  ib_len : header_len (h_reader h) = 5 /\ body_len (h_reader h) = zlen body /\
    body_total (h_reader h) = total;
  ib_sh : key = None -> sh_len (h_reader h) = zlen (take 112 body) /\
    exists junk, rr_sh (h_reader h) = take 112 body ++ junk
}.

(** [prev], the records read so far, left [left] records to come. *)
Record records_read (h : cloak_client_handshake_t) (prev cur : bytes) (left : nat)
    (key : option bytes) : Prop := {
  rr_resume : forall s, outcome_of (prev ++ s) = reply_outcome secret left key s;
  rr_left : (1 <= left <= 3)%nat /\ record_index (h_reader h) = 3 - Z.of_nat left;
  rr_first : is_first key = (record_index (h_reader h) =? 0);
  rr_prev : zlen prev <= (3 - Z.of_nat left) * 16645;
  rr_status : h_status h = CLOAK_CLIENT_HANDSHAKE_PENDING;
  rr_secret : h_shared_secret h = secret;
  rr_count : reply_bytes (h_reader h) = zlen (prev ++ cur);
  rr_key : zlen (h_session_key h) = 32 /\ forall k, key = Some k -> h_session_key h = k;
  rr_sh_len : zlen (rr_sh (h_reader h)) = 112
}.

(** The object has read exactly [p], and the verdict is open. *)
Definition reading (h : cloak_client_handshake_t) (p : bytes) : Prop :=
  exists prev cur left key, p = prev ++ cur /\ records_read h prev cur left key /\
    (in_header h key cur \/
     exists head body total, in_body h key cur head body total /\ zlen body < total).

(** Reading brought the connection from [c] to [c'], and [p] is all it has read. *)
Definition lands (c : conn R) (p : bytes) (c' : conn R) : Prop :=
  match outcome_of p with
  | More => only_read c c' /\ reading (c_h c') p
  | Refused e => exists c1, only_read c c1 /\ c' = fail c1 e
  | Finished key _ => exists c1, only_read c c1 /\ c' = complete c1 /\ h_session_key (c_h c1) = key
  end.

Lemma reading_more h p : reading h p -> outcome_of p = More.
Proof.
  intros (prev&cur&left&key&->&Hr&Hw). rewrite (rr_resume _ _ _ _ _ Hr).
  destruct (rr_left _ _ _ _ _ Hr) as [Hl _]. destruct left as [|left]; [lia|].
  destruct Hw as [Hh|(head&body&total&Hb&Hlt)].
  - by apply outcome_header, (ih_len _ _ _ Hh).
  - destruct (ib_head _ _ _ _ _ _ Hb) as (t&a&b&hi&lo&Hhd&->&Href).
    rewrite (ib_cur _ _ _ _ _ _ Hb), Hhd. cbn [app reply_outcome]. rewrite Href. by decide_cmp.
Qed.

Lemma reading_start h :
  h_state h = CLOAK_CLIENT_HS_STATE_READ_RECORD_HEADER ->
  h_status h = CLOAK_CLIENT_HANDSHAKE_PENDING -> h_shared_secret h = secret ->
  h_reader h = zero_reader -> zlen (h_session_key h) = 32 -> reading h [].
Proof.
  intros Hst Hs Hsec Hr Hk. exists [], [], 3%nat, None. split; [done|]. split.
  - split; rewrite ?Hr; try done. split; [lia|done].
  - left. split; rewrite ?Hr; try done. by exists (replicate 5 0).
Qed.

(** ** The end of a record *)

Lemma slice_of_prefix (l : bytes) off n k :
  (off + n <= k)%nat -> take n (drop off (take k l)) = take n (drop off l).
Proof. intros. rewrite skipn_firstn_comm, take_take. f_equal. lia. Qed.

Lemma recover_spec h body :
  h_shared_secret h = secret -> zlen (h_session_key h) = 32 -> 112 <= zlen body ->
  sh_len (h_reader h) = 112 -> rr_sh (h_reader h) = take 112 body ->
  recover_session_key h =
    Some match sealed_key secret body with Some k => (0, set_session_key h k) | None => (-1, h) end.
Proof.
  intros Hsec Hk Hb Hlen Hsh. unfold recover_session_key. rewrite Hlen, Hsh. decide_cmp.
  assert (Ht : zlen (take 112 body) = 112) by (unfold zlen in *; rewrite length_take; lia).
  rewrite !mem_read_Some by (rewrite ?Ht; done). cbn [mbind option_bind]. znat.
  change (Z.to_nat CLOAK_AEAD_NONCE_LEN) with 12%nat. rewrite !slice_of_prefix by lia.
  assert (Hsl : forall off n, (off + n <= 112)%nat -> length (take n (drop off body)) = n).
  { intros. rewrite length_take, length_drop. unfold zlen in Hb. lia. }
  change (replicate 48 0) with ([] ++ replicate 20 0 ++ replicate 28 0).
  rewrite mem_write_app by (done || (unfold zlen; by rewrite Hsl by lia)). cbn [app mbind option_bind].
  rewrite <- (app_nil_r (replicate 28 0)).
  rewrite mem_write_app by (unfold zlen; by rewrite Hsl by lia). cbn [mbind option_bind].
  rewrite app_nil_r, Hsec. fold (sealed_key secret body).
  destruct (sealed_key secret body) as [k|] eqn:Hs; [|done].
  assert (Hkl : zlen k = 32).
  { apply aead_open_length in Hs. rewrite zlen_app in Hs. unfold zlen in *.
    rewrite !Hsl in Hs by lia. done. }
  rewrite Hkl. cbn [Z.eqb negb Pos.eqb CLOAK_AEAD_KEY_LEN].
  rewrite (mem_write_Some _ 0) by lia. cbn [Z.to_nat take app Nat.add mbind option_bind].
  rewrite drop_ge, app_nil_r by (unfold zlen in *; lia). done.
Qed.

(** A complete body, as the capture buffer holds it. *)
Lemma captured h key cur head body total :
  in_body h key cur head body total -> zlen (rr_sh (h_reader h)) = 112 -> key = None ->
  zlen body = total ->
  112 <= zlen body /\ sh_len (h_reader h) = 112 /\ rr_sh (h_reader h) = take 112 body.
Proof.
  intros Hb Hl -> Ht. destruct (ib_head _ _ _ _ _ _ Hb) as (t&a&b&hi&lo&_&_&Href).
  unfold header_refused in Href. cbn [is_first andb] in Href. bool_hyps.
  unfold CLOAK_CLIENT_HANDSHAKE_SERVERHELLO_PREFIX in *.
  destruct (ib_sh _ _ _ _ _ _ Hb eq_refl) as (Hn&junk&Hj).
  assert (Hz : zlen (take 112 body) = 112) by (unfold zlen in *; rewrite length_take; lia).
  rewrite Hj, zlen_app in Hl. rewrite Hn, Hz, Hj, (zlen_zero junk), app_nil_r by lia.
  split_and!; [lia|done..].
Qed.

(** The outcome at the end of a record. *)
Definition key_after (key : option bytes) (body : bytes) : option bytes :=
  match key with Some key => Some key | None => sealed_key secret body end.

Lemma outcome_record left key head body total s :
  (exists type a b hi lo, head = [type; a; b; hi; lo] /\ total = hi * 256 + lo /\
     header_refused (is_first key) type total = false) ->
  zlen body = total ->
  reply_outcome secret (S left) key ((head ++ body) ++ s) =
    match key_after key body with
    | Some key => reply_outcome secret left (Some key) s
    | None => Refused CLOAK_CLIENT_HANDSHAKE_ERR_AUTH
    end.
Proof.
  intros (t&a&b&hi&lo&->&->&Href) Hb. cbn [app reply_outcome]. rewrite Href, zlen_app. zlen_pos.
  decide_cmp. by rewrite <- Hb, zlen_length, take_app_length, drop_app_length.
Qed.

Lemma head_length (head : bytes) (P : Z -> Z -> Z -> Prop) :
  (exists type a b hi lo, head = [type; a; b; hi; lo] /\ P type hi lo) -> zlen head = 5.
Proof. by intros (t&a&b&hi&lo&->&_). Qed.

Lemma total_bound h key cur head body total :
  in_body h key cur head body total -> total <= CLOAK_CLIENT_HANDSHAKE_MAX_RECORD_BODY.
Proof.
  intros Hb. destruct (ib_head _ _ _ _ _ _ Hb) as (t&a&b&hi&lo&_&_&Href).
  unfold header_refused in Href. by bool_hyps.
Qed.

(** What [record_complete] does, by the number of records left and the key. *)
Lemma record_complete_spec c prev cur left key head body total :
  records_read (c_h c) prev cur left key -> in_body (c_h c) key cur head body total ->
  zlen body = total ->
  exists c', record_complete c = Some c' /\ lands c (prev ++ cur) c'.
Proof.
  intros Hr Hb Hlen. pose proof Hr as [Hres [Hleft Hidx] Hfirst Hprev Hst Hsec Hcnt [Hkl Hkey] Hshl].
  pose proof Hb as [Hstate Hcur Hhead Hhd (Hhl&Hbl&Hbt) Hsh].
  destruct left as [|left]; [lia|]. unfold record_complete. rewrite Hidx, u64_small by lia.
  set (rd := h_reader (c_h c)) in *.
  set (h1 := set_reader (c_h c) (ReplyReader (3 - Z.of_nat (S left) + 1) (rr_header rd)
    (header_len rd) (body_len rd) (body_total rd) (reply_bytes rd) (rr_sh rd) (sh_len rd))).
  assert (Hend : outcome_of (prev ++ cur) =
    match key_after key body with
    | Some key => reply_outcome secret left (Some key) []
    | None => Refused CLOAK_CLIENT_HANDSHAKE_ERR_AUTH end).
  { rewrite Hres, Hcur, <- (app_nil_r (head ++ body)). by apply (outcome_record _ _ _ _ total). }
  assert (Hrec : (if 3 - Z.of_nat (S left) + 1 =? 1 then recover_session_key h1 else Some (0, h1)) =
    Some match key_after key body with
         | Some k => (0, set_session_key h1 k) | None => (-1, h1) end).
  { destruct key as [k|]; cbn [key_after is_first] in *.
    - rewrite Hidx in Hfirst. symmetry in Hfirst. bool_hyps. decide_cmp. do 2 f_equal.
      rewrite <- (Hkey k eq_refl). by destruct c as [h]; destruct h.
    - rewrite Hidx in Hfirst. symmetry in Hfirst. bool_hyps. decide_cmp.
      destruct (captured _ _ _ _ _ _ Hb Hshl eq_refl Hlen) as (H112&Hn&Hcap).
      apply recover_spec; done. }
  change (c_h (with_h c h1)) with h1. rewrite Hrec. unfold lands. rewrite Hend. clear Hrec Hend.
  destruct (key_after key body) as [k|] eqn:Hk; cbn [mbind option_bind].
  2: { eexists. split; [reflexivity|]. by exists (with_h c h1). }
  change (negb (0 =? 0)) with false. cbn iota.
  unfold CLOAK_CLIENT_HANDSHAKE_REPLY_RECORDS. destruct left as [|left].
  { decide_cmp. eexists. split; [reflexivity|]. cbn [reply_outcome default].
    by exists (with_h (with_h c h1) (set_session_key h1 k)). }
  decide_cmp. eexists. split; [reflexivity|]. rewrite outcome_header by done. split; [done|].
  exists (prev ++ cur), [], (S left), (Some k). split; [by rewrite app_nil_r|].
  assert (Hk32 : zlen k = 32).
  { destruct key as [k'|]; cbn [key_after] in Hk.
    - injection Hk as ->. by rewrite <- (Hkey k eq_refl).
    - destruct (captured _ _ _ _ _ _ Hb Hshl eq_refl Hlen) as (H112&_).
      apply aead_open_length in Hk. rewrite zlen_app in Hk. unfold zlen in *.
      rewrite !length_take, !length_drop in Hk.
      change (cloak_aead_overhead CLOAK_AEAD_AES_256_GCM) with 16 in Hk. lia. }
  pose proof (head_length _ _ Hhd) as Hhead5.
  split.
  - split; cbn -[reply_outcome]; try done.
    + intros s. rewrite <- app_assoc, Hres, Hcur, (outcome_record _ _ _ _ total) by done.
      by rewrite Hk.
    + split; lia.
    + symmetry. apply Z.eqb_neq. lia.
    + rewrite Hcur, !zlen_app, Hhead5. pose proof (total_bound _ _ _ _ _ _ Hb) as Ht.
      unfold CLOAK_CLIENT_HANDSHAKE_MAX_RECORD_BODY in Ht. lia.
    + by rewrite app_nil_r.
    + split; [done|]. by intros ? [= ->].
  - left. split; cbn; try done. rewrite Hhead. exists head. by rewrite Hhead5.
Qed.

(** ** One round of the loop *)

Lemma min_size_min a b : min_size a b = Z.min a b.
Proof. unfold min_size. case_if; lia. Qed.

(** Filling the capture buffer. *)
Lemma capture_step (body junk chunk : bytes) :
  zlen (take 112 body ++ junk) = 112 -> zlen (take 112 body) < 112 ->
  let copy := Z.min (zlen chunk) (112 - zlen (take 112 body)) in
  zlen (take 112 body) + copy = zlen (take 112 (body ++ chunk)) /\
  exists junk',
    (take 112 body ++ junk).[zlen (take 112 body) <- take (Z.to_nat copy) chunk] =
      Some (take 112 (body ++ chunk) ++ junk').
Proof.
  intros Hl Hlt. assert (Hb : (length body < 112)%nat).
  { unfold zlen in Hlt. rewrite length_take in Hlt. lia. }
  rewrite !(take_ge body) in * by lia. rewrite zlen_app in Hl. cbv zeta.
  rewrite firstn_app, (take_ge body) by lia.
  set (m := (112 - length body)%nat). zlen_pos.
  assert (Hq : take (Z.to_nat (Z.min (zlen chunk) (112 - zlen body))) chunk = take m chunk).
  { destruct (le_lt_dec (length chunk) m).
    - rewrite !take_ge; [done|lia|unfold zlen in *; lia].
    - f_equal. unfold zlen, m in *. lia. }
  assert (Hql : zlen (take m chunk) = Z.min (zlen chunk) (112 - zlen body)).
  { unfold zlen, m in *. rewrite length_take. lia. }
  rewrite Hq, zlen_app, Hql. split; [done|].
  destruct (zlen_split junk (zlen (take m chunk))) as (j1&j2&->&Hj&_); [lia|].
  exists j2. by rewrite mem_write_app, <- app_assoc.
Qed.

(** The capture of a chunk that arrives at offset [i]. *)
Lemma capture_spec h key cur head body total data pre chunk rest i :
  data = pre ++ chunk ++ rest -> in_body h key cur head body total -> is_first key = (record_index (h_reader h) =? 0) ->
  zlen (rr_sh (h_reader h)) = 112 -> i = zlen pre -> zlen chunk < 18446744073709551616 ->
  exists sh len,
    (if (record_index (h_reader h) =? 0) &&
        (sh_len (h_reader h) <? CLOAK_CLIENT_HANDSHAKE_SERVERHELLO_PREFIX)
     then
       let copy := min_size (zlen chunk)
         (u64 (CLOAK_CLIENT_HANDSHAKE_SERVERHELLO_PREFIX - sh_len (h_reader h))) in
       part ← data.[i +: copy];
       sh ← (rr_sh (h_reader h)).[sh_len (h_reader h) <- part];
       Some (sh, u64 (sh_len (h_reader h) + copy))
     else Some (rr_sh (h_reader h), sh_len (h_reader h))) = Some (sh, len) /\
    zlen sh = 112 /\
    (key = None -> len = zlen (take 112 (body ++ chunk)) /\
                   exists junk, sh = take 112 (body ++ chunk) ++ junk).
Proof.
  intros -> Hb Hfirst Hl -> Hsmall. rewrite <- Hfirst.
  unfold CLOAK_CLIENT_HANDSHAKE_SERVERHELLO_PREFIX. destruct key as [k|]; cbn [is_first andb].
  { do 2 eexists. split; [done|]. by split. }
  destruct (ib_sh _ _ _ _ _ _ Hb eq_refl) as (Hn&junk&Hj). rewrite Hj in *. rewrite Hn. zlen_pos.
  destruct (Z.ltb_spec (zlen (take 112 body)) 112) as [Hlt|Hge].
  - destruct (capture_step body junk chunk Hl Hlt) as (Hlen&junk'&Hw).
    rewrite min_size_min, (u64_small (112 - _)) by lia. zlen_pos.
    set (copy := Z.min _ _) in *.
    assert (Hrd : (pre ++ chunk ++ rest).[zlen pre +: copy] = Some (take (Z.to_nat copy) chunk)).
    { rewrite <- (take_drop (Z.to_nat copy) chunk) at 1. rewrite <- app_assoc.
      apply mem_read_app; [done|]. rewrite zlen_take; lia. }
    rewrite Hrd. cbn [mbind option_bind]. rewrite Hw. cbn [mbind option_bind].
    rewrite u64_small, Hlen by lia. do 2 eexists. split; [done|]. split; [|by eauto].
    apply mem_write_inv in Hw as (_&_&Hz&_). by rewrite Hz.
  - exists (take 112 body ++ junk), (zlen (take 112 body)). split; [done|]. split; [done|]. intros _.
    assert (Hfull : take 112 (body ++ chunk) = take 112 body).
    { apply take_app_le. unfold zlen in Hge. rewrite length_take in Hge. lia. }
    rewrite Hfull. eauto.
Qed.

(** Where a round leaves the loop: a non-empty [chunk] has been read. *)
Definition advances (c : conn R) (p data : bytes) (i : Z) (res : option (conn R * option Z)) : Prop :=
  exists c' next chunk,
    res = Some (c', next) /\ 0 < zlen chunk /\ chunk `prefix_of` drop (Z.to_nat i) data /\
    lands c (p ++ chunk) c' /\
    (next = Some (i + zlen chunk) \/
     next = None /\ h_status (c_h c') <> CLOAK_CLIENT_HANDSHAKE_PENDING).

Lemma lands_trans c c1 p c' : only_read c c1 -> lands c1 p c' -> lands c p c'.
Proof.
  unfold lands. intros Ho. destruct (outcome_of p).
  - intros [? ?]. split; [|done]. by eapply only_read_trans.
  - intros (c2&?&?). exists c2. split; [|done]. by eapply only_read_trans.
  - intros (c2&?&?). exists c2. split; [|done]. by eapply only_read_trans.
Qed.

(** The next [n] bytes of the data. *)
Lemma next_chunk (data : bytes) i n :
  0 <= i -> 0 <= n -> i + n <= zlen data ->
  exists pre chunk rest, data = pre ++ chunk ++ rest /\ zlen pre = i /\ zlen chunk = n /\
    drop (Z.to_nat i) data = chunk ++ rest.
Proof.
  intros. destruct (zlen_split data i) as (pre&q&->&<-&Hq); [lia|].
  destruct (zlen_split q n) as (chunk&rest&->&<-&_); [lia|].
  exists pre, chunk, rest. by rewrite zlen_length, drop_app_length.
Qed.

Lemma feed_body_spec c p prev cur left key head body total data i :
  records_read (c_h c) prev cur left key -> p = prev ++ cur ->
  in_body (c_h c) key cur head body total -> zlen body < total ->
  0 <= i < zlen data -> zlen data < 9223372036854775808 ->
  advances c p data i (feed_body c data i).
Proof.
  intros Hr -> Hb Hlt Hi Hd. pose proof Hr as [Hres [Hleft Hidx] Hfirst Hprev Hst Hsec Hcnt [Hkl Hkey] Hshl].
  pose proof Hb as [Hstate Hcur Hhead Hhd (Hhl&Hbl&Hbt) Hsh].
  pose proof (total_bound _ _ _ _ _ _ Hb) as Htot. pose proof (head_length _ _ Hhd) as Hhead5.
  unfold CLOAK_CLIENT_HANDSHAKE_MAX_RECORD_BODY in Htot. zlen_pos.
  destruct (next_chunk data i (Z.min (total - zlen body) (zlen data - i)))
    as (pre&chunk&rest&Hdata&Hpre&Hchunk&Hdrop); [lia..|].
  unfold feed_body. rewrite Hbl, Hbt, (u64_small (total - _)), (u64_small (zlen data - _)) by lia. rewrite min_size_min, <- Hchunk.
  destruct (capture_spec _ _ _ _ _ _ data pre chunk rest i Hdata Hb Hfirst Hshl (eq_sym Hpre)) as (sh&len&Hc&Hsl&Hcap);
    [lia|].
  cbv zeta in Hc. rewrite Hc. cbn [mbind option_bind body_len body_total].
  assert (Hcount : zlen (prev ++ cur) <= 3 * 16645).
  { rewrite Hcur, !zlen_app, Hhead5. lia. }
  rewrite Hcnt, !u64_small by lia.
  set (rd := ReplyReader _ _ _ _ _ _ _ _). set (c1 := with_h c (set_reader (c_h c) rd)).
  assert (Hr1 : records_read (c_h c1) prev (cur ++ chunk) left key).
  { split; try done. cbn. rewrite !zlen_app. lia. }
  assert (Hb1 : in_body (c_h c1) key (cur ++ chunk) head (body ++ chunk) total).
  { split; try done. - by rewrite Hcur, app_assoc. - cbn. by rewrite zlen_app. }
  assert (Hfin : forall c' P, P -> lands c1 (prev ++ cur ++ chunk) c' -> 0 < zlen chunk /\
    chunk `prefix_of` drop (Z.to_nat i) data /\ lands c ((prev ++ cur) ++ chunk) c' /\ P).
  { intros c' P HP Hl. split_and!; [lia| |by rewrite <- app_assoc; eapply lands_trans; [|exact Hl]|done].
    rewrite Hdrop. by exists rest. }
  destruct (Z.eqb_spec (zlen body + zlen chunk) total) as [Heq|Hne].
  - destruct (record_complete_spec c1 prev (cur ++ chunk) left key head (body ++ chunk) total)
      as (c'&->&Hl); [done|done|by rewrite zlen_app|].
    do 3 eexists. split; [reflexivity|]. apply Hfin; [by left|done].
  - do 3 eexists. split; [reflexivity|]. apply Hfin; [by left|].
    unfold lands.
    assert (Hread : reading (c_h c1) (prev ++ cur ++ chunk)).
    { exists prev, (cur ++ chunk), left, key. split; [done|]. split; [done|]. right.
      exists head, (body ++ chunk), total. split; [done|]. rewrite zlen_app. lia. }
    by rewrite (reading_more _ _ Hread).
Qed.

Lemma five_bytes (l : bytes) : zlen l = 5 -> exists t a b hi lo, l = [t; a; b; hi; lo].
Proof.
  unfold zlen. intros Hl. destruct l as [|t [|a [|b [|hi [|lo [|x l]]]]]]; cbn in Hl; try lia. by eauto 6.
Qed.

(** The check of the total, the last one, can not fail. *)
Lemma acceptable_spec rd (prev : bytes) left key type :
  is_first key = (record_index rd =? 0) -> reply_bytes rd = zlen prev + 5 ->
  zlen prev <= (3 - Z.of_nat left) * 16645 -> (1 <= left)%nat -> 0 <= body_total rd < 65536 ->
  header_acceptable rd type = negb (header_refused (is_first key) type (body_total rd)).
Proof.
  intros Hf Hc Hp Hl Ht. unfold header_acceptable, header_refused. rewrite <- Hf, Hc.
  unfold CLOAK_CLIENT_HANDSHAKE_MAX_RECORD_BODY. destruct (Z.ltb_spec 16640 (body_total rd)); [done|].
  unfold CLOAK_CLIENT_HANDSHAKE_MAX_REPLY_BYTES, CLOAK_CLIENT_HANDSHAKE_REPLY_RECORDS,
    CLOAK_CLIENT_HANDSHAKE_MAX_RECORD_BODY. zlen_pos. rewrite u64_small by lia. decide_cmp.
  cbn [negb andb orb]. by rewrite andb_true_r.
Qed.

Lemma be16_of_bytes hi lo :
  is_byte hi -> is_byte lo -> Z.lor (Z.shiftl hi 8) lo = hi * 256 + lo.
Proof. intros _ Hlo. apply (lor_shiftl_add hi lo 8); [done|exact Hlo]. Qed.

(** A complete header, [cur]. *)
Lemma header_complete_spec c prev cur left key type a b hi lo total st :
  records_read (c_h c) prev cur left key -> cur = [type; a; b; hi; lo] -> total = hi * 256 + lo -> 0 <= total ->
  rr_header (h_reader (c_h c)) = cur -> header_len (h_reader (c_h c)) = 5 ->
  (key = None -> sh_len (h_reader (c_h c)) = 0) ->
  header_refused (is_first key) type total = false ->
  st = set_state (set_reader (c_h c)
         (ReplyReader (record_index (h_reader (c_h c))) (rr_header (h_reader (c_h c)))
            (header_len (h_reader (c_h c))) 0 total (reply_bytes (h_reader (c_h c)))
            (rr_sh (h_reader (c_h c))) (sh_len (h_reader (c_h c)))))
         CLOAK_CLIENT_HS_STATE_READ_RECORD_BODY ->
  exists c', (if total =? 0 then record_complete (with_h c st) else Some (with_h c st)) = Some c' /\
    lands c (prev ++ cur) c'.
Proof.
  intros Hr Hcur Htot Hpos Hhd Hhl Hsh Href ->. set (st := set_state _ _).
  assert (Hr1 : records_read st prev cur left key).
  { destruct Hr. by split. }
  assert (Hb1 : in_body st key cur cur [] total).
  { split; cbn; try done. - by rewrite app_nil_r. - rewrite Hcur. by exists type, a, b, hi, lo.
    - intros Hk. rewrite Hsh by done. split; [done|]. by eexists. }
  destruct (Z.eqb_spec total 0) as [Hz|Hz].
  - destruct (record_complete_spec (with_h c st) prev cur left key cur [] total) as (c'&->&Hl);
      [done..|].
    exists c'. split; [done|]. by eapply lands_trans; [|exact Hl].
  - eexists. split; [done|]. unfold lands.
    assert (Hread : reading (c_h (with_h c st)) (prev ++ cur)).
    { exists prev, cur, left, key. split; [done|]. split; [done|]. right.
      exists cur, [], total. split; [done|]. change (@zlen Z []) with 0. lia. }
    by rewrite (reading_more _ _ Hread).
Qed.

Lemma chunk_bytes (data pre chunk rest : bytes) :
  data = pre ++ chunk ++ rest -> all_bytes data -> all_bytes chunk.
Proof. intros ->. rewrite !all_bytes_app. tauto. Qed.

Lemma feed_header_spec c p prev cur left key data i :
  records_read (c_h c) prev cur left key -> p = prev ++ cur -> in_header (c_h c) key cur ->
  all_bytes cur -> all_bytes data -> 0 <= i < zlen data -> zlen data < 9223372036854775808 ->
  advances c p data i (feed_header c data i).
Proof.
  intros Hr -> [Hstate [Hcl Hhl] (junk&Hhd&Hjunk) Hsh] Hcb Hdb Hi Hd.
  pose proof Hr as [Hres [Hleft Hidx] Hfirst Hprev Hst Hsec Hcnt [Hkl Hkey] Hshl]. zlen_pos.
  destruct (next_chunk data i (Z.min (5 - zlen cur) (zlen data - i)))
    as (pre&chunk&rest&Hdata&Hpre&Hchunk&Hdrop); [lia..|].
  unfold feed_header. rewrite Hhl, (u64_small (5 - _)), (u64_small (zlen data - _)) by lia.
  rewrite min_size_min, <- Hchunk, Hhd.
  assert (Hrd : data.[i +: zlen chunk] = Some chunk) by (rewrite Hdata; by apply mem_read_app).
  rewrite Hrd. cbn [mbind option_bind].
  destruct (zlen_split junk (zlen chunk)) as (j1&j2&->&Hj1&Hj2); [lia|].
  rewrite mem_write_app by done. cbn [mbind option_bind].
  rewrite Hcnt, zlen_app, !u64_small by lia. set (rd := ReplyReader _ _ _ _ _ _ _ _).
  assert (Hr1 : forall rd', record_index rd' = record_index rd -> reply_bytes rd' = reply_bytes rd ->
    rr_sh rd' = rr_sh rd -> records_read (set_reader (c_h c) rd') prev (cur ++ chunk) left key).
  { intros rd' E1 E2 E3. destruct Hr. split; cbn; rewrite ?E1, ?E2, ?E3; try done.
    unfold rd. cbn. rewrite !zlen_app. lia. }
  assert (Hfin : forall c' P, P -> lands c (prev ++ cur ++ chunk) c' -> 0 < zlen chunk /\
    chunk `prefix_of` drop (Z.to_nat i) data /\ lands c ((prev ++ cur) ++ chunk) c' /\ P).
  { intros c' P HP Hl. split_and!; [lia| |by rewrite <- app_assoc|done].
    rewrite Hdrop. by exists rest. }
  destruct (Z.ltb_spec (zlen cur + zlen chunk) 5) as [Hlt|Hge].
  { do 3 eexists. split; [reflexivity|]. apply Hfin; [by left|]. unfold lands.
    assert (Hread : reading (c_h (with_h c (set_reader (c_h c) rd))) (prev ++ cur ++ chunk)).
    { exists prev, (cur ++ chunk), left, key. split; [done|]. split; [by apply Hr1|]. left.
      split; cbn; rewrite ?zlen_app; try done. exists j2. rewrite <- app_assoc. split; [done|lia]. }
    by rewrite (reading_more _ _ Hread). }
  rewrite zlen_app in Hjunk. assert (j2 = []) as -> by (apply zlen_zero; lia). rewrite !app_nil_r.
  assert (Hfive : zlen (cur ++ chunk) = 5) by (rewrite zlen_app; lia).
  assert (Hbytes : all_bytes (cur ++ chunk)).
  { apply all_bytes_app. split; [done|]. by eapply chunk_bytes. }
  destruct (five_bytes _ Hfive) as (t&a&b&hi&lo&Hcur). rewrite Hcur in Hbytes.
  rewrite !all_bytes_cons in Hbytes. destruct Hbytes as (_&_&_&Hhi&Hlo&_).
  unfold rd. cbn [rr_header rr_sh]. rewrite Hcur. mem_eval. rewrite be16_of_bytes by done.
  unfold is_byte in *.
  erewrite (acceptable_spec _ prev left key); cbn [record_index reply_bytes body_total];
    [|done|rewrite zlen_app in Hfive; lia|done|lia|lia].
  rewrite negb_involutive, <- Hcur.
  destruct (header_refused (is_first key) t (hi * 256 + lo)) eqn:Href.
  - do 3 eexists. split; [reflexivity|]. apply Hfin.
    + right. split; [done|]. by rewrite fail_status.
    + unfold lands. rewrite Hres, Hcur. destruct left as [|left]; [lia|]. cbn [reply_outcome].
      rewrite Href. eexists. split; [|reflexivity]. done.
  - match goal with |- context [record_complete (with_h c ?s)] =>
      destruct (header_complete_spec (with_h c (set_reader (c_h c) (ReplyReader
        (record_index (h_reader (c_h c))) (cur ++ chunk) (zlen cur + zlen chunk) (body_len (h_reader (c_h c)))
        (body_total (h_reader (c_h c))) (zlen prev + zlen cur + zlen chunk)
        (rr_sh (h_reader (c_h c))) (sh_len (h_reader (c_h c))))))
        prev (cur ++ chunk) left key t a b hi lo (hi * 256 + lo) s) as (c'&Hc&Hl)
    end; try done; try lia.
    + apply Hr1; done.
    + rewrite zlen_app in Hfive. cbn. lia.
    + apply (lands_trans c) in Hl; [|done].
      match goal with |- advances _ _ _ _ ?r => assert (Hres' : r = Some (c', Some (i + zlen chunk))) end.
      { match type of Hc with context [with_h (with_h c ?x) ?s] =>
          change (with_h (with_h c x) s) with (with_h c s) in Hc end.
        destruct (hi * 256 + lo =? 0); [by rewrite Hc|]. by injection Hc as <-. }
      rewrite Hres'. do 3 eexists. split; [reflexivity|]. apply Hfin; [by left|exact Hl].
Qed.

(** ** The loop *)

Lemma lands_settled c p c' x :
  h_status (c_h c) = CLOAK_CLIENT_HANDSHAKE_PENDING -> all_bytes p -> outcome_of p <> More ->
  lands c p c' ->
  h_status (c_h c') <> CLOAK_CLIENT_HANDSHAKE_PENDING /\ lands c (p ++ x) c'.
Proof.
  intros Hs Hb Hm Hl. pose proof (outcome_app secret 3 None p x Hb Hm) as Hx. unfold lands in *.
  rewrite Hx. destruct (outcome_of p) as [|e|k rest]; [done| |]; cbn [extend].
  - split; [|done]. destruct Hl as (c1&Ho&->). by rewrite fail_status by (by rewrite (only_read_status _ _ Ho)).
  - split; [|done]. destruct Hl as (c1&Ho&->&_).
    by rewrite complete_status by (by rewrite (only_read_status _ _ Ho)).
Qed.

Lemma feed_round c p data i :
  reading (c_h c) p -> all_bytes p -> all_bytes data -> 0 <= i < zlen data ->
  zlen data < 9223372036854775808 ->
  advances c p data i
    (if h_state (c_h c) =? CLOAK_CLIENT_HS_STATE_READ_RECORD_HEADER then feed_header c data i
     else if h_state (c_h c) =? CLOAK_CLIENT_HS_STATE_READ_RECORD_BODY then feed_body c data i
     else Some (c, None)).
Proof.
  intros (prev&cur&left&key&->&Hr&[Hh|(head&body&total&Hb&Hlt)]) Hpb Hdb Hi Hd.
  - rewrite (ih_state _ _ _ Hh). apply all_bytes_app in Hpb as [_ Hcb].
    by eapply feed_header_spec.
  - rewrite (ib_state _ _ _ _ _ _ Hb). by eapply feed_body_spec.
Qed.

Lemma reading_status h p : reading h p -> h_status h = CLOAK_CLIENT_HANDSHAKE_PENDING.
Proof. by intros (prev&cur&left&key&_&Hr&_); destruct Hr. Qed.

Lemma feed_loop_stop fuel c1 data next n :
  next = Some n \/ next = None /\ h_status (c_h c1) <> CLOAK_CLIENT_HANDSHAKE_PENDING ->
  (0 < fuel)%nat -> h_status (c_h c1) <> CLOAK_CLIENT_HANDSHAKE_PENDING ->
  (match next with Some i => feed_loop fuel c1 data i | None => Some c1 end) = Some c1.
Proof.
  intros [-> | [-> _]] Hf Hs; [|done]. destruct fuel; [lia|]. cbn [feed_loop].
  rewrite (proj2 (Z.eqb_neq _ _) Hs). by rewrite andb_false_r.
Qed.

Lemma feed_loop_spec fuel c p data i :
  reading (c_h c) p -> all_bytes p -> all_bytes data -> 0 <= i <= zlen data ->
  zlen data < 9223372036854775808 -> zlen data - i < Z.of_nat fuel ->
  exists c', feed_loop fuel c data i = Some c' /\ lands c (p ++ drop (Z.to_nat i) data) c'.
Proof.
  revert c p i. induction fuel as [|fuel IH]; intros c p i Hr Hpb Hdb Hi Hd Hf; [lia|].
  cbn [feed_loop]. rewrite (reading_status _ _ Hr), Z.eqb_refl, andb_true_r.
  destruct (Z.ltb_spec i (zlen data)) as [Hlt|Hge]; cbn [negb].
  2: { exists c. split; [done|]. rewrite drop_ge, app_nil_r by (unfold zlen in *; lia).
       unfold lands. by rewrite (reading_more _ _ Hr). }
  destruct (feed_round c p data i Hr Hpb Hdb ltac:(lia) Hd)
    as (c1&next&chunk&->&Hpos&[rest Hpre]&Hl&Hnext). cbn [mbind option_bind].
  assert (Hcb : all_bytes (p ++ chunk)).
  { apply all_bytes_app. split; [done|]. pose proof (Forall_drop is_byte (Z.to_nat i) data Hdb) as Hrb.
    rewrite Hpre in Hrb. by apply all_bytes_app in Hrb as [? _]. }
  assert (Hlen : zlen (drop (Z.to_nat i) data) = zlen chunk + zlen rest)
    by (rewrite Hpre; apply zlen_app).
  rewrite zlen_drop in Hlen by lia. zlen_pos.
  assert (Hrest : drop (Z.to_nat (i + zlen chunk)) data = rest).
  { rewrite Z2Nat.inj_add, <- drop_drop, Hpre, zlen_length, drop_app_length by lia. done. }
  rewrite Hpre, app_assoc. destruct (outcome_of (p ++ chunk)) as [|e|k l] eqn:Ho.
  - unfold lands in Hl. rewrite Ho in Hl. destruct Hl as [Hor Hr1].
    destruct Hnext as [-> | [_ []]]; [|by eapply reading_status].
    destruct (IH c1 (p ++ chunk) (i + zlen chunk)) as (c'&->&Hl); [done|done|done|lia|lia|lia|].
    exists c'. split; [done|]. rewrite Hrest in Hl. by eapply lands_trans.
  - destruct (lands_settled _ _ _ rest (reading_status _ _ Hr) Hcb ltac:(by rewrite Ho) Hl) as [Hst Hl'].
    exists c1. split; [|done]. eapply feed_loop_stop; [exact Hnext|lia|done].
  - destruct (lands_settled _ _ _ rest (reading_status _ _ Hr) Hcb ltac:(by rewrite Ho) Hl) as [Hst Hl'].
    exists c1. split; [|done]. eapply feed_loop_stop; [exact Hnext|lia|done].
Qed.

Lemma reply_feed_spec c p data :
  reading (c_h c) p -> all_bytes p -> all_bytes data -> zlen data < 9223372036854775808 ->
  exists c', feed c data = Some c' /\ lands c (p ++ data) c'.
Proof.
  intros Hr Hpb Hdb Hd. zlen_pos.
  apply (feed_loop_spec (S (length data)) c p data 0); [done..|lia|done|unfold zlen; lia].
Qed.

Lemma wanted_header h key cur : in_header h key cur -> bytes_wanted h = 5 - zlen cur.
Proof.
  intros [Hst [Hc Hl] _ _]. unfold bytes_wanted. rewrite Hst, Z.eqb_refl, Hl. zlen_pos.
  apply u64_small. lia.
Qed.

Lemma wanted_body h key cur head body total :
  in_body h key cur head body total -> zlen body < total -> bytes_wanted h = total - zlen body.
Proof.
  intros Hb Hlt. pose proof (total_bound _ _ _ _ _ _ Hb) as Ht. destruct Hb as [Hst _ _ _ (_&Hl&Htot) _].
  unfold bytes_wanted, CLOAK_CLIENT_HANDSHAKE_MAX_RECORD_BODY in *. rewrite Hst, Hl, Htot. zlen_pos.
  apply u64_small. lia.
Qed.

(** As long as the verdict is open the reader asks for bytes, and never for
    more than it takes to complete the current part of a record. *)
Lemma wanted_spec h p :
  reading h p -> 0 < bytes_wanted h /\
  forall s, zlen s < bytes_wanted h -> outcome_of (p ++ s) = More.
Proof.
  intros (prev&cur&left&key&->&Hr&Hw). destruct (rr_left _ _ _ _ _ Hr) as [Hl _].
  destruct left as [|left]; [lia|]. destruct Hw as [Hh|(head&body&total&Hb&Hlt)].
  - rewrite (wanted_header _ _ _ Hh). destruct (ih_len _ _ _ Hh) as [Hc _].
    split; [lia|]. intros s Hs.
    rewrite <- app_assoc, (rr_resume _ _ _ _ _ Hr). apply outcome_header. rewrite zlen_app. lia.
  - rewrite (wanted_body _ _ _ _ _ _ Hb Hlt). split; [lia|]. intros s Hs.
    destruct (ib_head _ _ _ _ _ _ Hb) as (t&a&b&hi&lo&Hhd&->&Href).
    rewrite <- app_assoc, (rr_resume _ _ _ _ _ Hr), (ib_cur _ _ _ _ _ _ Hb), Hhd.
    cbn [app reply_outcome]. rewrite Href, zlen_app. by decide_cmp.
Qed.

(** A finished reply ends where its third record ends. *)
Lemma outcome_finished n key s k rest :
  all_bytes s -> reply_outcome secret n key s = Finished k rest ->
  exists used, s = used ++ rest /\ forall x, reply_outcome secret n key (used ++ x) = Finished k x.
Proof.
  revert key s. induction n as [|n IH]; intros key s Hb Ho.
  { injection Ho as <- <-. by exists []. }
  destruct s as [|t [|a [|b [|hi [|lo s]]]]]; try done.
  rewrite !all_bytes_cons in Hb. destruct Hb as (_&_&_&Hhi&Hlo&Hb). unfold is_byte in *.
  cbn [reply_outcome] in Ho. case_if_in Ho; [done|]. case_if_in Ho; [done|].
  set (total := hi * 256 + lo) in *.
  destruct (match key with Some k => Some k | None => _ end) as [k1|] eqn:Hk; [|done].
  destruct (IH (Some k1) _ (Forall_drop _ _ _ Hb) Ho) as (used&Hu&Hx).
  exists ([t; a; b; hi; lo] ++ take (Z.to_nat total) s ++ used). split.
  - rewrite <- !app_assoc, <- Hu. cbn [app]. by rewrite take_drop.
  - intros x. rewrite <- !app_assoc. cbn [app reply_outcome]. fold total. rewrite E.
    assert (Ht : zlen (take (Z.to_nat total) s) = total) by (apply zlen_take; lia).
    rewrite !zlen_app, Ht. zlen_pos. decide_cmp.
    rewrite take_app_length', drop_app_length', Hk by (unfold zlen in Ht; lia). apply Hx.
Qed.

(** Reading no more than is wanted leaves what follows the reply alone. *)
Lemma wanted_exact h p s k rest :
  reading h p -> all_bytes (p ++ s) -> zlen s <= bytes_wanted h ->
  outcome_of (p ++ s) = Finished k rest -> rest = [].
Proof.
  intros Hr Hb Hs Ho. destruct (outcome_finished 3 None _ _ _ Hb Ho) as (used&Hu&Hx).
  destruct rest as [|x rest]; [done|]. exfalso. specialize (Hx []). rewrite app_nil_r in Hx.
  pose proof (reading_more _ _ Hr) as Hmore.
  destruct (le_lt_dec (length p) (length used)) as [Hle|Hgt].
  - assert (Hpre : used = p ++ drop (length p) used).
    { rewrite <- (take_drop (length p) used) at 1. f_equal.
      apply (f_equal (take (length p))) in Hu. rewrite take_app_length in Hu.
      by rewrite take_app_le in Hu by lia. }
    rewrite Hpre in Hx. rewrite (proj2 (wanted_spec _ _ Hr)) in Hx; [done|].
    apply (f_equal length) in Hu. rewrite !length_app in Hu. cbn [length] in Hu.
    unfold zlen in *. rewrite length_drop. lia.
  - assert (Hpre : p = used ++ drop (length used) p).
    { rewrite <- (take_drop (length used) p) at 1. f_equal.
      apply (f_equal (take (length used))) in Hu. rewrite take_app_length in Hu.
      by rewrite take_app_le in Hu by lia. }
    rewrite Hpre in Hmore.
    pose proof (outcome_app secret 3 None used (drop (length used) p)) as Happ.
    rewrite Hx, Hmore in Happ. apply all_bytes_app in Hb as [Hb _]. rewrite Hpre in Hb.
    apply all_bytes_app in Hb as [Hb _]. by specialize (Happ Hb ltac:(done)).
Qed.

End reading.
