(* ===== verification/ClientHandshake.v ===== *)
(** * A run of the client's handshake

    The handshake object under its reactor, with the kernel and the peer as
    adversaries: a run is any sequence of arrivals of bytes, readiness events
    with any answers of [send] and [recv], expiry of the deadline and actions
    of the reactor's other users. *)
From S2P Require Import Prelude Fallible Buffer Aead ReactorApi ClientTransport ClientReply.

Section run.
Context `{EvpLaws} {R : Type} `{!Reactor R} `{!ReactorLaws R}.
Context (fd : Z) (wire secret : bytes) (T : Z).
Implicit Types (c : conn R) (h : cloak_client_handshake_t) (r : R).

Abbreviation outcome_of := (reply_outcome secret 3 None).

(** ** Pending objects *)

Record live (c : conn R) : Prop := {
  lv_reactor : reactor_ok (c_reactor c);
  lv_fd : h_fd (c_h c) = fd /\ h_fd_registered (c_h c) = true /\ watching (c_reactor c) fd;
  lv_timer : h_deadline_timer (c_h c) = T /\ armed (c_reactor c) T;
  lv_status : h_status (c_h c) = CLOAK_CLIENT_HANDSHAKE_PENDING;
  lv_report : h_notified (c_h c) = false /\ h_on_done (c_h c) = true /\ c_done c = [];
  lv_wire : (h_hello (c_h c)).[0 +: h_hello_len (c_h c)] = Some wire;
  lv_small : zlen wire < 65536
}.

(** The ClientHello is being sent, [h_hello_sent] bytes are out. *)
Record writing (c : conn R) : Prop := {
  wr_live : live c;
  wr_state : h_state (c_h c) = CLOAK_CLIENT_HS_STATE_WRITE_HELLO;
  wr_sent : 0 <= h_hello_sent (c_h c) <= h_hello_len (c_h c);
  wr_outbox : c_outbox c = take (Z.to_nat (h_hello_sent (c_h c))) wire;
  wr_reader : h_reader (c_h c) = zero_reader /\ zlen (h_session_key (c_h c)) = 32 /\
              h_shared_secret (c_h c) = secret
}.

(** The reply is being read, [p] of it so far. *)
Record receiving (c : conn R) (p : bytes) : Prop := {
  rc_live : live c;
  rc_outbox : c_outbox c = wire;
  rc_reading : reading secret (c_h c) p
}.

Definition pending (c : conn R) (p : bytes) : Prop :=
  writing c /\ p = [] \/ receiving c p.

(** The reactor [r'] is [r] without the watch and the timer. *)
Definition frees (r r' : R) : Prop :=
  reactor_ok r' /\ (forall f, watching r' f <-> f <> fd /\ watching r f) /\
  (forall i, armed r' i <-> i <> T /\ armed r i).

(** What an object that has ended says about the bytes [p] it has read. *)
Inductive verdict (c : conn R) (p : bytes) : Prop :=
| verdict_done :
    h_status (c_h c) = CLOAK_CLIENT_HANDSHAKE_DONE -> c_outbox c = wire ->
    outcome_of p = Finished (h_session_key (c_h c)) [] -> verdict c p
| verdict_refused :
    h_status (c_h c) = CLOAK_CLIENT_HANDSHAKE_FAILED -> c_outbox c = wire ->
    outcome_of p = Refused (h_error (c_h c)) -> verdict c p
| verdict_lost :
    h_status (c_h c) = CLOAK_CLIENT_HANDSHAKE_FAILED -> outcome_of p = More ->
    h_error (c_h c) ∈ [CLOAK_CLIENT_HANDSHAKE_ERR_IO; CLOAK_CLIENT_HANDSHAKE_ERR_EOF;
                       CLOAK_CLIENT_HANDSHAKE_ERR_TIMEOUT] -> verdict c p.

(** Ended objects hold nothing and have reported once. *)
Record over (c : conn R) (p : bytes) : Prop := {
  ov_verdict : verdict c p;
  ov_fd : h_fd_registered (c_h c) = false;
  ov_timer : h_deadline_timer (c_h c) = CLOAK_TIMER_INVALID;
  ov_notified : h_notified (c_h c) = true;
  ov_done : c_done c = [h_status (c_h c)]
}.

(** ** The effect of an end *)

Lemma live_timer c : live c -> T <> CLOAK_TIMER_INVALID.
Proof. intros [Hok _ [_ Ha] _ _ _ _]. by eapply armed_valid. Qed.

Lemma frees_release r : reactor_ok r -> frees r (r_cancel_timer (r_remove_fd r fd) T).
Proof.
  intros Hok. destruct (remove_fd_law r fd Hok) as (Hok1&Ht1&_).
  destruct (cancel_timer_law (r_remove_fd r fd) T Hok1) as (Hok2&Hw2&Ht2).
  split; [done|]. split.
  - intros f. by rewrite (same_watches_watched _ _ Hw2 f), remove_fd_watching.
  - intros i. by rewrite Ht2, (Ht1 i).
Qed.

Lemma frees_same r r1 r' : same_watched r r1 -> same_timers r r1 -> frees r1 r' -> frees r r'.
Proof.
  intros Hw Ht (Hok&Hw1&Ht1). split; [done|]. split.
  - intros f. by rewrite Hw1, (Hw f).
  - intros i. by rewrite Ht1, (Ht i).
Qed.

(** The object and the world after [fail] or [complete], then [finish]. *)
Definition closed (c : conn R) (st status error : Z) : conn R :=
  Conn (set_notified (set_timer (set_fd (set_verdict (c_h c) st status error) false 0)
                        CLOAK_TIMER_INVALID))
    (r_cancel_timer (r_remove_fd (c_reactor c) fd) T) (c_inbox c) (c_outbox c) [status].

Lemma release_closed c st status error :
  live c -> status <> CLOAK_CLIENT_HANDSHAKE_PENDING ->
  finish (release_reactor (with_h c (set_verdict (c_h c) st status error))) =
    closed c st status error.
Proof.
  intros Hl Hs. pose proof (live_timer c Hl) as HT.
  destruct Hl as [_ (Hfd&Hreg&_) [Htm _] _ (Hn&Hd&Hdone) _ _].
  destruct c as [h r i o d]. destruct h. cbn in *. subst.
  unfold release_reactor. cbn. rewrite (proj2 (Z.eqb_neq _ _) HT). cbn.
  unfold finish. cbn. rewrite (proj2 (Z.eqb_neq _ _) Hs). done.
Qed.

Lemma finish_fail c e :
  live c -> finish (fail c e) =
    closed c CLOAK_CLIENT_HS_STATE_FAILED CLOAK_CLIENT_HANDSHAKE_FAILED e.
Proof.
  intros Hl. unfold fail. rewrite (lv_status c Hl), Z.eqb_refl. cbn [negb].
  by apply release_closed.
Qed.

Lemma finish_complete c :
  live c -> finish (complete c) =
    closed c CLOAK_CLIENT_HS_STATE_DONE CLOAK_CLIENT_HANDSHAKE_DONE CLOAK_CLIENT_HANDSHAKE_ERR_NONE.
Proof.
  intros Hl. unfold complete. rewrite (lv_status c Hl), Z.eqb_refl. cbn [negb].
  by apply release_closed.
Qed.

(** Reading keeps the object live. *)
Lemma live_only_read c c' : only_read c c' -> live c -> live c'.
Proof.
  destruct c as [h r i o d], c' as [h' r' i' o' d']. destruct h, h'.
  unfold only_read, with_h, outside. cbn. intros [=]. subst.
  intros [? ? ? ? ? ? ?]. split; done.
Qed.

Lemma only_read_reactor c c' : only_read c c' -> c_reactor c' = c_reactor c.
Proof. intros E. by apply (f_equal c_reactor) in E. Qed.
Lemma only_read_outbox c c' : only_read c c' -> c_outbox c' = c_outbox c.
Proof. intros E. by apply (f_equal c_outbox) in E. Qed.
Lemma only_read_inbox c c' : only_read c c' -> c_inbox c' = c_inbox c.
Proof. intros E. by apply (f_equal c_inbox) in E. Qed.

(** ** Reading *)

Definition same_reactor (r r' : R) : Prop := same_watched r r' /\ same_timers r r'.

Lemma same_reactor_refl r : same_reactor r r.
Proof. by split. Qed.

Lemma same_reactor_trans r1 r2 r3 : same_reactor r1 r2 -> same_reactor r2 r3 -> same_reactor r1 r3.
Proof.
  intros [Hw1 Ht1] [Hw2 Ht2].
  split; [intros f; by rewrite (Hw2 f), (Hw1 f)|intros i; by rewrite (Ht2 i), (Ht1 i)].
Qed.

(** The connection between the last call of [send] or [recv] and [finish]. *)
Inductive result (c : conn R) (p : bytes) (c' : conn R) : Prop :=
| result_open :
    pending c' p -> same_reactor (c_reactor c) (c_reactor c') -> result c p c'
| result_failed c1 e :
    live c1 -> same_reactor (c_reactor c) (c_reactor c1) -> c' = fail c1 e ->
    outcome_of p = Refused e /\ c_outbox c1 = wire \/
    outcome_of p = More /\ e ∈ [CLOAK_CLIENT_HANDSHAKE_ERR_IO; CLOAK_CLIENT_HANDSHAKE_ERR_EOF;
                                CLOAK_CLIENT_HANDSHAKE_ERR_TIMEOUT] ->
    result c p c'
| result_complete c1 :
    live c1 -> same_reactor (c_reactor c) (c_reactor c1) -> c' = complete c1 ->
    outcome_of p = Finished (h_session_key (c_h c1)) [] -> c_outbox c1 = wire -> result c p c'.

Lemma result_after c c1 p c' :
  same_reactor (c_reactor c) (c_reactor c1) -> result c1 p c' -> result c p c'.
Proof.
  intros Hs [Hp Hr|c2 e Hl Hr -> Ho|c2 Hl Hr -> Ho Hw].
  - apply result_open; [done|]. by eapply same_reactor_trans.
  - apply (result_failed _ _ _ c2 e); try done. by eapply same_reactor_trans.
  - apply (result_complete _ _ _ c2); try done. by eapply same_reactor_trans.
Qed.

Lemma fail_inbox c e : c_inbox (fail c e) = c_inbox c.
Proof. unfold fail, release_reactor. repeat (case_if; cbn); done. Qed.

Lemma complete_inbox c : c_inbox (complete c) = c_inbox c.
Proof. unfold complete, release_reactor. repeat (case_if; cbn); done. Qed.

(** One answer of [recv] with [data], at most as much as was asked for. *)
Lemma feed_received c p data :
  receiving c p -> all_bytes p -> all_bytes data -> zlen data <= bytes_wanted (c_h c) ->
  zlen data <= 1024 ->
  exists c', feed c data = Some c' /\ lands secret c (p ++ data) c' /\ c_inbox c' = c_inbox c /\
    result c (p ++ data) c' /\
    (h_status (c_h c') = CLOAK_CLIENT_HANDSHAKE_PENDING -> receiving c' (p ++ data)).
Proof.
  intros [Hl Ho Hr] Hp Hd Hw Hsmall.
  destruct (reply_feed_spec secret c p data Hr Hp Hd ltac:(lia)) as (c'&Hf&Hlands).
  exists c'. split; [done|]. split; [done|]. unfold lands in Hlands.
  destruct (outcome_of (p ++ data)) as [|e|k rest] eqn:Hout.
  - destruct Hlands as [Hor Hr']. split; [by apply only_read_inbox|].
    assert (Hrc : receiving c' (p ++ data)).
    { split; [by eapply live_only_read| |done]. by rewrite (only_read_outbox _ _ Hor). }
    split; [|done]. apply result_open; [by right|].
    rewrite (only_read_reactor _ _ Hor). apply same_reactor_refl.
  - destruct Hlands as (c1&Hor&->). assert (Hl1 : live c1) by (by eapply live_only_read).
    rewrite fail_inbox, fail_status by apply (lv_status _ Hl1).
    split; [by apply only_read_inbox|]. split; [|done].
    apply (result_failed _ _ _ c1 e); [done| |done|left; by rewrite Hout, (only_read_outbox _ _ Hor)].
    rewrite (only_read_reactor _ _ Hor). apply same_reactor_refl.
  - destruct Hlands as (c1&Hor&->&Hk). assert (Hl1 : live c1) by (by eapply live_only_read).
    rewrite complete_inbox, complete_status by apply (lv_status _ Hl1).
    split; [by apply only_read_inbox|]. split; [|done].
    assert (rest = []) as ->.
    { eapply (wanted_exact secret (c_h c) p data); [done| |done|done]. by apply all_bytes_app. }
    apply (result_complete _ _ _ c1); [done| |done|by rewrite Hout, Hk|by rewrite (only_read_outbox _ _ Hor)].
    rewrite (only_read_reactor _ _ Hor). apply same_reactor_refl.
Qed.

Lemma receiving_inbox c p i :
  receiving c p -> receiving (Conn (c_h c) (c_reactor c) i (c_outbox c) (c_done c)) p.
Proof. intros [[? ? ? ? ? ? ?] ? ?]. by split. Qed.

(** What [recv] is asked for and hands over. *)
Lemma recv_chunk c p n :
  receiving c p -> c_inbox c <> [] -> all_bytes (c_inbox c) ->
  let want := if 1024 <? bytes_wanted (c_h c) then 1024 else bytes_wanted (c_h c) in
  let k := moved n (Z.min want (zlen (c_inbox c))) in
  let data := take (Z.to_nat k) (c_inbox c) in
  1 <= zlen data <= 1024 /\ zlen data <= bytes_wanted (c_h c) /\ all_bytes data /\
  c_inbox c = data ++ drop (Z.to_nat k) (c_inbox c).
Proof.
  intros [_ _ Hr] Hne Hb want k data. destruct (wanted_spec _ _ _ Hr) as [Hpos _].
  assert (Hwant : 1 <= want <= 1024 /\ want <= bytes_wanted (c_h c)) by (unfold want; case_if; lia).
  assert (Hi : 1 <= zlen (c_inbox c)).
  { destruct (c_inbox c); [done|]. rewrite zlen_cons. zlen_pos. lia. }
  assert (Hk : 1 <= k <= want /\ k <= zlen (c_inbox c)) by (unfold k, moved; lia).
  assert (Hdl : zlen data = k) by (apply zlen_take; lia).
  split_and!; [lia|lia|lia|by apply Forall_take|unfold data; by rewrite take_drop].
Qed.

Lemma do_read_stop answers c :
  h_status (c_h c) <> CLOAK_CLIENT_HANDSHAKE_PENDING -> do_read answers c = Some c.
Proof. intros Hs. destruct answers; cbn [do_read]; by rewrite (proj2 (Z.eqb_neq _ _) Hs). Qed.

Lemma do_read_spec answers c p :
  receiving c p -> all_bytes p -> all_bytes (c_inbox c) ->
  exists c' got, do_read answers c = Some c' /\ c_inbox c = got ++ c_inbox c' /\
    result c (p ++ got) c'.
Proof.
  revert c p. induction answers as [|a answers IH]; intros c p Hrc Hp Hi;
    pose proof (rc_live _ _ Hrc) as Hl; pose proof (rc_reading _ _ Hrc) as Hr;
    destruct (wanted_spec _ _ _ Hr) as [Hpos _];
    cbn [do_read]; rewrite (lv_status _ Hl), Z.eqb_refl; cbn [negb];
    rewrite (proj2 (Z.eqb_neq (bytes_wanted (c_h c)) 0)) by lia; cbn iota.
  - exists c, []. split; [done|]. split; [done|]. rewrite app_nil_r.
    apply result_open; [by right|apply same_reactor_refl].
  - assert (Hopen : exists c' got, Some c = Some c' /\ c_inbox c = got ++ c_inbox c' /\
      result c (p ++ got) c').
    { exists c, []. split; [done|]. split; [done|]. rewrite app_nil_r.
      apply result_open; [by right|apply same_reactor_refl]. }
    assert (Hfail : forall e, e ∈ [CLOAK_CLIENT_HANDSHAKE_ERR_IO; CLOAK_CLIENT_HANDSHAKE_ERR_EOF;
        CLOAK_CLIENT_HANDSHAKE_ERR_TIMEOUT] ->
      exists c' got, Some (fail c e) = Some c' /\ c_inbox c = got ++ c_inbox c' /\
        result c (p ++ got) c').
    { intros e He. exists (fail c e), []. split; [done|]. rewrite fail_inbox. split; [done|].
      rewrite app_nil_r. apply (result_failed _ _ _ c e); [done|apply same_reactor_refl|done|].
      right. split; [|done]. by apply (reading_more secret (c_h c)). }
    destruct a as [n| | | |].
    + destruct (c_inbox c) as [|x inbox] eqn:Hin; [exact Hopen|]. rewrite <- Hin in *. clear Hopen Hfail.
      destruct (recv_chunk c p n Hrc ltac:(by rewrite Hin) Hi) as (Hdl&Hdw&Hdb&Hsplit). cbv zeta in *.
      set (data := take _ _) in *. set (c0 := Conn _ _ _ _ _).
      destruct (feed_received c0 p data) as (c1&->&_&Hi1&Hres&Hrc1);
        [by apply receiving_inbox|done..|lia|]. cbn [mbind option_bind].
      change (drop _ _) with (c_inbox c0) in Hsplit. rewrite <- Hi1 in Hsplit.
      destruct (Z.eq_dec (h_status (c_h c1)) CLOAK_CLIENT_HANDSHAKE_PENDING) as [Hst|Hst].
      * destruct (IH c1 (p ++ data)) as (c'&got&->&Hg&Hres'); [by apply Hrc1|by apply all_bytes_app| |].
        { rewrite Hsplit in Hi. by apply all_bytes_app in Hi as [_ ?]. }
        exists c', (data ++ got). split; [done|]. rewrite Hsplit at 1. rewrite Hg, app_assoc.
        split; [done|]. rewrite app_assoc. eapply result_after; [|exact Hres'].
        destruct Hres as [_ Hs|c2 e Hl2 _ -> _|c2 Hl2 _ -> _ _]; [exact Hs| |].
        -- by rewrite fail_status in Hst by apply (lv_status _ Hl2).
        -- by rewrite complete_status in Hst by apply (lv_status _ Hl2).
      * exists c1, data. split; [by apply do_read_stop|]. split; [done|].
        eapply result_after; [|exact Hres]. apply same_reactor_refl.
    + apply Hfail. rewrite !elem_of_cons. auto.
    + by apply IH.
    + exact Hopen.
    + apply Hfail. rewrite !elem_of_cons. auto.
Qed.

(** Answers of [recv] that deliver bytes. *)
Definition delivers (a : recv_answer) : Prop := match a with RecvSome _ => True | _ => False end.

(** If the bytes at hand finish the reply and the kernel delivers them, the
    handshake completes. *)
Lemma do_read_all answers c p k rest :
  receiving c p -> all_bytes p -> all_bytes (c_inbox c) -> Forall delivers answers ->
  zlen (c_inbox c) <= zlen answers -> outcome_of (p ++ c_inbox c) = Finished k rest ->
  exists c1, do_read answers c = Some (complete c1) /\ live c1 /\ c_inbox c1 = rest /\
    h_session_key (c_h c1) = k.
Proof.
  revert c p. induction answers as [|a answers IH]; intros c p Hrc Hp Hi Ha Hlen Ho;
    pose proof (rc_live _ _ Hrc) as Hl; pose proof (rc_reading _ _ Hrc) as Hr;
    pose proof (reading_more _ _ _ Hr) as Hm; destruct (wanted_spec _ _ _ Hr) as [Hpos _].
  { change (@zlen recv_answer []) with 0 in Hlen. rewrite (zlen_zero (c_inbox c)), app_nil_r in Ho by (zlen_pos; lia).
    congruence. }
  assert (Hne : c_inbox c <> []) by (intros E; rewrite E, app_nil_r in Ho; congruence).
  apply Forall_cons in Ha as [Ha Has]. destruct a as [n| | | |]; try done.
  cbn [do_read]. rewrite (lv_status _ Hl), Z.eqb_refl. cbn [negb].
  rewrite (proj2 (Z.eqb_neq (bytes_wanted (c_h c)) 0)) by lia. cbn iota.
  destruct (recv_chunk c p n Hrc Hne Hi) as (Hdl&Hdw&Hdb&Hsplit). cbv zeta in *.
  destruct (c_inbox c) as [|x inbox] eqn:Hin; [done|]. rewrite <- Hin in *. clear Hin x inbox.
  set (data := take _ _) in *. set (c0 := Conn _ _ _ _ _).
  destruct (feed_received c0 p data) as (c'&->&Hlands&Hi1&_&Hrc1);
    [by apply receiving_inbox|done..|lia|]. cbn [mbind option_bind].
  assert (Hpd : all_bytes (p ++ data)) by (by apply all_bytes_app).
  rewrite Hsplit, app_assoc in Ho. change (drop _ _) with (c_inbox c0) in Ho.
  pose proof (outcome_app secret 3 None (p ++ data) (c_inbox c0) Hpd) as Happ. unfold lands in Hlands.
  destruct (outcome_of (p ++ data)) as [|e|k' rest'] eqn:Hout.
  - destruct Hlands as [Hor Hr1]. rewrite <- Hi1 in Ho.
    apply (IH c' (p ++ data)); [|done| |done| |done].
    + apply Hrc1. by apply (reading_status secret _ (p ++ data)).
    + rewrite Hsplit in Hi. rewrite Hi1. by apply all_bytes_app in Hi as [_ ?].
    + rewrite Hi1. rewrite Hsplit, zlen_app, zlen_cons in Hlen.
      change (zlen (drop _ _)) with (zlen (c_inbox c0)) in Hlen. lia.
  - rewrite Happ in Ho by done. discriminate.
  - rewrite Happ in Ho by done. cbn [extend] in Ho. destruct Hlands as (c1&Hor&->&Hk).
    assert (rest' = []) as ->.
    { eapply (wanted_exact secret (c_h c) p data); done. }
    injection Ho as -> <-. exists c1. rewrite do_read_stop.
    + split; [done|]. split.
      { apply (live_only_read c0); [done|]. apply (rc_live c0 p). by apply receiving_inbox. }
      split; [by rewrite (only_read_inbox _ _ Hor)|done].
    + rewrite complete_status; [done|]. rewrite (only_read_status _ _ Hor). apply (lv_status _ Hl).
Qed.

(** ** Writing *)

Lemma live_reactor c r :
  live c -> reactor_ok r -> same_reactor (c_reactor c) r -> live (with_reactor c r).
Proof.
  intros [? (?&?&?) [? ?] ? ? ? ?] Hok [Hw Ht]. split; try done.
  - split_and!; [done..|]. by apply Hw.
  - split; [done|]. by apply Ht.
Qed.

Lemma wire_length c : live c -> h_hello_len (c_h c) = zlen wire.
Proof. intros Hl. by destruct (mem_read_inv _ _ _ _ (lv_wire c Hl)) as (_&_&_&_&?). Qed.

Lemma set_interest_spec c want :
  live c -> h_state (c_h c) = CLOAK_CLIENT_HS_STATE_READ_RECORD_HEADER ->
  exists c1, live c1 /\ same_reactor (c_reactor c) (c_reactor c1) /\
    c_outbox c1 = c_outbox c /\ c_inbox c1 = c_inbox c /\
    (set_interest c want = fail c1 CLOAK_CLIENT_HANDSHAKE_ERR_IO \/
     set_interest c want = c1 /\ h_reader (c_h c1) = h_reader (c_h c) /\
     h_session_key (c_h c1) = h_session_key (c_h c) /\
     h_shared_secret (c_h c1) = h_shared_secret (c_h c) /\ h_state (c_h c1) = h_state (c_h c)).
Proof.
  intros Hl Hst. pose proof (lv_fd c Hl) as (Hfd&Hreg&_). unfold set_interest. rewrite Hreg. cbn [negb orb].
  destruct (h_fd_interest (c_h c) =? want).
  { exists c. split; [done|]. split; [apply same_reactor_refl|]. auto 10. }
  destruct (r_mod_fd (c_reactor c) (h_fd (c_h c)) want) as [v r] eqn:Hmod.
  destruct (mod_fd_law _ _ _ _ _ (lv_reactor c Hl) Hmod) as (Hok&Ht&_).
  pose proof (mod_fd_watching _ _ _ _ _ (lv_reactor c Hl) Hmod) as Hw.
  assert (Hl1 : live (with_reactor c r)) by (by apply live_reactor).
  destruct (Z.eqb_spec v 0) as [-> | Hv]; cbn [negb].
  - exists (with_h (with_reactor c r) (set_fd (c_h c) true want)). split_and!; try done.
    + destruct Hl1 as [? (?&?&?) ? ? ? ? ?]. by split.
    + by right.
  - exists (with_reactor c r). split_and!; try done. by left.
Qed.

Lemma written_spec c :
  writing c -> h_hello_len (c_h c) <= h_hello_sent (c_h c) ->
  exists c', Some (set_interest (with_h c (set_state (c_h c) CLOAK_CLIENT_HS_STATE_READ_RECORD_HEADER))
                     CLOAK_REACTOR_READABLE) = Some c' /\ c_inbox c' = c_inbox c /\ result c [] c' /\
    (h_status (c_h c') = CLOAK_CLIENT_HANDSHAKE_PENDING -> pending c' []).
Proof.
  intros [Hl Hst Hs Hout (Hrd&Hk&Hsec)] Hge. pose proof (wire_length c Hl) as Hlen.
  rewrite take_ge in Hout by (unfold zlen in *; lia).
  set (c0 := with_h c _). assert (Hl0 : live c0) by (destruct Hl; by split).
  destruct (set_interest_spec c0 CLOAK_REACTOR_READABLE Hl0 eq_refl)
    as (c1&Hl1&Hr1&Ho1&Hi1&[-> | (->&Hrd1&Hk1&Hsec1&Hst1)]); eexists; (split; [reflexivity|]).
  - rewrite fail_inbox, fail_status by apply (lv_status _ Hl1). split; [done|]. split; [|done].
    apply (result_failed _ _ _ c1 CLOAK_CLIENT_HANDSHAKE_ERR_IO); [done|done|done|].
    right. split; [done|]. rewrite !elem_of_cons. auto.
  - assert (Hrc : receiving c1 []).
    { split; [done|by rewrite Ho1|]. apply reading_start; [done|by destruct Hl1|..].
      - by rewrite Hsec1. - by rewrite Hrd1. - by rewrite Hk1. }
    split; [done|]. split; [|by right]. apply result_open; [by right|done].
Qed.

Lemma do_write_spec sends c :
  writing c ->
  exists c', do_write sends c = Some c' /\ c_inbox c' = c_inbox c /\ result c [] c' /\
    (h_status (c_h c') = CLOAK_CLIENT_HANDSHAKE_PENDING -> pending c' []).
Proof.
  revert c. induction sends as [|a sends IH]; intros c Hw;
    pose proof (wr_live _ Hw) as Hl; pose proof (wire_length c Hl) as Hlen;
    pose proof (lv_small c Hl) as Hsmall; pose proof (wr_sent _ Hw) as Hs; cbn [do_write];
    (destruct (Z.ltb_spec (h_hello_sent (c_h c)) (h_hello_len (c_h c))) as [Hlt|Hge]; [|by apply written_spec]).
  all: assert (Hopen : exists c', Some c = Some c' /\ c_inbox c' = c_inbox c /\ result c [] c' /\
    (h_status (c_h c') = CLOAK_CLIENT_HANDSHAKE_PENDING -> pending c' []))
    by (exists c; split_and!; [done..| |by left]; apply result_open; [by left|apply same_reactor_refl]).
  { exact Hopen. }
  destruct a as [n| | | |]; [|exact Hopen|by apply IH|exact Hopen|].
  - rewrite (u64_small (_ - _)) by lia. set (k := moved n _).
    assert (Hk : 1 <= k <= h_hello_len (c_h c) - h_hello_sent (c_h c)) by (unfold k, moved; lia).
    assert (Hrd : (h_hello (c_h c)).[h_hello_sent (c_h c) +: k] =
      Some (take (Z.to_nat k) (drop (Z.to_nat (h_hello_sent (c_h c))) wire))).
    { destruct (mem_read_inv _ _ _ _ (lv_wire c Hl)) as (_&_&Hb&->&_).
      rewrite mem_read_Some by lia. f_equal. cbn [Z.to_nat]. rewrite drop_0.
      rewrite skipn_firstn_comm, take_take. f_equal. lia. }
    rewrite Hrd. cbn [mbind option_bind]. rewrite u64_small by lia.
    set (c1 := Conn _ _ _ _ _). destruct (IH c1) as (c'&Hd&Hi&Hr&Hp).
    + destruct Hw as [[? ? ? ? ? ? ?] ? ? Hout ?]. split; [by split|done|cbn; lia| |done].
      cbn. rewrite Hout, Z2Nat.inj_add by lia. apply take_take_drop.
    + exists c'. split; [exact Hd|]. split; [by rewrite Hi|]. split; [|done].
      eapply result_after; [|exact Hr]. apply same_reactor_refl.
  - eexists. split; [done|]. rewrite fail_inbox, fail_status by apply (lv_status _ Hl).
    split; [done|]. split; [|done].
    apply (result_failed _ _ _ c CLOAK_CLIENT_HANDSHAKE_ERR_IO); [done|apply same_reactor_refl|done|].
    right. split; [done|]. rewrite !elem_of_cons. auto.
Qed.

(** ** One event *)

Definition settled (c : conn R) (p : bytes) (c' : conn R) : Prop :=
  pending c' p /\ same_reactor (c_reactor c) (c_reactor c') \/
  over c' p /\ frees (c_reactor c) (c_reactor c').

Lemma pending_live c p : pending c p -> live c.
Proof. intros [[[]%wr_live _]|Hr]; [done|apply (rc_live _ _ Hr)]. Qed.

Lemma pending_status c p : pending c p -> h_status (c_h c) = CLOAK_CLIENT_HANDSHAKE_PENDING.
Proof. intros Hp. apply (lv_status _ (pending_live _ _ Hp)). Qed.

Lemma frees_closed c c1 st status error :
  live c1 -> same_reactor (c_reactor c) (c_reactor c1) ->
  frees (c_reactor c) (c_reactor (closed c1 st status error)).
Proof.
  intros Hl [Hw Ht]. eapply frees_same; [done..|]. cbn. apply frees_release. apply (lv_reactor _ Hl).
Qed.

Lemma finish_result c p c' :
  result c p c' -> settled c p (finish c') /\ c_inbox (finish c') = c_inbox c'.
Proof.
  intros [Hp Hr|c1 e Hl Hs -> Ho|c1 Hl Hs -> Ho Hw].
  - assert (Hf : finish c' = c').
    { unfold finish. by rewrite (pending_status _ _ Hp), Z.eqb_refl. }
    rewrite Hf. split; [by left|done].
  - rewrite finish_fail, fail_inbox by done. split; [|done]. right. split; [|by apply frees_closed].
    split; try done. destruct Ho as [[Ho Hw]|[Ho He]].
    + by apply verdict_refused.
    + by apply verdict_lost.
  - rewrite finish_complete, complete_inbox by done. split; [|done]. right.
    split; [|by apply frees_closed]. split; try done. by apply verdict_done.
Qed.

Lemma reading_state h p :
  reading secret h p ->
  (h_state h =? CLOAK_CLIENT_HS_STATE_READ_RECORD_HEADER) ||
  (h_state h =? CLOAK_CLIENT_HS_STATE_READ_RECORD_BODY) = true /\
  h_state h <> CLOAK_CLIENT_HS_STATE_WRITE_HELLO.
Proof.
  intros (prev&cur&left&key&_&_&[Hh|(head&body&total&Hb&_)]).
  - by rewrite (ih_state _ _ _ Hh).
  - by rewrite (ib_state _ _ _ _ _ _ Hb).
Qed.

Lemma on_event_spec sends recvs c p :
  pending c p -> all_bytes p -> all_bytes (c_inbox c) ->
  exists c' got, on_event sends recvs c = Some c' /\ c_inbox c = got ++ c_inbox c' /\
    settled c (p ++ got) c'.
Proof.
  intros Hp Hpb Hib. unfold on_event. rewrite (pending_status _ _ Hp), Z.eqb_refl. cbn [negb].
  assert (Hfirst : exists c1,
    (if h_state (c_h c) =? CLOAK_CLIENT_HS_STATE_WRITE_HELLO then do_write sends c else Some c) = Some c1 /\
    c_inbox c1 = c_inbox c /\ result c p c1 /\
    (h_status (c_h c1) = CLOAK_CLIENT_HANDSHAKE_PENDING -> pending c1 p)).
  { destruct Hp as [[Hw ->]|Hr].
    - rewrite (wr_state _ Hw), Z.eqb_refl. by apply do_write_spec.
    - destruct (reading_state _ _ (rc_reading _ _ Hr)) as [_ Hne%Z.eqb_neq]. rewrite Hne.
      exists c. split_and!; try done; [|by right]. apply result_open; [by right|apply same_reactor_refl]. }
  destruct Hfirst as (c1&->&Hi1&Hres&Hpend). cbn [mbind option_bind].
  assert (Hdone : forall c2 got, c_inbox c = got ++ c_inbox c2 -> result c (p ++ got) c2 ->
    exists c' got', Some (finish c2) = Some c' /\ c_inbox c = got' ++ c_inbox c' /\ settled c (p ++ got') c').
  { intros c2 got Hi Hr. destruct (finish_result _ _ _ Hr) as [Hs Hf].
    exists (finish c2), got. split; [done|]. by rewrite Hf. }
  destruct (Z.eqb_spec (h_status (c_h c1)) CLOAK_CLIENT_HANDSHAKE_PENDING) as [Hst|Hst]; cbn [andb].
  2: { apply (Hdone c1 []); [by rewrite Hi1|by rewrite app_nil_r]. }
  destruct (Hpend Hst) as [[Hw ->]|Hr].
  - rewrite (wr_state _ Hw). apply (Hdone c1 []); [by rewrite Hi1|done].
  - destruct (reading_state _ _ (rc_reading _ _ Hr)) as [-> _].
    destruct (do_read_spec recvs c1 p Hr Hpb) as (c2&got&->&Hi2&Hr2); [by rewrite Hi1|].
    cbn [mbind option_bind]. apply (Hdone c2 got); [by rewrite <- Hi1|].
    eapply result_after; [|exact Hr2]. destruct Hres as [_ Hs|c3 e Hl3 _ -> _|c3 Hl3 _ -> _ _]; [exact Hs| |].
    + by rewrite fail_status in Hst by apply (lv_status _ Hl3).
    + by rewrite complete_status in Hst by apply (lv_status _ Hl3).
Qed.

Lemma pending_more c p : pending c p -> outcome_of p = More.
Proof. intros [[_ ->]|Hr]; [done|]. apply (reading_more _ _ _ (rc_reading _ _ Hr)). Qed.

Lemma on_deadline_spec c p r :
  pending c p -> r_fire (c_reactor c) = Some (T, r) ->
  let c' := on_deadline (with_reactor c r) in
  over c' p /\ frees (c_reactor c) (c_reactor c') /\ c_inbox c' = c_inbox c.
Proof.
  intros Hp Hf. pose proof (pending_live _ _ Hp) as Hl. pose proof (pending_more _ _ Hp) as Hm.
  destruct Hl as [Hok (Hfd&Hreg&_) [Htm _] Hst (Hn&Hd&Hdone) _ _].
  destruct (fire_law _ _ _ Hok Hf) as (Hok1&Hw1&_&Ht1).
  destruct (remove_fd_law r fd Hok1) as (Hok2&Ht2&_).
  destruct c as [h r0 i o d]. destruct h. cbn in *. subst.
  unfold on_deadline, fail, with_reactor, with_h. cbn. unfold release_reactor. cbn. unfold finish. cbn.
  split; [|split; [|done]].
  - split; try done. apply verdict_lost; [done|done|]. cbn. rewrite !elem_of_cons. auto.
  - split; [done|]. split.
    + intros f. by rewrite remove_fd_watching, (same_watches_watched _ _ Hw1 f).
    + intros j. by rewrite (Ht2 j), Ht1.
Qed.

End run.

(** ** Runs *)

Section steps.
Context `{Evp} {R : Type} `{!Reactor R}.
Implicit Types c : conn R.

(** The peer's bytes arrive; the reactor calls back, with any answers of the
    kernel; other users of the reactor leave this object's watch and timer. *)
Inductive step : conn R -> bytes -> conn R -> Prop :=
| step_arrive c b :
    all_bytes b ->
    step c b (Conn (c_h c) (c_reactor c) (c_inbox c ++ b) (c_outbox c) (c_done c))
| step_ready sends recvs c c' :
    h_fd_registered (c_h c) = true -> on_event sends recvs c = Some c' -> step c [] c'
| step_deadline c r :
    h_deadline_timer (c_h c) <> CLOAK_TIMER_INVALID ->
    r_fire (c_reactor c) = Some (h_deadline_timer (c_h c), r) ->
    step c [] (on_deadline (with_reactor c r))
| step_other c r :
    reactor_ok r ->
    (h_fd_registered (c_h c) = true -> watching r (h_fd (c_h c))) ->
    (h_deadline_timer (c_h c) <> CLOAK_TIMER_INVALID -> armed r (h_deadline_timer (c_h c))) ->
    step c [] (with_reactor c r).

(** A run, with all the bytes that have arrived. *)
Inductive run : conn R -> bytes -> conn R -> Prop :=
| run_start c : run c [] c
| run_step c1 a c2 b c3 : run c1 a c2 -> step c2 b c3 -> run c1 (a ++ b) c3.

(** An object that [cloak_client_handshake_init] has prepared. *)
Record ready (h : cloak_client_handshake_t) (wire : bytes) : Prop := {
  rd_state : h_state h = CLOAK_CLIENT_HS_STATE_WRITE_HELLO;
  rd_status : h_status h = CLOAK_CLIENT_HANDSHAKE_PENDING;
  rd_held : h_fd_registered h = false /\ h_deadline_timer h = CLOAK_TIMER_INVALID;
  rd_report : h_notified h = false /\ h_on_done h = true;
  rd_sent : h_hello_sent h = 0;
  rd_reader : h_reader h = zero_reader /\ zlen (h_session_key h) = 32;
  rd_wire : (h_hello h).[0 +: h_hello_len h] = Some wire;
  rd_small : zlen wire < 65536
}.

End steps.

Section runs.
Context `{EvpLaws} {R : Type} `{!Reactor R} `{!ReactorLaws R}.
Implicit Types (c : conn R) (r : R).

Lemma start_spec h wire r i v c :
  ready h wire -> reactor_ok r -> cloak_client_handshake_start (Conn h r i [] []) = (v, c) ->
  c_inbox c = i /\ c_outbox c = [] /\ c_done c = [] /\
  (v = 0 /\ writing (h_fd h) wire (h_shared_secret h) (h_deadline_timer (c_h c)) c \/
   v = -1 /\ h_status (c_h c) = CLOAK_CLIENT_HANDSHAKE_FAILED /\ h_notified (c_h c) = true /\
   same_reactor r (c_reactor c)).
Proof.
  intros [Hst Hs [Hreg Htm] [Hn Hd] Hsent [Hrd Hk] Hw Hsm] Hok.
  pose proof (mem_read_inv _ _ _ _ Hw) as (_&Hpos&_&_&_).
  destruct h as [? fd ? ? ? ? ? ? ? ? ? ? ? ? ms ? ? ?]. cbn in *. subst.
  unfold cloak_client_handshake_start. cbn.
  destruct (r_add_fd r fd CLOAK_REACTOR_WRITABLE) as [v1 r1] eqn:Hadd. cbn.
  destruct (add_fd_law _ _ _ _ _ Hok Hadd) as (Hok1&Ht1&_). pose proof (add_fd_watching _ _ _ _ _ Hok Hadd) as Hw1.
  destruct (v1 =? 0); cbn [negb]; [|intros [= <- <-]; split_and!; try done; right; by split_and!].
  destruct (r_add_timer r1 ms) as [id r2] eqn:Htimer. cbn.
  destruct (add_timer_law _ _ _ _ Hok1 Htimer) as (Hok2&Hw2&Ht2).
  destruct (id =? CLOAK_TIMER_INVALID).
  - intros [= <- <-]. split_and!; try done. right. split_and!; try done. cbn.
    destruct (remove_fd_law r2 fd Hok2) as (_&Ht3&_). destruct Hw1 as [Hnw Hw1]. split.
    + intros f. rewrite remove_fd_watching, (same_watches_watched _ _ Hw2 f), Hw1 by done. split; [tauto|]. intros Hf. split; [by intros ->|by right].
    + intros j. by rewrite (Ht3 j), (Ht2 j), (Ht1 j).
  - intros [= <- <-]. split_and!; try done. left. split; [done|]. destruct Hw1 as [_ Hw1].
    destruct Ht2 as [_ Ht2]. split; cbn; try done.
    split; cbn; try done.
    + split_and!; [done..|]. apply (same_watches_watched _ _ Hw2), Hw1. by left.
    + split; [done|]. apply Ht2. by left.
Qed.

(** What is known of the object in any reachable state. *)
Definition sound (fd : Z) (wire secret : bytes) (T : Z) (arrived : bytes) (c : conn R) : Prop :=
  all_bytes arrived /\ exists p, arrived = p ++ c_inbox c /\
    (pending fd wire secret T c p \/ over wire secret c p).

Lemma over_inbox wire secret c p i :
  over wire secret c p -> over wire secret (Conn (c_h c) (c_reactor c) i (c_outbox c) (c_done c)) p.
Proof. intros [[]]; split; try done; by econstructor. Qed.

Lemma over_reactor wire secret c p r : over wire secret c p -> over wire secret (with_reactor c r) p.
Proof. intros [[]]; split; try done; by econstructor. Qed.

Lemma pending_inbox fd wire secret T c p i :
  pending fd wire secret T c p ->
  pending fd wire secret T (Conn (c_h c) (c_reactor c) i (c_outbox c) (c_done c)) p.
Proof.
  intros [[[[] ? ? ? ?] ?]|[[] ? ?]]; [left; split; [|done]|right]; split; try done; by split.
Qed.

Lemma pending_reactor fd wire secret T c p r :
  pending fd wire secret T c p -> reactor_ok r -> watching r fd -> armed r T ->
  pending fd wire secret T (with_reactor c r) p.
Proof.
  intros [[[[? (?&?&?) [] ? ? ? ?] ? ? ? ?] ?]|[[? (?&?&?) [] ? ? ? ?] ? ?]] ? ? ?;
    [left; split; [|done]|right]; split; try done; by split.
Qed.

Lemma sound_step fd wire secret T arrived c b c' :
  sound fd wire secret T arrived c -> step c b c' -> sound fd wire secret T (arrived ++ b) c'.
Proof.
  intros (Hb&p&->&Hp) Hstep. destruct (proj1 (all_bytes_app _ _) Hb) as [Hpb Hib].
  destruct Hstep as [c b Hbb|sends recvs c c' Hreg He|c r Htm Hf|c r Hok Hreg Htm].
  - split; [by apply all_bytes_app|]. exists p. split; [by rewrite <- app_assoc|].
    destruct Hp as [Hp|Hp]; [left; by apply pending_inbox|right; by apply over_inbox].
  - rewrite app_nil_r. split; [done|]. destruct Hp as [Hp|Hp]; [|by rewrite (ov_fd _ _ _ _ Hp) in Hreg].
    destruct (on_event_spec _ _ _ _ sends recvs c p Hp Hpb Hib) as (c1&got&He1&Hi&Hs).
    rewrite He1 in He. injection He as ->. exists (p ++ got). split; [by rewrite <- app_assoc, <- Hi|].
    destruct Hs as [[Hs _]|[Hs _]]; auto.
  - rewrite app_nil_r. split; [done|]. destruct Hp as [Hp|Hp]; [|by destruct Htm; apply (ov_timer _ _ _ _ Hp)].
    destruct (lv_timer _ _ _ _ (pending_live _ _ _ _ _ _ Hp)) as [HT _]. rewrite HT in Hf.
    destruct (on_deadline_spec _ _ _ _ c p r Hp Hf) as (Ho&_&Hi).
    exists p. rewrite Hi. split; [done|by right].
  - rewrite app_nil_r. split; [done|]. exists p. split; [done|].
    destruct Hp as [Hp|Hp]; [left|right; by apply over_reactor].
    pose proof (pending_live _ _ _ _ _ _ Hp) as Hl. pose proof (live_timer _ _ _ _ Hl) as HT.
    destruct Hl as [_ (Hfd&Hr&_) [Hid _] _ _ _ _]. rewrite Hfd in Hreg. rewrite Hid in Htm.
    apply pending_reactor; auto.
Qed.

Lemma run_sound fd wire secret T c0 arrived c :
  writing fd wire secret T c0 -> c_inbox c0 = [] -> run c0 arrived c -> sound fd wire secret T arrived c.
Proof.
  intros Hw Hi Hrun. induction Hrun as [c0|c0 a c1 b c2 _ IH Hs].
  - split; [constructor|]. exists []. rewrite Hi. split; [done|]. left. by left.
  - eapply sound_step; [|exact Hs]. by apply IH.
Qed.

End runs.

(** ** Properties *)

Section properties.
Context `{EvpLaws} {R : Type} `{!Reactor R} `{!ReactorLaws R}.
Context (h : cloak_client_handshake_t) (r : R) (wire : bytes) (c0 : conn R).

(** The handshake was prepared and started. *)
Definition started : Prop :=
  ready h wire /\ reactor_ok r /\ cloak_client_handshake_start (Conn h r [] [] []) = (0, c0).

Lemma started_sound arrived c :
  started -> run c0 arrived c ->
  sound (h_fd h) wire (h_shared_secret h) (h_deadline_timer (c_h c0)) arrived c.
Proof.
  intros (Hr&Hok&Hs) Hrun.
  destruct (start_spec _ _ _ _ _ _ Hr Hok Hs) as (Hi&_&_&[[_ Hw]|[? _]]); [|done].
  by eapply run_sound.
Qed.

Lemma run_exact arrived c :
  started -> run c0 arrived c ->
  (forall sends recvs, is_Some (on_event sends recvs c)) /\
  exists p, arrived = p ++ c_inbox c /\
    let o := reply_outcome (h_shared_secret h) 3 None p in
    (h_status (c_h c) = CLOAK_CLIENT_HANDSHAKE_PENDING /\ c_done c = [] /\ o = More /\
     c_outbox c `prefix_of` wire) \/
    (c_done c = [CLOAK_CLIENT_HANDSHAKE_DONE] /\ c_outbox c = wire /\
     o = Finished (h_session_key (c_h c)) []) \/
    (c_done c = [CLOAK_CLIENT_HANDSHAKE_FAILED] /\ c_outbox c = wire /\
     o = Refused (h_error (c_h c))) \/
    (c_done c = [CLOAK_CLIENT_HANDSHAKE_FAILED] /\ o = More /\
     h_error (c_h c) ∈ [CLOAK_CLIENT_HANDSHAKE_ERR_IO; CLOAK_CLIENT_HANDSHAKE_ERR_EOF;
                        CLOAK_CLIENT_HANDSHAKE_ERR_TIMEOUT]).
Proof.
  intros Hst Hrun. destruct (started_sound _ _ Hst Hrun) as (Hb&p&->&Hp).
  apply all_bytes_app in Hb as [Hpb Hib]. split.
  - intros sends recvs. destruct Hp as [Hp|[Hv _ _ _ _]].
    + destruct (on_event_spec _ _ _ _ sends recvs c p Hp Hpb Hib) as (c'&_&->&_). done.
    + unfold on_event. by destruct Hv as [-> _ _| -> _ _| -> _ _].
  - exists p. split; [done|]. cbv zeta. destruct Hp as [Hp|[Hv _ _ _ ->]].
    + left. split; [by eapply pending_status|]. split; [|split; [by eapply pending_more|]].
      * apply (lv_report _ _ _ _ (pending_live _ _ _ _ _ _ Hp)).
      * destruct Hp as [[Hw _]|Hr].
        -- rewrite (wr_outbox _ _ _ _ _ Hw). apply prefix_take.
        -- by rewrite (rc_outbox _ _ _ _ _ _ Hr).
    + right. destruct Hv as [-> ? ?| -> ? ?| -> ? ?]; [left|right; left|right; right]; by split_and!.
Qed.

(** C19: the handshake reads exactly the reply.  In every run, whatever the
    kernel accepts and delivers at a time, the object commits no undefined
    behaviour, and with [p] the bytes it has taken from the socket: while it is
    pending nothing is reported and the verdict on [p] is open; once it has
    ended it has reported exactly once, and either [p] is a complete reply, not
    a byte more, whose session key it holds, or [p] is refused with that
    verdict's error, or the verdict was open and the socket failed, was closed
    or the deadline passed.  A verdict is only reached after the whole
    ClientHello has been sent. *)
Theorem client_handshake_exact arrived c :
  started -> run c0 arrived c ->
  (forall sends recvs, is_Some (on_event sends recvs c)) /\
  exists p, arrived = p ++ c_inbox c /\
    let o := reply_outcome (h_shared_secret h) 3 None p in
    (h_status (c_h c) = CLOAK_CLIENT_HANDSHAKE_PENDING /\ c_done c = [] /\ o = More /\
     c_outbox c `prefix_of` wire) \/
    (c_done c = [CLOAK_CLIENT_HANDSHAKE_DONE] /\ c_outbox c = wire /\
     o = Finished (h_session_key (c_h c)) []) \/
    (c_done c = [CLOAK_CLIENT_HANDSHAKE_FAILED] /\ c_outbox c = wire /\
     o = Refused (h_error (c_h c))) \/
    (c_done c = [CLOAK_CLIENT_HANDSHAKE_FAILED] /\ o = More /\
     h_error (c_h c) ∈ [CLOAK_CLIENT_HANDSHAKE_ERR_IO; CLOAK_CLIENT_HANDSHAKE_ERR_EOF;
                        CLOAK_CLIENT_HANDSHAKE_ERR_TIMEOUT]).
Proof. apply run_exact. Qed.

(** C34: an ended handshake holds nothing.  An event of a pending handshake,
    readiness or the deadline, either leaves it pending with its watch and its
    deadline timer in place, or ends it: then its descriptor is not watched
    and the timer not armed any more, and in both cases the watches and timers
    of everybody else are what they were. *)
Theorem client_handshake_cleanup arrived c c' sends recvs r1 :
  started -> run c0 arrived c -> h_status (c_h c) = CLOAK_CLIENT_HANDSHAKE_PENDING ->
  on_event sends recvs c = Some c' \/
  r_fire (c_reactor c) = Some (h_deadline_timer (c_h c), r1) /\ c' = on_deadline (with_reactor c r1) ->
  let id := h_deadline_timer (c_h c) in
  (h_status (c_h c') = CLOAK_CLIENT_HANDSHAKE_PENDING /\ c_done c' = [] /\
   watching (c_reactor c') (h_fd h) /\ armed (c_reactor c') id /\
   same_watched (c_reactor c) (c_reactor c') /\ same_timers (c_reactor c) (c_reactor c')) \/
  (h_status (c_h c') <> CLOAK_CLIENT_HANDSHAKE_PENDING /\ c_done c' = [h_status (c_h c')] /\
   (forall f, watching (c_reactor c') f <-> f <> h_fd h /\ watching (c_reactor c) f) /\
   (forall i, armed (c_reactor c') i <-> i <> id /\ armed (c_reactor c) i)).
Proof.
  intros Hst Hrun Hpend Hev. destruct (started_sound _ _ Hst Hrun) as (Hb&p&->&Hp).
  apply all_bytes_app in Hb as [Hpb Hib].
  destruct Hp as [Hp|[Hv _ _ _ _]]; [|by destruct Hv as [Hv _ _|Hv _ _|Hv _ _]; rewrite Hv in Hpend].
  pose proof (pending_live _ _ _ _ _ _ Hp) as Hl. destruct (lv_timer _ _ _ _ Hl) as [HT _]. cbv zeta.
  assert (Hsettled : exists q, settled (h_fd h) wire (h_shared_secret h) (h_deadline_timer (c_h c)) c q c').
  { rewrite HT in Hev |- *. destruct Hev as [He|[Hf ->]].
    - destruct (on_event_spec _ _ _ _ sends recvs c p Hp Hpb Hib) as (c1&got&He1&_&Hs).
      rewrite He1 in He. injection He as ->. by exists (p ++ got).
    - exists p. right. destruct (on_deadline_spec _ _ _ _ c p r1 Hp Hf) as (?&?&_). done. }
  destruct Hsettled as [q [[Hq [Hw Ht]]|[Ho (_&Hw&Ht)]]]; [left|right].
  - pose proof (pending_live _ _ _ _ _ _ Hq) as Hl'. split; [by eapply pending_status|].
    split; [apply (lv_report _ _ _ _ Hl')|]. split; [apply (lv_fd _ _ _ _ Hl')|].
    split; [apply (lv_timer _ _ _ _ Hl')|done].
  - split; [|split; [apply (ov_done _ _ _ _ Ho)|done]].
    by destruct (ov_verdict _ _ _ _ Ho) as [-> _ _| -> _ _| -> _ _].
Qed.

(** A reply that has arrived completes the handshake.  When the
    ClientHello is out and the bytes that have arrived hold a complete reply,
    then one readiness event in which the kernel delivers, in pieces of any
    size, ends the handshake in success: it reports once, holds the session
    key of the reply, and leaves in the socket exactly what follows the reply. *)
Theorem client_handshake_completes arrived c sends recvs key rest :
  started -> run c0 arrived c -> h_status (c_h c) = CLOAK_CLIENT_HANDSHAKE_PENDING ->
  h_state (c_h c) <> CLOAK_CLIENT_HS_STATE_WRITE_HELLO ->
  reply_outcome (h_shared_secret h) 3 None arrived = Finished key rest ->
  Forall delivers recvs -> zlen (c_inbox c) <= zlen recvs ->
  exists c', on_event sends recvs c = Some c' /\
    c_done c' = [CLOAK_CLIENT_HANDSHAKE_DONE] /\ c_inbox c' = rest /\
    cloak_client_handshake_session_key (Some (c_h c')) = Some key.
Proof.
  intros Hst Hrun Hpend Hstate Ho Hd Hlen. destruct (started_sound _ _ Hst Hrun) as (Hb&p&->&Hp).
  apply all_bytes_app in Hb as [Hpb Hib].
  destruct Hp as [[[Hw _]|Hr]|[Hv _ _ _ _]];
    [by destruct Hstate; apply (wr_state _ _ _ _ _ Hw)| |
     by destruct Hv as [Hv _ _|Hv _ _|Hv _ _]; rewrite Hv in Hpend].
  destruct (do_read_all _ _ _ _ recvs c p key rest Hr Hpb Hib Hd Hlen Ho) as (c1&Hread&Hl1&Hi1&Hk1).
  exists (finish (complete c1)). unfold on_event. rewrite Hpend, Z.eqb_refl. cbn [negb andb].
  rewrite (proj2 (Z.eqb_neq _ _) Hstate). cbn [mbind option_bind].
  rewrite Hpend, Z.eqb_refl. cbn [andb].
  destruct (reading_state _ _ _ (rc_reading _ _ _ _ _ _ Hr)) as [-> _]. rewrite Hread.
  split; [done|]. erewrite finish_complete by done. split; [done|]. split; [done|].
  cbn. by rewrite Hk1.
Qed.

End properties.
