(* ===== verification/ClientInit.v ===== *)
(** * Preparing a handshake ([cloak_client_handshake_init])

    The configuration becomes a framed ClientHello: the server name is chosen
    or drawn, the proof of identity is sealed, and the browser's hello carries
    it. *)
From S2P Require Import Prelude Fallible Buffer Aead X25519 Random ClientAuth ServerAuth ClientHelloTemplates ClientHello ClientHelloSteps ClientHelloParse ClientHelloLayout ClientHelloBuild Http ReactorApi ClientTransport ClientReply ClientHandshake.

(** ** The composition does not change the size of its buffer *)

Lemma mem_set_length {A} (l l' : list A) i x : mem_set l i x = Some l' -> zlen l' = zlen l.
Proof. intros E. by destruct (mem_set_get _ _ _ _ 0 E). Qed.

Lemma mem_write_length {A} (l l' : list A) i s : l.[i <- s] = Some l' -> zlen l' = zlen l.
Proof. by intros (_&_&?&_)%mem_write_inv. Qed.

(** Go through a sequence of binds that ends in success. *)
Ltac run_binds :=
  repeat match goal with
  | H : mbind _ _ = Some _ |- _ => apply bind_Some in H as (?&?&H)
  | H : context [match ?x with pair _ _ => _ end] |- _ => is_var x; destruct x
  | H : context [let '(_, _) := ?x in _] |- _ => destruct x
  | H : pbind ?m _ = Some (Some _) |- _ =>
      let E := fresh "E" in destruct m as [[?|]|] eqn:E; cbn [pbind] in H; [|discriminate H..]
  | H : Some _ = Some _ |- _ => injection H as H
  | H : (_, _) = (_, _) |- _ => injection H as ? ?
  | H : _ /\ _ |- _ => destruct H
  | H : None = Some _ |- _ => discriminate H
  | H : Some None = Some (Some _) |- _ => discriminate H
  | H : context [if ?b then _ else _] |- _ => let E := fresh "E" in destruct b eqn:E
  end; subst.

Create HintDb cloak_size.
Ltac sizes :=
  repeat match goal with
  | H : _.[_ <- _] = Some _ |- _ => apply mem_write_length in H
  | H : mem_set _ _ _ = Some _ |- _ => apply mem_set_length in H
  end;
  eauto with cloak_size; try congruence.

Lemma patch_be16_size out p d out' : patch_be16_delta out p d = Some out' -> zlen out' = zlen out.
Proof. unfold patch_be16_delta. intros. run_binds. sizes. Qed.

Lemma patch_be24_size out p d out' : patch_be24_delta out p d = Some out' -> zlen out' = zlen out.
Proof. unfold patch_be24_delta. intros. run_binds. sizes. Qed.

Lemma store_be16_size out p v out' :
  ClientHello.store_be16 out p v = Some out' -> zlen out' = zlen out.
Proof. apply mem_write_length. Qed.

Ltac sized :=
  repeat match goal with
  | H : patch_be16_delta _ _ _ = Some _ |- _ => apply patch_be16_size in H
  | H : patch_be24_delta _ _ _ = Some _ |- _ => apply patch_be24_size in H
  | H : ClientHello.store_be16 _ _ _ = Some _ |- _ => apply store_be16_size in H
  end; sizes.

Lemma mlkem_loop_size iters fuel out p i r out' r' :
  mlkem_loop iters fuel out p i r = Some (out', r') -> zlen out' = zlen out.
Proof.
  revert out i r. induction iters as [|iters IH]; intros out i r; cbn [mlkem_loop]; intros Hm; case_if_in Hm.
  - done.
  - by injection Hm as <- <-.
  - run_binds. apply IH in Hm. sized.
  - by injection Hm as <- <-.
Qed.

Section size.
Context `{EvpX25519} `{EvpP256}.

Lemma refill_regions_size rs off d out r out' r' :
  refill_regions rs off d out r = Some (Some (out', r')) -> zlen out' = zlen out.
Proof.
  revert out r. induction rs as [|rg rs IH]; intros out r; cbn [refill_regions].
  - by intros [= <- <-].
  - unfold fill_x25519_canonical. intros Hf.
    destruct (rg_kind rg =? _); cbn zeta in Hf.
    + destruct (cloak_random_bytes 32 r) as [seed r1].
      destruct (cloak_x25519_generate_keypair seed) as [[? pub]|]; [|done].
      destruct (out.[_ <- pub]) as [out1|] eqn:Hw; [|done]. cbn [mbind option_bind pbind] in Hf.
      apply IH in Hf. sized.
    + destruct (cloak_random_bytes (rg_len rg) r) as [fill r1].
      destruct (out.[_ <- fill]) as [out1|] eqn:Hw; [|done]. cbn [mbind option_bind pbind] in Hf.
      apply IH in Hf. sized.
Qed.

Lemma fill_mlkem_size fuel out p r out' r' :
  fill_mlkem768_ek fuel out p r = Some (out', r') -> zlen out' = zlen out.
Proof.
  unfold fill_mlkem768_ek. intros Hf. apply bind_Some in Hf as ([out1 r1]&Hl%mlkem_loop_size&Hf).
  destruct (cloak_random_bytes _ r1) as [seed r2]. run_binds; sized.
Qed.

Lemma fill_aead_size out p cs r out' r' :
  fill_aead_id_choice out p cs r = Some (out', r') -> zlen out' = zlen out.
Proof.
  unfold fill_aead_id_choice. intros Hf. destruct (cloak_random_bytes 1 r) as [b r1]. run_binds; sized.
Qed.

Lemma fill_typed_size fuel tmpl d out r out' r' :
  fill_typed fuel tmpl d out r = Some (Some (out', r')) -> zlen out' = zlen out.
Proof.
  unfold fill_typed. intros Hf.
  match type of Hf with pbind ?m _ = _ => destruct m as [[[out1 r1]|]|] eqn:Hp; [|done..] end.
  cbn [pbind] in Hf. apply bind_Some in Hf as ([out2 r2]&Hm&Hf).
  apply bind_Some in Hf as ([out3 r3]&Ha&Hf). injection Hf as <- <-.
  transitivity (zlen out2); [|transitivity (zlen out1)].
  - case_if_in Ha; [by apply fill_aead_size in Ha|by injection Ha as <- _].
  - case_if_in Hm; [by apply fill_mlkem_size in Hm|by injection Hm as <- _].
  - case_if_in Hp; [|by injection Hp as <- _].
    destruct (generate_secp256r1_point r) as [[point|] r4]; [|done]. run_binds; sized.
Qed.

Lemma write_grease_size ps off d seed out out' :
  write_grease ps off d seed out = Some out' -> zlen out' = zlen out.
Proof.
  revert out. induction ps as [|gp ps IH]; intros out; cbn [write_grease]; intros Hw.
  - by injection Hw as <-.
  - run_binds. apply IH in Hw. sized.
Qed.

Lemma write_padding_size tmpl d pd np out out' :
  write_padding tmpl d pd np out = Some out' -> zlen out' = zlen out.
Proof. unfold write_padding. intros. run_binds; sized. Qed.

Lemma resize_ech_size tmpl d len ed chosen out r out' r' :
  resize_ech tmpl d len ed chosen out r = Some (Some (out', r')) -> zlen out' = zlen out.
Proof.
  unfold resize_ech. intros Hf. case_if_in Hf; [|by injection Hf as <- _].
  apply bind_Some in Hf as (base&_&Hf). case_if_in Hf; [done|].
  apply bind_Some in Hf as (tail&_&Hf). apply bind_Some in Hf as (out1&K1&Hf).
  destruct (cloak_random_bytes chosen r) as [payload r1]. run_binds; sized.
Qed.

Lemma build_size fuel tmpl random sid share name out r n out' r' :
  cloak_clienthello_build fuel tmpl random sid share name out r = Some (Some (n, out', r')) ->
  zlen out' = zlen out.
Proof.
  unfold cloak_clienthello_build. destruct (cloak_random_bytes _ r) as [seed r0].
  unfold cloak_clienthello_build_with_grease_seed. intros Hb.
  apply bind_Some in Hb as (hl&_&Hb). case_if_in Hb; [done|]. case_if_in Hb; [done|].
  destruct (padding_plan _ _) as [pd np].
  apply bind_Some in Hb as ([[ed ch] r1]&_&Hb). case_if_in Hb; [done|].
  apply bind_Some in Hb as (o1&K1&Hb). apply bind_Some in Hb as (o2&K2&Hb).
  apply bind_Some in Hb as (o3&K3&Hb).
  match type of Hb with pbind ?m _ = _ => destruct m as [[[o4 r4]|]|] eqn:K4; [|done..] end.
  cbn [pbind] in Hb.
  match type of Hb with pbind ?m _ = _ => destruct m as [[[o5 r5]|]|] eqn:K5; [|done..] end.
  cbn [pbind] in Hb.
  match type of Hb with pbind ?m _ = _ => destruct m as [[[o6 r6]|]|] eqn:K6; [|done..] end.
  cbn [pbind] in Hb. injection Hb as <- <- <-.
  apply refill_regions_size in K4. apply fill_typed_size in K5.
  unfold splice_copy in K1. unfold splice_lengths in K2. unfold splice_auth in K3. unfold write_tail in K6.
  apply bind_Some in K6 as (o7&K7%write_grease_size&K6). apply bind_Some in K6 as (o8&K8%write_padding_size&K6).
  apply resize_ech_size in K6. rewrite K6, K8, K7, K5, K4. clear K4 K5 K6 K7 K8.
  run_binds; sized.
Qed.

End size.

(** ** The random server name *)

Definition letter (x : Z) : Prop := 97 <= x <= 122.

(** Names that [cloak_client_random_server_name] can produce. *)
Definition random_name (host : bytes) : Prop :=
  exists letters tld, host = letters ++ 46 :: tld /\ 3 <= zlen letters <= 12 /\
    Forall letter letters /\ tld ∈ cloak_client_top_level_domains.

Lemma random_below_spec n r :
  0 < n -> exists v r', random_below n r = (v, r') /\ 0 <= v < n /\ later r r'.
Proof.
  intros Hn. unfold random_below. destruct (cloak_random_bytes 8 r) as [b r'] eqn:Hb.
  do 2 eexists. split; [done|]. split; [by apply Z.mod_pos_bound|by eapply later_draw].
Qed.

Lemma random_letters_spec n pre old rest r :
  length old = n ->
  exists ls r', random_letters n (zlen pre) (pre ++ old ++ rest) r = Some (pre ++ ls ++ rest, r') /\
    length ls = n /\ Forall letter ls /\ later r r'.
Proof.
  revert pre old r. induction n as [|n IH]; intros pre old r Hl.
  - destruct old; [|done]. exists [], r. split_and!; try done. apply later_refl.
  - destruct old as [|x old]; [done|]. injection Hl as Hl. cbn [random_letters].
    destruct (random_below_spec 26 r ltac:(done)) as (v&r1&->&Hv&Hr1).
    cbn [app]. rewrite mem_set_app by done. cbn [mbind option_bind].
    replace (zlen pre + 1) with (zlen (pre ++ [97 + v])) by (by rewrite zlen_app).
    replace (pre ++ (97 + v) :: old ++ rest) with ((pre ++ [97 + v]) ++ old ++ rest)
      by (by rewrite <- app_assoc).
    destruct (IH (pre ++ [97 + v]) old r1 Hl) as (ls&r'&->&Hls&Hf&Hr').
    exists ((97 + v) :: ls), r'. rewrite <- app_assoc. split; [done|]. split; [cbn; lia|].
    split; [|by eapply later_trans]. constructor; [unfold letter; lia|done].
Qed.

Lemma tld_facts tld :
  tld ∈ cloak_client_top_level_domains -> 2 <= zlen tld <= 4 /\ Forall letter tld.
Proof.
  assert (Hall : Forall (fun t => 2 <= zlen t <= 4 /\ Forall letter t) cloak_client_top_level_domains).
  { unfold cloak_client_top_level_domains. repeat constructor; vm_compute; try discriminate;
      intros; discriminate. }
  rewrite Forall_forall in Hall. apply Hall.
Qed.

Lemma random_name_facts host :
  random_name host -> 1 <= zlen host <= 253 /\ no_nul host /\ all_bytes host.
Proof.
  intros (ls&tld&->&Hl&Hf&Ht%tld_facts). destruct Ht as [Ht Hft].
  assert (Hall : Forall (fun x => x <> 0 /\ is_byte x) (ls ++ 46 :: tld)).
  { apply Forall_app. split; [|constructor; [unfold is_byte; lia|]];
      (eapply Forall_impl; [eassumption|]); unfold letter, is_byte; intros; lia. }
  rewrite zlen_app, zlen_cons. split; [lia|].
  split; (eapply Forall_impl; [exact Hall|]); intros x [? ?]; done.
Qed.

Lemma random_server_name_stores out r :
  CLOAK_CLIENT_RANDOM_SERVER_NAME_MAX <= zlen out ->
  exists host junk r',
    cloak_client_random_server_name (Some out) r = Some (0, Some (c_block host junk), r') /\
    random_name host /\ zlen (c_block host junk) = zlen out /\ later r r'.
Proof.
  unfold CLOAK_CLIENT_RANDOM_SERVER_NAME_MAX. intros Hout. unfold cloak_client_random_server_name.
  unfold CLOAK_CLIENT_RANDOM_SERVER_NAME_MAX. decide_cmp.
  destruct (random_below_spec 10 r ltac:(done)) as (k&r1&->&Hk&Hr1).
  destruct (zlen_split out (3 + k)) as (old&out1&->&Hol&Ho1); [lia|].
  destruct (random_letters_spec (Z.to_nat (3 + k)) [] old out1 r1) as (ls&r2&Hls&Hll&Hlf&Hr2).
  { unfold zlen in Hol. lia. }
  cbn [app] in Hls. change (zlen (@nil Z)) with 0 in Hls. rewrite Hls. cbn [mbind option_bind].
  assert (Hzl : zlen ls = 3 + k) by (unfold zlen; lia). rewrite zlen_app in *.
  destruct out1 as [|x out1]; [unfold zlen in Ho1, Hout; cbn in *; lia|].
  rewrite mem_set_app by done. cbn [mbind option_bind].
  destruct (random_below_spec CLOAK_CLIENT_TLD_COUNT r2 ltac:(done)) as (t&r3&->&Ht&Hr3).
  destruct (mem_get_Some cloak_client_top_level_domains t) as [tld Htld]; [exact Ht|].
  rewrite Htld. cbn [mbind option_bind].
  assert (Hin : tld ∈ cloak_client_top_level_domains).
  { apply mem_get_inv in Htld as [_ Htld]. by eapply list_elem_of_lookup_2. }
  destruct (tld_facts tld Hin) as [Htl _]. rewrite zlen_cons in *.
  destruct (zlen_split out1 (zlen tld)) as (o2&o3&->&Ho2&Ho3); [lia|].
  destruct o3 as [|y o3]; [unfold zlen in Ho3; cbn in Ho3; unfold zlen in *; lia|].
  replace (ls ++ 46 :: o2 ++ y :: o3) with ((ls ++ [46]) ++ o2 ++ y :: o3) by (by rewrite <- app_assoc).
  rewrite mem_write_app by (done || (rewrite zlen_app; change (zlen [46]) with 1; lia)).
  cbn [mbind option_bind]. rewrite (app_assoc _ tld), mem_set_app
    by (rewrite !zlen_app; change (zlen [46]) with 1; lia).
  cbn [mbind option_bind]. exists ((ls ++ [46]) ++ tld), o3, r3. split; [done|]. split_and!.
  - exists ls, tld. rewrite <- app_assoc. split_and!; done || lia.
  - unfold c_block. rewrite !zlen_app, !zlen_cons in *. change (@zlen Z []) with 0. lia.
  - by eapply later_trans; [exact Hr1|eapply later_trans].
Qed.

(** a drawn server name is a host name.  For any buffer of the documented
    size, whatever the generator hands out, three to twelve letters, a dot and
    a listed top-level domain are written, terminated, and nothing is stored
    behind the buffer. *)
Theorem random_server_name_ok out r :
  CLOAK_CLIENT_RANDOM_SERVER_NAME_MAX <= zlen out ->
  exists host junk r',
    cloak_client_random_server_name (Some out) r = Some (0, Some (c_block host junk), r') /\
    random_name host /\ zlen (c_block host junk) = zlen out /\ later r r'.
Proof. apply random_server_name_stores. Qed.

Lemma random_server_name_ok_witness :
  exists host junk r',
    cloak_client_random_server_name (Some (replicate 18 0)) (fun i => Z.of_nat i mod 256) =
      Some (0, Some (c_block host junk), r') /\ random_name host.
Proof.
  destruct (random_server_name_ok (replicate 18 0) (fun i => Z.of_nat i mod 256) ltac:(done))
    as (host&junk&r'&Hr&Hn&_).
  exists host, junk, r'. split; [exact Hr|exact Hn].
Defined.

(** ** The name that is presented *)

Definition asks_random (name : bytes) : Prop :=
  map ascii_lower name = map ascii_lower (c_string "random").

(** [host] is presented when [name] is configured. *)
Definition presents (name host : bytes) : Prop :=
  (asks_random name /\ random_name host) \/ (~ asks_random name /\ host = name).

Lemma strcaseeq_spec name junk :
  no_nul name ->
  strcaseeq (c_block name junk) (c_block (c_string "random") []) =
    Some (bool_decide (asks_random name)).
Proof.
  intros Hn. unfold strcaseeq. rewrite !strlen_c_block by (done || (repeat constructor; done)).
  cbn [mbind option_bind]. do 2 f_equal.
  unfold asks_random, c_block. by rewrite !zlen_length, !take_app_length.
Qed.

Lemma choose_server_name_ok name junk r :
  1 <= zlen name <= 253 -> no_nul name -> all_bytes name ->
  exists host rest r',
    choose_server_name (c_block name junk) (replicate 254 0) r = Some (Some (c_block host rest, r')) /\
    presents name host /\ later r r' /\ 1 <= zlen host <= 253 /\ no_nul host /\ all_bytes host.
Proof.
  intros Hl Hn Hb. unfold choose_server_name. rewrite strcaseeq_spec by done. cbn [mbind option_bind].
  case_bool_decide as Hr.
  - destruct (random_server_name_stores (replicate 254 0) r ltac:(done))
      as (host&rest&r'&->&Hh&_&Hlat). cbn [mbind option_bind Z.eqb negb].
    exists host, rest, r'. split; [done|]. split; [by left|]. split; [done|]. by apply random_name_facts.
  - rewrite strlen_c_block by done. cbn [mbind option_bind].
    unfold CLOAK_CLIENT_SERVER_NAME_MAX. decide_cmp. cbn [orb].
    exists name, (drop (Z.to_nat (zlen name + 1)) (replicate 254 0)), r.
    unfold c_block. change (name ++ 0 :: junk) with (name ++ [0] ++ junk).
    rewrite app_assoc, mem_read_head by (rewrite zlen_app; done). cbn [mbind option_bind].
    assert (Hw : (replicate 254 0).[0 <- name ++ [0]] =
      Some ((name ++ [0]) ++ drop (Z.to_nat (zlen name + 1)) (replicate 254 0))).
    { rewrite mem_write_Some by (rewrite ?zlen_app, ?zlen_replicate; change (zlen [0]) with 1; lia).
      cbn [Z.to_nat Nat.add]. rewrite take_0. cbn [app].
      replace (length (name ++ [0])) with (Z.to_nat (zlen name + 1)); [done|].
      rewrite length_app. unfold zlen. cbn [length]. lia. }
    rewrite Hw. cbn [mbind option_bind]. rewrite <- app_assoc. split; [done|].
    split; [by right|]. split; [apply later_refl|done].
Qed.

(** ** Initialisation *)

Section init.
Context `{EvpLaws} `{X25519Laws} `{P256Laws} `{!KeygenAvailable}.

(** A configuration that asks for the identity [a], the browser [b] and the
    server name [name], for a server with the private key [server_priv]. *)
Record config_ok (cfg : cloak_client_handshake_config_t) (a : auth_fields) (b : browser)
    (name server_priv : bytes) : Prop := {
  co_pointers : cfg_reactor cfg = true /\ 0 <= cfg_fd cfg /\ cfg_on_done cfg = true;
  co_browser : template_for (cfg_browser cfg) = Some (template_of b);
  co_name : 1 <= zlen name <= 253 /\ no_nul name /\ all_bytes name /\
            exists junk, cfg_server_name cfg = Some (c_block name junk);
  co_method : exists junk, cfg_proxy_method cfg = Some (c_block (af_proxy_method a) junk);
  co_auth : auth_fields_ok a /\ cfg_uid cfg = af_uid a /\
            cfg_encryption_method cfg = af_encryption_method a /\
            cfg_session_id cfg = af_session_id a /\ cfg_now_unix cfg = af_time a /\
            af_unordered a = negb (cfg_unordered cfg =? 0);
  co_server : keypair server_priv (cfg_server_pub cfg)
}.

Lemma mem_read_rest (l l' : bytes) i n : i = zlen l -> n = zlen l' -> (l ++ l').[i +: n] = Some l'.
Proof. intros. rewrite <- (app_nil_r l') at 1. by apply mem_read_app. Qed.

Lemma mem_write_rest (l l' s : bytes) i :
  i = zlen l -> zlen s = zlen l' -> (l ++ l').[i <- s] = Some (l ++ s).
Proof.
  intros. rewrite <- (app_nil_r l'), mem_write_app by done. by rewrite app_nil_r.
Qed.

Lemma frame_hello_spec h5 msg rest n :
  zlen h5 = 5 -> 0 <= n < 65536 ->
  frame_hello (h5 ++ msg ++ rest) n = Some ([22; 3; 1] ++ be_bytes 2 n ++ msg ++ rest).
Proof.
  intros (t&a&b&hi&lo&->)%five_bytes Hn. unfold frame_hello, store_be16. cbn [app].
  rewrite !u16_small by done. change (be_bytes 2 n) with [n / 256 mod 256; n mod 256].
  assert (Hhi : u8 (Z.shiftr n 8) = n / 256 mod 256) by (by rewrite Z.shiftr_div_pow2).
  assert (Hlo : Z.land n 255 = n mod 256) by (by apply (Z.land_ones n 8)).
  rewrite Hhi, Hlo.
  set (l := msg ++ rest).
  change (t :: a :: b :: hi :: lo :: l) with ([] ++ t :: a :: b :: hi :: lo :: l).
  rewrite mem_set_app by done. cbn [app mbind option_bind].
  change (22 :: a :: b :: hi :: lo :: l) with ([22] ++ a :: b :: hi :: lo :: l).
  rewrite mem_set_app by done. cbn [app mbind option_bind].
  change (22 :: 3 :: b :: hi :: lo :: l) with ([22; 3] ++ b :: hi :: lo :: l).
  rewrite mem_set_app by done. cbn [app mbind option_bind].
  change (22 :: 3 :: 1 :: hi :: lo :: l) with ([22; 3; 1] ++ hi :: lo :: l).
  rewrite mem_set_app by done. cbn [app mbind option_bind Z.add Pos.add Pos.succ].
  change (22 :: 3 :: 1 :: n / 256 mod 256 :: lo :: l)
    with ([22; 3; 1; n / 256 mod 256] ++ lo :: l).
  by rewrite mem_set_app.
Qed.

Lemma client_init_ok fuel cfg a b name server_priv seed priv pub r :
  config_ok cfg a b name server_priv -> cloak_x25519_generate_keypair seed = Some (priv, pub) ->
  tape_ok fuel r ->
  exists h r' host ct d,
    let msg := message (hello_of b [0; 0] host pub (take 32 ct) (drop 32 ct) d) in
    cloak_client_handshake_init fuel (Some cfg) seed r = Some (0, h, r') /\
    ready h (records (zlen msg) msg) /\ h_fd h = cfg_fd cfg /\
    0 < zlen msg <= 2054 /\
    presents name host /\ 1 <= zlen host <= 253 /\ all_bytes host /\
    drawn_ok (payload_lens b) d /\
    zlen pub = 32 /\ all_bytes pub /\ zlen ct = 64 /\ all_bytes ct /\
    zlen (h_shared_secret h) = 32 /\ all_bytes (h_shared_secret h) /\
    cloak_x25519_shared_secret server_priv pub = Some (h_shared_secret h) /\
    cloak_aead_open CLOAK_AEAD_AES_256_GCM (h_shared_secret h) (take 12 pub) [] ct =
      Some (auth_text a).
Proof.
  intros [(Hre&Hfd&Hod) Hbr (Hnl&Hnn&Hnb&junk&Hname) (junkm&Hmeth) (Ha&Hu&He&Hs&Ht&Hun) Hserver] Hseed Htape.
  destruct (client_auth_build_ok a (cfg_unordered cfg) junkm _ _ _ _ _ Ha Hun Hserver Hseed)
    as (ct&secret&Hauth&Hpl&Hpb&Hcl&Hcb&Hsl&Hsb&Hsec&Hopen).
  destruct (choose_server_name_ok name junk r Hnl Hnn Hnb)
    as (host&rest&r1&Hchoose&Hpres&Hlater&Hhl&Hhn&Hhb).
  assert (Htape1 : tape_ok fuel r1) by (by eapply tape_ok_later).
  set (out0 := replicate (Z.to_nat CLOAK_CLIENTHELLO_MAX_BYTES) 0).
  assert (Hin : build_inputs fuel host pub (take 32 ct) (drop 32 ct) out0 r1).
  { split; try done.
    - split; [unfold zlen in *; rewrite length_take; lia|by apply Forall_take].
    - split; [unfold zlen in *; rewrite length_drop; lia|by apply Forall_drop]. }
  destruct (build_ok b fuel host rest pub (take 32 ct) (drop 32 ct) out0 r1 [0; 0] Hin eq_refl)
    as (d&tail&r'&Hbuild&Hd&_&Hmsg). cbv zeta in Hbuild, Hmsg.
  pose proof (build_size _ _ _ _ _ _ _ _ _ _ _ Hbuild) as Hsize.
  unfold cloak_client_handshake_init. rewrite Hname, Hmeth, Hre, Hod, Hbr. cbn [negb orb].
  decide_cmp. cbn [orb]. destruct (ao_method _ Ha) as (Hml&Hmn&_).
  rewrite strlen_c_block by done. cbn [mbind option_bind]. unfold CLOAK_PROXY_METHOD_LEN. decide_cmp.
  change (h_server_name handshake_blank) with (replicate 254 0). rewrite Hchoose. cbn [mbind option_bind].
  rewrite Hu, He, Hs, Ht, Hauth. cbn [mbind option_bind Z.eqb negb ap_random ap_ciphertext].
  rewrite !(mem_read_Some ct) by lia. cbn [mbind option_bind]. change (Z.to_nat 0) with 0%nat. rewrite drop_0.
  change (Z.to_nat 32) with 32%nat. rewrite (take_ge (drop 32 ct)) by (unfold zlen in Hcl; rewrite length_drop; lia).
  assert (Hblank : h_hello handshake_blank = replicate 5 0 ++ out0) by done. rewrite Hblank.
  assert (Hl : zlen (replicate 5 0 ++ out0) = 2181) by done. rewrite Hl.
  rewrite mem_read_rest by done. cbn [mbind option_bind]. rewrite Hbuild. cbn [mbind option_bind]. set (msg := message _) in *. decide_cmp.
  rewrite mem_write_rest by done. cbn [mbind option_bind].
  rewrite frame_hello_spec by (done || lia). cbn [mbind option_bind].
  assert (Hrec : zlen (records (zlen msg) msg) = 5 + zlen msg).
  { unfold records. rewrite !zlen_app, zlen_be_bytes. change (zlen [22; 3; 1]) with 3. lia. }
  eexists _, r', host, ct, d. cbv zeta. fold msg. split; [reflexivity|]. cbn [h_fd h_shared_secret].
  split; [|split_and!; done || lia].
  split; try done; [|rewrite Hrec; lia]. cbn [h_hello h_hello_len].
  rewrite <- Hrec. rewrite (app_assoc _ msg), (app_assoc [22; 3; 1]). by apply mem_read_head.
Qed.

End init.
