(* ===== verification/Handshake.v ===== *)
(** * The whole handshake

    Client and server put together: the ClientHello the client prepares is one
    complete first packet for the server, whose parser and decryption recover
    the client's identity and secret, and the reply the server composes gives
    the client the session key the server chose. *)
From S2P Require Import Prelude Fallible Buffer Aead X25519 Random ClientAuth ServerAuth ClientHelloTemplates ClientHello ClientHelloSteps FirstPacket ClientHelloParse ClientHelloLayout ClientHelloBuild ReactorApi ClientTransport ClientReply ClientHandshake ClientInit.

(** ** The server's view of the client's record *)

Lemma be_bytes_2 n : be_bytes 2 n = [n / 256 mod 256; n mod 256].
Proof. done. Qed.

Lemma records_complete msg :
  0 < zlen msg <= 2995 -> classify (records (zlen msg) msg) = Complete.
Proof.
  intros Hn. unfold records, classify. rewrite be_bytes_2. cbn [app Z.eqb Pos.eqb].
  unfold record_len. cbn [nth]. rewrite !zlen_cons.
  assert (Hv : zlen msg / 256 mod 256 * 256 + zlen msg mod 256 = zlen msg) by dlia.
  rewrite Hv. decide_cmp. cbn [orb]. by decide_cmp.
Qed.

(** ** The client's view of the server's reply *)

Section reply.
Context `{EvpLaws} (secret : bytes).

Lemma outcome_tls_record n key type body s :
  zlen body < 65536 -> header_refused (is_first key) type (zlen body) = false ->
  reply_outcome secret (S n) key (tls_record type body ++ s) =
    match key_after secret key body with
    | Some key => reply_outcome secret n (Some key) s
    | None => Refused CLOAK_CLIENT_HANDSHAKE_ERR_AUTH
    end.
Proof.
  intros Hl Href. unfold tls_record. rewrite be_bytes_2.
  pose proof (outcome_record secret n key [type; 3; 3; zlen body / 256 mod 256; zlen body mod 256]
    body (zlen body) s) as Hout.
  cbn [app] in *. zlen_pos. apply Hout; [|done].
  exists type, 3, 3, (zlen body / 256 mod 256), (zlen body mod 256). split; [done|]. split; [dlia|done].
Qed.

Lemma sealed_key_reply nonce enc sid pad :
  zlen nonce = 12 -> zlen enc = 48 -> zlen sid = 32 -> zlen pad = 4 ->
  sealed_key secret (server_hello nonce enc sid pad) =
    cloak_aead_open CLOAK_AEAD_AES_256_GCM secret nonce [] enc.
Proof.
  intros Hn He Hs Hp. unfold sealed_key.
  set (hello := server_hello nonce enc sid pad).
  assert (Hcut : forall pre mid post off, hello = pre ++ mid ++ post -> off = length pre ->
    take (length mid) (drop off hello) = mid).
  { intros pre mid post off -> ->. by rewrite drop_app_length, take_app_length. }
  assert (H20 : length (take 20 enc) = 20%nat) by (unfold zlen in *; rewrite length_take; lia).
  assert (H28 : length (drop 20 enc) = 28%nat) by (unfold zlen in *; rewrite length_drop; lia).
  assert (E1 : take 12 (drop 6 hello) = nonce).
  { replace 12%nat with (length nonce) by (unfold zlen in Hn; lia).
    by apply (Hcut [2; 0; 0; 118; 3; 3] _ (take 20 enc ++ [32] ++ sid ++
      [19; 2; 0; 0; 46; 0; 51; 0; 36; 0; 29; 0; 32] ++ drop 20 enc ++ pad ++ [0; 43; 0; 2; 3; 4])). }
  assert (E2 : take 20 (drop 18 hello) = take 20 enc).
  { rewrite <- H20 at 1. apply (Hcut ([2; 0; 0; 118; 3; 3] ++ nonce) _ ([32] ++ sid ++
      [19; 2; 0; 0; 46; 0; 51; 0; 36; 0; 29; 0; 32] ++ drop 20 enc ++ pad ++ [0; 43; 0; 2; 3; 4])).
    - unfold hello, server_hello. by rewrite <- !app_assoc.
    - rewrite length_app. unfold zlen in Hn. cbn. lia. }
  assert (E3 : take 28 (drop 84 hello) = drop 20 enc).
  { rewrite <- H28 at 1. apply (Hcut ([2; 0; 0; 118; 3; 3] ++ nonce ++ take 20 enc ++ [32] ++ sid ++
      [19; 2; 0; 0; 46; 0; 51; 0; 36; 0; 29; 0; 32]) _ (pad ++ [0; 43; 0; 2; 3; 4])).
    - unfold hello, server_hello. by rewrite <- !app_assoc.
    - rewrite !length_app, H20. unfold zlen in *. cbn. lia. }
  by rewrite E1, E2, E3, take_drop.
Qed.

(** The client finishes with the key that is sealed in the reply. *)
Lemma reply_text_outcome nonce enc sid pad cert key rest :
  zlen nonce = 12 -> zlen enc = 48 -> zlen sid = 32 -> zlen pad = 4 -> 0 <= zlen cert < 256 ->
  cloak_aead_open CLOAK_AEAD_AES_256_GCM secret nonce [] enc = Some key ->
  reply_outcome secret 3 None (reply_text nonce enc sid pad cert ++ rest) = Finished key rest.
Proof.
  intros Hn He Hs Hp Hc Hopen. unfold reply_text. rewrite <- !app_assoc.
  assert (Hsh : zlen (server_hello nonce enc sid pad) = 122) by (by apply server_hello_length).
  rewrite outcome_tls_record by (rewrite Hsh; done). cbn [key_after].
  rewrite sealed_key_reply, Hopen by done.
  rewrite outcome_tls_record by done. cbn [key_after].
  rewrite outcome_tls_record; [done|lia|].
  cbn [is_first]. unfold header_refused, CLOAK_CLIENT_HANDSHAKE_MAX_RECORD_BODY. by decide_cmp.
Qed.

End reply.

(** ** The exchange *)

Section exchange.
Context `{EvpLaws} `{X25519Laws} `{P256Laws} `{!KeygenAvailable}.

(** The parameters of a reply that the server can be given. *)
Record reply_args (key nonce pad cert out : bytes) : Prop := {
  ra_key : zlen key = 32 /\ all_bytes key;
  ra_nonce : zlen nonce = 12;
  ra_pad : zlen pad = 4;
  ra_cert : cert_len_is_valid (zlen cert) = true;
  ra_out : 138 + zlen cert <= zlen out
}.

Lemma run_bytes {R} `{!Reactor R} (c0 : conn R) arrived c : run c0 arrived c -> all_bytes arrived.
Proof.
  induction 1 as [|c1 a c2 b c3 _ IH Hs]; [constructor|]. apply all_bytes_app. split; [done|].
  by destruct Hs; try constructor.
Qed.

(** A finished reply decides every run in which it arrives. *)
Lemma run_of_reply {R} `{!Reactor R} `{!ReactorLaws R} h (r : R) wire c0 arrived c key rest :
  started h r wire c0 -> run c0 arrived c ->
  reply_outcome (h_shared_secret h) 3 None arrived = Finished key rest ->
  c_done c = [CLOAK_CLIENT_HANDSHAKE_DONE] /\ h_session_key (c_h c) = key /\ c_inbox c = rest \/
  c_done c <> [CLOAK_CLIENT_HANDSHAKE_DONE] /\
  exists p, arrived = p ++ c_inbox c /\ reply_outcome (h_shared_secret h) 3 None p = More.
Proof.
  intros Hst Hrun Ho. destruct (run_exact h r wire c0 arrived c Hst Hrun) as (_&p&Hp&Hcases).
  pose proof (run_bytes _ _ _ Hrun) as Hb. rewrite Hp in Hb. apply all_bytes_app in Hb as [Hpb _].
  pose proof (outcome_app (h_shared_secret h) 3 None p (c_inbox c) Hpb) as Happ.
  rewrite <- Hp, Ho in Happ. cbv zeta in Hcases.
  destruct Hcases as [(_&Hd&Hm&_)|[(Hd&_&Hf)|[(_&_&Hr)|(Hd&Hm&_)]]].
  - right. rewrite Hd. split; [done|]. by exists p.
  - left. rewrite Hf in Happ. specialize (Happ ltac:(done)). cbn [extend app] in Happ.
    injection Happ as -> ->. done.
  - rewrite Hr in Happ. by specialize (Happ ltac:(done)).
  - right. rewrite Hd. split; [done|]. by exists p.
Qed.

(** C10: client and server agree on a session key.  For every configuration,
    browser, server name and tape of random numbers: the client's record is
    one complete first packet; the server's parser finds three fields in it;
    within 180 seconds their decryption gives the server the client's identity
    and the client's secret; whatever key, nonce, padding and certificate the
    server then answers with, the client is done, in every run in which the
    reply has arrived and is read, exactly when it holds that session key, and
    what follows the reply is left in the socket; in no run does it refuse. *)
Theorem handshake_end_to_end {R} `{!Reactor R} `{!ReactorLaws R}
    fuel pfuel cfg a b name server_priv seed priv pub r :
  config_ok cfg a b name server_priv -> cloak_x25519_generate_keypair seed = Some (priv, pub) ->
  tape_ok fuel r -> (2059 <= pfuel)%nat ->
  exists h r' wire parsed random session_id share,
    cloak_client_handshake_init fuel (Some cfg) seed r = Some (0, h, r') /\ ready h wire /\
    classify wire = Complete /\
    cloak_clienthello_parse pfuel wire = ok parsed /\
    denotes wire (ch_random parsed) 32 (Some random) /\
    denotes wire (ch_session_id parsed) (ch_session_id_len parsed) (Some session_id) /\
    denotes wire (ch_x25519_key_share parsed) 32 (Some share) /\
    (forall now method0,
      INT64_MIN + 180 < now < INT64_MAX - 180 -> zlen method0 = 13 -> Z.abs (now - af_time a) < 180 ->
      cloak_server_auth_decrypt random (Some session_id) (ch_session_id_len parsed) (Some share)
        server_priv now method0 = Some (Some (client_info a method0, h_shared_secret h))) /\
    (forall key nonce pad cert out, reply_args key nonce pad cert out ->
      exists n out',
        cloak_server_auth_compose_reply (h_shared_secret h) key nonce session_id pad cert
          (zlen cert) out = Some (n, out') /\
        forall (re : R) c0 rest c,
          started h re wire c0 -> run c0 (take (Z.to_nat n) out' ++ rest) c ->
          c_done c = [CLOAK_CLIENT_HANDSHAKE_DONE] /\ h_session_key (c_h c) = key /\ c_inbox c = rest \/
          c_done c <> [CLOAK_CLIENT_HANDSHAKE_DONE] /\
          exists p, take (Z.to_nat n) out' ++ rest = p ++ c_inbox c /\
            reply_outcome (h_shared_secret h) 3 None p = More).
Proof.
  intros Hcfg Hseed Htape Hpf.
  destruct (client_init_ok fuel cfg a b name server_priv seed priv pub r Hcfg Hseed Htape)
    as (h&r'&host&ct&d&Hinit&Hready&_&Hmsg&_&Hhl&Hhb&Hd&Hpl&Hpb&Hcl&Hcb&Hsl&Hsb&Hsec&Hopen).
  set (msg := message _) in *.
  assert (Htl : zlen (take 32 ct) = 32) by (unfold zlen in *; rewrite length_take; lia).
  assert (Hdl : zlen (drop 32 ct) = 32) by (unfold zlen in *; rewrite length_drop; lia).
  destruct (browser_parsed b pfuel host pub (take 32 ct) (drop 32 ct) d) as (_&_&p&Hp&D1&D2&D3&D4&_);
    [done|done|split; [done|by apply Forall_take]|split; [done|by apply Forall_drop]|done|done|].
  fold msg in Hp, D1, D2, D4.
  exists h, r', (records (zlen msg) msg), p, pub, (take 32 ct), (drop 32 ct).
  split; [done|]. split; [done|]. split; [apply records_complete; lia|]. split; [done|].
  split; [done|]. split; [done|]. split; [done|]. split.
  - intros now method0 Hnow Hm Habs. rewrite D3.
    destruct (co_auth _ _ _ _ _ Hcfg) as (Ha&_).
    pose proof (payload_decrypts a server_priv pub (h_shared_secret h) ct now method0) as Hdec.
    rewrite Hdec by done. by decide_cmp.
  - intros key nonce pad cert out [[Hkl Hkb] Hn Hpad Hcert Hout].
    destruct (compose_reply_ok (h_shared_secret h) key nonce (take 32 ct) pad cert out Hsl Hkl Hkb Hn
      Htl Hpad Hcert Hout) as (enc&Hcomp&Hel&Hrl&Hop).
    do 2 eexists. split; [exact Hcomp|]. intros re c0 rest c Hst Hrun.
    eapply run_of_reply; [exact Hst|exact Hrun|].
    rewrite <- Hrl, zlen_length, take_app_length.
    apply reply_text_outcome; try done. by apply cert_len_small.
Qed.

End exchange.

(** ** Witnesses *)

Section witnesses.
#[local] Existing Instances evp_plain evp_plain_laws x25519_sum x25519_sum_laws p256_constant
  ClientHelloBuild.p256_constant_laws ClientHelloBuild.keygen_available.

(** A handshake with a five-byte message. *)
Definition demo_handshake : cloak_client_handshake_t :=
  Handshake true 7 false 0 CLOAK_CLIENT_HS_STATE_WRITE_HELLO CLOAK_CLIENT_HANDSHAKE_PENDING 0
    [22; 3; 1; 0; 0] 5 0 (replicate 32 1) zero_reader (replicate 32 0) (replicate 254 0) 1000
    CLOAK_TIMER_INVALID false true.
Definition demo_reactor : reactor_lists := ReactorLists [(3, 1)] [1] 2.

Lemma demo_ready : ready demo_handshake [22; 3; 1; 0; 0].
Proof. by split. Qed.

Definition demo_begun : conn reactor_lists :=
  snd (cloak_client_handshake_start (Conn demo_handshake demo_reactor [] [] [])).

Lemma demo_started : started demo_handshake demo_reactor [22; 3; 1; 0; 0] demo_begun.
Proof.
  split; [apply demo_ready|]. split; [|reflexivity].
  split; [done|]. constructor; [|constructor]. cbn. lia.
Qed.

Definition demo_sent : conn reactor_lists := default demo_begun (on_event [SendSome 9] [] demo_begun).

Definition demo_reply : bytes :=
  reply_text (replicate 12 3) (replicate 32 2 ++ replicate 16 0) (replicate 32 4) (replicate 4 5)
    (replicate 27 6).

Definition demo_arrived : conn reactor_lists :=
  Conn (c_h demo_sent) (c_reactor demo_sent) (c_inbox demo_sent ++ (demo_reply ++ [7; 7]))
    (c_outbox demo_sent) (c_done demo_sent).

Lemma demo_run : run demo_begun (demo_reply ++ [7; 7]) demo_arrived.
Proof.
  change (demo_reply ++ [7; 7]) with (([] ++ []) ++ (demo_reply ++ [7; 7])).
  eapply run_step; [eapply run_step; [apply run_start|]|].
  - apply (step_ready [SendSome 9] [] demo_begun demo_sent); vm_compute; reflexivity.
  - apply step_arrive. by apply all_bytesb_sound.
Qed.

Lemma client_handshake_exact_witness :
  (forall sends recvs, is_Some (on_event sends recvs demo_arrived)) /\ c_done demo_arrived = [].
Proof.
  destruct (client_handshake_exact _ _ _ _ _ _ demo_started demo_run) as [Hsafe _].
  split; [exact Hsafe|vm_compute; reflexivity].
Defined.

Definition demo_recvs : list recv_answer := replicate 170 (RecvSome 50).

Lemma client_handshake_completes_witness :
  exists c', on_event [] demo_recvs demo_arrived = Some c' /\
    c_done c' = [CLOAK_CLIENT_HANDSHAKE_DONE] /\ c_inbox c' = [7; 7] /\
    cloak_client_handshake_session_key (Some (c_h c')) = Some (replicate 32 2).
Proof.
  apply (client_handshake_completes demo_handshake demo_reactor _ _ _ demo_arrived [] demo_recvs _ _
    demo_started demo_run); try (vm_compute; reflexivity).
  - vm_compute. discriminate.
  - apply Forall_replicate. exact I.
  - vm_compute. discriminate.
Defined.

Lemma client_handshake_cleanup_witness :
  exists c', on_event [] [RecvEof] demo_arrived = Some c' /\
    c_done c' = [CLOAK_CLIENT_HANDSHAKE_FAILED] /\ ~ watching (c_reactor c') 7 /\
    watching (c_reactor c') 3.
Proof.
  destruct (client_handshake_cleanup demo_handshake demo_reactor _ _ _ demo_arrived
    (default demo_arrived (on_event [] [RecvEof] demo_arrived)) [] [RecvEof] demo_reactor
    demo_started demo_run) as [(Hp&_)|(_&Hd&Hw&_)]; cbv zeta.
  - vm_compute. reflexivity.
  - left. vm_compute. reflexivity.
  - exfalso. revert Hp. vm_compute. discriminate.
  - eexists. split; [|split; [exact Hd|split]].
    + vm_compute. reflexivity.
    + intros Hin. apply Hw in Hin as [Hne _]. by apply Hne.
    + apply Hw. split; [discriminate|]. exists 1. vm_compute. reflexivity.
Defined.

Definition demo_config : cloak_client_handshake_config_t :=
  HandshakeConfig true 7 CLOAK_CLIENT_BROWSER_FIREFOX (Some (c_block (c_string "Random") []))
    (replicate 32 9) (af_uid demo_auth) (Some (c_block (c_string "shadowsocks") [])) 1 305419896 1
    1700000000 0 true.

Lemma demo_config_ok : config_ok demo_config demo_auth Firefox (c_string "Random") (replicate 32 9).
Proof.
  split.
  - done.
  - done.
  - split; [done|]. split; [repeat constructor; done|]. split; [by apply all_bytesb_sound|].
    by eexists.
  - by eexists.
  - split_and!; [apply demo_auth_ok|done..].
  - apply demo_server_keys.
Qed.

Lemma handshake_end_to_end_witness :
  exists h r' wire parsed,
    cloak_client_handshake_init 1 (Some demo_config) [4; 4] demo_tape = Some (0, h, r') /\
    classify wire = Complete /\ cloak_clienthello_parse 2059 wire = ok parsed.
Proof.
  destruct (@handshake_end_to_end _ _ _ _ _ _ _ reactor_lists _ _ 1 2059 demo_config demo_auth
    Firefox (c_string "Random") (replicate 32 9) [4; 4] (take 32 ([4; 4] ++ replicate 32 0))
    (take 32 ([4; 4] ++ replicate 32 0)) demo_tape demo_config_ok eq_refl demo_tape_ok (Nat.le_refl _))
    as (h&r'&wire&parsed&random&sid&share&Hinit&_&Hc&Hp&_).
  exists h, r', wire, parsed. split; [exact Hinit|]. split; [exact Hc|exact Hp].
Defined.

End witnesses.
