(* ===== verification/Conn.v ===== *)
(** * A connection of the multiplexer ([libcloak-mux/src/conn.c])

    A connection wraps every frame of the multiplexer in a TLS record or in a
    WebSocket message, queues it for a socket that may block, and unwraps what
    arrives.  The world of a connection is its object, the event loop (through
    the interface of [ReactorApi]), the valve its [valve] points to (NULL is
    [None]), the generator of random bytes and the kernel's side of the socket:
    what it will answer to [read] and [send], and the bytes that have gone
    through in each direction.  The callbacks of the owner are a parameter:
    they see and change the world, so they can send, break the connection or
    use the event loop; [w_log] records their calls and the frames that were
    queued. *)
From S2P Require Import Prelude Fallible Random Ring ByteQueue Valve WsFrame ReactorApi.

Definition CONN_WS_MASK_CHUNK : Z := 1022.
Definition CLOAK_CONN_RECORD_HEADER_LEN : Z := 5.
Definition CLOAK_CONN_MAX_FRAME_LEN : Z := 16640.
Definition CLOAK_CONN_FRAMING_INVALID : Z := 0.
Definition CLOAK_CONN_FRAMING_TLS_RECORD : Z := 1.
Definition CLOAK_CONN_FRAMING_WS_CLIENT : Z := 2.
Definition CLOAK_CONN_FRAMING_WS_SERVER : Z := 3.
Definition CLOAK_CONN_ERR_INVALID_FRAMING : Z := -2.

(** The owner's callbacks are set or NULL; [cv_set] says that [valve] is. *)
Record cloak_conn := Conn {
  c_fd : Z;
  recv_acc : cloak_bytequeue_t;
  send_q : cloak_bytequeue_t;
  recv_scratch : bytes;
  framing : Z;
  max_frame_len : Z;
  max_envelope_len : Z;
  max_recv_envelope_len : Z;
  ws_msg_len : Z;
  ws_msg_active : Z;
  on_envelope_set : bool;
  on_closed_set : bool;
  on_drained_set : bool;
  broken : Z;
  want_writable : Z;
  read_paused : Z;
  rx_resume_timer : Z;
  interest : Z
}.

(** [memset (c, 0, sizeof *c)]. *)
Definition zero_bytequeue : cloak_bytequeue_t := Bytequeue [] 0 0 0 false.
Definition zero_conn : cloak_conn :=
  Conn 0 zero_bytequeue zero_bytequeue [] 0 0 0 0 0 0 false false false 0 0 0 0 0.

(** Answers of [send] and of a [read] that has nothing to give. *)
Inductive send_answer := SendTook (n : Z) | SendAgain | SendFailed.
Inductive read_end := ReadAgain | ReadEof | ReadFailed.
Inductive read_answer := ReadGot (data : bytes) | ReadEnd (e : read_end).

(** Calls of the owner, and frames that entered the queue. *)
Inductive conn_event :=
| Envelope (frame : bytes)
| Closed
| Drained
| Queued (op : Z) (key : option bytes) (payload : bytes).

Record conn_world (R W : Type) := World {
  w_conn : cloak_conn;
  w_reactor : R;
  w_valve : option cloak_valve_t;
  w_clock : option Z -> Z;
  w_rand : rand;
  k_in : list bytes;
  k_end : read_end;
  k_read : bytes;
  k_sends : list send_answer;
  k_out : bytes;
  w_log : list conn_event;
  w_user : W
}.
#[global] Arguments World {R W}.
#[global] Arguments w_conn {R W}.
#[global] Arguments w_reactor {R W}.
#[global] Arguments w_valve {R W}.
#[global] Arguments w_clock {R W}.
#[global] Arguments w_rand {R W}.
#[global] Arguments k_in {R W}.
#[global] Arguments k_end {R W}.
#[global] Arguments k_read {R W}.
#[global] Arguments k_sends {R W}.
#[global] Arguments k_out {R W}.
#[global] Arguments w_log {R W}.
#[global] Arguments w_user {R W}.

(** ** Updates of single fields *)

Definition with_recv_acc (c : cloak_conn) (q : cloak_bytequeue_t) : cloak_conn :=
  Conn (c_fd c) q (send_q c) (recv_scratch c) (framing c) (max_frame_len c) (max_envelope_len c)
    (max_recv_envelope_len c) (ws_msg_len c) (ws_msg_active c) (on_envelope_set c) (on_closed_set c)
    (on_drained_set c) (broken c) (want_writable c) (read_paused c) (rx_resume_timer c) (interest c).
Definition with_send_q (c : cloak_conn) (q : cloak_bytequeue_t) : cloak_conn :=
  Conn (c_fd c) (recv_acc c) q (recv_scratch c) (framing c) (max_frame_len c) (max_envelope_len c)
    (max_recv_envelope_len c) (ws_msg_len c) (ws_msg_active c) (on_envelope_set c) (on_closed_set c)
    (on_drained_set c) (broken c) (want_writable c) (read_paused c) (rx_resume_timer c) (interest c).
Definition with_message (c : cloak_conn) (scratch : bytes) (len active : Z) : cloak_conn :=
  Conn (c_fd c) (recv_acc c) (send_q c) scratch (framing c) (max_frame_len c) (max_envelope_len c)
    (max_recv_envelope_len c) len active (on_envelope_set c) (on_closed_set c)
    (on_drained_set c) (broken c) (want_writable c) (read_paused c) (rx_resume_timer c) (interest c).
Definition with_broken (c : cloak_conn) (b : Z) : cloak_conn :=
  Conn (c_fd c) (recv_acc c) (send_q c) (recv_scratch c) (framing c) (max_frame_len c) (max_envelope_len c)
    (max_recv_envelope_len c) (ws_msg_len c) (ws_msg_active c) (on_envelope_set c) (on_closed_set c)
    (on_drained_set c) b (want_writable c) (read_paused c) (rx_resume_timer c) (interest c).
Definition with_wanted (c : cloak_conn) (writable paused timer mask : Z) : cloak_conn :=
  Conn (c_fd c) (recv_acc c) (send_q c) (recv_scratch c) (framing c) (max_frame_len c) (max_envelope_len c)
    (max_recv_envelope_len c) (ws_msg_len c) (ws_msg_active c) (on_envelope_set c) (on_closed_set c)
    (on_drained_set c) (broken c) writable paused timer mask.
Definition with_drained_set (c : cloak_conn) (b : bool) : cloak_conn :=
  Conn (c_fd c) (recv_acc c) (send_q c) (recv_scratch c) (framing c) (max_frame_len c) (max_envelope_len c)
    (max_recv_envelope_len c) (ws_msg_len c) (ws_msg_active c) (on_envelope_set c) (on_closed_set c)
    b (broken c) (want_writable c) (read_paused c) (rx_resume_timer c) (interest c).

Section conn.
Context {R W : Type} {RR : Reactor R}.
Implicit Types w : conn_world R W.

Definition set_conn w (c : cloak_conn) : conn_world R W :=
  World c (w_reactor w) (w_valve w) (w_clock w) (w_rand w) (k_in w) (k_end w) (k_read w)
    (k_sends w) (k_out w) (w_log w) (w_user w).
Definition set_reactor w (r : R) : conn_world R W :=
  World (w_conn w) r (w_valve w) (w_clock w) (w_rand w) (k_in w) (k_end w) (k_read w)
    (k_sends w) (k_out w) (w_log w) (w_user w).
Definition set_valve w (v : option cloak_valve_t) : conn_world R W :=
  World (w_conn w) (w_reactor w) v (w_clock w) (w_rand w) (k_in w) (k_end w) (k_read w)
    (k_sends w) (k_out w) (w_log w) (w_user w).
Definition set_rand w (r : rand) : conn_world R W :=
  World (w_conn w) (w_reactor w) (w_valve w) (w_clock w) r (k_in w) (k_end w) (k_read w)
    (k_sends w) (k_out w) (w_log w) (w_user w).
Definition note w (e : conn_event) : conn_world R W :=
  World (w_conn w) (w_reactor w) (w_valve w) (w_clock w) (w_rand w) (k_in w) (k_end w) (k_read w)
    (k_sends w) (k_out w) (w_log w ++ [e]) (w_user w).

(** ** The kernel's side of the socket *)

(** [send (fd, data, MSG_NOSIGNAL)]: the kernel takes at most what it is given. *)
Definition kernel_send w (data : bytes) : send_answer * conn_world R W :=
  let answered out rest :=
    World (w_conn w) (w_reactor w) (w_valve w) (w_clock w) (w_rand w) (k_in w) (k_end w) (k_read w)
      rest (k_out w ++ out) (w_log w) (w_user w) in
  match k_sends w with
  | [] => (SendAgain, w)
  | SendTook n :: rest =>
      let n := Z.min (Z.max 0 n) (zlen data) in (SendTook n, answered (take (Z.to_nat n) data) rest)
  | a :: rest => (a, answered [] rest)
  end.

(** [read (fd, _, want)]: the next segment, as much of it as is asked for; an
    empty segment is a pause in the arrivals ([EAGAIN]). *)
Definition kernel_read w (want : Z) : read_answer * conn_world R W :=
  let arrived rest got :=
    World (w_conn w) (w_reactor w) (w_valve w) (w_clock w) (w_rand w) rest (k_end w) (k_read w ++ got)
      (k_sends w) (k_out w) (w_log w) (w_user w) in
  match k_in w with
  | [] => (ReadEnd (k_end w), w)
  | [] :: rest => (ReadEnd ReadAgain, arrived rest [])
  | data :: rest =>
      let got := take (Z.to_nat want) data in
      let left := drop (Z.to_nat want) data in
      (ReadGot got, arrived (if bool_decide (left = []) then rest else left :: rest) got)
  end.

(** ** Interest *)

Definition conn_desired_interest (c : cloak_conn) : Z :=
  let events := if read_paused c =? 0 then CLOAK_REACTOR_READABLE else 0 in
  if want_writable c =? 0 then events else Z.lor events CLOAK_REACTOR_WRITABLE.

Definition conn_sync_interest w : conn_world R W :=
  let c := w_conn w in
  let events := conn_desired_interest c in
  if events =? interest c then w
  else
    let w := set_conn w (with_wanted c (want_writable c) (read_paused c) (rx_resume_timer c) events) in
    set_reactor w (r_mod_fd (w_reactor w) (c_fd c) events).2.

Definition conn_set_want_writable w (want : Z) : conn_world R W :=
  let c := w_conn w in
  if want_writable c =? want then w
  else conn_sync_interest
         (set_conn w (with_wanted c want (read_paused c) (rx_resume_timer c) (interest c))).

(** ** The owner's callbacks *)
Variable on_envelope : bytes -> conn_world R W -> option (conn_world R W).
Variable on_closed : conn_world R W -> option (conn_world R W).
Variable on_drained : conn_world R W -> option (conn_world R W).

Definition conn_mark_broken w : option (conn_world R W) :=
  let c := w_conn w in
  if negb (broken c =? 0) then Some w
  else
    let w := set_conn w (with_broken c 1) in
    let w := set_reactor w (r_remove_fd (w_reactor w) (c_fd c)) in
    if on_closed_set c then on_closed (note w Closed) else Some w.

(** ** Sending *)

(** The loop of [conn_try_drain_send]. *)
Fixpoint drain_loop (fuel : nat) (was_backpressured : Z) w : option (conn_world R W) :=
  match fuel with
  | O => None
  | S fuel' =>
      let avail := cloak_bytequeue_len (send_q (w_conn w)) in
      if avail =? 0 then
        let w := conn_set_want_writable w 0 in
        if negb (was_backpressured =? 0) && on_drained_set (w_conn w)
        then on_drained (note w Drained) else Some w
      else
        let want := if avail <? 4096 then avail else 4096 in
        peeked ← cloak_bytequeue_peek (send_q (w_conn w)) want;
        let '(answer, w) := kernel_send w peeked in
        match answer with
        | SendAgain => Some (conn_set_want_writable w 1)
        | SendFailed => conn_mark_broken w
        | SendTook n =>
            '(_, q) ← cloak_bytequeue_read (send_q (w_conn w)) n;
            let w := set_conn w (with_send_q (w_conn w) q) in
            if n <? zlen peeked then Some (conn_set_want_writable w 1)
            else drain_loop fuel' was_backpressured w
        end
  end.

Definition conn_try_drain_send w : option (conn_world R W) :=
  drain_loop (S (Z.to_nat (cloak_bytequeue_len (send_q (w_conn w))))) (want_writable (w_conn w)) w.

(** The loop that masks and queues a payload chunk by chunk. *)
Fixpoint mask_loop (fuel : nat) (payload key : bytes) (off pos : Z) (q : cloak_bytequeue_t)
    : option cloak_bytequeue_t :=
  if off <? zlen payload then
    match fuel with
    | O => None
    | S fuel' =>
        let n := u64 (zlen payload - off) in
        let n := if CONN_WS_MASK_CHUNK <? n then CONN_WS_MASK_CHUNK else n in
        chunk ← payload.[off +: n];
        '(pos, chunk) ← cloak_ws_frame_mask (Some chunk) (Some key) pos;
        '(_, q) ← cloak_bytequeue_write q (default [] chunk);
        mask_loop fuel' payload key (u64 (off + n)) pos q
    end
  else Some q.

(** 0 when the whole frame was queued, -1 when the connection broke instead.
    The header array of the stack holds anything, here zeros. *)
Definition conn_ws_enqueue_frame w (op : Z) (payload : bytes) : option (Z * conn_world R W) :=
  let '(keyp, w) :=
    if framing (w_conn w) =? CLOAK_CONN_FRAMING_WS_CLIENT then
      let '(key, r) := cloak_ws_frame_mask_key (w_rand w) in (Some key, set_rand w r)
    else (None, w) in
  '(hn, header) ← cloak_ws_frame_write_header (Some (replicate 14 0)) op 1 keyp (zlen payload);
  if hn <? 0 then w ← conn_mark_broken w; Some (-1, w)
  else
    let total := u64 (hn + zlen payload) in
    if cloak_bytequeue_free_space (send_q (w_conn w)) <? total then
      w ← conn_mark_broken w; Some (-1, w)
    else
      hdr ← (default [] header).[0 +: hn];
      '(_, q) ← cloak_bytequeue_write (send_q (w_conn w)) hdr;
      q ← match keyp with
          | None => '(_, q) ← cloak_bytequeue_write q payload; Some q
          | Some key => mask_loop (length payload) payload key 0 0 q
          end;
      Some (0, note (set_conn w (with_send_q (w_conn w) q)) (Queued op keyp payload)).

Definition record_header (frame_len : Z) : bytes :=
  [23; 3; 3; u8 (Z.land (Z.shiftr frame_len 8) 255); u8 (Z.land frame_len 255)].

Definition cloak_conn_send w (frame : bytes) : option (Z * conn_world R W) :=
  let c := w_conn w in
  let frame_len := zlen frame in
  if negb (broken c =? 0) then Some (-1, w)
  else if max_frame_len c <? frame_len then w ← conn_mark_broken w; Some (-1, w)
  else if negb (framing c =? CLOAK_CONN_FRAMING_TLS_RECORD) then
    '(rc, w) ← conn_ws_enqueue_frame w CLOAK_WS_OP_BINARY frame;
    if negb (rc =? 0) then Some (-1, w)
    else
      w ← conn_try_drain_send w;
      Some (if broken (w_conn w) =? 0 then 0 else -1, w)
  else
    let total := u64 (CLOAK_CONN_RECORD_HEADER_LEN + frame_len) in
    if max_envelope_len c <? total then w ← conn_mark_broken w; Some (-1, w)
    else if cloak_bytequeue_free_space (send_q c) <? total then w ← conn_mark_broken w; Some (-1, w)
    else
      '(_, q) ← cloak_bytequeue_write (send_q c) (record_header frame_len);
      '(_, q) ← cloak_bytequeue_write q frame;
      let w := note (set_conn w (with_send_q c q)) (Queued CLOAK_WS_OP_BINARY None frame) in
      w ← conn_try_drain_send w;
      Some (if broken (w_conn w) =? 0 then 0 else -1, w).

(** ** Receiving *)

(** The owner is given a frame; the TLS path hands out the record's body. *)
Definition deliver w (frame : bytes) : option (conn_world R W) :=
  if on_envelope_set (w_conn w) then on_envelope frame (note w (Envelope frame)) else Some w.

Fixpoint tls_loop (fuel : nat) w : option (conn_world R W) :=
  match fuel with
  | O => None
  | S fuel' =>
      let c := w_conn w in
      header ← cloak_bytequeue_peek (recv_acc c) CLOAK_CONN_RECORD_HEADER_LEN;
      if zlen header <? CLOAK_CONN_RECORD_HEADER_LEN then Some w
      else
        h3 ← header.[3]; h4 ← header.[4];
        let frame_len := u16 (Z.lor (u16 (Z.shiftl h3 8)) h4) in
        if max_frame_len c <? frame_len then conn_mark_broken w
        else
          let envelope_len := CLOAK_CONN_RECORD_HEADER_LEN + frame_len in
          if cloak_bytequeue_len (recv_acc c) <? envelope_len then Some w
          else
            '(data, q) ← cloak_bytequeue_read (recv_acc c) envelope_len;
            scratch ← (recv_scratch c).[0 <- data];
            let c := with_message (with_recv_acc c q) scratch (ws_msg_len c) (ws_msg_active c) in
            frame ← scratch.[CLOAK_CONN_RECORD_HEADER_LEN +: frame_len];
            w ← deliver (set_conn w c) frame;
            if negb (broken (w_conn w) =? 0) then Some w else tls_loop fuel' w
  end.

Definition conn_tls_extract_and_dispatch w : option (conn_world R W) :=
  tls_loop (S (Z.to_nat (cloak_bytequeue_len (recv_acc (w_conn w))))) w.

(** The payload, unmasked if the peer masked it. *)
Definition conn_ws_take_payload w (h : cloak_ws_frame_header_t) (payload_len : Z)
    : option (bytes * conn_world R W) :=
  let c := w_conn w in
  '(_, q) ← cloak_bytequeue_read (recv_acc c) (wh_header_len h);
  if 0 <? payload_len then
    '(data, q) ← cloak_bytequeue_read q payload_len;
    data ← (if negb (wh_masked h =? 0) then
              '(_, data) ← cloak_ws_frame_mask (Some data) (Some (wh_mask_key h)) 0;
              Some (default [] data)
            else Some data);
    Some (data, set_conn w (with_recv_acc c q))
  else Some ([], set_conn w (with_recv_acc c q)).

(** What became of a frame that was taken: the loop goes on or is left. *)
Inductive loop_step (A : Type) := Again (a : A) | Leave (a : A).
#[global] Arguments Again {A}.
#[global] Arguments Leave {A}.

Definition ws_control w (h : cloak_ws_frame_header_t) (payload_len : Z)
    : option (loop_step (conn_world R W)) :=
  if CLOAK_WS_FRAME_MAX_CONTROL_PAYLOAD <? payload_len then None
  else
    '(ctl, w) ← conn_ws_take_payload w h payload_len;
    if wh_opcode h =? CLOAK_WS_OP_PING then
      '(rc, w) ← conn_ws_enqueue_frame w CLOAK_WS_OP_PONG ctl;
      if negb (rc =? 0) then Some (Leave w)
      else
        w ← conn_try_drain_send w;
        Some (if negb (broken (w_conn w) =? 0) then Leave w else Again w)
    else if wh_opcode h =? CLOAK_WS_OP_PONG then Some (Again w)
    else
      '(_, w) ← conn_ws_enqueue_frame w CLOAK_WS_OP_CLOSE ctl;
      w ← (if broken (w_conn w) =? 0 then conn_try_drain_send w else Some w);
      w ← conn_mark_broken w;
      Some (Leave w).

Definition ws_data w (h : cloak_ws_frame_header_t) (payload_len : Z)
    : option (loop_step (conn_world R W)) :=
  let c := w_conn w in
  let bad := w ← conn_mark_broken w; Some (Leave w) in
  if (if wh_opcode h =? CLOAK_WS_OP_CONTINUATION then ws_msg_active c =? 0
      else negb (ws_msg_active c =? 0)) then bad
  else if u64 (max_frame_len c - ws_msg_len c) <? payload_len then bad
  else
    '(data, w) ← conn_ws_take_payload w h payload_len;
    let c := w_conn w in
    scratch ← (recv_scratch c).[ws_msg_len c <- data];
    let len := u64 (ws_msg_len c + payload_len) in
    if wh_fin h =? 0 then Some (Again (set_conn w (with_message c scratch len 1)))
    else
      msg ← scratch.[0 +: len];
      w ← deliver (set_conn w (with_message c scratch 0 0)) msg;
      Some (if negb (broken (w_conn w) =? 0) then Leave w else Again w).

Fixpoint ws_loop (fuel : nat) w : option (conn_world R W) :=
  match fuel with
  | O => None
  | S fuel' =>
      let c := w_conn w in
      let peer_must_mask := b2z (framing c =? CLOAK_CONN_FRAMING_WS_SERVER) in
      hdrbuf ← cloak_bytequeue_peek (recv_acc c) CLOAK_WS_FRAME_MAX_HEADER_LEN;
      match cloak_ws_frame_parse_header (Some hdrbuf) false with
      | None => None
      | Some None => conn_mark_broken w
      | Some (Some None) => Some w
      | Some (Some (Some h)) =>
          if negb (wh_masked h =? peer_must_mask) then conn_mark_broken w
          else if max_frame_len c <? wh_payload_len h then conn_mark_broken w
          else
            let payload_len := wh_payload_len h in
            if cloak_bytequeue_len (recv_acc c) <? u64 (wh_header_len h + payload_len) then Some w
            else
              s ← (if (wh_opcode h =? CLOAK_WS_OP_PING) || (wh_opcode h =? CLOAK_WS_OP_PONG) ||
                      (wh_opcode h =? CLOAK_WS_OP_CLOSE)
                   then ws_control w h payload_len else ws_data w h payload_len);
              match s with Again w => ws_loop fuel' w | Leave w => Some w end
      end
  end.

Definition conn_ws_extract_and_dispatch w : option (conn_world R W) :=
  ws_loop (S (Z.to_nat (cloak_bytequeue_len (recv_acc (w_conn w))))) w.

Definition conn_extract_and_dispatch w : option (conn_world R W) :=
  if framing (w_conn w) =? CLOAK_CONN_FRAMING_TLS_RECORD
  then conn_tls_extract_and_dispatch w else conn_ws_extract_and_dispatch w.

Definition conn_pause_read_for_rate w : option (conn_world R W) :=
  let c := w_conn w in
  let paused w :=
    let c := w_conn w in
    conn_sync_interest (set_conn w (with_wanted c (want_writable c) 1 (rx_resume_timer c) (interest c))) in
  if rx_resume_timer c =? CLOAK_TIMER_INVALID then
    '(delay, v) ← cloak_valve_rx_resume_delay_ms (w_clock w) (w_valve w);
    let w := set_valve w v in
    let '(id, r) := r_add_timer (w_reactor w) delay in
    let w := set_reactor w r in
    let w := set_conn w (with_wanted c (want_writable c) (read_paused c) id (interest c)) in
    if id =? CLOAK_TIMER_INVALID then conn_mark_broken w else Some (paused w)
  else Some (paused w).

Fixpoint conn_handle_readable (fuel : nat) w : option (conn_world R W) :=
  match fuel with
  | O => None
  | S fuel' =>
      let room := cloak_bytequeue_free_space (recv_acc (w_conn w)) in
      if room =? 0 then Some w
      else
        let want := if room <? 4096 then room else 4096 in
        '(allowed, v) ← cloak_valve_take_rx (w_clock w) (w_valve w) (s64 want);
        let w := set_valve w v in
        if allowed <=? 0 then conn_pause_read_for_rate w
        else
          let want := if u64 allowed <? want then u64 allowed else want in
          let '(answer, w) := kernel_read w want in
          match answer with
          | ReadEnd ReadAgain => Some w
          | ReadEnd _ => conn_mark_broken w
          | ReadGot tmp =>
              v ← cloak_valve_add_rx (w_valve w) (zlen tmp);
              let w := set_valve w v in
              '(_, q) ← cloak_bytequeue_write (recv_acc (w_conn w)) tmp;
              let w := set_conn w (with_recv_acc (w_conn w) q) in
              w ← conn_extract_and_dispatch w;
              if negb (broken (w_conn w) =? 0) then Some w else conn_handle_readable fuel' w
          end
  end.

Definition conn_rx_resume_cb (fuel : nat) w : option (conn_world R W) :=
  let c := w_conn w in
  let w := set_conn w (with_wanted c (want_writable c) (read_paused c) CLOAK_TIMER_INVALID (interest c)) in
  if negb (broken c =? 0) then Some w
  else
    let w := set_conn w (with_wanted c (want_writable c) 0 CLOAK_TIMER_INVALID (interest c)) in
    conn_handle_readable fuel (conn_sync_interest w).

Definition conn_reactor_cb (fuel : nat) (events : Z) w : option (conn_world R W) :=
  if negb (broken (w_conn w) =? 0) then Some w
  else
    w ← (if negb (Z.land events CLOAK_REACTOR_READABLE =? 0) then conn_handle_readable fuel w else Some w);
    if negb (Z.land events CLOAK_REACTOR_READABLE =? 0) && negb (broken (w_conn w) =? 0) then Some w
    else if negb (Z.land events CLOAK_REACTOR_WRITABLE =? 0) then conn_try_drain_send w
    else Some w.

End conn.

(** ** Construction and accessors *)

Definition conn_ws_envelope_len (payload_len : Z) (masked : bool) : Z :=
  let n := 2 in
  let n := if CLOAK_WS_FRAME_MAX_CONTROL_PAYLOAD <? payload_len then n + 2 else n in
  let n := if masked then n + 4 else n in
  u64 (n + payload_len).

Record cloak_conn_config_t := ConnConfig {
  cfg_fd : Z;
  cfg_max_frame_len : Z;
  cfg_send_queue_cap : Z;
  cfg_framing : Z;
  cfg_on_envelope : bool;
  cfg_on_closed : bool
}.

(** The blocks that the three [malloc]s return. *)
Record conn_memory := ConnMemory {
  mem_recv_acc : option bytes;
  mem_send_q : option bytes;
  mem_scratch : option bytes
}.

(** The connection when the constructor fails half way: what it had is freed. *)
Definition cloak_conn_init_cfg {R : Type} {RR : Reactor R} (r : R) (cfg : cloak_conn_config_t)
    (m : conn_memory) : Z * cloak_conn * R :=
  if negb (cfg_framing cfg =? CLOAK_CONN_FRAMING_TLS_RECORD) &&
     negb (cfg_framing cfg =? CLOAK_CONN_FRAMING_WS_CLIENT) &&
     negb (cfg_framing cfg =? CLOAK_CONN_FRAMING_WS_SERVER)
  then (CLOAK_CONN_ERR_INVALID_FRAMING, zero_conn, r)
  else if (cfg_max_frame_len cfg =? 0) || (CLOAK_CONN_MAX_FRAME_LEN <? cfg_max_frame_len cfg) ||
          (cfg_send_queue_cap cfg =? 0)
  then (-1, zero_conn, r)
  else
    let we_mask := cfg_framing cfg =? CLOAK_CONN_FRAMING_WS_CLIENT in
    let '(env_len, recv_len) :=
      if cfg_framing cfg =? CLOAK_CONN_FRAMING_TLS_RECORD
      then (CLOAK_CONN_RECORD_HEADER_LEN + cfg_max_frame_len cfg,
            CLOAK_CONN_RECORD_HEADER_LEN + cfg_max_frame_len cfg)
      else (conn_ws_envelope_len (cfg_max_frame_len cfg) we_mask,
            conn_ws_envelope_len (cfg_max_frame_len cfg) (negb we_mask)) in
    let conn acc sq scratch mask :=
      Conn (cfg_fd cfg) acc sq scratch (cfg_framing cfg) (cfg_max_frame_len cfg) env_len recv_len
        0 0 (cfg_on_envelope cfg) (cfg_on_closed cfg) false 0 0 0 CLOAK_TIMER_INVALID mask in
    let '(rc, acc) := cloak_bytequeue_init zero_bytequeue (u64 (2 * recv_len)) (mem_recv_acc m) in
    if negb (rc =? 0) then (-1, conn acc zero_bytequeue [] 0, r)
    else
      let '(rc, sq) := cloak_bytequeue_init zero_bytequeue (cfg_send_queue_cap cfg) (mem_send_q m) in
      if negb (rc =? 0) then (-1, conn (cloak_bytequeue_destroy acc) sq [] 0, r)
      else
        match mem_scratch m with
        | None => (-1, conn (cloak_bytequeue_destroy acc) (cloak_bytequeue_destroy sq) [] 0, r)
        | Some scratch =>
            let '(rc, r) := r_add_fd r (cfg_fd cfg) CLOAK_REACTOR_READABLE in
            if negb (rc =? 0)
            then (-1, conn (cloak_bytequeue_destroy acc) (cloak_bytequeue_destroy sq) [] 0, r)
            else (0, conn acc sq scratch CLOAK_REACTOR_READABLE, r)
        end.

Definition cloak_conn_init {R : Type} {RR : Reactor R} (r : R) (fd max_frame_len send_queue_cap : Z)
    (on_envelope on_closed : bool) (m : conn_memory) : Z * cloak_conn * R :=
  cloak_conn_init_cfg r
    (ConnConfig fd max_frame_len send_queue_cap CLOAK_CONN_FRAMING_TLS_RECORD on_envelope on_closed) m.

(** [reactor] is NULL only in an object that was never constructed. *)
Definition cloak_conn_destroy {R : Type} {RR : Reactor R} (r : R) (c : cloak_conn) (reactor_set : bool)
    : cloak_conn * R :=
  let r := if reactor_set
           then r_remove_fd (r_cancel_timer r (rx_resume_timer c)) (c_fd c) else r in
  (zero_conn, r).

Definition cloak_conn_envelope_len (c : option cloak_conn) (frame_len : Z) : Z :=
  match c with
  | None => 0
  | Some c =>
      if framing c =? CLOAK_CONN_FRAMING_TLS_RECORD
      then u64 (CLOAK_CONN_RECORD_HEADER_LEN + frame_len)
      else conn_ws_envelope_len frame_len (framing c =? CLOAK_CONN_FRAMING_WS_CLIENT)
  end.

Definition cloak_conn_set_drained_cb (c : option cloak_conn) (cb : bool) : option cloak_conn :=
  match c with None => None | Some c => Some (with_drained_set c cb) end.

Definition cloak_conn_send_queued (c : option cloak_conn) : Z :=
  match c with None => 0 | Some c => cloak_bytequeue_len (send_q c) end.

Definition cloak_conn_send_capacity (c : option cloak_conn) : Z :=
  match c with
  | None => 0
  | Some c => u64 (cloak_bytequeue_len (send_q c) + cloak_bytequeue_free_space (send_q c))
  end.

Definition cloak_conn_send_free (c : option cloak_conn) : Z :=
  match c with None => 0 | Some c => cloak_bytequeue_free_space (send_q c) end.
