(* ===== verification/Envelope.v ===== *)
(** * What travels between two connections

    The abstract side of [Conn]: the bytes a connection puts around a frame
    ([envelope]) and a machine that takes a stream of bytes apart again
    ([rx_step], [rx_run]).  The machine knows nothing of sockets, queues and
    callbacks; its answers do not depend on how the stream was cut into
    segments ([rx_steps_extend], [rx_run_prefix]), and fed with envelopes it
    gives the frames back ([rx_step_envelope]). *)
From S2P Require Import Prelude Fallible WsFrame Conn.

(** ** Envelopes *)

Definition envelope (fr op : Z) (key : option bytes) (p : bytes) : bytes :=
  if fr =? CLOAK_CONN_FRAMING_TLS_RECORD then record_header (zlen p) ++ p
  else
    ws_encode (shortest_form (zlen p)) (ws_request op 1 key (zlen p)) ++
    match key with None => p | Some k => mask_bytes k 0 p end.

(** The framing of the other end. *)
Definition peer_framing (fr : Z) : Z :=
  if fr =? CLOAK_CONN_FRAMING_WS_CLIENT then CLOAK_CONN_FRAMING_WS_SERVER
  else if fr =? CLOAK_CONN_FRAMING_WS_SERVER then CLOAK_CONN_FRAMING_WS_CLIENT
  else fr.

Definition framing_ok (fr : Z) : Prop :=
  fr = CLOAK_CONN_FRAMING_TLS_RECORD \/ fr = CLOAK_CONN_FRAMING_WS_CLIENT \/
  fr = CLOAK_CONN_FRAMING_WS_SERVER.

(** ** The receiving machine *)

(** The part of a message that has arrived, and whether one is under way. *)
Record rx_state := RxState { rx_part : bytes; rx_active : bool }.
Definition rx_start : rx_state := RxState [] false.

(** What a taken envelope asks for: hand a frame to the owner, answer a ping,
    nothing (a pong, a fragment), or echo a close and hang up. *)
Inductive rx_act :=
| RxDeliver (frame : bytes)
| RxAnswer (payload : bytes)
| RxNothing
| RxHangup (payload : bytes).

Inductive rx_result :=
| RxWait
| RxBad
| RxTook (n : Z) (a : rx_act) (st : rx_state).

(** What the first bytes say: how long header and body are and what the body
    means, [None] for a body that may not come now. *)
Inductive rx_head :=
| HeadWait
| HeadBad
| Head (hl plen : Z) (meaning : bytes -> option (rx_act * rx_state)).

Definition tls_head (max : Z) (st : rx_state) (buf : bytes) : rx_head :=
  match buf with
  | _ :: _ :: _ :: h3 :: h4 :: _ =>
      let n := h3 * 256 + h4 in
      if max <? n then HeadBad else Head 5 n (fun body => Some (RxDeliver body, st))
  | _ => HeadWait
  end.

Definition ws_unmask (h : cloak_ws_frame_header_t) (data : bytes) : bytes :=
  if wh_masked h =? 0 then data else mask_bytes (wh_mask_key h) 0 data.

(** Data frames: no continuation without a message, no message inside another
    one, and no message longer than [max]. *)
Definition ws_data_meaning (max : Z) (st : rx_state) (h : cloak_ws_frame_header_t) (p : bytes)
    : option (rx_act * rx_state) :=
  let continues := wh_opcode h =? CLOAK_WS_OP_CONTINUATION in
  if negb (eqb continues (rx_active st)) then None
  else if max - zlen (rx_part st) <? wh_payload_len h then None
  else if wh_fin h =? 0 then Some (RxNothing, RxState (rx_part st ++ p) true)
  else Some (RxDeliver (rx_part st ++ p), rx_start).

Definition ws_meaning (max : Z) (st : rx_state) (h : cloak_ws_frame_header_t) (body : bytes)
    : option (rx_act * rx_state) :=
  let p := ws_unmask h body in
  if wh_opcode h =? CLOAK_WS_OP_PING then Some (RxAnswer p, st)
  else if wh_opcode h =? CLOAK_WS_OP_PONG then Some (RxNothing, st)
  else if wh_opcode h =? CLOAK_WS_OP_CLOSE then Some (RxHangup p, st)
  else ws_data_meaning max st h p.

Definition ws_head (peer_must_mask max : Z) (st : rx_state) (buf : bytes) : rx_head :=
  match cloak_ws_frame_parse_header (Some (take 14 buf)) false with
  | None | Some None => HeadBad
  | Some (Some None) => HeadWait
  | Some (Some (Some h)) =>
      if negb (wh_masked h =? peer_must_mask) || (max <? wh_payload_len h) then HeadBad
      else Head (wh_header_len h) (wh_payload_len h) (ws_meaning max st h)
  end.

Definition rx_read_head (fr max : Z) (st : rx_state) (buf : bytes) : rx_head :=
  if fr =? CLOAK_CONN_FRAMING_TLS_RECORD then tls_head max st buf
  else ws_head (b2z (fr =? CLOAK_CONN_FRAMING_WS_SERVER)) max st buf.

Definition rx_step (fr max : Z) (st : rx_state) (buf : bytes) : rx_result :=
  match rx_read_head fr max st buf with
  | HeadWait => RxWait
  | HeadBad => RxBad
  | Head hl plen meaning =>
      if zlen buf <? hl + plen then RxWait
      else
        match meaning (take (Z.to_nat plen) (drop (Z.to_nat hl) buf)) with
        | None => RxBad
        | Some (a, st') => RxTook (hl + plen) a st'
        end
  end.

(** As many envelopes as are there; an envelope that hangs up ends it. *)
Fixpoint rx_loop (fuel : nat) (fr max : Z) (st : rx_state) (buf : bytes)
    : list rx_act * rx_state * bytes :=
  match fuel with
  | O => ([], st, buf)
  | S fuel' =>
      match rx_step fr max st buf with
      | RxTook n a st' =>
          let '(acts, st'', rest) := rx_loop fuel' fr max st' (drop (Z.to_nat n) buf) in
          (a :: acts, st'', rest)
      | _ => ([], st, buf)
      end
  end.

Definition rx_run (fr max : Z) (buf : bytes) : list rx_act :=
  (rx_loop (length buf) fr max rx_start buf).1.1.

(** The frames the owner is given. *)
Definition delivers (acts : list rx_act) : list bytes :=
  omap (fun a => match a with RxDeliver f => Some f | _ => None end) acts.

(** Taking envelopes off a stream, as a relation. *)
Inductive rx_steps (fr max : Z) : rx_state -> bytes -> list rx_act -> rx_state -> bytes -> Prop :=
| rx_stay st buf : rx_steps fr max st buf [] st buf
| rx_take st buf n a st' acts st'' rest :
    rx_step fr max st buf = RxTook n a st' ->
    rx_steps fr max st' (drop (Z.to_nat n) buf) acts st'' rest ->
    rx_steps fr max st buf (a :: acts) st'' rest.

Example rx_two_records :
  rx_run CLOAK_CONN_FRAMING_TLS_RECORD 100
    (envelope CLOAK_CONN_FRAMING_TLS_RECORD 2 None [1; 2; 3] ++
     envelope CLOAK_CONN_FRAMING_TLS_RECORD 2 None [] ++ [23; 3; 3; 0; 9; 9])
  = [RxDeliver [1; 2; 3]; RxDeliver []].
Proof. reflexivity. Qed.

Example rx_fragments :
  rx_run CLOAK_CONN_FRAMING_WS_CLIENT 100
    ([2; 2; 7; 8] ++ [137; 1; 5] ++ [128; 1; 9] ++ [136; 0])
  = [RxNothing; RxAnswer [5]; RxDeliver [7; 8; 9]; RxHangup []].
Proof. reflexivity. Qed.

(** ** The head does not depend on what follows it *)

Section machine.
Variables fr max : Z.
Implicit Types st : rx_state.

Lemma ws_parse_head form h x :
  ws_header_ok form h ->
  cloak_ws_frame_parse_header (Some (take 14 (ws_encode form h ++ x))) false = ok (Some h).
Proof.
  intros Hok. pose proof (ws_header_max form h Hok). unfold zlen in *.
  rewrite take_app, take_ge by lia. by apply ws_parse_complete.
Qed.

Lemma ws_parse_head_inv buf h :
  all_bytes buf -> cloak_ws_frame_parse_header (Some (take 14 buf)) false = ok (Some h) ->
  exists form x, ws_header_ok form h /\ buf = ws_encode form h ++ x.
Proof.
  intros Hb Hp. pose proof (ws_parse_sound (take 14 buf)) as Hs. rewrite Hp in Hs.
  destruct Hs as (form&rest&Hok&Hbuf); [by apply Forall_take|].
  exists form, (rest ++ drop 14 buf). split; [done|]. by rewrite app_assoc, <- Hbuf, take_drop.
Qed.

Lemma rx_head_spec st buf :
  all_bytes buf ->
  match rx_read_head fr max st buf with
  | HeadWait => True
  | HeadBad => forall ext, rx_read_head fr max st (buf ++ ext) = HeadBad
  | Head hl plen k =>
      2 <= hl <= 14 /\ hl <= zlen buf /\ 0 <= plen <= max /\
      forall ext, rx_read_head fr max st (take (Z.to_nat hl) buf ++ ext) = Head hl plen k
  end.
Proof.
  intros Hb. unfold rx_read_head. destruct (fr =? CLOAK_CONN_FRAMING_TLS_RECORD).
  - unfold tls_head. destruct buf as [|b0 [|b1 [|b2 [|h3 [|h4 buf]]]]]; try done.
    assert (0 <= h3 * 256 + h4).
    { unfold all_bytes in Hb. rewrite !Forall_cons in Hb. unfold is_byte in Hb. lia. }
    cbn [app]. destruct (Z.ltb_spec max (h3 * 256 + h4)) as [Hm|Hm]; [done|].
    split_and!; [lia..|zlia|lia|lia|]. intros ext. change (Z.to_nat 5) with 5%nat. cbn.
    by rewrite (proj2 (Z.ltb_ge _ _) Hm).
  - unfold ws_head. set (m := b2z _).
    destruct (cloak_ws_frame_parse_header (Some (take 14 buf)) false) as [[[h|]|]|] eqn:Hp; try done.
    + destruct (ws_parse_head_inv buf h Hb Hp) as (form&x&Hok&->).
      pose proof (ws_header_max form h Hok) as Hl. pose proof (who_header_len _ _ Hok) as Hhl.
      destruct (negb (wh_masked h =? m) || (max <? wh_payload_len h)) eqn:Hc.
      * intros ext. rewrite <- app_assoc, ws_parse_head by done. cbn. by rewrite Hc.
      * assert (He : Z.to_nat (wh_header_len h) = length (ws_encode form h))
          by (by rewrite Hhl, zlen_length).
        pose proof (who_len _ _ Hok). apply orb_false_iff in Hc as Hc'. destruct Hc' as [_ Hmax%Z.ltb_ge].
        split_and!; [lia..|zlia|lia|lia|].
        intros ext. rewrite He, take_app_length, ws_parse_head by done. cbn. by rewrite Hc.
    + intros ext. rewrite take_app, ws_parse_malformed_stable by done. done.
    + pose proof (ws_parse_sound (take 14 buf)) as Hs. rewrite Hp in Hs. destruct Hs.
      by apply Forall_take.
Qed.

(** An envelope that was taken is taken alike when less or more follows it. *)
Lemma rx_step_stable st buf :
  all_bytes buf ->
  match rx_step fr max st buf with
  | RxWait => True
  | RxBad => forall ext, rx_step fr max st (buf ++ ext) = RxBad
  | RxTook n a st' =>
      0 < n <= zlen buf /\
      forall ext, rx_step fr max st (take (Z.to_nat n) buf ++ ext) = RxTook n a st'
  end.
Proof.
  intros Hb. pose proof (rx_head_spec st buf Hb) as Hh. unfold rx_step in *.
  destruct (rx_read_head fr max st buf) as [| |hl plen k]; [done|intros ext; by rewrite Hh|].
  destruct Hh as (Hl&Hhl&Hp&Hh). destruct (Z.ltb_spec (zlen buf) (hl + plen)) as [|Hlen]; [done|].
  assert (Hext : forall ext, rx_read_head fr max st (take (Z.to_nat (hl + plen)) buf ++ ext) =
    Head hl plen k).
  { intros ext. rewrite <- (take_drop (Z.to_nat hl) (take _ buf)), take_take, <- app_assoc.
    replace (Z.to_nat hl `min` Z.to_nat (hl + plen))%nat with (Z.to_nat hl) by lia. apply Hh. }
  assert (Hbody : forall ext, take (Z.to_nat plen) (drop (Z.to_nat hl) (take (Z.to_nat (hl + plen)) buf ++ ext))
    = take (Z.to_nat plen) (drop (Z.to_nat hl) buf)).
  { intros ext. rewrite drop_app_le by (rewrite length_take; unfold zlen in *; lia).
    rewrite skipn_firstn_comm, take_app_le by (rewrite length_take, length_drop; unfold zlen in *; lia).
    rewrite take_take. f_equal. lia. }
  assert (Hcmp : forall ext, (zlen (take (Z.to_nat (hl + plen)) buf ++ ext) <? hl + plen) = false).
  { intros ext. rewrite zlen_app, zlen_take by lia. apply Z.ltb_ge. zlia. }
  destruct (k (take (Z.to_nat plen) (drop (Z.to_nat hl) buf))) as [[a st']|] eqn:Hk.
  - split; [lia|]. intros ext. by rewrite Hext, Hcmp, Hbody, Hk.
  - intros ext. replace (buf ++ ext) with
      (take (Z.to_nat (hl + plen)) buf ++ (drop (Z.to_nat (hl + plen)) buf ++ ext))
      by (by rewrite app_assoc, take_drop).
    by rewrite Hext, Hcmp, Hbody, Hk.
Qed.

(** ** Streams of envelopes *)

Abbreviation steps := (rx_steps fr max).

Lemma rx_steps_suffix st buf acts st' rest :
  steps st buf acts st' rest -> exists n, rest = drop n buf.
Proof.
  induction 1 as [st buf|st buf n a st' acts st'' rest _ _ [m ->]]; [by exists 0%nat|].
  rewrite drop_drop. by eexists.
Qed.

Lemma rx_steps_bytes st buf acts st' rest :
  all_bytes buf -> steps st buf acts st' rest -> all_bytes rest.
Proof. intros Hb [n ->]%rx_steps_suffix. by apply Forall_drop. Qed.

Lemma rx_steps_trans st buf acts st' mid acts' st'' rest :
  steps st buf acts st' mid -> steps st' mid acts' st'' rest ->
  steps st buf (acts ++ acts') st'' rest.
Proof. induction 1; intros; [done|]. eapply rx_take; eauto. Qed.

Lemma rx_steps_one st buf n a st' :
  rx_step fr max st buf = RxTook n a st' -> steps st buf [a] st' (drop (Z.to_nat n) buf).
Proof. intros Hs. eapply rx_take; [exact Hs|apply rx_stay]. Qed.

(** A taken envelope is taken alike when more follows. *)
Lemma rx_step_extend st buf ext n a st' :
  all_bytes buf -> rx_step fr max st buf = RxTook n a st' ->
  0 < n <= zlen buf /\ rx_step fr max st (buf ++ ext) = RxTook n a st'.
Proof.
  intros Hb Hs. pose proof (rx_step_stable st buf Hb) as Hst. rewrite Hs in Hst.
  destruct Hst as [Hn Hst]. split; [done|].
  specialize (Hst (drop (Z.to_nat n) buf ++ ext)). by rewrite app_assoc, take_drop in Hst.
Qed.

Lemma rx_steps_extend st buf acts st' rest ext :
  all_bytes buf -> steps st buf acts st' rest -> steps st (buf ++ ext) acts st' (rest ++ ext).
Proof.
  intros Hb Hs. induction Hs as [st buf|st buf n a st' acts st'' rest Hs _ IH]; [apply rx_stay|].
  destruct (rx_step_extend st buf ext n a st' Hb Hs) as [Hn Hs'].
  eapply rx_take; [exact Hs'|]. rewrite drop_app_le by (unfold zlen in *; lia).
  apply IH. by apply Forall_drop.
Qed.

(** Two ways to take a stream apart differ only in how far they went. *)
Lemma rx_steps_prefix st buf acts st' rest acts' st'' rest' :
  steps st buf acts st' rest -> (forall n a s, rx_step fr max st' rest <> RxTook n a s) ->
  steps st buf acts' st'' rest' -> acts' `prefix_of` acts.
Proof.
  intros Hs Hend. revert acts' st'' rest'.
  induction Hs as [st buf|st buf n a st' acts st1 rest Hs _ IH]; intros acts' st'' rest' Hs'.
  - inversion Hs'; [done|]. subst. exfalso. by eapply Hend.
  - inversion Hs' as [|? ? n' a' s' acts1 ? ? Hs1 Hrest]; [apply prefix_nil|]. subst.
    rewrite Hs in Hs1. injection Hs1 as <- <- <-. apply prefix_cons. by eapply IH.
Qed.

Lemma rx_loop_spec fuel st buf :
  all_bytes buf -> (length buf <= fuel)%nat ->
  let '(acts, st', rest) := rx_loop fuel fr max st buf in
  steps st buf acts st' rest /\ forall n a s, rx_step fr max st' rest <> RxTook n a s.
Proof.
  revert st buf. induction fuel as [|fuel IH]; intros st buf Hb Hf; cbn [rx_loop].
  - destruct buf; [|cbn in Hf; lia]. split; [apply rx_stay|]. intros n a s Hs.
    destruct (rx_step_extend st [] [] n a s Hb Hs) as [Hn _]. change (zlen []) with 0 in Hn. lia.
  - destruct (rx_step fr max st buf) as [| |n a st'] eqn:Hs.
    1,2: split; [apply rx_stay|intros n a s; by rewrite Hs].
    destruct (rx_step_extend st buf [] n a st' Hb Hs) as [Hn _].
    specialize (IH st' (drop (Z.to_nat n) buf)).
    destruct (rx_loop fuel fr max st' _) as [[acts st''] rest].
    destruct IH as [IH1 IH2]; [by apply Forall_drop|rewrite length_drop; unfold zlen in *; lia|].
    split; [|exact IH2]. eapply rx_take; [exact Hs|exact IH1].
Qed.

(** Whatever was taken off a part of a stream is the beginning of what the
    whole stream holds. *)
Lemma rx_run_prefix buf ext acts st rest :
  all_bytes (buf ++ ext) -> steps rx_start buf acts st rest -> acts `prefix_of` rx_run fr max (buf ++ ext).
Proof.
  intros Hb Hs. apply all_bytes_app in Hb as Hb'. destruct Hb' as [Hb1 _].
  pose proof (rx_loop_spec (length (buf ++ ext)) rx_start (buf ++ ext) Hb) as Hl. unfold rx_run.
  destruct (rx_loop _ fr max rx_start _) as [[acts' st'] rest']. destruct Hl as [Hl1 Hl2]; [lia|].
  eapply rx_steps_prefix; [exact Hl1|exact Hl2|]. by apply rx_steps_extend.
Qed.

(** A machine that can take no more has taken everything. *)
Lemma rx_run_exact buf acts st rest :
  all_bytes buf -> steps rx_start buf acts st rest ->
  (forall n a s, rx_step fr max st rest <> RxTook n a s) -> rx_run fr max buf = acts.
Proof.
  intros Hb Hs Hend.
  pose proof (rx_loop_spec (length buf) rx_start buf Hb) as Hl. unfold rx_run.
  destruct (rx_loop _ fr max rx_start _) as [[acts' st'] rest']. destruct Hl as [Hl1 Hl2]; [lia|].
  apply (anti_symm prefix).
  - eapply rx_steps_prefix; [exact Hs|exact Hend|exact Hl1].
  - eapply rx_steps_prefix; [exact Hl1|exact Hl2|exact Hs].
Qed.

End machine.

Lemma delivers_app acts acts' : delivers (acts ++ acts') = delivers acts ++ delivers acts'.
Proof. apply omap_app. Qed.

Lemma delivers_prefix acts acts' : acts `prefix_of` acts' -> delivers acts `prefix_of` delivers acts'.
Proof. intros [k ->]. rewrite delivers_app. by apply prefix_app_r. Qed.

(** ** What one end sends, the other end takes *)

(** A frame in a queue: its opcode, its mask key and its payload. *)
Record queued_ok (fr max op : Z) (key : option bytes) (p : bytes) : Prop := {
  qo_bytes : all_bytes p;
  qo_len : zlen p <= max;
  qo_op : op = CLOAK_WS_OP_BINARY \/
          fr <> CLOAK_CONN_FRAMING_TLS_RECORD /\ zlen p <= CLOAK_WS_FRAME_MAX_CONTROL_PAYLOAD /\
          (op = CLOAK_WS_OP_PONG \/ op = CLOAK_WS_OP_CLOSE);
  qo_key : match key with
           | None => fr <> CLOAK_CONN_FRAMING_WS_CLIENT
           | Some k => fr = CLOAK_CONN_FRAMING_WS_CLIENT /\ zlen k = 4 /\ all_bytes k
           end
}.

(** What the peer does with it. *)
Definition sent_act (op : Z) (p : bytes) : rx_act :=
  if op =? CLOAK_WS_OP_PONG then RxNothing
  else if op =? CLOAK_WS_OP_CLOSE then RxHangup p else RxDeliver p.

Definition max_ok (max : Z) : Prop := 0 < max <= CLOAK_CONN_MAX_FRAME_LEN.

Lemma record_header_be n : 0 <= n < 65536 -> record_header n = [23; 3; 3] ++ be_bytes 2 n.
Proof.
  intros Hn. unfold record_header. change (be_bytes 2 n) with [n / 256 mod 256; n mod 256].
  rewrite Z.shiftr_div_pow2 by lia. change 255 with (Z.ones 8). rewrite !Z.land_ones by lia.
  change (2 ^ 8) with 256. unfold u8. by rewrite !(Z.mod_mod _ 256) by lia.
Qed.

Lemma mask_bytes_bytes k pos p : all_bytes k -> all_bytes p -> all_bytes (mask_bytes k pos p).
Proof.
  intros Hk Hp. revert pos. induction Hp as [|b p Hb _ IH]; intros pos; [apply all_bytes_nil|].
  cbn [mask_bytes]. apply all_bytes_cons. split; [|apply IH].
  destruct (k.[pos mod 4]) as [x|] eqn:E; cbn.
  - apply mem_get_inv in E as [_ E]. apply lxor_byte; [done|].
    unfold all_bytes in Hk. rewrite Forall_lookup in Hk. by eapply Hk.
  - apply lxor_byte; [done|]. unfold is_byte. lia.
Qed.

(** What the machine hands out is made of the bytes it was fed. *)
Definition act_bytes (a : rx_act) : Prop :=
  match a with RxDeliver f | RxAnswer f | RxHangup f => all_bytes f | RxNothing => True end.

Lemma ws_header_key buf h :
  all_bytes buf -> cloak_ws_frame_parse_header (Some (take 14 buf)) false = ok (Some h) ->
  all_bytes (wh_mask_key h).
Proof.
  intros Hb Hp. destruct (ws_parse_head_inv buf h Hb Hp) as (form&x&Hok&->).
  destruct (wh_masked h =? 1) eqn:Hm.
  - unfold ws_encode in Hb. rewrite Hm, !all_bytes_app in Hb. tauto.
  - rewrite (who_key _ _ Hok); [by apply all_bytesb_sound|]. apply Z.eqb_neq in Hm.
    by destruct (who_masked _ _ Hok).
Qed.

Lemma unmask_bytes h p : all_bytes (wh_mask_key h) -> all_bytes p -> all_bytes (ws_unmask h p).
Proof.
  intros Hk Hp. unfold ws_unmask. destruct (wh_masked h =? 0); [done|]. by apply mask_bytes_bytes.
Qed.

Lemma rx_step_bytes fr max st buf n a st' :
  all_bytes buf -> all_bytes (rx_part st) -> rx_step fr max st buf = RxTook n a st' ->
  act_bytes a /\ all_bytes (rx_part st').
Proof.
  intros Hb Hst. unfold rx_step.
  destruct (rx_read_head fr max st buf) as [| |hl plen k] eqn:Hh; [done|done|].
  case_if; [done|]. set (body := take _ _).
  assert (Hbody : all_bytes body) by (by apply Forall_take, Forall_drop).
  destruct (k body) as [[a' s']|] eqn:Hk; [|done]. intros [= <- <- <-].
  unfold rx_read_head in Hh. case_if_in Hh.
  - unfold tls_head in Hh. repeat case_match; try done. injection Hh as <- <- <-.
    by injection Hk as <- <-.
  - unfold ws_head in Hh. repeat case_match; try done. injection Hh as <- <- <-.
    match goal with H : cloak_ws_frame_parse_header _ _ = _ |- _ => rename H into Hp end.
    pose proof (unmask_bytes _ body (ws_header_key _ _ Hb Hp) Hbody) as Hu.
    unfold ws_meaning, ws_data_meaning in Hk.
    repeat case_match; try done; injection Hk as <- <-; cbn; rewrite ?all_bytes_app; auto.
    by split; [|apply all_bytes_nil].
Qed.

Lemma rx_steps_acts fr max st buf acts st' rest :
  all_bytes buf -> all_bytes (rx_part st) -> rx_steps fr max st buf acts st' rest ->
  Forall act_bytes acts /\ all_bytes (rx_part st').
Proof.
  intros Hb Hst Hs. induction Hs as [st buf|st buf n a st' acts st'' rest Hs _ IH]; [done|].
  destruct (rx_step_bytes _ _ _ _ _ _ _ Hb Hst Hs) as [Ha Hst'].
  destruct IH as [Hacts Hpart]; [by apply Forall_drop|done|]. split; [|done]. by apply Forall_cons.
Qed.

Lemma envelope_tls op key p ext :
  envelope CLOAK_CONN_FRAMING_TLS_RECORD op key p ++ ext = record_header (zlen p) ++ p ++ ext.
Proof. unfold envelope. by rewrite Z.eqb_refl, <- app_assoc. Qed.

Lemma tls_step_envelope max st op key p ext :
  max_ok max -> zlen p <= max ->
  rx_step CLOAK_CONN_FRAMING_TLS_RECORD max st (envelope CLOAK_CONN_FRAMING_TLS_RECORD op key p ++ ext) =
    RxTook (zlen (envelope CLOAK_CONN_FRAMING_TLS_RECORD op key p)) (RxDeliver p) st.
Proof.
  intros [_ Hmax] Hp. unfold CLOAK_CONN_MAX_FRAME_LEN in Hmax. pose proof (zlen_nonneg p) as H0.
  rewrite <- (app_nil_r (envelope _ _ _ p)) at 2. rewrite !envelope_tls, app_nil_r.
  rewrite record_header_be by lia. unfold rx_step, rx_read_head. rewrite Z.eqb_refl.
  change (be_bytes 2 (zlen p)) with [zlen p / 256 mod 256; zlen p mod 256]. cbn [app tls_head].
  replace (zlen p / 256 mod 256 * 256 + zlen p mod 256) with (zlen p) by dlia.
  rewrite (proj2 (Z.ltb_ge max (zlen p))) by done. change (Z.to_nat 5) with 5%nat. cbn [drop].
  rewrite drop_0, zlen_length, take_app_length, (proj2 (Z.ltb_ge _ _)) by zlia. f_equal. zlia.
Qed.

(** The opcodes that are sent. *)
Lemma sent_opcode op :
  op = CLOAK_WS_OP_BINARY \/ op = CLOAK_WS_OP_PONG \/ op = CLOAK_WS_OP_CLOSE ->
  ws_opcode_is_known op = true.
Proof. by intros [->|[->| ->]]. Qed.

Lemma queued_request fr max op key p :
  max_ok max -> queued_ok fr max op key p -> ws_request_ok op 1 key (zlen p).
Proof.
  intros [_ Hmax] [Hb Hl Hop Hk]. unfold CLOAK_CONN_MAX_FRAME_LEN in Hmax. pose proof (zlen_nonneg p).
  split_and!; [apply sent_opcode; tauto|lia|lia| |].
  - intros Hc. split; [|done]. destruct Hop as [->|(_&?&_)]; [done|done].
  - intros k ->. by destruct Hk as (_&?&_).
Qed.

Lemma ws_step_envelope fr max op key p ext :
  max_ok max -> framing_ok fr -> fr <> CLOAK_CONN_FRAMING_TLS_RECORD -> queued_ok fr max op key p ->
  rx_step (peer_framing fr) max rx_start (envelope fr op key p ++ ext) =
    RxTook (zlen (envelope fr op key p)) (sent_act op p) rx_start.
Proof.
  intros Hmax Hfr Htls Hq. pose proof (queued_request fr max op key p Hmax Hq) as Hreq.
  pose proof (ws_request_header _ _ _ _ Hreq) as Hok. destruct Hq as [Hb Hl Hop Hk].
  unfold envelope. rewrite (proj2 (Z.eqb_neq fr _) Htls).
  set (h := ws_request op 1 key (zlen p)) in *. set (e := ws_encode (shortest_form (zlen p)) h).
  set (data := match key with None => p | Some k => mask_bytes k 0 p end).
  assert (Hd : zlen data = zlen p) by (destruct key; [apply mask_bytes_length|done]).
  assert (Hm : wh_masked h = b2z (peer_framing fr =? CLOAK_CONN_FRAMING_WS_SERVER)).
  { destruct key as [k|], Hfr as [->|[->| ->]]; try done; by destruct Hk. }
  assert (Hu : ws_unmask h data = p).
  { unfold ws_unmask, data, h, ws_request. destruct key as [k|]; [|done]. cbn.
    apply mask_bytes_involutive. }
  assert (Hpl : wh_payload_len h = zlen p) by done. assert (Hopc : wh_opcode h = op) by done.
  pose proof (who_header_len _ _ Hok) as Hhl. fold e in Hhl.
  unfold rx_step, rx_read_head. rewrite (proj2 (Z.eqb_neq (peer_framing fr) _))
    by (by destruct Hfr as [->|[->| ->]]).
  unfold ws_head. rewrite <- app_assoc. unfold e. rewrite (ws_parse_head _ _ _ Hok). fold e.
  cbn [ok]. rewrite Hm, Z.eqb_refl, Hpl, (proj2 (Z.ltb_ge max _) Hl). cbn [negb orb].
  rewrite Hhl, !zlen_app, (proj2 (Z.ltb_ge _ _)) by zlia.
  rewrite (zlen_length e), drop_app_length, <- Hd, (zlen_length data), take_app_length.
  unfold ws_meaning. rewrite Hu, Hopc. unfold sent_act.
  destruct Hop as [->|(_&_&[->| ->])]; try done. cbn. unfold ws_data_meaning. cbn.
  change (zlen []) with 0. rewrite Z.sub_0_r. by rewrite (proj2 (Z.ltb_ge _ _) Hl).
Qed.

(** The peer takes an envelope whole, whatever follows it. *)
Lemma rx_step_envelope fr max op key p ext :
  max_ok max -> framing_ok fr -> queued_ok fr max op key p ->
  rx_step (peer_framing fr) max rx_start (envelope fr op key p ++ ext) =
    RxTook (zlen (envelope fr op key p)) (sent_act op p) rx_start.
Proof.
  intros Hmax Hfr Hq. destruct (decide (fr = CLOAK_CONN_FRAMING_TLS_RECORD)) as [->|Htls].
  - change (peer_framing _) with CLOAK_CONN_FRAMING_TLS_RECORD.
    rewrite tls_step_envelope by (try done; by apply (qo_len _ _ _ _ _ Hq)).
    by destruct (qo_op _ _ _ _ _ Hq) as [->|[? _]].
  - by apply ws_step_envelope.
Qed.

Lemma ws_encode_bytes form h :
  ws_header_ok form h -> all_bytes (wh_mask_key h) -> all_bytes (ws_encode form h).
Proof.
  intros [Hop Hfin Hm Hn _ _ _ _] Hk. destruct (first_byte_fields _ _ Hfin Hop) as [H0 _].
  unfold ws_encode. rewrite !all_bytes_app. split_and!.
  - apply all_bytes_cons. split; [exact H0|]. apply all_bytes_cons. split; [|apply all_bytes_nil].
    unfold is_byte. destruct form, Hm as [->| ->]; cbn in *; lia.
  - destruct form; cbn [form_ext]; [apply all_bytes_nil|apply be_bytes_all_bytes..].
  - destruct (wh_masked h =? 1); [exact Hk|apply all_bytes_nil].
Qed.

Lemma envelope_bytes fr max op key p :
  max_ok max -> queued_ok fr max op key p -> all_bytes (envelope fr op key p).
Proof.
  intros Hmax Hq. pose proof (queued_request fr max op key p Hmax Hq) as Hreq.
  destruct Hq as [Hb Hl _ Hk]. unfold envelope. destruct (fr =? _).
  - apply all_bytes_app. split; [|done]. unfold record_header.
    repeat (apply all_bytes_cons; split; [first [apply u8_is_byte|done]|]). apply all_bytes_nil.
  - apply all_bytes_app. split.
    + apply ws_encode_bytes; [by apply ws_request_header|].
      destruct key as [k|]; cbn; [by destruct Hk as (_&_&?)|]. by apply all_bytesb_sound.
    + destruct key as [k|]; [|done]. apply mask_bytes_bytes; [|done]. by destruct Hk as (_&_&?).
Qed.

(** ** A whole conversation *)

Record queued := QueuedFrame { q_op : Z; q_key : option bytes; q_payload : bytes }.

Definition queued_env (fr : Z) (q : queued) : bytes := envelope fr (q_op q) (q_key q) (q_payload q).
Definition queued_act (q : queued) : rx_act := sent_act (q_op q) (q_payload q).
Definition queued_good (fr max : Z) (q : queued) : Prop :=
  queued_ok fr max (q_op q) (q_key q) (q_payload q).
Definition wire (fr : Z) (qs : list queued) : bytes := concat (map (queued_env fr) qs).

(** The length that is billed and checked for is that of the envelope. *)
Lemma envelope_length max op key p c :
  max_ok max -> queued_ok (framing c) max op key p ->
  zlen (envelope (framing c) op key p) = cloak_conn_envelope_len (Some c) (zlen p).
Proof.
  intros Hmax Hq. pose proof (queued_request _ _ _ _ _ Hmax Hq) as Hreq.
  pose proof (ws_request_header _ _ _ _ Hreq) as Hok. destruct Hmax as [_ Hmax].
  destruct Hq as [_ Hl _ Hk]. unfold CLOAK_CONN_MAX_FRAME_LEN in Hmax. pose proof (zlen_nonneg p).
  unfold envelope, cloak_conn_envelope_len, CLOAK_CONN_RECORD_HEADER_LEN.
  destruct (Z.eqb_spec (framing c) CLOAK_CONN_FRAMING_TLS_RECORD) as [|Htls]; rewrite zlen_app.
  { rewrite u64_small by lia. done. }
  rewrite ws_encode_length, form_ext_length by apply Hok. unfold conn_ws_envelope_len, CLOAK_WS_FRAME_MAX_CONTROL_PAYLOAD.
  unfold shortest_form. cbn [wh_masked ws_request wh_payload_len].
  destruct (Z.leb_spec (zlen p) 125), (Z.ltb_spec 125 (zlen p)); try lia;
    [|rewrite (proj2 (Z.leb_le (zlen p) 65535)) by lia];
    (destruct key as [k|]; [destruct Hk as (->&_)|rewrite (proj2 (Z.eqb_neq _ _) Hk)]);
    cbn; rewrite ?mask_bytes_length, u64_small; lia.
Qed.

Lemma wire_bytes fr max qs : max_ok max -> Forall (queued_good fr max) qs -> all_bytes (wire fr qs).
Proof.
  intros Hmax Hqs. induction Hqs as [|q qs Hq _ IH]; [apply all_bytes_nil|].
  apply all_bytes_app. split; [by apply (envelope_bytes fr max)|exact IH].
Qed.

Lemma wire_steps fr max qs :
  max_ok max -> framing_ok fr -> Forall (queued_good fr max) qs ->
  rx_steps (peer_framing fr) max rx_start (wire fr qs) (map queued_act qs) rx_start [].
Proof.
  intros Hmax Hfr Hqs. induction Hqs as [|q qs Hq _ IH]; [apply rx_stay|].
  eapply rx_take; [by apply rx_step_envelope|].
  fold (queued_env fr q). rewrite zlen_length. cbn [wire map concat]. by rewrite drop_app_length.
Qed.

(** Frames wrapped by one end and concatenated into a stream
    are given back, in order and with the right meaning, by the other end's
    reading of that stream, for records and for WebSocket messages in both
    directions. *)
Lemma wire_roundtrip fr max qs :
  max_ok max -> framing_ok fr -> Forall (queued_good fr max) qs ->
  rx_run (peer_framing fr) max (wire fr qs) = map queued_act qs.
Proof.
  intros Hmax Hfr Hqs. eapply rx_run_exact; [by apply (wire_bytes fr max)|by apply wire_steps|].
  intros n a s. unfold rx_step, rx_read_head. by destruct (_ =? _).
Qed.
