(* ===== verification/ConnInv.v ===== *)
(** * The invariant of a connection, and sending

    What holds of a connection ([Conn]) between any two of its steps, for any
    owner whose callbacks keep it: the bytes handed to the kernel and those
    still queued are the envelopes of the frames that were accepted
    ([sending]), the frames the owner was given are those the receiving
    machine of [Envelope] takes from the bytes read so far ([receiving]), and
    the event loop is told what the connection waits for ([controlled]).  The
    second half proves that the sending side keeps it. *)
From S2P Require Import Prelude Fallible Random Ring ByteQueue Valve WsFrame ReactorApi Conn Envelope.

(** ** Observations *)

Definition envelopes (log : list conn_event) : list bytes :=
  omap (fun e => match e with Envelope f => Some f | _ => None end) log.
Definition queued_frames (log : list conn_event) : list queued :=
  omap (fun e => match e with Queued op key p => Some (QueuedFrame op key p) | _ => None end) log.
Definition closings (log : list conn_event) : list conn_event :=
  omap (fun e => match e with Closed => Some Closed | _ => None end) log.

(** The largest envelope that can arrive. *)
Definition recv_envelope_len (fr max : Z) : Z :=
  if fr =? CLOAK_CONN_FRAMING_TLS_RECORD then CLOAK_CONN_RECORD_HEADER_LEN + max
  else conn_ws_envelope_len max (negb (fr =? CLOAK_CONN_FRAMING_WS_CLIENT)).

(** The machine's state is in the message buffer. *)
Definition rx_of (c : cloak_conn) : rx_state :=
  RxState (take (Z.to_nat (ws_msg_len c)) (recv_scratch c)) (negb (ws_msg_active c =? 0)).

(** ** The invariant *)

(** Sizes and blocks.  The invariants are conjunctions, not records, so that
    an update of a field they do not mention leaves them convertible. *)
Definition shaped (c : cloak_conn) : Prop :=
  framing_ok (framing c) /\ max_ok (max_frame_len c) /\
  (framing c = CLOAK_CONN_FRAMING_TLS_RECORD ->
   max_envelope_len c = CLOAK_CONN_RECORD_HEADER_LEN + max_frame_len c /\ ws_msg_len c = 0) /\
  (bq_wf (recv_acc c) /\ bq_closed (recv_acc c) = false /\
   bq_cap (recv_acc c) = 2 * recv_envelope_len (framing c) (max_frame_len c)) /\
  (bq_wf (send_q c) /\ bq_closed (send_q c) = false) /\
  zlen (recv_scratch c) = recv_envelope_len (framing c) (max_frame_len c) /\
  0 <= ws_msg_len c <= max_frame_len c.

Definition receiving (c : cloak_conn) (got : bytes) (log : list conn_event) : Prop :=
  all_bytes got /\
  exists acts,
    rx_steps (framing c) (max_frame_len c) rx_start got acts (rx_of c) (bq_contents (recv_acc c)) /\
    envelopes log = if on_envelope_set c then delivers acts else [].

Definition sending (c : cloak_conn) (out : bytes) (log : list conn_event) : Prop :=
  out ++ bq_contents (send_q c) = wire (framing c) (queued_frames log) /\
  Forall (queued_good (framing c) (max_frame_len c)) (queued_frames log).

Section inv.
Context {R W : Type} {RR : Reactor R}.

(** The socket is watched until the end, and for [mask], unless the kernel has
    refused a mask ([cloak_reactor_mod_fd] failed, which the source ignores). *)
Definition watched_for (c : cloak_conn) (mask : Z) (r : R) : Prop :=
  (watching r (c_fd c) <-> broken c = 0) /\
  (mod_reliable (R := R) -> broken c = 0 -> interest_in r (c_fd c) = Some mask).

Definition controlled (c : cloak_conn) (r : R) (log : list conn_event) : Prop :=
  reactor_ok r /\
  watched_for c (interest c) r /\
  (rx_resume_timer c <> CLOAK_TIMER_INVALID -> armed r (rx_resume_timer c)) /\
  interest c = conn_desired_interest c /\
  (broken c = 0 -> read_paused c <> 0 -> rx_resume_timer c <> CLOAK_TIMER_INVALID) /\
  closings log = (if negb (broken c =? 0) && on_closed_set c then [Closed] else []).

(** The valve counts every byte that is read, so it must have room for what
    the peer will send. *)
Definition valve_room (v : option cloak_valve_t) (coming : list bytes) : Prop :=
  valve_ok v /\ 0 <= cloak_valve_rx v /\ cloak_valve_rx v + zlen (concat coming) <= INT64_MAX /\
  0 <= cloak_valve_tx v <= INT64_MAX.

Definition surroundings (v : option cloak_valve_t) (env : option Z -> Z) (r : rand)
    (coming : list bytes) : Prop :=
  valve_room v coming /\ env_ok env /\ rand_ok r /\ Forall all_bytes coming.

Implicit Types w : conn_world R W.

(** What the constructor chose and nothing changes. *)
Definition fixed_config (c : cloak_conn) :=
  (c_fd c, framing c, max_frame_len c, on_envelope_set c, on_closed_set c).

(** ** Bystanders

    The event loop, the valve and the generator are shared with other parts of
    the program.  A step of a connection touches its own watch and its own
    timer, and what it charges to the valve it has read from its socket. *)
Record own_step w w' : Prop := {
  os_user : w_user w' = w_user w;
  os_config : fixed_config (w_conn w') = fixed_config (w_conn w);
  os_broken : broken (w_conn w) <> 0 -> broken (w_conn w') <> 0;
  os_clock : w_clock w' = w_clock w;
  os_reactor : reactor_ok (w_reactor w) -> reactor_ok (w_reactor w');
  os_watch f : f <> c_fd (w_conn w) -> interest_in (w_reactor w') f = interest_in (w_reactor w) f;
  os_timer t : t <> rx_resume_timer (w_conn w) -> armed (w_reactor w) t -> armed (w_reactor w') t;
  os_aged : aged (w_reactor w) (w_reactor w');
  os_fresh : rx_resume_timer (w_conn w') = rx_resume_timer (w_conn w) \/
    rx_resume_timer (w_conn w') = CLOAK_TIMER_INVALID \/
    ~ spent (w_reactor w) (rx_resume_timer (w_conn w'));
  os_valve_ok : valve_ok (w_valve w) -> valve_ok (w_valve w');
  os_valve_rx : cloak_valve_rx (w_valve w') + zlen (concat (k_in w')) <=
    cloak_valve_rx (w_valve w) + zlen (concat (k_in w));
  os_valve_pos : 0 <= cloak_valve_rx (w_valve w) -> 0 <= cloak_valve_rx (w_valve w');
  os_valve_tx : cloak_valve_tx (w_valve w') = cloak_valve_tx (w_valve w);
  os_valve_null : w_valve w' = None <-> w_valve w = None;
  os_rand : later (w_rand w) (w_rand w')
}.

(** What the rest of the program relies on, that the owner has been told of the
    end, and that such a step keeps both. *)
Class Bystanders := {
  others : conn_world R W -> Prop;
  told : conn_world R W -> Prop;
  others_stable w w' : others w -> own_step w w' -> others w';
  told_stable w w' : told w -> own_step w w' -> told w'
}.
Context {BY : Bystanders}.

(** In the middle of a drain the interest in writing may not be set yet. *)
Definition conn_self w : Prop :=
  shaped (w_conn w) /\
  receiving (w_conn w) (k_read w) (w_log w) /\
  sending (w_conn w) (k_out w) (w_log w) /\
  controlled (w_conn w) (w_reactor w) (w_log w) /\
  surroundings (w_valve w) (w_clock w) (w_rand w) (k_in w).

Definition told_if_broken w : Prop :=
  on_closed_set (w_conn w) = true -> broken (w_conn w) <> 0 -> told w.

Definition conn_base w : Prop := conn_self w /\ others w /\ told_if_broken w.

(** Queued bytes wait for the socket to become writable. *)
Definition settled (c : cloak_conn) : Prop :=
  broken c = 0 -> want_writable c = 0 -> bq_contents (send_q c) = [].

Definition conn_inv w : Prop := conn_base w /\ settled (w_conn w).

(** ** What a callback may not touch

    The owner may queue frames, break the connection and use the event loop;
    the receive side of the connection belongs to the connection. *)
Definition rx_side (c : cloak_conn) :=
  (c_fd c, framing c, max_frame_len c, max_envelope_len c, max_recv_envelope_len c,
   (recv_acc c, recv_scratch c, ws_msg_len c, ws_msg_active c, on_envelope_set c, on_closed_set c)).

Definition keeps w w' : Prop :=
  rx_side (w_conn w') = rx_side (w_conn w) /\
  (k_in w', k_end w', k_read w') = (k_in w, k_end w, k_read w) /\
  (broken (w_conn w) <> 0 -> broken (w_conn w') <> 0) /\
  exists more, w_log w' = w_log w ++ more /\ envelopes more = [].

Variable on_envelope : bytes -> conn_world R W -> option (conn_world R W).
Variable on_closed : conn_world R W -> option (conn_world R W).
Variable on_drained : conn_world R W -> option (conn_world R W).

(** The owner: its callbacks return, keep the invariant and keep their hands
    off the receive side. *)
Record owner_ok : Prop := {
  own_envelope frame w :
    conn_inv w -> all_bytes frame -> zlen frame <= max_frame_len (w_conn w) -> exists w', on_envelope frame w = Some w' /\ conn_inv w' /\ keeps w w';
  own_closed w :
    conn_self w -> others w -> broken (w_conn w) <> 0 -> exists w', on_closed w = Some w' /\ conn_inv w' /\ keeps w w';
  own_drained w :
    conn_inv w -> exists w', on_drained w = Some w' /\ conn_inv w' /\ keeps w w'
}.

End inv.

(** ** Lemmas on the observations *)

Lemma envelopes_app l l' : envelopes (l ++ l') = envelopes l ++ envelopes l'.
Proof. apply omap_app. Qed.
Lemma queued_frames_app l l' : queued_frames (l ++ l') = queued_frames l ++ queued_frames l'.
Proof. apply omap_app. Qed.
Lemma closings_app l l' : closings (l ++ l') = closings l ++ closings l'.
Proof. apply omap_app. Qed.

Section keeps.
Context {R W : Type}.
Implicit Types w : conn_world R W.

Lemma conn_keeps_refl w : keeps w w.
Proof. split_and!; [done..|]. exists []. by rewrite app_nil_r. Qed.

Lemma conn_keeps_trans w1 w2 w3 : keeps w1 w2 -> keeps w2 w3 -> keeps w1 w3.
Proof.
  intros (A1&B1&C1&m1&L1&E1) (A2&B2&C2&m2&L2&E2). split_and!.
  - congruence.
  - congruence.
  - tauto.
  - exists (m1 ++ m2). rewrite L2, L1, app_assoc, envelopes_app, E1, E2. done.
Qed.

End keeps.

#[export] Hint Resolve later_refl : core.
Create HintDb cloak_conn.
#[export] Hint Resolve conn_keeps_refl : cloak_conn.

#[global] Arguments own_step {R W RR} _ _.
#[global] Arguments Bystanders R W {RR}.

(** Nobody else. *)
#[export] Instance nobody {R W : Type} {RR : Reactor R} : Bystanders R W | 100 :=
  {| others _ := True; told _ := True; others_stable _ _ _ _ := I; told_stable _ _ _ _ := I |}.

(** ** Steps that the sending side is made of *)

Section sending.
Context {R W : Type} {RR : Reactor R} {RL : ReactorLaws R} {BY : Bystanders R W}.
Implicit Types w : conn_world R W.

(** A step that leaves what is shared alone. *)
Lemma own_private w w' :
  w_user w' = w_user w -> fixed_config (w_conn w') = fixed_config (w_conn w) ->
  (broken (w_conn w) <> 0 -> broken (w_conn w') <> 0) ->
  rx_resume_timer (w_conn w') = rx_resume_timer (w_conn w) -> w_reactor w' = w_reactor w ->
  (w_clock w', w_valve w', k_in w') = (w_clock w, w_valve w, k_in w) ->
  later (w_rand w) (w_rand w') -> own_step w w'.
Proof.
  intros Hu Hf Hbr Ht Hr Hs Hrand. injection Hs as Hc Hv Hk.
  split; rewrite ?Hr, ?Hv, ?Hk; auto; done.
Qed.

(** The shared reactor changes, the rest does not. *)
Lemma own_reactor w w' :
  w_user w' = w_user w -> fixed_config (w_conn w') = fixed_config (w_conn w) ->
  (broken (w_conn w) <> 0 -> broken (w_conn w') <> 0) ->
  (w_clock w', w_valve w', k_in w', w_rand w') = (w_clock w, w_valve w, k_in w, w_rand w) ->
  reactor_ok (w_reactor w') ->
  (forall f, f <> c_fd (w_conn w) -> interest_in (w_reactor w') f = interest_in (w_reactor w) f) ->
  (forall t, t <> rx_resume_timer (w_conn w) -> armed (w_reactor w) t -> armed (w_reactor w') t) ->
  aged (w_reactor w) (w_reactor w') ->
  rx_resume_timer (w_conn w') = rx_resume_timer (w_conn w) \/
    rx_resume_timer (w_conn w') = CLOAK_TIMER_INVALID \/ ~ spent (w_reactor w) (rx_resume_timer (w_conn w')) ->
  own_step w w'.
Proof.
  intros Hu Hf Hbr Hs Hr Hw Ht Hag Hfr. injection Hs as Hc Hv Hk Hrd.
  split; rewrite ?Hv, ?Hk, ?Hrd; auto; done.
Qed.

Lemma base_own w w' :
  conn_base w -> conn_self w' -> own_step w w' -> broken (w_conn w') = broken (w_conn w) -> conn_base w'.
Proof.
  intros [_ [Ho Ht]] Hs Hstep Hb. split; [exact Hs|]. split; [by eapply others_stable|].
  pose proof (os_config _ _ Hstep) as Hc. unfold fixed_config in Hc. injection Hc as _ _ _ _ Hc.
  intros Hon Hbr. rewrite Hc in Hon. rewrite Hb in Hbr. by eapply told_stable; [apply Ht|].
Qed.

(** The interest mask that goes with the flags. *)
Definition rewanted (c : cloak_conn) (writable paused timer : Z) : cloak_conn :=
  with_wanted c writable paused timer (conn_desired_interest (with_wanted c writable paused timer 0)).

(** Only the mask of the connection's own socket changes, to [mask]. *)
Definition rewatched (c : cloak_conn) (mask : Z) (r r' : R) : Prop :=
  (forall f, f <> c_fd c -> interest_in r' f = interest_in r f) /\
  (watching r' (c_fd c) <-> watching r (c_fd c)) /\
  (mod_reliable (R := R) -> watching r (c_fd c) -> interest_in r' (c_fd c) = Some mask).

Lemma desired_mask c : Z.land (conn_desired_interest c) 3 = conn_desired_interest c.
Proof. unfold conn_desired_interest. by destruct (read_paused c =? 0), (want_writable c =? 0). Qed.

Lemma rewatched_watched c c' mask r r' :
  c_fd c' = c_fd c -> broken c' = broken c -> (watching r (c_fd c) <-> broken c = 0) ->
  rewatched c mask r r' -> watched_for c' mask r'.
Proof.
  intros Hfd Hbr Hw (_&Hs&Hm). unfold watched_for. rewrite Hfd, Hbr. split; [by rewrite Hs|].
  intros Hr Hz. apply Hm; [done|]. by apply Hw.
Qed.

(** The other watches and the other timers of the program go through, in two steps. *)
Lemma rewatched_same c mask r1 r2 r3 : same_watches r1 r2 -> rewatched c mask r2 r3 -> rewatched c mask r1 r3.
Proof.
  intros Hs (Hf&Hw&Hm). split; [|split].
  - intros f Hne. by rewrite Hf, (Hs f).
  - by rewrite Hw, (same_watches_watched _ _ Hs _).
  - intros Hr Hx. apply Hm; [done|]. by apply (same_watches_watched _ _ Hs).
Qed.

Lemma watched_same c c' mask r r' :
  c_fd c' = c_fd c -> broken c' = broken c -> watched_for c mask r -> same_watches r r' -> watched_for c' mask r'.
Proof.
  intros Hfd Hbr [Hw Hm] Hs. unfold watched_for. rewrite Hfd, Hbr, (Hs _), (same_watches_watched _ _ Hs _). by split.
Qed.

(** A mask that stays. *)
Lemma same_rewatched c r r' : watched_for c (interest c) r -> same_watches r r' -> rewatched c (interest c) r r'.
Proof.
  intros [Hw Hm] Hs. split; [intros f _; apply Hs|]. split; [by rewrite (same_watches_watched _ _ Hs _)|].
  intros Hr Hx. rewrite (Hs _). apply Hm; [done|]. by apply Hw.
Qed.

Lemma base_wanted w writable paused timer r :
  conn_base w -> reactor_ok r ->
  rewatched (w_conn w) (interest (rewanted (w_conn w) writable paused timer)) (w_reactor w) r ->
  aged (w_reactor w) r ->
  (timer <> CLOAK_TIMER_INVALID -> armed r timer) ->
  (broken (w_conn w) = 0 -> paused <> 0 -> timer <> CLOAK_TIMER_INVALID) ->
  (forall t, t <> rx_resume_timer (w_conn w) -> armed (w_reactor w) t -> armed r t) ->
  (timer = rx_resume_timer (w_conn w) \/ timer = CLOAK_TIMER_INVALID \/ ~ spent (w_reactor w) timer) ->
  let w' := set_reactor (set_conn w (rewanted (w_conn w) writable paused timer)) r in
  conn_base w' /\ keeps w w'.
Proof.
  intros Hb Hok Hsame Hag Ha Hp Hother Hfresh. pose proof Hb as [(Hs&Hr&Ht&(_&[Hw _]&_&_&_&Hc)&Hv) _]. split.
  - eapply base_own; [exact Hb| |apply own_reactor; try done; apply Hsame|done]. split; [exact Hs|]. split; [exact Hr|]. split; [exact Ht|]. split; [|exact Hv].
    split; [exact Hok|]. split; [|split; [exact Ha|split; [done|split; [exact Hp|exact Hc]]]].
    by eapply (rewatched_watched (w_conn w)).
  - split_and!; [done..|]. exists []. by rewrite app_nil_r.
Qed.

Lemma sync_eq w :
  reactor_ok (w_reactor w) -> watched_for (w_conn w) (interest (w_conn w)) (w_reactor w) ->
  exists r,
    conn_sync_interest w =
      set_reactor (set_conn w (rewanted (w_conn w) (want_writable (w_conn w)) (read_paused (w_conn w))
                                 (rx_resume_timer (w_conn w)))) r /\
    reactor_ok r /\ rewatched (w_conn w) (conn_desired_interest (w_conn w)) (w_reactor w) r /\
    same_timers (w_reactor w) r /\ aged (w_reactor w) r.
Proof.
  intros Hok Hwf. unfold conn_sync_interest. set (ev := conn_desired_interest _).
  assert (Hev : conn_desired_interest (with_wanted (w_conn w) (want_writable (w_conn w))
    (read_paused (w_conn w)) (rx_resume_timer (w_conn w)) 0) = ev) by done.
  unfold rewanted. rewrite Hev. destruct (Z.eqb_spec ev (interest (w_conn w))) as [->|_].
  - exists (w_reactor w). split_and!; [by destruct w as [[]]|done| |done..]. by apply same_rewatched.
  - destruct (r_mod_fd (w_reactor w) (c_fd (w_conn w)) ev) as [v r] eqn:Hm.
    destruct (mod_fd_law _ _ _ _ _ Hok Hm) as (H1&H2&H3). exists r. cbn. rewrite Hm. split; [done|]. split; [done|].
    split; [|split; [done|]].
    { pose proof (mod_fd_watching _ _ _ _ _ Hok Hm) as Hsame. split; [|split; [apply Hsame|]].
      - intros f Hf. destruct (v =? 0); [by apply H3|apply H3].
      - intros Hrel Hx. specialize (Hrel _ _ ev Hok Hx). rewrite Hm in Hrel. cbn in Hrel. subst v.
        destruct H3 as (_&->&_). unfold ev. by rewrite desired_mask. }
    replace r with (r_mod_fd (w_reactor w) (c_fd (w_conn w)) ev).2 by (by rewrite Hm). by apply aged_call; [|constructor].
Qed.

Lemma want_writable_spec w want :
  conn_base w ->
  let w' := conn_set_want_writable w want in
  conn_base w' /\ keeps w w' /\ want_writable (w_conn w') = want /\
  send_q (w_conn w') = send_q (w_conn w) /\ broken (w_conn w') = broken (w_conn w) /\
  on_drained_set (w_conn w') = on_drained_set (w_conn w) /\
  (k_sends w', k_out w', w_log w') = (k_sends w, k_out w, w_log w).
Proof.
  intros Hb. cbn zeta. unfold conn_set_want_writable.
  destruct (Z.eqb_spec (want_writable (w_conn w)) want) as [<-|_].
  - split_and!; auto with cloak_conn.
  - pose proof Hb as [(_&_&_&(Hok&Hwf&Ha&_&Hp&_)&_) _].
    destruct (sync_eq (set_conn w (with_wanted (w_conn w) want (read_paused (w_conn w))
      (rx_resume_timer (w_conn w)) (interest (w_conn w))))) as (r&->&Hr&Hsame&Hst&Hag); [exact Hok|exact Hwf|].
    destruct (base_wanted w want (read_paused (w_conn w)) (rx_resume_timer (w_conn w)) r)
      as [Hb' Hk]; [done|done|done|exact Hag| |done| |by left|].
    + intros Ht. by apply Hst, Ha.
    + intros t _. apply Hst.
    + split_and!; [exact Hb'|exact Hk|done..].
Qed.

Variable on_envelope : bytes -> conn_world R W -> option (conn_world R W).
Variable on_closed : conn_world R W -> option (conn_world R W).
Variable on_drained : conn_world R W -> option (conn_world R W).
Hypothesis Howner : owner_ok on_envelope on_closed on_drained.

Lemma base_broken_inv w : conn_base w -> broken (w_conn w) <> 0 -> conn_inv w.
Proof. intros Hb Hn. split; [exact Hb|]. intros ?. done. Qed.

(** Breaking twice is breaking once, and the owner hears of it once. *)
Lemma mark_broken_spec w :
  conn_base w ->
  exists w', conn_mark_broken on_closed w = Some w' /\ conn_inv w' /\ keeps w w' /\
    broken (w_conn w') <> 0.
Proof.
  intros Hb. unfold conn_mark_broken. destruct (Z.eqb_spec (broken (w_conn w)) 0) as [Hz|Hz]; cbn [negb].
  2: { exists w. split_and!; auto using base_broken_inv with cloak_conn. }
  pose proof Hb as [(Hs&Hr&Ht&(Hok&Hw&Ha&Hi&Hp&Hc)&Hv) _].
  rewrite Hz in Hc. cbn in Hc.
  destruct (remove_fd_law (w_reactor w) (c_fd (w_conn w)) Hok) as (Hok'&Hst&Hno&Hsw).
  assert (Hwatch : watched_for (with_broken (w_conn w) 1) (interest (w_conn w)) (r_remove_fd (w_reactor w) (c_fd (w_conn w)))).
  { split; [|done]. cbn. unfold watching. rewrite Hno. by split; [intros [? ?]|]. }
  set (w1 := set_reactor (set_conn w (with_broken (w_conn w) 1)) _).
  assert (Hown : forall w', w_user w' = w_user w1 -> w_conn w' = w_conn w1 ->
    (w_clock w', w_valve w', k_in w', w_rand w') = (w_clock w, w_valve w, k_in w, w_rand w) ->
    w_reactor w' = w_reactor w1 -> own_step w w').
  { intros w' H1 H2 H3 H4. apply own_reactor; rewrite ?H2, ?H4; auto; try done.
    - intros t _ Hx. by apply Hst.
    - by apply aged_call; [|constructor]. }
  destruct (on_closed_set (w_conn w)) eqn:Hset.
  - set (w2 := note w1 Closed).
    assert (Hb2 : conn_self w2).
    { split; [exact Hs|]. split; [|split; [|split; [|exact Hv]]].
      - destruct Hr as [Hg (acts&Hst'&He)]. split; [exact Hg|]. exists acts. split; [exact Hst'|].
        cbn. rewrite envelopes_app, app_nil_r. exact He.
      - unfold sending. cbn. rewrite queued_frames_app, app_nil_r. exact Ht.
      - split; [exact Hok'|]. split; [exact Hwatch|]. split; [intros Hx; by apply Hst, Ha|].
        split; [exact Hi|]. split; [done|]. cbn. rewrite closings_app, Hc, Hset. done. }
    destruct (own_closed _ _ _ Howner w2 Hb2) as (w'&->&Hi'&Hk);
      [by eapply others_stable; [apply Hb|apply Hown]|done|].
    exists w'. split; [done|]. split; [done|]. split; [|by apply Hk].
    eapply conn_keeps_trans; [|exact Hk]. split_and!; [done..|]. by exists [Closed].
  - exists w1. split; [done|]. split; [|split; [|done]].
    + apply base_broken_inv; [|done].
      split; [|split; [by eapply others_stable; [apply Hb|apply Hown]|intros Hon; cbn in Hon; congruence]].
      split; [exact Hs|]. split; [exact Hr|]. split; [exact Ht|]. split; [|exact Hv]. split; [exact Hok'|]. split; [exact Hwatch|].
      split; [intros Hx; by apply Hst, Ha|]. split; [exact Hi|]. split; [done|].
      cbn. rewrite Hset. exact Hc.
    + split_and!; [done..|]. exists []. by rewrite app_nil_r.
Qed.

(** The kernel's answer, whatever it took. *)
Definition after_send w (rest : list send_answer) (out : bytes) : conn_world R W :=
  World (w_conn w) (w_reactor w) (w_valve w) (w_clock w) (w_rand w) (k_in w) (k_end w) (k_read w)
    rest (k_out w ++ out) (w_log w) (w_user w).

Lemma kernel_send_spec w data :
  match kernel_send w data with
  | (SendTook n, w') => 0 <= n <= zlen data /\ exists rest, w' = after_send w rest (take (Z.to_nat n) data)
  | (_, w') => exists rest, w' = after_send w rest []
  end.
Proof.
  unfold kernel_send. pose proof (zlen_nonneg data).
  destruct (k_sends w) as [|[n| |] rest]; [|split; [lia|by eexists]|by eexists|by eexists].
  exists (k_sends w). unfold after_send. rewrite app_nil_r. by destruct w.
Qed.

Lemma after_send_base w rest n q :
  conn_base w -> bq_wf q -> bq_closed q = false -> bq_contents q = drop n (bq_contents (send_q (w_conn w))) ->
  let w' := set_conn (after_send w rest (take n (bq_contents (send_q (w_conn w))))) (with_send_q (w_conn w) q) in
  conn_base w' /\ keeps w w'.
Proof.
  intros Hb Hwf Hcl Hcont. pose proof Hb as [((Hf&Hm&He&Ha&_&Hx)&Hr&[Ht Hq]&Hc&Hv) _]. split.
  - eapply base_own; [exact Hb| |by apply own_private|done]. split; [exact (conj Hf (conj Hm (conj He (conj Ha (conj (conj Hwf Hcl) Hx)))))|].
    split; [exact Hr|]. split; [|split; [exact Hc|exact Hv]].
    split; [|exact Hq]. cbn. by rewrite Hcont, <- app_assoc, take_drop.
  - split_and!; [done..|]. exists []. by rewrite app_nil_r.
Qed.

Lemma after_send_none w rest :
  conn_base w -> conn_base (after_send w rest []) /\ keeps w (after_send w rest []).
Proof.
  intros Hb. pose proof Hb as [(Hs&Hr&Ht&Hc&Hv) _]. split.
  - eapply base_own; [exact Hb| |by apply own_private|done].
    split; [exact Hs|]. split; [exact Hr|]. split; [|split; [exact Hc|exact Hv]].
    unfold sending, after_send. cbn. rewrite app_nil_r. exact Ht.
  - split_and!; [done..|]. exists []. by rewrite app_nil_r.
Qed.

Lemma note_drained_inv w : conn_inv w -> conn_inv (note w Drained) /\ keeps w (note w Drained).
Proof.
  intros [Hb Hset]. pose proof Hb as [(Hs&Hr&Ht&Hc&Hv) _]. split; [split; [|exact Hset]|].
  - eapply base_own; [exact Hb| |by apply own_private|done]. split; [exact Hs|]. split; [|split; [|split; [|exact Hv]]].
    + destruct Hr as [Hg (acts&Hst&He)]. split; [exact Hg|]. exists acts. split; [exact Hst|].
      cbn. by rewrite envelopes_app, app_nil_r.
    + unfold sending. cbn. rewrite queued_frames_app, app_nil_r. exact Ht.
    + unfold controlled. cbn. rewrite closings_app, app_nil_r. exact Hc.
  - split_and!; [done..|]. by exists [Drained].
Qed.

(** A drain never loses a byte of the queue, and leaves the connection waiting
    for the socket if it could not empty it. *)
Lemma drain_loop_spec fuel was w :
  conn_base w -> (length (bq_contents (send_q (w_conn w))) < fuel)%nat ->
  exists w', drain_loop on_closed on_drained fuel was w = Some w' /\ conn_inv w' /\ keeps w w'.
Proof.
  revert w. induction fuel as [|fuel IH]; intros w Hb Hf; [lia|]. cbn [drain_loop].
  pose proof Hb as [((_&_&_&_&[Hwf Hcl]&_)&_) _]. destruct (bytequeue_sizes _ Hwf) as (Hlen&_&Hcont&_).
  rewrite Hlen. destruct (Z.eqb_spec (zlen (bq_contents (send_q (w_conn w)))) 0) as [H0|H0].
  - destruct (want_writable_spec w 0 Hb) as (Hb'&Hk&_&Hsq&_).
    set (w1 := conn_set_want_writable w 0) in *.
    assert (Hi : conn_inv w1). { split; [exact Hb'|]. intros _ _. rewrite Hsq. by apply zlen_zero. }
    destruct (negb _ && _).
    + destruct (note_drained_inv w1 Hi) as [Hi' Hk'].
      destruct (own_drained _ _ _ Howner _ Hi') as (w'&->&Hi2&Hk2). exists w'.
      split; [done|]. split; [done|]. eapply conn_keeps_trans; [exact Hk|]. eapply conn_keeps_trans; eauto.
    + by exists w1.
  - set (want := if _ <? 4096 then _ else 4096).
    assert (Hwant : 0 < want <= zlen (bq_contents (send_q (w_conn w)))).
    { unfold want. destruct (Z.ltb_spec (zlen (bq_contents (send_q (w_conn w)))) 4096); lia. }
    rewrite bytequeue_peek_spec by (done || lia). cbn [mbind option_bind].
    set (peeked := take _ _). assert (Hpl : zlen peeked = want) by (unfold peeked; apply zlen_take; lia).
    pose proof (kernel_send_spec w peeked) as Hks. destruct (kernel_send w peeked) as [[n| |] w1].
    + destruct Hks as [Hn [rest ->]]. cbn [w_conn after_send].
      destruct (bytequeue_take (send_q (w_conn w)) n Hwf) as (q&->&Hwf'&Hc'&_&Hcl'); [lia|].
      cbn [mbind option_bind]. unfold peeked. rewrite take_take.
      replace (Z.to_nat n `min` Z.to_nat want)%nat with (Z.to_nat n) by lia.
      destruct (after_send_base w rest (Z.to_nat n) q Hb Hwf') as [Hb' Hk]; [congruence|done|].
      cbn [after_send w_conn] in *. set (w1 := set_conn _ _) in *. fold peeked. rewrite Hpl.
      destruct (Z.ltb_spec n want).
      * destruct (want_writable_spec w1 1 Hb') as (Hb2&Hk2&Hw&_). eexists. split; [done|].
        split; [split; [exact Hb2|]|exact (conn_keeps_trans _ _ _ Hk Hk2)]. intros _ ?. congruence.
      * destruct (IH w1 Hb') as (w'&->&Hi&Hk2).
        { change (send_q (w_conn w1)) with q. rewrite Hc', length_drop. unfold zlen in *. lia. }
        exists w'. split; [done|]. split; [done|]. exact (conn_keeps_trans _ _ _ Hk Hk2).
    + destruct Hks as [rest ->]. destruct (after_send_none w rest Hb) as [Hb' Hk].
      destruct (want_writable_spec _ 1 Hb') as (Hb2&Hk2&Hw&_). eexists. split; [done|].
      split; [split; [exact Hb2|]|exact (conn_keeps_trans _ _ _ Hk Hk2)]. intros _ ?. congruence.
    + destruct Hks as [rest ->]. destruct (after_send_none w rest Hb) as [Hb' Hk].
      destruct (mark_broken_spec _ Hb') as (w'&->&Hi&Hk2&_). exists w'. split; [done|].
      split; [done|]. exact (conn_keeps_trans _ _ _ Hk Hk2).
Qed.

Lemma try_drain_spec w :
  conn_base w ->
  exists w', conn_try_drain_send on_closed on_drained w = Some w' /\ conn_inv w' /\ keeps w w'.
Proof.
  intros Hb. pose proof Hb as [((_&_&_&_&[Hwf _]&_)&_) _]. destruct (bytequeue_sizes _ Hwf) as (Hlen&_).
  apply drain_loop_spec; [done|]. rewrite Hlen, zlen_length. lia.
Qed.

(** ** Queueing a WebSocket frame *)

Lemma mask_loop_spec fuel key d p q :
  zlen key = 4 -> zlen (d ++ p) <= INT64_MAX -> (length p <= fuel)%nat ->
  bq_wf q -> bq_closed q = false -> zlen p <= cloak_bytequeue_free_space q ->
  exists q', mask_loop fuel (d ++ p) key (zlen d) (zlen d mod 4) q = Some q' /\ bq_wf q' /\
    bq_closed q' = false /\ bq_contents q' = bq_contents q ++ mask_bytes key (zlen d) p.
Proof.
  intros Hk. unfold INT64_MAX. revert d p q.
  induction fuel as [|fuel IH]; intros d p q Hlen Hf Hwf Hcl Hfree.
  - destruct p; [|cbn in Hf; lia]. rewrite app_nil_r in *. cbn [mask_loop].
    rewrite Z.ltb_irrefl. exists q. by rewrite app_nil_r.
  - cbn [mask_loop]. rewrite zlen_app in *. pose proof (zlen_nonneg d). pose proof (zlen_nonneg p).
    destruct (Z.ltb_spec (zlen d) (zlen d + zlen p)) as [Hlt|Hge].
    2: { exists q. assert (p = []) as -> by (apply zlen_zero; lia). by rewrite app_nil_r. }
    rewrite (u64_small (zlen d + zlen p - zlen d)) by lia.
    set (n := if CONN_WS_MASK_CHUNK <? _ then CONN_WS_MASK_CHUNK else _).
    assert (Hn : 0 < n <= zlen p).
    { unfold n, CONN_WS_MASK_CHUNK. destruct (Z.ltb_spec 1022 (zlen d + zlen p - zlen d)); lia. }
    destruct (zlen_split p n) as (c&p'&->&Hc&Hp'); [lia|].
    rewrite (mem_read_app d c p' (zlen d) n) by done. cbn [mbind option_bind].
    rewrite (ws_mask_spec key (zlen d mod 4) c Hk)
      by (unfold SIZE_MAX; pose proof (Z.mod_pos_bound (zlen d) 4); lia).
    cbn [mbind option_bind default from_option id]. rewrite mask_bytes_mod.
    destruct (bytequeue_append q (mask_bytes key (zlen d) c) Hwf Hcl) as (q1&->&Hwf1&Hc1&Hcap1&Hcl1).
    { rewrite mask_bytes_length. zlia. }
    cbn [mbind option_bind]. rewrite u64_small by zlia. rewrite app_assoc.
    replace (zlen d + n) with (zlen (d ++ c)) by (rewrite zlen_app; lia).
    replace ((zlen d mod 4 + zlen c) mod 4) with (zlen (d ++ c) mod 4)
      by (rewrite zlen_app, Z.add_mod_idemp_l by lia; done).
    destruct (bytequeue_sizes _ Hwf) as (_&Hfs&_). destruct (bytequeue_sizes _ Hwf1) as (_&Hfs1&_).
    rewrite Hc1, zlen_app, mask_bytes_length in Hfs1.
    destruct (IH (d ++ c) p' q1) as (q'&->&Hwf'&Hcl'&Hc'); [zlia|..|done|done| |].
    + rewrite length_app in Hf. unfold zlen in *. lia.
    + zlia.
    + exists q'. split; [done|]. split; [done|]. split; [done|].
      by rewrite Hc', Hc1, mask_bytes_app, zlen_app, <- app_assoc.
Qed.

(** A frame that enters the queue. *)
Lemma queue_frame w op key p q :
  conn_base w -> queued_ok (framing (w_conn w)) (max_frame_len (w_conn w)) op key p ->
  bq_wf q -> bq_closed q = false ->
  bq_contents q = bq_contents (send_q (w_conn w)) ++ envelope (framing (w_conn w)) op key p ->
  let w' := note (set_conn w (with_send_q (w_conn w) q)) (Queued op key p) in
  conn_base w' /\ keeps w w'.
Proof.
  intros Hb Hok Hwf Hcl Hcont.
  pose proof Hb as [((Hf&Hm&He&Ha&_&Hx)&[Hg (acts&Hst&Hd)]&[Ht Hq]&Hc&Hv) _]. split.
  - eapply base_own; [exact Hb| |by apply own_private|done]. split; [exact (conj Hf (conj Hm (conj He (conj Ha (conj (conj Hwf Hcl) Hx)))))|].
    split; [|split; [|split; [|exact Hv]]].
    + split; [exact Hg|]. exists acts. split; [exact Hst|]. cbn. by rewrite envelopes_app, app_nil_r.
    + split; cbn.
      * rewrite queued_frames_app, Hcont, app_assoc, Ht. unfold wire.
        rewrite map_app, concat_app. cbn. by rewrite app_nil_r.
      * rewrite queued_frames_app. apply Forall_app. split; [exact Hq|]. by apply Forall_singleton.
    + unfold controlled. cbn. rewrite closings_app, app_nil_r. exact Hc.
  - split_and!; [done..|]. by exists [Queued op key p].
Qed.

(** Drawing the mask key. *)
Lemma set_rand_base w r :
  conn_base w -> later (w_rand w) r -> conn_base (set_rand w r) /\ keeps w (set_rand w r).
Proof.
  intros Hb Hl. pose proof Hb as [(Hs&Hr&Ht&Hc&(Hv&He&Hrd&Hi)) _].
  pose proof (rand_ok_later _ _ Hl Hrd) as Hok. split.
  - eapply base_own; [exact Hb| |by apply own_private|done]. exact (conj Hs (conj Hr (conj Ht (conj Hc (conj Hv (conj He (conj Hok Hi))))))).
  - split_and!; [done..|]. exists []. by rewrite app_nil_r.
Qed.

(** All or nothing: the frame is queued whole, or the connection breaks. *)
Lemma ws_enqueue_spec w op p :
  conn_base w -> framing (w_conn w) <> CLOAK_CONN_FRAMING_TLS_RECORD ->
  all_bytes p -> zlen p <= max_frame_len (w_conn w) ->
  op = CLOAK_WS_OP_BINARY \/
    zlen p <= CLOAK_WS_FRAME_MAX_CONTROL_PAYLOAD /\ (op = CLOAK_WS_OP_PONG \/ op = CLOAK_WS_OP_CLOSE) ->
  exists rc w', conn_ws_enqueue_frame on_closed w op p = Some (rc, w') /\ conn_base w' /\ keeps w w' /\
    (if rc =? 0 then broken (w_conn w') = broken (w_conn w) /\
      exists key, w_log w' = w_log w ++ [Queued op key p]
    else rc = -1 /\ broken (w_conn w') <> 0) /\
    (cloak_conn_envelope_len (Some (w_conn w)) (zlen p) <= cloak_conn_send_free (Some (w_conn w)) -> rc = 0).
Proof.
  intros Hb Htls Hp Hlen Hop. unfold conn_ws_enqueue_frame.
  set (kw := if framing (w_conn w) =? CLOAK_CONN_FRAMING_WS_CLIENT then _ else _).
  assert (Hkey : exists key r, kw = (key, set_rand w r) /\ later (w_rand w) r /\
    queued_ok (framing (w_conn w)) (max_frame_len (w_conn w)) op key p).
  { pose proof Hb as [(_&_&_&_&(_&_&Hrand&_)) _]. unfold kw.
    destruct (Z.eqb_spec (framing (w_conn w)) CLOAK_CONN_FRAMING_WS_CLIENT) as [Hc|Hc].
    - unfold cloak_ws_frame_mask_key. destruct (cloak_random_bytes 4 (w_rand w)) as [k r] eqn:Hr.
      destruct (random_bytes_ok 4 _ _ _ Hrand ltac:(lia) Hr) as [Hk Hrok].
      exists (Some k), r. split_and!; [done|by eapply later_draw|]. split; [done|done|destruct Hop; [by left|right; tauto]|].
      split_and!; [done| |done]. by eapply random_bytes_length.
    - exists None, (w_rand w). split_and!; [by destruct w|apply later_refl|].
      split; [done|done|destruct Hop; [by left|right; tauto]|done]. }
  clearbody kw. destruct Hkey as (key&r&->&Hr&Hq). cbn beta iota.
  destruct (set_rand_base w r Hb Hr) as [Hb1 Hk1]. set (w1 := set_rand w r) in *.
  assert (Hq1 : queued_ok (framing (w_conn w1)) (max_frame_len (w_conn w1)) op key p) by exact Hq.
  pose proof Hb1 as [((Hfr&Hmax&_&_&[Hwf Hcl]&_)&_) _].
  pose proof (queued_request _ _ _ _ _ Hmax Hq1) as Hreq.
  pose proof (ws_request_header _ _ _ _ Hreq) as Hok. pose proof (ws_header_max _ _ Hok) as Hhm.
  rewrite <- (who_header_len _ _ Hok) in Hhm.
  rewrite (ws_write_spec (replicate 14 0) op 1 key (zlen p) Hreq) by (rewrite zlen_replicate; lia).
  set (h := ws_request op 1 key (zlen p)) in *. set (e := ws_encode (shortest_form (zlen p)) h).
  assert (Hhl : wh_header_len h = zlen e) by apply Hok.
  cbn [mbind option_bind default from_option id]. rewrite (proj2 (Z.ltb_ge _ _)) by lia.
  unfold max_ok, CLOAK_CONN_MAX_FRAME_LEN in Hmax. change (max_frame_len (w_conn w1)) with
    (max_frame_len (w_conn w)) in Hmax. pose proof (zlen_nonneg p). rewrite u64_small by lia.
  assert (Hel : cloak_conn_envelope_len (Some (w_conn w)) (zlen p) = wh_header_len h + zlen p).
  { rewrite <- (envelope_length (max_frame_len (w_conn w)) op key p (w_conn w)) by done.
    unfold envelope. rewrite (proj2 (Z.eqb_neq _ _) Htls), zlen_app, Hhl. f_equal.
    by destruct key; [rewrite mask_bytes_length|]. }
  destruct (Z.ltb_spec (cloak_bytequeue_free_space (send_q (w_conn w1))) (wh_header_len h + zlen p)) as [Hfull|Hfree].
  { destruct (mark_broken_spec w1 Hb1) as (w'&->&[Hb' _]&Hk'&Hbr). cbn [mbind option_bind].
    exists (-1), w'. split; [done|]. split; [done|]. split; [exact (conn_keeps_trans _ _ _ Hk1 Hk')|].
    split; [done|]. rewrite Hel. intros Hroom.
    change (cloak_conn_send_free (Some (w_conn w))) with (cloak_bytequeue_free_space (send_q (w_conn w1))) in Hroom.
    lia. }
  rewrite (mem_read_head e _ _ Hhl). cbn [mbind option_bind].
  destruct (bytequeue_append _ e Hwf Hcl) as (q1&->&Hwf1&Hc1&Hcap1&Hcl1); [lia|]. cbn [mbind option_bind].
  destruct (bytequeue_sizes _ Hwf) as (_&Hfs&_). destruct (bytequeue_sizes _ Hwf1) as (_&Hfs1&_).
  rewrite Hc1, zlen_app in Hfs1.
  set (body := match key with None => p | Some k => mask_bytes k 0 p end).
  assert (Hbody : exists q2,
    match key with
    | None => '(_, q) ← cloak_bytequeue_write q1 p; Some q
    | Some key => mask_loop (length p) p key 0 0 q1
    end = Some q2 /\ bq_wf q2 /\ bq_closed q2 = false /\ bq_contents q2 = bq_contents q1 ++ body).
  { unfold body. destruct key as [k|].
    - destruct (qo_key _ _ _ _ _ Hq) as (_&Hk4&_).
      apply (mask_loop_spec (length p) k [] p q1 Hk4); [|done|done|done|lia].
      unfold INT64_MAX. cbn [app]. lia.
    - destruct (bytequeue_append q1 p Hwf1 Hcl1) as (q2&->&?&?&_&?); [lia|]. by exists q2. }
  destruct Hbody as (q2&->&Hwf2&Hcl2&Hc2). cbn [mbind option_bind].
  destruct (queue_frame w1 op key p q2 Hb1 Hq1 Hwf2 Hcl2) as [Hb2 Hk2].
  { rewrite Hc2, Hc1, <- app_assoc. do 2 f_equal. unfold envelope.
    change (framing (w_conn w1)) with (framing (w_conn w)). by rewrite (proj2 (Z.eqb_neq _ _) Htls). }
  exists 0. eexists. split; [done|]. split; [exact Hb2|]. split; [exact (conn_keeps_trans _ _ _ Hk1 Hk2)|].
  split; [|done]. cbn. eauto.
Qed.

(** Returning 0 is a promise: the frame is in the queue and the connection is
    alive; anything else is -1 on a broken connection. *)
Definition send_result w (frame : bytes) (rc : Z) w' : Prop :=
  if rc =? 0 then
    broken (w_conn w') = 0 /\
    exists key more, w_log w' = w_log w ++ Queued CLOAK_WS_OP_BINARY key frame :: more
  else rc = -1 /\ broken (w_conn w') <> 0.

(** The queue has room for the frame's envelope. *)
Definition fits (c : cloak_conn) (frame : bytes) : Prop :=
  broken c = 0 /\ zlen frame <= max_frame_len c /\
  cloak_conn_envelope_len (Some c) (zlen frame) <= cloak_conn_send_free (Some c).
Definition accepted w (frame : bytes) w' : Prop :=
  exists key more, w_log w' = w_log w ++ Queued CLOAK_WS_OP_BINARY key frame :: more.

Lemma drained_result w w1 frame key :
  conn_base w1 -> keeps w w1 -> w_log w1 = w_log w ++ [Queued CLOAK_WS_OP_BINARY key frame] ->
  exists rc w',
    (w ← conn_try_drain_send on_closed on_drained w1; Some (if broken (w_conn w) =? 0 then 0 else -1, w)) =
      Some (rc, w') /\ conn_inv w' /\ keeps w w' /\ send_result w frame rc w' /\ accepted w frame w'.
Proof.
  intros Hb Hk Hl. destruct (try_drain_spec w1 Hb) as (w'&->&Hi&Hk'). cbn [mbind option_bind].
  eexists _, w'. split; [done|]. split; [done|]. split; [exact (conn_keeps_trans _ _ _ Hk Hk')|].
  unfold send_result. destruct Hk' as (_&_&_&more&Hm&_).
  assert (Ha : accepted w frame w') by (exists key, more; by rewrite Hm, Hl, <- app_assoc).
  split; [|done]. by destruct (Z.eqb_spec (broken (w_conn w')) 0).
Qed.

Lemma broken_result w w1 frame :
  conn_base w1 -> keeps w w1 ->
  exists rc w', (w ← conn_mark_broken on_closed w1; Some (-1, w)) = Some (rc, w') /\
    conn_inv w' /\ keeps w w' /\ send_result w frame rc w'.
Proof.
  intros Hb Hk. destruct (mark_broken_spec w1 Hb) as (w'&->&Hi&Hk'&Hbr). cbn [mbind option_bind].
  exists (-1), w'. split_and!; [done|done|exact (conn_keeps_trans _ _ _ Hk Hk')|done..].
Qed.

Lemma send_spec w frame :
  conn_inv w -> all_bytes frame ->
  exists rc w', cloak_conn_send on_closed on_drained w frame = Some (rc, w') /\ conn_inv w' /\
    keeps w w' /\ send_result w frame rc w' /\ (fits (w_conn w) frame -> accepted w frame w').
Proof.
  intros [Hb Hset] Hbytes. unfold cloak_conn_send. pose proof (zlen_nonneg frame).
  destruct (Z.eqb_spec (broken (w_conn w)) 0) as [Halive|Hdead]; cbn [negb].
  2: { exists (-1), w. split; [done|]. split; [by split|]. split; [apply conn_keeps_refl|].
       split; [by split|by intros [? _]]. }
  destruct (Z.ltb_spec (max_frame_len (w_conn w)) (zlen frame)) as [Hbig|Hlen].
  { destruct (broken_result w w frame Hb (conn_keeps_refl w)) as (rc&w'&E&Hi&Hk&Hr).
    exists rc, w'. split_and!; [done..|]. intros (_&?&_). lia. }
  pose proof Hb as [((Hfr&Hmax&Htls&_&[Hwf Hcl]&_)&_) _].
  unfold max_ok, CLOAK_CONN_MAX_FRAME_LEN in Hmax.
  destruct (Z.eqb_spec (framing (w_conn w)) CLOAK_CONN_FRAMING_TLS_RECORD) as [Ht|Hws]; cbn [negb].
  - destruct (Htls Ht) as [He _]. unfold CLOAK_CONN_RECORD_HEADER_LEN in *.
    rewrite u64_small by lia. rewrite (proj2 (Z.ltb_ge _ _)) by lia.
    destruct (Z.ltb_spec (cloak_bytequeue_free_space (send_q (w_conn w))) (5 + zlen frame)).
    { destruct (broken_result w w frame Hb (conn_keeps_refl w)) as (rc&w'&E&Hi&Hk&Hr).
      exists rc, w'. split_and!; [done..|]. intros (_&_&Hroom). unfold cloak_conn_envelope_len in Hroom.
      rewrite Ht, u64_small in Hroom by (unfold CLOAK_CONN_RECORD_HEADER_LEN; lia).
      unfold CLOAK_CONN_RECORD_HEADER_LEN in Hroom. cbn in Hroom. lia. }
    assert (Hh : zlen (record_header (zlen frame)) = 5) by done.
    destruct (bytequeue_append _ (record_header (zlen frame)) Hwf Hcl) as (q1&->&Hwf1&Hc1&Hcap1&Hcl1); [lia|].
    cbn [mbind option_bind].
    destruct (bytequeue_sizes _ Hwf) as (_&Hfs&_). destruct (bytequeue_sizes _ Hwf1) as (_&Hfs1&_).
    rewrite Hc1, zlen_app in Hfs1.
    destruct (bytequeue_append q1 frame Hwf1 Hcl1) as (q2&->&Hwf2&Hc2&_&Hcl2); [lia|].
    cbn [mbind option_bind].
    destruct (queue_frame w CLOAK_WS_OP_BINARY None frame q2 Hb) as [Hb2 Hk2]; [|done|done| |].
    + split; [done|done|by left|rewrite Ht; done].
    + rewrite Hc2, Hc1, <- app_assoc. unfold envelope. by rewrite Ht.
    + destruct (drained_result w _ frame None Hb2 Hk2 eq_refl) as (rc&w'&?&Hi&Hk&Hr&Ha).
      by exists rc, w'.
  - destruct (ws_enqueue_spec w CLOAK_WS_OP_BINARY frame Hb Hws Hbytes Hlen)
      as (rc&w1&->&Hb1&Hk1&Hrc&Hroom); [by left|]. cbn [mbind option_bind].
    destruct (Z.eqb_spec rc 0) as [->|Hne]; cbn [negb].
    + destruct Hrc as [_ [key Hl]].
      destruct (drained_result w w1 frame key Hb1 Hk1 Hl) as (rc&w'&?&Hi&Hk&Hr&Ha). by exists rc, w'.
    + destruct Hrc as [-> Hbr]. exists (-1), w1. split_and!; [done|by apply base_broken_inv|done..|].
      intros (_&_&Hfits). by destruct Hne; apply Hroom.
Qed.

End sending.
