(* ===== verification/ConnRecv.v ===== *)
(** * The receiving side of a connection

    [conn_tls_extract_and_dispatch], [conn_ws_extract_and_dispatch] and
    [conn_handle_readable] take envelopes off the receive queue exactly as the
    machine of [Envelope] does, for any owner that keeps the invariant of
    [ConnInv], and stop only when the machine waits, the kernel has nothing
    more, the valve is empty (with a timer armed) or the connection broke. *)
From S2P Require Import Prelude Fallible Random Ring ByteQueue Valve WsFrame ReactorApi Conn Envelope ConnInv.

Lemma recv_len_bounds fr max :
  framing_ok fr -> max_ok max -> max + 2 <= recv_envelope_len fr max <= max + 8.
Proof.
  intros Hfr [H0 Hm]. unfold recv_envelope_len, CLOAK_CONN_RECORD_HEADER_LEN, conn_ws_envelope_len.
  unfold CLOAK_CONN_MAX_FRAME_LEN in Hm. destruct (fr =? CLOAK_CONN_FRAMING_TLS_RECORD); [lia|].
  destruct (CLOAK_WS_FRAME_MAX_CONTROL_PAYLOAD <? max), (negb _); rewrite u64_small; lia.
Qed.

(** A loop that returned [w'] with the invariant kept; two goals are left. *)
Ltac returns w' := exists w'; split; [done|]; split; [done|]; split.

Section receiving.
Context {R W : Type} {RR : Reactor R} {RL : ReactorLaws R} {BY : Bystanders R W}.
Implicit Types w : conn_world R W.

(** The configuration and the kernel's side stay; the log grows. *)
Definition takes w w' : Prop :=
  fixed_config (w_conn w') = fixed_config (w_conn w) /\
  (k_in w', k_end w', k_read w') = (k_in w, k_end w, k_read w) /\
  (broken (w_conn w) <> 0 -> broken (w_conn w') <> 0) /\
  exists more, w_log w' = w_log w ++ more.

Lemma takes_refl w : takes w w.
Proof. split_and!; [done..|]. exists []. by rewrite app_nil_r. Qed.

Lemma takes_trans w1 w2 w3 : takes w1 w2 -> takes w2 w3 -> takes w1 w3.
Proof.
  intros (A1&B1&C1&m1&L1) (A2&B2&C2&m2&L2). split_and!; [congruence|congruence|tauto|].
  exists (m1 ++ m2). by rewrite L2, L1, app_assoc.
Qed.

Lemma keeps_takes w w' : keeps w w' -> takes w w'.
Proof.
  intros (A&B&C&more&L&_). unfold rx_side in A. unfold takes, fixed_config.
  split_and!; [congruence|done|done|by exists more].
Qed.

Definition rx_next w : rx_result :=
  rx_step (framing (w_conn w)) (max_frame_len (w_conn w)) (rx_of (w_conn w))
    (bq_contents (recv_acc (w_conn w))).

(** Nothing more can be taken off the receive queue. *)
Definition quiet w : Prop := broken (w_conn w) = 0 -> rx_next w = RxWait.

Lemma contents_bytes w : conn_base w -> all_bytes (bq_contents (recv_acc (w_conn w))).
Proof. intros [(_&[Hg (acts&Hst&_)]&_) _]. by eapply rx_steps_bytes. Qed.

(** ** One envelope *)

(** The connection behind an envelope of [n] bytes. *)
Definition took_conn (c : cloak_conn) (q : cloak_bytequeue_t) (scratch : bytes) (len active : Z) : cloak_conn :=
  with_message (with_recv_acc c q) scratch len active.

Lemma took_inv w q scratch len active n a :
  conn_inv w ->
  rx_next w = RxTook n a (RxState (take (Z.to_nat len) scratch) (negb (active =? 0))) ->
  bq_wf q -> bq_closed q = false -> bq_cap q = bq_cap (recv_acc (w_conn w)) ->
  bq_contents q = drop (Z.to_nat n) (bq_contents (recv_acc (w_conn w))) ->
  zlen scratch = zlen (recv_scratch (w_conn w)) ->
  0 <= len <= max_frame_len (w_conn w) ->
  (framing (w_conn w) = CLOAK_CONN_FRAMING_TLS_RECORD -> len = 0) ->
  let w1 := set_conn w (took_conn (w_conn w) q scratch len active) in
  let w2 := match a with
            | RxDeliver f => if on_envelope_set (w_conn w) then note w1 (Envelope f) else w1
            | _ => w1
            end in
  conn_inv w2 /\ takes w w2.
Proof.
  intros [Hbase Hset] Hs Hwf Hcl Hcap Hcont Hlen Hl Hl0 w1.
  pose proof Hbase as [((Hfr&Hmax&Htls&(_&_&Hcap0)&Hsq&Hsc&_)&[Hg (acts&Hst&He)]&[Ht Hq]&Hc&Hv) _].
  assert (Hshape : shaped (w_conn w1)).
  { refine (conj Hfr (conj Hmax (conj _ (conj (conj Hwf (conj Hcl _)) (conj Hsq (conj _ Hl)))))).
    - intros Hf. destruct (Htls Hf). auto.
    - cbn. congruence.
    - cbn. congruence. }
  assert (Hst' : rx_steps (framing (w_conn w)) (max_frame_len (w_conn w)) rx_start (k_read w)
    (acts ++ [a]) (rx_of (w_conn w1)) (bq_contents q)).
  { eapply rx_steps_trans; [exact Hst|]. rewrite Hcont. by apply rx_steps_one. }
  assert (Hlog : forall e, match e with Envelope _ => True | _ => False end ->
    sending (w_conn w1) (k_out w) (w_log w ++ [e]) /\
    controlled (w_conn w1) (w_reactor w) (w_log w ++ [e])).
  { intros [f| | |] Hev; try done. unfold sending, controlled.
    rewrite queued_frames_app, closings_app, !app_nil_r. done. }
  destruct a as [f|p| |p]; cbv beta iota zeta.
  2, 3, 4: split; [split; [|exact Hset]|split_and!; [done..|by exists []; rewrite app_nil_r]];
    (eapply base_own; [exact Hbase| |by apply own_private|done]); split; [exact Hshape|]; split; [|split; [exact (conj Ht Hq)|split; [exact Hc|exact Hv]]];
    split; [exact Hg|]; eexists; split; [exact Hst'|]; etrans; [exact He|]; rewrite delivers_app;
    change (delivers [_]) with (@nil bytes); by rewrite app_nil_r.
  destruct (on_envelope_set (w_conn w)) eqn:Hon.
  - split; [split; [|exact Hset]|split_and!; [done..|by eexists]].
    destruct (Hlog (Envelope f) I) as [Hsend Hctl].
    eapply base_own; [exact Hbase| |by apply own_private|done].
    split; [exact Hshape|]. split; [|split; [exact Hsend|split; [exact Hctl|exact Hv]]].
    split; [exact Hg|]. eexists; split; [exact Hst'|].
    rewrite delivers_app. etrans; [apply (envelopes_app (w_log w))|]. rewrite He. cbn. by rewrite Hon.
  - split; [split; [|exact Hset]|split_and!; [done..|by exists []; rewrite app_nil_r]].
    eapply base_own; [exact Hbase| |by apply own_private|done].
    split; [exact Hshape|]. split; [|split; [exact (conj Ht Hq)|split; [exact Hc|exact Hv]]].
    split; [exact Hg|]. eexists; split; [exact Hst'|]. etrans; [exact He|].
    cbn. by rewrite Hon.
Qed.

Variable on_envelope : bytes -> conn_world R W -> option (conn_world R W).
Variable on_closed : conn_world R W -> option (conn_world R W).
Variable on_drained : conn_world R W -> option (conn_world R W).
Hypothesis Howner : owner_ok on_envelope on_closed on_drained.

(** An iteration that goes on has taken [n] bytes; one that ends the loop has
    broken the connection. *)
Definition iteration w (n : Z) (s : loop_step (conn_world R W)) : Prop :=
  match s with
  | Again w' =>
      conn_inv w' /\ takes w w' /\
      bq_contents (recv_acc (w_conn w')) = drop (Z.to_nat n) (bq_contents (recv_acc (w_conn w)))
  | Leave w' => conn_inv w' /\ takes w w' /\ broken (w_conn w') <> 0
  end.

Lemma keeps_contents w w' :
  keeps w w' -> bq_contents (recv_acc (w_conn w')) = bq_contents (recv_acc (w_conn w)).
Proof. intros (A&_). unfold rx_side in A. congruence. Qed.

Lemma base_broken_leaves w w1 n :
  conn_base w1 -> takes w w1 ->
  exists s, (w' ← conn_mark_broken on_closed w1; Some (Leave w')) = Some s /\ iteration w n s.
Proof.
  intros Hb Ht. destruct (mark_broken_spec _ _ _ Howner w1 Hb) as (w'&->&Hi&Hk&Hbr).
  cbn [mbind option_bind]. exists (Leave w'). split; [done|]. split; [done|]. split; [|done].
  eapply takes_trans; [exact Ht|by apply keeps_takes].
Qed.

(** Handing a frame to the owner. *)
Lemma deliver_spec w q scratch len active n f :
  conn_inv w ->
  rx_next w = RxTook n (RxDeliver f) (RxState (take (Z.to_nat len) scratch) (negb (active =? 0))) ->
  bq_wf q -> bq_closed q = false -> bq_cap q = bq_cap (recv_acc (w_conn w)) ->
  bq_contents q = drop (Z.to_nat n) (bq_contents (recv_acc (w_conn w))) ->
  zlen scratch = zlen (recv_scratch (w_conn w)) ->
  0 <= len <= max_frame_len (w_conn w) ->
  (framing (w_conn w) = CLOAK_CONN_FRAMING_TLS_RECORD -> len = 0) -> zlen f <= max_frame_len (w_conn w) ->
  exists w', deliver on_envelope (set_conn w (took_conn (w_conn w) q scratch len active)) f = Some w' /\
    iteration w n (if negb (broken (w_conn w') =? 0) then Leave w' else Again w').
Proof.
  intros Hi Hs Hwf Hcl Hcap Hcont Hsc Hl Hl0 Hfl.
  destruct (took_inv w q scratch len active n _ Hi Hs Hwf Hcl Hcap Hcont Hsc Hl Hl0) as [Hi2 Ht2].
  assert (Hf : all_bytes f).
  { pose proof Hi as [[(_&[Hg (acts&Hst&_)]&_) _] _].
    destruct (rx_steps_acts _ _ rx_start _ _ _ _ Hg all_bytes_nil Hst) as [_ Hpart].
    by destruct (rx_step_bytes _ _ _ _ _ _ _ (contents_bytes w (proj1 Hi)) Hpart Hs). }
  unfold deliver. cbn [w_conn set_conn]. change (on_envelope_set (took_conn (w_conn w) q scratch len active))
    with (on_envelope_set (w_conn w)). destruct (on_envelope_set (w_conn w)).
  - destruct (own_envelope _ _ _ Howner f _ Hi2 Hf Hfl) as (w'&->&Hi'&Hk). exists w'. split; [done|].
    assert (Ht : takes w w') by (eapply takes_trans; [exact Ht2|by apply keeps_takes]).
    destruct (Z.eqb_spec (broken (w_conn w')) 0); [|done]. split; [done|]. split; [done|].
    rewrite (keeps_contents _ _ Hk). exact Hcont.
  - set (w1 := set_conn w _) in *. exists w1. split; [done|].
    destruct (Z.eqb_spec (broken (w_conn w1)) 0) as [E|E].
    + exact (conj Hi2 (conj Ht2 Hcont)).
    + exact (conj Hi2 (conj Ht2 E)).
Qed.

(** ** TLS records *)

(** Reading a record that is there: its bytes go through the scratch buffer. *)
Lemma tls_read_record w b0 b1 b2 h3 h4 body n :
  conn_base w -> framing (w_conn w) = CLOAK_CONN_FRAMING_TLS_RECORD ->
  bq_contents (recv_acc (w_conn w)) = b0 :: b1 :: b2 :: h3 :: h4 :: body ->
  0 <= n <= max_frame_len (w_conn w) -> n <= zlen body ->
  let c := w_conn w in
  exists q data scratch,
    cloak_bytequeue_read (recv_acc c) (5 + n) = Some (data, q) /\
    (recv_scratch c).[0 <- data] = Some scratch /\
    scratch.[5 +: n] = Some (take (Z.to_nat n) body) /\
    bq_wf q /\ bq_closed q = false /\ bq_cap q = bq_cap (recv_acc c) /\
    bq_contents q = drop (Z.to_nat (5 + n)) (bq_contents (recv_acc c)) /\
    zlen scratch = zlen (recv_scratch c).
Proof.
  intros [((_&Hmax&_&(Hwf&Hcl&_)&_&Hsc&_)&_) _] Hfr Hbuf Hn Hbody c.
  assert (Hrl : recv_envelope_len (framing c) (max_frame_len c) = 5 + max_frame_len c)
    by (unfold recv_envelope_len; unfold c; by rewrite Hfr).
  destruct (bytequeue_take (recv_acc c) (5 + n) Hwf) as (q&Hr&Hwf'&Hc'&Hcap'&Hcl'); [lia|].
  fold c in Hbuf, Hsc, Hn, Hcl. rewrite Hbuf in Hr.
  replace (Z.to_nat (5 + n)) with (5 + Z.to_nat n)%nat in Hr by lia. cbn [take Nat.add] in Hr.
  assert (Hdl : zlen (take (Z.to_nat n) body) = n) by (apply zlen_take; lia).
  set (data := take (Z.to_nat n) body) in *. do 2 eexists.
  exists ([b0; b1; b2; h3; h4] ++ data ++ drop (5 + length data) (recv_scratch c)).
  split; [exact Hr|]. split; [rewrite mem_write_Some by zlia; done|].
  split; [by apply mem_read_app|]. split_and!; [done|congruence|done|done|].
  rewrite !zlen_app, Hdl. change (zlen [_; _; _; _; _]) with 5. rewrite Hrl in Hsc.
  unfold zlen in *. rewrite length_drop. lia.
Qed.

Lemma tls_loop_spec fuel w :
  conn_inv w -> framing (w_conn w) = CLOAK_CONN_FRAMING_TLS_RECORD ->
  (length (bq_contents (recv_acc (w_conn w))) < fuel)%nat ->
  exists w', tls_loop on_envelope on_closed fuel w = Some w' /\ conn_inv w' /\ takes w w' /\ quiet w'.
Proof.
  revert w. induction fuel as [|fuel IH]; intros w Hi Hfr Hf; [lia|]. cbn [tls_loop].
  pose proof Hi as [Hb _]. pose proof Hb as [((_&Hmax&Htls&(Hwf&Hcl&Hcap)&_&Hsc&_)&_) _].
  pose proof (contents_bytes w Hb) as Hbytes. 
  destruct (Htls Hfr) as [_ Hml]. destruct (bytequeue_sizes _ Hwf) as (Hlen&_).
  rewrite bytequeue_peek_spec by (done || lia). cbn [mbind option_bind].
  assert (Hnext : rx_next w = rx_step CLOAK_CONN_FRAMING_TLS_RECORD (max_frame_len (w_conn w))
    (rx_of (w_conn w)) (bq_contents (recv_acc (w_conn w)))) by (unfold rx_next; by rewrite Hfr).
  unfold rx_step, rx_read_head in Hnext. rewrite Z.eqb_refl in Hnext.
  change (Z.to_nat CLOAK_CONN_RECORD_HEADER_LEN) with 5%nat.
  rewrite Hlen.
  set (buf := bq_contents (recv_acc (w_conn w))) in *.
  destruct buf as [|b0 [|b1 [|b2 [|h3 [|h4 body]]]]] eqn:Hbuf.
  1-5: returns w; [apply takes_refl|intros _; exact Hnext].
  assert (Hn : 0 <= h3 * 256 + h4 < 65536 /\ is_byte h3 /\ is_byte h4).
  { unfold all_bytes in Hbytes. rewrite !Forall_cons in Hbytes. unfold is_byte in *. lia. }
  destruct Hn as (Hn&Hb3&Hb4). cbn [take]. rewrite take_0. change (zlen [b0; b1; b2; h3; h4]) with 5.
  change (5 <? CLOAK_CONN_RECORD_HEADER_LEN) with false. cbv iota.
  change ([b0; b1; b2; h3; h4].[3]) with (Some h3). change ([b0; b1; b2; h3; h4].[4]) with (Some h4).
  cbn [mbind option_bind].
  rewrite (u16_small (Z.shiftl h3 8)) by (rewrite Z.shiftl_mul_pow2 by lia; unfold is_byte in Hb3; lia).
  rewrite shift_or_step, u16_small by done. cbn [tls_head] in Hnext.
  set (n := h3 * 256 + h4) in *. unfold CLOAK_CONN_RECORD_HEADER_LEN in *.
  destruct (Z.ltb_spec (max_frame_len (w_conn w)) n) as [Hbig|Hle].
  { destruct (mark_broken_spec _ _ _ Howner w Hb) as (w'&->&Hi'&Hk&Hbr). returns w'; [by apply keeps_takes|by intros ?]. }
  destruct (Z.ltb_spec (zlen (b0 :: b1 :: b2 :: h3 :: h4 :: body)) (5 + n)) as [Hshort|Hlong].
  { returns w; [apply takes_refl|by intros ?]. }
  destruct (tls_read_record w b0 b1 b2 h3 h4 body n Hb Hfr Hbuf)
    as (q&data&scratch&->&Hw&Hrd&Hwf'&Hcl'&Hcap'&Hc'&Hsl); [lia|zlia|].
  cbn [mbind option_bind]. rewrite Hw. cbn [mbind option_bind]. rewrite Hrd. cbn [mbind option_bind].
  change (with_message (with_recv_acc (w_conn w) q) scratch (ws_msg_len (w_conn w)) (ws_msg_active (w_conn w)))
    with (took_conn (w_conn w) q scratch (ws_msg_len (w_conn w)) (ws_msg_active (w_conn w))).
  destruct (deliver_spec w q scratch (ws_msg_len (w_conn w)) (ws_msg_active (w_conn w)) (5 + n)
    (take (Z.to_nat n) body) Hi) as (w'&->&Hit); [|done..| |done| |].
  - rewrite Hnext. change (Z.to_nat 5) with 5%nat. cbn [drop]. rewrite drop_0. unfold rx_of. by rewrite Hml.
  - unfold max_ok in Hmax. lia.
  - unfold zlen. rewrite length_take. lia.
  - cbn [mbind option_bind]. destruct (Z.eqb_spec (broken (w_conn w')) 0) as [E|E]; cbn [negb] in *.
    + destruct Hit as (Hi'&Ht'&Hc2). destruct (IH w' Hi') as (w2&->&Hi2&Ht2&Hq2).
      * destruct Ht' as [Hcf _]. unfold fixed_config in Hcf. congruence.
      * rewrite Hc2, length_drop. fold buf. rewrite Hbuf. cbn [length] in *. lia.
      * returns w2; [exact (takes_trans _ _ _ Ht' Ht2)|done].
    + destruct Hit as (Hi'&Ht'&_). returns w'; [done|by intros ?].
Qed.

(** ** WebSocket frames *)

Lemma take_payload_spec w h form :
  conn_base w -> ws_header_ok form h ->
  let c := w_conn w in
  wh_header_len h + wh_payload_len h <= zlen (bq_contents (recv_acc c)) ->
  exists q,
    conn_ws_take_payload w h (wh_payload_len h) =
      Some (ws_unmask h (take (Z.to_nat (wh_payload_len h))
              (drop (Z.to_nat (wh_header_len h)) (bq_contents (recv_acc c)))), set_conn w (with_recv_acc c q)) /\
    bq_wf q /\ bq_closed q = false /\ bq_cap q = bq_cap (recv_acc c) /\
    bq_contents q = drop (Z.to_nat (wh_header_len h + wh_payload_len h)) (bq_contents (recv_acc c)).
Proof.
  intros [((_&_&_&(Hwf&Hcl&_)&_)&_) _] Hok c Hlen. pose proof (ws_header_max form h Hok) as Hhm.
  rewrite <- (who_header_len _ _ Hok) in Hhm. pose proof (who_len _ _ Hok) as Hpl.
  unfold conn_ws_take_payload. fold c in Hwf, Hcl |- *.
  destruct (bytequeue_take (recv_acc c) (wh_header_len h) Hwf) as (q&->&Hwf1&Hc1&Hcap1&Hcl1); [lia|].
  cbn [mbind option_bind]. destruct (Z.ltb_spec 0 (wh_payload_len h)) as [Hpos|Hz].
  - destruct (bytequeue_take q (wh_payload_len h) Hwf1) as (q2&->&Hwf2&Hc2&Hcap2&Hcl2); [lia|].
    cbn [mbind option_bind]. rewrite Hc1, drop_drop in *.
    replace (Z.to_nat (wh_header_len h) + Z.to_nat (wh_payload_len h))%nat
      with (Z.to_nat (wh_header_len h + wh_payload_len h)) in Hc2 by lia.
    exists q2. split; [|split_and!; congruence || done].
    unfold ws_unmask. destruct (wh_masked h =? 0); cbn [negb]; [done|].
    by rewrite (ws_mask_spec _ 0 _ (who_key_len _ _ Hok)).
  - assert (Hz' : wh_payload_len h = 0) by lia. rewrite Hz', Z.add_0_r. exists q.
    split; [|split_and!; congruence || done]. unfold ws_unmask. by destruct (wh_masked h =? 0).
Qed.

(** A frame is there in full: the machine's meaning of it. *)
Record arrived w (h : cloak_ws_frame_header_t) (form : length_form) : Prop := {
  ar_ok : ws_header_ok form h;
  ar_len : wh_header_len h + wh_payload_len h <= zlen (bq_contents (recv_acc (w_conn w)));
  ar_max : wh_payload_len h <= max_frame_len (w_conn w);
  ar_tls : framing (w_conn w) <> CLOAK_CONN_FRAMING_TLS_RECORD;
  ar_next :
    rx_next w =
      match ws_meaning (max_frame_len (w_conn w)) (rx_of (w_conn w)) h
              (take (Z.to_nat (wh_payload_len h))
                 (drop (Z.to_nat (wh_header_len h)) (bq_contents (recv_acc (w_conn w))))) with
      | None => RxBad
      | Some (a, st') => RxTook (wh_header_len h + wh_payload_len h) a st'
      end
}.

Definition control_opcode (op : Z) : bool :=
  (op =? CLOAK_WS_OP_PING) || (op =? CLOAK_WS_OP_PONG) || (op =? CLOAK_WS_OP_CLOSE).

Lemma unmask_length h p : zlen (ws_unmask h p) = zlen p.
Proof. unfold ws_unmask. destruct (wh_masked h =? 0); [done|apply mask_bytes_length]. Qed.

(** The connection behind a control frame, which leaves the message alone. *)
Lemma control_took w q a n :
  conn_inv w -> rx_next w = RxTook n a (rx_of (w_conn w)) -> (forall f, a <> RxDeliver f) ->
  bq_wf q -> bq_closed q = false -> bq_cap q = bq_cap (recv_acc (w_conn w)) ->
  bq_contents q = drop (Z.to_nat n) (bq_contents (recv_acc (w_conn w))) ->
  let w1 := set_conn w (with_recv_acc (w_conn w) q) in conn_inv w1 /\ takes w w1.
Proof.
  intros Hi Hs Ha Hwf Hcl Hcap Hcont. pose proof Hi as [[((_&_&Htls&_&_&_&Hl)&_) _] _].
  destruct (took_inv w q (recv_scratch (w_conn w)) (ws_msg_len (w_conn w)) (ws_msg_active (w_conn w)) n a
    Hi Hs Hwf Hcl Hcap Hcont) as [Hi1 Ht1]; [done|done|intros Hf; by apply Htls|].
  destruct a as [f| | |]; [by destruct (Ha f)|done..].
Qed.

Lemma ws_control_spec w h form :
  conn_inv w -> arrived w h form -> all_bytes (wh_mask_key h) -> control_opcode (wh_opcode h) = true ->
  exists s, ws_control on_closed on_drained w h (wh_payload_len h) = Some s /\
    iteration w (wh_header_len h + wh_payload_len h) s.
Proof.
  intros Hi [Hok Hlen Hmax Htls Hnext] Hkey Hop. pose proof Hi as [Hb _]. unfold control_opcode in Hop.
  assert (Hp125 : wh_payload_len h <= CLOAK_WS_FRAME_MAX_CONTROL_PAYLOAD).
  { destruct (who_control _ _ Hok) as [-> _].
    - destruct (Z.eqb_spec (wh_opcode h) CLOAK_WS_OP_PING) as [->|_]; [done|].
      destruct (Z.eqb_spec (wh_opcode h) CLOAK_WS_OP_PONG) as [->|_]; [done|].
      by apply Z.eqb_eq in Hop as ->.
    - pose proof (who_len _ _ Hok) as Hl. cbn in Hl. unfold CLOAK_WS_FRAME_MAX_CONTROL_PAYLOAD. lia. }
  unfold ws_control. rewrite (proj2 (Z.ltb_ge _ _) Hp125).
  destruct (take_payload_spec w h form Hb Hok Hlen) as (q&->&Hwf&Hcl&Hcap&Hc). cbn [mbind option_bind].
  set (body := take (Z.to_nat (wh_payload_len h)) _) in *.
  assert (Hbody : all_bytes body).
  { apply Forall_take, Forall_drop. by apply contents_bytes. }
  assert (Hplen : zlen (ws_unmask h body) = wh_payload_len h).
  { rewrite unmask_length. pose proof (who_len _ _ Hok). pose proof (ws_header_max form h Hok).
    rewrite <- (who_header_len _ _ Hok) in H0. unfold body. apply zlen_take. rewrite zlen_drop; lia. }
  pose proof (unmask_bytes h body Hkey Hbody) as Hub.
  set (p := ws_unmask h body) in *. unfold ws_meaning in Hnext. fold p in Hnext.
  set (w1 := set_conn w (with_recv_acc (w_conn w) q)).
  destruct (Z.eqb_spec (wh_opcode h) CLOAK_WS_OP_PING) as [Eping|Nping].
  - destruct (control_took w q _ _ Hi Hnext ltac:(done) Hwf Hcl Hcap Hc) as [Hi1 Ht1]. fold w1 in Hi1, Ht1.
    destruct (ws_enqueue_spec _ _ _ Howner w1 CLOAK_WS_OP_PONG p (proj1 Hi1))
      as (rc&w2&->&Hb2&Hk2&Hrc&_); [done|done|cbn; lia|right; split; [lia|by left]|].
    cbn [mbind option_bind].
    assert (Ht2 : takes w w2) by (eapply takes_trans; [exact Ht1|by apply keeps_takes]).
    destruct (Z.eqb_spec rc 0) as [->|Hne]; cbn [negb].
    + destruct (try_drain_spec _ _ _ Howner w2 Hb2) as (w3&->&Hi3&Hk3). cbn [mbind option_bind].
      assert (Ht3 : takes w w3) by (eapply takes_trans; [exact Ht2|by apply keeps_takes]).
      eexists; split; [done|]. destruct (Z.eqb_spec (broken (w_conn w3)) 0); cbn [negb].
      * split; [done|]. split; [done|]. rewrite (keeps_contents _ _ Hk3), (keeps_contents _ _ Hk2). exact Hc.
      * by split_and!.
    + destruct Hrc as [_ Hbr]. eexists; split; [done|]. split; [by apply base_broken_inv|done].
  - destruct (Z.eqb_spec (wh_opcode h) CLOAK_WS_OP_PONG) as [Epong|Npong].
    + destruct (control_took w q _ _ Hi Hnext ltac:(done) Hwf Hcl Hcap Hc) as [Hi1 Ht1].
      eexists; split; [done|]. split; [exact Hi1|]. split; [exact Ht1|exact Hc].
    + cbn [orb] in Hop. rewrite Hop in Hnext.
      destruct (control_took w q _ _ Hi Hnext ltac:(done) Hwf Hcl Hcap Hc) as [Hi1 Ht1]. fold w1 in Hi1, Ht1.
      destruct (ws_enqueue_spec _ _ _ Howner w1 CLOAK_WS_OP_CLOSE p (proj1 Hi1))
        as (rc&w2&->&Hb2&Hk2&_); [done|done|cbn; lia|right; split; [lia|by right]|].
      cbn [mbind option_bind].
      assert (Hd : exists w3, (if broken (w_conn w2) =? 0 then conn_try_drain_send on_closed on_drained w2
        else Some w2) = Some w3 /\ conn_base w3 /\ keeps w2 w3).
      { destruct (_ =? 0); [|by exists w2; eauto with cloak_conn].
        destruct (try_drain_spec _ _ _ Howner w2 Hb2) as (w3&->&[? _]&?). by exists w3. }
      destruct Hd as (w3&->&Hb3&Hk3). cbn [mbind option_bind]. apply base_broken_leaves; [done|].
      eapply takes_trans; [exact Ht1|]. apply keeps_takes. by eapply conn_keeps_trans.
Qed.

(** The bytes of a message grow in place. *)
Lemma grow_message (scratch : bytes) len data scratch' :
  0 <= len -> scratch.[len <- data] = Some scratch' ->
  zlen scratch' = zlen scratch /\
  take (Z.to_nat (len + zlen data)) scratch' = take (Z.to_nat len) scratch ++ data.
Proof.
  intros Hlen (H1&H2&H3&->)%mem_write_inv. zlen_pos. split; [exact H3|].
  rewrite app_assoc. apply take_app_length'. rewrite length_app, length_take. unfold zlen in *. lia.
Qed.

Lemma ws_data_spec w h form :
  conn_inv w -> arrived w h form -> control_opcode (wh_opcode h) = false ->
  exists s, ws_data on_envelope on_closed w h (wh_payload_len h) = Some s /\
    iteration w (wh_header_len h + wh_payload_len h) s.
Proof.
  intros Hi [Hok Hlen Hmax Htls Hnext] Hop. pose proof Hi as [Hb _].
  pose proof Hb as [((Hfr&Hm&_&_&_&Hsc&Hl)&_) _]. pose proof (recv_len_bounds _ _ Hfr Hm) as Hrl.
  unfold control_opcode in Hop. apply orb_false_iff in Hop as [[Hping Hpong]%orb_false_iff Hclose].
  unfold ws_meaning in Hnext. rewrite Hping, Hpong, Hclose in Hnext.
  set (body := take (Z.to_nat (wh_payload_len h)) _) in *.
  assert (Hplen : zlen (ws_unmask h body) = wh_payload_len h).
  { rewrite unmask_length. pose proof (who_len _ _ Hok). pose proof (ws_header_max form h Hok) as Hhm.
    rewrite <- (who_header_len _ _ Hok) in Hhm. unfold body. apply zlen_take. rewrite zlen_drop; lia. }
  unfold ws_data_meaning in Hnext. cbn [rx_active rx_part rx_of] in Hnext.
  rewrite zlen_take in Hnext by lia. unfold ws_data.
  pose proof (base_broken_leaves w w (wh_header_len h + wh_payload_len h) Hb (takes_refl w)) as Hbad.
  replace (if wh_opcode h =? CLOAK_WS_OP_CONTINUATION then ws_msg_active (w_conn w) =? 0
      else negb (ws_msg_active (w_conn w) =? 0))
    with (negb (eqb (wh_opcode h =? CLOAK_WS_OP_CONTINUATION) (negb (ws_msg_active (w_conn w) =? 0))))
    by (by destruct (_ =? CLOAK_WS_OP_CONTINUATION), (ws_msg_active _ =? 0)).
  destruct (negb (eqb _ _)); [exact Hbad|].
  unfold max_ok, CLOAK_CONN_MAX_FRAME_LEN in Hm. rewrite u64_small by lia.
  destruct (Z.ltb_spec (max_frame_len (w_conn w) - ws_msg_len (w_conn w)) (wh_payload_len h)) as [|Hfit]; [exact Hbad|].
  destruct (take_payload_spec w h form Hb Hok Hlen) as (q&->&Hwf&Hcl&Hcap&Hc). cbn [mbind option_bind].
  fold body. set (p := ws_unmask h body) in *. cbn [w_conn set_conn].
  change (ws_msg_len (with_recv_acc (w_conn w) q)) with (ws_msg_len (w_conn w)).
  change (recv_scratch (with_recv_acc (w_conn w) q)) with (recv_scratch (w_conn w)).
  destruct (recv_scratch (w_conn w)).[ws_msg_len (w_conn w) <- p] as [scratch|] eqn:Hw.
  2: { exfalso. rewrite mem_write_Some in Hw by lia. done. }
  destruct (grow_message _ _ _ _ (proj1 Hl) Hw) as [Hsl Hpart]. rewrite Hplen in Hpart.
  cbn [mbind option_bind]. pose proof (who_len _ _ Hok). rewrite u64_small by lia.
  set (len := ws_msg_len (w_conn w) + wh_payload_len h) in *.
  destruct (Z.eqb_spec (wh_fin h) 0) as [Hfin|Hfin].
  - eexists; split; [done|].
    destruct (took_inv w q scratch len 1 (wh_header_len h + wh_payload_len h) RxNothing Hi) as [Hi1 Ht1];
      [by rewrite Hpart|done..|unfold len; lia|done|]. exact (conj Hi1 (conj Ht1 Hc)).
  - rewrite mem_read_Some by lia. cbn [mbind option_bind]. rewrite drop_0, Hpart.
    destruct (deliver_spec w q scratch 0 0 (wh_header_len h + wh_payload_len h)
      (take (Z.to_nat (ws_msg_len (w_conn w))) (recv_scratch (w_conn w)) ++ p) Hi) as (w'&Hd&Hit);
      [exact Hnext|done..|lia|done|rewrite zlen_app, zlen_take; lia|].
    change (set_conn (set_conn w (with_recv_acc (w_conn w) q)) _)
      with (set_conn w (took_conn (w_conn w) q scratch 0 0)).
    rewrite Hd. cbn [mbind option_bind]. eauto.
Qed.

(** What the header says, as the loop reads it. *)
Lemma ws_header_cases w :
  conn_base w -> framing (w_conn w) <> CLOAK_CONN_FRAMING_TLS_RECORD ->
  let c := w_conn w in
  match cloak_ws_frame_parse_header (Some (take 14 (bq_contents (recv_acc c)))) false with
  | None => False
  | Some None => True
  | Some (Some None) => rx_next w = RxWait
  | Some (Some (Some h)) =>
      all_bytes (wh_mask_key h) /\
      exists form, ws_header_ok form h /\
        (wh_masked h = b2z (framing c =? CLOAK_CONN_FRAMING_WS_SERVER) ->
         wh_payload_len h <= max_frame_len c ->
         if zlen (bq_contents (recv_acc c)) <? wh_header_len h + wh_payload_len h
         then rx_next w = RxWait else arrived w h form)
  end.
Proof.
  intros Hb Htls c. pose proof (contents_bytes w Hb) as Hbytes. fold c in Hbytes, Htls |- *.
  assert (Hnext : rx_next w = rx_step (framing c) (max_frame_len c) (rx_of c) (bq_contents (recv_acc c))) by done.
  unfold rx_step, rx_read_head in Hnext. rewrite (proj2 (Z.eqb_neq _ _) Htls) in Hnext. unfold ws_head in Hnext.
  pose proof (ws_parse_sound (take 14 (bq_contents (recv_acc c)))) as Hs.
  pose proof (ws_parse_head_inv (bq_contents (recv_acc c))) as Hinv.
  pose proof (ws_header_key (bq_contents (recv_acc c))) as Hkey.
  destruct (cloak_ws_frame_parse_header _ false) as [[[h|]|]|]; [|done|done|by apply Hs, Forall_take].
  destruct (Hinv h Hbytes eq_refl) as (form&_&Hok&_). split; [by apply Hkey|].
  exists form. split; [exact Hok|]. intros Hm Hmax.
  rewrite Hm, Z.eqb_refl, (proj2 (Z.ltb_ge _ _) Hmax) in Hnext. cbn [negb orb] in Hnext.
  destruct (Z.ltb_spec (zlen (bq_contents (recv_acc c))) (wh_header_len h + wh_payload_len h)); [done|].
  by split.
Qed.

Lemma ws_loop_spec fuel w :
  conn_inv w -> framing (w_conn w) <> CLOAK_CONN_FRAMING_TLS_RECORD ->
  (length (bq_contents (recv_acc (w_conn w))) < fuel)%nat ->
  exists w', ws_loop on_envelope on_closed on_drained fuel w = Some w' /\ conn_inv w' /\ takes w w' /\ quiet w'.
Proof.
  revert w. induction fuel as [|fuel IH]; intros w Hi Htls Hf; [lia|]. cbn [ws_loop].
  pose proof Hi as [Hb _]. pose proof Hb as [((_&Hmax&_&(Hwf&_)&_)&_) _].
  destruct (bytequeue_sizes _ Hwf) as (Hlen&_). rewrite Hlen.
  rewrite bytequeue_peek_spec by (done || lia). cbn [mbind option_bind].
  change (Z.to_nat CLOAK_WS_FRAME_MAX_HEADER_LEN) with 14%nat.
  assert (Hbroken : exists w', conn_mark_broken on_closed w = Some w' /\ conn_inv w' /\ takes w w' /\ quiet w').
  { destruct (mark_broken_spec _ _ _ Howner w Hb) as (w'&->&Hi'&Hk&Hbr).
    returns w'; [by apply keeps_takes|by intros ?]. }
  pose proof (ws_header_cases w Hb Htls) as Hc.  cbv zeta in Hc.
  destruct (cloak_ws_frame_parse_header _ false) as [[[h|]|]|]; [|returns w; [apply takes_refl|intros _; exact Hc]|done..].
  destruct Hc as [Hkey (form&Hok&Hc)].
  destruct (Z.eqb_spec (wh_masked h) (b2z (framing (w_conn w) =? CLOAK_CONN_FRAMING_WS_SERVER))) as [Hm|Hm];
    cbn [negb]; [|exact Hbroken].
  destruct (Z.ltb_spec (max_frame_len (w_conn w)) (wh_payload_len h)) as [|Hle]; [exact Hbroken|].
  specialize (Hc Hm Hle). pose proof (who_len _ _ Hok). pose proof (ws_header_max _ _ Hok) as Hhm.
  rewrite <- (who_header_len _ _ Hok) in Hhm. unfold max_ok, CLOAK_CONN_MAX_FRAME_LEN in Hmax.
  rewrite u64_small by lia.
  destruct (Z.ltb_spec (zlen (bq_contents (recv_acc (w_conn w)))) (wh_header_len h + wh_payload_len h)).
  { returns w; [apply takes_refl|intros _; exact Hc]. }
  assert (Hs : exists s, (if (wh_opcode h =? CLOAK_WS_OP_PING) || (wh_opcode h =? CLOAK_WS_OP_PONG) ||
      (wh_opcode h =? CLOAK_WS_OP_CLOSE) then ws_control on_closed on_drained w h (wh_payload_len h)
      else ws_data on_envelope on_closed w h (wh_payload_len h)) = Some s /\
      iteration w (wh_header_len h + wh_payload_len h) s).
  { destruct (_ || _) eqn:Hop; [by eapply ws_control_spec|by eapply ws_data_spec]. }
  destruct Hs as (s&->&Hs). cbn [mbind option_bind]. destruct s as [w'|w'].
  - destruct Hs as (Hi'&Ht&Hcont). destruct (IH w' Hi') as (w2&->&Hi2&Ht2&Hq2).
    + destruct Ht as [Hcf _]. unfold fixed_config in Hcf. congruence.
    + rewrite Hcont, length_drop. unfold zlen in *. lia.
    + returns w2; [exact (takes_trans _ _ _ Ht Ht2)|done].
  - destruct Hs as (Hi'&Ht&Hbr). returns w'; [done|by intros ?].
Qed.

Lemma extract_spec w :
  conn_inv w ->
  exists w', conn_extract_and_dispatch on_envelope on_closed on_drained w = Some w' /\ conn_inv w' /\
    takes w w' /\ quiet w'.
Proof.
  intros Hi. pose proof Hi as [[((_&_&_&(Hwf&_)&_)&_) _] _]. destruct (bytequeue_sizes _ Hwf) as (Hlen&_).
  unfold conn_extract_and_dispatch.
  destruct (Z.eqb_spec (framing (w_conn w)) CLOAK_CONN_FRAMING_TLS_RECORD) as [Ht|Ht].
  - apply tls_loop_spec; [done|done|]. rewrite Hlen, zlen_length. lia.
  - apply ws_loop_spec; [done|done|]. rewrite Hlen, zlen_length. lia.
Qed.

(** ** Reading from the socket *)

(** Bytes move from the kernel to the connection, in order. *)
Definition reads w w' : Prop :=
  fixed_config (w_conn w') = fixed_config (w_conn w) /\
  k_end w' = k_end w /\ k_read w' ++ concat (k_in w') = k_read w ++ concat (k_in w) /\
  (broken (w_conn w) <> 0 -> broken (w_conn w') <> 0) /\
  exists more, w_log w' = w_log w ++ more.

Lemma reads_trans w1 w2 w3 : reads w1 w2 -> reads w2 w3 -> reads w1 w3.
Proof.
  intros (A1&B1&C1&D1&m1&L1) (A2&B2&C2&D2&m2&L2). split_and!; [congruence..|tauto|].
  exists (m1 ++ m2). by rewrite L2, L1, app_assoc.
Qed.

Lemma takes_reads w w' : takes w w' -> reads w w'.
Proof. intros (A&B&C&L). injection B as B1 B2 B3. split_and!; congruence || done. Qed.

Lemma reads_refl w : reads w w.
Proof. apply takes_reads, takes_refl. Qed.

(** The kernel has nothing for now: its segments ran out, or there is a pause
    in them. *)
Definition kernel_dry w w' : Prop :=
  (k_in w' = [] /\ k_end w = ReadAgain) \/ exists pre, k_in w = pre ++ [] :: k_in w'.

(** Why a read that did not break the connection stopped. *)
Definition stopped w w' : Prop :=
  kernel_dry w w' \/ read_paused (w_conn w') <> 0 \/
  cloak_bytequeue_free_space (recv_acc (w_conn w')) = 0.

Lemma quiet_keeps w w' : keeps w w' -> quiet w -> quiet w'.
Proof.
  intros (A&_&C&_) Hq Hz. unfold quiet, rx_next, rx_of, rx_side in *. injection A as E1 E2 E3 E4 E5 E6 E7 E8 E9 E10 E11.
  rewrite E2, E3, E6, E7, E8, E9. apply Hq. destruct (Z.eq_dec (broken (w_conn w)) 0); [done|]. by destruct C.
Qed.

(** The valve after a call that the connection made for [coming] bytes of
    which [coming'] are still to come. *)
Definition valve_after (v : option cloak_valve_t) (coming : list bytes) (v' : option cloak_valve_t)
    (coming' : list bytes) : Prop :=
  valve_room v' coming' /\
  cloak_valve_rx v' + zlen (concat coming') <= cloak_valve_rx v + zlen (concat coming) /\
  cloak_valve_tx v' = cloak_valve_tx v /\ (v' = None <-> v = None).

Lemma valve_call env o v coming coming' n :
  valve_room v coming -> env_ok env -> valve_op_ok (env, o) -> op_rx (env, o) = n -> op_tx (env, o) = 0 ->
  zlen (concat coming) = n + zlen (concat coming') ->
  (forall x v', valve_exec (env, o) v = Some (x, v') -> out_rx x = 0 /\ out_tx x = 0) ->
  exists x v', valve_exec (env, o) v = Some (x, v') /\ granted_ok (env, o) x /\ valve_after v coming v' coming'.
Proof.
  intros (Hok&Hrx&Hroom&Htx) He Ho Hop Hop2 Hn Hout. pose proof (zlen_nonneg (concat coming')).
  destruct (valve_exec_ok (env, o) v Ho Hok) as (x&v'&Hx&Hok'&Hg&Hnull&Hcount&Hrx'&Htx'); try lia.
  exists x, v'. split; [done|]. split; [done|]. destruct (Hout _ _ Hx) as [Hor Hot].
  unfold valve_after, valve_room. destruct v as [v0|].
  - destruct Hcount as [Hc1 Hc2]; [done|]. rewrite Hor, Hop in Hc1. rewrite Hot, Hop2 in Hc2.
    split_and!; try done; try lia; by split; intros; apply Hnull.
  - assert (v' = None) as -> by (by apply Hnull). cbn in *. split_and!; try done; lia.
Qed.

(** Neither of the calls drains the counters. *)
Ltac no_drain := intros ? ?; cbn; first [destruct (cloak_valve_take_rx _ _ _) as [[]|]
  |destruct (cloak_valve_rx_resume_delay_ms _ _) as [[]|]|destruct (cloak_valve_add_rx _ _)]; [|done]; by intros [= <- _].

Lemma set_valve_inv w v :
  conn_inv w -> valve_after (w_valve w) (k_in w) v (k_in w) -> conn_inv (set_valve w v) /\ keeps w (set_valve w v).
Proof.
  intros [Hb Hset] (Hv&Hrx&Htx&Hnull). pose proof Hb as [(Hs&Hr&Ht&Hc&(_&He)) _]. split.
  - split; [|exact Hset]. eapply base_own; [exact Hb| | |done].
    + exact (conj Hs (conj Hr (conj Ht (conj Hc (conj Hv He))))).
    + pose proof Hv as (?&?&_). split; cbn; auto; done.
  - split_and!; [done..|]. exists []. by rewrite app_nil_r.
Qed.

Lemma take_rx_room w want :
  conn_inv w -> 0 < want ->
  exists n v, cloak_valve_take_rx (w_clock w) (w_valve w) want = Some (n, v) /\
    valve_after (w_valve w) (k_in w) v (k_in w) /\ n <= want.
Proof.
  intros [[(_&_&_&_&(Hv&He&_)) _] _] Hw.
  destruct (valve_call (w_clock w) (VTakeRx want) (w_valve w) (k_in w) (k_in w) 0 Hv He)
    as (x&v&Hx&Hg&Hva); [by split|done|done|lia|no_drain|].
  cbn in Hx, Hg. destruct (cloak_valve_take_rx _ _ _) as [[n v']|]; [|done].
  injection Hx as <- <-. exists n, v'. split; [done|]. split; [exact Hva|]. apply Hg.
Qed.

(** The pause arms a timer, or breaks the connection. *)
Lemma pause_spec w :
  conn_inv w ->
  exists w', conn_pause_read_for_rate on_closed w = Some w' /\ conn_inv w' /\ keeps w w' /\
    (broken (w_conn w') = 0 -> read_paused (w_conn w') <> 0).
Proof.
  intros Hi. unfold conn_pause_read_for_rate.
  assert (Hpaused : forall w0 timer r0, conn_inv w0 -> reactor_ok r0 -> same_watches (w_reactor w0) r0 ->
    aged (w_reactor w0) r0 ->
    timer <> CLOAK_TIMER_INVALID -> armed r0 timer ->
    (forall t, t <> rx_resume_timer (w_conn w0) -> armed (w_reactor w0) t -> armed r0 t) ->
    (timer = rx_resume_timer (w_conn w0) \/ timer = CLOAK_TIMER_INVALID \/ ~ spent (w_reactor w0) timer) ->
    exists w', conn_sync_interest (set_conn (set_reactor w0 r0) (with_wanted (w_conn w0) (want_writable (w_conn w0)) 1
        timer (interest (w_conn w0)))) = w' /\
      conn_inv w' /\ keeps w0 w' /\ (broken (w_conn w') = 0 -> read_paused (w_conn w') <> 0)).
  { intros w0 timer r0 [Hb0 Hset0] Hok0 Hsw0 Hag0 Htm Harm Hoth Hfresh.
    destruct (sync_eq (set_conn (set_reactor w0 r0) (with_wanted (w_conn w0) (want_writable (w_conn w0)) 1
      timer (interest (w_conn w0))))) as (r&->&Hr&Hsame&Hst&Hag); [done| |].
    { pose proof Hb0 as [(_&_&_&(_&Hwf&_)&_) _]. by eapply (watched_same (w_conn w0)). }
    destruct (base_wanted w0 (want_writable (w_conn w0)) 1 timer r Hb0 Hr) as [Hb' Hk].
    - by eapply rewatched_same.
    - eapply aged_trans; [exact Hag0|exact Hag].
    - intros _. by apply Hst.
    - done.
    - intros t Ht1 Ht2. apply Hst. by apply Hoth.
    - done.
    - eexists. split; [reflexivity|]. split; [split; [exact Hb'|exact Hset0]|]. by split. }
  destruct (Z.eqb_spec (rx_resume_timer (w_conn w)) CLOAK_TIMER_INVALID) as [Hnone|Hsome].
  - pose proof Hi as [[(_&_&_&_&(Hv&He&_)) _] _].
    destruct (valve_call (w_clock w) VDelayRx (w_valve w) (k_in w) (k_in w) 0 Hv He)
      as (x&v&Hx&_&Hva); [by split|done|done|lia|no_drain|].
    cbn in Hx. destruct (cloak_valve_rx_resume_delay_ms _ _) as [[delay v']|]; [|done].
    injection Hx as _ <-. cbn [mbind option_bind].
    destruct (set_valve_inv w v' Hi Hva) as [Hi1 Hk1].
    set (w1 := set_valve w v') in *. pose proof Hi1 as [[(_&_&_&(Hrok&Hwf&_&Hint&Hp&_)&_) _] _].
    destruct (r_add_timer (w_reactor w1) delay) as [id r] eqn:Hadd.
    destruct (add_timer_law _ _ _ _ Hrok Hadd) as (Hrok'&Hsw&Hid). pose proof (aged_add_timer _ _ _ _ Hrok Hadd) as Hag.
    destruct (Z.eqb_spec id CLOAK_TIMER_INVALID) as [->|Hne].
    + destruct (base_wanted w1 (want_writable (w_conn w)) (read_paused (w_conn w)) CLOAK_TIMER_INVALID r (proj1 Hi1))
        as [Hb2 Hk2]; [done|by change (interest (rewanted _ _ _ _)) with (conn_desired_interest (w_conn w1)); rewrite <- Hint; apply same_rewatched|done|done|intros Hz Hpz; by destruct (Hp Hz Hpz)|intros t _; apply Hid|by right; left|].
      assert (Hc : rewanted (w_conn w1) (want_writable (w_conn w)) (read_paused (w_conn w)) CLOAK_TIMER_INVALID
        = with_wanted (w_conn w) (want_writable (w_conn w)) (read_paused (w_conn w)) CLOAK_TIMER_INVALID
            (interest (w_conn w))).
      { unfold rewanted. f_equal. symmetry. exact Hint. }
      rewrite Hc in Hb2, Hk2. destruct (mark_broken_spec _ _ _ Howner _ Hb2) as (w'&Hm&Hi'&Hk'&Hbr).
      exists w'. split; [exact Hm|]. split; [done|]. split; [|by intros ?].
      exact (conn_keeps_trans _ _ _ Hk1 (conn_keeps_trans _ _ _ Hk2 Hk')).
    + pose proof (new_timer_law _ _ _ _ Hrok Hadd Hne) as Hfr. destruct Hid as [_ Hid].
      destruct (Hpaused w1 id r Hi1 Hrok' Hsw Hag Hne) as (w'&Hw'&Hi'&Hk'&Hp');
        [by apply Hid; left|intros t _ Ht; by apply Hid; right|by right; right|].
      exists w'. split; [f_equal; exact Hw'|]. split; [done|]. split; [exact (conn_keeps_trans _ _ _ Hk1 Hk')|done].
  - pose proof Hi as [[(_&_&_&(Hrok&_&Ha&_)&_) _] _].
    destruct (Hpaused w (rx_resume_timer (w_conn w)) (w_reactor w) Hi Hrok) as (w'&Hw'&Hi'&Hk'&Hp');
      [done|done|done|by apply Ha|done|by left|].
    exists w'. split; [f_equal; rewrite <- Hw'; by destruct w|]. by split_and!.
Qed.

(** Steps that reading can still take. *)
Definition backlog (segments : list bytes) : nat := length segments + length (concat segments).

Definition after_read w (segments : list bytes) (got : bytes) : conn_world R W :=
  World (w_conn w) (w_reactor w) (w_valve w) (w_clock w) (w_rand w) segments (k_end w) (k_read w ++ got)
    (k_sends w) (k_out w) (w_log w) (w_user w).

Lemma kernel_read_spec w want :
  0 < want ->
  match kernel_read w want with
  | (ReadGot got, w') =>
      exists segments, w' = after_read w segments got /\ concat (k_in w) = got ++ concat segments /\
        0 < zlen got <= want /\ (backlog segments < backlog (k_in w))%nat /\
        (Forall all_bytes (k_in w) -> all_bytes got /\ Forall all_bytes segments) /\
        (forall pre rest, segments = pre ++ [] :: rest -> exists pre', k_in w = pre' ++ [] :: rest)
  | (ReadEnd ReadAgain, w') => exists segments, w' = after_read w segments [] /\
      concat (k_in w) = concat segments /\ kernel_dry w w' /\ (Forall all_bytes (k_in w) -> Forall all_bytes segments)
  | (ReadEnd _, w') => w' = w
  end.
Proof.
  intros Hw. unfold kernel_read, backlog. destruct (k_in w) as [|[|b data] rest] eqn:Hin.
  - destruct (k_end w) eqn:He; [|done|done]. exists []. rewrite <- Hin.
    split; [unfold after_read; rewrite app_nil_r; by destruct w|]. rewrite Hin. split_and!; [done|by left|done].
  - exists rest. split; [done|]. split; [done|]. split; [right; by exists []|]. by intros [_ ?]%Forall_cons.
  - set (seg := b :: data). set (got := take (Z.to_nat want) seg).
    set (left := drop (Z.to_nat want) seg). assert (Hs : seg = got ++ left) by (symmetry; apply take_drop).
    assert (Hg : 0 < zlen got <= want).
    { unfold got, zlen. rewrite length_take. unfold seg. cbn [length]. lia. }
    assert (Hlen : length seg = (length got + length left)%nat) by (by rewrite Hs at 1; rewrite length_app).
    eexists. split; [done|]. split; [|split; [exact Hg|split; [|split]]].
    + case_bool_decide as El; cbn [concat]; rewrite Hs at 1; [by rewrite El, app_nil_r|by rewrite app_assoc].
    + cbn [concat length]. rewrite length_app, Hlen. unfold zlen in Hg.
      case_bool_decide; cbn [concat length]; rewrite ?length_app; lia.
    + intros [Ha Hr]%Forall_cons. split; [by apply Forall_take|].
      case_bool_decide; [done|]. apply Forall_cons. split; [by apply Forall_drop|done].
    + case_bool_decide as El; intros pre more Hp.
      * exists (seg :: pre). by rewrite Hp.
      * destruct pre as [|p pre]; injection Hp as Hp1 Hp2; [done|].
        exists (seg :: pre). by rewrite Hp2.
Qed.

(** The bytes that were read, charged and queued. *)
Lemma read_inv w v q segments got :
  conn_inv w -> all_bytes got -> Forall all_bytes segments ->
  valve_after (w_valve w) (k_in w) v segments ->
  bq_wf q -> bq_closed q = false -> bq_cap q = bq_cap (recv_acc (w_conn w)) ->
  bq_contents q = bq_contents (recv_acc (w_conn w)) ++ got ->
  concat (k_in w) = got ++ concat segments ->
  let w' := set_conn (set_valve (after_read w segments got) v) (with_recv_acc (w_conn w) q) in
  conn_inv w' /\ reads w w'.
Proof.
  intros [Hb Hset] Hgot Hseg (Hv&Hrx&Htx&Hnull) Hwf Hcl Hcap Hcont Hcat.
  pose proof Hb as [((Hfr&Hmax&Htls&(_&_&Hcap0)&Hx)&[Hg (acts&Hst&He)]&Ht&Hc&(_&Henv&Hr&_)) _]. split.
  - split; [|exact Hset]. eapply base_own; [exact Hb| |pose proof Hv as (?&?&_); by split; cbn; auto|done]. split.
    { refine (conj Hfr (conj Hmax (conj Htls (conj (conj Hwf (conj Hcl _)) Hx)))). cbn. congruence. }
    split; [|exact (conj Ht (conj Hc (conj Hv (conj Henv (conj Hr Hseg)))))].
    split; [by apply all_bytes_app|]. exists acts. split; [|exact He].
    cbn. rewrite Hcont. by apply rx_steps_extend.
  - split_and!; [done|done| |done|exists []; by rewrite app_nil_r].
    cbn. by rewrite <- app_assoc, Hcat.
Qed.

Lemma after_read_nothing w segments :
  conn_inv w -> Forall all_bytes segments -> concat (k_in w) = concat segments ->
  conn_inv (after_read w segments []) /\ reads w (after_read w segments []).
Proof.
  intros [Hb Hset] Hseg Hcat. pose proof Hb as [(Hs&Hr&Ht&Hc&((Hok&H0&Hroom&Htx)&Henv&Hrd&_)) _]. split.
  - split; [|exact Hset].
    eapply base_own; [exact Hb| |by split; cbn; rewrite ?Hcat; auto|done]. split; [exact Hs|]. split.
    { unfold receiving, after_read. cbn. rewrite app_nil_r. exact Hr. }
    split; [exact Ht|]. split; [exact Hc|]. rewrite Hcat in Hroom.
    exact (conj (conj Hok (conj H0 (conj Hroom Htx))) (conj Henv (conj Hrd Hseg))).
  - split_and!; [done|done| |done|exists []; by rewrite app_nil_r]. cbn. by rewrite app_nil_r, Hcat.
Qed.

Lemma add_rx_room w segments got :
  conn_inv w -> concat (k_in w) = got ++ concat segments ->
  exists v, cloak_valve_add_rx (w_valve w) (zlen got) = Some v /\ valve_after (w_valve w) (k_in w) v segments.
Proof.
  intros [[(_&_&_&_&(Hv&He&_)) _] _] Hcat.
  destruct (valve_call (w_clock w) (VAddRx (zlen got)) (w_valve w) (k_in w) segments (zlen got) Hv He)
    as (x&v&Hx&_&Hva); [by split; [|apply zlen_nonneg]|done|done|by rewrite Hcat, zlen_app|no_drain|].
  cbn in Hx. destruct (cloak_valve_add_rx _ _) as [v'|]; [|done]. injection Hx as _ <-. by exists v'.
Qed.

(** Reading returns, keeps the invariant, and stops for a reason. *)
Lemma handle_readable_spec fuel w :
  conn_inv w -> quiet w -> (backlog (k_in w) < fuel)%nat ->
  exists w', conn_handle_readable on_envelope on_closed on_drained fuel w = Some w' /\ conn_inv w' /\
    quiet w' /\ reads w w' /\ (broken (w_conn w') = 0 -> stopped w w').
Proof.
  revert w. induction fuel as [|fuel IH]; intros w Hi Hq Hf; [lia|]. cbn [conn_handle_readable].
  pose proof Hi as [[((_&_&_&(Hwf&Hcl&_)&_)&_) _] _]. destruct (bytequeue_sizes _ Hwf) as (_&Hfree&Hct&_).
  set (room := cloak_bytequeue_free_space (recv_acc (w_conn w))) in *.
  destruct (Z.eqb_spec room 0) as [Hz|Hnz].
  { returns w; [done|]. split; [apply reads_refl|]. intros _. by right; right. }
  set (want := if room <? 4096 then room else 4096).
  assert (Hwant : 0 < want <= 4096 /\ want <= room).
  { unfold want. destruct (Z.ltb_spec room 4096); lia. }
  rewrite s64_small by (unfold INT64_MIN, INT64_MAX; lia).
  destruct (take_rx_room w want Hi) as (allowed&v&->&Hv&Hal); [lia|]. cbn [mbind option_bind].
  destruct (set_valve_inv w v Hi Hv) as [Hi1 Hk1]. set (w1 := set_valve w v) in *.
  pose proof (quiet_keeps _ _ Hk1 Hq) as Hq1.
  destruct (Z.leb_spec allowed 0) as [Hnone|Hsome].
  { destruct (pause_spec w1 Hi1) as (w'&->&Hi'&Hk'&Hp). exists w'. split; [done|]. split; [done|].
    split; [by eapply quiet_keeps|]. split; [|intros Hb; right; left; by apply Hp].
    apply takes_reads, keeps_takes. exact (conn_keeps_trans _ _ _ Hk1 Hk'). }
  rewrite (u64_small allowed) by lia. set (want2 := if allowed <? want then allowed else want).
  assert (Hw2 : 0 < want2 <= room).
  { unfold want2. destruct (Z.ltb_spec allowed want); lia. }
  pose proof (kernel_read_spec w1 want2 (proj1 Hw2)) as Hkr.
  destruct (kernel_read w1 want2) as [[got|[| |]] w2].
  - destruct Hkr as (segments&->&Hcat&Hgl&Hbl&Hby&Hdry).
    destruct Hby as [Hgot Hseg]; [apply Hi1|].
    change (w_valve (after_read w1 segments got)) with (w_valve w1).
    destruct (add_rx_room w1 segments got Hi1 Hcat) as (v2&->&Hv2). cbn [mbind option_bind].
    destruct (bytequeue_append (recv_acc (w_conn w)) got Hwf Hcl) as (q&Hw&Hwf'&Hc'&Hcap'&Hcl').
    { fold room. lia. }
    change (recv_acc (w_conn (set_valve (after_read w1 segments got) v2))) with (recv_acc (w_conn w)).
    rewrite Hw. cbn [mbind option_bind].
    destruct (read_inv w1 v2 q segments got Hi1 Hgot Hseg Hv2 Hwf' Hcl' Hcap' Hc' Hcat) as [Hi3 Hr3].
    change (w_conn (set_valve (after_read w1 segments got) v2)) with (w_conn w1).
    set (w3 := set_conn (set_valve _ v2) _) in *.
    destruct (extract_spec w3 Hi3) as (w4&->&Hi4&Ht4&Hq4). cbn [mbind option_bind].
    assert (Hr4 : reads w w4).
    { eapply reads_trans; [apply takes_reads, keeps_takes, Hk1|].
      eapply reads_trans; [exact Hr3|by apply takes_reads]. }
    destruct (Z.eqb_spec (broken (w_conn w4)) 0) as [Halive|Hdead]; cbn [negb].
    2: { returns w4; [done|]. split; [exact Hr4|]. by intros ?. }
    destruct Ht4 as (_&Hk4&_). injection Hk4 as Hin4 Hend4 _.
    destruct (IH w4 Hi4 Hq4) as (w'&->&Hi'&Hq'&Hr'&Hstop); 
      [rewrite Hin4; change (k_in w3) with segments; change (k_in w1) with (k_in w) in Hbl; lia|].
    returns w'; [done|]. split; [exact (reads_trans _ _ _ Hr4 Hr')|].
    intros Hb. destruct (Hstop Hb) as [[[Hd He]|[pre Hd]]|Hs]; [| |by right].
    + left; left. split; [done|]. rewrite Hend4 in He. exact He.
    + left; right. rewrite Hin4 in Hd. by eapply Hdry.
  - destruct Hkr as (segments&->&Hcat&Hdry&Hby).
    destruct (after_read_nothing w1 segments Hi1) as [Hi2 Hr2]; [apply Hby, Hi1|exact Hcat|].
    exists (after_read w1 segments []). split; [done|]. split; [done|]. split; [exact Hq1|].
    split; [eapply reads_trans; [apply takes_reads, keeps_takes, Hk1|exact Hr2]|].
    intros _. left. exact Hdry.
  - subst w2. destruct (mark_broken_spec _ _ _ Howner w1 (proj1 Hi1)) as (w'&->&Hi'&Hk'&Hbr).
    returns w'; [by intros ?|]. split; [|done].
    apply takes_reads, keeps_takes. exact (conn_keeps_trans _ _ _ Hk1 Hk').
  - subst w2. destruct (mark_broken_spec _ _ _ Howner w1 (proj1 Hi1)) as (w'&->&Hi'&Hk'&Hbr).
    returns w'; [by intros ?|]. split; [|done].
    apply takes_reads, keeps_takes. exact (conn_keeps_trans _ _ _ Hk1 Hk').
Qed.

End receiving.
