(* ===== verification/ConnSend.v ===== *)
(** * What a send touches, apart from its owner's callbacks

    [ConnInv] tells what a send promises on a connection.  Here is the other
    half: until it hands control to its owner, at most once and as its last
    act, [cloak_conn_send] of [conn.c] works on its own queue, its own socket
    and its own watch, and on nothing else. *)
From stdpp Require Import gmap.
From S2P Require Import Prelude Fallible Random Ring ByteQueue Valve WsFrame ReactorApi Conn Envelope ConnInv.

Section sends.
Context {R W : Type} {RR : Reactor R} {RL : ReactorLaws R}.
Implicit Types w : conn_world R W.

(** Nobody else's timer and nobody else's watch. *)
Definition own_watch (fd : Z) (r r' : R) : Prop :=
  reactor_ok r -> reactor_ok r' /\ same_timers r r' /\ forall f, f <> fd -> interest_in r' f = interest_in r f.

Lemma own_watch_refl fd r : own_watch fd r r.
Proof. by split. Qed.

Lemma own_watch_trans fd r1 r2 r3 : own_watch fd r1 r2 -> own_watch fd r2 r3 -> own_watch fd r1 r3.
Proof.
  intros H12 H23 Hok. destruct (H12 Hok) as (Hok2&Ht&Hf), (H23 Hok2) as (Hok3&Ht'&Hf'). split; [done|].
  split; [intros i; by rewrite (Ht' i)|]. intros f Hne. by rewrite Hf', Hf.
Qed.

(** The owner's state, the valve, the receive side and the others are as
    before; the log of the connection went on with [log]. *)
Definition sends_only (log : list conn_event) w w' : Prop :=
  (w_user w', w_valve w', w_clock w') = (w_user w, w_valve w, w_clock w) /\
  (k_in w', k_end w', k_read w') = (k_in w, k_end w, k_read w) /\
  (rx_side (w_conn w'), on_drained_set (w_conn w')) = (rx_side (w_conn w), on_drained_set (w_conn w)) /\
  own_watch (c_fd (w_conn w)) (w_reactor w) (w_reactor w') /\ w_log w' = w_log w ++ log.

Lemma sends_refl w : sends_only [] w w.
Proof. split_and!; [done..|apply own_watch_refl|by rewrite app_nil_r]. Qed.

Lemma sends_only_trans l1 l2 w1 w2 w3 :
  sends_only l1 w1 w2 -> sends_only l2 w2 w3 -> sends_only (l1 ++ l2) w1 w3.
Proof.
  intros (A1&B1&C1&D1&L1) (A2&B2&C2&D2&L2). split; [congruence|]. split; [congruence|]. split; [congruence|].
  split; [|by rewrite L2, L1, app_assoc]. eapply own_watch_trans; [exact D1|].
  apply (f_equal fst) in C1. unfold rx_side in C1. cbn [fst] in C1. injection C1 as Hfd. by rewrite <- Hfd.
Qed.

Lemma sends_then l w1 w2 w3 : sends_only [] w1 w2 -> sends_only l w2 w3 -> sends_only l w1 w3.
Proof. apply (sends_only_trans []). Qed.

Lemma sync_sends w : sends_only [] w (conn_sync_interest w).
Proof.
  unfold conn_sync_interest. destruct (_ =? _); [apply sends_refl|]. split_and!; [done..| |by rewrite app_nil_r].
  intros Hok. cbn. destruct (r_mod_fd _ _ _) as [v r] eqn:E. destruct (mod_fd_law _ _ _ _ _ Hok E) as (Hok'&Ht&Hw).
  split; [done|]. split; [done|]. cbn. destruct (v =? 0); [apply Hw|intros f _; apply Hw].
Qed.

Lemma want_sends w want : sends_only [] w (conn_set_want_writable w want).
Proof.
  unfold conn_set_want_writable. destruct (_ =? _); [apply sends_refl|].
  eapply sends_then; [|apply sync_sends]. split_and!; [done..|apply own_watch_refl|by rewrite app_nil_r].
Qed.

Lemma kernel_sends w data : sends_only [] w (kernel_send w data).2.
Proof.
  unfold kernel_send. destruct (k_sends w) as [|[n| |] rest];
    (split; [done|split; [done|split; [done|split; [by intros Hok|cbn; by rewrite app_nil_r]]]]).
Qed.

Variable on_closed : conn_world R W -> option (conn_world R W).
Variable on_drained : conn_world R W -> option (conn_world R W).

(** The end of the call: the owner is told nothing, that the queue ran empty,
    or that the connection broke. *)
Definition owner_told w w' : Prop :=
  w' = w \/
  (on_drained_set (w_conn w) = true /\ cloak_bytequeue_len (send_q (w_conn w)) = 0 /\ on_drained (note w Drained) = Some w') \/
  (broken (w_conn w) = 1 /\ on_closed_set (w_conn w) = true /\ on_closed (note w Closed) = Some w').

Definition sends_told (log : list conn_event) w w' : Prop :=
  exists wq, sends_only log w wq /\ owner_told wq w'.

Lemma told_then l1 l2 w1 w2 w3 : sends_only l1 w1 w2 -> sends_told l2 w2 w3 -> sends_told (l1 ++ l2) w1 w3.
Proof. intros H1 (wq&H2&Ht). exists wq. split; [by eapply sends_only_trans|done]. Qed.

Lemma told_nothing log w w' : sends_only log w w' -> sends_told log w w'.
Proof. intros H. exists w'. split; [done|by left]. Qed.

Lemma mark_told w w' : conn_mark_broken on_closed w = Some w' -> sends_told [] w w'.
Proof.
  unfold conn_mark_broken. destruct (negb (broken (w_conn w) =? 0)).
  { intros [= <-]. apply told_nothing, sends_refl. }
  set (w1 := set_reactor _ _).
  assert (H1 : sends_only [] w w1).
  { split_and!; [done..| |by rewrite app_nil_r]. intros Hok. destruct (remove_fd_law _ (c_fd (w_conn w)) Hok) as (?&?&_&?). done. }
  destruct (on_closed_set (w_conn w)) eqn:Hset.
  - intros H. exists w1. split; [done|]. right. right. done.
  - intros [= <-]. by apply told_nothing.
Qed.

Lemma drain_told fuel was w w' : drain_loop on_closed on_drained fuel was w = Some w' -> sends_told [] w w'.
Proof.
  revert w. induction fuel as [|fuel IH]; intros w; [done|]. cbn [drain_loop].
  destruct (Z.eqb_spec (cloak_bytequeue_len (send_q (w_conn w))) 0) as [H0|_].
  - pose proof (want_sends w 0) as Hs. set (w1 := conn_set_want_writable w 0) in *.
    destruct (negb _ && on_drained_set (w_conn w1)) eqn:Hon; [|intros [= <-]; by apply told_nothing].
    intros H. apply andb_true_iff in Hon as [_ Hon]. exists w1. split; [done|]. right. left. split; [done|]. split; [|done].
    assert (E : send_q (w_conn w1) = send_q (w_conn w)).
    { unfold w1, conn_set_want_writable, conn_sync_interest. cbv zeta. by repeat case_match. }
    by rewrite E.
  - set (want := if _ <? 4096 then _ else 4096). clearbody want.
    destruct (cloak_bytequeue_peek _ _) as [peeked|]; [|done]. cbn [mbind option_bind].
    pose proof (kernel_sends w peeked) as Hk. destruct (kernel_send w peeked) as [[n| |] w1]; cbn [snd] in Hk.
    + destruct (cloak_bytequeue_read _ _) as [[d q]|]; [|done]. cbn [mbind option_bind].
      set (w2 := set_conn w1 _).
      assert (H2 : sends_only [] w w2).
      { eapply sends_then; [exact Hk|]. split_and!; [done..|apply own_watch_refl|by rewrite app_nil_r]. }
      destruct (_ <? _).
      * intros [= <-]. apply told_nothing. eapply sends_then; [exact H2|apply want_sends].
      * intros H. by eapply (told_then [] []), IH.
    + intros [= <-]. apply told_nothing. eapply sends_then; [exact Hk|apply want_sends].
    + intros H. by eapply (told_then [] []), mark_told.
Qed.

(** A frame enters the queue. *)
Lemma queued_sends w q op key p :
  sends_only [Queued op key p] w (note (set_conn w (with_send_q (w_conn w) q)) (Queued op key p)).
Proof. split_and!; [done..|apply own_watch_refl|done]. Qed.

(** A key of the framing: WebSocket clients mask. *)
Definition key_fits (fr : Z) (key : option bytes) : Prop :=
  match key with
  | None => fr <> CLOAK_CONN_FRAMING_WS_CLIENT
  | Some k => fr = CLOAK_CONN_FRAMING_WS_CLIENT /\ zlen k = 4 /\ all_bytes k
  end.

Lemma enqueue_told w op p rc w' :
  rand_ok (w_rand w) -> conn_ws_enqueue_frame on_closed w op p = Some (rc, w') ->
  (rc = -1 /\ sends_told [] w w') \/ (rc = 0 /\ exists key, key_fits (framing (w_conn w)) key /\ sends_only [Queued op key p] w w').
Proof.
  intros Hrand. unfold conn_ws_enqueue_frame. set (kw := if framing (w_conn w) =? _ then _ else _).
  assert (Hkw : sends_only [] w kw.2 /\ key_fits (framing (w_conn w)) kw.1).
  { unfold kw. destruct (Z.eqb_spec (framing (w_conn w)) CLOAK_CONN_FRAMING_WS_CLIENT) as [Hc|Hc]; [|split; [apply sends_refl|done]].
    unfold cloak_ws_frame_mask_key. destruct (cloak_random_bytes 4 (w_rand w)) as [k r] eqn:Hr.
    destruct (random_bytes_ok 4 _ _ _ Hrand ltac:(lia) Hr) as [Hk _].
    split; [split_and!; [done..|apply own_watch_refl|by rewrite app_nil_r]|]. split; [done|]. split; [|done]. by eapply random_bytes_length. }
  destruct kw as [key w1]. cbn [fst snd] in Hkw. destruct Hkw as [Hkw Hkey].
  assert (Hbad : (w0 ← conn_mark_broken on_closed w1; Some (-1, w0)) = Some (rc, w') -> rc = -1 /\ sends_told [] w w').
  { destruct (conn_mark_broken on_closed w1) as [w2|] eqn:E; [|done]. intros [= <- <-]. split; [done|].
    eapply (told_then [] []); [exact Hkw|by apply mark_told]. }
  destruct (cloak_ws_frame_write_header _ _ _ _ _) as [[hn header]|]; [|done]. cbn [mbind option_bind].
  destruct (hn <? 0); [by left; apply Hbad|]. destruct (_ <? _); [by left; apply Hbad|].
  destruct (mem_read _ _ _) as [hdr|]; [|done]. cbn [mbind option_bind].
  destruct (cloak_bytequeue_write _ hdr) as [[n1 q1]|]; [|done]. cbn [mbind option_bind].
  destruct (match key with None => _ | Some _ => _ end) as [q|]; [|done]. cbn [mbind option_bind]. intros [= <- <-].
  right. split; [done|]. exists key. split; [exact Hkey|]. eapply sends_then; [exact Hkw|apply queued_sends].
Qed.

(** A send: the frame is queued, or the connection refused it; then the owner
    is told at most one thing. *)
Lemma send_told w frame rc w' :
  rand_ok (w_rand w) ->
  cloak_conn_send on_closed on_drained w frame = Some (rc, w') ->
  (rc = -1 /\ sends_told [] w w') \/
  (rc = (if broken (w_conn w') =? 0 then 0 else -1) /\
   exists key, key_fits (framing (w_conn w)) key /\ sends_told [Queued CLOAK_WS_OP_BINARY key frame] w w').
Proof.
  intros Hrand. unfold cloak_conn_send. destruct (negb (broken (w_conn w) =? 0)).
  { intros [= <- <-]. left. split; [done|]. apply told_nothing, sends_refl. }
  assert (Hbad : (w0 ← conn_mark_broken on_closed w; Some (-1, w0)) = Some (rc, w') -> rc = -1 /\ sends_told [] w w').
  { destruct (conn_mark_broken on_closed w) as [w2|] eqn:E; [|done]. intros [= <- <-]. split; [done|by apply mark_told]. }
  assert (Hgood : forall key w1, key_fits (framing (w_conn w)) key -> sends_only [Queued CLOAK_WS_OP_BINARY key frame] w w1 ->
    (w0 ← conn_try_drain_send on_closed on_drained w1; Some (if broken (w_conn w0) =? 0 then 0 else -1, w0)) = Some (rc, w') ->
    rc = (if broken (w_conn w') =? 0 then 0 else -1) /\
    exists key, key_fits (framing (w_conn w)) key /\ sends_told [Queued CLOAK_WS_OP_BINARY key frame] w w').
  { intros key w1 Hkey H1. unfold conn_try_drain_send. destruct (drain_loop _ _ _ _ w1) as [w2|] eqn:E; [|done].
    intros [= <- <-]. split; [done|]. exists key. split; [done|]. eapply (told_then [_] []); [exact H1|by eapply drain_told]. }
  destruct (_ <? _); [by left; apply Hbad|]. destruct (Z.eqb_spec (framing (w_conn w)) CLOAK_CONN_FRAMING_TLS_RECORD) as [Htls|_]; cbn [negb]; swap 1 2.
  - destruct (conn_ws_enqueue_frame _ _ _ _) as [[rc1 w1]|] eqn:E; [|done]. cbn [mbind option_bind].
    apply enqueue_told in E as [[-> Ht]|(->&key&Hkey&Hs)]; [..|exact Hrand]; cbn [Z.eqb negb].
    + intros [= <- <-]. by left.
    + intros H. right. by apply (Hgood key w1).
  - destruct (_ <? _); [by left; apply Hbad|]. destruct (_ <? _); [by left; apply Hbad|].
    destruct (cloak_bytequeue_write _ (record_header _)) as [[n1 q1]|]; [|done]. cbn [mbind option_bind].
    destruct (cloak_bytequeue_write q1 _) as [[n2 q2]|]; [|done]. cbn [mbind option_bind]. intros H.
    right. eapply (Hgood None); [by rewrite Htls| |exact H]. apply queued_sends.
Qed.

End sends.
