(* ===== verification/ConnRun.v ===== *)
(** * The life of a connection

    From the constructor on, any sequence of readiness events, timer firings
    and sends, with any kernel and any owner that keeps the invariant: what
    goes out, what comes in, and that a living connection always waits for
    something that will happen. *)
From S2P Require Import Prelude Fallible Random Ring ByteQueue Valve WsFrame ReactorApi Conn Envelope ConnInv ConnRecv.

(** ** Room in the receive queue

    Twice the largest envelope leaves room for one that has begun, unless the
    frames are so small that a long form of the header does not fit. *)
Definition roomy (fr max : Z) : Prop :=
  (fr = CLOAK_CONN_FRAMING_WS_CLIENT -> 6 <= max) /\ (fr = CLOAK_CONN_FRAMING_WS_SERVER -> 2 <= max).

Lemma ws_header_bound form h :
  ws_header_ok form h -> wh_header_len h <= 10 + 4 * wh_masked h.
Proof.
  intros Hok. rewrite (who_header_len _ _ Hok), ws_encode_length by apply Hok.
  rewrite form_ext_length. destruct (who_masked _ _ Hok) as [->| ->]; destruct form; cbn; lia.
Qed.

Lemma recv_len_ws fr max :
  fr <> CLOAK_CONN_FRAMING_TLS_RECORD -> max_ok max ->
  max + (if fr =? CLOAK_CONN_FRAMING_WS_CLIENT then 2 else 6) <= recv_envelope_len fr max.
Proof.
  intros Htls [H0 Hm]. unfold CLOAK_CONN_MAX_FRAME_LEN in Hm. unfold recv_envelope_len.
  rewrite (proj2 (Z.eqb_neq _ _) Htls). unfold conn_ws_envelope_len.
  destruct (fr =? CLOAK_CONN_FRAMING_WS_CLIENT), (CLOAK_WS_FRAME_MAX_CONTROL_PAYLOAD <? max); cbn [negb];
    rewrite u64_small; lia.
Qed.

(** What the machine waits for fits. *)
Lemma wait_short fr max st buf :
  framing_ok fr -> max_ok max -> roomy fr max -> all_bytes buf -> rx_step fr max st buf = RxWait ->
  zlen buf < 2 * recv_envelope_len fr max.
Proof.
  intros Hfr Hmax [Hcl Hsv] Hb. unfold rx_step, rx_read_head.
  destruct (Z.eqb_spec fr CLOAK_CONN_FRAMING_TLS_RECORD) as [->|Htls].
  - unfold recv_envelope_len, CLOAK_CONN_RECORD_HEADER_LEN. rewrite Z.eqb_refl. destruct Hmax as [H0 _].
    destruct buf as [|b0 [|b1 [|b2 [|h3 [|h4 body]]]]]; cbn [tls_head];
      try (intros _; rewrite ?zlen_cons, zlen_nil; lia).
    destruct (Z.ltb_spec max (h3 * 256 + h4)); [done|]. case_if; [lia|done].
  - pose proof (recv_len_ws fr max Htls Hmax) as Hrl. destruct Hmax as [H0 _]. unfold ws_head.
    pose proof (ws_parse_sound (take 14 buf)) as Hs.
    destruct (cloak_ws_frame_parse_header _ false) as [[[h|]|]|]; [| |done..].
    + destruct Hs as (form&rest&Hok&_); [by apply Forall_take|].
      destruct (Z.eqb_spec (wh_masked h) (b2z (fr =? CLOAK_CONN_FRAMING_WS_SERVER))) as [Hm|]; [|done].
      cbn [negb orb]. destruct (Z.ltb_spec max (wh_payload_len h)); [done|]. case_if.
      * intros _. pose proof (ws_header_bound _ _ Hok) as Hhb. rewrite Hm in Hhb.
        destruct Hfr as [->|[->| ->]]; [done|specialize (Hcl eq_refl)|specialize (Hsv eq_refl)]; cbn in *; lia.
      * by destruct (ws_meaning _ _ _ _) as [[]|].
    + assert (Hlt : zlen (take 14 buf) < 14) by (by apply Hs, Forall_take).
      intros _. assert (zlen buf < 14).
      { unfold zlen in *. rewrite length_take in Hlt. lia. }
      destruct Hfr as [->|[->| ->]]; [done|specialize (Hcl eq_refl)|specialize (Hsv eq_refl)]; cbn in *; lia.
Qed.

(** ** The connection's two callbacks, whoever else uses the loop *)

Section events.
Context {R W : Type} {RR : Reactor R} {RL : ReactorLaws R} {BY : Bystanders R W}.
Implicit Types w : conn_world R W.
Variable on_envelope : bytes -> conn_world R W -> option (conn_world R W).
Variable on_closed : conn_world R W -> option (conn_world R W).
Variable on_drained : conn_world R W -> option (conn_world R W).
Hypothesis Howner : owner_ok on_envelope on_closed on_drained.

Lemma resume_spec w r id :
  conn_inv w -> quiet w -> r_fire (w_reactor w) = Some (id, r) -> id = rx_resume_timer (w_conn w) ->
  exists w', conn_rx_resume_cb on_envelope on_closed on_drained (S (backlog (k_in w))) (set_reactor w r) = Some w' /\
    conn_inv w' /\ quiet w' /\ reads w w'.
Proof.
  intros [Hb Hset] Hq Hfire ->. pose proof Hb as [(_&_&_&(Hok&Hwf&_&Hint&_)&_) _].
  destruct (fire_law _ _ _ Hok Hfire) as (Hok'&Hsw&_&Hst0). unfold conn_rx_resume_cb.
  pose proof (aged_call _ _ Hok (call_fire _ _ _ Hfire)) as Hag0.
  cbn [w_conn set_reactor].
  destruct (Z.eqb_spec (broken (w_conn w)) 0) as [Halive|Hdead]; cbn [negb].
  - match goal with |- context [conn_sync_interest ?x] => destruct (sync_eq x) as (r2&->&Hr2&Hsame&Hst&Hag) end;
      [exact Hok'|by eapply (watched_same (w_conn w))|].
    destruct (base_wanted w (want_writable (w_conn w)) 0 CLOAK_TIMER_INVALID r2 Hb Hr2) as [Hb' Hk];
      [by eapply rewatched_same|by eapply aged_trans; [exact Hag0|exact Hag]|done|done
      |intros t Hne Ht; apply Hst, Hst0; by split|by right; left|].
    destruct (handle_readable_spec _ _ _ Howner (S (backlog (k_in w))) _ (conj Hb' Hset))
      as (w'&Hw'&Hi'&Hq'&Hr'&_); [by eapply quiet_keeps|apply Nat.lt_succ_diag_r|].
    exists w'. split; [exact Hw'|]. split; [done|]. split; [done|].
    eapply reads_trans; [apply takes_reads, keeps_takes, Hk|exact Hr'].
  - destruct (base_wanted w (want_writable (w_conn w)) (read_paused (w_conn w)) CLOAK_TIMER_INVALID r Hb Hok')
      as [Hb' Hk]; [by change (interest (rewanted _ _ _ _)) with (conn_desired_interest (w_conn w)); rewrite <- Hint; apply same_rewatched|done|done|done|intros t Hne Ht; apply Hst0; by split|by right; left|].
    assert (Hc : rewanted (w_conn w) (want_writable (w_conn w)) (read_paused (w_conn w)) CLOAK_TIMER_INVALID
      = with_wanted (w_conn w) (want_writable (w_conn w)) (read_paused (w_conn w)) CLOAK_TIMER_INVALID
          (interest (w_conn w))) by (unfold rewanted; f_equal; symmetry; exact Hint).
    rewrite Hc in Hb', Hk. eexists. split; [reflexivity|]. split; [split; [exact Hb'|by intros ?]|].
    split; [by intros ?|]. by apply takes_reads, keeps_takes.
Qed.

Lemma reactor_cb_spec events w :
  conn_inv w -> quiet w ->
  exists w', conn_reactor_cb on_envelope on_closed on_drained (S (backlog (k_in w))) events w = Some w' /\
    conn_inv w' /\ quiet w' /\ reads w w'.
Proof.
  intros Hi Hq.
  unfold conn_reactor_cb. destruct (Z.eqb_spec (broken (w_conn w)) 0) as [Halive|Hdead]; cbn [negb].
  2: { returns w; [done|apply reads_refl]. }
  set (readable := negb (Z.land events CLOAK_REACTOR_READABLE =? 0)).
  assert (Hr : exists w1, (if readable then conn_handle_readable on_envelope on_closed on_drained
      (S (backlog (k_in w))) w else Some w) = Some w1 /\ conn_inv w1 /\ quiet w1 /\ reads w w1).
  { destruct readable; [|returns w; [done|apply reads_refl]].
    destruct (handle_readable_spec _ _ _ Howner (S (backlog (k_in w))) w Hi Hq)
      as (w1&->&Hi1&Hq1&Hr1&_); [lia|]. by returns w1. }
  destruct Hr as (w1&->&Hi1&Hq1&Hr1). cbn [mbind option_bind].
  destruct (readable && _); [by returns w1|].
  destruct (Z.land events CLOAK_REACTOR_WRITABLE =? 0); cbn [negb]; [by returns w1|].
  destruct (try_drain_spec _ _ _ Howner w1 (proj1 Hi1)) as (w2&->&Hi2&Hk2).
  returns w2; [by eapply quiet_keeps|]. eapply reads_trans; [exact Hr1|by apply takes_reads, keeps_takes].
Qed.

End events.

(** ** Every input *)

Inductive conn_input :=
| Ready (events : Z)
| TimerDue
| SendFrame (frame : bytes)
| SetDrained (on : bool).

Definition input_ok (i : conn_input) : Prop :=
  match i with SendFrame f => all_bytes f | _ => True end.

Section run.
Context {R W : Type} {RR : Reactor R} {RL : ReactorLaws R}.
Implicit Types w : conn_world R W.
Variable on_envelope : bytes -> conn_world R W -> option (conn_world R W).
Variable on_closed : conn_world R W -> option (conn_world R W).
Variable on_drained : conn_world R W -> option (conn_world R W).

(** The reactor takes the earliest due timer off before it calls back; a timer
    of somebody else is none of the connection's business. *)
Definition conn_step (i : conn_input) w : option (conn_world R W) :=
  let fuel := S (backlog (k_in w)) in
  match i with
  | Ready events => conn_reactor_cb on_envelope on_closed on_drained fuel events w
  | TimerDue =>
      match r_fire (w_reactor w) with
      | None => Some w
      | Some (id, r) =>
          let w := set_reactor w r in
          if id =? rx_resume_timer (w_conn w)
          then conn_rx_resume_cb on_envelope on_closed on_drained fuel w else Some w
      end
  | SendFrame f => '(_, w) ← cloak_conn_send on_closed on_drained w f; Some w
  | SetDrained on => Some (set_conn w (with_drained_set (w_conn w) on))
  end.

Fixpoint conn_run (inputs : list conn_input) w : option (conn_world R W) :=
  match inputs with
  | [] => Some w
  | i :: rest => w ← conn_step i w; conn_run rest w
  end.

Hypothesis Howner : owner_ok on_envelope on_closed on_drained.

Lemma step_spec i w :
  conn_inv w -> quiet w -> input_ok i ->
  exists w', conn_step i w = Some w' /\ conn_inv w' /\ quiet w' /\ reads w w'.
Proof.
  intros Hi Hq Hin. destruct i as [events| |f|on]; cbn [conn_step].
  - by apply reactor_cb_spec.
  - destruct (r_fire (w_reactor w)) as [[id r]|] eqn:Hfire; [|returns w; [done|apply reads_refl]].
    cbn [w_conn set_reactor]. destruct (Z.eqb_spec id (rx_resume_timer (w_conn w))) as [E|E];
      [by eapply resume_spec|].
    destruct Hi as [[(Hs&Hr&Ht&(Hok&Hw&Ha&Hrest)&Hv) _] Hset].
    destruct (fire_law _ _ _ Hok Hfire) as (Hok'&Hsw&Harm&Hrem). eexists. split; [done|].
    split; [split; [split; [|done]|exact Hset]|split; [exact Hq|exact (reads_refl w)]].
    split; [exact Hs|]. split; [exact Hr|]. split; [exact Ht|]. split; [|exact Hv].
    split; [exact Hok'|]. split; [by eapply (watched_same (w_conn w))|]. split; [|exact Hrest].
    intros Hne. apply Hrem. split; [intros E2; apply E; symmetry; exact E2|by apply Ha].
  - destruct (send_spec _ _ _ Howner w f Hi Hin) as (rc&w'&->&Hi'&Hk&_). cbn [mbind option_bind].
    returns w'; [by eapply quiet_keeps|]. by apply takes_reads, keeps_takes.
  - eexists. split; [done|]. split; [exact Hi|]. split; [exact Hq|exact (reads_refl w)].
Qed.

Lemma run_spec inputs w :
  conn_inv w -> quiet w -> Forall input_ok inputs ->
  exists w', conn_run inputs w = Some w' /\ conn_inv w' /\ quiet w' /\ reads w w'.
Proof.
  intros Hi Hq Hin. revert w Hi Hq. induction Hin as [|i rest Hi0 _ IH]; intros w Hi Hq; cbn [conn_run].
  - returns w; [done|apply reads_refl].
  - destruct (step_spec i w Hi Hq Hi0) as (w1&->&Hi1&Hq1&Hr1). cbn [mbind option_bind].
    destruct (IH w1 Hi1 Hq1) as (w2&->&Hi2&Hq2&Hr2). returns w2; [done|by eapply reads_trans].
Qed.

(** ** Construction *)

(** A block [malloc] returned has the size that was asked for. *)
Definition block_ok (block : option bytes) (size : Z) : Prop :=
  match block with None => True | Some b => zlen b = size /\ size <= INT64_MAX end.

Definition memory_ok (cfg : cloak_conn_config_t) (m : conn_memory) : Prop :=
  let recv_len := recv_envelope_len (cfg_framing cfg) (cfg_max_frame_len cfg) in
  block_ok (mem_recv_acc m) (2 * recv_len) /\ block_ok (mem_send_q m) (cfg_send_queue_cap cfg) /\
  block_ok (mem_scratch m) recv_len.

Definition config_ok (cfg : cloak_conn_config_t) : Prop :=
  framing_ok (cfg_framing cfg) /\ max_ok (cfg_max_frame_len cfg) /\ 0 < cfg_send_queue_cap cfg.

Definition blocks_there (m : conn_memory) : Prop :=
  is_Some (mem_recv_acc m) /\ is_Some (mem_send_q m) /\ is_Some (mem_scratch m).

(** What the constructor leaves behind. *)
Definition conn_fresh (cfg : cloak_conn_config_t) (r : R) (c : cloak_conn) (r' : R) : Prop :=
  r_add_fd r (cfg_fd cfg) CLOAK_REACTOR_READABLE = (0, r') /\
  c_fd c = cfg_fd cfg /\ framing c = cfg_framing cfg /\ max_frame_len c = cfg_max_frame_len cfg /\
  on_envelope_set c = cfg_on_envelope cfg /\
  shaped c /\ bq_contents (recv_acc c) = [] /\ bq_contents (send_q c) = [] /\ rx_of c = rx_start /\
  broken c = 0 /\ read_paused c = 0 /\ rx_resume_timer c = CLOAK_TIMER_INVALID /\
  interest c = conn_desired_interest c /\ interest c = CLOAK_REACTOR_READABLE.

Lemma framing_cases fr :
  framing_ok fr \/ ~ framing_ok fr.
Proof.
  unfold framing_ok, CLOAK_CONN_FRAMING_TLS_RECORD, CLOAK_CONN_FRAMING_WS_CLIENT, CLOAK_CONN_FRAMING_WS_SERVER. lia.
Qed.

Lemma framing_bool fr :
  negb (fr =? CLOAK_CONN_FRAMING_TLS_RECORD) && negb (fr =? CLOAK_CONN_FRAMING_WS_CLIENT) &&
    negb (fr =? CLOAK_CONN_FRAMING_WS_SERVER) = bool_decide (~ framing_ok fr).
Proof.
  unfold framing_ok, CLOAK_CONN_FRAMING_TLS_RECORD, CLOAK_CONN_FRAMING_WS_CLIENT, CLOAK_CONN_FRAMING_WS_SERVER.
  destruct (Z.eqb_spec fr 1), (Z.eqb_spec fr 2), (Z.eqb_spec fr 3); cbn [negb andb];
    symmetry; first [apply bool_decide_eq_true_2; lia|apply bool_decide_eq_false_2; lia].
Qed.

Definition cfg_lens (cfg : cloak_conn_config_t) : Z * Z :=
  let we_mask := cfg_framing cfg =? CLOAK_CONN_FRAMING_WS_CLIENT in
  if cfg_framing cfg =? CLOAK_CONN_FRAMING_TLS_RECORD
  then (CLOAK_CONN_RECORD_HEADER_LEN + cfg_max_frame_len cfg, CLOAK_CONN_RECORD_HEADER_LEN + cfg_max_frame_len cfg)
  else (conn_ws_envelope_len (cfg_max_frame_len cfg) we_mask,
        conn_ws_envelope_len (cfg_max_frame_len cfg) (negb we_mask)).

Lemma cfg_lens_recv cfg : (cfg_lens cfg).2 = recv_envelope_len (cfg_framing cfg) (cfg_max_frame_len cfg).
Proof. unfold cfg_lens, recv_envelope_len. by destruct (_ =? CLOAK_CONN_FRAMING_TLS_RECORD). Qed.

Lemma queue_init n (b : bytes) :
  0 < n <= INT64_MAX -> zlen b = n ->
  exists q, cloak_bytequeue_init zero_bytequeue n (Some b) = (0, q) /\ bq_wf q /\
    bq_contents q = [] /\ bq_cap q = n /\ bq_closed q = false.
Proof.
  intros Hn Hb. pose proof (bytequeue_init_spec zero_bytequeue n b Hn Hb) as H.
  destruct (cloak_bytequeue_init _ _ _) as [rc q]. destruct H as (->&Hwf&Habs).
  injection Habs as Hc Hd He. by exists q.
Qed.

Lemma init_success r cfg m :
  config_ok cfg -> memory_ok cfg m -> blocks_there m ->
  exists c v r', r_add_fd r (cfg_fd cfg) CLOAK_REACTOR_READABLE = (v, r') /\
    cloak_conn_init_cfg r cfg m = (if v =? 0 then 0 else -1, c, r') /\
    (v = 0 -> conn_fresh cfg r c r' /\ on_closed_set c = cfg_on_closed cfg).
Proof.
  intros (Hfr&Hmax&Hcap) (Hm1&Hm2&Hm3) ([b1 E1]&[b2 E2]&[b3 E3]).
  rewrite E1 in Hm1. rewrite E2 in Hm2. rewrite E3 in Hm3. cbn in Hm1, Hm2, Hm3.
  pose proof (recv_len_bounds _ _ Hfr Hmax) as Hrl.
  unfold cloak_conn_init_cfg. rewrite framing_bool, bool_decide_eq_false_2 by tauto.
  pose proof Hmax as [H0 Hm]. unfold CLOAK_CONN_MAX_FRAME_LEN in *.
  rewrite (proj2 (Z.eqb_neq _ _)), (proj2 (Z.ltb_ge _ _)), (proj2 (Z.eqb_neq _ _)) by lia. cbn [orb].
  change (if cfg_framing cfg =? CLOAK_CONN_FRAMING_TLS_RECORD then _ else _) with (cfg_lens cfg).
  pose proof (cfg_lens_recv cfg) as Hl. destruct (cfg_lens cfg) as [env recv] eqn:Hlens. cbn in Hl. subst recv.
  rewrite (u64_small (2 * _)), E1, E2, E3 by lia.
  destruct (queue_init (2 * recv_envelope_len (cfg_framing cfg) (cfg_max_frame_len cfg)) b1)
    as (q1&->&Hwf1&Hc1&Hcap1&Hcl1); [lia|apply Hm1|].
  destruct (queue_init _ b2 (conj Hcap (proj2 Hm2)) (proj1 Hm2)) as (q2&->&Hwf2&Hc2&Hcap2&Hcl2).
  rewrite Z.eqb_refl. cbn [negb].
  destruct (r_add_fd r (cfg_fd cfg) CLOAK_REACTOR_READABLE) as [v r'] eqn:Hadd.
  destruct (Z.eqb_spec v 0) as [->|Hv]; cbn [negb].
  2: { do 3 eexists. split; [done|]. by rewrite (proj2 (Z.eqb_neq v 0) Hv). }
  do 3 eexists. split; [done|]. split; [done|]. intros _. split; [|done].
  unfold conn_fresh. cbn. split_and!; try done.
  refine (conj Hfr (conj Hmax (conj _ (conj (conj Hwf1 (conj Hcl1 Hcap1)) (conj (conj Hwf2 Hcl2) (conj (proj1 Hm3) _)))))).
  - intros Hf. cbn in Hf |- *. unfold cfg_lens in Hlens. rewrite Hf in Hlens. by injection Hlens as <-.
  - cbn. lia.
Qed.

Lemma init_refused r cfg m :
  0 <= cfg_max_frame_len cfg -> 0 <= cfg_send_queue_cap cfg -> memory_ok cfg m ->
  ~ (config_ok cfg /\ blocks_there m) ->
  exists c, cloak_conn_init_cfg r cfg m =
    (if bool_decide (framing_ok (cfg_framing cfg)) then -1 else CLOAK_CONN_ERR_INVALID_FRAMING, c, r).
Proof.
  intros Hm0 Hc0 (Hm1&Hm2&_) Hbad. unfold cloak_conn_init_cfg. rewrite framing_bool.
  case_bool_decide as Hfr; [rewrite bool_decide_eq_false_2 by done; by eexists|].
  destruct (framing_cases (cfg_framing cfg)) as [Hfr'|]; [|done]. rewrite bool_decide_eq_true_2 by done.
  destruct (_ || _ || _) eqn:Hsz; [by eexists|]. bool_hyps.
  assert (Hok : config_ok cfg) by (split; [done|]; unfold max_ok; lia).
  change (if cfg_framing cfg =? CLOAK_CONN_FRAMING_TLS_RECORD then _ else _) with (cfg_lens cfg).
  pose proof (cfg_lens_recv cfg) as Hl. destruct (cfg_lens cfg) as [env recv]. cbn in Hl. subst recv.
  pose proof Hok as (_&Hmax&_). pose proof (recv_len_bounds _ _ Hfr' Hmax) as Hrl.
  destruct Hmax as [_ Hmx]. unfold CLOAK_CONN_MAX_FRAME_LEN in Hmx.
  rewrite (u64_small (2 * _)) by lia. unfold cloak_bytequeue_init at 1.
  rewrite (proj2 (Z.eqb_neq (2 * _) 0)) by lia.
  destruct (mem_recv_acc m) as [b1|] eqn:E1; [|by eexists]. rewrite Z.eqb_refl. cbn [negb].
  unfold cloak_bytequeue_init at 1. rewrite (proj2 (Z.eqb_neq (cfg_send_queue_cap cfg) 0)) by lia.
  destruct (mem_send_q m) as [b2|] eqn:E2; [|by eexists]. rewrite Z.eqb_refl. cbn [negb].
  destruct (mem_scratch m) as [b3|] eqn:E3; [|by eexists].
  exfalso. apply Hbad. split; [done|]. unfold blocks_there. rewrite E1, E2, E3. split_and!; by eexists.
Qed.

(** A connection its constructor has just accepted, on a new socket. *)
Definition deployed (cfg : cloak_conn_config_t) w : Prop :=
  exists r m,
    reactor_ok r /\ memory_ok cfg m /\ 0 <= cfg_max_frame_len cfg /\ 0 <= cfg_send_queue_cap cfg /\
    cloak_conn_init_cfg r cfg m = (0, w_conn w, w_reactor w) /\
    (k_read w, k_out w, w_log w) = ([], [], []) /\
    surroundings (w_valve w) (w_clock w) (w_rand w) (k_in w).

Lemma deployed_inv cfg w :
  deployed cfg w ->
  conn_inv w /\ quiet w /\
  fixed_config (w_conn w) =
    (cfg_fd cfg, cfg_framing cfg, cfg_max_frame_len cfg, cfg_on_envelope cfg, cfg_on_closed cfg) /\
  k_read w = [].
Proof.
  intros (r&m&Hok&Hm&H0&H1&Hinit&Hk&Hsur). injection Hk as Hk1 Hk2 Hk3.
  destruct (decide (config_ok cfg /\ blocks_there m)) as [[Hc Hb]|Hbad].
  2: { destruct (init_refused r cfg m H0 H1 Hm Hbad) as [c Hr]. rewrite Hr in Hinit. by case_bool_decide. }
  destruct (init_success r cfg m Hc Hm Hb) as (c&v&r'&Hadd&Hr&Hf). rewrite Hr in Hinit.
  destruct (Z.eqb_spec v 0) as [->|]; [|done]. injection Hinit as -> ->.
  destruct (Hf eq_refl) as [(_&Hfd&Hfr&Hmx&Hon&Hs&Hra&Hsq&Hrx&Hbr&Hrp&Htm&Hint&Hrd) Honc].
  destruct (add_fd_law _ _ _ _ _ Hok Hadd) as (Hok'&_&_&Hw&_).
  assert (Hnext : rx_next w = RxWait).
  { unfold rx_next. rewrite Hra. unfold rx_step, rx_read_head. by destruct (_ =? _). }
  split; [split; [split; [split; [exact Hs|split; [|split; [|split; [|exact Hsur]]]]|done]|]|split; [by intros ?|]].
  - rewrite Hk1, Hk3. split; [apply all_bytes_nil|]. exists []. rewrite Hrx, Hra.
    split; [apply rx_stay|]. cbn. by destruct (on_envelope_set _).
  - rewrite Hk2, Hk3. split; [by rewrite Hsq|done].
  - split; [exact Hok'|]. split; [unfold watched_for, watching; rewrite Hbr, Hfd, Hw; split; [by split; [|by eexists]|]|].
    { intros _ _. by rewrite Hrd. }
    split; [by rewrite Htm|]. split; [exact Hint|]. split; [by rewrite Hrp|]. by rewrite Hbr, Hk3.
  - by intros _ _.
  - unfold fixed_config. by rewrite Hfd, Hfr, Hmx, Hon, Honc.
Qed.

(** Everything the theorems below need about a run. *)
Lemma deployed_run cfg inputs w :
  deployed cfg w -> Forall input_ok inputs ->
  exists w', conn_run inputs w = Some w' /\ conn_inv w' /\ quiet w' /\
    fixed_config (w_conn w') =
      (cfg_fd cfg, cfg_framing cfg, cfg_max_frame_len cfg, cfg_on_envelope cfg, cfg_on_closed cfg) /\
    k_read w' ++ concat (k_in w') = concat (k_in w).
Proof.
  intros Hd Hin. destruct (deployed_inv cfg w Hd) as (Hi&Hq&Hcf&Hkr).
  destruct (run_spec inputs w Hi Hq Hin) as (w'&Hr&Hi'&Hq'&(Hcf'&_&Hk&_)).
  returns w'; [done|]. split; [congruence|]. by rewrite Hk, Hkr.
Qed.

(** C23: refinement.  Whatever the segments of the kernel, the pauses of the
    valve and the owner's reactions, the connection returns from every event
    and the frames its owner was given are those the receiving machine takes
    from the bytes read so far: all of them while the connection lives, a
    beginning of them once it broke.  No byte is skipped or read twice. *)
Theorem conn_delivers_stream cfg inputs w :
  deployed cfg w -> Forall input_ok inputs -> cfg_on_envelope cfg = true ->
  exists w', conn_run inputs w = Some w' /\
    k_read w' ++ concat (k_in w') = concat (k_in w) /\
    let frames := delivers (rx_run (cfg_framing cfg) (cfg_max_frame_len cfg) (k_read w')) in
    envelopes (w_log w') `prefix_of` frames /\
    (broken (w_conn w') = 0 -> envelopes (w_log w') = frames).
Proof.
  intros Hd Hin Hon. destruct (deployed_run cfg inputs w Hd Hin) as (w'&Hr&Hi&Hq&Hcf&Hk).
  exists w'. split; [done|]. split; [done|]. unfold fixed_config in Hcf. injection Hcf as _ Hfr Hmx Hoe _.
  destruct Hi as [[(_&[Hg (acts&Hst&He)]&_) _] _]. rewrite Hoe, Hon in He. rewrite Hfr, Hmx in Hst. rewrite He.
  split.
  - apply delivers_prefix. pose proof (rx_run_prefix (cfg_framing cfg) (cfg_max_frame_len cfg) (k_read w') [] acts) as Hp.
    rewrite app_nil_r in Hp. by eapply Hp.
  - intros Hb. f_equal. symmetry. eapply rx_run_exact; [done|exact Hst|].
    intros n a s Hs. specialize (Hq Hb). unfold rx_next in Hq. rewrite Hfr, Hmx in Hq. congruence.
Qed.

(** C24: safety.  After any history a send returns; 0 means that the frame is
    in the queue of a living connection, -1 that the connection is broken.
    What the kernel has taken followed by what is still queued is exactly the
    envelopes of the accepted frames, pongs and close echoes included, in
    order and never a part of one; and the owner hears of the end exactly
    once. *)
Theorem conn_output_exact cfg inputs w frame :
  deployed cfg w -> Forall input_ok inputs -> all_bytes frame ->
  exists w1 rc w2, conn_run inputs w = Some w1 /\
    cloak_conn_send on_closed on_drained w1 frame = Some (rc, w2) /\
    send_result w1 frame rc w2 /\
    k_out w2 ++ bq_contents (send_q (w_conn w2)) = wire (cfg_framing cfg) (queued_frames (w_log w2)) /\
    Forall (queued_good (cfg_framing cfg) (cfg_max_frame_len cfg)) (queued_frames (w_log w2)) /\
    closings (w_log w2) = (if negb (broken (w_conn w2) =? 0) && cfg_on_closed cfg then [Closed] else []).
Proof.
  intros Hd Hin Hf. destruct (deployed_run cfg inputs w Hd Hin) as (w1&Hr&Hi&_&Hcf&_).
  destruct (send_spec _ _ _ Howner w1 frame Hi Hf) as (rc&w2&Hs&Hi2&Hk&Hres&_). exists w1, rc, w2.
  destruct (keeps_takes _ _ Hk) as (Hcf2&_). rewrite Hcf in Hcf2. unfold fixed_config in Hcf2.
  injection Hcf2 as _ Hfr Hmx _ Hoc. destruct Hi2 as [[(_&_&[Hout Hgood]&(_&_&_&_&_&Hcl)&_) _] _].
  rewrite Hfr, Hmx in *. rewrite Hoc in Hcl. by split_and!.
Qed.

(** What a connection at rest waits for. *)
Definition waits (fd : Z) w : Prop :=
  let c := w_conn w in
  if broken c =? 0 then
    let mask := Z.lor (if read_paused c =? 0 then CLOAK_REACTOR_READABLE else 0)
                      (if want_writable c =? 0 then 0 else CLOAK_REACTOR_WRITABLE) in
    watching (w_reactor w) fd /\ interest c = mask /\
    (mod_reliable (R := R) -> interest_in (w_reactor w) fd = Some mask) /\
    (read_paused c <> 0 -> armed (w_reactor w) (rx_resume_timer c)) /\
    (cloak_conn_send_queued (Some c) <> 0 -> want_writable c <> 0) /\
    0 < cloak_bytequeue_free_space (recv_acc c)
  else ~ watching (w_reactor w) fd.

Lemma waits_spec fd w :
  conn_inv w -> quiet w -> c_fd (w_conn w) = fd -> roomy (framing (w_conn w)) (max_frame_len (w_conn w)) ->
  waits fd w.
Proof.
  intros [Hb Hset] Hq <- Hroomy. pose proof (contents_bytes w Hb) as Hbytes.
  destruct Hb as [((Hfr&Hmax&_&(Hwf&_&Hcap)&[Hsq _]&_)&_&_&(_&[Hw Hmask]&Ha&Hint&Hp&_)&_) _].
  unfold waits. destruct (Z.eqb_spec (broken (w_conn w)) 0) as [Hz|Hz]; [|by rewrite Hw].
  destruct (bytequeue_sizes _ Hwf) as (_&Hfree&_). destruct (bytequeue_sizes _ Hsq) as (Hsl&_).
  pose proof (wait_short _ _ _ _ Hfr Hmax Hroomy Hbytes (Hq Hz)) as Hshort.
  cbn zeta. set (mask := Z.lor _ _). assert (Hm : interest (w_conn w) = mask).
  { rewrite Hint. unfold mask, conn_desired_interest. destruct (want_writable _ =? 0); [|done]. by rewrite Z.lor_0_r. }
  split; [by apply Hw|]. split; [exact Hm|]. split; [|split; [|split; [|lia]]].
  - intros Hrel. rewrite <- Hm. by apply Hmask.
  - intros Hrp. by apply Ha, Hp.
  - cbn. rewrite Hsl. intros Hne Hww. rewrite (Hset Hz Hww) in Hne. done.
Qed.

(** C22: invariant.  A living connection is never stuck.  Its socket is
    watched, and the mask that the event loop holds for it, not only the one
    the connection remembers, is what it can use: readable unless the valve
    paused it, writable when bytes are unsent.  (The source ignores a failure
    of [cloak_reactor_mod_fd], so this equality is for an event loop whose
    kernel takes every new mask of a watched descriptor, [mod_reliable].)  A
    pause of the valve has a timer that ends it, and there is room for more
    bytes; the room needs [roomy]: a largest frame of at least 6 bytes on a
    WebSocket client and 2 on a server, so that the longest header fits the
    receive buffer.  Reading stops only when the kernel has no
    more or a pause began.  A broken connection is no longer watched, and
    [cloak_conn_destroy] leaves neither a watch nor a timer of either kind. *)
Theorem conn_never_stalls cfg inputs w :
  deployed cfg w -> Forall input_ok inputs -> roomy (cfg_framing cfg) (cfg_max_frame_len cfg) ->
  exists w1, conn_run inputs w = Some w1 /\ waits (cfg_fd cfg) w1 /\
    (exists w2, conn_step (Ready CLOAK_REACTOR_READABLE) w1 = Some w2 /\ waits (cfg_fd cfg) w2 /\
       (broken (w_conn w2) = 0 -> kernel_dry w1 w2 \/ read_paused (w_conn w2) <> 0)) /\
    let r := (cloak_conn_destroy (w_reactor w1) (w_conn w1) true).2 in
    ~ watching r (cfg_fd cfg) /\ ~ armed r (rx_resume_timer (w_conn w1)).
Proof.
  intros Hd Hin Hroomy. destruct (deployed_run cfg inputs w Hd Hin) as (w1&Hr&Hi&Hq&Hcf&_).
  exists w1. split; [done|]. pose proof Hcf as Hcf'. unfold fixed_config in Hcf'.
  injection Hcf' as Hfd Hfr Hmx _ _.
  split; [apply waits_spec; [done|done|done|by rewrite Hfr, Hmx]|]. split.
  - cbn [conn_step]. unfold conn_reactor_cb.
    change (negb (Z.land CLOAK_REACTOR_READABLE CLOAK_REACTOR_READABLE =? 0)) with true.
    change (negb (Z.land CLOAK_REACTOR_READABLE CLOAK_REACTOR_WRITABLE =? 0)) with false.
    destruct (Z.eqb_spec (broken (w_conn w1)) 0) as [Hz|Hz]; cbn [negb andb].
    2: { exists w1. split; [done|]. split; [|by intros ?].
         apply waits_spec; [done|done|done|by rewrite Hfr, Hmx]. }
    destruct (handle_readable_spec _ _ _ Howner (S (backlog (k_in w1))) w1 Hi Hq)
      as (w2&->&Hi2&Hq2&(Hcf2&_)&Hstop); [lia|]. cbn [mbind option_bind].
    exists w2. split; [by destruct (negb _)|].
    rewrite Hcf in Hcf2. unfold fixed_config in Hcf2. injection Hcf2 as Hfd2 Hfr2 Hmx2 _ _.
    assert (Hw2 : waits (cfg_fd cfg) w2) by (apply waits_spec; [done|done|done|by rewrite Hfr2, Hmx2]).
    split; [exact Hw2|]. intros Hb. destruct (Hstop Hb) as [?|[?|Hfree]]; [by left|by right|].
    unfold waits in Hw2. rewrite Hb in Hw2. cbn in Hw2. lia.
  - pose proof Hi as [[(_&_&_&(Hok&_)&_) _] _].
    destruct (cancel_timer_law (w_reactor w1) (rx_resume_timer (w_conn w1)) Hok) as (Hok1&_&Hc).
    destruct (remove_fd_law (r_cancel_timer (w_reactor w1) (rx_resume_timer (w_conn w1))) (c_fd (w_conn w1)) Hok1)
      as (_&Hst&Hrm&_).
    unfold cloak_conn_destroy. cbn [snd]. rewrite Hfd in *. split.
    + intros Hx. unfold watching in Hx. rewrite Hrm in Hx. by destruct Hx.
    + intros Hx. apply Hst, Hc in Hx as [? _]. done.
Qed.

End run.

(** ** The constructor *)

(** Error behaviour.  The constructor names a missing framing before it
    looks at anything else, accepts exactly the usable configurations on a
    reactor that takes the socket and with memory for its three blocks, and
    when it refuses it leaves no watch and no timer behind. *)
Theorem conn_init_exact {R : Type} {RR : Reactor R} {RL : ReactorLaws R} (r : R) cfg m :
  reactor_ok r -> memory_ok cfg m -> 0 <= cfg_max_frame_len cfg -> 0 <= cfg_send_queue_cap cfg ->
  let '(rc, c, r') := cloak_conn_init_cfg r cfg m in
  (rc = CLOAK_CONN_ERR_INVALID_FRAMING <-> ~ framing_ok (cfg_framing cfg)) /\
  (rc = 0 <-> config_ok cfg /\ blocks_there m /\ (r_add_fd r (cfg_fd cfg) CLOAK_REACTOR_READABLE).1 = 0) /\
  (rc = 0 \/ rc = -1 \/ rc = CLOAK_CONN_ERR_INVALID_FRAMING) /\
  reactor_ok r' /\ same_timers r r' /\
  (if rc =? 0 then conn_fresh cfg r c r' else same_watches r r').
Proof.
  intros Hok Hm H0 H1. destruct (decide (config_ok cfg /\ blocks_there m)) as [[Hc Hb]|Hbad].
  - destruct (init_success r cfg m Hc Hm Hb) as (c&v&r'&Hadd&->&Hf).
    destruct (add_fd_law _ _ _ _ _ Hok Hadd) as (Hok'&Hst&Hw). rewrite Hadd. cbn [fst].
    pose proof Hc as [Hfr _]. destruct (Z.eqb_spec v 0) as [->|Hv].
    + destruct (Hf eq_refl) as [Hfresh _].
      split; [by split|]. split; [by split|]. split; [by left|]. done.
    + split; [by split|]. split; [by split; [|intros (_&_&?)]|]. split; [by right; left|]. done.
  - destruct (init_refused r cfg m H0 H1 Hm Hbad) as [c ->].
    assert (Hno : forall z : Z, z <> 0 -> (z = 0 <-> config_ok cfg /\ blocks_there m /\
      (r_add_fd r (cfg_fd cfg) CLOAK_REACTOR_READABLE).1 = 0)).
    { intros z Hz. split; [done|]. intros (?&?&_). by destruct Hbad. }
    case_bool_decide as Hfr.
    + split; [by split|]. split; [by apply Hno|]. split; [by right; left|]. by split_and!.
    + split; [by split|]. split; [by apply Hno|]. split; [by right; right|]. by split_and!.
Qed.

(** ** Two ends of one socket *)

(** The frames an owner queued with [cloak_conn_send]. *)
Definition data_frames (qs : list queued) : list bytes :=
  omap (fun q => if q_op q =? CLOAK_WS_OP_BINARY then Some (q_payload q) else None) qs.

Lemma delivers_queued fr max qs :
  Forall (queued_good fr max) qs -> delivers (map queued_act qs) = data_frames qs.
Proof.
  induction 1 as [|q qs [_ _ Hop _] _ IH]; [done|]. unfold delivers, data_frames in *.
  cbn [map omap list_omap]. rewrite <- IH. unfold queued_act, sent_act.
  by destruct Hop as [->|(_&_&[->| ->])].
Qed.

Section pair.
Context {Ra Wa : Type} {RRa : Reactor Ra} {RLa : ReactorLaws Ra}.
Context {Rb Wb : Type} {RRb : Reactor Rb} {RLb : ReactorLaws Rb}.
Variable env_a : bytes -> conn_world Ra Wa -> option (conn_world Ra Wa).
Variables closed_a drained_a : conn_world Ra Wa -> option (conn_world Ra Wa).
Variable env_b : bytes -> conn_world Rb Wb -> option (conn_world Rb Wb).
Variables closed_b drained_b : conn_world Rb Wb -> option (conn_world Rb Wb).

(** C12: round trip over a socket.  However the kernel and the valves cut the
    stream, the frames the owner of one end was given are a beginning of the
    frames the owner of the other end sent; once everything queued has been
    read by a connection that is still alive, they are all of them. *)
Theorem conn_pair_roundtrip cfga cfgb wa wb ia ib wa' wb' :
  owner_ok env_a closed_a drained_a -> owner_ok env_b closed_b drained_b ->
  deployed cfga wa -> deployed cfgb wb -> Forall input_ok ia -> Forall input_ok ib ->
  cfg_framing cfgb = peer_framing (cfg_framing cfga) -> cfg_max_frame_len cfgb = cfg_max_frame_len cfga ->
  cfg_on_envelope cfgb = true ->
  conn_run env_a closed_a drained_a ia wa = Some wa' ->
  conn_run env_b closed_b drained_b ib wb = Some wb' ->
  k_read wb' `prefix_of` k_out wa' ->
  let sent := data_frames (queued_frames (w_log wa')) in
  envelopes (w_log wb') `prefix_of` sent /\
  (k_read wb' = k_out wa' -> cloak_conn_send_queued (Some (w_conn wa')) = 0 -> broken (w_conn wb') = 0 ->
   envelopes (w_log wb') = sent).
Proof.
  intros Hoa Hob Hda Hdb Hia Hib Hpeer Hmax Hon Hra Hrb [ext Hpre] sent.
  destruct (deployed_run _ _ _ Hoa cfga ia wa Hda Hia) as (wa2&Hra2&Hinva&_&Hcfa&_).
  destruct (deployed_run _ _ _ Hob cfgb ib wb Hdb Hib) as (wb2&Hrb2&Hinvb&Hqb&Hcfb&_).
  rewrite Hra in Hra2. injection Hra2 as <-. rewrite Hrb in Hrb2. injection Hrb2 as <-.
  unfold fixed_config in Hcfa, Hcfb. injection Hcfa as _ Hfa Hma _ _. injection Hcfb as _ Hfb Hmb Hob2 _.
  destruct Hinva as [[((Hfr&Hmx&_&_&[Hsq _]&_)&_&[Hout Hgood]&_) _] _].
  destruct Hinvb as [[(_&[Hg (acts&Hst&He)]&_) _] _].
  rewrite Hob2, Hon in He. rewrite Hfb, Hmb, Hpeer, Hmax, <- Hfa, <- Hma in Hst.
  set (qs := queued_frames (w_log wa')) in *. unfold sent. rewrite He.
  rewrite <- (delivers_queued _ _ _ Hgood), <- (wire_roundtrip _ _ _ Hmx Hfr Hgood), <- Hout.
  pose proof (wire_bytes _ _ _ Hmx Hgood) as Hwb. rewrite <- Hout, Hpre in Hwb.
  split.
  - apply delivers_prefix. rewrite Hpre, <- app_assoc. rewrite <- app_assoc in Hwb. by eapply rx_run_prefix.
  - intros Hall Hempty Halive. destruct (bytequeue_sizes _ Hsq) as (Hl&_). cbn in Hempty.
    rewrite Hl in Hempty. apply zlen_zero in Hempty. rewrite Hempty, app_nil_r, <- Hall. f_equal.
    symmetry. eapply rx_run_exact; [done|exact Hst|]. intros n a s Hs.
    specialize (Hqb Halive). unfold rx_next in Hqb.
    rewrite Hfb, Hmb, Hpeer, Hmax, <- Hfa, <- Hma in Hqb. congruence.
Qed.

End pair.

(** ** Concrete connections *)

Section owners.
Context {R W : Type} {RR : Reactor R} {RL : ReactorLaws R}.

(** An owner that does nothing, and one that sends every frame back. *)
Definition idle_envelope (_ : bytes) (w : conn_world R W) : option (conn_world R W) := Some w.
Definition idle (w : conn_world R W) : option (conn_world R W) := Some w.
Definition echo_envelope (frame : bytes) (w : conn_world R W) : option (conn_world R W) :=
  '(_, w) ← cloak_conn_send idle idle w frame; Some w.

Lemma idle_owner : owner_ok idle_envelope idle idle.
Proof.
  split; [intros; eexists; (split; [done|]); auto with cloak_conn| |intros; eexists; (split; [done|]); auto with cloak_conn].
  intros w Hs Ho Hb. exists w. split; [done|]. split; [|apply conn_keeps_refl].
  apply base_broken_inv; [|done]. by split.
Qed.

Lemma echo_owner : owner_ok echo_envelope idle idle.
Proof.
  split; [|apply idle_owner..]. intros frame w Hi Hf. unfold echo_envelope.
  destruct (send_spec _ _ _ idle_owner w frame Hi Hf) as (rc&w'&->&Hi'&Hk&_). by exists w'.
Qed.

End owners.

Definition demo_config (fr max : Z) : cloak_conn_config_t := ConnConfig 5 max 100 fr true true.
Definition demo_memory (fr max : Z) : conn_memory :=
  let n := recv_envelope_len fr max in
  ConnMemory (Some (replicate (Z.to_nat (2 * n)) 0)) (Some (replicate 100 0)) (Some (replicate (Z.to_nat n) 0)).
Definition demo_world (fr max : Z) (segments : list bytes) (answers : list send_answer)
    : conn_world reactor_lists unit :=
  let '(_, c, r) := cloak_conn_init_cfg (ReactorLists [] [] 1) (demo_config fr max) (demo_memory fr max) in
  World c r None (fun _ => 0) (fun _ => 7) segments ReadAgain [] answers [] [] tt.

Definition demo_framed (fr : Z) (segments : list bytes) (answers : list send_answer) :=
  demo_world fr 20 segments answers.

Lemma demo_deployed fr segments answers :
  framing_ok fr -> Forall all_bytes segments -> zlen (concat segments) <= 1000 ->
  deployed (demo_config fr 20) (demo_framed fr segments answers).
Proof.
  intros Hfr Hseg Hlen. exists (ReactorLists [] [] 1), (demo_memory fr 20).
  assert (Hc : (k_read (demo_framed fr segments answers), k_out (demo_framed fr segments answers),
      w_log (demo_framed fr segments answers)) = ([], [], []) /\
    surroundings (w_valve (demo_framed fr segments answers)) (w_clock (demo_framed fr segments answers))
      (w_rand (demo_framed fr segments answers)) (k_in (demo_framed fr segments answers)) /\
    cloak_conn_init_cfg (ReactorLists [] [] 1) (demo_config fr 20) (demo_memory fr 20) =
      (0, w_conn (demo_framed fr segments answers), w_reactor (demo_framed fr segments answers)) /\
    memory_ok (demo_config fr 20) (demo_memory fr 20)).
  { destruct Hfr as [->|[->| ->]]; (split; [done|]); (split; [|split; [done|]]).
    1, 3, 5: change (surroundings None (fun _ => 0) (fun _ => 7) segments); split; [|split; [|split; [|exact Hseg]]].
    1, 4, 7: split; [done|split; [done|split; [cbn; unfold INT64_MAX; lia|done]]].
    1, 3, 5: intros ?; lia.
    1, 2, 3: intros ?; unfold is_byte; lia.
    all: by split; [|split]; (split; [vm_compute; done|by unfold INT64_MAX; vm_compute]). }
  destruct Hc as (H1&H2&H3&H4). split_and!; try done.
Qed.

Definition ask := CLOAK_CONN_FRAMING_WS_CLIENT.
Definition answer := CLOAK_CONN_FRAMING_WS_SERVER.

(** A client sends two frames through a kernel that takes three bytes, then
    blocks, then takes the rest; the server gets them in three pieces. *)
Definition demo_client := demo_framed ask [] [SendTook 3; SendAgain; SendTook 50; SendTook 50].
Definition demo_client_inputs := [SendFrame [1; 2; 3]; SendFrame [4]; Ready CLOAK_REACTOR_WRITABLE].
Definition demo_wire : bytes :=
  [130; 131; 7; 7; 7; 7; 6; 5; 4] ++ [130; 129; 7; 7; 7; 7; 3].
Definition demo_server := demo_framed answer [take 4 demo_wire; []; drop 4 demo_wire] [SendTook 4; SendTook 3].
Definition demo_server_inputs := [Ready CLOAK_REACTOR_READABLE; TimerDue; Ready CLOAK_REACTOR_READABLE].

Example demo_conversation :
  exists wa wb, conn_run idle_envelope idle idle demo_client_inputs demo_client = Some wa /\
    conn_run echo_envelope idle idle demo_server_inputs demo_server = Some wb /\
    k_out wa = demo_wire /\ k_read wb = demo_wire /\ envelopes (w_log wb) = [[1; 2; 3]; [4]] /\
    k_out wb ++ bq_contents (send_q (w_conn wb)) = [130; 3; 1; 2; 3; 130; 1; 4].
Proof. do 2 eexists. split; [vm_compute; reflexivity|]. split; [vm_compute; reflexivity|]. by vm_compute. Qed.

Lemma conn_delivers_stream_witness :
  exists w', conn_run echo_envelope idle idle demo_server_inputs demo_server = Some w' /\
    k_read w' ++ concat (k_in w') = demo_wire /\
    envelopes (w_log w') `prefix_of` delivers (rx_run answer 20 (k_read w')).
Proof.
  destruct (conn_delivers_stream echo_envelope idle idle echo_owner (demo_config answer 20) demo_server_inputs
    demo_server) as (w'&Hr&Hk&Hp&_).
  - apply demo_deployed; [by right; right| |by vm_compute].
    repeat (apply Forall_cons; split; [by apply all_bytesb_sound|]). done.
  - by repeat constructor.
  - done.
  - exists w'. split; [exact Hr|]. split; [|exact Hp]. rewrite Hk. by vm_compute.
Defined.

Lemma conn_output_exact_witness :
  exists w1 rc w2, conn_run idle_envelope idle idle demo_client_inputs demo_client = Some w1 /\
    cloak_conn_send idle idle w1 (replicate 30 1) = Some (rc, w2) /\
    send_result w1 (replicate 30 1) rc w2.
Proof.
  destruct (conn_output_exact idle_envelope idle idle idle_owner (demo_config ask 20) demo_client_inputs
    demo_client (replicate 30 1)) as (w1&rc&w2&Hr&Hs&Hres&_).
  - apply demo_deployed; [by right; left|done|by vm_compute].
  - repeat (apply Forall_cons; split; [first [by apply all_bytesb_sound|done]|]). done.
  - by apply all_bytesb_sound.
  - exists w1, rc, w2. exact (conj Hr (conj Hs Hres)).
Defined.

Lemma conn_never_stalls_witness :
  exists w1, conn_run echo_envelope idle idle demo_server_inputs demo_server = Some w1 /\ waits 5 w1 /\
    broken (w_conn w1) = 0 /\ interest_in (w_reactor w1) 5 = Some (Z.lor
      (if read_paused (w_conn w1) =? 0 then CLOAK_REACTOR_READABLE else 0)
      (if want_writable (w_conn w1) =? 0 then 0 else CLOAK_REACTOR_WRITABLE)).
Proof.
  destruct (conn_never_stalls echo_envelope idle idle echo_owner (demo_config answer 20) demo_server_inputs
    demo_server) as (w1&Hr&Hw&_).
  - apply demo_deployed; [by right; right| |by vm_compute].
    repeat (apply Forall_cons; split; [by apply all_bytesb_sound|]). done.
  - by repeat constructor.
  - by split.
  - exists w1. split; [exact Hr|]. split; [exact Hw|].
    assert (Hb : broken (w_conn w1) = 0).
    { assert (H : (broken ∘ w_conn) <$> conn_run echo_envelope idle idle demo_server_inputs demo_server = Some 0) by (by vm_compute).
      rewrite Hr in H. by injection H. }
    split; [exact Hb|]. unfold waits in Hw. rewrite Hb in Hw. destruct Hw as (_&_&Hm&_). exact (Hm reactor_lists_reliable).
Defined.

Lemma conn_init_exact_witness :
  (cloak_conn_init_cfg (ReactorLists [] [] 1) (demo_config 0 20) (demo_memory 0 20)).1.1 =
    CLOAK_CONN_ERR_INVALID_FRAMING.
Proof.
  pose proof (conn_init_exact (ReactorLists [] [] 1) (demo_config 0 20) (demo_memory 0 20)) as H.
  destruct (cloak_conn_init_cfg _ _ _) as [[rc c] r']. destruct H as (H&_).
  - by split.
  - by split; [|split]; (split; [vm_compute; done|by unfold INT64_MAX; vm_compute]).
  - done.
  - done.
  - apply H. cbn. unfold framing_ok, CLOAK_CONN_FRAMING_TLS_RECORD, CLOAK_CONN_FRAMING_WS_CLIENT,
      CLOAK_CONN_FRAMING_WS_SERVER. lia.
Defined.

Lemma conn_pair_roundtrip_witness :
  exists wa wb, conn_run idle_envelope idle idle demo_client_inputs demo_client = Some wa /\
    conn_run echo_envelope idle idle demo_server_inputs demo_server = Some wb /\
    envelopes (w_log wb) = data_frames (queued_frames (w_log wa)).
Proof.
  do 2 eexists. split; [vm_compute; reflexivity|]. split; [vm_compute; reflexivity|].
  eapply (conn_pair_roundtrip idle_envelope idle idle echo_envelope idle idle (demo_config ask 20)
    (demo_config answer 20) demo_client demo_server demo_client_inputs demo_server_inputs);
    [apply idle_owner|apply echo_owner|..|vm_compute; reflexivity|vm_compute; reflexivity| | | |].
  - apply demo_deployed; [by right; left|done|by vm_compute].
  - apply demo_deployed; [by right; right| |by vm_compute].
    repeat (apply Forall_cons; split; [by apply all_bytesb_sound|]). done.
  - repeat (apply Forall_cons; split; [first [by apply all_bytesb_sound|done]|]). done.
  - by repeat constructor.
  - done.
  - done.
  - done.
  - by exists [].
  - done.
  - by vm_compute.
  - done.
Defined.

(** Where there is no room: a client whose frames may have four bytes gets a
    frame with a long form of the length, and its receive queue is full before
    the frame is there.  It reads no more, though the kernel has two bytes
    for it, and nothing is broken or paused. *)
Example conn_room_runs_out :
  let w := demo_world CLOAK_CONN_FRAMING_WS_CLIENT 4 [[130; 127; 0; 0; 0; 0; 0; 0; 0; 4; 1; 2; 3; 4]] [] in
  exists w', conn_run idle_envelope idle idle [Ready 1; Ready 1] w = Some w' /\
    cloak_bytequeue_free_space (recv_acc (w_conn w')) = 0 /\ k_in w' = [[3; 4]] /\
    broken (w_conn w') = 0 /\ read_paused (w_conn w') = 0.
Proof. eexists. split; [vm_compute; reflexivity|]. by vm_compute. Qed.
