(* ===== verification/Switchboard.v ===== *)
(** * The connections of a session ([libcloak-mux/src/switchboard.c])

    A switchboard spreads the frames of a session over a pool of connections
    ([Conn]): each frame goes to one of them, chosen by a buffered CSPRNG, and
    the failure of one is the failure of all.  The connections share the event
    loop, the generator and the valve of their user, and call the pool back
    through three adapters; what the pool's owner does in its callbacks is a
    parameter, which sees and changes the whole pool.  [focus] is the world a
    connection's code runs in, [unfocus] the pool after it. *)
From stdpp Require Import gmap.
From S2P Require Import Prelude Fallible Random Ring ByteQueue Valve ReactorApi Conn.

Definition SWITCHBOARD_RNG_BUF_LEN : Z := 256.

(** The kernel's side of a connection's socket. *)
Record socket := Socket {
  so_in : list bytes;
  so_end : read_end;
  so_read : bytes;
  so_sends : list send_answer;
  so_out : bytes
}.

(** What [conns[i]] points to, with its [valve] field, its socket, and the
    record of its events. *)
Record slot := Slot {
  sl_conn : cloak_conn;
  sl_valve : option Z;
  sl_socket : socket;
  sl_log : list conn_event
}.

(** The pointers to valves are NULL ([None]) or keys of a store. *)
Record cloak_switchboard := Switchboard {
  sb_conns : list slot;
  sb_conns_cap : Z;
  sb_max_frame_len : Z;
  sb_conn_send_queue_cap : Z;
  sb_rng_buf : bytes;
  sb_rng_pos : Z;
  sb_broken : Z;
  sb_on_envelope : bool;
  sb_on_broken : bool;
  sb_on_drained : bool;
  sb_valve : option Z
}.

Definition zero_switchboard : cloak_switchboard :=
  Switchboard [] 0 0 0 (replicate 256 0) 0 0 false false false None.

(** Calls of the owner, and descriptors that were closed. *)
Inductive pool_event := PoolBroken | PoolDrained | FdClosed (fd : Z).

Record pool_world (R U : Type) := PoolWorld {
  p_sb : cloak_switchboard;
  p_reactor : R;
  p_valves : gmap Z cloak_valve_t;
  p_clock : option Z -> Z;
  p_rand : rand;
  p_log : list pool_event;
  p_user : U
}.
#[global] Arguments PoolWorld {R U}.
#[global] Arguments p_sb {R U}.
#[global] Arguments p_reactor {R U}.
#[global] Arguments p_valves {R U}.
#[global] Arguments p_clock {R U}.
#[global] Arguments p_rand {R U}.
#[global] Arguments p_log {R U}.
#[global] Arguments p_user {R U}.

(** ** Updates *)

Definition with_conns (sb : cloak_switchboard) (conns : list slot) : cloak_switchboard :=
  Switchboard conns (sb_conns_cap sb) (sb_max_frame_len sb) (sb_conn_send_queue_cap sb) (sb_rng_buf sb)
    (sb_rng_pos sb) (sb_broken sb) (sb_on_envelope sb) (sb_on_broken sb) (sb_on_drained sb) (sb_valve sb).
Definition with_cap (sb : cloak_switchboard) (cap : Z) : cloak_switchboard :=
  Switchboard (sb_conns sb) cap (sb_max_frame_len sb) (sb_conn_send_queue_cap sb) (sb_rng_buf sb)
    (sb_rng_pos sb) (sb_broken sb) (sb_on_envelope sb) (sb_on_broken sb) (sb_on_drained sb) (sb_valve sb).
Definition with_rng (sb : cloak_switchboard) (buf : bytes) (pos : Z) : cloak_switchboard :=
  Switchboard (sb_conns sb) (sb_conns_cap sb) (sb_max_frame_len sb) (sb_conn_send_queue_cap sb) buf
    pos (sb_broken sb) (sb_on_envelope sb) (sb_on_broken sb) (sb_on_drained sb) (sb_valve sb).
Definition with_pool_broken (sb : cloak_switchboard) (b : Z) : cloak_switchboard :=
  Switchboard (sb_conns sb) (sb_conns_cap sb) (sb_max_frame_len sb) (sb_conn_send_queue_cap sb) (sb_rng_buf sb)
    (sb_rng_pos sb) b (sb_on_envelope sb) (sb_on_broken sb) (sb_on_drained sb) (sb_valve sb).
Definition with_on_drained (sb : cloak_switchboard) (b : bool) : cloak_switchboard :=
  Switchboard (sb_conns sb) (sb_conns_cap sb) (sb_max_frame_len sb) (sb_conn_send_queue_cap sb) (sb_rng_buf sb)
    (sb_rng_pos sb) (sb_broken sb) (sb_on_envelope sb) (sb_on_broken sb) b (sb_valve sb).
Definition with_pool_valve (sb : cloak_switchboard) (v : option Z) : cloak_switchboard :=
  Switchboard (sb_conns sb) (sb_conns_cap sb) (sb_max_frame_len sb) (sb_conn_send_queue_cap sb) (sb_rng_buf sb)
    (sb_rng_pos sb) (sb_broken sb) (sb_on_envelope sb) (sb_on_broken sb) (sb_on_drained sb) v.

(** ** The connection pick *)

Definition switchboard_random_u32 (sb : cloak_switchboard) (r : rand)
    : option (Z * cloak_switchboard * rand) :=
  let sb := if SWITCHBOARD_RNG_BUF_LEN <? u64 (sb_rng_pos sb + 4)
            then with_rng sb (sb_rng_buf sb) SWITCHBOARD_RNG_BUF_LEN else sb in
  let '(sb, r) :=
    if sb_rng_pos sb =? SWITCHBOARD_RNG_BUF_LEN
    then let '(b, r) := cloak_random_bytes SWITCHBOARD_RNG_BUF_LEN r in (with_rng sb b 0, r)
    else (sb, r) in
  let pos := sb_rng_pos sb in
  v ← load_be32_at (sb_rng_buf sb) pos;
  Some (v, with_rng sb (sb_rng_buf sb) (pos + 4), r).

(** The rejection loop; [None] when [fuel] draws were all rejected. *)
Fixpoint switchboard_random_loop (fuel : nat) (n limit : Z) (sb : cloak_switchboard) (r : rand)
    : option (Z * cloak_switchboard * rand) :=
  match fuel with
  | O => None
  | S fuel' =>
      '(v, sb, r) ← switchboard_random_u32 sb r;
      if v <? limit then Some (v mod n, sb, r) else switchboard_random_loop fuel' n limit sb r
  end.

Definition switchboard_random_below (fuel : nat) (sb : cloak_switchboard) (n : Z) (r : rand)
    : option (Z * cloak_switchboard * rand) :=
  if n <=? 1 then Some (0, sb, r)
  else switchboard_random_loop fuel n (4294967296 - 4294967296 mod n) sb r.

(** ** The store of valves *)

Definition valve_load (valves : gmap Z cloak_valve_t) (ptr : option Z) : option (option cloak_valve_t) :=
  match ptr with None => Some None | Some a => v ← valves !! a; Some (Some v) end.
Definition valve_store (valves : gmap Z cloak_valve_t) (ptr : option Z) (v : option cloak_valve_t)
    : gmap Z cloak_valve_t :=
  match ptr, v with Some a, Some v => <[a := v]> valves | _, _ => valves end.

Section switchboard.
Context {R U : Type} {RR : Reactor R}.
Implicit Types p : pool_world R U.

Definition set_sb p (sb : cloak_switchboard) : pool_world R U :=
  PoolWorld sb (p_reactor p) (p_valves p) (p_clock p) (p_rand p) (p_log p) (p_user p).
Definition set_pool_reactor p (r : R) : pool_world R U :=
  PoolWorld (p_sb p) r (p_valves p) (p_clock p) (p_rand p) (p_log p) (p_user p).
Definition set_valves p (vs : gmap Z cloak_valve_t) : pool_world R U :=
  PoolWorld (p_sb p) (p_reactor p) vs (p_clock p) (p_rand p) (p_log p) (p_user p).
Definition set_pool_rand p (r : rand) : pool_world R U :=
  PoolWorld (p_sb p) (p_reactor p) (p_valves p) (p_clock p) r (p_log p) (p_user p).
Definition pool_note p (e : pool_event) : pool_world R U :=
  PoolWorld (p_sb p) (p_reactor p) (p_valves p) (p_clock p) (p_rand p) (p_log p ++ [e]) (p_user p).

(** ** One connection of the pool *)

Definition slot_world p (s : slot) (v : option cloak_valve_t) : conn_world R (pool_world R U) :=
  World (sl_conn s) (p_reactor p) v (p_clock p) (p_rand p)
    (so_in (sl_socket s)) (so_end (sl_socket s)) (so_read (sl_socket s))
    (so_sends (sl_socket s)) (so_out (sl_socket s)) (sl_log s) p.

(** [conns[i]] is dereferenced: no connection there, or a valve that is gone,
    is undefined. *)
Definition focus (i : nat) p : option (conn_world R (pool_world R U)) :=
  s ← sb_conns (p_sb p) !! i;
  v ← valve_load (p_valves p) (sl_valve s);
  Some (slot_world p s v).

Definition world_slot (valve : option Z) (w : conn_world R (pool_world R U)) : slot :=
  Slot (w_conn w) valve (Socket (k_in w) (k_end w) (k_read w) (k_sends w) (k_out w)) (w_log w).

Definition unfocus (i : nat) (w : conn_world R (pool_world R U)) : pool_world R U :=
  let p := w_user w in
  match sb_conns (p_sb p) !! i with
  | None => p
  | Some s =>
      PoolWorld (with_conns (p_sb p) (<[i := world_slot (sl_valve s) w]> (sb_conns (p_sb p))))
        (w_reactor w) (valve_store (p_valves p) (sl_valve s) (w_valve w)) (w_clock w) (w_rand w)
        (p_log p) (p_user p)
  end.

(** A callback of connection [i] that acts on the pool. *)
Definition pool_call (i : nat) (f : pool_world R U -> option (pool_world R U))
    (w : conn_world R (pool_world R U)) : option (conn_world R (pool_world R U)) :=
  p ← f (unfocus i w); focus i p.

(** ** The adapters and the owner's callbacks *)
Variable on_envelope : bytes -> pool_world R U -> option (pool_world R U).
Variable on_broken : pool_world R U -> option (pool_world R U).
Variable on_drained : pool_world R U -> option (pool_world R U).

Definition switchboard_conn_envelope_adapter (frame : bytes) p : option (pool_world R U) :=
  if sb_on_envelope (p_sb p) then on_envelope frame p else Some p.

Definition switchboard_conn_drained_adapter p : option (pool_world R U) :=
  if sb_on_drained (p_sb p) then on_drained (pool_note p PoolDrained) else Some p.

Definition switchboard_conn_closed_adapter p : option (pool_world R U) :=
  if negb (sb_broken (p_sb p) =? 0) then Some p
  else
    let p := set_sb p (with_pool_broken (p_sb p) 1) in
    if sb_on_broken (p_sb p) then on_broken (pool_note p PoolBroken) else Some p.

Definition conn_envelope (i : nat) (frame : bytes) := pool_call i (switchboard_conn_envelope_adapter frame).
Definition conn_closed (i : nat) := pool_call i switchboard_conn_closed_adapter.
Definition conn_drained (i : nat) := pool_call i switchboard_conn_drained_adapter.

(** ** Operations *)

Definition cloak_switchboard_send (fuel : nat) p (frame : bytes) : option (Z * pool_world R U) :=
  if negb (sb_broken (p_sb p) =? 0) || (zlen (sb_conns (p_sb p)) =? 0) then Some (-1, p)
  else
    '(idx, sb, r) ← switchboard_random_below fuel (p_sb p) (u32 (zlen (sb_conns (p_sb p)))) (p_rand p);
    let p := set_pool_rand (set_sb p sb) r in
    let i := Z.to_nat idx in
    w ← focus i p;
    '(rc, w) ← cloak_conn_send (conn_closed i) (conn_drained i) w frame;
    let p := unfocus i w in
    if rc =? 0 then
      s ← sb_conns (p_sb p) !! i;
      v ← valve_load (p_valves p) (sb_valve (p_sb p));
      v ← cloak_valve_add_tx v (s64 (cloak_conn_envelope_len (Some (sl_conn s)) (zlen frame)));
      Some (rc, set_valves p (valve_store (p_valves p) (sb_valve (p_sb p)) v))
    else Some (rc, p).

(** [realloc] and [malloc] succeed or not; the connection's own blocks are in
    [mem].  The socket comes with its kernel side. *)
Record pool_memory := PoolMemory { mem_array : bool; mem_conn : bool; mem_blocks : conn_memory }.

Definition cloak_switchboard_add_conn_framed p (fd framing : Z) (so : socket) (m : pool_memory)
    : Z * pool_world R U :=
  let sb := p_sb p in
  if framing =? CLOAK_CONN_FRAMING_INVALID then (CLOAK_CONN_ERR_INVALID_FRAMING, p)
  else if negb (sb_broken sb =? 0) then (-1, p)
  else
    let full := zlen (sb_conns sb) =? sb_conns_cap sb in
    let new_cap := if sb_conns_cap sb =? 0 then 4 else u64 (sb_conns_cap sb * 2) in
    if full && negb (mem_array m) then (-1, p)
    else
      let p := if full then set_sb p (with_cap sb new_cap) else p in
      if negb (mem_conn m) then (-1, p)
      else
        let cfg := ConnConfig fd (sb_max_frame_len sb) (sb_conn_send_queue_cap sb) framing true true in
        let '(rc, c, r) := cloak_conn_init_cfg (p_reactor p) cfg (mem_blocks m) in
        let p := set_pool_reactor p r in
        if negb (rc =? 0) then (rc, p)
        else
          let s := Slot (with_drained_set c true) (sb_valve sb) so [] in
          (0, set_sb p (with_conns (p_sb p) (sb_conns (p_sb p) ++ [s]))).

Definition cloak_switchboard_add_conn p (fd : Z) (so : socket) (m : pool_memory) : Z * pool_world R U :=
  cloak_switchboard_add_conn_framed p fd CLOAK_CONN_FRAMING_TLS_RECORD so m.

(** The loop of [cloak_switchboard_close_all]. *)
Fixpoint close_conns (conns : list slot) (r : R) (log : list pool_event) : R * list pool_event :=
  match conns with
  | [] => (r, log)
  | s :: rest =>
      let '(_, r) := cloak_conn_destroy r (sl_conn s) true in
      close_conns rest r (log ++ [FdClosed (c_fd (sl_conn s))])
  end.

Definition cloak_switchboard_close_all p : pool_world R U :=
  let '(r, log) := close_conns (sb_conns (p_sb p)) (p_reactor p) (p_log p) in
  PoolWorld (with_conns (p_sb p) []) r (p_valves p) (p_clock p) (p_rand p) log (p_user p).

Definition cloak_switchboard_destroy p : pool_world R U :=
  set_sb (cloak_switchboard_close_all p) zero_switchboard.

Definition cloak_switchboard_set_valve p (v : option Z) : pool_world R U :=
  let sb := with_pool_valve (p_sb p) v in
  set_sb p (with_conns sb (map (fun s => Slot (sl_conn s) v (sl_socket s) (sl_log s)) (sb_conns sb))).

Definition cloak_switchboard_set_drained_cb p (cb : bool) : pool_world R U :=
  set_sb p (with_on_drained (p_sb p) cb).

End switchboard.

(** ** Construction and accessors *)

Definition cloak_switchboard_init (max_frame_len conn_send_queue_cap : Z) (on_envelope on_broken : bool)
    : Z * cloak_switchboard :=
  if (max_frame_len =? 0) || (CLOAK_CONN_MAX_FRAME_LEN <? max_frame_len) || (conn_send_queue_cap =? 0)
  then (-1, zero_switchboard)
  else (0, Switchboard [] 0 max_frame_len conn_send_queue_cap (replicate 256 0) SWITCHBOARD_RNG_BUF_LEN 0
             on_envelope on_broken false None).

Definition cloak_switchboard_conn_count (sb : cloak_switchboard) : Z := zlen (sb_conns sb).

Definition cloak_switchboard_send_queued (sb : option cloak_switchboard) : Z :=
  match sb with
  | None => 0
  | Some sb => fold_left (fun total s => u64 (total + cloak_conn_send_queued (Some (sl_conn s)))) (sb_conns sb) 0
  end.

Definition cloak_switchboard_send_capacity (sb : option cloak_switchboard) : Z :=
  match sb with
  | None => 0
  | Some sb => fold_left (fun total s => u64 (total + cloak_conn_send_capacity (Some (sl_conn s)))) (sb_conns sb) 0
  end.

Definition cloak_switchboard_send_min_conn_free (sb : option cloak_switchboard) : Z :=
  match sb with
  | None => 0
  | Some sb =>
      match sb_conns sb with
      | [] => 0
      | s :: rest =>
          fold_left (fun min_free s =>
            let free_space := cloak_conn_send_free (Some (sl_conn s)) in
            if free_space <? min_free then free_space else min_free)
            rest (cloak_conn_send_free (Some (sl_conn s)))
      end
  end.
