(* ===== verification/SwitchboardRng.v ===== *)
(** * The connection pick ([switchboard_random_below])

    Buffering does not change what is drawn: the pool's generator is
    [cloak_random_below] over the unused bytes of the buffer followed by the
    tape, and a fair tape makes it end. *)
From S2P Require Import Prelude Fallible Random Conn Switchboard.

(** The bytes that are still to be handed out. *)
Definition tape_of (sb : cloak_switchboard) (r : rand) : rand := fun i =>
  let rest := drop (Z.to_nat (sb_rng_pos sb)) (sb_rng_buf sb) in
  default (r (i - length rest)%nat) (rest !! i).

(** Draws are aligned, so no byte of the buffer is thrown away. *)
Definition rng_ok (sb : cloak_switchboard) : Prop :=
  zlen (sb_rng_buf sb) = SWITCHBOARD_RNG_BUF_LEN /\ all_bytes (sb_rng_buf sb) /\
  0 <= sb_rng_pos sb <= SWITCHBOARD_RNG_BUF_LEN /\ (4 | sb_rng_pos sb).

(** Only the generator's state differs. *)
Definition same_but_rng (sb sb' : cloak_switchboard) : Prop :=
  exists buf pos, sb' = with_rng sb buf pos.

Lemma same_but_rng_trans sb1 sb2 sb3 :
  same_but_rng sb1 sb2 -> same_but_rng sb2 sb3 -> same_but_rng sb1 sb3.
Proof. intros (b1&p1&->) (b2&p2&->). by exists b2, p2. Qed.

Lemma tape_ok sb r : rng_ok sb -> rand_ok r -> rand_ok (tape_of sb r).
Proof.
  intros (_&Hb&_) Hr i. unfold tape_of. destruct (_ !! i) as [x|] eqn:E; [|apply Hr].
  rewrite lookup_drop in E. by eapply (Forall_lookup_1 _ _ _ _ Hb).
Qed.

Lemma tape_refill sb r i :
  tape_of (with_rng sb (cloak_random_bytes SWITCHBOARD_RNG_BUF_LEN r).1 0)
    (cloak_random_bytes SWITCHBOARD_RNG_BUF_LEN r).2 i = r i.
Proof.
  unfold tape_of, cloak_random_bytes. change (SWITCHBOARD_RNG_BUF_LEN =? 0) with false.
  change (Z.to_nat SWITCHBOARD_RNG_BUF_LEN) with 256%nat. cbn [fst snd sb_rng_buf sb_rng_pos with_rng].
  change (Z.to_nat 0) with 0%nat. rewrite drop_0, length_map, length_seq.
  destruct (decide (i < 256)%nat) as [Hi|Hi].
  - change (map r) with (fmap (M := list) r). by rewrite list_lookup_fmap, (lookup_seq_lt 0 256 i Hi).
  - rewrite lookup_ge_None_2 by (rewrite length_map, length_seq; lia). cbn. f_equal. lia.
Qed.

(** Reading the buffer. *)
Lemma buffered_draw sb r :
  rng_ok sb -> sb_rng_pos sb < SWITCHBOARD_RNG_BUF_LEN ->
  let t := tape_of sb r in
  let sb' := with_rng sb (sb_rng_buf sb) (sb_rng_pos sb + 4) in
  load_be32_at (sb_rng_buf sb) (sb_rng_pos sb) = Some (be_val [t 0%nat; t 1%nat; t 2%nat; t 3%nat]) /\
  rng_ok sb' /\ forall i, tape_of sb' r i = t (4 + i)%nat.
Proof.
  intros (Hl&Hbuf&Hp&[k Hk]) Hlt t sb'. unfold SWITCHBOARD_RNG_BUF_LEN in *.
  destruct (zlen_split (sb_rng_buf sb) (sb_rng_pos sb)) as (pre&rest&E&Hpre&Hrest); [lia|].
  destruct (zlen_split rest 4) as (four&rest'&->&H4&_); [lia|].
  pose proof Hbuf as Hb. rewrite E in Hb. apply Forall_app in Hb as [_ [Hb _]%Forall_app].
  assert (Hd : drop (Z.to_nat (sb_rng_pos sb)) (sb_rng_buf sb) = four ++ rest').
  { rewrite E. apply drop_app_length'. unfold zlen in Hpre. lia. }
  assert (Hd4 : drop (Z.to_nat (sb_rng_pos sb + 4)) (sb_rng_buf sb) = rest').
  { replace (Z.to_nat (sb_rng_pos sb + 4)) with (Z.to_nat (sb_rng_pos sb) + 4)%nat by lia.
    rewrite <- drop_drop, Hd. apply drop_app_length'. unfold zlen in H4. lia. }
  assert (Hfour : [t 0%nat; t 1%nat; t 2%nat; t 3%nat] = four).
  { unfold t, tape_of. rewrite Hd. destruct four as [|b0 [|b1 [|b2 [|b3 [|]]]]]; try (unfold zlen in H4; cbn in H4; lia).
    done. }
  split; [|split].
  - rewrite Hfour. apply load_be32_slice; [|done]. rewrite E. by apply mem_read_app.
  - split; [done|]. split; [done|]. cbn. split; [unfold SWITCHBOARD_RNG_BUF_LEN; lia|]. exists (k + 1). lia.
  - intros i. unfold t, tape_of. cbn [sb' sb_rng_pos sb_rng_buf with_rng]. rewrite Hd4, Hd.
    rewrite lookup_app_r by (unfold zlen in H4; lia). rewrite length_app.
    replace (4 + i - length four)%nat with i by (unfold zlen in H4; lia).
    destruct (rest' !! i); cbn; [done|]. f_equal. unfold zlen in H4. lia.
Qed.

(** A draw takes the next four bytes. *)
Lemma random_u32_tape sb r :
  rng_ok sb -> rand_ok r ->
  let t := tape_of sb r in
  exists sb' r',
    switchboard_random_u32 sb r = Some (be_val [t 0%nat; t 1%nat; t 2%nat; t 3%nat], sb', r') /\
    rng_ok sb' /\ later r r' /\ same_but_rng sb sb' /\ forall i, tape_of sb' r' i = t (4 + i)%nat.
Proof.
  intros Hok Hr t. pose proof Hok as (Hl&Hb&Hp&[k Hk]). unfold switchboard_random_u32.
  rewrite u64_small by (unfold SWITCHBOARD_RNG_BUF_LEN in *; lia).
  destruct (Z.ltb_spec SWITCHBOARD_RNG_BUF_LEN (sb_rng_pos sb + 4)) as [Hout|Hin].
  - assert (Hpos : sb_rng_pos sb = SWITCHBOARD_RNG_BUF_LEN) by (unfold SWITCHBOARD_RNG_BUF_LEN in *; lia).
    cbn [sb_rng_pos with_rng]. rewrite Z.eqb_refl.
    destruct (cloak_random_bytes SWITCHBOARD_RNG_BUF_LEN r) as [b r'] eqn:Hdraw.
    pose proof (random_bytes_length SWITCHBOARD_RNG_BUF_LEN _ _ _ ltac:(done) Hdraw) as Hbl.
    destruct (random_bytes_ok SWITCHBOARD_RNG_BUF_LEN _ _ _ Hr ltac:(done) Hdraw) as [Hbb Hr'].
    cbn [sb_rng_pos sb_rng_buf with_rng].
    set (sb0 := with_rng sb b 0). assert (Hok0 : rng_ok sb0) by (split_and!; try done; by exists 0).
    destruct (buffered_draw sb0 r' Hok0) as (E&Hok'&Htape); [done|].
    cbn [sb0 sb_rng_pos sb_rng_buf with_rng] in E. rewrite E. cbn [mbind option_bind].
    assert (Htt : forall i, tape_of sb0 r' i = t i).
    { intros i. pose proof (tape_refill sb r i) as Hf. rewrite Hdraw in Hf. cbn [fst snd] in Hf. unfold sb0. rewrite Hf.
      unfold t, tape_of.
      assert (Hend : drop (Z.to_nat (sb_rng_pos sb)) (sb_rng_buf sb) = []).
      { apply drop_ge. rewrite Hpos, <- Hl. unfold zlen. lia. }
      rewrite Hend, lookup_nil. cbn. f_equal. lia. }
    do 2 eexists. split; [by rewrite <- !Htt|]. split; [exact Hok'|].
    split; [by eapply later_draw|]. split; [by do 2 eexists|].
    intros i. rewrite <- Htt. apply Htape.
  - rewrite (proj2 (Z.eqb_neq _ _)) by (unfold SWITCHBOARD_RNG_BUF_LEN in *; lia).
    destruct (buffered_draw sb r Hok) as (E&Hok'&Htape); [lia|]. rewrite E. cbn [mbind option_bind].
    do 2 eexists. split; [done|]. split; [exact Hok'|]. split; [apply later_refl|]. split; [by do 2 eexists|exact Htape].
Qed.

(** The rejection loops agree, step by step. *)
Lemma random_loop_tape fuel n limit sb r t :
  rng_ok sb -> rand_ok r -> (forall i, tape_of sb r i = t i) ->
  match switchboard_random_loop fuel n limit sb r, random_below_loop fuel n limit t with
  | Some (v, sb', r'), Some (v', t') =>
      v = v' /\ (forall i, tape_of sb' r' i = t' i) /\ rng_ok sb' /\ later r r' /\ same_but_rng sb sb'
  | None, None => True
  | _, _ => False
  end.
Proof.
  revert sb r t. induction fuel as [|fuel IH]; intros sb r t Hok Hr Ht; [done|].
  assert (Htok : rand_ok t) by (intros i; rewrite <- Ht; by apply tape_ok).
  rewrite random_below_loop_S by done. cbn [switchboard_random_loop].
  destruct (random_u32_tape sb r Hok Hr) as (sb'&r'&->&Hok'&Hl&Hs&Htape). cbn [mbind option_bind].
  rewrite !Ht. cbv zeta. destruct (_ <? limit).
  - split; [done|]. split; [|done]. intros i. by rewrite Htape, Ht.
  - specialize (IH sb' r' (fun i => t (4 + i)%nat) Hok' (rand_ok_later _ _ Hl Hr)).
    destruct (switchboard_random_loop fuel n limit sb' r') as [[[v sb2] r2]|], (random_below_loop fuel n limit _) as [[v2 t2]|];
      try (apply IH; intros i; by rewrite Htape, Ht).
    destruct IH as (?&?&?&Hl2&Hs2); [intros i; by rewrite Htape, Ht|].
    split_and!; try done; [by eapply later_trans|by eapply same_but_rng_trans].
Qed.

(** Draws that end the loop come from the tape once the buffer is used up. *)
Lemma random_below_loop_hit k n limit r :
  rand_ok r -> 2147483648 <= limit -> (exists j, (j < k)%nat /\ r (4 * j)%nat < 128) ->
  is_Some (random_below_loop k n limit r).
Proof.
  revert r. induction k as [|k IH]; intros r Hr Hl (j&Hj&Hd); [lia|].
  rewrite random_below_loop_S by done. cbv zeta. case_if; [by eexists|].
  apply IH; [intros i; apply Hr|done|]. destruct j as [|j].
  - exfalso. pose proof (Hr 0%nat). pose proof (Hr 1%nat). pose proof (Hr 2%nat). pose proof (Hr 3%nat).
    unfold is_byte in *. unfold be_val in E. cbn [fold_left] in E. change (4 * 0)%nat with 0%nat in Hd. lia.
  - exists j. split; [lia|]. by replace (4 + 4 * j)%nat with (4 * S j)%nat by lia.
Qed.

(** Up to 64 draws are in the buffer. *)
Definition pick_fuel (fuel : nat) : nat := (64 + fuel)%nat.

Lemma pick_spec fuel sb n r :
  rng_ok sb -> rand_ok r -> fair fuel r -> 1 <= n <= 2147483648 ->
  exists v sb' r', switchboard_random_below (pick_fuel fuel) sb n r = Some (v, sb', r') /\
    0 <= v < n /\ rng_ok sb' /\ later r r' /\ same_but_rng sb sb'.
Proof.
  intros Hok Hr Hf Hn. unfold switchboard_random_below.
  destruct (Z.leb_spec n 1).
  { exists 0, sb, r. split; [done|]. split; [lia|]. split; [done|]. split; [apply later_refl|].
    exists (sb_rng_buf sb), (sb_rng_pos sb). by destruct sb. }
  destruct (below_limit n) as (_&_&Hlim); [lia|].
  pose proof (random_loop_tape (pick_fuel fuel) n (4294967296 - 4294967296 mod n) sb r (tape_of sb r) Hok Hr
    (fun _ => eq_refl)) as Heq.
  destruct (random_below_loop_hit (pick_fuel fuel) n (4294967296 - 4294967296 mod n) (tape_of sb r))
    as [[v t'] Ht]; [by apply tape_ok|lia| |].
  { pose proof Hok as (Hl&_&Hp&[k Hk]). unfold SWITCHBOARD_RNG_BUF_LEN in *. destruct (Hf 0%nat) as (j&Hj&Hd).
    exists (64 - Z.to_nat k + j)%nat. split; [unfold pick_fuel; lia|].
    unfold tape_of. rewrite length_drop, lookup_ge_None_2 by (rewrite length_drop; unfold zlen in Hl; lia).
    cbn [default]. unfold default, from_option. unfold zlen in Hl. by replace (4 * (64 - Z.to_nat k + j) - (length (sb_rng_buf sb) - Z.to_nat (sb_rng_pos sb)))%nat
      with (0 + 4 * j)%nat by lia. }
  rewrite Ht in Heq. destruct (switchboard_random_loop _ _ _ sb r) as [[[v' sb'] r']|]; [|done].
  destruct Heq as (->&_&Hok'&Hl&Hs). exists v, sb', r'. split; [done|]. split; [|done].
  eapply (random_below_range (pick_fuel fuel) n (tape_of sb r)); [|lia].
  unfold cloak_random_below. by rewrite (proj2 (Z.leb_gt _ _)), Ht by lia.
Qed.

(** Picking through the pool's buffer of 256 bytes is
    picking with [cloak_random_below] from the unused bytes of the buffer
    followed by what the CSPRNG gives next: the same value for every bound,
    and the same stream left for the picks that follow.  Nothing is reused,
    skipped or drawn out of order, refills included. *)
Theorem pick_is_random_below fuel sb n r :
  rng_ok sb -> rand_ok r ->
  match switchboard_random_below fuel sb n r, cloak_random_below fuel n (tape_of sb r) with
  | Some (v, sb', r'), Some (v', t') =>
      v = v' /\ (forall i, tape_of sb' r' i = t' i) /\ rng_ok sb' /\ later r r' /\ same_but_rng sb sb'
  | None, None => True
  | _, _ => False
  end.
Proof.
  intros Hok Hr. unfold switchboard_random_below, cloak_random_below. destruct (n <=? 1).
  - split; [done|]. split; [done|]. split; [done|]. split; [apply later_refl|].
    exists (sb_rng_buf sb), (sb_rng_pos sb). by destruct sb.
  - by apply random_loop_tape.
Qed.

Lemma fresh_rng_ok max cap env brk :
  rng_ok (Switchboard [] 0 max cap (replicate 256 0) SWITCHBOARD_RNG_BUF_LEN 0 env brk false None).
Proof.
  split; [done|]. split; [by apply Forall_replicate|].
  split; [done|]. by exists 64.
Qed.

(** A pick from a fresh pool, and one from a buffer with four bytes left. *)
Lemma pick_is_random_below_witness :
  let sb := Switchboard [] 0 100 100 (replicate 256 0) SWITCHBOARD_RNG_BUF_LEN 0 true true false None in
  let sb' := with_rng sb (replicate 256 9) 252 in
  (exists v t, cloak_random_below 4 3 (tape_of sb (fun i => Z.of_nat (i mod 256))) = Some (v, t) /\
    exists sb1 r1, switchboard_random_below 4 sb 3 (fun i => Z.of_nat (i mod 256)) = Some (v, sb1, r1)) /\
  (exists v t, cloak_random_below 4 3 (tape_of sb' (fun i => Z.of_nat (i mod 256))) = Some (v, t) /\
    exists sb1 r1, switchboard_random_below 4 sb' 3 (fun i => Z.of_nat (i mod 256)) = Some (v, sb1, r1)).
Proof.
  intros sb sb'.
  assert (Hr : rand_ok (fun i => Z.of_nat (i mod 256))).
  { intros i. pose proof (Nat.mod_upper_bound i 256). unfold is_byte. lia. }
  assert (Hok' : rng_ok sb') by (split; [done|split; [by apply Forall_replicate|split; [done|by exists 63]]]).
  pose proof (pick_is_random_below 4 sb 3 _ (fresh_rng_ok 100 100 true true) Hr) as H1.
  pose proof (pick_is_random_below 4 sb' 3 _ Hok' Hr) as H2.
  destruct (cloak_random_below 4 3 (tape_of sb _)) as [[v t]|] eqn:E1; [|vm_compute in E1; done].
  destruct (cloak_random_below 4 3 (tape_of sb' _)) as [[v' t']|] eqn:E2; [|vm_compute in E2; done].
  split; [exists v, t|exists v', t']; (split; [done|]).
  - destruct (switchboard_random_below 4 sb 3 _) as [[[v1 sb1] r1]|]; [|done].
    destruct H1 as (->&_). by exists sb1, r1.
  - destruct (switchboard_random_below 4 sb' 3 _) as [[[v1 sb1] r1]|]; [|done].
    destruct H2 as (->&_). by exists sb1, r1.
Defined.
