(* ===== verification/SwitchboardInv.v ===== *)
(** * The invariant of a pool of connections

    What holds of a switchboard ([Switchboard]) whenever its owner is called:
    every connection keeps the invariant of [ConnInv], they have their own
    descriptors and timers and share one valve, and the pool is broken exactly
    when one of them is.  The pool is the bystander of each of its
    connections; so the owner's callbacks, which act on the whole pool, are
    callbacks that a connection may be given. *)
From stdpp Require Import gmap.
From S2P Require Import Prelude Fallible Random Ring ByteQueue Valve WsFrame ReactorApi Conn Envelope ConnInv ConnRecv ConnRun Switchboard SwitchboardRng.

(** ** Observations *)

Definition fds (conns : list slot) : list Z := (fun s => c_fd (sl_conn s)) <$> conns.
Definition timer_of (s : slot) : Z := rx_resume_timer (sl_conn s).
Definition slot_coming (s : slot) : Z := zlen (concat (so_in (sl_socket s))).
Fixpoint still_coming (conns : list slot) : Z :=
  match conns with [] => 0 | s :: rest => slot_coming s + still_coming rest end.

Definition pool_reports (log : list pool_event) : list pool_event :=
  omap (fun e => match e with PoolBroken => Some PoolBroken | _ => None end) log.

Definition timers_apart (conns : list slot) : Prop :=
  forall i j s t, i <> j -> conns !! i = Some s -> conns !! j = Some t ->
    timer_of s <> CLOAK_TIMER_INVALID -> timer_of s <> timer_of t.

(** What the owner of the pool may do to a connection. *)
Definition slot_keeps (s s' : slot) : Prop :=
  rx_side (sl_conn s') = rx_side (sl_conn s) /\
  (so_in (sl_socket s'), so_end (sl_socket s'), so_read (sl_socket s')) =
    (so_in (sl_socket s), so_end (sl_socket s), so_read (sl_socket s)) /\
  (broken (sl_conn s) <> 0 -> broken (sl_conn s') <> 0) /\
  exists more, sl_log s' = sl_log s ++ more /\ envelopes more = [].

(** What the constructor of the pool chose. *)
Definition pool_config (sb : cloak_switchboard) :=
  (sb_max_frame_len sb, sb_conn_send_queue_cap sb, sb_on_envelope sb, sb_on_broken sb).

(** Since [sb], connections other than [i] were only used by the owner. *)
Definition pool_since (sb : cloak_switchboard) (skip : nat -> Prop) (sb' : cloak_switchboard) : Prop :=
  length (sb_conns sb') = length (sb_conns sb) /\ pool_config sb' = pool_config sb /\
  (sb_broken sb <> 0 -> sb_broken sb' <> 0) /\
  forall j s s', ~ skip j -> sb_conns sb !! j = Some s -> sb_conns sb' !! j = Some s' -> slot_keeps s s'.

Lemma slot_keeps_refl s : slot_keeps s s.
Proof. split_and!; [done..|]. exists []. by rewrite app_nil_r. Qed.

Lemma slot_keeps_trans s1 s2 s3 : slot_keeps s1 s2 -> slot_keeps s2 s3 -> slot_keeps s1 s3.
Proof.
  intros (A1&B1&C1&m1&L1&E1) (A2&B2&C2&m2&L2&E2). split_and!; [congruence..|tauto|].
  exists (m1 ++ m2). rewrite L2, L1, app_assoc, envelopes_app, E1, E2. done.
Qed.

Lemma pool_since_refl skip sb : pool_since sb skip sb.
Proof. split_and!; [done..|]. intros j s s' _ -> [= ->]. apply slot_keeps_refl. Qed.

Lemma pool_since_trans sb1 skip sb2 sb3 :
  pool_since sb1 skip sb2 -> pool_since sb2 skip sb3 -> pool_since sb1 skip sb3.
Proof.
  intros (L1&C1&B1&K1) (L2&C2&B2&K2). split_and!; [congruence..|tauto|].
  intros j s s' Hj Hs Hs'. destruct (lookup_lt_is_Some_2 (sb_conns sb2) j) as [t Ht].
  { apply lookup_lt_Some in Hs. lia. }
  eapply slot_keeps_trans; [by eapply K1|by eapply K2].
Qed.

Lemma pool_since_skip sb (skip skip' : nat -> Prop) sb' :
  (forall j, skip j -> skip' j) -> pool_since sb skip sb' -> pool_since sb skip' sb'.
Proof. intros Hs (L&C&B&K). split_and!; [done..|]. intros j s s' Hj. apply K. auto. Qed.

Lemma still_coming_nonneg conns : 0 <= still_coming conns.
Proof.
  induction conns as [|s conns IH]; [done|]. cbn [still_coming]. unfold slot_coming.
  pose proof (zlen_nonneg (concat (so_in (sl_socket s)))). lia.
Qed.

Lemma still_coming_insert conns i s s' :
  conns !! i = Some s ->
  still_coming (<[i := s']> conns) = still_coming conns - slot_coming s + slot_coming s'.
Proof.
  revert i. induction conns as [|t conns IH]; intros [|i] Hs; [done|done|..].
  - injection Hs as ->. change (<[0%nat:=s']> (s :: conns)) with (s' :: conns). cbn [still_coming]. lia.
  - change (<[S i:=s']> (t :: conns)) with (t :: <[i:=s']> conns). cbn [still_coming]. rewrite (IH i Hs). lia.
Qed.

Lemma still_coming_lookup conns i s : conns !! i = Some s -> 0 <= slot_coming s <= still_coming conns.
Proof.
  intros Hs. unfold slot_coming. split; [apply zlen_nonneg|]. revert i Hs.
  induction conns as [|t conns IH]; intros [|i] Hs; [done|done|..]; cbn [still_coming].
  - injection Hs as ->. pose proof (still_coming_nonneg conns). unfold slot_coming. lia.
  - specialize (IH i Hs). pose proof (zlen_nonneg (concat (so_in (sl_socket t)))). unfold slot_coming at 1. lia.
Qed.

Lemma fds_insert conns i s s' :
  conns !! i = Some s -> c_fd (sl_conn s') = c_fd (sl_conn s) -> fds (<[i := s']> conns) = fds conns.
Proof.
  intros Hs Hf. unfold fds. rewrite list_fmap_insert. apply list_insert_id.
  by rewrite list_lookup_fmap, Hs, Hf.
Qed.

Lemma fds_apart conns i j s t :
  NoDup (fds conns) -> i <> j -> conns !! i = Some s -> conns !! j = Some t ->
  c_fd (sl_conn s) <> c_fd (sl_conn t).
Proof.
  intros Hn Hne Hs Ht E. apply Hne. apply (NoDup_lookup (fds conns) i j (c_fd (sl_conn s)) Hn);
    unfold fds; rewrite list_lookup_fmap; [by rewrite Hs|by rewrite Ht, E].
Qed.

Lemma valve_load_store valves ptr v :
  (v = None <-> ptr = None) -> valve_load (valve_store valves ptr v) ptr = Some v.
Proof.
  intros Hv. destruct ptr as [a|]; cbn.
  - destruct v as [v|]; [|by specialize (proj1 Hv eq_refl)]. by rewrite lookup_insert_eq.
  - by rewrite (proj2 Hv).
Qed.

Lemma valve_store_load valves ptr v : valve_load valves ptr = Some v -> valve_store valves ptr v = valves.
Proof.
  destruct ptr as [a|]; cbn; [|done]. destruct (valves !! a) as [x|] eqn:E; [|done]. intros [= <-].
  by apply insert_id.
Qed.

Lemma valve_load_null valves ptr v : valve_load valves ptr = Some v -> v = None <-> ptr = None.
Proof. destruct ptr as [a|]; cbn; [|by intros [= <-]]. by destruct (valves !! a); intros [= <-]. Qed.

(** ** Companions

    The owner of the pool has timers of its own in the event loop.  A step of
    the pool by itself leaves them alone. *)
Definition pool_timer (conns : list slot) (t : Z) : Prop := t <> CLOAK_TIMER_INVALID /\ t ∈ map timer_of conns.

Section companions.
Context {R U : Type} {RR : Reactor R}.
Implicit Types p : pool_world R U.

Record pool_own_step p p' : Prop := {
  ps_user : p_user p' = p_user p;
  ps_config : pool_config (p_sb p') = pool_config (p_sb p);
  ps_aged : aged (p_reactor p) (p_reactor p');
  ps_armed t : t <> CLOAK_TIMER_INVALID -> ~ pool_timer (sb_conns (p_sb p)) t -> armed (p_reactor p) t -> armed (p_reactor p') t;
  ps_timers t : pool_timer (sb_conns (p_sb p')) t -> pool_timer (sb_conns (p_sb p)) t \/ ~ spent (p_reactor p) t
}.

(** What the owner relies on, that it has been told of the end, and how its
    state may change while a call of the pool is in progress. *)
Class Companions := {
  companions : pool_world R U -> Prop;
  informed : U -> Prop;
  along : U -> U -> Prop;
  companions_stable p p' : companions p -> pool_own_step p p' -> companions p';
  along_refl u : along u u;
  along_trans u1 u2 u3 : along u1 u2 -> along u2 u3 -> along u1 u3
}.

Lemma own_same p p' :
  p_user p' = p_user p -> pool_config (p_sb p') = pool_config (p_sb p) -> p_reactor p' = p_reactor p ->
  map timer_of (sb_conns (p_sb p')) = map timer_of (sb_conns (p_sb p)) -> pool_own_step p p'.
Proof. intros Hu Hc Hr Ht. split; rewrite ?Hr; auto. unfold pool_timer. rewrite Ht. auto. Qed.

End companions.

#[global] Arguments pool_own_step {R U RR} _ _.
#[global] Arguments Companions R U {RR}.
#[export] Hint Resolve along_refl : core.

(** An owner without timers. *)
#[export] Instance alone {R U : Type} {RR : Reactor R} : Companions R U | 100 := {|
  companions _ := True; informed _ := True; along _ _ := True;
  companions_stable _ _ _ _ := I; along_refl _ := I; along_trans _ _ _ _ _ := I
|}.

(** ** The invariant *)

Section inv.
Context {R U : Type} {RR : Reactor R} {RL : ReactorLaws R} {CO : Companions R U}.
Implicit Types p : pool_world R U.

(** How long the CSPRNG can be unlucky, and how many bytes the owner may still
    send from its callbacks. *)
Variable unlucky : nat.
Variable budget : U -> Z.

(** The valve counts every byte: it has room for what is still to arrive, for
    [reserve] bytes to send, and for what the owner may add. *)
Definition pool_room (reserve : Z) (u : U) (v : option cloak_valve_t) (conns : list slot) : Prop :=
  valve_ok v /\ 0 <= cloak_valve_rx v /\ cloak_valve_rx v + still_coming conns <= INT64_MAX /\
  0 <= cloak_valve_tx v /\ 0 <= reserve /\ 0 <= budget u /\
  (v <> None -> cloak_valve_tx v + reserve + budget u <= INT64_MAX).

Definition pool_sane p : Prop :=
  reactor_ok (p_reactor p) /\ env_ok (p_clock p) /\ rand_ok (p_rand p) /\ fair unlucky (p_rand p) /\
  rng_ok (p_sb p) /\ max_ok (sb_max_frame_len (p_sb p)) /\ 0 < sb_conn_send_queue_cap (p_sb p).

(** One of the connections broke; none is left after [close_all]. *)
Definition some_broken (conns : list slot) : Prop :=
  conns = [] \/ exists i s, conns !! i = Some s /\ broken (sl_conn s) <> 0.

(** The owner of a broken pool knows; not yet while it is being told, which
    [known] allows for. *)
Definition informed_if_broken p : Prop :=
  sb_broken (p_sb p) <> 0 -> sb_on_broken (p_sb p) = true -> informed (p_user p).

Definition pool_common (known : Prop) (reserve : Z) p : Prop :=
  let sb := p_sb p in
  pool_sane p /\
  (exists v, valve_load (p_valves p) (sb_valve sb) = Some v /\ pool_room reserve (p_user p) v (sb_conns sb)) /\
  NoDup (fds (sb_conns sb)) /\ timers_apart (sb_conns sb) /\
  zlen (sb_conns sb) <= 2147483648 /\
  (sb_broken sb <> 0 -> some_broken (sb_conns sb)) /\
  pool_reports (p_log p) = (if negb (sb_broken sb =? 0) && sb_on_broken sb then [PoolBroken] else []) /\
  companions p /\ known.
Definition pool_shared (reserve : Z) p : Prop := pool_common (informed_if_broken p) reserve p.

Definition slot_base p (s : slot) : Prop :=
  sl_valve s = sb_valve (p_sb p) /\ (on_envelope_set (sl_conn s), on_closed_set (sl_conn s)) = (true, true) /\
  max_frame_len (sl_conn s) = sb_max_frame_len (p_sb p) /\ settled (sl_conn s) /\
  (exists v, valve_load (p_valves p) (sl_valve s) = Some v /\ conn_self (slot_world p s v)).
Definition slot_inv p (s : slot) : Prop :=
  slot_base p s /\ (broken (sl_conn s) <> 0 -> sb_broken (p_sb p) <> 0).

Definition pool_base (reserve : Z) p : Prop :=
  pool_common True reserve p /\ forall j s, sb_conns (p_sb p) !! j = Some s -> slot_inv p s.
Definition pool_inv (reserve : Z) p : Prop :=
  pool_shared reserve p /\ forall j s, sb_conns (p_sb p) !! j = Some s -> slot_inv p s.

(** What is left of [pool_shared] after the environment and the valve. *)
Definition pool_tail p : Prop :=
  let sb := p_sb p in
  NoDup (fds (sb_conns sb)) /\ timers_apart (sb_conns sb) /\
  zlen (sb_conns sb) <= 2147483648 /\
  (sb_broken sb <> 0 -> some_broken (sb_conns sb)) /\
  pool_reports (p_log p) = (if negb (sb_broken sb =? 0) && sb_on_broken sb then [PoolBroken] else []) /\
  companions p /\ informed_if_broken p.

(** A step of the pool that does not touch its list of connections. *)
Lemma tail_step p p' :
  pool_tail p -> pool_own_step p p' -> sb_conns (p_sb p') = sb_conns (p_sb p) ->
  sb_broken (p_sb p') = sb_broken (p_sb p) -> p_log p' = p_log p -> pool_tail p'.
Proof.
  intros (H1&H2&H3&H4&H5&H6&H7) Hstep Hc Hb Hl. pose proof (ps_config _ _ Hstep) as Hcfg. unfold pool_config in Hcfg.
  injection Hcfg as _ _ _ Hon. unfold pool_tail, informed_if_broken. cbv zeta. rewrite Hc, Hb, Hl, Hon.
  rewrite (ps_user _ _ Hstep). do 5 (split; [assumption|]). split; [|exact H7]. by eapply companions_stable.
Qed.

(** ** The bystander of connection [i] *)

Definition pool_keeps p p' : Prop :=
  pool_since (p_sb p) (fun _ => False) (p_sb p') /\ along (p_user p) (p_user p').

Definition rest_of (reserve : Z) (p0 : pool_world R U) (i : nat)
    (w : conn_world R (pool_world R U)) : Prop :=
  let p := unfocus i w in
  pool_shared reserve p /\
  (forall j s, j <> i -> sb_conns (p_sb p) !! j = Some s -> slot_inv p s) /\
  (exists s, sb_conns (p_sb (w_user w)) !! i = Some s /\ sl_valve s = sb_valve (p_sb (w_user w)) /\
     (w_valve w = None <-> sl_valve s = None)) /\
  (on_envelope_set (w_conn w), on_closed_set (w_conn w)) = (true, true) /\
  max_frame_len (w_conn w) = sb_max_frame_len (p_sb (w_user w)) /\
  pool_since (p_sb p0) (eq i) (p_sb p) /\ along (p_user p0) (p_user (w_user w)).

(** The pool around connection [i], whose place is taken by [s]. *)
Definition regroup (i : nat) (s : slot) (w : conn_world R (pool_world R U)) : pool_world R U :=
  PoolWorld (with_conns (p_sb (w_user w)) (<[i := world_slot (sl_valve s) w]> (sb_conns (p_sb (w_user w)))))
    (w_reactor w) (valve_store (p_valves (w_user w)) (sl_valve s) (w_valve w)) (w_clock w) (w_rand w)
    (p_log (w_user w)) (p_user (w_user w)).

Lemma unfocus_regroup i s w : sb_conns (p_sb (w_user w)) !! i = Some s -> unfocus i w = regroup i s w.
Proof. intros Hs. unfold unfocus. by rewrite Hs. Qed.

Lemma focus_unfocus i p s v :
  sb_conns (p_sb p) !! i = Some s -> valve_load (p_valves p) (sl_valve s) = Some v ->
  unfocus i (slot_world p s v) = p.
Proof.
  intros Hs Hv. rewrite (unfocus_regroup i s) by done. unfold regroup. cbn.
  rewrite (valve_store_load _ _ _ Hv).
  replace (world_slot (sl_valve s) (slot_world p s v)) with s by (by destruct s as [? ? []]).
  rewrite list_insert_id by done. by destruct p as [[] ? ? ? ? ? ?].
Qed.

Lemma insert_other {A} (l : list A) i j x y : i <> j -> <[i := x]> l !! j = Some y -> l !! j = Some y.
Proof. intros Hne. by rewrite list_lookup_insert_ne. Qed.

Lemma insert_same {A} (l : list A) i x y : <[i := x]> l !! i = Some y -> y = x.
Proof.
  intros H. destruct (decide (i < length l)%nat) as [Hlt|Hge].
  - rewrite list_lookup_insert_eq in H by done. congruence.
  - rewrite lookup_ge_None_2 in H; [done|]. rewrite length_insert. lia.
Qed.

(** Another connection after a step of connection [i]. *)
Lemma other_stable p p' s :
  slot_inv p s -> pool_sane p' -> p_clock p' = p_clock p ->
  (sb_valve (p_sb p'), sb_max_frame_len (p_sb p')) = (sb_valve (p_sb p), sb_max_frame_len (p_sb p)) ->
  (sb_broken (p_sb p) <> 0 -> sb_broken (p_sb p') <> 0) ->
  interest_in (p_reactor p') (c_fd (sl_conn s)) = interest_in (p_reactor p) (c_fd (sl_conn s)) ->
  (timer_of s <> CLOAK_TIMER_INVALID -> armed (p_reactor p) (timer_of s) -> armed (p_reactor p') (timer_of s)) ->
  (exists v, valve_load (p_valves p') (sb_valve (p_sb p')) = Some v /\ valve_room v (so_in (sl_socket s))) ->
  slot_inv p' s.
Proof.
  intros [(Hv&Hon&Hmax&Hset&(v&Hl&(Hs&Hr&Ht&(Hok&Hw&Ha&Hc)&(_&_&_&Hin)))) Hb]
    (Hok'&Hck&Hrand&_) Hclk Hcfg Hbr Hwatch Harm (v'&Hl'&Hroom). injection Hcfg as Hcv Hcm.
  split; [|by auto]. split; [congruence|]. split; [done|]. split; [congruence|]. split; [done|].
  exists v'. split; [congruence|]. split; [exact Hs|]. split; [exact Hr|]. split; [exact Ht|].
  split; [|exact (conj Hroom (conj Hck (conj Hrand Hin)))].
  split; [exact Hok'|]. split; [unfold watched_for, watching in *; cbn in *; by rewrite Hwatch|]. split; [|exact Hc].
  intros Hne. by apply Harm, Ha.
Qed.

Lemma room_slot reserve u v conns i s :
  pool_room reserve u v conns -> conns !! i = Some s -> valve_room v (so_in (sl_socket s)).
Proof.
  intros (Hok&Hrx&Hroom&Htx&Hres&Hbud&Hlim) Hs. pose proof (still_coming_lookup _ _ _ Hs). unfold slot_coming in *.
  split; [done|]. split; [done|]. split; [lia|]. split; [done|].
  destruct v as [v|]; [specialize (Hlim ltac:(done)); lia|]. cbn. unfold INT64_MAX. lia.
Qed.

Lemma since_insert sb0 i sb l a b :
  pool_since sb0 (eq i) (with_conns sb (<[i := a]> l)) -> pool_since sb0 (eq i) (with_conns sb (<[i := b]> l)).
Proof.
  intros (L&C&B&K). cbn in L. rewrite length_insert in L.
  split; [by cbn; rewrite length_insert|]. split; [done|]. split; [done|].
  intros j s s' Hj Hs Hs'. cbn in *. apply (K j); [done..|].
  rewrite list_lookup_insert_ne in Hs' |- * by done. done.
Qed.

Lemma timers_insert l i a b :
  timers_apart (<[i := a]> l) ->
  (forall j s, j <> i -> l !! j = Some s -> timer_of s <> CLOAK_TIMER_INVALID -> timer_of s <> timer_of b) ->
  timers_apart (<[i := b]> l).
Proof.
  intros Ht Hb j k s t Hjk Hs Ht' Hne.
  destruct (decide (j = i)) as [->|Hj]; [|destruct (decide (k = i)) as [->|Hk]].
  - apply insert_same in Hs as ->. apply insert_other in Ht' as Hk; [|done].
    intros E. rewrite E in Hne. by apply (Hb k t (not_eq_sym Hjk) Hk Hne).
  - apply insert_same in Ht' as ->. apply insert_other in Hs; [|done]. by eapply Hb.
  - rewrite list_lookup_insert_ne in Hs, Ht' by done.
    eapply (Ht j k); [done|by rewrite list_lookup_insert_ne..|done].
Qed.

(** Descriptors and timers of the other connections are not those of [i]. *)
Lemma room_step reserve u v v' l i s a b :
  l !! i = Some s -> pool_room reserve u v (<[i := a]> l) -> (valve_ok v -> valve_ok v') ->
  cloak_valve_rx v' + slot_coming b <= cloak_valve_rx v + slot_coming a ->
  (0 <= cloak_valve_rx v -> 0 <= cloak_valve_rx v') -> cloak_valve_tx v' = cloak_valve_tx v ->
  (v' = None <-> v = None) -> pool_room reserve u v' (<[i := b]> l).
Proof.
  intros Hs (H1&H2&H3&H4&H5&H6&H7) Hok Hrx Hpos Htx Hn.
  rewrite (still_coming_insert _ _ s a Hs) in H3. unfold pool_room. rewrite (still_coming_insert _ _ s b Hs), Htx.
  split; [by apply Hok|]. split; [by apply Hpos|]. split; [lia|]. do 3 (split; [done|]).
  intros Hv. apply H7. intros Hv0. by apply Hv, Hn.
Qed.

Lemma broken_step l i s a b :
  l !! i = Some s -> (broken (sl_conn a) <> 0 -> broken (sl_conn b) <> 0) ->
  some_broken (<[i := a]> l) -> some_broken (<[i := b]> l).
Proof.
  intros Hs Hb Hsome. apply lookup_lt_Some in Hs. destruct Hsome as [Hnil|(j&t&Ht&Hbr)].
  - left. apply (f_equal length) in Hnil. rewrite length_insert in Hnil. cbn in Hnil. lia.
  - right. destruct (decide (j = i)) as [->|Hj].
    + apply insert_same in Ht as ->. exists i, b. rewrite list_lookup_insert_eq by done. auto.
    + exists j, t. rewrite list_lookup_insert_ne in Ht |- * by done. done.
Qed.

(** Seen from the owner, a step of connection [i] is a step of the pool. *)
Lemma own_regroup i s w w' :
  sb_conns (p_sb (w_user w)) !! i = Some s -> own_step w w' -> pool_own_step (regroup i s w) (regroup i s w').
Proof.
  intros Hs Hstep. pose proof (os_user _ _ Hstep) as Hu. pose proof (lookup_lt_Some _ _ _ Hs) as Hlt.
  split; unfold regroup; cbn [p_user p_sb p_reactor sb_conns with_conns]; rewrite ?Hu; [done|done|apply Hstep|..].
  - intros t Hne Ht Ha.
    apply (os_timer _ _ Hstep); [|done]. intros ->. apply Ht. split; [done|].
    apply list_elem_of_fmap. exists (world_slot (sl_valve s) w). split; [done|].
    eapply list_elem_of_lookup_2. by apply list_lookup_insert_eq.
  - intros t [Hne Ht]. apply list_elem_of_fmap in Ht as (x&->&Hx). apply list_elem_of_lookup in Hx as [j Hj].
    destruct (decide (j = i)) as [->|Hji].
    + apply insert_same in Hj as ->. unfold timer_of in *. cbn [world_slot sl_conn] in *.
      destruct (os_fresh _ _ Hstep) as [E|[E|Hn]]; [|done|by right]. left. split; [done|]. rewrite E.
      apply list_elem_of_fmap. exists (world_slot (sl_valve s) w). split; [done|].
      eapply list_elem_of_lookup_2. by apply list_lookup_insert_eq.
    + left. split; [done|]. apply list_elem_of_fmap. exists x. split; [done|].
      rewrite list_lookup_insert_ne in Hj by done. eapply (list_elem_of_lookup_2 _ j). by rewrite list_lookup_insert_ne.
Qed.

(** What a step of connection [i] may do is what the pool can bear. *)
Lemma rest_stable reserve p0 i w w' : rest_of reserve p0 i w -> own_step w w' -> rest_of reserve p0 i w'.
Proof.
  intros (Hsh&Hoth&(s&Hs&Hsv&Hnull)&Hon&Hmax&Hsince&Halong) Hstep. pose proof Hstep as
    [Hu Hcfg Hbr Hclk Hrok Hwatch Htim Hag Hfresh Hvok Hvrx Hvpos Hvtx Hvn Hrand].
  assert (Hs' : sb_conns (p_sb (w_user w')) !! i = Some s) by (by rewrite Hu).
  unfold rest_of in *. rewrite (unfocus_regroup i s w Hs) in *. rewrite (unfocus_regroup i s w' Hs').
  unfold fixed_config in Hcfg. injection Hcfg as Hfd _ Hmx Hoe Hoc.
  destruct Hsh as ((Hok&Hck&Hrd&Hfair&Hrng)&(v&Hl&Hroom)&Hfds&Htimers&Hcount&Hsome&Hrep&Hcomp&Hknown).
  pose proof (companions_stable _ _ Hcomp (own_regroup i s w w' Hs Hstep)) as Hcomp'.
  unfold regroup in Hcomp'. rewrite Hu in Hcomp'. cbn [regroup p_sb p_reactor p_clock p_rand p_valves p_log p_user sb_conns sb_valve with_conns] in *.
  unfold regroup. rewrite Hu.
  set (l := sb_conns (p_sb (w_user w))) in *. rewrite <- Hsv, valve_load_store in Hl by done. injection Hl as <-.
  assert (Hnull' : w_valve w' = None <-> sl_valve s = None) by (etrans; [exact Hvn|exact Hnull]).
  set (a := world_slot (sl_valve s) w) in *. set (b := world_slot (sl_valve s) w') in *.
  pose proof (lookup_lt_Some _ _ _ Hs) as Hlt.
  assert (Hia : <[i := a]> l !! i = Some a) by (by apply list_lookup_insert_eq).
  assert (Hother : forall j t, j <> i -> <[i := b]> l !! j = Some t -> <[i := a]> l !! j = Some t).
  { intros j t Hj. by rewrite !list_lookup_insert_ne. }
  assert (Hapart : forall j t, j <> i -> <[i := a]> l !! j = Some t ->
    c_fd (sl_conn t) <> c_fd (w_conn w) /\ (timer_of t <> CLOAK_TIMER_INVALID -> timer_of t <> timer_of a)).
  { intros j t Hj Ht. split; [by apply (fds_apart _ j i t a Hfds Hj Ht Hia)|by apply (Htimers j i t a Hj Ht Hia)]. }
  pose proof (room_step _ _ _ (w_valve w') _ _ _ _ b Hs Hroom Hvok Hvrx Hvpos Hvtx Hvn) as Hroom'.
  assert (Hload : valve_load (valve_store (p_valves (w_user w)) (sl_valve s) (w_valve w')) (sb_valve (p_sb (w_user w))) =
    Some (w_valve w')) by (rewrite <- Hsv; by apply valve_load_store).
  assert (Hsane : reactor_ok (w_reactor w') /\ env_ok (w_clock w') /\ rand_ok (w_rand w') /\ fair unlucky (w_rand w')).
  { split; [by apply Hrok|]. split; [by rewrite Hclk|]. split; [by eapply rand_ok_later|by eapply fair_later]. }
  destruct Hsane as (Hok'&Hck'&Hrd'&Hfair').
  split; [|split; [|split; [by exists s|split; [congruence|split; [congruence|split; [|exact Halong]]]]]].
  - split; [exact (conj Hok' (conj Hck' (conj Hrd' (conj Hfair' Hrng))))|].
    split; [by exists (w_valve w')|]. cbn [p_sb sb_conns with_conns].
    split; [|split; [|split; [|split; [|split; [exact Hrep|split; [exact Hcomp'|exact Hknown]]]]]].
    + rewrite <- (list_insert_insert_eq l i b a). by rewrite (fds_insert _ i a).
    + eapply timers_insert; [exact Htimers|]. intros j t Hj Ht Hne.
      assert (Ht' : <[i := a]> l !! j = Some t) by (by rewrite list_lookup_insert_ne).
      destruct (Hapart j t Hj Ht') as [_ Ha]. specialize (Ha Hne). unfold timer_of at 2. cbn [b world_slot sl_conn].
      destruct Hfresh as [->|[->|Hnew]]; [exact Ha|exact Hne|]. intros E. apply Hnew, armed_spent; [exact Hok|]. rewrite <- E.
      destruct (Hoth j t Hj Ht') as [(_&_&_&_&(x&_&(_&_&_&(_&_&Harm&_)&_))) _]. by apply Harm.
    + unfold zlen in *. by rewrite length_insert in *.
    + intros Hb. apply (broken_step l i s a b Hs Hbr). by apply Hsome.
  - intros j t Hj Ht. apply Hother in Ht as Ht'; [|done]. destruct (Hapart j t Hj Ht') as [Hf Ha].
    eapply other_stable; [by apply (Hoth j t)|..].
    + exact (conj Hok' (conj Hck' (conj Hrd' (conj Hfair' Hrng)))).
    + exact Hclk.
    + done.
    + done.
    + apply Hwatch. exact Hf.
    + intros Hne. by apply Htim, Ha.
    + exists (w_valve w'). split; [exact Hload|]. by eapply room_slot.
  - by eapply since_insert.
Qed.

(** The pool has been told that a connection broke. *)
Lemma told_stable_pool (i : nat) (w w' : conn_world R (pool_world R U)) :
  sb_broken (p_sb (w_user w)) <> 0 -> own_step w w' -> sb_broken (p_sb (w_user w')) <> 0.
Proof. intros Hb Hs. by rewrite (os_user _ _ Hs). Qed.

Definition pool_around (reserve : Z) (p0 : pool_world R U) (i : nat) : Bystanders R (pool_world R U) := {|
  others := rest_of reserve p0 i;
  told w := sb_broken (p_sb (w_user w)) <> 0;
  others_stable := rest_stable reserve p0 i;
  told_stable := told_stable_pool i
|}.

(** ** In and out of a connection *)

Lemma focus_inv reserve p i s :
  pool_inv reserve p -> sb_conns (p_sb p) !! i = Some s ->
  exists v, focus i p = Some (slot_world p s v) /\ unfocus i (slot_world p s v) = p /\
    conn_inv (BY := pool_around reserve p i) (slot_world p s v).
Proof.
  intros [Hsh Hslots] Hs. destruct (Hslots i s Hs) as [(Hv&Hon&Hmax&Hset&(v&Hl&Hself)) Hbr].
  pose proof (focus_unfocus i p s v Hs Hl) as Hfu.
  exists v. split; [unfold focus; by rewrite Hs; cbn; rewrite Hl|]. split; [exact Hfu|].
  split; [|exact Hset]. split; [exact Hself|]. split; [|by intros _].
  unfold others, pool_around, rest_of. rewrite Hfu.
  split; [exact Hsh|]. split; [intros j t _; apply Hslots|].
  split; [exists s; split; [exact Hs|split; [exact Hv|by eapply valve_load_null]]|].
  split; [exact Hon|]. split; [exact Hmax|]. split; [apply pool_since_refl|apply along_refl].
Qed.

Lemma unfocus_inv reserve p0 i w :
  conn_inv (BY := pool_around reserve p0 i) w ->
  pool_inv reserve (unfocus i w) /\ pool_since (p_sb p0) (eq i) (p_sb (unfocus i w)) /\
  along (p_user p0) (p_user (unfocus i w)) /\
  exists valve, sb_conns (p_sb (unfocus i w)) !! i = Some (world_slot valve w).
Proof.
  intros [(Hself&(Hsh&Hoth&(s&Hs&Hsv&Hnull)&Hon&Hmax&Hsince&Halong)&Htold) Hset].
  assert (Hi : sb_conns (p_sb (unfocus i w)) !! i = Some (world_slot (sl_valve s) w)).
  { rewrite (unfocus_regroup i s w Hs). cbn. apply list_lookup_insert_eq. by eapply lookup_lt_Some. }
  split; [|split; [done|split; [by rewrite (unfocus_regroup i s w Hs)|by exists (sl_valve s)]]]. split; [exact Hsh|]. intros j t Hj.
  destruct (decide (j = i)) as [->|Hne]; [|by apply (Hoth j t)].
  rewrite Hi in Hj. injection Hj as <-. rewrite (unfocus_regroup i s w Hs).
  split; [|apply Htold; by injection Hon]. split; [exact Hsv|]. split; [exact Hon|]. split; [exact Hmax|].
  split; [exact Hset|]. exists (w_valve w). split; [by apply valve_load_store|exact Hself].
Qed.

(** ** The owner of the pool *)

Variable on_envelope : bytes -> pool_world R U -> option (pool_world R U).
Variable on_broken : pool_world R U -> option (pool_world R U).
Variable on_drained : pool_world R U -> option (pool_world R U).

(** Its callbacks return, keep the invariant whatever is reserved around them,
    and use the connections only to send. *)
Record pool_owner_ok : Prop := {
  pool_own_envelope reserve frame p : pool_inv reserve p -> all_bytes frame -> zlen frame <= sb_max_frame_len (p_sb p) ->
    exists p', on_envelope frame p = Some p' /\ pool_inv reserve p' /\ pool_keeps p p';
  pool_own_broken reserve p : pool_base reserve p -> sb_broken (p_sb p) <> 0 ->
    exists p', on_broken p = Some p' /\ pool_inv reserve p' /\ pool_keeps p p';
  pool_own_drained reserve p : pool_inv reserve p ->
    exists p', on_drained p = Some p' /\ pool_inv reserve p' /\ pool_keeps p p'
}.
Hypothesis Howner : pool_owner_ok.

Lemma pool_keeps_refl p : pool_keeps p p.
Proof. split; [apply pool_since_refl|apply along_refl]. Qed.

(** Nothing of the connections changed, nor of the owner. *)
Lemma pool_keeps_same p p' :
  p_user p' = p_user p -> sb_conns (p_sb p') = sb_conns (p_sb p) -> pool_config (p_sb p') = pool_config (p_sb p) ->
  (sb_broken (p_sb p) <> 0 -> sb_broken (p_sb p') <> 0) -> pool_keeps p p'.
Proof.
  intros Hu Hs Hc Hb. split; [|rewrite Hu; apply along_refl]. unfold pool_since. rewrite Hs. split_and!; [done..|].
  intros j s s' _ -> [= ->]. apply slot_keeps_refl.
Qed.

(** A callback of the pool is a callback of the connection. *)
Lemma call_spec reserve p0 i f w p1 :
  rest_of reserve p0 i w ->
  f (unfocus i w) = Some p1 -> pool_inv reserve p1 -> pool_keeps (unfocus i w) p1 ->
  exists w', pool_call i f w = Some w' /\ conn_inv (BY := pool_around reserve p0 i) w' /\ keeps w w'.
Proof.
  intros Hw Hf Hi1 Hk. unfold pool_call. rewrite Hf. cbn [mbind option_bind].
  destruct Hw as (_&_&(s&Hs&Hsv&_)&_&_&Hsince&Halong).
  assert (Hi : sb_conns (p_sb (unfocus i w)) !! i = Some (world_slot (sl_valve s) w)).
  { rewrite (unfocus_regroup i s w Hs). cbn. apply list_lookup_insert_eq. by eapply lookup_lt_Some. }
  destruct Hk as [(Hlen&Hk) Hal]. assert (Hu : p_user (unfocus i w) = p_user (w_user w)) by (by rewrite (unfocus_regroup i s w Hs)).
  destruct (lookup_lt_is_Some_2 (sb_conns (p_sb p1)) i) as [s1 Hs1].
  { rewrite Hlen. by eapply lookup_lt_Some. }
  destruct (focus_inv reserve p1 i s1 Hi1 Hs1) as (v&->&Hfu&Hc). eexists. split; [done|].
  pose proof Hk as (_&_&Hk'). pose proof (Hk' i _ s1 (fun H => H) Hi Hs1) as Hsk.
  split; [|exact Hsk].
  destruct Hc as [(Hself&(H1&H2&H3&H4&H5&_)&Htold) Hset].
  split; [|exact Hset]. split; [exact Hself|]. split; [|exact Htold].
  split; [exact H1|]. split; [exact H2|]. split; [exact H3|]. split; [exact H4|]. split; [exact H5|].
  split; [|eapply along_trans; [exact Halong|]; rewrite <- Hu; exact Hal].
  rewrite Hfu. eapply pool_since_trans; [exact Hsince|]. eapply pool_since_skip; [|exact (conj Hlen Hk)]. done.
Qed.

Lemma drained_adapter_spec reserve p :
  pool_inv reserve p ->
  exists p', switchboard_conn_drained_adapter on_drained p = Some p' /\ pool_inv reserve p' /\ pool_keeps p p'.
Proof.
  intros Hi. unfold switchboard_conn_drained_adapter. destruct (sb_on_drained _).
  - destruct (pool_own_drained Howner reserve (pool_note p PoolDrained)) as (p'&->&Hi'&Hk); [|by exists p'].
    destruct Hi as [(Hsane&Hr&H1&H2&H3&H4&H5&H6&H7) Hslots]. split; [|exact Hslots].
    split; [exact Hsane|]. split; [exact Hr|]. split; [exact H1|]. split; [exact H2|]. split; [exact H3|].
    split; [exact H4|]. split; [|split; [by eapply companions_stable; [exact H6|by apply own_same]|exact H7]].
    unfold pool_reports. cbn. rewrite omap_app. cbn. by rewrite app_nil_r.
  - exists p. split; [done|]. split; [done|apply pool_keeps_refl].
Qed.

Lemma envelope_adapter_spec reserve frame p :
  pool_inv reserve p -> all_bytes frame -> zlen frame <= sb_max_frame_len (p_sb p) ->
  exists p', switchboard_conn_envelope_adapter on_envelope frame p = Some p' /\ pool_inv reserve p' /\
    pool_keeps p p'.
Proof.
  intros Hi Hf Hfl. unfold switchboard_conn_envelope_adapter. destruct (sb_on_envelope _).
  - by apply (pool_own_envelope Howner).
  - exists p. split; [done|]. split; [done|apply pool_keeps_refl].
Qed.

(** The pool becomes broken with its first connection, and says so. *)
Definition raised p : pool_world R U :=
  let p := set_sb p (with_pool_broken (p_sb p) 1) in
  if sb_on_broken (p_sb p) then pool_note p PoolBroken else p.

Lemma raised_base reserve p :
  pool_shared reserve p -> some_broken (sb_conns (p_sb p)) -> sb_broken (p_sb p) = 0 ->
  (forall j s, sb_conns (p_sb p) !! j = Some s -> slot_base p s) ->
  pool_base reserve (raised p) /\ pool_keeps p (raised p) /\ sb_broken (p_sb (raised p)) <> 0.
Proof.
  intros (Hsane&Hr&H1&H2&H3&_&H5&H6&_) Hsome Hz Hslots. rewrite Hz in H5. cbn in H5. unfold raised.
  cbn [p_sb set_sb sb_on_broken with_pool_broken].
  set (p' := set_sb p (with_pool_broken (p_sb p) 1)).
  assert (Hc : companions p') by (eapply companions_stable; [exact H6|by apply own_same]).
  destruct (sb_on_broken (p_sb p)) eqn:Hon; (split; [split|split; [by apply pool_keeps_same|done]]);
    try (intros j s Hs; split; [exact (Hslots j s Hs)|done]);
    (split; [exact Hsane|]; split; [exact Hr|]; split; [exact H1|]; split; [exact H2|]; split; [exact H3|];
     split; [by intros _|]; split; [|split; [|done]]).
  - unfold pool_reports in *. cbn. rewrite omap_app, H5, Hon. done.
  - eapply companions_stable; [exact Hc|by apply own_same].
  - cbn. by rewrite Hon.
  - exact Hc.
Qed.

Lemma pool_keeps_trans p1 p2 p3 : pool_keeps p1 p2 -> pool_keeps p2 p3 -> pool_keeps p1 p3.
Proof. intros [A1 B1] [A2 B2]. split; [by eapply pool_since_trans|by eapply along_trans]. Qed.

Lemma closed_adapter_spec reserve p :
  pool_shared reserve p -> some_broken (sb_conns (p_sb p)) ->
  (forall j s, sb_conns (p_sb p) !! j = Some s -> slot_base p s) ->
  exists p', switchboard_conn_closed_adapter on_broken p = Some p' /\ pool_inv reserve p' /\ pool_keeps p p'.
Proof.
  intros Hsh Hsome Hslots. unfold switchboard_conn_closed_adapter.
  destruct (Z.eqb_spec (sb_broken (p_sb p)) 0) as [Hz|Hnz]; cbn [negb].
  - destruct (raised_base reserve p Hsh Hsome Hz Hslots) as (Hi&Hk&Hb). unfold raised in Hi, Hk, Hb.
    destruct (sb_on_broken _) eqn:Hon.
    + destruct (pool_own_broken Howner reserve _ Hi Hb) as (p'&->&Hi'&Hk'). exists p'. split; [done|]. split; [done|].
      by eapply pool_keeps_trans.
    + eexists. split; [done|]. split; [|exact Hk]. destruct Hi as [(G1&G2&G3&G4&G5&G6&G7&G8&_) Hs]. split; [|exact Hs].
      do 7 (split; [assumption|]). split; [exact G8|]. intros _ Hx. cbn in Hon, Hx. congruence.
  - exists p. split; [done|]. split; [|apply pool_keeps_refl]. split; [exact Hsh|]. intros j s Hs. split; [by apply (Hslots j)|done].
Qed.

(** Every connection of the pool has a good owner. *)
Lemma conn_owner reserve p0 i :
  owner_ok (BY := pool_around reserve p0 i) (conn_envelope on_envelope i) (conn_closed on_broken i)
    (conn_drained on_drained i).
Proof.
  split.
  - intros frame w Hw Hf Hfl. pose proof (unfocus_inv _ _ _ _ Hw) as (Hi&_&_&(x&Hx)).
    destruct (envelope_adapter_spec reserve frame _ Hi Hf) as (p'&He&Hi'&Hk).
    { by destruct (proj2 Hi i _ Hx) as [(_&_&<-&_) _]. }
    eapply call_spec; [apply Hw|exact He|done|done].
  - intros w Hself Hoth Hbr. pose proof Hoth as (Hsh&Hslots&(s&Hs&Hsv&Hnull)&Hon&Hmax&_).
    assert (Hi : sb_conns (p_sb (unfocus i w)) !! i = Some (world_slot (sl_valve s) w)).
    { rewrite (unfocus_regroup i s w Hs). cbn. apply list_lookup_insert_eq. by eapply lookup_lt_Some. }
    destruct (closed_adapter_spec reserve (unfocus i w) Hsh) as (p'&Hc&Hi'&Hk).
    + right. exists i. eauto.
    + intros j t Hj. destruct (decide (j = i)) as [->|Hne]; [|by apply (Hslots j t)].
      rewrite Hi in Hj. injection Hj as <-. rewrite (unfocus_regroup i s w Hs).
      split; [exact Hsv|]. split; [exact Hon|]. split; [exact Hmax|].
      split; [intros Hz; exfalso; exact (Hbr Hz)|]. exists (w_valve w). split; [by apply valve_load_store|exact Hself].
    + eapply call_spec; [exact Hoth|exact Hc|done|done].
  - intros w Hw. pose proof (unfocus_inv _ _ _ _ Hw) as (Hi&_).
    destruct (drained_adapter_spec reserve _ Hi) as (p'&He&Hi'&Hk).
    eapply call_spec; [apply Hw|exact He|done|done].
Qed.

End inv.
