(* ===== verification/SwitchboardRun.v ===== *)
(** * The life of a pool of connections

    Every event of the loop, every operation of [switchboard.c], for any
    kernel, any valve and any owner that uses the connections only to send:
    the invariant of [SwitchboardInv] holds throughout, so each connection
    keeps what [ConnRun] promises, and the pool keeps its own promises: one
    failure is the failure of all and is told once, an accepted frame is on
    exactly one connection and is billed to the byte, and closing the pool
    gives everything back. *)
From stdpp Require Import gmap.
From S2P Require Import Prelude Fallible Random Ring ByteQueue Valve WsFrame ReactorApi Conn Envelope ConnInv ConnRecv ConnSend ConnRun Switchboard SwitchboardRng SwitchboardInv.

(** ** Every input *)

Inductive pool_input :=
| PoolReady (i : nat) (events : Z)
| PoolTimer
| PoolSend (frame : bytes)
| PoolAdd (fd framing : Z) (so : socket) (m : pool_memory)
| PoolSetValve (v : option Z)
| PoolSetDrained (on : bool)
| PoolCloseAll.

(** The connection whose pause the timer ends. *)
Definition timer_owner (id : Z) (conns : list slot) : option nat :=
  fst <$> list_find (fun s => rx_resume_timer (sl_conn s) = id) conns.

Definition slot_quiet (s : slot) : Prop :=
  let c := sl_conn s in
  broken c = 0 -> rx_step (framing c) (max_frame_len c) (rx_of c) (bq_contents (recv_acc c)) = RxWait.

(** What [cloak_conn_envelope_len] adds to a frame, at most. *)
Definition largest_envelope (sb : cloak_switchboard) : Z := sb_max_frame_len sb + 8.

Section run.
Context {R U : Type} {RR : Reactor R} {RL : ReactorLaws R} {CO : Companions R U}.
Implicit Types p : pool_world R U.
Variable unlucky : nat.
Variable budget : U -> Z.
Variable on_envelope : bytes -> pool_world R U -> option (pool_world R U).
Variable on_broken : pool_world R U -> option (pool_world R U).
Variable on_drained : pool_world R U -> option (pool_world R U).

(** Connection [i] runs, the rest of the pool waits. *)
Definition on_conn (i : nat) (g : conn_world R (pool_world R U) -> option (conn_world R (pool_world R U))) p
    : option (pool_world R U) :=
  w ← focus i p; w ← g w; Some (unfocus i w).

Definition pool_step (input : pool_input) p : option (pool_world R U) :=
  match input with
  | PoolReady i events =>
      on_conn i (fun w => conn_reactor_cb (conn_envelope on_envelope i) (conn_closed on_broken i)
        (conn_drained on_drained i) (S (backlog (k_in w))) events w) p
  | PoolTimer =>
      match r_fire (p_reactor p) with
      | None => Some p
      | Some (id, r) =>
          match timer_owner id (sb_conns (p_sb p)) with
          | None => Some (set_pool_reactor p r)
          | Some i =>
              on_conn i (fun w => conn_rx_resume_cb (conn_envelope on_envelope i) (conn_closed on_broken i)
                (conn_drained on_drained i) (S (backlog (k_in w))) (set_reactor w r)) p
          end
      end
  | PoolSend frame =>
      '(_, p) ← cloak_switchboard_send on_broken on_drained (pick_fuel unlucky) p frame; Some p
  | PoolAdd fd framing so m => Some (cloak_switchboard_add_conn_framed p fd framing so m).2
  | PoolSetValve v => Some (cloak_switchboard_set_valve p v)
  | PoolSetDrained on => Some (cloak_switchboard_set_drained_cb p on)
  | PoolCloseAll => Some (cloak_switchboard_close_all p)
  end.

Hypothesis Howner : pool_owner_ok unlucky budget on_envelope on_broken on_drained.
#[local] Abbreviation pool_inv := (pool_inv unlucky budget).
#[local] Abbreviation pool_around := (pool_around unlucky budget).

Definition pool_quiet p : Prop := forall j s, sb_conns (p_sb p) !! j = Some s -> slot_quiet s.

Lemma slot_keeps_quiet s s' : slot_keeps s s' -> slot_quiet s -> slot_quiet s'.
Proof.
  intros (A&_&C&_) Hq Hz. unfold slot_quiet, rx_of, rx_side in *. injection A as E1 E2 E3 E4 E5 E6 E7 E8 E9 E10 E11.
  rewrite E2, E3, E6, E7, E8, E9. apply Hq. destruct (Z.eq_dec (broken (sl_conn s)) 0); [done|]. by destruct C.
Qed.

Lemma keeps_quiet p p' : pool_keeps p p' -> pool_quiet p -> pool_quiet p'.
Proof.
  intros [(Hlen&_&_&Hk) _] Hq j s' Hs'. destruct (lookup_lt_is_Some_2 (sb_conns (p_sb p)) j) as [s Hs].
  { rewrite <- Hlen. by eapply lookup_lt_Some. }
  eapply slot_keeps_quiet; [exact (Hk j s s' (fun H => H) Hs Hs')|by eapply Hq].
Qed.

(** A step of connection [i] keeps what it keeps alone. *)
Lemma on_conn_spec reserve i g p s :
  pool_inv reserve p -> pool_quiet p -> sb_conns (p_sb p) !! i = Some s ->
  (forall w, conn_inv (BY := pool_around reserve p i) w -> quiet w -> w_reactor w = p_reactor p ->
     w_conn w = sl_conn s ->
     exists w', g w = Some w' /\ conn_inv (BY := pool_around reserve p i) w' /\ quiet w') ->
  exists p', on_conn i g p = Some p' /\ pool_inv reserve p' /\ pool_quiet p' /\ along (p_user p) (p_user p').
Proof.
  intros Hi Hq Hs Hg. destruct (focus_inv _ _ _ _ _ _ Hi Hs) as (v&Hf&_&Hc). unfold on_conn. rewrite Hf. cbn [mbind option_bind].
  destruct (Hg _ Hc (Hq i s Hs) eq_refl eq_refl) as (w'&->&Hc'&Hq'). cbn [mbind option_bind].
  destruct (unfocus_inv _ _ _ _ _ _ Hc') as (Hi'&(Hlen&_&_&Hk)&Hal&(x&Hx)). eexists. split; [done|]. split; [done|].
  split; [|exact Hal]. intros j t Ht. destruct (decide (j = i)) as [->|Hne].
  - rewrite Hx in Ht. injection Ht as <-. exact Hq'.
  - destruct (lookup_lt_is_Some_2 (sb_conns (p_sb p)) j) as [t0 Ht0].
    { rewrite <- Hlen. by eapply lookup_lt_Some. }
    eapply slot_keeps_quiet; [by eapply (Hk j)|by eapply Hq].
Qed.

Lemma ready_spec reserve p i s events :
  pool_inv reserve p -> pool_quiet p -> sb_conns (p_sb p) !! i = Some s ->
  exists p', pool_step (PoolReady i events) p = Some p' /\ pool_inv reserve p' /\ pool_quiet p' /\
    along (p_user p) (p_user p').
Proof.
  intros Hi Hq Hs. cbn [pool_step]. eapply on_conn_spec; [done..|]. intros w Hc Hqw _ _.
  destruct (reactor_cb_spec _ _ _ (conn_owner _ _ _ _ _ Howner reserve p i) events w Hc Hqw)
    as (w'&Hw&Hc'&Hq'&_). by exists w'.
Qed.

(** The timer of a connection. *)
Lemma conn_timer_spec reserve p id r i :
  pool_inv reserve p -> pool_quiet p -> r_fire (p_reactor p) = Some (id, r) ->
  timer_owner id (sb_conns (p_sb p)) = Some i ->
  exists p', pool_step PoolTimer p = Some p' /\ pool_inv reserve p' /\ pool_quiet p' /\ along (p_user p) (p_user p').
Proof.
  intros Hi Hq Hfire Hown. cbn [pool_step]. rewrite Hfire, Hown. unfold timer_owner in Hown.
  destruct (list_find _ _) as [[j s]|] eqn:Hfind; [|done]. injection Hown as ->.
  apply list_find_Some in Hfind as (Hs&Hid&_). eapply on_conn_spec; [done..|]. intros w Hc Hqw Hr Hw.
  destruct (resume_spec _ _ _ (conn_owner _ _ _ _ _ Howner reserve p i) w r id Hc Hqw)
    as (w'&Hw'&Hc'&Hq'&_); [by rewrite Hr|by rewrite Hw|]. by exists w'.
Qed.

(** Somebody else's. *)
Lemma foreign_timer_inv reserve p id r :
  pool_inv reserve p -> r_fire (p_reactor p) = Some (id, r) -> timer_owner id (sb_conns (p_sb p)) = None ->
  companions (set_pool_reactor p r) -> pool_inv reserve (set_pool_reactor p r).
Proof.
  intros [(Hsane&Hroom&(H1&H2&H3&H4&H5&_&H7)) Hslots] Hfire Hown Hcomp. pose proof Hsane as (Hok&Hsane').
  unfold timer_owner in Hown. destruct (list_find _ _) as [|] eqn:Hfind; [done|].
  destruct (fire_law _ _ _ Hok Hfire) as (Hok'&Hsw&_&Hst).
  split; [exact (conj (conj Hok' Hsane') (conj Hroom (conj H1 (conj H2 (conj H3 (conj H4 (conj H5 (conj Hcomp H7))))))))|]. intros j s Hs.
  pose proof (Hslots j s Hs) as Hslot. destruct Hroom as (v&Hl&Hroom).
  eapply (other_stable unlucky p); [exact Hslot|exact (conj Hok' Hsane')|done|done|done|apply Hsw| |].
  + intros _ Ha. apply Hst. split; [|exact Ha].
    apply list_find_None in Hfind. rewrite Forall_forall in Hfind.
    apply (Hfind s). by eapply list_elem_of_lookup_2.
  + exists v. split; [exact Hl|]. by eapply room_slot.
Qed.

Definition foreign_timer_ok p : Prop :=
  forall id r, r_fire (p_reactor p) = Some (id, r) -> timer_owner id (sb_conns (p_sb p)) = None ->
    companions (set_pool_reactor p r).

Lemma timer_spec reserve p :
  pool_inv reserve p -> pool_quiet p -> foreign_timer_ok p ->
  exists p', pool_step PoolTimer p = Some p' /\ pool_inv reserve p' /\ pool_quiet p'.
Proof.
  intros Hi Hq Hforeign. destruct (r_fire (p_reactor p)) as [[id r]|] eqn:Hfire; [|by exists p; cbn [pool_step]; rewrite Hfire].
  destruct (timer_owner id (sb_conns (p_sb p))) as [i|] eqn:Hown.
  - destruct (conn_timer_spec reserve p id r i Hi Hq Hfire Hown) as (p'&->&Hi'&Hq'&_). by exists p'.
  - cbn [pool_step]. rewrite Hfire, Hown. eexists. split; [done|]. split; [|done]. by eapply foreign_timer_inv, Hforeign.
Qed.

(** ** Sending *)

Lemma weaken_reserve a b p : 0 <= a <= b -> pool_inv b p -> pool_inv a p.
Proof.
  intros Hab [(Hsane&(v&Hl&(H1&H2&H3&H4&H5&H6&H7))&Hrest) Hslots]. split; [|exact Hslots].
  split; [exact Hsane|]. split; [|exact Hrest]. exists v. split; [done|].
  do 4 (split; [done|]). split; [lia|]. split; [done|]. intros Hv. specialize (H7 Hv). lia.
Qed.

(** The pick changes the generator's state only. *)
Lemma picked_inv reserve p sb r :
  pool_inv reserve p -> rng_ok sb -> same_but_rng (p_sb p) sb -> later (p_rand p) r ->
  pool_inv reserve (set_pool_rand (set_sb p sb) r) /\ pool_keeps p (set_pool_rand (set_sb p sb) r).
Proof.
  intros [((Hok&Hck&Hrd&Hfair&_&Hsz)&Hroom&Hrest) Hslots] Hrng (buf&pos&->) Hl.
  pose proof (rand_ok_later _ _ Hl Hrd) as Hrd'. pose proof (fair_later _ _ _ Hl Hfair) as Hfair'.
  assert (Hsane : pool_sane unlucky (set_pool_rand (set_sb p (with_rng (p_sb p) buf pos)) r))
    by exact (conj Hok (conj Hck (conj Hrd' (conj Hfair' (conj Hrng Hsz))))).
  assert (Hown : pool_own_step p (set_pool_rand (set_sb p (with_rng (p_sb p) buf pos)) r)) by (by apply own_same).
  split; [split|].
  - exact (conj Hsane (conj Hroom (tail_step _ _ Hrest Hown eq_refl eq_refl eq_refl))).
  - intros j s Hs. destruct Hroom as (v&Hload&Hroom).
    eapply (other_stable unlucky p); [exact (Hslots j s Hs)|exact Hsane|done..|].
    exists v. split; [exact Hload|]. by eapply room_slot.
  - by apply pool_keeps_same.
Qed.

(** Billing. *)
Lemma add_tx_spec reserve p n :
  pool_inv (reserve + n) p -> 0 <= reserve -> 0 <= n ->
  exists v v', valve_load (p_valves p) (sb_valve (p_sb p)) = Some v /\ cloak_valve_add_tx v n = Some v' /\
    (v = None <-> v' = None) /\ (v <> None -> cloak_valve_tx v' = cloak_valve_tx v + n) /\
    let p' := set_valves p (valve_store (p_valves p) (sb_valve (p_sb p)) v') in
    pool_inv reserve p' /\ valve_load (p_valves p') (sb_valve (p_sb p')) = Some v'.
Proof.
  intros Hinv Hres Hn. pose proof Hinv as [(Hsane&(v&Hl&(H1&H2&H3&H4&H5&H6&H7))&Hrest) Hslots].
  pose proof Hsane as (_&Hck&_). pose proof (still_coming_nonneg (sb_conns (p_sb p))). exists v.
  destruct v as [v|].
  2: { exists None. do 4 (split; [done|]). rewrite (valve_store_load _ _ _ Hl).
       split; [|exact Hl]. apply (weaken_reserve reserve) in Hinv; [|lia]. by destruct p. }
  specialize (H7 ltac:(done)).
  destruct (valve_exec_ok (p_clock p, VAddTx n) (Some v)) as (x&v'&Hx&Hok'&_&Hnull&Hcount&Hrx'&Htx');
    [by split|done|done|unfold op_rx; cbn [snd]; lia|done|unfold op_tx; cbn [snd]; lia|].
  change (valve_exec _ _) with (v' ← cloak_valve_add_tx (Some v) n; Some (VDone, v')) in Hx.
  destruct (cloak_valve_add_tx (Some v) n) as [v2|]; [|done]. cbn [mbind option_bind] in Hx. injection Hx as <- <-.
  destruct (Hcount ltac:(done)) as [Hc1 Hc2]. unfold op_rx, op_tx in *. cbn [out_rx out_tx snd] in Hc1, Hc2.
  exists v2. split; [done|]. split; [done|]. split; [done|]. split; [by intros _|]. cbv zeta.
  assert (Hl' : valve_load (valve_store (p_valves p) (sb_valve (p_sb p)) v2) (sb_valve (p_sb p)) = Some v2).
  { apply valve_load_store. rewrite <- (valve_load_null _ _ _ Hl). symmetry. exact Hnull. }
  assert (Hroom' : pool_room budget reserve (p_user p) v2 (sb_conns (p_sb p))).
  { do 2 (split; [done || lia|]). split; [lia|]. split; [lia|]. split; [lia|]. split; [done|]. intros _. lia. }
  assert (Hown : pool_own_step p (set_valves p (valve_store (p_valves p) (sb_valve (p_sb p)) v2))) by (by apply own_same).
  split; [|exact Hl'].
  split; [split; [exact Hsane|split; [by exists v2|exact (tail_step _ _ Hrest Hown eq_refl eq_refl eq_refl)]]|].
  intros j s Hs. eapply (other_stable unlucky p); [exact (Hslots j s Hs)|exact Hsane|done..|].
  exists v2. split; [exact Hl'|]. by eapply room_slot.
Qed.

Lemma since_all sb i sb' :
  pool_since sb (eq i) sb' ->
  (forall s s', sb_conns sb !! i = Some s -> sb_conns sb' !! i = Some s' -> slot_keeps s s') ->
  pool_since sb (fun _ => False) sb'.
Proof.
  intros (L&C&B&K) Hi. split; [done|]. split; [done|]. split; [done|]. intros j s s' _ Hs Hs'.
  destruct (decide (i = j)) as [<-|Hne]; [by apply Hi|by eapply K].
Qed.

Lemma envelope_len_bound c n :
  0 <= n <= CLOAK_CONN_MAX_FRAME_LEN -> 0 <= cloak_conn_envelope_len (Some c) n <= n + 8.
Proof.
  unfold CLOAK_CONN_MAX_FRAME_LEN. intros Hn. unfold cloak_conn_envelope_len, CLOAK_CONN_RECORD_HEADER_LEN, conn_ws_envelope_len.
  destruct (_ =? CLOAK_CONN_FRAMING_TLS_RECORD); [rewrite u64_small; lia|].
  destruct (CLOAK_WS_FRAME_MAX_CONTROL_PAYLOAD <? n), (_ =? CLOAK_CONN_FRAMING_WS_CLIENT); rewrite u64_small; lia.
Qed.

(** ** What a send touches

    Until its owner is called, a send on connection [i] leaves every other
    connection, every valve, the owner's state and everybody else's watches
    and timers as they are. *)
Definition sends_on (i : nat) (log : list conn_event) p q : Prop :=
  (p_valves q, p_clock q, p_log q, p_user q) = (p_valves p, p_clock p, p_log p, p_user p) /\
  with_conns (p_sb q) [] = with_conns (p_sb p) [] /\
  (forall j, j <> i -> sb_conns (p_sb q) !! j = sb_conns (p_sb p) !! j) /\
  exists s s', sb_conns (p_sb p) !! i = Some s /\ sb_conns (p_sb q) !! i = Some s' /\
    sl_log s' = sl_log s ++ log /\ rx_side (sl_conn s') = rx_side (sl_conn s) /\ sl_valve s' = sl_valve s /\
    (so_in (sl_socket s'), so_read (sl_socket s')) = (so_in (sl_socket s), so_read (sl_socket s)) /\
    own_watch (c_fd (sl_conn s)) (p_reactor p) (p_reactor q).

(** Then the owner of the pool is told nothing, that the queue of connection
    [i] ran empty, or that the connection broke; once, and last of all.
    Before it is told, the connection has logged [log]. *)
Inductive pool_told (i : nat) (log : list conn_event) p : pool_world R U -> Prop :=
| told_nobody p' : sends_on i log p p' -> pool_told i log p p'
| told_drained q s p' :
    sends_on i (log ++ [Drained]) p q -> sb_conns (p_sb q) !! i = Some s ->
    cloak_conn_send_queued (Some (sl_conn s)) = 0 ->
    switchboard_conn_drained_adapter on_drained q = Some p' -> pool_told i log p p'
| told_closed q s p' :
    sends_on i (log ++ [Closed]) p q -> sb_conns (p_sb q) !! i = Some s -> broken (sl_conn s) = 1 ->
    switchboard_conn_closed_adapter on_broken q = Some p' -> pool_told i log p p'.

Lemma sends_unfocus i log p s v w :
  sb_conns (p_sb p) !! i = Some s -> valve_load (p_valves p) (sl_valve s) = Some v ->
  sends_only log (slot_world p s v) w -> sends_on i log p (unfocus i w).
Proof.
  intros Hs Hv (A&B&C&D&L). injection A as Hu Hval Hck. injection B as Hin Hend Hrd.
  apply (f_equal fst) in C. cbn [fst] in C. rewrite (unfocus_regroup i s) by (by rewrite Hu).
  unfold regroup, sends_on. rewrite Hu, Hval, Hck. cbn. rewrite (valve_store_load _ _ _ Hv).
  split; [done|]. split; [done|]. split; [intros j Hj; by rewrite list_lookup_insert_ne|].
  exists s. eexists. split; [done|]. split; [apply list_lookup_insert_eq; by eapply lookup_lt_Some|].
  cbn. split_and!; [done..|by rewrite Hin, Hrd|exact D].
Qed.

Lemma focus_back i p w : focus i p = Some w -> unfocus i w = p.
Proof.
  unfold focus. destruct (sb_conns (p_sb p) !! i) as [s|] eqn:Hs; [|done]. cbn [mbind option_bind].
  destruct (valve_load _ _) as [v|] eqn:Hv; [|done]. intros [= <-]. by apply focus_unfocus.
Qed.

Lemma pool_told_spec i log p s v w' :
  sb_conns (p_sb p) !! i = Some s -> valve_load (p_valves p) (sl_valve s) = Some v ->
  sends_told (conn_closed on_broken i) (conn_drained on_drained i) log (slot_world p s v) w' ->
  pool_told i log p (unfocus i w').
Proof.
  intros Hs Hv (wq&Hq&Ht).
  assert (Hsq : sb_conns (p_sb (w_user wq)) !! i = Some s) by (destruct Hq as (A&_); injection A as -> _ _; done).
  assert (Hnote : forall e, sends_on i (log ++ [e]) p (unfocus i (note wq e))).
  { intros e. apply (sends_unfocus i _ p s v); [done..|]. destruct Hq as (A&B&C&D&L).
    split_and!; [exact A|exact B|exact C|exact D|]. cbn. by rewrite L, app_assoc. }
  assert (Hslot : forall e, sb_conns (p_sb (unfocus i (note wq e))) !! i = Some (world_slot (sl_valve s) (note wq e))).
  { intros e. rewrite (unfocus_regroup i s) by done. cbn. apply list_lookup_insert_eq. by eapply lookup_lt_Some. }
  destruct Ht as [->|[(_&Hlen&Hd)|(Hbr&_&Hd)]].
  - apply told_nobody. by apply (sends_unfocus i log p s v).
  - unfold conn_drained, pool_call in Hd. destruct (switchboard_conn_drained_adapter _ _) as [p2|] eqn:E; [|done].
    cbn [mbind option_bind] in Hd. apply focus_back in Hd as ->. by eapply (told_drained i log p _ _ p2 (Hnote Drained) (Hslot Drained)).
  - unfold conn_closed, pool_call in Hd. destruct (switchboard_conn_closed_adapter _ _) as [p2|] eqn:E; [|done].
    cbn [mbind option_bind] in Hd. apply focus_back in Hd as ->. by eapply (told_closed i log p _ _ p2 (Hnote Closed) (Hslot Closed)).
Qed.

(** What a send does.  On a broken or empty pool nothing.  Otherwise the frame
    goes to the connection that the pick names; until the owner is called back,
    once at most, no other connection and no valve is touched; 0 means that the
    frame was queued whole, and then the valve, as the owner left it, is charged
    the bytes of its envelope; -1 that the pool is broken, and then nobody is
    charged. *)
Definition pool_sent p (frame : bytes) (rc : Z) p' : Prop :=
  if negb (sb_broken (p_sb p) =? 0) || bool_decide (sb_conns (p_sb p) = []) then rc = -1 /\ p' = p
  else exists i sb r s s' log p2,
    switchboard_random_below (pick_fuel unlucky) (p_sb p) (zlen (sb_conns (p_sb p))) (p_rand p) =
      Some (Z.of_nat i, sb, r) /\
    sb_conns (p_sb p) !! i = Some s /\ sb_conns (p_sb p') !! i = Some s' /\
    (rc = 0 /\ broken (sl_conn s') = 0 \/ rc = -1 /\ sb_broken (p_sb p') <> 0) /\
    (rc = 0 \/ fits (sl_conn s) frame ->
     exists key more, sl_log s' = sl_log s ++ Queued CLOAK_WS_OP_BINARY key frame :: more) /\
    pool_told i log (set_pool_rand (set_sb p sb) r) p2 /\
    (log = [] \/ exists key, log = [Queued CLOAK_WS_OP_BINARY key frame]) /\
    if rc =? 0 then
      exists key v v', log = [Queued CLOAK_WS_OP_BINARY key frame] /\
        valve_load (p_valves p2) (sb_valve (p_sb p2)) = Some v /\
        let billed := zlen (envelope (framing (sl_conn s)) CLOAK_WS_OP_BINARY key frame) in
        cloak_valve_add_tx v billed = Some v' /\
        cloak_valve_tx v' = cloak_valve_tx v + (if v is Some _ then billed else 0) /\
        p' = set_valves p2 (valve_store (p_valves p2) (sb_valve (p_sb p2)) v')
    else p' = p2.

(** Accepted frames are in order. *)
Lemma accepted_ok (w : conn_world R (pool_world R U)) pre key frame more :
  conn_self w -> w_log w = pre ++ Queued CLOAK_WS_OP_BINARY key frame :: more ->
  max_ok (max_frame_len (w_conn w)) /\
  queued_ok (framing (w_conn w)) (max_frame_len (w_conn w)) CLOAK_WS_OP_BINARY key frame.
Proof.
  intros ((_&Hmax&_)&_&[_ Hq]&_) Hl. split; [done|]. rewrite Hl, queued_frames_app in Hq.
  apply Forall_app in Hq as [_ Hq]. cbn in Hq. by apply Forall_cons in Hq as [Hq _].
Qed.

Lemma pool_send_spec reserve p frame :
  0 <= reserve -> pool_inv (reserve + largest_envelope (p_sb p)) p -> all_bytes frame ->
  exists rc p', cloak_switchboard_send on_broken on_drained (pick_fuel unlucky) p frame = Some (rc, p') /\
    pool_inv reserve p' /\ pool_keeps p p' /\ pool_sent p frame rc p'.
Proof.
  intros Hres Hi Hframe. unfold cloak_switchboard_send, pool_sent. set (sb := p_sb p) in *.
  assert (Hempty : (zlen (sb_conns sb) =? 0) = bool_decide (sb_conns sb = [])).
  { case_bool_decide as E; [by rewrite E|]. apply Z.eqb_neq. intros Hz. by apply E, zlen_zero. }
  pose proof Hi as [((_&_&Hrd&Hfair&Hrng&[Hm0 Hm]&_)&_&_&_&Hcount&_) _]. fold sb in Hm0, Hm, Hcount, Hrng.
  assert (Hlarge : 0 <= largest_envelope sb) by (unfold largest_envelope; lia).
  rewrite Hempty. destruct (negb (sb_broken sb =? 0) || bool_decide (sb_conns sb = [])) eqn:Hoff.
  { exists (-1), p. split; [done|]. split; [eapply weaken_reserve; [|exact Hi]; lia|]. split; [apply pool_keeps_refl|done]. }
  apply orb_false_iff in Hoff as [Halive Hne]. apply bool_decide_eq_false in Hne.
  assert (Hpos : 1 <= zlen (sb_conns sb)).
  { pose proof (zlen_nonneg (sb_conns sb)). destruct (Z.eq_dec (zlen (sb_conns sb)) 0) as [Hz|]; [|lia].
    by apply zlen_zero in Hz. }
  rewrite u32_small by lia.
  destruct (pick_spec unlucky sb (zlen (sb_conns sb)) (p_rand p) Hrng Hrd Hfair) as (idx&sb'&r&Hpick&Hidx&Hrng'&Hl&Hsame); [lia|].
  rewrite Hpick. cbn [mbind option_bind].
  destruct (picked_inv _ p sb' r Hi Hrng' Hsame Hl) as [Hi1 Hk1]. set (p1 := set_pool_rand (set_sb p sb') r) in *.
  set (i := Z.to_nat idx) in *.
  assert (Hconns : sb_conns (p_sb p1) = sb_conns sb) by (destruct Hsame as (?&?&E); cbn; by rewrite E).
  destruct (lookup_lt_is_Some_2 (sb_conns sb) i) as [s Hs]; [unfold zlen in *; lia|].
  assert (Hs1 : sb_conns (p_sb p1) !! i = Some s) by (by rewrite Hconns).
  destruct (focus_inv _ _ _ p1 i s Hi1 Hs1) as (v&Hfoc&_&Hc). rewrite Hfoc. cbn [mbind option_bind].
  assert (Hvs : valve_load (p_valves p1) (sl_valve s) = Some v).
  { unfold focus in Hfoc. rewrite Hs1 in Hfoc. cbn [mbind option_bind] in Hfoc. destruct (valve_load (p_valves p1) (sl_valve s)) as [v0|]; [|done].
    cbn [mbind option_bind] in Hfoc. by injection Hfoc as ->. }
  destruct (send_spec _ _ _ (conn_owner _ _ _ _ _ Howner (reserve + largest_envelope sb) p1 i) _ frame Hc Hframe)
    as (rc&w'&Hsend&Hc'&Hk&Hres'&Hfit). rewrite Hsend. cbn [mbind option_bind].
  destruct (unfocus_inv _ _ _ _ _ _ Hc') as (Hi2&Hsince&Hal&(x&Hx)).
  assert (Hrd1 : rand_ok (w_rand (slot_world p1 s v))) by apply Hi1.
  assert (Htold : exists log, pool_told i log p1 (unfocus i w') /\
    (log = [] \/ exists key, key_fits (framing (sl_conn s)) key /\ log = [Queued CLOAK_WS_OP_BINARY key frame]) /\ (rc = 0 -> log <> [])).
  { destruct (send_told _ _ _ _ _ _ Hrd1 Hsend) as [[-> Ht]|(_&key&Hkey&Ht)]; eexists;
      (split; [by eapply pool_told_spec|split; [eauto|done]]). }
  destruct Htold as (log&Htold&Hlogs&Hnil). set (p2 := unfocus i w') in *.
  assert (Hk2 : pool_keeps p p2).
  { eapply pool_keeps_trans; [exact Hk1|]. split; [|exact Hal]. apply (since_all _ i); [exact Hsince|]. intros t t' Ht Ht'.
    rewrite Hconns, Hs in Ht. rewrite Hx in Ht'. injection Ht as <-. injection Ht' as <-. exact Hk. }
  assert (Hpair : Z.of_nat i = idx) by lia.
  unfold send_result in Hres'. destruct (Z.eqb_spec rc 0) as [->|Hrc].
  2: { destruct Hres' as [-> Hbr]. exists (-1), p2. split; [done|].
       split; [eapply weaken_reserve; [|exact Hi2]; lia|]. split; [done|].
       exists i, sb', r, s, (world_slot x w'), log, p2. rewrite Hpair. do 3 (split; [done|]). split; [|split; [|split; [done|split; [|done]]]].
       - right. split; [done|]. apply (proj2 Hi2 i _ Hx). exact Hbr.
       - intros [?|Hf]; [done|]. exact (Hfit Hf).
       - destruct Hlogs as [->|(key&_&->)]; [by left|right; by exists key]. }
  destruct Hres' as [Hbr [key [more Hlog]]]. rewrite Hx. cbn [mbind option_bind].
  destruct Hlogs as [->|(key'&Hkey'&->)]; [by destruct (Hnil eq_refl)|].
  destruct (accepted_ok w' _ _ _ _ (proj1 (proj1 Hc')) Hlog) as [Hmax Hqok].
  assert (Hlen : zlen frame <= sb_max_frame_len sb).
  { destruct (proj2 Hi2 i _ Hx) as [(_&_&Hmx&_) _]. pose proof Hk2 as [(_&Hcfg&_) _].
    unfold pool_config in Hcfg. injection Hcfg as Hcm _ _ _. fold sb in Hcm. rewrite <- Hcm, <- Hmx.
    apply (qo_len _ _ _ _ _ Hqok). }
  pose proof (zlen_nonneg frame).
  assert (Henv : 0 <= cloak_conn_envelope_len (Some (sl_conn (world_slot x w'))) (zlen frame) <= largest_envelope sb).
  { pose proof (envelope_len_bound (sl_conn (world_slot x w')) (zlen frame)). unfold largest_envelope. lia. }
  unfold largest_envelope, CLOAK_CONN_MAX_FRAME_LEN in *.
  change (sl_conn (world_slot x w')) with (w_conn w') in *. set (env := cloak_conn_envelope_len _ _) in *.
  rewrite s64_small by (unfold INT64_MIN, INT64_MAX; lia).
  destruct (add_tx_spec (reserve + (sb_max_frame_len sb + 8 - env)) p2 env) as (v1&v2&Hl1&Hadd&Hnull&Htx&Hi3&Hl3); [|lia|lia|].
  { by replace (reserve + (sb_max_frame_len sb + 8 - env) + env) with (reserve + (sb_max_frame_len sb + 8)) by lia. }
  rewrite Hl1. cbn [mbind option_bind]. rewrite Hadd. cbn [mbind option_bind]. do 2 eexists. split; [done|].
  split; [eapply weaken_reserve; [|exact Hi3]; lia|]. split; [exact Hk2|].
  exists i, sb', r, s, (world_slot x w'), [Queued CLOAK_WS_OP_BINARY key' frame], p2. rewrite Hpair. do 3 (split; [done|]).
  split; [by left|]. split; [intros _; by exists key, more|]. split; [done|]. split; [right; by exists key'|].
  cbn [Z.eqb]. exists key', v1, v2. split; [done|]. split; [done|].
  assert (Hf : framing (sl_conn s) = framing (w_conn w')).
  { destruct Hk as (Hrx&_). unfold rx_side in Hrx. by injection Hrx. }
  assert (Hqok' : queued_ok (framing (w_conn w')) (max_frame_len (w_conn w')) CLOAK_WS_OP_BINARY key' frame).
  { destruct Hqok as [Q1 Q2 Q3 _]. split; [exact Q1|exact Q2|exact Q3|]. by rewrite <- Hf. }
  rewrite Hf, (envelope_length _ _ _ _ _ Hmax Hqok'). fold env. split; [exact Hadd|]. split; [|done].
  destruct v1 as [v1|]; [by apply Htx|]. rewrite (proj1 Hnull eq_refl). cbn. lia.
Qed.

(** ** The other operations *)

(** The event loop changes, but not for the connections. *)
Lemma reactor_inv reserve p r :
  pool_inv reserve p -> reactor_ok r ->
  (forall f, f ∈ fds (sb_conns (p_sb p)) -> interest_in r f = interest_in (p_reactor p) f) ->
  (forall j s, sb_conns (p_sb p) !! j = Some s -> armed (p_reactor p) (timer_of s) -> armed r (timer_of s)) ->
  companions (set_pool_reactor p r) -> pool_inv reserve (set_pool_reactor p r).
Proof.
  intros [(Hsane&Hroom&(H1&H2&H3&H4&H5&_&H7)) Hslots] Hok Hw Ht Hcomp. pose proof Hsane as (_&Hsane').
  split; [exact (conj (conj Hok Hsane') (conj Hroom (conj H1 (conj H2 (conj H3 (conj H4 (conj H5 (conj Hcomp H7))))))))|]. intros j s Hs. destruct Hroom as (v&Hl&Hroom).
  eapply (other_stable unlucky p); [exact (Hslots j s Hs)|exact (conj Hok Hsane')|done|done|done| | |].
  - apply Hw. unfold fds. apply list_elem_of_fmap. exists s. split; [done|]. by eapply list_elem_of_lookup_2.
  - intros _. by eapply Ht.
  - exists v. split; [exact Hl|]. by eapply room_slot.
Qed.

(** What the caller of [cloak_switchboard_add_conn_framed] hands over: a new
    descriptor, nothing read from it yet, and a valve that can count what it
    will bring. *)
Definition add_ok p (fd framing : Z) (so : socket) (m : pool_memory) : Prop :=
  let sb := p_sb p in
  (fd ∉ fds (sb_conns sb)) /\
  memory_ok (ConnConfig fd (sb_max_frame_len sb) (sb_conn_send_queue_cap sb) framing true true) (mem_blocks m) /\
  (so_read so, so_out so) = ([], []) /\ Forall all_bytes (so_in so) /\
  (forall v, valve_load (p_valves p) (sb_valve sb) = Some v ->
     cloak_valve_rx v + still_coming (sb_conns sb) + zlen (concat (so_in so)) <= INT64_MAX) /\
  zlen (sb_conns sb) < 2147483648.

Lemma still_coming_app l l' : still_coming (l ++ l') = still_coming l + still_coming l'.
Proof. induction l as [|s l IH]; [done|]. cbn [app still_coming]. rewrite IH. lia. Qed.

(** A connection that joins the pool. *)
Lemma join_inv reserve p s v :
  pool_inv reserve p -> pool_quiet p -> sb_broken (p_sb p) = 0 ->
  valve_load (p_valves p) (sb_valve (p_sb p)) = Some v ->
  cloak_valve_rx v + still_coming (sb_conns (p_sb p)) + slot_coming s <= INT64_MAX ->
  (c_fd (sl_conn s) ∉ fds (sb_conns (p_sb p))) -> timer_of s = CLOAK_TIMER_INVALID ->
  zlen (sb_conns (p_sb p)) < 2147483648 -> slot_inv p s -> slot_quiet s ->
  let p' := set_sb p (with_conns (p_sb p) (sb_conns (p_sb p) ++ [s])) in
  pool_inv reserve p' /\ pool_quiet p'.
Proof.
  intros [(Hsane&(v'&Hl&(H1&H2&H3&H4&H5&H6&H7))&Hfds&Htim&Hcount&Hsome&Hrep&Hcomp&Hinf) Hslots] Hq Hz Hv Hin Hfd Ht Hlen Hslot Hqs p'.
  rewrite Hl in Hv. injection Hv as ->. pose proof (zlen_nonneg (concat (so_in (sl_socket s)))) as Hcs.
  assert (Hroom : pool_room budget reserve (p_user p) v (sb_conns (p_sb p) ++ [s])).
  { do 2 (split; [done|]). split; [|done]. rewrite still_coming_app. cbn. lia. }
  split; [split|].
  - split; [exact Hsane|]. split; [by exists v|]. split; [|split; [|split; [|split; [intros Hb; exfalso; exact (Hb Hz)|split; [exact Hrep|split; [|exact Hinf]]]]]].
    + cbn. unfold fds. rewrite fmap_app. apply NoDup_app. split; [exact Hfds|]. split; [|apply NoDup_singleton].
      intros f Hf Hs. apply list_elem_of_singleton in Hs as ->. by apply Hfd.
    + cbn. intros i j a b Hij Ha Hb Hne. apply lookup_app_Some in Ha as [Ha|[_ Ha]].
      * apply lookup_app_Some in Hb as [Hb|[_ Hb]]; [by eapply Htim|].
        apply list_lookup_singleton_Some in Hb as [_ <-]. by rewrite Ht.
      * apply list_lookup_singleton_Some in Ha as [_ <-]. done.
    + cbn. rewrite zlen_app. change (zlen [s]) with 1. lia.
    + eapply companions_stable; [exact Hcomp|]. split; [done|done|apply aged_refl|done|].
      intros t [Hne Hx]. left. split; [done|]. cbn in Hx. rewrite map_app in Hx.
      apply elem_of_app in Hx as [Hx|Hx%list_elem_of_singleton]; [done|]. congruence.
  - cbn. intros j a [Ha|[_ Ha]]%lookup_app_Some.
    + exact (Hslots j a Ha).
    + apply list_lookup_singleton_Some in Ha as [_ <-]. exact Hslot.
  - cbn. intros j a [Ha|[_ Ha]]%lookup_app_Some; [exact (Hq j a Ha)|].
    apply list_lookup_singleton_Some in Ha as [_ <-]. exact Hqs.
Qed.

Definition pool_added p (fd framing : Z) (so : socket) (rc : Z) p' : Prop :=
  if rc =? 0 then framing_ok framing /\ sb_broken (p_sb p) = 0 /\
    exists c, sb_conns (p_sb p') = sb_conns (p_sb p) ++ [Slot c (sb_valve (p_sb p)) so []] /\
      c_fd c = fd /\ Conn.framing c = framing /\ broken c = 0
  else sb_conns (p_sb p') = sb_conns (p_sb p) /\ same_watches (p_reactor p) (p_reactor p') /\
    (rc = -1 \/ rc = CLOAK_CONN_ERR_INVALID_FRAMING /\ ~ framing_ok framing).

Lemma init_cfg_spec r cfg m :
  reactor_ok r -> 0 < cfg_max_frame_len cfg -> 0 < cfg_send_queue_cap cfg -> memory_ok cfg m ->
  exists rc c r', cloak_conn_init_cfg r cfg m = (rc, c, r') /\ reactor_ok r' /\ same_timers r r' /\ aged r r' /\
    if rc =? 0 then framing_ok (cfg_framing cfg) /\ rx_resume_timer c = CLOAK_TIMER_INVALID /\ broken c = 0 /\
      interest_in r' (cfg_fd cfg) = Some (interest c) /\ forall f, f <> cfg_fd cfg -> interest_in r' f = interest_in r f
    else same_watches r r' /\ (rc = -1 \/ rc = CLOAK_CONN_ERR_INVALID_FRAMING /\ ~ framing_ok (cfg_framing cfg)).
Proof.
  intros Hok Hmax Hcap Hm. destruct (decide (config_ok cfg /\ blocks_there m)) as [[Hc Hb]|Hbad].
  - destruct (init_success r cfg m Hc Hm Hb) as (c&v&r'&Hadd&->&Hfresh).
    destruct (add_fd_law _ _ _ _ _ Hok Hadd) as (Hok'&Hst&Hw).
    assert (Hag : aged r r').
    { replace r' with (r_add_fd r (cfg_fd cfg) CLOAK_REACTOR_READABLE).2 by (by rewrite Hadd). by apply aged_call; [|constructor]. }
    do 3 eexists. split; [done|]. split; [done|]. split; [done|]. split; [done|]. destruct (Z.eqb_spec v 0) as [Hv|Hv]; cbn.
    + destruct (Hfresh Hv) as [(_&_&_&_&_&_&_&_&_&Hbr&_&Ht&_&Hrd) _]. destruct Hw as (_&Hi&Hf).
      split; [apply Hc|]. split; [done|]. split; [done|]. rewrite Hrd. by split.
    + split; [exact Hw|by left].
  - destruct (init_refused r cfg m ltac:(lia) ltac:(lia) Hm Hbad) as [c ->].
    do 3 eexists. split; [done|]. split; [done|]. split; [done|]. split; [done|].
    case_bool_decide as Hf; cbn; (split; [done|]); [by left|by right].
Qed.

Lemma add_spec reserve p fd framing so m :
  pool_inv reserve p -> pool_quiet p -> add_ok p fd framing so m ->
  let '(rc, p') := cloak_switchboard_add_conn_framed p fd framing so m in
  pool_inv reserve p' /\ pool_quiet p' /\ pool_added p fd framing so rc p'.
Proof.
  intros Hi Hq (Hfd&Hmem&Hso&Hbytes&Hcoming&Hlen). unfold cloak_switchboard_add_conn_framed, pool_added.
  destruct (Z.eqb_spec framing CLOAK_CONN_FRAMING_INVALID) as [->|_].
  { split; [done|]. split; [done|]. split; [done|]. split; [done|]. right. split; [done|].
    unfold framing_ok, CLOAK_CONN_FRAMING_INVALID, CLOAK_CONN_FRAMING_TLS_RECORD, CLOAK_CONN_FRAMING_WS_CLIENT, CLOAK_CONN_FRAMING_WS_SERVER. lia. }
  destruct (Z.eqb_spec (sb_broken (p_sb p)) 0) as [Hz|Hnz]; cbn [negb].
  2: { split; [done|]. split; [done|]. split; [done|]. split; [done|]. by left. }
  set (full := _ =? sb_conns_cap (p_sb p)). set (new_cap := if sb_conns_cap (p_sb p) =? 0 then 4 else _). destruct (full && negb (mem_array m)).
  { split; [done|]. split; [done|]. split; [done|]. split; [done|]. by left. }
  set (p1 := if full then _ else p).
  assert (Hp1 : pool_inv reserve p1 /\ pool_quiet p1 /\ sb_conns (p_sb p1) = sb_conns (p_sb p) /\
    p_reactor p1 = p_reactor p /\ p_valves p1 = p_valves p /\ pool_config (p_sb p1) = pool_config (p_sb p) /\ sb_valve (p_sb p1) = sb_valve (p_sb p) /\
    sb_broken (p_sb p1) = 0 /\ p_user p1 = p_user p).
  { unfold p1. destruct full; [|by split_and!]. destruct Hi as [(G1&G2&Hrest) Hslots].
    split; [split; [|exact Hslots]|]; [|by split].
    exact (conj G1 (conj G2 (tail_step p (set_sb p (with_cap (p_sb p) new_cap)) Hrest
      (own_same p (set_sb p (with_cap (p_sb p) new_cap)) eq_refl eq_refl eq_refl eq_refl) eq_refl eq_refl eq_refl))). }
  clearbody p1. destruct Hp1 as (Hi1&Hq1&Hconns&Hr1&Hvs&Hcfg&Hv1&Hz1&Hu1). unfold pool_config in Hcfg.
  injection Hcfg as Hcm Hcc _ _.
  destruct (mem_conn m); cbn [negb].
  2: { split; [done|]. split; [done|]. split; [done|]. rewrite Hr1. split; [done|]. by left. }
  pose proof Hi1 as [((Hok&Hck&Hrd&_&_&[Hm0 _]&Hc0)&(v&Hl&Hroom)&_) Hslots].
  set (cfg := ConnConfig fd (sb_max_frame_len (p_sb p)) (sb_conn_send_queue_cap (p_sb p)) framing true true) in *.
  destruct (init_cfg_spec (p_reactor p1) cfg (mem_blocks m) Hok) as (rc&c&r&Hinit&Hok'&Hst&Hag&Hrc);
    [cbn; lia|cbn; lia|done|].
  rewrite Hinit.
  assert (Hcomp2 : companions (set_pool_reactor p1 r)).
  { eapply (companions_stable p1); [apply Hi1|]. split; [done|done|exact Hag|intros t _ _; apply Hst|by left]. }
  destruct (Z.eqb_spec rc 0) as [->|Hne]; cbn [negb].
  - destruct Hrc as (Hfr&Htimer&Hbr&_&Hw). rewrite Z.eqb_refl.
    assert (Hi2 : pool_inv reserve (set_pool_reactor p1 r)).
    { apply reactor_inv; [done|done| | |exact Hcomp2].
      - intros f Hf. apply Hw. cbn. rewrite Hconns in Hf. by intros ->.
      - intros j s _. apply Hst. }
    set (p2 := set_pool_reactor p1 r) in *. rewrite Hvs, Hv1 in Hl. specialize (Hcoming v Hl).
    pose proof (still_coming_nonneg (sb_conns (p_sb p))). pose proof (zlen_nonneg (concat (so_in so))).
    assert (Hself : conn_self (slot_world p2 (Slot c (sb_valve (p_sb p)) so []) v) /\
      settled c /\ slot_quiet (Slot c (sb_valve (p_sb p)) so []) /\
      (c_fd c, Conn.framing c, max_frame_len c, on_envelope_set c, on_closed_set c) =
        (fd, framing, sb_max_frame_len (p_sb p), true, true)).
    { destruct (deployed_inv cfg (slot_world p2 (Slot c (sb_valve (p_sb p)) so []) v))
        as ([[Hself _] Hset]&Hquiet&Hfc&_); [|split; [exact Hself|split; [exact Hset|split; [exact Hquiet|exact Hfc]]]].
      exists (p_reactor p1), (mem_blocks m). split; [done|]. split; [done|]. split; [cbn; lia|]. split; [cbn; lia|].
      split; [exact Hinit|]. injection Hso as Hso1 Hso2. split; [cbn; by rewrite Hso1, Hso2|].
      split; [|exact (conj Hck (conj Hrd Hbytes))]. destruct Hroom as (H1&H2&H3&H4&H5&H6&H7).
      split; [done|]. split; [done|]. split; [cbn; lia|]. split; [done|].
      destruct v as [v|]; [specialize (H7 ltac:(done)); cbn in *; lia|cbn; unfold INT64_MAX; lia]. }
    destruct Hself as (Hself&Hset&Hquiet&Hfc). injection Hfc as Hf1 Hf2 Hf3 Hf4 Hf5.
    destruct (join_inv reserve p2 (Slot (with_drained_set c true) (sb_valve (p_sb p)) so []) v Hi2 Hq1 Hz1)
      as [Hi3 Hq3].
    + cbn. by rewrite Hvs, Hv1.
    + cbn [p2 set_pool_reactor p_sb]. rewrite Hconns. exact Hcoming.
    + cbn. by rewrite Hconns, Hf1.
    + exact Htimer.
    + cbn [p2 set_pool_reactor p_sb]. by rewrite Hconns.
    + split; [|intros Hn; exfalso; exact (Hn Hbr)]. split; [cbn; congruence|]. split; [cbn; congruence|].
      split; [cbn; congruence|]. split; [exact Hset|]. exists v. split; [cbn; by rewrite Hvs|exact Hself].
    + exact Hquiet.
    + split; [exact Hi3|]. split; [exact Hq3|]. split; [done|]. split; [done|].
      exists (with_drained_set c true). split; [cbn; by rewrite Hconns|]. done.
  - rewrite (proj2 (Z.eqb_neq rc 0)) by done. destruct Hrc as [Hw Hrc].
    split; [|split; [exact Hq1|split; [exact Hconns|split; [|exact Hrc]]]].
    + apply reactor_inv; [done|done|intros f _; apply Hw|intros j s _; apply Hst|exact Hcomp2].
    + rewrite <- Hr1. exact Hw.
Qed.

Definition revalved (v : option Z) (s : slot) : slot := Slot (sl_conn s) v (sl_socket s) (sl_log s).

Lemma still_coming_revalved v l : still_coming (map (revalved v) l) = still_coming l.
Proof. induction l as [|s l IH]; [done|]. cbn [map still_coming]. by rewrite IH. Qed.

Lemma fds_revalved v l : fds (map (revalved v) l) = fds l.
Proof. unfold fds. induction l as [|s l IH]; [done|]. cbn. by rewrite IH. Qed.

Lemma map_lookup_inv {A B} (f : A -> B) l j y : map f l !! j = Some y -> exists x, l !! j = Some x /\ y = f x.
Proof. intros H. change (map f l) with (f <$> l) in H. apply list_lookup_fmap_Some in H as (x&->&Hx). by exists x. Qed.

(** Every connection meters into the pool's valve, whenever it is set. *)
Lemma set_valve_spec reserve p ptr v :
  pool_inv reserve p -> pool_quiet p -> valve_load (p_valves p) ptr = Some v ->
  pool_room budget reserve (p_user p) v (sb_conns (p_sb p)) ->
  pool_inv reserve (cloak_switchboard_set_valve p ptr) /\ pool_quiet (cloak_switchboard_set_valve p ptr).
Proof.
  intros [(Hsane&_&Hfds&Htim&Hcount&Hsome&Hrep&Hcomp&Hinf) Hslots] Hq Hl Hroom. unfold cloak_switchboard_set_valve.
  change (fun s => Slot (sl_conn s) ptr (sl_socket s) (sl_log s)) with (revalved ptr).
  split; [split|].
  - split; [exact Hsane|]. split; [|split; [|split; [|split; [|split; [|split; [exact Hrep|split; [|exact Hinf]]]]]]].
    + exists v. split; [exact Hl|]. unfold pool_room in *. cbn. by rewrite still_coming_revalved.
    + cbn. by rewrite fds_revalved.
    + cbn. intros i j a b Hij (a'&Ha&->)%map_lookup_inv (b'&Hb&->)%map_lookup_inv. exact (Htim i j a' b' Hij Ha Hb).
    + cbn. unfold zlen in *. by rewrite length_map.
    + intros Hb. destruct (Hsome Hb) as [Hn|(i&s&Hs&Hbr)]; [left; cbn; by rewrite Hn|].
      right. exists i, (revalved ptr s). split; [|done]. cbn.
      change (map (revalved ptr)) with (fmap (M := list) (revalved ptr)). by rewrite list_lookup_fmap, Hs.
    + eapply companions_stable; [exact Hcomp|]. apply own_same; [done..|]. cbn. by rewrite map_map.
  - cbn. intros j a (s&Hs&->)%map_lookup_inv. destruct (Hslots j s Hs) as [(Hv&Hon&Hmax&Hset&(x&_&(H1&H2&H3&H4&(_&H5)))) Hb].
    split; [|exact Hb]. split; [done|]. split; [exact Hon|]. split; [exact Hmax|]. split; [exact Hset|].
    exists v. split; [exact Hl|]. split; [exact H1|]. split; [exact H2|]. split; [exact H3|]. split; [exact H4|].
    split; [|exact H5]. exact (room_slot _ _ _ _ _ _ _ Hroom Hs).
  - cbn. intros j a (s&Hs&->)%map_lookup_inv. exact (Hq j s Hs).
Qed.

(** What closing removes from the event loop. *)
Lemma close_conns_spec conns (r : R) log :
  reactor_ok r ->
  exists r', close_conns conns r log = (r', log ++ map FdClosed (fds conns)) /\ reactor_ok r' /\
    unwatched (fds conns) r r' /\
    (forall t, armed r' t <-> armed r t /\ (t ∉ map timer_of conns)) /\ aged r r'.
Proof.
  revert r log. induction conns as [|s conns IH]; intros r log Hok; cbn [close_conns].
  - exists r. cbn. rewrite app_nil_r. split; [done|]. split; [done|]. split; [by apply unwatched_nil|]. split; [|done].
    intros t. split; [intros; split; [done|apply not_elem_of_nil]|by intros [? _]].
  - destruct (cancel_timer_law r (timer_of s) Hok) as (Hok1&Hsw1&Hst1).
    destruct (remove_fd_law _ (c_fd (sl_conn s)) Hok1) as (Hok2&Hst2&Hsw2).
    unfold cloak_conn_destroy. cbn beta iota. change (rx_resume_timer (sl_conn s)) with (timer_of s).
    destruct (IH _ (log ++ [FdClosed (c_fd (sl_conn s))]) Hok2) as (r'&->&Hok'&Hw&Ht&Hag). exists r'.
    split; [by rewrite <- app_assoc|]. split; [done|]. split; [|split].
    + eapply same_unwatched; [exact Hsw1|]. by apply unwatched_remove.
    + intros t. rewrite (Ht t), (Hst2 t), (Hst1 t). cbn. rewrite not_elem_of_cons. tauto.
    + eapply aged_trans; [|exact Hag]. eapply aged_trans; by (apply aged_call; [|constructor]).
Qed.

Lemma reports_closed log l : pool_reports (log ++ map FdClosed l) = pool_reports log.
Proof. unfold pool_reports. rewrite omap_app. induction l as [|f l IH]; cbn; [by rewrite app_nil_r|exact IH]. Qed.

Lemma close_all_spec reserve p :
  pool_inv reserve p ->
  let p' := cloak_switchboard_close_all p in
  pool_inv reserve p' /\ pool_quiet p' /\ sb_conns (p_sb p') = [] /\
  p_log p' = p_log p ++ map FdClosed (fds (sb_conns (p_sb p))) /\
  unwatched (fds (sb_conns (p_sb p))) (p_reactor p) (p_reactor p') /\
  (forall t, armed (p_reactor p') t <-> armed (p_reactor p) t /\ (t ∉ map timer_of (sb_conns (p_sb p)))).
Proof.
  intros [(Hsane&(v&Hl&(H1&H2&H3&H4))&_&_&_&_&Hrep&Hcomp&Hinf) _]. pose proof Hsane as (Hok&Hsane').
  unfold cloak_switchboard_close_all. pose proof (still_coming_nonneg (sb_conns (p_sb p))).
  destruct (close_conns_spec (sb_conns (p_sb p)) (p_reactor p) (p_log p) Hok) as (r'&->&Hok'&Hw&Ht&Hag).
  split; [split|]; [|done|].
  - split; [exact (conj Hok' Hsane')|]. split; [|split; [apply NoDup_nil_2|split; [done|split; [done|split; [by left|split; [|split; [|exact Hinf]]]]]]].
    + exists v. split; [done|]. split; [done|]. split; [done|]. split; [cbn; lia|exact H4].
    + cbn. rewrite reports_closed. exact Hrep.
    + eapply companions_stable; [exact Hcomp|]. split; [done|done|exact Hag| |].
      * intros t Hne Hnot Ha. apply Ht. split; [exact Ha|]. intros Hx. by apply Hnot.
      * intros t [_ Hx]. by apply not_elem_of_nil in Hx.
  - split; [done|]. split; [done|]. split; [done|]. by split.
Qed.

(** With room for one more frame. *)
Lemma send_room p :
  pool_inv 0 p ->
  (forall v, valve_load (p_valves p) (sb_valve (p_sb p)) = Some (Some v) ->
     cloak_valve_tx (Some v) + largest_envelope (p_sb p) + budget (p_user p) <= INT64_MAX) ->
  pool_inv (0 + largest_envelope (p_sb p)) p.
Proof.
  intros [(Hsane&(v&Hl&(R1&R2&R3&R4&R5&R6&R7))&Hrest) Hslots] Hroom. split; [|exact Hslots].
  pose proof Hsane as (_&_&_&_&_&[Hm _]&_). split; [exact Hsane|]. split; [|exact Hrest].
  exists v. split; [done|]. do 4 (split; [done|]). split; [unfold largest_envelope; lia|]. split; [done|].
  intros Hv. destruct v as [v|]; [|done]. specialize (Hroom v Hl). lia.
Qed.

End run.

(** ** Reachable pools *)

Section reachable.
Context {R U : Type} {RR : Reactor R} {RL : ReactorLaws R}.
Implicit Types p : pool_world R U.
Variable unlucky : nat.
Variable budget : U -> Z.
Variable on_envelope : bytes -> pool_world R U -> option (pool_world R U).
Variable on_broken : pool_world R U -> option (pool_world R U).
Variable on_drained : pool_world R U -> option (pool_world R U).
Hypothesis Howner : pool_owner_ok unlucky budget on_envelope on_broken on_drained.
#[local] Abbreviation pool_inv := (pool_inv unlucky budget).
#[local] Abbreviation pool_step := (pool_step unlucky on_envelope on_broken on_drained).

Definition pool_input_ok p (input : pool_input) : Prop :=
  match input with
  | PoolReady i _ => is_Some (sb_conns (p_sb p) !! i)
  | PoolSend frame => all_bytes frame /\
      forall v, valve_load (p_valves p) (sb_valve (p_sb p)) = Some (Some v) ->
        cloak_valve_tx (Some v) + largest_envelope (p_sb p) + budget (p_user p) <= INT64_MAX
  | PoolAdd fd framing so m => add_ok p fd framing so m
  | PoolSetValve ptr => exists v, valve_load (p_valves p) ptr = Some v /\
      pool_room budget 0 (p_user p) v (sb_conns (p_sb p))
  | _ => True
  end.

(** A pool its constructor has just accepted. *)
Definition pool_started p : Prop :=
  exists max cap env brk, 0 <= max /\ 0 <= cap /\ cloak_switchboard_init max cap env brk = (0, p_sb p) /\
    reactor_ok (p_reactor p) /\ env_ok (p_clock p) /\ rand_ok (p_rand p) /\ fair unlucky (p_rand p) /\
    p_log p = [] /\ 0 <= budget (p_user p).

Inductive pool_reachable (p0 : pool_world R U) : pool_world R U -> Prop :=
| pool_here : pool_reachable p0 p0
| pool_next p input p' :
    pool_reachable p0 p -> pool_input_ok p input -> pool_step input p = Some p' -> pool_reachable p0 p'.

Lemma started_inv p : pool_started p -> pool_inv 0 p /\ pool_quiet p.
Proof.
  intros (max&cap&env&brk&Hm&Hc&Hinit&Hok&Hck&Hrd&Hfair&Hlog&Hbud). unfold cloak_switchboard_init in Hinit.
  destruct (_ || _ || _) eqn:E; [done|]. bool_hyps. injection Hinit as Hsb.
  split; [split|].
  - split.
    { split; [done|]. split; [done|]. split; [done|]. split; [done|]. rewrite <- Hsb.
      split; [apply fresh_rng_ok|]. split; [unfold max_ok; cbn; lia|cbn; lia]. }
    rewrite <- Hsb, Hlog. split; [|split; [apply NoDup_nil_2|by split_and!]].
    exists None. split; [done|]. unfold pool_room. cbn. unfold INT64_MAX. by split_and!.
  - rewrite <- Hsb. intros j s Hs. done.
  - intros j s. rewrite <- Hsb. done.
Qed.

Lemma pool_step_spec input p :
  pool_inv 0 p -> pool_quiet p -> pool_input_ok p input ->
  exists p', pool_step input p = Some p' /\ pool_inv 0 p' /\ pool_quiet p'.
Proof.
  intros Hi Hq Hok. destruct input as [i ev| |frame|fd fr so m|ptr|on|]; cbn [pool_input_ok] in Hok.
  - destruct Hok as [s Hs]. destruct (ready_spec _ _ _ _ _ Howner 0 p i s ev Hi Hq Hs) as (p'&?&?&?&_). by exists p'.
  - by apply (timer_spec _ _ _ _ _ Howner).
  - destruct Hok as [Hf Hroom]. cbn [pool_step].
    destruct (pool_send_spec _ _ _ _ _ Howner 0 p frame ltac:(lia) (send_room _ _ p Hi Hroom) Hf) as (rc&p'&->&Hi'&Hk&_).
    cbn. exists p'. split; [done|]. split; [done|]. by eapply keeps_quiet.
  - pose proof (add_spec _ _ 0 p fd fr so m Hi Hq Hok) as Ha. cbn [pool_step].
    destruct (cloak_switchboard_add_conn_framed p fd fr so m) as [rc p']. exists p'. split; [done|]. by destruct Ha as (?&?&_).
  - destruct Hok as (v&Hl&Hroom). eexists. split; [done|]. by eapply set_valve_spec.
  - eexists. split; [done|]. split; [exact Hi|exact Hq].
  - eexists. split; [done|]. destruct (close_all_spec _ _ 0 p Hi) as (?&?&_). by split.
Qed.

Lemma pool_reachable_inv p0 p : pool_started p0 -> pool_reachable p0 p -> pool_inv 0 p /\ pool_quiet p.
Proof.
  intros H0. induction 1 as [|p input p' _ [Hi Hq] Hok Hstep]; [by apply started_inv|].
  destruct (pool_step_spec input p Hi Hq Hok) as (p2&Hp2&Hi2&Hq2). rewrite Hstep in Hp2. by injection Hp2 as ->.
Qed.

(** What holds of one connection, and what it waits for. *)
Definition slot_sound p (s : slot) : Prop :=
  let c := sl_conn s in
  let frames := delivers (rx_run (framing c) (max_frame_len c) (so_read (sl_socket s))) in
  envelopes (sl_log s) `prefix_of` frames /\
  (broken c = 0 -> envelopes (sl_log s) = frames) /\
  so_out (sl_socket s) ++ bq_contents (send_q c) = wire (framing c) (queued_frames (sl_log s)) /\
  sl_valve s = sb_valve (p_sb p) /\ max_frame_len c = sb_max_frame_len (p_sb p) /\
  (watching (p_reactor p) (c_fd c) <-> broken c = 0) /\
  (mod_reliable (R := R) -> broken c = 0 -> interest_in (p_reactor p) (c_fd c) = Some (conn_desired_interest c)) /\
  (broken c = 0 -> read_paused c <> 0 -> armed (p_reactor p) (rx_resume_timer c)) /\
  (broken c = 0 -> cloak_conn_send_queued (Some c) <> 0 -> want_writable c <> 0).

Lemma slot_inv_sound p s : slot_inv p s -> slot_quiet s -> slot_sound p s.
Proof.
  intros [(Hv&Hon&Hmax&Hset&(v&_&((Hfr&Hm&_&_&[Hsq _]&_)&[Hg (acts&Hst&He)]&[Hout _]&(_&[Hw Hmask]&Ha&Hint&Hp&_)&_))) Hb] Hq.
  injection Hon as Hone Honc. cbn [slot_world w_conn w_log k_read k_out w_reactor] in *. rewrite Hone in He.
  split; [|split; [|split; [exact Hout|split; [exact Hv|split; [exact Hmax|split; [exact Hw|split; [|split]]]]]]].
  - rewrite He. apply delivers_prefix.
    pose proof (rx_run_prefix (framing (sl_conn s)) (max_frame_len (sl_conn s)) (so_read (sl_socket s)) [] acts) as Hpre.
    rewrite app_nil_r in Hpre. by eapply Hpre.
  - intros Hz. rewrite He. f_equal. symmetry. eapply rx_run_exact; [done|exact Hst|].
    intros n a st Hs. specialize (Hq Hz). unfold slot_quiet in Hq. congruence.
  - intros Hmod Hz. cbn in Hint. rewrite <- Hint. by apply Hmask.
  - intros Hz Hrp. by apply Ha, Hp.
  - intros Hz Hne Hww. destruct (bytequeue_sizes _ Hsq) as (Hl&_). cbn in Hne. rewrite Hl, (Hset Hz Hww) in Hne. done.
Qed.

End reachable.
