(* ===== verification/SwitchboardSpec.v ===== *)
(** * What the pool of connections promises ([switchboard.h])

    The promises of the header as theorems over every reachable pool, with a
    pool of two connections whose owner answers what it receives. *)
From stdpp Require Import gmap.
From S2P Require Import Prelude Fallible Random Ring ByteQueue Valve WsFrame ReactorApi Conn Envelope ConnInv ConnRecv ConnRun Switchboard SwitchboardRng SwitchboardInv SwitchboardRun.

(** ** The smallest room *)

Lemma min_free_fold l m s :
  let f := fold_left (fun min_free s =>
    let free_space := cloak_conn_send_free (Some (sl_conn s)) in
    if free_space <? min_free then free_space else min_free) l m in
  f <= m /\ (s ∈ l -> f <= cloak_conn_send_free (Some (sl_conn s))).
Proof.
  revert m. induction l as [|t l IH]; intros m; cbn [fold_left]; [split; [lia|intros H; by apply not_elem_of_nil in H]|].
  set (m' := if cloak_conn_send_free (Some (sl_conn t)) <? m then _ else m).
  assert (Hm : m' <= m /\ m' <= cloak_conn_send_free (Some (sl_conn t))).
  { unfold m'. destruct (Z.ltb_spec (cloak_conn_send_free (Some (sl_conn t))) m); lia. }
  destruct (IH m') as [H1 H2]. cbv zeta in *. split; [lia|]. intros [->|Hin]%elem_of_cons; [lia|by apply H2].
Qed.

Lemma min_free_le sb s :
  s ∈ sb_conns sb ->
  cloak_switchboard_send_min_conn_free (Some sb) <= cloak_conn_send_free (Some (sl_conn s)).
Proof.
  unfold cloak_switchboard_send_min_conn_free. destruct (sb_conns sb) as [|t l]; [intros H; by apply not_elem_of_nil in H|].
  destruct (min_free_fold l (cloak_conn_send_free (Some (sl_conn t))) s) as [H1 H2].
  intros [->|Hin]%elem_of_cons; [exact H1|by apply H2].
Qed.

Section spec.
Context {R U : Type} {RR : Reactor R} {RL : ReactorLaws R}.
Implicit Types p : pool_world R U.
Variable unlucky : nat.
Variable budget : U -> Z.
Variable on_envelope : bytes -> pool_world R U -> option (pool_world R U).
Variable on_broken : pool_world R U -> option (pool_world R U).
Variable on_drained : pool_world R U -> option (pool_world R U).
Hypothesis Howner : pool_owner_ok unlucky budget on_envelope on_broken on_drained.
#[local] Abbreviation pool_step := (pool_step unlucky on_envelope on_broken on_drained).
#[local] Abbreviation reachable := (pool_reachable unlucky budget on_envelope on_broken on_drained).

(** C20: invariant.  However events of the loop, timers, sends, new
    connections and new valves follow one another, and whatever the owner
    does in the callbacks: the next step returns; the pool is broken as soon
    as one of its connections is, and has told its owner once; the
    connections have descriptors of their own; and each connection handed out
    exactly the frames in the bytes read, put on the wire exactly the frames
    it accepted, meters into the pool's valve and waits for something that
    will happen. *)
Theorem pool_always_sound p0 p :
  pool_started unlucky budget p0 -> reachable p0 p ->
  (forall input, pool_input_ok budget p input -> is_Some (pool_step input p)) /\
  (sb_broken (p_sb p) = 0 -> forall i s, sb_conns (p_sb p) !! i = Some s -> broken (sl_conn s) = 0) /\
  (sb_broken (p_sb p) <> 0 -> some_broken (sb_conns (p_sb p))) /\
  pool_reports (p_log p) = (if negb (sb_broken (p_sb p) =? 0) && sb_on_broken (p_sb p) then [PoolBroken] else []) /\
  NoDup (fds (sb_conns (p_sb p))) /\
  forall i s, sb_conns (p_sb p) !! i = Some s -> slot_sound p s.
Proof.
  intros H0 Hr. destruct (pool_reachable_inv _ _ _ _ _ Howner p0 p H0 Hr) as [Hi Hq].
  pose proof Hi as [(_&_&Hfds&_&_&Hsome&Hrep&_) Hslots].
  split; [|split; [|split; [exact Hsome|split; [exact Hrep|split; [exact Hfds|]]]]].
  - intros input Hok. destruct (pool_step_spec _ _ _ _ _ Howner input p Hi Hq Hok) as (p'&->&_). done.
  - intros Hz i s Hs.
    destruct (Z.eq_dec (broken (sl_conn s)) 0) as [|Hn]; [done|]. by destruct (proj2 (Hslots i s Hs) Hn).
  - intros i s Hs. by apply slot_inv_sound; [apply (Hslots i)|apply (Hq i)].
Qed.

(** C21: safety.  A send to any reachable pool returns.  The frame goes to the
    connection that the unbiased pick names.  Whatever callbacks are
    installed: until the owner is called back, no other connection, no valve,
    nobody else's watch or timer and nothing of the owner's has changed; the
    owner is called at most once and last of all, with the queue of that
    connection drained or with that connection broken.  0 means that the frame
    was queued there whole, and then exactly the bytes of its envelope, for
    the framing of that connection, are charged to the valve the owner left;
    -1 means that the pool is broken or empty, and then nothing is charged. *)
Theorem pool_send_exact p0 p frame :
  pool_started unlucky budget p0 -> reachable p0 p -> pool_input_ok budget p (PoolSend frame) ->
  exists rc p', cloak_switchboard_send on_broken on_drained (pick_fuel unlucky) p frame = Some (rc, p') /\
    pool_keeps p p' /\ pool_sent unlucky on_broken on_drained p frame rc p'.
Proof.
  intros H0 Hr [Hf Hroom]. destruct (pool_reachable_inv _ _ _ _ _ Howner p0 p H0 Hr) as [Hi _].
  destruct (pool_send_spec _ _ _ _ _ Howner 0 p frame ltac:(lia) (send_room _ _ p Hi Hroom) Hf)
    as (rc&p'&Hs&_&Hk&Hsent). by exists rc, p'.
Qed.

(** [cloak_switchboard_send_min_conn_free] is what its
    documentation says: a frame whose envelope fits in it on a pool that is
    not broken enters the queue of whichever connection the pick lands on. *)
Theorem pool_min_free_guarantee p0 p frame :
  pool_started unlucky budget p0 -> reachable p0 p -> pool_input_ok budget p (PoolSend frame) ->
  sb_broken (p_sb p) = 0 -> sb_conns (p_sb p) <> [] -> zlen frame <= sb_max_frame_len (p_sb p) ->
  (forall s, s ∈ sb_conns (p_sb p) ->
     cloak_conn_envelope_len (Some (sl_conn s)) (zlen frame) <=
       cloak_switchboard_send_min_conn_free (Some (p_sb p))) ->
  exists rc p' i s s' key more,
    cloak_switchboard_send on_broken on_drained (pick_fuel unlucky) p frame = Some (rc, p') /\
    sb_conns (p_sb p) !! i = Some s /\ sb_conns (p_sb p') !! i = Some s' /\
    sl_log s' = sl_log s ++ Queued CLOAK_WS_OP_BINARY key frame :: more.
Proof.
  intros H0 Hr [Hf Hroom] Hz Hne Hlen Hfit. destruct (pool_reachable_inv _ _ _ _ _ Howner p0 p H0 Hr) as [Hi _].
  destruct (pool_send_spec _ _ _ _ _ Howner 0 p frame ltac:(lia) (send_room _ _ p Hi Hroom) Hf)
    as (rc&p'&Hs&_&_&Hsent). unfold pool_sent in Hsent.
  rewrite Hz, bool_decide_eq_false_2 in Hsent by done. cbn [negb orb Z.eqb] in Hsent.
  destruct Hsent as (i&sb&r&s&s'&log&p2&_&Hsi&Hsi'&_&Hacc&_).
  destruct Hacc as (key&more&Hlog); [|by exists rc, p', i, s, s', key, more].
  right. pose proof (proj2 Hi i s Hsi) as [(_&_&Hmax&_) Hb]. pose proof (list_elem_of_lookup_2 _ _ _ Hsi) as Hin.
  split; [destruct (Z.eq_dec (broken (sl_conn s)) 0) as [|Hn]; [done|by destruct (Hb Hn)]|]. split; [congruence|].
  etrans; [by apply Hfit|by apply min_free_le].
Qed.

(** Closing the pool gives everything back and nothing else:
    every descriptor is closed, once, none of the connections' watches and
    timers is left in the event loop and every other is, the pool is empty,
    closing again does nothing, and [cloak_switchboard_destroy] leaves a
    zeroed object. *)
Theorem pool_close_gives_back p0 p :
  pool_started unlucky budget p0 -> reachable p0 p ->
  let p' := cloak_switchboard_close_all p in
  sb_conns (p_sb p') = [] /\
  p_log p' = p_log p ++ map FdClosed (fds (sb_conns (p_sb p))) /\ NoDup (fds (sb_conns (p_sb p))) /\
  (forall f, watching (p_reactor p') f <-> watching (p_reactor p) f /\ (f ∉ fds (sb_conns (p_sb p)))) /\
  (forall t, armed (p_reactor p') t <-> armed (p_reactor p) t /\ (t ∉ map timer_of (sb_conns (p_sb p)))) /\
  cloak_switchboard_close_all p' = p' /\
  cloak_switchboard_destroy p = set_sb p' zero_switchboard /\
  reachable p0 p'.
Proof.
  intros H0 Hr p'. destruct (pool_reachable_inv _ _ _ _ _ Howner p0 p H0 Hr) as [Hi _].
  destruct (close_all_spec _ _ 0 p Hi) as (_&_&Hnil&Hlog&Hw&Ht). fold p' in Hnil, Hlog, Hw, Ht.
  split; [done|]. split; [done|]. split; [apply Hi|].
  split; [intros f; by apply unwatched_watching|]. split; [exact Ht|].
  split; [|split; [done|by apply (pool_next _ _ _ _ _ p0 p PoolCloseAll)]].
  unfold cloak_switchboard_close_all at 1. rewrite Hnil. cbn [close_conns].
  destruct p' as [[] ? ? ? ? ? ?]. cbn in *. by subst.
Qed.

End spec.

(** ** Concrete pools *)

Section owners.
Context {R : Type} {RR : Reactor R} {RL : ReactorLaws R}.
Variable unlucky : nat.

(** An owner that does nothing, and one that sends the next [p_user] frames it
    receives back through the pool. *)
Definition idle_pool {U} (p : pool_world R U) : option (pool_world R U) := Some p.
Definition set_user {U} (p : pool_world R U) (u : U) : pool_world R U :=
  PoolWorld (p_sb p) (p_reactor p) (p_valves p) (p_clock p) (p_rand p) (p_log p) u.
Definition echo_pool (frame : bytes) (p : pool_world R nat) : option (pool_world R nat) :=
  match p_user p with
  | O => Some p
  | S n =>
      '(_, p) ← cloak_switchboard_send idle_pool idle_pool (pick_fuel unlucky) (set_user p n) frame; Some p
  end.
Definition echo_budget (n : nat) : Z := Z.of_nat n * 16648.

Lemma idle_pool_owner {U} (budget : U -> Z) : pool_owner_ok unlucky budget (fun _ p => Some p) idle_pool idle_pool.
Proof.
  split; intros reserve; [intros frame p Hi _ _|intros p [(H1&H2&H3&H4&H5&H6&H7&_) Hs] _|intros p Hi];
    exists p; (split; [done|]); (split; [|apply pool_keeps_refl]); [exact Hi| |exact Hi].
  split; [|exact Hs]. do 7 (split; [assumption|]). by split.
Qed.

Lemma echo_pool_owner : pool_owner_ok unlucky echo_budget echo_pool idle_pool idle_pool.
Proof.
  split; [|apply idle_pool_owner..]. intros reserve frame p Hi Hf _. unfold echo_pool.
  destruct (p_user p) as [|n] eqn:Hu; [exists p; split; [done|]; split; [done|apply pool_keeps_refl]|].
  pose proof Hi as [((H1&H2&H3&H4&H5&[Hm0 Hm]&Hc)&(v&Hl&(R1&R2&R3&R4&R5&R6&R7))&Hrest) Hslots].
  unfold CLOAK_CONN_MAX_FRAME_LEN in Hm. rewrite Hu in *. unfold echo_budget in *.
  assert (Hi' : pool_inv unlucky echo_budget (reserve + largest_envelope (p_sb (set_user p n))) (set_user p n)).
  { split; [|exact Hslots]. split; [apply Hi|]. split; [|exact Hrest]. exists v. split; [exact Hl|].
    do 4 (split; [done|]). unfold largest_envelope, echo_budget. cbn [p_user set_user p_sb].
    split; [lia|]. split; [lia|]. intros Hv. specialize (R7 Hv). lia. }
  destruct (pool_send_spec _ _ _ _ _ (idle_pool_owner echo_budget) reserve (set_user p n) frame R5 Hi' Hf)
    as (rc&p'&->&Hi2&Hk&_). cbn [mbind option_bind]. by exists p'.
Qed.

End owners.

(** A metered pool of a TLS and a WebSocket connection; a record arrives on
    the first, and its frame is sent back on one of the two. *)
Definition plain_valve : cloak_valve_t := Valve 0 0 (Bucket 0 0 0 0) (Bucket 0 0 0 0) None.
Definition demo_pool : pool_world reactor_lists nat :=
  PoolWorld (cloak_switchboard_init 20 100 true true).2 (ReactorLists [] [] 1) {[7 := plain_valve]}
    (fun _ => 0) (fun _ => 7) [] 5%nat.
Definition demo_socket (data : list bytes) : socket := Socket data ReadAgain [] [SendTook 4; SendAgain] [].
Definition demo_blocks (fr : Z) : pool_memory := PoolMemory true true (demo_memory fr 20).
Definition demo_add (fd fr : Z) (data : list bytes) : pool_input :=
  PoolAdd fd fr (demo_socket data) (demo_blocks fr).
Definition demo_record : list bytes := [[23; 3; 3; 0]; [2; 8; 9; 23]].

Definition demo_pool_step := pool_step 1 (echo_pool 1) (@idle_pool reactor_lists nat) (@idle_pool reactor_lists nat).
Definition demo_next (input : pool_input) (p : pool_world reactor_lists nat) : pool_world reactor_lists nat :=
  default p (demo_pool_step input p).

Definition demo_pool1 := demo_next (demo_add 5 CLOAK_CONN_FRAMING_TLS_RECORD demo_record) demo_pool.
Definition demo_pool2 := demo_next (PoolSetValve (Some 7)) demo_pool1.
Definition demo_pool3 := demo_next (demo_add 6 CLOAK_CONN_FRAMING_WS_CLIENT []) demo_pool2.
Definition demo_pool4 := demo_next (PoolReady 0 CLOAK_REACTOR_READABLE) demo_pool3.

Lemma demo_pool_started : pool_started 1 echo_budget demo_pool.
Proof.
  exists 20, 100, true, true. do 2 (split; [lia|]). split; [done|]. split; [done|].
  split; [intros c; unfold demo_pool; cbn; lia|]. split; [intros i; unfold is_byte; cbn; lia|].
  split; [intros pos; exists 0%nat; split; [lia|cbn; lia]|]. split; [done|]. unfold echo_budget. cbn. lia.
Qed.

Lemma demo_add_ok fd fr data (p : pool_world reactor_lists nat) :
  (fd ∉ fds (sb_conns (p_sb p))) -> framing_ok fr ->
  (sb_max_frame_len (p_sb p), sb_conn_send_queue_cap (p_sb p)) = (20, 100) ->
  Forall all_bytes data ->
  (forall v, valve_load (p_valves p) (sb_valve (p_sb p)) = Some v ->
     cloak_valve_rx v + still_coming (sb_conns (p_sb p)) + zlen (concat data) <= INT64_MAX) ->
  zlen (sb_conns (p_sb p)) < 2147483648 -> pool_input_ok echo_budget p (demo_add fd fr data).
Proof.
  intros Hfd Hfr Hsz Hdata Hv Hlen. injection Hsz as Hm Hc. cbn [pool_input_ok demo_add]. unfold add_ok. rewrite Hm, Hc.
  split; [exact Hfd|]. split; [|split; [reflexivity|split; [exact Hdata|split; [exact Hv|exact Hlen]]]].
  destruct Hfr as [->|[->| ->]]; (split; [|split]); (split; [vm_compute; reflexivity|vm_compute; discriminate]).
Qed.

Lemma demo_pool_reachable : pool_reachable 1 echo_budget (echo_pool 1) idle_pool idle_pool demo_pool demo_pool4.
Proof.
  assert (H1 : pool_reachable 1 echo_budget (echo_pool 1) idle_pool idle_pool demo_pool demo_pool1).
  { eapply (pool_next _ _ _ _ _ demo_pool demo_pool (demo_add 5 CLOAK_CONN_FRAMING_TLS_RECORD demo_record)); [apply pool_here| |vm_compute; reflexivity].
    apply demo_add_ok; [apply not_elem_of_nil|by left|done| | |done].
    - repeat (apply Forall_cons; split; [repeat (apply Forall_cons; split; [done|]); apply Forall_nil_2|]). apply Forall_nil_2.
    - intros v [= <-]. vm_compute. done. }
  assert (H2 : pool_reachable 1 echo_budget (echo_pool 1) idle_pool idle_pool demo_pool demo_pool2).
  { eapply (pool_next _ _ _ _ _ demo_pool demo_pool1 (PoolSetValve (Some 7))); [exact H1| |vm_compute; reflexivity].
    exists (Some plain_valve). split; [done|]. unfold pool_room. split; [by split; split; cbn; lia|].
    vm_compute. split_and!; done. }
  assert (H3 : pool_reachable 1 echo_budget (echo_pool 1) idle_pool idle_pool demo_pool demo_pool3).
  { eapply (pool_next _ _ _ _ _ demo_pool demo_pool2 (demo_add 6 CLOAK_CONN_FRAMING_WS_CLIENT [])); [exact H2| |vm_compute; reflexivity].
    apply demo_add_ok; [|by right; left|done|done| |done].
    - change (6 ∉ [5]). intros H%list_elem_of_singleton. done.
    - intros v Hv. vm_compute in Hv. injection Hv as <-. vm_compute. done. }
  eapply (pool_next _ _ _ _ _ demo_pool demo_pool3 (PoolReady 0 CLOAK_REACTOR_READABLE)); [exact H3| |vm_compute; reflexivity].
  vm_compute. by eexists.
Qed.

(** The frame came back through the second connection, masked, in four bytes
    so far, and its eight bytes were billed. *)
Example demo_pool_echo :
  map (fun s => (envelopes (sl_log s), so_out (sl_socket s), cloak_conn_send_queued (Some (sl_conn s))))
    (sb_conns (p_sb demo_pool4)) = [([[8; 9]], [], 0); ([], [130; 130; 7; 7], 4)] /\
  (v_rx <$> p_valves demo_pool4 !! 7) = Some 8 /\ (v_tx <$> p_valves demo_pool4 !! 7) = Some 8.
Proof. by vm_compute. Qed.

Lemma pool_always_sound_witness :
  is_Some (demo_pool_step (PoolReady 1 CLOAK_REACTOR_WRITABLE) demo_pool4) /\
  fds (sb_conns (p_sb demo_pool4)) = [5; 6] /\
  forall i s, sb_conns (p_sb demo_pool4) !! i = Some s -> slot_sound demo_pool4 s.
Proof.
  destruct (pool_always_sound 1 echo_budget (echo_pool 1) idle_pool idle_pool (echo_pool_owner 1) demo_pool demo_pool4
    demo_pool_started demo_pool_reachable) as (Hstep&_&_&_&_&Hs).
  split; [|split; [vm_compute; reflexivity|exact Hs]].
  apply (Hstep (PoolReady 1 CLOAK_REACTOR_WRITABLE)). vm_compute. by eexists.
Defined.

Lemma demo_send_ok p frame v :
  p_valves p !! 7 = Some v -> v_tx v = 8 -> sb_valve (p_sb p) = Some 7 -> sb_max_frame_len (p_sb p) = 20 ->
  p_user p = 4%nat -> all_bytes frame -> pool_input_ok (R := reactor_lists) echo_budget p (PoolSend frame).
Proof.
  intros Hv Htx Hsv Hm Hu Hf. split; [exact Hf|]. intros v'. rewrite Hsv, Hu. unfold largest_envelope. rewrite Hm. cbn. rewrite Hv. intros [= <-].
  cbn. rewrite Htx. unfold echo_budget, INT64_MAX. lia.
Qed.

Lemma demo_pool4_send frame : all_bytes frame -> pool_input_ok echo_budget demo_pool4 (PoolSend frame).
Proof.
  intros Hf. destruct (p_valves demo_pool4 !! 7) as [v|] eqn:E; [|by vm_compute in E].
  apply (demo_send_ok demo_pool4 frame v E); [|vm_compute; reflexivity..|exact Hf].
  change (v_tx v) with (default 0 (v_tx <$> Some v)). rewrite <- E. by vm_compute.
Qed.

(** As sessions do, the owner asks to hear of drained queues. *)
Definition demo_pool5 := demo_next (PoolSetDrained true) demo_pool4.

Lemma demo_pool5_send frame : all_bytes frame -> pool_input_ok echo_budget demo_pool5 (PoolSend frame).
Proof.
  intros Hf. destruct (p_valves demo_pool5 !! 7) as [v|] eqn:E; [|by vm_compute in E].
  apply (demo_send_ok demo_pool5 frame v E); [|vm_compute; reflexivity..|exact Hf].
  change (v_tx v) with (default 0 (v_tx <$> Some v)). rewrite <- E. by vm_compute.
Qed.

Lemma pool_send_exact_witness :
  exists p', cloak_switchboard_send idle_pool idle_pool (pick_fuel 1) demo_pool5 [1; 2; 3] = Some (0, p') /\
    sb_on_drained (p_sb demo_pool5) = true /\ (v_tx <$> p_valves p' !! 7) = Some 17 /\
    pool_sent 1 idle_pool idle_pool demo_pool5 [1; 2; 3] 0 p'.
Proof.
  destruct (pool_send_exact 1 echo_budget (echo_pool 1) idle_pool idle_pool (echo_pool_owner 1) demo_pool demo_pool5
    [1; 2; 3] demo_pool_started) as (rc&p'&Hs&_&Hsent).
  { eapply (pool_next _ _ _ _ _ demo_pool demo_pool4 (PoolSetDrained true)); [exact demo_pool_reachable|done|vm_compute; reflexivity]. }
  { apply demo_pool5_send. repeat (apply Forall_cons; split; [done|]). apply Forall_nil_2. }
  exists p'. assert (Hrc : (fun x => (x.1, v_tx <$> p_valves x.2 !! 7)) <$>
    cloak_switchboard_send idle_pool idle_pool (pick_fuel 1) demo_pool5 [1; 2; 3] = Some (0, Some 17)) by (vm_compute; reflexivity).
  rewrite Hs in Hrc. cbn [fmap option_fmap option_map fst snd] in Hrc. injection Hrc as -> Hv.
  split; [done|]. split; [by vm_compute|]. split; [exact Hv|exact Hsent].
Defined.

Definition all_fit (sb : cloak_switchboard) (n : Z) : bool :=
  forallb (fun s => cloak_conn_envelope_len (Some (sl_conn s)) n <=? cloak_switchboard_send_min_conn_free (Some sb))
    (sb_conns sb).

Lemma all_fit_spec sb n :
  all_fit sb n = true -> forall s, s ∈ sb_conns sb ->
  cloak_conn_envelope_len (Some (sl_conn s)) n <= cloak_switchboard_send_min_conn_free (Some sb).
Proof. intros H s Hs. apply Z.leb_le. by apply (proj1 (forallb_forall _ _) H), list_elem_of_In. Qed.

(** 96 bytes are free on the second connection, 100 on the first. *)
Lemma pool_min_free_guarantee_witness :
  cloak_switchboard_send_min_conn_free (Some (p_sb demo_pool4)) = 96 /\
  exists rc p' i s s' key more,
    cloak_switchboard_send idle_pool idle_pool (pick_fuel 1) demo_pool4 (replicate 20 1) = Some (rc, p') /\
    sb_conns (p_sb demo_pool4) !! i = Some s /\ sb_conns (p_sb p') !! i = Some s' /\
    sl_log s' = sl_log s ++ Queued CLOAK_WS_OP_BINARY key (replicate 20 1) :: more.
Proof.
  split; [vm_compute; reflexivity|].
  apply (pool_min_free_guarantee 1 echo_budget (echo_pool 1) idle_pool idle_pool (echo_pool_owner 1) demo_pool demo_pool4);
    [apply demo_pool_started|apply demo_pool_reachable|apply demo_pool4_send; by apply Forall_replicate
    |vm_compute; reflexivity|by vm_compute|by vm_compute|].
  apply all_fit_spec. vm_compute. reflexivity.
Defined.

Lemma pool_close_gives_back_witness :
  let p' := cloak_switchboard_close_all demo_pool4 in
  sb_conns (p_sb p') = [] /\ p_log p' = [FdClosed 5; FdClosed 6] /\ ~ watching (p_reactor p') 5 /\
  cloak_switchboard_close_all p' = p'.
Proof.
  destruct (pool_close_gives_back 1 echo_budget (echo_pool 1) idle_pool idle_pool (echo_pool_owner 1) demo_pool demo_pool4
    demo_pool_started demo_pool_reachable) as (Hnil&Hlog&_&Hw&_&Hagain&_).
  split; [exact Hnil|]. split; [rewrite Hlog; vm_compute; reflexivity|]. split; [|exact Hagain].
  rewrite Hw. intros [_ Hx]. apply Hx.
  assert (Hf : fds (sb_conns (p_sb demo_pool4)) = [5; 6]) by (vm_compute; reflexivity). rewrite Hf. by left.
Defined.
