(* ===== verification/Session.v ===== *)
(** * A session ([libcloak-mux/src/session.c])

    A session routes the frames that its pool of connections ([Switchboard])
    receives to streams ([Stream]), through the table of [StrmTab], and gives
    the streams the pool to send through.  The session is the owner of the
    pool: its state is the [p_user] of the pool's world, its three adapters are
    the pool's callbacks, and every function here acts on the whole world, so
    that a send that breaks a connection closes the session underneath the
    caller, as in the source.

    Stream entries live on a heap: a pointer is an address that was never
    handed out before, and an access through a freed one is [None].  The
    application's callbacks are parameters; they see the world and change it. *)
From stdpp Require Import gmap.
From S2P Require Import Prelude Fallible Random Frame Aead ByteQueue MsgQueue Heap Stream StrmTab Valve ReactorApi Conn Switchboard.

(** A [cloak_session_stream_entry_t]. *)
Record stream_entry := StreamEntry { en_stream : cloak_stream_t; en_retired : Z }.

(** The callbacks a session gives to the event loop. *)
Inductive session_timer := CheckTimeout | DeferredTeardown | TeardownSweep.

(** The reactor and the pool are in the world around; the callbacks of the
    application are set or NULL. *)
Record cloak_session := Session {
  ss_id : Z;
  ss_ordering : Z;
  ss_obfuscator : cloak_obfuscator_t;
  ss_streams : cloak_strmtab_t;
  ss_next_stream_id : Z;
  ss_active_stream_count : Z;
  ss_max_on_wire_size : Z;
  ss_stream_recv_capacity : Z;
  ss_stream_max_pending_frames : Z;
  ss_inactivity_timeout_ms : Z;
  ss_inactivity_timer_id : Z;
  ss_teardown_timer_id : Z;
  ss_closed : Z;
  ss_on_new_stream : bool;
  ss_on_broken : bool;
  ss_on_writable : bool;
  ss_on_stream_data : bool
}.

Definition zero_session : cloak_session :=
  Session 0 0 (Obfuscator 0 []) (Strmtab [] 0 0) 0 0 0 0 0 0 0 0 0 false false false false.

(** Calls of the application. *)
Inductive session_event :=
| NewStream (ptr id : Z)
| StreamData (ptr : Z)
| SessionWritable
| SessionBroken.

(** The session with what it allocated, the answers of [malloc] (successes
    when the script is over), the callbacks of its timers in the event loop,
    the record of its events and the application's own state. *)
Record session_user (A : Type) := SessionUser {
  u_sesh : cloak_session;
  u_heap : gmap Z stream_entry;
  u_next : Z;
  u_mem : list bool;
  u_timers : gmap Z session_timer;
  u_log : list session_event;
  u_app : A
}.
#[global] Arguments SessionUser {A}.
#[global] Arguments u_sesh {A}.
#[global] Arguments u_heap {A}.
#[global] Arguments u_next {A}.
#[global] Arguments u_mem {A}.
#[global] Arguments u_timers {A}.
#[global] Arguments u_log {A}.
#[global] Arguments u_app {A}.

Record cloak_session_config := SessionConfig {
  sc_ordering : Z;
  sc_obfuscator : cloak_obfuscator_t;
  sc_max_on_wire_size : Z;
  sc_stream_recv_capacity : Z;
  sc_stream_max_pending_frames : Z;
  sc_conn_send_queue_cap : Z;
  sc_inactivity_timeout_ms : Z;
  sc_on_new_stream : bool;
  sc_on_broken : bool;
  sc_on_writable : bool;
  sc_on_stream_data : bool;
  sc_valve : option Z
}.

(** ** Updates of single fields *)

Definition with_streams (s : cloak_session) (t : cloak_strmtab_t) (count : Z) : cloak_session :=
  Session (ss_id s) (ss_ordering s) (ss_obfuscator s) t (ss_next_stream_id s) count
    (ss_max_on_wire_size s) (ss_stream_recv_capacity s) (ss_stream_max_pending_frames s)
    (ss_inactivity_timeout_ms s) (ss_inactivity_timer_id s) (ss_teardown_timer_id s) (ss_closed s)
    (ss_on_new_stream s) (ss_on_broken s) (ss_on_writable s) (ss_on_stream_data s).
Definition with_next_id (s : cloak_session) (id : Z) : cloak_session :=
  Session (ss_id s) (ss_ordering s) (ss_obfuscator s) (ss_streams s) id (ss_active_stream_count s)
    (ss_max_on_wire_size s) (ss_stream_recv_capacity s) (ss_stream_max_pending_frames s)
    (ss_inactivity_timeout_ms s) (ss_inactivity_timer_id s) (ss_teardown_timer_id s) (ss_closed s)
    (ss_on_new_stream s) (ss_on_broken s) (ss_on_writable s) (ss_on_stream_data s).
Definition with_timer_ids (s : cloak_session) (inactivity teardown closed : Z) : cloak_session :=
  Session (ss_id s) (ss_ordering s) (ss_obfuscator s) (ss_streams s) (ss_next_stream_id s) (ss_active_stream_count s)
    (ss_max_on_wire_size s) (ss_stream_recv_capacity s) (ss_stream_max_pending_frames s)
    (ss_inactivity_timeout_ms s) inactivity teardown closed
    (ss_on_new_stream s) (ss_on_broken s) (ss_on_writable s) (ss_on_stream_data s).

Section session.
Context {R A : Type} {RR : Reactor R} {EV : Evp}.
#[local] Abbreviation world := (pool_world R (session_user A)).
Implicit Types p : world.

Definition set_user p (u : session_user A) : world :=
  PoolWorld (p_sb p) (p_reactor p) (p_valves p) (p_clock p) (p_rand p) (p_log p) u.
Definition sesh p : cloak_session := u_sesh (p_user p).
Definition set_sesh p (s : cloak_session) : world :=
  let u := p_user p in
  set_user p (SessionUser s (u_heap u) (u_next u) (u_mem u) (u_timers u) (u_log u) (u_app u)).
Definition set_heap p (h : gmap Z stream_entry) (next : Z) : world :=
  let u := p_user p in
  set_user p (SessionUser (u_sesh u) h next (u_mem u) (u_timers u) (u_log u) (u_app u)).
Definition session_note p (e : session_event) : world :=
  let u := p_user p in
  set_user p (SessionUser (u_sesh u) (u_heap u) (u_next u) (u_mem u) (u_timers u) (u_log u ++ [e]) (u_app u)).

(** One answer of the allocator. *)
Definition session_malloc p : bool * world :=
  let u := p_user p in
  (hd true (u_mem u),
   set_user p (SessionUser (u_sesh u) (u_heap u) (u_next u) (tl (u_mem u)) (u_timers u) (u_log u) (u_app u))).

(** A block of [size] bytes; it holds anything, here zeros. *)
Definition block (ok : bool) (size : Z) : option bytes :=
  if ok then Some (replicate (Z.to_nat size) 0) else None.

(** What a pointer to a stream points to. *)
Definition entry_at p (ptr : Z) : option stream_entry := u_heap (p_user p) !! ptr.
Definition store_entry p (ptr : Z) (e : stream_entry) : world :=
  set_heap p (<[ptr := e]> (u_heap (p_user p))) (u_next (p_user p)).
Definition store_stream p (ptr : Z) (e : stream_entry) (s : cloak_stream_t) : world :=
  store_entry p ptr (StreamEntry s (en_retired e)).

(** ** Timers *)

Definition session_add_timer p (delay_ms : Z) (cb : session_timer) : Z * world :=
  let '(id, r) := r_add_timer (p_reactor p) delay_ms in
  let u := p_user p in
  let timers := if id =? CLOAK_TIMER_INVALID then u_timers u else <[id := cb]> (u_timers u) in
  (id, set_user (set_pool_reactor p r)
         (SessionUser (u_sesh u) (u_heap u) (u_next u) (u_mem u) timers (u_log u) (u_app u))).

Definition session_cancel_timer p (id : Z) : world :=
  set_pool_reactor p (r_cancel_timer (p_reactor p) id).

Definition session_reschedule_inactivity_timer p : world :=
  let p := session_cancel_timer p (ss_inactivity_timer_id (sesh p)) in
  let '(id, p) := session_add_timer p (ss_inactivity_timeout_ms (sesh p)) CheckTimeout in
  set_sesh p (with_timer_ids (sesh p) id (ss_teardown_timer_id (sesh p)) (ss_closed (sesh p))).

(** ** Closing *)

Definition session_close_internal p : Z * world :=
  if negb (ss_closed (sesh p) =? 0) then (0, p)
  else
    let p := set_sesh p (with_timer_ids (sesh p) (ss_inactivity_timer_id (sesh p)) (ss_teardown_timer_id (sesh p)) 1) in
    (1, session_cancel_timer p (ss_inactivity_timer_id (sesh p))).

Definition session_schedule_deferred_teardown p : world :=
  let '(id, p) := session_add_timer p 0 DeferredTeardown in
  set_sesh p (with_timer_ids (sesh p) (ss_inactivity_timer_id (sesh p)) id (ss_closed (sesh p))).

Definition session_passive_close p : world :=
  let '(done, p) := session_close_internal p in
  if done =? 0 then p else session_schedule_deferred_teardown p.

Definition session_on_switchboard_broken p : option world := Some (session_passive_close p).

(** ** Streams *)

Definition session_retire_stream p (ptr : Z) : option world :=
  e ← entry_at p ptr;
  if negb (en_retired e =? 0) then Some p
  else
    let p := store_entry p ptr (StreamEntry (en_stream e) 1) in
    '(_, t) ← cloak_strmtab_tombstone (ss_streams (sesh p)) (st_id (en_stream e));
    let p := set_sesh p (with_streams (sesh p) t (u64 (ss_active_stream_count (sesh p) - 1))) in
    Some (if (ss_active_stream_count (sesh p) =? 0) && (ss_closed (sesh p) =? 0)
          then session_reschedule_inactivity_timer p else p).

(** [cloak_stream_destroy] touches the stream before the entry is freed. *)
Definition session_destroy_stream_iter_cb (key value : Z) p : option world :=
  _ ← entry_at p value;
  let p := set_heap p (delete value (u_heap (p_user p))) (u_next (p_user p)) in
  '(_, t) ← cloak_strmtab_tombstone (ss_streams (sesh p)) key;
  Some (set_sesh p (with_streams (sesh p) t (u64 (ss_active_stream_count (sesh p) - 1)))).

Fixpoint destroy_streams (calls : list (Z * Z)) p : option world :=
  match calls with
  | [] => Some p
  | (key, value) :: calls => p ← session_destroy_stream_iter_cb key value p; destroy_streams calls p
  end.

(** The callback writes only the slot it is called for, so the calls are those
    of the table at the start. *)
Definition session_free_all_active_streams p : option world :=
  destroy_streams (cloak_strmtab_for_each_active (ss_streams (sesh p))) p.

(** What [session_on_envelope] and [cloak_session_open_stream] have in common:
    a new entry, the stream in it, its place in the table; [None] inside when
    one of the steps failed. *)
Definition session_create_stream (id : Z) p : option (option Z * world) :=
  let '(ok, p) := session_malloc p in
  if negb ok then Some (None, p)
  else
    let '(buf_ok, p) := session_malloc p in
    let '(queue_ok, p) := session_malloc p in
    let s := sesh p in
    let '(rc, stream) :=
      cloak_stream_init id (ss_obfuscator s) (ss_max_on_wire_size s) (ss_stream_recv_capacity s)
        (ss_stream_max_pending_frames s) (ss_ordering s) false
        (block buf_ok (ss_max_on_wire_size s)) (block queue_ok (ss_stream_recv_capacity s)) in
    if negb (rc =? 0) then Some (None, p)
    else
      let '(calloc_ok, p) := session_malloc p in
      let ptr := u_next (p_user p) in
      '(rc, t) ← cloak_strmtab_insert_active (ss_streams (sesh p)) id ptr calloc_ok;
      if negb (rc =? 0) then Some (None, set_sesh p (with_streams (sesh p) t (ss_active_stream_count (sesh p))))
      else
        let p := set_heap p (<[ptr := StreamEntry stream 0]> (u_heap (p_user p))) (ptr + 1) in
        Some (Some ptr, set_sesh p (with_streams (sesh p) t (u64 (ss_active_stream_count (sesh p) + 1)))).

(** [cloak_stream_feed_frame] on the stream at [ptr]. *)
Definition session_feed (ptr : Z) (frame : cloak_frame_t) p : option (Z * world) :=
  e ← entry_at p ptr;
  let '(malloc_ok, p) := session_malloc p in
  let '(realloc_ok, p) := session_malloc p in
  '(rc, s) ← cloak_stream_feed_frame (en_stream e) frame malloc_ok realloc_ok;
  Some (rc, store_stream p ptr e s).

(** [cloak_stream_read] on the stream at [ptr]. *)
Definition session_stream_read (ptr out_cap : Z) p : option (Z * bytes * world) :=
  e ← entry_at p ptr;
  '(rc, out, s) ← cloak_stream_read (en_stream e) out_cap;
  Some (rc, out, store_stream p ptr e s).

(** ** The application's callbacks *)
Variable on_new_stream : Z -> world -> option world.
Variable on_stream_data : Z -> world -> option world.
Variable on_writable : world -> option world.
Variable on_broken : world -> option world.

(** Bounds on how often the rejection samplers of the pool and of the frame
    codec draw. *)
Variables pool_fuel frame_fuel : nat.

Definition session_switchboard_drained_adapter p : option world :=
  if ss_on_writable (sesh p) then on_writable (session_note p SessionWritable) else Some p.

Definition session_stream_sink_adapter (bytes : bytes) p : option (Z * world) :=
  cloak_switchboard_send session_on_switchboard_broken session_switchboard_drained_adapter pool_fuel p bytes.

(** ** Sending *)

(** [cloak_stream_send_closing] on the stream at [ptr]: the stream is in its
    new state before the sink is called, and not looked at afterwards. *)
Definition session_send_closing (ptr closing_type : Z) p : option (Z * world) :=
  e ← entry_at p ptr;
  '(rc, s, r, msgs) ← cloak_stream_send_closing (fun msg w => (0, w ++ [msg])) frame_fuel (en_stream e)
                        closing_type (p_rand p) [];
  let p := set_pool_rand (store_stream p ptr e s) r in
  match msgs with
  | [] => Some (rc, p)
  | msg :: _ =>
      '(rc, p) ← session_stream_sink_adapter msg p;
      Some (if negb (rc =? 0) then -1 else 0, p)
  end.

(** The loop of [cloak_stream_write] on the stream at [ptr], which the sink may
    change underneath it. *)
Fixpoint session_write_loop (fuel : nat) (ptr : Z) (input : bytes) (n : Z) p : option (Z * world) :=
  let in_len := zlen input in
  if negb (n <? in_len) then Some (in_len, p)
  else match fuel with
  | O => None
  | S fuel' =>
      e ← entry_at p ptr;
      let s := en_stream e in
      let remaining := u64 (in_len - n) in
      let chunk := if remaining <=? st_max_payload_per_frame s then remaining
                   else st_max_payload_per_frame s in
      payload ← input.[n +: chunk];
      let frame := Frame (st_id s) (st_next_write_seq s) CLOAK_FRAME_CLOSING_NOTHING payload chunk in
      '(res, r) ← stream_seal frame_fuel s frame (p_rand p);
      match res with
      | None =>
          Some (-1, set_pool_rand (store_stream p ptr e
                      (st_set_send s (st_write_buf s) (st_next_write_seq s) true)) r)
      | Some (msg, buf) =>
          let s := st_set_send s buf (u64 (st_next_write_seq s + 1)) (st_write_closed s) in
          let p := set_pool_rand (store_stream p ptr e s) r in
          '(rc, p) ← session_stream_sink_adapter msg p;
          if negb (rc =? 0) then
            e ← entry_at p ptr;
            let s := en_stream e in
            Some (-1, store_stream p ptr e (st_set_send s (st_write_buf s) (st_next_write_seq s) true))
          else session_write_loop fuel' ptr input (u64 (n + chunk)) p
      end
  end.

(** [cloak_stream_write] on the stream at [ptr]. *)
Definition session_stream_write (ptr : Z) (input : bytes) p : option (Z * world) :=
  e ← entry_at p ptr;
  let s := en_stream e in
  if st_write_closed s then Some (-1, p)
  else if (st_ordering s =? CLOAK_SESSION_ORDERING_UNORDERED) && (st_max_payload_per_frame s <? zlen input)
  then Some (CLOAK_STREAM_ERR_SHORT_BUFFER, p)
  else session_write_loop (length input) ptr input 0 p.

Definition session_send_closing_session_frame p : option world :=
  let s := sesh p in
  let '(len_bytes, r) := cloak_random_bytes 1 (p_rand p) in
  len_byte ← len_bytes.[0];
  let pad_len := len_byte + 1 in
  let max_payload := u64 (ss_max_on_wire_size s - CLOAK_FRAME_HEADER_LEN - CLOAK_FRAME_MAX_EXTRA_LEN) in
  let max_pad := if max_payload <? 256 then max_payload else 256 in
  let pad_len := if max_pad <? pad_len then max_pad else pad_len in
  let '(pad, r) := cloak_random_bytes pad_len r in
  let frame := Frame 4294967295 0 CLOAK_FRAME_CLOSING_SESSION pad pad_len in
  let buf := replicate (Z.to_nat (CLOAK_FRAME_HEADER_LEN + 256 + CLOAK_FRAME_MAX_EXTRA_LEN)) 0 in
  '(res, r) ← cloak_frame_obfuscate frame_fuel (ss_obfuscator s) frame buf 0 r;
  let p := set_pool_rand p r in
  match res with
  | None => Some p
  | Some (written, buf) =>
      msg ← buf.[0 +: written];
      '(_, p) ← session_stream_sink_adapter msg p; Some p
  end.

Definition cloak_session_close p : option (Z * world) :=
  let '(done, p) := session_close_internal p in
  if done =? 0 then Some (-1, p)
  else
    p ← session_send_closing_session_frame p;
    Some (0, session_schedule_deferred_teardown p).

(** ** Callbacks of the event loop *)

Definition session_check_timeout p : option world :=
  if (ss_active_stream_count (sesh p) =? 0) && (ss_closed (sesh p) =? 0)
  then '(_, p) ← cloak_session_close p; Some p else Some p.

Definition session_teardown_sweep_cb p : option world :=
  let s := sesh p in
  let p := set_sesh p (with_timer_ids s (ss_inactivity_timer_id s) CLOAK_TIMER_INVALID (ss_closed s)) in
  p ← session_free_all_active_streams p;
  Some (cloak_switchboard_close_all p).

Definition session_deferred_teardown_cb p : option world :=
  let '(id, p) := session_add_timer p 0 TeardownSweep in
  let p := set_sesh p (with_timer_ids (sesh p) (ss_inactivity_timer_id (sesh p)) id (ss_closed (sesh p))) in
  if ss_on_broken (sesh p) then on_broken (session_note p SessionBroken) else Some p.

Definition session_timer_cb (cb : session_timer) : world -> option world :=
  match cb with
  | CheckTimeout => session_check_timeout
  | DeferredTeardown => session_deferred_teardown_cb
  | TeardownSweep => session_teardown_sweep_cb
  end.

(** ** Receiving *)

(** The frame is decrypted in place in the connection's scratch buffer, which
    the connection does not look at again. *)
Definition session_on_envelope (frame_bytes : bytes) p : option world :=
  if negb (ss_closed (sesh p) =? 0) then Some p
  else
    '(decoded, _) ← cloak_frame_deobfuscate (ss_obfuscator (sesh p)) frame_bytes;
    match decoded with
    | None => Some p
    | Some frame =>
        if fr_closing frame =? CLOAK_FRAME_CLOSING_SESSION then Some (session_passive_close p)
        else
          found ← cloak_strmtab_lookup (ss_streams (sesh p)) (fr_stream_id frame);
          let retire_if_over rc ptr p :=
            if (rc =? 1) || (rc =? -1) then session_retire_stream p ptr else Some p in
          let has st := match found with Some (state, _) => state =? st | None => false end in
          if has CLOAK_STRMTAB_TOMBSTONE then Some p
          else if has CLOAK_STRMTAB_ACTIVE then
            let ptr := match found with Some (_, value) => value | None => 0 end in
            '(rc, p) ← session_feed ptr frame p;
            p ← retire_if_over rc ptr p;
            if ss_on_stream_data (sesh p) then on_stream_data ptr (session_note p (StreamData ptr)) else Some p
          else
            '(created, p) ← session_create_stream (fr_stream_id frame) p;
            match created with
            | None => Some p
            | Some ptr =>
                '(rc, p) ← session_feed ptr frame p;
                p ← retire_if_over rc ptr p;
                if ss_on_new_stream (sesh p)
                then on_new_stream ptr (session_note p (NewStream ptr (fr_stream_id frame))) else Some p
            end
    end.

(** ** The functions of the header *)

(** The fuel of [cloak_strmtab_init] is enough for the hint 16. *)
Definition cloak_session_init (id : Z) (config : cloak_session_config) p : option (Z * world) :=
  let p := set_sb (set_sesh p zero_session) zero_switchboard in
  if negb (sc_ordering config =? CLOAK_SESSION_ORDERING_ORDERED) &&
     negb (sc_ordering config =? CLOAK_SESSION_ORDERING_UNORDERED)
  then Some (CLOAK_SESSION_ERR_INVALID_ORDERING, p)
  else if (sc_max_on_wire_size config <=? CLOAK_FRAME_HEADER_LEN + CLOAK_FRAME_MAX_EXTRA_LEN) ||
          (sc_stream_recv_capacity config =? 0) ||
          (sc_stream_recv_capacity config <? u64 (sc_max_on_wire_size config - CLOAK_FRAME_HEADER_LEN)) ||
          (sc_conn_send_queue_cap config =? 0) ||
          (CLOAK_CONN_MAX_FRAME_LEN <? sc_max_on_wire_size config)
  then Some (-1, p)
  else
    let filled t :=
      Session id (sc_ordering config) (sc_obfuscator config) t 1 0 (sc_max_on_wire_size config)
        (sc_stream_recv_capacity config) (sc_stream_max_pending_frames config)
        (sc_inactivity_timeout_ms config) 0 0 0
        (sc_on_new_stream config) (sc_on_broken config) (sc_on_writable config) (sc_on_stream_data config) in
    let '(calloc_ok, p) := session_malloc p in
    '(rc, t) ← cloak_strmtab_init 8 16 calloc_ok;
    let p := set_sesh p (filled t) in
    if negb (rc =? 0) then Some (-1, p)
    else
      let '(rc, sb) := cloak_switchboard_init (sc_max_on_wire_size config) (sc_conn_send_queue_cap config) true true in
      let p := set_sb p sb in
      if negb (rc =? 0) then Some (-1, set_sesh p (filled (cloak_strmtab_destroy t)))
      else
        let p := cloak_switchboard_set_drained_cb p true in
        let p := cloak_switchboard_set_valve p (sc_valve config) in
        Some (0, session_reschedule_inactivity_timer p).

Definition cloak_session_destroy p : option world :=
  let '(_, p) := session_close_internal p in
  let p := session_cancel_timer p (ss_teardown_timer_id (sesh p)) in
  p ← session_free_all_active_streams p;
  Some (set_sesh (cloak_switchboard_destroy p) zero_session).

Definition cloak_session_add_conn_framed (fd framing : Z) (so : socket) (m : pool_memory) p : Z * world :=
  if negb (ss_closed (sesh p) =? 0) then (-1, p)
  else cloak_switchboard_add_conn_framed p fd framing so m.

Definition cloak_session_add_conn (fd : Z) (so : socket) (m : pool_memory) p : Z * world :=
  cloak_session_add_conn_framed fd CLOAK_CONN_FRAMING_TLS_RECORD so m p.

(** The pointer and the identifier that went to [out_id]; NULL is [None]. *)
Definition cloak_session_open_stream p : option (option (Z * Z) * world) :=
  if negb (ss_closed (sesh p) =? 0) then Some (None, p)
  else
    let id := ss_next_stream_id (sesh p) in
    let p := set_sesh p (with_next_id (sesh p) (u32 (id + 1))) in
    '(created, p) ← session_create_stream id p;
    Some (match created with Some ptr => Some (ptr, id) | None => None end, p).

Definition cloak_session_close_stream (ptr : Z) p : option (Z * world) :=
  if negb (ss_closed (sesh p) =? 0) then Some (-1, p)
  else
    e ← entry_at p ptr;
    if negb (en_retired e =? 0) then Some (-1, p)
    else
      '(_, p) ← session_send_closing ptr CLOAK_FRAME_CLOSING_STREAM p;
      p ← session_retire_stream p ptr;
      Some (0, p).

Definition cloak_session_release_stream (ptr : Z) p : option world :=
  e ← entry_at p ptr;
  p ← (if en_retired e =? 0 then
         '(_, p) ← session_send_closing ptr CLOAK_FRAME_CLOSING_STREAM p;
         session_retire_stream p ptr
       else Some p);
  _ ← entry_at p ptr;
  Some (set_heap p (delete ptr (u_heap (p_user p))) (u_next (p_user p))).

Definition cloak_session_is_closed p : Z := ss_closed (sesh p).

(** [sesh] may be NULL in the accessors of the outbound pressure. *)
Definition cloak_session_send_queued (p : option world) : Z :=
  match p with None => 0 | Some p => cloak_switchboard_send_queued (Some (p_sb p)) end.
Definition cloak_session_send_capacity (p : option world) : Z :=
  match p with None => 0 | Some p => cloak_switchboard_send_capacity (Some (p_sb p)) end.
Definition cloak_session_send_min_conn_free (p : option world) : Z :=
  match p with None => 0 | Some p => cloak_switchboard_send_min_conn_free (Some (p_sb p)) end.
Definition cloak_session_valve (p : option world) : option Z :=
  match p with None => None | Some p => sb_valve (p_sb p) end.

End session.
