(* ===== verification/SessionInv.v ===== *)
(** * The invariant of a session

    What holds of a session ([Session]) whenever the pool or the application
    is called: the stream table, the heap and the count of active streams agree
    and every stream keeps the contract of [StreamSpec]; of the session's
    timers only the current ones can fire, none is a connection's, and those
    that have to fire will.  The session is the companion of its pool: a step
    of the pool by itself keeps all of it. *)
From stdpp Require Import gmap.
From S2P Require Import Prelude Refinement Fallible Random Frame Aead ByteQueue MsgQueue Heap Stream StreamSpec StrmTab Valve ReactorApi Conn ConnInv Switchboard SwitchboardRng SwitchboardInv SwitchboardRun Session.

(** ** The streams *)

Definition active (m : strmap) : strmap := filter (fun kv => kv.2.1 = CLOAK_STRMTAB_ACTIVE) m.

(** What the constructor accepts and nothing changes. *)
Definition session_shape (s : cloak_session) : Prop :=
  (ss_ordering s = CLOAK_SESSION_ORDERING_ORDERED \/ ss_ordering s = CLOAK_SESSION_ORDERING_UNORDERED) /\
  obfuscator_ok (ss_obfuscator s) /\
  CLOAK_FRAME_HEADER_LEN + CLOAK_FRAME_MAX_EXTRA_LEN < ss_max_on_wire_size s <= CLOAK_CONN_MAX_FRAME_LEN /\
  ss_max_on_wire_size s - CLOAK_FRAME_HEADER_LEN <= ss_stream_recv_capacity s <= INT64_MAX /\
  0 <= ss_stream_max_pending_frames s <= INT64_MAX / 32 /\
  0 <= ss_next_stream_id s < 4294967296.

(** A stream of this session. *)
Definition stream_ok (s : cloak_session) (st : cloak_stream_t) : Prop :=
  (exists x, rx_rep st x) /\
  (st_obfuscator st, st_ordering st, st_max_payload_per_frame st, zlen (st_write_buf st)) =
    (ss_obfuscator s, ss_ordering s, ss_max_on_wire_size s - CLOAK_FRAME_HEADER_LEN - CLOAK_FRAME_MAX_EXTRA_LEN,
     ss_max_on_wire_size s) /\
  0 <= st_id st < 4294967296 /\ 0 <= st_next_write_seq st < 18446744073709551616.

Definition table_ok (s : cloak_session) (h : gmap Z stream_entry) (m : strmap) : Prop :=
  tab_rep (ss_streams s) m /\
  ss_active_stream_count s = Z.of_nat (size (active m)) /\
  (forall id st v, m !! id = Some (st, v) -> st = CLOAK_STRMTAB_ACTIVE \/ st = CLOAK_STRMTAB_TOMBSTONE) /\
  (forall id ptr, m !! id = Some (CLOAK_STRMTAB_ACTIVE, ptr) <->
     exists e, h !! ptr = Some e /\ st_id (en_stream e) = id /\ en_retired e = 0).

Definition streams_inv (s : cloak_session) (h : gmap Z stream_entry) (next : Z) : Prop :=
  (exists m, table_ok s h m) /\
  forall ptr e, h !! ptr = Some e -> ptr < next /\ stream_ok s (en_stream e).

(** ** The timers *)

Definition told_broken (log : list session_event) : list session_event :=
  omap (fun e => match e with SessionBroken => Some SessionBroken | _ => None end) log.

Definition is_check (cb : session_timer) : bool := match cb with CheckTimeout => true | _ => false end.

Section timers.
Context {R : Type} {RR : Reactor R} {RL : ReactorLaws R}.

(** Which timers may still fire. *)
Definition timers_core (r : R) (conns : list slot) (s : cloak_session) (tm : gmap Z session_timer)
    (log : list session_event) : Prop :=
  let ina := ss_inactivity_timer_id s in
  let td := ss_teardown_timer_id s in
  (forall id cb, tm !! id = Some cb -> id <> CLOAK_TIMER_INVALID /\ spent r id /\ ~ pool_timer conns id) /\
  (ina = CLOAK_TIMER_INVALID \/ is_Some (tm !! ina)) /\
  (td = CLOAK_TIMER_INVALID \/ exists cb, tm !! td = Some cb /\ is_check cb = false) /\
  (forall id cb, tm !! id = Some cb -> armed r id ->
     if is_check cb then id = ina /\ ss_closed s = 0 else id = td /\ ss_closed s <> 0) /\
  (ss_closed s = 0 -> td = CLOAK_TIMER_INVALID) /\
  (length (told_broken log) <= 1)%nat /\
  (ss_closed s = 0 \/ tm !! td = Some DeferredTeardown -> told_broken log = []).

(** Which have to: an idle session times out, a scheduled teardown goes on. *)
Definition timers_live (r : R) (s : cloak_session) (tm : gmap Z session_timer) : Prop :=
  let ina := ss_inactivity_timer_id s in
  let td := ss_teardown_timer_id s in
  (td <> CLOAK_TIMER_INVALID -> armed r td) /\
  (ss_closed s = 0 -> ss_active_stream_count s = 0 -> ina <> CLOAK_TIMER_INVALID ->
     armed r ina /\ tm !! ina = Some CheckTimeout).

Lemma core_step r r' conns conns' s tm log :
  timers_core r conns s tm log -> aged r r' ->
  (forall t, pool_timer conns' t -> pool_timer conns t \/ ~ spent r t) ->
  timers_core r' conns' s tm log.
Proof.
  intros (H1&H2&H3&H4&H5) [Harm Hsp] Ht. split; [|split; [exact H2|split; [exact H3|split; [|exact H5]]]].
  - intros id cb Hid. destruct (H1 id cb Hid) as (?&?&?). split; [done|]. split; [auto|].
    intros [?|?]%Ht; auto.
  - intros id cb Hid [Ha|Hn]%Harm; [by apply H4|]. by destruct (H1 id cb Hid) as (_&?&_).
Qed.

(** A timer of the session is forgotten. *)
Lemma live_step r r' conns s tm log :
  timers_core r conns s tm log -> timers_live r s tm ->
  (forall t, t <> CLOAK_TIMER_INVALID -> ~ pool_timer conns t -> armed r t -> armed r' t) -> timers_live r' s tm.
Proof.
  intros (H1&H2&H3&H4&H5) [L1 L2] Ha. split.
  - intros Hne. destruct H3 as [|(cb&Hcb&_)]; [done|]. destruct (H1 _ _ Hcb) as (_&_&Hn). apply Ha; auto.
  - intros Hc Hz Hne. destruct (L2 Hc Hz Hne) as [Hi Htm]. destruct (H1 _ _ Htm) as (_&_&Hn). split; [|done]. apply Ha; auto.
Qed.

End timers.

(** ** The companion of the pool *)

Section inv.
Context {R A : Type} {RR : Reactor R} {RL : ReactorLaws R} {EV : Evp}.
#[local] Abbreviation world := (pool_world R (session_user A)).
Implicit Types p : world.

Definition session_core p : Prop :=
  let u := p_user p in let s := u_sesh u in
  session_shape s /\ streams_inv s (u_heap u) (u_next u) /\
  pool_config (p_sb p) = (ss_max_on_wire_size s, sb_conn_send_queue_cap (p_sb p), true, true) /\
  timers_core (p_reactor p) (sb_conns (p_sb p)) s (u_timers u) (u_log u).

Definition session_inv p : Prop :=
  session_core p /\ timers_live (p_reactor p) (sesh p) (u_timers (p_user p)).

Lemma session_core_step p p' : session_core p -> pool_own_step p p' -> session_core p'.
Proof.
  intros (H1&H2&H3&H4) [Hu Hc Hag Harm Ht]. unfold session_core. rewrite Hu.
  split; [exact H1|]. split; [exact H2|]. split; [|by eapply core_step].
  rewrite Hc, H3. unfold pool_config in Hc. by injection Hc as _ -> _ _.
Qed.

Lemma session_inv_step p p' : session_inv p -> pool_own_step p p' -> session_inv p'.
Proof.
  intros [Hc Hl] Hstep. split; [by eapply session_core_step|]. unfold sesh. rewrite (ps_user _ _ Hstep).
  eapply live_step; [apply Hc|exact Hl|]. intros t Hne Hn. by apply (ps_armed _ _ Hstep).
Qed.

(** What may happen to the session while one of its own functions is in a call
    of the pool: it may be closed, streams may be used and retired, but none is
    freed. *)
Definition heap_kept (h h' : gmap Z stream_entry) : Prop :=
  forall ptr e, h !! ptr = Some e -> exists e', h' !! ptr = Some e' /\
    st_id (en_stream e') = st_id (en_stream e) /\ (en_retired e <> 0 -> en_retired e' <> 0).

(** What the constructor chose. *)
Definition session_config (s : cloak_session) :=
  (ss_id s, ss_ordering s, ss_obfuscator s, ss_max_on_wire_size s, ss_stream_recv_capacity s,
   ss_stream_max_pending_frames s, ss_inactivity_timeout_ms s,
   (ss_on_new_stream s, ss_on_broken s, ss_on_writable s, ss_on_stream_data s)).

(** The session lives on. *)
Definition session_along (u u' : session_user A) : Prop :=
  session_config (u_sesh u') = session_config (u_sesh u) /\
  (ss_closed (u_sesh u) <> 0 -> ss_closed (u_sesh u') <> 0 /\
     ss_teardown_timer_id (u_sesh u') = ss_teardown_timer_id (u_sesh u)) /\
  exists more, u_log u' = u_log u ++ more /\ told_broken more = [].
Definition session_waits (u u' : session_user A) : Prop :=
  session_along u u' /\ heap_kept (u_heap u) (u_heap u').

Lemma told_broken_app l l' : told_broken (l ++ l') = told_broken l ++ told_broken l'.
Proof. apply omap_app. Qed.

Lemma session_along_refl u : session_along u u.
Proof. split; [done|]. split; [done|]. exists []. by rewrite app_nil_r. Qed.

Lemma session_along_trans u1 u2 u3 : session_along u1 u2 -> session_along u2 u3 -> session_along u1 u3.
Proof.
  intros (G1&C1&m1&L1&B1) (G2&C2&m2&L2&B2). split; [congruence|].
  split; [intros Hc; destruct (C1 Hc) as [Hc1 E1]; destruct (C2 Hc1) as [Hc2 E2]; split; [done|congruence]|]. exists (m1 ++ m2).
  rewrite L2, L1, app_assoc, told_broken_app, B1, B2. done.
Qed.

Lemma heap_kept_refl h : heap_kept h h.
Proof. intros ptr e He. by exists e. Qed.

Lemma heap_kept_trans h1 h2 h3 : heap_kept h1 h2 -> heap_kept h2 h3 -> heap_kept h1 h3.
Proof.
  intros H1 H2 ptr e He. destruct (H1 ptr e He) as (e'&He'&Hi'&Hr'). destruct (H2 ptr e' He') as (e2&He2&Hi2&Hr2).
  exists e2. split; [done|]. split; [congruence|auto].
Qed.

Lemma session_waits_refl u : session_waits u u.
Proof. split; [apply session_along_refl|apply heap_kept_refl]. Qed.

Lemma session_waits_trans u1 u2 u3 : session_waits u1 u2 -> session_waits u2 u3 -> session_waits u1 u3.
Proof. intros [A1 B1] [A2 B2]. split; [by eapply session_along_trans|by eapply heap_kept_trans]. Qed.

(** Logs only grow. *)
Lemma log_between u1 u2 u3 :
  session_along u1 u2 -> session_along u2 u3 -> u_log u3 = u_log u1 -> u_log u2 = u_log u1 /\ u_log u3 = u_log u2.
Proof.
  intros (_&_&m1&L1&_) (_&_&m2&L2&_) E. pose proof (f_equal length E) as Hl. rewrite L2, L1, !length_app in Hl.
  rewrite L2, L1, (nil_length_inv m1), (nil_length_inv m2), !app_nil_r by lia. done.
Qed.

(** During one call of the pool; unless the application is called, not even a
    stream is used. *)
Definition session_sinks (u u' : session_user A) : Prop :=
  session_waits u u' /\ (u_log u' = u_log u -> u_heap u' = u_heap u).

Lemma session_sinks_refl u : session_sinks u u.
Proof. split; [apply session_waits_refl|done]. Qed.

Lemma session_sinks_trans u1 u2 u3 : session_sinks u1 u2 -> session_sinks u2 u3 -> session_sinks u1 u3.
Proof.
  intros [A1 B1] [A2 B2]. split; [by eapply session_waits_trans|]. intros Hl.
  destruct (log_between _ _ _ (proj1 A1) (proj1 A2) Hl) as [H1 H2]. by rewrite B2, B1.
Qed.

(** As its events see it, as its own functions do, and one of their sends. *)
Definition session_companion : Companions R (session_user A) := {|
  companions := session_inv;
  informed u := ss_closed (u_sesh u) <> 0;
  along := session_along;
  companions_stable := session_inv_step;
  along_refl := session_along_refl;
  along_trans := session_along_trans
|}.
Definition session_sender : Companions R (session_user A) := {|
  companions := session_inv;
  informed u := ss_closed (u_sesh u) <> 0;
  along := session_waits;
  companions_stable := session_inv_step;
  along_refl := session_waits_refl;
  along_trans := session_waits_trans
|}.
Definition session_sink : Companions R (session_user A) := {|
  companions := session_inv;
  informed u := ss_closed (u_sesh u) <> 0;
  along := session_sinks;
  companions_stable := session_inv_step;
  along_refl := session_sinks_refl;
  along_trans := session_sinks_trans
|}.

End inv.

(** ** Steps that are the session's own *)

Section moves.
Context {R A : Type} {RR : Reactor R} {RL : ReactorLaws R} {EV : Evp}.
#[local] Abbreviation world := (pool_world R (session_user A)).
Implicit Types p : world.
Variable unlucky : nat.
Variable app_budget : A -> Z.

Definition session_budget (u : session_user A) : Z := app_budget (u_app u).
#[local] Abbreviation pool_inv := (pool_inv (CO := session_companion) unlucky session_budget).
#[local] Abbreviation pool_base := (pool_base (CO := session_companion) unlucky session_budget).

(** The event loop, the generator and the session's own state change; the pool
    and the application's state do not. *)
Record session_moves p p' : Prop := {
  sm_frame : p' = PoolWorld (p_sb p) (p_reactor p') (p_valves p) (p_clock p) (p_rand p') (p_log p) (p_user p');
  sm_ok : reactor_ok (p_reactor p');
  sm_watch : same_watches (p_reactor p) (p_reactor p');
  sm_armed t : pool_timer (sb_conns (p_sb p)) t -> armed (p_reactor p) t -> armed (p_reactor p') t;
  sm_aged : aged (p_reactor p) (p_reactor p');
  sm_rand : later (p_rand p) (p_rand p');
  sm_app : u_app (p_user p') = u_app (p_user p)
}.

(** The event loop works, and the connections' timers came from it. *)
Definition env_ready p : Prop :=
  reactor_ok (p_reactor p) /\ forall t, pool_timer (sb_conns (p_sb p)) t -> spent (p_reactor p) t.

Lemma moves_sb p p' : session_moves p p' -> p_sb p' = p_sb p.
Proof. intros Hm. by rewrite (sm_frame _ _ Hm). Qed.

Lemma moves_refl p : reactor_ok (p_reactor p) -> session_moves p p.
Proof. intros Hok. split; auto; [by destruct p|done]. Qed.

Lemma moves_trans p1 p2 p3 : session_moves p1 p2 -> session_moves p2 p3 -> session_moves p1 p3.
Proof.
  intros M1 M2. pose proof (moves_sb _ _ M1) as Hsb. destruct M1 as [F1 O1 W1 A1 G1 R1 P1], M2 as [F2 O2 W2 A2 G2 R2 P2].
  split; [|exact O2| | | | |].
  - rewrite F2. rewrite F1. done.
  - intros f. rewrite (W2 f). apply W1.
  - intros t Ht Ha. apply A2; [by rewrite Hsb|auto].
  - by eapply aged_trans.
  - by eapply later_trans.
  - congruence.
Qed.

Lemma moves_ready p p' : env_ready p -> session_moves p p' -> env_ready p'.
Proof.
  intros [Hok Ht] Hm. split; [apply (sm_ok _ _ Hm)|]. rewrite (moves_sb _ _ Hm). intros t Hin.
  apply (proj2 (sm_aged _ _ Hm)). auto.
Qed.

Lemma base_ready reserve p : pool_base reserve p -> env_ready p.
Proof.
  intros [((Hok&_)&_) Hslots]. split; [done|]. intros t [Hne Hin].
  apply list_elem_of_fmap in Hin as (s&->&Hs). apply list_elem_of_lookup in Hs as [j Hj].
  destruct (Hslots j s Hj) as [(_&_&_&_&(v&_&(_&_&_&(_&_&Ha&_)&_))) _]. apply armed_spent; [done|]. by apply Ha.
Qed.

Lemma base_moves_any {CO : Companions R (session_user A)} reserve p p' :
  SwitchboardInv.pool_base unlucky session_budget reserve p -> session_moves p p' -> companions p' ->
  SwitchboardInv.pool_base unlucky session_budget reserve p'.
Proof.
  intros [((Hok&Hck&Hrd&Hfair&Hrng)&(v&Hl&Hroom)&H1&H2&H3&H4&H5&_&_) Hslots] Hm Hinv.
  pose proof (sm_ok _ _ Hm) as Hok'. pose proof (rand_ok_later _ _ (sm_rand _ _ Hm) Hrd) as Hrd'.
  pose proof (fair_later _ _ _ (sm_rand _ _ Hm) Hfair) as Hfair'.
  assert (Hs : pool_sane unlucky p').
  { rewrite (sm_frame _ _ Hm). exact (conj Hok' (conj Hck (conj Hrd' (conj Hfair' Hrng)))). }
  split.
  - split; [exact Hs|]. rewrite (sm_frame _ _ Hm) in Hinv. rewrite (sm_frame _ _ Hm). split; [|by split_and!]. exists v.
    split; [exact Hl|]. unfold pool_room, session_budget in *. cbn [p_user p_sb]. by rewrite (sm_app _ _ Hm).
  - intros j s Hj. rewrite (moves_sb _ _ Hm) in Hj. pose proof (Hslots j s Hj) as Hslot.
    eapply (other_stable unlucky p); [exact Hslot|exact Hs|by rewrite (sm_frame _ _ Hm)|by rewrite (moves_sb _ _ Hm)
      |by rewrite (moves_sb _ _ Hm)|apply (sm_watch _ _ Hm)| |].
    + intros Hne. apply (sm_armed _ _ Hm). split; [done|]. apply list_elem_of_fmap. exists s. split; [done|].
      by eapply list_elem_of_lookup_2.
    + exists v. rewrite (moves_sb _ _ Hm). split; [rewrite (sm_frame _ _ Hm); exact Hl|]. by eapply room_slot.
Qed.

Lemma base_moves reserve p p' :
  pool_base reserve p -> session_moves p p' -> session_inv p' -> pool_base reserve p'.
Proof. exact (base_moves_any (CO := session_companion) reserve p p'). Qed.

(** The session's own timers forgotten: what is left when it goes away. *)
Lemma inv_alone reserve p p' :
  pool_base reserve p -> session_moves p p' -> SwitchboardInv.pool_inv (CO := alone) unlucky session_budget reserve p'.
Proof.
  intros [(G1&G2&G3&G4&G5&G6&G7&G8&_) Hs] Hm.
  assert (Hb : SwitchboardInv.pool_base (CO := alone) unlucky session_budget reserve p).
  { split; [|exact Hs]. do 7 (split; [assumption|]). by split. }
  pose proof (base_moves_any (CO := alone) reserve p p' Hb Hm I) as [(F1&F2&F3&F4&F5&F6&F7&_&_) Hs'].
  split; [|exact Hs']. do 7 (split; [assumption|]). split; [exact I|]. by intros _ _.
Qed.

(** A timer of the session goes off. *)
Lemma fire_moves p id r :
  env_ready p -> r_fire (p_reactor p) = Some (id, r) -> ~ pool_timer (sb_conns (p_sb p)) id ->
  session_moves p (set_pool_reactor p r) /\ armed (p_reactor p) id /\
  forall i, armed r i <-> i <> id /\ armed (p_reactor p) i.
Proof.
  intros [Hok Ht] Hf Hn. destruct (fire_law _ _ _ Hok Hf) as (Hok'&Hsw&Ha&Hid).
  split; [|by split]. split; auto; try done.
  - cbn. intros t Hin Hat. apply Hid. split; [|done]. intros ->. done.
  - apply aged_call; [done|by econstructor].
Qed.

Lemma base_inv reserve p :
  pool_base reserve p -> (sb_broken (p_sb p) <> 0 -> ss_closed (sesh p) <> 0) -> pool_inv reserve p.
Proof.
  intros [(G1&G2&G3&G4&G5&G6&G7&G8&_) Hs] Hinf. split; [|exact Hs]. do 7 (split; [assumption|]).
  split; [exact G8|]. intros Hb _. exact (Hinf Hb).
Qed.

Lemma inv_base reserve p : pool_inv reserve p -> pool_base reserve p.
Proof. intros [(G1&G2&G3&G4&G5&G6&G7&G8&_) Hs]. split; [|exact Hs]. do 7 (split; [assumption|]). by split. Qed.

Lemma inv_session reserve p : pool_base reserve p -> session_inv p.
Proof. intros [(_&_&_&_&_&_&_&G8&_) _]. exact G8. Qed.

Lemma inv_informed reserve p : pool_inv reserve p -> sb_broken (p_sb p) <> 0 -> ss_closed (sesh p) <> 0.
Proof.
  intros [(_&_&_&_&_&_&_&G8&Hi) _] Hb. apply (Hi Hb). destruct G8 as [(_&_&Hc&_) _]. unfold pool_config in Hc. by injection Hc.
Qed.

Lemma inv_moves reserve p p' :
  pool_inv reserve p -> session_moves p p' -> session_inv p' -> session_along (p_user p) (p_user p') ->
  pool_inv reserve p'.
Proof.
  intros Hi Hm Hs (_&Hc&_). apply base_inv; [by eapply base_moves; [apply inv_base|..]|].
  rewrite (moves_sb _ _ Hm). intros Hb. apply Hc. by eapply inv_informed.
Qed.

(** ** Timers *)

Lemma add_timer_moves p delay cb id p' :
  env_ready p -> session_add_timer p delay cb = (id, p') ->
  session_moves p p' /\
  p_user p' = SessionUser (u_sesh (p_user p)) (u_heap (p_user p)) (u_next (p_user p)) (u_mem (p_user p))
    (if id =? CLOAK_TIMER_INVALID then u_timers (p_user p) else <[id := cb]> (u_timers (p_user p)))
    (u_log (p_user p)) (u_app (p_user p)) /\
  if id =? CLOAK_TIMER_INVALID then same_timers (p_reactor p) (p_reactor p')
  else ~ spent (p_reactor p) id /\ ~ pool_timer (sb_conns (p_sb p)) id /\
    forall i, armed (p_reactor p') i <-> i = id \/ armed (p_reactor p) i.
Proof.
  intros [Hok Ht]. unfold session_add_timer. destruct (r_add_timer (p_reactor p) delay) as [id' r] eqn:E. intros [= -> <-].
  destruct (add_timer_law _ _ _ _ Hok E) as (Hok'&Hsw&Hid). pose proof (aged_add_timer _ _ _ _ Hok E) as Hag.
  split; [|split; [done|]].
  - split; auto; try done. cbn. intros t _ Ha. destruct (id =? CLOAK_TIMER_INVALID); [by apply Hid|]. apply Hid. by right.
  - cbn. destruct (Z.eqb_spec id CLOAK_TIMER_INVALID) as [|Hne]; [done|].
    pose proof (new_timer_law _ _ _ _ Hok E Hne) as Hnew. split; [done|]. split; [by intros ?%Ht|apply Hid].
Qed.

Lemma cancel_timer_moves p id :
  env_ready p -> ~ pool_timer (sb_conns (p_sb p)) id ->
  session_moves p (session_cancel_timer p id) /\
  forall i, armed (p_reactor (session_cancel_timer p id)) i <-> i <> id /\ armed (p_reactor p) i.
Proof.
  intros [Hok Ht] Hn. destruct (cancel_timer_law (p_reactor p) id Hok) as (Hok'&Hsw&Hid).
  split; [|exact Hid]. split; auto; try done.
  - cbn. intros t Hin Ha. apply Hid. split; [|done]. intros ->. done.
  - by apply aged_call; [|constructor].
Qed.

(** A change of the session's own state only. *)
Lemma user_moves p u : env_ready p -> u_app u = u_app (p_user p) -> session_moves p (set_user p u).
Proof. intros [Hok _] Hu. split; auto; done. Qed.

End moves.
