(* ===== verification/SessionStreams.v ===== *)
(** * The streams of a session

    The stream table, the heap of entries and the count of active streams, as
    the operations of [Session] change them together; and what the functions
    of [Stream] do whether or not the allocator delivers. *)
From stdpp Require Import gmap.
From S2P Require Import Prelude Refinement Fallible Random Frame Aead ByteQueue MsgQueue Heap Stream StreamSpec StreamDelivery StrmTab Valve ReactorApi Conn ConnInv Switchboard SwitchboardRng SwitchboardInv SwitchboardRun Session SessionInv.

(** ** A stream without memory *)

(** Without memory a frame is refused and the stream is as it was. *)
Lemma feed_oom s f m r :
  cloak_stream_feed_frame s f m r = Some (-1, s) \/
  cloak_stream_feed_frame s f m r = cloak_stream_feed_frame s f true true.
Proof.
  unfold cloak_stream_feed_frame. destruct (_ =? CLOAK_SESSION_ORDERING_UNORDERED); [by right|].
  destruct (st_recv_closing_seen s); [by right|]. destruct (_ || _); [by right|]. destruct (_ <? fr_payload_len f); [by right|].
  assert (Hpush : forall pf, heap_push s pf r = Some (-1, s) \/ heap_push s pf r = heap_push s pf true).
  { intros pf. unfold heap_push. destruct (_ <=? _); [by right|]. destruct (zlen (st_heap s) =? st_heap_cap s); [|by right].
    destruct r; [by right|by left]. }
  destruct (0 <? fr_payload_len f); [destruct m|]; [|by left|].
  - destruct (mem_read _ _ _) as [p|]; [|by right]. cbn [mbind option_bind].
    destruct (Hpush (Pending (fr_seq f) (fr_closing f) p (fr_payload_len f))) as [->| ->]; [by left|by right].
  - cbn [mbind option_bind].
    destruct (Hpush (Pending (fr_seq f) (fr_closing f) [] (fr_payload_len f))) as [->| ->]; [by left|by right].
Qed.

(** The fields that the receive side does not touch. *)
Definition send_side (s : cloak_stream_t) :=
  (st_id s, st_ordering s, st_obfuscator s, st_max_payload_per_frame s, st_write_buf s, st_write_buf_cap s,
   (st_next_write_seq s, st_write_closed s)).

Lemma heap_pop_send s pf s' : heap_pop s = Some (pf, s') -> send_side s' = send_side s.
Proof. unfold heap_pop. destruct (heap_extract _) as [[top h]|]; [|done]. by intros [= _ <-]. Qed.

Lemma try_drain_send fuel s rc s' : try_drain_loop fuel s = Some (rc, s') -> send_side s' = send_side s.
Proof.
  revert s. induction fuel as [|fuel IH]; intros s; cbn [try_drain_loop];
    (destruct (st_heap s) as [|top h]; [by intros [= _ <-]|]); (destruct (negb (_ =? _)); [by intros [= _ <-]|]); [done|].
  destruct (negb (_ =? _)).
  - destruct (heap_pop s) as [[pf s1]|] eqn:E; [|done]. cbn [mbind option_bind]. intros [= _ <-]. exact (heap_pop_send _ _ _ E).
  - destruct (_ <? _); [by intros [= _ <-]|]. destruct (heap_pop s) as [[pf s1]|] eqn:E; [|done]. cbn [mbind option_bind].
    destruct (if 0 <? pf_payload_len pf then _ else _) as [q|]; [|done]. cbn [mbind option_bind]. intros ->%IH.
    exact (heap_pop_send _ _ _ E).
Qed.

Lemma feed_send s f m r rc s' : cloak_stream_feed_frame s f m r = Some (rc, s') -> send_side s' = send_side s.
Proof.
  unfold cloak_stream_feed_frame, feed_frame_unordered.
  destruct (_ =? CLOAK_SESSION_ORDERING_UNORDERED); destruct (st_recv_closing_seen s); try (by intros [= _ <-]).
  - destruct (negb _); [by intros [= _ <-]|]. destruct (mem_read _ _ _); [|done]. cbn [mbind option_bind].
    destruct (cloak_msgqueue_write _ _) as [[x q]|]; [|done]. cbn [mbind option_bind].
    destruct (_ =? CLOAK_MSGQUEUE_ERR_TOO_LARGE); [by intros [= _ <-]|]. destruct (negb _); by intros [= _ <-].
  - destruct (_ || _); [by intros [= _ <-]|]. destruct (_ <? _); [by intros [= _ <-]|].
    destruct (if 0 <? fr_payload_len f then _ else _) as [[copy|]|]; [|by intros [= _ <-]|done]. cbn [mbind option_bind].
    unfold heap_push. destruct (_ <=? _); [by intros [= _ <-]|].
    destruct (if zlen (st_heap s) =? st_heap_cap s then heap_grow s r else (0, s)) as [x s1] eqn:E.
    assert (Hs1 : send_side s1 = send_side s).
    { destruct (_ =? st_heap_cap s); [|by injection E as _ <-]. unfold heap_grow in E. destruct (negb r); by injection E as _ <-. }
    destruct (negb (x =? 0)); [by intros [= _ <-]|]. destruct (_ <=? zlen (st_heap s1)); [done|].
    destruct (heap_insert _ _) as [h|]; [|done]. cbn [mbind option_bind Z.eqb negb]. intros H%try_drain_send.
    rewrite H. exact Hs1.
Qed.

Lemma read_send s n rc out s' : cloak_stream_read s n = Some (rc, out, s') -> send_side s' = send_side s.
Proof.
  unfold cloak_stream_read. destruct (_ =? CLOAK_SESSION_ORDERING_UNORDERED).
  - destruct (cloak_msgqueue_read _ _) as [[[x o] q]|]; [|done]. cbn [mbind option_bind].
    destruct (_ =? CLOAK_MSGQUEUE_SHORT_BUFFER); [by intros [= _ _ <-]|]. destruct (_ =? CLOAK_MSGQUEUE_EMPTY); by intros [= _ _ <-].
  - destruct (cloak_bytequeue_read _ _) as [[o q]|]; [|done]. cbn [mbind option_bind]. unfold try_drain. destruct (0 <? zlen o).
    + destruct (try_drain_loop _ _) as [[x s1]|] eqn:E; [|done]. cbn [mbind option_bind]. intros [= _ _ <-].
      exact (try_drain_send _ _ _ _ E).
    + destruct (cloak_bytequeue_is_eof q); by intros [= _ _ <-].
Qed.

(** The contract of the receive side, for any allocator: a frame is fed, or
    refused as a violation for want of memory. *)
Lemma stream_feed_rep s x f m r :
  rx_rep s x -> rx_op_ok (RxFeed f) ->
  exists rc s' x', cloak_stream_feed_frame s f m r = Some (rc, s') /\ rx_rep s' x' /\ send_side s' = send_side s /\
    (m && r = false /\ rc = -1 /\ s' = s \/ rc = rs_rc (rx_spec (RxFeed f) x).1 /\ x' = (rx_spec (RxFeed f) x).2).
Proof.
  intros Hx Hf.
  assert (Hfull : exists rc s' x', cloak_stream_feed_frame s f true true = Some (rc, s') /\ rx_rep s' x' /\
    rc = rs_rc (rx_spec (RxFeed f) x).1 /\ x' = (rx_spec (RxFeed f) x).2).
  { destruct x as [ro|dg]; cbn [rx_rep] in Hx; unfold rx_spec.
    - destruct (feed_ordered_rep s ro f Hx Hf) as (rc&s'&r'&->&->&H'). by exists rc, s', (RxOrdered r').
    - destruct (feed_unordered_rep s dg f Hx Hf) as (rc&s'&d'&->&->&H'). by exists rc, s', (RxDatagrams d'). }
  destruct Hfull as (rc&s'&x'&Hfeed&Hx'&Hspec). pose proof (feed_send _ _ _ _ _ _ Hfeed) as Hsend.
  destruct (m && r) eqn:E.
  - destruct m, r; try done. exists rc, s', x'. split; [done|]. split; [done|]. split; [done|]. by right.
  - destruct (feed_oom s f m r) as [->| ->].
    + exists (-1), s, x. split; [done|]. split; [done|]. split; [done|]. by left.
    + exists rc, s', x'. split; [done|]. split; [done|]. split; [done|]. by right.
Qed.

Lemma read_rep s x n :
  rx_rep s x -> 0 <= n -> exists rc out s', cloak_stream_read s n = Some (rc, out, s') /\
    rx_rep s' (rx_spec (RxRead n) x).2 /\ send_side s' = send_side s /\
    rc = rs_rc (rx_spec (RxRead n) x).1 /\ out = rs_out (rx_spec (RxRead n) x).1.
Proof.
  intros Hx Hn. destruct x as [ro|dg]; cbn [rx_rep] in Hx; unfold rx_spec.
  - destruct (read_ordered_rep s ro n Hx Hn) as (rc&out&s'&r'&E&->&H'). pose proof (read_send _ _ _ _ _ E). by exists rc, out, s'.
  - destruct (read_unordered_rep s dg n Hx) as (rc&out&s'&d'&E&->&H'). pose proof (read_send _ _ _ _ _ E). by exists rc, out, s'.
Qed.

Lemma stream_ok_send s st st' :
  stream_ok s st -> (exists x, rx_rep st' x) -> send_side st' = send_side st -> stream_ok s st'.
Proof.
  intros (_&H1&H2&H3) Hx Hs. unfold send_side in Hs. injection Hs as E1 E2 E3 E4 E5 E6 E7 E8.
  split; [done|]. by rewrite E1, E2, E3, E4, E5, E7.
Qed.

(** ** The table *)

Lemma insert_oom t key value ok :
  cloak_strmtab_insert_active t key value ok = Some (-1, t) \/
  cloak_strmtab_insert_active t key value ok = cloak_strmtab_insert_active t key value true.
Proof.
  destruct ok; [by right|]. unfold cloak_strmtab_insert_active. destruct (_ <=? _); [by left|by right].
Qed.

Lemma active_size_bound t m : tab_rep t m -> Z.of_nat (size (active m)) <= 4294967296.
Proof.
  intros H. etrans; [|apply (map_size_bound m), (tr_keys _ _ H)]. unfold active.
  assert (dom (filter (fun kv : Z * (Z * Z) => kv.2.1 = CLOAK_STRMTAB_ACTIVE) m) ⊆ dom m) as Hd by apply dom_filter_subseteq.
  apply subseteq_size in Hd. rewrite !size_dom in Hd. lia.
Qed.

Lemma active_lookup m id v : active m !! id = Some (CLOAK_STRMTAB_ACTIVE, v) <-> m !! id = Some (CLOAK_STRMTAB_ACTIVE, v).
Proof. unfold active. rewrite map_lookup_filter_Some. tauto. Qed.

Lemma active_tombstone m id v :
  m !! id = Some (CLOAK_STRMTAB_ACTIVE, v) ->
  Z.of_nat (size (active (<[id := (CLOAK_STRMTAB_TOMBSTONE, 0)]> m))) = Z.of_nat (size (active m)) - 1 /\
  0 < Z.of_nat (size (active m)).
Proof.
  intros Hm. apply active_lookup in Hm. unfold active in *. rewrite map_filter_insert, decide_False by done.
  rewrite map_filter_delete, map_size_delete_Some by (by eexists).
  assert (size (filter (fun kv : Z * (Z * Z) => kv.2.1 = CLOAK_STRMTAB_ACTIVE) m) <> 0%nat); [|lia].
  rewrite map_size_ne_0_lookup. by eexists _, _.
Qed.

Lemma active_insert m id v :
  (forall w, m !! id <> Some (CLOAK_STRMTAB_ACTIVE, w)) ->
  Z.of_nat (size (active (<[id := (CLOAK_STRMTAB_ACTIVE, v)]> m))) = Z.of_nat (size (active m)) + 1.
Proof.
  intros Hm. unfold active. rewrite map_filter_insert, decide_True by done. rewrite map_size_insert_None; [lia|].
  apply map_lookup_filter_None_2. right. intros [st w] Hx. cbn. intros ->. by eapply Hm.
Qed.

(** An entry stops being active: retired, or freed. *)
Lemma table_drop s h h' m ptr e :
  table_ok s h m -> h !! ptr = Some e -> en_retired e = 0 -> 0 <= st_id (en_stream e) < 4294967296 ->
  (forall q, q <> ptr -> h' !! q = h !! q) -> (forall e', h' !! ptr = Some e' -> en_retired e' <> 0) ->
  exists t, cloak_strmtab_tombstone (ss_streams s) (st_id (en_stream e)) = Some (0, t) /\
    table_ok (with_streams s t (u64 (ss_active_stream_count s - 1))) h'
      (<[st_id (en_stream e) := (CLOAK_STRMTAB_TOMBSTONE, 0)]> m).
Proof.
  intros (Ht&Hc&Hst&Hact) He Hr Hid Hoth Hgone.
  assert (Hm : m !! st_id (en_stream e) = Some (CLOAK_STRMTAB_ACTIVE, ptr)) by (apply Hact; by exists e).
  destruct (strmtab_tombstone_spec _ _ _ Ht Hid) as (rc&t&m'&Htomb&Hm'&Ht').
  unfold map_tombstone in Hm'. rewrite Hm in Hm'. cbn in Hm'. injection Hm' as <- <-.
  exists t. split; [done|]. destruct (active_tombstone _ _ _ Hm) as [Hsize Hpos]. pose proof (active_size_bound _ _ Ht).
  split; [exact Ht'|]. split; [|split].
  - cbn. rewrite Hc, Hsize. apply u64_small. lia.
  - intros id st v. destruct (decide (id = st_id (en_stream e))) as [->|Hne].
    + rewrite lookup_insert_eq. intros [= <- _]. by right.
    + rewrite lookup_insert_ne by done. apply Hst.
  - intros id q. destruct (decide (id = st_id (en_stream e))) as [->|Hne].
    + rewrite lookup_insert_eq. split; [done|]. intros (e'&He'&Hi&Hr'). exfalso.
      destruct (decide (q = ptr)) as [->|Hq]; [by destruct (Hgone _ He')|]. rewrite (Hoth q Hq) in He'.
      assert (m !! st_id (en_stream e) = Some (CLOAK_STRMTAB_ACTIVE, q)) by (apply Hact; by exists e'). congruence.
    + rewrite lookup_insert_ne by done. rewrite Hact. destruct (decide (q = ptr)) as [->|Hq].
      * split; [|by intros (e'&He'&_&Hr'); destruct (Hgone _ He')]. intros (e'&He'&Hi&_). congruence.
      * by rewrite (Hoth q Hq).
Qed.

Lemma table_add s h m id ptr st ok :
  table_ok s h m -> 0 <= id < 4294967296 -> h !! ptr = None -> st_id st = id ->
  exists rc t m', cloak_strmtab_insert_active (ss_streams s) id ptr ok = Some (rc, t) /\
    if rc =? 0 then
      (forall v, m !! id <> Some (CLOAK_STRMTAB_ACTIVE, v)) /\ m' = <[id := (CLOAK_STRMTAB_ACTIVE, ptr)]> m /\
      table_ok (with_streams s t (u64 (ss_active_stream_count s + 1))) (<[ptr := StreamEntry st 0]> h) m'
    else (ok = false \/ exists v, m !! id = Some (CLOAK_STRMTAB_ACTIVE, v)) /\ m' = m /\
      table_ok (with_streams s t (ss_active_stream_count s)) h m'.
Proof.
  intros (Ht&Hc&Hst&Hact) Hid Hptr Hsid.
  destruct (insert_oom (ss_streams s) id ptr ok) as [E|E].
  { destruct ok; [|exists (-1), (ss_streams s), m; split; [exact E|]; by split; [left|]].
    destruct (strmtab_insert_spec _ _ id ptr Ht Hid) as (rc&t&m'&Hins&Hm'&Ht'). rewrite E in Hins. injection Hins as <- <-.
    exists (-1), (ss_streams s), m. split; [exact E|]. split; [|by split]. right. unfold map_insert_active in Hm'.
    destruct (m !! id) as [[st0 v]|]; [|done]. destruct (Z.eqb_spec st0 CLOAK_STRMTAB_ACTIVE) as [->|]; [by exists v|done]. }
  destruct (strmtab_insert_spec _ _ id ptr Ht Hid) as (rc&t&m'&Hins&Hm'&Ht'). rewrite Hins in E.
  exists rc, t, m'. split; [exact E|]. pose proof (active_size_bound _ _ Ht).
  assert (Hcase : rc = 0 /\ (forall v, m !! id <> Some (CLOAK_STRMTAB_ACTIVE, v)) /\ m' = <[id := (CLOAK_STRMTAB_ACTIVE, ptr)]> m \/
    rc = -1 /\ m' = m /\ exists v, m !! id = Some (CLOAK_STRMTAB_ACTIVE, v)).
  { unfold map_insert_active in Hm'. destruct (m !! id) as [[st0 v]|] eqn:Em.
    - destruct (Z.eqb_spec st0 CLOAK_STRMTAB_ACTIVE) as [->|Hne]; injection Hm' as <- <-; [right|left]; [by eauto|].
      split; [done|]. split; [|done]. intros w [= -> _]. done.
    - injection Hm' as <- <-. left. split; [done|]. by split. }
  destruct Hcase as [(->&Hno&->)|(->&->&Hyes)]; cbn [Z.eqb].
  - split; [done|]. split; [done|]. split; [exact Ht'|]. split; [|split].
    + cbn. rewrite Hc, active_insert by done. apply u64_small. lia.
    + intros i st0 v. destruct (decide (i = id)) as [->|Hne]; [rewrite lookup_insert_eq; intros [= <- _]; by left|].
      rewrite lookup_insert_ne by done. apply Hst.
    + intros i q. destruct (decide (i = id)) as [->|Hne].
      * rewrite lookup_insert_eq. split.
        -- intros [= <-]. exists (StreamEntry st 0). rewrite lookup_insert_eq. done.
        -- intros (e&He&Hi&Hr). destruct (decide (q = ptr)) as [->|Hq]; [done|]. rewrite lookup_insert_ne in He by done.
           destruct (Hno q). apply Hact. by exists e.
      * rewrite lookup_insert_ne by done. rewrite Hact. destruct (decide (q = ptr)) as [->|Hq].
        -- rewrite lookup_insert_eq. split; [by rewrite Hptr; intros (?&?&_)|]. intros (e&[= <-]&Hi&_). cbn in Hi. congruence.
        -- by rewrite lookup_insert_ne.
  - split; [by right|]. split; [done|]. split; [exact Ht'|]. by split.
Qed.

(** An entry's stream changes, its identity does not. *)
Lemma table_store s h m ptr e st :
  table_ok s h m -> h !! ptr = Some e -> st_id st = st_id (en_stream e) ->
  table_ok s (<[ptr := StreamEntry st (en_retired e)]> h) m.
Proof.
  intros (Ht&Hc&Hst&Hact) He Hid. split; [exact Ht|]. split; [exact Hc|]. split; [exact Hst|]. intros i q. rewrite Hact.
  destruct (decide (q = ptr)) as [->|Hq]; [|by rewrite lookup_insert_ne]. rewrite lookup_insert_eq, He.
  split; intros (e'&[= <-]&Hi&Hr); eexists; (split; [done|]); cbn in *; split; congruence.
Qed.

Lemma streams_store s h next ptr e st :
  streams_inv s h next -> h !! ptr = Some e -> stream_ok s st -> st_id st = st_id (en_stream e) ->
  streams_inv s (<[ptr := StreamEntry st (en_retired e)]> h) next.
Proof.
  intros [(m&Hm) Hall] He Hok Hid. split; [exists m; by apply table_store|]. intros q e' Hq.
  destruct (decide (q = ptr)) as [->|Hne].
  - rewrite lookup_insert_eq in Hq. injection Hq as <-. split; [by apply (Hall ptr e)|done].
  - rewrite lookup_insert_ne in Hq by done. by apply Hall.
Qed.

(** ** The operations on the world *)

Section ops.
Context {R A : Type} {RR : Reactor R} {RL : ReactorLaws R} {EV : Evp}.
#[local] Abbreviation world := (pool_world R (session_user A)).
Implicit Types p : world.

(** What is known of the streams before and after. *)
Definition streams_ok p : Prop := streams_inv (sesh p) (u_heap (p_user p)) (u_next (p_user p)).

(** Only streams, and the answers of the allocator, differ. *)
Definition streams_only p p' : Prop :=
  exists t count next_id h next mem,
    p' = set_user p (SessionUser (with_next_id (with_streams (sesh p) t count) next_id) h next mem
           (u_timers (p_user p)) (u_log (p_user p)) (u_app (p_user p))).

Lemma streams_only_refl p : streams_only p p.
Proof.
  exists (ss_streams (sesh p)), (ss_active_stream_count (sesh p)), (ss_next_stream_id (sesh p)), (u_heap (p_user p)),
    (u_next (p_user p)), (u_mem (p_user p)). by destruct p as [? ? ? ? ? ? [[] ? ? ? ? ? ?]].
Qed.

Lemma streams_only_trans p1 p2 p3 : streams_only p1 p2 -> streams_only p2 p3 -> streams_only p1 p3.
Proof. intros (t1&c1&i1&h1&n1&m1&->) (t2&c2&i2&h2&n2&m2&->). by exists t2, c2, i2, h2, n2, m2. Qed.

Lemma malloc_only p ok p' : session_malloc p = (ok, p') -> streams_only p p' /\ sesh p' = sesh p /\
  u_heap (p_user p') = u_heap (p_user p) /\ u_next (p_user p') = u_next (p_user p).
Proof.
  intros [= _ <-]. split; [|done].
  exists (ss_streams (sesh p)), (ss_active_stream_count (sesh p)), (ss_next_stream_id (sesh p)), (u_heap (p_user p)),
    (u_next (p_user p)), (tl (u_mem (p_user p))). by destruct p as [? ? ? ? ? ? [[] ? ? ? ? ? ?]].
Qed.

Lemma streams_only_moves p p' : env_ready p -> streams_only p p' -> session_moves p p'.
Proof. intros Hr (t&c&i&h&n&m&->). by apply user_moves. Qed.

(** The timers care for the count only when it is zero. *)
Lemma streams_only_core p p' :
  session_core p -> streams_only p p' -> streams_ok p' -> 0 <= ss_next_stream_id (sesh p') < 4294967296 -> session_core p'.
Proof.
  intros ((S1&S2&S3&S4&S5&S6)&_&H3&H4) (t&c&i&h&n&m&->) Hs Hid.
  split; [exact (conj S1 (conj S2 (conj S3 (conj S4 (conj S5 Hid)))))|]. split; [exact Hs|]. split; [exact H3|exact H4].
Qed.

Lemma streams_only_live p p' :
  timers_live (p_reactor p) (sesh p) (u_timers (p_user p)) -> streams_only p p' ->
  (ss_active_stream_count (sesh p') = 0 -> ss_active_stream_count (sesh p) = 0) ->
  timers_live (p_reactor p') (sesh p') (u_timers (p_user p')).
Proof.
  intros [L1 L2] (t&c&i&h&n&m&->) Hc. split; [exact L1|]. cbn. intros Hcl Hz. by apply L2, Hc.
Qed.

Lemma streams_only_along p p' : streams_only p p' -> session_along (p_user p) (p_user p').
Proof. intros (t&c&i&h&n&m&->). split; [done|]. split; [done|]. exists []. by rewrite app_nil_r. Qed.

(** The frame was fed to [s], whose contract then is that of [st]. *)
Definition fed (s : cloak_stream_t) (frame : cloak_frame_t) (mem_ok : bool) (rc : Z) (st : cloak_stream_t) : Prop :=
  send_side st = send_side s /\
  forall x, rx_rep s x -> exists x', rx_rep st x' /\
    (mem_ok = false /\ rc = -1 /\ st = s \/
     rc = rs_rc (rx_spec (RxFeed frame) x).1 /\ x' = (rx_spec (RxFeed frame) x).2).

Lemma entry_ok p ptr e : streams_ok p -> entry_at p ptr = Some e ->
  ptr < u_next (p_user p) /\ stream_ok (sesh p) (en_stream e).
Proof. intros [_ Hall] He. by apply (Hall ptr e). Qed.

Lemma session_feed_spec p ptr e frame :
  streams_ok p -> entry_at p ptr = Some e -> rx_op_ok (RxFeed frame) ->
  exists rc st mem_ok p', session_feed ptr frame p = Some (rc, p') /\ streams_only p p' /\ streams_ok p' /\
    sesh p' = sesh p /\ u_next (p_user p') = u_next (p_user p) /\
    u_heap (p_user p') = <[ptr := StreamEntry st (en_retired e)]> (u_heap (p_user p)) /\
    fed (en_stream e) frame mem_ok rc st /\ (u_mem (p_user p) = [] -> mem_ok = true /\ u_mem (p_user p') = []).
Proof.
  intros Hs He Hf. destruct (entry_ok _ _ _ Hs He) as (_&Hok). pose proof Hok as ((x0&Hx0)&_).
  unfold session_feed. rewrite He. cbn [mbind option_bind].
  destruct (session_malloc p) as [m1 p1] eqn:E1. destruct (malloc_only _ _ _ E1) as (O1&S1&H1&N1).
  destruct (session_malloc p1) as [m2 p2] eqn:E2. destruct (malloc_only _ _ _ E2) as (O2&S2&H2&N2).
  destruct (stream_feed_rep (en_stream e) x0 frame m1 m2 Hx0 Hf) as (rc&st&x'&Hfeed&Hx'&Hsend&_). rewrite Hfeed. cbn [mbind option_bind].
  assert (Hid : st_id st = st_id (en_stream e)) by (unfold send_side in Hsend; by injection Hsend).
  exists rc, st, (m1 && m2), (store_stream p2 ptr e st). split; [done|].
  assert (Hst : streams_inv (sesh p) (<[ptr:=StreamEntry st (en_retired e)]> (u_heap (p_user p))) (u_next (p_user p))).
  { apply streams_store; [exact Hs|exact He| |exact Hid]. eapply stream_ok_send; [exact Hok|by exists x'|exact Hsend]. }
  split; [|split; [|split; [|split; [|split; [|split; [split; [exact Hsend|]|]]]]]].
  - eapply streams_only_trans; [exact O1|]. eapply streams_only_trans; [exact O2|].
    exists (ss_streams (sesh p2)), (ss_active_stream_count (sesh p2)), (ss_next_stream_id (sesh p2)),
      (<[ptr := StreamEntry st (en_retired e)]> (u_heap (p_user p2))), (u_next (p_user p2)), (u_mem (p_user p2)).
    by destruct p2 as [? ? ? ? ? ? [[] ? ? ? ? ? ?]].
  - unfold streams_ok. cbn. change (u_sesh (p_user p2)) with (sesh p2). by rewrite S2, S1, H2, H1, N2, N1.
  - cbn. change (u_sesh (p_user p2)) with (sesh p2). congruence.
  - cbn. congruence.
  - cbn. congruence.
  - intros x Hx. destruct (stream_feed_rep (en_stream e) x frame m1 m2 Hx Hf) as (rc2&st2&x2&Hfeed2&Hx2&_&Hcase).
    rewrite Hfeed in Hfeed2. injection Hfeed2 as <- <-. by exists x2.
  - intros Hm. injection E1 as <- <-. cbn in E2. rewrite Hm in E2. injection E2 as <- <-. rewrite Hm. by cbn.
Qed.

Lemma stream_read_spec p ptr e cap :
  streams_ok p -> entry_at p ptr = Some e -> 0 <= cap ->
  exists rc out st p', session_stream_read ptr cap p = Some (rc, out, p') /\ streams_only p p' /\ streams_ok p' /\
    sesh p' = sesh p /\ u_heap (p_user p') = <[ptr := StreamEntry st (en_retired e)]> (u_heap (p_user p)) /\
    send_side st = send_side (en_stream e) /\
    forall x, rx_rep (en_stream e) x -> rx_rep st (rx_spec (RxRead cap) x).2 /\
      rc = rs_rc (rx_spec (RxRead cap) x).1 /\ out = rs_out (rx_spec (RxRead cap) x).1.
Proof.
  intros Hs He Hcap. destruct (entry_ok _ _ _ Hs He) as (_&Hok). pose proof Hok as ((x0&Hx0)&_).
  unfold session_stream_read. rewrite He. cbn [mbind option_bind].
  destruct (read_rep (en_stream e) x0 cap Hx0 Hcap) as (rc&out&st&Hread&Hx'&Hsend&_). rewrite Hread. cbn [mbind option_bind].
  assert (Hid : st_id st = st_id (en_stream e)) by (unfold send_side in Hsend; by injection Hsend).
  exists rc, out, st, (store_stream p ptr e st). split; [done|].
  split; [|split; [|split; [done|split; [done|split; [exact Hsend|]]]]].
  - exists (ss_streams (sesh p)), (ss_active_stream_count (sesh p)), (ss_next_stream_id (sesh p)),
      (<[ptr := StreamEntry st (en_retired e)]> (u_heap (p_user p))), (u_next (p_user p)), (u_mem (p_user p)).
    by destruct p as [? ? ? ? ? ? [[] ? ? ? ? ? ?]].
  - apply (streams_store (sesh p) (u_heap (p_user p))); [exact Hs|exact He| |exact Hid].
    eapply stream_ok_send; [exact Hok|by eexists|exact Hsend].
  - intros x Hx. destruct (read_rep (en_stream e) x cap Hx Hcap) as (rc2&out2&st2&Hread2&Hx2&_&Hrc&Hout).
    rewrite Hread in Hread2. by injection Hread2 as <- <- <-.
Qed.

(** ** New streams *)

Definition stream_fresh (s : cloak_session) (id : Z) (st : cloak_stream_t) : Prop :=
  rx_rep st (rx_fresh (ss_ordering s) (ss_stream_recv_capacity s) (ss_stream_max_pending_frames s)) /\
  st_id st = id /\ st_next_write_seq st = 0 /\ st_write_closed st = false /\ stream_ok s st.

Lemma init_fresh s id b1 b2 :
  session_shape s -> 0 <= id < 4294967296 ->
  exists rc st, cloak_stream_init id (ss_obfuscator s) (ss_max_on_wire_size s) (ss_stream_recv_capacity s)
      (ss_stream_max_pending_frames s) (ss_ordering s) false (block b1 (ss_max_on_wire_size s))
      (block b2 (ss_stream_recv_capacity s)) = (rc, st) /\
    (if b1 && b2 then rc = 0 /\ stream_fresh s id st else rc <> 0).
Proof.
  intros (Hord&Hobf&[Hw1 Hw2]&[Hc1 Hc2]&Hp&_) Hid. unfold CLOAK_CONN_MAX_FRAME_LEN in Hw2. destruct (b1 && b2) eqn:E.
  - destruct b1, b2; try done. cbn [block].
    assert (Hrep : forall n, 0 <= n -> zlen (replicate (Z.to_nat n) 0) = n) by (intros n Hn; unfold zlen; rewrite length_replicate; lia).
    unfold CLOAK_FRAME_HEADER_LEN, CLOAK_FRAME_MAX_EXTRA_LEN in *.
    destruct (stream_init_rep id (ss_obfuscator s) (ss_max_on_wire_size s) (ss_stream_recv_capacity s)
      (ss_stream_max_pending_frames s) (ss_ordering s) (replicate (Z.to_nat (ss_max_on_wire_size s)) 0)
      (replicate (Z.to_nat (ss_stream_recv_capacity s)) 0)) as (st&->&Hx&H1&H2&H3&H4&H5&H6&H7);
      unfold CLOAK_FRAME_HEADER_LEN, CLOAK_FRAME_MAX_EXTRA_LEN, INT64_MAX in *; try done; try lia; try (apply Hrep; lia).
    exists 0, st. split; [done|]. split; [done|]. split; [exact Hx|]. split; [done|]. split; [done|]. split; [done|].
    split; [by eexists|]. rewrite H1, H2, H3, H4, H6, H7. split; [|lia]. rewrite Hrep by lia. done.
  - unfold cloak_stream_init.
    destruct (negb _ && negb _); [by do 2 eexists|]. destruct (_ || _ || _ || _); [by do 2 eexists|].
    destruct b1; [destruct b2; [done|]|by do 2 eexists]. cbn [block].
    destruct (_ =? CLOAK_SESSION_ORDERING_UNORDERED).
    + unfold cloak_msgqueue_init. repeat (case_match; simplify_eq); by do 2 eexists.
    + unfold cloak_bytequeue_init. repeat (case_match; simplify_eq); by do 2 eexists.
Qed.

Lemma create_spec id p :
  session_shape (sesh p) -> streams_ok p -> 0 <= id < 4294967296 ->
  exists created p', session_create_stream id p = Some (created, p') /\ streams_only p p' /\ streams_ok p' /\
    ss_next_stream_id (sesh p') = ss_next_stream_id (sesh p) /\
    (u_mem (p_user p) = [] -> u_mem (p_user p') = []) /\
    match created with
    | None => u_heap (p_user p') = u_heap (p_user p) /\ ss_active_stream_count (sesh p') = ss_active_stream_count (sesh p) /\
        (u_mem (p_user p) <> [] \/ exists ptr e, entry_at p ptr = Some e /\ st_id (en_stream e) = id /\ en_retired e = 0)
    | Some ptr => exists st, ptr = u_next (p_user p) /\ entry_at p ptr = None /\
        u_heap (p_user p') = <[ptr := StreamEntry st 0]> (u_heap (p_user p)) /\ stream_fresh (sesh p) id st /\
        ss_active_stream_count (sesh p') = ss_active_stream_count (sesh p) + 1 /\ 0 <= ss_active_stream_count (sesh p)
    end.
Proof.
  intros Hshape Hs Hid. unfold session_create_stream.
  destruct (session_malloc p) as [m1 p1] eqn:E1. destruct (malloc_only _ _ _ E1) as (O1&S1&H1&N1).
  assert (Hsame : forall q, streams_only p q -> sesh q = sesh p -> u_heap (p_user q) = u_heap (p_user p) ->
    u_next (p_user q) = u_next (p_user p) -> (u_mem (p_user p) = [] -> u_mem (p_user q) = []) -> u_mem (p_user p) <> [] ->
    exists created p', Some (None (A := Z), q) = Some (created, p') /\ streams_only p p' /\ streams_ok p' /\
    ss_next_stream_id (sesh p') = ss_next_stream_id (sesh p) /\ (u_mem (p_user p) = [] -> u_mem (p_user p') = []) /\
    match created with
    | None => u_heap (p_user p') = u_heap (p_user p) /\ ss_active_stream_count (sesh p') = ss_active_stream_count (sesh p) /\
        (u_mem (p_user p) <> [] \/ exists ptr e, entry_at p ptr = Some e /\ st_id (en_stream e) = id /\ en_retired e = 0)
    | Some ptr => exists st, ptr = u_next (p_user p) /\ entry_at p ptr = None /\
        u_heap (p_user p') = <[ptr := StreamEntry st 0]> (u_heap (p_user p)) /\ stream_fresh (sesh p) id st /\
        ss_active_stream_count (sesh p') = ss_active_stream_count (sesh p) + 1 /\ 0 <= ss_active_stream_count (sesh p)
    end).
  { intros q HO HS HH HN HM Hne. exists None, q. split; [done|]. split; [done|]. split; [by unfold streams_ok; rewrite HS, HH, HN|].
    split; [by rewrite HS|]. split; [done|]. split; [done|]. split; [by rewrite HS|]. by left. }
  assert (Hmem : u_mem (p_user p) = [] -> m1 = true /\ u_mem (p_user p1) = []).
  { intros Hm. injection E1 as <- <-. cbn. by rewrite Hm. }
  destruct m1; cbn [negb].
  2: { apply Hsame; [done|done|done|done|tauto|]. intros Hm. by destruct (Hmem Hm). }
  destruct (session_malloc p1) as [m2 p2] eqn:E2. destruct (malloc_only _ _ _ E2) as (O2&S2&H2&N2).
  destruct (session_malloc p2) as [m3 p3] eqn:E3. destruct (malloc_only _ _ _ E3) as (O3&S3&H3&N3).
  assert (Hs3 : sesh p3 = sesh p) by congruence. assert (Hh3 : u_heap (p_user p3) = u_heap (p_user p)) by congruence.
  assert (Hn3 : u_next (p_user p3) = u_next (p_user p)) by congruence.
  assert (HO3 : streams_only p p3) by (eapply streams_only_trans; [exact O1|]; by eapply streams_only_trans).
  assert (Hmem3 : u_mem (p_user p) = [] -> m2 && m3 = true /\ u_mem (p_user p3) = []).
  { intros Hm. destruct (Hmem Hm) as [_ Hm1]. injection E2 as <- <-. cbn in E3. rewrite Hm1 in E3. injection E3 as <- <-.
    by rewrite Hm1. }
  rewrite Hs3. destruct (init_fresh (sesh p) id m2 m3 Hshape Hid) as (rc&st&->&Hinit).
  destruct (m2 && m3) eqn:Em23.
  2: { rewrite (proj2 (Z.eqb_neq rc 0) Hinit). cbn [negb]. apply Hsame; [done|done|done|done|tauto|].
       intros Hm. by destruct (Hmem3 Hm). }
  destruct Hinit as [-> Hfresh]. cbn [Z.eqb negb].
  destruct (session_malloc p3) as [m4 p4] eqn:E4. destruct (malloc_only _ _ _ E4) as (O4&S4&H4&N4).
  assert (Hs4 : sesh p4 = sesh p) by congruence. assert (Hh4 : u_heap (p_user p4) = u_heap (p_user p)) by congruence.
  assert (Hn4 : u_next (p_user p4) = u_next (p_user p)) by congruence.
  assert (Hmem4 : u_mem (p_user p) = [] -> m4 = true /\ u_mem (p_user p4) = []).
  { intros Hm. destruct (Hmem3 Hm) as [_ Hm3]. injection E4 as <- <-. cbn. by rewrite Hm3. }
  rewrite Hs4, Hn4. destruct Hs as [(m&Htab) Hall]. set (ptr := u_next (p_user p)).
  assert (Hnone : u_heap (p_user p) !! ptr = None).
  { destruct (u_heap (p_user p) !! ptr) as [e|] eqn:E; [|done]. destruct (Hall ptr e E) as [Hlt _]. unfold ptr in Hlt. lia. }
  destruct (table_add (sesh p) (u_heap (p_user p)) m id ptr st m4 Htab Hid Hnone (proj1 (proj2 Hfresh)))
    as (rc&t&m'&->&Hadd). cbn [mbind option_bind].
  assert (HO4 : streams_only p p4) by (eapply streams_only_trans; [exact HO3|exact O4]).
  destruct (Z.eqb_spec rc 0) as [->|Hne]; cbn [negb].
  - destruct Hadd as (Hno&->&Htab'). eexists (Some ptr), _. split; [reflexivity|]. split.
    { eapply streams_only_trans; [exact HO4|]. eexists _, _, (ss_next_stream_id (sesh p4)), _, _, _. reflexivity. }
    split.
    + split; [eexists; cbn; change (u_sesh (p_user p4)) with (sesh p4); rewrite Hh4, Hs4; exact Htab'|]. cbn. change (u_sesh (p_user p4)) with (sesh p4). rewrite Hh4, ?Hs4. intros q e Hq.
      destruct (decide (q = ptr)) as [->|Hqn].
      * rewrite lookup_insert_eq in Hq. injection Hq as <-. split; [lia|]. apply Hfresh.
      * rewrite lookup_insert_ne in Hq by done. destruct (Hall q e Hq) as [Hlt Hok]. split; [unfold ptr; lia|exact Hok].
    + split; [cbn; change (u_sesh (p_user p4)) with (sesh p4); by rewrite Hs4|]. split; [intros Hm; by apply Hmem4|]. exists st. split; [done|]. split; [exact Hnone|].
      split; [by cbn; rewrite Hh4|]. split; [exact Hfresh|]. cbn. change (u_sesh (p_user p4)) with (sesh p4). rewrite Hs4. destruct Htab as (Ht&Hc&_).
      pose proof (active_size_bound _ _ Ht). rewrite Hc. split; [apply u64_small; lia|lia].
  - destruct Hadd as (Hwhy&->&Htab'). eexists None, _. split; [reflexivity|]. split.
    { eapply streams_only_trans; [exact HO4|].
      exists t, (ss_active_stream_count (sesh p4)), (ss_next_stream_id (sesh p4)), (u_heap (p_user p4)), (u_next (p_user p4)), (u_mem (p_user p4)).
      rewrite <- Hs4. done. }
    split; [|split; [by cbn; rewrite ?Hs4|split; [intros Hm; by apply Hmem4|split; [exact Hh4|split; [by cbn; rewrite ?Hs4|]]]]].
    + split; [eexists; cbn; rewrite Hh4; exact Htab'|]. cbn. rewrite Hh4, Hn4. intros q e Hq. apply (Hall q e Hq).
    + destruct Hwhy as [->|(v&Hv)]; [left; intros Hm; by destruct (Hmem4 Hm)|right].
      apply (proj2 (proj2 (proj2 Htab))) in Hv as (e&He&Hi&Hr). by exists v, e.
Qed.

End ops.
