(* ===== verification/SessionSteps.v ===== *)
(** * What each function of a session does

    The functions of [Session] that do not send: the timers, closing, retiring
    and freeing streams, and the arrival of a frame. *)
From stdpp Require Import gmap.
From S2P Require Import Prelude Refinement Fallible Random Frame Aead ByteQueue MsgQueue Heap Stream StreamSpec StreamDelivery StrmTab Valve ReactorApi Conn ConnInv Switchboard SwitchboardRng SwitchboardInv SwitchboardRun Session SessionInv SessionStreams.

Section steps.
Context {R A : Type} {RR : Reactor R} {RL : ReactorLaws R} {EV : Evp}.
#[local] Abbreviation world := (pool_world R (session_user A)).
Implicit Types p : world.

(** ** Timers *)

(** The inactivity timer starts again: of the old one nothing is left. *)
Lemma reschedule_spec p :
  env_ready p -> session_core p -> ss_closed (sesh p) = 0 ->
  let p' := session_reschedule_inactivity_timer p in
  session_moves p p' /\ session_inv p' /\
  exists id tm, p_user p' = SessionUser (with_timer_ids (sesh p) id (ss_teardown_timer_id (sesh p)) (ss_closed (sesh p)))
    (u_heap (p_user p)) (u_next (p_user p)) (u_mem (p_user p)) tm (u_log (p_user p)) (u_app (p_user p)).
Proof.
  intros Hr (H1&H2&H3&(T1&T2&T3&T4&T5&T6)) Hc. cbv zeta. unfold session_reschedule_inactivity_timer.
  assert (Hn : ~ pool_timer (sb_conns (p_sb p)) (ss_inactivity_timer_id (sesh p))).
  { destruct T2 as [E|[cb E]]; [intros [Hx _]; by apply Hx|by apply (T1 _ _ E)]. }
  destruct (cancel_timer_moves p _ Hr Hn) as [M1 A1]. set (p1 := session_cancel_timer p _) in *.
  pose proof (moves_ready _ _ Hr M1) as Hr1.
  destruct (session_add_timer p1 _ CheckTimeout) as [id p2] eqn:E.
  destruct (add_timer_moves _ _ _ _ _ Hr1 E) as (M2&Hu&Hid). pose proof (moves_ready _ _ Hr1 M2) as Hr2.
  change (p_user p1) with (p_user p) in Hu.
  assert (Hs2 : sesh p2 = sesh p) by (unfold sesh; by rewrite Hu).
  set (p3 := set_sesh p2 _).
  assert (M : session_moves p p3).
  { eapply moves_trans; [exact M1|]. eapply moves_trans; [exact M2|]. apply user_moves; [exact Hr2|]. done. }
  assert (Hu3 : p_user p3 = SessionUser (with_timer_ids (sesh p) id (ss_teardown_timer_id (sesh p)) (ss_closed (sesh p)))
    (u_heap (p_user p)) (u_next (p_user p)) (u_mem (p_user p))
    (if id =? CLOAK_TIMER_INVALID then u_timers (p_user p) else <[id:=CheckTimeout]> (u_timers (p_user p)))
    (u_log (p_user p)) (u_app (p_user p))).
  { unfold p3. cbn [p_user set_sesh set_user]. rewrite Hs2, Hu. done. }
  split; [exact M|]. split; [|by do 2 eexists].
  assert (Hold : forall i cb, u_timers (p_user p) !! i = Some cb -> ~ armed (p_reactor p1) i).
  { intros i cb Hi Ha. apply A1 in Ha as [Hne Ha]. specialize (T4 _ _ Hi Ha). destruct (is_check cb); [|by destruct T4].
    by destruct T4. }
  pose proof (proj2 (sm_aged _ _ M1)) as Hsp. change (p_reactor p3) with (p_reactor p2) in *.
  assert (Htd : ss_teardown_timer_id (sesh p) = CLOAK_TIMER_INVALID) by auto.
  split; [split|]; unfold sesh; rewrite ?Hu3; cbn [u_sesh u_timers u_log u_heap u_next].
  - exact H1.
  - split; [exact H2|]. rewrite (moves_sb _ _ M). split; [exact H3|]. change (p_reactor p3) with (p_reactor p2).
    pose proof (proj2 (sm_aged _ _ (moves_trans _ _ _ M1 M2))) as Hsp2.
    destruct (Z.eqb_spec id CLOAK_TIMER_INVALID) as [->|Hne].
    + split; [|split; [by left|split; [by left|split; [|split; [done|exact T6]]]]].
      * intros i cb Hi. destruct (T1 _ _ Hi) as (?&?&?). split; [done|]. by split; [apply Hsp2|].
      * intros i cb Hi Ha. destruct (Hold _ _ Hi). by apply Hid.
    + destruct Hid as (Hnew&Hnp&Ha2). split; [|split; [right; eexists; apply lookup_insert_eq|split; [by left|split; [|split; [done|]]]]].
      * intros i cb Hi. destruct (decide (i = id)) as [->|Hi2].
        -- split; [done|]. split; [|exact Hnp]. apply armed_spent; [apply Hr2|]. apply Ha2. by left.
        -- rewrite lookup_insert_ne in Hi by done. destruct (T1 _ _ Hi) as (?&?&?). split; [done|]. by split; [apply Hsp2|].
      * intros i cb Hi Ha. destruct (decide (i = id)) as [->|Hi2].
        -- rewrite lookup_insert_eq in Hi. injection Hi as <-. by split.
        -- rewrite lookup_insert_ne in Hi by done. apply Ha2 in Ha as [|Ha]; [done|]. by destruct (Hold _ _ Hi).
      * split; [apply T6|]. intros _. apply T6. by left.
  - split; cbn [ss_teardown_timer_id ss_inactivity_timer_id with_timer_ids].
    + intros Hx. by destruct (Hx Htd).
    + intros _ _ Hx. rewrite (proj2 (Z.eqb_neq _ _) Hx) in *. split; [apply Hid; by left|apply lookup_insert_eq].
Qed.

(** A teardown timer for a closed session that has none running. *)
Lemma schedule_core p cb :
  env_ready p -> session_core p -> ss_closed (sesh p) <> 0 -> is_check cb = false ->
  (forall i c, u_timers (p_user p) !! i = Some c -> ~ armed (p_reactor p) i) ->
  (cb = DeferredTeardown -> told_broken (u_log (p_user p)) = []) ->
  forall id p1, session_add_timer p 0 cb = (id, p1) ->
  let p' := set_sesh p1 (with_timer_ids (sesh p1) (ss_inactivity_timer_id (sesh p1)) id (ss_closed (sesh p1))) in
  session_moves p p' /\ session_inv p' /\
  exists tm, p_user p' = SessionUser (with_timer_ids (sesh p) (ss_inactivity_timer_id (sesh p)) id (ss_closed (sesh p)))
    (u_heap (p_user p)) (u_next (p_user p)) (u_mem (p_user p)) tm (u_log (p_user p)) (u_app (p_user p)) /\
    (id <> CLOAK_TIMER_INVALID -> armed (p_reactor p') id /\ tm !! id = Some cb).
Proof.
  intros Hr (H1&H2&H3&(T1&T2&T3&T4&T5&T6&T7)) Hc Hcb Hidle Htold id p1 E p'.
  destruct (add_timer_moves _ _ _ _ _ Hr E) as (M1&Hu&Hid). pose proof (moves_ready _ _ Hr M1) as Hr1.
  assert (Hs1 : sesh p1 = sesh p) by (unfold sesh; by rewrite Hu).
  assert (M : session_moves p p') by (eapply moves_trans; [exact M1|]; by apply user_moves).
  set (tm := if id =? CLOAK_TIMER_INVALID then u_timers (p_user p) else <[id:=cb]> (u_timers (p_user p))) in *.
  assert (Hu2 : p_user p' = SessionUser (with_timer_ids (sesh p) (ss_inactivity_timer_id (sesh p)) id (ss_closed (sesh p)))
    (u_heap (p_user p)) (u_next (p_user p)) (u_mem (p_user p)) tm (u_log (p_user p)) (u_app (p_user p))).
  { unfold p'. cbn [p_user set_sesh set_user]. rewrite Hs1, Hu. done. }
  pose proof (proj2 (sm_aged _ _ M1)) as Hsp. change (p_reactor p') with (p_reactor p1).
  split; [exact M|]. split; [|exists tm; split; [exact Hu2|]].
  2: { unfold tm. intros Hne. rewrite (proj2 (Z.eqb_neq _ _) Hne) in *. split; [apply Hid; by left|apply lookup_insert_eq]. }
  split; [split|]; unfold sesh; rewrite ?Hu2; cbn [u_sesh u_timers u_log u_heap u_next]; [exact H1| |].
  - split; [exact H2|]. rewrite (moves_sb _ _ M). split; [exact H3|]. change (p_reactor p') with (p_reactor p1). unfold tm.
    destruct (Z.eqb_spec id CLOAK_TIMER_INVALID) as [->|Hne].
    + split; [|split; [exact T2|split; [by left|split; [|split; [done|split; [exact T6|]]]]]].
      * intros i c Hi. destruct (T1 _ _ Hi) as (?&?&?). split; [done|]. by split; [apply Hsp|].
      * intros i c Hi Ha. destruct (Hidle _ _ Hi). by apply Hid.
      * cbn. intros [Hz|Hx]; [done|]. by destruct (T1 _ _ Hx).
    + destruct Hid as (Hnew&Hnp&Ha2). split; [|split; [|split; [|split; [|split; [done|split; [exact T6|]]]]]].
      * intros i c Hi. destruct (decide (i = id)) as [->|Hi2].
        -- split; [done|]. split; [|exact Hnp]. apply armed_spent; [apply Hr1|]. apply Ha2. by left.
        -- rewrite lookup_insert_ne in Hi by done. destruct (T1 _ _ Hi) as (?&?&?). split; [done|]. by split; [apply Hsp|].
      * destruct T2 as [|[c Hx]]; [by left|right]. cbn.
        destruct (decide (id = ss_inactivity_timer_id (sesh p))) as [<-|Hn]; [eexists; apply lookup_insert_eq|].
        exists c. rewrite lookup_insert_ne by done. exact Hx.
      * right. exists cb. split; [apply lookup_insert_eq|done].
      * intros i c Hi Ha. destruct (decide (i = id)) as [->|Hi2].
        -- rewrite lookup_insert_eq in Hi. injection Hi as <-. rewrite Hcb. by split.
        -- rewrite lookup_insert_ne in Hi by done. apply Ha2 in Ha as [|Ha]; [done|]. by destruct (Hidle _ _ Hi).
      * cbn. rewrite lookup_insert_eq. intros [Hz|[= Hx]]; [done|]. by apply Htold.
  - split; cbn [ss_teardown_timer_id ss_closed with_timer_ids]; [|done].
    intros Hne. unfold tm in *. rewrite (proj2 (Z.eqb_neq _ _) Hne) in Hid. apply Hid. by left.
Qed.

(** ** Closing *)

(** The first close, and what it leaves to be done. *)
Definition first_closed p p' : Prop :=
  p_user p' = SessionUser (with_timer_ids (sesh p) (ss_inactivity_timer_id (sesh p)) CLOAK_TIMER_INVALID 1)
      (u_heap (p_user p)) (u_next (p_user p)) (u_mem (p_user p)) (u_timers (p_user p)) (u_log (p_user p)) (u_app (p_user p)) /\
  (forall i c, u_timers (p_user p) !! i = Some c -> ~ armed (p_reactor p') i).

Lemma first_close_spec p :
  env_ready p -> session_core p -> ss_closed (sesh p) = 0 ->
  exists p', session_close_internal p = (1, p') /\ session_moves p p' /\ session_inv p' /\
    session_waits (p_user p) (p_user p') /\ first_closed p p'.
Proof.
  intros Hr (H1&H2&H3&(T1&T2&T3&T4&T5&T6&T7)) Hz. unfold session_close_internal. rewrite Hz. cbn [negb Z.eqb].
  set (p1 := set_sesh p _). assert (Hr1 : env_ready p1) by exact Hr.
  assert (Hn : ~ pool_timer (sb_conns (p_sb p1)) (ss_inactivity_timer_id (sesh p1))).
  { destruct T2 as [E|[cb E]]; [intros [Hx _]; by apply Hx|by apply (T1 _ _ E)]. }
  destruct (cancel_timer_moves p1 _ Hr1 Hn) as [M1 A1]. set (p2 := session_cancel_timer p1 _) in *.
  assert (M : session_moves p p2) by (eapply moves_trans; [|exact M1]; by apply user_moves).
  assert (Htd : ss_teardown_timer_id (sesh p) = CLOAK_TIMER_INVALID) by auto.
  assert (Hu2 : p_user p2 = SessionUser (with_timer_ids (sesh p) (ss_inactivity_timer_id (sesh p)) CLOAK_TIMER_INVALID 1)
      (u_heap (p_user p)) (u_next (p_user p)) (u_mem (p_user p)) (u_timers (p_user p)) (u_log (p_user p)) (u_app (p_user p))).
  { rewrite <- Htd. done. }
  assert (Hidle : forall i c, u_timers (p_user p) !! i = Some c -> ~ armed (p_reactor p2) i).
  { intros i c Hi' Ha. apply A1 in Ha as [Hne Ha]. specialize (T4 _ _ Hi' Ha). destruct (is_check c); by destruct T4. }
  assert (Hw : session_waits (p_user p) (p_user p2)).
  { split; [|apply heap_kept_refl]. split; [done|]. split; [done|]. exists []. by rewrite app_nil_r. }
  exists p2. split; [done|]. clearbody p2. split; [exact M|]. split; [|by split].
  pose proof (proj2 (sm_aged _ _ M)) as Hsp.
  split; [split|]; unfold sesh; rewrite ?Hu2; cbn [u_sesh u_timers u_log u_heap u_next]; [exact H1| |].
  - split; [exact H2|]. rewrite (moves_sb _ _ M). split; [exact H3|].
    split; [|split; [exact T2|split; [by left|split; [|split; [done|split; [exact T6|]]]]]].
    + intros i c Hx. destruct (T1 _ _ Hx) as (?&?&?). split; [done|]. by split; [apply Hsp|].
    + intros i c Hx Ha. by destruct (Hidle _ _ Hx).
    + intros _. apply T7. by left.
  - split; cbn; done.
Qed.

Lemma close_internal_spec p :
  env_ready p -> session_inv p ->
  let '(first, p') := session_close_internal p in
  session_moves p p' /\ session_inv p' /\ session_waits (p_user p) (p_user p') /\ ss_closed (sesh p') <> 0 /\
  if negb (ss_closed (sesh p) =? 0) then first = 0 /\ p' = p else first = 1 /\ first_closed p p'.
Proof.
  intros Hr Hi. destruct (Z.eqb_spec (ss_closed (sesh p)) 0) as [Hz|Hz]; cbn [negb].
  - destruct (first_close_spec p Hr (proj1 Hi) Hz) as (p'&->&M&Hi'&Hw&Hf). pose proof Hf as [Hu _].
    do 3 (split; [done|]). split; [unfold sesh; by rewrite Hu|by split].
  - unfold session_close_internal. rewrite (proj2 (Z.eqb_neq _ _) Hz). cbn [negb].
    split; [apply moves_refl, Hr|]. split; [done|]. split; [apply session_waits_refl|]. by split.
Qed.

(** Closed by the peer or by the failure of a connection: the teardown is
    scheduled, unless it was. *)
Definition closing p p' : Prop :=
  exists id tm, p_user p' = SessionUser (with_timer_ids (sesh p) (ss_inactivity_timer_id (sesh p)) id 1)
    (u_heap (p_user p)) (u_next (p_user p)) (u_mem (p_user p)) tm (u_log (p_user p)) (u_app (p_user p)) /\
    (id <> CLOAK_TIMER_INVALID -> armed (p_reactor p') id /\ tm !! id = Some DeferredTeardown).

Lemma passive_close_spec p :
  env_ready p -> session_inv p ->
  let p' := session_passive_close p in
  session_moves p p' /\ session_inv p' /\ session_waits (p_user p) (p_user p') /\ ss_closed (sesh p') <> 0 /\
  if negb (ss_closed (sesh p) =? 0) then p' = p else closing p p'.
Proof.
  intros Hr Hi. cbv zeta. unfold session_passive_close. pose proof (close_internal_spec p Hr Hi) as Hc.
  destruct (session_close_internal p) as [first p1]. destruct Hc as (M1&Hi1&Hw1&Hcl&Hcase).
  destruct (Z.eqb_spec (ss_closed (sesh p)) 0) as [Hz|Hnz]; cbn [negb] in *.
  2: { destruct Hcase as [-> ->]. cbn. split; [done|]. split; [done|]. split; [done|]. by split. }
  destruct Hcase as (->&(Hu1&Hidle)). cbn [Z.eqb].
  pose proof (moves_ready _ _ Hr M1) as Hr1. unfold session_schedule_deferred_teardown.
  destruct (session_add_timer p1 0 DeferredTeardown) as [id p2] eqn:E.
  assert (Hs1 : sesh p1 = with_timer_ids (sesh p) (ss_inactivity_timer_id (sesh p)) CLOAK_TIMER_INVALID 1)
    by (unfold sesh at 1; by rewrite Hu1).
  destruct (schedule_core p1 DeferredTeardown Hr1 (proj1 Hi1) Hcl eq_refl) with (id := id) (p1 := p2)
    as (M2&Hi2&tm&Hu2&Htm); [by rewrite Hu1| |done|].
  { intros _. rewrite Hu1. destruct Hi as [(_&_&_&(_&_&_&_&_&_&T7)) _]. apply T7. by left. }
  set (p3 := set_sesh p2 _) in *. clearbody p3. rewrite Hs1, Hu1 in Hu2. cbn in Hu2.
  assert (Hcl3 : closing p p3) by (exists id, tm; split; [rewrite Hu2; reflexivity|exact Htm]).
  split; [by eapply moves_trans|]. split; [done|]. split; [|split; [unfold sesh; by rewrite Hu2|done]].
  split; [|rewrite Hu2; apply heap_kept_refl]. rewrite Hu2. split; [done|]. split; [by intros ?|].
  exists []. by rewrite app_nil_r.
Qed.

(** ** Retiring *)

Definition retired_entry (e : stream_entry) : stream_entry :=
  StreamEntry (en_stream e) (if en_retired e =? 0 then 1 else en_retired e).

Lemma heap_kept_insert (h : gmap Z stream_entry) ptr e e' :
  h !! ptr = Some e -> st_id (en_stream e') = st_id (en_stream e) -> (en_retired e <> 0 -> en_retired e' <> 0) ->
  heap_kept h (<[ptr := e']> h).
Proof.
  intros He Hid Hr q x Hq. destruct (decide (q = ptr)) as [->|Hne].
  - rewrite lookup_insert_eq. exists e'. split; [done|]. rewrite He in Hq. by injection Hq as <-.
  - rewrite lookup_insert_ne by done. by exists x.
Qed.

Lemma streams_drop s h h' next t m :
  streams_inv s h next -> table_ok (with_streams s t (u64 (ss_active_stream_count s - 1))) h' m ->
  (forall q e', h' !! q = Some e' -> exists e, h !! q = Some e /\ en_stream e' = en_stream e) ->
  streams_inv (with_streams s t (u64 (ss_active_stream_count s - 1))) h' next.
Proof.
  intros [_ Hall] Ht Hsub. split; [by exists m|]. intros q e' Hq. destruct (Hsub q e' Hq) as (e&He&->). exact (Hall q e He).
Qed.

Lemma retire_spec p ptr e :
  env_ready p -> session_inv p -> entry_at p ptr = Some e ->
  exists p', session_retire_stream p ptr = Some p' /\ session_moves p p' /\ session_inv p' /\
    session_waits (p_user p) (p_user p') /\
    u_heap (p_user p') = <[ptr := retired_entry e]> (u_heap (p_user p)) /\ u_next (p_user p') = u_next (p_user p) /\
    u_log (p_user p') = u_log (p_user p) /\ u_mem (p_user p') = u_mem (p_user p) /\
    ss_closed (sesh p') = ss_closed (sesh p) /\ ss_next_stream_id (sesh p') = ss_next_stream_id (sesh p).
Proof.
  intros Hr Hi He. unfold session_retire_stream, retired_entry. rewrite He. cbn [mbind option_bind].
  destruct (Z.eqb_spec (en_retired e) 0) as [Hz|Hnz]; cbn [negb].
  2: { exists p. split; [done|]. split; [apply moves_refl, Hr|]. split; [done|]. split; [apply session_waits_refl|].
       split; [|done]. symmetry. apply insert_id. by destruct e. }
  pose proof Hi as [Hcore [L1 L2]]. pose proof Hcore as (H1&H2&H3&H4). pose proof H2 as [(m&Hm) Hall].
  destruct (Hall ptr e He) as [_ (_&_&Hid&_)].
  set (h' := <[ptr := StreamEntry (en_stream e) 1]> (u_heap (p_user p))).
  destruct (table_drop (sesh p) (u_heap (p_user p)) h' m ptr e Hm He Hz Hid) as (t&Htomb&Hm').
  { intros q Hq. unfold h'. by rewrite lookup_insert_ne. }
  { intros e'. unfold h'. rewrite lookup_insert_eq. by intros [= <-]. }
  change (ss_streams (sesh (store_entry p ptr (StreamEntry (en_stream e) 1)))) with (ss_streams (sesh p)).
  rewrite Htomb. cbn [mbind option_bind].
  set (p1 := set_sesh (store_entry p ptr _) _).
  assert (Hu1 : p_user p1 = SessionUser (with_streams (sesh p) t (u64 (ss_active_stream_count (sesh p) - 1))) h'
    (u_next (p_user p)) (u_mem (p_user p)) (u_timers (p_user p)) (u_log (p_user p)) (u_app (p_user p))) by done.
  assert (M1 : session_moves p p1) by exact (user_moves p (p_user p1) Hr eq_refl). assert (Hr1 : env_ready p1) by exact Hr.
  assert (Hs1 : streams_ok p1).
  { apply (streams_drop _ _ h' _ _ _ H2 Hm'). intros q e' Hq. unfold h' in Hq. destruct (decide (q = ptr)) as [->|Hne].
    - rewrite lookup_insert_eq in Hq. injection Hq as <-. by exists e.
    - rewrite lookup_insert_ne in Hq by done. by exists e'. }
  assert (Hc1 : session_core p1) by (split; [exact H1|split; [exact Hs1|split; [exact H3|exact H4]]]).
  assert (Hw1 : session_waits (p_user p) (p_user p1)).
  { split; [split; [done|split; [done|exists []; by rewrite app_nil_r]]|]. by apply (heap_kept_insert _ _ e). }
  destruct (Z.eqb_spec (ss_active_stream_count (sesh p1)) 0) as [Hcz|Hcz];
    [destruct (Z.eqb_spec (ss_closed (sesh p1)) 0) as [Hcl|Hcl]|]; cbn [andb].
  - destruct (reschedule_spec p1 Hr1 Hc1 Hcl) as (M2&Hi2&id&tm&Hu2). set (p2 := session_reschedule_inactivity_timer p1) in *.
    clearbody p2. exists p2. split; [done|]. split; [by eapply moves_trans|]. split; [done|].
    split; [|unfold sesh; by rewrite Hu2]. eapply session_waits_trans; [exact Hw1|]. rewrite Hu2.
    split; [split; [done|split; [done|exists []; by rewrite app_nil_r]]|apply heap_kept_refl].
  - exists p1. split; [done|]. split; [done|]. split; [split; [done|split; [exact L1|done]]|]. by split.
  - exists p1. split; [done|]. split; [done|]. split; [split; [done|split; [exact L1|done]]|]. by split.
Qed.

(** ** Freeing *)

Lemma destroy_iter_spec p m key ptr :
  session_shape (sesh p) -> streams_ok p -> table_ok (sesh p) (u_heap (p_user p)) m ->
  m !! key = Some (CLOAK_STRMTAB_ACTIVE, ptr) ->
  exists p', session_destroy_stream_iter_cb key ptr p = Some p' /\ streams_only p p' /\ streams_ok p' /\
    table_ok (sesh p') (u_heap (p_user p')) (<[key := (CLOAK_STRMTAB_TOMBSTONE, 0)]> m) /\
    u_heap (p_user p') = delete ptr (u_heap (p_user p)) /\ ss_next_stream_id (sesh p') = ss_next_stream_id (sesh p).
Proof.
  intros Hshape Hs Hm Hkey. pose proof (proj1 (proj2 (proj2 (proj2 Hm)) _ _) Hkey) as (e&He&Hid&Hz).
  destruct (proj2 Hs ptr e He) as [_ (_&_&Hrange&_)]. unfold session_destroy_stream_iter_cb, entry_at. rewrite He. cbn [mbind option_bind].
  destruct (table_drop (sesh p) (u_heap (p_user p)) (delete ptr (u_heap (p_user p))) m ptr e Hm He Hz Hrange) as (t&Htomb&Hm').
  { intros q Hq. by rewrite lookup_delete_ne. }
  { intros e'. by rewrite lookup_delete_eq. }
  rewrite Hid in *. cbn. change (u_sesh (p_user p)) with (sesh p). rewrite Htomb. cbn [mbind option_bind].
  eexists. split; [reflexivity|]. split; [|split; [|split; [exact Hm'|done]]].
  - exists t, (u64 (ss_active_stream_count (sesh p) - 1)), (ss_next_stream_id (sesh p)), (delete ptr (u_heap (p_user p))),
      (u_next (p_user p)), (u_mem (p_user p)). by destruct p as [? ? ? ? ? ? [[] ? ? ? ? ? ?]].
  - eapply streams_drop; [exact Hs|exact Hm'|]. intros q e' Hq. cbn in Hq. apply lookup_delete_Some in Hq as [_ Hq]. by exists e'.
Qed.

Lemma destroy_streams_spec calls : forall p m,
  session_shape (sesh p) -> streams_ok p -> table_ok (sesh p) (u_heap (p_user p)) m ->
  NoDup calls.*1 -> (forall k v, (k, v) ∈ calls -> m !! k = Some (CLOAK_STRMTAB_ACTIVE, v)) ->
  exists p' m', destroy_streams calls p = Some p' /\ streams_only p p' /\ streams_ok p' /\
    table_ok (sesh p') (u_heap (p_user p')) m' /\
    (forall k v, m' !! k = Some (CLOAK_STRMTAB_ACTIVE, v) -> m !! k = Some (CLOAK_STRMTAB_ACTIVE, v) /\ ((k, v) ∉ calls)) /\
    (forall q e, u_heap (p_user p') !! q = Some e <-> u_heap (p_user p) !! q = Some e /\ (q ∉ calls.*2)) /\
    ss_next_stream_id (sesh p') = ss_next_stream_id (sesh p).
Proof.
  induction calls as [|[key ptr] calls IH]; intros p m Hshape Hs Hm Hnd Hact; cbn [destroy_streams].
  - exists p, m. split; [done|]. split; [apply streams_only_refl|]. split; [done|]. split; [done|].
    split; [|split; [|done]]; intros; [split; [done|apply not_elem_of_nil]|]. split; [intros; split; [done|apply not_elem_of_nil]|by intros [? _]].
  - cbn in Hnd. apply NoDup_cons in Hnd as [Hkey Hnd].
    destruct (destroy_iter_spec p m key ptr Hshape Hs Hm) as (p1&->&O1&Hs1&Hm1&Hh1&Hn1); [apply Hact; by left|]. cbn [mbind option_bind].
    assert (Hshape1 : session_shape (sesh p1)) by (destruct O1 as (t&c&i&h&n&mm&->); cbn in *; by rewrite Hn1).
    destruct (IH p1 _ Hshape1 Hs1 Hm1 Hnd) as (p2&m2&->&O2&Hs2&Hm2&Hact2&Hh2&Hn2).
    { intros k v Hin. rewrite lookup_insert_ne; [by apply Hact; right|]. intros ->. apply Hkey.
      apply list_elem_of_fmap. by exists (k, v). }
    exists p2, m2. split; [done|]. split; [by eapply streams_only_trans|]. split; [done|]. split; [done|].
    split; [|split; [|congruence]].
    + intros k v Hk. destruct (Hact2 k v Hk) as [Hk1 Hnin]. destruct (decide (k = key)) as [->|Hne].
      * by rewrite lookup_insert_eq in Hk1.
      * rewrite lookup_insert_ne in Hk1 by done. split; [done|]. rewrite not_elem_of_cons. split; [congruence|done].
    + intros q e. rewrite Hh2, Hh1. cbn. rewrite not_elem_of_cons, lookup_delete_Some. split; [intros [[? ?] ?]|intros [? [? ?]]]; by split_and!.
Qed.

(** The active streams are freed, the others are not. *)
Lemma free_streams_spec p :
  session_shape (sesh p) -> streams_ok p ->
  exists p', session_free_all_active_streams p = Some p' /\ streams_only p p' /\ streams_ok p' /\
    (forall q e, u_heap (p_user p') !! q = Some e <-> u_heap (p_user p) !! q = Some e /\ en_retired e <> 0) /\
    ss_next_stream_id (sesh p') = ss_next_stream_id (sesh p) /\ ss_active_stream_count (sesh p') = 0.
Proof.
  intros Hshape Hs. pose proof Hs as [(m&Hm) _]. pose proof Hm as (Ht&_&_&Hact).
  destruct (strmtab_for_each_spec _ _ Ht) as [Hnd Hcalls].
  destruct (destroy_streams_spec (cloak_strmtab_for_each_active (ss_streams (sesh p))) p m Hshape Hs Hm Hnd)
    as (p'&m'&Hrun&Ho&Hs'&Hm'&Hact'&Hh'&Hn').
  { intros k v Hin. by apply Hcalls. }
  exists p'. split; [exact Hrun|]. split; [done|]. split; [done|]. split; [|split; [done|]].
  - intros q e. rewrite Hh'. split; intros [Hq Hx]; (split; [done|]).
    + intros Hz. apply Hx. apply list_elem_of_fmap. exists (st_id (en_stream e), q). split; [done|].
      apply Hcalls, Hact. by exists e.
    + intros Hin. apply list_elem_of_fmap in Hin as ([k v]&->&Hin). apply Hcalls, Hact in Hin as (e'&He'&_&Hz).
      cbn in Hq. congruence.
  - destruct Hm' as (_&Hc&Hst&_). rewrite Hc. assert (active m' = ∅) as ->; [|done].
    apply map_empty. intros k. destruct (active m' !! k) as [[st v]|] eqn:E; [exfalso|done].
    assert (st = CLOAK_STRMTAB_ACTIVE) as -> by (by apply map_lookup_filter_Some in E as [_ E]).
    apply (proj1 (active_lookup _ _ _)) in E. destruct (Hact' k v E) as [Hk Hnin]. by apply Hnin, Hcalls.
Qed.

(** ** A frame arrives *)

Lemma streams_only_inv p p' :
  session_inv p -> streams_only p p' -> streams_ok p' -> 0 <= ss_next_stream_id (sesh p') < 4294967296 ->
  (ss_active_stream_count (sesh p') = 0 -> ss_active_stream_count (sesh p) = 0) -> session_inv p'.
Proof. intros [Hc Hl] Ho Hs Hid Hz. split; [by eapply streams_only_core|by eapply streams_only_live]. Qed.

Definition is_over (rc : Z) : bool := (rc =? 1) || (rc =? -1).
Definition over_entry (rc : Z) (e : stream_entry) : stream_entry := if is_over rc then retired_entry e else e.

(** The stream at [ptr] is fed, and retired if that was its last frame. *)
Lemma feed_over_spec p ptr e frame :
  env_ready p -> session_inv p -> entry_at p ptr = Some e -> rx_op_ok (RxFeed frame) ->
  exists rc p1 p2 st mem_ok, session_feed ptr frame p = Some (rc, p1) /\
    (if is_over rc then session_retire_stream p1 ptr else Some p1) = Some p2 /\
    session_moves p p2 /\ session_inv p2 /\ session_waits (p_user p) (p_user p2) /\
    fed (en_stream e) frame mem_ok rc st /\ (u_mem (p_user p) = [] -> mem_ok = true /\ u_mem (p_user p2) = []) /\
    u_heap (p_user p2) = <[ptr := over_entry rc (StreamEntry st (en_retired e))]> (u_heap (p_user p)) /\
    u_log (p_user p2) = u_log (p_user p) /\ ss_closed (sesh p2) = ss_closed (sesh p).
Proof.
  intros Hr Hi He Hf. pose proof Hi as [((S1&S2&S3&S4&S5&S6)&Hs&_) _].
  destruct (session_feed_spec p ptr e frame Hs He Hf) as (rc&st&mem_ok&p1&Hfeed&O1&Hs1&E1&N1&H1&Hfed&Hmem).
  pose proof (streams_only_moves _ _ Hr O1) as M1. pose proof (moves_ready _ _ Hr M1) as Hr1.
  assert (Hi1 : session_inv p1) by (apply (streams_only_inv p); [done|done|done|by rewrite E1|by rewrite E1]).
  assert (Hid : st_id st = st_id (en_stream e)) by (destruct Hfed as [Hsend _]; unfold send_side in Hsend; by injection Hsend).
  assert (Hw1 : session_waits (p_user p) (p_user p1)).
  { split; [by apply streams_only_along|]. rewrite H1. by apply (heap_kept_insert _ _ e). }
  assert (Hl1 : u_log (p_user p1) = u_log (p_user p)) by (by destruct O1 as (?&?&?&?&?&?&->)).
  exists rc, p1. unfold over_entry. destruct (is_over rc).
  - destruct (retire_spec p1 ptr (StreamEntry st (en_retired e)) Hr1 Hi1) as (p2&Hret&M2&Hi2&Hw2&Hh2&Hn2&Hl2&Hm2&Hc2&_).
    { unfold entry_at. rewrite H1. apply lookup_insert_eq. }
    exists p2, st, mem_ok. split; [done|]. split; [done|]. split; [by eapply moves_trans|]. split; [done|].
    split; [by eapply session_waits_trans|]. split; [done|]. split; [by rewrite Hm2|].
    split; [rewrite Hh2, H1; by rewrite insert_insert_eq|]. split; [congruence|]. congruence.
  - exists p1, st, mem_ok. split; [done|]. split; [done|]. split; [done|]. split; [done|]. split; [done|].
    split; [done|]. split; [done|]. split; [done|]. split; [done|]. by rewrite E1.
Qed.

(** The call of the application that a frame leads to. *)
Inductive app_call := NoCall | CallStreamData (ptr : Z) | CallNewStream (ptr : Z).

(** What becomes of a frame: dropped, the end of the session, fed to the one
    active stream of its identifier, or to a new stream. *)
Definition delivered p (frame : cloak_frame_t) (p1 : world) (call : app_call) : Prop :=
  let id := fr_stream_id frame in
  match cloak_strmtab_lookup (ss_streams (sesh p)) id with
  | Some (Some (state, ptr)) =>
      if state =? CLOAK_STRMTAB_TOMBSTONE then p1 = p /\ call = NoCall
      else exists e rc st mem_ok,
        entry_at p ptr = Some e /\ st_id (en_stream e) = id /\ en_retired e = 0 /\
        fed (en_stream e) frame mem_ok rc st /\ (u_mem (p_user p) = [] -> mem_ok = true) /\
        u_heap (p_user p1) = <[ptr := StreamEntry st (b2z (is_over rc))]> (u_heap (p_user p)) /\
        if ss_on_stream_data (sesh p)
        then call = CallStreamData ptr /\ u_log (p_user p1) = u_log (p_user p) ++ [StreamData ptr]
        else call = NoCall /\ u_log (p_user p1) = u_log (p_user p)
  | _ =>
      (u_heap (p_user p1) = u_heap (p_user p) /\ u_mem (p_user p) <> [] /\ call = NoCall /\
         u_log (p_user p1) = u_log (p_user p)) \/
      exists ptr st0 rc st mem_ok,
        entry_at p ptr = None /\ stream_fresh (sesh p) id st0 /\
        fed st0 frame mem_ok rc st /\ (u_mem (p_user p) = [] -> mem_ok = true) /\
        u_heap (p_user p1) = <[ptr := StreamEntry st (b2z (is_over rc))]> (u_heap (p_user p)) /\
        if ss_on_new_stream (sesh p)
        then call = CallNewStream ptr /\ u_log (p_user p1) = u_log (p_user p) ++ [NewStream ptr id]
        else call = NoCall /\ u_log (p_user p1) = u_log (p_user p)
  end.

Definition routed p (frame_bytes : bytes) (p1 : world) (call : app_call) : Prop :=
  if negb (ss_closed (sesh p) =? 0) then p1 = p /\ call = NoCall
  else match cloak_frame_deobfuscate (ss_obfuscator (sesh p)) frame_bytes with
  | Some (Some frame, _) =>
      if fr_closing frame =? CLOAK_FRAME_CLOSING_SESSION then closing p p1 /\ call = NoCall
      else delivered p frame p1 call /\ ss_closed (sesh p1) = 0
  | _ => p1 = p /\ call = NoCall
  end.

(** A record of a call changes nothing. *)
Lemma note_inv p ev :
  env_ready p -> session_inv p -> ev <> SessionBroken ->
  session_moves p (session_note p ev) /\ session_inv (session_note p ev) /\
  session_waits (p_user p) (p_user (session_note p ev)).
Proof.
  intros Hr [(H1&H2&H3&(T1&T2&T3&T4&T5&T6&T7)) Hl] Hev.
  assert (Htold : told_broken (u_log (p_user p) ++ [ev]) = told_broken (u_log (p_user p))).
  { rewrite told_broken_app. destruct ev; cbn; rewrite ?app_nil_r; done. }
  split; [by apply user_moves|]. split; [split; [|exact Hl]|].
  - split; [exact H1|]. split; [exact H2|]. split; [exact H3|]. split; [exact T1|]. split; [exact T2|]. split; [exact T3|].
    split; [exact T4|]. split; [exact T5|].
    change (u_log (p_user (session_note p ev))) with (u_log (p_user p) ++ [ev]). rewrite Htold. by split.
  - split; [|apply heap_kept_refl]. split; [done|]. split; [done|]. exists [ev]. split; [done|]. by destruct ev.
Qed.

Lemma lookup_state s h m id :
  table_ok s h m -> cloak_strmtab_lookup (ss_streams s) id = Some (m !! id).
Proof. intros (Ht&_). by apply strmtab_lookup_spec. Qed.

(** Frames of a known stream. *)
Lemma envelope_known_spec p frame ptr e :
  env_ready p -> session_inv p -> rx_op_ok (RxFeed frame) -> entry_at p ptr = Some e -> en_retired e = 0 ->
  exists rc p1 p2 st mem_ok, session_feed ptr frame p = Some (rc, p1) /\
    (if is_over rc then session_retire_stream p1 ptr else Some p1) = Some p2 /\
    session_moves p p2 /\ session_inv p2 /\ session_waits (p_user p) (p_user p2) /\
    fed (en_stream e) frame mem_ok rc st /\ (u_mem (p_user p) = [] -> mem_ok = true /\ u_mem (p_user p2) = []) /\
    u_heap (p_user p2) = <[ptr := StreamEntry st (b2z (is_over rc))]> (u_heap (p_user p)) /\
    u_log (p_user p2) = u_log (p_user p) /\ ss_closed (sesh p2) = ss_closed (sesh p).
Proof.
  intros Hr Hi Hf He Hz. destruct (feed_over_spec p ptr e frame Hr Hi He Hf)
    as (rc&p1&p2&st&mem_ok&Hfeed&Hover&M&Hi2&Hw&Hfed&Hmem&Hh&Hl&Hc).
  exists rc, p1, p2, st, mem_ok. do 6 (split; [done|]). split; [exact Hmem|]. split; [|by split].
  rewrite Hh, Hz. unfold over_entry, retired_entry. by destruct (is_over rc).
Qed.

End steps.
