(* ===== verification/SessionRun.v ===== *)
(** * The life of a session

    The functions of [Session] that call the pool or the application, for any
    application whose callbacks keep the invariant, and the three adapters
    through which the session is a good owner of its pool. *)
From stdpp Require Import gmap.
From S2P Require Import Prelude Refinement Fallible Random Frame Aead ByteQueue MsgQueue Heap Stream StreamSpec StreamDelivery StrmTab Valve ReactorApi Conn ConnInv Switchboard SwitchboardRng SwitchboardInv SwitchboardRun Session SessionInv SessionStreams SessionSteps.

Section run.
Context {R A : Type} {RR : Reactor R} {RL : ReactorLaws R} {EV : Evp} {EL : EvpLaws}.
#[local] Abbreviation world := (pool_world R (session_user A)).
Implicit Types p : world.
Variable unlucky : nat.
Variable app_budget : A -> Z.
#[local] Abbreviation budget := (session_budget app_budget).
#[local] Abbreviation session_ok := (pool_inv (CO := session_companion) unlucky budget).
#[local] Abbreviation session_base := (pool_base (CO := session_companion) unlucky budget).
#[local] Abbreviation uses_pool := (pool_keeps (CO := session_companion)).
#[local] Abbreviation sends_pool := (pool_keeps (CO := session_sender)).

Variable on_new_stream : Z -> world -> option world.
Variable on_stream_data : Z -> world -> option world.
Variable on_writable : world -> option world.
Variable on_broken : world -> option world.

(** Nothing is left in the event loop that could call the session. *)
Definition session_gone p : Prop :=
  sesh p = zero_session /\ p_sb p = zero_switchboard /\ reactor_ok (p_reactor p) /\
  (length (told_broken (u_log (p_user p))) <= 1)%nat /\
  forall id cb, u_timers (p_user p) !! id = Some cb -> ~ armed (p_reactor p) id.

(** The application: its callbacks return and leave a session in order.  None
    may free a stream that the session is sending for, so [on_writable] frees
    none; [on_broken] may destroy the session. *)
Record app_ok : Prop := {
  app_new_stream reserve ptr p : session_ok reserve p -> is_Some (entry_at p ptr) ->
    exists p', on_new_stream ptr p = Some p' /\ session_ok reserve p' /\ uses_pool p p';
  app_stream_data reserve ptr p : session_ok reserve p -> is_Some (entry_at p ptr) ->
    exists p', on_stream_data ptr p = Some p' /\ session_ok reserve p' /\ uses_pool p p';
  app_writable reserve p : session_ok reserve p ->
    exists p', on_writable p = Some p' /\ session_ok reserve p' /\ sends_pool p p';
  app_broken p : session_ok 0 p -> pool_quiet p ->
    exists p', on_broken p = Some p' /\ (session_gone p' \/ session_ok 0 p' /\ pool_quiet p' /\ session_along (p_user p) (p_user p'))
}.
Hypothesis Happ : app_ok.

#[local] Abbreviation drained_adapter := (session_switchboard_drained_adapter on_writable).
#[local] Abbreviation on_envelope := (session_on_envelope on_new_stream on_stream_data).

Lemma sends_uses p p' : sends_pool p p' -> uses_pool p p'.
Proof. intros [Hs [Ha _]]. by split. Qed.

(** A step of the session's own, as the pool sees it. *)
Lemma moves_sends p p' : session_moves p p' -> session_waits (p_user p) (p_user p') -> sends_pool p p'.
Proof.
  intros Hm Hw. split; [|exact Hw]. rewrite (moves_sb _ _ Hm). apply pool_since_refl.
Qed.

Lemma moves_uses p p' : session_moves p p' -> session_along (p_user p) (p_user p') -> uses_pool p p'.
Proof. intros Hm Hw. split; [|exact Hw]. rewrite (moves_sb _ _ Hm). apply pool_since_refl. Qed.

(** ** The adapters *)

Definition call_app (call : app_call) p : option world :=
  match call with
  | NoCall => Some p
  | CallStreamData ptr => on_stream_data ptr p
  | CallNewStream ptr => on_new_stream ptr p
  end.

(** The stream that the application is called for is there. *)
Definition call_ready (call : app_call) p : Prop :=
  match call with NoCall => True | CallStreamData ptr | CallNewStream ptr => is_Some (entry_at p ptr) end.

(** The application hears of a stream, if it asked. *)
Lemma note_app_spec (asked : bool) ev call p :
  env_ready p -> session_inv p -> ev <> SessionBroken ->
  exists p', (if asked then call_app call (session_note p ev) else Some p) =
      call_app (if asked then call else NoCall) p' /\
    session_moves p p' /\ session_inv p' /\ session_along (p_user p) (p_user p') /\
    u_heap (p_user p') = u_heap (p_user p) /\ ss_closed (sesh p') = ss_closed (sesh p) /\ u_mem (p_user p') = u_mem (p_user p) /\
    u_log (p_user p') = if asked then u_log (p_user p) ++ [ev] else u_log (p_user p).
Proof.
  intros Hr Hi Hev. destruct asked.
  - destruct (note_inv p ev Hr Hi Hev) as (M&Hi'&Hw&_). exists (session_note p ev). by split_and!.
  - exists p. split; [done|]. split; [apply moves_refl, Hr|]. split; [done|]. split; [apply session_along_refl|]. done.
Qed.

Lemma decoded_ok o buf f rest :
  obfuscator_ok o -> all_bytes buf -> zlen buf <= CLOAK_CONN_MAX_FRAME_LEN ->
  cloak_frame_deobfuscate o buf = Some (Some f, rest) ->
  rx_op_ok (RxFeed f) /\ 0 <= fr_stream_id f < 4294967296.
Proof.
  intros Ho Hb Hl Hd. unfold CLOAK_CONN_MAX_FRAME_LEN in Hl.
  destruct (deobfuscate_in_bounds o buf Ho Hb) as (out&buf'&Hd'&Hlen&Hout); [unfold INT64_MAX; lia|].
  rewrite Hd in Hd'. injection Hd' as <- <-. destruct Hout as ([H0 Hn]&Hread&Hid&Hseq&_).
  pose proof (mem_read_inv _ _ _ _ Hread) as (_&_&_&_&Hz). pose proof (tag_len_bounds (o_method o)).
  unfold CLOAK_FRAME_HEADER_LEN in *. split; [|done]. unfold rx_op_ok, INT64_MAX. lia.
Qed.

Definition deliver_known (frame : cloak_frame_t) (ptr : Z) p : option world :=
  '(rc, p) ← session_feed ptr frame p;
  p ← (if is_over rc then session_retire_stream p ptr else Some p);
  if ss_on_stream_data (sesh p) then on_stream_data ptr (session_note p (StreamData ptr)) else Some p.

Definition deliver_new (frame : cloak_frame_t) p : option world :=
  '(created, p) ← session_create_stream (fr_stream_id frame) p;
  match created with
  | None => Some p
  | Some ptr =>
      '(rc, p) ← session_feed ptr frame p;
      p ← (if is_over rc then session_retire_stream p ptr else Some p);
      if ss_on_new_stream (sesh p)
      then on_new_stream ptr (session_note p (NewStream ptr (fr_stream_id frame))) else Some p
  end.

Lemma config_same p p' : session_along (p_user p) (p_user p') -> session_config (sesh p') = session_config (sesh p).
Proof. by intros [Hc _]. Qed.

Lemma deliver_known_spec p frame ptr e :
  env_ready p -> session_inv p -> rx_op_ok (RxFeed frame) -> ss_closed (sesh p) = 0 ->
  cloak_strmtab_lookup (ss_streams (sesh p)) (fr_stream_id frame) = Some (Some (CLOAK_STRMTAB_ACTIVE, ptr)) ->
  entry_at p ptr = Some e -> st_id (en_stream e) = fr_stream_id frame -> en_retired e = 0 ->
  exists p1 call, deliver_known frame ptr p = call_app call p1 /\ session_moves p p1 /\ session_inv p1 /\
    session_along (p_user p) (p_user p1) /\ (delivered p frame p1 call /\ ss_closed (sesh p1) = 0) /\ call_ready call p1 /\
    (u_mem (p_user p) = [] -> u_mem (p_user p1) = []).
Proof.
  intros Hr Hi Hf Hcl Hlook He Hid Hz. unfold deliver_known, delivered. rewrite Hlook.
  destruct (envelope_known_spec p frame ptr e Hr Hi Hf He Hz) as (rc&p1&p2&st&mem_ok&->&Hover&M&Hi2&[Hal _]&Hfed&Hmem&Hh&Hl&Hc2).
  cbn [mbind option_bind]. rewrite Hover. cbn [mbind option_bind].
  pose proof (config_same _ _ Hal) as Hcfg. unfold session_config in Hcfg. injection Hcfg as _ _ _ _ _ _ _ _ _ _ Hon.
  rewrite Hon.
  destruct (note_app_spec (ss_on_stream_data (sesh p)) (StreamData ptr) (CallStreamData ptr) p2 (moves_ready _ _ Hr M) Hi2)
    as (p3&Hcall&M3&Hi3&Hal3&Hh3&Hc3&Hmem3&Hl3); [done|].
  exists p3, (if ss_on_stream_data (sesh p) then CallStreamData ptr else NoCall).
  split; [exact Hcall|]. split; [by eapply moves_trans|]. split; [done|]. split; [by eapply session_along_trans|].
  assert (Hat : entry_at p3 ptr = Some (StreamEntry st (b2z (is_over rc)))).
  { unfold entry_at. rewrite Hh3, Hh. apply lookup_insert_eq. }
  split; [split; [|congruence]|split].
  - cbn [Z.eqb]. exists e, rc, st, mem_ok. do 4 (split; [done|]). split; [intros Hx; apply (Hmem Hx)|]. split; [congruence|].
    rewrite Hl3, Hl. by destruct (ss_on_stream_data (sesh p)).
  - destruct (ss_on_stream_data (sesh p)); [|exact I]. cbn [call_ready]. rewrite Hat. by eexists.
  - intros Hx. rewrite Hmem3. apply (Hmem Hx).
Qed.

(** The new stream's first frame. *)
Lemma deliver_new_spec p frame :
  env_ready p -> session_inv p -> rx_op_ok (RxFeed frame) -> ss_closed (sesh p) = 0 ->
  0 <= fr_stream_id frame < 4294967296 ->
  cloak_strmtab_lookup (ss_streams (sesh p)) (fr_stream_id frame) = Some None ->
  exists p1 call, deliver_new frame p = call_app call p1 /\ session_moves p p1 /\ session_inv p1 /\
    session_along (p_user p) (p_user p1) /\ (delivered p frame p1 call /\ ss_closed (sesh p1) = 0) /\ call_ready call p1 /\
    (u_mem (p_user p) = [] -> u_mem (p_user p1) = []).
Proof.
  intros Hr Hi Hf Hcl Hid Hlook. unfold deliver_new, delivered. rewrite Hlook.
  pose proof Hi as [(Hshape&Hs&_) _]. pose proof Hshape as (_&_&_&_&_&Hnext). pose proof Hs as [(m&Hm) _].
  destruct (create_spec (fr_stream_id frame) p Hshape Hs Hid) as (created&p1&->&O1&Hs1&Hn1&Hmem1&Hcase). cbn [mbind option_bind].
  pose proof (streams_only_moves _ _ Hr O1) as M1. pose proof (moves_ready _ _ Hr M1) as Hr1.
  pose proof (streams_only_along _ _ O1) as Hal1.
  assert (Hkeep : u_log (p_user p1) = u_log (p_user p) /\ ss_closed (sesh p1) = ss_closed (sesh p))
    by (by destruct O1 as (?&?&?&?&?&?&->)).
  destruct Hkeep as [Hl1 Hc1].
  destruct created as [ptr|].
  - destruct Hcase as (st0&->&Hnone&Hh1&Hfresh&Hcount&Hpos). set (ptr := u_next (p_user p)) in *.
    assert (Hi1 : session_inv p1) by (apply (streams_only_inv p); [done|done|done|by rewrite Hn1|lia]).
    destruct (envelope_known_spec p1 frame ptr (StreamEntry st0 0) Hr1 Hi1 Hf) as (rc&p2&p3&st&mem_ok&->&Hover&M&Hi3&[Hal _]&Hfed&Hmem&Hh&Hl&Hc3);
      [unfold entry_at; rewrite Hh1; apply lookup_insert_eq|done|].
    cbn [mbind option_bind]. rewrite Hover. cbn [mbind option_bind].
    pose proof (config_same _ _ (session_along_trans _ _ _ Hal1 Hal)) as Hcfg. unfold session_config in Hcfg.
    injection Hcfg as _ _ _ _ _ _ _ Hon _ _ _. rewrite Hon.
    destruct (note_app_spec (ss_on_new_stream (sesh p)) (NewStream ptr (fr_stream_id frame)) (CallNewStream ptr) p3 (moves_ready _ _ Hr1 M) Hi3)
      as (p4&Hcall&M4&Hi4&Hal4&Hh4&Hc4&Hmem4&Hl4); [done|].
    exists p4, (if ss_on_new_stream (sesh p) then CallNewStream ptr else NoCall).
    split; [exact Hcall|]. split; [by eapply moves_trans; [exact M1|eapply moves_trans]|]. split; [done|].
    split; [by eapply session_along_trans; [exact Hal1|eapply session_along_trans]|].
    assert (Hat : entry_at p4 ptr = Some (StreamEntry st (b2z (is_over rc)))).
    { unfold entry_at. rewrite Hh4, Hh. apply lookup_insert_eq. }
    split; [split; [right|congruence]|destruct (ss_on_new_stream (sesh p)); [cbn [call_ready]; rewrite Hat; split; [by eexists|]|split; [exact I|]]; intros Hx; rewrite Hmem4; apply Hmem, Hmem1, Hx].
    exists ptr, st0, rc, st, mem_ok. split; [done|]. split; [done|]. split; [done|]. split; [intros Hx; apply Hmem, Hmem1, Hx|].
    split; [rewrite Hh4, Hh, Hh1; apply insert_insert_eq|]. rewrite Hl4, Hl, Hl1. by destruct (ss_on_new_stream (sesh p)).
  - destruct Hcase as (Hh1&Hcount&Hwhy). exists p1, NoCall. split; [done|]. split; [done|].
    split; [apply (streams_only_inv p); [done|done|done|by rewrite Hn1|lia]|]. split; [done|].
    split; [|by split]. split; [left|congruence]. split; [done|]. split; [|done].
    destruct Hwhy as [Hmem|(ptr&e&He&Hi'&Hz)]; [done|]. exfalso.
    rewrite (lookup_state _ _ _ _ Hm) in Hlook. injection Hlook as Hlook.
    assert (m !! fr_stream_id frame = Some (CLOAK_STRMTAB_ACTIVE, ptr)) by (apply (proj2 (proj2 (proj2 Hm))); by exists e). congruence.
Qed.

Lemma envelope_spec p frame_bytes :
  env_ready p -> session_inv p -> all_bytes frame_bytes -> zlen frame_bytes <= CLOAK_CONN_MAX_FRAME_LEN ->
  exists p1 call, on_envelope frame_bytes p = call_app call p1 /\ session_moves p p1 /\ session_inv p1 /\
    session_along (p_user p) (p_user p1) /\ routed p frame_bytes p1 call /\ call_ready call p1 /\
    (u_mem (p_user p) = [] -> u_mem (p_user p1) = []).
Proof.
  intros Hr Hi Hb Hlen. unfold session_on_envelope, routed.
  assert (Hnone : exists p1 call, Some p = call_app call p1 /\ session_moves p p1 /\ session_inv p1 /\
    session_along (p_user p) (p_user p1) /\ (p1 = p /\ call = NoCall) /\ call_ready call p1 /\
    (u_mem (p_user p) = [] -> u_mem (p_user p1) = [])).
  { exists p, NoCall. split; [done|]. split; [apply moves_refl, Hr|]. split; [done|]. split; [apply session_along_refl|done]. }
  destruct (Z.eqb_spec (ss_closed (sesh p)) 0) as [Hcl|_]; cbn [negb]; [|exact Hnone].
  pose proof Hi as [((Hord&Hobf&Hshape)&Hs&_) _]. pose proof Hs as [(m&Hm) _].
  destruct (deobfuscate_in_bounds (ss_obfuscator (sesh p)) frame_bytes Hobf Hb) as (out&buf&Hd&_);
    [unfold CLOAK_CONN_MAX_FRAME_LEN, INT64_MAX in *; lia|].
  rewrite Hd. cbn [mbind option_bind]. destruct out as [frame|]; [|exact Hnone].
  destruct (decoded_ok _ _ _ _ Hobf Hb Hlen Hd) as [Hf Hid].
  destruct (fr_closing frame =? CLOAK_FRAME_CLOSING_SESSION).
  { destruct (passive_close_spec p Hr Hi) as (M&Hi'&[Hal _]&_&Hc). rewrite Hcl in Hc. cbn [negb Z.eqb] in Hc.
    exists (session_passive_close p), NoCall. do 4 (split; [done|]). split; [done|]. split; [exact I|].
    destruct Hc as (id&tm&Hu&_). by rewrite Hu. }
  rewrite (lookup_state _ _ _ _ Hm). cbn [mbind option_bind].
  destruct (m !! fr_stream_id frame) as [[st ptr]|] eqn:Em.
  - destruct (proj1 (proj2 (proj2 Hm)) _ _ _ Em) as [-> | ->]; cbn [Z.eqb].
    + pose proof Em as Hact. apply (proj2 (proj2 (proj2 Hm))) in Hact as (e&He&Hid'&Hz).
      apply (deliver_known_spec p frame ptr e); try done. by rewrite (lookup_state _ _ _ _ Hm), Em.
    + unfold delivered. rewrite (lookup_state _ _ _ _ Hm), Em. cbn [Z.eqb].
      exists p, NoCall. split; [done|]. split; [apply moves_refl, Hr|]. split; [done|]. by split; [apply session_along_refl|].
  - apply (deliver_new_spec p frame); try done. by rewrite (lookup_state _ _ _ _ Hm), Em.
Qed.

(** The session is a good owner of its pool. *)
Lemma session_owner :
  pool_owner_ok (CO := session_companion) unlucky budget on_envelope session_on_switchboard_broken drained_adapter.
Proof.
  split.
  - intros reserve frame p Hi Hb Hlen. pose proof (inv_base _ _ _ _ Hi) as Hbase.
    pose proof (inv_session _ _ _ _ Hbase) as Hs.
    destruct (envelope_spec p frame (base_ready _ _ _ _ Hbase) Hs Hb) as (p1&call&->&M&Hs1&Hal&_&Hrd&_).
    { etrans; [exact Hlen|]. destruct Hs as [((_&_&[_ Hm]&_)&_&Hc&_) _]. unfold pool_config in Hc. injection Hc as -> _ _. exact Hm. }
    pose proof (inv_moves _ _ _ _ _ Hi M Hs1 Hal) as Hi1. pose proof (moves_uses _ _ M Hal) as Hk1.
    destruct call as [|ptr|ptr]; cbn [call_app call_ready] in *.
    + by exists p1.
    + destruct (app_stream_data Happ reserve ptr p1 Hi1 Hrd) as (p2&->&Hi2&Hk2). exists p2. split; [done|]. split; [done|].
      by eapply (pool_keeps_trans p p1).
    + destruct (app_new_stream Happ reserve ptr p1 Hi1 Hrd) as (p2&->&Hi2&Hk2). exists p2. split; [done|]. split; [done|].
      by eapply (pool_keeps_trans p p1).
  - intros reserve p Hbase _. pose proof (inv_session _ _ _ _ Hbase) as Hs.
    destruct (passive_close_spec p (base_ready _ _ _ _ Hbase) Hs) as (M&Hi'&[Hal _]&Hcl&_).
    exists (session_passive_close p). split; [done|]. split; [|by apply moves_uses].
    apply base_inv; [by eapply base_moves|]. by intros _.
  - intros reserve p Hi. pose proof (inv_base _ _ _ _ Hi) as Hbase. pose proof (inv_session _ _ _ _ Hbase) as Hs.
    unfold session_switchboard_drained_adapter. destruct (ss_on_writable (sesh p)).
    + destruct (note_inv p SessionWritable (base_ready _ _ _ _ Hbase) Hs) as (M&Hs1&Hw); [done|].
      pose proof (inv_moves _ _ _ _ _ Hi M Hs1 (proj1 Hw)) as Hi1.
      destruct (app_writable Happ reserve _ Hi1) as (p2&->&Hi2&Hk2). exists p2. split; [done|]. split; [done|].
      eapply (pool_keeps_trans p); [|by apply sends_uses]. apply moves_uses; [done|apply Hw].
    + exists p. split; [done|]. split; [done|apply pool_keeps_refl].
Qed.

#[local] Abbreviation sinks_pool := (pool_keeps (CO := session_sink)).

Lemma sinks_sends p p' : sinks_pool p p' -> sends_pool p p'.
Proof. intros [Hs [Ha _]]. by split. Qed.

Lemma moves_sinks p p' :
  session_moves p p' -> session_waits (p_user p) (p_user p') -> u_heap (p_user p') = u_heap (p_user p) -> sinks_pool p p'.
Proof. intros Hm Hw Hh. split; [|by split]. rewrite (moves_sb _ _ Hm). apply pool_since_refl. Qed.

(** While the session sends, no frame is handed up. *)
Lemma sink_owner :
  pool_owner_ok (CO := session_sink) unlucky budget (fun _ p => Some p) session_on_switchboard_broken drained_adapter.
Proof.
  split.
  - intros reserve frame p Hi _ _. exists p. split; [done|]. split; [done|apply pool_keeps_refl].
  - intros reserve p Hbase _. pose proof (inv_session _ _ _ _ Hbase) as Hs.
    destruct (passive_close_spec p (base_ready _ _ _ _ Hbase) Hs) as (M&Hi'&Hw&Hcl&Hcase).
    exists (session_passive_close p). split; [done|]. split; [apply base_inv; [by eapply base_moves|]; by intros _|].
    apply moves_sinks; [done|done|]. destruct (negb _); [by rewrite Hcase|]. by destruct Hcase as (?&?&->&_).
  - intros reserve p Hi. pose proof (inv_base _ _ _ _ Hi) as Hbase. pose proof (inv_session _ _ _ _ Hbase) as Hs.
    unfold session_switchboard_drained_adapter. destruct (ss_on_writable (sesh p)) eqn:Hon.
    + destruct (note_inv p SessionWritable (base_ready _ _ _ _ Hbase) Hs) as (M&Hs1&Hw); [done|].
      pose proof (inv_moves _ _ _ _ _ Hi M Hs1 (proj1 Hw)) as Hi1.
      destruct (app_writable Happ reserve _ Hi1) as (p2&->&Hi2&[Hsince Hw2]). exists p2. split; [done|]. split; [done|].
      split; [exact Hsince|]. split; [by eapply session_waits_trans|].
      intros Hsame. exfalso. destruct Hw2 as [(_&_&more&Hl&_) _]. rewrite Hl in Hsame. cbn in Hsame.
      apply (f_equal length) in Hsame. rewrite !length_app in Hsame. cbn in Hsame. lia.
    + exists p. split; [done|]. split; [done|apply pool_keeps_refl].
Qed.

End run.
