(* ===== verification/SessionSend.v ===== *)
(** * What a session sends

    The functions of [Session] that send through the pool: data and the ends
    of streams, and the frame that closes the session.  While a send is in
    progress the pool may break, which closes the session, and the application
    may be told of room and send more; what is sent is exact all the same. *)
From stdpp Require Import gmap.
From S2P Require Import Prelude Refinement Fallible Random Frame Aead ByteQueue MsgQueue Heap Stream StreamSpec StreamDelivery StrmTab Valve ReactorApi Conn ConnInv Switchboard SwitchboardRng SwitchboardInv SwitchboardRun Session SessionInv SessionStreams SessionSteps SessionRun.

Section sending.
Context {R A : Type} {RR : Reactor R} {RL : ReactorLaws R} {EV : Evp} {EL : EvpLaws}.
#[local] Abbreviation world := (pool_world R (session_user A)).
Implicit Types p : world.
Variable unlucky : nat.
Variable app_budget : A -> Z.
#[local] Abbreviation budget := (session_budget app_budget).
#[local] Abbreviation session_ok := (pool_inv (CO := session_companion) unlucky budget).
#[local] Abbreviation sends_pool := (pool_keeps (CO := session_sender)).
#[local] Abbreviation sinks_pool := (pool_keeps (CO := session_sink)).

Variable on_new_stream : Z -> world -> option world.
Variable on_stream_data : Z -> world -> option world.
Variable on_writable : world -> option world.
Variable on_broken : world -> option world.
Hypothesis Happ : app_ok unlucky app_budget on_new_stream on_stream_data on_writable on_broken.

#[local] Abbreviation sink := (session_stream_sink_adapter on_writable (pick_fuel unlucky)).
#[local] Abbreviation send_closing := (session_send_closing on_writable (pick_fuel unlucky) unlucky).

Lemma sink_spec reserve p msg :
  0 <= reserve -> session_ok (reserve + largest_envelope (p_sb p)) p -> all_bytes msg ->
  exists rc p', sink msg p = Some (rc, p') /\
    session_ok reserve p' /\ sinks_pool p p' /\ pool_sent unlucky session_on_switchboard_broken (session_switchboard_drained_adapter on_writable) p msg rc p'.
Proof.
  intros Hres Hi Hb.
  exact (pool_send_spec (CO := session_sink) unlucky budget _ _ _
           (sink_owner _ _ _ _ _ _ Happ) reserve p msg Hres Hi Hb).
Qed.

Lemma sends_trans p1 p2 p3 : sends_pool p1 p2 -> sends_pool p2 p3 -> sends_pool p1 p3.
Proof. apply (pool_keeps_trans (CO := session_sender)). Qed.

Lemma inv_ready reserve p : session_ok reserve p -> env_ready p /\ session_inv p /\ rand_ok (p_rand p) /\ fair unlucky (p_rand p).
Proof.
  intros Hi. pose proof (inv_base _ _ _ _ Hi) as Hb. split; [by eapply base_ready|]. split; [by eapply inv_session|].
  destruct Hi as [((_&_&Hrd&Hf&_)&_) _]. done.
Qed.

Lemma sends_max p p' : sends_pool p p' -> largest_envelope (p_sb p') = largest_envelope (p_sb p).
Proof. intros [(_&Hc&_) _]. unfold pool_config in Hc. unfold largest_envelope. by injection Hc as -> _ _ _. Qed.

(** A stream of the session that has something to send. *)
Definition sends_ok (s : cloak_session) (st : cloak_stream_t) : Prop :=
  can_send (st_set_send st (st_write_buf st) (st_next_write_seq st) false) /\
  zlen (st_write_buf st) <= CLOAK_CONN_MAX_FRAME_LEN.

Lemma stream_sends s st : session_shape s -> stream_ok s st -> sends_ok s st.
Proof.
  intros (_&Ho&Hw&_) (_&He&Hid&Hseq). injection He as E1 E2 E3 E4. unfold CLOAK_CONN_MAX_FRAME_LEN in *.
  unfold CLOAK_FRAME_HEADER_LEN, CLOAK_FRAME_MAX_EXTRA_LEN, INT64_MAX in *.
  split; [split; cbn [st_write_closed st_obfuscator st_id st_max_payload_per_frame st_write_buf st_next_write_seq st_set_send]|];
    rewrite ?E1, ?E3, ?E4; try done; unfold CLOAK_CONN_MAX_FRAME_LEN, CLOAK_FRAME_HEADER_LEN, CLOAK_FRAME_MAX_EXTRA_LEN, INT64_MAX; lia.
Qed.

(** A stream's sending state moves on. *)
Lemma store_send p ptr e buf seq closed r :
  env_ready p -> session_inv p -> entry_at p ptr = Some e -> zlen buf = zlen (st_write_buf (en_stream e)) ->
  0 <= seq < 18446744073709551616 -> later (p_rand p) r ->
  let st := st_set_send (en_stream e) buf seq closed in
  let p' := set_pool_rand (store_stream p ptr e st) r in
  session_moves p p' /\ session_inv p' /\ session_waits (p_user p) (p_user p').
Proof.
  intros Hr [(H1&H2&H3&H4) Hl] He Hb Hs Hlat st p'. pose proof Hr as [Hok Ht].
  destruct (entry_ok p ptr e H2 He) as (_&((x&Hx)&Hf&Hid&_)).
  split; [|split].
  - split; auto; done.
  - split; [|exact Hl]. split; [exact H1|]. split; [|split; [exact H3|exact H4]].
    refine (streams_store _ _ _ ptr e st H2 He _ _); [|done].
    split; [exists x|].
    + by destruct x as [ro|dg]; destruct Hx; split.
    + split; [|by split]. cbn. rewrite Hb. exact Hf.
  - split; [split; [done|split; [done|exists []; by rewrite app_nil_r]]|]. by apply (heap_kept_insert _ _ e).
Qed.

(** [f] leaves through the pool, sealed as [msg]: the state it finds is [p1]. *)
Definition sent_message p (msg : bytes) (f : cloak_frame_t) (rc : Z) p1 p' : Prop :=
  session_moves p p1 /\ session_waits (p_user p) (p_user p1) /\ ss_closed (sesh p1) = ss_closed (sesh p) /\
  sinks_pool p1 p' /\
  decodes_to (ss_obfuscator (sesh p)) msg f /\ all_bytes msg /\ zlen msg <= ss_max_on_wire_size (sesh p) /\
  pool_sent unlucky session_on_switchboard_broken (session_switchboard_drained_adapter on_writable) p1 msg rc p'.
Definition sent_frame p (f : cloak_frame_t) (rc : Z) p1 p' : Prop := exists msg, sent_message p msg f rc p1 p'.

Lemma message_keeps p msg f rc p1 p' : sent_message p msg f rc p1 p' -> sends_pool p p'.
Proof. intros (M&Hw&_&Hk&_). apply (sends_trans p p1); [by apply moves_sends|by apply sinks_sends]. Qed.

Lemma sent_keeps p f rc p1 p' : sent_frame p f rc p1 p' -> sends_pool p p'.
Proof. intros [msg H]. by eapply message_keeps. Qed.

(** The sender's part of a send: the frame is sealed into the stream's buffer,
    and the stream moves on. *)
Lemma seal_and_store reserve p ptr e f closed :
  session_ok reserve p -> entry_at p ptr = Some e -> frame_ok f ->
  0 < fr_payload_len f <= st_max_payload_per_frame (en_stream e) ->
  exists msg buf r, stream_seal unlucky (en_stream e) f (p_rand p) = Some (Some (msg, buf), r) /\
    all_bytes msg /\ decodes_to (ss_obfuscator (sesh p)) msg f /\ zlen msg <= ss_max_on_wire_size (sesh p) /\
    let st := st_set_send (en_stream e) buf (u64 (st_next_write_seq (en_stream e) + 1)) closed in
    let p1 := set_pool_rand (store_stream p ptr e st) r in
    session_moves p p1 /\ session_inv p1 /\ session_waits (p_user p) (p_user p1) /\ session_ok reserve p1.
Proof.
  intros Hi He Hf Hl. destruct (inv_ready _ _ Hi) as (Hr&Hs&Hrd&Hfa). pose proof Hs as [(Hshape&Hst&_) _].
  destruct (entry_ok p ptr e Hst He) as (_&Hok). destruct (stream_sends _ _ Hshape Hok) as [Hcan Hsmall].
  pose proof Hok as (_&Hcfg&_). injection Hcfg as Eo _ Em Eb. pose proof (cs_buf _ Hcan) as Hcb. cbn in Hcb.
  destruct (seal_ok unlucky (st_obfuscator (en_stream e)) f (st_write_buf (en_stream e)) (p_rand p))
    as (n&msg&buf&r&Hobf&Hread&Hdec&Hz&Hlen&_&_&Hb);
    [apply (cs_obfuscator _ Hcan)|done|lia| |done|done|].
  { unfold CLOAK_CONN_MAX_FRAME_LEN, INT64_MAX in *. lia. }
  exists msg, buf, r. split; [unfold stream_seal; rewrite Hobf; cbn [mbind option_bind]; by rewrite Hread|].
  split; [done|]. split; [by rewrite <- Eo|]. split; [lia|].
  destruct (store_send p ptr e buf (u64 (st_next_write_seq (en_stream e) + 1)) closed r Hr Hs He Hz) as (M&Hi1&Hw).
  { apply Z.mod_pos_bound. lia. }
  { by eapply later_obfuscate. }
  split; [done|]. split; [done|]. split; [done|]. eapply inv_moves; [done..|apply Hw].
Qed.

Lemma padding_draw (mx : Z) r :
  rand_ok r -> fair unlucky r -> 0 < mx ->
  exists one r1 b pad r2, cloak_random_bytes 1 r = (one, r1) /\ one.[0] = Some b /\
    let m := if mx <? 256 then mx else 256 in
    cloak_random_bytes (if m <? b + 1 then m else b + 1) r1 = (pad, r2) /\
    zlen pad = (if m <? b + 1 then m else b + 1) /\ 0 < zlen pad <= m /\ all_bytes pad /\ later r r2 /\
    rand_ok r2 /\ fair unlucky r2.
Proof.
  intros Hr Hf Hm. destruct (cloak_random_bytes 1 r) as [one r1] eqn:E1.
  destruct (random_bytes_ok 1 r one r1 Hr ltac:(lia) E1) as [Hb1 Hr1].
  pose proof (random_bytes_length 1 r one r1 ltac:(lia) E1) as Hl1.
  destruct (mem_get_byte one 0 Hb1) as (b&Hb&Hbyte); [lia|]. unfold is_byte in Hbyte.
  set (m := if mx <? 256 then mx else 256). set (n := if m <? b + 1 then m else b + 1).
  assert (Hn : 0 < n <= m) by (unfold n, m; destruct (Z.ltb_spec mx 256); [destruct (Z.ltb_spec mx (b + 1))|destruct (Z.ltb_spec 256 (b + 1))]; lia).
  destruct (cloak_random_bytes n r1) as [pad r2] eqn:E2.
  destruct (random_bytes_ok n r1 pad r2 Hr1 ltac:(lia) E2) as [Hbp Hr2].
  pose proof (random_bytes_length n r1 pad r2 ltac:(lia) E2) as Hl2.
  exists one, r1, b, pad, r2. split; [done|]. split; [done|]. split; [done|]. split; [done|]. split; [lia|].
  split; [done|]. split; [eapply later_trans; by eapply later_draw|]. split; [done|].
  eapply random_bytes_fair; [|eapply random_bytes_fair; [| |exact E1]|exact E2]; done || lia.
Qed.

(** The end of a stream, announced once. *)
Lemma send_closing_spec reserve p ptr e ty :
  0 <= reserve -> session_ok (reserve + largest_envelope (p_sb p)) p -> entry_at p ptr = Some e -> is_byte ty ->
  exists rc p', send_closing ptr ty p = Some (rc, p') /\ session_ok reserve p' /\ sends_pool p p' /\
    if st_write_closed (en_stream e) then rc = -1 /\ p' = p
    else exists pad p1 rc1, 0 < zlen pad /\ (rc = 0 <-> rc1 = 0) /\
      sent_frame p (Frame (st_id (en_stream e)) (st_next_write_seq (en_stream e)) ty pad (zlen pad)) rc1 p1 p' /\
      exists st, u_heap (p_user p1) = <[ptr := StreamEntry st (en_retired e)]> (u_heap (p_user p)) /\
        st_write_closed st = true.
Proof.
  intros Hres Hi He Hty. unfold session_send_closing. rewrite He. cbn [mbind option_bind].
  unfold cloak_stream_send_closing. destruct (st_write_closed (en_stream e)) eqn:Hwc; cbn [mbind option_bind].
  { exists (-1), p. assert (Hsame : set_pool_rand (store_stream p ptr e (en_stream e)) (p_rand p) = p).
    { unfold store_stream, store_entry, set_heap, set_user, set_pool_rand. cbn. rewrite insert_id by (destruct e; exact He).
      by destruct p as [? ? ? ? ? ? []]. }
    rewrite Hsame. split; [done|]. split; [|split; [apply pool_keeps_refl|done]].
    eapply (weaken_reserve _ _ reserve); [|exact Hi]. destruct Hi as [((_&_&_&_&_&[Hm _]&_)&_) _]. unfold largest_envelope. lia. }
  destruct (inv_ready _ _ Hi) as (Hr&Hs&Hrd&Hfa). pose proof Hs as [(Hshape&Hst&_) _].
  destruct (entry_ok p ptr e Hst He) as (_&Hok). destruct (stream_sends _ _ Hshape Hok) as [Hcan Hsmall].
  pose proof (cs_mx _ Hcan) as Hmx. cbn in Hmx.
  destruct (padding_draw (st_max_payload_per_frame (en_stream e)) (p_rand p) Hrd Hfa Hmx)
    as (one&r1&b&pad&r2&->&Hb&Hpad&Hpl&Hpos&Hpb&Hl2&Hr2&Hf2).
  rewrite Hb. cbn [mbind option_bind]. rewrite Hpad, <- Hpl.
  (* the padding is drawn, then the frame is sealed *)
  assert (Hr2' : env_ready (set_pool_rand p r2)) by exact Hr.
  set (p2 := set_pool_rand p r2).
  assert (M2 : session_moves p p2) by (split; auto; destruct Hr; done).
  assert (Hi2 : session_ok (reserve + largest_envelope (p_sb p)) p2).
  { eapply inv_moves; [exact Hi|exact M2|exact Hs|apply session_along_refl]. }
  destruct Hok as (_&_&Hid&Hseq).
  destruct (seal_and_store _ p2 ptr e (Frame (st_id (en_stream e)) (st_next_write_seq (en_stream e)) ty pad (zlen pad)) true Hi2 He)
    as (msg&buf&r3&Hseal&Hmb&Hdec&Hml&M3&Hs3&Hw3&Hi3); [by split|cbn; destruct (Z.ltb_spec (st_max_payload_per_frame (en_stream e)) 256); lia|].
  change (p_rand p2) with r2 in Hseal. rewrite Hseal. cbn [mbind option_bind app].
  set (p1 := set_pool_rand _ r3) in M3, Hs3, Hw3, Hi3 |- *.
  destruct (sink_spec reserve p1 msg Hres Hi3 Hmb) as (rc&p'&Hsink&Hi'&Hk&Hsent).
  change (p_rand p1) with r3. change (set_pool_rand (store_stream p ptr e _) r3) with p1. rewrite Hsink. cbn [mbind option_bind].
  eexists _, p'. split; [done|]. split; [done|].
  assert (Hframe : sent_frame p (Frame (st_id (en_stream e)) (st_next_write_seq (en_stream e)) ty pad (zlen pad)) rc p1 p').
  { exists msg. split; [by eapply moves_trans|]. by split_and!. }
  split; [by eapply sent_keeps|]. exists pad, p1, rc. split; [lia|]. split; [destruct (Z.eqb_spec rc 0); cbn; lia|].
  split; [done|]. eexists. split; [reflexivity|done].
Qed.

(** ** Data *)

Inductive sent_messages : world -> list bytes -> list cloak_frame_t -> world -> Prop :=
| sent_none p : sent_messages p [] [] p
| sent_next p msg f p1 p2 msgs fs p3 :
    sent_message p msg f 0 p1 p2 -> sent_messages p2 msgs fs p3 -> sent_messages p (msg :: msgs) (f :: fs) p3.

Lemma sent_messages_decode p msgs fs p' :
  sent_messages p msgs fs p' ->
  Forall2 (decodes_to (ss_obfuscator (sesh p))) msgs fs /\
  Forall (fun msg => all_bytes msg /\ zlen msg <= ss_max_on_wire_size (sesh p)) msgs.
Proof.
  induction 1 as [p|p msg f p1 p2 msgs fs p3 Hm _ [IH1 IH2]]; [by split; constructor|].
  pose proof (message_keeps _ _ _ _ _ _ Hm) as [_ [(Hc&_) _]]. destruct Hm as (_&_&_&_&Hd&Hb&Hl&_).
  unfold session_config in Hc. injection Hc as _ _ Ho Hw _ _ _ _ _ _ _. unfold sesh in *. rewrite Ho in IH1. rewrite Hw in IH2.
  split; by constructor.
Qed.

(** A data frame of the stream. *)
Definition data_frame (id mx : Z) (f : cloak_frame_t) : Prop :=
  fr_stream_id f = id /\ fr_closing f = CLOAK_FRAME_CLOSING_NOTHING /\
  fr_payload_len f = zlen (fr_payload f) /\ 0 < zlen (fr_payload f) <= mx.

(** The chunks went out in order, and all of them if the result is the length
    of the input; the sequence numbers are consecutive if the application was
    not called, and so did not send, in between. *)
Definition written p ptr (e : stream_entry) (input : bytes) (chunks : list bytes) (rc : Z) p' : Prop :=
  exists msgs fs p0, sent_messages p msgs fs p0 /\
    (fr_payload <$> fs) `prefix_of` chunks /\
    Forall (data_frame (st_id (en_stream e)) (st_max_payload_per_frame (en_stream e))) fs /\
    (u_log (p_user p') = u_log (p_user p) -> st_next_write_seq (en_stream e) + zlen chunks <= 18446744073709551616 ->
       fr_seq <$> fs = seqZ (st_next_write_seq (en_stream e)) (zlen fs)) /\
    (rc = zlen input /\ fr_payload <$> fs = chunks /\ p' = p0 \/
     rc = -1 /\ exists e', entry_at p' ptr = Some e' /\ st_write_closed (en_stream e') = true).

#[local] Abbreviation write_loop := (session_write_loop on_writable (pick_fuel unlucky) unlucky).

(** The chunk that the loop takes is the first of [cut]. *)
Lemma chunk_cut fuel mx (input : bytes) n :
  0 < mx -> 0 <= n < zlen input -> zlen input <= INT64_MAX -> zlen input - n <= Z.of_nat (S fuel) ->
  let chunk := if u64 (zlen input - n) <=? mx then u64 (zlen input - n) else mx in
  exists payload, input.[n +: chunk] = Some payload /\ zlen payload = chunk /\ 0 < chunk <= mx /\
    n + chunk <= zlen input /\ zlen input - (n + chunk) <= Z.of_nat fuel /\
    (all_bytes input -> all_bytes payload) /\ u64 (n + chunk) = n + chunk /\
    cut (S fuel) mx (drop (Z.to_nat n) input) = payload :: cut fuel mx (drop (Z.to_nat (n + chunk)) input).
Proof.
  unfold INT64_MAX. intros Hmx Hn Hmax Hf. rewrite (u64_small (zlen input - n)) by lia. cbv zeta.
  set (chunk := if zlen input - n <=? mx then zlen input - n else mx).
  assert (Hch : 0 < chunk <= mx /\ n + chunk <= zlen input)
    by (unfold chunk; destruct (Z.leb_spec (zlen input - n) mx); lia).
  assert (Hdl : zlen (drop (Z.to_nat n) input) = zlen input - n) by (apply zlen_drop; lia).
  destruct (drop (Z.to_nat n) input) as [|b rest] eqn:Ed; [rewrite zlen_nil in Hdl; lia|].
  exists (take (Z.to_nat chunk) (b :: rest)). rewrite mem_read_Some by lia. rewrite Ed.
  split; [done|]. split; [rewrite zlen_take; lia|]. split; [lia|]. split; [lia|]. split; [lia|].
  split; [intros Hb; apply Forall_take; rewrite <- Ed; by apply Forall_drop|]. split; [apply u64_small; lia|].
  cbn [cut]. f_equal.
  - unfold chunk. destruct (Z.leb_spec (zlen input - n) mx); [|done]. rewrite !take_ge by (unfold zlen in *; lia). done.
  - f_equal. rewrite <- Ed, drop_drop. unfold chunk. destruct (Z.leb_spec (zlen input - n) mx).
    + rewrite !drop_ge by (unfold zlen in *; lia). done.
    + f_equal. lia.
Qed.

(** No more is written. *)
Lemma write_stops reserve p ptr e :
  session_ok reserve p -> entry_at p ptr = Some e ->
  let p' := store_stream p ptr e (st_set_send (en_stream e) (st_write_buf (en_stream e)) (st_next_write_seq (en_stream e)) true) in
  session_ok reserve p' /\ sends_pool p p'.
Proof.
  intros Hi He p'. destruct (inv_ready _ _ Hi) as (Hr&Hs&_). pose proof Hs as [(_&Hst&_) _].
  destruct (entry_ok p ptr e Hst He) as (_&(_&_&_&Hseq)).
  destruct (store_send p ptr e (st_write_buf (en_stream e)) (st_next_write_seq (en_stream e)) true (p_rand p) Hr Hs He eq_refl Hseq (later_refl _))
    as (M&Hs'&Hw).
  split; [eapply inv_moves; [exact Hi|exact M|exact Hs'|apply Hw]|]. exact (moves_sends p p' M Hw).
Qed.

(** Nothing is left to write. *)
Lemma write_done fuel reserve p ptr e input n :
  0 <= reserve -> session_ok (reserve + Z.of_nat fuel * largest_envelope (p_sb p)) p -> zlen input <= n ->
  exists rc p', Some (zlen input, p) = Some (rc, p') /\ session_ok reserve p' /\ sends_pool p p' /\
    written p ptr e input (cut fuel (st_max_payload_per_frame (en_stream e)) (drop (Z.to_nat n) input)) rc p'.
Proof.
  intros Hres Hi Hn. exists (zlen input), p. split; [done|]. split; [|split; [apply pool_keeps_refl|]].
  - eapply (weaken_reserve _ _ reserve); [|exact Hi]. destruct Hi as [((_&_&_&_&_&[Hm _]&_)&_) _]. unfold largest_envelope. nia.
  - rewrite (drop_ge input) by (unfold zlen in *; lia). exists [], [], p. split; [apply sent_none|]. split; [apply prefix_nil|].
    split; [apply Forall_nil_2|]. split; [by intros|]. left. split; [done|]. by destruct fuel.
Qed.

Lemma write_loop_spec ptr input fuel : forall reserve p e n,
  0 <= reserve -> session_ok (reserve + Z.of_nat fuel * largest_envelope (p_sb p)) p -> entry_at p ptr = Some e ->
  all_bytes input -> zlen input <= INT64_MAX -> 0 <= n <= zlen input -> zlen input - n <= Z.of_nat fuel ->
  exists rc p', write_loop fuel ptr input n p = Some (rc, p') /\ session_ok reserve p' /\ sends_pool p p' /\
    written p ptr e input (cut fuel (st_max_payload_per_frame (en_stream e)) (drop (Z.to_nat n) input)) rc p'.
Proof.
  induction fuel as [|fuel IH]; intros reserve p e n Hres Hi He Hb Hmax Hn Hf; cbn [session_write_loop];
    (destruct (Z.ltb_spec n (zlen input)) as [Hlt|Hge]; cbn [negb]; [|by apply (write_done _ _ p ptr e)]); [lia|].
  rewrite He. cbn [mbind option_bind]. destruct (inv_ready _ _ Hi) as (Hr&Hs&Hrd&Hfa). pose proof Hs as [(Hshape&Hst&_) _].
  destruct (entry_ok p ptr e Hst He) as (_&Hok). destruct (stream_sends _ _ Hshape Hok) as [Hcan Hsmall].
  pose proof (cs_mx _ Hcan) as Hmx. cbn in Hmx. pose proof Hok as (_&Hcfg&Hid&Hseq).
  destruct (chunk_cut fuel _ input n Hmx ltac:(lia) Hmax Hf) as (payload&Hread&Hpl&Hchunk&Hend&Hleft&Hpb&Hu&->).
  set (chunk := if _ <=? _ then _ else _) in *. rewrite Hread. cbn [mbind option_bind].
  set (f := Frame (st_id (en_stream e)) (st_next_write_seq (en_stream e)) CLOAK_FRAME_CLOSING_NOTHING payload chunk).
  set (L := largest_envelope (p_sb p)) in *.
  assert (HL : 0 <= L) by (destruct Hi as [((_&_&_&_&_&[Hm _]&_)&_) _]; unfold L, largest_envelope; lia).
  assert (Hi0 : session_ok (reserve + Z.of_nat fuel * L + L) p) by (replace (reserve + Z.of_nat fuel * L + L) with (reserve + Z.of_nat (S fuel) * L) by lia; exact Hi).
  destruct (seal_and_store _ p ptr e f (st_write_closed (en_stream e)) Hi0 He) as (msg&buf&r&->&Hmb&Hdec&Hml&M1&Hs1&Hw1&Hi1);
    [split; cbn; [done|done|unfold CLOAK_FRAME_CLOSING_NOTHING, is_byte; lia|by apply Hpb|done]|done|].
  cbn [mbind option_bind]. set (st := st_set_send _ buf _ _) in *. set (p1 := set_pool_rand (store_stream p ptr e st) r) in *.
  destruct (sink_spec (reserve + Z.of_nat fuel * L) p1 msg ltac:(nia) Hi1 Hmb) as (rc1&p2&Hsink&Hi2&Hk2&Hsent).
  rewrite Hsink. cbn [mbind option_bind].
  assert (Hframe : sent_message p msg f rc1 p1 p2) by (by split_and!).
  pose proof (message_keeps _ _ _ _ _ _ Hframe) as Hk02. pose proof Hk2 as [_ [[_ Hheap] Hquiet]].
  assert (He1 : entry_at p1 ptr = Some (StreamEntry st (en_retired e))) by apply lookup_insert_eq.
  destruct (Hheap _ _ He1) as (e2&He2&Hid2&_). change (u_heap (p_user p2) !! ptr) with (entry_at p2 ptr) in He2. cbn [en_stream] in Hid2.
  destruct (Z.eqb_spec rc1 0) as [->|Hfail]; cbn [negb].
  - destruct (inv_ready _ _ Hi2) as (_&Hs2&_). pose proof Hs2 as [(_&Hst2&_) _].
    destruct (entry_ok p2 ptr e2 Hst2 He2) as (_&(_&Hcfg2&_)). rewrite Hu.
    assert (Hcfgs : session_config (sesh p2) = session_config (sesh p)) by (apply Hk02).
    unfold session_config in Hcfgs. injection Hcfgs as _ C2 C3 C4 _ _ _ _ _ _ _.
    rewrite C2, C3, C4 in Hcfg2. assert (Hmx2 : st_max_payload_per_frame (en_stream e2) = st_max_payload_per_frame (en_stream e)) by congruence.
    destruct (IH reserve p2 e2 (n + chunk) Hres) as (rc&p'&->&Hi'&Hk'&Hwr); [|done|done|done|lia|lia|].
    { rewrite (sends_max _ _ Hk02). exact Hi2. }
    exists rc, p'. split; [done|]. split; [done|]. split; [by eapply sends_trans|].
    rewrite Hmx2 in Hwr. destruct Hwr as (msgs&fs&p0&Hfs&Hpre&Hall&Hseqs&Hcase). rewrite Hmx2, Hid2 in Hall.
    exists (msg :: msgs), (f :: fs), p0. split; [by eapply sent_next|]. split; [by apply prefix_cons|].
    split; [constructor; [|exact Hall]; split; [done|]; split; [done|]; cbn; lia|]. split.
    + intros Hlog Hno. rewrite zlen_cons in Hno.
      destruct (log_between _ _ _ (proj1 (proj2 Hk02)) (proj1 (proj2 Hk')) Hlog) as [Hl02 Hl2].
      assert (He2' : e2 = StreamEntry st (en_retired e)).
      { unfold entry_at in He2, He1. rewrite (Hquiet Hl02) in He2. congruence. }
      pose proof (zlen_nonneg (cut fuel (st_max_payload_per_frame (en_stream e)) (drop (Z.to_nat (n + chunk)) input))).
      rewrite zlen_cons. rewrite seqZ_cons by (pose proof (zlen_nonneg fs); lia). cbn [fmap list_fmap f fr_seq]. f_equal.
      destruct (decide (fs = [])) as [->|Hne]; [done|].
      assert (Hc1 : 0 < zlen (cut fuel (st_max_payload_per_frame (en_stream e)) (drop (Z.to_nat (n + chunk)) input))).
      { destruct fs as [|f2 fs]; [done|]. destruct Hpre as [rest Hpre]. cbn in Hpre. rewrite Hpre, zlen_cons. pose proof (zlen_nonneg ((fr_payload <$> fs) ++ rest)). lia. }
      assert (Hq : st_next_write_seq (en_stream e2) = st_next_write_seq (en_stream e) + 1).
      { rewrite He2'. cbn. apply u64_small. lia. }
      rewrite Hq in Hseqs. rewrite Hseqs by (done || lia). f_equal; lia.
    + destruct Hcase as [(->&<-&->)|Hcase]; [left; done|by right].
  - rewrite He2. cbn [mbind option_bind]. destruct (write_stops _ p2 ptr e2 Hi2 He2) as [Hi3 Hk3].
    eexists (-1), _. split; [reflexivity|]. split; [|split; [by eapply sends_trans|]].
    { eapply (weaken_reserve _ _ reserve); [|exact Hi3]. nia. }
    exists [], [], p. split; [apply sent_none|]. split; [apply prefix_nil|]. split; [apply Forall_nil_2|]. split; [by intros|]. right. split; [done|].
    eexists. split; [unfold entry_at; apply lookup_insert_eq|done].
Qed.

End sending.
