(* ===== verification/SessionLife.v ===== *)
(** * The operations and the timers of a session

    What every function of [session.h] does to a session in order, and what
    happens when one of its timers goes off: how it closes, how the teardown
    frees its streams and gives its connections back, and how it begins and
    ends. *)
From stdpp Require Import gmap.
From S2P Require Import Prelude Refinement Fallible Random Frame Aead ByteQueue MsgQueue Heap Stream StreamSpec StreamDelivery StrmTab Valve ReactorApi Conn ConnInv Switchboard SwitchboardRng SwitchboardInv SwitchboardRun Session SessionInv SessionStreams SessionSteps SessionRun SessionSend.

Section life.
Context {R A : Type} {RR : Reactor R} {RL : ReactorLaws R} {EV : Evp} {EL : EvpLaws}.
#[local] Abbreviation world := (pool_world R (session_user A)).
Implicit Types p : world.
Variable unlucky : nat.
Variable app_budget : A -> Z.
#[local] Abbreviation budget := (session_budget app_budget).
#[local] Abbreviation session_ok := (pool_inv (CO := session_companion) unlucky budget).
#[local] Abbreviation session_base := (pool_base (CO := session_companion) unlucky budget).
#[local] Abbreviation sends_pool := (pool_keeps (CO := session_sender)).
#[local] Abbreviation sinks_pool := (pool_keeps (CO := session_sink)).

Variable on_new_stream : Z -> world -> option world.
Variable on_stream_data : Z -> world -> option world.
Variable on_writable : world -> option world.
Variable on_broken : world -> option world.
#[local] Abbreviation sent_frame := (sent_frame unlucky on_writable).
Hypothesis Happ : app_ok unlucky app_budget on_new_stream on_stream_data on_writable on_broken.

#[local] Abbreviation pool_fuel := (pick_fuel unlucky).
#[local] Abbreviation close := (cloak_session_close on_writable pool_fuel unlucky).

Lemma room_nonneg reserve p : session_ok reserve p -> 0 <= largest_envelope (p_sb p).
Proof. intros [((_&_&_&_&_&[Hm _]&_)&_) _]. unfold largest_envelope. lia. Qed.

Lemma reserve_less reserve more p : 0 <= reserve -> 0 <= more -> session_ok (reserve + more) p -> session_ok reserve p.
Proof. intros Hr Hm. apply weaken_reserve. lia. Qed.

(** ** Closing *)

(** The teardown that follows the end of a session. *)
Definition scheduled p (cb : session_timer) : Prop :=
  let id := ss_teardown_timer_id (sesh p) in
  id <> CLOAK_TIMER_INVALID -> armed (p_reactor p) id /\ u_timers (p_user p) !! id = Some cb.

Lemma closed_idle p :
  session_inv p -> ss_closed (sesh p) <> 0 -> ss_teardown_timer_id (sesh p) = CLOAK_TIMER_INVALID ->
  forall i c, u_timers (p_user p) !! i = Some c -> ~ armed (p_reactor p) i.
Proof.
  intros [(_&_&_&(T1&_&_&T4&_)) _] Hc Htd i c Hi Ha. specialize (T4 _ _ Hi Ha). unfold sesh in *.
  destruct (is_check c); destruct T4 as [E Hz]; [done|]. destruct (T1 _ _ Hi) as (Hne&_). congruence.
Qed.

Lemma schedule_spec p :
  env_ready p -> session_inv p -> ss_closed (sesh p) <> 0 -> ss_teardown_timer_id (sesh p) = CLOAK_TIMER_INVALID ->
  told_broken (u_log (p_user p)) = [] ->
  let p' := session_schedule_deferred_teardown p in
  session_moves p p' /\ session_inv p' /\ scheduled p' DeferredTeardown /\
  exists id tm, p_user p' = SessionUser (with_timer_ids (sesh p) (ss_inactivity_timer_id (sesh p)) id (ss_closed (sesh p)))
    (u_heap (p_user p)) (u_next (p_user p)) (u_mem (p_user p)) tm (u_log (p_user p)) (u_app (p_user p)).
Proof.
  intros Hr Hi Hc Htd Htold p'. unfold p', session_schedule_deferred_teardown.
  destruct (session_add_timer p 0 DeferredTeardown) as [id p1] eqn:E.
  destruct (schedule_core p DeferredTeardown Hr (proj1 Hi) Hc eq_refl (closed_idle p Hi Hc Htd) (fun _ => Htold) id p1 E)
    as (M&Hi'&tm&Hu&Htm).
  cbv zeta in M, Hi', Hu, Htm. cbv zeta. set (q := set_sesh p1 _) in *. clearbody q.
  split; [exact M|]. split; [exact Hi'|]. split; [|by exists id, tm]. unfold scheduled, sesh. rewrite Hu. exact Htm.
Qed.

(** The frame that tells the peer: its identifier is no stream's. *)
Definition goodbye (pad : bytes) : cloak_frame_t := Frame 4294967295 0 CLOAK_FRAME_CLOSING_SESSION pad (zlen pad).

Lemma close_frame_spec reserve p :
  0 <= reserve -> session_ok (reserve + largest_envelope (p_sb p)) p ->
  exists p', session_send_closing_session_frame on_writable pool_fuel unlucky p = Some p' /\ session_ok reserve p' /\
    exists pad rc p1, 0 < zlen pad <= 256 /\ u_heap (p_user p1) = u_heap (p_user p) /\ sent_frame p (goodbye pad) rc p1 p'.
Proof.
  intros Hres Hi. destruct (inv_ready _ _ _ _ Hi) as (Hr&Hs&Hrd&Hfa). pose proof Hs as [(Hshape&_) _].
  pose proof Hshape as (_&Ho&Hw&_). unfold CLOAK_FRAME_HEADER_LEN, CLOAK_FRAME_MAX_EXTRA_LEN, CLOAK_CONN_MAX_FRAME_LEN in Hw.
  change (u_sesh (p_user p)) with (sesh p) in *.
  unfold session_send_closing_session_frame, CLOAK_FRAME_HEADER_LEN, CLOAK_FRAME_MAX_EXTRA_LEN. rewrite u64_small by lia.
  destruct (padding_draw unlucky (ss_max_on_wire_size (sesh p) - 14 - 255) (p_rand p) Hrd Hfa)
    as (one&r1&b&pad&r2&->&Hb&Hpad&Hpl&Hpos&Hpb&Hl2&Hr2&Hf2); [lia|].
  rewrite Hb. cbn [mbind option_bind]. rewrite Hpad, <- Hpl.
  set (m := if _ <? 256 then _ else _) in Hpos.
  assert (Hm : m <= 256 /\ m <= ss_max_on_wire_size (sesh p) - 14 - 255)
    by (unfold m; destruct (Z.ltb_spec (ss_max_on_wire_size (sesh p) - 14 - 255) 256); lia).
  set (buf := replicate _ 0). assert (Hbl : zlen buf = 525) by (unfold buf, zlen; rewrite length_replicate; lia).
  destruct (seal_ok unlucky (ss_obfuscator (sesh p)) (goodbye pad) buf r2)
    as (n&msg&buf'&r3&Hobf&Hread&Hdec&_&Hlen&_&_&Hmb); [done| | | |done|done|];
    [split; cbn; [lia|lia|unfold CLOAK_FRAME_CLOSING_SESSION, is_byte; lia|done|done]|cbn; lia| |].
  { unfold CLOAK_FRAME_HEADER_LEN, CLOAK_FRAME_MAX_EXTRA_LEN, INT64_MAX. rewrite Hbl. cbn. lia. }
  change (Frame 4294967295 0 CLOAK_FRAME_CLOSING_SESSION pad (zlen pad)) with (goodbye pad). rewrite Hobf.
  cbn [mbind option_bind]. rewrite Hread. cbn [mbind option_bind].
  apply later_obfuscate in Hobf. set (p1 := set_pool_rand p r3).
  assert (M : session_moves p p1) by (split; auto; [apply Hr|done|by eapply later_trans]).
  assert (Hi1 : session_ok (reserve + largest_envelope (p_sb p)) p1).
  { eapply inv_moves; [exact Hi|exact M|exact Hs|apply session_along_refl]. }
  destruct (sink_spec _ _ _ _ _ _ Happ reserve p1 msg Hres Hi1 Hmb) as (rc&p'&->&Hi'&Hk&Hsent). cbn [mbind option_bind].
  exists p'. split; [done|]. split; [done|]. exists pad, rc, p1. split; [lia|]. split; [done|].
  exists msg. split; [exact M|]. split; [apply session_waits_refl|]. split; [done|]. split; [exact Hk|].
  split; [exact Hdec|]. split; [exact Hmb|]. split; [|exact Hsent]. unfold CLOAK_FRAME_HEADER_LEN, CLOAK_FRAME_MAX_EXTRA_LEN in Hlen. cbn in Hlen. lia.
Qed.

(** What [cloak_session_close] does the first time: the session is closed, then
    the peer is told, then the teardown is scheduled. *)
Definition closed_by_us p p' : Prop :=
  ss_closed (sesh p') <> 0 /\ scheduled p' DeferredTeardown /\
  exists pad rc q p1 p2, 0 < zlen pad <= 256 /\ session_moves p q /\ first_closed p q /\
    sent_frame q (goodbye pad) rc p1 p2 /\ u_heap (p_user p1) = u_heap (p_user p) /\ p' = session_schedule_deferred_teardown p2.

(** It needs only that the timers of the session are not in disorder. *)
Lemma close_core_spec reserve p :
  0 <= reserve -> session_base (reserve + largest_envelope (p_sb p)) p \/
    (exists p0, session_base (reserve + largest_envelope (p_sb p)) p0 /\ session_moves p0 p) ->
  env_ready p -> session_core p -> ss_closed (sesh p) = 0 ->
  exists p', close p = Some (0, p') /\ session_ok reserve p' /\ sends_pool p p' /\ closed_by_us p p'.
Proof.
  intros Hres Hbase Hr Hc Hz. unfold cloak_session_close.
  destruct (first_close_spec p Hr Hc Hz) as (p1&->&M1&Hi1&Hw1&Hfirst). cbn [Z.eqb]. pose proof Hfirst as [Hu1 _].
  assert (Hs1 : sesh p1 = with_timer_ids (sesh p) (ss_inactivity_timer_id (sesh p)) CLOAK_TIMER_INVALID 1)
    by (unfold sesh at 1; by rewrite Hu1).
  assert (Hok1 : session_ok (reserve + largest_envelope (p_sb p)) p1).
  { apply base_inv; [|rewrite Hs1; done]. destruct Hbase as [Hb|(p0&Hb&M0)]; [by eapply base_moves|].
    eapply base_moves; [exact Hb|by eapply moves_trans|exact Hi1]. }
  rewrite <- (moves_sb _ _ M1) in Hok1.
  destruct (close_frame_spec reserve p1 Hres Hok1) as (p2&->&Hok2&pad&rc&p1'&Hpl&Hheap&Hsent). cbn [mbind option_bind].
  pose proof (sent_keeps _ _ _ _ _ _ _ Hsent) as Hk2. pose proof Hk2 as [_ [(_&Hcl&more&Hlog&Hmore) _]].
  change (ss_closed (sesh p1) <> 0 -> ss_closed (sesh p2) <> 0 /\ ss_teardown_timer_id (sesh p2) = ss_teardown_timer_id (sesh p1)) in Hcl.
  destruct Hcl as [Hc2 Htd2]; [by rewrite Hs1|]. rewrite Hs1 in Htd2. cbn in Htd2.
  destruct (inv_ready _ _ _ _ Hok2) as (Hr2&Hi2&_).
  destruct (schedule_spec p2 Hr2 Hi2 Hc2 Htd2) as (M3&Hi3&Hsched&id&tm&Hu3).
  { rewrite Hlog, Hu1. cbn [u_log]. rewrite told_broken_app, Hmore, app_nil_r. destruct Hc as (_&_&_&(_&_&_&_&_&_&T7)). apply T7. by left. }
  set (p3 := session_schedule_deferred_teardown p2) in *.
  assert (Hc3 : ss_closed (sesh p3) <> 0) by (unfold sesh; by rewrite Hu3).
  exists p3. split; [done|].
  split; [apply base_inv; [eapply base_moves; [by apply inv_base|exact M3|exact Hi3]|by intros _]|].
  split; [|split; [done|]; split; [done|]; exists pad, rc, p1, p1', p2; split; [done|]; split; [exact M1|]; split; [exact Hfirst|]; split; [exact Hsent|split; [|done]]].
  - split.
    + rewrite (moves_sb _ _ M3). rewrite <- (moves_sb _ _ M1). apply Hk2.
    + destruct Hk2 as [_ [[Hcfg _] Hheap2]]. rewrite Hu1 in Hcfg, Hheap2. rewrite Hu3.
      split; [|exact Hheap2]. split; [exact Hcfg|]. split; [by intros Hn; destruct Hn|].
      exists more. split; [|exact Hmore]. cbn. by rewrite Hlog, Hu1.
  - by rewrite Hheap, Hu1.
Qed.

Lemma close_spec reserve p :
  0 <= reserve -> session_ok (reserve + largest_envelope (p_sb p)) p ->
  exists rc p', close p = Some (rc, p') /\ session_ok reserve p' /\ sends_pool p p' /\
    if ss_closed (sesh p) =? 0 then rc = 0 /\ closed_by_us p p' else rc = -1 /\ p' = p.
Proof.
  intros Hres Hi. destruct (inv_ready _ _ _ _ Hi) as (Hr&Hs&_).
  destruct (Z.eqb_spec (ss_closed (sesh p)) 0) as [Hz|Hz].
  - destruct (close_core_spec reserve p Hres) as (p'&->&Hi'&Hk&Hc); [left; by apply inv_base|done|apply Hs|done|]. by exists 0, p'.
  - unfold cloak_session_close, session_close_internal. rewrite (proj2 (Z.eqb_neq _ _) Hz). cbn [negb Z.eqb].
    exists (-1), p. split; [done|]. split; [|split; [apply pool_keeps_refl|done]].
    eapply reserve_less; [done|by eapply room_nonneg|exact Hi].
Qed.

(** ** Streams *)

#[local] Abbreviation send_closing := (session_send_closing on_writable pool_fuel unlucky).

Definition announced p ptr (e : stream_entry) p' : Prop :=
  if st_write_closed (en_stream e) then p' = p
  else exists pad rc p1 st, 0 < zlen pad /\
    sent_frame p (Frame (st_id (en_stream e)) (st_next_write_seq (en_stream e)) CLOAK_FRAME_CLOSING_STREAM pad (zlen pad)) rc p1 p' /\
    u_heap (p_user p1) = <[ptr := StreamEntry st (en_retired e)]> (u_heap (p_user p)) /\ st_write_closed st = true.

(** The peer is told, unless it was, and the stream is retired. *)
Lemma end_stream_spec reserve p ptr e :
  0 <= reserve -> session_ok (reserve + largest_envelope (p_sb p)) p -> entry_at p ptr = Some e ->
  exists rc p1 p' e', send_closing ptr CLOAK_FRAME_CLOSING_STREAM p = Some (rc, p1) /\
    session_retire_stream p1 ptr = Some p' /\ session_ok reserve p' /\ sends_pool p p' /\ announced p ptr e p1 /\
    entry_at p' ptr = Some e' /\ en_retired e' <> 0 /\ st_id (en_stream e') = st_id (en_stream e).
Proof.
  intros Hres Hi He. assert (Hb : is_byte CLOAK_FRAME_CLOSING_STREAM) by done.
  destruct (send_closing_spec _ _ _ _ _ _ Happ reserve p ptr e _ Hres Hi He Hb) as (rc&p1&->&Hi1&Hk1&Hann).
  pose proof Hk1 as [_ [_ Hheap]]. destruct (Hheap _ _ He) as (e1&He1&Hid1&_). destruct (inv_ready _ _ _ _ Hi1) as (Hr1&Hs1&_).
  destruct (retire_spec p1 ptr e1 Hr1 Hs1 He1) as (p'&Hret&M&Hs'&Hw&Hh&_).
  exists rc, p1, p', (retired_entry e1). split; [done|]. split; [done|].
  split; [eapply inv_moves; [exact Hi1|exact M|exact Hs'|apply Hw]|].
  split; [eapply sends_trans; [exact Hk1|by apply moves_sends]|]. split; [|split; [|split; [|exact Hid1]]].
  - unfold announced. destruct (st_write_closed (en_stream e)); [by destruct Hann|].
    destruct Hann as (pad&q&rc1&Hp&_&Hsent&st&Hh1&Hst). by exists pad, rc1, q, st.
  - unfold entry_at. rewrite Hh. apply lookup_insert_eq.
  - unfold retired_entry. cbn. by destruct (Z.eqb_spec (en_retired e1) 0).
Qed.

Lemma close_stream_spec reserve p ptr e :
  0 <= reserve -> session_ok (reserve + largest_envelope (p_sb p)) p -> entry_at p ptr = Some e ->
  exists rc p', cloak_session_close_stream on_writable pool_fuel unlucky ptr p = Some (rc, p') /\
    session_ok reserve p' /\ sends_pool p p' /\
    if (ss_closed (sesh p) =? 0) && (en_retired e =? 0) then
      rc = 0 /\ exists p1, announced p ptr e p1 /\ session_retire_stream p1 ptr = Some p'
    else rc = -1 /\ p' = p.
Proof.
  intros Hres Hi He. unfold cloak_session_close_stream.
  assert (Hno : exists rc p', Some (-1, p) = Some (rc, p') /\ session_ok reserve p' /\ sends_pool p p' /\ rc = -1 /\ p' = p).
  { exists (-1), p. split; [done|]. split; [|split; [apply pool_keeps_refl|done]].
    eapply reserve_less; [done|by eapply room_nonneg|exact Hi]. }
  destruct (ss_closed (sesh p) =? 0); cbn [negb andb]; [|exact Hno]. rewrite He. cbn [mbind option_bind].
  destruct (en_retired e =? 0); cbn [negb]; [|exact Hno].
  destruct (end_stream_spec reserve p ptr e Hres Hi He) as (rc&p1&p'&e'&->&Hret&Hi'&Hk&Hann&_). cbn [mbind option_bind].
  rewrite Hret. cbn [mbind option_bind]. exists 0, p'. split; [done|]. split; [done|]. split; [done|]. split; [done|]. by exists p1.
Qed.

(** A retired entry is nobody's but the application's. *)
Lemma free_retired_spec reserve p ptr e :
  session_ok reserve p -> entry_at p ptr = Some e -> en_retired e <> 0 ->
  let p' := set_heap p (delete ptr (u_heap (p_user p))) (u_next (p_user p)) in
  session_ok reserve p' /\ pool_keeps (CO := session_companion) p p'.
Proof.
  intros Hi He Hret p'. destruct (inv_ready _ _ _ _ Hi) as (Hr&Hs&_). pose proof Hs as [(H1&[(m&Hm) Hall]&H3&H4) Hl].
  assert (M : session_moves p p') by (by apply user_moves).
  assert (Hal : session_along (p_user p) (p_user p')).
  { split; [done|]. split; [done|]. exists []. by rewrite app_nil_r. }
  assert (Hs' : session_inv p').
  { split; [|exact Hl]. split; [exact H1|]. split; [|split; [exact H3|exact H4]]. cbn. split.
    - exists m. destruct Hm as (Ht&Hc&Hst&Hact). split; [exact Ht|]. split; [exact Hc|]. split; [exact Hst|]. intros id q.
      rewrite Hact. split; intros (x&Hx&Hid&Hz); exists x; (split; [|by split]).
      + rewrite lookup_delete_ne; [done|]. intros ->. change (u_heap (p_user p) !! q) with (entry_at p q) in Hx. congruence.
      + by apply lookup_delete_Some in Hx as [_ Hx].
    - intros q x Hx. apply lookup_delete_Some in Hx as [_ Hx]. by apply Hall. }
  split; [by eapply inv_moves|by apply moves_uses].
Qed.

Lemma release_spec reserve p ptr e :
  0 <= reserve -> session_ok (reserve + largest_envelope (p_sb p)) p -> entry_at p ptr = Some e ->
  exists p', cloak_session_release_stream on_writable pool_fuel unlucky ptr p = Some p' /\
    session_ok reserve p' /\ pool_keeps (CO := session_companion) p p' /\ entry_at p' ptr = None /\
    if en_retired e =? 0 then exists p1 p2, announced p ptr e p1 /\ session_retire_stream p1 ptr = Some p2 /\
      u_heap (p_user p') = delete ptr (u_heap (p_user p2))
    else u_heap (p_user p') = delete ptr (u_heap (p_user p)) /\ sesh p' = sesh p.
Proof.
  intros Hres Hi He. unfold cloak_session_release_stream. rewrite He. cbn [mbind option_bind].
  destruct (Z.eqb_spec (en_retired e) 0) as [Hz|Hz].
  - destruct (end_stream_spec reserve p ptr e Hres Hi He) as (rc&p1&p2&e'&->&Hret&Hi'&Hk&Hann&He'&Hr'&_). cbn [mbind option_bind].
    rewrite Hret. cbn [mbind option_bind]. rewrite He'. cbn [mbind option_bind].
    destruct (free_retired_spec reserve p2 ptr e' Hi' He' Hr') as [Hi3 Hk3]. eexists. split; [done|]. split; [done|].
    split; [eapply (pool_keeps_trans (CO := session_companion)); [apply sends_uses; exact Hk|exact Hk3]|].
    split; [apply lookup_delete_eq|]. by exists p1, p2.
  - cbn [mbind option_bind]. rewrite He. cbn [mbind option_bind].
    assert (Hi' : session_ok reserve p) by (eapply reserve_less; [done|by eapply room_nonneg|exact Hi]).
    destruct (free_retired_spec reserve p ptr e Hi' He Hz) as [Hi3 Hk3]. eexists. split; [done|]. split; [done|]. split; [done|].
    split; [apply lookup_delete_eq|done].
Qed.

(** Identifiers count up; there is no reuse while the peer's streams have the
    same numbers, for the table refuses an active one. *)
Lemma open_stream_spec reserve p :
  session_ok reserve p ->
  exists res p', cloak_session_open_stream p = Some (res, p') /\ session_ok reserve p' /\ sends_pool p p' /\
    if ss_closed (sesh p) =? 0 then
      ss_next_stream_id (sesh p') = u32 (ss_next_stream_id (sesh p) + 1) /\
      match res with
      | Some (ptr, id) => id = ss_next_stream_id (sesh p) /\ entry_at p ptr = None /\
          exists st, stream_fresh (sesh p) id st /\ u_heap (p_user p') = <[ptr := StreamEntry st 0]> (u_heap (p_user p))
      | None => u_heap (p_user p') = u_heap (p_user p) /\
          (u_mem (p_user p) <> [] \/ exists ptr e, entry_at p ptr = Some e /\
             st_id (en_stream e) = ss_next_stream_id (sesh p) /\ en_retired e = 0)
      end
    else res = None /\ p' = p.
Proof.
  intros Hi. unfold cloak_session_open_stream. destruct (inv_ready _ _ _ _ Hi) as (Hr&Hs&_).
  destruct (ss_closed (sesh p) =? 0) eqn:Hcl; cbn [negb].
  2: { exists None, p. split; [done|]. split; [done|]. split; [apply pool_keeps_refl|done]. }
  pose proof Hs as [(Hshape&Hst&_) Hl]. pose proof Hshape as (S1&S2&S3&S4&S5&S6). change (u_sesh (p_user p)) with (sesh p) in *.
  set (id := ss_next_stream_id (sesh p)) in *. set (p0 := set_sesh p _).
  assert (Hn0 : 0 <= u32 (id + 1) < 4294967296) by (apply Z.mod_pos_bound; lia).
  assert (Hshape0 : session_shape (sesh p0)) by exact (conj S1 (conj S2 (conj S3 (conj S4 (conj S5 Hn0))))).
  assert (O0 : streams_only p p0).
  { exists (ss_streams (sesh p)), (ss_active_stream_count (sesh p)), (u32 (id + 1)), (u_heap (p_user p)), (u_next (p_user p)), (u_mem (p_user p)).
    unfold p0, set_sesh, set_user. by destruct p as [? ? ? ? ? ? [[] ? ? ? ? ? ?]]. }
  destruct (create_spec id p0 Hshape0 Hst S6) as (created&p1&->&O1&Hs1&Hn1&Hmem1&Hcase). cbn [mbind option_bind].
  pose proof (streams_only_trans _ _ _ O0 O1) as O. pose proof (streams_only_moves _ _ Hr O) as M.
  assert (Hs' : session_inv p1).
  { apply (streams_only_inv p); [done|done|done|by rewrite Hn1|]. change (ss_active_stream_count (sesh p)) with (ss_active_stream_count (sesh p0)).
    destruct created; [destruct Hcase as (?&?&?&?&?&?&?); lia|destruct Hcase as (?&?&?); lia]. }
  assert (Hkeep : heap_kept (u_heap (p_user p)) (u_heap (p_user p1))).
  { destruct created as [ptr|]; [|destruct Hcase as (->&_); apply heap_kept_refl].
    destruct Hcase as (st&_&Hnone&->&_). intros q e Hq. exists e. split; [|done]. rewrite lookup_insert_ne; [done|].
    intros ->. change (entry_at p0 q) with (u_heap (p_user p) !! q) in Hnone. congruence. }
  eexists _, p1. split; [done|]. split; [eapply inv_moves; [exact Hi|exact M|exact Hs'|by apply streams_only_along]|].
  split; [apply moves_sends; [exact M|split; [by apply streams_only_along|exact Hkeep]]|]. split; [by rewrite Hn1|].
  destruct created as [ptr|].
  - destruct Hcase as (st&_&Hnone&Hh&Hf&_). split; [done|]. split; [exact Hnone|]. exists st. by split.
  - destruct Hcase as (Hh&_&Hwhy). by split.
Qed.

(** [cloak_stream_write] on a stream of the session. *)
Lemma stream_write_spec reserve p ptr e input :
  0 <= reserve -> session_ok (reserve + zlen input * largest_envelope (p_sb p)) p -> entry_at p ptr = Some e ->
  all_bytes input -> zlen input <= INT64_MAX ->
  exists rc p', session_stream_write on_writable pool_fuel unlucky ptr input p = Some (rc, p') /\
    session_ok reserve p' /\ sends_pool p p' /\
    let mx := st_max_payload_per_frame (en_stream e) in
    if st_write_closed (en_stream e) then rc = -1 /\ p' = p
    else if (st_ordering (en_stream e) =? CLOAK_SESSION_ORDERING_UNORDERED) && (mx <? zlen input)
    then rc = CLOAK_STREAM_ERR_SHORT_BUFFER /\ p' = p
    else written unlucky on_writable p ptr e input (cut (length input) mx input) rc p'.
Proof.
  intros Hres Hi He Hb Hmax. unfold session_stream_write. rewrite He. cbn [mbind option_bind].
  assert (Hno : forall rc : Z, exists rc' p', Some (rc, p) = Some (rc', p') /\ session_ok reserve p' /\ sends_pool p p' /\ rc' = rc /\ p' = p).
  { intros rc. exists rc, p. split; [done|]. split; [|split; [apply pool_keeps_refl|done]].
    pose proof (room_nonneg _ _ Hi). pose proof (zlen_nonneg input). eapply reserve_less; [done| |exact Hi]. nia. }
  destruct (st_write_closed (en_stream e)); [apply Hno|]. destruct (_ && _); [apply Hno|].
  apply (write_loop_spec _ _ _ _ _ _ Happ ptr input (length input) reserve p e 0); [done|exact Hi|done|done|done| |];
    pose proof (zlen_nonneg input); unfold zlen in *; lia.
Qed.

(** ** Timers *)

Lemma timer_foreign p id cb :
  session_inv p -> u_timers (p_user p) !! id = Some cb -> ~ pool_timer (sb_conns (p_sb p)) id.
Proof. intros [(_&_&_&(T1&_)) _] Hid. by apply (T1 _ _ Hid). Qed.

(** The callback is called for a timer of the session. *)
Lemma fired_spec reserve p id r cb :
  session_ok reserve p -> r_fire (p_reactor p) = Some (id, r) -> u_timers (p_user p) !! id = Some cb ->
  let q := set_pool_reactor p r in
  session_moves p q /\ env_ready q /\ session_core q /\
  (forall i c, u_timers (p_user q) !! i = Some c -> armed (p_reactor q) i -> is_check c <> is_check cb) /\
  if is_check cb then id = ss_inactivity_timer_id (sesh p) /\ ss_closed (sesh p) = 0
  else id = ss_teardown_timer_id (sesh p) /\ ss_closed (sesh p) <> 0.
Proof.
  intros Hi Hf Hid q. destruct (inv_ready _ _ _ _ Hi) as (Hr&Hs&_). pose proof Hs as [(H1&H2&H3&Ht) Hl].
  destruct (fire_moves p id r Hr Hf (timer_foreign p id cb Hs Hid)) as (M&Ha&Harm).
  pose proof Ht as (T1&T2&T3&T4&T5). pose proof (T4 _ _ Hid Ha) as Hwhich.
  split; [exact M|]. split; [by eapply moves_ready|]. split; [split; [exact H1|split; [exact H2|split; [exact H3|]]]|split; [|exact Hwhich]].
  - apply (core_step (p_reactor p) r (sb_conns (p_sb p)) (sb_conns (p_sb p))); [exact Ht|apply (sm_aged _ _ M)|by left].
  - cbn. intros i c Hi' Hai%Harm. destruct Hai as [Hne Hai]. specialize (T4 _ _ Hi' Hai).
    destruct (is_check c), (is_check cb); try done; destruct T4, Hwhich; congruence.
Qed.

(** The inactivity timer: a session without streams closes itself. *)
Lemma check_timeout_spec reserve p id r :
  0 <= reserve -> session_ok (reserve + largest_envelope (p_sb p)) p -> pool_quiet p ->
  r_fire (p_reactor p) = Some (id, r) -> u_timers (p_user p) !! id = Some CheckTimeout ->
  exists p', session_check_timeout on_writable pool_fuel unlucky (set_pool_reactor p r) = Some p' /\
    session_ok reserve p' /\ pool_quiet p' /\ session_along (p_user p) (p_user p') /\
    if ss_active_stream_count (sesh p) =? 0 then closed_by_us (set_pool_reactor p r) p' else p' = set_pool_reactor p r.
Proof.
  intros Hres Hi Hq Hf Hid. destruct (fired_spec _ _ _ _ _ Hi Hf Hid) as (M&Hr&Hc&_&Hina&Hz). set (q := set_pool_reactor p r) in *.
  unfold session_check_timeout. change (sesh q) with (sesh p). rewrite Hz. cbn [Z.eqb andb]. rewrite andb_true_r.
  destruct (Z.eqb_spec (ss_active_stream_count (sesh p)) 0) as [Hn|Hn].
  - destruct (close_core_spec reserve q Hres) as (p'&->&Hi'&Hk&Hclosed); [right; exists p; split; [by apply inv_base|done]|done|done|done|].
    cbn [mbind option_bind]. exists p'. split; [done|]. split; [done|].
    split; [eapply (keeps_quiet (CO := session_sender)); [exact Hk|exact Hq]|]. split; [apply Hk|done].
  - assert (Hs' : session_inv q).
    { split; [exact Hc|]. split; [|by intros _ Hx]. intros Hne. destruct Hc as (_&_&_&(_&_&_&_&T5&_)). destruct Hne. by apply T5. }
    assert (Hiq : session_ok (reserve + largest_envelope (p_sb p)) q) by (eapply inv_moves; [exact Hi|exact M|exact Hs'|apply session_along_refl]).
    exists q. split; [done|]. split; [eapply reserve_less; [done|by eapply room_nonneg|exact Hiq]|]. split; [exact Hq|]. split; [apply session_along_refl|done].
Qed.

(** The application is told. *)
Lemma note_broken_inv p :
  env_ready p -> session_inv p -> ss_closed (sesh p) <> 0 ->
  u_timers (p_user p) !! ss_teardown_timer_id (sesh p) <> Some DeferredTeardown -> told_broken (u_log (p_user p)) = [] ->
  session_moves p (session_note p SessionBroken) /\ session_inv (session_note p SessionBroken).
Proof.
  intros Hr [(H1&H2&H3&(T1&T2&T3&T4&T5&T6&T7)) Hl] Hc Htd Htold. split; [by apply user_moves|]. split; [|exact Hl].
  split; [exact H1|]. split; [exact H2|]. split; [exact H3|]. split; [exact T1|]. split; [exact T2|]. split; [exact T3|].
  split; [exact T4|]. split; [exact T5|].
  change (u_log (p_user (session_note p SessionBroken))) with (u_log (p_user p) ++ [SessionBroken]).
  rewrite told_broken_app, Htold. split; [cbn; lia|]. by intros [?|?].
Qed.

(** The sweep is scheduled and the application is about to be told. *)
Definition teardown_told p q : Prop :=
  scheduled q TeardownSweep /\
  u_log (p_user q) = u_log (p_user p) ++ (if ss_on_broken (sesh p) then [SessionBroken] else []) /\
  u_heap (p_user q) = u_heap (p_user p) /\ ss_streams (sesh q) = ss_streams (sesh p) /\
  ss_active_stream_count (sesh q) = ss_active_stream_count (sesh p) /\
  session_config (sesh q) = session_config (sesh p) /\ ss_closed (sesh q) <> 0 /\ p_sb q = p_sb p.

Lemma deferred_teardown_spec reserve p id r :
  session_ok reserve p -> pool_quiet p ->
  r_fire (p_reactor p) = Some (id, r) -> u_timers (p_user p) !! id = Some DeferredTeardown ->
  exists q, session_deferred_teardown_cb on_broken (set_pool_reactor p r) =
      (if ss_on_broken (sesh p) then on_broken q else Some q) /\
    session_ok reserve q /\ pool_quiet q /\ teardown_told p q /\ told_broken (u_log (p_user p)) = [].
Proof.
  intros Hi Hq Hf Hid. destruct (fired_spec _ _ _ _ _ Hi Hf Hid) as (M&Hr&Hc&Hnone&Htd&Hcl). set (p0 := set_pool_reactor p r) in *.
  assert (Htold : told_broken (u_log (p_user p)) = []).
  { pose proof Hc as (_&_&_&(_&_&_&_&_&_&T7)). apply T7. right. cbn. change (u_sesh (p_user p)) with (sesh p). by rewrite <- Htd. }
  assert (Hidle : forall i c, u_timers (p_user p0) !! i = Some c -> ~ armed (p_reactor p0) i).
  { intros i c Hi' Ha. pose proof (Hnone i c Hi' Ha). pose proof Hc as (_&_&_&(_&_&_&T4&_)). specialize (T4 _ _ Hi' Ha).
    destruct (is_check c) eqn:Ec; [|done]. destruct T4 as [_ T4]. exact (Hcl T4). }
  unfold session_deferred_teardown_cb. destruct (session_add_timer p0 0 TeardownSweep) as [id' p1] eqn:E.
  destruct (schedule_core p0 TeardownSweep Hr Hc Hcl eq_refl Hidle) with (id := id') (p1 := p1) as (M2&Hi2&tm&Hu2&Htm); [done|done|].
  cbv zeta in M2, Hi2, Hu2, Htm. set (p2 := set_sesh p1 _) in *. clearbody p2. clear E.
  change (sesh p0) with (sesh p) in *. change (p_user p0) with (p_user p) in *.
  assert (Hsch : scheduled p2 TeardownSweep) by (unfold scheduled, sesh; rewrite Hu2; exact Htm).
  assert (Hon : ss_on_broken (sesh p2) = ss_on_broken (sesh p)) by (unfold sesh at 1; by rewrite Hu2).
  pose proof (moves_trans _ _ _ M M2) as M02. pose proof (moves_ready _ _ Hr M2) as Hr2.
  assert (Hcl2 : ss_closed (sesh p2) <> 0) by (unfold sesh at 1; by rewrite Hu2).
  assert (Htd2 : u_timers (p_user p2) !! ss_teardown_timer_id (sesh p2) <> Some DeferredTeardown).
  { unfold scheduled in Hsch. destruct (Z.eq_dec (ss_teardown_timer_id (sesh p2)) CLOAK_TIMER_INVALID) as [E|E]; [|destruct (Hsch E); congruence].
    rewrite E. intros Hx. destruct Hi2 as [(_&_&_&(T1&_)) _]. by destruct (T1 _ _ Hx). }
  assert (Hlog2 : told_broken (u_log (p_user p2)) = []) by (by rewrite Hu2).
  assert (Hok : forall q, session_moves p q -> session_inv q -> ss_closed (sesh q) <> 0 -> session_ok reserve q).
  { intros q Mq Hiq Hcq. apply base_inv; [eapply base_moves; [by apply inv_base|exact Mq|exact Hiq]|by intros _]. }
  assert (Hsb : p_sb p2 = p_sb p) by (by rewrite (moves_sb _ _ M02)).
  rewrite Hon. destruct (ss_on_broken (sesh p)) eqn:Hset.
  - destruct (note_broken_inv p2 Hr2 Hi2 Hcl2 Htd2 Hlog2) as [M3 Hi3]. exists (session_note p2 SessionBroken). split; [done|].
    split; [apply Hok; [by eapply moves_trans|exact Hi3|exact Hcl2]|]. split; [unfold pool_quiet; cbn; by rewrite Hsb|]. split; [|done].
    split; [exact Hsch|]. unfold sesh in Hset |- *. cbn. rewrite Hu2, Hset. by rewrite Hsb.
  - exists p2. split; [done|]. split; [by apply Hok|]. split; [unfold pool_quiet; by rewrite Hsb|]. split; [|done].
    split; [exact Hsch|]. unfold sesh in Hset |- *. rewrite Hu2, Hset, app_nil_r. by rewrite Hsb.
Qed.

(** The sweep: every stream the application did not keep is freed, every
    connection is given back. *)
Definition swept p p' : Prop :=
  (forall q e, u_heap (p_user p') !! q = Some e <-> u_heap (p_user p) !! q = Some e /\ en_retired e <> 0) /\
  ss_active_stream_count (sesh p') = 0 /\ sb_conns (p_sb p') = [] /\
  p_log p' = p_log p ++ map FdClosed (fds (sb_conns (p_sb p))) /\
  (forall f, watching (p_reactor p') f <-> watching (p_reactor p) f /\ (f ∉ fds (sb_conns (p_sb p)))) /\
  u_log (p_user p') = u_log (p_user p) /\ ss_closed (sesh p') = ss_closed (sesh p) /\
  ss_teardown_timer_id (sesh p') = CLOAK_TIMER_INVALID.

Lemma sweep_spec reserve p id r :
  session_ok reserve p -> r_fire (p_reactor p) = Some (id, r) -> u_timers (p_user p) !! id = Some TeardownSweep ->
  exists p', session_teardown_sweep_cb (set_pool_reactor p r) = Some p' /\ session_ok reserve p' /\ pool_quiet p' /\ swept p p' /\
    session_config (sesh p') = session_config (sesh p).
Proof.
  intros Hi Hf Hid. destruct (fired_spec _ _ _ _ _ Hi Hf Hid) as (M&Hr&Hc&Hnone&Htd&Hcl). set (p0 := set_pool_reactor p r) in *.
  unfold session_teardown_sweep_cb. set (p1 := set_sesh p0 _). change (sesh p0) with (sesh p) in *.
  pose proof Hc as (H1&H2&H3&(T1&T2&T3&T4&T5&T6&T7)).
  assert (M1 : session_moves p p1) by (eapply moves_trans; [exact M|by apply user_moves]).
  destruct (free_streams_spec p1 H1 H2) as (p2&->&O2&Hs2&Hh2&Hn2&Hz2). cbn [mbind option_bind].
  assert (Hi1 : session_inv p1).
  { split; [split; [exact H1|split; [exact H2|split; [exact H3|]]]|split].
    - split; [exact T1|]. split; [exact T2|]. split; [by left|]. split; [|split; [done|split; [exact T6|]]].
      + intros i c Hi' Ha. specialize (T4 _ _ Hi' Ha). pose proof (Hnone i c Hi' Ha). destruct (is_check c); done.
      + intros [Hx|Hx]; [by destruct Hcl|]. exfalso. by destruct (T1 _ _ Hx).
    - by intros Hx.
    - by intros Hx. }
  pose proof (streams_only_moves p1 p2 Hr O2) as M2.
  assert (Hi2 : session_inv p2).
  { destruct Hi1 as [Hc1 Hl1]. split; [eapply streams_only_core; [exact Hc1|exact O2|exact Hs2|rewrite Hn2; apply H1]|].
    destruct O2 as (t&c&i&h&n&m&->). split; [by intros Hx|by intros Hx]. }
  assert (Hcl2 : ss_closed (sesh p2) = ss_closed (sesh p) /\ u_log (p_user p2) = u_log (p_user p) /\
    ss_teardown_timer_id (sesh p2) = CLOAK_TIMER_INVALID /\ session_config (sesh p2) = session_config (sesh p) /\
    p_sb p2 = p_sb p /\ p_log p2 = p_log p /\ p_reactor p2 = r) by (by destruct O2 as (t&c&i&h&n&m&->)).
  destruct Hcl2 as (E1&E2&E3&E4&E5&E6&E7).
  assert (Hok2 : session_ok reserve p2).
  { apply base_inv; [eapply base_moves; [by apply inv_base|by eapply moves_trans|exact Hi2]|by intros _; rewrite E1]. }
  pose proof (close_all_spec unlucky budget reserve p2 Hok2) as (Hok3&Hq3&Hnil&Hlog&Hw&_).
  assert (Hu3 : p_user (cloak_switchboard_close_all p2) = p_user p2).
  { unfold cloak_switchboard_close_all. by destruct (close_conns _ _ _). }
  set (p3 := cloak_switchboard_close_all p2) in *. clearbody p3.
  exists p3. split; [done|]. split; [done|]. split; [done|]. unfold swept, sesh. rewrite Hu3.
  split; [|exact E4]. split; [exact Hh2|]. split; [exact Hz2|]. split; [done|]. rewrite <- E6, <- E5. split; [exact Hlog|].
  split; [|split; [done|by split]]. intros f. rewrite (unwatched_watching _ _ _ _ Hw), E7. pose proof (same_watches_watched _ _ (sm_watch _ _ M) f) as Hwm. cbn in Hwm. by rewrite Hwm.
Qed.

(** ** Beginning and end *)

(** What [cloak_session_destroy] leaves: nothing of the session in the event
    loop, and on the heap the streams the application has not released. *)
Lemma session_destroy_spec reserve p :
  session_ok reserve p ->
  exists p', cloak_session_destroy p = Some p' /\ session_gone p' /\
    (forall q e, u_heap (p_user p') !! q = Some e <-> u_heap (p_user p) !! q = Some e /\ en_retired e <> 0) /\
    p_log p' = p_log p ++ map FdClosed (fds (sb_conns (p_sb p))) /\
    (forall f, watching (p_reactor p') f <-> watching (p_reactor p) f /\ (f ∉ fds (sb_conns (p_sb p)))) /\
    u_log (p_user p') = u_log (p_user p).
Proof.
  intros Hi. destruct (inv_ready _ _ _ _ Hi) as (Hr&Hs&_). unfold cloak_session_destroy.
  pose proof (close_internal_spec p Hr Hs) as Hclose. destruct (session_close_internal p) as [first p1].
  destruct Hclose as (M1&Hi1&Hw1&Hcl1&Hcase1). pose proof (moves_ready _ _ Hr M1) as Hr1.
  assert (Hsame1 : u_heap (p_user p1) = u_heap (p_user p) /\ u_log (p_user p1) = u_log (p_user p)).
  { destruct (negb _); [by destruct Hcase1 as [_ ->]|]. by destruct Hcase1 as [_ [-> _]]. }
  pose proof Hi1 as [(H1&H2&H3&(T1&T2&T3&T4&_)) _].
  assert (Hn : ~ pool_timer (sb_conns (p_sb p1)) (ss_teardown_timer_id (sesh p1))).
  { destruct T3 as [E|(cb&E&_)]; [intros [Hx _]; by apply Hx|by apply (T1 _ _ E)]. }
  destruct (cancel_timer_moves p1 _ Hr1 Hn) as [M2 A2]. set (p2 := session_cancel_timer p1 _) in *.
  destruct (free_streams_spec p2 H1 H2) as (p3&->&O3&_&Hh3&_&_). cbn [mbind option_bind].
  pose proof (streams_only_moves p2 p3 (moves_ready _ _ Hr1 M2) O3) as M3.
  pose proof (moves_trans _ _ _ (moves_trans _ _ _ M1 M2) M3) as M.
  assert (Hkeep : u_timers (p_user p3) = u_timers (p_user p1) /\ p_reactor p3 = p_reactor p2 /\ u_log (p_user p3) = u_log (p_user p1))
    by (by destruct O3 as (?&?&?&?&?&?&->)).
  destruct Hkeep as (Htm3&Hre3&Hlog3).
  pose proof (close_all_spec unlucky budget reserve p3 (inv_alone _ _ _ _ _ (inv_base _ _ _ _ Hi) M)) as (Hok4&_&_&Hlog&Hw&Ht).
  assert (Hu4 : p_user (cloak_switchboard_close_all p3) = p_user p3).
  { unfold cloak_switchboard_close_all. by destruct (close_conns _ _ _). }
  unfold cloak_switchboard_destroy. set (p4 := cloak_switchboard_close_all p3) in *. clearbody p4.
  eexists. split; [reflexivity|]. rewrite (moves_sb _ _ M) in *.
  assert (Hpl : p_log p3 = p_log p) by (by rewrite (sm_frame _ _ M)). rewrite Hpl in Hlog.
  split; [|split; [|split; [exact Hlog|split; [|cbn; rewrite Hu4, Hlog3; apply Hsame1]]]].
  - split; [done|]. split; [done|]. split; [apply Hok4|]. cbn. rewrite Hu4, Htm3, Hlog3, (proj2 Hsame1).
    split; [apply Hs|]. intros id cb Hid Ha.
    apply Ht in Ha as [Ha _]. rewrite Hre3 in Ha. apply A2 in Ha as [Hne Ha]. specialize (T4 _ _ Hid Ha).
    destruct (is_check cb); [by destruct T4|]. by destruct T4.
  - cbn. rewrite Hu4. intros q e. rewrite Hh3. change (u_heap (p_user p2)) with (u_heap (p_user p1)). by rewrite (proj1 Hsame1).
  - cbn. intros f. rewrite (unwatched_watching _ _ _ _ Hw). pose proof (same_watches_watched _ _ (sm_watch _ _ M) f) as Hwm. by rewrite Hwm.
Qed.

(** A new connection. *)
Lemma add_conn_user p fd framing so m : p_user (cloak_switchboard_add_conn_framed p fd framing so m).2 = p_user p.
Proof.
  unfold cloak_switchboard_add_conn_framed. destruct (_ =? CLOAK_CONN_FRAMING_INVALID); [done|]. destruct (negb (sb_broken _ =? 0)); [done|].
  destruct (_ && _); [done|]. destruct (negb (mem_conn m)); [by case_match|]. destruct (cloak_conn_init_cfg _ _ _) as [[rc c] r].
  destruct (negb (rc =? 0)); by case_match.
Qed.

Lemma add_conn_spec reserve p fd framing so m :
  session_ok reserve p -> pool_quiet p -> add_ok p fd framing so m ->
  let '(rc, p') := cloak_session_add_conn_framed fd framing so m p in
  session_ok reserve p' /\ pool_quiet p' /\ p_user p' = p_user p /\
  if ss_closed (sesh p) =? 0 then pool_added p fd framing so rc p' else rc = -1 /\ p' = p.
Proof.
  intros Hi Hq Hok. unfold cloak_session_add_conn_framed. destruct (ss_closed (sesh p) =? 0); cbn [negb]; [|by split_and!].
  pose proof (add_spec _ _ reserve p fd framing so m Hi Hq Hok) as Ha. pose proof (add_conn_user p fd framing so m) as Hu.
  destruct (cloak_switchboard_add_conn_framed p fd framing so m) as [rc p']. destruct Ha as (Ha1&Ha2&Ha3). by split_and!.
Qed.

(** What the caller of [cloak_session_init] gives: sizes are unsigned. *)
Record config_good (c : cloak_session_config) : Prop := {
  cg_obfuscator : obfuscator_ok (sc_obfuscator c);
  cg_wire : 0 <= sc_max_on_wire_size c;
  cg_recv : 0 <= sc_stream_recv_capacity c <= INT64_MAX;
  cg_pending : 0 <= sc_stream_max_pending_frames c <= INT64_MAX / 32;
  cg_queue : 0 <= sc_conn_send_queue_cap c
}.

(** A world in which no session is: an event loop, a clock and a generator. *)
Definition no_session p : Prop :=
  reactor_ok (p_reactor p) /\ env_ok (p_clock p) /\ rand_ok (p_rand p) /\ fair unlucky (p_rand p) /\ p_log p = [] /\
  u_heap (p_user p) = ∅ /\ u_timers (p_user p) = ∅ /\ u_log (p_user p) = [].

Definition sizes_ok (c : cloak_session_config) : bool :=
  (CLOAK_FRAME_HEADER_LEN + CLOAK_FRAME_MAX_EXTRA_LEN <? sc_max_on_wire_size c) &&
  (sc_max_on_wire_size c <=? CLOAK_CONN_MAX_FRAME_LEN) && (0 <? sc_conn_send_queue_cap c) &&
  (sc_max_on_wire_size c - CLOAK_FRAME_HEADER_LEN <=? sc_stream_recv_capacity c).

Definition ordering_ok (o : Z) : bool := (o =? CLOAK_SESSION_ORDERING_ORDERED) || (o =? CLOAK_SESSION_ORDERING_UNORDERED).

(** The order of the refusals. *)
Definition init_rc (c : cloak_session_config) (calloc_ok : bool) : Z :=
  if negb (ordering_ok (sc_ordering c)) then CLOAK_SESSION_ERR_INVALID_ORDERING
  else if sizes_ok c && calloc_ok then 0 else -1.

Lemma small_table ok : exists rc t, cloak_strmtab_init 8 16 ok = Some (rc, t) /\ if ok then rc = 0 /\ tab_rep t ∅ else rc = -1.
Proof.
  destruct ok; [|by do 2 eexists]. destruct (strmtab_init_spec 61 16) as (t&E&Ht&_); [by split|lia|].
  exists 0, t. split; [|done]. rewrite <- E. by vm_compute.
Qed.

Lemma sizes_checked (c : cloak_session_config) :
  config_good c ->
  (sc_max_on_wire_size c <=? CLOAK_FRAME_HEADER_LEN + CLOAK_FRAME_MAX_EXTRA_LEN) || (sc_stream_recv_capacity c =? 0) ||
  (sc_stream_recv_capacity c <? u64 (sc_max_on_wire_size c - CLOAK_FRAME_HEADER_LEN)) ||
  (sc_conn_send_queue_cap c =? 0) || (CLOAK_CONN_MAX_FRAME_LEN <? sc_max_on_wire_size c) = negb (sizes_ok c).
Proof.
  intros [_ Hw Hr _ Hq]. unfold sizes_ok, CLOAK_FRAME_HEADER_LEN, CLOAK_FRAME_MAX_EXTRA_LEN, CLOAK_CONN_MAX_FRAME_LEN.
  destruct (Z.le_gt_cases (sc_max_on_wire_size c) 269) as [Hs|Hs]; [lia|].
  destruct (Z.le_gt_cases (sc_max_on_wire_size c) 16640) as [Hb|Hb]; [|lia]. rewrite u64_small by lia. lia.
Qed.

Definition begun p id (c : cloak_session_config) p' : Prop :=
  ss_id (sesh p') = id /\ ss_closed (sesh p') = 0 /\ ss_active_stream_count (sesh p') = 0 /\ ss_next_stream_id (sesh p') = 1 /\
  u_heap (p_user p') = ∅ /\ sb_conns (p_sb p') = [] /\ sb_valve (p_sb p') = sc_valve c /\
  session_config (sesh p') = (id, sc_ordering c, sc_obfuscator c, sc_max_on_wire_size c, sc_stream_recv_capacity c,
    sc_stream_max_pending_frames c, sc_inactivity_timeout_ms c,
    (sc_on_new_stream c, sc_on_broken c, sc_on_writable c, sc_on_stream_data c)).

Lemma init_spec p id c v :
  no_session p -> config_good c -> valve_load (p_valves p) (sc_valve c) = Some v -> pool_room budget 0 (p_user p) v [] ->
  exists rc p', cloak_session_init id c p = Some (rc, p') /\ rc = init_rc c (hd true (u_mem (p_user p))) /\
    if rc =? 0 then session_ok 0 p' /\ pool_quiet p' /\ begun p id c p'
    else p_reactor p' = p_reactor p /\ u_heap (p_user p') = ∅ /\ sb_conns (p_sb p') = [] /\ p_log p' = [].
Proof.
  intros (Hok&Hck&Hrd&Hfair&Hlog&Hheap&Htm&Hul) Hc Hv Hroom. unfold cloak_session_init, init_rc, ordering_ok.
  rewrite negb_orb, (sizes_checked c Hc). set (p0 := set_sb (set_sesh p zero_session) zero_switchboard).
  destruct (negb _ && negb _) eqn:Hord.
  { eexists _, p0. split; [reflexivity|]. split; [done|]. by split_and!. }
  apply andb_false_iff in Hord. rewrite !negb_false_iff, !Z.eqb_eq in Hord.
  destruct (sizes_ok c) eqn:Hsz; cbn [negb andb].
  2: { eexists _, p0. split; [reflexivity|]. split; [done|]. by split_and!. }
  unfold session_malloc. change (u_mem (p_user p0)) with (u_mem (p_user p)).
  destruct (small_table (hd true (u_mem (p_user p)))) as (rc&t&->&Htab). cbn [mbind option_bind].
  destruct (hd true (u_mem (p_user p))) eqn:Hmem; [destruct Htab as [-> Htab]|rewrite Htab]; cbn [Z.eqb negb].
  2: { eexists _, _. split; [reflexivity|]. split; [done|]. by split_and!. }
  unfold sizes_ok in Hsz. apply andb_true_iff in Hsz as [Hsz Hrecv]. apply andb_true_iff in Hsz as [Hsz Hcap].
  apply andb_true_iff in Hsz as [Hlow Hhigh].
  apply Z.ltb_lt in Hlow, Hcap. apply Z.leb_le in Hhigh, Hrecv. destruct Hc as [Hobf _ [_ Hrmax] Hpend _].
  pose proof Hlow as Hlow'. unfold CLOAK_FRAME_HEADER_LEN, CLOAK_FRAME_MAX_EXTRA_LEN in Hlow'.
  unfold cloak_switchboard_init. rewrite (proj2 (Z.eqb_neq (sc_max_on_wire_size c) 0)) by lia.
  rewrite (proj2 (Z.ltb_ge CLOAK_CONN_MAX_FRAME_LEN _) Hhigh). rewrite (proj2 (Z.eqb_neq (sc_conn_send_queue_cap c) 0)) by lia.
  cbn [orb Z.eqb negb]. set (p1 := cloak_switchboard_set_valve _ _).
  assert (Hi1 : session_inv p1).
  { split; [|by split]. split; [|split; [|split; [done|]]].
    - split; [exact Hord|]. split; [exact Hobf|]. split; [split; [exact Hlow|exact Hhigh]|].
      split; [split; [exact Hrecv|exact Hrmax]|]. split; [exact Hpend|]. cbn. lia.
    - cbn. rewrite Hheap. split; [|intros ptr e Hx; by rewrite lookup_empty in Hx]. exists ∅. split; [exact Htab|]. split; [done|].
      split; [by intros i st x Hx|]. intros i ptr. split; [by intros Hx|]. intros (e&Hx&_). by rewrite lookup_empty in Hx.
    - cbn. rewrite Htm, Hul. split; [by intros i cb Hx|]. split; [by left|]. split; [by left|]. split; [by intros i cb Hx|].
      split; [done|]. split; [cbn; lia|done]. }
  assert (Hpos : 0 < sc_max_on_wire_size c) by lia.
  assert (Hi : session_ok 0 p1).
  { apply base_inv; [|by intros Hx; destruct Hx]. split; [|by intros j s Hx].
    split; [exact (conj Hok (conj Hck (conj Hrd (conj Hfair (conj (fresh_rng_ok (sc_max_on_wire_size c) (sc_conn_send_queue_cap c) true true) (conj (conj Hpos Hhigh) Hcap))))))|].
    split; [exists v; by split|]. split; [apply NoDup_nil_2|]. split; [by intros ?|]. split; [done|]. split; [by intros Hx; destruct Hx|].
    split; [cbn; by rewrite Hlog|]. by split. }
  assert (Hr1 : env_ready p1) by apply (inv_ready _ _ _ _ Hi).
  destruct (reschedule_spec p1 Hr1 (proj1 Hi1) eq_refl) as (M&Hi2&ina&tm&Hu2). set (p2 := session_reschedule_inactivity_timer p1) in *.
  pose proof (moves_sb _ _ M) as Hsb. clearbody p2. exists 0, p2. split; [done|]. split; [done|]. cbn [Z.eqb].
  split; [|split; [by intros j s; rewrite Hsb|]].
  - eapply inv_moves; [exact Hi|exact M|exact Hi2|]. rewrite Hu2. split; [done|]. split; [done|]. exists []. by rewrite app_nil_r.
  - unfold begun, sesh. rewrite Hu2, Hsb. by split_and!.
Qed.

End life.
