(* ===== verification/SessionReach.v ===== *)
(** * Every session that can arise

    The events of the loop and the calls of the application as steps, the
    sessions that they lead to from one that [cloak_session_init] accepted, and
    the invariant of all of them: every step returns, and leaves the session
    in order or gone; and what two of them that talk say to each other. *)
From stdpp Require Import gmap.
From S2P Require Import Prelude Refinement Fallible Random Frame Aead ByteQueue MsgQueue Heap Stream StreamSpec StreamDelivery StrmTab Valve ReactorApi Conn ConnInv Switchboard SwitchboardRng SwitchboardInv SwitchboardRun Session SessionInv SessionStreams SessionSteps SessionRun SessionSend SessionLife.

Inductive session_input :=
| SessReady (i : nat) (events : Z)
| SessTimer
| SessAddConn (fd framing : Z) (so : socket) (m : pool_memory)
| SessOpenStream
| SessWrite (ptr : Z) (input : bytes)
| SessRead (ptr cap : Z)
| SessCloseStream (ptr : Z)
| SessReleaseStream (ptr : Z)
| SessClose
| SessDestroy.

Section reach.
Context {R A : Type} {RR : Reactor R} {RL : ReactorLaws R} {EV : Evp} {EL : EvpLaws}.
#[local] Abbreviation world := (pool_world R (session_user A)).
Implicit Types p : world.
Variable unlucky : nat.
Variable app_budget : A -> Z.
#[local] Abbreviation budget := (session_budget app_budget).
#[local] Abbreviation session_ok := (pool_inv (CO := session_companion) unlucky budget).
Variable on_new_stream : Z -> world -> option world.
Variable on_stream_data : Z -> world -> option world.
Variable on_writable : world -> option world.
Variable on_broken : world -> option world.

#[local] Abbreviation pool_fuel := (pick_fuel unlucky).
#[local] Abbreviation on_envelope := (session_on_envelope on_new_stream on_stream_data).
#[local] Abbreviation drained_adapter := (session_switchboard_drained_adapter on_writable).
#[local] Abbreviation session_pool_step := (pool_step unlucky on_envelope session_on_switchboard_broken drained_adapter).

Definition session_step (input : session_input) p : option world :=
  match input with
  | SessReady i events => session_pool_step (PoolReady i events) p
  | SessTimer =>
      match r_fire (p_reactor p) with
      | None => Some p
      | Some (id, r) =>
          match u_timers (p_user p) !! id with
          | Some cb => session_timer_cb on_writable on_broken pool_fuel unlucky cb (set_pool_reactor p r)
          | None => session_pool_step PoolTimer p
          end
      end
  | SessAddConn fd framing so m => Some (cloak_session_add_conn_framed fd framing so m p).2
  | SessOpenStream => '(_, p) ← cloak_session_open_stream p; Some p
  | SessWrite ptr input => '(_, p) ← session_stream_write on_writable pool_fuel unlucky ptr input p; Some p
  | SessRead ptr cap => '(_, _, p) ← session_stream_read ptr cap p; Some p
  | SessCloseStream ptr => '(_, p) ← cloak_session_close_stream on_writable pool_fuel unlucky ptr p; Some p
  | SessReleaseStream ptr => cloak_session_release_stream on_writable pool_fuel unlucky ptr p
  | SessClose => '(_, p) ← cloak_session_close on_writable pool_fuel unlucky p; Some p
  | SessDestroy => cloak_session_destroy p
  end.

(** The counters of the valve can take [n] more frames of any size. *)
Definition roomy (n : Z) p : Prop :=
  forall v, valve_load (p_valves p) (sb_valve (p_sb p)) = Some (Some v) ->
    cloak_valve_tx (Some v) + n * largest_envelope (p_sb p) + budget (p_user p) <= INT64_MAX.

(** The calls that the header allows: the session was not destroyed, the stream
    not released. *)
Definition alive p : Prop := sesh p <> zero_session.
Definition session_input_ok p (input : session_input) : Prop :=
  match input with
  | SessReady i _ => is_Some (sb_conns (p_sb p) !! i)
  | SessTimer => roomy 1 p
  | SessAddConn fd framing so m => alive p /\ add_ok p fd framing so m
  | SessOpenStream | SessDestroy => alive p
  | SessWrite ptr input => alive p /\ is_Some (entry_at p ptr) /\ all_bytes input /\ zlen input <= INT64_MAX /\ roomy (zlen input) p
  | SessRead ptr cap => alive p /\ is_Some (entry_at p ptr) /\ 0 <= cap
  | SessCloseStream ptr | SessReleaseStream ptr => alive p /\ is_Some (entry_at p ptr) /\ roomy 1 p
  | SessClose => alive p /\ roomy 1 p
  end.

(** A session that [cloak_session_init] just accepted. *)
Definition session_started p : Prop :=
  exists p0 id c v, no_session unlucky p0 /\ config_good c /\ valve_load (p_valves p0) (sc_valve c) = Some v /\
    pool_room budget 0 (p_user p0) v [] /\ cloak_session_init id c p0 = Some (0, p).

Inductive session_reachable (p0 : world) : world -> Prop :=
| session_here : session_reachable p0 p0
| session_next p input p' :
    session_reachable p0 p -> session_input_ok p input -> session_step input p = Some p' -> session_reachable p0 p'.

Definition in_order p : Prop := session_ok 0 p /\ pool_quiet p.

Hypothesis Happ : app_ok unlucky app_budget on_new_stream on_stream_data on_writable on_broken.
#[local] Abbreviation owner := (session_owner unlucky app_budget on_new_stream on_stream_data on_writable on_broken Happ).

Lemma started_in_order p : session_started p -> in_order p.
Proof.
  intros (p0&id&c&v&H0&Hc&Hv&Hroom&Hinit). destruct (init_spec unlucky app_budget p0 id c v H0 Hc Hv Hroom) as (rc&p'&Hi&_&Hcase).
  rewrite Hi in Hinit. injection Hinit as -> ->. split; apply Hcase.
Qed.

Lemma in_order_alive p : in_order p -> alive p.
Proof.
  intros [Hi _] Hz. destruct (inv_ready _ _ _ _ Hi) as (_&[((_&_&[Hw _]&_)&_) _]&_). change (u_sesh (p_user p)) with (sesh p) in Hw.
  rewrite Hz in Hw. done.
Qed.

Lemma roomy_reserve n p : in_order p -> 0 <= n -> roomy n p -> session_ok (0 + n * largest_envelope (p_sb p)) p.
Proof.
  intros [Hi _] Hn Hroom. pose proof (room_nonneg _ _ _ _ Hi) as Hl.
  destruct Hi as [(Hsane&(v&Hv&(R1&R2&R3&R4&R5&R6&R7))&Hrest) Hslots]. split; [|exact Hslots]. split; [exact Hsane|]. split; [|exact Hrest].
  exists v. split; [done|]. do 4 (split; [done|]). split; [nia|]. split; [done|].
  intros Hne. destruct v as [v|]; [|done]. specialize (Hroom v Hv). lia.
Qed.

(** Somebody else's timer. *)
Lemma foreign_inv p id r :
  env_ready p -> session_inv p -> r_fire (p_reactor p) = Some (id, r) -> u_timers (p_user p) !! id = None ->
  session_inv (set_pool_reactor p r).
Proof.
  intros [Hok _] [(H1&H2&H3&Ht) [L1 L2]] Hf Hnone. destruct (fire_law _ _ _ Hok Hf) as (_&_&_&Hid).
  assert (Hag : aged (p_reactor p) r) by (apply aged_call; [done|by econstructor]).
  split; [split; [exact H1|split; [exact H2|split; [exact H3|]]]|].
  - apply (core_step (p_reactor p) r (sb_conns (p_sb p)) (sb_conns (p_sb p))); [exact Ht|exact Hag|by left].
  - destruct Ht as (_&_&T3&_). split.
    + intros Hne. apply Hid. split; [|by apply L1]. intros E. destruct T3 as [|(cb&Hcb&_)]; [done|].
      change (ss_teardown_timer_id (sesh p) = id) in E. change (u_sesh (p_user p)) with (sesh p) in Hcb. rewrite E in Hcb. congruence.
    + intros Hz Hn Hne. destruct (L2 Hz Hn Hne) as [Ha Htm]. split; [|exact Htm]. apply Hid. split; [|exact Ha]. intros E.
      change (ss_inactivity_timer_id (sesh p) = id) in E. rewrite E in Htm. congruence.
Qed.

Lemma session_timer_step p :
  in_order p -> roomy 1 p -> exists p', session_step SessTimer p = Some p' /\ (session_gone p' \/ in_order p').
Proof.
  intros [Hi Hq] Hroom. cbn [session_step]. destruct (r_fire (p_reactor p)) as [[id r]|] eqn:Hf; [|exists p; split; [done|by right]].
  destruct (u_timers (p_user p) !! id) as [[]|] eqn:Hid; cbn [session_timer_cb].
  - pose proof (roomy_reserve 1 p (conj Hi Hq) ltac:(lia) Hroom) as Hi1. rewrite Z.mul_1_l in Hi1.
    destruct (check_timeout_spec _ _ _ _ _ _ Happ 0 p id r ltac:(lia) Hi1 Hq Hf Hid) as (p'&->&Hi'&Hq'&_). exists p'. split; [done|by right].
  - destruct (deferred_teardown_spec unlucky app_budget on_broken 0 p id r Hi Hq Hf Hid) as (q&->&Hiq&Hqq&_).
    destruct (ss_on_broken (sesh p)); [|exists q; split; [done|by right]].
    destruct (app_broken _ _ _ _ _ _ Happ q Hiq Hqq) as (p'&->&Hp'). exists p'. split; [done|].
    destruct Hp' as [|(?&?&_)]; [by left|right; by split].
  - destruct (sweep_spec unlucky app_budget 0 p id r Hi Hf Hid) as (p'&->&Hi'&Hq'&_). exists p'. split; [done|right; by split].
  - destruct (timer_spec (CO := session_companion) unlucky budget _ _ _ owner 0 p Hi Hq) as (p'&->&Hi'&Hq').
    { intros id' r' Hf' _. rewrite Hf in Hf'. injection Hf' as <- <-. destruct (inv_ready _ _ _ _ Hi) as (Hr&Hs&_). by eapply foreign_inv. }
    exists p'. split; [done|right; by split].
Qed.

(** One step of a session in order. *)
Lemma step_in_order input p :
  in_order p -> session_input_ok p input -> exists p', session_step input p = Some p' /\ (session_gone p' \/ in_order p').
Proof.
  intros Hin Hok. pose proof Hin as [Hi Hq]. destruct (inv_ready _ _ _ _ Hi) as (Hr&Hs&_).
  assert (Hone : roomy 1 p -> session_ok (0 + largest_envelope (p_sb p)) p).
  { intros H. rewrite <- (Z.mul_1_l (largest_envelope _)). by apply roomy_reserve. }
  assert (Hsend : forall p', session_ok 0 p' -> pool_keeps (CO := session_sender) p p' -> session_gone p' \/ in_order p').
  { intros p' Hi' Hk. right. split; [exact Hi'|]. by eapply (keeps_quiet (CO := session_sender)). }
  destruct input as [i ev| |fd fr so m| |ptr data|ptr cap|ptr|ptr| |]; cbn [session_input_ok session_step] in *.
  - destruct Hok as [s Hsl].
    destruct (ready_spec (CO := session_companion) unlucky budget _ _ _ owner 0 p i s ev Hi Hq Hsl) as (p'&->&Hi'&Hq'&_).
    exists p'. split; [done|right; by split].
  - by apply session_timer_step.
  - pose proof (add_conn_spec unlucky app_budget 0 p fd fr so m Hi Hq (proj2 Hok)) as Ha.
    destruct (cloak_session_add_conn_framed fd fr so m p) as [rc p']. destruct Ha as (Hi'&Hq'&_). exists p'. split; [done|right; by split].
  - destruct (open_stream_spec unlucky app_budget 0 p Hi) as (res&p'&->&Hi'&Hk&_). exists p'. split; [done|by apply Hsend].
  - destruct Hok as (_&[e He]&Hb&Hl&Hroom).
    destruct (stream_write_spec _ _ _ _ _ _ Happ 0 p ptr e data ltac:(lia)) as (rc&p'&->&Hi'&Hk&_); [|done|done|done|].
    { apply roomy_reserve; [done|apply zlen_nonneg|done]. }
    exists p'. split; [done|by apply Hsend].
  - destruct Hok as (_&[e He]&Hc). destruct (stream_read_spec p ptr e cap (proj1 (proj2 (proj1 Hs))) He Hc) as (rc&out&st&p'&->&O&Hs'&Hse&Hh&Hsend'&_).
    exists p'. split; [done|]. pose proof (streams_only_moves _ _ Hr O) as M. right. split.
    + eapply inv_moves; [exact Hi|exact M| |by apply streams_only_along].
      eapply streams_only_inv; [exact Hs|exact O|exact Hs'|rewrite Hse; apply (proj1 (proj1 Hs))|by rewrite Hse].
    + unfold pool_quiet. rewrite (moves_sb _ _ M). exact Hq.
  - destruct Hok as (_&[e He]&Hroom). destruct (close_stream_spec _ _ _ _ _ _ Happ 0 p ptr e ltac:(lia) (Hone Hroom) He) as (rc&p'&->&Hi'&Hk&_).
    exists p'. split; [done|by apply Hsend].
  - destruct Hok as (_&[e He]&Hroom). destruct (release_spec _ _ _ _ _ _ Happ 0 p ptr e ltac:(lia) (Hone Hroom) He) as (p'&->&Hi'&Hk&_).
    exists p'. split; [done|]. right. split; [exact Hi'|]. by eapply (keeps_quiet (CO := session_companion)).
  - destruct (close_spec _ _ _ _ _ _ Happ 0 p ltac:(lia) (Hone (proj2 Hok))) as (rc&p'&->&Hi'&Hk&_). exists p'. split; [done|by apply Hsend].
  - destruct (session_destroy_spec unlucky app_budget 0 p Hi) as (p'&->&Hg&_). exists p'. split; [done|by left].
Qed.

(** Of a session that is gone nothing is left to be called. *)
Lemma step_gone input p :
  session_gone p -> session_input_ok p input -> exists p', session_step input p = Some p' /\ session_gone p'.
Proof.
  intros (Hse&Hsb&Hok&Hlog&Htm) Hin.
  destruct input as [i ev| |fd fr so m| |ptr data|ptr cap|ptr|ptr| |]; cbn [session_input_ok] in Hin;
    try (by destruct Hin); try (by destruct (Hin Hse)).
  - rewrite Hsb in Hin. by destruct Hin.
  - cbn [session_step]. destruct (r_fire (p_reactor p)) as [[id r]|] eqn:Hf; [|exists p; by split_and!].
    destruct (fire_law _ _ _ Hok Hf) as (Hok'&_&Ha&Hid). destruct (u_timers (p_user p) !! id) as [cb|] eqn:E; [by destruct (Htm _ _ E)|].
    cbn [pool_step]. rewrite Hf, Hsb. cbn. eexists. split; [reflexivity|]. split; [exact Hse|]. split; [exact Hsb|]. split; [exact Hok'|].
    split; [exact Hlog|]. intros i cb Hi Hai%Hid. destruct (Htm i cb Hi). apply Hai.
Qed.

Lemma session_step_spec input p :
  session_gone p \/ in_order p -> session_input_ok p input ->
  exists p', session_step input p = Some p' /\ (session_gone p' \/ in_order p').
Proof.
  intros [Hg|Hi] Hok; [|by apply step_in_order]. destruct (step_gone input p Hg Hok) as (p'&->&Hg'). exists p'. split; [done|by left].
Qed.

Lemma session_reachable_inv p0 p : session_started p0 -> session_reachable p0 p -> session_gone p \/ in_order p.
Proof.
  intros H0. induction 1 as [|p input p' _ IH Hok Hstep]; [right; by apply started_in_order|].
  destruct (session_step_spec input p IH Hok) as (p2&Hp2&Hp2'). rewrite Hstep in Hp2. by injection Hp2 as ->.
Qed.

Lemma reachable_alive p0 p : session_started p0 -> session_reachable p0 p -> alive p -> in_order p.
Proof. intros H0 Hr Ha. destruct (session_reachable_inv p0 p H0 Hr) as [[Hz _]|]; [by destruct Ha|done]. Qed.

End reach.

(** * From one session to another

    What one session writes on a stream, a peer with the same key hands to the
    stream of the same identifier, whatever order the connections deliver the
    messages in, and reads back as the bytes written. *)

(** ** The receiver's contract, one frame at a time *)

Lemma ro_drain_rc fuel r rc r' : ro_drain fuel r = (rc, r') -> rc = 0 \/ rc = 1 /\ ro_seen r' = true.
Proof.
  revert r. induction fuel as [|fuel IH]; intros r; cbn [ro_drain]; [intros [= <- _]; by left|].
  destruct (ro_pending r !! ro_next r) as [[c p]|]; [|intros [= <- _]; by left].
  destruct (negb _); [intros [= <- <-]; by right|]. destruct (_ <? _); [intros [= <- _]; by left|]. apply IH.
Qed.

Lemma ro_feed_rc r f rc r' : ro_feed r f = (rc, r') -> rc = -1 \/ rc = 0 \/ rc = 1 /\ ro_seen r' = true.
Proof.
  unfold ro_feed. destruct (ro_seen r); [intros [= <- _]; by left|]. destruct (_ || _); [intros [= <- _]; by left|].
  destruct (_ <? _); [intros [= <- _]; by left|]. destruct (_ <=? _); [intros [= <- _]; by left|].
  intros H%ro_drain_rc. by right.
Qed.

(** The next data frame of the sender is accepted, and is not the last. *)
Lemma feed_next ps cap got r f :
  zlen ps < 18446744073709551615 -> state_ok ps None cap got [] r -> (forall k, k ∈ got -> k < zlen ps) ->
  is_sent ps None f -> zlen (fr_payload f) <= cap -> (fr_seq f ∉ got) ->
  exists r', (rx_spec (RxFeed f) (RxOrdered r)).2 = RxOrdered r' /\ rs_rc (rx_spec (RxFeed f) (RxOrdered r)).1 = 0 /\
    state_ok ps None cap ({[fr_seq f]} ∪ got) [] r'.
Proof.
  intros Hnum (Hd&Hdr&Hm) Hgot Hs Hl Hnew.
  destruct (ro_feed_delivering ps None cap I Hnum got [] r f Hd Hdr Hs Hl) as (rc&r'&E&Hdr'&Hm'&Hor&Hacc).
  specialize (Hacc Hnew Hm). destruct Hor as [[? _]|[_ Hd']]; [done|]. unfold rx_spec. rewrite E. exists r'. split; [done|]. cbn [fst rs_rc].
  split; [|split; [exact Hd'|split; [exact Hdr'|by rewrite Hm']]].
  destruct (ro_feed_rc _ _ _ _ E) as [?|[?|[_ Hseen]]]; [done|done|exfalso].
  assert (Hz : zlen ps ∈ {[fr_seq f]} ∪ got) by (apply (dv_fed _ _ _ _ _ _ Hd'); by right; right).
  apply elem_of_union in Hz as [Hz%elem_of_singleton|Hz%Hgot]; [|lia].
  unfold is_sent, sent_frames in Hs. destruct (mem_get_inv _ _ _ Hs) as [Hr _]. cbn in Hr. rewrite app_nil_r in Hr.
  rewrite <- Hz in Hr. unfold zlen in Hr. rewrite length_map in Hr. lia.
Qed.

(** Reading often enough, once everything was delivered. *)
Lemma reads_everything ps cap got r m n :
  zlen ps < 18446744073709551615 -> state_ok ps None cap got [] r -> 0 < n -> (forall k, 0 <= k < zlen ps -> k ∈ got) ->
  zlen (concat ps) <= Z.of_nat m -> outputs (spec_run rx_spec (replicate m (RxRead n)) (RxOrdered r)).1 = concat ps.
Proof.
  intros Hnum Hst Hn Hall Hm. destruct (spec_reads_complete ps None cap I Hnum m n got [] r Hst Hn Hall) as (seen&r'&->&Hst'&Hor).
  cbn [fst app] in *. destruct Hor as [?|Hlen]; [done|]. destruct (delivering_prefix ps None cap _ _ _ (proj1 Hst')) as [t Ht].
  assert (t = []) as ->; [|by rewrite app_nil_r in Ht]. apply zlen_zero.
  assert (zlen (concat ps) = zlen (outputs seen ++ t)) as E by (by rewrite <- Ht). rewrite zlen_app in E.
  change (zlen (@nil Z)) with 0 in Hlen. pose proof (zlen_nonneg t). lia.
Qed.

(** ** The receiving session *)

Section receiving.
Context {R A : Type} {RR : Reactor R} {RL : ReactorLaws R} {EV : Evp} {EL : EvpLaws}.
#[local] Abbreviation world := (pool_world R (session_user A)).
Implicit Types q : world.
Variable on_new_stream : Z -> world -> option world.
Variable on_stream_data : Z -> world -> option world.
#[local] Abbreviation on_envelope := (session_on_envelope on_new_stream on_stream_data).

(** A callback that only takes note: the application reads later. *)
Definition set_app q (a : A) : world :=
  let u := p_user q in set_user q (SessionUser (u_sesh u) (u_heap u) (u_next u) (u_mem u) (u_timers u) (u_log u) a).
Definition takes_note (asked : bool) (f : Z -> world -> option world) : Prop :=
  asked = true -> forall ptr q, exists a, f ptr q = Some (set_app q a).

(** An open session, with memory, whose application polls its streams. *)
Record receives_for o q : Prop := {
  rf_ready : env_ready q;
  rf_inv : session_inv q;
  rf_open : ss_closed (sesh q) = 0;
  rf_key : ss_obfuscator (sesh q) = o;
  rf_ordered : ss_ordering (sesh q) = CLOAK_SESSION_ORDERING_ORDERED;
  rf_quiet : takes_note (ss_on_new_stream (sesh q)) on_new_stream /\ takes_note (ss_on_stream_data (sesh q)) on_stream_data;
  rf_memory : u_mem (p_user q) = []
}.

Lemma called_nothing q : exists a, call_app on_new_stream on_stream_data NoCall q = Some (set_app q a).
Proof. exists (u_app (p_user q)). by destruct q as [? ? ? ? ? ? []]. Qed.

(** Where the stream [id] of the peer stands when [got] was delivered. *)
Definition stream_of_peer (id cap : Z) (ps : list bytes) (got : gset Z) q : Prop :=
  if bool_decide (got = ∅) then cloak_strmtab_lookup (ss_streams (sesh q)) id = Some None
  else exists ptr st r, cloak_strmtab_lookup (ss_streams (sesh q)) id = Some (Some (CLOAK_STRMTAB_ACTIVE, ptr)) /\
    entry_at q ptr = Some (StreamEntry st 0) /\ rx_rep st (RxOrdered r) /\ state_ok ps None cap got [] r.

Lemma receive_one o id ps got q msg f :
  let cap := ss_stream_recv_capacity (sesh q) in
  receives_for o q -> stream_of_peer id cap ps got q -> zlen ps < 18446744073709551615 ->
  zlen ps <= ss_stream_max_pending_frames (sesh q) -> (forall k, k ∈ got -> k < zlen ps) ->
  decodes_to o msg f -> all_bytes msg -> zlen msg <= CLOAK_CONN_MAX_FRAME_LEN ->
  fr_stream_id f = id -> is_sent ps None f -> zlen (fr_payload f) <= cap -> (fr_seq f ∉ got) ->
  exists q', on_envelope msg q = Some q' /\ receives_for o q' /\ session_config (sesh q') = session_config (sesh q) /\
    stream_of_peer id cap ps ({[fr_seq f]} ∪ got) q'.
Proof.
  intros cap [Hr Hi Hopen Hkey Hord Hquiet Hmem] Hpeer Hnum Hpend Hgot [rest Hdec] Hb Hl Hid Hsent Hpl Hnew.
  destruct Hquiet as [Hq1 Hq2].
  destruct (envelope_spec on_new_stream on_stream_data q msg Hr Hi Hb Hl) as (q'&call&Hon&M&Hi'&Hal&Hrouted&_&Hmem').
  unfold routed in Hrouted. rewrite Hopen, Hkey, Hdec in Hrouted. cbn [negb Z.eqb] in Hrouted.
  assert (Hnothing : fr_closing f = CLOAK_FRAME_CLOSING_NOTHING).
  { unfold is_sent, sent_frames in Hsent. cbn in Hsent. rewrite app_nil_r in Hsent. destruct (mem_get_inv _ _ _ Hsent) as [_ Hx].
    apply list_lookup_fmap_Some in Hx as (x&Hx&_). by injection Hx. }
  rewrite Hnothing in Hrouted. cbn [Z.eqb CLOAK_FRAME_CLOSING_NOTHING CLOAK_FRAME_CLOSING_SESSION] in Hrouted.
  destruct Hrouted as [Hdel Hopen']. unfold delivered in Hdel. rewrite Hid in Hdel.
  pose proof (config_same _ _ Hal) as Hcfg. pose proof Hcfg as Hcfg'. unfold session_config in Hcfg'.
  injection Hcfg' as _ C2 C3 _ _ _ _ C8 _ _ C11.
  assert (Hrf : receives_for o q').
  { split; [by eapply moves_ready|exact Hi'|exact Hopen'|congruence|congruence|by rewrite C8, C11|by apply Hmem']. }
  (* the one stream it goes to *)
  assert (Hone : exists ptr st0 r rc st, entry_at q' ptr = Some (StreamEntry st (b2z (is_over rc))) /\ st_id st0 = id /\
      rx_rep st0 (RxOrdered r) /\ state_ok ps None cap got [] r /\ fed st0 f true rc st /\
      exists a, call_app on_new_stream on_stream_data call q' = Some (set_app q' a)).
  { unfold stream_of_peer in Hpeer. case_bool_decide as Hempty.
    - rewrite Hpeer in Hdel. destruct Hdel as [(_&Hno&_)|(ptr&st0&rc&st&mem_ok&_&Hfresh&Hfd&Hok&Hh&Hcall)]; [done|].
      specialize (Hok Hmem) as ->. destruct Hfresh as (Hrep&Hi0&_). rewrite Hord in Hrep.
      unfold rx_fresh in Hrep. replace (CLOAK_SESSION_ORDERING_ORDERED =? CLOAK_SESSION_ORDERING_UNORDERED) with false in Hrep by done.
      eexists ptr, st0, _, rc, st. split; [unfold entry_at; rewrite Hh; apply lookup_insert_eq|]. split; [done|]. split; [exact Hrep|].
      assert (Ha : exists a, call_app on_new_stream on_stream_data call q' = Some (set_app q' a)).
      { destruct (ss_on_new_stream (sesh q)) eqn:Easked; destruct Hcall as [-> _]; [by apply Hq1|by apply called_nothing]. }
      split; [|by split]. subst got. apply state_ok_fresh.
      + cbn. unfold sent_frames. cbn. rewrite app_nil_r. unfold zlen in *. by rewrite length_map.
      + destruct Hi as [((_&_&[Hw _]&[Hc _]&_)&_) _]. change (u_sesh (p_user q)) with (sesh q) in *. unfold CLOAK_FRAME_HEADER_LEN, CLOAK_FRAME_MAX_EXTRA_LEN in *. unfold cap. lia.
    - destruct Hpeer as (ptr&st0&r&Hlook&He&Hrep&Hst). rewrite Hlook in Hdel. cbn [Z.eqb CLOAK_STRMTAB_ACTIVE CLOAK_STRMTAB_TOMBSTONE] in Hdel.
      destruct Hdel as (e&rc&st&mem_ok&He'&Hi0&_&Hfd&Hok&Hh&Hcall). specialize (Hok Hmem) as ->. rewrite He in He'. injection He' as <-.
      assert (Ha : exists a, call_app on_new_stream on_stream_data call q' = Some (set_app q' a)).
      { destruct (ss_on_stream_data (sesh q)) eqn:Easked; destruct Hcall as [-> _]; [by apply Hq2|by apply called_nothing]. }
      exists ptr, st0, r, rc, st. split; [unfold entry_at; rewrite Hh; apply lookup_insert_eq|]. by split_and!. }
  destruct Hone as (ptr&st0&r&rc&st&He&Hi0&Hrep&Hst&[Hsend Hfd]&a&Hcall). rewrite Hon, Hcall.
  destruct (feed_next ps cap got r f Hnum Hst Hgot Hsent Hpl Hnew) as (r'&Hspec&Hrc&Hst').
  destruct (Hfd _ Hrep) as (x'&Hrep'&[[? _]|[-> ->]]); [done|]. rewrite Hrc in He. rewrite Hspec in Hrep'. cbn in He.
  exists (set_app q' a). split; [done|]. split; [destruct Hrf; by split|]. split; [exact Hcfg|].
  unfold stream_of_peer. rewrite bool_decide_eq_false_2 by set_solver. exists ptr, st, r'.
  split; [|by split_and!]. change (sesh (set_app q' a)) with (sesh q'). pose proof Hi' as [(_&[(m&Hm) _]&_) _]. rewrite (lookup_state _ _ _ _ Hm). f_equal.
  apply (proj2 (proj2 (proj2 Hm))). exists (StreamEntry st 0). split; [exact He|]. split; [|done].
  cbn. unfold send_side in Hsend. injection Hsend as ->. exact Hi0.
Qed.

Fixpoint receive_messages (msgs : list bytes) q : option world :=
  match msgs with
  | [] => Some q
  | msg :: msgs => q ← on_envelope msg q; receive_messages msgs q
  end.

Lemma is_sent_seq ps f : is_sent ps None f -> 0 <= fr_seq f < zlen ps.
Proof.
  unfold is_sent, sent_frames. cbn. rewrite app_nil_r. intros H. destruct (mem_get_inv _ _ _ H) as [Hr _].
  unfold zlen in *. by rewrite length_map in Hr.
Qed.

Lemma receive_all o id ps msgs fs :
  Forall2 (decodes_to o) msgs fs -> forall got q,
  let cap := ss_stream_recv_capacity (sesh q) in
  receives_for o q -> stream_of_peer id cap ps got q -> zlen ps < 18446744073709551615 ->
  zlen ps <= ss_stream_max_pending_frames (sesh q) -> (forall k, k ∈ got -> k < zlen ps) ->
  Forall (fun msg => all_bytes msg /\ zlen msg <= CLOAK_CONN_MAX_FRAME_LEN) msgs ->
  Forall (fun f => fr_stream_id f = id /\ is_sent ps None f /\ zlen (fr_payload f) <= cap) fs ->
  NoDup (map fr_seq fs) -> (forall f, f ∈ fs -> fr_seq f ∉ got) ->
  exists q', receive_messages msgs q = Some q' /\ receives_for o q' /\ session_config (sesh q') = session_config (sesh q) /\
    stream_of_peer id cap ps (list_to_set (map fr_seq fs) ∪ got) q'.
Proof.
  induction 1 as [|msg f msgs fs Hdec _ IH]; intros got q cap Hrf Hpeer Hnum Hpend Hgot Hb Hf Hnd Hnew; cbn [receive_messages].
  - exists q. split; [done|]. split; [done|]. split; [done|]. cbn. by rewrite union_empty_l_L.
  - apply Forall_cons in Hb as [[Hb Hl] Hbs]. apply Forall_cons in Hf as [(Hid&Hs&Hp) Hfs]. cbn [map] in Hnd. apply NoDup_cons in Hnd as [Hn Hnd].
    destruct (receive_one o id ps got q msg f Hrf Hpeer Hnum Hpend Hgot Hdec Hb Hl Hid Hs Hp) as (q1&->&Hrf1&Hc1&Hpeer1); [apply Hnew; by left|].
    cbn [mbind option_bind]. pose proof Hc1 as Hc1'. unfold session_config in Hc1'. injection Hc1' as _ _ _ _ E5 E6 _ _ _ _ _.
    fold cap in Hpeer1. destruct (IH ({[fr_seq f]} ∪ got) q1 Hrf1) as (q'&->&Hrf'&Hc'&Hpeer').
    + by rewrite E5.
    + done.
    + by rewrite E6.
    + pose proof (is_sent_seq _ _ Hs). intros k [->%elem_of_singleton|Hk]%elem_of_union; [lia|by apply Hgot].
    + done.
    + by rewrite E5.
    + done.
    + intros g Hg. rewrite elem_of_union, elem_of_singleton. intros [E|E].
      * apply Hn. rewrite <- E. by apply list_elem_of_fmap_2.
      * by apply (Hnew g); [right|].
    + exists q'. split; [done|]. split; [done|]. split; [congruence|]. rewrite E5 in Hpeer'. cbn [map list_to_set].
      replace ({[fr_seq f]} ∪ list_to_set (map fr_seq fs) ∪ got)
        with (list_to_set (map fr_seq fs) ∪ ({[fr_seq f]} ∪ got)) by (by rewrite union_assoc_L, (union_comm_L (list_to_set _))).
      exact Hpeer'.
Qed.

(** The application reads [m] times. *)
Fixpoint read_stream (m : nat) (ptr n : Z) q : option (bytes * world) :=
  match m with
  | O => Some ([], q)
  | S m =>
      '(_, out, q) ← session_stream_read ptr n q;
      '(rest, q) ← read_stream m ptr n q;
      Some (out ++ rest, q)
  end.

Lemma read_stream_spec m ptr n : forall q e x,
  streams_ok q -> entry_at q ptr = Some e -> rx_rep (en_stream e) x -> 0 <= n ->
  exists q', read_stream m ptr n q = Some (outputs (spec_run rx_spec (replicate m (RxRead n)) x).1, q').
Proof.
  induction m as [|m IH]; intros q e x Hs He Hx Hn; cbn [read_stream replicate spec_run]; [by exists q|].
  destruct (stream_read_spec q ptr e n Hs He Hn) as (rc&out&st&q1&->&_&Hs1&_&Hh&_&Hrep). cbn [mbind option_bind].
  destruct (Hrep x Hx) as (Hx1&_&Hout). destruct (rx_spec (RxRead n) x) as [seen x1]. cbn in Hx1, Hout.
  destruct (IH q1 (StreamEntry st (en_retired e)) x1 Hs1) as (q'&->); [unfold entry_at; rewrite Hh; apply lookup_insert_eq|done|done|].
  cbn [mbind option_bind]. exists q'. destruct (spec_run _ _ _) as [seens x2]. cbn. by rewrite Hout.
Qed.

End receiving.

(** ** What was sent *)

Lemma frames_are id mx fs : forall s ps,
  Forall (data_frame id mx) fs -> fr_payload <$> fs = ps -> fr_seq <$> fs = seqZ s (zlen fs) -> fs = data_frames id s ps.
Proof.
  induction fs as [|f fs IH]; intros s ps Hf <- Hs; [done|]. apply Forall_cons in Hf as [(Hid&Hc&Hl&_) Hf].
  rewrite zlen_cons, seqZ_cons in Hs by (pose proof (zlen_nonneg fs); lia). cbn [fmap list_fmap] in Hs. injection Hs as Hs Hss.
  cbn [fmap list_fmap data_frames]. f_equal.
  - destruct f. cbn in *. by subst.
  - apply IH; [done|done|]. replace (s + 1) with (Z.succ s) by lia. rewrite Hss. f_equal; lia.
Qed.
