(* ===== verification/SessionSpec.v ===== *)
(** * What a session promises ([session.h])

    The promises of the header as theorems over every session that can arise,
    whatever the kernels, the allocator, the peer and the application's
    callbacks do, and over two of them that have the same key. *)
From stdpp Require Import gmap.
From S2P Require Import Prelude Refinement Fallible Random Frame Aead ByteQueue MsgQueue Heap Stream StreamSpec StreamDelivery StrmTab Valve ReactorApi Conn ConnInv Switchboard SwitchboardRng SwitchboardInv SwitchboardRun Session SessionInv SessionStreams SessionSteps SessionRun SessionSend SessionLife SessionReach.

Section spec.
Context {R A : Type} {RR : Reactor R} {RL : ReactorLaws R} {EV : Evp} {EL : EvpLaws}.
#[local] Abbreviation world := (pool_world R (session_user A)).
Implicit Types p : world.
Variable unlucky : nat.
Variable app_budget : A -> Z.
Variable on_new_stream : Z -> world -> option world.
Variable on_stream_data : Z -> world -> option world.
Variable on_writable : world -> option world.
Variable on_broken : world -> option world.
#[local] Abbreviation closed_by_us := (closed_by_us unlucky on_writable).
Hypothesis Happ : app_ok unlucky app_budget on_new_stream on_stream_data on_writable on_broken.

#[local] Abbreviation pool_fuel := (pick_fuel unlucky).
#[local] Abbreviation session_step := (session_step unlucky on_new_stream on_stream_data on_writable on_broken).
#[local] Abbreviation reachable := (session_reachable unlucky app_budget on_new_stream on_stream_data on_writable on_broken).
#[local] Abbreviation started := (session_started unlucky app_budget).
#[local] Abbreviation in_order := (in_order unlucky app_budget).
#[local] Abbreviation input_ok := (session_input_ok app_budget).
#[local] Abbreviation announced := (announced unlucky on_writable).

(** The data of a session that was not destroyed. *)
Definition session_sound p : Prop :=
  let s := sesh p in
  session_shape s /\
  (forall id, 0 <= id < 4294967296 -> exists found, cloak_strmtab_lookup (ss_streams s) id = Some found /\
     forall ptr, found = Some (CLOAK_STRMTAB_ACTIVE, ptr) <->
       exists e, entry_at p ptr = Some e /\ st_id (en_stream e) = id /\ en_retired e = 0) /\
  (forall ptr e, entry_at p ptr = Some e -> stream_ok s (en_stream e)) /\
  (ss_active_stream_count s = 0 <-> forall ptr e, entry_at p ptr = Some e -> en_retired e <> 0) /\
  (sb_broken (p_sb p) <> 0 -> ss_closed s <> 0) /\
  (ss_closed s = 0 -> forall i sl, sb_conns (p_sb p) !! i = Some sl -> broken (sl_conn sl) = 0) /\
  (forall i sl, sb_conns (p_sb p) !! i = Some sl -> slot_sound p sl) /\
  (forall id cb, u_timers (p_user p) !! id = Some cb -> armed (p_reactor p) id ->
     if is_check cb then id = ss_inactivity_timer_id s /\ ss_closed s = 0
     else id = ss_teardown_timer_id s /\ ss_closed s <> 0).

Lemma order_sound p : in_order p -> session_sound p.
Proof.
  intros [Hi Hq]. destruct (inv_ready _ _ _ _ Hi) as (Hr&Hs&_). pose proof Hs as [(H1&H2&H3&(T1&T2&T3&T4&_)) _].
  pose proof H2 as [(m&Hm) Hall]. pose proof Hm as (_&Hcount&Hst&Hact). pose proof (inv_informed _ _ _ _ Hi) as Hinf.
  pose proof (proj2 Hi) as Hslots. split; [exact H1|]. split; [|split; [|split; [|split; [exact Hinf|split; [|split; [|exact T4]]]]]].
  - intros id _. exists (m !! id). split; [by apply (lookup_state _ _ _ _ Hm)|]. intros ptr. exact (Hact id ptr).
  - intros ptr e He. by apply (Hall ptr e).
  - change (u_sesh (p_user p)) with (sesh p) in *. rewrite Hcount. split.
    + intros Hz ptr e He Hne. assert (Hm' : active m !! st_id (en_stream e) = Some (CLOAK_STRMTAB_ACTIVE, ptr)).
      { apply active_lookup, Hact. by exists e. }
      assert (active m = ∅) as E by (apply map_size_empty_iff; lia). by rewrite E in Hm'.
    + intros Hnone. assert (active m = ∅) as ->; [|done]. apply map_empty. intros k.
      destruct (active m !! k) as [[st v]|] eqn:E; [exfalso|done].
      assert (st = CLOAK_STRMTAB_ACTIVE) as -> by (by apply map_lookup_filter_Some in E as [_ E]).
      apply (proj1 (active_lookup _ _ _)) in E. apply Hact in E as (e&He&_&Hz). by destruct (Hnone v e He).
  - intros Hz i sl Hsl. destruct (Z.eq_dec (broken (sl_conn sl)) 0) as [|Hn]; [done|].
    destruct (Hinf (proj2 (Hslots i sl Hsl) Hn)). exact Hz.
  - intros i sl Hsl. by apply slot_inv_sound; [apply (Hslots i)|apply (Hq i)].
Qed.


(** C3: functional.  A frame from any connection of any session that can arise,
    whatever its bytes, is routed exactly: a closed session ignores it, what
    does not decrypt is dropped, the closing frame of the session closes it
    and schedules the teardown, a frame of a retired stream is dropped, one of
    an active stream is fed to that stream and to no other, one of an unknown
    stream to a fresh stream in the configuration of the session; the
    application is called for that stream, and the end of a stream, or a
    violation of its limits, retires it. *)
Theorem session_routes_exactly p0 p frame_bytes :
  started p0 -> reachable p0 p -> alive p -> all_bytes frame_bytes -> zlen frame_bytes <= CLOAK_CONN_MAX_FRAME_LEN ->
  exists p1 call, session_on_envelope on_new_stream on_stream_data frame_bytes p =
      call_app on_new_stream on_stream_data call p1 /\
    routed p frame_bytes p1 call /\ call_ready call p1 /\ in_order p1.
Proof.
  intros H0 Hr Ha Hb Hl. destruct (reachable_alive _ _ _ _ _ _ Happ p0 p H0 Hr Ha) as [Hi Hq].
  destruct (inv_ready _ _ _ _ Hi) as (Hre&Hs&_).
  destruct (envelope_spec on_new_stream on_stream_data p frame_bytes Hre Hs Hb Hl) as (p1&call&He&M&Hs1&Hal&Hro&Hrd&_).
  exists p1, call. split; [exact He|]. split; [exact Hro|]. split; [exact Hrd|]. split.
  - eapply inv_moves; [exact Hi|exact M|exact Hs1|exact Hal].
  - unfold pool_quiet. rewrite (moves_sb _ _ M). exact Hq.
Qed.

(** C14: functional.  A write on a stream of any session that can arise returns.
    It is refused, with nothing changed, when the stream is closed for writing
    or an unordered message is too long; otherwise the chunks of the input go
    out through the pool in order, sealed as data frames of the stream, all of
    them when the result is the length of the input, and a failure closes the
    stream for writing.  The sequence numbers are consecutive, unless the
    application was called during the write, as [on_writable] may be when a
    queue drains, and may have sent something itself. *)
Theorem session_write_exact p0 p ptr e input :
  started p0 -> reachable p0 p -> input_ok p (SessWrite ptr input) -> entry_at p ptr = Some e ->
  exists rc p', session_stream_write on_writable pool_fuel unlucky ptr input p = Some (rc, p') /\ in_order p' /\
    let mx := st_max_payload_per_frame (en_stream e) in
    if st_write_closed (en_stream e) then rc = -1 /\ p' = p
    else if (st_ordering (en_stream e) =? CLOAK_SESSION_ORDERING_UNORDERED) && (mx <? zlen input)
    then rc = CLOAK_STREAM_ERR_SHORT_BUFFER /\ p' = p
    else concat (cut (length input) mx input) = input /\
      written unlucky on_writable p ptr e input (cut (length input) mx input) rc p'.
Proof.
  intros H0 Hr (Ha&_&Hb&Hl&Hroom) He. pose proof (reachable_alive _ _ _ _ _ _ Happ p0 p H0 Hr Ha) as Hin. pose proof Hin as [Hi Hq].
  destruct (stream_write_spec _ _ _ _ _ _ Happ 0 p ptr e input ltac:(lia)) as (rc&p'&Hw&Hi'&Hk&Hres); [|done|done|done|].
  { apply roomy_reserve; [done|apply zlen_nonneg|done]. }
  exists rc, p'. split; [exact Hw|]. split; [split; [exact Hi'|by eapply (keeps_quiet (CO := session_sender))]|].
  cbv zeta in *. destruct (st_write_closed _); [exact Hres|]. destruct (_ && _); [exact Hres|]. split; [|exact Hres].
  apply cut_concat; [|done]. destruct (order_sound p Hin) as (Hshape&_&Hst&_).
  destruct (stream_sends _ _ Hshape (Hst ptr e He)) as [Hcan _]. exact (cs_mx _ Hcan).
Qed.



(** An open session without active streams, whose inactivity
    timer could be armed, has that timer armed, and closes itself with the
    closing frame when it fires; a session that has active streams by then
    does nothing. *)
Theorem session_idle_timeout p0 p :
  started p0 -> reachable p0 p -> alive p -> ss_closed (sesh p) = 0 ->
  let id := ss_inactivity_timer_id (sesh p) in
  id <> CLOAK_TIMER_INVALID ->
  (ss_active_stream_count (sesh p) = 0 -> armed (p_reactor p) id /\ u_timers (p_user p) !! id = Some CheckTimeout) /\
  forall r, r_fire (p_reactor p) = Some (id, r) -> u_timers (p_user p) !! id = Some CheckTimeout -> input_ok p SessTimer ->
    exists p', session_step SessTimer p = Some p' /\ in_order p' /\
      if ss_active_stream_count (sesh p) =? 0 then closed_by_us (set_pool_reactor p r) p' else p' = set_pool_reactor p r.
Proof.
  intros H0 Hr Ha Hc id Hne. pose proof (reachable_alive _ _ _ _ _ _ Happ p0 p H0 Hr Ha) as Hin. pose proof Hin as [Hi Hq].
  destruct (inv_ready _ _ _ _ Hi) as (_&[_ [_ L2]]&_). split; [intros Hz; by apply L2|]. intros r Hf Hcb Hroom.
  pose proof (roomy_reserve _ _ 1 p Hin ltac:(lia) Hroom) as Hi1. rewrite Z.mul_1_l in Hi1.
  cbn [SessionReach.session_step]. rewrite Hf, Hcb. cbn [session_timer_cb].
  destruct (check_timeout_spec _ _ _ _ _ _ Happ 0 p id r ltac:(lia) Hi1 Hq Hf Hcb) as (p'&->&Hi'&Hq'&_&Hcase).
  exists p'. by split_and!.
Qed.

(** C16: safety.  The end of a stream is announced to the peer at most once:
    closing a stream sends its closing frame, unless the stream was closed
    for writing, and retires it, so that a second close is -1 and a release
    only frees it; a release of an active stream announces its end first; and
    after a release nothing of the stream is on the heap. *)
Theorem session_stream_end p0 p ptr e :
  started p0 -> reachable p0 p -> input_ok p (SessCloseStream ptr) -> entry_at p ptr = Some e ->
  (exists rc p', cloak_session_close_stream on_writable pool_fuel unlucky ptr p = Some (rc, p') /\ in_order p' /\
    if (ss_closed (sesh p) =? 0) && (en_retired e =? 0) then
      rc = 0 /\ (exists p1, announced p ptr e p1 /\ session_retire_stream p1 ptr = Some p') /\
      cloak_session_close_stream on_writable pool_fuel unlucky ptr p' = Some (-1, p')
    else rc = -1 /\ p' = p) /\
  exists p', cloak_session_release_stream on_writable pool_fuel unlucky ptr p = Some p' /\ in_order p' /\ entry_at p' ptr = None /\
    if en_retired e =? 0 then exists p1 p2, announced p ptr e p1 /\ session_retire_stream p1 ptr = Some p2 /\
      u_heap (p_user p') = delete ptr (u_heap (p_user p2))
    else u_heap (p_user p') = delete ptr (u_heap (p_user p)) /\ sesh p' = sesh p.
Proof.
  intros H0 Hr (Ha&_&Hroom) He. pose proof (reachable_alive _ _ _ _ _ _ Happ p0 p H0 Hr Ha) as Hin. pose proof Hin as [Hi Hq].
  pose proof (roomy_reserve _ _ 1 p Hin ltac:(lia) Hroom) as Hi1. rewrite Z.mul_1_l in Hi1. split.
  - destruct (close_stream_spec _ _ _ _ _ _ Happ 0 p ptr e ltac:(lia) Hi1 He) as (rc&p'&Hc&Hi'&Hk&Hcase).
    exists rc, p'. split; [exact Hc|]. split; [split; [exact Hi'|by eapply (keeps_quiet (CO := session_sender))]|].
    destruct (_ && _) eqn:E; [|exact Hcase]. destruct Hcase as (->&p1&Hann&Hret). split; [done|]. split; [by exists p1|].
    destruct (end_stream_spec _ _ _ _ _ _ Happ 0 p ptr e ltac:(lia) Hi1 He) as (rc&q1&q'&e'&Hs1&Hr1&_&_&_&He'&Hne&_).
    unfold cloak_session_close_stream in Hc |- *. apply andb_true_iff in E as [E1 E2]. rewrite E1 in Hc. cbn [negb] in Hc.
    rewrite He in Hc. cbn [mbind option_bind] in Hc. rewrite E2 in Hc. cbn [negb] in Hc. rewrite Hs1 in Hc. cbn [mbind option_bind] in Hc.
    rewrite Hr1 in Hc. cbn [mbind option_bind] in Hc. injection Hc as ->. destruct (negb (ss_closed (sesh p') =? 0)); [done|].
    rewrite He'. cbn [mbind option_bind]. by rewrite (proj2 (Z.eqb_neq _ _) Hne).
  - destruct (release_spec _ _ _ _ _ _ Happ 0 p ptr e ltac:(lia) Hi1 He) as (p'&Hc&Hi'&Hk&Hgone&Hcase).
    exists p'. split; [exact Hc|]. split; [split; [exact Hi'|by eapply (keeps_quiet (CO := session_companion))]|]. by split.
Qed.

(** C17: safety.  [cloak_session_destroy] leaves nothing behind: the object is
    zeroed, no timer of the session can fire, every connection is closed once
    and its watch removed, nobody else's is touched, and of the streams only
    those remain that were retired and not released. *)
Theorem session_destroy_complete p0 p :
  started p0 -> reachable p0 p -> alive p ->
  exists p', cloak_session_destroy p = Some p' /\ session_gone p' /\
    (forall q e, u_heap (p_user p') !! q = Some e <-> u_heap (p_user p) !! q = Some e /\ en_retired e <> 0) /\
    p_log p' = p_log p ++ map FdClosed (fds (sb_conns (p_sb p))) /\ NoDup (fds (sb_conns (p_sb p))) /\
    (forall f, watching (p_reactor p') f <-> watching (p_reactor p) f /\ (f ∉ fds (sb_conns (p_sb p)))).
Proof.
  intros H0 Hr Ha. destruct (reachable_alive _ _ _ _ _ _ Happ p0 p H0 Hr Ha) as [Hi _].
  destruct (session_destroy_spec unlucky app_budget 0 p Hi) as (p'&Hd&Hg&Hh&Hl&Hw&_). exists p'. split_and!; try done. apply Hi.
Qed.

(** C18: error.  [cloak_session_init] refuses an unknown ordering first, then
    sizes that do not fit together, then the lack of memory; a refusal leaves
    the event loop as it was and nothing allocated; otherwise the session is
    open, without streams or connections, numbers its streams from 1 and
    watches for inactivity. *)
Theorem session_init_exact p id c v :
  no_session unlucky p -> config_good c -> valve_load (p_valves p) (sc_valve c) = Some v ->
  pool_room (session_budget app_budget) 0 (p_user p) v [] ->
  exists rc p', cloak_session_init id c p = Some (rc, p') /\
    rc = (if negb (ordering_ok (sc_ordering c)) then CLOAK_SESSION_ERR_INVALID_ORDERING
          else if sizes_ok c && hd true (u_mem (p_user p)) then 0 else -1) /\
    if rc =? 0 then in_order p' /\ begun p id c p'
    else p_reactor p' = p_reactor p /\ u_heap (p_user p') = ∅ /\ sb_conns (p_sb p') = [] /\ p_log p' = [].
Proof.
  intros H0 Hc Hv Hroom. destruct (init_spec unlucky app_budget p id c v H0 Hc Hv Hroom) as (rc&p'&Hi&Hrc&Hcase).
  exists rc, p'. split; [exact Hi|]. split; [exact Hrc|]. destruct (rc =? 0); [|exact Hcase].
  destruct Hcase as (?&?&?). by split.
Qed.

End spec.

(** ** Two sessions *)

Section pair.
Context {R A : Type} {RR : Reactor R} {RL : ReactorLaws R} {R' A' : Type} {RR' : Reactor R'} {RL' : ReactorLaws R'}.
Context {EV : Evp} {EL : EvpLaws}.
#[local] Abbreviation world := (pool_world R (session_user A)).
#[local] Abbreviation world' := (pool_world R' (session_user A')).
Implicit Types (p : world) (q : world').
Variables (unlucky unlucky' : nat) (app_budget : A -> Z) (app_budget' : A' -> Z).
Variables (on_new_stream on_stream_data : Z -> world -> option world) (on_writable on_broken : world -> option world).
Variables (on_new_stream' on_stream_data' : Z -> world' -> option world') (on_writable' on_broken' : world' -> option world').
Hypothesis Happ : app_ok unlucky app_budget on_new_stream on_stream_data on_writable on_broken.
Hypothesis Happ' : app_ok unlucky' app_budget' on_new_stream' on_stream_data' on_writable' on_broken'.

(** The receiver can take a stream of the sender: it has the key, is open,
    keeps bytes in order, has memory, and its application reads later: the
    callbacks it has set, if any, only take note. *)
Definition matches p q : Prop :=
  ss_obfuscator (sesh q) = ss_obfuscator (sesh p) /\ ss_max_on_wire_size (sesh p) <= ss_max_on_wire_size (sesh q) /\
  ss_ordering (sesh q) = CLOAK_SESSION_ORDERING_ORDERED /\
  ss_closed (sesh q) = 0 /\
  (takes_note (ss_on_new_stream (sesh q)) on_new_stream' /\ takes_note (ss_on_stream_data (sesh q)) on_stream_data') /\
  u_mem (p_user q) = [].

(** C2: roundtrip.  End to end between two sessions.  When a write on a new
    stream of one session returned the length of its input, and the application
    was not called meanwhile (it could have written in between), the messages
    that the pool accepted, delivered to any session that has the same key and
    whose application reads later, in any order, open there the stream of the same identifier, and reading it often
    enough returns exactly the bytes that were written.  The write may fill as
    many frames as a stream of the receiver keeps pending, so that any order
    of them is taken. *)
Theorem session_end_to_end p0 p ptr e input p' q0 q m n :
  session_started unlucky app_budget p0 ->
  session_reachable unlucky app_budget on_new_stream on_stream_data on_writable on_broken p0 p ->
  session_started unlucky' app_budget' q0 ->
  session_reachable unlucky' app_budget' on_new_stream' on_stream_data' on_writable' on_broken' q0 q -> alive q ->
  session_input_ok app_budget p (SessWrite ptr input) -> entry_at p ptr = Some e ->
  st_next_write_seq (en_stream e) = 0 -> matches p q ->
  cloak_strmtab_lookup (ss_streams (sesh q)) (st_id (en_stream e)) = Some None ->
  zlen input <= ss_stream_max_pending_frames (sesh q) * st_max_payload_per_frame (en_stream e) -> 0 < n -> 0 < zlen input <= Z.of_nat m ->
  session_stream_write on_writable (pick_fuel unlucky) unlucky ptr input p = Some (zlen input, p') ->
  u_log (p_user p') = u_log (p_user p) ->
  exists msgs fs, sent_messages unlucky on_writable p msgs fs p' /\
    forall msgs', msgs' ≡ₚ msgs -> exists q' ptr' e' q2,
      receive_messages on_new_stream' on_stream_data' msgs' q = Some q' /\
      cloak_strmtab_lookup (ss_streams (sesh q')) (st_id (en_stream e)) = Some (Some (CLOAK_STRMTAB_ACTIVE, ptr')) /\
      entry_at q' ptr' = Some e' /\ read_stream m ptr' n q' = Some (input, q2).
Proof.
  intros Hp0 Hp Hq0 Hq Haq Hok He Hseq (Mo&Mw&Mqo&Mc&Mq&Mm) Hnew Hpend Hn [Hlen Hm] Hwrite Hlog.
  pose proof Hok as (Hap&_&Hb&Hmax&Hroom).
  pose proof (reachable_alive _ _ _ _ _ _ Happ p0 p Hp0 Hp Hap) as Hin. pose proof (reachable_alive _ _ _ _ _ _ Happ' q0 q Hq0 Hq Haq) as Hinq.
  destruct (order_sound _ _ p Hin) as (Hshape&_&Hst&_). destruct (order_sound _ _ q Hinq) as (Hshapeq&_).
  pose proof (Hst ptr e He) as Hsok. destruct (stream_sends _ _ Hshape Hsok) as [Hcan _]. pose proof (cs_mx _ Hcan) as Hmx. cbn in Hmx.
  pose proof Hsok as (_&Hcfg&_). injection Hcfg as _ _ Emx _. set (mx := st_max_payload_per_frame (en_stream e)) in *.
  destruct (stream_write_spec _ _ _ _ _ _ Happ 0 p ptr e input ltac:(lia)) as (rc&p1&Hw&_&_&Hres); [|done|done|done|].
  { apply roomy_reserve; [done|apply zlen_nonneg|done]. }
  rewrite Hwrite in Hw. injection Hw as <- <-. cbv zeta in Hres.
  destruct (st_write_closed (en_stream e)); [destruct Hres; lia|].
  destruct (_ && _); [destruct Hres as [Hz _]; unfold CLOAK_STREAM_ERR_SHORT_BUFFER in Hz; lia|].
  destruct Hres as (msgs&fs&p2&Hsent&_&Hdata&Hseqs&[(_&Hpay&->)|[Hz _]]); [|lia]. fold mx in Hdata, Hseqs, Hpay.
  set (ps := cut (length input) mx input) in *. assert (Hnps : zlen ps <= zlen input) by (by apply zlen_cut).
  assert (Hcount : zlen ps <= ss_stream_max_pending_frames (sesh q)).
  { apply cut_count; [done| |exact Hpend]. apply (order_sound _ _ q Hinq). }
  unfold INT64_MAX in Hmax. rewrite Hseq in Hseqs. specialize (Hseqs Hlog ltac:(lia)).
  assert (Hconcat : concat ps = input) by (by apply cut_concat).
  pose proof (frames_are _ _ _ _ _ Hdata Hpay Hseqs) as Hfs. destruct (sent_messages_decode _ _ _ _ _ _ Hsent) as [Hdec Hmsgs].
  exists msgs, fs. split; [exact Hsent|]. intros msgs' Hperm. symmetry in Hperm.
  destruct (Permutation_Forall2 Hperm Hdec) as (fs'&Hpermf&Hdec').
  set (id := st_id (en_stream e)) in *. set (o := ss_obfuscator (sesh p)) in *. set (cap := ss_stream_recv_capacity (sesh q)).
  destruct (inv_ready _ _ _ _ (proj1 Hinq)) as (Hrq&Hiq&_).
  assert (Hrecv : receives_for on_new_stream' on_stream_data' o q) by (split; done).
  assert (Hseqs' : map fr_seq fs' ≡ₚ seqZ 0 (zlen ps)).
  { rewrite <- (data_frames_seq id 0 ps), <- Hfs. symmetry. by apply Permutation_map. }
  destruct Hshape as (_&_&[_ Hwp]&_). destruct Hshapeq as (_&_&_&[Hcq _]&_).
  destruct (receive_all on_new_stream' on_stream_data' o id ps msgs' fs' Hdec' ∅ q Hrecv) as (q'&Hrun&Hrecv'&_&Hpeer).
  - unfold stream_of_peer. by rewrite bool_decide_eq_true_2.
  - lia.
  - lia.
  - intros k Hk. by apply not_elem_of_empty in Hk.
  - rewrite <- Hperm. eapply Forall_impl; [exact Hmsgs|]. cbn. intros msg [? ?]. split; [done|lia].
  - rewrite <- Hpermf, Hfs. apply Forall_forall. intros f Hf. pose proof (data_frames_sent _ _ None _ Hf) as Hs.
    rewrite <- Hfs in Hf. pose proof (proj1 (Forall_forall _ _) Hdata f Hf) as (Hid&_&_&Hpl). split; [exact Hid|]. split; [exact Hs|].
    unfold CLOAK_FRAME_HEADER_LEN, CLOAK_FRAME_MAX_EXTRA_LEN in *. unfold cap. lia.
  - rewrite Hseqs'. apply NoDup_seqZ.
  - intros f _. apply not_elem_of_empty.
  - rewrite union_empty_r_L in Hpeer. unfold stream_of_peer in Hpeer. rewrite bool_decide_eq_false_2 in Hpeer.
    2: { intros E. assert (Hin0 : 0 ∈ (list_to_set (map fr_seq fs') : gset Z)).
         { apply elem_of_list_to_set. rewrite Hseqs'. apply elem_of_seqZ. split; [lia|].
           destruct ps as [|c ps']; [|rewrite zlen_cons; pose proof (zlen_nonneg ps'); lia].
           cbn in Hconcat. rewrite <- Hconcat in Hlen. done. }
         rewrite E in Hin0. by apply not_elem_of_empty in Hin0. }
    destruct Hpeer as (ptr'&st&r&Hlook&He'&Hrep&Hst').
    destruct Hrecv' as [_ [(_&Hsq'&_) _] _ _ _ _ _].
    destruct (read_stream_spec m ptr' n q' (StreamEntry st 0) (RxOrdered r) Hsq' He' Hrep ltac:(lia)) as (q2&Hread).
    rewrite (reads_everything ps cap (list_to_set (map fr_seq fs')) r m n) in Hread; [|lia|exact Hst'|done| |by rewrite Hconcat].
    2: { intros k Hk. apply elem_of_list_to_set. rewrite Hseqs'. apply elem_of_seqZ. lia. }
    rewrite Hconcat in Hread. by exists q', ptr', (StreamEntry st 0), q2.
Qed.

End pair.
