(* ===== verification/SessionDemo.v ===== *)
(** * A session at work

    A concrete session over the small event loop and the plain cipher, whose
    application destroys it when it is told of the end; and what the theorems
    of [SessionSpec] say of it. *)
From stdpp Require Import gmap.
From S2P Require Import Prelude Refinement Fallible Random Frame Aead ByteQueue MsgQueue Heap Stream StreamSpec StreamDelivery StrmTab Valve ReactorApi Conn ConnInv ConnRun Switchboard SwitchboardRng SwitchboardInv SwitchboardRun Session SessionInv SessionStreams SessionSteps SessionRun SessionSend SessionLife SessionReach SessionSpec.

#[local] Existing Instances evp_plain evp_plain_laws.
#[local] Abbreviation world := (pool_world reactor_lists (session_user unit)).
Implicit Types p : world.

(** ** The application *)

Definition idle_stream (ptr : Z) (p : world) : option world := Some p.
Definition idle_session (p : world) : option world := Some p.
Definition no_budget (a : unit) : Z := 0.

Lemma demo_app_ok : app_ok 1 no_budget idle_stream idle_stream idle_session (cloak_session_destroy (R := reactor_lists)).
Proof.
  split.
  - intros reserve ptr p Hi _. exists p. split; [done|]. split; [exact Hi|apply pool_keeps_refl].
  - intros reserve ptr p Hi _. exists p. split; [done|]. split; [exact Hi|apply pool_keeps_refl].
  - intros reserve p Hi. exists p. split; [done|]. split; [exact Hi|apply pool_keeps_refl].
  - intros p Hi _. destruct (session_destroy_spec 1 no_budget 0 p Hi) as (p'&->&Hg&_). exists p'. split; [done|by left].
Qed.

(** ** The session *)

Definition demo_session_config : cloak_session_config :=
  SessionConfig CLOAK_SESSION_ORDERING_ORDERED demo_obfuscator 300 400 8 1000 30000 true true true true None.
Definition demo_nobody : world :=
  PoolWorld zero_switchboard (ReactorLists [] [] 1) ∅ (fun _ => 0) (fun _ => 0) [] (SessionUser zero_session ∅ 1 [] ∅ [] tt).
Definition demo_session : world :=
  match cloak_session_init 9 demo_session_config demo_nobody with Some (_, p) => p | None => demo_nobody end.

Definition demo_session_step :=
  session_step 1 idle_stream idle_stream idle_session (cloak_session_destroy (R := reactor_lists)).
Definition demo_session_next (i : session_input) p : world := default p (demo_session_step i p).
Definition demo_session_blocks : pool_memory :=
  let n := recv_envelope_len CLOAK_CONN_FRAMING_TLS_RECORD 300 in
  PoolMemory true true
    (ConnMemory (Some (replicate (Z.to_nat (2 * n)) 0)) (Some (replicate 1000 0)) (Some (replicate (Z.to_nat n) 0))).
Definition demo_add_conn : session_input :=
  SessAddConn 5 CLOAK_CONN_FRAMING_TLS_RECORD (Socket [] ReadAgain [] [SendTook 400; SendAgain] []) demo_session_blocks.

(** A connection, a stream, a write, the end. *)
Definition demo_session1 := demo_session_next demo_add_conn demo_session.
Definition demo_session2 := demo_session_next SessOpenStream demo_session1.
Definition demo_session3 := demo_session_next (SessWrite 1 [1; 2; 3]) demo_session2.
Definition demo_session4 := demo_session_next SessClose demo_session3.
Definition demo_session5 := demo_session_next SessTimer demo_session4.

(** The application was told once, and destroyed the session. *)
Example demo_session_run :
  (ss_closed (sesh demo_session3), ss_closed (sesh demo_session4), u_log (p_user demo_session4)) = (0, 1, []) /\
  (u_log (p_user demo_session5), p_log demo_session5, rl_timers (p_reactor demo_session5)) = ([SessionBroken], [FdClosed 5], []).
Proof. by vm_compute. Qed.

#[local] Abbreviation demo_started := (session_started 1 no_budget).
#[local] Abbreviation demo_reachable :=
  (session_reachable 1 no_budget idle_stream idle_stream idle_session (cloak_session_destroy (R := reactor_lists)) demo_session).
#[local] Abbreviation demo_input_ok := (session_input_ok no_budget).

Lemma demo_config_good : config_good demo_session_config.
Proof. split; cbn; unfold INT64_MAX; try lia. - apply demo_obfuscator_ok. - by split. Qed.

Lemma demo_no_session : no_session 1 demo_nobody.
Proof.
  split; [done|]. split; [intros c; cbn; lia|]. split; [apply zero_rand_ok|]. split; [apply zero_fair|done].
Qed.

Lemma demo_no_valve : valve_load (p_valves demo_nobody) (sc_valve demo_session_config) = Some None /\
  pool_room (session_budget no_budget) 0 (p_user demo_nobody) None [].
Proof. split; [done|]. unfold pool_room. cbn. unfold INT64_MAX. by split_and!. Qed.

Lemma demo_session_started : demo_started demo_session.
Proof.
  exists demo_nobody, 9, demo_session_config, None. split; [apply demo_no_session|]. split; [apply demo_config_good|].
  split; [apply demo_no_valve|]. split; [apply demo_no_valve|]. by vm_compute.
Qed.

Lemma demo_alive p : ss_max_on_wire_size (sesh p) = 300 -> alive p.
Proof. intros Hw Hz. by rewrite Hz in Hw. Qed.

(** Without a valve nothing is counted. *)
Lemma demo_roomy n p : sb_valve (p_sb p) = None -> roomy no_budget n p.
Proof. intros Hv v. by rewrite Hv. Qed.

Lemma demo_reachable1 : demo_reachable demo_session1.
Proof.
  eapply (session_next _ _ _ _ _ _ _ demo_session demo_add_conn); [apply session_here| |by vm_compute].
  split; [by apply demo_alive|]. split; [apply not_elem_of_nil|]. split; [|split; [done|split; [apply Forall_nil_2|split; [|done]]]].
  - split; [by vm_compute|]. split; by vm_compute.
  - intros v Hv. vm_compute in Hv. injection Hv as <-. by vm_compute.
Qed.

Lemma demo_reachable2 : demo_reachable demo_session2.
Proof.
  eapply (session_next _ _ _ _ _ _ _ demo_session1 SessOpenStream); [apply demo_reachable1| |by vm_compute].
  apply demo_alive. by vm_compute.
Qed.

Lemma demo_entry2 : exists e, entry_at demo_session2 1 = Some e /\
  (st_write_closed (en_stream e), st_next_write_seq (en_stream e), st_id (en_stream e), en_retired e) = (false, 0, 1, 0).
Proof. destruct (entry_at demo_session2 1) as [e|] eqn:E; [|by vm_compute in E]. vm_compute in E. injection E as <-. by eexists. Qed.

Lemma demo_payload2 : (fun e => st_max_payload_per_frame (en_stream e)) <$> entry_at demo_session2 1 = Some 31.
Proof. by vm_compute. Qed.

Lemma demo_bytes : all_bytes [1; 2; 3].
Proof. repeat (apply Forall_cons; split; [unfold is_byte; lia|]). apply Forall_nil_2. Qed.

Lemma demo_write_ok : demo_input_ok demo_session2 (SessWrite 1 [1; 2; 3]).
Proof.
  split; [apply demo_alive; by vm_compute|]. destruct demo_entry2 as (e&He&_). split; [by exists e|].
  split; [apply demo_bytes|]. split; [by vm_compute|]. apply demo_roomy. by vm_compute.
Qed.

Lemma demo_reachable3 : demo_reachable demo_session3.
Proof.
  eapply (session_next _ _ _ _ _ _ _ demo_session2 (SessWrite 1 [1; 2; 3])); [apply demo_reachable2|apply demo_write_ok|by vm_compute].
Qed.



(** ** The theorems at work *)


Lemma session_routes_exactly_witness :
  exists p1 call, session_on_envelope idle_stream idle_stream (replicate 40 9) demo_session3 =
      call_app idle_stream idle_stream call p1 /\ routed demo_session3 (replicate 40 9) p1 call.
Proof.
  destruct (session_routes_exactly 1 no_budget idle_stream idle_stream idle_session _ demo_app_ok demo_session demo_session3
    (replicate 40 9) demo_session_started demo_reachable3) as (p1&call&He&Hr&_).
  - apply demo_alive. by vm_compute.
  - apply Forall_replicate. unfold is_byte. lia.
  - by vm_compute.
  - exists p1, call. split; [exact He|exact Hr].
Defined.

Lemma session_write_exact_witness :
  exists e p', entry_at demo_session2 1 = Some e /\
    session_stream_write idle_session (pick_fuel 1) 1 1 [1; 2; 3] demo_session2 = Some (3, p') /\
    written 1 idle_session demo_session2 1 e [1; 2; 3] (cut 3 (st_max_payload_per_frame (en_stream e)) [1; 2; 3]) 3 p'.
Proof.
  destruct demo_entry2 as (e&He&Hf). injection Hf as Hwc _ _ _.
  destruct (session_write_exact 1 no_budget idle_stream idle_stream idle_session _ demo_app_ok demo_session demo_session2 1 e [1; 2; 3]
    demo_session_started demo_reachable2 demo_write_ok He) as (rc&p'&Hw&_&Hres).
  assert (Hrc : fst <$> session_stream_write idle_session (pick_fuel 1) 1 1 [1; 2; 3] demo_session2 = Some 3) by (by vm_compute).
  rewrite Hw in Hrc. injection Hrc as ->. cbv zeta in Hres. rewrite Hwc in Hres. exists e, p'. split; [exact He|]. split; [exact Hw|].
  destruct (_ && _); [destruct Hres as [Hz _]; discriminate Hz|]. exact (proj2 Hres).
Defined.



Lemma session_idle_timeout_witness :
  armed (p_reactor demo_session) 1 /\
  exists r p', demo_session_step SessTimer demo_session = Some p' /\ closed_by_us 1 idle_session (set_pool_reactor demo_session r) p'.
Proof.
  assert (Hid : ss_inactivity_timer_id (sesh demo_session) = 1) by (by vm_compute).
  destruct (session_idle_timeout 1 no_budget idle_stream idle_stream idle_session _ demo_app_ok demo_session demo_session
    demo_session_started (session_here _ _ _ _ _ _ _)) as [Ha Hrun]; [apply demo_alive; by vm_compute|by vm_compute|by rewrite Hid|].
  rewrite Hid in Ha, Hrun. split; [apply Ha; by vm_compute|].
  assert (Hf : r_fire (p_reactor demo_session) = Some (1, ReactorLists [] [] 2)) by (by vm_compute).
  destruct (Hrun _ Hf) as (p'&Hstep&_&Hc); [by vm_compute|apply demo_roomy; by vm_compute|].
  eexists _, p'. split; [exact Hstep|exact Hc].
Defined.

Lemma session_stream_end_witness :
  exists p', cloak_session_close_stream idle_session (pick_fuel 1) 1 1 demo_session2 = Some (0, p') /\
    cloak_session_close_stream idle_session (pick_fuel 1) 1 1 p' = Some (-1, p').
Proof.
  destruct demo_entry2 as (e&He&Hf). injection Hf as _ _ _ Hret.
  destruct (session_stream_end 1 no_budget idle_stream idle_stream idle_session _ demo_app_ok demo_session demo_session2 1 e
    demo_session_started demo_reachable2) as [(rc&p'&Hc&_&Hres) _]; [|exact He|].
  { split; [apply demo_alive; by vm_compute|]. split; [by exists e|]. apply demo_roomy. by vm_compute. }
  assert (Hopen : ss_closed (sesh demo_session2) = 0) by (by vm_compute). rewrite Hopen, Hret in Hres. cbn [Z.eqb andb] in Hres.
  destruct Hres as (->&_&Hagain). exists p'. split; [exact Hc|exact Hagain].
Defined.

Lemma session_destroy_complete_witness :
  exists p', cloak_session_destroy demo_session3 = Some p' /\ session_gone p' /\ p_log p' = [FdClosed 5] /\
    ~ watching (p_reactor p') 5.
Proof.
  destruct (session_destroy_complete 1 no_budget idle_stream idle_stream idle_session _ demo_app_ok demo_session demo_session3
    demo_session_started demo_reachable3) as (p'&Hd&Hg&_&Hl&_&Hw); [apply demo_alive; by vm_compute|].
  exists p'. split; [exact Hd|]. split; [exact Hg|].
  assert (Hfds : fds (sb_conns (p_sb demo_session3)) = [5]) by (by vm_compute). rewrite Hfds in Hl, Hw.
  split; [rewrite Hl; by vm_compute|]. rewrite Hw. intros [_ Hx]. apply Hx. by left.
Defined.

Lemma session_init_exact_witness :
  exists p', cloak_session_init 9 demo_session_config demo_nobody = Some (0, p') /\
    begun demo_nobody 9 demo_session_config p'.
Proof.
  destruct (session_init_exact 1 no_budget demo_nobody 9 demo_session_config None demo_no_session demo_config_good
    (proj1 demo_no_valve) (proj2 demo_no_valve)) as (rc&p'&Hi&Hrc&Hres).
  assert (Hz : rc = 0) by (rewrite Hrc; by vm_compute). subst rc. rewrite Hz in Hi, Hres. exists p'. split; [exact Hi|apply Hres].
Defined.

Lemma idle_takes_note asked : takes_note asked idle_stream.
Proof. intros _ ptr q. exists tt. unfold idle_stream. by destruct q as [? ? ? ? ? ? [? ? ? ? ? ? []]]. Qed.

Lemma demo_matches : matches idle_stream idle_stream demo_session2 demo_session.
Proof.
  split; [by vm_compute|]. split; [by vm_compute|]. split; [by vm_compute|]. split; [by vm_compute|].
  split; [split; apply idle_takes_note|by vm_compute].
Qed.

(** The write of [demo_session2] is read by [demo_session]. *)
Lemma session_end_to_end_witness :
  exists msgs fs p', sent_messages 1 idle_session demo_session2 msgs fs p' /\
    forall msgs', msgs' ≡ₚ msgs -> exists q' ptr' e' q2,
      receive_messages idle_stream idle_stream msgs' demo_session = Some q' /\
      cloak_strmtab_lookup (ss_streams (sesh q')) 1 = Some (Some (CLOAK_STRMTAB_ACTIVE, ptr')) /\
      entry_at q' ptr' = Some e' /\ read_stream 3 ptr' 2 q' = Some ([1; 2; 3], q2).
Proof.
  destruct demo_entry2 as (e&He&Hf). injection Hf as _ Hseq Hid _.
  assert (Hmx : 3 <= ss_stream_max_pending_frames (sesh demo_session) * st_max_payload_per_frame (en_stream e)).
  { pose proof demo_payload2 as H. rewrite He in H. cbn [option_map fmap option_fmap] in H. injection H as ->. by vm_compute. }
  assert (Hw : (fun x => (x.1, u_log (p_user x.2))) <$> session_stream_write idle_session (pick_fuel 1) 1 1 [1; 2; 3] demo_session2 =
    Some (3, u_log (p_user demo_session2))) by (by vm_compute).
  destruct (session_stream_write idle_session (pick_fuel 1) 1 1 [1; 2; 3] demo_session2) as [[rc p']|] eqn:E; [|done].
  cbn [fmap option_fmap option_map fst snd] in Hw. injection Hw as -> Hlog.
  destruct (session_end_to_end 1 1 no_budget no_budget idle_stream idle_stream idle_session _ idle_stream idle_stream idle_session _
    demo_app_ok demo_app_ok demo_session demo_session2 1 e [1; 2; 3] p' demo_session demo_session 3 2
    demo_session_started demo_reachable2 demo_session_started (session_here _ _ _ _ _ _ _)) as (msgs&fs&Hsent&Hrecv).
  - apply demo_alive. by vm_compute.
  - apply demo_write_ok.
  - exact He.
  - exact Hseq.
  - apply demo_matches.
  - rewrite Hid. by vm_compute.
  - exact Hmx.
  - lia.
  - change (0 < 3 <= 3). lia.
  - exact E.
  - exact Hlog.
  - exists msgs, fs, p'. split; [exact Hsent|]. rewrite Hid in Hrecv. exact Hrecv.
Defined.
