(* ===== verification/Hlist.v ===== *)
(** * The intrusive chains of the registry ([libcloak-server/src/registry.c])

    Each of the registry's three chains is a list in the hlist shape: [next]
    goes forwards and [pprev] points at the pointer that points here, a bucket
    head or the [next] of the entry in front.  The memory is split by field, as
    in Burstall's model: a chain is its bucket heads and, for every entry that
    is allocated, the two fields of this chain.  The source has the same two
    functions three times. *)
From stdpp Require Import gmap.
From S2P Require Import Prelude.

(** What a [pprev] points at. *)
Inductive slot := HeadOf (bucket : Z) | NextOf (entry : Z).

(** The fields [next] (0 for NULL) and [pprev]. *)
Record links := Links { ln_next : Z; ln_pprev : option slot }.

Record hlist := Hlist { hl_heads : list Z; hl_links : gmap Z links }.

Definition no_links : links := Links 0 None.

(** [*pprev = value]. *)
Definition slot_write (h : hlist) (at_ : slot) (value : Z) : option hlist :=
  match at_ with
  | HeadOf i => heads ← mem_set (hl_heads h) i value; Some (Hlist heads (hl_links h))
  | NextOf q => f ← hl_links h !! q; Some (Hlist (hl_heads h) (<[q := Links value (ln_pprev f)]> (hl_links h)))
  end.

(** [p->next = next] and [p->pprev = pprev]. *)
Definition set_next (h : hlist) (p next : Z) : option hlist :=
  f ← hl_links h !! p; Some (Hlist (hl_heads h) (<[p := Links next (ln_pprev f)]> (hl_links h))).
Definition set_pprev (h : hlist) (p : Z) (pprev : option slot) : option hlist :=
  f ← hl_links h !! p; Some (Hlist (hl_heads h) (<[p := Links (ln_next f) pprev]> (hl_links h))).

(** [key_chain_add] and its copies, for the bucket the entry belongs to. *)
Definition chain_add (h : hlist) (bucket e : Z) : option hlist :=
  head ← (hl_heads h).[bucket];
  h ← set_next h e head;
  h ← (if head =? 0 then Some h else set_pprev h head (Some (NextOf e)));
  h ← slot_write h (HeadOf bucket) e;
  set_pprev h e (Some (HeadOf bucket)).

(** [key_chain_del] and its copies. *)
Definition chain_del (h : hlist) (e : Z) : option hlist :=
  f ← hl_links h !! e;
  match ln_pprev f with
  | None => Some h
  | Some pprev =>
      h ← (if ln_next f =? 0 then Some h else set_pprev h (ln_next f) (Some pprev));
      f ← hl_links h !! e;
      h ← slot_write h pprev (ln_next f);
      h ← set_next h e 0;
      set_pprev h e None
  end.

(** ** What a chain contains *)

(** The entries [l] from [p], which stands in [from], up to the pointer [q],
    which stands in [at_]. *)
Fixpoint seg (m : gmap Z links) (from : slot) (p : Z) (l : list Z) (q : Z) (at_ : slot) : Prop :=
  match l with
  | [] => p = q /\ from = at_
  | x :: l' =>
      p = x /\ x <> 0 /\ exists next, m !! x = Some (Links next (Some from)) /\ seg m (NextOf x) next l' q at_
  end.

Definition linked (m : gmap Z links) (from : slot) (p : Z) (l : list Z) : Prop := exists at_, seg m from p l 0 at_.

(** The entries of each bucket; an allocated entry outside has no [pprev]. *)
Definition hlist_rep (h : hlist) (ls : list (list Z)) : Prop :=
  length (hl_heads h) = length ls /\
  (forall i l, ls !! i = Some l -> exists p, hl_heads h !! i = Some p /\ linked (hl_links h) (HeadOf (Z.of_nat i)) p l) /\
  NoDup (concat ls) /\
  forall e f, hl_links h !! e = Some f -> e ∉ concat ls -> ln_pprev f = None.

Lemma seg_frame m m' from p l q at_ :
  seg m from p l q at_ -> (forall x, x ∈ l -> m' !! x = m !! x) -> seg m' from p l q at_.
Proof.
  revert from p. induction l as [|x l IH]; intros from p; [done|]. cbn. intros (->&Hx&next&Hm&Hl) Heq.
  split; [done|]. split; [done|]. exists next. split; [rewrite (Heq x) by (by left); done|]. apply IH; [done|].
  intros y Hy. apply Heq. by right.
Qed.

Lemma seg_app m from p l1 l2 q at_ :
  seg m from p (l1 ++ l2) q at_ <-> exists mid at1, seg m from p l1 mid at1 /\ seg m at1 mid l2 q at_.
Proof.
  revert from p. induction l1 as [|x l1 IH]; intros from p; cbn.
  - split; [by eexists _, _|]. by intros (?&?&[-> ->]&?).
  - setoid_rewrite IH. split.
    + intros (->&Hx&next&Hm&mid&at1&H1&H2). exists mid, at1. split; [|done]. split; [done|]. split; [done|]. by exists next.
    + intros (mid&at1&(->&Hx&next&Hm&H1)&H2). split; [done|]. split; [done|]. exists next. split; [done|]. by exists mid, at1.
Qed.

Lemma seg_at m from p l q at_ : seg m from p l q at_ ->
  (l = [] /\ at_ = from /\ p = q) \/ exists y pp, y ∈ l /\ at_ = NextOf y /\ m !! y = Some (Links q pp).
Proof.
  revert from p. induction l as [|x l IH]; intros from p; [by intros [-> ->]; left|]. intros (->&Hx&next&Hm&Hl). right.
  destruct (IH _ _ Hl) as [(->&->&->)|(y&pp&Hy&->&Hmy)]; [|exists y, pp; split; [by right|done]].
  exists x, (Some from). split; [by left|done].
Qed.

(** Writing through the slot at the end. *)
Lemma seg_redirect m from p l q y q' pp : seg m from p l q (NextOf y) -> NoDup l -> from <> NextOf y ->
  m !! y = Some (Links q pp) -> seg (<[y := Links q' pp]> m) from p l q' (NextOf y).
Proof.
  revert from p. induction l as [|x l IH]; intros from p; [by intros [_ ->]|].
  intros (->&Hx&next&Hm&Hl) [Hnx Hnd]%NoDup_cons Hne Hy. cbn. split; [done|]. split; [done|].
  destruct (decide (x = y)) as [->|Hxy].
  - rewrite Hm in Hy. injection Hy as -> <-. exists q'. split; [by rewrite lookup_insert_eq|].
    destruct (seg_at _ _ _ _ _ _ Hl) as [(->&_&_)|(z&?&Hz&[= <-]&_)]; [done|done].
  - exists next. split; [by rewrite lookup_insert_ne|]. apply IH; try done. congruence.
Qed.

Lemma seg_in m from p l q at_ x : seg m from p l q at_ -> x ∈ l ->
  x <> 0 /\ exists next pprev, m !! x = Some (Links next (Some pprev)).
Proof.
  revert from p. induction l as [|y l IH]; intros from p; [by intros _ ?%elem_of_nil|].
  intros (->&Hy&next&Hm&Hl) [->|Hx]%elem_of_cons; [|by eapply IH]. split; [done|]. by eexists _, _.
Qed.

(** ** Lists of buckets *)

Lemma concat_lookup (ls : list (list Z)) i l x : ls !! i = Some l -> x ∈ l -> x ∈ concat ls.
Proof. intros Hi Hx. apply list_elem_of_In, in_concat. exists l. split; apply list_elem_of_In; [by eapply list_elem_of_lookup_2|done]. Qed.

Lemma concat_elem (ls : list (list Z)) x : x ∈ concat ls -> exists i l, ls !! i = Some l /\ x ∈ l.
Proof.
  intros (l&Hl%list_elem_of_In&Hx%list_elem_of_In)%list_elem_of_In%in_concat.
  apply list_elem_of_lookup_1 in Hl as [i Hi]. by exists i, l.
Qed.

(** Changing one bucket. *)
Lemma concat_insert (ls : list (list Z)) i l l' : ls !! i = Some l -> concat (<[i := l']> ls) ≡ₚ l' ++ concat (delete i ls).
Proof.
  revert i. induction ls as [|k ls IH]; intros [|i] Hi; cbn in *; [done|done|by injection Hi as ->|].
  rewrite (IH _ Hi), !app_assoc. apply Permutation_app_tail, Permutation_app_comm.
Qed.

Lemma concat_split (ls : list (list Z)) i l : ls !! i = Some l -> concat ls ≡ₚ l ++ concat (delete i ls).
Proof. intros Hi. rewrite <- (concat_insert ls i l l Hi). by rewrite list_insert_id. Qed.

(** Two buckets have nothing in common. *)
Lemma bucket_disjoint (ls : list (list Z)) i j l l' x :
  NoDup (concat ls) -> ls !! i = Some l -> ls !! j = Some l' -> x ∈ l -> x ∈ l' -> i = j.
Proof.
  intros Hnd Hi Hj Hx Hx'. destruct (decide (i = j)) as [|Hne]; [done|]. exfalso.
  rewrite (concat_split _ _ _ Hi) in Hnd. apply NoDup_app in Hnd as (_&Hd&_). apply (Hd x Hx).
  destruct (decide (j < i)%nat) as [Hlt|Hge].
  - eapply (concat_lookup _ j l'); [by rewrite list_lookup_delete_lt|done].
  - eapply (concat_lookup _ (j - 1) l'); [|done]. rewrite list_lookup_delete_ge by lia. by replace (S (j - 1)) with j by lia.
Qed.

(** ** The two operations *)

Lemma linked_frame m m' from p l : linked m from p l -> (forall x, x ∈ l -> m' !! x = m !! x) -> linked m' from p l.
Proof. intros [at_ Hs] Heq. exists at_. by eapply seg_frame. Qed.

Lemma linked_nil m from p : linked m from p [] <-> p = 0.
Proof. split; [by intros (?&->&_)|]. intros ->. by exists from. Qed.

Lemma linked_cons m from p x l : linked m from p (x :: l) <->
  p = x /\ x <> 0 /\ exists next, m !! x = Some (Links next (Some from)) /\ linked m (NextOf x) next l.
Proof.
  split.
  - intros (at_&->&Hx&next&Hm&Hl). split; [done|]. split; [done|]. exists next. split; [done|]. by exists at_.
  - intros (->&Hx&next&Hm&at_&Hl). exists at_. split; [done|]. split; [done|]. by exists next.
Qed.

(** The first entry is held by another slot. *)
Lemma linked_move m from from' p l : linked m from p l -> NoDup l ->
  (l = [] /\ p = 0) \/ (exists l' next, l = p :: l' /\ p <> 0 /\ m !! p = Some (Links next (Some from)) /\
    linked (<[p := Links next (Some from')]> m) from' p l).
Proof.
  destruct l as [|x l]; [intros ->%linked_nil _; by left|].
  intros (->&Hx&next&Hm&Hl)%linked_cons [Hnx _]%NoDup_cons. right. exists l, next. split; [done|]. split; [done|]. split; [done|].
  apply linked_cons. split; [done|]. split; [done|]. exists next. split; [by rewrite lookup_insert_eq|].
  eapply linked_frame; [done|]. intros y Hy. apply lookup_insert_ne. by intros ->.
Qed.

Lemma head_slot (h : hlist) (ls : list (list Z)) i p : length (hl_heads h) = length ls -> (i < length ls)%nat ->
  hl_heads h !! i = Some p -> (hl_heads h).[Z.of_nat i] = Some p.
Proof. intros Hlen Hi Hp. rewrite mem_get_lookup, Nat2Z.id by lia. done. Qed.

(** The buckets other than [i] do not see a change at entries of [i] or outside. *)
Lemma rep_others h (ls : list (list Z)) i l m' heads' l' :
  hlist_rep h ls -> ls !! i = Some l ->
  length heads' = length ls -> (forall j, j <> i -> heads' !! j = hl_heads h !! j) ->
  (forall x, x ∈ concat ls -> x ∉ l -> m' !! x = hl_links h !! x) ->
  (exists p, heads' !! i = Some p /\ linked m' (HeadOf (Z.of_nat i)) p l') ->
  NoDup (concat (<[i := l']> ls)) ->
  (forall x f, m' !! x = Some f -> x ∉ concat (<[i := l']> ls) -> ln_pprev f = None) ->
  hlist_rep (Hlist heads' m') (<[i := l']> ls).
Proof.
  intros (Hlen&Hb&Hnd&Hout) Hi Hlen' Hheads Hframe Hbi Hnd' Hout'. split; [by rewrite length_insert|]. split; [|done].
  intros j lj Hj. destruct (decide (j = i)) as [->|Hne].
  - rewrite list_lookup_insert_eq in Hj by (apply lookup_lt_Some in Hi; done). injection Hj as <-. exact Hbi.
  - rewrite list_lookup_insert_ne in Hj by done. destruct (Hb _ _ Hj) as (p&Hp&Hl). exists p. cbn.
    split; [by rewrite Hheads|]. eapply linked_frame; [done|]. intros x Hx. apply Hframe; [exact (concat_lookup _ _ _ _ Hj Hx)|].
    intros Hxi. apply Hne. exact (bucket_disjoint ls j i lj l x Hnd Hj Hi Hx Hxi).
Qed.

Lemma chain_add_spec h ls i l e :
  hlist_rep h ls -> ls !! i = Some l -> e <> 0 -> e ∉ concat ls -> is_Some (hl_links h !! e) ->
  exists h', chain_add h (Z.of_nat i) e = Some h' /\ hlist_rep h' (<[i := e :: l]> ls) /\
    dom (hl_links h') = dom (hl_links h).
Proof.
  intros Hrep Hi He Hnew [f Hf]. pose proof Hrep as (Hlen&Hb&Hnd&Hout). pose proof (lookup_lt_Some _ _ _ Hi) as Hlt.
  destruct (Hb _ _ Hi) as (p&Hp&Hl). unfold chain_add. rewrite (head_slot _ _ _ _ Hlen Hlt Hp). cbn [mbind option_bind].
  unfold set_next. rewrite Hf. cbn [mbind option_bind]. set (m1 := <[e := Links p (ln_pprev f)]> (hl_links h)).
  assert (Hel : e ∉ l) by (intros Hin; apply Hnew; exact (concat_lookup _ _ _ _ Hi Hin)).
  assert (Hndl : NoDup l) by (pose proof Hnd as Hc; rewrite (concat_split _ _ _ Hi) in Hc; apply NoDup_app in Hc; apply Hc).
  assert (Hl1 : linked m1 (HeadOf (Z.of_nat i)) p l).
  { eapply linked_frame; [done|]. intros x Hx. apply lookup_insert_ne. by intros ->. }
  (* the links of the old front *)
  assert (Hm2 : exists m2, (if p =? 0 then Some (Hlist (hl_heads h) m1)
      else set_pprev (Hlist (hl_heads h) m1) p (Some (NextOf e))) = Some (Hlist (hl_heads h) m2) /\
    linked m2 (NextOf e) p l /\ m2 !! e = m1 !! e /\ dom m2 = dom m1 /\ forall x, x ∉ l -> m2 !! x = m1 !! x).
  { destruct (linked_move _ _ (NextOf e) _ _ Hl1 Hndl) as [[-> ->]|(l'&next&->&Hp0&Hmp&Hl2)].
    - exists m1. split_and!; try done. by apply linked_nil.
    - rewrite (proj2 (Z.eqb_neq p 0)) by done. unfold set_pprev. cbn. rewrite Hmp. cbn. eexists. split; [done|].
      split; [done|]. split; [|split].
      + apply lookup_insert_ne. intros ->. apply Hel. by left.
      + rewrite dom_insert_lookup_L; [done|]. by eexists.
      + intros x Hx. apply lookup_insert_ne. intros ->. apply Hx. by left. }
  destruct Hm2 as (m2&->&Hl2&He2&Hd2&Hfr2). cbn [mbind option_bind]. unfold slot_write. cbn [hl_heads hl_links].
  rewrite mem_set_Some by (unfold zlen; lia). cbn [mbind option_bind]. unfold set_pprev. cbn [hl_heads hl_links].
  rewrite He2. unfold m1 at 1. rewrite lookup_insert_eq. cbn [mbind option_bind ln_next]. eexists. split; [done|].
  rewrite Nat2Z.id. split.
  2:{ cbn. rewrite dom_insert_lookup_L; [rewrite Hd2; unfold m1; apply dom_insert_lookup_L; by exists f|].
      rewrite He2. unfold m1. rewrite lookup_insert_eq. by eexists. }
  assert (Hnd' : NoDup (concat (<[i := e :: l]> ls))).
  { rewrite (concat_insert _ _ _ _ Hi). cbn. rewrite <- (concat_split _ _ _ Hi). by apply NoDup_cons. }
  eapply rep_others; try done.
  - by rewrite length_insert.
  - intros j Hj. by apply list_lookup_insert_ne.
  - intros x Hx Hxl. assert (Hxe : e <> x) by (by intros ->). rewrite lookup_insert_ne by done. rewrite Hfr2 by done.
    by apply lookup_insert_ne.
  - exists e. rewrite list_lookup_insert_eq by lia. split; [done|]. apply linked_cons. split; [done|]. split; [done|].
    exists p. rewrite lookup_insert_eq. split; [done|]. eapply linked_frame; [done|]. intros x Hx. apply lookup_insert_ne. by intros ->.
  - intros x g Hg Hx. rewrite (concat_insert _ _ _ _ Hi) in Hx. cbn in Hx. rewrite <- (concat_split _ _ _ Hi) in Hx.
    apply not_elem_of_cons in Hx as [Hxe Hx]. rewrite lookup_insert_ne in Hg by done.
    rewrite Hfr2 in Hg by (intros Hin; apply Hx; exact (concat_lookup _ _ _ _ Hi Hin)). unfold m1 in Hg. rewrite lookup_insert_ne in Hg by done.
    by eapply Hout.
Qed.

Lemma NoDup_bucket (ls : list (list Z)) i l : NoDup (concat ls) -> ls !! i = Some l -> NoDup l.
Proof. intros Hnd Hi. rewrite (concat_split _ _ _ Hi) in Hnd. apply NoDup_app in Hnd. apply Hnd. Qed.

Lemma linked_app m from p l1 x l2 : linked m from p (l1 ++ x :: l2) <->
  exists at1 next, seg m from p l1 x at1 /\ x <> 0 /\ m !! x = Some (Links next (Some at1)) /\ linked m (NextOf x) next l2.
Proof.
  split.
  - intros (at_&Hs). apply seg_app in Hs as (mid&at1&H1&->&Hx&next&Hm&H2). exists at1, next. split; [done|]. split; [done|]. split; [done|].
    by exists at_.
  - intros (at1&next&H1&Hx&Hm&at_&H2). exists at_. apply seg_app. exists x, at1. split; [done|]. split; [done|]. split; [done|].
    by exists next.
Qed.

(** The entry behind [e] is held by the slot that held [e]. *)
Lemma unhook_next m e next at1 l2 heads :
  linked m (NextOf e) next l2 -> NoDup (e :: l2) ->
  exists m1, (if next =? 0 then Some (Hlist heads m) else set_pprev (Hlist heads m) next (Some at1)) = Some (Hlist heads m1) /\
    linked m1 at1 next l2 /\ dom m1 = dom m /\ forall x, x ∉ l2 -> m1 !! x = m !! x.
Proof.
  intros Hl [_ Hnd]%NoDup_cons. destruct (linked_move _ _ at1 _ _ Hl Hnd) as [[-> ->]|(l'&n2&->&Hp0&Hmp&Hl2)].
  - exists m. split_and!; try done. by apply linked_nil.
  - rewrite (proj2 (Z.eqb_neq next 0)) by done. unfold set_pprev. cbn. rewrite Hmp. cbn. eexists. split; [done|].
    split; [done|]. split.
    + rewrite dom_insert_lookup_L; [done|]. by eexists.
    + intros x Hx. apply lookup_insert_ne. intros ->. apply Hx. by left.
Qed.

(** The slot that held [e] holds what is behind it. *)
Lemma unhook_slot m i heads p l1 e at1 next l2 :
  seg m (HeadOf i) p l1 e at1 -> linked m at1 next l2 -> NoDup (l1 ++ l2) -> 0 <= i < zlen heads -> heads !! Z.to_nat i = Some p ->
  exists heads' m', slot_write (Hlist heads m) at1 next = Some (Hlist heads' m') /\
    (exists p', heads' !! Z.to_nat i = Some p' /\ linked m' (HeadOf i) p' (l1 ++ l2)) /\
    length heads' = length heads /\ (forall j, j <> Z.to_nat i -> heads' !! j = heads !! j) /\
    dom m' = dom m /\ (forall x, x ∉ l1 -> m' !! x = m !! x) /\ (forall x f, m' !! x = Some f -> exists f', m !! x = Some f' /\ ln_pprev f = ln_pprev f').
Proof.
  intros Hs Hl Hnd Hi Hp. apply NoDup_app in Hnd as (Hnd1&Hdis&_).
  destruct (seg_at _ _ _ _ _ _ Hs) as [(->&->&->)|(y&pp&Hy&->&Hmy)]; unfold slot_write; cbn [hl_heads hl_links].
  - rewrite mem_set_Some by done. cbn [mbind option_bind]. eexists _, _. split; [done|]. split.
    { exists next. rewrite list_lookup_insert_eq by (unfold zlen in Hi; lia). done. }
    split; [by rewrite length_insert|]. split; [intros j Hj; by apply list_lookup_insert_ne|]. split; [done|]. split; [done|].
    intros x f Hx. by exists f.
  - rewrite Hmy. cbn [mbind option_bind ln_pprev]. eexists _, _. split; [done|]. split.
    { exists p. split; [done|]. pose proof (seg_redirect _ _ _ _ _ _ next _ Hs Hnd1 ltac:(done) Hmy) as Hs'.
      assert (Hl' : linked (<[y := Links next pp]> m) (NextOf y) next l2).
      { eapply linked_frame; [done|]. intros x Hx. apply lookup_insert_ne. intros ->. by eapply Hdis. }
      destruct Hl' as (at_&Hl'). exists at_. apply seg_app. by exists next, (NextOf y). }
    split; [done|]. split; [done|]. split; [by rewrite dom_insert_lookup_L by by eexists|]. split.
    + intros x Hx. apply lookup_insert_ne. by intros ->.
    + intros x f. destruct (decide (x = y)) as [->|Hne]; [rewrite lookup_insert_eq|rewrite lookup_insert_ne by done].
      * intros [= <-]. by exists (Links e pp).
      * intros Hx. by exists f.
Qed.

Lemma chain_del_spec h ls i l1 e l2 :
  hlist_rep h ls -> ls !! i = Some (l1 ++ e :: l2) ->
  exists h', chain_del h e = Some h' /\ hlist_rep h' (<[i := l1 ++ l2]> ls) /\ dom (hl_links h') = dom (hl_links h).
Proof.
  destruct h as [heads m]. cbn [hl_links]. intros Hrep Hi. pose proof Hrep as (Hlen&Hb&Hnd&Hout). pose proof (lookup_lt_Some _ _ _ Hi) as Hlt.
  destruct (Hb _ _ Hi) as (p&Hp&(at1&next&Hs&He&Hme&Hl2)%linked_app).
  pose proof (NoDup_bucket _ _ _ Hnd Hi) as Hndl. pose proof Hndl as (Hnd1&Hd1&Hnd2)%NoDup_app.
  assert (Hnd12 : NoDup (l1 ++ l2)).
  { apply NoDup_app. split; [done|]. split; [intros x H1 H2; apply (Hd1 x H1); by right|]. apply (NoDup_cons e), Hnd2. }
  assert (Hel1 : e ∉ l1) by (intros Hin; apply (Hd1 e Hin); by left).
  assert (Hel2 : e ∉ l2) by (apply (NoDup_cons e), Hnd2).
  unfold chain_del. cbn [hl_links hl_heads] in *. rewrite Hme. cbn [mbind option_bind ln_pprev ln_next].
  destruct (unhook_next _ _ _ at1 _ heads Hl2 Hnd2) as (m1&E1&Hl1&Hd&Hf1). rewrite E1. cbn [mbind option_bind hl_links].
  rewrite (Hf1 e Hel2), Hme. cbn [mbind option_bind ln_next].
  assert (Hs1 : seg m1 (HeadOf (Z.of_nat i)) p l1 e at1).
  { eapply seg_frame; [done|]. intros x Hx. apply Hf1. intros Hx2. apply (Hd1 x Hx). by right. }
  destruct (unhook_slot m1 (Z.of_nat i) heads p l1 e at1 next l2 Hs1 Hl1 Hnd12) as
    (heads'&m2&E2&(p'&Hp'&Hl')&Hlen'&Hheads&Hd2&Hf2&Hpp); [unfold zlen; lia|by rewrite Nat2Z.id|].
  rewrite E2. cbn [mbind option_bind]. unfold set_next, set_pprev. cbn [hl_links hl_heads].
  rewrite (Hf2 e Hel1), (Hf1 e Hel2), Hme. cbn [mbind option_bind ln_pprev hl_links hl_heads]. rewrite lookup_insert_eq.
  cbn [mbind option_bind ln_next]. rewrite insert_insert_eq. eexists. split; [done|].
  rewrite Nat2Z.id in Hp', Hheads. split.
  2:{ cbn. rewrite dom_insert_lookup_L; [by rewrite Hd2, Hd|]. rewrite (Hf2 e Hel1), (Hf1 e Hel2), Hme. by eexists. }
  assert (Hperm : concat ls ≡ₚ e :: concat (<[i := l1 ++ l2]> ls)).
  { rewrite (concat_insert _ _ _ _ Hi), (concat_split _ _ _ Hi), <- !app_assoc. symmetry. cbn. apply Permutation_middle. }
  eapply rep_others; try done.
  - by rewrite Hlen'.
  - intros x Hx Hxl. rewrite elem_of_app, elem_of_cons in Hxl. rewrite lookup_insert_ne by (intros ->; apply Hxl; by right; left).
    rewrite Hf2, Hf1 by (intros ?; apply Hxl; auto). done.
  - exists p'. split; [done|]. eapply linked_frame; [done|]. intros x Hx. apply lookup_insert_ne. intros ->.
    by apply elem_of_app in Hx as [|].
  - rewrite Hperm in Hnd. apply (NoDup_cons e), Hnd.
  - intros x f. destruct (decide (x = e)) as [->|Hne]; [rewrite lookup_insert_eq; by intros [= <-]|].
    rewrite lookup_insert_ne by done. intros (f'&Hx1&->)%Hpp Hx. rewrite Hf1 in Hx1.
    + eapply Hout; [done|]. rewrite Hperm. by apply not_elem_of_cons.
    + intros Hx2. apply Hx. rewrite (concat_insert _ _ _ _ Hi). rewrite !elem_of_app. auto.
Qed.

(** An entry outside the chain is left alone. *)
Lemma chain_del_outside h ls e : hlist_rep h ls -> e ∉ concat ls -> is_Some (hl_links h !! e) -> chain_del h e = Some h.
Proof.
  intros (_&_&_&Hout) He [f Hf]. unfold chain_del. rewrite Hf. cbn [mbind option_bind]. by rewrite (Hout _ _ Hf He).
Qed.

(** Memory of a new entry, and of one that is freed. *)
Lemma rep_alloc h ls e : hlist_rep h ls -> hl_links h !! e = None ->
  hlist_rep (Hlist (hl_heads h) (<[e := no_links]> (hl_links h))) ls /\ e ∉ concat ls.
Proof.
  intros (Hlen&Hb&Hnd&Hout) He.
  assert (Hin : e ∉ concat ls).
  { intros (i&l&Hi&Hl)%concat_elem. destruct (Hb _ _ Hi) as (p&_&at_&Hs).
    destruct (seg_in _ _ _ _ _ _ _ Hs Hl) as (_&?&?&Hm). congruence. }
  split; [|done]. split; [done|]. split; [|split; [done|]]; cbn.
  - intros i l Hi. destruct (Hb _ _ Hi) as (p&Hp&Hl). exists p. split; [done|]. eapply linked_frame; [done|].
    intros x Hx. apply lookup_insert_ne. intros ->. apply Hin. exact (concat_lookup _ _ _ _ Hi Hx).
  - intros x f. destruct (decide (x = e)) as [->|Hne]; [rewrite lookup_insert_eq; by intros [= <-]|].
    rewrite lookup_insert_ne by done. apply Hout.
Qed.

Lemma rep_free h ls e : hlist_rep h ls -> e ∉ concat ls -> hlist_rep (Hlist (hl_heads h) (delete e (hl_links h))) ls.
Proof.
  intros (Hlen&Hb&Hnd&Hout) Hin. split; [done|]. split; [|split; [done|]]; cbn.
  - intros i l Hi. destruct (Hb _ _ Hi) as (p&Hp&Hl). exists p. split; [done|]. eapply linked_frame; [done|].
    intros x Hx. apply lookup_delete_ne. intros ->. apply Hin. exact (concat_lookup _ _ _ _ Hi Hx).
  - intros x f (_&Hx)%lookup_delete_Some. by apply Hout.
Qed.

(** The front of a bucket and what is behind an entry, as a walk reads them. *)
Lemma rep_head h ls i l : hlist_rep h ls -> ls !! i = Some l ->
  exists p, (hl_heads h).[Z.of_nat i] = Some p /\ linked (hl_links h) (HeadOf (Z.of_nat i)) p l.
Proof.
  intros (Hlen&Hb&_) Hi. destruct (Hb _ _ Hi) as (p&Hp&Hl). exists p. split; [|done].
  eapply head_slot; try done. by eapply lookup_lt_Some.
Qed.
