(* ===== verification/Registry.v ===== *)
(** * The session registry ([libcloak-server/src/registry.c])

    The sessions of the server, by user and session id.  An entry is allocated
    at an address that was never used; its chain fields are in the three chains
    of [Hlist], its other fields in [w_entries], its session in [w_sessions],
    under the address of the entry.  What the registry needs of a session
    (session.h) is the interface [Sessions]: a session is constructed and
    destroyed, its timers are in the event loop, and destroying it calls nobody
    back.  A freed entry is an address without fields, and an access through it
    is [None].  The callbacks of the owner act on the whole world. *)
From stdpp Require Import gmap.
From S2P Require Import Prelude Fallible Random SipHash ReactorApi ClientAuth Session Hlist.

Definition CLOAK_REGISTRY_MAX_SESSIONS : Z := 1024.
Definition CLOAK_REGISTRY_KEY_BUCKETS : Z := 2048.
Definition CLOAK_REGISTRY_UID_BUCKETS : Z := 1024.

(** [cloak_session_init] and [cloak_session_destroy] on the session of an
    entry; the configurations that a caller may give, the sessions that are
    constructed, the timers that are theirs. *)
Class Sessions (R T : Type) := {
  s_init : Z -> Z -> cloak_session_config -> R -> T -> option (Z * R * T);
  s_destroy : Z -> R -> T -> option (R * T);
  s_good : T -> cloak_session_config -> Prop;
  s_alive : T -> gset Z;
  s_timers : T -> gset Z;
  s_ok : R -> T -> Prop
}.

Record reg_entry := RegEntry { re_uid : bytes; re_session_id : Z; re_dead : Z }.

(** The callback is set or NULL. *)
Record cloak_server_registry := Registry {
  rg_on_broken : bool;
  rg_key : hlist;
  rg_uid : hlist;
  rg_dead : hlist;
  rg_n_entries : Z;
  rg_n_dead : Z;
  rg_hash_key : bytes;
  rg_lookup_probe_steps : Z;
  rg_lookup_calls : Z;
  rg_sweep_timer : Z;
  rg_destroyed : Z
}.

Definition zero_chain (buckets : Z) : hlist := Hlist (replicate (Z.to_nat buckets) 0) ∅.
Definition zero_registry : cloak_server_registry :=
  Registry false (zero_chain CLOAK_REGISTRY_KEY_BUCKETS) (zero_chain CLOAK_REGISTRY_UID_BUCKETS) (zero_chain 1)
    0 0 (replicate 16 0) 0 0 0 0.

Definition with_chains (g : cloak_server_registry) (key uid dead : hlist) (n_entries n_dead : Z) : cloak_server_registry :=
  Registry (rg_on_broken g) key uid dead n_entries n_dead (rg_hash_key g)
    (rg_lookup_probe_steps g) (rg_lookup_calls g) (rg_sweep_timer g) (rg_destroyed g).
Definition with_counters (g : cloak_server_registry) (steps calls : Z) : cloak_server_registry :=
  Registry (rg_on_broken g) (rg_key g) (rg_uid g) (rg_dead g) (rg_n_entries g) (rg_n_dead g) (rg_hash_key g)
    steps calls (rg_sweep_timer g) (rg_destroyed g).
Definition with_sweep (g : cloak_server_registry) (timer destroyed : Z) : cloak_server_registry :=
  Registry (rg_on_broken g) (rg_key g) (rg_uid g) (rg_dead g) (rg_n_entries g) (rg_n_dead g) (rg_hash_key g)
    (rg_lookup_probe_steps g) (rg_lookup_calls g) timer destroyed.

(** The registry, the entries, the next free address, the answers of [malloc]
    (successes when the script is over), the event loop, the sessions, and
    what the owner keeps. *)
Record reg_world (R T A : Type) := RegWorld {
  w_reg : cloak_server_registry;
  w_entries : gmap Z reg_entry;
  w_next : Z;
  w_mem : list bool;
  w_reactor : R;
  w_sessions : T;
  w_app : A
}.
#[global] Arguments RegWorld {R T A}.
#[global] Arguments w_reg {R T A}.
#[global] Arguments w_entries {R T A}.
#[global] Arguments w_next {R T A}.
#[global] Arguments w_mem {R T A}.
#[global] Arguments w_reactor {R T A}.
#[global] Arguments w_sessions {R T A}.
#[global] Arguments w_app {R T A}.

(** ** The keyed bucket functions *)

Definition registry_key_bucket (g : cloak_server_registry) (uid : bytes) (session_id : Z) : option Z :=
  u ← uid.[0 +: CLOAK_UID_LEN];
  let buf := u ++ [u8 (Z.land session_id 255); u8 (Z.land (Z.shiftr session_id 8) 255);
                   u8 (Z.land (Z.shiftr session_id 16) 255); u8 (Z.land (Z.shiftr session_id 24) 255)] in
  h ← cloak_siphash24 (rg_hash_key g) buf (CLOAK_UID_LEN + 4);
  Some (Z.land h (CLOAK_REGISTRY_KEY_BUCKETS - 1)).

Definition registry_uid_bucket (g : cloak_server_registry) (uid : bytes) : option Z :=
  u ← uid.[0 +: CLOAK_UID_LEN];
  h ← cloak_siphash24 (rg_hash_key g) u CLOAK_UID_LEN;
  Some (Z.land h (CLOAK_REGISTRY_UID_BUCKETS - 1)).

Section registry.
Context {R T A : Type} {RR : Reactor R} {SS : Sessions R T}.
#[local] Abbreviation world := (reg_world R T A).
Implicit Types w : world.

Definition set_reg w (g : cloak_server_registry) : world :=
  RegWorld g (w_entries w) (w_next w) (w_mem w) (w_reactor w) (w_sessions w) (w_app w).
Definition set_entries w (es : gmap Z reg_entry) (next : Z) : world :=
  RegWorld (w_reg w) es next (w_mem w) (w_reactor w) (w_sessions w) (w_app w).
Definition set_outside w (r : R) (s : T) : world :=
  RegWorld (w_reg w) (w_entries w) (w_next w) (w_mem w) r s (w_app w).

(** One answer of the allocator. *)
Definition registry_malloc w : bool * world :=
  (hd true (w_mem w),
   RegWorld (w_reg w) (w_entries w) (w_next w) (tl (w_mem w)) (w_reactor w) (w_sessions w) (w_app w)).

(** ** The three chains *)

Definition key_chain_add w (e : Z) : option world :=
  f ← w_entries w !! e;
  bucket ← registry_key_bucket (w_reg w) (re_uid f) (re_session_id f);
  h ← chain_add (rg_key (w_reg w)) bucket e;
  let g := w_reg w in Some (set_reg w (with_chains g h (rg_uid g) (rg_dead g) (rg_n_entries g) (rg_n_dead g))).
Definition key_chain_del w (e : Z) : option world :=
  h ← chain_del (rg_key (w_reg w)) e;
  let g := w_reg w in Some (set_reg w (with_chains g h (rg_uid g) (rg_dead g) (rg_n_entries g) (rg_n_dead g))).

Definition uid_chain_add w (e : Z) : option world :=
  f ← w_entries w !! e;
  bucket ← registry_uid_bucket (w_reg w) (re_uid f);
  h ← chain_add (rg_uid (w_reg w)) bucket e;
  let g := w_reg w in Some (set_reg w (with_chains g (rg_key g) h (rg_dead g) (rg_n_entries g) (rg_n_dead g))).
Definition uid_chain_del w (e : Z) : option world :=
  h ← chain_del (rg_uid (w_reg w)) e;
  let g := w_reg w in Some (set_reg w (with_chains g (rg_key g) h (rg_dead g) (rg_n_entries g) (rg_n_dead g))).

Definition dead_chain_add w (e : Z) : option world :=
  h ← chain_add (rg_dead (w_reg w)) 0 e;
  let g := w_reg w in Some (set_reg w (with_chains g (rg_key g) (rg_uid g) h (rg_n_entries g) (rg_n_dead g))).
Definition dead_chain_del w (e : Z) : option world :=
  h ← chain_del (rg_dead (w_reg w)) e;
  let g := w_reg w in Some (set_reg w (with_chains g (rg_key g) (rg_uid g) h (rg_n_entries g) (rg_n_dead g))).

Definition set_counts w (n_entries n_dead : Z) : world :=
  let g := w_reg w in set_reg w (with_chains g (rg_key g) (rg_uid g) (rg_dead g) n_entries n_dead).

Definition registry_entry_link w (e : Z) : option world :=
  w ← key_chain_add w e;
  w ← uid_chain_add w e;
  Some (set_counts w (u64 (rg_n_entries (w_reg w) + 1)) (rg_n_dead (w_reg w))).

Definition registry_entry_unlink w (e : Z) : option world :=
  w ← key_chain_del w e;
  w ← uid_chain_del w e;
  f ← w_entries w !! e;
  w ← (if negb (re_dead f =? 0) then
         w ← dead_chain_del w e;
         Some (set_counts w (rg_n_entries (w_reg w)) (u64 (rg_n_dead (w_reg w) - 1)))
       else Some w);
  Some (set_counts w (u64 (rg_n_entries (w_reg w) - 1)) (rg_n_dead (w_reg w))).

Definition registry_mark_dead w (e : Z) : option world :=
  f ← w_entries w !! e;
  let w := set_entries w (<[e := RegEntry (re_uid f) (re_session_id f) 1]> (w_entries w)) (w_next w) in
  w ← dead_chain_add w e;
  Some (set_counts w (rg_n_entries (w_reg w)) (u64 (rg_n_dead (w_reg w) + 1))).

(** [free(entry)]. *)
Definition forget (h : hlist) (e : Z) : hlist := Hlist (hl_heads h) (delete e (hl_links h)).
Definition free_memory w (e : Z) : option world :=
  _ ← w_entries w !! e;
  let g := w_reg w in
  Some (set_entries (set_reg w (with_chains g (forget (rg_key g) e) (forget (rg_uid g) e) (forget (rg_dead g) e)
                                  (rg_n_entries g) (rg_n_dead g)))
          (delete e (w_entries w)) (w_next w)).

(** [malloc] and [memset]; the pointer. *)
Definition fresh (h : hlist) (e : Z) : hlist := Hlist (hl_heads h) (<[e := no_links]> (hl_links h)).
Definition alloc_entry w (f : reg_entry) : Z * world :=
  let g := w_reg w in
  let e := w_next w in
  (e, set_entries (set_reg w (with_chains g (fresh (rg_key g) e) (fresh (rg_uid g) e) (fresh (rg_dead g) e)
                                (rg_n_entries g) (rg_n_dead g)))
        (<[e := f]> (w_entries w)) (e + 1)).

Definition registry_free_entry w (e : Z) : option world :=
  _ ← w_entries w !! e;
  '(r, s) ← s_destroy e (w_reactor w) (w_sessions w);
  free_memory (set_outside w r s) e.

(** ** Looking up *)

Definition count_probe w : world :=
  let g := w_reg w in set_reg w (with_counters g (u64 (rg_lookup_probe_steps g + 1)) (rg_lookup_calls g)).
Definition count_call w : world :=
  let g := w_reg w in set_reg w (with_counters g (rg_lookup_probe_steps g) (u64 (rg_lookup_calls g + 1))).

(** [memcmp(entry->uid, uid, CLOAK_UID_LEN) == 0]. *)
Definition same_uid (f : reg_entry) (uid : bytes) : option bool :=
  u ← uid.[0 +: CLOAK_UID_LEN]; v ← (re_uid f).[0 +: CLOAK_UID_LEN]; Some (bool_decide (v = u)).

(** The walk of one bucket; no bucket holds an entry twice. *)
Fixpoint find_live_loop (fuel : nat) (uid : bytes) (session_id entry : Z) w : option (Z * world) :=
  if entry =? 0 then Some (0, w)
  else match fuel with
  | O => None
  | S fuel' =>
      let w := count_probe w in
      f ← w_entries w !! entry;
      hit ← (if negb (re_dead f =? 0) || negb (re_session_id f =? session_id) then Some false else same_uid f uid);
      if (hit : bool) then Some (entry, w)
      else
        links ← hl_links (rg_key (w_reg w)) !! entry;
        find_live_loop fuel' uid session_id (ln_next links) w
  end.

(** The entry, or 0. *)
Definition registry_find_live (uid : bytes) (session_id : Z) w : option (Z * world) :=
  let w := count_call w in
  bucket ← registry_key_bucket (w_reg w) uid session_id;
  entry ← (hl_heads (rg_key (w_reg w))).[bucket];
  find_live_loop (size (w_entries w)) uid session_id entry w.

Fixpoint count_uid_loop (fuel : nat) (uid : bytes) (entry n : Z) w : option (Z * world) :=
  if entry =? 0 then Some (n, w)
  else match fuel with
  | O => None
  | S fuel' =>
      let w := count_probe w in
      f ← w_entries w !! entry;
      hit ← (if negb (re_dead f =? 0) then Some false else same_uid f uid);
      links ← hl_links (rg_uid (w_reg w)) !! entry;
      count_uid_loop fuel' uid (ln_next links) (if (hit : bool) then u64 (n + 1) else n) w
  end.

(** The first entry of a user in a bucket, dead or not. *)
Fixpoint find_uid_loop (fuel : nat) (uid : bytes) (entry : Z) w : option Z :=
  if entry =? 0 then Some 0
  else match fuel with
  | O => None
  | S fuel' =>
      f ← w_entries w !! entry;
      hit ← same_uid f uid;
      if (hit : bool) then Some entry
      else links ← hl_links (rg_uid (w_reg w)) !! entry; find_uid_loop fuel' uid (ln_next links) w
  end.

(** ** The sweep *)

(** Every round destroys an entry. *)
Fixpoint sweep_loop (fuel : nat) w : option world :=
  entry ← (hl_heads (rg_dead (w_reg w))).[0];
  if entry =? 0 then Some w
  else match fuel with
  | O => None
  | S fuel' => w ← registry_entry_unlink w entry; w ← registry_free_entry w entry; sweep_loop fuel' w
  end.
Definition registry_sweep_dead_entries w : option world := sweep_loop (size (w_entries w)) w.

Definition registry_sweep_timer_cb w : option world :=
  registry_sweep_dead_entries (set_reg w (with_sweep (w_reg w) CLOAK_TIMER_INVALID (rg_destroyed (w_reg w)))).

Definition registry_arm_sweep w : option world :=
  if negb (rg_destroyed (w_reg w) =? 0) then Some w
  else if negb (rg_sweep_timer (w_reg w) =? CLOAK_TIMER_INVALID) then Some w
  else
    let '(id, r) := r_add_timer (w_reactor w) 0 in
    let w := set_reg (set_outside w r (w_sessions w)) (with_sweep (w_reg w) id (rg_destroyed (w_reg w))) in
    if rg_sweep_timer (w_reg w) =? CLOAK_TIMER_INVALID then registry_sweep_dead_entries w else Some w.

(** ** The callbacks *)

(** The owner's: the entry, whose address is that of the session, the user and
    the session id. *)
Variable on_broken : Z -> bytes -> Z -> world -> option world.

Definition registry_on_session_broken (entry : Z) w : option world :=
  w ← registry_mark_dead w entry;
  w ← (if rg_on_broken (w_reg w) then f ← w_entries w !! entry; on_broken entry (re_uid f) (re_session_id f) w
       else Some w);
  registry_arm_sweep w.

(** ** The functions of the header *)

(** [reg] and [r] are not NULL or [None]; the tape of random bytes.  The
    entries are those of other registries, none. *)
Definition cloak_server_registry_init (reg r : bool) (owner : bool) (tape : rand) w : Z * world * rand :=
  let w := if reg then set_reg w zero_registry else w in
  if negb reg || negb r || negb owner then (-1, w, tape)
  else
    let g := w_reg w in
    let '(key, tape) := cloak_random_bytes 16 tape in
    (0, set_reg w (Registry owner (rg_key g) (rg_uid g) (rg_dead g) (rg_n_entries g) (rg_n_dead g) key
                     (rg_lookup_probe_steps g) (rg_lookup_calls g) (rg_sweep_timer g) (rg_destroyed g)), tape).

(** The loop over one bucket, then over the buckets from [i] on. *)
Fixpoint destroy_bucket (fuel : nat) (i : Z) w : option world :=
  entry ← (hl_heads (rg_key (w_reg w))).[i];
  if entry =? 0 then Some w
  else match fuel with
  | O => None
  | S fuel' => w ← registry_entry_unlink w entry; w ← registry_free_entry w entry; destroy_bucket fuel' i w
  end.
Fixpoint destroy_buckets (n : nat) (i : Z) w : option world :=
  match n with
  | O => Some w
  | S n' => w ← destroy_bucket (size (w_entries w)) i w; destroy_buckets n' (i + 1) w
  end.

Definition cloak_server_registry_destroy w : option world :=
  let w := set_reg w (with_sweep (w_reg w) (rg_sweep_timer (w_reg w)) 1) in
  w ← (if negb (rg_sweep_timer (w_reg w) =? CLOAK_TIMER_INVALID) then
         w ← registry_sweep_dead_entries w;
         let w := set_outside w (r_cancel_timer (w_reactor w) (rg_sweep_timer (w_reg w))) (w_sessions w) in
         Some (set_reg w (with_sweep (w_reg w) CLOAK_TIMER_INVALID (rg_destroyed (w_reg w))))
       else Some w);
  destroy_buckets (Z.to_nat CLOAK_REGISTRY_KEY_BUCKETS) 0 w.

(** The config with the adapter of the registry. *)
Definition with_adapter (c : cloak_session_config) : cloak_session_config :=
  SessionConfig (sc_ordering c) (sc_obfuscator c) (sc_max_on_wire_size c) (sc_stream_recv_capacity c)
    (sc_stream_max_pending_frames c) (sc_conn_send_queue_cap c) (sc_inactivity_timeout_ms c)
    (sc_on_new_stream c) true (sc_on_writable c) (sc_on_stream_data c) (sc_valve c).

(** The session, or 0 for NULL, and [*out_created] if it was set.  A pointer
    that may be NULL is an option; the registry itself is not NULL. *)
Definition cloak_server_registry_get_or_create (uid : option bytes) (session_id : Z)
    (config : option cloak_session_config) w : option (Z * option Z * world) :=
  match uid, config with
  | Some uid, Some config =>
      '(existing, w) ← registry_find_live uid session_id w;
      if negb (existing =? 0) then Some (existing, Some 0, w)
      else if CLOAK_REGISTRY_MAX_SESSIONS <=? rg_n_entries (w_reg w) then Some (0, None, w)
      else
        let '(ok, w) := registry_malloc w in
        if negb ok then Some (0, None, w)
        else
          u ← uid.[0 +: CLOAK_UID_LEN];
          let '(entry, w) := alloc_entry w (RegEntry u session_id 0) in
          '(rc, r, s) ← s_init entry session_id (with_adapter config) (w_reactor w) (w_sessions w);
          let w := set_outside w r s in
          if negb (rc =? 0) then w ← free_memory w entry; Some (0, None, w)
          else w ← registry_entry_link w entry; Some (entry, Some 1, w)
  | _, _ => Some (0, None, w)
  end.

Definition cloak_server_registry_find (uid : option bytes) (session_id : Z) w : option (Z * world) :=
  match uid with None => Some (0, w) | Some uid => registry_find_live uid session_id w end.

Definition cloak_server_registry_close (uid : option bytes) (session_id : Z) w : option world :=
  match uid with
  | None => Some w
  | Some uid =>
      '(entry, w) ← registry_find_live uid session_id w;
      if negb (entry =? 0) then w ← registry_entry_unlink w entry; registry_free_entry w entry else Some w
  end.

Definition cloak_server_registry_count_for_uid (uid : option bytes) w : option (Z * world) :=
  match uid with
  | None => Some (0, w)
  | Some uid =>
      let w := count_call w in
      bucket ← registry_uid_bucket (w_reg w) uid;
      entry ← (hl_heads (rg_uid (w_reg w))).[bucket];
      count_uid_loop (size (w_entries w)) uid entry 0 w
  end.

Section closing.
(** NULL is [None]. *)
Variable on_closing : option (Z -> bytes -> Z -> world -> option world).

(** Every round closes a session of the user. *)
Fixpoint close_all_loop (fuel : nat) (bucket : Z) (uid : bytes) (closed : Z) w : option (Z * world) :=
  head ← (hl_heads (rg_uid (w_reg w))).[bucket];
  entry ← find_uid_loop (size (w_entries w)) uid head w;
  if entry =? 0 then Some (closed, w)
  else match fuel with
  | O => None
  | S fuel' =>
      w ← registry_entry_unlink w entry;
      w ← match on_closing with
          | None => Some w
          | Some cb => f ← w_entries w !! entry; cb entry (re_uid f) (re_session_id f) w
          end;
      w ← registry_free_entry w entry;
      close_all_loop fuel' bucket uid (u64 (closed + 1)) w
  end.

Definition cloak_server_registry_close_all_for_uid (uid : option bytes) w : option (Z * world) :=
  match uid with
  | None => Some (0, w)
  | Some uid =>
      bucket ← registry_uid_bucket (w_reg w) uid;
      close_all_loop (size (w_entries w)) bucket uid 0 w
  end.
End closing.

Definition cloak_server_registry_count w : Z := u64 (rg_n_entries (w_reg w) - rg_n_dead (w_reg w)).

End registry.
