(* ===== verification/RegistryInv.v ===== *)
(** * The invariant of the registry

    [chain_ok] says which entries are on a chain and in which bucket; [inv]
    says it of the three chains and relates entries, sessions, counters and the
    timer of the sweep.  Its parameters are the entries that are off the chains
    because somebody is about to free them, and whether the sweep may still
    have to be armed. *)
From stdpp Require Import gmap.
From S2P Require Import Prelude Fallible Random SipHash ReactorApi ClientAuth Session Hlist Registry.

(** Timers of somebody else stay armed. *)
Definition apart {R T} `{Reactor R} {SS : Sessions R T} (r : R) (s : T) (r' : R) (s' : T) : Prop :=
  forall id, armed r id -> id ∉ s_timers s -> armed r' id /\ (id ∉ s_timers s').

(** What the registry relies on. *)
Class SessionsLaws (R T : Type) `{ReactorLaws R} {SS : Sessions R T} : Prop := {
  s_init_law e id c r s :
    reactor_ok r -> s_ok r s -> e ∉ s_alive s -> s_good s c ->
    exists rc r' s', s_init e id c r s = Some (rc, r', s') /\ reactor_ok r' /\ s_ok r' s' /\
      s_alive s' = (if rc =? 0 then {[e]} ∪ s_alive s else s_alive s) /\ apart r s r' s';
  s_destroy_law e r s :
    reactor_ok r -> s_ok r s -> e ∈ s_alive s ->
    exists r' s', s_destroy e r s = Some (r', s') /\ reactor_ok r' /\ s_ok r' s' /\
      s_alive s' = s_alive s ∖ {[e]} /\ apart r s r' s';
  s_add_timer_law r s delay id r' :
    reactor_ok r -> s_ok r s -> r_add_timer r delay = (id, r') ->
    s_ok r' s /\ (id <> CLOAK_TIMER_INVALID -> id ∉ s_timers s);
  s_cancel_law r s id : reactor_ok r -> s_ok r s -> id ∉ s_timers s -> s_ok (r_cancel_timer r id) s;
  s_fire_law r s id r' : reactor_ok r -> s_ok r s -> r_fire r = Some (id, r') -> id ∉ s_timers s -> s_ok r' s
}.

(** ** One chain *)

(** The chain has the entries of [es] with [member], each in its bucket. *)
Definition chain_ok (h : hlist) (n : nat) (bucket : reg_entry -> option Z) (es : gmap Z reg_entry)
    (member : Z -> reg_entry -> Prop) : Prop :=
  exists ls, length ls = n /\ hlist_rep h ls /\ dom (hl_links h) = dom es /\
    (forall p, p ∈ concat ls <-> exists f, es !! p = Some f /\ member p f) /\
    (forall i l p f, ls !! i = Some l -> p ∈ l -> es !! p = Some f -> bucket f = Some (Z.of_nat i)).

Section chain.
Context (h : hlist) (n : nat) (bucket : reg_entry -> option Z) (es : gmap Z reg_entry).
Implicit Types member : Z -> reg_entry -> Prop.

Lemma links_of ls p f : hlist_rep h ls -> dom (hl_links h) = dom es -> es !! p = Some f -> is_Some (hl_links h !! p).
Proof. intros _ Hd Hp. apply elem_of_dom. rewrite Hd. by eapply elem_of_dom_2. Qed.

Lemma chain_ok_add member member' p f b :
  chain_ok h n bucket es member -> es !! p = Some f -> ~ member p f -> bucket f = Some b -> 0 <= b < Z.of_nat n -> p <> 0 ->
  (forall q g, es !! q = Some g -> member' q g <-> member q g \/ q = p) ->
  exists h', chain_add h b p = Some h' /\ chain_ok h' n bucket es member'.
Proof.
  intros (ls&Hn&Hrep&Hd&Hmem&Hbuc) Hp Hno Hb Hrange Hp0 Hm'.
  destruct (lookup_lt_is_Some_2 ls (Z.to_nat b)) as [l Hl]; [lia|].
  assert (Hout : p ∉ concat ls) by (rewrite Hmem; intros (g&Hg&Hmg); rewrite Hp in Hg; by injection Hg as ->).
  destruct (chain_add_spec h ls (Z.to_nat b) l p Hrep Hl Hp0 Hout) as (h'&Ha&Hrep'&Hd'); [by eapply links_of|].
  rewrite Z2Nat.id in Ha by lia. exists h'. split; [done|]. eexists. split; [|split; [done|split; [by rewrite Hd'|]]].
  { by rewrite length_insert. }
  assert (Hperm : concat (<[Z.to_nat b := p :: l]> ls) ≡ₚ p :: concat ls).
  { rewrite (concat_insert _ _ _ _ Hl). cbn. by rewrite <- (concat_split _ _ _ Hl). }
  split.
  - intros q. rewrite Hperm, elem_of_cons, Hmem. split.
    + intros [->|(g&Hg&Hmg)]; [exists f|exists g]; (split; [done|]); apply Hm'; auto.
    + intros (g&Hg&Hmg). apply (Hm' q g Hg) in Hmg as [Hmg| ->]; [right; by exists g|by left].
  - intros i l' q g Hi Hq Hg. destruct (decide (i = Z.to_nat b)) as [->|Hne].
    + rewrite list_lookup_insert_eq in Hi by lia. injection Hi as <-. apply elem_of_cons in Hq as [->|Hq].
      * rewrite Hp in Hg. injection Hg as <-. rewrite Z2Nat.id by lia. done.
      * by eapply Hbuc.
    + rewrite list_lookup_insert_ne in Hi by done. by eapply Hbuc.
Qed.

Lemma chain_ok_del member member' p f :
  chain_ok h n bucket es member -> es !! p = Some f ->
  (forall q g, es !! q = Some g -> member' q g <-> member q g /\ q <> p) ->
  exists h', chain_del h p = Some h' /\ chain_ok h' n bucket es member'.
Proof.
  intros (ls&Hn&Hrep&Hd&Hmem&Hbuc) Hp Hm'. destruct (decide (p ∈ concat ls)) as [Hin|Hout].
  - apply concat_elem in Hin as (i&l&Hi&Hl). apply list_elem_of_split in Hl as (l1&l2&->).
    destruct (chain_del_spec h ls i l1 p l2 Hrep Hi) as (h'&Ha&Hrep'&Hd').
    exists h'. split; [done|]. eexists. split; [|split; [done|split; [by rewrite Hd'|]]].
    { by rewrite length_insert. }
    assert (Hperm : concat ls ≡ₚ p :: concat (<[i := l1 ++ l2]> ls)).
    { rewrite (concat_insert _ _ _ _ Hi), (concat_split _ _ _ Hi), <- !app_assoc. symmetry. cbn. apply Permutation_middle. }
    assert (Hnd : NoDup (concat ls)) by apply Hrep. rewrite Hperm in Hnd. apply NoDup_cons in Hnd as [Hnp _]. split.
    + intros q. split.
      * intros Hq. assert (Hqp : q <> p) by (by intros ->). assert (Hq2 : q ∈ concat ls) by (rewrite Hperm; by right).
        apply Hmem in Hq2 as (g&Hg&Hmg). exists g. split; [done|]. by apply Hm'.
      * intros (g&Hg&Hmg). apply (Hm' q g Hg) in Hmg as [Hmg Hqp].
        assert (Hq2 : q ∈ concat ls) by (apply Hmem; by exists g). rewrite Hperm in Hq2. by apply elem_of_cons in Hq2 as [|].
    + intros j l' q g Hj Hq Hg. destruct (decide (j = i)) as [->|Hne].
      * rewrite list_lookup_insert_eq in Hj by (by eapply lookup_lt_Some). injection Hj as <-.
        eapply (Hbuc i); [done| |done]. rewrite elem_of_app, elem_of_cons. apply elem_of_app in Hq. tauto.
      * rewrite list_lookup_insert_ne in Hj by done. by eapply Hbuc.
  - exists h. split; [eapply chain_del_outside; try done; by eapply links_of|]. exists ls. split_and!; try done.
    intros q. rewrite Hmem. split; intros (g&Hg&Hmg); exists g; (split; [done|]).
    + apply Hm'; [done|]. split; [done|]. intros ->. apply Hout, Hmem. by exists g.
    + by apply (Hm' q g Hg).
Qed.

Lemma chain_ok_fresh member member' p f :
  chain_ok h n bucket es member -> es !! p = None -> ~ member' p f ->
  (forall q g, es !! q = Some g -> member' q g <-> member q g) ->
  chain_ok (fresh h p) n bucket (<[p := f]> es) member'.
Proof.
  intros (ls&Hn&Hrep&Hd&Hmem&Hbuc) Hp Hno Hm'.
  destruct (rep_alloc h ls p Hrep) as [Hrep' Hout].
  { apply not_elem_of_dom. rewrite Hd. by apply not_elem_of_dom. }
  exists ls. split; [done|]. split; [done|]. split; [cbn; by rewrite !dom_insert_L, Hd|]. split.
  - intros q. rewrite Hmem. destruct (decide (q = p)) as [->|Hne].
    + split; [intros (g&Hg&_); congruence|]. intros (g&Hg&Hmg). rewrite lookup_insert_eq in Hg. injection Hg as <-. done.
    + rewrite lookup_insert_ne by done. split; intros (g&Hg&Hmg); exists g; (split; [done|]); by apply (Hm' q g Hg).
  - intros i l q g Hi Hq. destruct (decide (q = p)) as [->|Hne]; [exfalso; apply Hout; exact (concat_lookup _ _ _ _ Hi Hq)|].
    rewrite lookup_insert_ne by done. exact (Hbuc i l q g Hi Hq).
Qed.

Lemma chain_ok_forget member member' p f :
  chain_ok h n bucket es member -> es !! p = Some f -> ~ member p f ->
  (forall q g, es !! q = Some g -> q <> p -> member' q g <-> member q g) ->
  chain_ok (forget h p) n bucket (delete p es) member'.
Proof.
  intros (ls&Hn&Hrep&Hd&Hmem&Hbuc) Hp Hno Hm'.
  assert (Hout : p ∉ concat ls) by (rewrite Hmem; intros (g&Hg&Hmg); rewrite Hp in Hg; by injection Hg as ->).
  exists ls. split; [done|]. split; [by apply rep_free|]. split; [cbn; by rewrite !dom_delete_L, Hd|]. split.
  - intros q. rewrite Hmem. destruct (decide (q = p)) as [->|Hne].
    + split; [intros (g&Hg&Hmg); rewrite Hp in Hg; by injection Hg as ->|]. intros (g&Hg&_). by rewrite lookup_delete_eq in Hg.
    + rewrite lookup_delete_ne by done. split; intros (g&Hg&Hmg); exists g; (split; [done|]); by apply (Hm' q g Hg Hne).
  - intros i l q g Hi Hq (_&Hg)%lookup_delete_Some. by eapply Hbuc.
Qed.

(** An entry that keeps its bucket and its place. *)
Lemma chain_ok_update member member' p f f' :
  chain_ok h n bucket es member -> es !! p = Some f -> bucket f' = bucket f ->
  (member' p f' <-> member p f) -> (forall q g, q <> p -> member' q g <-> member q g) ->
  chain_ok h n bucket (<[p := f']> es) member'.
Proof.
  intros (ls&Hn&Hrep&Hd&Hmem&Hbuc) Hp Hb Hmp Hm'. exists ls. split; [done|]. split; [done|].
  split; [rewrite dom_insert_lookup_L; [done|by exists f]|]. split.
  - intros q. rewrite Hmem. destruct (decide (q = p)) as [->|Hne].
    + rewrite lookup_insert_eq. split.
      * intros (g&Hg&Hmg). rewrite Hp in Hg. injection Hg as <-. exists f'. split; [done|]. by apply Hmp.
      * intros (g&Hg&Hmg). injection Hg as <-. exists f. split; [done|]. by apply Hmp.
    + rewrite lookup_insert_ne by done. split; intros (g&Hg&Hmg); exists g; (split; [done|]); by apply (Hm' q g Hne).
  - intros i l q g Hi Hq. destruct (decide (q = p)) as [->|Hne].
    + rewrite lookup_insert_eq. intros [= <-]. rewrite Hb. by eapply Hbuc.
    + rewrite lookup_insert_ne by done. exact (Hbuc i l q g Hi Hq).
Qed.

Lemma chain_ok_member member member' :
  chain_ok h n bucket es member -> (forall q g, es !! q = Some g -> member' q g <-> member q g) ->
  chain_ok h n bucket es member'.
Proof.
  intros (ls&Hn&Hrep&Hd&Hmem&Hbuc) Hm'. exists ls. split_and!; try done. intros q. rewrite Hmem.
  split; intros (g&Hg&Hmg); exists g; (split; [done|]); by apply (Hm' q g Hg).
Qed.

(** A bucket, from its head. *)
Lemma chain_ok_bucket member b :
  chain_ok h n bucket es member -> 0 <= b < Z.of_nat n ->
  exists p l, (hl_heads h).[b] = Some p /\ linked (hl_links h) (HeadOf b) p l /\ (length l <= size es)%nat /\ NoDup l /\
    forall q, q ∈ l <-> exists g, es !! q = Some g /\ member q g /\ bucket g = Some b.
Proof.
  intros (ls&Hn&Hrep&Hd&Hmem&Hbuc) Hb. destruct (lookup_lt_is_Some_2 ls (Z.to_nat b)) as [l Hl]; [lia|].
  destruct (rep_head h ls _ l Hrep Hl) as (p&Hp&Hlk). rewrite Z2Nat.id in Hp, Hlk by lia. exists p, l.
  assert (Hnd : NoDup (concat ls)) by apply Hrep. pose proof (NoDup_bucket _ _ _ Hnd Hl) as Hndl.
  assert (Hiff : forall q, q ∈ l <-> exists g, es !! q = Some g /\ member q g /\ bucket g = Some b).
  { intros q. split.
    - intros Hq. pose proof (concat_lookup _ _ _ _ Hl Hq) as Hc. apply Hmem in Hc as (g&Hg&Hmg). exists g.
      split; [done|]. split; [done|]. rewrite (Hbuc _ _ _ _ Hl Hq Hg), Z2Nat.id by lia. done.
    - intros (g&Hg&Hmg&Hbg). assert (Hc : q ∈ concat ls) by (apply Hmem; by exists g).
      apply concat_elem in Hc as (i&l'&Hi&Hq). pose proof (Hbuc _ _ _ _ Hi Hq Hg) as Hi'. rewrite Hbg in Hi'.
      injection Hi' as ->. rewrite Nat2Z.id, Hi in Hl. by injection Hl as <-. }
  split_and!; try done. rewrite <- size_dom. rewrite <- (size_list_to_set (C := gset Z) l Hndl). apply subseteq_size.
  intros q Hq%elem_of_list_to_set. apply Hiff in Hq as (g&Hg&_). by eapply elem_of_dom_2.
Qed.
End chain.

(** ** The whole registry *)

Definition key_bucket (g : cloak_server_registry) (f : reg_entry) : option Z :=
  registry_key_bucket g (re_uid f) (re_session_id f).
Definition uid_bucket (g : cloak_server_registry) (f : reg_entry) : option Z := registry_uid_bucket g (re_uid f).

(** The dead entries. *)
Definition dead_set (es : gmap Z reg_entry) : gset Z := dom (filter (fun x => re_dead x.2 <> 0) es).

(** Users have sixteen bytes. *)
Definition good_uid (u : bytes) : Prop := zlen u = CLOAK_UID_LEN /\ all_bytes u.

Definition entry_ok (f : reg_entry) : Prop :=
  good_uid (re_uid f) /\ 0 <= re_session_id f < 4294967296 /\ (re_dead f = 0 \/ re_dead f = 1).

(** ** Sets and counters *)

Lemma elem_of_dead (es : gmap Z reg_entry) p : p ∈ dead_set es <-> exists f, es !! p = Some f /\ re_dead f <> 0.
Proof.
  unfold dead_set. rewrite elem_of_dom. split.
  - intros [f [Hf Hd]%map_lookup_filter_Some]. by exists f.
  - intros (f&Hf&Hd). exists f. by apply map_lookup_filter_Some.
Qed.

Lemma size_without (X F : gset Z) p : p ∈ X -> p ∉ F ->
  size (X ∖ F) = S (size (X ∖ ({[p]} ∪ F))).
Proof.
  intros Hp HpF. replace (X ∖ F) with ({[p]} ∪ X ∖ ({[p]} ∪ F)).
  - rewrite size_union by (intros q ->%elem_of_singleton [_ Hq]%elem_of_difference; apply Hq, elem_of_union; left; by apply elem_of_singleton).
    by rewrite size_singleton.
  - apply set_eq. intros q. rewrite elem_of_union, !elem_of_difference, elem_of_union, elem_of_singleton.
    destruct (decide (q = p)) as [->|]; tauto.
Qed.

Section inv.
Context {R T A : Type} {RR : Reactor R} {RL : ReactorLaws R} {SS : Sessions R T} {SL : SessionsLaws R T}.
#[local] Abbreviation world := (reg_world R T A).
Implicit Types w : world.

Definition chains_ok (F : gset Z) w : Prop :=
  let g := w_reg w in
  chain_ok (rg_key g) 2048 (key_bucket g) (w_entries w) (fun p _ => p ∉ F) /\
  chain_ok (rg_uid g) 1024 (uid_bucket g) (w_entries w) (fun p _ => p ∉ F) /\
  chain_ok (rg_dead g) 1 (fun _ => Some 0) (w_entries w) (fun p f => (p ∉ F) /\ re_dead f <> 0).

Definition counts_ok (F : gset Z) w : Prop :=
  rg_n_entries (w_reg w) = Z.of_nat (size (dom (w_entries w) ∖ F)) /\ rg_n_entries (w_reg w) <= CLOAK_REGISTRY_MAX_SESSIONS /\
  rg_n_dead (w_reg w) = Z.of_nat (size (dead_set (w_entries w) ∖ F)).

(** No two live entries have the same key. *)
Definition unique_live (F : gset Z) w : Prop :=
  forall p q f g, w_entries w !! p = Some f -> w_entries w !! q = Some g -> p ∉ F -> q ∉ F ->
    re_dead f = 0 -> re_dead g = 0 -> re_uid f = re_uid g -> re_session_id f = re_session_id g -> p = q.

Definition table_ok (F : gset Z) w : Prop :=
  F ⊆ dom (w_entries w) /\ 0 < w_next w /\
  (forall p f, w_entries w !! p = Some f -> 0 < p < w_next w /\ entry_ok f) /\
  zlen (rg_hash_key (w_reg w)) = 16 /\ all_bytes (rg_hash_key (w_reg w)).

(** Every entry has its session; the timer of the sweep is nobody else's. *)
Definition outside_ok w : Prop :=
  reactor_ok (w_reactor w) /\ s_ok (w_reactor w) (w_sessions w) /\ s_alive (w_sessions w) = dom (w_entries w) /\
  (rg_sweep_timer (w_reg w) <> CLOAK_TIMER_INVALID ->
    armed (w_reactor w) (rg_sweep_timer (w_reg w)) /\ (rg_sweep_timer (w_reg w) ∉ s_timers (w_sessions w))).

(** Dead entries wait for a sweep that will come. *)
Definition sweep_due w : Prop :=
  rg_destroyed (w_reg w) = 0 -> rg_n_dead (w_reg w) <> 0 -> rg_sweep_timer (w_reg w) <> CLOAK_TIMER_INVALID.

Definition inv (F : gset Z) (dirty : bool) w : Prop :=
  chains_ok F w /\ counts_ok F w /\ unique_live F w /\ table_ok F w /\ outside_ok w /\ (dirty = false -> sweep_due w).

(** ** Buckets of users *)

Lemma uid_read u : good_uid u -> u.[0 +: CLOAK_UID_LEN] = Some u.
Proof. intros [Hl _]. by apply mem_read_all. Qed.

Lemma sip_bucket k inp n : zlen k = 16 -> all_bytes k -> all_bytes inp -> zlen inp < 100 -> 0 <= n ->
  exists h, cloak_siphash24 k inp (zlen inp) = Some h /\ 0 <= Z.land h (2 ^ n - 1) < 2 ^ n.
Proof.
  intros Hk Hkb Hb Hl Hn. destruct (siphash_total k inp Hkb Hk Hb) as (h&Hh&_); [unfold SIZE_MAX; lia|].
  exists h. split; [done|]. replace (2 ^ n - 1) with (Z.ones n) by (rewrite Z.ones_equiv; lia). rewrite Z.land_ones by done.
  apply Z.mod_pos_bound. lia.
Qed.

Lemma key_bucket_total F w u sid : table_ok F w -> good_uid u ->
  exists b, registry_key_bucket (w_reg w) u sid = Some b /\ 0 <= b < 2048.
Proof.
  intros (_&_&_&Hk&Hkb) Hu. unfold registry_key_bucket. rewrite uid_read by done. cbn [mbind option_bind].
  destruct Hu as [Hl Hb]. set (buf := u ++ _). assert (Hlen : zlen buf = CLOAK_UID_LEN + 4).
  { unfold buf. rewrite zlen_app, Hl. done. }
  destruct (sip_bucket (rg_hash_key (w_reg w)) buf 11) as (h&Hh&Hr); try done.
  - apply all_bytes_app. split; [done|]. repeat constructor; apply u8_is_byte.
  - rewrite Hlen. done.
  - rewrite Hlen in Hh. rewrite Hh. by eexists.
Qed.

Lemma uid_bucket_total F w u : table_ok F w -> good_uid u ->
  exists b, registry_uid_bucket (w_reg w) u = Some b /\ 0 <= b < 1024.
Proof.
  intros (_&_&_&Hk&Hkb) Hu. unfold registry_uid_bucket. rewrite uid_read by done. cbn [mbind option_bind].
  destruct Hu as [Hl Hb]. destruct (sip_bucket (rg_hash_key (w_reg w)) u 10) as (h&Hh&Hr); try done.
  - rewrite Hl. done.
  - rewrite Hl in Hh. rewrite Hh. by eexists.
Qed.

Lemma same_uid_spec f u : entry_ok f -> good_uid u -> same_uid f u = Some (bool_decide (re_uid f = u)).
Proof. intros (Hf&_) Hu. unfold same_uid. by rewrite (uid_read u), (uid_read (re_uid f)). Qed.
End inv.
