(* ===== verification/RegistrySteps.v ===== *)
(** * What the parts of the registry do

    Looking up, linking and unlinking, freeing, marking dead and sweeping: what
    each does to the table and that it keeps the invariant of [RegistryInv]. *)
From stdpp Require Import gmap.
From S2P Require Import Prelude Fallible Random SipHash ReactorApi ClientAuth Session Hlist Registry RegistryInv.

Section steps.
Context {R T A : Type} {RR : Reactor R} {RL : ReactorLaws R} {SS : Sessions R T} {SL : SessionsLaws R T}.
#[local] Abbreviation world := (reg_world R T A).
Implicit Types w : world.

(** ** Looking up *)

(** Only the diagnostic counters differ. *)
Definition probed w w' : Prop := exists steps calls, w' = set_reg w (with_counters (w_reg w) steps calls).

Lemma probed_refl w : probed w w.
Proof. destruct w as [g es nx mm r s a], g. by eexists _, _. Qed.

Lemma probed_trans w1 w2 w3 : probed w1 w2 -> probed w2 w3 -> probed w1 w3.
Proof. intros (a&b&->) (c&d&->). by exists c, d. Qed.

Lemma probed_count w : probed w (count_probe w).
Proof. by eexists _, _. Qed.

Lemma probed_call w : probed w (count_call w).
Proof. by eexists _, _. Qed.

Lemma inv_probed F d w w' : inv F d w -> probed w w' -> inv F d w'.
Proof. intros H (a&b&->). exact H. Qed.

(** The live entry of a key. *)
Definition live_at (F : gset Z) w (u : bytes) (sid p : Z) : Prop :=
  (p ∉ F) /\ w_entries w !! p = Some (RegEntry u sid 0).

Definition matches (u : bytes) (sid : Z) (f : reg_entry) : Prop := re_dead f = 0 /\ re_session_id f = sid /\ re_uid f = u.

Lemma find_live_loop_spec fuel u sid from p l w :
  good_uid u -> (forall q f, w_entries w !! q = Some f -> entry_ok f) ->
  linked (hl_links (rg_key (w_reg w))) from p l -> (length l <= fuel)%nat ->
  (forall q, q ∈ l -> is_Some (w_entries w !! q)) ->
  exists res w', find_live_loop fuel u sid p w = Some (res, w') /\ probed w w' /\
    ((res = 0 /\ forall q f, q ∈ l -> w_entries w !! q = Some f -> ~ matches u sid f) \/
     (res ∈ l /\ exists f, w_entries w !! res = Some f /\ matches u sid f)).
Proof.
  intros Hu Hok. revert from p fuel w Hok. induction l as [|x l IH]; intros from p fuel w Hok Hl Hf Hin.
  - apply linked_nil in Hl as ->. exists 0, w. split; [by destruct fuel|]. split; [apply probed_refl|]. left.
    split; [done|]. by intros q f ?%elem_of_nil.
  - apply linked_cons in Hl as (->&Hx&next&Hm&Hl). destruct fuel as [|fuel]; [cbn in Hf; lia|]. cbn [find_live_loop].
    rewrite (proj2 (Z.eqb_neq x 0)) by done. destruct (Hin x) as [f Hxf]; [by left|].
    change (w_entries (count_probe w)) with (w_entries w). rewrite Hxf. cbn [mbind option_bind].
    rewrite (same_uid_spec f u) by (by eauto). change (hl_links (rg_key (w_reg (count_probe w)))) with (hl_links (rg_key (w_reg w))).
    rewrite Hm. cbn [mbind option_bind ln_next].
    destruct (decide (matches u sid f)) as [(Hd&Hs&Huu)|Hno].
    + rewrite Hd, Hs, Huu. cbn. rewrite Z.eqb_refl, bool_decide_eq_true_2 by done. cbn. exists x, (count_probe w).
      split; [done|]. split; [apply probed_count|]. right. split; [by left|]. by exists f.
    + assert (Hhit : (if negb (re_dead f =? 0) || negb (re_session_id f =? sid) then Some false
        else Some (bool_decide (re_uid f = u))) = Some false).
      { destruct (Z.eqb_spec (re_dead f) 0); cbn; [|done]. destruct (Z.eqb_spec (re_session_id f) sid); cbn; [|done].
        rewrite bool_decide_eq_false_2; [done|]. intros ?. by apply Hno. }
      rewrite Hhit. cbn [mbind option_bind].
      destruct (IH (NextOf x) next fuel (count_probe w) Hok Hl ltac:(cbn in Hf; lia)) as (res&w'&->&Hp&Hcase).
      { intros q Hq. apply Hin. by right. }
      exists res, w'. split; [done|]. split; [by eapply probed_trans; [apply probed_count|]|].
      destruct Hcase as [[-> Hnone]|[Hres Hmt]]; [left|right; split; [by right|done]].
      split; [done|]. intros q g [->|Hq]%elem_of_cons Hg; [|by eapply Hnone].
      change (w_entries (count_probe w)) with (w_entries w) in *. rewrite Hxf in Hg. by injection Hg as <-.
Qed.

Lemma inv_shape F d w q f : inv F d w -> w_entries w !! q = Some f -> 0 < q < w_next w /\ entry_ok f.
Proof. intros (_&_&_&(_&_&H&_)&_) Hq. by apply H. Qed.

(** The lookup: the live entry of the key, or 0. *)
Lemma find_live_spec F d w u sid : inv F d w -> good_uid u ->
  exists res w', registry_find_live u sid w = Some (res, w') /\ probed w w' /\
    ((res = 0 /\ forall p, ~ live_at F w u sid p) \/ (res <> 0 /\ live_at F w u sid res)).
Proof.
  intros Hinv Hu. pose proof Hinv as ((Hkey&_&_)&_&_&Htab&_). unfold registry_find_live.
  destruct (key_bucket_total F w u sid Htab Hu) as (b&Hb&Hr).
  change (registry_key_bucket (w_reg (count_call w)) u sid) with (registry_key_bucket (w_reg w) u sid). rewrite Hb.
  cbn [mbind option_bind]. destruct (chain_ok_bucket _ _ _ _ _ b Hkey ltac:(lia)) as (p&l&Hp&Hl&Hsz&_&Hiff).
  change (rg_key (w_reg (count_call w))) with (rg_key (w_reg w)). rewrite Hp. cbn [mbind option_bind].
  destruct (find_live_loop_spec (size (w_entries w)) u sid (HeadOf b) p l (count_call w) Hu) as (res&w'&Hf&Hpr&Hcase); try done.
  { intros q f Hq. by apply (inv_shape F d w q f). }
  { intros q (g&Hg&_)%Hiff. by exists g. }
  exists res, w'. split; [exact Hf|]. split; [by eapply probed_trans; [apply probed_call|]|].
  change (w_entries (count_call w)) with (w_entries w) in Hcase. destruct Hcase as [[-> Hnone]|[Hres (f&Hf1&Hd&Hs&Huu)]].
  - left. split; [done|]. intros q [HqF Hq]. refine (Hnone q _ _ Hq _); [|done]. apply Hiff. eexists. split; [exact Hq|].
    split; [done|exact Hb].
  - right. pose proof (inv_shape F d w _ _ Hinv Hf1) as [? _]. split; [lia|]. apply Hiff in Hres as (g&Hg&HF&_).
    split; [done|]. rewrite Hf1. f_equal. destruct f. cbn in *. congruence.
Qed.

(** ** Counting the sessions of a user *)

Definition counted (u : bytes) (es : gmap Z reg_entry) (q : Z) : bool :=
  match es !! q with Some f => (re_dead f =? 0) && bool_decide (re_uid f = u) | None => false end.

Lemma count_uid_loop_spec fuel u from p l n w :
  good_uid u -> (forall q f, w_entries w !! q = Some f -> entry_ok f) ->
  linked (hl_links (rg_uid (w_reg w))) from p l -> (length l <= fuel)%nat ->
  (forall q, q ∈ l -> is_Some (w_entries w !! q)) -> 0 <= n -> n + zlen l < 18446744073709551616 ->
  exists w', count_uid_loop fuel u p n w = Some (n + zlen (filter (fun q => counted u (w_entries w) q = true) l), w') /\ probed w w'.
Proof.
  intros Hu Hok. revert from p fuel n w Hok. induction l as [|x l IH]; intros from p fuel n w Hok Hl Hf Hin Hn Hlen.
  - apply linked_nil in Hl as ->. exists w. split; [|apply probed_refl]. assert (Hz : forall P : Z -> bool, n + zlen (filter (fun q => P q = true) (@nil Z)) = n) by (intros P; apply Z.add_0_r).
    rewrite Hz. by destruct fuel.
  - apply linked_cons in Hl as (->&Hx&next&Hm&Hl). destruct fuel as [|fuel]; [cbn in Hf; lia|]. cbn [count_uid_loop].
    rewrite (proj2 (Z.eqb_neq x 0)) by done. destruct (Hin x) as [f Hxf]; [by left|].
    change (w_entries (count_probe w)) with (w_entries w). rewrite Hxf. cbn [mbind option_bind].
    rewrite (same_uid_spec f u) by (by eauto). change (hl_links (rg_uid (w_reg (count_probe w)))) with (hl_links (rg_uid (w_reg w))).
    rewrite Hm. cbn [mbind option_bind ln_next]. rewrite zlen_cons in Hlen. zlen_pos.
    assert (Hhit : (if negb (re_dead f =? 0) then Some false else Some (bool_decide (re_uid f = u))) =
      Some (counted u (w_entries w) x)).
    { unfold counted. rewrite Hxf. by destruct (re_dead f =? 0). }
    rewrite Hhit. cbn [mbind option_bind]. rewrite filter_cons.
    assert (Hin' : forall q, q ∈ l -> is_Some (w_entries w !! q)) by (intros q Hq; apply Hin; by right).
    destruct (counted u (w_entries w) x); cbn.
    + rewrite u64_small by lia. rewrite decide_True by done.
      destruct (IH (NextOf x) next fuel (n + 1) (count_probe w) Hok Hl ltac:(cbn in Hf; lia) Hin' ltac:(lia) ltac:(lia)) as (w'&->&Hp).
      exists w'. split; [|by eapply probed_trans; [apply probed_count|]]. rewrite zlen_cons. do 2 f_equal.
      change (w_entries (count_probe w)) with (w_entries w). lia.
    + rewrite decide_False by done.
      destruct (IH (NextOf x) next fuel n (count_probe w) Hok Hl ltac:(cbn in Hf; lia) Hin' ltac:(lia) ltac:(lia)) as (w'&->&Hp).
      exists w'. split; [done|by eapply probed_trans; [apply probed_count|]].
Qed.

(** The live sessions of a user. *)
Definition live_of (F : gset Z) w (u : bytes) : gset Z :=
  dom (filter (fun x => re_dead x.2 = 0 /\ re_uid x.2 = u) (w_entries w)) ∖ F.

Lemma elem_of_live F w u p : p ∈ live_of F w u <-> exists f, w_entries w !! p = Some f /\ re_dead f = 0 /\ re_uid f = u /\ (p ∉ F).
Proof.
  unfold live_of. rewrite elem_of_difference, elem_of_dom. split.
  - intros [[f (Hf&Hd&Hu)%map_lookup_filter_Some] HF]. by exists f.
  - intros (f&Hf&Hd&Hu&HF). split; [|done]. exists f. by apply map_lookup_filter_Some.
Qed.

Lemma count_for_uid_spec F d w u : inv F d w -> good_uid u ->
  exists w', cloak_server_registry_count_for_uid (Some u) w = Some (Z.of_nat (size (live_of F w u)), w') /\ probed w w'.
Proof.
  intros Hinv Hu. pose proof Hinv as ((_&Huid&_)&Hcnt&_&Htab&_). unfold cloak_server_registry_count_for_uid.
  destruct (uid_bucket_total F w u Htab Hu) as (b&Hb&Hr).
  change (registry_uid_bucket (w_reg (count_call w)) u) with (registry_uid_bucket (w_reg w) u). rewrite Hb.
  cbn [mbind option_bind]. destruct (chain_ok_bucket _ _ _ _ _ b Huid ltac:(lia)) as (p&l&Hp&Hl&Hsz&Hnd&Hiff).
  change (rg_uid (w_reg (count_call w))) with (rg_uid (w_reg w)). rewrite Hp. cbn [mbind option_bind].
  assert (Hsub : (list_to_set l : gset Z) ⊆ dom (w_entries w) ∖ F).
  { intros q (g&Hg&HF&_)%elem_of_list_to_set%Hiff. apply elem_of_difference. split; [by eapply elem_of_dom_2|done]. }
  apply subseteq_size in Hsub. rewrite size_list_to_set in Hsub by done.
  destruct (count_uid_loop_spec (size (w_entries w)) u (HeadOf b) p l 0 (count_call w) Hu) as (w'&Hc&Hpr); try done.
  { intros q f Hq. by apply (inv_shape F d w q f). }
  { intros q (g&Hg&_)%Hiff. by exists g. }
  { destruct Hcnt as (Hn&Hmax&_). change CLOAK_REGISTRY_MAX_SESSIONS with 1024 in Hmax. unfold zlen. lia. }
  exists w'. change (w_entries (count_call w)) with (w_entries w) in Hc. split; [|by eapply probed_trans; [apply probed_call|]].
  change (w_entries (count_call w)) with (w_entries w). rewrite Hc. do 2 f_equal. unfold zlen. rewrite Z.add_0_l. f_equal.
  rewrite <- (size_list_to_set (C := gset Z)) by (by apply NoDup_filter). f_equal. apply set_eq. intros q.
  rewrite elem_of_list_to_set, list_elem_of_filter, elem_of_live, Hiff. unfold counted. split.
  - intros [Hcq (g&Hg&HF&_)]. rewrite Hg in Hcq. apply andb_true_iff in Hcq as [Hd Hcu]. exists g. split; [done|].
    split; [by apply Z.eqb_eq|]. split; [by apply bool_decide_eq_true in Hcu|done].
  - intros (f&Hf&Hd&Huu&HF). rewrite Hf, Hd, bool_decide_eq_true_2 by done. split; [done|]. exists f.
    split; [done|]. split; [done|]. unfold uid_bucket. by rewrite Huu.
Qed.

(** ** Linking and unlinking *)

(** Only chains and counters differ. *)
Definition relinked w w' : Prop :=
  exists k u dd ne nd, w' = set_reg w (with_chains (w_reg w) k u dd ne nd).

Lemma not_in_more (p q : Z) (F : gset Z) : (q ∉ {[p]} ∪ F) <-> (q ∉ F) /\ q <> p.
Proof. rewrite elem_of_union, elem_of_singleton. tauto. Qed.

Lemma dead_without F es p f : es !! p = Some f -> re_dead f = 0 -> dead_set es ∖ ({[p]} ∪ F) = dead_set es ∖ F.
Proof.
  intros Hp Hd. apply set_eq. intros q. rewrite !elem_of_difference, not_in_more. split; [tauto|]. intros [Hq HF].
  split; [done|]. split; [done|]. intros ->. apply elem_of_dead in Hq as (g&Hg&Hgd). rewrite Hp in Hg. by injection Hg as <-.
Qed.

Lemma unique_more F w p : unique_live F w -> unique_live ({[p]} ∪ F) w.
Proof. intros H x y f g Hx Hy HxF HyF. apply not_in_more in HxF, HyF. exact (H x y f g Hx Hy (proj1 HxF) (proj1 HyF)). Qed.

(** The dead chain and its counter, when an entry leaves the table. *)
Lemma dead_leave F w p f :
  chain_ok (rg_dead (w_reg w)) 1 (fun _ => Some 0) (w_entries w) (fun q g => (q ∉ F) /\ re_dead g <> 0) ->
  rg_n_dead (w_reg w) = Z.of_nat (size (dead_set (w_entries w) ∖ F)) -> rg_n_dead (w_reg w) <= CLOAK_REGISTRY_MAX_SESSIONS ->
  w_entries w !! p = Some f -> p ∉ F ->
  exists h nd, (if negb (re_dead f =? 0) then w0 ← dead_chain_del w p;
                  Some (set_counts w0 (rg_n_entries (w_reg w0)) (u64 (rg_n_dead (w_reg w0) - 1))) else Some w) =
    Some (set_reg w (with_chains (w_reg w) (rg_key (w_reg w)) (rg_uid (w_reg w)) h (rg_n_entries (w_reg w)) nd)) /\
    chain_ok h 1 (fun _ => Some 0) (w_entries w) (fun q g => (q ∉ {[p]} ∪ F) /\ re_dead g <> 0) /\
    nd = Z.of_nat (size (dead_set (w_entries w) ∖ ({[p]} ∪ F))) /\ (nd <> 0 -> rg_n_dead (w_reg w) <> 0).
Proof.
  intros Hc Hn Hmax Hp HpF. change CLOAK_REGISTRY_MAX_SESSIONS with 1024 in Hmax.
  destruct (Z.eqb_spec (re_dead f) 0) as [Hd|Hd]; cbn [negb].
  - exists (rg_dead (w_reg w)), (rg_n_dead (w_reg w)). split; [by destruct w as [g ? ? ? ? ? ?], g|]. split.
    + eapply chain_ok_member; [exact Hc|]. intros q g Hq. rewrite not_in_more. split; [tauto|]. intros [HF Hg]. split; [|done].
      split; [done|]. intros ->. rewrite Hp in Hq. by injection Hq as <-.
    + split; [|done]. by erewrite dead_without.
  - destruct (chain_ok_del _ _ _ _ _ (fun q g => (q ∉ {[p]} ∪ F) /\ re_dead g <> 0) p f Hc Hp) as (h&Hh&Hc').
    { intros q g Hq. rewrite not_in_more. tauto. }
    assert (Hpd : p ∈ dead_set (w_entries w)) by (apply elem_of_dead; by exists f).
    pose proof (size_without _ _ _ Hpd HpF) as Hs. unfold dead_chain_del. rewrite Hh. cbn [mbind option_bind].
    exists h, (u64 (rg_n_dead (w_reg w) - 1)). split; [done|]. split; [exact Hc'|]. rewrite u64_small by lia. split; lia.
Qed.

Lemma n_dead_le F w : counts_ok F w -> rg_n_dead (w_reg w) <= CLOAK_REGISTRY_MAX_SESSIONS.
Proof.
  intros (Hn&Hmax&->). assert (Hsub : dead_set (w_entries w) ∖ F ⊆ dom (w_entries w) ∖ F).
  { intros q [Hq HF]%elem_of_difference. apply elem_of_dead in Hq as (f&Hf&_). apply elem_of_difference. split; [by eapply elem_of_dom_2|done]. }
  apply subseteq_size in Hsub. lia.
Qed.

Lemma unlink_spec F d w p f : inv F d w -> w_entries w !! p = Some f -> p ∉ F ->
  exists w', registry_entry_unlink w p = Some w' /\ relinked w w' /\ inv ({[p]} ∪ F) d w'.
Proof.
  intros ((Hk&Hu&Hd)&Hcnt&Huniq&(HF&Hnext&Hsh&Hhash)&Hout&Hdue) Hp HpF.
  pose proof (n_dead_le _ _ Hcnt) as Hnd. destruct Hcnt as (Hn&Hmax&Hdn). change CLOAK_REGISTRY_MAX_SESSIONS with 1024 in *.
  assert (Hleave : forall q g, w_entries w !! q = Some g -> (q ∉ {[p]} ∪ F) <-> (q ∉ F) /\ q <> p) by (intros; apply not_in_more).
  destruct (chain_ok_del _ _ _ _ _ (fun q _ => q ∉ {[p]} ∪ F) p f Hk Hp Hleave) as (hk&Ek&Hk').
  destruct (chain_ok_del _ _ _ _ _ (fun q _ => q ∉ {[p]} ∪ F) p f Hu Hp Hleave) as (hu&Eu&Hu').
  unfold registry_entry_unlink, key_chain_del. rewrite Ek. cbn [mbind option_bind]. unfold uid_chain_del.
  cbn [w_reg set_reg rg_uid with_chains]. rewrite Eu. cbn [mbind option_bind]. cbn [w_entries set_reg]. rewrite Hp. cbn [mbind option_bind].
  set (w2 := set_reg _ _).
  destruct (dead_leave F w2 p f) as (hd&nd&E&Hd'&Hnd'&Hnz); [exact Hd|exact Hdn|exact Hnd|exact Hp|exact HpF|].
  rewrite E. cbn [mbind option_bind]. eexists. split; [done|]. split; [by eexists _, _, _, _, _|].
  assert (Hpdom : p ∈ dom (w_entries w)) by (by eapply elem_of_dom_2).
  pose proof (size_without _ _ _ Hpdom HpF) as Hs. change CLOAK_REGISTRY_MAX_SESSIONS with 1024 in *.
  split; [|split; [|split; [|split; [|split]]]].
  - split; [exact Hk'|]. split; [exact Hu'|exact Hd'].
  - split; [|split; [|exact Hnd']].
    + change (u64 (rg_n_entries (w_reg w) - 1) = Z.of_nat (size (dom (w_entries w) ∖ ({[p]} ∪ F)))). rewrite u64_small by lia. lia.
    + change (u64 (rg_n_entries (w_reg w) - 1) <= 1024). rewrite u64_small by lia. lia.
  - by apply unique_more.
  - split; [|done]. apply union_subseteq. split; [|exact HF]. by apply singleton_subseteq_l.
  - exact Hout.
  - intros Hdd Hdest Hne. apply (Hdue Hdd Hdest). by apply Hnz.
Qed.

(** ** Memory *)

Lemma dead_delete F es p : p ∈ F -> dead_set (delete p es) ∖ (F ∖ {[p]}) = dead_set es ∖ F.
Proof.
  intros HpF. apply set_eq. intros q. rewrite !elem_of_difference, elem_of_singleton, !elem_of_dead. split.
  - intros [(f&[Hne Hf]%lookup_delete_Some&Hd) HF]. split; [by exists f|]. intros Hq. apply HF. by split.
  - intros [(f&Hf&Hd) HF]. split; [|tauto]. exists f. split; [|done]. apply lookup_delete_Some. split; [|done]. by intros ->.
Qed.

Lemma dom_delete_off F (es : gmap Z reg_entry) p : p ∈ F -> dom (delete p es) ∖ (F ∖ {[p]}) = dom es ∖ F.
Proof.
  intros HpF. apply set_eq. intros q. rewrite dom_delete_L, !elem_of_difference, elem_of_singleton.
  split; [|intros [? HF]; split; [split; [done|by intros ->]|tauto]]. intros [[Hq Hne] HF]. split; [done|]. intros ?. by apply HF.
Qed.

(** The table without an entry that is off its chains; the sessions and the
    event loop of the result are those given. *)
Lemma free_memory_spec F d w r s p f :
  inv F d w -> w_entries w !! p = Some f -> p ∈ F ->
  reactor_ok r -> s_ok r s -> s_alive s = dom (w_entries w) ∖ {[p]} -> apart (w_reactor w) (w_sessions w) r s ->
  exists w', free_memory (set_outside w r s) p = Some w' /\ inv (F ∖ {[p]}) d w' /\
    w_entries w' = delete p (w_entries w) /\ w_reactor w' = r /\ w_sessions w' = s /\ w_next w' = w_next w /\ w_app w' = w_app w /\
    w_mem w' = w_mem w /\
    exists k u dd, w_reg w' = with_chains (w_reg w) k u dd (rg_n_entries (w_reg w)) (rg_n_dead (w_reg w)).
Proof.
  intros ((Hk&Hu&Hd)&(Hn&Hmax&Hdn)&Huniq&(HF&Hnext&Hsh&Hhash)&(_&_&Hal&Hsw)&Hdue) Hp HpF Hr Hs Hal' Hap.
  unfold free_memory. cbn [w_entries set_outside]. rewrite Hp. cbn [mbind option_bind]. eexists. split; [done|].
  split; [|split_and!; try done; by eexists _, _, _].
  assert (Hm : forall q g, w_entries w !! q = Some g -> q <> p -> (q ∉ F ∖ {[p]}) <-> (q ∉ F)).
  { intros q g _ Hne. rewrite elem_of_difference, elem_of_singleton. tauto. }
  split; [|split; [|split; [|split; [|split]]]].
  - split; [|split].
    + eapply (chain_ok_forget _ _ _ _ _ (fun q _ => q ∉ F ∖ {[p]}) p f Hk Hp); [tauto|exact Hm].
    + eapply (chain_ok_forget _ _ _ _ _ (fun q _ => q ∉ F ∖ {[p]}) p f Hu Hp); [tauto|exact Hm].
    + eapply (chain_ok_forget _ _ _ _ _ (fun q g => (q ∉ F ∖ {[p]}) /\ re_dead g <> 0) p f Hd Hp); [tauto|].
      intros q g Hg Hne. rewrite (Hm q g Hg Hne). done.
  - split; [|split; [exact Hmax|]]; cbn.
    + rewrite dom_delete_off by done. exact Hn.
    + rewrite dead_delete by done. exact Hdn.
  - intros x y f1 f2 Hx Hy HxF HyF. cbn in Hx, Hy. apply lookup_delete_Some in Hx as [Hxp Hx], Hy as [Hyp Hy].
    rewrite (Hm x f1 Hx) in HxF by done. rewrite (Hm y f2 Hy) in HyF by done. by apply Huniq.
  - split; [|split; [exact Hnext|split; [|exact Hhash]]]; cbn.
    + rewrite dom_delete_L. intros q [Hq Hne]%elem_of_difference. apply elem_of_difference. split; [by apply HF|done].
    + intros q g (_&Hq)%lookup_delete_Some. by apply Hsh.
  - split; [exact Hr|]. split; [exact Hs|]. split; [cbn; by rewrite dom_delete_L|]. intros Hne. by apply Hap; apply (Hsw Hne).
  - exact Hdue.
Qed.

(** What leaving the table costs outside: one session, and nothing of others. *)
Definition session_freed w w' (p : Z) : Prop :=
  w_entries w' = delete p (w_entries w) /\ w_next w' = w_next w /\ w_app w' = w_app w /\ w_mem w' = w_mem w /\
  s_alive (w_sessions w') = s_alive (w_sessions w) ∖ {[p]} /\
  apart (w_reactor w) (w_sessions w) (w_reactor w') (w_sessions w') /\
  exists k u dd ne nd, w_reg w' = with_chains (w_reg w) k u dd ne nd.

Lemma free_entry_spec F d w p f :
  inv F d w -> w_entries w !! p = Some f -> p ∈ F ->
  exists w', registry_free_entry w p = Some w' /\ inv (F ∖ {[p]}) d w' /\ session_freed w w' p.
Proof.
  intros Hinv Hp HpF. pose proof Hinv as (_&_&_&_&(Hr&Hs&Hal&_)&_). unfold registry_free_entry. rewrite Hp. cbn [mbind option_bind].
  destruct (s_destroy_law p (w_reactor w) (w_sessions w) Hr Hs) as (r'&s'&->&Hr'&Hs'&Hal'&Hap).
  { rewrite Hal. by eapply elem_of_dom_2. }
  cbn [mbind option_bind].
  destruct (free_memory_spec F d w r' s' p f Hinv Hp HpF Hr' Hs') as (w'&->&Hinv'&He&Hre&Hse&Hnx&Happ&Hmm&k&u&dd&Hg); [by rewrite Hal', Hal|done|].
  exists w'. split; [done|]. split; [done|]. rewrite <- Hse in Hal', Hap. rewrite <- Hre in Hap. split_and!; try done. by eexists _, _, _, _, _.
Qed.

(** Unlinking and freeing: the entry and its session are gone. *)
Lemma remove_spec F d w p f : inv F d w -> w_entries w !! p = Some f -> p ∉ F ->
  exists w1 w', registry_entry_unlink w p = Some w1 /\ registry_free_entry w1 p = Some w' /\ inv F d w' /\ session_freed w w' p.
Proof.
  intros Hinv Hp HpF. destruct (unlink_spec F d w p f Hinv Hp HpF) as (w1&Hun&(k&u&dd&ne&nd&->)&Hinv1).
  destruct (free_entry_spec _ d _ p f Hinv1 Hp) as (w'&Hfr&Hinv'&Hfreed); [apply elem_of_union; left; by apply elem_of_singleton|].
  eexists _, w'. split; [exact Hun|]. split; [exact Hfr|]. split.
  - replace F with (({[p]} ∪ F) ∖ {[p]}); [done|]. apply set_eq. intros q.
    rewrite elem_of_difference, elem_of_union, elem_of_singleton. split; [tauto|]. intros Hq. split; [by right|]. by intros ->.
  - destruct Hfreed as (He&Hnx&Ha&Hmm&Hal&Hap&k'&u'&d'&ne'&nd'&Hg). split_and!; try done. exists k', u', d', ne', nd'. exact Hg.
Qed.

(** ** A new entry *)

Lemma dom_new F (es : gmap Z reg_entry) p f : p ∉ dom es -> dom (<[p := f]> es) ∖ ({[p]} ∪ F) = dom es ∖ F.
Proof.
  intros Hp. apply set_eq. intros q. rewrite dom_insert_L, !elem_of_difference, !elem_of_union, elem_of_singleton.
  split; [tauto|]. intros [Hq HF]. split; [by right|]. intros [->|?]; [by apply Hp|by apply HF].
Qed.

Lemma dead_new F (es : gmap Z reg_entry) p f : p ∉ dom es -> dead_set (<[p := f]> es) ∖ ({[p]} ∪ F) = dead_set es ∖ F.
Proof.
  intros Hp. apply set_eq. intros q. rewrite !elem_of_difference, not_in_more, !elem_of_dead. split.
  - intros [(g&Hg&Hd) [HF Hne]]. rewrite lookup_insert_ne in Hg by done. split; [by exists g|done].
  - intros [(g&Hg&Hd) HF]. assert (Hne : q <> p) by (intros ->; apply Hp; by eapply elem_of_dom_2).
    split; [exists g; by rewrite lookup_insert_ne|done].
Qed.

Lemma inv_next F d w : inv F d w -> w_entries w !! w_next w = None.
Proof.
  intros Hinv. apply eq_None_not_Some. intros [f Hf]. pose proof (inv_shape _ _ _ _ _ Hinv Hf). lia.
Qed.

(** The entry is there, on no chain, with its session. *)
Lemma alloc_inv F d w f r s :
  inv F d w -> entry_ok f -> reactor_ok r -> s_ok r s -> s_alive s = {[w_next w]} ∪ dom (w_entries w) ->
  apart (w_reactor w) (w_sessions w) r s ->
  inv ({[w_next w]} ∪ F) d (set_outside (alloc_entry w f).2 r s).
Proof.
  intros Hinv Hf Hr Hs Hal' Hap. pose proof (inv_next _ _ _ Hinv) as Hnew.
  assert (Hnd : w_next w ∉ dom (w_entries w)) by (by apply not_elem_of_dom).
  destruct Hinv as ((Hk&Hu&Hd)&(Hn&Hmax&Hdn)&Huniq&(HF&Hnext&Hsh&Hhash)&(_&_&Hal&Hsw)&Hdue).
  assert (Hm : forall q g, w_entries w !! q = Some g -> (q ∉ {[w_next w]} ∪ F) <-> (q ∉ F)).
  { intros q g Hg. rewrite not_in_more. split; [tauto|]. intros ?. split; [done|]. intros ->. congruence. }
  assert (Hself : ~ (w_next w ∉ {[w_next w]} ∪ F)) by (rewrite not_in_more; tauto).
  split; [|split; [|split; [|split; [|split]]]].
  - split; [|split].
    + exact (chain_ok_fresh _ _ _ _ _ (fun q _ => q ∉ {[w_next w]} ∪ F) _ f Hk Hnew Hself Hm).
    + exact (chain_ok_fresh _ _ _ _ _ (fun q _ => q ∉ {[w_next w]} ∪ F) _ f Hu Hnew Hself Hm).
    + apply (chain_ok_fresh _ _ _ _ _ (fun q g => (q ∉ {[w_next w]} ∪ F) /\ re_dead g <> 0) _ f Hd Hnew); [tauto|].
      intros q g Hg. rewrite (Hm q g Hg). done.
  - split; [|split; [exact Hmax|]]; cbn.
    + rewrite dom_new by done. exact Hn.
    + rewrite dead_new by done. exact Hdn.
  - intros x y f1 f2 Hx Hy HxF HyF. apply not_in_more in HxF as [HxF Hxp], HyF as [HyF Hyp]. cbn in Hx, Hy.
    rewrite lookup_insert_ne in Hx, Hy by done. by apply Huniq.
  - split; [|split; [cbn; lia|split; [|exact Hhash]]]; cbn.
    + rewrite dom_insert_L. by apply union_mono_l.
    + intros q g Hq. destruct (decide (q = w_next w)) as [->|Hne].
      * rewrite lookup_insert_eq in Hq. injection Hq as <-. split; [lia|done].
      * rewrite lookup_insert_ne in Hq by done. destruct (Hsh q g Hq). split; [lia|done].
  - split; [exact Hr|]. split; [exact Hs|]. split; [cbn; by rewrite dom_insert_L|]. intros Hne. by apply Hap; apply (Hsw Hne).
  - exact Hdue.
Qed.

(** [free] right after [malloc]: the address is used up, nothing else changed. *)
Lemma alloc_free_inv F d w f r s :
  inv F d w -> reactor_ok r -> s_ok r s -> s_alive s = s_alive (w_sessions w) -> apart (w_reactor w) (w_sessions w) r s ->
  exists w', free_memory (set_outside (alloc_entry w f).2 r s) (w_next w) = Some w' /\ inv F d w' /\
    w' = set_entries (set_outside w r s) (w_entries w) (w_next w + 1).
Proof.
  intros Hinv Hr Hs Hal' Hap. pose proof (inv_next _ _ _ Hinv) as Hnew.
  destruct Hinv as ((Hk&Hu&Hd)&Hcnt&Huniq&(HF&Hnext&Hsh&Hhash)&(_&_&Hal&Hsw)&Hdue).
  assert (Hlinks : forall h n b m, chain_ok h n b (w_entries w) m -> forget (fresh h (w_next w)) (w_next w) = h).
  { intros [heads m] n b mm (ls&_&_&Hdom&_). unfold forget, fresh. cbn in *. f_equal. apply delete_insert_id.
    apply not_elem_of_dom. rewrite Hdom. by apply not_elem_of_dom. }
  unfold free_memory, alloc_entry. cbn [w_entries set_outside set_entries snd]. rewrite lookup_insert_eq. cbn [mbind option_bind].
  eexists. split; [done|]. assert (Hw : forall w0, w0 = set_entries (set_outside w r s) (w_entries w) (w_next w + 1) -> inv F d w0).
  { intros ? ->. split; [split; [exact Hk|split; [exact Hu|exact Hd]]|]. split; [exact Hcnt|]. split; [exact Huniq|].
    split; [|split; [|exact Hdue]].
    - split; [exact HF|]. split; [cbn; lia|]. split; [|exact Hhash]. intros q g Hq. destruct (Hsh q g Hq). cbn. split; [lia|done].
    - split; [exact Hr|]. split; [exact Hs|]. split; [cbn; by rewrite Hal', Hal|]. intros Hne. by apply Hap; apply (Hsw Hne). }
  split; [apply Hw|]; cbn -[forget fresh]; rewrite (Hlinks _ _ _ _ Hk), (Hlinks _ _ _ _ Hu), (Hlinks _ _ _ _ Hd), delete_insert_id by done;
    by destruct w as [g ? ? ? ? ? ?], g.
Qed.

(** Putting it on the chains. *)
Lemma link_spec F d w p f :
  inv F d w -> w_entries w !! p = Some f -> p ∈ F -> re_dead f = 0 -> rg_n_entries (w_reg w) < CLOAK_REGISTRY_MAX_SESSIONS ->
  (forall q, ~ live_at F w (re_uid f) (re_session_id f) q) ->
  exists w', registry_entry_link w p = Some w' /\ relinked w w' /\ inv (F ∖ {[p]}) d w'.
Proof.
  intros Hinv Hp HpF Hd0 Hmax' Hnone. pose proof (inv_shape _ _ _ _ _ Hinv Hp) as [Hp0 Hf].
  destruct Hinv as ((Hk&Hu&Hd)&(Hn&Hmax&Hdn)&Huniq&Htab&Hout&Hdue).
  destruct (key_bucket_total F w (re_uid f) (re_session_id f) Htab (proj1 Hf)) as (bk&Hbk&Hrk).
  destruct (uid_bucket_total F w (re_uid f) Htab (proj1 Hf)) as (bu&Hbu&Hru).
  assert (Hm : forall q g, w_entries w !! q = Some g -> (q ∉ F ∖ {[p]}) <-> (q ∉ F) \/ q = p).
  { intros q g _. rewrite elem_of_difference, elem_of_singleton. destruct (decide (q = p)); [tauto|]. 
    destruct (decide (q ∈ F)); tauto. }
  assert (Hno : ~ (p ∉ F)) by tauto.
  destruct (chain_ok_add _ _ _ _ _ (fun q _ => q ∉ F ∖ {[p]}) p f bk Hk Hp Hno Hbk ltac:(lia) ltac:(lia) Hm) as (hk&Ek&Hk').
  destruct (chain_ok_add _ _ _ _ _ (fun q _ => q ∉ F ∖ {[p]}) p f bu Hu Hp Hno Hbu ltac:(lia) ltac:(lia) Hm) as (hu&Eu&Hu').
  unfold registry_entry_link, key_chain_add. rewrite Hp. cbn [mbind option_bind]. rewrite Hbk. cbn [mbind option_bind].
  rewrite Ek. cbn [mbind option_bind]. unfold uid_chain_add. cbn [w_entries set_reg w_reg]. rewrite Hp. cbn [mbind option_bind].
  match goal with |- context [registry_uid_bucket ?g _] => change (registry_uid_bucket g (re_uid f)) with (registry_uid_bucket (w_reg w) (re_uid f)) end.
  rewrite Hbu. cbn [mbind option_bind rg_uid with_chains]. rewrite Eu. cbn [mbind option_bind].
  eexists. split; [done|]. split; [by eexists _, _, _, _, _|].
  assert (Hpd : p ∈ dom (w_entries w)) by (by eapply elem_of_dom_2).
  assert (Hs : size (dom (w_entries w) ∖ (F ∖ {[p]})) = S (size (dom (w_entries w) ∖ F))).
  { rewrite (size_without _ (F ∖ {[p]}) p Hpd) by (rewrite elem_of_difference, elem_of_singleton; tauto). do 2 f_equal.
    apply set_eq. intros q. rewrite !elem_of_difference, elem_of_union, elem_of_difference, elem_of_singleton.
    destruct (decide (q = p)) as [->|]; tauto. }
  assert (Hdd : dead_set (w_entries w) ∖ (F ∖ {[p]}) = dead_set (w_entries w) ∖ F).
  { apply set_eq. intros q. rewrite !elem_of_difference, elem_of_singleton. split; [|tauto]. intros [Hq HF]. split; [done|].
    intros HqF. apply HF. split; [done|]. intros ->. apply elem_of_dead in Hq as (g&Hg&Hgd). rewrite Hp in Hg. by injection Hg as <-. }
  change CLOAK_REGISTRY_MAX_SESSIONS with 1024 in *.
  assert (H64 : u64 (rg_n_entries (w_reg w) + 1) = rg_n_entries (w_reg w) + 1) by (apply u64_small; lia).
  split; [|split; [|split; [|split; [|split]]]].
  - split; [exact Hk'|]. split; [exact Hu'|]. eapply chain_ok_member; [exact Hd|]. intros q g Hg.
    change (w_entries w !! q = Some g) in Hg. rewrite (Hm q g Hg). split; [|tauto]. intros [[?| ->] Hgd]; [done|]. rewrite Hp in Hg. by injection Hg as <-.
  - split; [|split]; [change (u64 (rg_n_entries (w_reg w) + 1) = Z.of_nat (size (dom (w_entries w) ∖ (F ∖ {[p]})))); lia
      |change (u64 (rg_n_entries (w_reg w) + 1) <= 1024); lia|].
    change (rg_n_dead (w_reg w) = Z.of_nat (size (dead_set (w_entries w) ∖ (F ∖ {[p]})))). rewrite Hdd. exact Hdn.
  - assert (Hlive : forall q g, w_entries w !! q = Some g -> q ∉ F -> re_dead g = 0 -> re_uid g = re_uid f ->
      re_session_id g = re_session_id f -> False).
    { intros q g Hq HqF Hgd Hgu Hgs. apply (Hnone q). split; [done|]. rewrite Hq. f_equal. destruct g. cbn in *. congruence. }
    intros x y f1 f2 Hx Hy HxF HyF Hd1 Hd2 Hu12 Hs12. apply (Hm x f1 Hx) in HxF. apply (Hm y f2 Hy) in HyF.
    change (w_entries w !! x = Some f1) in Hx. change (w_entries w !! y = Some f2) in Hy.
    destruct HxF as [HxF| ->], HyF as [HyF| ->]; try done; [by apply (Huniq x y f1 f2)| |].
    + rewrite Hp in Hy. injection Hy as <-. exfalso. by apply (Hlive x f1).
    + rewrite Hp in Hx. injection Hx as <-. exfalso. by apply (Hlive y f2).
  - destruct Htab as (HF&?). split; [|done]. intros q Hq. apply elem_of_difference in Hq as [Hq _]. by apply HF.
  - exact Hout.
  - exact Hdue.
Qed.
End steps.
