(* ===== verification/RegistryRun.v ===== *)
(** * The functions of the registry

    What the sweep, the callback of a broken session and every function of
    registry.h do to the table, from the parts of [RegistrySteps].  The owner's
    callbacks keep the invariant and nothing else is known of them. *)
From stdpp Require Import gmap.
From S2P Require Import Prelude Fallible Random SipHash ReactorApi ClientAuth Session Hlist Registry RegistryInv RegistrySteps.

Section run.
Context {R T A : Type} {RR : Reactor R} {RL : ReactorLaws R} {SS : Sessions R T} {SL : SessionsLaws R T}.
#[local] Abbreviation world := (reg_world R T A).
Implicit Types w : world.

(** ** Dying *)

Definition died (f : reg_entry) : reg_entry := RegEntry (re_uid f) (re_session_id f) 1.

Lemma mark_dead_spec F d w p f : inv F d w -> w_entries w !! p = Some f -> p ∉ F -> re_dead f = 0 ->
  exists w', registry_mark_dead w p = Some w' /\ inv F true w' /\ w_entries w' = <[p := died f]> (w_entries w) /\
    relinked (set_entries w (<[p := died f]> (w_entries w)) (w_next w)) w'.
Proof.
  intros Hinv Hp HpF Hd0. pose proof (inv_shape _ _ _ _ _ Hinv Hp) as [Hp0 Hf].
  destruct Hinv as ((Hk&Hu&Hd)&Hcnt&Huniq&(HF&Hnext&Hsh&Hhash)&(Hr&Hs&Hal&Hsw)&Hdue).
  pose proof (n_dead_le F w Hcnt) as _. destruct Hcnt as (Hn&Hmax&Hdn). change CLOAK_REGISTRY_MAX_SESSIONS with 1024 in *.
  assert (Hkey : chain_ok (rg_key (w_reg w)) 2048 (key_bucket (w_reg w)) (<[p := died f]> (w_entries w)) (fun q _ => q ∉ F))
    by (by eapply (chain_ok_update _ _ _ _ _ _ p f (died f) Hk Hp)).
  assert (Huid : chain_ok (rg_uid (w_reg w)) 1024 (uid_bucket (w_reg w)) (<[p := died f]> (w_entries w)) (fun q _ => q ∉ F))
    by (by eapply (chain_ok_update _ _ _ _ _ _ p f (died f) Hu Hp)).
  assert (Hd1 : chain_ok (rg_dead (w_reg w)) 1 (fun _ => Some 0) (<[p := died f]> (w_entries w))
                  (fun q g => ((q ∉ F) /\ re_dead g <> 0) /\ q <> p)).
  { eapply (chain_ok_update _ _ _ _ _ _ p f (died f) Hd Hp); [done|split; [intros [_ Hne]; done|intros [_ Hne]; done]|]. intros q g Hne. tauto. }
  destruct (chain_ok_add _ _ _ _ _ (fun q g => (q ∉ F) /\ re_dead g <> 0) p (died f) 0 Hd1) as (hd&Ed&Hd2);
    [apply lookup_insert_eq|tauto|done|lia|lia| |].
  { intros q g Hg. destruct (decide (q = p)) as [->|]; [|tauto]. rewrite lookup_insert_eq in Hg. injection Hg as <-. cbn. split; [by right|by split]. }
  assert (Hds : dead_set (<[p := died f]> (w_entries w)) ∖ F = {[p]} ∪ dead_set (w_entries w) ∖ F).
  { apply set_eq. intros q. rewrite elem_of_union, elem_of_singleton, !elem_of_difference, !elem_of_dead. split.
    - intros [(g&Hg&Hgd) HqF]. destruct (decide (q = p)) as [->|Hne]; [by left|]. right. rewrite lookup_insert_ne in Hg by done.
      split; [by exists g|done].
    - intros [->|[(g&Hg&Hgd) HqF]]; [split; [exists (died f); rewrite lookup_insert_eq; done|done]|]. split; [|done].
      destruct (decide (q = p)) as [->|Hne]; [exists (died f); by rewrite lookup_insert_eq|exists g; by rewrite lookup_insert_ne]. }
  assert (Hnew : p ∉ dead_set (w_entries w) ∖ F).
  { rewrite elem_of_difference, elem_of_dead. intros [(g&Hg&Hgd) _]. rewrite Hp in Hg. by injection Hg as <-. }
  assert (Hsz : size (dead_set (<[p := died f]> (w_entries w)) ∖ F) = S (size (dead_set (w_entries w) ∖ F))).
  { rewrite Hds, size_union by (intros q ->%elem_of_singleton; done). by rewrite size_singleton. }
  assert (Hdom : dom (<[p := died f]> (w_entries w)) = dom (w_entries w)) by (apply dom_insert_lookup_L; by exists f).
  assert (Hle : (size (dead_set (<[p := died f]> (w_entries w)) ∖ F) <= size (dom (w_entries w) ∖ F))%nat).
  { apply subseteq_size. intros q [(g&Hg&_)%elem_of_dead HqF]%elem_of_difference. apply elem_of_difference.
    split; [rewrite <- Hdom; by eapply elem_of_dom_2|done]. }
  unfold registry_mark_dead. rewrite Hp. cbn [mbind option_bind]. unfold dead_chain_add. cbn [w_reg set_entries].
  rewrite Ed. cbn [mbind option_bind]. eexists. split; [done|]. split; [|split; [done|by eexists _, _, _, _, _]].
  assert (H64 : u64 (rg_n_dead (w_reg w) + 1) = rg_n_dead (w_reg w) + 1) by (apply u64_small; lia).
  split; [|split; [|split; [|split; [|split]]]].
  - split; [exact Hkey|]. split; [exact Huid|exact Hd2].
  - split; [|split; [exact Hmax|]].
    { change (rg_n_entries (w_reg w) = Z.of_nat (size (dom (<[p := died f]> (w_entries w)) ∖ F))). by rewrite Hdom. }
    change (u64 (rg_n_dead (w_reg w) + 1) = Z.of_nat (size (dead_set (<[p := died f]> (w_entries w)) ∖ F))). lia.
  - intros x y f1 f2 Hx Hy HxF HyF Hd1' Hd2' Hu12 Hs12. cbn in Hx, Hy.
    assert (Hxp : x <> p) by (intros ->; rewrite lookup_insert_eq in Hx; by injection Hx as <-).
    assert (Hyp : y <> p) by (intros ->; rewrite lookup_insert_eq in Hy; by injection Hy as <-).
    rewrite lookup_insert_ne in Hx, Hy by done. by apply (Huniq x y f1 f2).
  - split; [change (F ⊆ dom (<[p := died f]> (w_entries w))); by rewrite Hdom|]. split; [exact Hnext|]. split; [|exact Hhash]. intros q g Hq. cbn in Hq.
    destruct (decide (q = p)) as [->|Hne]; [|rewrite lookup_insert_ne in Hq by done; by apply Hsh].
    rewrite lookup_insert_eq in Hq. injection Hq as <-. split; [done|]. destruct Hf as (?&?&_). split; [done|]. split; [done|]. by right.
  - split; [exact Hr|]. split; [exact Hs|]. split; [|exact Hsw].
    change (s_alive (w_sessions w) = dom (<[p := died f]> (w_entries w))). by rewrite Hdom.
  - done.
Qed.

(** ** Reaping *)

(** The entries of [X] are gone with their sessions, and nothing else is. *)
Definition reaped w w' (X : Z -> Prop) : Prop :=
  (forall p, w_entries w' !! p = None <-> w_entries w !! p = None \/ X p) /\
  (forall p f, w_entries w' !! p = Some f -> w_entries w !! p = Some f) /\
  w_next w' = w_next w /\ w_app w' = w_app w /\ w_mem w' = w_mem w /\
  apart (w_reactor w) (w_sessions w) (w_reactor w') (w_sessions w') /\
  exists k u dd ne nd, w_reg w' = with_chains (w_reg w) k u dd ne nd.

Lemma apart_refl (r : R) (s : T) : apart r s r s.
Proof. intros id Ha Hi. by split. Qed.

Lemma apart_trans (r1 r2 r3 : R) (s1 s2 s3 : T) : apart r1 s1 r2 s2 -> apart r2 s2 r3 s3 -> apart r1 s1 r3 s3.
Proof. intros H1 H2 id Ha Hi. destruct (H1 id Ha Hi). by apply H2. Qed.

Lemma reaped_refl w : reaped w w (fun _ => False).
Proof.
  split; [intros p; tauto|]. do 4 (split; [done|]). split; [apply apart_refl|].
  destruct w as [g ? ? ? ? ? ?], g. by eexists _, _, _, _, _.
Qed.

Lemma reaped_trans w1 w2 w3 X Y : reaped w1 w2 X -> reaped w2 w3 Y -> reaped w1 w3 (fun p => X p \/ Y p).
Proof.
  intros (A1&B1&C1&D1&E1&F1&k1&u1&d1&n1&m1&G1) (A2&B2&C2&D2&E2&F2&k2&u2&d2&n2&m2&G2).
  split; [intros p; rewrite A2, A1; tauto|]. split; [eauto|]. split; [congruence|]. split; [congruence|]. split; [congruence|].
  split; [by eapply apart_trans|]. rewrite G2, G1. by eexists _, _, _, _, _.
Qed.

Lemma reaped_iff w w' X Y : reaped w w' X -> (forall p, w_entries w !! p <> None -> X p <-> Y p) -> reaped w w' Y.
Proof.
  intros (HA&H) Heq. split; [|done]. intros p. rewrite HA. destruct (w_entries w !! p) eqn:E; [|tauto].
  rewrite <- Heq by congruence. done.
Qed.

Lemma freed_reaped w w' p : session_freed w w' p -> reaped w w' (eq p).
Proof.
  intros (He&Hnx&Ha&Hm&_&Hap&Hg). split; [|split; [|done]].
  - intros q. rewrite He, lookup_delete_None. tauto.
  - intros q f. rewrite He. by intros [_ ?]%lookup_delete_Some.
Qed.

(** The entries of [X] are gone, the others are as they were. *)
Definition without_entries w w' (X : Z -> Prop) : Prop :=
  (forall p, w_entries w' !! p = None <-> w_entries w !! p = None \/ X p) /\
  (forall p f, w_entries w' !! p = Some f -> w_entries w !! p = Some f).

Lemma without_iff w w' X Y : without_entries w w' X -> (forall p, w_entries w !! p <> None -> X p <-> Y p) -> without_entries w w' Y.
Proof.
  intros [HA HB] Heq. split; [|done]. intros p. rewrite HA. destruct (w_entries w !! p) eqn:E; [|tauto].
  rewrite <- Heq by congruence. done.
Qed.

Lemma without_none w w' X : w_entries w' = w_entries w -> (forall p, ~ X p) -> without_entries w w' X.
Proof. intros He Hno. split; rewrite He; [|done]. intros p. specialize (Hno p). tauto. Qed.

Lemma without_dom w w' X : without_entries w w' X -> dom (w_entries w') ⊆ dom (w_entries w).
Proof. intros [_ HB] p [f Hf]%elem_of_dom. apply elem_of_dom. exists f. by apply HB. Qed.

Lemma reaped_without w w' X : reaped w w' X -> without_entries w w' X.
Proof. by intros (HA&HB&_). Qed.

(** The flags and timers that reaping leaves alone. *)
Lemma reaped_reg w w' X : reaped w w' X ->
  rg_destroyed (w_reg w') = rg_destroyed (w_reg w) /\ rg_sweep_timer (w_reg w') = rg_sweep_timer (w_reg w) /\
  rg_on_broken (w_reg w') = rg_on_broken (w_reg w) /\ rg_hash_key (w_reg w') = rg_hash_key (w_reg w).
Proof. intros (_&_&_&_&_&_&k&u&d&n&m&->). done. Qed.

Lemma inv_n_dead F d w : inv F d w -> (forall p f, w_entries w !! p = Some f -> p ∉ F -> re_dead f = 0) -> rg_n_dead (w_reg w) = 0.
Proof.
  intros (_&(_&_&Hn)&_) H. rewrite Hn. change 0 with (Z.of_nat 0). apply (f_equal Z.of_nat), size_empty_iff. intros q. split; [|by intros ?%elem_of_empty].
  intros [(f&Hf&Hd)%elem_of_dead HqF]%elem_of_difference. by destruct Hd; apply (H q f).
Qed.

(** ** The sweep *)

Lemma size_removed w w' p f : w_entries w !! p = Some f -> session_freed w w' p -> size (w_entries w) = S (size (w_entries w')).
Proof.
  intros Hp (->&_). rewrite map_size_delete_Some by (by exists f).
  assert (size (w_entries w) <> 0%nat) by (intros E%map_size_empty_iff; by rewrite E in Hp). lia.
Qed.

(** The loops that unlink and free the first entry of a chain until there is
    none.  [m] says which entries a loop is after. *)
Definition marked (m : cloak_server_registry -> reg_entry -> Prop) (F : gset Z) w (p : Z) : Prop :=
  (p ∉ F) /\ exists f, w_entries w !! p = Some f /\ m (w_reg w) f.

Lemma drain_spec m (loop : nat -> world -> option world) :
  (forall g k u dd ne nd f, m (with_chains g k u dd ne nd) f <-> m g f) ->
  (forall fuel F d w, inv F d w -> (size (w_entries w) <= fuel)%nat ->
    (loop fuel w = Some w /\ forall p, ~ marked m F w p) \/
    (exists fuel' x, fuel = S fuel' /\ marked m F w x /\
      loop fuel w = (w ← registry_entry_unlink w x; w ← registry_free_entry w x; loop fuel' w))) ->
  forall fuel F d w, inv F d w -> (size (w_entries w) <= fuel)%nat ->
    exists w', loop fuel w = Some w' /\ inv F d w' /\ reaped w w' (marked m F w) /\ forall p, ~ marked m F w' p.
Proof.
  intros Hm Hloop. induction fuel as [|fuel IH]; intros F d w Hinv Hf;
    destruct (Hloop _ F d w Hinv Hf) as [[-> Hno]|(fuel'&x&E&Hx&->)]; [|done| |injection E as <-].
  1,2: exists w; split; [done|]; split; [done|]; split; [|done]; eapply reaped_iff; [apply reaped_refl|]; intros q _; split; [done|apply Hno].
  destruct Hx as (HxF&f&Hxf&Hmf).
  destruct (remove_spec F d w x f Hinv Hxf HxF) as (w1&w2&->&Hfr&Hinv2&Hfreed). cbn [mbind option_bind]. rewrite Hfr. cbn [mbind option_bind].
  pose proof (size_removed _ _ _ _ Hxf Hfreed) as Hs. destruct (IH F d w2 Hinv2 ltac:(lia)) as (w'&->&Hinv'&Hre&Hn).
  exists w'. split; [done|]. split; [done|]. split; [|done].
  eapply reaped_iff; [exact (reaped_trans _ _ _ _ _ (freed_reaped _ _ _ Hfreed) Hre)|].
  destruct Hfreed as (He&_&_&_&_&_&k&u&dd&ne&nd&Hg). intros q Hq. unfold marked. rewrite He, Hg. split.
  - intros [<-|(HqF&g&[_ Hqg]%lookup_delete_Some&Hgd%Hm)]; [split; [done|by exists f]|split; [done|by exists g]].
  - intros (HqF&g&Hqg&Hgd). destruct (decide (x = q)) as [|Hne]; [by left|]. right. split; [done|]. exists g.
    split; [by apply lookup_delete_Some|by apply Hm].
Qed.

(** A chain in [drain_spec]: the first entry, or none. *)
Lemma chain_head h n bucket (es : gmap Z reg_entry) member b : chain_ok h n bucket es member -> 0 <= b < Z.of_nat n ->
  exists p, (hl_heads h).[b] = Some p /\
    ((p = 0 /\ forall q g, es !! q = Some g -> member q g -> bucket g <> Some b) \/
     (p <> 0 /\ exists g, es !! p = Some g /\ member p g /\ bucket g = Some b)).
Proof.
  intros Hc Hb. destruct (chain_ok_bucket _ _ _ _ _ b Hc Hb) as (p&l&Hp&Hl&_&_&Hiff). exists p. split; [done|].
  destruct l as [|x l].
  - left. apply linked_nil in Hl. split; [done|]. intros q g Hg Hm Hbg.
    assert (Hin : q ∈ []) by (apply Hiff; by exists g). by apply elem_of_nil in Hin.
  - right. apply linked_cons in Hl as (->&Hx&_). split; [done|]. apply Hiff. by left.
Qed.

(** The dead entries that are on the chain. *)
Definition reapable : gset Z -> world -> Z -> Prop := marked (fun _ f => re_dead f <> 0).

Lemma sweep_loop_spec fuel F d w : inv F d w -> (size (w_entries w) <= fuel)%nat ->
  exists w', sweep_loop fuel w = Some w' /\ inv F d w' /\ reaped w w' (reapable F w) /\ forall p, ~ reapable F w' p.
Proof.
  apply (drain_spec (fun _ f => re_dead f <> 0) sweep_loop); [done|]. clear. intros fuel F d w ((_&_&Hd)&_) Hf.
  destruct (chain_head _ _ _ _ _ 0 Hd ltac:(lia)) as (p&Hp&[[-> Hno]|(Hp0&f&Hpf&[HpF Hdf]&_)]).
  - left. split; [destruct fuel; cbn [sweep_loop]; by rewrite Hp|]. intros q (HqF&g&Hg&Hgd). by apply (Hno q g).
  - right. destruct fuel as [|fuel]; [apply Nat.le_0_r, map_size_empty_iff in Hf; by rewrite Hf in Hpf|].
    exists fuel, p. split; [done|]. split; [split; [done|by exists f]|]. cbn [sweep_loop]. rewrite Hp. cbn [mbind option_bind].
    by rewrite (proj2 (Z.eqb_neq p 0)).
Qed.

Lemma reg_sweep_spec F d w : inv F d w ->
  exists w', registry_sweep_dead_entries w = Some w' /\ inv F false w' /\ reaped w w' (reapable F w).
Proof.
  intros Hinv. destruct (sweep_loop_spec _ F d w Hinv (le_n _)) as (w'&Hs&Hinv'&Hre&Hn).
  exists w'. split; [exact Hs|]. split; [|done]. assert (H0 : rg_n_dead (w_reg w') = 0).
  { apply (inv_n_dead F d); [done|]. intros q g Hg HqF. destruct (decide (re_dead g = 0)) as [|Hne]; [done|].
    exfalso. apply (Hn q). split; [done|]. by exists g. }
  destruct Hinv' as (H1&H2&H3&H4&H5&_). do 5 (split; [done|]). by intros _ _ ?.
Qed.

(** Setting the timer and the flag of the sweep. *)
Lemma inv_with_sweep F d d' w timer dst :
  inv F d w ->
  (timer <> CLOAK_TIMER_INVALID -> armed (w_reactor w) timer /\ (timer ∉ s_timers (w_sessions w))) ->
  (d' = false -> dst = 0 -> rg_n_dead (w_reg w) <> 0 -> timer <> CLOAK_TIMER_INVALID) ->
  inv F d' (set_reg w (with_sweep (w_reg w) timer dst)).
Proof.
  intros (H1&H2&H3&H4&(Hr&Hs&Ha&_)&_) Ht Hd. do 4 (split; [done|]). split; [|exact Hd].
  split; [exact Hr|]. split; [exact Hs|]. split; [exact Ha|exact Ht].
Qed.

(** [registry_sweep_timer_cb], after the loop has taken the timer off. *)
Lemma sweep_timer_spec F d w : inv F d w ->
  exists w', registry_sweep_timer_cb w = Some w' /\ inv F false w' /\ rg_sweep_timer (w_reg w') = CLOAK_TIMER_INVALID /\
    without_entries w w' (reapable F w).
Proof.
  intros Hinv. unfold registry_sweep_timer_cb.
  destruct (reg_sweep_spec F true (set_reg w (with_sweep (w_reg w) CLOAK_TIMER_INVALID (rg_destroyed (w_reg w))))) as (w'&Hs&Hinv'&Hre).
  { by eapply inv_with_sweep. }
  exists w'. split; [done|]. split; [done|]. split; [|exact (reaped_without _ _ _ Hre)]. by destruct (reaped_reg _ _ _ Hre) as (_&->&_).
Qed.

(** Arming the sweep restores what [mark_dead] left open. *)
Lemma arm_sweep_spec F d w : inv F d w ->
  exists w', registry_arm_sweep w = Some w' /\ inv F false w' /\
    (w_entries w' = w_entries w /\ (rg_destroyed (w_reg w) = 0 -> rg_sweep_timer (w_reg w') <> CLOAK_TIMER_INVALID) \/
     rg_destroyed (w_reg w) = 0 /\ without_entries w w' (reapable F w)).
Proof.
  intros Hinv. unfold registry_arm_sweep. pose proof Hinv as (H1&H2&H3&H4&H5&_).
  destruct (Z.eqb_spec (rg_destroyed (w_reg w)) 0) as [Hd|Hd]; cbn [negb].
  2:{ exists w. split; [done|]. split; [|by left]. do 5 (split; [done|]). by intros _ ?. }
  destruct (Z.eqb_spec (rg_sweep_timer (w_reg w)) CLOAK_TIMER_INVALID) as [Ht|Ht]; cbn [negb].
  2:{ exists w. split; [done|]. split; [|by left]. do 5 (split; [done|]). by intros _ _ _. }
  destruct H5 as (Hr&Hs&Ha&_). destruct (r_add_timer (w_reactor w) 0) as [id r'] eqn:E.
  destruct (add_timer_law _ _ _ _ Hr E) as (Hr'&_&Htm). destruct (s_add_timer_law _ _ _ _ _ Hr Hs E) as [Hs' Hid].
  set (w1 := set_reg _ _).
  assert (Hinv1 : inv F true w1).
  { do 4 (split; [done|]). split; [|done]. split; [done|]. split; [done|]. split; [done|]. intros Hne. split; [|by apply Hid].
    cbn in Hne. rewrite (proj2 (Z.eqb_neq id CLOAK_TIMER_INVALID)) in Htm by done. apply Htm. by left. }
  change (rg_sweep_timer (w_reg w1)) with id. destruct (Z.eqb_spec id CLOAK_TIMER_INVALID) as [Hid0|Hid0].
  - destruct (reg_sweep_spec F true w1 Hinv1) as (w'&->&Hinv'&Hre). exists w'. split; [done|]. split; [done|]. right. split; [done|]. exact (reaped_without _ _ _ Hre).
  - exists w1. split; [done|]. split; [|by left]. destruct Hinv1 as (A1&A2&A3&A4&A5&_). do 5 (split; [done|]). by intros _ _ _.
Qed.
End run.
