(* ===== verification/RegistryApi.v ===== *)
(** * The functions of registry.h on the table

    What each function returns and leaves behind, from [RegistrySteps] and
    [RegistryRun].  Calls that come from inside a callback are covered: [F] is
    the set of entries that a caller further up the stack has unlinked and will
    free. *)
From stdpp Require Import gmap.
From S2P Require Import Prelude Fallible Random SipHash ReactorApi ClientAuth Session Hlist Registry RegistryInv RegistrySteps RegistryRun.

Section api.
Context {R T A : Type} {RR : Reactor R} {RL : ReactorLaws R} {SS : Sessions R T} {SL : SessionsLaws R T}.
#[local] Abbreviation world := (reg_world R T A).
Implicit Types w : world.

(** ** Around the table *)

Lemma inv_outside F d w r s :
  inv F d w -> reactor_ok r -> s_ok r s -> s_alive s = s_alive (w_sessions w) ->
  (rg_sweep_timer (w_reg w) <> CLOAK_TIMER_INVALID ->
    armed r (rg_sweep_timer (w_reg w)) /\ (rg_sweep_timer (w_reg w) ∉ s_timers s)) ->
  inv F d (set_outside w r s).
Proof.
  intros (H1&H2&H3&H4&(_&_&Ha&_)&H6) Hr Hs Hal Ht. do 4 (split; [done|]). split; [|exact H6].
  split; [exact Hr|]. split; [exact Hs|]. split; [cbn; by rewrite Hal|exact Ht].
Qed.

Lemma inv_dirty F d w : inv F d w -> inv F true w.
Proof. intros (H1&H2&H3&H4&H5&_). by do 5 (split; [done|]). Qed.

Lemma inv_malloc F d w : inv F d w -> inv F d (registry_malloc w).2.
Proof. intros H. exact H. Qed.

Lemma live_unique F d w u sid p q : inv F d w -> live_at F w u sid p -> live_at F w u sid q -> p = q.
Proof. intros (_&_&Hu&_) [HpF Hp] [HqF Hq]. by apply (Hu p q _ _ Hp Hq). Qed.

Lemma live_probed F w w' u sid p : probed w w' -> live_at F w' u sid p <-> live_at F w u sid p.
Proof. by intros (a&b&->). Qed.

(** [cloak_server_registry_count]: the live entries. *)
Definition live_entries (F : gset Z) w : gset Z := dom (w_entries w) ∖ F ∖ dead_set (w_entries w).

Lemma elem_of_live_entries F w p :
  p ∈ live_entries F w <-> exists f, w_entries w !! p = Some f /\ (p ∉ F) /\ re_dead f = 0.
Proof.
  unfold live_entries. rewrite !elem_of_difference, elem_of_dom, elem_of_dead. split.
  - intros [[[f Hf] HF] Hn]. exists f. split; [done|]. split; [done|]. destruct (decide (re_dead f = 0)); [done|].
    exfalso. apply Hn. by exists f.
  - intros (f&Hf&HF&Hd). split; [split; [by exists f|done]|]. intros (g&Hg&Hgd). rewrite Hf in Hg. by injection Hg as <-.
Qed.

Lemma count_spec F d w : inv F d w -> cloak_server_registry_count w = Z.of_nat (size (live_entries F w)).
Proof.
  intros (_&(Hn&Hmax&Hd)&_). change CLOAK_REGISTRY_MAX_SESSIONS with 1024 in Hmax.
  assert (Hsub : dead_set (w_entries w) ∖ F ⊆ dom (w_entries w) ∖ F).
  { intros q [(f&Hf&_)%elem_of_dead HF]%elem_of_difference. apply elem_of_difference. split; [by eapply elem_of_dom_2|done]. }
  assert (Heq : live_entries F w = (dom (w_entries w) ∖ F) ∖ (dead_set (w_entries w) ∖ F)).
  { apply set_eq. intros q. unfold live_entries. rewrite !elem_of_difference. tauto. }
  rewrite Heq, size_difference by done. apply subseteq_size in Hsub. unfold cloak_server_registry_count.
  rewrite u64_small by lia. lia.
Qed.

(** ** Closing one session *)

(** ** Closing one session *)

Lemma reg_close_spec F d w u sid : inv F d w -> good_uid u ->
  exists w', cloak_server_registry_close (Some u) sid w = Some w' /\ inv F d w' /\ w_app w' = w_app w /\
    without_entries w w' (live_at F w u sid).
Proof.
  intros Hinv Hu. unfold cloak_server_registry_close.
  destruct (find_live_spec F d w u sid Hinv Hu) as (res&w1&->&Hpr&Hcase). cbn [mbind option_bind].
  pose proof (inv_probed _ _ _ _ Hinv Hpr) as Hinv1. destruct Hcase as [[-> Hno]|[Hne Hat]].
  - exists w1. split; [done|]. split; [done|]. destruct Hpr as (a&b&->). split; [done|]. by apply without_none.
  - rewrite (proj2 (Z.eqb_neq res 0)) by done. cbn [negb]. pose proof (proj2 (live_probed F w w1 u sid res Hpr) Hat) as [HF Hp].
    destruct (remove_spec F d w1 res _ Hinv1 Hp HF) as (w2&w'&->&Hfr&Hinv'&Hgone). cbn [mbind option_bind].
    exists w'. split; [exact Hfr|]. split; [done|]. destruct Hgone as (He&_&Ha&_). destruct Hpr as (a&b&->).
    split; [by rewrite Ha|]. change (w_entries w' = delete res (w_entries w)) in He. split; rewrite He.
    + intros q. rewrite lookup_delete_None. split; [intros [<-|?]; [by right|by left]|].
      intros [?|Hq]; [by right|left; exact (live_unique F d w u sid res q Hinv Hat Hq)].
    + by intros q f [_ ?]%lookup_delete_Some.
Qed.

(** ** Finding or creating one *)

Lemma get_or_create_spec F d w u sid c :
  inv F d w -> good_uid u -> 0 <= sid < 4294967296 -> s_good (w_sessions w) (with_adapter c) ->
  exists p out w', cloak_server_registry_get_or_create (Some u) sid (Some c) w = Some (p, out, w') /\ inv F d w' /\ w_app w' = w_app w /\
    ((out = Some 0 /\ p <> 0 /\ live_at F w u sid p /\ w_entries w' = w_entries w) \/
     ((forall q, ~ live_at F w u sid q) /\
      ((out = Some 1 /\ p = w_next w /\ w_entries w' = <[p := RegEntry u sid 0]> (w_entries w)) \/
       (out = None /\ p = 0 /\ w_entries w' = w_entries w /\
        (CLOAK_REGISTRY_MAX_SESSIONS <= rg_n_entries (w_reg w) \/ hd true (w_mem w) = false \/
         exists rc r s, s_init (w_next w) sid (with_adapter c) (w_reactor w) (w_sessions w) = Some (rc, r, s) /\ rc <> 0))))).
Proof.
  intros Hinv Hu Hsid Hc. unfold cloak_server_registry_get_or_create.
  destruct (find_live_spec F d w u sid Hinv Hu) as (res&w1&->&Hpr&Hcase). cbn [mbind option_bind].
  pose proof (inv_probed _ _ _ _ Hinv Hpr) as Hinv1.
  destruct Hcase as [[-> Hno]|[Hne Hat]].
  2:{ rewrite (proj2 (Z.eqb_neq res 0)) by done. cbn [negb]. exists res, (Some 0), w1. destruct Hpr as (a&b&->).
      split; [done|]. split; [done|]. split; [done|]. left. by split_and!. }
  assert (Hno1 : forall q, ~ live_at F w1 u sid q) by (intros q Hq; apply (Hno q); by apply (live_probed F w w1 u sid q Hpr)).
  cbn [Z.eqb negb]. destruct Hpr as (a&b&->). set (w1 := set_reg w _) in *.
  change (rg_n_entries (w_reg w1)) with (rg_n_entries (w_reg w)).
  destruct (Z.leb_spec CLOAK_REGISTRY_MAX_SESSIONS (rg_n_entries (w_reg w))) as [Hfull|Hroom].
  { exists 0, None, w1. split; [done|]. split; [done|]. split; [done|]. right. split; [done|]. right. by repeat split; auto. }
  destruct (registry_malloc w1) as [ok w2] eqn:Em.
  assert (Hok : ok = hd true (w_mem w)) by (by injection Em as <- _).
  assert (Hinv2 : inv F d w2) by (replace w2 with (registry_malloc w1).2 by (by rewrite Em); exact Hinv1).
  assert (Hw2 : w2 = RegWorld (w_reg w1) (w_entries w) (w_next w) (tl (w_mem w)) (w_reactor w) (w_sessions w) (w_app w)) by (by injection Em as _ <-).
  destruct ok; cbn [negb].
  2:{ exists 0, None, w2. split; [done|]. split; [done|]. split; [by rewrite Hw2|]. right. split; [done|]. right. rewrite Hw2. by repeat split; auto. }
  rewrite (uid_read u Hu). cbn [mbind option_bind]. destruct (alloc_entry w2 (RegEntry u sid 0)) as [e w3] eqn:Ea.
  assert (He : e = w_next w) by (injection Ea as <- _; by rewrite Hw2).
  assert (Hw3 : w3 = (alloc_entry w2 (RegEntry u sid 0)).2) by (by rewrite Ea).
  assert (Hr3 : w_reactor w3 = w_reactor w /\ w_sessions w3 = w_sessions w) by (rewrite Hw3, Hw2; done). destruct Hr3 as [-> ->].
  pose proof Hinv as (_&_&_&_&(Hr&Hs&Hal&_)&_). pose proof (inv_next _ _ _ Hinv) as Hnew.
  destruct (s_init_law e sid (with_adapter c) (w_reactor w) (w_sessions w) Hr Hs) as (rc&r'&s'&Ei&Hr'&Hs'&Hal'&Hap); [|done|].
  { rewrite Hal, He. by apply not_elem_of_dom. }
  rewrite Ei. cbn [mbind option_bind]. destruct (Z.eqb_spec rc 0) as [->|Hrc]; cbn [negb].
  - assert (Hent : entry_ok (RegEntry u sid 0)) by (split; [done|split; [done|by left]]).
    assert (Hinv3 : inv ({[w_next w2]} ∪ F) d (set_outside (alloc_entry w2 (RegEntry u sid 0)).2 r' s')).
    { apply alloc_inv; [done..| |]; rewrite Hw2; cbn [w_next w_entries w_reactor w_sessions]; [|done]. by rewrite Hal', He, Hal. }
    rewrite <- Hw3 in Hinv3. rewrite Hw2 in Hinv3 at 1. cbn [w_next] in Hinv3. rewrite <- He in Hinv3.
    assert (Hent3 : w_entries w3 = <[e := RegEntry u sid 0]> (w_entries w)) by (rewrite Hw3, Hw2, He; done).
    assert (HeF : e ∉ F).
    { intros HeF. destruct Hinv as (_&_&_&(HF&_)&_). apply HF in HeF. apply elem_of_dom in HeF as [g Hg]. congruence. }
    destruct (link_spec _ d _ e (RegEntry u sid 0) Hinv3) as (w'&->&(k&uu&dd&ne&nd&Hw')&Hinv'); cbn [re_dead re_uid re_session_id].
    { change (w_entries w3 !! e = Some (RegEntry u sid 0)). rewrite Hent3. apply lookup_insert_eq. }
    { apply elem_of_union. left. by apply elem_of_singleton. }
    { done. }
    { change (rg_n_entries (w_reg w3) < CLOAK_REGISTRY_MAX_SESSIONS). rewrite Hw3, Hw2. exact Hroom. }
    { intros q [HqF Hq]. apply not_in_more in HqF as [HqF Hqe]. change (w_entries w3 !! q = Some (RegEntry u sid 0)) in Hq.
      rewrite Hent3, lookup_insert_ne in Hq by done. by apply (Hno q). }
    cbn [mbind option_bind]. exists e, (Some 1), w'. split; [done|]. split.
    { replace F with (({[e]} ∪ F) ∖ {[e]}); [done|]. apply set_eq. intros q.
      rewrite elem_of_difference, elem_of_union, elem_of_singleton. split; [tauto|]. intros Hq. split; [by right|]. by intros ->. }
    split; [rewrite Hw', Hw3, Hw2; done|]. right. split; [done|]. left. split; [done|]. split; [done|]. rewrite Hw'. exact Hent3.
  - destruct (alloc_free_inv F d w2 (RegEntry u sid 0) r' s' Hinv2 Hr' Hs') as (w'&Hfr&Hinv'&Hw'); [|rewrite Hw2; done|].
    { by rewrite Hw2, Hal'. }
    rewrite <- Hw3 in Hfr. rewrite Hw2 in Hfr at 1. cbn [w_next] in Hfr. rewrite <- He in Hfr. rewrite Hfr. cbn [mbind option_bind].
    exists 0, None, w'. split; [done|]. split; [done|]. split; [rewrite Hw', Hw2; done|]. right. split; [done|]. right.
    split; [done|]. split; [done|]. split; [rewrite Hw', Hw2; done|]. right. right. rewrite <- He. by eexists _, _, _.
Qed.
End api.
