(* ===== verification/RegistryClose.v ===== *)
(** * Breaking, closing all and destroying

    The functions of registry.c that call the owner back or empty the table.
    A callback is any function on the world that returns and keeps the
    invariant, so it may call the registry again.  Then the histories of a
    registry. *)
From stdpp Require Import gmap.
From S2P Require Import Prelude Fallible Random SipHash ReactorApi ClientAuth Session Hlist Registry RegistryInv RegistrySteps RegistryRun RegistryApi.

Section close.
Context {R T A : Type} {RR : Reactor R} {RL : ReactorLaws R} {SS : Sessions R T} {SL : SessionsLaws R T}.
#[local] Abbreviation world := (reg_world R T A).
Implicit Types w : world.

(** ** Destroying the registry *)

Definition in_bucket (P : Z -> Prop) (g : cloak_server_registry) (f : reg_entry) : Prop :=
  exists b, key_bucket g f = Some b /\ P b.

Lemma destroy_bucket_spec fuel i F d w : 0 <= i < 2048 -> inv F d w -> (size (w_entries w) <= fuel)%nat ->
  exists w', destroy_bucket fuel i w = Some w' /\ inv F d w' /\ reaped w w' (marked (in_bucket (eq i)) F w).
Proof.
  intros Hi Hinv Hf.
  destruct (drain_spec (A := A) (in_bucket (eq i)) (fun fuel => destroy_bucket fuel i)) with (fuel := fuel) (F := F) (d := d) (w := w)
    as (w'&H1&H2&H3&_); [done| |done|done|by exists w'].
  clear fuel F d w Hinv Hf. intros fuel F d w ((Hk&_)&_) Hf.
  destruct (chain_head _ _ _ _ _ i Hk ltac:(lia)) as (p&Hp&[[-> Hno]|(Hp0&f&Hpf&HpF&Hb)]).
  - left. split; [destruct fuel; cbn [destroy_bucket]; by rewrite Hp|]. intros q (HqF&g&Hg&b&Hgb&<-). by apply (Hno q g).
  - right. destruct fuel as [|fuel]; [apply Nat.le_0_r, map_size_empty_iff in Hf; by rewrite Hf in Hpf|].
    exists fuel, p. split; [done|]. split; [split; [done|exists f; split; [done|by exists i]]|]. cbn [destroy_bucket]. rewrite Hp.
    cbn [mbind option_bind]. by rewrite (proj2 (Z.eqb_neq p 0)).
Qed.

Lemma destroy_buckets_spec n i F d w : 0 <= i -> i + Z.of_nat n <= 2048 -> inv F d w ->
  exists w', destroy_buckets n i w = Some w' /\ inv F d w' /\
    reaped w w' (marked (in_bucket (fun b => i <= b < i + Z.of_nat n)) F w).
Proof.
  revert i w. induction n as [|n IH]; intros i w Hi Hin Hinv; cbn [destroy_buckets].
  - exists w. split; [done|]. split; [done|]. eapply reaped_iff; [apply reaped_refl|]. intros p _. split; [done|].
    intros (_&f&_&b&_&Hb). lia.
  - destruct (destroy_bucket_spec (size (w_entries w)) i F d w ltac:(lia) Hinv (le_n _)) as (w1&->&Hinv1&Hre1). cbn [mbind option_bind].
    destruct (IH (i + 1) w1 ltac:(lia) ltac:(lia) Hinv1) as (w'&->&Hinv'&Hre'). exists w'. split; [done|]. split; [done|].
    eapply reaped_iff; [exact (reaped_trans _ _ _ _ _ Hre1 Hre')|]. intros p Hp.
    destruct Hre1 as (HA&HB&_&_&_&_&k&u&dd&ne&nd&Hg). unfold marked. rewrite Hg. split.
    + intros [(HpF&f&Hf&b&Hb&<-)|(HpF&f&Hf&b&Hb&Hr)].
      * split; [done|]. exists f. split; [done|]. exists i. split; [done|lia].
      * split; [done|]. exists f. split; [by apply HB|]. exists b. split; [exact Hb|lia].
    + intros (HpF&f&Hf&b&Hb&Hr). destruct (decide (i = b)) as [<-|Hne].
      * left. split; [done|]. exists f. split; [done|by exists i].
      * right. split; [done|]. exists f. split; [|exists b; split; [exact Hb|lia]].
        destruct (w_entries w1 !! p) as [f'|] eqn:E; [by rewrite (HB p f' E) in Hf|]. apply HA in E as [E|(_&g&Hg'&b'&Hb'&<-)]; [congruence|].
        rewrite Hf in Hg'. injection Hg' as <-. congruence.
Qed.

(** Every entry that is not off the chains is gone. *)
Lemma reg_destroy_spec F d w : inv F d w ->
  exists w', cloak_server_registry_destroy w = Some w' /\ inv F false w' /\ dom (w_entries w') = F /\ w_app w' = w_app w /\
    rg_sweep_timer (w_reg w') = CLOAK_TIMER_INVALID /\ rg_destroyed (w_reg w') = 1.
Proof.
  intros Hinv. unfold cloak_server_registry_destroy. set (w0 := set_reg w _).
  assert (Hinv0 : inv F true w0) by (apply (inv_with_sweep F d); [done|intros Hne; by apply Hinv|done]).
  assert (Hstop : exists w1, (if negb (rg_sweep_timer (w_reg w0) =? CLOAK_TIMER_INVALID) then
         w ← registry_sweep_dead_entries w0;
         let w := set_outside w (r_cancel_timer (w_reactor w) (rg_sweep_timer (w_reg w))) (w_sessions w) in
         Some (set_reg w (with_sweep (w_reg w) CLOAK_TIMER_INVALID (rg_destroyed (w_reg w))))
       else Some w0) = Some w1 /\ inv F true w1 /\ rg_sweep_timer (w_reg w1) = CLOAK_TIMER_INVALID /\ w_app w1 = w_app w /\
       rg_destroyed (w_reg w1) = 1).
  { destruct (Z.eqb_spec (rg_sweep_timer (w_reg w0)) CLOAK_TIMER_INVALID) as [Ht|Ht]; cbn [negb]; [by exists w0|].
    destruct (reg_sweep_spec F true w0 Hinv0) as (w1&->&Hinv1&Hre). cbn [mbind option_bind].
    destruct (reaped_reg _ _ _ Hre) as (Hdst&Htm&_). destruct Hre as (_&_&_&Happ&_).
    eexists. split; [done|]. split; [|split; [done|split; [exact Happ|exact Hdst]]].
    pose proof Hinv1 as (_&_&_&_&(Hr&Hs&_&Hsw)&_). rewrite <- Htm in Ht. destruct (Hsw Ht) as [_ Hid].
    assert (Hinv2 : inv F true (set_reg w1 (with_sweep (w_reg w1) CLOAK_TIMER_INVALID (rg_destroyed (w_reg w1)))))
      by (by apply (inv_with_sweep F false)).
    exact (inv_outside _ _ _ _ _ Hinv2 (proj1 (cancel_timer_law _ _ Hr)) (s_cancel_law _ _ _ Hr Hs Hid) eq_refl ltac:(done)). }
  destruct Hstop as (w1&Hstop&Hinv1&Ht1&Ha1&Hd1). cbv zeta in Hstop |- *. rewrite Hstop. cbn [mbind option_bind].
  destruct (destroy_buckets_spec (Z.to_nat CLOAK_REGISTRY_KEY_BUCKETS) 0 F true w1) as (w'&->&Hinv'&Hre); [done..|].
  destruct (reaped_reg _ _ _ Hre) as (Hdst&Htm&_). destruct Hre as (HA&HB&_&Happ&_).
  exists w'. split; [done|]. split.
  { destruct Hinv' as (H1&H2&H3&H4&H5&_). do 5 (split; [done|]). intros _. unfold sweep_due. rewrite Hdst, Hd1. done. }
  split; [|split; [congruence|split; congruence]]. apply set_eq. intros p. rewrite elem_of_dom. split.
  - intros [f Hf]. destruct (decide (p ∈ F)) as [|HpF]; [done|]. exfalso. pose proof (HB p f Hf) as Hf1.
    destruct Hinv1 as (_&_&_&Htab&_). assert (Hfu : good_uid (re_uid f)) by apply (proj1 (proj2 (proj2 Htab)) p f Hf1).
    destruct (key_bucket_total F w1 (re_uid f) (re_session_id f) Htab Hfu) as (b&Hb&Hr).
    assert (Hgone : w_entries w' !! p = None).
    { apply HA. right. split; [done|]. exists f. split; [done|]. exists b. split; [exact Hb|].
      change (Z.of_nat (Z.to_nat CLOAK_REGISTRY_KEY_BUCKETS)) with 2048. lia. }
    congruence.
  - intros HpF. destruct Hinv' as (_&_&_&(HF&_)&_). apply elem_of_dom. by apply HF.
Qed.
(** ** A session breaks *)

(** What the registry needs of [on_broken]: the entry it is called with is
    dead and still there. *)
Definition owner_keeps (cb : Z -> bytes -> Z -> world -> option world) : Prop :=
  forall F e u sid w, inv F true w -> e ∉ F -> w_entries w !! e = Some (RegEntry u sid 1) ->
    exists w', cb e u sid w = Some w' /\ inv F true w'.

Lemma broken_spec cb F d w p f :
  owner_keeps cb -> inv F d w -> w_entries w !! p = Some f -> p ∉ F -> re_dead f = 0 ->
  exists w1 w2 w', registry_mark_dead w p = Some w1 /\
    w_entries w1 = <[p := died f]> (w_entries w) /\ (p ∈ s_alive (w_sessions w1)) /\
    (forall q, ~ live_at F w1 (re_uid f) (re_session_id f) q) /\
    (if rg_on_broken (w_reg w) then cb p (re_uid f) (re_session_id f) w1 = Some w2 else w2 = w1) /\
    registry_on_session_broken cb p w = Some w' /\ inv F false w' /\
    (w_entries w' = w_entries w2 \/ without_entries w2 w' (reapable F w2)).
Proof.
  intros Hcb Hinv Hp HpF Hd0. unfold registry_on_session_broken.
  destruct (mark_dead_spec F d w p f Hinv Hp HpF Hd0) as (w1&Hmd&Hinv1&He1&(k&u&dd&ne&nd&Hw1)). rewrite Hmd. cbn [mbind option_bind].
  assert (Hp1 : w_entries w1 !! p = Some (died f)) by (rewrite He1; apply lookup_insert_eq).
  assert (Hob : rg_on_broken (w_reg w1) = rg_on_broken (w_reg w)) by (by rewrite Hw1).
  assert (Hcall : exists w2, (if rg_on_broken (w_reg w1) then f ← w_entries w1 !! p; cb p (re_uid f) (re_session_id f) w1 else Some w1) = Some w2 /\
     inv F true w2 /\ (if rg_on_broken (w_reg w) then cb p (re_uid f) (re_session_id f) w1 = Some w2 else w2 = w1)).
  { rewrite Hob, Hp1. cbn [mbind option_bind]. destruct (rg_on_broken (w_reg w)).
    2:{ exists w1. split; [done|]. by split. }
    destruct (Hcb F p (re_uid f) (re_session_id f) w1 Hinv1 HpF Hp1) as (w2&Hc&Hinv2). by exists w2. }
  destruct Hcall as (w2&->&Hinv2&Hsaw). cbn [mbind option_bind].
  destruct (arm_sweep_spec F true w2 Hinv2) as (w'&->&Hinv'&Hend). exists w1, w2, w'.
  split; [done|]. split; [done|]. split.
  { destruct Hinv1 as (_&_&_&_&(_&_&->&_)&_). by eapply elem_of_dom_2. }
  split.
  { intros q [HqF Hq]. rewrite He1 in Hq. destruct (decide (q = p)) as [->|Hne]; [by rewrite lookup_insert_eq in Hq|].
    rewrite lookup_insert_ne in Hq by done. apply Hne. by apply (proj1 (proj2 (proj2 Hinv)) q p _ f Hq Hp). }
  split; [done|]. split; [done|]. split; [done|]. destruct Hend as [[? _]|[_ ?]]; [by left|by right].
Qed.

(** ** Closing every session of a user *)

(** The entries of a user, dead or not. *)
Definition user_entries (F : gset Z) w (u : bytes) : gset Z :=
  dom (filter (fun x => re_uid x.2 = u) (w_entries w)) ∖ F.

Lemma elem_of_user F w u p : p ∈ user_entries F w u <-> (p ∉ F) /\ exists f, w_entries w !! p = Some f /\ re_uid f = u.
Proof.
  unfold user_entries. rewrite elem_of_difference, elem_of_dom. split.
  - intros [[f [Hf Hu]%map_lookup_filter_Some] HF]. split; [done|by exists f].
  - intros (HF&f&Hf&Hu). split; [|done]. exists f. by apply map_lookup_filter_Some.
Qed.

Lemma find_uid_loop_spec fuel u from p l w :
  good_uid u -> (forall q f, w_entries w !! q = Some f -> entry_ok f) ->
  linked (hl_links (rg_uid (w_reg w))) from p l -> (length l <= fuel)%nat ->
  (forall q, q ∈ l -> is_Some (w_entries w !! q)) ->
  exists res, find_uid_loop fuel u p w = Some res /\
    ((res = 0 /\ forall q f, q ∈ l -> w_entries w !! q = Some f -> re_uid f <> u) \/
     (res <> 0 /\ (res ∈ l) /\ exists f, w_entries w !! res = Some f /\ re_uid f = u)).
Proof.
  intros Hu Hok. revert from p fuel. induction l as [|x l IH]; intros from p fuel Hl Hf Hin.
  - apply linked_nil in Hl as ->. exists 0. split; [by destruct fuel|]. left. split; [done|]. by intros q f ?%elem_of_nil.
  - apply linked_cons in Hl as (->&Hx&next&Hm&Hl). destruct fuel as [|fuel]; [cbn in Hf; lia|]. cbn [find_uid_loop].
    rewrite (proj2 (Z.eqb_neq x 0)) by done. destruct (Hin x) as [f Hxf]; [by left|]. rewrite Hxf. cbn [mbind option_bind].
    rewrite (same_uid_spec f u) by (by eauto). cbn [mbind option_bind]. case_bool_decide as Hfu.
    + exists x. split; [done|]. right. split; [done|]. split; [by left|by exists f].
    + rewrite Hm. cbn [mbind option_bind ln_next].
      destruct (IH (NextOf x) next fuel Hl ltac:(cbn in Hf; lia)) as (res&->&Hcase); [intros q Hq; apply Hin; by right|].
      exists res. split; [done|]. destruct Hcase as [[-> Hno]|(Hr0&Hr&Hrf)]; [left|right; split; [done|split; [by right|done]]].
      split; [done|]. intros q g [->|Hq]%elem_of_cons Hg; [|by apply (Hno q)]. rewrite Hxf in Hg. by injection Hg as <-.
Qed.

(** The first entry of the user in the bucket of the user, or none is left. *)
Lemma find_uid_spec F d w u b : inv F d w -> good_uid u -> registry_uid_bucket (w_reg w) u = Some b ->
  exists head res, (hl_heads (rg_uid (w_reg w))).[b] = Some head /\ find_uid_loop (size (w_entries w)) u head w = Some res /\
    ((res = 0 /\ user_entries F w u = ∅) \/ (res <> 0 /\ (res ∈ user_entries F w u))).
Proof.
  intros Hinv Hu Hb. pose proof Hinv as ((_&Huid&_)&_&_&Htab&_).
  assert (Hr : 0 <= b < 1024) by (destruct (uid_bucket_total F w u Htab Hu) as (b'&Hb'&Hr); rewrite Hb in Hb'; by injection Hb' as ->).
  destruct (chain_ok_bucket _ _ _ _ _ b Huid ltac:(lia)) as (p&l&Hp&Hl&Hsz&_&Hiff).
  destruct (find_uid_loop_spec (size (w_entries w)) u (HeadOf b) p l w Hu) as (res&Hf&Hcase); try done.
  { intros q f Hq. by apply (inv_shape F d w q f). }
  { intros q (g&Hg&_)%Hiff. by exists g. }
  exists p, res. split; [done|]. split; [done|]. destruct Hcase as [[-> Hno]|(Hr0&Hrl&f&Hf1&Hfu)].
  - left. split; [done|]. apply set_eq. intros q. split; [|by intros ?%elem_of_empty]. intros (HqF&f&Hq&Hfu)%elem_of_user. exfalso.
    refine (Hno q f _ Hq Hfu). apply Hiff. exists f. split; [done|]. split; [done|]. unfold uid_bucket. by rewrite Hfu.
  - right. split; [done|]. apply elem_of_user. apply Hiff in Hrl as (g&Hg&HF&_). split; [done|by exists f].
Qed.
(** What the registry needs of [on_closing]: the entry is off the chains and
    still there, and the callback opens no session for its user. *)
Definition closing_keeps (u : bytes) (cb : Z -> bytes -> Z -> world -> option world) : Prop :=
  forall F d e f w, inv F d w -> e ∈ F -> w_entries w !! e = Some f -> re_uid f = u ->
    exists w', cb e (re_uid f) (re_session_id f) w = Some w' /\ inv F d w' /\
      rg_hash_key (w_reg w') = rg_hash_key (w_reg w) /\ user_entries F w' u ⊆ user_entries F w u.

Definition optional (P : (Z -> bytes -> Z -> world -> option world) -> Prop) (cb : option (Z -> bytes -> Z -> world -> option world)) : Prop :=
  match cb with None => True | Some cb => P cb end.

(** One round: the entry is unlinked, announced and freed. *)
Lemma close_round_spec cb F d w u p f :
  optional (closing_keeps u) cb -> inv F d w -> w_entries w !! p = Some f -> re_uid f = u -> p ∉ F ->
  exists w1 w2 w', registry_entry_unlink w p = Some w1 /\
    match cb with
    | None => Some w1
    | Some cb => f ← w_entries w1 !! p; cb p (re_uid f) (re_session_id f) w1
    end = Some w2 /\ registry_free_entry w2 p = Some w' /\ inv F d w' /\ rg_hash_key (w_reg w') = rg_hash_key (w_reg w) /\
    user_entries F w' u ⊆ user_entries F w u ∖ {[p]} /\ (cb = None -> w_entries w' = delete p (w_entries w) /\ w_app w' = w_app w).
Proof.
  intros Hcb Hinv Hp Hfu HpF. destruct (unlink_spec F d w p f Hinv Hp HpF) as (w1&->&(k&uu&dd&ne&nd&Hw1)&Hinv1).
  assert (Hp1 : w_entries w1 !! p = Some f) by (by rewrite Hw1).
  assert (HpF1 : p ∈ {[p]} ∪ F) by (apply elem_of_union; left; by apply elem_of_singleton).
  assert (Hcall : exists w2, match cb with
    | None => Some w1 | Some cb => f ← w_entries w1 !! p; cb p (re_uid f) (re_session_id f) w1 end = Some w2 /\
    inv ({[p]} ∪ F) d w2 /\ rg_hash_key (w_reg w2) = rg_hash_key (w_reg w1) /\
    user_entries ({[p]} ∪ F) w2 u ⊆ user_entries ({[p]} ∪ F) w1 u /\ (cb = None -> w2 = w1)).
  { destruct cb as [cb|]; [|exists w1; by split_and!]. rewrite Hp1. cbn [mbind option_bind].
    destruct (Hcb _ d p f w1 Hinv1 HpF1 Hp1 Hfu) as (w2&Hc&Hinv2&Hk&Hsub). exists w2. by split_and!. }
  destruct Hcall as (w2&Hc&Hinv2&Hk&Hsub&Hno). pose proof Hinv2 as (_&_&_&(HF2&_)&_).
  assert (Hp2 : p ∈ dom (w_entries w2)) by (by apply HF2). apply elem_of_dom in Hp2 as [f2 Hp2].
  destruct (free_entry_spec _ d w2 p f2 Hinv2 Hp2 HpF1) as (w'&Hfr&Hinv'&He&_&Happ&_&_&_&k'&u'&dd'&ne'&nd'&Hg).
  exists w1, w2, w'. split; [done|]. split; [done|]. split; [done|].
  assert (HF : ({[p]} ∪ F) ∖ {[p]} = F).
  { apply set_eq. intros q. rewrite elem_of_difference, elem_of_union, elem_of_singleton. split; [tauto|]. intros Hq.
    split; [by right|]. by intros ->. }
  rewrite HF in Hinv'. split; [done|]. split; [rewrite Hg; cbn; rewrite Hk, Hw1; done|]. split.
  - intros q (HqF&g&Hq&Hgu)%elem_of_user. rewrite He in Hq. apply lookup_delete_Some in Hq as [Hne Hq].
    assert (H2 : q ∈ user_entries ({[p]} ∪ F) w2 u) by (apply elem_of_user; split; [by apply not_in_more|by exists g]).
    apply Hsub, elem_of_user in H2 as (_&g1&Hq1&Hgu1). apply elem_of_difference. split; [|by intros ->%elem_of_singleton].
    apply elem_of_user. split; [done|]. exists g1. by rewrite Hw1 in Hq1.
  - intros Hn. specialize (Hno Hn). rewrite He, Happ, Hno, Hw1. done.
Qed.

Lemma close_all_loop_spec cb fuel F d w u b closed :
  optional (closing_keeps u) cb -> good_uid u -> inv F d w -> registry_uid_bucket (w_reg w) u = Some b ->
  (size (user_entries F w u) <= fuel)%nat -> 0 <= closed -> closed + Z.of_nat (size (user_entries F w u)) < 2 ^ 64 ->
  exists n w', close_all_loop cb fuel b u closed w = Some (n, w') /\ inv F d w' /\ user_entries F w' u = ∅ /\
    closed <= n <= closed + Z.of_nat (size (user_entries F w u)) /\
    (cb = None -> n = closed + Z.of_nat (size (user_entries F w u)) /\ w_app w' = w_app w /\
       without_entries w w' (fun p => p ∈ user_entries F w u)).
Proof.
  intros Hcb Hu. revert w closed. induction fuel as [|fuel IH]; intros w closed Hinv Hb Hf Hc0 Hc;
    destruct (find_uid_spec F d w u b Hinv Hu Hb) as (head&res&Hh&Hfind&[[-> Hno]|[Hr0 Hr]]); cbn [close_all_loop];
    rewrite Hh; cbn [mbind option_bind]; rewrite Hfind; cbn [mbind option_bind].
  1,3: exists closed, w; split; [done|]; split; [done|]; split; [done|]; rewrite Hno, size_empty;
    split; [lia|]; intros _; split; [lia|]; split; [done|]; apply without_none; [done|]; intros q; apply not_elem_of_empty.
  { apply Nat.le_0_r, size_empty_inv in Hf. exfalso. by apply Hf in Hr. }
  rewrite (proj2 (Z.eqb_neq res 0)) by done. pose proof Hr as (HrF&f&Hrf&Hfu)%elem_of_user.
  destruct (close_round_spec cb F d w u res f Hcb Hinv Hrf Hfu HrF) as (w1&w2&w3&->&Hcall&Hfr&Hinv3&Hk&Hsub&Hnone).
  cbn [mbind option_bind]. rewrite Hcall. cbn [mbind option_bind]. rewrite Hfr. cbn [mbind option_bind].
  assert (Hs : (size (user_entries F w3 u) < size (user_entries F w u))%nat).
  { apply subset_size. split; [intros q Hq; apply Hsub, elem_of_difference in Hq; apply Hq|].
    intros Hall. apply Hall, Hsub, elem_of_difference in Hr. apply (proj2 Hr). by apply elem_of_singleton. }
  rewrite u64_small by lia.
  destruct (IH w3 (closed + 1)) as (n&w'&->&Hinv'&Hempty&Hn&Hexact); [done| |lia|lia|lia|].
  { unfold registry_uid_bucket in *. by rewrite Hk. }
  exists n, w'. split; [done|]. split; [done|]. split; [done|]. split; [lia|]. intros Hcb0.
  destruct (Hnone Hcb0) as [He3 Ha3]. destruct (Hexact Hcb0) as (Hn'&Ha'&HA&HB).
  assert (Hu3 : user_entries F w3 u = user_entries F w u ∖ {[res]}).
  { apply set_eq. intros q. rewrite elem_of_difference, !elem_of_user, elem_of_singleton, He3. split.
    - intros (HqF&g&[Hne Hq]%lookup_delete_Some&Hg). split; [split; [done|by exists g]|done].
    - intros [(HqF&g&Hq&Hg) Hne]. split; [done|]. exists g. split; [|done]. by apply lookup_delete_Some. }
  assert (Hs3 : size (user_entries F w u) = S (size (user_entries F w3 u))).
  { rewrite Hu3. replace (user_entries F w u) with ({[res]} ∪ user_entries F w u ∖ {[res]}) at 1.
    - rewrite size_union by (intros q ->%elem_of_singleton [_ Hq]%elem_of_difference; apply Hq; by apply elem_of_singleton). by rewrite size_singleton.
    - apply set_eq. intros q. rewrite elem_of_union, elem_of_difference, elem_of_singleton. destruct (decide (q = res)) as [->|]; tauto. }
  split; [lia|]. split; [congruence|]. split.
  - intros q. rewrite HA, He3, Hu3, lookup_delete_None, elem_of_difference, elem_of_singleton. split.
    + intros [[<-|?]|[? _]]; [by right|by left|by right].
    + intros [?|Hq]; [by left; right|]. destruct (decide (q = res)) as [->|]; [by left; left|by right].
  - intros q g Hq. apply HB in Hq. rewrite He3 in Hq. by apply lookup_delete_Some in Hq as [_ ?].
Qed.

Lemma reg_close_all_spec cb F d w u : optional (closing_keeps u) cb -> good_uid u -> inv F d w ->
  exists n w', cloak_server_registry_close_all_for_uid cb (Some u) w = Some (n, w') /\ inv F d w' /\ user_entries F w' u = ∅ /\
    0 <= n <= Z.of_nat (size (user_entries F w u)) /\
    (cb = None -> n = Z.of_nat (size (user_entries F w u)) /\ w_app w' = w_app w /\
       without_entries w w' (fun p => p ∈ user_entries F w u)).
Proof.
  intros Hcb Hu Hinv. pose proof Hinv as (_&(Hn&Hmax&_)&_&Htab&_). unfold cloak_server_registry_close_all_for_uid.
  destruct (uid_bucket_total F w u Htab Hu) as (b&Hb&_). rewrite Hb. cbn [mbind option_bind].
  assert (Hsub : user_entries F w u ⊆ dom (w_entries w) ∖ F).
  { intros q (HF&f&Hf&_)%elem_of_user. apply elem_of_difference. split; [by eapply elem_of_dom_2|done]. }
  apply subseteq_size in Hsub. change CLOAK_REGISTRY_MAX_SESSIONS with 1024 in Hmax.
  assert (Hall : (size (dom (w_entries w) ∖ F) <= size (w_entries w))%nat).
  { rewrite <- size_dom. apply subseteq_size. by intros q [? _]%elem_of_difference. }
  destruct (close_all_loop_spec cb (size (w_entries w)) F d w u b 0) as (n&w'&H1&H2&H3&H4&H5); [done..|lia|lia|lia|].
  rewrite Z.add_0_l in *. exists n, w'. split; [exact H1|]. split; [exact H2|]. split; [exact H3|]. split; [exact H4|exact H5].
Qed.
End close.

(** * The registry, call after call

    A registry from [cloak_server_registry_init] on, under any sequence of
    calls, of breaking sessions, of expiring sweep timers and of what sessions
    and owner do on their own. *)

Section reach.
Context {R T A : Type} {RR : Reactor R} {RL : ReactorLaws R} {SS : Sessions R T} {SL : SessionsLaws R T}.
#[local] Abbreviation world := (reg_world R T A).
Implicit Types w : world.

(** ** A new registry *)

(** Nothing is allocated yet. *)
Definition nothing_yet w : Prop :=
  w_entries w = ∅ /\ 0 < w_next w /\ reactor_ok (w_reactor w) /\ s_ok (w_reactor w) (w_sessions w) /\ s_alive (w_sessions w) = ∅.

Lemma zero_chain_ok n bucket (member : Z -> reg_entry -> Prop) : chain_ok (zero_chain (Z.of_nat n)) n bucket ∅ member.
Proof.
  assert (Hc : concat (replicate n (@nil Z)) = []) by (induction n; done).
  unfold zero_chain. rewrite Nat2Z.id. exists (replicate n []). split; [apply length_replicate|]. split; [split; [|split; [|split]]|split; [|split]].
  - cbn. by rewrite !length_replicate.
  - intros i l [-> Hi]%lookup_replicate. exists 0. split; [cbn; by apply lookup_replicate|]. by apply linked_nil.
  - rewrite Hc. constructor.
  - intros e f He. cbn in He. by rewrite lookup_empty in He.
  - cbn. by rewrite !dom_empty_L.
  - intros p. rewrite Hc. split; [by intros ?%elem_of_nil|]. intros (f&Hf&_). by rewrite lookup_empty in Hf.
  - intros i l p f [-> _]%lookup_replicate Hp. by apply elem_of_nil in Hp.
Qed.

Lemma reg_init_spec tape w rc w' tape' : rand_ok tape -> nothing_yet w ->
  cloak_server_registry_init true true true tape w = (rc, w', tape') ->
  rc = 0 /\ inv ∅ false w' /\ w_entries w' = ∅ /\ rg_on_broken (w_reg w') = true.
Proof.
  intros Htape (He&Hn&Hr&Hs&Hal). unfold cloak_server_registry_init. cbn [negb orb].
  destruct (cloak_random_bytes 16 tape) as [key tape1] eqn:Ek. intros [= <- <- <-]. split; [done|]. split; [|done].
  split; [|split; [|split; [|split; [|split]]]].
  - unfold chains_ok. cbn [w_entries set_reg w_reg]. rewrite He.
    split; [exact (zero_chain_ok 2048 _ _)|]. split; [exact (zero_chain_ok 1024 _ _)|exact (zero_chain_ok 1 _ _)].
  - unfold counts_ok. cbn [w_entries set_reg w_reg]. rewrite He. cbn. split; [done|]. split; [done|]. done.
  - intros p q f g Hp. cbn in Hp. by rewrite He in Hp.
  - split; [done|]. split; [done|]. split; [intros p f Hp; cbn in Hp; by rewrite He in Hp|]. cbn.
    split; [by apply (random_bytes_length 16 tape key tape1)|]. by apply (random_bytes_ok 16 tape key tape1).
  - split; [done|]. split; [done|]. split; [cbn; by rewrite Hal, He, dom_empty_L|]. done.
  - by intros _ _ ?.
Qed.
(** ** Running it *)

(** What the owner does when a session breaks. *)
Variable on_broken : Z -> bytes -> Z -> world -> option world.

(** A call of the owner, with what it may assume, or something the event loop
    and the sessions do. *)
Inductive reg_event :=
| Find (u : bytes) (sid : Z)
| GetOrCreate (u : bytes) (sid : Z) (c : cloak_session_config)
| Close (u : bytes) (sid : Z)
| CountForUid (u : bytes)
| CloseAll (cb : option (Z -> bytes -> Z -> world -> option world)) (u : bytes)
| Destroy
| Broken (e : Z)
| SweepDue (r : R)
| Outside (r : R) (s : T).

Definition event_ok (ev : reg_event) w : Prop :=
  match ev with
  | Find u _ | Close u _ | CountForUid u => good_uid u
  | GetOrCreate u sid c => good_uid u /\ 0 <= sid < 4294967296 /\ s_good (w_sessions w) (with_adapter c)
  | CloseAll cb u => good_uid u /\ optional (closing_keeps u) cb
  | Destroy => True
  | Broken e => exists f, w_entries w !! e = Some f /\ re_dead f = 0
  | SweepDue r => rg_sweep_timer (w_reg w) <> CLOAK_TIMER_INVALID /\ r_fire (w_reactor w) = Some (rg_sweep_timer (w_reg w), r)
  | Outside r s => reactor_ok r /\ s_ok r s /\ s_alive s = s_alive (w_sessions w) /\ apart (w_reactor w) (w_sessions w) r s
  end.

Definition event_run (ev : reg_event) w : option world :=
  match ev with
  | Find u sid => snd <$> cloak_server_registry_find (Some u) sid w
  | GetOrCreate u sid c => snd <$> cloak_server_registry_get_or_create (Some u) sid (Some c) w
  | Close u sid => cloak_server_registry_close (Some u) sid w
  | CountForUid u => snd <$> cloak_server_registry_count_for_uid (Some u) w
  | CloseAll cb u => snd <$> cloak_server_registry_close_all_for_uid cb (Some u) w
  | Destroy => cloak_server_registry_destroy w
  | Broken e => registry_on_session_broken on_broken e w
  | SweepDue r => registry_sweep_timer_cb (set_outside w r (w_sessions w))
  | Outside r s => Some (set_outside w r s)
  end.

Inductive reg_reached : world -> Prop :=
| reached_init tape w w' rc tape' :
    rand_ok tape -> nothing_yet w -> cloak_server_registry_init true true true tape w = (rc, w', tape') -> reg_reached w'
| reached_step ev w w' : reg_reached w -> event_ok ev w -> event_run ev w = Some w' -> reg_reached w'.

Hypothesis owner : owner_keeps on_broken.

(** The sweep timer has expired: it is the reactor's no more. *)
Lemma sweep_due_spec F d w r : inv F d w -> event_ok (SweepDue r) w ->
  exists w', event_run (SweepDue r) w = Some w' /\ inv F false w' /\ rg_sweep_timer (w_reg w') = CLOAK_TIMER_INVALID /\
    w_app w' = w_app w /\ without_entries w w' (reapable F w).
Proof.
  intros Hinv [Ht Hfire]. pose proof Hinv as (_&_&_&_&(Hr&Hs&_&Hsw)&_). destruct (Hsw Ht) as [_ Hid].
  destruct (fire_law _ _ _ Hr Hfire) as (Hr'&_). pose proof (s_fire_law _ _ _ _ Hr Hs Hfire Hid) as Hs'.
  assert (Hinv1 : inv F true (set_reg w (with_sweep (w_reg w) CLOAK_TIMER_INVALID (rg_destroyed (w_reg w)))))
    by (by apply (inv_with_sweep F d)).
  pose proof (inv_outside _ _ _ _ _ Hinv1 Hr' Hs' eq_refl ltac:(done)) as Hinv2.
  destruct (reg_sweep_spec F true _ Hinv2) as (w'&Hrun&Hinv'&Hre). exists w'. split; [exact Hrun|]. split; [exact Hinv'|].
  split; [by destruct (reaped_reg _ _ _ Hre) as (_&->&_)|]. split; [apply Hre|]. exact (reaped_without _ _ _ Hre).
Qed.

Lemma event_spec ev w : inv ∅ false w -> event_ok ev w -> exists w', event_run ev w = Some w' /\ inv ∅ false w'.
Proof.
  intros Hinv Hok. destruct ev as [u sid|u sid c|u sid|u|cb u| |e|r|r s]; cbn [event_run event_ok] in *.
  - destruct (find_live_spec ∅ false w u sid Hinv Hok) as (p&w'&E&Hpr&_). cbn [cloak_server_registry_find]. rewrite E. exists w'. split; [done|by eapply inv_probed].
  - destruct Hok as (Hu&Hsid&Hc). destruct (get_or_create_spec ∅ false w u sid c Hinv Hu Hsid Hc) as (p&o&w'&->&Hinv'&_). by exists w'.
  - destruct (reg_close_spec ∅ false w u sid Hinv Hok) as (w'&->&Hinv'&_). by exists w'.
  - destruct (count_for_uid_spec ∅ false w u Hinv Hok) as (w'&->&Hpr). exists w'. split; [done|by eapply inv_probed].
  - destruct Hok as [Hu Hcb]. destruct (reg_close_all_spec cb ∅ false w u Hcb Hu Hinv) as (n&w'&->&Hinv'&_). by exists w'.
  - destruct (reg_destroy_spec ∅ false w Hinv) as (w'&->&Hinv'&_). by exists w'.
  - destruct Hok as (f&Hf&Hd). destruct (broken_spec on_broken ∅ false w e f owner Hinv Hf (not_elem_of_empty e) Hd) as (w1&w2&w'&_&_&_&_&_&->&Hinv'&_).
    by exists w'.
  - destruct (sweep_due_spec ∅ false w r Hinv Hok) as (w'&E&Hinv'&_). by exists w'.
  - destruct Hok as (Hr&Hs&Hal&Hap). eexists. split; [done|]. apply inv_outside; try done.
    destruct Hinv as (_&_&_&_&(_&_&_&Hsw)&_). intros Hne. by apply Hap; apply (Hsw Hne).
Qed.

Lemma reached_inv w : reg_reached w -> inv ∅ false w.
Proof.
  induction 1 as [tape w w' rc tape' Ht Hn Hi|ev w w' _ IH Hok Hrun].
  - by apply (reg_init_spec tape w rc w' tape' Ht Hn Hi).
  - destruct (event_spec ev w IH Hok) as (w2&Hrun2&Hinv). rewrite Hrun in Hrun2. by injection Hrun2 as ->.
Qed.
End reach.
