(* ===== verification/RegistrySpec.v ===== *)
(** * What the registry promises

    The table of live sessions as a finite map, and every function of
    registry.h as an operation on it; what a session that breaks and a user
    who is thrown out can rely on. *)
From stdpp Require Import gmap.
From S2P Require Import Prelude Fallible Random SipHash ReactorApi ClientAuth Session Hlist Registry RegistryInv RegistrySteps RegistryRun RegistryApi RegistryClose.

Section table.
Context {R T A : Type} {RR : Reactor R} {RL : ReactorLaws R} {SS : Sessions R T} {SL : SessionsLaws R T}.
#[local] Abbreviation world := (reg_world R T A).
Implicit Types w : world.

(** ** The abstract table *)

Definition key_of (f : reg_entry) : bytes * Z := (re_uid f, re_session_id f).

(** User and session id, and the session. *)
Definition live_table w : gmap (bytes * Z) Z :=
  list_to_map ((fun x : Z * reg_entry => (key_of x.2, x.1)) <$> map_to_list (filter (fun x => re_dead x.2 = 0) (w_entries w))).

Lemma live_keys_nodup w : unique_live ∅ w ->
  NoDup (((fun x : Z * reg_entry => (key_of x.2, x.1)) <$> map_to_list (filter (fun x => re_dead x.2 = 0) (w_entries w))).*1).
Proof.
  intros Hu. rewrite <- list_fmap_compose. apply NoDup_fmap_2_strong; [|apply NoDup_map_to_list].
  intros [p f] [q g] Hp Hq. apply elem_of_map_to_list, map_lookup_filter_Some in Hp as [Hp Hpd], Hq as [Hq Hqd].
  cbn in *. intros [= Huu Hs]. assert (p = q) as -> by (by apply (Hu p q f g)). rewrite Hp in Hq. by injection Hq as ->.
Qed.

Lemma lookup_live_table w u sid p : unique_live ∅ w -> live_table w !! (u, sid) = Some p <-> live_at ∅ w u sid p.
Proof.
  intros Hu. unfold live_table. rewrite <- elem_of_list_to_map by (by apply live_keys_nodup).
  rewrite list_elem_of_fmap. split.
  - intros ([q f]&[= -> -> ->]&Hq). apply elem_of_map_to_list, map_lookup_filter_Some in Hq as [Hq Hd].
    split; [apply not_elem_of_empty|]. rewrite Hq. cbn in *. by rewrite <- Hd; destruct f.
  - intros [_ Hp]. exists (p, RegEntry u sid 0). split; [done|]. apply elem_of_map_to_list, map_lookup_filter_Some. by split.
Qed.

Lemma inv_unique d w : inv ∅ d w -> unique_live ∅ w.
Proof. by intros (_&_&Hu&_). Qed.

(** The table after a call, from what is live after it. *)
Lemma live_table_is w (M : gmap (bytes * Z) Z) : unique_live ∅ w ->
  (forall u sid p, live_at ∅ w u sid p <-> M !! (u, sid) = Some p) -> live_table w = M.
Proof.
  intros Hu HM. apply map_eq. intros [u sid]. apply option_eq. intros p. by rewrite lookup_live_table, HM.
Qed.

Lemma live_table_entries w w' : w_entries w' = w_entries w -> live_table w' = live_table w.
Proof. unfold live_table. by intros ->. Qed.

(** The values of a part of the table. *)
Lemma table_size (P : bytes -> Prop) `{!forall u, Decision (P u)} w (X : gset Z) : unique_live ∅ w ->
  (forall p, p ∈ X <-> exists u sid, P u /\ live_at ∅ w u sid p) -> size X = size (filter (fun x => P x.1.1) (live_table w)).
Proof.
  intros Hu HX. set (M := filter _ _). assert (HM : forall u sid p, M !! (u, sid) = Some p <-> live_at ∅ w u sid p /\ P u).
  { intros u sid p. unfold M. rewrite map_lookup_filter_Some. cbn. by rewrite lookup_live_table. }
  assert (Hnd : NoDup (map_to_list M).*2).
  { apply NoDup_fmap_2_strong; [|apply NoDup_map_to_list]. intros [[u sid] p] [[u' sid'] q] H1 H2. cbn. intros ->.
    apply elem_of_map_to_list, HM in H1 as [[_ H1] _], H2 as [[_ H2] _]. rewrite H1 in H2. by injection H2 as -> ->. }
  assert (HXl : X = list_to_set (map_to_list M).*2).
  { apply set_eq. intros p. rewrite elem_of_list_to_set, list_elem_of_fmap, HX. split.
    - intros (u&sid&HP&Hp). exists ((u, sid), p). split; [done|]. apply elem_of_map_to_list, HM. by split.
    - intros ([[u sid] q]&->&Hq). apply elem_of_map_to_list, HM in Hq as [Hq HP]. by exists u, sid. }
  rewrite HXl, size_list_to_set by done. rewrite length_fmap. apply length_map_to_list.
Qed.

Lemma count_table d w : inv ∅ d w -> cloak_server_registry_count w = Z.of_nat (size (live_table w)).
Proof.
  intros Hinv. rewrite (count_spec ∅ d w Hinv). f_equal.
  rewrite (table_size (fun _ => True) w _ (inv_unique _ _ Hinv)).
  - rewrite map_filter_id; [done|]. by intros.
  - intros p. rewrite elem_of_live_entries. split.
    + intros (f&Hf&_&Hd). exists (re_uid f), (re_session_id f). split; [done|]. split; [apply not_elem_of_empty|]. rewrite Hf. by rewrite <- Hd; destruct f.
    + intros (u&sid&_&[HF Hp]). by exists (RegEntry u sid 0).
Qed.

Lemma count_for_uid_table d w u : inv ∅ d w ->
  size (live_of ∅ w u) = size (filter (fun x => x.1.1 = u) (live_table w)).
Proof.
  intros Hinv. refine (table_size (fun v => v = u) w _ (inv_unique _ _ Hinv) _). intros p. rewrite elem_of_live. split.
  - intros (f&Hf&Hd&Hu&_). exists (re_uid f), (re_session_id f). split; [done|]. split; [apply not_elem_of_empty|]. rewrite Hf. by rewrite <- Hd; destruct f.
  - intros (v&sid&->&[HF Hp]). by exists (RegEntry u sid 0).
Qed.

(** Losing entries. *)
Lemma live_table_without d w w' X : inv ∅ false w -> inv ∅ d w' -> without_entries w w' X ->
  forall u sid p, live_table w' !! (u, sid) = Some p <-> live_table w !! (u, sid) = Some p /\ ~ X p.
Proof.
  intros Hinv Hinv' [HA HB] u sid p. rewrite !lookup_live_table by (by eapply inv_unique). split.
  - intros [HF Hp]. split; [split; [done|by apply HB]|]. intros HX.
    assert (Hn : w_entries w' !! p = None) by (apply HA; by right). congruence.
  - intros [[HF Hp] HX]. split; [done|]. destruct (w_entries w' !! p) as [g|] eqn:E.
    + apply HB in E. congruence.
    + apply HA in E as [E|?]; [congruence|done].
Qed.

(** ** The functions on the table *)

Lemma find_table w u sid : inv ∅ false w -> good_uid u ->
  exists w', cloak_server_registry_find (Some u) sid w = Some (default 0 (live_table w !! (u, sid)), w') /\ live_table w' = live_table w.
Proof.
  intros Hinv Hu. destruct (find_live_spec ∅ false w u sid Hinv Hu) as (p&w'&E&Hpr&Hcase). exists w'. split.
  - cbn [cloak_server_registry_find]. rewrite E. do 2 f_equal. destruct Hcase as [[-> Hno]|[_ Hat]].
    + destruct (live_table w !! (u, sid)) as [q|] eqn:Eq; [|done]. apply lookup_live_table in Eq; [|by eapply inv_unique]. by apply Hno in Eq.
    + by rewrite (proj2 (lookup_live_table w u sid p (inv_unique _ _ Hinv)) Hat).
  - destruct Hpr as (a&b&->). done.
Qed.

Lemma create_table w u sid c :
  inv ∅ false w -> good_uid u -> 0 <= sid < 4294967296 -> s_good (w_sessions w) (with_adapter c) ->
  exists p out w', cloak_server_registry_get_or_create (Some u) sid (Some c) w = Some (p, out, w') /\
    match live_table w !! (u, sid) with
    | Some q => p = q /\ out = Some 0 /\ live_table w' = live_table w
    | None =>
        (out = Some 1 /\ p <> 0 /\ w_entries w !! p = None /\ live_table w' = <[(u, sid) := p]> (live_table w)) \/
        (out = None /\ p = 0 /\ live_table w' = live_table w /\
         (CLOAK_REGISTRY_MAX_SESSIONS <= Z.of_nat (size (w_entries w)) \/ hd true (w_mem w) = false \/
          exists rc r s, s_init (w_next w) sid (with_adapter c) (w_reactor w) (w_sessions w) = Some (rc, r, s) /\ rc <> 0))
    end.
Proof.
  intros Hinv Hu Hsid Hc. pose proof (inv_unique _ _ Hinv) as Huq.
  destruct (get_or_create_spec ∅ false w u sid c Hinv Hu Hsid Hc) as (p&out&w'&E&Hinv'&_&Hcase). exists p, out, w'. split; [done|].
  destruct Hcase as [(->&Hp0&Hat&He)|[Hno Hcase]].
  - rewrite (proj2 (lookup_live_table w u sid p Huq) Hat). split; [done|]. split; [done|]. by apply live_table_entries.
  - destruct (live_table w !! (u, sid)) as [q|] eqn:Eq; [apply lookup_live_table in Eq; [by apply Hno in Eq|done]|].
    destruct Hcase as [(->&->&He)|(->&->&He&Hwhy)]; [left|right].
    + pose proof (inv_next _ _ _ Hinv) as Hnew. split; [done|]. split.
      { destruct Hinv as (_&_&_&(_&Hn&_)&_). lia. }
      split; [done|]. apply live_table_is; [by eapply inv_unique|]. intros v s p. unfold live_at. rewrite He, lookup_insert_Some.
      rewrite lookup_insert_Some, lookup_live_table by done. unfold live_at. split.
      * intros [HF [[<- [= <- <-]]|[Hne Hp]]]; [by left|]. right. split; [|done]. intros [= <- <-]. by apply (Hno p).
      * intros [[[= <- <-] <-]|[Hne [HF Hp]]]; (split; [apply not_elem_of_empty|]); [by left|]. right. split; [|done].
        intros <-. congruence.
    + split; [done|]. split; [done|]. split; [by apply live_table_entries|]. destruct Hwhy as [Hn|Hwhy]; [|by right]. left.
      destruct Hinv as (_&(Hcnt&_)&_). rewrite <- size_dom. rewrite difference_empty_L in Hcnt. lia.
Qed.

Lemma close_table w u sid : inv ∅ false w -> good_uid u ->
  exists w', cloak_server_registry_close (Some u) sid w = Some w' /\ live_table w' = delete (u, sid) (live_table w).
Proof.
  intros Hinv Hu. pose proof (inv_unique _ _ Hinv) as Huq.
  destruct (reg_close_spec ∅ false w u sid Hinv Hu) as (w'&E&Hinv'&_&Hgone). exists w'. split; [done|].
  apply live_table_is; [by eapply inv_unique|]. intros v s p. rewrite <- lookup_live_table by (by eapply inv_unique).
  rewrite (live_table_without _ _ _ _ Hinv Hinv' Hgone), lookup_delete_Some, !lookup_live_table by done. split.
  - intros [Hat Hn]. split; [|done]. by intros [= <- <-].
  - intros [Hne Hat]. split; [done|]. intros Hat'. apply Hne. destruct Hat as [_ H1], Hat' as [_ H2]. rewrite H1 in H2.
    by injection H2 as -> ->.
Qed.

Lemma close_all_table w u : inv ∅ false w -> good_uid u ->
  exists w', cloak_server_registry_close_all_for_uid None (Some u) w = Some (Z.of_nat (size (user_entries ∅ w u)), w') /\
    live_table w' = filter (fun x => x.1.1 <> u) (live_table w).
Proof.
  intros Hinv Hu. pose proof (inv_unique _ _ Hinv) as Huq.
  destruct (reg_close_all_spec None ∅ false w u I Hu Hinv) as (n&w'&E&Hinv'&_&_&Hx). destruct (Hx eq_refl) as (->&_&Hgone).
  exists w'. split; [done|]. apply live_table_is; [by eapply inv_unique|]. intros v s p.
  rewrite <- lookup_live_table by (by eapply inv_unique).
  rewrite (live_table_without _ _ _ _ Hinv Hinv' Hgone), map_lookup_filter_Some, elem_of_user, !lookup_live_table by done. cbn. split.
  - intros [[HF Hp] Hn]. split; [done|]. intros ->. apply Hn. split; [done|]. by exists (RegEntry u s 0).
  - intros [[HF Hp] Hne]. split; [done|]. intros (_&f&Hf&Hfu). rewrite Hp in Hf. by injection Hf as <-.
Qed.
End table.

(** ** The properties *)

Section spec.
Context {R T A : Type} {RR : Reactor R} {RL : ReactorLaws R} {SS : Sessions R T} {SL : SessionsLaws R T}.
#[local] Abbreviation world := (reg_world R T A).
Implicit Types w : world.

Variable on_broken : Z -> bytes -> Z -> world -> option world.
Hypothesis owner : owner_keeps on_broken.


(** C5: refinement.  The three chains, the dead entries and the counters are a
    finite map from user and session id to sessions: finding is lookup,
    closing is deletion, throwing a user out is a filter, the two counts are
    sizes, and creating inserts an address that was not in use, or is refused
    for one of three reasons and changes nothing. *)
Theorem registry_refines_table w u sid : reg_reached on_broken w -> good_uid u -> 0 <= sid < 4294967296 ->
  (exists w', cloak_server_registry_find (Some u) sid w = Some (default 0 (live_table w !! (u, sid)), w') /\ live_table w' = live_table w) /\
  (forall c, s_good (w_sessions w) (with_adapter c) ->
    exists p out w', cloak_server_registry_get_or_create (Some u) sid (Some c) w = Some (p, out, w') /\
    match live_table w !! (u, sid) with
    | Some q => p = q /\ out = Some 0 /\ live_table w' = live_table w
    | None =>
        (out = Some 1 /\ p <> 0 /\ w_entries w !! p = None /\ live_table w' = <[(u, sid) := p]> (live_table w)) \/
        (out = None /\ p = 0 /\ live_table w' = live_table w /\
         (CLOAK_REGISTRY_MAX_SESSIONS <= Z.of_nat (size (w_entries w)) \/ hd true (w_mem w) = false \/
          exists rc r s, s_init (w_next w) sid (with_adapter c) (w_reactor w) (w_sessions w) = Some (rc, r, s) /\ rc <> 0))
    end) /\
  (exists w', cloak_server_registry_close (Some u) sid w = Some w' /\ live_table w' = delete (u, sid) (live_table w)) /\
  (exists w', cloak_server_registry_close_all_for_uid None (Some u) w = Some (Z.of_nat (size (user_entries ∅ w u)), w') /\
     live_table w' = filter (fun x => x.1.1 <> u) (live_table w)) /\
  (exists w', cloak_server_registry_count_for_uid (Some u) w =
     Some (Z.of_nat (size (filter (fun x => x.1.1 = u) (live_table w))), w') /\ live_table w' = live_table w) /\
  cloak_server_registry_count w = Z.of_nat (size (live_table w)).
Proof.
  intros Hr Hu Hsid. pose proof (reached_inv on_broken owner w Hr) as Hinv. split; [by apply find_table|].
  split; [intros c Hc; by apply create_table|]. split; [by apply close_table|]. split; [by apply close_all_table|].
  split; [|by eapply count_table]. destruct (count_for_uid_spec ∅ false w u Hinv Hu) as (w'&E&(a&b&->)).
  eexists. rewrite <- (count_for_uid_table false) by done. by split.
Qed.


(** C9: liveness.  Throwing a user out ends, with no entry of the user left,
    live or dead, and no session of another user touched by the registry
    itself, although the callback may call the registry again. *)
Theorem registry_close_all_complete cb w u : reg_reached on_broken w -> good_uid u -> optional (closing_keeps u) cb ->
  exists n w', cloak_server_registry_close_all_for_uid cb (Some u) w = Some (n, w') /\ reg_reached on_broken w' /\
    (forall p f, w_entries w' !! p = Some f -> re_uid f <> u) /\ 0 <= n <= Z.of_nat (size (user_entries ∅ w u)) /\
    (cb = None -> n = Z.of_nat (size (user_entries ∅ w u)) /\
       forall p f, re_uid f <> u -> w_entries w' !! p = Some f <-> w_entries w !! p = Some f).
Proof.
  intros Hr Hu Hcb. pose proof (reached_inv on_broken owner w Hr) as Hinv.
  destruct (reg_close_all_spec cb ∅ false w u Hcb Hu Hinv) as (n&w'&E&Hinv'&Hempty&Hn&Hx). exists n, w'. split; [done|]. split.
  { eapply (reached_step on_broken (CloseAll cb u)); [exact Hr|by split|]. cbn [event_run]. by rewrite E. }
  split.
  { intros p f Hp Hfu. assert (Hin : p ∈ user_entries ∅ w' u); [|rewrite Hempty in Hin; by apply not_elem_of_empty in Hin].
    apply elem_of_user. split; [apply not_elem_of_empty|by exists f]. }
  split; [done|]. intros Hcb0. destruct (Hx Hcb0) as (->&_&HA&HB). split; [done|]. intros p f Hfu. split; [by apply HB|]. intros Hp.
  destruct (w_entries w' !! p) as [g|] eqn:Eg; [apply HB in Eg; congruence|]. apply HA in Eg as [?|(_&g&Hg&Hgu)%elem_of_user]; congruence.
Qed.
End spec.
