(* ===== verification/RegistrySessions.v ===== *)
(** * Sessions side by side

    The registry asks of sessions only what [Sessions] says.  Here are the
    sessions of [Session] as many of them, each under the address of its
    entry, in one event loop, with one clock, one generator and one set of
    valves: constructing and destroying one of them are [cloak_session_init]
    and [cloak_session_destroy], and [host_laws] shows that neither disturbs
    the others. *)
From stdpp Require Import gmap.
From S2P Require Import Prelude Refinement Fallible Random Frame Aead ByteQueue MsgQueue Heap Stream StreamSpec StrmTab Valve ReactorApi Conn ConnInv Switchboard SwitchboardRng SwitchboardInv SwitchboardRun Session SessionInv SessionStreams SessionSteps SessionRun SessionSend SessionLife Registry RegistryInv.

(** What is a session's own. *)
Record session_part (A : Type) := SessionPart { pt_sb : cloak_switchboard; pt_log : list pool_event; pt_user : session_user A }.
#[global] Arguments SessionPart {A}.
#[global] Arguments pt_sb {A}.
#[global] Arguments pt_log {A}.
#[global] Arguments pt_user {A}.

Record session_host (A : Type) := SessionHost {
  sh_live : gmap Z (session_part A);
  sh_valves : gmap Z cloak_valve_t;
  sh_clock : option Z -> Z;
  sh_rand : rand
}.
#[global] Arguments SessionHost {A}.
#[global] Arguments sh_live {A}.
#[global] Arguments sh_valves {A}.
#[global] Arguments sh_clock {A}.
#[global] Arguments sh_rand {A}.

(** How unlucky the generator may be, how much an application may still send,
    and what a session finds when it is constructed. *)
Class Host (A : Type) := {
  host_unlucky : nat;
  host_budget : A -> Z;
  host_user : Z -> session_user A;
  host_user_new e : u_heap (host_user e) = ∅ /\ u_timers (host_user e) = ∅ /\ u_log (host_user e) = []
}.

Section host.
Context {R A : Type} {RR : Reactor R} {RL : ReactorLaws R} {EV : Evp} {EL : EvpLaws} {HO : Host A}.
#[local] Abbreviation world := (pool_world R (session_user A)).
#[local] Abbreviation budget := (session_budget host_budget).
#[local] Abbreviation session_ok := (pool_inv (CO := session_companion) host_unlucky budget).
Implicit Types p : world.
Implicit Types h : session_host A.

(** The session with what it shares. *)
Definition world_of (r : R) h (x : session_part A) : world :=
  PoolWorld (pt_sb x) r (sh_valves h) (sh_clock h) (sh_rand h) (pt_log x) (pt_user x).
Definition part_of p : session_part A := SessionPart (p_sb p) (p_log p) (p_user p).
Definition shared_of (live : gmap Z (session_part A)) p : session_host A := SessionHost live (p_valves p) (p_clock p) (p_rand p).

Definition host_init (e id : Z) (c : cloak_session_config) (r : R) h : option (Z * R * session_host A) :=
  '(rc, p) ← cloak_session_init id c (world_of r h (SessionPart zero_switchboard [] (host_user e)));
  Some (rc, p_reactor p, shared_of (if rc =? 0 then <[e := part_of p]> (sh_live h) else sh_live h) p).

Definition host_destroy (e : Z) (r : R) h : option (R * session_host A) :=
  x ← sh_live h !! e;
  p ← cloak_session_destroy (world_of r h x);
  Some (p_reactor p, shared_of (delete e (sh_live h)) p).

(** ** What a session has in the event loop *)

Definition own_timer (x : session_part A) (t : Z) : Prop :=
  t <> CLOAK_TIMER_INVALID /\ (is_Some (u_timers (pt_user x) !! t) \/ t ∈ map timer_of (sb_conns (pt_sb x))).
Definition part_timers (x : session_part A) : gset Z :=
  (dom (u_timers (pt_user x)) ∪ list_to_set (map timer_of (sb_conns (pt_sb x)))) ∖ {[CLOAK_TIMER_INVALID]}.
Definition host_timers h : gset Z := ⋃ (part_timers <$> (map_to_list (sh_live h)).*2).

Lemma elem_of_part x t : t ∈ part_timers x <-> own_timer x t.
Proof.
  unfold part_timers, own_timer. rewrite elem_of_difference, elem_of_union, elem_of_dom, elem_of_list_to_set, elem_of_singleton. tauto.
Qed.

Lemma elem_of_host h t : t ∈ host_timers h <-> exists e x, sh_live h !! e = Some x /\ own_timer x t.
Proof.
  unfold host_timers. rewrite elem_of_union_list. split.
  - intros (X&HX&Ht). apply list_elem_of_fmap in HX as (x&->&Hx). apply list_elem_of_fmap in Hx as ([e y]&->&Hy).
    apply elem_of_map_to_list in Hy. exists e, y. split; [done|by apply elem_of_part].
  - intros (e&x&Hx&Ht). exists (part_timers x). split; [|by apply elem_of_part]. apply list_elem_of_fmap. exists x. split; [done|].
    apply list_elem_of_fmap. exists (e, x). split; [done|by apply elem_of_map_to_list].
Qed.

(** Two sessions have nothing in common. *)
Definition parts_apart (x y : session_part A) : Prop :=
  (forall t, own_timer x t -> ~ own_timer y t) /\ (forall f, f ∈ fds (sb_conns (pt_sb x)) -> f ∉ fds (sb_conns (pt_sb y))).

Definition env_fit h : Prop := env_ok (sh_clock h) /\ rand_ok (sh_rand h) /\ fair host_unlucky (sh_rand h).

Definition host_ok (r : R) h : Prop :=
  reactor_ok r /\ env_fit h /\ (forall e x, sh_live h !! e = Some x -> session_ok 0 (world_of r h x) /\ pool_quiet (world_of r h x)) /\
  (forall e f x y, e <> f -> sh_live h !! e = Some x -> sh_live h !! f = Some y -> parts_apart x y).

(** What the caller of [cloak_session_init] gives. *)
Definition host_good h (c : cloak_session_config) : Prop :=
  config_good c /\ exists v, valve_load (sh_valves h) (sc_valve c) = Some v /\
    forall e, pool_room budget 0 (host_user e) v [].

#[export] Instance host_sessions : Sessions R (session_host A) := {|
  s_init := host_init;
  s_destroy := host_destroy;
  s_good := host_good;
  s_alive h := dom (sh_live h);
  s_timers := host_timers;
  s_ok := host_ok
|}.

(** ** Steps of somebody else *)

(** What a session sees of a step that is not its own. *)
Definition spared (x : session_part A) (r r' : R) : Prop :=
  aged r r' /\ (forall t, own_timer x t -> armed r t -> armed r' t) /\
  (forall f, f ∈ fds (sb_conns (pt_sb x)) -> interest_in r' f = interest_in r f).

(** Sharing only what was shared before. *)
Definition same_env h h' : Prop := sh_valves h' = sh_valves h /\ sh_clock h' = sh_clock h /\ later (sh_rand h) (sh_rand h').

Lemma session_spared r r' h h' x :
  session_ok 0 (world_of r h x) -> reactor_ok r' -> spared x r r' -> same_env h h' -> session_ok 0 (world_of r' h' x).
Proof.
  intros [((_&Hck&Hrd&Hfair&Hrng)&(v&Hl&Hroom)&H1&H2&H3&H4&H5&[Hcore Hlive]&H7) Hslots] Hr' (Hag&Hat&Hw) (Ev&Ec&Hla).
  assert (Hs : pool_sane host_unlucky (world_of r' h' x)).
  { split; [exact Hr'|]. split; [cbn; rewrite Ec; exact Hck|]. split; [by eapply rand_ok_later|]. split; [by eapply fair_later|exact Hrng]. }
  assert (Hl' : valve_load (p_valves (world_of r' h' x)) (sb_valve (pt_sb x)) = Some v) by (cbn; rewrite Ev; exact Hl).
  split.
  - split; [exact Hs|]. split; [by exists v|]. do 5 (split; [assumption|]). split; [|exact H7]. split.
    + destruct Hcore as (C1&C2&C3&C4). split; [exact C1|]. split; [exact C2|]. split; [exact C3|].
      eapply core_step; [exact C4|exact Hag|by left].
    + destruct Hcore as (_&_&_&(T1&T2&T3&_)). destruct Hlive as [L1 L2]. split.
      * intros Hne. apply Hat; [split; [done|]|by apply L1]. left. destruct T3 as [|(cb&Hcb&_)]; [done|]. by exists cb.
      * intros Hc Hz Hne. destruct (L2 Hc Hz Hne) as [Ha Hcb]. split; [|done]. apply Hat; [split; [done|]|done]. left. by exists CheckTimeout.
  - intros j s Hj. eapply (other_stable host_unlucky (world_of r h x)); [by apply (Hslots j)|exact Hs|exact Ec|done|done| | |].
    + apply Hw. apply list_elem_of_fmap. exists s. split; [done|]. by eapply list_elem_of_lookup_2.
    + intros Hne. apply Hat. split; [done|]. right. apply list_elem_of_fmap. exists s. split; [done|]. by eapply list_elem_of_lookup_2.
    + exists v. split; [exact Hl'|]. by eapply room_slot.
Qed.

Lemma fit_later h h' : env_fit h -> same_env h h' -> env_fit h'.
Proof.
  intros (H1&H2&H3) (_&Hc&Hla). split; [by rewrite Hc|]. split; [by eapply rand_ok_later|by eapply fair_later].
Qed.

(** Its own timers came out of the event loop. *)
Lemma own_spent r h x t : session_ok 0 (world_of r h x) -> own_timer x t -> spent r t.
Proof.
  intros Hi [Hne Ht]. destruct (inv_ready _ _ _ _ Hi) as ((Hr&Hsp)&[(_&_&_&(T1&_)) _]&_).
  destruct Ht as [[cb Hcb]|Hin]; [by apply (T1 t cb Hcb)|]. apply Hsp. by split.
Qed.

(** ** Destroying *)

(** A step that leaves what is not [x]'s alone. *)
Definition beside (x : session_part A) p p' : Prop :=
  (p_valves p', p_clock p') = (p_valves p, p_clock p) /\ later (p_rand p) (p_rand p') /\ aged (p_reactor p) (p_reactor p') /\
  (forall t, t <> CLOAK_TIMER_INVALID -> ~ own_timer x t -> armed (p_reactor p) t -> armed (p_reactor p') t) /\
  (forall f, f ∉ fds (sb_conns (pt_sb x)) -> interest_in (p_reactor p') f = interest_in (p_reactor p) f).

Lemma beside_trans x p1 p2 p3 : beside x p1 p2 -> beside x p2 p3 -> beside x p1 p3.
Proof.
  intros (A1&B1&C1&D1&E1) (A2&B2&C2&D2&E2). split; [congruence|]. split; [by eapply later_trans|]. split; [by eapply aged_trans|].
  split; [intros t Hne Hn Ha; apply D2; auto|]. intros f Hf. rewrite (E2 f Hf). by apply E1.
Qed.

Lemma beside_moves x p p' : session_moves p p' ->
  (forall t, t <> CLOAK_TIMER_INVALID -> ~ own_timer x t -> armed (p_reactor p) t -> armed (p_reactor p') t) -> beside x p p'.
Proof.
  intros M Ha. split; [by rewrite (sm_frame _ _ M)|]. split; [apply (sm_rand _ _ M)|]. split; [apply (sm_aged _ _ M)|].
  split; [exact Ha|]. intros f _. apply (sm_watch _ _ M).
Qed.

Lemma close_internal_timers p :
  let p1 := (session_close_internal p).2 in
  u_timers (p_user p1) = u_timers (p_user p) /\ ss_teardown_timer_id (sesh p1) = ss_teardown_timer_id (sesh p) /\
  p_reactor p1 = (if negb (ss_closed (sesh p) =? 0) then p_reactor p else r_cancel_timer (p_reactor p) (ss_inactivity_timer_id (sesh p))).
Proof. cbv zeta. unfold session_close_internal. by destruct (negb (ss_closed (sesh p) =? 0)). Qed.

Lemma destroy_beside reserve p p' : session_ok reserve p -> cloak_session_destroy p = Some p' ->
  reactor_ok (p_reactor p') /\ beside (part_of p) p p'.
Proof.
  intros Hi Hd. destruct (inv_ready _ _ _ _ Hi) as (Hr&Hs&_). unfold cloak_session_destroy in Hd.
  pose proof (close_internal_spec p Hr Hs) as Hclose. pose proof (close_internal_timers p) as (Etm&Etd&Er).
  destruct (session_close_internal p) as [first p1]. cbn [snd] in *. destruct Hclose as (M1&Hi1&_). pose proof (moves_ready _ _ Hr M1) as Hr1.
  pose proof Hs as [(_&_&_&(_&T2&_)) _]. pose proof Hi1 as [(H1&H2&_&(T1'&_&T3'&_)) _].
  assert (B1 : beside (part_of p) p p1).
  { apply beside_moves; [done|]. intros t Hne Hn Ha. rewrite Er. destruct (negb _); [done|].
    apply (cancel_timer_law _ _ (proj1 Hr)). split; [|done]. intros ->. apply Hn. split; [done|]. left. by destruct T2. }
  assert (Hn : ~ pool_timer (sb_conns (p_sb p1)) (ss_teardown_timer_id (sesh p1))).
  { destruct T3' as [E|(cb&E&_)]; [intros [Hx _]; by apply Hx|by apply (T1' _ _ E)]. }
  destruct (cancel_timer_moves p1 _ Hr1 Hn) as [M2 A2].
  assert (B2 : beside (part_of p) p1 (session_cancel_timer p1 (ss_teardown_timer_id (sesh p1)))).
  { apply beside_moves; [done|]. intros t Hne Hnt Ha. apply A2. split; [|done]. intros ->. apply Hnt. split; [done|]. left. cbn.
    rewrite <- Etm. destruct T3' as [|(cb&E&_)]; [done|by exists cb]. }
  set (p2 := session_cancel_timer p1 _) in *.
  destruct (free_streams_spec p2 H1 H2) as (p3&E3&O3&_). rewrite E3 in Hd. cbn [mbind option_bind] in Hd.
  pose proof (streams_only_moves p2 p3 (moves_ready _ _ Hr1 M2) O3) as M3.
  assert (B3 : beside (part_of p) p2 p3) by (apply beside_moves; [done|]; destruct O3 as (?&?&?&?&?&?&->); done).
  pose proof (moves_trans _ _ _ (moves_trans _ _ _ M1 M2) M3) as M. pose proof (moves_ready _ _ Hr M) as [Hok3 _].
  destruct (close_conns_spec (sb_conns (p_sb p3)) (p_reactor p3) (p_log p3) Hok3) as (r'&E4&Hok'&Hw&Ht&Hag).
  unfold cloak_switchboard_destroy, cloak_switchboard_close_all in Hd. rewrite E4 in Hd. injection Hd as <-.
  split; [exact Hok'|]. eapply beside_trans; [exact B1|]. eapply beside_trans; [exact B2|]. eapply beside_trans; [exact B3|].
  rewrite (moves_sb _ _ M) in Hw, Ht. split; [done|]. split; [apply later_refl|]. split; [exact Hag|]. split.
  - intros t Hne Hnt Ha. apply Ht. split; [exact Ha|]. intros Hin. apply Hnt. split; [done|by right].
  - intros f Hf. by apply Hw.
Qed.

(** ** Constructing *)

(** ** Constructing *)

(** A successful construction arms one timer, a refusal does nothing outside. *)
Lemma init_outside id c p rc p' : cloak_session_init id c p = Some (rc, p') ->
  (p_valves p', p_clock p', p_rand p') = (p_valves p, p_clock p, p_rand p) /\
  if rc =? 0 then
    exists t, r_add_timer (r_cancel_timer (p_reactor p) 0) (sc_inactivity_timeout_ms c) = (t, p_reactor p') /\
      u_timers (p_user p') = (if t =? CLOAK_TIMER_INVALID then u_timers (p_user p) else <[t := CheckTimeout]> (u_timers (p_user p))) /\
      sb_conns (p_sb p') = []
  else p_reactor p' = p_reactor p.
Proof.
  unfold cloak_session_init. destruct (_ && _); [by intros [= <- <-]|]. destruct (_ || _ || _ || _ || _); [by intros [= <- <-]|].
  unfold session_malloc. cbv beta iota zeta.
  destruct (cloak_strmtab_init _ _ _) as [[rc1 t]|]; cbn [mbind option_bind]; [|done].
  destruct (Z.eqb_spec rc1 0) as [_|_]; cbn [negb]; [|by intros [= <- <-]]. unfold cloak_switchboard_init.
  destruct (_ || _ || _); cbn [Z.eqb negb]; [by intros [= <- <-]|]. unfold session_reschedule_inactivity_timer, session_add_timer.
  cbn [session_cancel_timer set_pool_reactor p_reactor sesh set_sesh set_user p_user u_sesh cloak_switchboard_set_valve
    cloak_switchboard_set_drained_cb set_sb ss_inactivity_timer_id ss_inactivity_timeout_ms].
  destruct (r_add_timer _ _) as [id' r] eqn:E. intros [= <- <-]. split; [done|]. cbn [Z.eqb]. by exists id'.
Qed.

Lemma init_law e id c r h :
  reactor_ok r -> host_ok r h -> e ∉ dom (sh_live h) -> host_good h c ->
  exists rc r' h', host_init e id c r h = Some (rc, r', h') /\ reactor_ok r' /\ host_ok r' h' /\
    dom (sh_live h') = (if rc =? 0 then {[e]} ∪ dom (sh_live h) else dom (sh_live h)) /\ apart r h r' h'.
Proof.
  intros Hr (_&Hfit&Hall&Hap) He [Hc (v&Hv&Hroom)]. pose proof (host_user_new e) as (U1&U2&U3). unfold host_init.
  set (p0 := world_of r h (SessionPart zero_switchboard [] (host_user e))).
  assert (H0 : no_session host_unlucky p0) by (by destruct Hfit as (?&?&?)).
  destruct (init_spec host_unlucky host_budget p0 id c v H0 Hc Hv (Hroom e)) as (rc&p&Ei&_&Hcase). rewrite Ei. cbn [mbind option_bind].
  destruct (init_outside id c p0 rc p Ei) as [Henv Hout]. injection Henv as Ev Ec Erd.
  assert (Hsame : same_env h (shared_of (if rc =? 0 then <[e := part_of p]> (sh_live h) else sh_live h) p)).
  { unfold same_env. cbn. rewrite Ev, Ec, Erd. done. }
  exists rc, (p_reactor p). eexists. split; [done|]. destruct (Z.eqb_spec rc 0) as [->|Hrc].
  2:{ rewrite Hout. split; [done|]. split; [|split; [done|]].
      - split; [done|]. split; [by eapply fit_later|]. split; [|exact Hap]. intros f x Hx.
        split; [|exact (proj2 (Hall f x Hx))].
        apply (session_spared r r h _ x (proj1 (Hall f x Hx)) Hr); [|exact Hsame]. by split.
      - intros t Ha Ht. split; [done|exact Ht]. }
  destruct Hout as (t&Et&Etm&Econ). destruct Hcase as (Hok&Hquiet&_).
  destruct (cancel_timer_law r 0 Hr) as (Hrc&Hwc&Hac). destruct (add_timer_law _ _ _ _ Hrc Et) as (Hr'&Hwa&Haa).
  assert (Hag : aged r (p_reactor p)).
  { eapply aged_trans; [apply aged_call; [exact Hr|apply (call_cancel_timer r 0)]|by eapply aged_add_timer]. }
  assert (Harm : forall i, i <> CLOAK_TIMER_INVALID -> armed r i -> armed (p_reactor p) i).
  { intros i Hi Ha. assert (Ha' : armed (r_cancel_timer r 0) i) by (by apply Hac).
    destruct (t =? CLOAK_TIMER_INVALID); [by apply Haa|]. apply Haa. by right. }
  assert (Hwatch : same_watches r (p_reactor p)) by (intros f; rewrite (Hwa f); apply Hwc).
  assert (Hnew : forall i, own_timer (part_of p) i -> ~ spent r i).
  { intros i [Hne [[cb Hcb]|Hin]]; cbn in *; [|rewrite Econ in Hin; by apply not_elem_of_nil in Hin].
    rewrite Etm in Hcb. change (u_timers (p_user p0)) with (u_timers (host_user e)) in Hcb. rewrite U2 in Hcb.
    destruct (Z.eqb_spec t CLOAK_TIMER_INVALID) as [|Ht]; [by rewrite lookup_empty in Hcb|].
    apply lookup_insert_Some in Hcb as [[<- _]|[_ Hcb]]; [|by rewrite lookup_empty in Hcb].
    intros Hsp. apply (new_timer_law _ _ _ _ Hrc Et Ht). apply (spent_law r); [done|apply (call_cancel_timer r 0)|done]. }
  split; [done|]. split; [|split].
  - split; [done|]. split; [by eapply fit_later|]. cbn [sh_live shared_of]. split.
    + intros f x. rewrite lookup_insert_Some. intros [[<- <-]|[Hne Hx]].
      * unfold world_of, shared_of, part_of. cbn. by destruct p as [? ? ? ? ? ? ?].
      * split; [|exact (proj2 (Hall f x Hx))].
        apply (session_spared r (p_reactor p) h _ x (proj1 (Hall f x Hx)) Hr'); [|exact Hsame]. split; [done|]. split; [|by intros; apply Hwatch].
        intros i [Hi _]. by apply Harm.
    + assert (Hother : forall f x, sh_live h !! f = Some x -> parts_apart (part_of p) x).
      { intros f x Hx. split.
        - intros i Hi Hix. apply (Hnew i Hi). by apply (own_spent r h x); [apply (Hall f x Hx)|].
        - intros g Hg. cbn in Hg. rewrite Econ in Hg. by apply not_elem_of_nil in Hg. }
      intros f g x y Hfg. rewrite !lookup_insert_Some. intros [[<- <-]|[Hf Hx]] [[<- <-]|[Hg Hy]]; [done|by eapply Hother| |by apply (Hap f g)].
      destruct (Hother f x Hx) as [H1 H2]. split; [intros i Hi Hi'; by apply (H1 i)|intros k Hk Hk'; by apply (H2 k)].
  - cbn. by rewrite dom_insert_L.
  - intros i Ha Hi. split; [apply Harm; [exact (armed_valid r i Hr Ha)|done]|]. intros (f&x&Hx&Hix)%elem_of_host. cbn in Hx.
    apply lookup_insert_Some in Hx as [[<- <-]|[_ Hx]].
    + apply (Hnew i Hix). by apply armed_spent.
    + apply Hi, elem_of_host. by exists f, x.
Qed.

Lemma destroy_law e r h : reactor_ok r -> host_ok r h -> e ∈ dom (sh_live h) ->
  exists r' h', host_destroy e r h = Some (r', h') /\ reactor_ok r' /\ host_ok r' h' /\
    dom (sh_live h') = dom (sh_live h) ∖ {[e]} /\ apart r h r' h'.
Proof.
  intros Hr (_&Hfit&Hall&Hap) [x Hx]%elem_of_dom. pose proof (proj1 (Hall e x Hx)) as Hi. unfold host_destroy. rewrite Hx. cbn [mbind option_bind].
  destruct (session_destroy_spec host_unlucky host_budget 0 _ Hi) as (p&Ed&_). rewrite Ed. cbn [mbind option_bind].
  destruct (destroy_beside 0 _ _ Hi Ed) as [Hr' (Henv&Hla&Hag&Hat&Hw)]. injection Henv as Ev Ec.
  replace (part_of (world_of r h x)) with x in * by (by destruct x). cbn [p_reactor world_of] in *.
  assert (Hsame : same_env h (shared_of (delete e (sh_live h)) p)) by (split; [exact Ev|split; [exact Ec|exact Hla]]).
  do 2 eexists. split; [done|]. split; [done|]. split; [|split; [cbn; by rewrite dom_delete_L|]].
  - split; [done|]. split; [by eapply fit_later|]. cbn [sh_live shared_of]. split.
    + intros f y [Hne Hy]%lookup_delete_Some. destruct (Hap e f x y Hne Hx Hy) as [Ht Hf].
      split; [|exact (proj2 (Hall f y Hy))].
      apply (session_spared r (p_reactor p) h _ y (proj1 (Hall f y Hy)) Hr'); [|exact Hsame]. split; [done|]. split.
      * intros i Hiy Ha. apply Hat; [by destruct Hiy|by intros Hix; apply (Ht i)|done].
      * intros g Hg. apply Hw. intros Hgx. by apply (Hf g).
    + intros f g y z Hfg [_ Hy]%lookup_delete_Some [_ Hz]%lookup_delete_Some. by apply (Hap f g).
  - intros i Ha Hih. split.
    + apply Hat; [exact (armed_valid r i Hr Ha)| |done]. intros Hix. apply Hih, elem_of_host. by exists e, x.
    + intros (f&y&Hy&Hiy)%elem_of_host. cbn in Hy. apply lookup_delete_Some in Hy as [_ Hy]. apply Hih, elem_of_host. by exists f, y.
Qed.

(** A call of the registry into the event loop. *)
Lemma host_call r h r' : reactor_ok r -> host_ok r h -> reactor_ok r' -> aged r r' ->
  (forall t, t ∈ host_timers h -> armed r t -> armed r' t) -> same_watches r r' -> host_ok r' h.
Proof.
  intros Hr (_&Hfit&Hall&Hap) Hr' Hag Hat Hw. split; [done|]. split; [done|]. split; [|exact Hap]. intros e x Hx.
  split; [|exact (proj2 (Hall e x Hx))].
  apply (session_spared r r' h h x (proj1 (Hall e x Hx)) Hr'); [|by split_and!]. split; [done|]. split; [|by intros; apply Hw].
  intros t Ht. apply Hat, elem_of_host. by exists e, x.
Qed.

#[export] Instance host_laws : SessionsLaws R (session_host A).
Proof.
  split; cbn [s_init s_destroy s_good s_alive s_timers s_ok host_sessions].
  - exact init_law.
  - exact destroy_law.
  - intros r h delay id r' Hr Hh E. destruct (add_timer_law _ _ _ _ Hr E) as (Hr'&Hw&Ha). split.
    + eapply host_call; [exact Hr|exact Hh|exact Hr'|by eapply aged_add_timer| |exact Hw]. intros t _ Hat.
      destruct (id =? CLOAK_TIMER_INVALID); [by apply Ha|]. apply Ha. by right.
    + intros Hne (e&x&Hx&Ht)%elem_of_host. eapply (new_timer_law r delay id r' Hr E Hne). by apply (own_spent r h x); [apply (proj1 (proj2 (proj2 Hh)) e x Hx)|].
  - intros r h id Hr Hh Hid. destruct (cancel_timer_law r id Hr) as (Hr'&Hw&Ha).
    eapply host_call; [exact Hr|exact Hh|exact Hr'|by apply aged_call; [|constructor]| |exact Hw]. intros t Ht Hat.
    apply Ha. split; [|done]. by intros ->.
  - intros r h id r' Hr Hh E Hid. destruct (fire_law _ _ _ Hr E) as (Hr'&Hw&_&Ha).
    eapply host_call; [exact Hr|exact Hh|exact Hr'|by apply aged_call; [|by econstructor]| |exact Hw]. intros t Ht Hat.
    apply Ha. split; [|done]. by intros ->.
Qed.
End host.
