(* ===== verification/RegistryDemo.v ===== *)
(** * The registry over the sessions of [Session]

    The theorems of [RegistrySpec] with the sessions of [RegistrySessions] in
    the place of the interface: what holds of every session in the table.  And
    a concrete registry with two sessions over the small event loop and the
    plain cipher, whose owner destroys it as soon as one of them breaks. *)
From stdpp Require Import gmap.
From S2P Require Import Prelude Refinement Fallible Random SipHash Frame Aead ByteQueue MsgQueue Heap Stream StreamSpec StrmTab Valve ReactorApi ClientAuth Conn ConnInv Switchboard SwitchboardRng SwitchboardInv SwitchboardRun Session SessionInv SessionStreams SessionSteps SessionRun SessionSend SessionLife SessionReach SessionSpec SessionDemo StreamDelivery Hlist Registry RegistryInv RegistrySteps RegistryRun RegistryApi RegistryClose RegistrySessions RegistrySpec.

Section whole.
Context {R A B : Type} {RR : Reactor R} {RL : ReactorLaws R} {EV : Evp} {EL : EvpLaws} {HO : Host A}.
#[local] Abbreviation world := (reg_world R (session_host A) B).
Implicit Types w : world.

Variable on_broken : Z -> bytes -> Z -> world -> option world.
Hypothesis owner : owner_keeps on_broken.

End whole.

(** ** Two sessions *)

#[local] Existing Instances evp_plain evp_plain_laws.

#[export] Instance demo_host : Host unit := {|
  host_unlucky := 1;
  host_budget := no_budget;
  host_user _ := SessionUser zero_session ∅ 1 [] ∅ [] tt;
  host_user_new _ := conj eq_refl (conj eq_refl eq_refl)
|}.

#[local] Abbreviation world := (reg_world reactor_lists (session_host unit) unit).

Definition demo_uid : bytes := replicate 16 7.
Definition demo_empty : world :=
  RegWorld zero_registry ∅ 1 [] (ReactorLists [] [] 1) (SessionHost ∅ ∅ (fun _ => 0) (fun _ => 0)) tt.
Definition demo_registry : world := let '(_, w, _) := cloak_server_registry_init true true true (fun _ => 0) demo_empty in w.
Definition demo_create (sid : Z) (w : world) : world :=
  match cloak_server_registry_get_or_create (Some demo_uid) sid (Some demo_session_config) w with Some (_, _, w') => w' | None => w end.
Definition demo_registry1 : world := demo_create 9 demo_registry.
Definition demo_registry2 : world := demo_create 10 demo_registry1.

(** The owner that destroys its registry, and one that does nothing. *)
Definition demo_destroyer (e : Z) (u : bytes) (sid : Z) (w : world) : option world := cloak_server_registry_destroy w.
Definition demo_onlooker (e : Z) (u : bytes) (sid : Z) (w : world) : option world := Some w.

(** Two entries, two timers, one session broken: nothing is left. *)
Example demo_registry_run :
  (cloak_server_registry_count demo_registry2, rl_timers (w_reactor demo_registry2)) = (2, [2; 1]) /\
  option_map (fun w => (cloak_server_registry_count w, rl_timers (w_reactor w), map_to_list (w_entries w)))
    (registry_on_session_broken demo_destroyer 1 demo_registry2) = Some (0, [], []) /\
  option_map (fun w => (cloak_server_registry_count w, rl_timers (w_reactor w)))
    (registry_on_session_broken demo_onlooker 1 demo_registry2) = Some (1, [3; 2; 1]).
Proof. by vm_compute. Qed.

Lemma demo_destroyer_keeps : owner_keeps (SS := host_sessions) demo_destroyer.
Proof.
  intros F e u sid w Hinv _ _. destruct (reg_destroy_spec F true w Hinv) as (w'&Hd&Hinv'&_). exists w'. split; [exact Hd|].
  by eapply inv_dirty.
Qed.


Lemma demo_uid_good : good_uid demo_uid.
Proof. split; [done|]. apply Forall_replicate. unfold is_byte. lia. Qed.

Lemma demo_host_good h : sh_valves h = ∅ -> host_good h (with_adapter demo_session_config).
Proof.
  intros Hv. split; [destruct demo_config_good; by split|]. exists None. split; [done|]. intros e. apply demo_no_valve.
Qed.

Lemma demo_nothing_yet : nothing_yet demo_empty.
Proof.
  split; [done|]. split; [done|]. split; [by split|]. split; [|done]. split; [by split|]. split; [|split; by intros e x].
  split; [intros c; cbn; lia|]. split; [apply zero_rand_ok|apply zero_fair].
Qed.

Section reached.
Variable cb : Z -> bytes -> Z -> world -> option world.

Lemma demo_reached0 : reg_reached cb demo_registry.
Proof.
  destruct (cloak_server_registry_init true true true (fun _ => 0) demo_empty) as [[rc w] tape'] eqn:E.
  assert (demo_registry = w) as -> by (unfold demo_registry; by rewrite E).
  by apply (reached_init cb (fun _ => 0) demo_empty w rc tape' zero_rand_ok demo_nothing_yet).
Qed.

Lemma demo_reached_create sid w : reg_reached cb w -> 0 <= sid < 4294967296 -> sh_valves (w_sessions w) = ∅ ->
  is_Some (cloak_server_registry_get_or_create (Some demo_uid) sid (Some demo_session_config) w) -> reg_reached cb (demo_create sid w).
Proof.
  intros Hr Hs Hv [[[p o] w'] E]. unfold demo_create. rewrite E.
  eapply (reached_step cb (GetOrCreate demo_uid sid demo_session_config)); [exact Hr| |cbn [event_run]; by rewrite E].
  split; [apply demo_uid_good|]. split; [done|]. by apply demo_host_good.
Qed.

Lemma demo_reached : reg_reached cb demo_registry2.
Proof.
  apply demo_reached_create; [apply demo_reached_create; [apply demo_reached0| | |]| | |]; try lia; try (by vm_compute);
    apply not_eq_None_Some; by vm_compute.
Qed.
End reached.

(** ** The theorems at work *)


Lemma registry_refines_table_witness :
  (exists w', cloak_server_registry_find (Some demo_uid) 9 demo_registry2 = Some (1, w')) /\
  (exists w', cloak_server_registry_close (Some demo_uid) 9 demo_registry2 = Some w' /\
     live_table w' = delete (demo_uid, 9) (live_table demo_registry2)) /\
  cloak_server_registry_count demo_registry2 = 2.
Proof.
  destruct (registry_refines_table demo_destroyer demo_destroyer_keeps demo_registry2 demo_uid 9 (demo_reached _) demo_uid_good ltac:(lia))
    as ((w1&Hf&_)&_&(w2&Hc)&_&_&Hn).
  assert (Ht : live_table demo_registry2 !! (demo_uid, 9) = Some 1) by (by vm_compute).
  assert (Hs : size (live_table demo_registry2) = 2%nat) by (by vm_compute). rewrite Ht in Hf. rewrite Hs in Hn.
  split; [exists w1; exact Hf|]. split; [exists w2; exact Hc|exact Hn].
Defined.


Lemma registry_close_all_complete_witness :
  exists w', cloak_server_registry_close_all_for_uid None (Some demo_uid) demo_registry2 = Some (2, w') /\
    forall p f, w_entries w' !! p = Some f -> re_uid f <> demo_uid.
Proof.
  destruct (registry_close_all_complete demo_destroyer demo_destroyer_keeps None demo_registry2 demo_uid (demo_reached _) demo_uid_good I)
    as (n&w'&Hc&_&Hgone&_&Hn). destruct (Hn eq_refl) as [-> _].
  assert (Hs : size (user_entries ∅ demo_registry2 demo_uid) = 2%nat) by (by vm_compute). rewrite Hs in Hc. exists w'. split; [exact Hc|exact Hgone].
Defined.

